(* ===== verification/_CoqProject ===== *)
-Q . S2P
Prelude.v
Frames.v
Slices.v
Sets.v
StakingConfig.v
StakingTypes.v
StakingState.v
NominatorOps.v
Examples.v
CandidateOps.v
Requests.v
Calls.v
SignedCalls.v
RewardFrame.v
Eras.v
NominationLists.v
BondSets.v
CandidateInv.v
CandidateAdd.v
CandidateAdjust.v
CandidateProps.v
RequestFacts.v
StakingInv.v
StakingCore.v
InvCandidates.v
InvRequests.v
InvNominate.v
InvRevoke.v
InvDispatch.v
InvHooks.v
StakingProps.v
EraProps.v
SignedProps.v
Bytes.v
EventTypes.v
EventParsing.v
EventDiscovery.v
EventProps.v
EthTypes.v
RuntimeErrors.v
NodeTypes.v
SummaryTypes.v
BridgeTypes.v
Avn.v
BridgeExamples.v
NodeStake.v
EthBridge.v
BridgeEvents.v
TokenManager.v
BridgeInv.v
AvnProps.v
BridgeCalls.v
BridgeProps.v
VoteProps.v
SettleProps.v
LowerProps.v
TokenProps.v
BridgeFindings.v
NodeRewards.v
NodeManager.v
Anchor.v
NodeInv.v
NodeDispatch.v
NodeExamples.v
NodeProps.v
Watchtower.v
WatchtowerProps.v
Summary.v
Periods.v
PayoutInv.v
PayoutProps.v
Worker.v
WorkerProps.v
SummaryWorker.v
SummaryInv.v
SummaryProps.v
ValidationProps.v
AnchorProps.v
NftManager.v
NftProps.v
