(* ===== verification/Prelude.v ===== *)
(** * AvN parachain: a verification development

    The AvN parachain is a Substrate chain: a runtime made of pallets, each with
    its storage, its calls and its hooks, and nodes around it.  Collators are
    selected by stake ([pallets/parachain-staking]); the validators among them
    run a bridge to a contract on Ethereum ([pallets/avn], [pallets/eth-bridge])
    through which tokens are lifted to the chain and lowered to Ethereum
    ([pallets/token-manager]), and publish there the roots of ranges of blocks
    ([pallets/summary]).  Nodes run by other accounts are registered, send
    heartbeats and are paid ([pallets/node-manager], and by the app chains of
    [pallets/avn-anchor]); as watchtowers they check the roots
    ([pallets/watchtower], [pallets/summary-watchtower]).  NFTs are minted and sold,
    for fiat or on Ethereum ([pallets/nft-manager]).  The nodes of validators
    watch Ethereum for events and report them ([primitives/avn-common],
    [client/external-service]).

    This library translates these parts into Rocq functions and proves what makes
    them correct.  Paths below are under [src/].

    ** How the code is modelled

    A pallet's storage is a [Record] with one field per storage item; its
    functions live in the effect [M S E A] of this file: a function of the state
    that ends in [Ok], in [Err] or in [Panic].  An error keeps the writes made
    before it, as in Rust; [transactional] is the storage layer that FRAME puts
    around a dispatchable, which rolls them back.  Indexing out of range, an
    explicit [expect] and division by zero are [Panic].

    Integers are [Z] at their width: [⊕] and [⊖] saturate at [u128], the wrapping
    operators are written out ([+₃₂], [-₃₂], [+₆₄]), a checked operation is an
    option.  Storage maps are [gmap]s; a [Vec] or [BoundedVec] is a list, with the
    bound tested where the source tests it.  Hashes, signatures and account ids
    are numbers; bytes are lists of numbers below 256.

    The staking pallet and the NFT manager have a state of their own.  The other
    pallets call each other, and share the state [Runtime.t] of [BridgeTypes] with one
    record per pallet and one list of events; [RuntimeErrors] has their errors and origins.

    Code that is not in the repository (the balances, assets and scheduler
    pallets, session keys, [Perbill] and the fixed-point types, the order in which
    a storage map is walked, weight meters, hashing and signature crates, the
    Ethereum node, the host of an off-chain worker) is a field of a class ([Config]
    of the staking pallet, [BridgeConfig], [NodeConfig], [AnchorConfig],
    [WatchtowerConfig], [SummaryConfig], [NftConfig], [WorkerHost], [SummaryHost]) or a variable
    of a section.  What theorems assume of it is a class of laws, and [Examples],
    [BridgeExamples] and [NodeExamples] have instances on which the theorems are
    applied.

    ** Libraries

    - [Prelude] (this file): integers, the effect, its weakest precondition
      [wp] and the tactics [wp_step], [m_inv].
    - [Frames]: what an effect leaves alone ([leaves]) and what it maintains
      ([maintains]), each with a hint database and a tactic that follows the code;
      and [wpp], the weakest precondition of an effect that may also panic.
    - [Slices]: binary search, stable sorting, deduplication, bounded vectors.
    - [Bytes]: big-endian words, slices, UTF-8, decimal numbers.

    ** Staking: [pallets/parachain-staking/src]

    - [Sets] is [set.rs]; [StakingTypes] is the data of [types.rs] and
      [nomination_requests.rs]; [StakingState] the storage, errors and events of
      [lib.rs]; [StakingConfig] the [Config] trait.
    - [NominatorOps] and [CandidateOps] are the methods of [Nominator] and
      [CandidateMetadata] in [types.rs]; [Requests] is [nomination_requests.rs].
    - [Calls] is [calls.rs] and the dispatchables of [lib.rs]; [SignedCalls] the
      dispatchables that carry a proof of a signer, with [proxy_methods.rs], and
      [dispatch], which is all of them.
    - [Eras] has the hooks: growth periods, new eras, selection, snapshots, payouts,
      [session_handler.rs], and the genesis build.

    A nomination is stored twice, with the nominator and in the top or bottom list
    of the candidate.  [NominationLists], [BondSets] and [CandidateInv] describe
    each half by itself: the sorted vectors refine an insertion into a sorted list
    and a finite map from owners to amounts.  [CandidateAdd] and [CandidateAdjust]
    compute what each operation on the lists does on every branch;
    [CandidateProps] states it.  [StakingInv] ties the halves together in one
    invariant, [StakingCore] has the changes it survives, [RequestFacts] the runs
    of scheduling and cancelling, and the files [Inv...] prove that every
    dispatchable and the block hook keep it and never panic.  [StakingProps] states
    this for a single call, for the hook, and for every state a chain of calls and
    blocks reaches.  [EraProps] says what the hooks compute, [RewardFrame] that
    calls do not touch rewards, [SignedProps] that a signed call is one its signer
    authorised, that it cannot be replayed and that the amounts are exact.

    ** Events of Ethereum

    - [EventTypes] is [primitives/avn-common/src/event_types.rs], [EventDiscovery]
      is [event_discovery.rs] beside it.
    - [EventParsing] has the two dispatchers over the parsers, that of
      [pallets/ethereum-events/src/lib.rs] and that of
      [client/external-service/src/ethereum_events_handler.rs], and the node's
      discovery of the events of a block range.

    [EventProps]: events survive being encoded as a log and parsed; the two
    dispatchers agree; the node reports exactly the events of the logs in a range;
    partitions lose and repeat nothing.

    ** The bridge and the token manager

    - [EthTypes] is [primitives/avn-common/src/eth/mod.rs]; [BridgeTypes] the
      storage, errors and events of [pallets/avn], [pallets/eth-bridge] and
      [pallets/token-manager], the state [Runtime.t], and the class of what they
      take from elsewhere.
    - [Avn] is [pallets/avn/src/lib.rs]: validators, quorums, rotation.
    - [EthBridge] is the outgoing half of [pallets/eth-bridge/src]: [request.rs],
      [tx.rs], [util.rs], [eth.rs], [offence.rs] and calls of [lib.rs];
      [BridgeEvents] the incoming half and the admission of unsigned calls.
    - [TokenManager] is [pallets/token-manager/src].

    The bridge is proved against an interface: [BridgeInterfaceNotification] is
    the trait through which it tells other pallets of results, [NotificationLaws]
    what it needs of them; [BridgeCalls] proves that the token manager meets it.
    Likewise [QuorumPolicy] and [QuorumLaws] in [BridgeTypes].  [BridgeInv] and
    [BridgeCalls] reduce every call of the bridge to the few changes it is made of,
    so that an invariant is proved for all calls at once.  [BridgeProps] uses this
    for the queue (no call panics, no request is stranded, requests leave in the
    order they came), [LowerProps] for the life of a lower across both pallets.
    [SettleProps] says what settles a transaction, [VoteProps] that an event is
    processed once, [AvnProps] what the quorums tolerate and that what the
    validators sign is what was asked for, [TokenProps] that transfers conserve
    tokens and relayed calls are authentic.  [BridgeFindings] proves behaviours the
    code does not intend.

    ** Nodes and app chains

    - [NodeTypes] has the types, storage and events of [pallets/node-manager] and
      [pallets/avn-anchor].
    - [NodeStake] is [stake.rs] and the methods of [types.rs], [NodeRewards] is
      [reward.rs] with the heartbeats and the change of period, [NodeManager] the
      dispatchables, hooks, notifications and genesis of [lib.rs]; [Worker] is
      [offchain.rs], what the worker of a node submits.
    - [Anchor] is [pallets/avn-anchor/src].

    [NodeInv] is the invariant of the registry (owners, signing keys, counts and
    stakes agree, and what is staked is reserved), [NodeDispatch] proves it for
    every call, [NodeProps] for every state that the node manager, the bridge and
    the token manager reach together.  [Periods] and [PayoutInv] describe the
    reward periods and the book of what was reported of them; [PayoutProps] shows
    that a period is paid to the nodes that sent heartbeats in it, once each and
    within its reward, and that its payout completes.  [WorkerProps] shows that the
    calls of the worker pass the checks on chain.  [AnchorProps] has the invariants
    of the app chains, across the payout of the node manager that feeds them
    through [AppChainInterface] and [AppChainLaws].

    ** Roots and watchtowers

    - [SummaryTypes] has the types, storage and events of [pallets/summary],
      [pallets/watchtower] and [pallets/summary-watchtower], and the voting session
      of [pallets/avn/src/vote.rs].
    - [Watchtower] is [pallets/watchtower/src] and the adapters of
      [runtime/avn/src/configs/mod.rs] through which it sees the nodes.
    - [Summary] is [pallets/summary/src] without its worker, and
      [pallets/avn/src/vote.rs].
    - [SummaryWorker] is [pallets/summary-watchtower/src], and the workers of both
      pallets.

    [WatchtowerProps]: the ring buffer is a bounded queue, a voter counts once, a
    proposal is decided once and by the votes it got, and a vote that is overdue is
    ended by the next idle block.  It is proved for any pallets behind the hooks,
    under [HookLaws]; a hook may panic, and then the call is rolled back.
    [SummaryInv] and [SummaryProps]: a root is validated once, by a quorum of
    distinct votes; it is sent, refused or still open, never two of these; while
    the schedule is not changed under a pending root, validated ranges tile the
    chain.  This is proved for any watchtower under [ValidatorLaws].
    [ValidationProps] puts the pallets together as the runtime does: the summary
    pallet discharges [HookLaws], the watchtower discharges [ValidatorLaws], and
    every root that waits for the watchtowers has a proposal that is voted on or
    queued.  Runs of this file and of [SummaryProps] and [WatchtowerProps] show
    where the code does not do what it means to.

    ** NFTs

    [NftManager] is [pallets/nft-manager/src].  Its calls carry proofs of a signer and
    can be relayed; the events of Ethereum come from another pallet, whose record of
    processed events is an argument.  [NftProps] has a specification of the pallet,
    eight changes of a book of NFTs with the state in which each makes sense
    ([allowed], [applied]) and the reasons for which it is made ([justified]), and
    shows that every call and event refines it.  From this follow the invariant of
    the book, that owners change only with the owner's signature or by a report of
    Ethereum, and that a signature is good for one use.

    ** Bounds and fuel

    No bound is put on the sizes of states.  Five recursions of the source are not
    structural and have fuel.  The binary search of the standard library, the loop
    over equal amounts of the nomination lists, [slice::chunks] and [str::trim] have
    the length of the list, and the lemmas [binary_search_loop_window],
    [skip_equal_spec], [chunks_fuel_spec] and [strip_done] show that it is enough.
    [process_next_request] calls itself for the next queued request; its fuel is one
    more than the length of the queue, and [process_next_request_fuel_spec] shows
    that it does not run out.

    References of roots are hashes of 48 bytes, which no function keeps apart.  The
    theorems about summaries are about chains in which the roots seen so far have
    distinct references ([distinct_refs] at each step), not about an injective hash.

    ** Not modelled

    Weights and benchmarks do not change what a call does.  The worker of the
    bridge and the external service exchange HTTP messages; the calls they submit
    are modelled, their submission is not.  Storage migrations ran once against
    older layouts.  Not modelled are [pallets/ethereum-events] apart from its
    parsers: its checks are answers of an HTTP service, and most events take the way
    through the bridge; the validators and authors managers, apart from the set of
    validators that the other pallets see; fees, proxying, cross-chain voting and the
    handler of offences, whose state no modelled pallet reads; and the rest of the
    wiring of pallets into the runtimes. *)

From stdpp Require Export prelude gmap sorting strings pretty.
From Stdlib Require Export ZArith Lia.

#[global] Open Scope Z_scope.

(** ** Machine integers

    [u128] balances saturate in the source ([saturating_add],
    [saturating_sub]); plain [+] and [-] on fixed-width integers wrap in the
    release profile the runtime is built with. *)

Definition u8_max : Z := 255.
Definition u32_max : Z := 4294967295.
Definition u64_max : Z := 18446744073709551615.
Definition u128_max : Z := 340282366920938463463374607431768211455.

Definition saturating_add_to (max a b : Z) : Z := Z.min max (a + b).
Definition saturating_sub (a b : Z) : Z := Z.max 0 (a - b).
Definition wrap_to (max a : Z) : Z := a mod (max + 1).

Declare Scope rust_scope.
Delimit Scope rust_scope with rust.
Notation "a ⊕ b" := (saturating_add_to u128_max a b)
  (at level 50, left associativity) : rust_scope.
Notation "a ⊖ b" := (saturating_sub a b)
  (at level 50, left associativity) : rust_scope.
Notation "a ⊕₃₂ b" := (saturating_add_to u32_max a b)
  (at level 50, left associativity) : rust_scope.
Notation "a +₃₂ b" := (wrap_to u32_max (a + b))
  (at level 50, left associativity) : rust_scope.
Notation "a -₃₂ b" := (wrap_to u32_max (a - b))
  (at level 50, left associativity) : rust_scope.
Notation "a +₆₄ b" := (wrap_to u64_max (a + b))
  (at level 50, left associativity) : rust_scope.
Notation "a -₁₂₈ b" := (wrap_to u128_max (a - b))
  (at level 50, left associativity) : rust_scope.
Notation "a +₁₂₈ b" := (wrap_to u128_max (a + b))
  (at level 50, left associativity) : rust_scope.
Notation "a *₁₂₈ b" := (wrap_to u128_max (a * b))
  (at level 40, left associativity) : rust_scope.
#[global] Open Scope rust_scope.

(** [checked_add] and [checked_sub] on balances. *)
Definition checked_add_u128 (a b : Z) : option Z :=
  if bool_decide (a + b <= u128_max) then Some (a + b) else None.
Definition checked_sub_u128 (a b : Z) : option Z :=
  if bool_decide (0 <= a - b) then Some (a - b) else None.

Lemma sat_add_small max a b : a + b <= max → saturating_add_to max a b = a + b.
Proof. unfold saturating_add_to. lia. Qed.
Lemma sat_sub_small a b : b <= a → a ⊖ b = a - b.
Proof. unfold saturating_sub. lia. Qed.
Lemma sat_sub_nonneg a b : 0 <= a ⊖ b.
Proof. unfold saturating_sub. lia. Qed.
Lemma wrap_small max a : 0 <= a <= max → wrap_to max a = a.
Proof. intros. unfold wrap_to. apply Z.mod_small. lia. Qed.
Lemma wrap_nonneg max a : 0 <= max → 0 <= wrap_to max a.
Proof. intros. apply Z.mod_pos_bound. lia. Qed.

(** [Option::unwrap_or]. *)
Definition unwrap_or {A} (a : A) (o : option A) : A := from_option id a o.
#[global] Arguments unwrap_or {A} a !o /.

(** ** The effect of a dispatchable

    A runtime function reads and writes storage, and ends in a value, in a
    [DispatchError] or in a panic ([expect], [unwrap], an index out of
    bounds).  An [Err] keeps the writes made before it: whether they are
    rolled back is decided by the caller ([transactional] below). *)

Inductive outcome (E A : Type) : Type :=
  | Ok (a : A)
  | Err (e : E)
  | Panic.
Arguments Ok {E A} a.
Arguments Err {E A} e.
Arguments Panic {E A}.

Definition M (S E A : Type) : Type := S → outcome E A * S.

Section Monad.
Context {S E : Type}.

#[global] Instance M_ret : MRet (M S E) := λ A a s, (Ok a, s).
#[global] Instance M_bind : MBind (M S E) := λ A B f m s,
  match m s with
  | (Ok a, s') => f a s'
  | (Err e, s') => (Err e, s')
  | (Panic, s') => (Panic, s')
  end.

Definition fail {A} (e : E) : M S E A := λ s, (Err e, s).
Definition panic {A} : M S E A := λ s, (Panic, s).
Definition ensure (b : bool) (e : E) : M S E unit :=
  if b then mret () else fail e.
Definition gets {A} (f : S → A) : M S E A := λ s, (Ok (f s), s).
Definition modify (f : S → S) : M S E unit := λ s, (Ok (), f s).
(** [Option::ok_or(e)?] and [Option::expect]. *)
Definition ok_or {A} (o : option A) (e : E) : M S E A :=
  match o with Some a => mret a | None => fail e end.
Definition expect {A} (o : option A) : M S E A :=
  match o with Some a => mret a | None => panic end.
(** The result as a value: what [match f() { Ok .. Err .. }] sees. *)
Definition try {A} (m : M S E A) : M S E (E + A) := λ s,
  match m s with
  | (Ok a, s') => (Ok (inr a), s')
  | (Err e, s') => (Ok (inl e), s')
  | (Panic, s') => (Panic, s')
  end.
(** [Result::expect]. *)
Definition expect_ok {A} (m : M S E A) : M S E A := λ s,
  match m s with (Err _, s') => (Panic, s') | r => r end.
(** [#[transactional]], and the storage layer FRAME puts around every
    dispatchable: an [Err] restores the storage of the entry. *)
Definition transactional {A} (m : M S E A) : M S E A := λ s,
  match m s with
  | (Ok a, s') => (Ok a, s')
  | (Err e, _) => (Err e, s)
  | (Panic, _) => (Panic, s)
  end.

Fixpoint for_each {A} (f : A → M S E unit) (l : list A) : M S E unit :=
  match l with
  | [] => mret ()
  | x :: l' => f x ;; for_each f l'
  end.
(** A loop that threads a local variable. *)
Fixpoint fold_m {A B} (f : B → A → M S E B) (b : B) (l : list A) : M S E B :=
  match l with
  | [] => mret b
  | x :: l' => b' ← f b x; fold_m f b' l'
  end.
End Monad.

(** ** Reasoning about effects

    [wp m s Q R]: run from [s], [m] does not panic; when it returns a value
    the value and the final storage satisfy [Q], when it returns an error the
    error and the final storage satisfy [R]. *)

Definition wp {S E A} (m : M S E A) (s : S)
    (Q : A → S → Prop) (R : E → S → Prop) : Prop :=
  match m s with
  | (Ok a, s') => Q a s'
  | (Err e, s') => R e s'
  | (Panic, _) => False
  end.

Section WpRules.
Context {S E : Type}.
Implicit Types (s : S) (e : E).

Lemma wp_bind {A B} (m : M S E A) (f : A → M S E B) s Q R :
  wp m s (λ a s', wp (f a) s' Q R) R → wp (m ≫= f) s Q R.
Proof.
  unfold wp, mbind, M_bind. destruct (m s) as [[a|e|] s']; done.
Qed.
Lemma wp_mono {A} (m : M S E A) s (Q Q' : A → S → Prop) (R R' : E → S → Prop) :
  wp m s Q R → (∀ a s', Q a s' → Q' a s') → (∀ e s', R e s' → R' e s') →
  wp m s Q' R'.
Proof. unfold wp. destruct (m s) as [[a|e|] s']; auto. Qed.
Lemma wp_and {A} (m : M S E A) s (Q Q' : A → S → Prop) (R R' : E → S → Prop) :
  wp m s Q R → wp m s Q' R' →
  wp m s (λ a s', Q a s' ∧ Q' a s') (λ e s', R e s' ∧ R' e s').
Proof. unfold wp. destruct (m s) as [[a|e|] s']; auto. Qed.
Lemma wp_ret {A} (a : A) s (Q : A → S → Prop) (R : E → S → Prop) :
  Q a s → wp (mret a) s Q R.
Proof. done. Qed.
Lemma wp_fail {A} e s (Q : A → S → Prop) (R : E → S → Prop) :
  R e s → wp (fail e) s Q R.
Proof. done. Qed.
Lemma wp_gets {A} (f : S → A) s Q (R : E → S → Prop) :
  Q (f s) s → wp (gets f) s Q R.
Proof. done. Qed.
Lemma wp_modify (f : S → S) s Q (R : E → S → Prop) :
  Q () (f s) → wp (modify f) s Q R.
Proof. done. Qed.
Lemma wp_ensure (b : bool) e s Q R :
  (b = true → Q () s) → (b = false → R e s) → wp (ensure b e) s Q R.
Proof. destruct b; unfold wp; simpl; auto. Qed.
Lemma wp_ok_or {A} (o : option A) e s (Q : A → S → Prop) R :
  (∀ a, o = Some a → Q a s) → (o = None → R e s) → wp (ok_or o e) s Q R.
Proof. destruct o; unfold wp; simpl; auto. Qed.
Lemma wp_expect {A} (o : option A) a s (Q : A → S → Prop) (R : E → S → Prop) :
  o = Some a → Q a s → wp (expect o) s Q R.
Proof. intros ->. done. Qed.
Lemma wp_try {A} (m : M S E A) s Q R :
  wp m s (λ a s', Q (inr a) s') (λ e s', Q (inl e) s') → wp (try m) s Q R.
Proof. unfold wp, try. destruct (m s) as [[a|e|] s']; done. Qed.
Lemma wp_expect_ok {A} (m : M S E A) s (Q : A → S → Prop) (R : E → S → Prop) :
  wp m s Q (λ _ _, False) → wp (expect_ok m) s Q R.
Proof. unfold wp, expect_ok. destruct (m s) as [[a|e|] s']; done. Qed.
Lemma wp_transactional {A} (m : M S E A) s (Q : A → S → Prop) (R : E → S → Prop) :
  wp m s Q (λ e _, R e s) → wp (transactional m) s Q R.
Proof. unfold wp, transactional. destruct (m s) as [[a|e|] s']; done. Qed.
Lemma wp_for_each {A} (f : A → M S E unit) (l : list A) (I : list A → S → Prop) s
    (Q : unit → S → Prop) (R : E → S → Prop) :
  I l s →
  (∀ x l' s, I (x :: l') s → wp (f x) s (λ _ s', I l' s') R) →
  (∀ s, I [] s → Q () s) →
  wp (for_each f l) s Q R.
Proof.
  intros Hl Hstep Hend. revert s Hl. induction l as [|x l IH]; intros s Hl.
  - apply wp_ret. auto.
  - simpl. apply wp_bind. eapply wp_mono; [by apply Hstep| |done].
    intros u s' Hs'. simpl. auto.
Qed.
Lemma wp_fold_m {A B} (f : B → A → M S E B) (l : list A) (I : list A → B → S → Prop) b s
    (Q : B → S → Prop) (R : E → S → Prop) :
  I l b s →
  (∀ x l' b s, I (x :: l') b s → wp (f b x) s (λ b' s', I l' b' s') R) →
  (∀ b s, I [] b s → Q b s) →
  wp (fold_m f b l) s Q R.
Proof.
  intros Hl Hstep Hend. revert b s Hl. induction l as [|x l IH]; intros b s Hl.
  - apply wp_ret. auto.
  - simpl. apply wp_bind. eapply wp_mono; [by apply Hstep| |done].
    intros b' s' Hs'. simpl. auto.
Qed.

(** Inversion of a run that returned a value. *)
Lemma bind_Ok {A B} (m : M S E A) (f : A → M S E B) s b s' :
  (m ≫= f) s = (Ok b, s') ↔ ∃ a s1, m s = (Ok a, s1) ∧ f a s1 = (Ok b, s').
Proof.
  unfold mbind, M_bind. destruct (m s) as [[a|e|] s1]; split;
    [eauto 6 | intros (?&?&?&?) | intros | intros (?&?&?&?)
    | intros | intros (?&?&?&?)]; congruence.
Qed.
Lemma ensure_Ok (b : bool) e s u s' :
  ensure b e s = (Ok u, s') ↔ b = true ∧ s' = s.
Proof. destruct b, u; split; cbv; naive_solver. Qed.
Lemma gets_Ok {A} (f : S → A) s a s' :
  gets (E:=E) f s = (Ok a, s') ↔ a = f s ∧ s' = s.
Proof. unfold gets. naive_solver. Qed.
Lemma modify_Ok (f : S → S) s u s' :
  modify (E:=E) f s = (Ok u, s') ↔ s' = f s.
Proof. destruct u. unfold modify. naive_solver. Qed.
Lemma ret_Ok {A} (a b : A) s s' :
  mret (M:=M S E) a s = (Ok b, s') ↔ a = b ∧ s' = s.
Proof. unfold mret, M_ret. naive_solver. Qed.
Lemma ok_or_Ok {A} (o : option A) e s a s' :
  ok_or o e s = (Ok a, s') ↔ o = Some a ∧ s' = s.
Proof. destruct o; cbv; naive_solver. Qed.
Lemma expect_Ok {A} (o : option A) s a s' :
  expect (E:=E) o s = (Ok a, s') ↔ o = Some a ∧ s' = s.
Proof. destruct o; cbv; naive_solver. Qed.
Lemma fail_Ok {A} e s (a : A) s' : fail e s = (Ok a, s') ↔ False.
Proof. unfold fail. naive_solver. Qed.
Lemma transactional_Ok {A} (m : M S E A) s a s' :
  transactional m s = (Ok a, s') ↔ m s = (Ok a, s').
Proof. unfold transactional. destruct (m s) as [[?|?|] ?]; naive_solver. Qed.
(** A dispatchable that fails leaves storage as it found it. *)
Lemma transactional_not_Ok {A} (m : M S E A) s r s' :
  transactional m s = (r, s') → (∀ a, r ≠ Ok a) → s' = s.
Proof.
  unfold transactional. destruct (m s) as [[a|e|] s1]; intros [= <- <-]; try done.
  intros H. by destruct (H a).
Qed.
End WpRules.

#[global] Arguments wp : simpl never.

(** One step of forward execution under [wp]. *)
Ltac wp_step :=
  lazymatch goal with
  | |- wp (mbind _ _) _ _ _ => apply wp_bind
  | |- wp (mret _) _ _ _ => apply wp_ret
  | |- wp (fail _) _ _ _ => apply wp_fail
  | |- wp (gets _) _ _ _ => apply wp_gets
  | |- wp (modify _) _ _ _ => apply wp_modify
  | |- wp (ensure _ _) _ _ _ => apply wp_ensure; intros ?
  | |- wp (ok_or _ _) _ _ _ => apply wp_ok_or; [intros ? ?|intros ?]
  | |- wp (try _) _ _ _ => apply wp_try
  | |- wp (expect_ok _) _ _ _ => apply wp_expect_ok
  | |- wp (transactional _) _ _ _ => apply wp_transactional
  end.

(** Break a successful run into the runs of its steps. *)
Ltac m_inv :=
  repeat match goal with
  | H : (_ ≫= _) _ = (Ok _, _) |- _ =>
      apply bind_Ok in H as (?&?&?&?)
  | H : ensure _ _ _ = (Ok _, _) |- _ => apply ensure_Ok in H as [? ->]
  | H : gets _ _ = (Ok _, _) |- _ => apply gets_Ok in H as [-> ->]
  | H : modify _ _ = (Ok _, _) |- _ => apply modify_Ok in H as ->
  | H : mret _ _ = (Ok _, _) |- _ => apply ret_Ok in H as [? ->]
  | H : ok_or _ _ _ = (Ok _, _) |- _ => apply ok_or_Ok in H as [? ->]
  | H : expect _ _ = (Ok _, _) |- _ => apply expect_Ok in H as [? ->]
  | H : fail _ _ = (Ok _, _) |- _ => apply fail_Ok in H; destruct H
  | H : transactional _ _ = (Ok _, _) |- _ => apply (proj1 (transactional_Ok _ _ _ _)) in H
  end.

(** Reduce binds whose first computation is a known result. *)
Ltac m_red := cbn [expect mret M_ret fst snd]; cbv beta iota zeta.
