(* ===== verification/Frames.v ===== *)
(** * Frames and invariants of effects

    Two ways to reason about a composite operation from its parts: what it
    leaves alone ([leaves]), and what it maintains without panicking
    ([maintains]).  Both follow the shape of the operation. *)

From S2P Require Import Prelude.

(** ** Frames *)

(** [m] leaves what [view] sees as it was, whatever its outcome. *)
Definition leaves {S E A V} (view : S → V) (m : M S E A) : Prop := ∀ s, view (m s).2 = view s.

Section Composition.
Context {S E V : Type} (view : S → V).
Implicit Types (s : S).

Lemma leaves_bind {A B} (m : M S E A) (g : A → M S E B) :
  leaves view m → (∀ a, leaves view (g a)) → leaves view (m ≫= g).
Proof.
  intros Hm Hg s. specialize (Hm s). unfold mbind, M_bind. destruct (m s) as [[a|e|] s']; cbn in *; [|done..].
  by rewrite Hg.
Qed.
Lemma leaves_ret {A} (a : A) : leaves view (mret a : M S E A).
Proof. done. Qed.
Lemma leaves_fail {A} e : leaves view (Prelude.fail e : M S E A).
Proof. done. Qed.
Lemma leaves_panic {A} : leaves view (panic : M S E A).
Proof. done. Qed.
Lemma leaves_lift {A} (r : outcome E A) : leaves view (λ s : S, (r, s)).
Proof. done. Qed.
Lemma leaves_gets {A} (g : S → A) : leaves view (gets g : M S E A).
Proof. done. Qed.
Lemma leaves_modify g : (∀ s, view (g s) = view s) → leaves view (modify g : M S E unit).
Proof. intros Hg s. apply Hg. Qed.
Lemma leaves_ensure b e : leaves view (Prelude.ensure b e : M S E unit).
Proof. by destruct b. Qed.
Lemma leaves_ok_or {A} (o : option A) e : leaves view (Prelude.ok_or o e : M S E A).
Proof. by destruct o. Qed.
Lemma leaves_expect {A} (o : option A) : leaves view (expect o : M S E A).
Proof. by destruct o. Qed.
Lemma leaves_try {A} (m : M S E A) : leaves view m → leaves view (try m).
Proof. intros Hm s. specialize (Hm s). unfold try. by destruct (m s) as [[] ?]. Qed.
Lemma leaves_expect_ok {A} (m : M S E A) : leaves view m → leaves view (expect_ok m).
Proof. intros Hm s. specialize (Hm s). unfold expect_ok. by destruct (m s) as [[] ?]. Qed.
Lemma leaves_transactional {A} (m : M S E A) : leaves view m → leaves view (transactional m).
Proof. intros Hm s. specialize (Hm s). unfold transactional. by destruct (m s) as [[] ?]. Qed.
Lemma leaves_for_each {A} (g : A → M S E unit) l :
  (∀ a, leaves view (g a)) → leaves view (for_each g l).
Proof.
  intros Hg. induction l as [|a l IH]; [apply leaves_ret|]. cbn. by apply leaves_bind.
Qed.
Lemma leaves_fold_m {A B} (g : B → A → M S E B) b l :
  (∀ b a, leaves view (g b a)) → leaves view (fold_m g b l).
Proof.
  intros Hg. revert b. induction l as [|a l IH]; intros b; [apply leaves_ret|]. cbn. by apply leaves_bind.
Qed.
End Composition.

Create HintDb frame.
#[export] Hint Resolve leaves_ret leaves_fail leaves_panic leaves_lift leaves_gets leaves_ensure leaves_ok_or leaves_expect : frame.
(** Follow the shape of an operation; [frame] knows the ones it calls. *)
Ltac leaves_tac :=
  repeat (cbv beta iota zeta; first
    [ solve [eauto 1 with frame]
    | lazymatch goal with
      | |- leaves _ (_ ≫= _) => apply leaves_bind; [|intros ?]
      | |- leaves _ (modify _) => apply leaves_modify; reflexivity
      | |- leaves _ (for_each _ _) => apply leaves_for_each; intros ?
      | |- leaves _ (fold_m _ _ _) => apply leaves_fold_m; intros ? ?
      | |- leaves _ (try _) => apply leaves_try
      | |- leaves _ (expect_ok _) => apply leaves_expect_ok
      | |- leaves _ (transactional _) => apply leaves_transactional
      | |- leaves _ (match ?x with _ => _ end) => destruct x
      | |- leaves _ (match ?x with _ => _ end _) => destruct x
      end ]).

(** ** Invariants *)

(** From a state that satisfies [I], [m] does not panic and ends in one that
    does, whether it returns a value or an error. *)
Definition maintains {S E A} (I : S → Prop) (m : M S E A) : Prop :=
  ∀ s, I s → wp m s (λ _ s', I s') (λ _ s', I s').

Section Maintains.
Context {S E : Type} (I : S → Prop).
Implicit Types (s : S).

Lemma maintains_bind {A B} (m : M S E A) (g : A → M S E B) :
  maintains I m → (∀ a, maintains I (g a)) → maintains I (m ≫= g).
Proof. intros Hm Hg s Hs. apply wp_bind. eapply wp_mono; [by apply Hm|apply Hg|done]. Qed.
Lemma maintains_ret {A} (a : A) : maintains I (mret a : M S E A).
Proof. intros s Hs. by apply wp_ret. Qed.
Lemma maintains_fail {A} e : maintains I (Prelude.fail e : M S E A).
Proof. intros s Hs. by apply wp_fail. Qed.
Lemma maintains_gets {A} (g : S → A) : maintains I (gets g : M S E A).
Proof. intros s Hs. by apply wp_gets. Qed.
Lemma maintains_modify g : (∀ s, I s → I (g s)) → maintains I (modify g : M S E unit).
Proof. intros Hg s Hs. apply wp_modify. auto. Qed.
Lemma maintains_ensure b e : maintains I (Prelude.ensure b e : M S E unit).
Proof. intros s Hs. by apply wp_ensure. Qed.
Lemma maintains_ok_or {A} (o : option A) e : maintains I (Prelude.ok_or o e : M S E A).
Proof. intros s Hs. by apply wp_ok_or. Qed.
Lemma maintains_try {A} (m : M S E A) : maintains I m → maintains I (try m).
Proof. intros Hm s Hs. apply wp_try. eapply wp_mono; [by apply Hm|done..]. Qed.
Lemma maintains_transactional {A} (m : M S E A) : maintains I m → maintains I (transactional m).
Proof. intros Hm s Hs. apply wp_transactional. eapply wp_mono; [by apply Hm|done..]. Qed.
Lemma maintains_for_each {A} (g : A → M S E unit) l :
  (∀ a, maintains I (g a)) → maintains I (for_each g l).
Proof.
  intros Hg. induction l as [|a l IH]; [apply maintains_ret|]. cbn. by apply maintains_bind.
Qed.
End Maintains.

Create HintDb maintain.
#[export] Hint Resolve maintains_ret maintains_fail maintains_gets maintains_ensure maintains_ok_or
  : maintain.
(** Follow the shape of an operation; [maintain] knows the ones it calls. *)
Ltac maintains_tac :=
  repeat (cbv beta iota zeta; first
    [ solve [eauto 2 with maintain]
    | lazymatch goal with
      | |- maintains _ (_ ≫= _) => apply maintains_bind; [|intros ?]
      | |- maintains _ (for_each _ _) => apply maintains_for_each; intros ?
      | |- maintains _ (try _) => apply maintains_try
      | |- maintains _ (transactional _) => apply maintains_transactional
      | |- maintains _ (match ?x with _ => _ end) => destruct x
      | |- maintains _ (match ?x with _ => _ end _) => destruct x
      end ]).

(** ** Invariants of calls

    A call that fails is rolled back, so what it leaves behind then does not
    matter: [m] does not panic and a run that succeeds keeps [I]. *)
Definition keeps {S E A} (I : S → Prop) (m : M S E A) : Prop :=
  ∀ s, I s → wp m s (λ _ s', I s') (λ _ _, True).

Section Keeps.
Context {S E : Type} (I : S → Prop).

Lemma keeps_maintains {A} (m : M S E A) : maintains I m → keeps I m.
Proof. intros Hm s Hs. eapply wp_mono; [by apply Hm|done..]. Qed.
Lemma call_bind {A B} (m : M S E A) (g : A → M S E B) :
  keeps I m → (∀ a, keeps I (g a)) → keeps I (m ≫= g).
Proof. intros Hm Hg s Hs. apply wp_bind. eapply wp_mono; [by apply Hm|apply Hg|done]. Qed.
Lemma call_for_each {A} (g : A → M S E unit) l : (∀ a, keeps I (g a)) → keeps I (for_each g l).
Proof.
  intros Hg. induction l as [|a l IH]; [by apply keeps_maintains, maintains_ret|]. cbn.
  by apply call_bind.
Qed.
Lemma transactional_maintains {A} (m : M S E A) : keeps I m → maintains I (transactional m).
Proof. intros Hm s Hs. apply wp_transactional. eapply wp_mono; [by apply Hm|done..]. Qed.
End Keeps.

(** ** Effects that may panic

    [wpp P m s Q R]: as [wp], but the run may panic when [P] holds. *)
Definition wpp {S E A} (P : Prop) (m : M S E A) (s : S) (Q : A → S → Prop) (R : E → S → Prop) : Prop :=
  match m s with
  | (Ok a, s') => Q a s'
  | (Err e, s') => R e s'
  | (Panic, _) => P
  end.

Section Wpp.
Context {S E : Type} (P : Prop).
Implicit Types (s : S) (e : E).

Lemma wp_wpp {A} (m : M S E A) s Q R : wp m s Q R → wpp P m s Q R.
Proof. unfold wp, wpp. by destruct (m s) as [[] ?]. Qed.
Lemma wpp_bind {A B} (m : M S E A) (f : A → M S E B) s Q R :
  wpp P m s (λ a s', wpp P (f a) s' Q R) R → wpp P (m ≫= f) s Q R.
Proof. unfold wpp, mbind, M_bind. by destruct (m s) as [[] ?]. Qed.
Lemma wpp_mono {A} (m : M S E A) s (Q Q' : A → S → Prop) (R R' : E → S → Prop) :
  wpp P m s Q R → (∀ a s', Q a s' → Q' a s') → (∀ e s', R e s' → R' e s') → wpp P m s Q' R'.
Proof. unfold wpp. destruct (m s) as [[] ?]; auto. Qed.
Lemma wpp_ret {A} (a : A) s (Q : A → S → Prop) (R : E → S → Prop) : Q a s → wpp P (mret a) s Q R.
Proof. done. Qed.
Lemma wpp_fail {A} e s (Q : A → S → Prop) (R : E → S → Prop) : R e s → wpp P (Prelude.fail e) s Q R.
Proof. done. Qed.
Lemma wpp_gets {A} (f : S → A) s Q (R : E → S → Prop) : Q (f s) s → wpp P (gets f) s Q R.
Proof. done. Qed.
Lemma wpp_modify (f : S → S) s Q (R : E → S → Prop) : Q () (f s) → wpp P (modify f) s Q R.
Proof. done. Qed.
Lemma wpp_ensure (b : bool) e s Q R :
  (b = true → Q () s) → (b = false → R e s) → wpp P (Prelude.ensure b e) s Q R.
Proof. destruct b; unfold wpp; cbn; auto. Qed.
Lemma wpp_ok_or {A} (o : option A) e s (Q : A → S → Prop) R :
  (∀ a, o = Some a → Q a s) → (o = None → R e s) → wpp P (Prelude.ok_or o e) s Q R.
Proof. destruct o; unfold wpp; cbn; auto. Qed.
Lemma wpp_try {A} (m : M S E A) s Q R :
  wpp P m s (λ a s', Q (inr a) s') (λ e s', Q (inl e) s') → wpp P (try m) s Q R.
Proof. unfold wpp, try. by destruct (m s) as [[] ?]. Qed.
Lemma wpp_expect_ok {A} (m : M S E A) s (Q : A → S → Prop) (R : E → S → Prop) :
  wpp P m s Q (λ _ _, P) → wpp P (expect_ok m) s Q R.
Proof. unfold wpp, expect_ok. by destruct (m s) as [[] ?]. Qed.
Lemma wpp_expect {A} (o : option A) s (Q : A → S → Prop) (R : E → S → Prop) :
  (∀ a, o = Some a → Q a s) → (o = None → P) → wpp P (expect o) s Q R.
Proof. destruct o; unfold wpp; cbn; auto. Qed.
Lemma wpp_transactional {A} (m : M S E A) s (Q : A → S → Prop) (R : E → S → Prop) :
  wpp P m s Q (λ e _, R e s) → wpp P (transactional m) s Q R.
Proof. unfold wpp, transactional. by destruct (m s) as [[] ?]. Qed.
(** What a run leaves alone it may do without being followed. *)
Lemma wpp_leaves {A V} (view : S → V) (m : M S E A) s v (Q : A → S → Prop) (R : E → S → Prop) :
  leaves view m → view s = v → (m s).1 ≠ Panic ∨ P →
  (∀ a s', view s' = v → Q a s') → (∀ e s', view s' = v → R e s') → wpp P m s Q R.
Proof.
  intros Hl Hv Hp HQ HR. specialize (Hl s). unfold wpp. destruct (m s) as [[a|e|] s']; cbn in *.
  - apply HQ. congruence.
  - apply HR. congruence.
  - by destruct Hp.
Qed.
End Wpp.
#[global] Arguments wpp : simpl never.

Ltac wpp_step :=
  lazymatch goal with
  | |- wpp _ (mbind _ _) _ _ _ => apply wpp_bind
  | |- wpp _ (mret _) _ _ _ => apply wpp_ret
  | |- wpp _ (Prelude.fail _) _ _ _ => apply wpp_fail
  | |- wpp _ (gets _) _ _ _ => apply wpp_gets
  | |- wpp _ (modify _) _ _ _ => apply wpp_modify
  | |- wpp _ (Prelude.ensure _ _) _ _ _ => apply wpp_ensure; intros ?
  | |- wpp _ (Prelude.ok_or _ _) _ _ _ => apply wpp_ok_or; [intros ? ?|intros ?]
  | |- wpp _ (try _) _ _ _ => apply wpp_try
  | |- wpp _ (expect_ok _) _ _ _ => apply wpp_expect_ok
  | |- wpp _ (expect _) _ _ _ => apply wpp_expect; [intros ? ?|intros ?]
  end.

(** Decisions as propositions. *)
Ltac bool_tac :=
  rewrite ?negb_true_iff, ?negb_false_iff, ?bool_decide_eq_true, ?bool_decide_eq_false, <- ?not_eq_None_Some in *.

(** * Sums over finite maps and lists

    [map_sum f m] adds up [f] over the entries of [m]; counting is a sum of ones.
    The lemmas say what a change of one entry does to it. *)

Section MapSums.
Context `{Countable K} {V : Type}.
Implicit Types (m : gmap K V) (f g : K → V → Z) (k : K) (v : V).

Definition map_sum f m : Z := map_fold (λ k v acc, f k v + acc) 0 m.
(** What an entry adds to the sum. *)
Definition term f k m : Z := from_option (f k) 0 (m !! k).

Lemma map_sum_empty f : map_sum f ∅ = 0.
Proof. apply map_fold_empty. Qed.
Lemma map_sum_insert_fresh f k v m :
  m !! k = None → map_sum f (<[k := v]> m) = f k v + map_sum f m.
Proof.
  intros Hk. unfold map_sum. apply (map_fold_insert_L (λ k v acc, f k v + acc)); [|done]. intros. lia.
Qed.
Lemma map_sum_delete f k m : map_sum f (delete k m) = map_sum f m - term f k m.
Proof.
  unfold term. destruct (m !! k) as [v|] eqn:Hk; cbn.
  - rewrite <- (insert_delete_id m k v Hk) at 2.
    rewrite map_sum_insert_fresh by apply lookup_delete_eq. lia.
  - rewrite delete_id by done. lia.
Qed.
Lemma map_sum_insert f k v m : map_sum f (<[k := v]> m) = map_sum f m - term f k m + f k v.
Proof.
  rewrite <- insert_delete_eq, map_sum_insert_fresh by apply lookup_delete_eq.
  rewrite map_sum_delete. lia.
Qed.
Lemma map_sum_ext f g m : (∀ k v, m !! k = Some v → f k v = g k v) → map_sum f m = map_sum g m.
Proof.
  induction m as [|k v m Hk IH] using map_ind; intros Hfg; [by rewrite !map_sum_empty|].
  rewrite !map_sum_insert_fresh by done. rewrite (Hfg k v) by apply lookup_insert_eq.
  rewrite IH; [done|]. intros j w Hj. apply Hfg. rewrite lookup_insert_ne; [done|congruence].
Qed.
Lemma map_sum_nonneg f m : (∀ k v, m !! k = Some v → 0 <= f k v) → 0 <= map_sum f m.
Proof.
  induction m as [|k v m Hk IH] using map_ind; intros Hf; [by rewrite map_sum_empty|].
  rewrite map_sum_insert_fresh by done. specialize (Hf k v) as Hv. rewrite lookup_insert_eq in Hv.
  assert (0 <= map_sum f m); [|specialize (Hv eq_refl); lia].
  apply IH. intros j w Hj. apply Hf. rewrite lookup_insert_ne; [done|congruence].
Qed.
Lemma map_sum_le f g m :
  (∀ k v, m !! k = Some v → f k v <= g k v) → map_sum f m <= map_sum g m.
Proof.
  intros Hfg. assert (0 <= map_sum (λ k v, g k v - f k v) m) as Hd.
  { apply map_sum_nonneg. intros k v Hk. specialize (Hfg k v Hk). lia. }
  assert (map_sum (λ k v, g k v - f k v) m = map_sum g m - map_sum f m); [|lia]. clear.
  induction m as [|k v m Hk IH] using map_ind; [by rewrite !map_sum_empty|].
  rewrite !map_sum_insert_fresh by done. lia.
Qed.
(** One entry is at most the whole when no entry is negative. *)
Lemma map_sum_elem f k v m :
  (∀ k v, m !! k = Some v → 0 <= f k v) → m !! k = Some v → f k v <= map_sum f m.
Proof.
  intros Hf Hk. rewrite <- (insert_delete_id m k v Hk).
  rewrite map_sum_insert_fresh by apply lookup_delete_eq.
  assert (0 <= map_sum f (delete k m)); [|lia].
  apply map_sum_nonneg. intros j w [_ Hj]%lookup_delete_Some. by apply Hf.
Qed.
Lemma map_sum_zero f m : (∀ k v, m !! k = Some v → f k v = 0) → map_sum f m = 0.
Proof.
  intros Hf. rewrite (map_sum_ext f (λ _ _, 0)) by done. clear.
  induction m as [|k v m Hk IH] using map_ind; [by rewrite map_sum_empty|].
  rewrite map_sum_insert_fresh by done. lia.
Qed.

(** Counting. *)
Definition map_count (P : K → V → bool) m : Z := map_sum (λ k v, Z.b2z (P k v)) m.
Lemma map_count_true m : map_count (λ _ _, true) m = Z.of_nat (size m).
Proof.
  unfold map_count. induction m as [|k v m Hk IH] using map_ind; [done|].
  rewrite map_sum_insert_fresh, map_size_insert_None by done. cbn in *. lia.
Qed.
Lemma map_count_le P m : 0 <= map_count P m <= Z.of_nat (size m).
Proof.
  rewrite <- map_count_true. split; [apply map_sum_nonneg|apply map_sum_le]; intros k v _;
    destruct (P k v); cbn; lia.
Qed.
End MapSums.
Arguments map_sum {_ _ _ _} f m : simpl never.
Arguments term {_ _ _ _} f k m : simpl never.

(** ** Lists *)

Definition zsum {A} (f : A → Z) (l : list A) : Z := foldr (λ x acc, f x + acc) 0 l.
Section Lists.
Context {A : Type}.
Implicit Types (f g : A → Z) (l : list A).
Lemma zsum_cons f x l : zsum f (x :: l) = f x + zsum f l.
Proof. done. Qed.
Lemma zsum_app f l k : zsum f (l ++ k) = zsum f l + zsum f k.
Proof. induction l as [|x l IH]; [done|]. rewrite <- app_comm_cons, !zsum_cons, IH. lia. Qed.
Lemma zsum_perm f l k : l ≡ₚ k → zsum f l = zsum f k.
Proof. induction 1; rewrite ?zsum_cons in *; lia. Qed.
Lemma zsum_ext f g l : (∀ x, x ∈ l → f x = g x) → zsum f l = zsum g l.
Proof.
  induction l as [|x l IH]; intros Hfg; [done|]. rewrite !zsum_cons, Hfg by left.
  rewrite IH; [done|]. intros. apply Hfg. by right.
Qed.
Lemma zsum_le f g l : (∀ x, x ∈ l → f x <= g x) → zsum f l <= zsum g l.
Proof.
  induction l as [|x l IH]; intros Hfg; [done|]. rewrite !zsum_cons.
  specialize (Hfg x) as Hx. assert (zsum f l <= zsum g l) by (apply IH; intros; apply Hfg; by right).
  assert (f x <= g x) by (apply Hx; left). lia.
Qed.
Lemma zsum_nonneg f l : (∀ x, x ∈ l → 0 <= f x) → 0 <= zsum f l.
Proof.
  intros Hf. assert (zsum (λ _, 0) l = 0) as <- by (clear; induction l; [done|by rewrite zsum_cons, IHl]).
  by apply zsum_le.
Qed.
Lemma zsum_fmap {B} (h : B → A) f (l : list B) : zsum f (h <$> l) = zsum (f ∘ h) l.
Proof. induction l as [|x l IH]; [done|]. rewrite fmap_cons, !zsum_cons. by rewrite IH. Qed.
Lemma zsum_scale f c l : zsum (λ x, c * f x) l = c * zsum f l.
Proof. induction l as [|x l IH]; [cbn; lia|]. rewrite !zsum_cons, IH. lia. Qed.
End Lists.

Lemma map_sum_list `{Countable K} {V} (f : K → V → Z) (m : gmap K V) :
  map_sum f m = zsum (λ x, f x.1 x.2) (map_to_list m).
Proof.
  induction m as [|k v m Hk IH] using map_ind; [done|].
  rewrite map_sum_insert_fresh by done. rewrite (zsum_perm _ _ _ (map_to_list_insert m k v Hk)).
  by rewrite zsum_cons, IH.
Qed.
