(* ===== verification/Slices.v ===== *)
(** * Slices, vectors and bounded vectors

    The parts of Rust's slice library the pallets use: [binary_search_by] (the
    loop of the 1.88 standard library), the stable [sort_by], [dedup], and
    [Vec]/[BoundedVec] insertion, with the facts their clients rely on. *)

From S2P Require Import Prelude.

(** ** Binary search *)

(** [Result<usize, usize>] of a search: the index of a match, or the index
    at which the target could be inserted. *)
Inductive search_result : Type :=
  | Found (i : nat)
  | NotFound (i : nat).

(** The [while size > 1] loop; [f x] compares [x] with the target. *)
Fixpoint binary_search_loop {A} (fuel : nat) (f : A → comparison) (l : list A)
    (base size : nat) : nat :=
  match fuel with
  | O => base
  | S fuel' =>
      if bool_decide (size ≤ 1)%nat then base else
      let half := (size `div` 2)%nat in
      let mid := (base + half)%nat in
      let base' := match f <$> l !! mid with Some Gt => base | _ => mid end in
      binary_search_loop fuel' f l base' (size - half)%nat
  end.

Definition binary_search_by {A} (f : A → comparison) (l : list A) : search_result :=
  if bool_decide (length l = 0%nat) then NotFound 0 else
  let base := binary_search_loop (length l) f l 0 (length l) in
  match f <$> l !! base with
  | Some Eq => Found base
  | Some Lt => NotFound (S base)
  | _ => NotFound base
  end.

(** ** Sorting *)

Fixpoint insert_by {A} (cmp : A → A → comparison) (x : A) (l : list A) : list A :=
  match l with
  | [] => [x]
  | y :: l' =>
      match cmp x y with
      | Gt => y :: insert_by cmp x l'
      | _ => x :: y :: l'
      end
  end.
(** The stable sort of [slice::sort_by]: equal elements keep their order. *)
Definition sort_by {A} (cmp : A → A → comparison) (l : list A) : list A :=
  foldr (insert_by cmp) [] l.

(** [Vec::dedup] keeps the first of each run of equal elements. *)
Fixpoint dedup_by {A} (eqb : A → A → bool) (l : list A) : list A :=
  match l with
  | [] => []
  | x :: l' =>
      match dedup_by eqb l' with
      | [] => [x]
      | y :: l'' => if eqb x y then x :: l'' else x :: y :: l''
      end
  end.

(** ** Vectors *)

Definition vec_insert {A} (i : nat) (x : A) (l : list A) : list A :=
  take i l ++ x :: drop i l.
(** [BoundedVec::try_push] and [BoundedVec::try_insert]: [None] at capacity. *)
Definition try_push {A} (cap : nat) (l : list A) (x : A) : option (list A) :=
  if bool_decide (length l < cap)%nat then Some (l ++ [x]) else None.
Definition try_insert_at {A} (cap i : nat) (l : list A) (x : A) : option (list A) :=
  if bool_decide (length l < cap)%nat then Some (vec_insert i x l) else None.
(** [iter().position(p)]. *)
Definition position {A} (p : A → bool) (l : list A) : option nat :=
  fst <$> list_find p l.

(** ** Specification of the search *)

(** [f] is the comparison of a sorted slice with a target: once it is not
    [Lt] it stays so, and once it is [Gt] it stays [Gt]. *)
Definition search_sorted {A} (f : A → comparison) (l : list A) : Prop :=
  ∀ i j x y, (i < j)%nat → l !! i = Some x → l !! j = Some y →
    (f y = Lt → f x = Lt) ∧ (f x = Gt → f y = Gt).

(** ** Permutations up to the order of [++] and [::] *)

Lemma perm_here {A} (x : A) l r : l ≡ₚ r → x :: l ≡ₚ x :: r.
Proof. by intros ->. Qed.
Lemma perm_later {A} (x y : A) l r r' : r ≡ₚ x :: r' → l ≡ₚ y :: r' → x :: l ≡ₚ y :: r.
Proof. intros -> ->. apply Permutation_swap. Qed.
Lemma perm_pick {A} (x z : A) r r' : r ≡ₚ x :: r' → z :: r ≡ₚ x :: z :: r'.
Proof. intros ->. apply Permutation_swap. Qed.

(** Move every [::] to the front, then match the heads one by one. *)
Ltac perm_norm :=
  cbn [app]; rewrite <-?app_assoc; cbn [app]; rewrite ?app_nil_r;
  repeat (rewrite <-!Permutation_middle; cbn [app]); rewrite ?app_nil_r.
Ltac perm_pick :=
  first [reflexivity | apply perm_pick; perm_pick].
Ltac perm_heads :=
  first [reflexivity | apply perm_here; perm_heads
        | eapply perm_later; [perm_pick|]; perm_heads
        | apply Permutation_app_comm].
Ltac solve_perm := perm_norm; perm_heads.

Section Search.
Context {A : Type} (f : A → comparison) (l : list A).

(** What the loop keeps: everything past the window is greater than the
    target, and its base, unless it is the first element, is not. *)
Definition search_window (base size : nat) : Prop :=
  (0 < size)%nat ∧ (base + size ≤ length l)%nat ∧
  (∀ j x, (base + size ≤ j)%nat → l !! j = Some x → f x = Gt) ∧
  (∀ x, (0 < base)%nat → l !! base = Some x → f x ≠ Gt).

Lemma binary_search_loop_window fuel base size :
  search_sorted f l → search_window base size → (size ≤ S fuel)%nat →
  search_window (binary_search_loop fuel f l base size) 1.
Proof.
  intros Hs. revert base size.
  induction fuel as [|fuel IH]; intros base size (Hpos&Hlen&Hgt&Hbase) Hfuel;
    cbn [binary_search_loop].
  { assert (size = 1%nat) as -> by lia. by split_and!. }
  case_bool_decide as Hsz.
  { assert (size = 1%nat) as -> by lia. by split_and!. }
  pose proof (Nat.div_lt size 2 ltac:(lia) ltac:(lia)).
  assert (1 ≤ size `div` 2)%nat by (apply Nat.div_le_lower_bound; lia).
  pose proof (Nat.Div0.mul_div_le size 2).
  set (half := (size `div` 2)%nat) in *.
  destruct (lookup_lt_is_Some_2 l (base + half)) as [m Hm]; [lia|].
  cbv zeta. fold half. rewrite Hm. cbn [fmap option_fmap option_map].
  destruct (f m) eqn:Hfm; apply IH; try lia.
  - split_and!; [lia|lia| |congruence].
    intros j x Hj. apply Hgt. lia.
  - split_and!; [lia|lia| |congruence].
    intros j x Hj. apply Hgt. lia.
  - split_and!; [lia|lia| |done].
    intros j x Hj Hx.
    destruct (decide (j = base + half)%nat) as [->|Hne]; [congruence|].
    destruct (Hs (base + half)%nat j m x ltac:(lia) Hm Hx) as [_ ?]. auto.
Qed.

(** The contract of [slice::binary_search_by] on a sorted slice. *)
Lemma binary_search_by_spec :
  search_sorted f l →
  match binary_search_by f l with
  | Found i => ∃ x, l !! i = Some x ∧ f x = Eq
  | NotFound i =>
      (i ≤ length l)%nat ∧
      (∀ j x, (j < i)%nat → l !! j = Some x → f x = Lt) ∧
      (∀ j x, (i ≤ j)%nat → l !! j = Some x → f x = Gt)
  end.
Proof.
  intros Hs. unfold binary_search_by. case_bool_decide as Hl.
  { split_and!; intros; [lia|lia|]. apply lookup_lt_Some in H0. lia. }
  destruct (binary_search_loop_window (length l) 0 (length l)) as (_&Hlen&Hgt&Hb);
    [done| |lia|].
  { split_and!; [lia|lia| |lia]. intros j x ? Hx%lookup_lt_Some. lia. }
  set (base := binary_search_loop _ _ _ _ _) in *.
  destruct (lookup_lt_is_Some_2 l base) as [m Hm]; [lia|].
  rewrite Hm. simpl. destruct (f m) eqn:Hfm.
  - eauto.
  - split_and!; [lia| |intros; eapply Hgt; [|done]; lia].
    intros j x Hj Hx. destruct (decide (j = base)) as [->|]; [congruence|].
    destruct (Hs j base x m ltac:(lia) Hx Hm). auto.
  - assert (base = 0%nat) as Hb0.
    { destruct (decide (base = 0%nat)); [done|]. destruct (Hb m); [lia|done|done]. }
    rewrite Hb0 in *. split_and!; [lia|lia|].
    intros j x _ Hx. destruct (decide (j = 0%nat)) as [->|]; [congruence|].
    apply (Hgt j x); [lia|done].
Qed.
End Search.

Lemma Forall_take_lookup {A} (P : A → Prop) (l : list A) i :
  (∀ j x, (j < i)%nat → l !! j = Some x → P x) → Forall P (take i l).
Proof.
  intros H. apply Forall_lookup_2. intros j x Hx.
  destruct (decide (j < i)%nat).
  - rewrite lookup_take_lt in Hx by done. eauto.
  - rewrite lookup_take_ge in Hx by lia. done.
Qed.
Lemma Forall_drop_lookup {A} (P : A → Prop) (l : list A) i :
  (∀ j x, (i ≤ j)%nat → l !! j = Some x → P x) → Forall P (drop i l).
Proof.
  intros H. apply Forall_lookup_2. intros j x. rewrite lookup_drop.
  apply H. lia.
Qed.

(** The search, as a split of the slice. *)
Lemma binary_search_by_split {A} (f : A → comparison) (l : list A) :
  search_sorted f l →
  match binary_search_by f l with
  | Found i => ∃ l1 x l2, l = l1 ++ x :: l2 ∧ length l1 = i ∧ f x = Eq
  | NotFound i => ∃ l1 l2, l = l1 ++ l2 ∧ length l1 = i ∧
      Forall (λ x, f x = Lt) l1 ∧ Forall (λ x, f x = Gt) l2
  end.
Proof.
  intros Hs. pose proof (binary_search_by_spec f l Hs) as H.
  destruct (binary_search_by f l) as [i|i].
  - destruct H as (x&Hx&Heq). exists (take i l), x, (drop (S i) l).
    rewrite take_drop_middle by done. split_and!; [done| |done].
    apply length_take_le. apply lookup_lt_Some in Hx. lia.
  - destruct H as (Hi&Hlt&Hgt). exists (take i l), (drop i l).
    rewrite take_drop. split_and!; [done|by apply length_take_le| |].
    + by apply Forall_take_lookup.
    + by apply Forall_drop_lookup.
Qed.

(** ** Vectors: insertion and removal *)

Lemma vec_insert_app {A} (l1 l2 : list A) x :
  vec_insert (length l1) x (l1 ++ l2) = l1 ++ x :: l2.
Proof. unfold vec_insert. by rewrite take_app_length, drop_app_length. Qed.
Lemma vec_insert_perm {A} i (x : A) l : vec_insert i x l ≡ₚ x :: l.
Proof.
  unfold vec_insert. rewrite <-(take_drop i l) at 3. by rewrite Permutation_middle.
Qed.

Lemma position_Some {A} (p : A → bool) (l : list A) i :
  position p l = Some i →
  ∃ l1 x l2, l = l1 ++ x :: l2 ∧ length l1 = i ∧ p x = true ∧
    Forall (λ y, p y = false) l1.
Proof.
  unfold position. rewrite fmap_Some. intros ([i' x]&Hf&->).
  apply list_find_Some in Hf as (Hx&Hp&Hbefore). simpl.
  exists (take i' l), x, (drop (S i') l).
  rewrite take_drop_middle by done. split_and!; [done| | |].
  - apply length_take_le. apply lookup_lt_Some in Hx. lia.
  - by apply Is_true_true.
  - apply Forall_take_lookup. intros j y Hj Hy. apply Is_true_false.
    eapply Hbefore; eauto.
Qed.
Lemma position_None {A} (p : A → bool) (l : list A) :
  position p l = None ↔ Forall (λ y, p y = false) l.
Proof.
  unfold position. rewrite fmap_None, list_find_None.
  apply Forall_proper; [|done]. intros y. by rewrite Is_true_false.
Qed.
Lemma position_app_cons {A} (p : A → bool) l1 x l2 :
  Forall (λ y, p y = false) l1 → p x = true →
  position p (l1 ++ x :: l2) = Some (length l1).
Proof.
  intros Hl Hx. unfold position. induction Hl as [|y l1 Hy Hl IH]; simpl.
  - rewrite decide_True by (by apply Is_true_true). done.
  - rewrite decide_False by (rewrite Hy; auto).
    destruct (list_find p (l1 ++ x :: l2)) as [[j z]|]; simplify_eq/=; done.
Qed.
Lemma delete_app_cons {A} (l1 l2 : list A) x :
  delete (length l1) (l1 ++ x :: l2) = l1 ++ l2.
Proof. by rewrite delete_middle. Qed.

(** ** Sorting *)

Lemma StronglySorted_impl {A} (R R' : relation A) (l : list A) :
  (∀ x y, R x y → R' x y) → StronglySorted R l → StronglySorted R' l.
Proof.
  intros HR. induction 1 as [|x l Hl IH Hx]; constructor; [done|].
  eapply Forall_impl; [exact Hx|]. auto.
Qed.
Lemma StronglySorted_filter {A} (R : relation A) (P : A → Prop) `{∀ x, Decision (P x)}
    (l : list A) : StronglySorted R l → StronglySorted R (filter P l).
Proof.
  induction 1 as [|x l Hl IH Hx]; [constructor|]. rewrite filter_cons.
  case_decide; [|done]. constructor; [done|].
  apply Forall_forall. intros y [_ Hy]%list_elem_of_filter.
  by rewrite Forall_forall in Hx; apply Hx.
Qed.

Lemma filter_all {A} (P : A → Prop) `{∀ x, Decision (P x)} (l : list A) :
  (∀ x, x ∈ l → P x) → filter P l = l.
Proof.
  induction l as [|x l IH]; intros Hl; [done|].
  rewrite filter_cons_True by (apply Hl; set_solver). f_equal. apply IH. set_solver.
Qed.

Section SortBy.
Context {A : Type} (cmp : A → A → comparison).
Hypothesis cmp_total : ∀ x y, cmp x y = Gt → cmp y x ≠ Gt.
Hypothesis cmp_trans : ∀ x y z, cmp x y ≠ Gt → cmp y z ≠ Gt → cmp x z ≠ Gt.
Let le x y := cmp x y ≠ Gt.

Lemma insert_by_perm x l : insert_by cmp x l ≡ₚ x :: l.
Proof.
  induction l as [|y l IH]; simpl; [done|]. destruct (cmp x y); [done|done|].
  rewrite IH. apply Permutation_swap.
Qed.
Lemma sort_by_perm l : sort_by cmp l ≡ₚ l.
Proof. induction l as [|x l IH]; simpl; [done|]. by rewrite insert_by_perm, IH. Qed.
Lemma insert_by_sorted x l : StronglySorted le l → StronglySorted le (insert_by cmp x l).
Proof using cmp_total cmp_trans.
  induction l as [|y l IH]; simpl; intros Hl.
  { repeat constructor. }
  apply StronglySorted_cons in Hl as [Hy Hl]. destruct (cmp x y) eqn:Hc.
  1,2: apply StronglySorted_cons; split; [|by apply StronglySorted_cons];
    constructor; [unfold le; congruence|];
    eapply Forall_impl; [exact Hy|]; intros z Hz;
    eapply cmp_trans; [|exact Hz]; congruence.
  apply StronglySorted_cons. split; [|by apply IH].
  rewrite insert_by_perm. constructor; [by apply cmp_total|done].
Qed.
Lemma sort_by_sorted l : StronglySorted le (sort_by cmp l).
Proof using cmp_total cmp_trans.
  induction l as [|x l IH]; simpl; [constructor|]. by apply insert_by_sorted.
Qed.
(** Stability, in the form the pallets use: sorting a sorted list does
    nothing. *)
Lemma sort_by_sorted_id l : StronglySorted le l → sort_by cmp l = l.
Proof.
  induction l as [|x l IH]; simpl; [done|]. intros [Hx Hl]%StronglySorted_cons.
  rewrite IH by done. destruct Hx as [|y l Hy]; simpl; [done|].
  unfold le in Hy. by destruct (cmp x y).
Qed.
End SortBy.

(** ** Sums over a list *)

Definition sum_of {A} (f : A → Z) (l : list A) : Z := foldr (λ x acc, f x + acc) 0 l.
#[global] Arguments sum_of : simpl never.

Section SumOf.
Context {A : Type}.
Implicit Types (f g : A → Z) (l : list A).

Lemma sum_of_nil f : sum_of f [] = 0.
Proof. done. Qed.
Lemma sum_of_cons f x l : sum_of f (x :: l) = f x + sum_of f l.
Proof. done. Qed.
Lemma sum_of_app f l1 l2 : sum_of f (l1 ++ l2) = sum_of f l1 + sum_of f l2.
Proof.
  induction l1 as [|x l1 IH]; [done|]. cbn [app]. rewrite !sum_of_cons, IH. lia.
Qed.
#[export] Instance sum_of_perm f : Proper ((≡ₚ) ==> (=)) (sum_of f).
Proof. induction 1; rewrite ?sum_of_cons; lia. Qed.
Lemma sum_of_le f g l : (∀ x, x ∈ l → f x <= g x) → sum_of f l <= sum_of g l.
Proof.
  induction l as [|x l IH]; intros Hle; [done|]. rewrite !sum_of_cons.
  apply Z.add_le_mono; [apply Hle; set_solver|apply IH; set_solver].
Qed.
Lemma sum_of_ext f g l : (∀ x, x ∈ l → f x = g x) → sum_of f l = sum_of g l.
Proof.
  intros Heq. apply Z.le_antisymm; apply sum_of_le; intros x Hx; by rewrite Heq.
Qed.
Lemma sum_of_nonneg f l : (∀ x, x ∈ l → 0 <= f x) → 0 <= sum_of f l.
Proof.
  induction l as [|x l IH]; intros Hf; [done|]. rewrite sum_of_cons.
  apply Z.add_nonneg_nonneg; [apply Hf; set_solver|apply IH; set_solver].
Qed.
Lemma sum_of_elem f l x : (∀ x, x ∈ l → 0 <= f x) → x ∈ l → f x <= sum_of f l.
Proof.
  intros Hf (l1&l2&->)%list_elem_of_split. rewrite sum_of_app, sum_of_cons.
  assert (0 <= sum_of f l1) by (apply sum_of_nonneg; set_solver).
  assert (0 <= sum_of f l2) by (apply sum_of_nonneg; set_solver). lia.
Qed.
Lemma sum_of_submseteq f l k : (∀ x, 0 <= f x) → l ⊆+ k → sum_of f l <= sum_of f k.
Proof.
  intros Hf [k' ->]%submseteq_Permutation. rewrite sum_of_app.
  assert (0 <= sum_of f k') by (apply sum_of_nonneg; intros; apply Hf). lia.
Qed.
Lemma sum_of_filter f P `{∀ x, Decision (P x)} l :
  sum_of f (filter P l) = sum_of (λ x, if decide (P x) then f x else 0) l.
Proof.
  induction l as [|x l IH]; [done|]. rewrite filter_cons, sum_of_cons.
  destruct (decide (P x)); rewrite ?sum_of_cons; lia.
Qed.
End SumOf.
Lemma sum_of_fmap {A B} (f : B → Z) (g : A → B) (l : list A) :
  sum_of f (g <$> l) = sum_of (f ∘ g) l.
Proof. induction l as [|x l IH]; [done|]. cbn [fmap list_fmap]. by rewrite !sum_of_cons, IH. Qed.

(** * Prefixes of storage double maps

    [StorageDoubleMap::iter_prefix] visits the entries under a first key in the
    order of the hashes of their second keys.  The hash is a parameter [position];
    the hashers of the pallets append the key, so it is injective. *)

Section Prefixes.
Context `{Countable K1} `{Countable K2} {V : Type} (position : K2 → N).
Implicit Types (m : gmap (K1 * K2) V) (p : K1) (k : K2) (v : V) (l : list (K2 * V)).

Definition cmp_position (x y : K2 * V) : comparison := (position x.1 ?= position y.1)%N.
Definition prefix_of p m : list (K2 * V) :=
  sort_by cmp_position
    (omap (λ '((q, k), v), if bool_decide (q = p) then Some (k, v) else None) (map_to_list m)).

Definition ordered l : Prop := StronglySorted (λ x y, (position x.1 <= position y.1)%N) l.
Lemma cmp_position_le x y : cmp_position x y ≠ Gt ↔ (position x.1 <= position y.1)%N.
Proof. unfold cmp_position. by rewrite N.compare_ngt_iff, N.nlt_ge. Qed.

Lemma prefix_perm p m :
  prefix_of p m ≡ₚ
    omap (λ '((q, k), v), if bool_decide (q = p) then Some (k, v) else None) (map_to_list m).
Proof. apply sort_by_perm. Qed.
Lemma prefix_elem p m k v : (k, v) ∈ prefix_of p m ↔ m !! (p, k) = Some v.
Proof.
  rewrite prefix_perm, list_elem_of_omap. split.
  - intros ([[q k'] v']&Hin&He). case_bool_decide; simplify_eq. by apply elem_of_map_to_list.
  - intros Hm. exists ((p, k), v). split; [by apply elem_of_map_to_list|]. by rewrite bool_decide_true.
Qed.
Lemma prefix_ordered p m : ordered (prefix_of p m).
Proof.
  eapply StronglySorted_impl; [|apply sort_by_sorted].
  - intros x y. by rewrite cmp_position_le.
  - intros x y. unfold cmp_position. rewrite N.compare_gt_iff, N.compare_ngt_iff. lia.
  - intros x y z. rewrite !cmp_position_le. lia.
Qed.
Lemma prefix_nodup p m : NoDup (prefix_of p m).*1.
Proof.
  rewrite prefix_perm. pose proof (NoDup_fst_map_to_list m) as Hl. revert Hl.
  induction (map_to_list m) as [|[[q k] v] l IH]; cbn; [constructor|].
  intros [Hk Hl]%NoDup_cons. case_bool_decide as Hq; cbn; [|by apply IH]. subst q.
  constructor; [|by apply IH]. intros ([k' v']&->&Hin)%list_elem_of_fmap. apply Hk.
  apply list_elem_of_omap in Hin as ([[q'' k''] v'']&Hin&He). case_bool_decide; simplify_eq.
  by apply (list_elem_of_fmap_2 fst) in Hin.
Qed.

(** ** The entries in order are determined by the map *)

Context `{!Inj (=) (=) position}.

Lemma nodup_key_eq l (x y : K2 * V) : NoDup l.*1 → x ∈ l → y ∈ l → x.1 = y.1 → x = y.
Proof.
  intros Hn Hx Hy He. apply list_elem_of_lookup in Hx as [i Hi]. apply list_elem_of_lookup in Hy as [j Hj].
  assert (i = j) as ->; [|congruence].
  eapply NoDup_lookup; [exact Hn|by rewrite list_lookup_fmap, Hi|]. rewrite list_lookup_fmap, Hj. cbn. by rewrite He.
Qed.
Lemma ordered_unique l l' :
  ordered l → ordered l' → NoDup l.*1 → NoDup l'.*1 → (∀ x, x ∈ l ↔ x ∈ l') → l = l'.
Proof.
  intros Ho Ho' Hn Hn' He. eapply StronglySorted_unique_strong; [|exact Ho|exact Ho'|].
  - cbn. intros x y Hx%He Hy Hxy Hyx. apply (nodup_key_eq l'); [done|done|done|].
    apply (inj position). lia.
  - apply NoDup_Permutation; [by eapply NoDup_fmap_1|by eapply NoDup_fmap_1|done].
Qed.
Lemma prefix_unique p m l :
  ordered l → NoDup l.*1 → (∀ k v, (k, v) ∈ l ↔ m !! (p, k) = Some v) → prefix_of p m = l.
Proof.
  intros Ho Hn He. apply ordered_unique; [apply prefix_ordered|done|apply prefix_nodup|done|].
  intros [k v]. by rewrite prefix_elem, He.
Qed.
Lemma prefix_ext p m m' : (∀ k, m !! (p, k) = m' !! (p, k)) → prefix_of p m = prefix_of p m'.
Proof.
  intros He. apply prefix_unique; [apply prefix_ordered|apply prefix_nodup|].
  intros k v. by rewrite prefix_elem, He.
Qed.
Lemma prefix_nil p m : prefix_of p m = [] ↔ ∀ k, m !! (p, k) = None.
Proof.
  split.
  - intros Hp k. destruct (m !! (p, k)) as [v|] eqn:Hk; [|done]. apply prefix_elem in Hk. rewrite Hp in Hk.
    by apply not_elem_of_nil in Hk.
  - intros Hk. destruct (prefix_of p m) as [|[k v] l] eqn:Hl; [done|].
    assert ((k, v) ∈ prefix_of p m) as He%prefix_elem by (rewrite Hl; left). by rewrite Hk in He.
Qed.

(** Without the entries that come first, the others are left in their order. *)
Definition delete_all p (ks : list K2) m : gmap (K1 * K2) V := foldr (λ k m, delete (p, k) m) m ks.
Lemma delete_all_lookup p ks m q k :
  delete_all p ks m !! (q, k) = if decide (q = p ∧ k ∈ ks) then None else m !! (q, k).
Proof.
  induction ks as [|k' ks IH]; cbn [delete_all foldr].
  - rewrite decide_False; [done|]. by intros [_ ?%not_elem_of_nil].
  - fold (delete_all p ks m). destruct (decide ((q, k) = (p, k'))) as [He|Hne].
    + simplify_eq. rewrite lookup_delete_eq, decide_True; [done|]. split; [done|left].
    + rewrite lookup_delete_ne by congruence. rewrite IH. apply decide_ext. rewrite elem_of_cons. naive_solver.
Qed.
Lemma delete_all_cons p k ks m : delete_all p (k :: ks) m = delete_all p ks (delete (p, k) m).
Proof.
  apply map_eq. intros [q k']. rewrite !delete_all_lookup.
  destruct (decide ((q, k') = (p, k))) as [He|Hne].
  - simplify_eq. rewrite lookup_delete_eq, decide_True; [by case_decide|]. split; [done|left].
  - rewrite lookup_delete_ne by congruence. apply decide_ext. rewrite elem_of_cons. naive_solver.
Qed.
Lemma prefix_drop p m n :
  prefix_of p (delete_all p (take n (prefix_of p m)).*1 m) = drop n (prefix_of p m).
Proof.
  pose proof (prefix_nodup p m) as Hn. pose proof (prefix_ordered p m) as Ho.
  pose proof (take_drop n (prefix_of p m)) as Hl. rewrite <- Hl in Hn, Ho. rewrite fmap_app in Hn.
  apply NoDup_app in Hn as (Hn1&Hd&Hn2).
  apply prefix_unique; [by eapply StronglySorted_app_1_r|done|].
  intros k v. rewrite delete_all_lookup. split.
  - intros Hin. rewrite decide_False.
    + apply prefix_elem. rewrite <- Hl. apply elem_of_app. by right.
    + intros [_ Hk]. apply (Hd k Hk). by apply (list_elem_of_fmap_2 fst) in Hin.
  - intros Hm. case_decide as Hc; [done|]. apply prefix_elem in Hm. rewrite <- Hl in Hm.
    apply elem_of_app in Hm as [Hm|Hm]; [|done]. destruct Hc. split; [done|].
    by apply (list_elem_of_fmap_2 fst) in Hm.
Qed.
Lemma prefix_delete_other p q ks m : p ≠ q → prefix_of q (delete_all p ks m) = prefix_of q m.
Proof.
  intros Hne. apply prefix_ext. intros k. rewrite delete_all_lookup, decide_False; [done|naive_solver].
Qed.
Lemma prefix_insert p m k v :
  prefix_of p (<[(p, k) := v]> m) ≡ₚ (k, v) :: prefix_of p (delete (p, k) m).
Proof.
  apply NoDup_Permutation.
  - eapply NoDup_fmap_1, prefix_nodup.
  - constructor; [|eapply NoDup_fmap_1, prefix_nodup]. by rewrite prefix_elem, lookup_delete_eq.
  - intros [k' v']. rewrite elem_of_cons, !prefix_elem.
    destruct (decide (k' = k)) as [->|Hne].
    + rewrite lookup_insert_eq, lookup_delete_eq. naive_solver.
    + rewrite lookup_insert_ne, lookup_delete_ne by congruence. naive_solver.
Qed.
Lemma prefix_lookup p m k v : m !! (p, k) = Some v → prefix_of p m ≡ₚ (k, v) :: prefix_of p (delete (p, k) m).
Proof. intros Hk. rewrite <- prefix_insert. by rewrite insert_id. Qed.
Lemma prefix_delete_none p m k : m !! (p, k) = None → prefix_of p (delete (p, k) m) = prefix_of p m.
Proof. intros Hk. by rewrite delete_id. Qed.
End Prefixes.
