(* ===== verification/Sets.v ===== *)
(** * Ordered sets backed by vectors

    [pallets/parachain-staking/src/set.rs]: [OrderedSet] over a [Vec] and
    [BoundedOrderedSet] over a [BoundedVec], for any element type with a Rust
    [Ord].  Equality is that of [Ord]: two elements that compare [Eq] are the
    same member even when they differ (a [Bond] compares by its owner). *)

From S2P Require Import Prelude Slices.

(** Rust's [Ord] and what its documentation demands of [cmp]. *)
Class Ord (T : Type) := ord_cmp : T → T → comparison.
Class OrdLaws (T : Type) `{Ord T} : Prop := {
  ord_antisym (x y : T) : ord_cmp y x = CompOpp (ord_cmp x y);
  ord_trans (x y z : T) : ord_cmp x y = Lt → ord_cmp y z = Lt → ord_cmp x z = Lt;
  ord_eq_l (x y z : T) : ord_cmp x y = Eq → ord_cmp x z = ord_cmp y z;
}.

Definition ord_lt {T} `{Ord T} (x y : T) : Prop := ord_cmp x y = Lt.
Definition ord_eqb {T} `{Ord T} (x y : T) : bool :=
  match ord_cmp x y with Eq => true | _ => false end.
(** [slice::binary_search]. *)
Definition binary_search {T} `{Ord T} (value : T) (l : list T) : search_result :=
  binary_search_by (λ x, ord_cmp x value) l.

Module OrderedSet.
Section S.
Context {T : Type} `{Ord T}.

Definition new : list T := [].
Definition from (v : list T) : list T := dedup_by ord_eqb (sort_by ord_cmp v).
Definition insert (value : T) (l : list T) : bool * list T :=
  match binary_search value l with
  | Found _ => (false, l)
  | NotFound loc => (true, vec_insert loc value l)
  end.
Definition remove (value : T) (l : list T) : bool * list T :=
  match binary_search value l with
  | Found loc => (true, delete loc l)
  | NotFound _ => (false, l)
  end.
Definition contains (value : T) (l : list T) : bool :=
  match binary_search value l with Found _ => true | NotFound _ => false end.
Definition clear (l : list T) : list T := [].
End S.
End OrderedSet.

Module BoundedOrderedSet.
Section S.
Context {T : Type} `{Ord T}.

Definition new : list T := [].
Definition from (v : list T) : list T := dedup_by ord_eqb (sort_by ord_cmp v).
(** [Result<bool, ()>] and the set after the call; [cap] is [S::get()]. *)
Definition try_insert (cap : nat) (value : T) (l : list T) : option bool * list T :=
  match binary_search value l with
  | Found _ => (Some false, l)
  | NotFound loc =>
      match try_insert_at cap loc l value with
      | Some l' => (Some true, l')
      | None => (None, l)
      end
  end.
Definition remove (value : T) (l : list T) : bool * list T :=
  match binary_search value l with
  | Found loc => (true, delete loc l)
  | NotFound _ => (false, l)
  end.
Definition contains (value : T) (l : list T) : bool :=
  match binary_search value l with Found _ => true | NotFound _ => false end.
End S.
End BoundedOrderedSet.

(** ** What the sets promise *)

(** The invariant: strictly increasing, so no two members compare [Eq]. *)
Definition set_ok {T} `{Ord T} (l : list T) : Prop := StronglySorted ord_lt l.
(** [value] is a member of the set [l], in the sense of [Ord]. *)
Definition member {T} `{Ord T} (value : T) (l : list T) : Prop :=
  ∃ y, y ∈ l ∧ ord_cmp y value = Eq.

Section Facts.
Context {T : Type} `{OrdLaws T}.
Implicit Types (x y z : T) (l : list T).

Lemma ord_refl x : ord_cmp x x = Eq.
Proof. pose proof (ord_antisym x x). by destruct (ord_cmp x x). Qed.
Lemma ord_eq_r x y z : ord_cmp x y = Eq → ord_cmp z x = ord_cmp z y.
Proof.
  intros Hxy. rewrite (ord_antisym x z), (ord_antisym y z).
  by rewrite (ord_eq_l x y z Hxy).
Qed.
Lemma ord_Gt_Lt x y : ord_cmp x y = Gt ↔ ord_cmp y x = Lt.
Proof. rewrite (ord_antisym x y). by destruct (ord_cmp x y). Qed.
Lemma ord_Eq_sym x y : ord_cmp x y = Eq ↔ ord_cmp y x = Eq.
Proof. rewrite (ord_antisym x y). by destruct (ord_cmp x y). Qed.
Lemma ord_le_trans x y z : ord_cmp x y ≠ Gt → ord_cmp y z ≠ Gt → ord_cmp x z ≠ Gt.
Proof.
  intros Hxy Hyz. destruct (ord_cmp x y) eqn:E1; [| |done].
  { by rewrite (ord_eq_l x y z). }
  destruct (ord_cmp y z) eqn:E2; [| |done].
  - rewrite <-(ord_eq_r y z x), E1; done.
  - by rewrite (ord_trans x y z).
Qed.

Lemma set_ok_lookup l i j x y :
  set_ok l → (i < j)%nat → l !! i = Some x → l !! j = Some y → ord_lt x y.
Proof.
  intros Hl Hij Hx Hy. rewrite <-(take_drop j l) in Hl.
  eapply StronglySorted_app_1_elem_of; [exact Hl| |].
  - apply list_elem_of_lookup_2 with i. by rewrite lookup_take_lt.
  - apply list_elem_of_lookup_2 with 0%nat. rewrite lookup_drop. by rewrite Nat.add_0_r.
Qed.
Lemma set_ok_search value l : set_ok l → search_sorted (λ x, ord_cmp x value) l.
Proof.
  intros Hl i j x y Hij Hx Hy. pose proof (set_ok_lookup l i j x y Hl Hij Hx Hy) as Hxy.
  unfold ord_lt in Hxy. split.
  - intros. by eapply ord_trans.
  - rewrite !ord_Gt_Lt. intros. by eapply ord_trans.
Qed.

(** A search of a set splits it at the value. *)
Lemma binary_search_set value l :
  set_ok l →
  match binary_search value l with
  | Found i => ∃ l1 x l2, l = l1 ++ x :: l2 ∧ length l1 = i ∧ ord_cmp x value = Eq
  | NotFound i => ∃ l1 l2, l = l1 ++ l2 ∧ length l1 = i ∧
      Forall (λ x, ord_cmp x value = Lt) l1 ∧ Forall (λ x, ord_cmp x value = Gt) l2
  end.
Proof. intros. by apply binary_search_by_split, set_ok_search. Qed.

Lemma set_ok_insert l1 l2 value :
  set_ok (l1 ++ l2) →
  Forall (λ x, ord_cmp x value = Lt) l1 → Forall (λ x, ord_cmp x value = Gt) l2 →
  set_ok (l1 ++ value :: l2).
Proof.
  unfold set_ok. rewrite !StronglySorted_app, StronglySorted_cons.
  intros (H12&H1&H2) Hlt Hgt. split_and!; [|done| |done].
  - intros x y Hx. rewrite elem_of_cons. intros [->|Hy]; [|by apply H12].
    by rewrite Forall_forall in Hlt; apply Hlt.
  - eapply Forall_impl; [exact Hgt|]. intros x. simpl. by rewrite ord_Gt_Lt.
Qed.
Lemma set_ok_delete l1 x l2 : set_ok (l1 ++ x :: l2) → set_ok (l1 ++ l2).
Proof.
  unfold set_ok. rewrite !StronglySorted_app, StronglySorted_cons. set_solver.
Qed.
Lemma not_member_split l1 l2 value :
  Forall (λ x, ord_cmp x value = Lt) l1 → Forall (λ x, ord_cmp x value = Gt) l2 →
  ¬ member value (l1 ++ l2).
Proof.
  rewrite !Forall_forall. intros Hlt Hgt (y&[Hy|Hy]%elem_of_app&Hc).
  - specialize (Hlt y Hy). simpl in *. congruence.
  - specialize (Hgt y Hy). simpl in *. congruence.
Qed.
Lemma member_cons value x l : member value (x :: l) ↔ ord_cmp x value = Eq ∨ member value l.
Proof. unfold member. set_solver. Qed.
#[export] Instance member_perm value : Proper ((≡ₚ) ==> iff) (member value).
Proof. intros l l' Hl. unfold member. by setoid_rewrite Hl. Qed.
(** Two members of a set that compare [Eq] are one element. *)
Lemma set_ok_unique l x y : set_ok l → x ∈ l → y ∈ l → ord_cmp x y = Eq → x = y.
Proof.
  intros Hl [i Hi]%list_elem_of_lookup [j Hj]%list_elem_of_lookup Heq.
  destruct (lt_eq_lt_dec i j) as [[Hij| ->]|Hij]; [|congruence|].
  - pose proof (set_ok_lookup l i j x y Hl Hij Hi Hj) as Hlt. unfold ord_lt in Hlt. congruence.
  - pose proof (set_ok_lookup l j i y x Hl Hij Hj Hi) as Hlt. unfold ord_lt in Hlt.
    apply ord_Eq_sym in Heq. congruence.
Qed.

Lemma contains_spec value l :
  set_ok l → BoundedOrderedSet.contains value l = true ↔ member value l.
Proof.
  intros Hl. unfold BoundedOrderedSet.contains.
  pose proof (binary_search_set value l Hl) as Hs. destruct (binary_search value l).
  - destruct Hs as (l1&x&l2&->&_&Hx). split; [|done]. intros _. exists x. set_solver.
  - destruct Hs as (l1&l2&->&_&Hlt&Hgt). split; [done|].
    intros Hm. by destruct (not_member_split l1 l2 value).
Qed.

(** The three answers of [try_insert]. *)
Lemma try_insert_spec cap value l :
  set_ok l →
  match BoundedOrderedSet.try_insert cap value l with
  | (Some true, l') =>
      ¬ member value l ∧ (length l < cap)%nat ∧ set_ok l' ∧ l' ≡ₚ value :: l
  | (Some false, l') => member value l ∧ l' = l
  | (None, l') => ¬ member value l ∧ (cap ≤ length l)%nat ∧ l' = l
  end.
Proof.
  intros Hl. unfold BoundedOrderedSet.try_insert, try_insert_at.
  pose proof (binary_search_set value l Hl) as Hs. destruct (binary_search value l).
  - destruct Hs as (l1&x&l2&->&_&Hx). split; [|done]. exists x. set_solver.
  - destruct Hs as (l1&l2&->&<-&Hlt&Hgt).
    pose proof (not_member_split l1 l2 value Hlt Hgt).
    case_bool_decide; [|split_and!; [done|lia|done]].
    rewrite vec_insert_app. split_and!; [done|done|by apply set_ok_insert|].
    by rewrite Permutation_middle.
Qed.
Lemma remove_spec value l :
  set_ok l →
  match BoundedOrderedSet.remove value l with
  | (true, l') => ∃ y, ord_cmp y value = Eq ∧ l ≡ₚ y :: l' ∧ set_ok l' ∧ ¬ member value l'
  | (false, l') => ¬ member value l ∧ l' = l
  end.
Proof.
  intros Hl. unfold BoundedOrderedSet.remove.
  pose proof (binary_search_set value l Hl) as Hs. destruct (binary_search value l).
  - destruct Hs as (l1&x&l2&->&<-&Hx). rewrite delete_app_cons.
    exists x. split_and!; [done|by rewrite Permutation_middle|by eapply set_ok_delete|].
    intros (y&Hy&Hyv). assert (x = y) as ->.
    { eapply set_ok_unique; [exact Hl|set_solver|set_solver|].
      rewrite (ord_eq_r y value x Hyv). done. }
    revert Hl Hy. unfold set_ok. rewrite StronglySorted_app, StronglySorted_cons.
    rewrite !Forall_forall. intros (Hlt&_&Hgt&_) Hin%elem_of_app.
    assert (ord_lt y y) as Hyy.
    { destruct Hin; [apply Hlt; set_solver|by apply Hgt]. }
    unfold ord_lt in Hyy. by rewrite ord_refl in Hyy.
  - destruct Hs as (l1&l2&->&_&Hlt&Hgt). split; [|done]. by apply not_member_split.
Qed.
End Facts.
