(* ===== verification/StakingConfig.v ===== *)
(** * What the staking pallet takes from the runtime

    The [Config] trait of [pallets/parachain-staking/src/lib.rs] and the code
    behind it that this repository does not contain: the balances pallet
    ([T::Currency]), [Perbill] arithmetic, session key registration, the
    Ethereum bridge and signature verification.  They are fields of type
    classes; what the pallet relies on is stated by the classes of laws, from
    the documented behaviour of that code. *)

From S2P Require Import Prelude.

(** A 32-byte account identifier, ordered like its big-endian number. *)
Abbreviation AccountId := N (only parsing).
Abbreviation Balance := Z (only parsing).
Abbreviation EraIndex := Z (only parsing).
Abbreviation GrowthPeriodIndex := Z (only parsing).
Abbreviation RewardPoint := Z (only parsing).
Abbreviation BlockNumber := Z (only parsing).
Abbreviation EthereumId := Z (only parsing).

(** [LockIdentifier]: the two locks of the pallet. *)
Inductive LockIdentifier : Type := COLLATOR_LOCK_ID | NOMINATOR_LOCK_ID.

(** [Currency + ReservableCurrency + LockableCurrency].  [transfer] is the
    [KeepAlive] transfer; [deposit_into_existing] returns the amount of the
    imbalance it created. *)
Class Currency := {
  CurrencyState : Type;
  free_balance : CurrencyState → AccountId → Balance;
  minimum_balance : Balance;
  set_lock : LockIdentifier → AccountId → Balance → CurrencyState → CurrencyState;
  remove_lock : LockIdentifier → AccountId → CurrencyState → CurrencyState;
  transfer : AccountId → AccountId → Balance → CurrencyState → option CurrencyState;
  deposit_into_existing :
    AccountId → Balance → CurrencyState → option (Balance * CurrencyState);
}.

(** The free balance counts locked funds: locks do not move it.  A transfer
    moves exactly its amount, a deposit mints exactly its amount. *)
Class CurrencyLaws (C : Currency) : Prop := {
  minimum_balance_nonneg : 0 <= minimum_balance;
  free_balance_range cs a : 0 <= free_balance cs a <= u128_max;
  free_balance_set_lock id who amt cs a :
    free_balance (set_lock id who amt cs) a = free_balance cs a;
  free_balance_remove_lock id who cs a :
    free_balance (remove_lock id who cs) a = free_balance cs a;
  transfer_from from to amt cs cs' :
    transfer from to amt cs = Some cs' → from ≠ to →
    free_balance cs' from = free_balance cs from - amt;
  transfer_to from to amt cs cs' :
    transfer from to amt cs = Some cs' → from ≠ to →
    free_balance cs' to = free_balance cs to + amt;
  transfer_self from amt cs cs' :
    transfer from from amt cs = Some cs' → free_balance cs' from = free_balance cs from;
  transfer_other from to amt cs cs' a :
    transfer from to amt cs = Some cs' → a ≠ from → a ≠ to →
    free_balance cs' a = free_balance cs a;
  deposit_amount who amt cs paid cs' :
    deposit_into_existing who amt cs = Some (paid, cs') → paid = amt;
}.

(** [sp_arithmetic]'s [Perbill]: [share p q n] is
    [Perbill::from_rational(p, q) * n]. *)
Class PerbillArith := {
  perbill_from_rational : Z → Z → Z;
  perbill_mul : Z → Balance → Balance;
}.
Definition share `{PerbillArith} (p q : Z) (n : Balance) : Balance :=
  perbill_mul (perbill_from_rational p q) n.
(** A [Perbill] is between zero and one, and multiplying by it rounds to an
    integer between zero and the other factor. *)
Class PerbillLaws (P : PerbillArith) : Prop := {
  share_range p q n : 0 <= n → 0 <= share p q n <= n;
}.

(** [Proof<Signature, AccountId>] of [primitives/avn-common/src/lib.rs]. *)
Record ProofOf (Signature : Type) := mk_ProofOf {
  proof_signer : AccountId;
  proof_relayer : AccountId;
  proof_signature : Signature;
}.
Arguments mk_ProofOf {_}.
Arguments proof_signer {_}.
Arguments proof_relayer {_}.
Arguments proof_signature {_}.

(** What is signed: the tuples of [proxy_methods.rs] before their SCALE
    encoding, one constructor per context string. *)
Inductive SignedPayload (LookupSource : Type) : Type :=
  | SIGNED_NOMINATOR_CONTEXT (relayer : AccountId) (targets : list LookupSource)
      (amount : Balance) (nonce : Z)
  | SIGNED_NOMINATOR_BOND_EXTRA_CONTEXT (relayer : AccountId) (amount : Balance) (nonce : Z)
  | SIGNED_CANDIDATE_BOND_EXTRA_CONTEXT (relayer : AccountId) (amount : Balance) (nonce : Z)
  | SIGNED_SCHEDULE_NOMINATOR_UNBOND_CONTEXT (relayer : AccountId) (value : Balance) (nonce : Z)
  | SIGNED_SCHEDULE_CANDIDATE_UNBOND_CONTEXT (relayer : AccountId) (value : Balance) (nonce : Z)
  | SIGNED_NOMINATOR_REMOVE_BOND_CONTEXT (relayer : AccountId) (collator : AccountId) (nonce : Z)
  | SIGNED_SCHEDULE_LEAVE_NOMINATORS_CONTEXT (relayer : AccountId) (nonce : Z)
  | SIGNED_EXECUTE_LEAVE_NOMINATORS_CONTEXT (relayer nominator : AccountId) (nonce : Z)
  | SIGNED_EXECUTE_NOMINATION_REQUESTS_CONTEXT (relayer nominator : AccountId) (nonce : Z)
  | SIGNED_EXECUTE_CANDIDATE_UNBOND_CONTEXT (relayer candidate : AccountId) (nonce : Z).
Arguments SIGNED_NOMINATOR_CONTEXT {_}.
Arguments SIGNED_NOMINATOR_BOND_EXTRA_CONTEXT {_}.
Arguments SIGNED_CANDIDATE_BOND_EXTRA_CONTEXT {_}.
Arguments SIGNED_SCHEDULE_NOMINATOR_UNBOND_CONTEXT {_}.
Arguments SIGNED_SCHEDULE_CANDIDATE_UNBOND_CONTEXT {_}.
Arguments SIGNED_NOMINATOR_REMOVE_BOND_CONTEXT {_}.
Arguments SIGNED_SCHEDULE_LEAVE_NOMINATORS_CONTEXT {_}.
Arguments SIGNED_EXECUTE_LEAVE_NOMINATORS_CONTEXT {_}.
Arguments SIGNED_EXECUTE_NOMINATION_REQUESTS_CONTEXT {_}.
Arguments SIGNED_EXECUTE_CANDIDATE_UNBOND_CONTEXT {_}.

(** The associated constants and types of the [Config] trait.  [cfg_test] is
    the build's [cfg!(test)]; [storage_position] is the place of an account in
    the hashed key order of a storage map. *)
Class Config := {
  #[global] config_currency :: Currency;
  #[global] config_perbill :: PerbillArith;
  MinBlocksPerEra : Z;
  RewardPaymentDelay : EraIndex;
  MinSelectedCandidates : Z;
  MaxTopNominationsPerCandidate : nat;
  MaxBottomNominationsPerCandidate : nat;
  MaxNominationsPerNominator : nat;
  MinNominationPerCollator : Balance;
  ErasPerGrowthPeriod : GrowthPeriodIndex;
  RewardPotAccount : AccountId;
  MaxCandidates : nat;
  GrowthEnabled : bool;
  CollatorSessionRegistration_is_registered : AccountId → bool;
  LookupSource : Type;
  Lookup_lookup : LookupSource → option AccountId;
  Signature : Type;
  verify_signature : ProofOf Signature → SignedPayload LookupSource → bool;
  BridgeState : Type;
  BridgeInterface_publish :
    string → list (string * string) → string → BridgeState → (string + EthereumId) * BridgeState;
  CollatorPayoutDustHandler_handle_dust : Balance → CurrencyState → CurrencyState;
  storage_position : AccountId → N;
  cfg_test : bool;
}.

(** The bounds of [types.rs]: [MaxNominations], [MaxCloneableNominations] and
    [CollatorMaxScores]. *)
Definition MaxNominations : nat := 300.
Definition MaxCloneableNominations : nat := 300.
Definition CollatorMaxScores : nat := N.to_nat 10000.
Definition MAX_GROWTHS_TO_PROCESS : nat := 10.

(** Settings the pallet needs to work at all: capacities that are non-empty and
    within the bounds of the vectors that store them, and a minimum that makes
    every nomination positive. *)
Class ConfigOk (T : Config) : Prop := {
  max_top_pos : (0 < MaxTopNominationsPerCandidate)%nat;
  max_top_bound : (MaxTopNominationsPerCandidate ≤ MaxNominations)%nat;
  max_bottom_pos : (0 < MaxBottomNominationsPerCandidate)%nat;
  max_bottom_bound : (MaxBottomNominationsPerCandidate ≤ MaxNominations)%nat;
  max_per_nominator_pos : (0 < MaxNominationsPerNominator)%nat;
  max_per_nominator_bound : (MaxNominationsPerNominator ≤ MaxCloneableNominations)%nat;
  min_nomination_range : 0 < MinNominationPerCollator <= u128_max;
}.
