(* ===== verification/StakingTypes.v ===== *)
(** * Data types of the staking pallet

    [pallets/parachain-staking/src/types.rs] and the data of
    [nomination_requests.rs]: bonds, the sorted nomination lists of a
    candidate, candidate metadata, nominators, eras, growth and scheduled
    requests, with the operations that touch no storage.  One module per Rust
    type: [t] is the type, its fields keep their names, [set_f] assigns the
    field [f]. *)

From S2P Require Import Prelude Slices Sets StakingConfig.

Module Bond.
(** [Bond<AccountId, Balance>]: compared and equated by its owner alone. *)
Record t : Type := mk { owner : AccountId; amount : Balance }.
Definition from_owner (owner : AccountId) : t := mk owner 0.
Definition cmp (x y : t) : comparison := (x.(owner) ?= y.(owner))%N.
#[export] Instance eq_dec : EqDecision t.
Proof. solve_decision. Defined.
#[export] Instance ord : Ord t := cmp.
End Bond.
Export (hints) Bond.

(** The activity status of the collator. *)
Inductive CollatorStatus : Type :=
  | Active
  | Idle
  | Leaving (era : EraIndex).

Module CollatorSnapshot.
(** Snapshot of collator state at the start of the era for which they are selected. *)
Record t : Type := mk {
  bond : Balance;
  nominations : list Bond.t;
  total : Balance;
}.
Definition default : t := mk 0 [] 0.
(** The hand-written [PartialEq]: [zip] stops at the shorter list. *)
Definition eqb (x y : t) : bool :=
  bool_decide (x.(bond) = y.(bond)) && bool_decide (x.(total) = y.(total)) &&
  forallb (λ '(a, b), bool_decide (Bond.owner a = Bond.owner b) &&
                      bool_decide (Bond.amount a = Bond.amount b))
    (zip x.(nominations) y.(nominations)).
End CollatorSnapshot.

(** [DelayedPayout]: the total era reward to pay. *)
Record DelayedPayout : Type := mk_DelayedPayout { total_staking_reward : Balance }.

Module CandidateBondLessRequest.
(** Request scheduled to change the collator candidate self-bond. *)
Record t : Type := mk { amount : Balance; when_executable : EraIndex }.
End CandidateBondLessRequest.

(** Capacity status for top or bottom nominations. *)
Inductive CapacityStatus : Type := Full | Empty | Partial.
#[export] Instance CapacityStatus_eq_dec : EqDecision CapacityStatus.
Proof. solve_decision. Defined.

Module Nominations.
(** Type for top and bottom nomination storage item. *)
Record t : Type := mk {
  nominations : list Bond.t;
  total : Balance;
}.
Definition set_nominations (v : list Bond.t) (x : t) : t :=
  mk v (x.(total)).
Definition set_total (v : Balance) (x : t) : t :=
  mk (x.(nominations)) v.
Definition default : t := mk [] 0.

(** [b.amount.cmp(&a.amount)]: greatest first. *)
Definition cmp_greatest (a b : Bond.t) : comparison :=
  (Bond.amount b ?= Bond.amount a)%Z.
Definition sort_greatest_to_least (self : t) : t :=
  set_nominations (sort_by cmp_greatest self.(nominations)) self.

(** The [while new_index <= len - 1] loop: the first index at or after
    [new_index] whose amount is not [amount]. *)
Fixpoint skip_equal (fuel : nat) (amount : Balance) (l : list Bond.t) (new_index : nat) : nat :=
  match fuel with
  | O => new_index
  | S fuel' =>
      match l !! new_index with
      | Some x =>
          if bool_decide (Bond.amount x = amount)
          then skip_equal fuel' amount l (S new_index) else new_index
      | None => new_index
      end
  end.

(** The vector after the call; a full vector drops the nomination
    ([unwrap_or_else(|_| ())]) while [total] still grows. *)
Definition insert_sorted (l : list Bond.t) (nomination : Bond.t) : list Bond.t :=
  match last l with
  | Some lst =>
      if bool_decide (Bond.amount lst = Bond.amount nomination)
      then unwrap_or l (try_push MaxNominations l nomination)
      else
        match binary_search_by (λ x, (Bond.amount nomination ?= Bond.amount x)%Z) l with
        | Found i =>
            let new_index := skip_equal (length l) (Bond.amount nomination) l (S i) in
            if bool_decide (new_index < length l)%nat
            then unwrap_or l (try_insert_at MaxNominations new_index l nomination)
            else unwrap_or l (try_push MaxNominations l nomination)
        | NotFound i => unwrap_or l (try_insert_at MaxNominations i l nomination)
        end
  | None => unwrap_or l (try_insert_at MaxNominations 0 l nomination)
  end.
Definition insert_sorted_greatest_to_least (nomination : Bond.t) (self : t) : t :=
  mk (insert_sorted self.(nominations) nomination)
     (self.(total) ⊕ Bond.amount nomination).

Definition capacity (max : nat) (l : list Bond.t) : CapacityStatus :=
  if bool_decide (max ≤ length l)%nat then Full
  else if bool_decide (length l = 0%nat) then Empty else Partial.
Definition top_capacity `{Config} (self : t) : CapacityStatus :=
  capacity MaxTopNominationsPerCandidate self.(nominations).
Definition bottom_capacity `{Config} (self : t) : CapacityStatus :=
  capacity MaxBottomNominationsPerCandidate self.(nominations).
Definition lowest_nomination_amount (self : t) : Balance :=
  from_option Bond.amount 0 (last self.(nominations)).
Definition highest_nomination_amount (self : t) : Balance :=
  from_option Bond.amount 0 (head self.(nominations)).
End Nominations.

Module CandidateMetadata.
(** All candidate info except the top and bottom nominations. *)
Record t : Type := mk {
  bond : Balance; (** this candidate's self bond *)
  nomination_count : Z;
  total_counted : Balance; (** self bond + sum of top nominations *)
  lowest_top_nomination_amount : Balance;
  highest_bottom_nomination_amount : Balance;
  lowest_bottom_nomination_amount : Balance;
  top_capacity : CapacityStatus;
  bottom_capacity : CapacityStatus;
  request : option CandidateBondLessRequest.t;
  status : CollatorStatus;
}.
Definition set_bond (v : Balance) (x : t) : t :=
  mk v (x.(nomination_count)) (x.(total_counted)) (x.(lowest_top_nomination_amount))
  (x.(highest_bottom_nomination_amount)) (x.(lowest_bottom_nomination_amount))
  (x.(top_capacity)) (x.(bottom_capacity)) (x.(request)) (x.(status)).
Definition set_nomination_count (v : Z) (x : t) : t :=
  mk (x.(bond)) v (x.(total_counted)) (x.(lowest_top_nomination_amount))
  (x.(highest_bottom_nomination_amount)) (x.(lowest_bottom_nomination_amount))
  (x.(top_capacity)) (x.(bottom_capacity)) (x.(request)) (x.(status)).
Definition set_total_counted (v : Balance) (x : t) : t :=
  mk (x.(bond)) (x.(nomination_count)) v (x.(lowest_top_nomination_amount))
  (x.(highest_bottom_nomination_amount)) (x.(lowest_bottom_nomination_amount))
  (x.(top_capacity)) (x.(bottom_capacity)) (x.(request)) (x.(status)).
Definition set_lowest_top_nomination_amount (v : Balance) (x : t) : t :=
  mk (x.(bond)) (x.(nomination_count)) (x.(total_counted)) v
  (x.(highest_bottom_nomination_amount)) (x.(lowest_bottom_nomination_amount))
  (x.(top_capacity)) (x.(bottom_capacity)) (x.(request)) (x.(status)).
Definition set_highest_bottom_nomination_amount (v : Balance) (x : t) : t :=
  mk (x.(bond)) (x.(nomination_count)) (x.(total_counted))
  (x.(lowest_top_nomination_amount)) v (x.(lowest_bottom_nomination_amount))
  (x.(top_capacity)) (x.(bottom_capacity)) (x.(request)) (x.(status)).
Definition set_lowest_bottom_nomination_amount (v : Balance) (x : t) : t :=
  mk (x.(bond)) (x.(nomination_count)) (x.(total_counted))
  (x.(lowest_top_nomination_amount)) (x.(highest_bottom_nomination_amount)) v
  (x.(top_capacity)) (x.(bottom_capacity)) (x.(request)) (x.(status)).
Definition set_top_capacity (v : CapacityStatus) (x : t) : t :=
  mk (x.(bond)) (x.(nomination_count)) (x.(total_counted))
  (x.(lowest_top_nomination_amount)) (x.(highest_bottom_nomination_amount))
  (x.(lowest_bottom_nomination_amount)) v (x.(bottom_capacity)) (x.(request)) (x.(status)).
Definition set_bottom_capacity (v : CapacityStatus) (x : t) : t :=
  mk (x.(bond)) (x.(nomination_count)) (x.(total_counted))
  (x.(lowest_top_nomination_amount)) (x.(highest_bottom_nomination_amount))
  (x.(lowest_bottom_nomination_amount)) (x.(top_capacity)) v (x.(request)) (x.(status)).
Definition set_request (v : option CandidateBondLessRequest.t) (x : t) : t :=
  mk (x.(bond)) (x.(nomination_count)) (x.(total_counted))
  (x.(lowest_top_nomination_amount)) (x.(highest_bottom_nomination_amount))
  (x.(lowest_bottom_nomination_amount)) (x.(top_capacity)) (x.(bottom_capacity)) v
  (x.(status)).
Definition set_status (v : CollatorStatus) (x : t) : t :=
  mk (x.(bond)) (x.(nomination_count)) (x.(total_counted))
  (x.(lowest_top_nomination_amount)) (x.(highest_bottom_nomination_amount))
  (x.(lowest_bottom_nomination_amount)) (x.(top_capacity)) (x.(bottom_capacity))
  (x.(request)) v.

Definition new (bond : Balance) : t := mk bond 0 bond 0 0 0 Empty Empty None Active.
Definition is_active (self : t) : bool :=
  match self.(status) with Active => true | _ => false end.
Definition is_leaving (self : t) : bool :=
  match self.(status) with Leaving _ => true | _ => false end.
Definition go_offline (self : t) : t := set_status Idle self.
Definition go_online (self : t) : t := set_status Active self.
End CandidateMetadata.

(** Whether a nominator was added to the top or the bottom. *)
Inductive NominatorAdded : Type :=
  | AddedToTop (new_total : Balance)
  | AddedToBottom.

Inductive BondAdjust : Type := Increase (amount : Balance) | Decrease.

Module Nominator.
(** Nominator state; [nominations] is a [BoundedOrderedSet]. *)
Record t : Type := mk {
  id : AccountId;
  nominations : list Bond.t;
  total : Balance;
  less_total : Balance;
}.
Definition set_id (v : AccountId) (x : t) : t :=
  mk v (x.(nominations)) (x.(total)) (x.(less_total)).
Definition set_nominations (v : list Bond.t) (x : t) : t :=
  mk (x.(id)) v (x.(total)) (x.(less_total)).
Definition set_total (v : Balance) (x : t) : t :=
  mk (x.(id)) (x.(nominations)) v (x.(less_total)).
Definition set_less_total (v : Balance) (x : t) : t :=
  mk (x.(id)) (x.(nominations)) (x.(total)) v.

Definition new (id collator : AccountId) (amount : Balance) : t :=
  mk id (BoundedOrderedSet.from [Bond.mk collator amount]) amount 0.
Definition default_with_total (id : AccountId) (amount : Balance) : t := mk id [] amount 0.
(** The returned boolean and the state; [None] is the [unwrap] of a full set. *)
Definition add_nomination (bond : Bond.t) (self : t) : option (bool * t) :=
  match BoundedOrderedSet.try_insert MaxCloneableNominations bond self.(nominations) with
  | (Some true, l) =>
      Some (true, set_total (self.(total) ⊕ Bond.amount bond) (set_nominations l self))
  | (Some false, _) => Some (false, self)
  | (None, _) => None
  end.
Definition get_bond_amount (collator : AccountId) (self : t) : option Balance :=
  Bond.amount ∘ snd <$> list_find (λ b, Bond.owner b = collator) self.(nominations).
(** The loop of [rm_nomination]: the remaining nominations, re-inserted one
    by one, and the amount of the removed one. *)
Fixpoint rm_loop (collator : AccountId) (l : list Bond.t)
    (nominations : list Bond.t) (amt : option Balance) : option (list Bond.t * option Balance) :=
  match l with
  | [] => Some (nominations, amt)
  | x :: l' =>
      if bool_decide (Bond.owner x = collator)
      then rm_loop collator l' nominations (Some (Bond.amount x))
      else
        match BoundedOrderedSet.try_insert MaxCloneableNominations x nominations with
        | (Some _, nominations') => rm_loop collator l' nominations' amt
        | (None, _) => None
        end
  end.
End Nominator.

Module EraInfo.
(** The current era index and transition information. *)
Record t : Type := mk {
  current : EraIndex;
  first : BlockNumber;
  length : Z;
}.
Definition set_current (v : EraIndex) (x : t) : t :=
  mk v (x.(first)) (x.(length)).
Definition set_first (v : BlockNumber) (x : t) : t :=
  mk (x.(current)) v (x.(length)).
Definition set_length (v : Z) (x : t) : t :=
  mk (x.(current)) (x.(first)) v.

Definition new (current : EraIndex) (first : BlockNumber) (length : Z) : t :=
  mk current first length.
Definition should_update (now : BlockNumber) (self : t) : bool :=
  bool_decide (self.(length) <= now -₃₂ self.(first)).
Definition update (now : BlockNumber) (self : t) : t :=
  mk (self.(current) ⊕₃₂ 1) now self.(length).
Definition default : t := new 1 1 20.
End EraInfo.

Module CollatorScore.
(** Points earned by a collator; compared by collator. *)
Record t : Type := mk { collator : AccountId; points : RewardPoint }.
Definition new (collator : AccountId) (points : RewardPoint) : t := mk collator points.
End CollatorScore.

Module GrowthInfo.
(** Tracks collator rewards over a growth period. *)
Record t : Type := mk {
  number_of_accumulations : GrowthPeriodIndex;
  total_stake_accumulated : Balance;
  total_staker_reward : Balance;
  total_points : RewardPoint;
  collator_scores : list CollatorScore.t;
  tx_id : option EthereumId;
  triggered : option bool;
}.
Definition set_number_of_accumulations (v : GrowthPeriodIndex) (x : t) : t :=
  mk v (x.(total_stake_accumulated)) (x.(total_staker_reward)) (x.(total_points))
  (x.(collator_scores)) (x.(tx_id)) (x.(triggered)).
Definition set_total_stake_accumulated (v : Balance) (x : t) : t :=
  mk (x.(number_of_accumulations)) v (x.(total_staker_reward)) (x.(total_points))
  (x.(collator_scores)) (x.(tx_id)) (x.(triggered)).
Definition set_total_staker_reward (v : Balance) (x : t) : t :=
  mk (x.(number_of_accumulations)) (x.(total_stake_accumulated)) v (x.(total_points))
  (x.(collator_scores)) (x.(tx_id)) (x.(triggered)).
Definition set_total_points (v : RewardPoint) (x : t) : t :=
  mk (x.(number_of_accumulations)) (x.(total_stake_accumulated)) (x.(total_staker_reward)) v
  (x.(collator_scores)) (x.(tx_id)) (x.(triggered)).
Definition set_collator_scores (v : list CollatorScore.t) (x : t) : t :=
  mk (x.(number_of_accumulations)) (x.(total_stake_accumulated)) (x.(total_staker_reward))
  (x.(total_points)) v (x.(tx_id)) (x.(triggered)).
Definition set_tx_id (v : option EthereumId) (x : t) : t :=
  mk (x.(number_of_accumulations)) (x.(total_stake_accumulated)) (x.(total_staker_reward))
  (x.(total_points)) (x.(collator_scores)) v (x.(triggered)).
Definition set_triggered (v : option bool) (x : t) : t :=
  mk (x.(number_of_accumulations)) (x.(total_stake_accumulated)) (x.(total_staker_reward))
  (x.(total_points)) (x.(collator_scores)) (x.(tx_id)) v.

Definition new (number_of_accumulations : GrowthPeriodIndex) : t :=
  mk number_of_accumulations 0 0 0 [] None None.
Definition default : t := mk 0 0 0 0 [] None None.
End GrowthInfo.

Module GrowthPeriodInfo.
Record t : Type := mk { start_era_index : EraIndex; index : GrowthPeriodIndex }.
Definition default : t := mk 0 0.
End GrowthPeriodInfo.

Module AdminSettings.
Inductive t : Type :=
  | Delay (d : EraIndex)
  | MinCollatorStake (s : Balance)
  | MinTotalNominatorStake (s : Balance).
Definition is_valid `{Config} (self : t) : bool :=
  match self with
  | Delay d => bool_decide (0 < d)
  | MinTotalNominatorStake s => bool_decide (MinNominationPerCollator <= s)
  | MinCollatorStake _ => true
  end.
End AdminSettings.

Module StakeInfo.
(** Amount based stake data. *)
Record t : Type := mk {
  owner : AccountId;
  free_amount : Balance;
  reserved_amount : Balance;
}.
Definition set_owner (v : AccountId) (x : t) : t :=
  mk v (x.(free_amount)) (x.(reserved_amount)).
Definition set_free_amount (v : Balance) (x : t) : t :=
  mk (x.(owner)) v (x.(reserved_amount)).
Definition set_reserved_amount (v : Balance) (x : t) : t :=
  mk (x.(owner)) (x.(free_amount)) v.
Definition new (owner : AccountId) (free_amount reserved_amount : Balance) : t :=
  mk owner free_amount reserved_amount.
End StakeInfo.

Module NominationAction.
(** An action that can be performed upon a nomination. *)
Inductive t : Type := Revoke (amount : Balance) | Decrease (amount : Balance).
Definition amount (self : t) : Balance :=
  match self with Revoke amount => amount | Decrease amount => amount end.
Definition is_revoke (self : t) : bool :=
  match self with Revoke _ => true | Decrease _ => false end.
End NominationAction.

Module ScheduledRequest.
(** Executable once its era is reached. *)
Record t : Type := mk {
  nominator : AccountId;
  when_executable : EraIndex;
  action : NominationAction.t;
}.
End ScheduledRequest.
