(* ===== verification/StakingState.v ===== *)
(** * Storage, events and errors of the staking pallet

    The [#[pallet::storage]], [#[pallet::event]] and [#[pallet::error]] items
    of [pallets/parachain-staking/src/lib.rs] as one record of storage, and the
    effect in which the pallet's functions are written: [M Storage.t
    DispatchError], from the prelude. *)

From S2P Require Import Prelude Slices Sets StakingConfig StakingTypes.

Module Error.
(** [pub enum Error<T>]. *)
Inductive t : Type :=
  | NominatorDNE
  | CandidateDNE
  | NominationDNE
  | NominatorExists
  | CandidateExists
  | CandidateBondBelowMin
  | InsufficientBalance
  | NominatorBondBelowMin
  | NominationBelowMin
  | AlreadyOffline
  | AlreadyActive
  | NominatorAlreadyLeaving
  | NominatorNotLeaving
  | NominatorCannotLeaveYet
  | CandidateAlreadyLeaving
  | CandidateNotLeaving
  | CandidateLimitReached
  | CandidateCannotLeaveYet
  | CannotGoOnlineIfLeaving
  | ExceedMaxNominationsPerNominator
  | AlreadyNominatedCandidate
  | InvalidSchedule
  | CannotSetBelowMin
  | EraLengthMustBeAtLeastTotalSelectedCollators
  | NoWritingSameValue
  | TooLowCandidateCountWeightHintJoinCandidates
  | TooLowCandidateCountWeightHintCancelLeaveCandidates
  | TooLowCandidateCountToLeaveCandidates
  | TooLowNominationCountToNominate
  | TooLowCandidateNominationCountToNominate
  | TooLowCandidateNominationCountToLeaveCandidates
  | TooLowNominationCountToLeaveNominators
  | PendingCandidateRequestsDNE
  | PendingCandidateRequestAlreadyExists
  | PendingCandidateRequestNotDueYet
  | PendingNominationRequestDNE
  | PendingNominationRequestAlreadyExists
  | PendingNominationRequestNotDueYet
  | CannotNominateLessThanOrEqualToLowestBottomWhenFull
  | PendingNominationRevoke
  | ErrorPayingCollator
  | GrowthAlreadyProcessed
  | UnauthorizedProxyTransaction
  | SenderIsNotSigner
  | UnauthorizedSignedNominateTransaction
  | UnauthorizedSignedBondExtraTransaction
  | UnauthorizedSignedCandidateBondExtraTransaction
  | UnauthorizedSignedCandidateUnbondTransaction
  | UnauthorizedSignedUnbondTransaction
  | UnauthorizedSignedRemoveBondTransaction
  | UnauthorizedSignedScheduleLeaveNominatorsTransaction
  | UnauthorizedSignedExecuteLeaveNominatorsTransaction
  | UnauthorizedSignedExecuteNominationRequestTransaction
  | UnauthorizedSignedExecuteCandidateUnbondTransaction
  | AdminSettingsValueIsNotValid
  | CandidateSessionKeysNotFound
  | FailedToWithdrawFullAmount
  | GrowthDataNotFound
  | InvalidGrowthData
  | ErrorConvertingBalance
  | Overflow
  | ErrorPublishingGrowth
  | StakingNotAllowed.
End Error.

(** [sp_runtime::DispatchError], as far as the pallet produces or compares it. *)
Inductive DispatchError : Type :=
  | Module_ (e : Error.t)
  | BadOrigin
  | CannotLookup
  | Other (msg : string).
Coercion Module_ : Error.t >-> DispatchError.

(** [RuntimeOrigin]. *)
Inductive Origin : Type := Root | Signed (who : AccountId) | NoOrigin.

Module Event.
(** [pub enum Event<T>]. *)
Inductive t : Type :=
  | NewEra (starting_block : BlockNumber) (era : EraIndex)
      (selected_collators_number : Z) (total_balance : Balance)
  | JoinedCollatorCandidates (account : AccountId) (amount_locked new_total_amt_locked : Balance)
  | CollatorChosen (era : EraIndex) (collator_account : AccountId) (total_exposed_amount : Balance)
  | CandidateBondLessRequested (candidate : AccountId) (amount_to_decrease : Balance)
      (execute_era : EraIndex)
  | CandidateBondedMore (candidate : AccountId) (amount new_total_bond : Balance)
  | CandidateBondedLess (candidate : AccountId) (amount new_bond : Balance)
  | CandidateWentOffline (candidate : AccountId)
  | CandidateBackOnline (candidate : AccountId)
  | CandidateScheduledExit (exit_allowed_era : EraIndex) (candidate : AccountId)
      (scheduled_exit : EraIndex)
  | CancelledCandidateExit (candidate : AccountId)
  | CancelledCandidateBondLess (candidate : AccountId) (amount : Balance) (execute_era : EraIndex)
  | CandidateLeft (ex_candidate : AccountId) (unlocked_amount new_total_amt_locked : Balance)
  | NominationDecreaseScheduled (nominator candidate : AccountId) (amount_to_decrease : Balance)
      (execute_era : EraIndex)
  | NominationIncreased (nominator candidate : AccountId) (amount : Balance) (in_top : bool)
  | NominationDecreased (nominator candidate : AccountId) (amount : Balance) (in_top : bool)
  | NominatorExitScheduled (era : EraIndex) (nominator : AccountId) (scheduled_exit : EraIndex)
  | NominationRevocationScheduled (era : EraIndex) (nominator candidate : AccountId)
      (scheduled_exit : EraIndex)
  | NominatorLeft (nominator : AccountId) (unstaked_amount : Balance)
  | NominationRevoked (nominator candidate : AccountId) (unstaked_amount : Balance)
  | NominationKicked (nominator candidate : AccountId) (unstaked_amount : Balance)
  | NominatorExitCancelled (nominator : AccountId)
  | CancelledNominationRequest (nominator : AccountId) (when_executable : EraIndex)
      (action : NominationAction.t) (collator : AccountId)
  | Nomination (nominator : AccountId) (locked_amount : Balance) (candidate : AccountId)
      (nominator_position : NominatorAdded)
  | NominatorLeftCandidate (nominator candidate : AccountId)
      (unstaked_amount total_candidate_staked : Balance)
  | Rewarded (account : AccountId) (rewards : Balance)
  | ErrorPayingStakingReward (payee : AccountId) (rewards : Balance)
  | TotalSelectedSet (old new : Z)
  | BlocksPerEraSet (current_era : EraIndex) (first_block : BlockNumber) (old new : Z)
  | NotEnoughFundsForEraPayment (reward_pot_balance : Balance)
  | CollatorPaid (account : AccountId) (amount : Balance) (period : GrowthPeriodIndex)
  | AdminSettingsUpdated (value : AdminSettings.t)
  | TriggeringGrowth (growth_period : Z).
End Event.

Module Storage.
Section S.
Context `{Config}.
(** The storage items, with the state of the pallets it calls. *)
Record t : Type := mk {
  Delay : EraIndex;
  TotalSelected : Z;
  Era : EraInfo.t;
  NominatorState : gmap AccountId Nominator.t;
  CandidateInfo : gmap AccountId CandidateMetadata.t;
  NominationScheduledRequests : gmap AccountId (list ScheduledRequest.t);
  TopNominations : gmap AccountId Nominations.t;
  BottomNominations : gmap AccountId Nominations.t;
  SelectedCandidates : list AccountId;
  Total : Balance;
  CandidatePool : list Bond.t;
  AtStake : gmap EraIndex (gmap AccountId CollatorSnapshot.t);
  DelayedPayouts : gmap EraIndex DelayedPayout;
  Staked : gmap EraIndex Balance;
  Points : gmap EraIndex RewardPoint;
  AwardedPts : gmap EraIndex (gmap AccountId RewardPoint);
  LockedEraPayout : Balance;
  GrowthPeriod : GrowthPeriodInfo.t;
  Growth : gmap GrowthPeriodIndex GrowthInfo.t;
  ProcessedGrowthPeriods : gset GrowthPeriodIndex;
  ForceNewEra : bool;
  MinCollatorStake : Balance;
  MinTotalNominatorStake : Balance;
  ProxyNonces : gmap AccountId Z;
  PendingApproval : gmap GrowthPeriodIndex Z;
  LastTriggeredGrowthPeriod : Z;
  PublishedGrowth : gmap EthereumId GrowthPeriodIndex;
  Balances : CurrencyState; (** the state behind [T::Currency] *)
  Bridge : BridgeState; (** the state behind [T::BridgeInterface] *)
  block_number : BlockNumber; (** [frame_system]'s block number *)
  events : list Event.t; (** the events deposited so far *)
}.
Definition set_Delay (v : EraIndex) (x : t) : t :=
  mk v (x.(TotalSelected)) (x.(Era)) (x.(NominatorState)) (x.(CandidateInfo))
  (x.(NominationScheduledRequests)) (x.(TopNominations)) (x.(BottomNominations))
  (x.(SelectedCandidates)) (x.(Total)) (x.(CandidatePool)) (x.(AtStake))
  (x.(DelayedPayouts)) (x.(Staked)) (x.(Points)) (x.(AwardedPts)) (x.(LockedEraPayout))
  (x.(GrowthPeriod)) (x.(Growth)) (x.(ProcessedGrowthPeriods)) (x.(ForceNewEra))
  (x.(MinCollatorStake)) (x.(MinTotalNominatorStake)) (x.(ProxyNonces))
  (x.(PendingApproval)) (x.(LastTriggeredGrowthPeriod)) (x.(PublishedGrowth)) (x.(Balances))
  (x.(Bridge)) (x.(block_number)) (x.(events)).
Definition set_TotalSelected (v : Z) (x : t) : t :=
  mk (x.(Delay)) v (x.(Era)) (x.(NominatorState)) (x.(CandidateInfo))
  (x.(NominationScheduledRequests)) (x.(TopNominations)) (x.(BottomNominations))
  (x.(SelectedCandidates)) (x.(Total)) (x.(CandidatePool)) (x.(AtStake))
  (x.(DelayedPayouts)) (x.(Staked)) (x.(Points)) (x.(AwardedPts)) (x.(LockedEraPayout))
  (x.(GrowthPeriod)) (x.(Growth)) (x.(ProcessedGrowthPeriods)) (x.(ForceNewEra))
  (x.(MinCollatorStake)) (x.(MinTotalNominatorStake)) (x.(ProxyNonces))
  (x.(PendingApproval)) (x.(LastTriggeredGrowthPeriod)) (x.(PublishedGrowth)) (x.(Balances))
  (x.(Bridge)) (x.(block_number)) (x.(events)).
Definition set_Era (v : EraInfo.t) (x : t) : t :=
  mk (x.(Delay)) (x.(TotalSelected)) v (x.(NominatorState)) (x.(CandidateInfo))
  (x.(NominationScheduledRequests)) (x.(TopNominations)) (x.(BottomNominations))
  (x.(SelectedCandidates)) (x.(Total)) (x.(CandidatePool)) (x.(AtStake))
  (x.(DelayedPayouts)) (x.(Staked)) (x.(Points)) (x.(AwardedPts)) (x.(LockedEraPayout))
  (x.(GrowthPeriod)) (x.(Growth)) (x.(ProcessedGrowthPeriods)) (x.(ForceNewEra))
  (x.(MinCollatorStake)) (x.(MinTotalNominatorStake)) (x.(ProxyNonces))
  (x.(PendingApproval)) (x.(LastTriggeredGrowthPeriod)) (x.(PublishedGrowth)) (x.(Balances))
  (x.(Bridge)) (x.(block_number)) (x.(events)).
Definition set_NominatorState (v : gmap AccountId Nominator.t) (x : t) : t :=
  mk (x.(Delay)) (x.(TotalSelected)) (x.(Era)) v (x.(CandidateInfo))
  (x.(NominationScheduledRequests)) (x.(TopNominations)) (x.(BottomNominations))
  (x.(SelectedCandidates)) (x.(Total)) (x.(CandidatePool)) (x.(AtStake))
  (x.(DelayedPayouts)) (x.(Staked)) (x.(Points)) (x.(AwardedPts)) (x.(LockedEraPayout))
  (x.(GrowthPeriod)) (x.(Growth)) (x.(ProcessedGrowthPeriods)) (x.(ForceNewEra))
  (x.(MinCollatorStake)) (x.(MinTotalNominatorStake)) (x.(ProxyNonces))
  (x.(PendingApproval)) (x.(LastTriggeredGrowthPeriod)) (x.(PublishedGrowth)) (x.(Balances))
  (x.(Bridge)) (x.(block_number)) (x.(events)).
Definition set_CandidateInfo (v : gmap AccountId CandidateMetadata.t) (x : t) : t :=
  mk (x.(Delay)) (x.(TotalSelected)) (x.(Era)) (x.(NominatorState)) v
  (x.(NominationScheduledRequests)) (x.(TopNominations)) (x.(BottomNominations))
  (x.(SelectedCandidates)) (x.(Total)) (x.(CandidatePool)) (x.(AtStake))
  (x.(DelayedPayouts)) (x.(Staked)) (x.(Points)) (x.(AwardedPts)) (x.(LockedEraPayout))
  (x.(GrowthPeriod)) (x.(Growth)) (x.(ProcessedGrowthPeriods)) (x.(ForceNewEra))
  (x.(MinCollatorStake)) (x.(MinTotalNominatorStake)) (x.(ProxyNonces))
  (x.(PendingApproval)) (x.(LastTriggeredGrowthPeriod)) (x.(PublishedGrowth)) (x.(Balances))
  (x.(Bridge)) (x.(block_number)) (x.(events)).
Definition set_NominationScheduledRequests (v : gmap AccountId (list ScheduledRequest.t)) (x : t) : t :=
  mk (x.(Delay)) (x.(TotalSelected)) (x.(Era)) (x.(NominatorState)) (x.(CandidateInfo)) v
  (x.(TopNominations)) (x.(BottomNominations)) (x.(SelectedCandidates)) (x.(Total))
  (x.(CandidatePool)) (x.(AtStake)) (x.(DelayedPayouts)) (x.(Staked)) (x.(Points))
  (x.(AwardedPts)) (x.(LockedEraPayout)) (x.(GrowthPeriod)) (x.(Growth))
  (x.(ProcessedGrowthPeriods)) (x.(ForceNewEra)) (x.(MinCollatorStake))
  (x.(MinTotalNominatorStake)) (x.(ProxyNonces)) (x.(PendingApproval))
  (x.(LastTriggeredGrowthPeriod)) (x.(PublishedGrowth)) (x.(Balances)) (x.(Bridge))
  (x.(block_number)) (x.(events)).
Definition set_TopNominations (v : gmap AccountId Nominations.t) (x : t) : t :=
  mk (x.(Delay)) (x.(TotalSelected)) (x.(Era)) (x.(NominatorState)) (x.(CandidateInfo))
  (x.(NominationScheduledRequests)) v (x.(BottomNominations)) (x.(SelectedCandidates))
  (x.(Total)) (x.(CandidatePool)) (x.(AtStake)) (x.(DelayedPayouts)) (x.(Staked))
  (x.(Points)) (x.(AwardedPts)) (x.(LockedEraPayout)) (x.(GrowthPeriod)) (x.(Growth))
  (x.(ProcessedGrowthPeriods)) (x.(ForceNewEra)) (x.(MinCollatorStake))
  (x.(MinTotalNominatorStake)) (x.(ProxyNonces)) (x.(PendingApproval))
  (x.(LastTriggeredGrowthPeriod)) (x.(PublishedGrowth)) (x.(Balances)) (x.(Bridge))
  (x.(block_number)) (x.(events)).
Definition set_BottomNominations (v : gmap AccountId Nominations.t) (x : t) : t :=
  mk (x.(Delay)) (x.(TotalSelected)) (x.(Era)) (x.(NominatorState)) (x.(CandidateInfo))
  (x.(NominationScheduledRequests)) (x.(TopNominations)) v (x.(SelectedCandidates))
  (x.(Total)) (x.(CandidatePool)) (x.(AtStake)) (x.(DelayedPayouts)) (x.(Staked))
  (x.(Points)) (x.(AwardedPts)) (x.(LockedEraPayout)) (x.(GrowthPeriod)) (x.(Growth))
  (x.(ProcessedGrowthPeriods)) (x.(ForceNewEra)) (x.(MinCollatorStake))
  (x.(MinTotalNominatorStake)) (x.(ProxyNonces)) (x.(PendingApproval))
  (x.(LastTriggeredGrowthPeriod)) (x.(PublishedGrowth)) (x.(Balances)) (x.(Bridge))
  (x.(block_number)) (x.(events)).
Definition set_SelectedCandidates (v : list AccountId) (x : t) : t :=
  mk (x.(Delay)) (x.(TotalSelected)) (x.(Era)) (x.(NominatorState)) (x.(CandidateInfo))
  (x.(NominationScheduledRequests)) (x.(TopNominations)) (x.(BottomNominations)) v
  (x.(Total)) (x.(CandidatePool)) (x.(AtStake)) (x.(DelayedPayouts)) (x.(Staked))
  (x.(Points)) (x.(AwardedPts)) (x.(LockedEraPayout)) (x.(GrowthPeriod)) (x.(Growth))
  (x.(ProcessedGrowthPeriods)) (x.(ForceNewEra)) (x.(MinCollatorStake))
  (x.(MinTotalNominatorStake)) (x.(ProxyNonces)) (x.(PendingApproval))
  (x.(LastTriggeredGrowthPeriod)) (x.(PublishedGrowth)) (x.(Balances)) (x.(Bridge))
  (x.(block_number)) (x.(events)).
Definition set_Total (v : Balance) (x : t) : t :=
  mk (x.(Delay)) (x.(TotalSelected)) (x.(Era)) (x.(NominatorState)) (x.(CandidateInfo))
  (x.(NominationScheduledRequests)) (x.(TopNominations)) (x.(BottomNominations))
  (x.(SelectedCandidates)) v (x.(CandidatePool)) (x.(AtStake)) (x.(DelayedPayouts))
  (x.(Staked)) (x.(Points)) (x.(AwardedPts)) (x.(LockedEraPayout)) (x.(GrowthPeriod))
  (x.(Growth)) (x.(ProcessedGrowthPeriods)) (x.(ForceNewEra)) (x.(MinCollatorStake))
  (x.(MinTotalNominatorStake)) (x.(ProxyNonces)) (x.(PendingApproval))
  (x.(LastTriggeredGrowthPeriod)) (x.(PublishedGrowth)) (x.(Balances)) (x.(Bridge))
  (x.(block_number)) (x.(events)).
Definition set_CandidatePool (v : list Bond.t) (x : t) : t :=
  mk (x.(Delay)) (x.(TotalSelected)) (x.(Era)) (x.(NominatorState)) (x.(CandidateInfo))
  (x.(NominationScheduledRequests)) (x.(TopNominations)) (x.(BottomNominations))
  (x.(SelectedCandidates)) (x.(Total)) v (x.(AtStake)) (x.(DelayedPayouts)) (x.(Staked))
  (x.(Points)) (x.(AwardedPts)) (x.(LockedEraPayout)) (x.(GrowthPeriod)) (x.(Growth))
  (x.(ProcessedGrowthPeriods)) (x.(ForceNewEra)) (x.(MinCollatorStake))
  (x.(MinTotalNominatorStake)) (x.(ProxyNonces)) (x.(PendingApproval))
  (x.(LastTriggeredGrowthPeriod)) (x.(PublishedGrowth)) (x.(Balances)) (x.(Bridge))
  (x.(block_number)) (x.(events)).
Definition set_AtStake (v : gmap EraIndex (gmap AccountId CollatorSnapshot.t)) (x : t) : t :=
  mk (x.(Delay)) (x.(TotalSelected)) (x.(Era)) (x.(NominatorState)) (x.(CandidateInfo))
  (x.(NominationScheduledRequests)) (x.(TopNominations)) (x.(BottomNominations))
  (x.(SelectedCandidates)) (x.(Total)) (x.(CandidatePool)) v (x.(DelayedPayouts))
  (x.(Staked)) (x.(Points)) (x.(AwardedPts)) (x.(LockedEraPayout)) (x.(GrowthPeriod))
  (x.(Growth)) (x.(ProcessedGrowthPeriods)) (x.(ForceNewEra)) (x.(MinCollatorStake))
  (x.(MinTotalNominatorStake)) (x.(ProxyNonces)) (x.(PendingApproval))
  (x.(LastTriggeredGrowthPeriod)) (x.(PublishedGrowth)) (x.(Balances)) (x.(Bridge))
  (x.(block_number)) (x.(events)).
Definition set_DelayedPayouts (v : gmap EraIndex DelayedPayout) (x : t) : t :=
  mk (x.(Delay)) (x.(TotalSelected)) (x.(Era)) (x.(NominatorState)) (x.(CandidateInfo))
  (x.(NominationScheduledRequests)) (x.(TopNominations)) (x.(BottomNominations))
  (x.(SelectedCandidates)) (x.(Total)) (x.(CandidatePool)) (x.(AtStake)) v (x.(Staked))
  (x.(Points)) (x.(AwardedPts)) (x.(LockedEraPayout)) (x.(GrowthPeriod)) (x.(Growth))
  (x.(ProcessedGrowthPeriods)) (x.(ForceNewEra)) (x.(MinCollatorStake))
  (x.(MinTotalNominatorStake)) (x.(ProxyNonces)) (x.(PendingApproval))
  (x.(LastTriggeredGrowthPeriod)) (x.(PublishedGrowth)) (x.(Balances)) (x.(Bridge))
  (x.(block_number)) (x.(events)).
Definition set_Staked (v : gmap EraIndex Balance) (x : t) : t :=
  mk (x.(Delay)) (x.(TotalSelected)) (x.(Era)) (x.(NominatorState)) (x.(CandidateInfo))
  (x.(NominationScheduledRequests)) (x.(TopNominations)) (x.(BottomNominations))
  (x.(SelectedCandidates)) (x.(Total)) (x.(CandidatePool)) (x.(AtStake))
  (x.(DelayedPayouts)) v (x.(Points)) (x.(AwardedPts)) (x.(LockedEraPayout))
  (x.(GrowthPeriod)) (x.(Growth)) (x.(ProcessedGrowthPeriods)) (x.(ForceNewEra))
  (x.(MinCollatorStake)) (x.(MinTotalNominatorStake)) (x.(ProxyNonces))
  (x.(PendingApproval)) (x.(LastTriggeredGrowthPeriod)) (x.(PublishedGrowth)) (x.(Balances))
  (x.(Bridge)) (x.(block_number)) (x.(events)).
Definition set_Points (v : gmap EraIndex RewardPoint) (x : t) : t :=
  mk (x.(Delay)) (x.(TotalSelected)) (x.(Era)) (x.(NominatorState)) (x.(CandidateInfo))
  (x.(NominationScheduledRequests)) (x.(TopNominations)) (x.(BottomNominations))
  (x.(SelectedCandidates)) (x.(Total)) (x.(CandidatePool)) (x.(AtStake))
  (x.(DelayedPayouts)) (x.(Staked)) v (x.(AwardedPts)) (x.(LockedEraPayout))
  (x.(GrowthPeriod)) (x.(Growth)) (x.(ProcessedGrowthPeriods)) (x.(ForceNewEra))
  (x.(MinCollatorStake)) (x.(MinTotalNominatorStake)) (x.(ProxyNonces))
  (x.(PendingApproval)) (x.(LastTriggeredGrowthPeriod)) (x.(PublishedGrowth)) (x.(Balances))
  (x.(Bridge)) (x.(block_number)) (x.(events)).
Definition set_AwardedPts (v : gmap EraIndex (gmap AccountId RewardPoint)) (x : t) : t :=
  mk (x.(Delay)) (x.(TotalSelected)) (x.(Era)) (x.(NominatorState)) (x.(CandidateInfo))
  (x.(NominationScheduledRequests)) (x.(TopNominations)) (x.(BottomNominations))
  (x.(SelectedCandidates)) (x.(Total)) (x.(CandidatePool)) (x.(AtStake))
  (x.(DelayedPayouts)) (x.(Staked)) (x.(Points)) v (x.(LockedEraPayout)) (x.(GrowthPeriod))
  (x.(Growth)) (x.(ProcessedGrowthPeriods)) (x.(ForceNewEra)) (x.(MinCollatorStake))
  (x.(MinTotalNominatorStake)) (x.(ProxyNonces)) (x.(PendingApproval))
  (x.(LastTriggeredGrowthPeriod)) (x.(PublishedGrowth)) (x.(Balances)) (x.(Bridge))
  (x.(block_number)) (x.(events)).
Definition set_LockedEraPayout (v : Balance) (x : t) : t :=
  mk (x.(Delay)) (x.(TotalSelected)) (x.(Era)) (x.(NominatorState)) (x.(CandidateInfo))
  (x.(NominationScheduledRequests)) (x.(TopNominations)) (x.(BottomNominations))
  (x.(SelectedCandidates)) (x.(Total)) (x.(CandidatePool)) (x.(AtStake))
  (x.(DelayedPayouts)) (x.(Staked)) (x.(Points)) (x.(AwardedPts)) v (x.(GrowthPeriod))
  (x.(Growth)) (x.(ProcessedGrowthPeriods)) (x.(ForceNewEra)) (x.(MinCollatorStake))
  (x.(MinTotalNominatorStake)) (x.(ProxyNonces)) (x.(PendingApproval))
  (x.(LastTriggeredGrowthPeriod)) (x.(PublishedGrowth)) (x.(Balances)) (x.(Bridge))
  (x.(block_number)) (x.(events)).
Definition set_GrowthPeriod (v : GrowthPeriodInfo.t) (x : t) : t :=
  mk (x.(Delay)) (x.(TotalSelected)) (x.(Era)) (x.(NominatorState)) (x.(CandidateInfo))
  (x.(NominationScheduledRequests)) (x.(TopNominations)) (x.(BottomNominations))
  (x.(SelectedCandidates)) (x.(Total)) (x.(CandidatePool)) (x.(AtStake))
  (x.(DelayedPayouts)) (x.(Staked)) (x.(Points)) (x.(AwardedPts)) (x.(LockedEraPayout)) v
  (x.(Growth)) (x.(ProcessedGrowthPeriods)) (x.(ForceNewEra)) (x.(MinCollatorStake))
  (x.(MinTotalNominatorStake)) (x.(ProxyNonces)) (x.(PendingApproval))
  (x.(LastTriggeredGrowthPeriod)) (x.(PublishedGrowth)) (x.(Balances)) (x.(Bridge))
  (x.(block_number)) (x.(events)).
Definition set_Growth (v : gmap GrowthPeriodIndex GrowthInfo.t) (x : t) : t :=
  mk (x.(Delay)) (x.(TotalSelected)) (x.(Era)) (x.(NominatorState)) (x.(CandidateInfo))
  (x.(NominationScheduledRequests)) (x.(TopNominations)) (x.(BottomNominations))
  (x.(SelectedCandidates)) (x.(Total)) (x.(CandidatePool)) (x.(AtStake))
  (x.(DelayedPayouts)) (x.(Staked)) (x.(Points)) (x.(AwardedPts)) (x.(LockedEraPayout))
  (x.(GrowthPeriod)) v (x.(ProcessedGrowthPeriods)) (x.(ForceNewEra)) (x.(MinCollatorStake))
  (x.(MinTotalNominatorStake)) (x.(ProxyNonces)) (x.(PendingApproval))
  (x.(LastTriggeredGrowthPeriod)) (x.(PublishedGrowth)) (x.(Balances)) (x.(Bridge))
  (x.(block_number)) (x.(events)).
Definition set_ProcessedGrowthPeriods (v : gset GrowthPeriodIndex) (x : t) : t :=
  mk (x.(Delay)) (x.(TotalSelected)) (x.(Era)) (x.(NominatorState)) (x.(CandidateInfo))
  (x.(NominationScheduledRequests)) (x.(TopNominations)) (x.(BottomNominations))
  (x.(SelectedCandidates)) (x.(Total)) (x.(CandidatePool)) (x.(AtStake))
  (x.(DelayedPayouts)) (x.(Staked)) (x.(Points)) (x.(AwardedPts)) (x.(LockedEraPayout))
  (x.(GrowthPeriod)) (x.(Growth)) v (x.(ForceNewEra)) (x.(MinCollatorStake))
  (x.(MinTotalNominatorStake)) (x.(ProxyNonces)) (x.(PendingApproval))
  (x.(LastTriggeredGrowthPeriod)) (x.(PublishedGrowth)) (x.(Balances)) (x.(Bridge))
  (x.(block_number)) (x.(events)).
Definition set_ForceNewEra (v : bool) (x : t) : t :=
  mk (x.(Delay)) (x.(TotalSelected)) (x.(Era)) (x.(NominatorState)) (x.(CandidateInfo))
  (x.(NominationScheduledRequests)) (x.(TopNominations)) (x.(BottomNominations))
  (x.(SelectedCandidates)) (x.(Total)) (x.(CandidatePool)) (x.(AtStake))
  (x.(DelayedPayouts)) (x.(Staked)) (x.(Points)) (x.(AwardedPts)) (x.(LockedEraPayout))
  (x.(GrowthPeriod)) (x.(Growth)) (x.(ProcessedGrowthPeriods)) v (x.(MinCollatorStake))
  (x.(MinTotalNominatorStake)) (x.(ProxyNonces)) (x.(PendingApproval))
  (x.(LastTriggeredGrowthPeriod)) (x.(PublishedGrowth)) (x.(Balances)) (x.(Bridge))
  (x.(block_number)) (x.(events)).
Definition set_MinCollatorStake (v : Balance) (x : t) : t :=
  mk (x.(Delay)) (x.(TotalSelected)) (x.(Era)) (x.(NominatorState)) (x.(CandidateInfo))
  (x.(NominationScheduledRequests)) (x.(TopNominations)) (x.(BottomNominations))
  (x.(SelectedCandidates)) (x.(Total)) (x.(CandidatePool)) (x.(AtStake))
  (x.(DelayedPayouts)) (x.(Staked)) (x.(Points)) (x.(AwardedPts)) (x.(LockedEraPayout))
  (x.(GrowthPeriod)) (x.(Growth)) (x.(ProcessedGrowthPeriods)) (x.(ForceNewEra)) v
  (x.(MinTotalNominatorStake)) (x.(ProxyNonces)) (x.(PendingApproval))
  (x.(LastTriggeredGrowthPeriod)) (x.(PublishedGrowth)) (x.(Balances)) (x.(Bridge))
  (x.(block_number)) (x.(events)).
Definition set_MinTotalNominatorStake (v : Balance) (x : t) : t :=
  mk (x.(Delay)) (x.(TotalSelected)) (x.(Era)) (x.(NominatorState)) (x.(CandidateInfo))
  (x.(NominationScheduledRequests)) (x.(TopNominations)) (x.(BottomNominations))
  (x.(SelectedCandidates)) (x.(Total)) (x.(CandidatePool)) (x.(AtStake))
  (x.(DelayedPayouts)) (x.(Staked)) (x.(Points)) (x.(AwardedPts)) (x.(LockedEraPayout))
  (x.(GrowthPeriod)) (x.(Growth)) (x.(ProcessedGrowthPeriods)) (x.(ForceNewEra))
  (x.(MinCollatorStake)) v (x.(ProxyNonces)) (x.(PendingApproval))
  (x.(LastTriggeredGrowthPeriod)) (x.(PublishedGrowth)) (x.(Balances)) (x.(Bridge))
  (x.(block_number)) (x.(events)).
Definition set_ProxyNonces (v : gmap AccountId Z) (x : t) : t :=
  mk (x.(Delay)) (x.(TotalSelected)) (x.(Era)) (x.(NominatorState)) (x.(CandidateInfo))
  (x.(NominationScheduledRequests)) (x.(TopNominations)) (x.(BottomNominations))
  (x.(SelectedCandidates)) (x.(Total)) (x.(CandidatePool)) (x.(AtStake))
  (x.(DelayedPayouts)) (x.(Staked)) (x.(Points)) (x.(AwardedPts)) (x.(LockedEraPayout))
  (x.(GrowthPeriod)) (x.(Growth)) (x.(ProcessedGrowthPeriods)) (x.(ForceNewEra))
  (x.(MinCollatorStake)) (x.(MinTotalNominatorStake)) v (x.(PendingApproval))
  (x.(LastTriggeredGrowthPeriod)) (x.(PublishedGrowth)) (x.(Balances)) (x.(Bridge))
  (x.(block_number)) (x.(events)).
Definition set_PendingApproval (v : gmap GrowthPeriodIndex Z) (x : t) : t :=
  mk (x.(Delay)) (x.(TotalSelected)) (x.(Era)) (x.(NominatorState)) (x.(CandidateInfo))
  (x.(NominationScheduledRequests)) (x.(TopNominations)) (x.(BottomNominations))
  (x.(SelectedCandidates)) (x.(Total)) (x.(CandidatePool)) (x.(AtStake))
  (x.(DelayedPayouts)) (x.(Staked)) (x.(Points)) (x.(AwardedPts)) (x.(LockedEraPayout))
  (x.(GrowthPeriod)) (x.(Growth)) (x.(ProcessedGrowthPeriods)) (x.(ForceNewEra))
  (x.(MinCollatorStake)) (x.(MinTotalNominatorStake)) (x.(ProxyNonces)) v
  (x.(LastTriggeredGrowthPeriod)) (x.(PublishedGrowth)) (x.(Balances)) (x.(Bridge))
  (x.(block_number)) (x.(events)).
Definition set_LastTriggeredGrowthPeriod (v : Z) (x : t) : t :=
  mk (x.(Delay)) (x.(TotalSelected)) (x.(Era)) (x.(NominatorState)) (x.(CandidateInfo))
  (x.(NominationScheduledRequests)) (x.(TopNominations)) (x.(BottomNominations))
  (x.(SelectedCandidates)) (x.(Total)) (x.(CandidatePool)) (x.(AtStake))
  (x.(DelayedPayouts)) (x.(Staked)) (x.(Points)) (x.(AwardedPts)) (x.(LockedEraPayout))
  (x.(GrowthPeriod)) (x.(Growth)) (x.(ProcessedGrowthPeriods)) (x.(ForceNewEra))
  (x.(MinCollatorStake)) (x.(MinTotalNominatorStake)) (x.(ProxyNonces))
  (x.(PendingApproval)) v (x.(PublishedGrowth)) (x.(Balances)) (x.(Bridge))
  (x.(block_number)) (x.(events)).
Definition set_PublishedGrowth (v : gmap EthereumId GrowthPeriodIndex) (x : t) : t :=
  mk (x.(Delay)) (x.(TotalSelected)) (x.(Era)) (x.(NominatorState)) (x.(CandidateInfo))
  (x.(NominationScheduledRequests)) (x.(TopNominations)) (x.(BottomNominations))
  (x.(SelectedCandidates)) (x.(Total)) (x.(CandidatePool)) (x.(AtStake))
  (x.(DelayedPayouts)) (x.(Staked)) (x.(Points)) (x.(AwardedPts)) (x.(LockedEraPayout))
  (x.(GrowthPeriod)) (x.(Growth)) (x.(ProcessedGrowthPeriods)) (x.(ForceNewEra))
  (x.(MinCollatorStake)) (x.(MinTotalNominatorStake)) (x.(ProxyNonces))
  (x.(PendingApproval)) (x.(LastTriggeredGrowthPeriod)) v (x.(Balances)) (x.(Bridge))
  (x.(block_number)) (x.(events)).
Definition set_Balances (v : CurrencyState) (x : t) : t :=
  mk (x.(Delay)) (x.(TotalSelected)) (x.(Era)) (x.(NominatorState)) (x.(CandidateInfo))
  (x.(NominationScheduledRequests)) (x.(TopNominations)) (x.(BottomNominations))
  (x.(SelectedCandidates)) (x.(Total)) (x.(CandidatePool)) (x.(AtStake))
  (x.(DelayedPayouts)) (x.(Staked)) (x.(Points)) (x.(AwardedPts)) (x.(LockedEraPayout))
  (x.(GrowthPeriod)) (x.(Growth)) (x.(ProcessedGrowthPeriods)) (x.(ForceNewEra))
  (x.(MinCollatorStake)) (x.(MinTotalNominatorStake)) (x.(ProxyNonces))
  (x.(PendingApproval)) (x.(LastTriggeredGrowthPeriod)) (x.(PublishedGrowth)) v (x.(Bridge))
  (x.(block_number)) (x.(events)).
Definition set_Bridge (v : BridgeState) (x : t) : t :=
  mk (x.(Delay)) (x.(TotalSelected)) (x.(Era)) (x.(NominatorState)) (x.(CandidateInfo))
  (x.(NominationScheduledRequests)) (x.(TopNominations)) (x.(BottomNominations))
  (x.(SelectedCandidates)) (x.(Total)) (x.(CandidatePool)) (x.(AtStake))
  (x.(DelayedPayouts)) (x.(Staked)) (x.(Points)) (x.(AwardedPts)) (x.(LockedEraPayout))
  (x.(GrowthPeriod)) (x.(Growth)) (x.(ProcessedGrowthPeriods)) (x.(ForceNewEra))
  (x.(MinCollatorStake)) (x.(MinTotalNominatorStake)) (x.(ProxyNonces))
  (x.(PendingApproval)) (x.(LastTriggeredGrowthPeriod)) (x.(PublishedGrowth)) (x.(Balances))
  v (x.(block_number)) (x.(events)).
Definition set_block_number (v : BlockNumber) (x : t) : t :=
  mk (x.(Delay)) (x.(TotalSelected)) (x.(Era)) (x.(NominatorState)) (x.(CandidateInfo))
  (x.(NominationScheduledRequests)) (x.(TopNominations)) (x.(BottomNominations))
  (x.(SelectedCandidates)) (x.(Total)) (x.(CandidatePool)) (x.(AtStake))
  (x.(DelayedPayouts)) (x.(Staked)) (x.(Points)) (x.(AwardedPts)) (x.(LockedEraPayout))
  (x.(GrowthPeriod)) (x.(Growth)) (x.(ProcessedGrowthPeriods)) (x.(ForceNewEra))
  (x.(MinCollatorStake)) (x.(MinTotalNominatorStake)) (x.(ProxyNonces))
  (x.(PendingApproval)) (x.(LastTriggeredGrowthPeriod)) (x.(PublishedGrowth)) (x.(Balances))
  (x.(Bridge)) v (x.(events)).
Definition set_events (v : list Event.t) (x : t) : t :=
  mk (x.(Delay)) (x.(TotalSelected)) (x.(Era)) (x.(NominatorState)) (x.(CandidateInfo))
  (x.(NominationScheduledRequests)) (x.(TopNominations)) (x.(BottomNominations))
  (x.(SelectedCandidates)) (x.(Total)) (x.(CandidatePool)) (x.(AtStake))
  (x.(DelayedPayouts)) (x.(Staked)) (x.(Points)) (x.(AwardedPts)) (x.(LockedEraPayout))
  (x.(GrowthPeriod)) (x.(Growth)) (x.(ProcessedGrowthPeriods)) (x.(ForceNewEra))
  (x.(MinCollatorStake)) (x.(MinTotalNominatorStake)) (x.(ProxyNonces))
  (x.(PendingApproval)) (x.(LastTriggeredGrowthPeriod)) (x.(PublishedGrowth)) (x.(Balances))
  (x.(Bridge)) (x.(block_number)) v.
Definition upd_Delay (f : EraIndex → EraIndex) (x : t) : t := set_Delay (f (x.(Delay))) x.
Definition upd_TotalSelected (f : Z → Z) (x : t) : t := set_TotalSelected (f (x.(TotalSelected))) x.
Definition upd_Era (f : EraInfo.t → EraInfo.t) (x : t) : t := set_Era (f (x.(Era))) x.
Definition upd_NominatorState (f : gmap AccountId Nominator.t → gmap AccountId Nominator.t) (x : t) : t := set_NominatorState (f (x.(NominatorState))) x.
Definition upd_CandidateInfo (f : gmap AccountId CandidateMetadata.t → gmap AccountId CandidateMetadata.t) (x : t) : t := set_CandidateInfo (f (x.(CandidateInfo))) x.
Definition upd_NominationScheduledRequests (f : gmap AccountId (list ScheduledRequest.t) → gmap AccountId (list ScheduledRequest.t)) (x : t) : t := set_NominationScheduledRequests (f (x.(NominationScheduledRequests))) x.
Definition upd_TopNominations (f : gmap AccountId Nominations.t → gmap AccountId Nominations.t) (x : t) : t := set_TopNominations (f (x.(TopNominations))) x.
Definition upd_BottomNominations (f : gmap AccountId Nominations.t → gmap AccountId Nominations.t) (x : t) : t := set_BottomNominations (f (x.(BottomNominations))) x.
Definition upd_SelectedCandidates (f : list AccountId → list AccountId) (x : t) : t := set_SelectedCandidates (f (x.(SelectedCandidates))) x.
Definition upd_Total (f : Balance → Balance) (x : t) : t := set_Total (f (x.(Total))) x.
Definition upd_CandidatePool (f : list Bond.t → list Bond.t) (x : t) : t := set_CandidatePool (f (x.(CandidatePool))) x.
Definition upd_AtStake (f : gmap EraIndex (gmap AccountId CollatorSnapshot.t) → gmap EraIndex (gmap AccountId CollatorSnapshot.t)) (x : t) : t := set_AtStake (f (x.(AtStake))) x.
Definition upd_DelayedPayouts (f : gmap EraIndex DelayedPayout → gmap EraIndex DelayedPayout) (x : t) : t := set_DelayedPayouts (f (x.(DelayedPayouts))) x.
Definition upd_Staked (f : gmap EraIndex Balance → gmap EraIndex Balance) (x : t) : t := set_Staked (f (x.(Staked))) x.
Definition upd_Points (f : gmap EraIndex RewardPoint → gmap EraIndex RewardPoint) (x : t) : t := set_Points (f (x.(Points))) x.
Definition upd_AwardedPts (f : gmap EraIndex (gmap AccountId RewardPoint) → gmap EraIndex (gmap AccountId RewardPoint)) (x : t) : t := set_AwardedPts (f (x.(AwardedPts))) x.
Definition upd_LockedEraPayout (f : Balance → Balance) (x : t) : t := set_LockedEraPayout (f (x.(LockedEraPayout))) x.
Definition upd_GrowthPeriod (f : GrowthPeriodInfo.t → GrowthPeriodInfo.t) (x : t) : t := set_GrowthPeriod (f (x.(GrowthPeriod))) x.
Definition upd_Growth (f : gmap GrowthPeriodIndex GrowthInfo.t → gmap GrowthPeriodIndex GrowthInfo.t) (x : t) : t := set_Growth (f (x.(Growth))) x.
Definition upd_ProcessedGrowthPeriods (f : gset GrowthPeriodIndex → gset GrowthPeriodIndex) (x : t) : t := set_ProcessedGrowthPeriods (f (x.(ProcessedGrowthPeriods))) x.
Definition upd_ForceNewEra (f : bool → bool) (x : t) : t := set_ForceNewEra (f (x.(ForceNewEra))) x.
Definition upd_MinCollatorStake (f : Balance → Balance) (x : t) : t := set_MinCollatorStake (f (x.(MinCollatorStake))) x.
Definition upd_MinTotalNominatorStake (f : Balance → Balance) (x : t) : t := set_MinTotalNominatorStake (f (x.(MinTotalNominatorStake))) x.
Definition upd_ProxyNonces (f : gmap AccountId Z → gmap AccountId Z) (x : t) : t := set_ProxyNonces (f (x.(ProxyNonces))) x.
Definition upd_PendingApproval (f : gmap GrowthPeriodIndex Z → gmap GrowthPeriodIndex Z) (x : t) : t := set_PendingApproval (f (x.(PendingApproval))) x.
Definition upd_LastTriggeredGrowthPeriod (f : Z → Z) (x : t) : t := set_LastTriggeredGrowthPeriod (f (x.(LastTriggeredGrowthPeriod))) x.
Definition upd_PublishedGrowth (f : gmap EthereumId GrowthPeriodIndex → gmap EthereumId GrowthPeriodIndex) (x : t) : t := set_PublishedGrowth (f (x.(PublishedGrowth))) x.
Definition upd_Balances (f : CurrencyState → CurrencyState) (x : t) : t := set_Balances (f (x.(Balances))) x.
Definition upd_Bridge (f : BridgeState → BridgeState) (x : t) : t := set_Bridge (f (x.(Bridge))) x.
Definition upd_block_number (f : BlockNumber → BlockNumber) (x : t) : t := set_block_number (f (x.(block_number))) x.
Definition upd_events (f : list Event.t → list Event.t) (x : t) : t := set_events (f (x.(events))) x.

(** Storage of a chain before genesis: every item at its default. *)
Definition empty (balances : CurrencyState) (bridge : BridgeState) : t :=
  mk 0 0 EraInfo.default ∅ ∅ ∅ ∅ ∅ [] 0 [] ∅ ∅ ∅ ∅ ∅ 0 GrowthPeriodInfo.default ∅ ∅ false
    0 0 ∅ ∅ 0 ∅ balances bridge 0 [].
End S.
End Storage.

Abbreviation Dispatch := (M Storage.t DispatchError).
Abbreviation ensure := (@Prelude.ensure _ DispatchError).
Abbreviation fail := (@Prelude.fail _ DispatchError _).
Abbreviation ok_or := (@Prelude.ok_or _ DispatchError _).

Section Effects.
Context `{Config}.

Definition deposit_event (e : Event.t) : Dispatch unit :=
  modify (Storage.upd_events (λ l, l ++ [e])).
(** Effects of [T::Currency] that cannot fail. *)
Definition currency (f : CurrencyState → CurrencyState) : Dispatch unit :=
  modify (Storage.upd_Balances f).
Definition ensure_signed (origin : Origin) : Dispatch AccountId :=
  match origin with Signed who => mret who | _ => fail BadOrigin end.
Definition ensure_root (origin : Origin) : Dispatch unit :=
  match origin with Root => mret () | _ => fail BadOrigin end.

(** Reads of [ValueQuery] maps. *)
Definition scheduled_requests (collator : AccountId) (s : Storage.t) : list ScheduledRequest.t :=
  unwrap_or [] (Storage.NominationScheduledRequests s !! collator).
Definition points (era : EraIndex) (s : Storage.t) : RewardPoint :=
  unwrap_or 0 (Storage.Points s !! era).
Definition awarded_pts (era : EraIndex) (acc : AccountId) (s : Storage.t) : RewardPoint :=
  unwrap_or 0 (unwrap_or ∅ (Storage.AwardedPts s !! era) !! acc).
Definition at_stake (era : EraIndex) (acc : AccountId) (s : Storage.t) : CollatorSnapshot.t :=
  unwrap_or CollatorSnapshot.default (unwrap_or ∅ (Storage.AtStake s !! era) !! acc).
Definition growth (period : GrowthPeriodIndex) (s : Storage.t) : GrowthInfo.t :=
  unwrap_or GrowthInfo.default (Storage.Growth s !! period).
Definition proxy_nonce (acc : AccountId) (s : Storage.t) : Z :=
  unwrap_or 0 (Storage.ProxyNonces s !! acc).

(** [StorageDoubleMap::iter_prefix]: the entries of one era in the order of
    their hashed keys. *)
Definition iter_prefix {A} (era : EraIndex) (m : gmap EraIndex (gmap AccountId A)) :
    list (AccountId * A) :=
  sort_by (λ x y, (storage_position x.1 ?= storage_position y.1)%N)
    (map_to_list (unwrap_or ∅ (m !! era))).
(** Insertion into and removal from a double map. *)
Definition insert2 {A} (era : EraIndex) (acc : AccountId) (a : A)
    (m : gmap EraIndex (gmap AccountId A)) : gmap EraIndex (gmap AccountId A) :=
  <[era := <[acc := a]> (unwrap_or ∅ (m !! era))]> m.
Definition delete2 {A} (era : EraIndex) (acc : AccountId)
    (m : gmap EraIndex (gmap AccountId A)) : gmap EraIndex (gmap AccountId A) :=
  <[era := delete acc (unwrap_or ∅ (m !! era))]> m.
End Effects.
