(* ===== verification/NominatorOps.v ===== *)
(** * Nominators and the candidate pool

    The operations of [Nominator] in [types.rs] that touch storage, and the
    helpers of [lib.rs] and [nomination_requests.rs] they and the candidates
    call: free balances, the candidate pool, removal of a pending request. *)

From S2P Require Import Prelude Slices Sets StakingConfig StakingTypes StakingState.

Section Pallet.
Context `{Config}.

Definition is_nominator (acc : AccountId) (s : Storage.t) : bool :=
  bool_decide (is_Some (Storage.NominatorState s !! acc)).
Definition is_candidate (acc : AccountId) (s : Storage.t) : bool :=
  bool_decide (is_Some (Storage.CandidateInfo s !! acc)).

(** An account's free balance which is not locked in nomination staking. *)
Definition get_nominator_stakable_free_balance (acc : AccountId) (s : Storage.t) : Balance :=
  let balance := free_balance (Storage.Balances s) acc in
  match Storage.NominatorState s !! acc with
  | Some state => balance ⊖ Nominator.total state
  | None => balance
  end.
(** An account's free balance which is not locked in collator staking. *)
Definition get_collator_stakable_free_balance (acc : AccountId) (s : Storage.t) : Balance :=
  let balance := free_balance (Storage.Balances s) acc in
  match Storage.CandidateInfo s !! acc with
  | Some info => balance ⊖ CandidateMetadata.bond info
  | None => balance
  end.

(** The pool after [update_active]. *)
Definition pool_update (candidate : AccountId) (total : Balance) (candidates : list Bond.t) :
    list Bond.t :=
  let candidates := (BoundedOrderedSet.remove (Bond.from_owner candidate) candidates).2 in
  (BoundedOrderedSet.try_insert MaxCandidates (Bond.mk candidate total) candidates).2.
Definition update_active (candidate : AccountId) (total : Balance) : Dispatch unit :=
  modify (Storage.upd_CandidatePool (pool_update candidate total)).

(** [adjust_bond_lock]: lock [self.total] for the nominator. *)
Definition adjust_bond_lock (self : Nominator.t) (additional_required_balance : BondAdjust) :
    Dispatch unit :=
  match additional_required_balance with
  | Increase amount =>
      free ← gets (get_nominator_stakable_free_balance (Nominator.id self));
      ensure (bool_decide (amount <= free)) Error.InsufficientBalance;;
      ensure (bool_decide (amount <= Nominator.total self))
        (Other "Invalid additional_required_balance")
  | Decrease => mret ()
  end;;
  if bool_decide (Nominator.total self = 0)
  then currency (remove_lock NOMINATOR_LOCK_ID (Nominator.id self))
  else currency (set_lock NOMINATOR_LOCK_ID (Nominator.id self) (Nominator.total self)).

Definition total_sub_if (amount : Balance) (check : Balance → Dispatch unit)
    (self : Nominator.t) : Dispatch Nominator.t :=
  let total := Nominator.total self ⊖ amount in
  check total;;
  let self := Nominator.set_total total self in
  adjust_bond_lock self Decrease;;
  mret self.
Definition total_add (amount : Balance) (self : Nominator.t) : Dispatch Nominator.t :=
  let self := Nominator.set_total (Nominator.total self ⊕ amount) self in
  adjust_bond_lock self (Increase amount);;
  mret self.
Definition total_sub (amount : Balance) (self : Nominator.t) : Dispatch Nominator.t :=
  let self := Nominator.set_total (Nominator.total self ⊖ amount) self in
  adjust_bond_lock self Decrease;;
  mret self.

(** The remaining total, or [None] when there is no such nomination. *)
Definition rm_nomination (collator : AccountId) (self : Nominator.t) :
    Dispatch (option Balance * Nominator.t) :=
  r ← expect (Nominator.rm_loop collator (Nominator.nominations self) BoundedOrderedSet.new None);
  match r with
  | (nominations, Some balance) =>
      self ← expect_ok (total_sub balance (Nominator.set_nominations nominations self));
      mret (Some (Nominator.total self), self)
  | (_, None) => mret (None, self)
  end.

(** Removes the nominator's request towards a collator, if it exists; the
    caller stores the nominator state. *)
Definition nomination_remove_request_with_state (collator nominator : AccountId)
    (state : Nominator.t) : Dispatch Nominator.t :=
  reqs ← gets (scheduled_requests collator);
  match position (λ req, bool_decide (ScheduledRequest.nominator req = nominator)) reqs with
  | Some request_idx =>
      request ← expect (reqs !! request_idx);
      let amount := NominationAction.amount (ScheduledRequest.action request) in
      modify (Storage.upd_NominationScheduledRequests
                (insert collator (delete request_idx reqs)));;
      mret (Nominator.set_less_total (Nominator.less_total state ⊖ amount) state)
  | None => mret state
  end.

(** Whether a request, or a revoke request, exists for a nomination. *)
Definition nomination_request_exists (collator nominator : AccountId) (s : Storage.t) : bool :=
  existsb (λ req, bool_decide (ScheduledRequest.nominator req = nominator))
    (scheduled_requests collator s).
Definition nomination_request_revoke_exists (collator nominator : AccountId) (s : Storage.t) :
    bool :=
  existsb (λ req, bool_decide (ScheduledRequest.nominator req = nominator) &&
                  NominationAction.is_revoke (ScheduledRequest.action req))
    (scheduled_requests collator s).
End Pallet.
