(* ===== verification/Examples.v ===== *)
(** * A concrete runtime

    An instance of everything the staking pallet takes from the runtime, small
    enough to evaluate: balances as a finite map, [Perbill] in parts per
    billion, and capacities of a few nominations.  The examples of the
    development run on it. *)

From S2P Require Import Prelude StakingConfig StakingTypes StakingState.

(** Free balances and locks by account. *)
Record SimpleBalances : Type := mk_SimpleBalances {
  free : gmap AccountId Z;
  locks : gmap (bool * AccountId) Z;
}.
Definition lock_key (id : LockIdentifier) (who : AccountId) : bool * AccountId :=
  (match id with COLLATOR_LOCK_ID => true | NOMINATOR_LOCK_ID => false end, who).
Definition free_of (cs : SimpleBalances) (a : AccountId) : Z :=
  Z.min u128_max (Z.max 0 (unwrap_or 0 (free cs !! a))).
Definition simple_transfer (from to : AccountId) (amt : Z) (cs : SimpleBalances) :
    option SimpleBalances :=
  if bool_decide (0 <= amt ∧ amt < free_of cs from ∧ free_of cs to + amt <= u128_max) then
    if bool_decide (from = to) then Some cs else
    Some (mk_SimpleBalances
            (<[from := free_of cs from - amt]> (<[to := free_of cs to + amt]> (free cs))) (locks cs))
  else None.
Definition simple_deposit (who : AccountId) (amt : Z) (cs : SimpleBalances) :
    option (Z * SimpleBalances) :=
  if bool_decide (0 < free_of cs who) then
    Some (amt, mk_SimpleBalances (<[who := free_of cs who + amt]> (free cs)) (locks cs))
  else None.

Definition simple_currency : Currency := {|
  CurrencyState := SimpleBalances;
  free_balance := free_of;
  minimum_balance := 1;
  set_lock id who amt cs := mk_SimpleBalances (free cs) (<[lock_key id who := amt]> (locks cs));
  remove_lock id who cs := mk_SimpleBalances (free cs) (delete (lock_key id who) (locks cs));
  transfer := simple_transfer;
  deposit_into_existing := simple_deposit;
|}.

Lemma free_of_range cs a : 0 <= free_of cs a <= u128_max.
Proof. unfold free_of, u128_max. lia. Qed.
Lemma free_of_insert f l a v b :
  0 <= v <= u128_max →
  free_of (mk_SimpleBalances (<[a := v]> f) l) b =
    if bool_decide (a = b) then v else free_of (mk_SimpleBalances f l) b.
Proof.
  intros Hv. unfold free_of. cbn. case_bool_decide as Hab.
  - subst. rewrite lookup_insert_eq. cbn. lia.
  - by rewrite lookup_insert_ne.
Qed.
Lemma simple_currency_laws : CurrencyLaws simple_currency.
Proof.
  split; cbn; try done.
  - apply free_of_range.
  - intros from to amt [f l] cs' Ht Hne. unfold simple_transfer in Ht.
    repeat case_bool_decide; simplify_eq/=.
    pose proof (free_of_range (mk_SimpleBalances f l) to).
    pose proof (free_of_range (mk_SimpleBalances f l) from).
    rewrite free_of_insert, bool_decide_true by (done || lia). done.
  - intros from to amt [f l] cs' Ht Hne. unfold simple_transfer in Ht.
    repeat case_bool_decide; simplify_eq/=.
    pose proof (free_of_range (mk_SimpleBalances f l) to).
    pose proof (free_of_range (mk_SimpleBalances f l) from).
    rewrite !free_of_insert, bool_decide_false, bool_decide_true by (done || lia). done.
  - intros from amt cs cs' Ht. unfold simple_transfer in Ht.
    repeat case_bool_decide; by simplify_eq/=.
  - intros from to amt [f l] cs' a Ht Hf Hto. unfold simple_transfer in Ht.
    repeat case_bool_decide; simplify_eq/=; [done|].
    pose proof (free_of_range (mk_SimpleBalances f l) to).
    pose proof (free_of_range (mk_SimpleBalances f l) from).
    rewrite !free_of_insert, !bool_decide_false by (done || lia). done.
  - intros who amt cs paid cs'. unfold simple_deposit. case_bool_decide; by intros [= -> _].
Qed.

(** Parts per billion, rounded down; the product rounded to the nearest. *)
Definition simple_perbill : PerbillArith := {|
  perbill_from_rational p q := let q := Z.max 1 q in Z.max 0 (Z.min p q) * 1000000000 / q;
  perbill_mul x n := (x * n + 500000000) / 1000000000;
|}.
Lemma simple_perbill_laws : PerbillLaws simple_perbill.
Proof.
  split. intros p q n Hn. unfold share. cbn.
  set (q' := Z.max 1 q). set (p' := Z.max 0 (Z.min p q')).
  assert (0 <= p' * 1000000000 / q' <= 1000000000) as Hx.
  { split; [apply Z.div_pos; lia|]. apply Z.div_le_upper_bound; lia. }
  set (x := p' * 1000000000 / q') in *. split.
  - apply Z.div_pos; nia.
  - apply Z.lt_succ_r, Z.div_lt_upper_bound; nia.
Qed.

#[export] Instance payload_eq_dec : EqDecision (SignedPayload AccountId).
Proof. solve_decision. Defined.

(** Three top nominations, two bottom ones, four candidates.  A signature is
    the signer's account with the payload; every account has session keys. *)
#[export] Instance small_config : Config := {|
  config_currency := simple_currency;
  config_perbill := simple_perbill;
  MinBlocksPerEra := 20;
  RewardPaymentDelay := 2;
  MinSelectedCandidates := 2;
  MaxTopNominationsPerCandidate := 3;
  MaxBottomNominationsPerCandidate := 2;
  MaxNominationsPerNominator := 4;
  MinNominationPerCollator := 3;
  ErasPerGrowthPeriod := 2;
  RewardPotAccount := 999%N;
  MaxCandidates := 4;
  GrowthEnabled := true;
  CollatorSessionRegistration_is_registered _ := true;
  LookupSource := AccountId;
  Lookup_lookup := Some;
  Signature := AccountId * SignedPayload AccountId;
  verify_signature proof payload := bool_decide (proof_signature proof = (proof_signer proof, payload));
  BridgeState := Z;
  BridgeInterface_publish _ _ _ n := (inr n, n + 1);
  CollatorPayoutDustHandler_handle_dust _ cs := cs;
  storage_position a := a;
  cfg_test := true;
|}.
#[export] Instance small_currency_laws : CurrencyLaws (@config_currency small_config) :=
  simple_currency_laws.
#[export] Instance small_perbill_laws : PerbillLaws (@config_perbill small_config) :=
  simple_perbill_laws.
#[export] Instance small_config_ok : ConfigOk small_config.
Proof. split; cbn; unfold MaxNominations, MaxCloneableNominations, u128_max; lia. Qed.

(** A chain with funded accounts and no staking yet. *)
Definition rich (accounts : list AccountId) : SimpleBalances :=
  mk_SimpleBalances (list_to_map ((λ a, (a, 1000)) <$> accounts)) ∅.
Definition empty_chain (accounts : list AccountId) : Storage.t :=
  Storage.empty (rich accounts) (1 : @BridgeState small_config).
