(* ===== verification/CandidateOps.v ===== *)
(** * Candidates: the operations of [CandidateMetadata]

    The methods of [impl CandidateMetadata] in [types.rs] that touch storage.
    A method takes [self] and returns it as updated; the callers store it. *)

From S2P Require Import Prelude Slices Sets StakingConfig StakingTypes StakingState NominatorOps.

Module Candidate.
Import CandidateMetadata.
Section Methods.
Context `{Config}.

(** ** Leaving, self bond *)

Definition schedule_leave (self : t) : Dispatch (EraIndex * EraIndex * t) :=
  ensure (negb (is_leaving self)) Error.CandidateAlreadyLeaving;;
  now ← gets (EraInfo.current ∘ Storage.Era);
  delay ← gets Storage.Delay;
  let when := now +₃₂ delay in
  mret (now, when, set_status (Leaving when) self).

Definition can_leave (self : t) : Dispatch unit :=
  match status self with
  | Leaving when =>
      now ← gets (EraInfo.current ∘ Storage.Era);
      ensure (bool_decide (when <= now)) Error.CandidateCannotLeaveYet
  | _ => fail Error.CandidateNotLeaving
  end.

Definition bond_extra (who : AccountId) (more : Balance) (self : t) : Dispatch t :=
  free ← gets (get_collator_stakable_free_balance who);
  ensure (bool_decide (more <= free)) Error.InsufficientBalance;;
  modify (Storage.upd_Total (λ total, total ⊕ more));;
  let self := set_bond (bond self ⊕ more) self in
  currency (set_lock COLLATOR_LOCK_ID who (bond self));;
  let self := set_total_counted (total_counted self ⊕ more) self in
  deposit_event (Event.CandidateBondedMore who more (bond self));;
  mret self.

Definition schedule_unbond (less : Balance) (self : t) : Dispatch (EraIndex * t) :=
  ensure (bool_decide (request self = None)) Error.PendingCandidateRequestAlreadyExists;;
  ensure (bool_decide (less < bond self)) Error.CandidateBondBelowMin;;
  min_stake ← gets Storage.MinCollatorStake;
  ensure (bool_decide (min_stake <= bond self - less)) Error.CandidateBondBelowMin;;
  now ← gets (EraInfo.current ∘ Storage.Era);
  delay ← gets Storage.Delay;
  let when_executable := now +₃₂ delay in
  mret (when_executable,
        set_request (Some (CandidateBondLessRequest.mk less when_executable)) self).

Definition execute_unbond (who : AccountId) (self : t) : Dispatch t :=
  request ← ok_or (request self) Error.PendingCandidateRequestsDNE;
  now ← gets (EraInfo.current ∘ Storage.Era);
  ensure (bool_decide (CandidateBondLessRequest.when_executable request <= now))
    Error.PendingCandidateRequestNotDueYet;;
  let amount := CandidateBondLessRequest.amount request in
  modify (Storage.upd_Total (λ total, total ⊖ amount));;
  let self := set_bond (bond self ⊖ amount) self in
  currency (set_lock COLLATOR_LOCK_ID who (bond self));;
  let self := set_total_counted (total_counted self ⊖ amount) self in
  let event := Event.CandidateBondedLess who amount (bond self) in
  let self := set_request None self in
  (if is_active self then update_active who (total_counted self) else mret ());;
  deposit_event event;;
  mret self.

Definition cancel_unbond (who : AccountId) (self : t) : Dispatch t :=
  request ← ok_or (request self) Error.PendingCandidateRequestsDNE;
  deposit_event (Event.CancelledCandidateBondLess who
    (CandidateBondLessRequest.amount request)
    (CandidateBondLessRequest.when_executable request));;
  mret (set_request None self).

(** ** The metadata kept about the nomination lists *)

Definition reset_top_data (candidate : AccountId) (top_nominations : Nominations.t)
    (self : t) : Dispatch t :=
  let self := set_lowest_top_nomination_amount
                (Nominations.lowest_nomination_amount top_nominations) self in
  let self := set_top_capacity (Nominations.top_capacity top_nominations) self in
  let old_total_counted := total_counted self in
  let self := set_total_counted (bond self ⊕ Nominations.total top_nominations) self in
  (if negb (bool_decide (old_total_counted = total_counted self)) && is_active self
   then update_active candidate (total_counted self) else mret ());;
  mret self.

Definition reset_bottom_data (bottom_nominations : Nominations.t) (self : t) : t :=
  let self := set_lowest_bottom_nomination_amount
                (Nominations.lowest_nomination_amount bottom_nominations) self in
  let self := set_highest_bottom_nomination_amount
                (Nominations.highest_nomination_amount bottom_nominations) self in
  set_bottom_capacity (Nominations.bottom_capacity bottom_nominations) self.

(** ** Adding a nomination *)

Definition put_top (candidate : AccountId) (top : Nominations.t) : Dispatch unit :=
  modify (Storage.upd_TopNominations (insert candidate top)).
Definition put_bottom (candidate : AccountId) (bottom : Nominations.t) : Dispatch unit :=
  modify (Storage.upd_BottomNominations (insert candidate bottom)).

(** [Vec::pop]. *)
Definition pop (l : list Bond.t) : option (Bond.t * list Bond.t) :=
  x ← last l; Some (x, take (pred (length l)) l).

(** The kick of [add_bottom_nomination]: the lowest bottom nomination leaves
    the bottom and its nominator's state. *)
Definition kick_lowest_bottom (candidate : AccountId) (bottom : Nominations.t) :
    Dispatch Nominations.t :=
  p ← expect (pop (Nominations.nominations bottom));
  let kicked := p.1 in
  let bottom := Nominations.mk p.2 (Nominations.total bottom ⊖ Bond.amount kicked) in
  st ← gets (λ s, Storage.NominatorState s !! Bond.owner kicked);
  nominator_state ← expect st;
  let leaving := bool_decide (length (Nominator.nominations nominator_state) = 1%nat) in
  r ← rm_nomination candidate nominator_state;
  nominator_state ←
    nomination_remove_request_with_state candidate (Bond.owner kicked) r.2;
  deposit_event (Event.NominationKicked (Bond.owner kicked) candidate (Bond.amount kicked));;
  (if leaving : bool then
     modify (Storage.upd_NominatorState (delete (Bond.owner kicked)));;
     deposit_event (Event.NominatorLeft (Bond.owner kicked) (Bond.amount kicked))
   else
     modify (Storage.upd_NominatorState (insert (Bond.owner kicked) nominator_state)));;
  mret bottom.

Definition add_bottom_nomination (bumped_from_top : bool) (candidate : AccountId)
    (nomination : Bond.t) (self : t) : Dispatch t :=
  b ← gets (λ s, Storage.BottomNominations s !! candidate);
  bottom ← expect b;
  r ← (if bool_decide (length (Nominations.nominations bottom) = MaxBottomNominationsPerCandidate)
       then bottom ← kick_lowest_bottom candidate bottom; mret (false, bottom)
       else mret (negb bumped_from_top, bottom));
  let increase_nomination_count : bool := r.1 in
  let bottom := r.2 in
  let self := if increase_nomination_count
              then set_nomination_count (nomination_count self ⊕₃₂ 1) self else self in
  let bottom := Nominations.insert_sorted_greatest_to_least nomination bottom in
  let self := reset_bottom_data bottom self in
  put_bottom candidate bottom;;
  mret self.

Definition add_top_nomination (candidate : AccountId) (nomination : Bond.t) (self : t) :
    Dispatch (option Balance * t) :=
  tn ← gets (λ s, Storage.TopNominations s !! candidate);
  top ← expect tn;
  r ← (if bool_decide (length (Nominations.nominations top) = MaxTopNominationsPerCandidate)
       then
         p ← expect (pop (Nominations.nominations top));
         let new_bottom_nomination := p.1 in
         let top := Nominations.mk p.2
                      (Nominations.total top ⊖ Bond.amount new_bottom_nomination) in
         let less_total_staked :=
           if bool_decide (bottom_capacity self = Full)
           then Some (lowest_bottom_nomination_amount self) else None in
         self ← add_bottom_nomination true candidate new_bottom_nomination self;
         mret (less_total_staked, top, self)
       else mret (None, top, self));
  let '(less_total_staked, top, self) := r in
  let top := Nominations.insert_sorted_greatest_to_least nomination top in
  self ← reset_top_data candidate top self;
  let self := if bool_decide (less_total_staked = None)
              then set_nomination_count (nomination_count self ⊕₃₂ 1) self else self in
  put_top candidate top;;
  mret (less_total_staked, self).

Definition add_nomination (candidate : AccountId) (nomination : Bond.t) (self : t) :
    Dispatch (NominatorAdded * option Balance * t) :=
  match top_capacity self with
  | Full =>
      if bool_decide (lowest_top_nomination_amount self < Bond.amount nomination) then
        r ← add_top_nomination candidate nomination self;
        mret (AddedToTop (total_counted r.2), r.1, r.2)
      else
        less_total_staked ←
          (if bool_decide (bottom_capacity self = Full) then
             ensure (bool_decide (lowest_bottom_nomination_amount self < Bond.amount nomination))
               Error.CannotNominateLessThanOrEqualToLowestBottomWhenFull;;
             mret (Some (lowest_bottom_nomination_amount self))
           else mret None);
        self ← add_bottom_nomination false candidate nomination self;
        mret (AddedToBottom, less_total_staked, self)
  | _ =>
      r ← add_top_nomination candidate nomination self;
      mret (AddedToTop (total_counted r.2), None, r.2)
  end.

(** ** Removing a nomination *)

(** The [filter] closures that take a nominator's bond out of a list: what
    stays, and the last bond taken out. *)
Definition without (nominator : AccountId) (l : list Bond.t) : list Bond.t :=
  take MaxNominations (filter (λ d, Bond.owner d ≠ nominator) l).
Definition taken (nominator : AccountId) (l : list Bond.t) : option Bond.t :=
  last (filter (λ d, Bond.owner d = nominator) l).
(** The [map] closures that change the amount of a nominator's bond. *)
Definition adjust (nominator : AccountId) (f : Balance → Balance) (l : list Bond.t) :
    list Bond.t :=
  take MaxNominations
    ((λ d, if bool_decide (Bond.owner d = nominator)
           then Bond.mk (Bond.owner d) (f (Bond.amount d)) else d) <$> l).
Definition holds (nominator : AccountId) (l : list Bond.t) : bool :=
  existsb (λ d, bool_decide (Bond.owner d = nominator)) l.

Definition rm_top_nomination (candidate nominator : AccountId) (self : t) :
    Dispatch (bool * t) :=
  let old_total_counted := total_counted self in
  tn ← gets (λ s, Storage.TopNominations s !! candidate);
  top ← expect tn;
  let l := Nominations.nominations top in
  let top := Nominations.set_nominations (without nominator l) top in
  actual ← ok_or (taken nominator l) Error.NominationDNE;
  let top := Nominations.set_total (Nominations.total top ⊖ Bond.amount actual) top in
  r ← (if bool_decide (bottom_capacity self = Empty) then mret (top, self) else
         b ← gets (λ s, Storage.BottomNominations s !! candidate);
         bottom ← expect b;
         highest_bottom_nomination ← expect (head (Nominations.nominations bottom));
         let bottom := Nominations.mk (tail (Nominations.nominations bottom))
                         (Nominations.total bottom ⊖ Bond.amount highest_bottom_nomination) in
         let self := reset_bottom_data bottom self in
         put_bottom candidate bottom;;
         mret (Nominations.insert_sorted_greatest_to_least highest_bottom_nomination top, self));
  let '(top, self) := r in
  self ← reset_top_data candidate top self;
  let self := set_nomination_count (nomination_count self ⊖ 1) self in
  put_top candidate top;;
  mret (bool_decide (old_total_counted = total_counted self), self).

Definition rm_bottom_nomination (candidate nominator : AccountId) (self : t) :
    Dispatch (bool * t) :=
  b ← gets (λ s, Storage.BottomNominations s !! candidate);
  bottom ← expect b;
  let l := Nominations.nominations bottom in
  let bottom := Nominations.set_nominations (without nominator l) bottom in
  actual ← ok_or (taken nominator l) Error.NominationDNE;
  let bottom := Nominations.set_total (Nominations.total bottom ⊖ Bond.amount actual) bottom in
  let self := reset_bottom_data bottom self in
  let self := set_nomination_count (nomination_count self ⊖ 1) self in
  put_bottom candidate bottom;;
  mret (false, self).

(** [if result == Err(NominationDNE)] after a first attempt. *)
Definition or_else_dne {A} (first second : Dispatch A) : Dispatch A :=
  r ← try first;
  match r with
  | inl (Module_ Error.NominationDNE) => second
  | inl e => fail e
  | inr a => mret a
  end.

Definition rm_nomination_if_exists (candidate nominator : AccountId) (amount : Balance)
    (self : t) : Dispatch (bool * t) :=
  let amount_geq_lowest_top := bool_decide (lowest_top_nomination_amount self <= amount) in
  let top_is_not_full := negb (bool_decide (top_capacity self = Full)) in
  let lowest_top_eq_highest_bottom :=
    bool_decide (lowest_top_nomination_amount self = highest_bottom_nomination_amount self) in
  if top_is_not_full || (amount_geq_lowest_top && negb lowest_top_eq_highest_bottom)
  then rm_top_nomination candidate nominator self
  else if amount_geq_lowest_top && lowest_top_eq_highest_bottom
  then or_else_dne (rm_top_nomination candidate nominator self)
                   (rm_bottom_nomination candidate nominator self)
  else rm_bottom_nomination candidate nominator self.

(** ** Increasing a nomination *)

Definition increase_top_nomination (candidate nominator : AccountId) (more : Balance)
    (self : t) : Dispatch (bool * t) :=
  tn ← gets (λ s, Storage.TopNominations s !! candidate);
  top ← expect tn;
  let l := Nominations.nominations top in
  let in_top := holds nominator l in
  let top := Nominations.set_nominations (adjust nominator (λ a, a ⊕ more) l) top in
  ensure in_top Error.NominationDNE;;
  let top := Nominations.set_total (Nominations.total top ⊕ more) top in
  let top := Nominations.sort_greatest_to_least top in
  self ← reset_top_data candidate top self;
  put_top candidate top;;
  mret (true, self).

Definition increase_bottom_nomination (candidate nominator : AccountId) (bond more : Balance)
    (self : t) : Dispatch (bool * t) :=
  b ← gets (λ s, Storage.BottomNominations s !! candidate);
  bottom ← ok_or b Error.CandidateDNE;
  let l := Nominations.nominations bottom in
  r ← (if bool_decide (lowest_top_nomination_amount self < bond ⊕ more) then
         let bottom := Nominations.set_nominations (without nominator l) bottom in
         old ← ok_or (taken nominator l) Error.NominationDNE;
         let nomination := Bond.mk (Bond.owner old) (Bond.amount old ⊕ more) in
         let bottom := Nominations.set_total (Nominations.total bottom ⊖ bond) bottom in
         tn ← gets (λ s, Storage.TopNominations s !! candidate);
         top ← expect tn;
         r ← (if bool_decide (Nominations.top_capacity top = Full) then
                p ← expect (pop (Nominations.nominations top));
                let new_bottom_nomination := p.1 in
                let top := Nominations.mk p.2
                             (Nominations.total top ⊖ Bond.amount new_bottom_nomination) in
                mret (top, Nominations.insert_sorted_greatest_to_least
                             new_bottom_nomination bottom)
              else mret (top, bottom));
         let '(top, bottom) := r in
         let top := Nominations.insert_sorted_greatest_to_least nomination top in
         self ← reset_top_data candidate top self;
         put_top candidate top;;
         mret (true, bottom, self)
       else
         let in_bottom := holds nominator l in
         let bottom := Nominations.set_nominations (adjust nominator (λ a, a ⊕ more) l) bottom in
         ensure in_bottom Error.NominationDNE;;
         let bottom := Nominations.set_total (Nominations.total bottom ⊕ more) bottom in
         mret (false, Nominations.sort_greatest_to_least bottom, self));
  let '(in_top_after, bottom, self) := r in
  let self := reset_bottom_data bottom self in
  put_bottom candidate bottom;;
  mret (in_top_after, self).

Definition increase_nomination (candidate nominator : AccountId) (bond more : Balance)
    (self : t) : Dispatch (bool * t) :=
  let lowest_top_eq_highest_bottom :=
    bool_decide (lowest_top_nomination_amount self = highest_bottom_nomination_amount self) in
  let bond_geq_lowest_top := bool_decide (lowest_top_nomination_amount self <= bond) in
  if bond_geq_lowest_top && negb lowest_top_eq_highest_bottom
  then increase_top_nomination candidate nominator more self
  else if bond_geq_lowest_top && lowest_top_eq_highest_bottom
  then or_else_dne (increase_top_nomination candidate nominator more self)
                   (increase_bottom_nomination candidate nominator bond more self)
  else increase_bottom_nomination candidate nominator bond more self.

(** ** Decreasing a nomination *)

Definition decrease_top_nomination (candidate nominator : AccountId) (bond less : Balance)
    (self : t) : Dispatch (bool * t) :=
  let bond_after_less_than_highest_bottom :=
    bool_decide (bond ⊖ less < highest_bottom_nomination_amount self) in
  let full_top_and_nonempty_bottom :=
    bool_decide (top_capacity self = Full) && negb (bool_decide (bottom_capacity self = Empty)) in
  tn ← gets (λ s, Storage.TopNominations s !! candidate);
  top ← ok_or tn Error.CandidateDNE;
  let l := Nominations.nominations top in
  r ← (if bond_after_less_than_highest_bottom && full_top_and_nonempty_bottom then
         let total := foldl (λ t d, t ⊖ Bond.amount d) (Nominations.total top)
                        (filter (λ d, Bond.owner d = nominator) l) in
         let top := Nominations.mk (without nominator l) total in
         old ← ok_or (taken nominator l) Error.NominationDNE;
         let nomination := Bond.mk (Bond.owner old) (Bond.amount old ⊖ less) in
         b ← gets (λ s, Storage.BottomNominations s !! candidate);
         bottom ← expect b;
         highest_bottom_nomination ← expect (head (Nominations.nominations bottom));
         let bottom := Nominations.mk (tail (Nominations.nominations bottom))
                         (Nominations.total bottom ⊖ Bond.amount highest_bottom_nomination) in
         let top := Nominations.insert_sorted_greatest_to_least highest_bottom_nomination top in
         let bottom := Nominations.insert_sorted_greatest_to_least nomination bottom in
         let self := reset_bottom_data bottom self in
         put_bottom candidate bottom;;
         mret (false, top, self)
       else
         let is_in_top := holds nominator l in
         let top := Nominations.set_nominations (adjust nominator (λ a, a ⊖ less) l) top in
         ensure is_in_top Error.NominationDNE;;
         let top := Nominations.set_total (Nominations.total top ⊖ less) top in
         mret (true, Nominations.sort_greatest_to_least top, self));
  let '(in_top_after, top, self) := r in
  self ← reset_top_data candidate top self;
  put_top candidate top;;
  mret (in_top_after, self).

(** [bottom_nominations.total] is left as it was. *)
Definition decrease_bottom_nomination (candidate nominator : AccountId) (less : Balance)
    (self : t) : Dispatch (bool * t) :=
  b ← gets (λ s, Storage.BottomNominations s !! candidate);
  bottom ← expect b;
  let l := Nominations.nominations bottom in
  let in_bottom := holds nominator l in
  let bottom := Nominations.set_nominations (adjust nominator (λ a, a ⊖ less) l) bottom in
  ensure in_bottom Error.NominationDNE;;
  let bottom := Nominations.sort_greatest_to_least bottom in
  let self := reset_bottom_data bottom self in
  put_bottom candidate bottom;;
  mret (false, self).

Definition decrease_nomination (candidate nominator : AccountId) (bond less : Balance)
    (self : t) : Dispatch (bool * t) :=
  let lowest_top_eq_highest_bottom :=
    bool_decide (lowest_top_nomination_amount self = highest_bottom_nomination_amount self) in
  let bond_geq_lowest_top := bool_decide (lowest_top_nomination_amount self <= bond) in
  if bond_geq_lowest_top && negb lowest_top_eq_highest_bottom
  then decrease_top_nomination candidate nominator bond less self
  else if bond_geq_lowest_top && lowest_top_eq_highest_bottom
  then or_else_dne (decrease_top_nomination candidate nominator bond less self)
                   (decrease_bottom_nomination candidate nominator less self)
  else decrease_bottom_nomination candidate nominator less self.
End Methods.
End Candidate.
