(* ===== verification/Requests.v ===== *)
(** * Scheduled requests of nominators

    [pallets/parachain-staking/src/nomination_requests.rs]: scheduling,
    cancelling and executing the revocation or the decrease of a nomination,
    for one collator or for all of them; with [Nominator::increase_nomination]
    of [types.rs] and [nominator_leaves_candidate] of [lib.rs]. *)

From S2P Require Import Prelude Slices Sets StakingConfig StakingTypes StakingState NominatorOps.
From S2P Require Import CandidateOps.

Section Requests.
Context `{Config}.

(** [iter().position(|req| req.nominator == nominator)], and the same for a
    revoke request. *)
Definition position_of (nominator : AccountId) (reqs : list ScheduledRequest.t) : option nat :=
  position (λ req, bool_decide (ScheduledRequest.nominator req = nominator)) reqs.
Definition position_of_revoke (nominator : AccountId) (reqs : list ScheduledRequest.t) :
    option nat :=
  position (λ req, bool_decide (ScheduledRequest.nominator req = nominator) &&
                   NominationAction.is_revoke (ScheduledRequest.action req)) reqs.

Definition put_requests (collator : AccountId) (reqs : list ScheduledRequest.t) : Dispatch unit :=
  modify (Storage.upd_NominationScheduledRequests (insert collator reqs)).
Definition put_nominator (nominator : AccountId) (state : Nominator.t) : Dispatch unit :=
  modify (Storage.upd_NominatorState (insert nominator state)).
Definition put_candidate (candidate : AccountId) (state : CandidateMetadata.t) : Dispatch unit :=
  modify (Storage.upd_CandidateInfo (insert candidate state)).
Definition get_nominator (nominator : AccountId) : Dispatch Nominator.t :=
  st ← gets (λ s, Storage.NominatorState s !! nominator);
  ok_or st Error.NominatorDNE.
Definition get_candidate (candidate : AccountId) : Dispatch CandidateMetadata.t :=
  st ← gets (λ s, Storage.CandidateInfo s !! candidate);
  ok_or st Error.CandidateDNE.

(** [now.saturating_add(<Delay<T>>::get())]. *)
Definition executable_at : Dispatch (EraIndex * EraIndex) :=
  now ← gets (EraInfo.current ∘ Storage.Era);
  delay ← gets Storage.Delay;
  mret (now, now ⊕₃₂ delay).

(** ** Scheduling *)

(** A full request vector ([try_push] fails) leaves storage unchanged and the
    call succeeds all the same. *)
Definition nomination_schedule_revoke (collator nominator : AccountId) : Dispatch unit :=
  state ← get_nominator nominator;
  reqs ← gets (scheduled_requests collator);
  ensure (bool_decide (position_of nominator reqs = None))
    Error.PendingNominationRequestAlreadyExists;;
  bonded_amount ← ok_or (Nominator.get_bond_amount collator state) Error.NominationDNE;
  t ← executable_at;
  let '(now, when) := t in
  match try_push MaxNominationsPerNominator reqs
          (ScheduledRequest.mk nominator when (NominationAction.Revoke bonded_amount)) with
  | Some reqs =>
      put_requests collator reqs;;
      put_nominator nominator
        (Nominator.set_less_total (Nominator.less_total state ⊕ bonded_amount) state);;
      deposit_event (Event.NominationRevocationScheduled now nominator collator when)
  | None => mret ()
  end.

Definition nomination_schedule_bond_decrease (collator nominator : AccountId)
    (decrease_amount : Balance) : Dispatch unit :=
  state ← get_nominator nominator;
  reqs ← gets (scheduled_requests collator);
  ensure (bool_decide (position_of nominator reqs = None))
    Error.PendingNominationRequestAlreadyExists;;
  bonded_amount ← ok_or (Nominator.get_bond_amount collator state) Error.NominationDNE;
  ensure (bool_decide (decrease_amount < bonded_amount)) Error.NominatorBondBelowMin;;
  let new_amount := bonded_amount - decrease_amount in
  ensure (bool_decide (MinNominationPerCollator <= new_amount)) Error.NominationBelowMin;;
  let net_total := Nominator.total state ⊖ Nominator.less_total state in
  min_total ← gets Storage.MinTotalNominatorStake;
  let max_subtracted_amount := net_total ⊖ min_total in
  ensure (bool_decide (decrease_amount <= max_subtracted_amount)) Error.NominatorBondBelowMin;;
  t ← executable_at;
  let '(now, when) := t in
  match try_push MaxNominationsPerNominator reqs
          (ScheduledRequest.mk nominator when (NominationAction.Decrease decrease_amount)) with
  | Some reqs =>
      put_requests collator reqs;;
      put_nominator nominator
        (Nominator.set_less_total (Nominator.less_total state ⊕ decrease_amount) state);;
      deposit_event (Event.NominationDecreaseScheduled nominator collator decrease_amount when)
  | None => mret ()
  end.

(** ** Cancelling *)

(** The removed request, the nominator state and the requests without it. *)
Definition cancel_request_with_state (nominator : AccountId) (state : Nominator.t)
    (reqs : list ScheduledRequest.t) :
    option (ScheduledRequest.t * Nominator.t * list ScheduledRequest.t) :=
  request_idx ← position_of nominator reqs;
  request ← reqs !! request_idx;
  let amount := NominationAction.amount (ScheduledRequest.action request) in
  Some (request, Nominator.set_less_total (Nominator.less_total state ⊖ amount) state,
        delete request_idx reqs).

Definition nomination_cancel_request (collator nominator : AccountId) : Dispatch unit :=
  state ← get_nominator nominator;
  reqs ← gets (scheduled_requests collator);
  r ← ok_or (cancel_request_with_state nominator state reqs) Error.PendingNominationRequestDNE;
  let '(request, state, reqs) := r in
  put_requests collator reqs;;
  put_nominator nominator state;;
  deposit_event (Event.CancelledNominationRequest nominator
    (ScheduledRequest.when_executable request) (ScheduledRequest.action request) collator).

(** ** Leaving a candidate, increasing a nomination *)

Definition nominator_leaves_candidate (candidate nominator : AccountId) (amount : Balance) :
    Dispatch unit :=
  state ← get_candidate candidate;
  r ← Candidate.rm_nomination_if_exists candidate nominator amount state;
  let state := r.2 in
  modify (Storage.upd_Total (λ total, total ⊖ amount));;
  put_candidate candidate state;;
  deposit_event (Event.NominatorLeftCandidate nominator candidate amount
    (CandidateMetadata.total_counted state)).

(** The first bond towards a collator, and its change in place. *)
Definition bond_position (collator : AccountId) (l : list Bond.t) : option nat :=
  position (λ b, bool_decide (Bond.owner b = collator)) l.

Definition nominator_increase_nomination (candidate : AccountId) (amount : Balance)
    (self : Nominator.t) : Dispatch unit :=
  i ← ok_or (bond_position candidate (Nominator.nominations self)) Error.NominationDNE;
  x ← expect (Nominator.nominations self !! i);
  let before_amount := Bond.amount x in
  let self := Nominator.set_nominations
    (<[i := Bond.mk (Bond.owner x) (before_amount ⊕ amount)]> (Nominator.nominations self)) self in
  let self := Nominator.set_total (Nominator.total self ⊕ amount) self in
  adjust_bond_lock self (Increase amount);;
  collator_state ← get_candidate candidate;
  let before := CandidateMetadata.total_counted collator_state in
  r ← Candidate.increase_nomination candidate (Nominator.id self) before_amount amount
        collator_state;
  let '(in_top, collator_state) := r in
  let after := CandidateMetadata.total_counted collator_state in
  (if CandidateMetadata.is_active collator_state && negb (bool_decide (before = after))
   then update_active candidate after else mret ());;
  put_candidate candidate collator_state;;
  modify (Storage.upd_Total (λ total, total ⊕ amount));;
  put_nominator (Nominator.id self) self;;
  deposit_event (Event.NominationIncreased (Nominator.id self) candidate amount in_top).

(** ** Executing *)

Definition execute_revoke (collator nominator : AccountId) (state : Nominator.t)
    (reqs : list ScheduledRequest.t) (request_idx : nat) (amount : Balance) : Dispatch unit :=
  leaving ←
    (if bool_decide (length (Nominator.nominations state) = 1%nat) then mret true
     else
       min_total ← gets Storage.MinTotalNominatorStake;
       ensure (bool_decide (amount <= Nominator.total state ⊖ min_total))
         Error.NominatorBondBelowMin;;
       mret false);
  let state := Nominator.set_less_total (Nominator.less_total state ⊖ amount) state in
  r ← rm_nomination collator state;
  let state := r.2 in
  nominator_leaves_candidate collator nominator amount;;
  deposit_event (Event.NominationRevoked nominator collator amount);;
  put_requests collator (delete request_idx reqs);;
  (if leaving : bool then
     modify (Storage.upd_NominatorState (delete nominator));;
     deposit_event (Event.NominatorLeft nominator amount)
   else put_nominator nominator state).

Definition execute_decrease (collator nominator : AccountId) (state : Nominator.t)
    (reqs : list ScheduledRequest.t) (request_idx : nat) (amount : Balance) : Dispatch unit :=
  let state := Nominator.set_less_total (Nominator.less_total state ⊖ amount) state in
  i ← ok_or (bond_position collator (Nominator.nominations state)) Error.NominationDNE;
  bond ← expect (Nominator.nominations state !! i);
  ensure (bool_decide (amount < Bond.amount bond)) Error.NominationBelowMin;;
  let amount_before := Bond.amount bond in
  let state := Nominator.set_nominations
    (<[i := Bond.mk (Bond.owner bond) (amount_before ⊖ amount)]>
       (Nominator.nominations state)) state in
  collator_info ← get_candidate collator;
  state ← total_sub_if amount (λ new_total,
    ensure (bool_decide (MinNominationPerCollator <= new_total)) Error.NominationBelowMin;;
    min_total ← gets Storage.MinTotalNominatorStake;
    ensure (bool_decide (min_total <= new_total)) Error.NominatorBondBelowMin) state;
  r ← Candidate.decrease_nomination collator nominator amount_before amount collator_info;
  let '(in_top, collator_info) := r in
  put_candidate collator collator_info;;
  modify (Storage.upd_Total (λ total, total ⊖ amount));;
  put_requests collator (delete request_idx reqs);;
  put_nominator nominator state;;
  deposit_event (Event.NominationDecreased nominator collator amount in_top).

Definition nomination_execute_scheduled_request (collator nominator : AccountId) : Dispatch unit :=
  state ← get_nominator nominator;
  reqs ← gets (scheduled_requests collator);
  request_idx ← ok_or (position_of nominator reqs) Error.PendingNominationRequestDNE;
  request ← expect (reqs !! request_idx);
  now ← gets (EraInfo.current ∘ Storage.Era);
  ensure (bool_decide (ScheduledRequest.when_executable request <= now))
    Error.PendingNominationRequestNotDueYet;;
  match ScheduledRequest.action request with
  | NominationAction.Revoke amount =>
      execute_revoke collator nominator state reqs request_idx amount
  | NominationAction.Decrease amount =>
      execute_decrease collator nominator state reqs request_idx amount
  end.

(** ** All nominations at once *)

(** One turn of the loop of [nominator_schedule_revoke_all]: the nominator
    state, the number of revocations found, the request vectors to store. *)
Definition revoke_all_step (nominator : AccountId) (when : EraIndex) (s : Storage.t)
    (acc : Nominator.t * nat * list (AccountId * list ScheduledRequest.t)) (bond : Bond.t) :
    Nominator.t * nat * list (AccountId * list ScheduledRequest.t) :=
  let '(state, existing, updated) := acc in
  let collator := Bond.owner bond in
  let fresh := ScheduledRequest.mk nominator when (NominationAction.Revoke (Bond.amount bond)) in
  let reqs := scheduled_requests collator s in
  let '(request, existing, state, reqs) :=
    match cancel_request_with_state nominator state reqs with
    | Some (req, state, reqs) =>
        if NominationAction.is_revoke (ScheduledRequest.action req)
        then (req, S existing, state, reqs) else (fresh, existing, state, reqs)
    | None => (fresh, existing, state, reqs)
    end in
  match try_push MaxNominationsPerNominator reqs request with
  | Some reqs =>
      (Nominator.set_less_total (Nominator.less_total state ⊕ Bond.amount bond) state, existing,
       updated ++ [(collator, reqs)])
  | None => (state, existing, updated)
  end.
Definition put_all_requests (updated : list (AccountId * list ScheduledRequest.t)) :
    Dispatch unit :=
  for_each (λ p, put_requests p.1 p.2) updated.

Definition nominator_schedule_revoke_all (nominator : AccountId) : Dispatch unit :=
  state ← get_nominator nominator;
  t ← executable_at;
  let '(now, when) := t in
  s ← gets id;
  let '(state, existing_revoke_count, updated) :=
    foldl (revoke_all_step nominator when s) (state, 0%nat, []) (Nominator.nominations state) in
  ensure (negb (bool_decide (existing_revoke_count = length (Nominator.nominations state))))
    Error.NominatorAlreadyLeaving;;
  put_all_requests updated;;
  put_nominator nominator state;;
  deposit_event (Event.NominatorExitScheduled now nominator when).

Definition nominator_cancel_scheduled_revoke_all (nominator : AccountId) : Dispatch unit :=
  state ← get_nominator nominator;
  for_each (λ bond,
    reqs ← gets (scheduled_requests (Bond.owner bond));
    ensure (bool_decide (is_Some (position_of_revoke nominator reqs))) Error.NominatorNotLeaving)
    (Nominator.nominations state);;
  s ← gets id;
  let '(state, updated) :=
    foldl (λ '(state, updated) bond,
             let reqs := scheduled_requests (Bond.owner bond) s in
             match cancel_request_with_state nominator state reqs with
             | Some (_, state, reqs) => (state, updated ++ [(Bond.owner bond, reqs)])
             | None => (state, updated ++ [(Bond.owner bond, reqs)])
             end) (state, []) (Nominator.nominations state) in
  put_all_requests updated;;
  put_nominator nominator state;;
  deposit_event (Event.NominatorExitCancelled nominator).

Definition validate_revokes (nominator : AccountId) (nominations : list Bond.t) :
    Dispatch (list (Bond.t * list ScheduledRequest.t * nat)) :=
  now ← gets (EraInfo.current ∘ Storage.Era);
  fold_m (λ validated bond,
    reqs ← gets (scheduled_requests (Bond.owner bond));
    request_idx ← ok_or (position_of_revoke nominator reqs) Error.NominatorNotLeaving;
    request ← expect (reqs !! request_idx);
    ensure (bool_decide (ScheduledRequest.when_executable request <= now))
      Error.NominatorCannotLeaveYet;;
    mret (validated ++ [(bond, reqs, request_idx)])) [] nominations.

(** A candidate that cannot be left is only logged. *)
Definition nominator_execute_scheduled_revoke_all (nominator : AccountId) (nomination_count : Z) :
    Dispatch unit :=
  state ← get_nominator nominator;
  ensure (bool_decide (Z.of_nat (length (Nominator.nominations state)) <= nomination_count))
    Error.TooLowNominationCountToLeaveNominators;;
  validated ← validate_revokes nominator (Nominator.nominations state);
  updated ← fold_m (λ updated '(bond, reqs, request_idx),
    try (nominator_leaves_candidate (Bond.owner bond) nominator (Bond.amount bond));;
    mret (updated ++ [(Bond.owner bond, delete request_idx reqs)])) [] validated;
  let unstaked_amount := Nominator.total state in
  total_sub unstaked_amount state;;
  put_all_requests updated;;
  deposit_event (Event.NominatorLeft nominator unstaked_amount);;
  modify (Storage.upd_NominatorState (delete nominator)).
End Requests.
