(* ===== verification/Calls.v ===== *)
(** * The dispatchables of the staking pallet

    [calls.rs] and the [#[pallet::call]] block of [lib.rs] except the signed
    ones: admin settings, joining and leaving the candidates, self bonds,
    nominations and their requests. *)

From S2P Require Import Prelude Slices Sets StakingConfig StakingTypes StakingState NominatorOps.
From S2P Require Import CandidateOps Requests.

Section Calls.
Context `{Config}.

(** ** [calls.rs] *)

(** The nominator state after the checks of [call_nominate]. *)
Definition nominate_state (nominator candidate : AccountId) (amount : Balance)
    (nomination_count : Z) : Dispatch Nominator.t :=
  st ← gets (λ s, Storage.NominatorState s !! nominator);
  match st with
  | Some state =>
      let len := Z.of_nat (length (Nominator.nominations state)) in
      ensure (bool_decide (MinNominationPerCollator <= amount)) Error.NominationBelowMin;;
      ensure (bool_decide (len <= nomination_count)) Error.TooLowNominationCountToNominate;;
      ensure (bool_decide (len < Z.of_nat MaxNominationsPerNominator))
        Error.ExceedMaxNominationsPerNominator;;
      r ← expect (Nominator.add_nomination (Bond.mk candidate amount) state);
      ensure r.1 Error.AlreadyNominatedCandidate;;
      mret r.2
  | None =>
      min_total ← gets Storage.MinTotalNominatorStake;
      ensure (bool_decide (min_total <= amount)) Error.NominatorBondBelowMin;;
      is_candidate ← gets (is_candidate nominator);
      ensure (negb is_candidate) Error.CandidateExists;;
      mret (Nominator.new nominator candidate amount)
  end.

Definition call_nominate (nominator candidate : AccountId) (amount : Balance)
    (candidate_nomination_count nomination_count : Z) : Dispatch unit :=
  free ← gets (get_nominator_stakable_free_balance nominator);
  ensure (bool_decide (amount <= free)) Error.InsufficientBalance;;
  nominator_state ← nominate_state nominator candidate amount nomination_count;
  state ← get_candidate candidate;
  ensure (bool_decide (CandidateMetadata.nomination_count state <= candidate_nomination_count))
    Error.TooLowCandidateNominationCountToNominate;;
  r ← Candidate.add_nomination candidate (Bond.mk nominator amount) state;
  let '(nominator_position, less_total_staked, state) := r in
  adjust_bond_lock nominator_state (Increase amount);;
  let net_total_increase :=
    match less_total_staked with Some less => amount ⊖ less | None => amount end in
  modify (Storage.upd_Total (λ total, total ⊕ net_total_increase));;
  put_candidate candidate state;;
  put_nominator nominator nominator_state;;
  deposit_event (Event.Nomination nominator amount candidate nominator_position).

Definition call_bond_extra (nominator candidate : AccountId) (additional_amount : Balance) :
    Dispatch unit :=
  revoking ← gets (nomination_request_revoke_exists candidate nominator);
  ensure (negb revoking) Error.PendingNominationRevoke;;
  state ← get_nominator nominator;
  nominator_increase_nomination candidate additional_amount state.

Definition call_candidate_bond_extra (collator : AccountId) (additional_amount : Balance) :
    Dispatch unit :=
  state ← get_candidate collator;
  state ← Candidate.bond_extra collator additional_amount state;
  put_candidate collator state;;
  if CandidateMetadata.is_active state
  then update_active collator (CandidateMetadata.total_counted state) else mret ().

Definition call_schedule_candidate_unbond (collator : AccountId) (amount_to_decrease : Balance) :
    Dispatch unit :=
  state ← get_candidate collator;
  r ← Candidate.schedule_unbond amount_to_decrease state;
  put_candidate collator r.2;;
  deposit_event (Event.CandidateBondLessRequested collator amount_to_decrease r.1).

Definition call_execute_candidate_unbond (candidate : AccountId) : Dispatch unit :=
  state ← get_candidate candidate;
  state ← Candidate.execute_unbond candidate state;
  put_candidate candidate state.

(** ** Admin *)

Definition set_total_selected (origin : Origin) (new : Z) : Dispatch unit :=
  ensure_root origin;;
  ensure (bool_decide (MinSelectedCandidates <= new)) Error.CannotSetBelowMin;;
  old ← gets Storage.TotalSelected;
  ensure (negb (bool_decide (old = new))) Error.NoWritingSameValue;;
  era ← gets Storage.Era;
  ensure (bool_decide (new <= EraInfo.length era))
    Error.EraLengthMustBeAtLeastTotalSelectedCollators;;
  modify (Storage.set_TotalSelected new);;
  deposit_event (Event.TotalSelectedSet old new).

Definition set_blocks_per_era (origin : Origin) (new : Z) : Dispatch unit :=
  ensure_root origin;;
  ensure (bool_decide (MinBlocksPerEra <= new)) Error.CannotSetBelowMin;;
  era ← gets Storage.Era;
  let old := EraInfo.length era in
  ensure (negb (bool_decide (old = new))) Error.NoWritingSameValue;;
  total_selected ← gets Storage.TotalSelected;
  ensure (bool_decide (total_selected <= new))
    Error.EraLengthMustBeAtLeastTotalSelectedCollators;;
  modify (Storage.set_Era (EraInfo.set_length new era));;
  deposit_event (Event.BlocksPerEraSet (EraInfo.current era) (EraInfo.first era) old new).

Definition set_admin_setting (origin : Origin) (value : AdminSettings.t) : Dispatch unit :=
  ensure_root origin;;
  ensure (AdminSettings.is_valid value) Error.AdminSettingsValueIsNotValid;;
  match value with
  | AdminSettings.Delay d => modify (Storage.set_Delay d)
  | AdminSettings.MinCollatorStake s => modify (Storage.set_MinCollatorStake s)
  | AdminSettings.MinTotalNominatorStake s => modify (Storage.set_MinTotalNominatorStake s)
  end;;
  deposit_event (Event.AdminSettingsUpdated value).

Definition hotfix_remove_nomination_requests_exited_candidates (origin : Origin)
    (candidates : list AccountId) : Dispatch unit :=
  ensure_signed origin;;
  ensure (bool_decide (length candidates < 100)%nat) Error.InsufficientBalance;;
  for_each (λ candidate,
    info ← gets (λ s, Storage.CandidateInfo s !! candidate);
    ensure (bool_decide (info = None)) Error.CandidateNotLeaving;;
    reqs ← gets (scheduled_requests candidate);
    ensure (bool_decide (reqs = [])) Error.CandidateNotLeaving) candidates;;
  for_each (λ candidate,
    modify (Storage.upd_NominationScheduledRequests (delete candidate))) candidates.

(** ** Candidates *)

(** [candidates.try_insert(..)] with its two errors. *)
Definition insert_candidate (bond : Bond.t) (exists_error : Error.t) (candidates : list Bond.t) :
    Dispatch (list Bond.t) :=
  match BoundedOrderedSet.try_insert MaxCandidates bond candidates with
  | (None, _) => fail Error.CandidateLimitReached
  | (Some false, _) => fail exists_error
  | (Some true, candidates) => mret candidates
  end.
(** [if candidates.remove(..) { <CandidatePool<T>>::put(candidates) }]. *)
Definition remove_from_pool (collator : AccountId) (candidates : list Bond.t) : Dispatch unit :=
  match BoundedOrderedSet.remove (Bond.from_owner collator) candidates with
  | (true, candidates) => modify (Storage.set_CandidatePool candidates)
  | (false, _) => mret ()
  end.

Definition join_candidates (origin : Origin) (bond : Balance) (candidate_count : Z) :
    Dispatch unit :=
  acc ← ensure_signed origin;
  is_candidate ← gets (is_candidate acc);
  ensure (negb is_candidate) Error.CandidateExists;;
  is_nominator ← gets (is_nominator acc);
  ensure (negb is_nominator) Error.NominatorExists;;
  min_stake ← gets Storage.MinCollatorStake;
  ensure (bool_decide (min_stake <= bond)) Error.CandidateBondBelowMin;;
  ensure (CollatorSessionRegistration_is_registered acc) Error.CandidateSessionKeysNotFound;;
  candidates ← gets Storage.CandidatePool;
  ensure (bool_decide (Z.of_nat (length candidates) <= candidate_count))
    Error.TooLowCandidateCountWeightHintJoinCandidates;;
  candidates ← insert_candidate (Bond.mk acc bond) Error.CandidateExists candidates;
  free ← gets (get_collator_stakable_free_balance acc);
  ensure (bool_decide (bond <= free)) Error.InsufficientBalance;;
  currency (set_lock COLLATOR_LOCK_ID acc bond);;
  put_candidate acc (CandidateMetadata.new bond);;
  Candidate.put_top acc Nominations.default;;
  Candidate.put_bottom acc Nominations.default;;
  modify (Storage.set_CandidatePool candidates);;
  total ← gets Storage.Total;
  let new_total := total ⊕ bond in
  modify (Storage.set_Total new_total);;
  deposit_event (Event.JoinedCollatorCandidates acc bond new_total).

Definition schedule_leave_candidates (origin : Origin) (candidate_count : Z) : Dispatch unit :=
  collator ← ensure_signed origin;
  state ← get_candidate collator;
  r ← Candidate.schedule_leave state;
  let '(now, when, state) := r in
  candidates ← gets Storage.CandidatePool;
  ensure (bool_decide (Z.of_nat (length candidates) <= candidate_count))
    Error.TooLowCandidateCountToLeaveCandidates;;
  remove_from_pool collator candidates;;
  put_candidate collator state;;
  deposit_event (Event.CandidateScheduledExit now collator when).

(** The closure [return_stake] of [execute_leave_candidates]. *)
Definition return_stake (candidate : AccountId) (bond : Bond.t) : Dispatch unit :=
  let owner := Bond.owner bond in
  st ← gets (λ s, Storage.NominatorState s !! owner);
  nominator ← expect st;
  r ← rm_nomination candidate nominator;
  match r with
  | (Some remaining, nominator) =>
      nominator ← nomination_remove_request_with_state candidate owner nominator;
      if bool_decide (remaining = 0) then
        modify (Storage.upd_NominatorState (delete owner));;
        currency (remove_lock NOMINATOR_LOCK_ID owner)
      else put_nominator owner nominator
  | (None, _) => currency (remove_lock NOMINATOR_LOCK_ID owner)
  end.

Definition execute_leave_candidates (origin : Origin) (candidate : AccountId)
    (candidate_nomination_count : Z) : Dispatch unit :=
  ensure_signed origin;;
  state ← get_candidate candidate;
  ensure (bool_decide (CandidateMetadata.nomination_count state <= candidate_nomination_count))
    Error.TooLowCandidateNominationCountToLeaveCandidates;;
  Candidate.can_leave state;;
  let total_backing := CandidateMetadata.bond state in
  tn ← gets (λ s, Storage.TopNominations s !! candidate);
  top_nominations ← expect tn;
  modify (Storage.upd_TopNominations (delete candidate));;
  for_each (return_stake candidate) (Nominations.nominations top_nominations);;
  let total_backing := total_backing ⊕ Nominations.total top_nominations in
  bn ← gets (λ s, Storage.BottomNominations s !! candidate);
  bottom_nominations ← expect bn;
  modify (Storage.upd_BottomNominations (delete candidate));;
  for_each (return_stake candidate) (Nominations.nominations bottom_nominations);;
  let total_backing := total_backing ⊕ Nominations.total bottom_nominations in
  currency (remove_lock COLLATOR_LOCK_ID candidate);;
  modify (Storage.upd_CandidateInfo (delete candidate));;
  modify (Storage.upd_NominationScheduledRequests (delete candidate));;
  modify (Storage.upd_TopNominations (delete candidate));;
  modify (Storage.upd_BottomNominations (delete candidate));;
  total ← gets Storage.Total;
  let new_total_staked := total ⊖ total_backing in
  modify (Storage.set_Total new_total_staked);;
  deposit_event (Event.CandidateLeft candidate total_backing new_total_staked).

Definition cancel_leave_candidates (origin : Origin) (candidate_count : Z) : Dispatch unit :=
  collator ← ensure_signed origin;
  state ← get_candidate collator;
  ensure (CandidateMetadata.is_leaving state) Error.CandidateNotLeaving;;
  let state := CandidateMetadata.go_online state in
  candidates ← gets Storage.CandidatePool;
  ensure (bool_decide (Z.of_nat (length candidates) <= candidate_count))
    Error.TooLowCandidateCountWeightHintCancelLeaveCandidates;;
  candidates ← insert_candidate (Bond.mk collator (CandidateMetadata.total_counted state))
                 Error.AlreadyActive candidates;
  modify (Storage.set_CandidatePool candidates);;
  put_candidate collator state;;
  deposit_event (Event.CancelledCandidateExit collator).

Definition go_offline (origin : Origin) : Dispatch unit :=
  collator ← ensure_signed origin;
  state ← get_candidate collator;
  ensure (CandidateMetadata.is_active state) Error.AlreadyOffline;;
  let state := CandidateMetadata.go_offline state in
  candidates ← gets Storage.CandidatePool;
  remove_from_pool collator candidates;;
  put_candidate collator state;;
  deposit_event (Event.CandidateWentOffline collator).

Definition go_online (origin : Origin) : Dispatch unit :=
  collator ← ensure_signed origin;
  state ← get_candidate collator;
  ensure (negb (CandidateMetadata.is_active state)) Error.AlreadyActive;;
  ensure (negb (CandidateMetadata.is_leaving state)) Error.CannotGoOnlineIfLeaving;;
  let state := CandidateMetadata.go_online state in
  candidates ← gets Storage.CandidatePool;
  candidates ← insert_candidate (Bond.mk collator (CandidateMetadata.total_counted state))
                 Error.AlreadyActive candidates;
  modify (Storage.set_CandidatePool candidates);;
  put_candidate collator state;;
  deposit_event (Event.CandidateBackOnline collator).

(** ** Self bonds *)

Definition candidate_bond_extra (origin : Origin) (more : Balance) : Dispatch unit :=
  collator ← ensure_signed origin;
  call_candidate_bond_extra collator more.
Definition schedule_candidate_unbond (origin : Origin) (less : Balance) : Dispatch unit :=
  collator ← ensure_signed origin;
  call_schedule_candidate_unbond collator less.
Definition execute_candidate_unbond (origin : Origin) (candidate : AccountId) : Dispatch unit :=
  ensure_signed origin;;
  call_execute_candidate_unbond candidate.
Definition cancel_candidate_unbond (origin : Origin) : Dispatch unit :=
  collator ← ensure_signed origin;
  state ← get_candidate collator;
  state ← Candidate.cancel_unbond collator state;
  put_candidate collator state.

(** ** Nominations *)

Definition is_staking_enabled : bool := cfg_test.

Definition nominate (origin : Origin) (candidate : AccountId) (amount : Balance)
    (candidate_nomination_count nomination_count : Z) : Dispatch unit :=
  nominator ← ensure_signed origin;
  ensure is_staking_enabled Error.StakingNotAllowed;;
  call_nominate nominator candidate amount candidate_nomination_count nomination_count.
Definition schedule_leave_nominators (origin : Origin) : Dispatch unit :=
  nominator ← ensure_signed origin;
  nominator_schedule_revoke_all nominator.
Definition execute_leave_nominators (origin : Origin) (nominator : AccountId)
    (nomination_count : Z) : Dispatch unit :=
  ensure_signed origin;;
  nominator_execute_scheduled_revoke_all nominator nomination_count.
Definition cancel_leave_nominators (origin : Origin) : Dispatch unit :=
  nominator ← ensure_signed origin;
  nominator_cancel_scheduled_revoke_all nominator.
Definition schedule_revoke_nomination (origin : Origin) (collator : AccountId) : Dispatch unit :=
  nominator ← ensure_signed origin;
  nomination_schedule_revoke collator nominator.
Definition bond_extra (origin : Origin) (candidate : AccountId) (more : Balance) : Dispatch unit :=
  nominator ← ensure_signed origin;
  ensure is_staking_enabled Error.StakingNotAllowed;;
  call_bond_extra nominator candidate more.
Definition schedule_nominator_unbond (origin : Origin) (candidate : AccountId) (less : Balance) :
    Dispatch unit :=
  nominator ← ensure_signed origin;
  nomination_schedule_bond_decrease candidate nominator less.
Definition execute_nomination_request (origin : Origin) (nominator candidate : AccountId) :
    Dispatch unit :=
  ensure_signed origin;;
  nomination_execute_scheduled_request candidate nominator.
Definition cancel_nomination_request (origin : Origin) (candidate : AccountId) : Dispatch unit :=
  nominator ← ensure_signed origin;
  nomination_cancel_request candidate nominator.
End Calls.
