(* ===== verification/SignedCalls.v ===== *)
(** * Signed calls and the proxy interface

    The [signed_*] dispatchables of [lib.rs], which a relayer submits for a
    signer, with the payload each of them verifies; [proxy_methods.rs], which
    rebuilds the payload from a call for the proxy pallet; and [dispatch],
    the pallet's [Call] under the storage layer FRAME wraps around it. *)

From S2P Require Import Prelude Slices Sets StakingConfig StakingTypes StakingState NominatorOps.
From S2P Require Import CandidateOps Requests Calls.

Section Signed.
Context `{Config}.
Abbreviation Proof := (ProofOf Signature).

(** ** Payloads *)

Definition encode_signed_nominate_params (relayer : AccountId) (targets : list LookupSource)
    (amount : Balance) (sender_nonce : Z) : SignedPayload LookupSource :=
  SIGNED_NOMINATOR_CONTEXT relayer targets amount sender_nonce.
Definition encode_signed_bond_extra_params (relayer : AccountId) (extra_amount : Balance)
    (sender_nonce : Z) : SignedPayload LookupSource :=
  SIGNED_NOMINATOR_BOND_EXTRA_CONTEXT relayer extra_amount sender_nonce.
Definition encode_signed_candidate_bond_extra_params (relayer : AccountId)
    (extra_amount : Balance) (sender_nonce : Z) : SignedPayload LookupSource :=
  SIGNED_CANDIDATE_BOND_EXTRA_CONTEXT relayer extra_amount sender_nonce.
Definition encode_signed_schedule_nominator_unbond_params (relayer : AccountId)
    (value : Balance) (sender_nonce : Z) : SignedPayload LookupSource :=
  SIGNED_SCHEDULE_NOMINATOR_UNBOND_CONTEXT relayer value sender_nonce.
Definition encode_signed_schedule_candidate_unbond_params (relayer : AccountId)
    (value : Balance) (sender_nonce : Z) : SignedPayload LookupSource :=
  SIGNED_SCHEDULE_CANDIDATE_UNBOND_CONTEXT relayer value sender_nonce.
Definition encode_signed_schedule_revoke_nomination_params (relayer collator : AccountId)
    (sender_nonce : Z) : SignedPayload LookupSource :=
  SIGNED_NOMINATOR_REMOVE_BOND_CONTEXT relayer collator sender_nonce.
Definition encode_signed_schedule_leave_nominators_params (relayer : AccountId)
    (sender_nonce : Z) : SignedPayload LookupSource :=
  SIGNED_SCHEDULE_LEAVE_NOMINATORS_CONTEXT relayer sender_nonce.
Definition encode_signed_execute_leave_nominators_params (relayer nominator : AccountId)
    (sender_nonce : Z) : SignedPayload LookupSource :=
  SIGNED_EXECUTE_LEAVE_NOMINATORS_CONTEXT relayer nominator sender_nonce.
Definition encode_signed_execute_nomination_request_params (relayer nominator : AccountId)
    (sender_nonce : Z) : SignedPayload LookupSource :=
  SIGNED_EXECUTE_NOMINATION_REQUESTS_CONTEXT relayer nominator sender_nonce.
Definition encode_signed_execute_candidate_unbond_params (relayer candidate : AccountId)
    (sender_nonce : Z) : SignedPayload LookupSource :=
  SIGNED_EXECUTE_CANDIDATE_UNBOND_CONTEXT relayer candidate sender_nonce.

(** [<ProxyNonces<T>>::mutate(&who, |n| *n += 1)]. *)
Definition increment_nonce (who : AccountId) : Dispatch unit :=
  modify (λ s, Storage.upd_ProxyNonces (insert who (proxy_nonce who s +₆₄ 1)) s).

(** The checks the signed dispatchables start with: the sender is the signer,
    and the signature covers the payload with the sender's current nonce. *)
Definition check_signer (sender : AccountId) (proof : Proof)
    (payload : AccountId → Z → SignedPayload LookupSource) (unauthorized : Error.t) :
    Dispatch unit :=
  ensure (bool_decide (sender = proof_signer proof)) Error.SenderIsNotSigner;;
  nonce ← gets (proxy_nonce sender);
  ensure (verify_signature proof (payload (proof_relayer proof) nonce)) unauthorized.

(** ** Candidates *)

Definition signed_candidate_bond_extra (origin : Origin) (proof : Proof) (extra_amount : Balance) :
    Dispatch unit :=
  transactional (
    collator ← ensure_signed origin;
    check_signer collator proof
      (λ relayer nonce, encode_signed_candidate_bond_extra_params relayer extra_amount nonce)
      Error.UnauthorizedSignedCandidateBondExtraTransaction;;
    call_candidate_bond_extra collator extra_amount;;
    increment_nonce collator).

Definition signed_execute_candidate_unbond (origin : Origin) (proof : Proof)
    (candidate : AccountId) : Dispatch unit :=
  transactional (
    sender ← ensure_signed origin;
    check_signer sender proof
      (λ relayer nonce, encode_signed_execute_candidate_unbond_params relayer candidate nonce)
      Error.UnauthorizedSignedExecuteCandidateUnbondTransaction;;
    call_execute_candidate_unbond candidate;;
    increment_nonce sender).

Definition signed_schedule_candidate_unbond (origin : Origin) (proof : Proof) (less : Balance) :
    Dispatch unit :=
  transactional (
    collator ← ensure_signed origin;
    check_signer collator proof
      (λ relayer nonce, encode_signed_schedule_candidate_unbond_params relayer less nonce)
      Error.UnauthorizedSignedCandidateUnbondTransaction;;
    call_schedule_candidate_unbond collator less;;
    increment_nonce collator).

(** ** Splitting an amount over collators *)

Definition collator_should_get_dust (dust : Balance) (number_of_collators index : Z)
    (s : Storage.t) : bool :=
  if bool_decide (dust = 0) then false
  else bool_decide (index = Storage.block_number s mod number_of_collators).

(** The amount for the collator at [index], out of what remains. *)
Definition actual_amount (amount_per_collator dust number_of_collators index remaining : Z)
    (s : Storage.t) : Balance :=
  let actual := if collator_should_get_dust dust number_of_collators index s
                then amount_per_collator +₁₂₈ dust else amount_per_collator in
  Z.min remaining actual.

(** [.into_iter().enumerate()]. *)
Definition enumerate {A} (l : list A) : list (nat * A) := zip (seq 0 (length l)) l.

Definition split_and_nominate (nominator : AccountId) (targets : list LookupSource)
    (amount : Balance) : Dispatch unit :=
  let num_collators := Z.of_nat (length targets) in
  min_total ← gets Storage.MinTotalNominatorStake;
  let min_total_stake := min_total *₁₂₈ num_collators in
  ensure (bool_decide (min_total_stake <= amount)) Error.NominatorBondBelowMin;;
  free ← gets (get_nominator_stakable_free_balance nominator);
  ensure (bool_decide (amount <= free)) Error.InsufficientBalance;;
  st ← gets (λ s, Storage.NominatorState s !! nominator);
  let nomination_count := from_option (λ state, Z.of_nat (length (Nominator.nominations state))) 0 st in
  let amount_per_collator := share 1 num_collators amount in
  let dust := amount ⊖ (amount_per_collator *₁₂₈ num_collators) in
  fold_m (λ '(remaining, nomination_count) '(index, target),
    collator ← Prelude.ok_or (Lookup_lookup target) CannotLookup;
    collator_state ← get_candidate collator;
    actual_amount ← gets (actual_amount amount_per_collator dust num_collators (Z.of_nat index) remaining);
    call_nominate nominator collator actual_amount
      (CandidateMetadata.nomination_count collator_state) nomination_count;;
    mret (remaining - actual_amount, nomination_count +₃₂ 1))
    (amount, nomination_count) (enumerate targets);;
  mret ().

Definition signed_nominate (origin : Origin) (proof : Proof) (targets : list LookupSource)
    (amount : Balance) : Dispatch unit :=
  transactional (
    nominator ← ensure_signed origin;
    ensure is_staking_enabled Error.StakingNotAllowed;;
    check_signer nominator proof
      (λ relayer nonce, encode_signed_nominate_params relayer targets amount nonce)
      Error.UnauthorizedSignedNominateTransaction;;
    split_and_nominate nominator targets amount;;
    increment_nonce nominator).

Definition signed_bond_extra (origin : Origin) (proof : Proof) (extra_amount : Balance) :
    Dispatch unit :=
  transactional (
    nominator ← ensure_signed origin;
    ensure is_staking_enabled Error.StakingNotAllowed;;
    check_signer nominator proof
      (λ relayer nonce, encode_signed_bond_extra_params relayer extra_amount nonce)
      Error.UnauthorizedSignedBondExtraTransaction;;
    free ← gets (get_nominator_stakable_free_balance nominator);
    ensure (bool_decide (extra_amount <= free)) Error.InsufficientBalance;;
    state ← get_nominator nominator;
    let nominations := Nominator.nominations state in
    let num_nominations := Z.of_nat (length nominations) in
    let amount_per_collator := share 1 num_nominations extra_amount in
    ensure (bool_decide (MinNominationPerCollator <= amount_per_collator)) Error.NominationBelowMin;;
    let dust := extra_amount ⊖ (amount_per_collator *₁₂₈ num_nominations) in
    fold_m (λ remaining '(index, nomination),
      actual_amount ← gets (actual_amount amount_per_collator dust num_nominations (Z.of_nat index) remaining);
      call_bond_extra nominator (Bond.owner nomination) actual_amount;;
      mret (remaining - actual_amount))
      extra_amount (enumerate nominations);;
    increment_nonce nominator).

(** ** Leaving, revoking *)

Definition signed_schedule_leave_nominators (origin : Origin) (proof : Proof) : Dispatch unit :=
  transactional (
    nominator ← ensure_signed origin;
    check_signer nominator proof
      (λ relayer nonce, encode_signed_schedule_leave_nominators_params relayer nonce)
      Error.UnauthorizedSignedScheduleLeaveNominatorsTransaction;;
    nominator_schedule_revoke_all nominator;;
    increment_nonce nominator).

Definition signed_execute_leave_nominators (origin : Origin) (proof : Proof)
    (nominator : AccountId) : Dispatch unit :=
  transactional (
    sender ← ensure_signed origin;
    check_signer sender proof
      (λ relayer nonce, encode_signed_execute_leave_nominators_params relayer nominator nonce)
      Error.UnauthorizedSignedExecuteLeaveNominatorsTransaction;;
    st ← gets (λ s, Storage.NominatorState s !! nominator);
    match st with
    | Some nominator_state =>
        nominator_execute_scheduled_revoke_all nominator
          (Z.of_nat (length (Nominator.nominations nominator_state)));;
        increment_nonce sender
    | None => fail Error.NominatorDNE
    end).

Definition signed_schedule_revoke_nomination (origin : Origin) (proof : Proof)
    (collator : AccountId) : Dispatch unit :=
  transactional (
    nominator ← ensure_signed origin;
    check_signer nominator proof
      (λ relayer nonce, encode_signed_schedule_revoke_nomination_params relayer collator nonce)
      Error.UnauthorizedSignedRemoveBondTransaction;;
    nomination_schedule_revoke collator nominator;;
    increment_nonce nominator).

(** ** Withdrawing an amount from the nominated collators *)

Fixpoint withdraw_loop (target_average_amount : Balance) (nominations : list Bond.t)
    (payers : list StakeInfo.t) (outstanding_withdrawal : Balance) :
    list StakeInfo.t * Balance :=
  match nominations with
  | [] => (payers, outstanding_withdrawal)
  | bond :: nominations' =>
      let amount_to_withdraw :=
        Z.min outstanding_withdrawal (Bond.amount bond ⊖ target_average_amount) in
      let '(payers, outstanding_withdrawal) :=
        if bool_decide (amount_to_withdraw <= Bond.amount bond) then
          (payers ++ [StakeInfo.new (Bond.owner bond)
                        (Bond.amount bond -₁₂₈ (amount_to_withdraw +₁₂₈ MinNominationPerCollator))
                        amount_to_withdraw],
           outstanding_withdrawal - amount_to_withdraw)
        else (payers, outstanding_withdrawal) in
      if bool_decide (outstanding_withdrawal = 0) then (payers, outstanding_withdrawal)
      else withdraw_loop target_average_amount nominations' payers outstanding_withdrawal
  end.

Definition identify_collators_to_withdraw_from (nominator : AccountId) (total_reduction : Balance) :
    Dispatch (list StakeInfo.t * Balance) :=
  state ← get_nominator nominator;
  let net_total_bonded := Nominator.total state ⊖ Nominator.less_total state in
  min_total ← gets Storage.MinTotalNominatorStake;
  ensure (bool_decide (min_total +₁₂₈ total_reduction <= net_total_bonded))
    Error.NominatorBondBelowMin;;
  let target_average_amount :=
    share 1 (Z.of_nat (length (Nominator.nominations state))) (net_total_bonded ⊖ total_reduction) in
  ensure (bool_decide (MinNominationPerCollator <= target_average_amount)) Error.NominationBelowMin;;
  mret (withdraw_loop target_average_amount (Nominator.nominations state) [] total_reduction).

(** What a payer is asked for once the averages left [outstanding_withdrawal]. *)
Definition top_up (stake : StakeInfo.t) (outstanding_withdrawal : Balance) : StakeInfo.t * Balance :=
  if bool_decide (outstanding_withdrawal = 0) then (stake, outstanding_withdrawal)
  else
    let max_amount_to_withdraw := Z.min (StakeInfo.free_amount stake) outstanding_withdrawal in
    (StakeInfo.set_reserved_amount
       (StakeInfo.reserved_amount stake +₁₂₈ max_amount_to_withdraw) stake,
     outstanding_withdrawal - max_amount_to_withdraw).

Definition signed_schedule_nominator_unbond (origin : Origin) (proof : Proof) (less : Balance) :
    Dispatch unit :=
  transactional (
    nominator ← ensure_signed origin;
    check_signer nominator proof
      (λ relayer nonce, encode_signed_schedule_nominator_unbond_params relayer less nonce)
      Error.UnauthorizedSignedUnbondTransaction;;
    r ← identify_collators_to_withdraw_from nominator less;
    let '(payers, outstanding_withdrawal) := r in
    outstanding_withdrawal ← fold_m (λ outstanding_withdrawal stake,
      let '(stake, outstanding_withdrawal) := top_up stake outstanding_withdrawal in
      nomination_schedule_bond_decrease (StakeInfo.owner stake) nominator
        (StakeInfo.reserved_amount stake);;
      mret outstanding_withdrawal) outstanding_withdrawal payers;
    ensure (bool_decide (outstanding_withdrawal = 0)) Error.FailedToWithdrawFullAmount;;
    increment_nonce nominator).

Definition signed_execute_nomination_request (origin : Origin) (proof : Proof)
    (nominator : AccountId) : Dispatch unit :=
  transactional (
    sender ← ensure_signed origin;
    check_signer sender proof
      (λ relayer nonce, encode_signed_execute_nomination_request_params relayer nominator nonce)
      Error.UnauthorizedSignedExecuteNominationRequestTransaction;;
    now ← gets (EraInfo.current ∘ Storage.Era);
    state ← get_nominator nominator;
    for_each (λ bond,
      let collator := Bond.owner bond in
      reqs ← gets (scheduled_requests collator);
      request_idx ← ok_or (position_of nominator reqs) Error.PendingNominationRequestDNE;
      request ← expect (reqs !! request_idx);
      if bool_decide (ScheduledRequest.when_executable request <= now)
      then nomination_execute_scheduled_request collator nominator else mret ())
      (Nominator.nominations state);;
    increment_nonce sender).
End Signed.

(** ** The pallet's [Call] *)

Module Call.
Inductive t `{Config} : Type :=
  | set_total_selected (new : Z)
  | set_blocks_per_era (new : Z)
  | join_candidates (bond : Balance) (candidate_count : Z)
  | schedule_leave_candidates (candidate_count : Z)
  | execute_leave_candidates (candidate : AccountId) (candidate_nomination_count : Z)
  | cancel_leave_candidates (candidate_count : Z)
  | go_offline
  | go_online
  | candidate_bond_extra (more : Balance)
  | signed_candidate_bond_extra (proof : ProofOf Signature) (extra_amount : Balance)
  | schedule_candidate_unbond (less : Balance)
  | execute_candidate_unbond (candidate : AccountId)
  | signed_execute_candidate_unbond (proof : ProofOf Signature) (candidate : AccountId)
  | cancel_candidate_unbond
  | signed_schedule_candidate_unbond (proof : ProofOf Signature) (less : Balance)
  | nominate (candidate : AccountId) (amount : Balance)
      (candidate_nomination_count nomination_count : Z)
  | signed_nominate (proof : ProofOf Signature) (targets : list LookupSource) (amount : Balance)
  | schedule_leave_nominators
  | signed_schedule_leave_nominators (proof : ProofOf Signature)
  | execute_leave_nominators (nominator : AccountId) (nomination_count : Z)
  | signed_execute_leave_nominators (proof : ProofOf Signature) (nominator : AccountId)
  | cancel_leave_nominators
  | schedule_revoke_nomination (collator : AccountId)
  | signed_schedule_revoke_nomination (proof : ProofOf Signature) (collator : AccountId)
  | bond_extra (candidate : AccountId) (more : Balance)
  | signed_bond_extra (proof : ProofOf Signature) (extra_amount : Balance)
  | schedule_nominator_unbond (candidate : AccountId) (less : Balance)
  | signed_schedule_nominator_unbond (proof : ProofOf Signature) (less : Balance)
  | execute_nomination_request (nominator candidate : AccountId)
  | signed_execute_nomination_request (proof : ProofOf Signature) (nominator : AccountId)
  | cancel_nomination_request (candidate : AccountId)
  | hotfix_remove_nomination_requests_exited_candidates (candidates : list AccountId)
  | set_admin_setting (value : AdminSettings.t).
End Call.

Section Dispatching.
Context `{Config}.

Definition dispatch_call (origin : Origin) (call : Call.t) : Dispatch unit :=
  match call with
  | Call.set_total_selected new => set_total_selected origin new
  | Call.set_blocks_per_era new => set_blocks_per_era origin new
  | Call.join_candidates bond n => join_candidates origin bond n
  | Call.schedule_leave_candidates n => schedule_leave_candidates origin n
  | Call.execute_leave_candidates c n => execute_leave_candidates origin c n
  | Call.cancel_leave_candidates n => cancel_leave_candidates origin n
  | Call.go_offline => go_offline origin
  | Call.go_online => go_online origin
  | Call.candidate_bond_extra more => candidate_bond_extra origin more
  | Call.signed_candidate_bond_extra p a => signed_candidate_bond_extra origin p a
  | Call.schedule_candidate_unbond less => schedule_candidate_unbond origin less
  | Call.execute_candidate_unbond c => execute_candidate_unbond origin c
  | Call.signed_execute_candidate_unbond p c => signed_execute_candidate_unbond origin p c
  | Call.cancel_candidate_unbond => cancel_candidate_unbond origin
  | Call.signed_schedule_candidate_unbond p a => signed_schedule_candidate_unbond origin p a
  | Call.nominate c a n m => nominate origin c a n m
  | Call.signed_nominate p ts a => signed_nominate origin p ts a
  | Call.schedule_leave_nominators => schedule_leave_nominators origin
  | Call.signed_schedule_leave_nominators p => signed_schedule_leave_nominators origin p
  | Call.execute_leave_nominators n c => execute_leave_nominators origin n c
  | Call.signed_execute_leave_nominators p n => signed_execute_leave_nominators origin p n
  | Call.cancel_leave_nominators => cancel_leave_nominators origin
  | Call.schedule_revoke_nomination c => schedule_revoke_nomination origin c
  | Call.signed_schedule_revoke_nomination p c => signed_schedule_revoke_nomination origin p c
  | Call.bond_extra c a => bond_extra origin c a
  | Call.signed_bond_extra p a => signed_bond_extra origin p a
  | Call.schedule_nominator_unbond c a => schedule_nominator_unbond origin c a
  | Call.signed_schedule_nominator_unbond p a => signed_schedule_nominator_unbond origin p a
  | Call.execute_nomination_request n c => execute_nomination_request origin n c
  | Call.signed_execute_nomination_request p n => signed_execute_nomination_request origin p n
  | Call.cancel_nomination_request c => cancel_nomination_request origin c
  | Call.hotfix_remove_nomination_requests_exited_candidates cs =>
      hotfix_remove_nomination_requests_exited_candidates origin cs
  | Call.set_admin_setting v => set_admin_setting origin v
  end.
(** A dispatchable runs in a storage layer of its own. *)
Definition dispatch (origin : Origin) (call : Call.t) : Dispatch unit :=
  transactional (dispatch_call origin call).

(** ** [proxy_methods.rs] *)

Definition get_encoded_call_param (call : Call.t) (s : Storage.t) :
    option (ProofOf Signature * SignedPayload LookupSource) :=
  let encoded proof payload :=
    Some (proof, payload (proof_relayer proof) (proxy_nonce (proof_signer proof) s)) in
  match call with
  | Call.signed_nominate proof targets amount =>
      encoded proof (λ r n, encode_signed_nominate_params r targets amount n)
  | Call.signed_bond_extra proof extra_amount =>
      encoded proof (λ r n, encode_signed_bond_extra_params r extra_amount n)
  | Call.signed_candidate_bond_extra proof extra_amount =>
      encoded proof (λ r n, encode_signed_candidate_bond_extra_params r extra_amount n)
  | Call.signed_schedule_candidate_unbond proof less =>
      encoded proof (λ r n, encode_signed_schedule_candidate_unbond_params r less n)
  | Call.signed_schedule_nominator_unbond proof less =>
      encoded proof (λ r n, encode_signed_schedule_nominator_unbond_params r less n)
  | Call.signed_schedule_revoke_nomination proof collator =>
      encoded proof (λ r n, encode_signed_schedule_revoke_nomination_params r collator n)
  | Call.signed_schedule_leave_nominators proof =>
      encoded proof (λ r n, encode_signed_schedule_leave_nominators_params r n)
  | Call.signed_execute_leave_nominators proof nominator =>
      encoded proof (λ r n, encode_signed_execute_leave_nominators_params r nominator n)
  | Call.signed_execute_nomination_request proof nominator =>
      encoded proof (λ r n, encode_signed_execute_nomination_request_params r nominator n)
  | Call.signed_execute_candidate_unbond proof candidate =>
      encoded proof (λ r n, encode_signed_execute_candidate_unbond_params r candidate n)
  | _ => None
  end.
Definition signature_is_valid (call : Call.t) (s : Storage.t) : bool :=
  match get_encoded_call_param call s with
  | Some (proof, signed_payload) => verify_signature proof signed_payload
  | None => false
  end.
End Dispatching.
