(* ===== verification/RewardFrame.v ===== *)
(** * Calls and rewards do not interfere

    The dispatchables of the pallet read the era but write none of the reward
    bookkeeping: snapshots, points, payouts, growth periods and the selected
    collators change only in the hooks.  Proved by composition over every
    operation a dispatchable calls. *)

From S2P Require Import Prelude Frames Slices Sets StakingConfig StakingTypes StakingState.
From S2P Require Import NominatorOps.
From S2P Require Import CandidateOps Requests Calls SignedCalls.

Section Frame.
Context `{Config}.

(** The reward bookkeeping. *)
Definition rewards_view (s : Storage.t) :=
  (EraInfo.current (Storage.Era s), EraInfo.first (Storage.Era s), Storage.SelectedCandidates s,
   Storage.AtStake s, Storage.DelayedPayouts s, Storage.Staked s, Storage.Points s,
   Storage.AwardedPts s, Storage.LockedEraPayout s,
   (Storage.GrowthPeriod s, Storage.Growth s, Storage.ProcessedGrowthPeriods s,
    Storage.LastTriggeredGrowthPeriod s, Storage.PublishedGrowth s, Storage.Bridge s)).
(** With the nonces of the signed calls and the block number. *)
Definition calls_view (s : Storage.t) :=
  (rewards_view s, Storage.ProxyNonces s, Storage.block_number s).
Abbreviation apart m := (leaves calls_view m).
Lemma apart_rewards {A} (m : Dispatch A) : apart m → leaves rewards_view m.
Proof. intros Hm s. apply (f_equal (λ v, v.1.1) (Hm s)). Qed.

(** The operations that only compose reads and writes. *)
#[local] Hint Unfold deposit_event currency ensure_signed ensure_root put_requests put_nominator
  put_candidate get_nominator get_candidate executable_at update_active adjust_bond_lock total_sub_if
  total_sub rm_nomination nomination_remove_request_with_state Candidate.put_top Candidate.put_bottom
  Candidate.reset_top_data Candidate.kick_lowest_bottom Candidate.or_else_dne put_all_requests
  validate_revokes insert_candidate remove_from_pool check_signer : frame.
Ltac frame_tac := repeat (leaves_tac; try (progress autounfold with frame)).

Lemma add_nomination_apart c b self : apart (Candidate.add_nomination c b self).
Proof.
  unfold Candidate.add_nomination, Candidate.add_top_nomination, Candidate.add_bottom_nomination.
  frame_tac.
Qed.
Lemma rm_nomination_apart c n a self : apart (Candidate.rm_nomination_if_exists c n a self).
Proof.
  unfold Candidate.rm_nomination_if_exists, Candidate.rm_top_nomination,
    Candidate.rm_bottom_nomination. frame_tac.
Qed.
Lemma increase_nomination_apart c n a more self : apart (Candidate.increase_nomination c n a more self).
Proof.
  unfold Candidate.increase_nomination, Candidate.increase_top_nomination,
    Candidate.increase_bottom_nomination. frame_tac.
Qed.
Lemma decrease_nomination_apart c n a less self : apart (Candidate.decrease_nomination c n a less self).
Proof.
  unfold Candidate.decrease_nomination, Candidate.decrease_top_nomination,
    Candidate.decrease_bottom_nomination. frame_tac.
Qed.
#[local] Hint Resolve add_nomination_apart rm_nomination_apart increase_nomination_apart
  decrease_nomination_apart : frame.

Lemma call_nominate_apart n c a cnt1 cnt2 : apart (call_nominate n c a cnt1 cnt2).
Proof. unfold call_nominate, nominate_state. frame_tac. Qed.
Lemma call_bond_extra_apart n c a : apart (call_bond_extra n c a).
Proof. unfold call_bond_extra, nominator_increase_nomination. frame_tac. Qed.
Lemma leaves_candidate_apart c n a : apart (nominator_leaves_candidate c n a).
Proof. unfold nominator_leaves_candidate. frame_tac. Qed.
#[local] Hint Resolve call_nominate_apart call_bond_extra_apart leaves_candidate_apart : frame.
Lemma schedule_revoke_apart c n : apart (nomination_schedule_revoke c n).
Proof. unfold nomination_schedule_revoke. frame_tac. Qed.
Lemma schedule_bond_decrease_apart c n a : apart (nomination_schedule_bond_decrease c n a).
Proof. unfold nomination_schedule_bond_decrease. frame_tac. Qed.
Lemma cancel_request_apart c n : apart (nomination_cancel_request c n).
Proof. unfold nomination_cancel_request. frame_tac. Qed.
Lemma execute_request_apart c n : apart (nomination_execute_scheduled_request c n).
Proof.
  unfold nomination_execute_scheduled_request, execute_revoke, execute_decrease. frame_tac.
Qed.
Lemma revoke_all_apart n : apart (nominator_schedule_revoke_all n).
Proof. unfold nominator_schedule_revoke_all. frame_tac. Qed.
Lemma cancel_all_apart n : apart (nominator_cancel_scheduled_revoke_all n).
Proof. unfold nominator_cancel_scheduled_revoke_all. frame_tac. Qed.
Lemma execute_all_apart n cnt : apart (nominator_execute_scheduled_revoke_all n cnt).
Proof. unfold nominator_execute_scheduled_revoke_all. frame_tac. Qed.
#[local] Hint Resolve schedule_revoke_apart schedule_bond_decrease_apart cancel_request_apart
  execute_request_apart revoke_all_apart cancel_all_apart execute_all_apart : frame.
Lemma candidate_bond_extra_apart c a : apart (call_candidate_bond_extra c a).
Proof. unfold call_candidate_bond_extra, Candidate.bond_extra. frame_tac. Qed.
Lemma candidate_unbond_apart c a : apart (call_schedule_candidate_unbond c a).
Proof. unfold call_schedule_candidate_unbond, Candidate.schedule_unbond. frame_tac. Qed.
Lemma execute_candidate_unbond_apart c : apart (call_execute_candidate_unbond c).
Proof. unfold call_execute_candidate_unbond, Candidate.execute_unbond. frame_tac. Qed.
#[local] Hint Resolve candidate_bond_extra_apart candidate_unbond_apart
  execute_candidate_unbond_apart : frame.
Lemma split_apart n ts a : apart (split_and_nominate n ts a).
Proof. unfold split_and_nominate. frame_tac. Qed.
Lemma identify_apart n a : apart (identify_collators_to_withdraw_from n a).
Proof. unfold identify_collators_to_withdraw_from. frame_tac. Qed.
#[local] Hint Resolve split_apart identify_apart : frame.

(** The era keeps its index and first block; only its length changes. *)
Lemma set_blocks_per_era_apart origin new : apart (set_blocks_per_era origin new).
Proof.
  intros s. unfold set_blocks_per_era, ensure_root, Prelude.ensure, mbind, M_bind, gets.
  destruct origin; [|done..]. m_red.
  destruct (bool_decide (MinBlocksPerEra <= new)); [|done]. m_red.
  destruct (negb _); [|done]. m_red. by destruct (bool_decide (Storage.TotalSelected s <= new)).
Qed.
#[local] Hint Resolve set_blocks_per_era_apart : frame.

(** The calls a relayer submits for a signer. *)
Definition is_signed_call (call : Call.t) : bool :=
  match call with
  | Call.signed_candidate_bond_extra _ _ | Call.signed_execute_candidate_unbond _ _
  | Call.signed_schedule_candidate_unbond _ _ | Call.signed_nominate _ _ _
  | Call.signed_schedule_leave_nominators _ | Call.signed_execute_leave_nominators _ _
  | Call.signed_schedule_revoke_nomination _ _ | Call.signed_bond_extra _ _
  | Call.signed_schedule_nominator_unbond _ _ | Call.signed_execute_nomination_request _ _ => true
  | _ => false
  end.
Lemma plain_call_apart origin call : is_signed_call call = false → apart (dispatch_call origin call).
Proof.
  destruct call; cbn [dispatch_call is_signed_call]; intros [=].
  all: unfold set_total_selected, set_admin_setting, join_candidates,
    schedule_leave_candidates, Candidate.schedule_leave, execute_leave_candidates,
    Candidate.can_leave, return_stake, cancel_leave_candidates, go_offline, go_online,
    candidate_bond_extra, schedule_candidate_unbond, execute_candidate_unbond,
    cancel_candidate_unbond, Candidate.cancel_unbond, nominate, schedule_leave_nominators,
    execute_leave_nominators, cancel_leave_nominators, schedule_revoke_nomination, bond_extra,
    schedule_nominator_unbond, execute_nomination_request, cancel_nomination_request,
    hotfix_remove_nomination_requests_exited_candidates.
  all: frame_tac.
Qed.

(** [m] counts the nonce of [who] up once when it succeeds. *)
Definition bumps (who : AccountId) (m : Dispatch unit) : Prop :=
  ∀ s s', m s = (Ok (), s') → rewards_view s' = rewards_view s ∧
    Storage.ProxyNonces s' = <[who := proxy_nonce who s +₆₄ 1]> (Storage.ProxyNonces s).
Lemma bumps_increment who : bumps who (increment_nonce who).
Proof. by intros s s' [= <-]. Qed.
Lemma bumps_fail who e : bumps who (fail e).
Proof. by intros s s' [=]. Qed.
Lemma bumps_bind {A} who (m : Dispatch A) (g : A → Dispatch unit) :
  apart m → (∀ a, bumps who (g a)) → bumps who (m ≫= g).
Proof.
  intros Hm Hg s s' Hrun. specialize (Hm s). unfold mbind, M_bind in Hrun.
  destruct (m s) as [[a|e|] s1]; [|done..]. cbn in Hm. injection Hm as.
  apply Hg in Hrun as [Hr Hn]. unfold proxy_nonce in *. split; [unfold rewards_view in *; congruence|congruence].
Qed.

(** What a successful signed call says about its origin and its proof. *)
Record authentic origin (proof : ProofOf Signature) (payload : SignedPayload LookupSource)
    (s s' : Storage.t) : Prop := {
  au_origin : origin = Signed (proof_signer proof);
  au_signature : verify_signature proof payload = true;
  au_rewards : rewards_view s' = rewards_view s;
  au_nonce : Storage.ProxyNonces s' =
    <[proof_signer proof := proxy_nonce (proof_signer proof) s +₆₄ 1]> (Storage.ProxyNonces s);
}.
Lemma signed_run origin proof pl e (g : AccountId → Dispatch unit) s s' :
  (∀ who, bumps who (g who)) →
  transactional (who ← ensure_signed origin; check_signer who proof pl e;; g who) s = (Ok (), s') →
  authentic origin proof (pl (proof_relayer proof) (proxy_nonce (proof_signer proof) s)) s s'.
Proof.
  intros Hg. unfold transactional, ensure_signed, check_signer.
  destruct origin as [|who|]; [done| |done]. unfold mbind, M_bind, gets, ensure. m_red.
  destruct (bool_decide (who = proof_signer proof)) eqn:Hw; [|done].
  apply bool_decide_eq_true in Hw as ->. m_red. destruct (verify_signature _ _) eqn:Hv; [|done]. m_red.
  intros Hrun. destruct (g (proof_signer proof) s) as [[[]|?|] s1] eqn:Hrun1; [|done..].
  injection Hrun as ->. apply Hg in Hrun1 as [Hr Hn]. by split.
Qed.
#[local] Hint Resolve bumps_increment bumps_fail : frame.
Ltac bumps_tac :=
  repeat (cbv beta iota zeta; first
    [ solve [eauto 1 with frame]
    | match goal with
      | |- bumps _ (match ?x with _ => _ end) => destruct x
      | |- bumps _ (_ ≫= _) => apply bumps_bind; [solve [frame_tac]|intros ?]
      end ]).

Lemma enabled_run {B} origin b e (g : AccountId → Dispatch B) s r s' :
  transactional (who ← ensure_signed origin; ensure b e;; g who) s = (Ok r, s') →
  transactional (who ← ensure_signed origin; g who) s = (Ok r, s').
Proof. destruct origin, b; done. Qed.
Lemma signed_call_run origin call proof payload s s' :
  get_encoded_call_param call s = Some (proof, payload) →
  dispatch_call origin call s = (Ok (), s') → authentic origin proof payload s s'.
Proof.
  destruct call; cbn [get_encoded_call_param]; intros [= <- <-]; cbn [dispatch_call].
  all: try (apply signed_run; intros; bumps_tac).
  all: intros Hrun%enabled_run; revert Hrun; apply signed_run; intros; bumps_tac.
Qed.
Lemma signed_call_param call s : is_signed_call call = true ↔ is_Some (get_encoded_call_param call s).
Proof. destruct call; cbn; (split; [done|intros []; done]). Qed.

(** ** Every call *)

Lemma dispatch_apart origin call s : rewards_view (dispatch origin call s).2 = rewards_view s.
Proof.
  unfold dispatch, transactional. destruct (dispatch_call origin call s) as [[[]|e|] s'] eqn:Hrun; [|done..].
  destruct (is_signed_call call) eqn:Hc.
  - apply (signed_call_param call s) in Hc as [[proof payload] Hp]. by apply (signed_call_run _ _ _ _ _ _ Hp Hrun).
  - pose proof (apart_rewards _ (plain_call_apart origin call Hc) s) as Hv. by rewrite Hrun in Hv.
Qed.
End Frame.
