(* ===== verification/Eras.v ===== *)
(** * Eras: growth, selection, rewards, sessions

    The block hook of [pallets/parachain-staking/src/lib.rs] and what it
    calls: the transition to a new era with the selection of collators and
    their snapshots, the delayed payouts, the points of block authors; and the
    session interface of [session_handler.rs]; before them the growth periods, whose
    rewards are accumulated for Ethereum.  Weights are not modelled. *)

From S2P Require Import Prelude Slices Sets StakingConfig StakingTypes StakingState.
From S2P Require Import NominatorOps CandidateOps Requests Calls.

(** ** Growth: rewards accumulated for Ethereum

    The growth periods of [pallets/parachain-staking/src/lib.rs]: the points
    and rewards of a period's eras are accumulated, the period is published
    through the bridge when it ends, and the amount that comes back is paid
    out to its collators.

    The issuance that dropping an imbalance creates is part of the state behind
    [T::Currency]. *)

Section Growth.
Context `{Config}.

Definition PALLET_ID : string := "parachain_staking".
Definition put_growth (period : GrowthPeriodIndex) (info : GrowthInfo.t) : Dispatch unit :=
  modify (Storage.upd_Growth (insert period info)).
(** [<Growth<T>>::mutate]: a missing entry starts from the default. *)
Definition mutate_growth (period : GrowthPeriodIndex) (f : GrowthInfo.t → GrowthInfo.t) :
    Dispatch unit :=
  info ← gets (growth period);
  put_growth period (f info).

(** ** Accumulation *)

(** [BTreeMap::into_iter]: in the order of the keys. *)
Definition btree_iter {A} (m : gmap AccountId A) : list (AccountId * A) :=
  sort_by (λ x y, (x.1 ?= y.1)%N) (map_to_list m).

Definition update_collator_scores (existing current : list CollatorScore.t) :
    list CollatorScore.t :=
  let scores : gmap AccountId RewardPoint :=
    foldl (λ m s, <[CollatorScore.collator s := CollatorScore.points s]> m) ∅ existing in
  let scores :=
    foldl (λ m s,
      <[CollatorScore.collator s :=
          match m !! CollatorScore.collator s with
          | Some points => points ⊕₃₂ CollatorScore.points s
          | None => CollatorScore.points s
          end]> m) scores current in
  take CollatorMaxScores ((λ p, CollatorScore.new p.1 p.2) <$> btree_iter scores).

Definition is_new_growth_period (era_index : EraIndex) (period : GrowthPeriodInfo.t) : bool :=
  bool_decide (GrowthPeriodInfo.index period = 0) ||
  bool_decide (ErasPerGrowthPeriod <= era_index -₃₂ GrowthPeriodInfo.start_era_index period).

Definition accumulate_payout_for_period (growth_index : GrowthPeriodIndex)
    (total_staked staking_reward_paid_in_era : Balance) (total_points : RewardPoint)
    (current_collator_scores : list CollatorScore.t) : Dispatch unit :=
  mutate_growth growth_index (λ info,
    GrowthInfo.mk (GrowthInfo.number_of_accumulations info ⊕₃₂ 1)
      (GrowthInfo.total_stake_accumulated info ⊕ total_staked)
      (GrowthInfo.total_staker_reward info ⊕ staking_reward_paid_in_era)
      (GrowthInfo.total_points info ⊕₃₂ total_points)
      (update_collator_scores (GrowthInfo.collator_scores info) current_collator_scores)
      (GrowthInfo.tx_id info) (GrowthInfo.triggered info)).

(** ** Publication *)

Definition trigger_growth_on_t1 (growth_period : GrowthPeriodIndex) (growth_info : GrowthInfo.t) :
    Dispatch unit :=
  let rewards_in_period := GrowthInfo.total_staker_reward growth_info in
  let average_staked_in_period :=
    GrowthInfo.total_stake_accumulated growth_info / GrowthInfo.number_of_accumulations growth_info in
  bridge ← gets Storage.Bridge;
  let params := [("uint256", pretty rewards_in_period); ("uint256", pretty average_staked_in_period);
                 ("uint32", pretty growth_period)] in
  let '(result, bridge) := BridgeInterface_publish "triggerGrowth" params PALLET_ID bridge in
  modify (Storage.set_Bridge bridge);;
  match result with
  | inr tx_id =>
      modify (Storage.set_LastTriggeredGrowthPeriod growth_period);;
      modify (Storage.upd_PublishedGrowth (insert tx_id growth_period));;
      mutate_growth growth_period (GrowthInfo.set_tx_id (Some tx_id))
  | inl e => Prelude.fail (Other e)
  end.

(** [(starting_period..=current_period).take(MAX_GROWTHS_TO_PROCESS)]. *)
Definition get_untriggered_growths (current_period : GrowthPeriodIndex) (s : Storage.t) :
    list GrowthPeriodIndex :=
  let starting_period := Storage.LastTriggeredGrowthPeriod s +₃₂ 1 in
  seqZ starting_period
    (Z.min (Z.of_nat MAX_GROWTHS_TO_PROCESS) (current_period - starting_period + 1)).

Definition trigger_outstanding_growths (latest_period : GrowthPeriodIndex) : Dispatch unit :=
  periods_to_process ← gets (get_untriggered_growths latest_period);
  for_each (λ growth_period,
    entry ← gets (λ s, Storage.Growth s !! growth_period);
    match entry with
    | None => mret ()
    | Some growth_info =>
        processed ← gets (λ s, bool_decide (growth_period ∈ Storage.ProcessedGrowthPeriods s));
        if processed || bool_decide (is_Some (GrowthInfo.tx_id growth_info)) ||
           bool_decide (is_Some (GrowthInfo.triggered growth_info))
        then mret ()
        else if bool_decide (GrowthInfo.number_of_accumulations growth_info = 0) ||
                bool_decide (GrowthInfo.total_stake_accumulated growth_info = 0) ||
                bool_decide (GrowthInfo.total_staker_reward growth_info = 0)
        then
          modify (Storage.set_LastTriggeredGrowthPeriod growth_period);;
          mutate_growth growth_period (GrowthInfo.set_tx_id (Some 0))
        else try (trigger_growth_on_t1 growth_period growth_info);; mret ()
    end) periods_to_process.

Definition update_collator_payout (payout_era : EraIndex) (total_staked : Balance)
    (payout : DelayedPayout) (total_points : RewardPoint)
    (current_collator_scores : list CollatorScore.t) : Dispatch unit :=
  collator_payout_period ← gets Storage.GrowthPeriod;
  let staking_reward_paid_in_era := total_staking_reward payout in
  if is_new_growth_period payout_era collator_payout_period then
    let new_growth_period := GrowthPeriodInfo.index collator_payout_period ⊕₃₂ 1 in
    modify (Storage.set_GrowthPeriod (GrowthPeriodInfo.mk payout_era new_growth_period));;
    put_growth new_growth_period
      (GrowthInfo.mk 1 total_staked staking_reward_paid_in_era total_points
         current_collator_scores None None);;
    trigger_outstanding_growths (new_growth_period -₃₂ 1)
  else
    accumulate_payout_for_period (GrowthPeriodInfo.index collator_payout_period) total_staked
      staking_reward_paid_in_era total_points current_collator_scores.

(** [BridgeInterfaceNotification::process_result]. *)
Definition process_result (tx_id : EthereumId) (caller_id : string) (succeeded : bool) :
    Dispatch unit :=
  published ← gets (λ s, Storage.PublishedGrowth s !! tx_id);
  match published with
  | Some growth_period =>
      if bool_decide (caller_id = PALLET_ID)
      then mutate_growth growth_period (GrowthInfo.set_triggered (Some succeeded)) else mret ()
  | None => mret ()
  end.

(** ** Payout of a lifted growth *)

(** The closure [pay]: the imbalance so far, with the amount paid. *)
Definition pay (growth_period : GrowthPeriodIndex) (imbalance : Balance)
    (collator_address : AccountId) (amount : Balance) : Dispatch Balance :=
  cs ← gets Storage.Balances;
  match deposit_into_existing collator_address amount cs with
  | Some (amount_paid, cs') =>
      modify (Storage.set_Balances cs');;
      deposit_event (Event.CollatorPaid collator_address amount_paid growth_period);;
      mret (imbalance ⊕ amount_paid)
  | None => fail Error.ErrorPayingCollator
  end.

Definition payout_collators (amount : Balance) (growth_period : GrowthPeriodIndex) : Dispatch unit :=
  processed ← gets (λ s, bool_decide (growth_period ∈ Storage.ProcessedGrowthPeriods s));
  ensure (negb processed) Error.GrowthAlreadyProcessed;;
  entry ← gets (λ s, Storage.Growth s !! growth_period);
  imbalance ←
    match entry with
    | Some growth_info =>
        imbalance ← fold_m (λ imbalance collator_data,
          pay growth_period imbalance (CollatorScore.collator collator_data)
            (share (CollatorScore.points collator_data) (GrowthInfo.total_points growth_info) amount))
          0 (GrowthInfo.collator_scores growth_info);
        modify (Storage.upd_Growth (delete growth_period));;
        mret imbalance
    | None =>
        collators ← gets Storage.SelectedCandidates;
        fold_m (λ imbalance collator,
          pay growth_period imbalance collator (share 1 (Z.of_nat (length collators)) amount))
          0 collators
    end;
  modify (Storage.upd_ProcessedGrowthPeriods (λ p, {[ growth_period ]} ∪ p));;
  let dust_amount := amount ⊖ imbalance in
  if bool_decide (0 < dust_amount)
  then currency (CollatorPayoutDustHandler_handle_dust dust_amount) else mret ().

(** [OnGrowthLiftedHandler::on_growth_lifted]. *)
Definition on_growth_lifted (amount : Balance) (growth_period : GrowthPeriodIndex) : Dispatch unit :=
  payout_collators amount growth_period.

Definition try_get_growth_data (growth_period : GrowthPeriodIndex) : Dispatch GrowthInfo.t :=
  entry ← gets (λ s, Storage.Growth s !! growth_period);
  ok_or entry Error.GrowthDataNotFound.
End Growth.

Section Eras.
Context `{Config}.

(** ** Selection *)

(** [a.amount.cmp(&b.amount)]. *)
Definition cmp_amount (a b : Bond.t) : comparison := (Bond.amount a ?= Bond.amount b)%Z.

Definition compute_top_candidates (s : Storage.t) : list AccountId :=
  let candidates := sort_by cmp_amount (Storage.CandidatePool s) in
  let top_n := Z.to_nat (Storage.TotalSelected s) in
  let collators :=
    Bond.owner <$> filter (λ x, Storage.MinCollatorStake s <= Bond.amount x)
                     (take top_n (reverse candidates)) in
  sort_by N.compare collators.

(** The pending request of each nominator towards [collator]. *)
Definition request_actions (collator : AccountId) (s : Storage.t) :
    gmap AccountId NominationAction.t :=
  foldl (λ m req, <[ScheduledRequest.nominator req := ScheduledRequest.action req]> m) ∅
    (scheduled_requests collator s).

(** The amount of a top nomination that is not rewarded, and the one that is. *)
Definition uncounted (requests : gmap AccountId NominationAction.t) (bond : Bond.t) : Balance :=
  match requests !! Bond.owner bond with
  | None => 0
  | Some (NominationAction.Revoke _) => Bond.amount bond
  | Some (NominationAction.Decrease amount) => amount
  end.
Definition rewardable (requests : gmap AccountId NominationAction.t) (bond : Bond.t) : Bond.t :=
  match requests !! Bond.owner bond with
  | None => bond
  | Some (NominationAction.Revoke _) => Bond.mk (Bond.owner bond) 0
  | Some (NominationAction.Decrease amount) =>
      Bond.mk (Bond.owner bond) (Bond.amount bond ⊖ amount)
  end.
(** [CountedNominations]: the uncounted stake and the rewardable nominations. *)
Definition get_rewardable_nominators (collator : AccountId) :
    Dispatch (Balance * list Bond.t) :=
  requests ← gets (request_actions collator);
  tn ← gets (λ s, Storage.TopNominations s !! collator);
  top ← expect tn;
  let l := Nominations.nominations top in
  mret (foldl (λ acc bond, acc ⊕ uncounted requests bond) 0 l,
        take MaxNominations (rewardable requests <$> l)).

(** The counters [(collator_count, nomination_count, total)] are threaded. *)
Definition reselect_previous (now : EraIndex) : Dispatch (Z * Z * Balance) :=
  let last_era := now ⊖ 1 in
  snapshots ← gets (iter_prefix last_era ∘ Storage.AtStake);
  counts ← fold_m (λ '(collator_count, nomination_count, total) '(account, snapshot),
    modify (Storage.upd_AtStake (insert2 now account snapshot));;
    mret (collator_count ⊕₃₂ 1,
          nomination_count ⊕₃₂ Z.of_nat (length (CollatorSnapshot.nominations snapshot)),
          total ⊕ CollatorSnapshot.total snapshot)) (0, 0, 0) snapshots;
  let total_per_candidate : gmap AccountId Balance :=
    list_to_map ((λ p, (p.1, CollatorSnapshot.total p.2)) <$> snapshots) in
  selected ← gets Storage.SelectedCandidates;
  for_each (λ candidate,
    snapshot_total ← expect (total_per_candidate !! candidate);
    deposit_event (Event.CollatorChosen now candidate snapshot_total)) selected;;
  mret counts.

Definition snapshot_collator (now : EraIndex) (counts : Z * Z * Balance) (account : AccountId) :
    Dispatch (Z * Z * Balance) :=
  let '(collator_count, nomination_count, total) := counts in
  st ← gets (λ s, Storage.CandidateInfo s !! account);
  state ← expect st;
  r ← get_rewardable_nominators account;
  let '(uncounted_stake, rewardable_nominations) := r in
  let total_counted := CandidateMetadata.total_counted state ⊖ uncounted_stake in
  modify (Storage.upd_AtStake (insert2 now account
    (CollatorSnapshot.mk (CandidateMetadata.bond state) rewardable_nominations total_counted)));;
  deposit_event (Event.CollatorChosen now account (CandidateMetadata.total_counted state));;
  mret (collator_count ⊕₃₂ 1,
        nomination_count ⊕₃₂ CandidateMetadata.nomination_count state,
        total ⊕ CandidateMetadata.total_counted state).

Definition select_top_candidates (now : EraIndex) : Dispatch (Z * Z * Balance) :=
  collators ← gets compute_top_candidates;
  match collators with
  | [] => reselect_previous now
  | _ =>
      counts ← fold_m (snapshot_collator now) (0, 0, 0) collators;
      selected ← expect (if bool_decide (length collators ≤ MaxCandidates)%nat
                         then Some collators else None);
      modify (Storage.set_SelectedCandidates selected);;
      mret counts
  end.

(** ** Rewards *)

Definition reward_pot (s : Storage.t) : Balance :=
  free_balance (Storage.Balances s) RewardPotAccount ⊖ minimum_balance.

Definition compute_total_reward_to_pay : Dispatch Balance :=
  total_unpaid_reward_amount ← gets reward_pot;
  locked ← gets Storage.LockedEraPayout;
  payout ← match checked_sub_u128 total_unpaid_reward_amount locked with
           | Some payout => mret payout
           | None =>
               deposit_event (Event.NotEnoughFundsForEraPayment total_unpaid_reward_amount);;
               mret 0
           end;
  match checked_add_u128 locked payout with
  | Some lp => modify (Storage.set_LockedEraPayout lp);; mret payout
  | None => modify (Storage.set_LockedEraPayout u128_max);; mret (u128_max ⊖ locked)
  end.

Definition prepare_staking_payouts (now : EraIndex) : Dispatch unit :=
  if bool_decide (now <= RewardPaymentDelay) then mret () else
  let era_to_payout := now ⊖ RewardPaymentDelay in
  total_points ← gets (points era_to_payout);
  if bool_decide (total_points = 0) then mret () else
  total_staked ← gets (λ s, unwrap_or 0 (Storage.Staked s !! era_to_payout));
  modify (Storage.upd_Staked (delete era_to_payout));;
  total_reward_to_pay ← compute_total_reward_to_pay;
  let payout := mk_DelayedPayout total_reward_to_pay in
  modify (Storage.upd_DelayedPayouts (insert era_to_payout payout));;
  if GrowthEnabled then
    awarded ← gets (iter_prefix era_to_payout ∘ Storage.AwardedPts);
    let collator_scores :=
      take CollatorMaxScores ((λ p, CollatorScore.new p.1 p.2) <$> awarded) in
    update_collator_payout era_to_payout total_staked payout total_points collator_scores
  else mret ().

(** The closure [pay_reward] of [pay_one_collator_reward]. *)
Definition pay_reward (amount : Balance) (to : AccountId) : Dispatch unit :=
  cs ← gets Storage.Balances;
  match transfer RewardPotAccount to amount cs with
  | Some cs' =>
      modify (Storage.set_Balances cs');;
      deposit_event (Event.Rewarded to amount);;
      modify (Storage.upd_LockedEraPayout (λ p, p ⊖ amount))
  | None => deposit_event (Event.ErrorPayingStakingReward to amount)
  end.

(** The collator and the total it was paid for, [None] when no payout is left. *)
Definition pay_one_collator_reward (paid_for_era : EraIndex) (payout_info : DelayedPayout) :
    Dispatch (option (AccountId * Balance)) :=
  total_points ← gets (points paid_for_era);
  if bool_decide (total_points = 0) then mret None else
  awarded ← gets (iter_prefix paid_for_era ∘ Storage.AwardedPts);
  match awarded with
  | (collator, pts) :: _ =>
      modify (Storage.upd_AwardedPts (delete2 paid_for_era collator));;
      let total_reward_for_collator := share pts total_points (total_staking_reward payout_info) in
      state ← gets (at_stake paid_for_era collator);
      modify (Storage.upd_AtStake (delete2 paid_for_era collator));;
      let collator_reward :=
        share (CollatorSnapshot.bond state) (CollatorSnapshot.total state)
          total_reward_for_collator in
      pay_reward collator_reward collator;;
      for_each (λ nomination,
        let nominator_reward :=
          share (Bond.amount nomination) (CollatorSnapshot.total state)
            total_reward_for_collator in
        if bool_decide (nominator_reward = 0) then mret ()
        else pay_reward nominator_reward (Bond.owner nomination))
        (CollatorSnapshot.nominations state);;
      mret (Some (collator, total_reward_for_collator))
  | [] => mret None
  end.

Definition handle_delayed_payouts (now : EraIndex) : Dispatch unit :=
  if bool_decide (now < RewardPaymentDelay) then mret () else
  let paid_for_era := now ⊖ RewardPaymentDelay in
  payout ← gets (λ s, Storage.DelayedPayouts s !! paid_for_era);
  match payout with
  | Some payout_info =>
      result ← pay_one_collator_reward paid_for_era payout_info;
      if bool_decide (result = None) then
        modify (Storage.upd_DelayedPayouts (delete paid_for_era));;
        modify (Storage.upd_Points (delete paid_for_era))
      else mret ()
  | None => mret ()
  end.

(** Points of a block author. *)
Definition note_author (author : AccountId) : Dispatch unit :=
  now ← gets (EraInfo.current ∘ Storage.Era);
  pts ← gets (awarded_pts now author);
  modify (Storage.upd_AwardedPts (insert2 now author (pts ⊕₃₂ 20)));;
  total ← gets (points now);
  modify (Storage.upd_Points (insert now (total ⊕₃₂ 20))).

(** ** The block hook *)

Definition start_new_era (block_number : BlockNumber) (era : EraInfo.t) : Dispatch EraInfo.t :=
  let era := EraInfo.update block_number era in
  (if is_staking_enabled then prepare_staking_payouts (EraInfo.current era) else mret ());;
  r ← select_top_candidates (EraInfo.current era);
  let '(collator_count, _, total_staked) := r in
  modify (Storage.set_Era era);;
  total ← gets Storage.Total;
  modify (Storage.upd_Staked (insert (EraInfo.current era) total));;
  deposit_event (Event.NewEra (EraInfo.first era) (EraInfo.current era) collator_count total_staked);;
  mret era.

Definition on_initialize (n : BlockNumber) : Dispatch unit :=
  era ← gets Storage.Era;
  era ← (if EraInfo.should_update n era then start_new_era n era else mret era);
  if is_staking_enabled then handle_delayed_payouts (EraInfo.current era) else mret ().

(** ** Sessions *)

Definition new_session (new_index : Z) (s : Storage.t) : option (list AccountId) :=
  match Storage.SelectedCandidates s with [] => None | collators => Some collators end.

Definition should_end_session (now : BlockNumber) : Dispatch bool :=
  era ← gets Storage.Era;
  if EraInfo.should_update now era then mret true else
  force ← gets Storage.ForceNewEra;
  if force : bool then
    modify (Storage.set_ForceNewEra false);;
    start_new_era now era;;
    mret true
  else mret false.

Definition average_session_length (s : Storage.t) : BlockNumber := EraInfo.length (Storage.Era s).
Definition estimate_next_session_rotation (s : Storage.t) : BlockNumber :=
  EraInfo.first (Storage.Era s) +₃₂ EraInfo.length (Storage.Era s).
End Eras.

(** * Genesis of the staking pallet

    [GenesisConfig] and its [build] in [pallets/parachain-staking/src/lib.rs]:
    the candidates and nominations of the chain specification go through the
    dispatchables, each in a storage layer of its own, whose failures are only
    logged. *)

Module GenesisConfig.
Record t : Type := mk {
  candidates : list (AccountId * Balance);
  nominations : list (AccountId * AccountId * Balance);
  delay : EraIndex;
  min_collator_stake : Balance;
  min_total_nominator_stake : Balance;
}.
Definition default : t := mk [] [] 1 0 0.
End GenesisConfig.

Section Genesis.
Context `{Config}.

(** [assert!]. *)
Definition assert (b : bool) : Dispatch unit := expect (if b then Some () else None).

Definition genesis_candidate (candidate_count : Z) (c : AccountId * Balance) : Dispatch Z :=
  let '(candidate, balance) := c in
  free ← gets (get_collator_stakable_free_balance candidate);
  assert (bool_decide (balance <= free));;
  let candidate_count := candidate_count ⊕₃₂ 1 in
  r ← try (transactional (join_candidates (Signed candidate) balance candidate_count));
  match r with
  | inl _ => mret candidate_count
  | inr _ => mret (candidate_count ⊕₃₂ 1)
  end.

Abbreviation counts := (gmap AccountId Z).
Definition genesis_nomination (acc : counts * counts) (n : AccountId * AccountId * Balance) :
    Dispatch (counts * counts) :=
  let '(col_nominator_count, del_nomination_count) := acc in
  let '(nominator, target, balance) := n in
  free ← gets (get_nominator_stakable_free_balance nominator);
  assert (bool_decide (balance <= free));;
  let cd_count := unwrap_or 0 (col_nominator_count !! target) in
  let dd_count := unwrap_or 0 (del_nomination_count !! nominator) in
  r ← try (transactional (nominate (Signed nominator) target balance cd_count dd_count));
  match r with
  | inl _ => mret (col_nominator_count, del_nomination_count)
  | inr _ => mret (<[target := cd_count ⊕₃₂ 1]> col_nominator_count,
                   <[nominator := dd_count ⊕₃₂ 1]> del_nomination_count)
  end.

Definition build (self : GenesisConfig.t) : Dispatch unit :=
  fold_m genesis_candidate 0 (GenesisConfig.candidates self);;
  fold_m genesis_nomination (∅, ∅) (GenesisConfig.nominations self);;
  assert (bool_decide (0 < GenesisConfig.delay self));;
  modify (Storage.set_Delay (GenesisConfig.delay self));;
  modify (Storage.set_MinCollatorStake (GenesisConfig.min_collator_stake self));;
  modify (Storage.set_MinTotalNominatorStake (GenesisConfig.min_total_nominator_stake self));;
  modify (Storage.set_TotalSelected MinSelectedCandidates);;
  r ← select_top_candidates 1;
  let '(v_count, _, total_staked) := r in
  modify (Storage.set_Era (EraInfo.new 1 0 (MinBlocksPerEra +₃₂ 2)));;
  total ← gets Storage.Total;
  modify (Storage.upd_Staked (insert 1 total));;
  put_growth 0 (GrowthInfo.new 1);;
  deposit_event (Event.NewEra 0 1 v_count total_staked).
End Genesis.
