(* ===== verification/NominationLists.v ===== *)
(** * The sorted nomination lists of a candidate

    [Nominations::insert_sorted_greatest_to_least] against a reference
    insertion, and the invariant that relates the top and bottom lists of one
    candidate, with the list-level step behind each operation on them. *)

From S2P Require Import Prelude Slices Sets StakingConfig StakingTypes CandidateOps.

Abbreviation amount := Bond.amount.
Abbreviation owner := Bond.owner.

Definition ge_amount (x y : Bond.t) : Prop := amount y <= amount x.
(** Greatest to least. *)
Abbreviation desc := (StronglySorted ge_amount).
Definition sum_amounts (l : list Bond.t) : Z := foldr (λ x acc, amount x + acc) 0 l.

(** First come first served: the new nomination goes behind every nomination
    at least as large. *)
Fixpoint insert_desc (x : Bond.t) (l : list Bond.t) : list Bond.t :=
  match l with
  | [] => [x]
  | y :: l' => if bool_decide (amount x <= amount y) then y :: insert_desc x l' else x :: l
  end.

(** ** Insertion *)

Lemma insert_desc_split x l1 l2 :
  Forall (λ y, amount x <= amount y) l1 → Forall (λ y, amount y < amount x) l2 →
  insert_desc x (l1 ++ l2) = l1 ++ x :: l2.
Proof.
  intros H1 H2. induction H1 as [|y l1 Hy H1 IH]; simpl.
  - destruct H2 as [|z l2 Hz H2]; simpl; [done|]. by rewrite bool_decide_false by lia.
  - by rewrite bool_decide_true, IH.
Qed.
Lemma insert_desc_perm x l : insert_desc x l ≡ₚ x :: l.
Proof.
  induction l as [|y l IH]; simpl; [done|]. case_bool_decide; [|done].
  rewrite IH. apply Permutation_swap.
Qed.
Lemma insert_desc_sorted x l : desc l → desc (insert_desc x l).
Proof.
  induction l as [|y l IH]; simpl; intros Hl; [repeat constructor|].
  apply StronglySorted_cons in Hl as [Hy Hl]. case_bool_decide as Hxy.
  - apply StronglySorted_cons. split; [|auto]. rewrite insert_desc_perm.
    constructor; done.
  - apply StronglySorted_cons. split; [|by apply StronglySorted_cons].
    constructor; [unfold ge_amount; lia|].
    eapply Forall_impl; [exact Hy|]. unfold ge_amount. lia.
Qed.
Lemma desc_remove l1 x l2 : desc (l1 ++ x :: l2) → desc (l1 ++ l2).
Proof.
  induction l1 as [|y l1 IH]; simpl.
  - by intros [? _]%StronglySorted_inv.
  - intros [? Hy]%StronglySorted_inv. constructor; [auto|].
    rewrite <-Permutation_middle in Hy. by apply Forall_cons in Hy as [_ ?].
Qed.
Lemma insert_desc_length x l : length (insert_desc x l) = S (length l).
Proof. by rewrite insert_desc_perm. Qed.

Lemma desc_lookup l i j x y :
  desc l → (i ≤ j)%nat → l !! i = Some x → l !! j = Some y → amount y <= amount x.
Proof.
  intros Hl Hij Hx Hy. destruct (decide (i = j)) as [->|]; [simplify_eq; lia|].
  rewrite <-(take_drop j l) in Hl.
  eapply (StronglySorted_app_1_elem_of ge_amount) in Hl; [exact Hl| |].
  - apply list_elem_of_lookup_2 with i. rewrite lookup_take_lt by lia. done.
  - apply list_elem_of_lookup_2 with 0%nat. rewrite lookup_drop. by rewrite Nat.add_0_r.
Qed.
Lemma desc_search x l : desc l → search_sorted (λ y, (amount x ?= amount y)%Z) l.
Proof.
  intros Hl i j y z Hij Hy Hz. pose proof (desc_lookup l i j y z Hl ltac:(lia) Hy Hz).
  rewrite !Z.compare_lt_iff, !Z.compare_gt_iff. lia.
Qed.

Lemma skip_equal_spec fuel a l i :
  (length l ≤ i + fuel)%nat → (i ≤ length l)%nat →
  let j := Nominations.skip_equal fuel a l i in
  (i ≤ j ≤ length l)%nat ∧
  (∀ k y, (i ≤ k < j)%nat → l !! k = Some y → amount y = a) ∧
  (∀ y, l !! j = Some y → amount y ≠ a).
Proof.
  revert i. induction fuel as [|fuel IH]; intros i Hf Hi; simpl.
  { split_and!; [lia|lia|lia|]. intros y Hy%lookup_lt_Some. lia. }
  destruct (l !! i) as [x|] eqn:Hx; simpl.
  - case_bool_decide as Hxa; simpl.
    + apply lookup_lt_Some in Hx as Hlt.
      destruct (IH (S i)) as (Hj&Heq&Hne); [lia|lia|].
      split_and!; [lia|lia| |done].
      intros k y Hk Hy. destruct (decide (k = i)) as [->|]; [by simplify_eq|].
      apply (Heq k y); [lia|done].
    + split_and!; [lia|lia|lia|]. congruence.
  - split_and!; [lia|lia|lia|]. congruence.
Qed.

(** Where the index of the search and the loop over equal amounts lands. *)
Lemma skip_equal_split l i x y :
  desc l → l !! i = Some y → amount y = amount x →
  let j := Nominations.skip_equal (length l) (amount x) l (S i) in
  (j ≤ length l)%nat ∧
  Forall (λ z, amount x <= amount z) (take j l) ∧
  Forall (λ z, amount z < amount x) (drop j l).
Proof.
  intros Hl Hy Hyx. apply lookup_lt_Some in Hy as Hlt.
  destruct (skip_equal_spec (length l) (amount x) l (S i)) as (Hj&Heq&Hne); [lia|lia|].
  cbv zeta. set (j := Nominations.skip_equal _ _ _ _) in *. split_and!; [lia| |].
  - apply Forall_take_lookup. intros k z Hk Hz. destruct (decide (k ≤ i)%nat).
    + pose proof (desc_lookup l k i z y Hl ltac:(lia) Hz Hy). lia.
    + rewrite (Heq k z); [lia|lia|done].
  - apply Forall_drop_lookup. intros k z Hk Hz. apply lookup_lt_Some in Hz as Hkl.
    destruct (lookup_lt_is_Some_2 l j) as [w Hw]; [lia|].
    pose proof (desc_lookup l i j y w Hl ltac:(lia) Hy Hw).
    pose proof (desc_lookup l j k w z Hl ltac:(lia) Hw Hz).
    specialize (Hne w Hw). lia.
Qed.

Lemma desc_last l y : desc l → last l = Some y → Forall (λ z, amount y <= amount z) l.
Proof.
  intros Hl. rewrite last_lookup. intros Hy. apply Forall_lookup_2. intros k z Hz.
  apply lookup_lt_Some in Hz as Hk.
  apply (desc_lookup l k (pred (length l)) z y Hl); [lia|done|done].
Qed.

(** Below capacity the vector code is the reference insertion. *)
Lemma insert_sorted_insert_desc l x :
  desc l → (length l < MaxNominations)%nat → Nominations.insert_sorted l x = insert_desc x l.
Proof.
  intros Hl Hcap. unfold Nominations.insert_sorted, try_push, try_insert_at.
  rewrite !bool_decide_true by done. destruct (last l) as [y|] eqn:Hlast; cycle 1.
  { apply last_None in Hlast as ->. done. }
  case_bool_decide as Hyx; simpl.
  { rewrite <-(app_nil_r l) at 2. rewrite insert_desc_split; [done| |constructor].
    rewrite <-Hyx. by apply desc_last. }
  pose proof (binary_search_by_split _ l (desc_search x l Hl)) as Hs.
  destruct (binary_search_by _ l) as [i|i].
  - destruct Hs as (l1&z&l2&El&Hi&Hz%Z.compare_eq). simpl.
    assert (l !! i = Some z) as Hlz by (by rewrite El, <-Hi, list_lookup_middle).
    destruct (skip_equal_split l i x z Hl Hlz ltac:(done)) as (Hj&Htake&Hdrop).
    set (j := Nominations.skip_equal _ _ _ _) in *.
    assert (vec_insert j x l = insert_desc x l) as Hins.
    { unfold vec_insert. rewrite <-(take_drop j l) at 3. by rewrite insert_desc_split. }
    case_bool_decide; simpl; [done|].
    rewrite <-Hins. unfold vec_insert. rewrite take_ge by lia. rewrite drop_ge by lia. done.
  - destruct Hs as (l1&l2&->&<-&Hlt&Hgt). simpl. rewrite vec_insert_app. symmetry.
    apply insert_desc_split.
    + eapply Forall_impl; [exact Hlt|]. intros z. simpl. rewrite Z.compare_lt_iff. lia.
    + eapply Forall_impl; [exact Hgt|]. intros z. simpl. rewrite Z.compare_gt_iff. lia.
Qed.

(** ** Sums *)

Lemma sum_amounts_app l1 l2 : sum_amounts (l1 ++ l2) = sum_amounts l1 + sum_amounts l2.
Proof. induction l1; simpl; lia. Qed.
#[export] Instance sum_amounts_perm : Proper ((≡ₚ) ==> (=)) sum_amounts.
Proof. intros l l' Hl. induction Hl; simpl; lia. Qed.
Lemma sum_amounts_nonneg l : Forall (λ x, 0 <= amount x) l → 0 <= sum_amounts l.
Proof. induction 1; simpl; lia. Qed.

Lemma sum_insert_desc x l : sum_amounts (insert_desc x l) = amount x + sum_amounts l.
Proof. by rewrite insert_desc_perm. Qed.
Lemma sum_middle l1 x l2 : sum_amounts (l1 ++ x :: l2) = amount x + sum_amounts (l1 ++ l2).
Proof. by rewrite <-Permutation_middle. Qed.
Lemma sum_snoc l x : sum_amounts (l ++ [x]) = sum_amounts l + amount x.
Proof. rewrite sum_amounts_app. simpl. lia. Qed.
Lemma sum_nil : sum_amounts [] = 0.
Proof. done. Qed.
Lemma sum_cons x l : sum_amounts (x :: l) = amount x + sum_amounts l.
Proof. done. Qed.
Create Rewrite HintDb sums.
#[global] Arguments sum_amounts : simpl never.
(** A bond with its amount changed. *)
Definition with_amount (x : Bond.t) (a : Balance) : Bond.t := Bond.mk (owner x) a.
Lemma amount_with_amount x a : amount (with_amount x a) = a.
Proof. done. Qed.
#[export] Hint Rewrite amount_with_amount sum_nil sum_insert_desc sum_snoc sum_cons sum_middle sum_amounts_app : sums.

(** ** Sorting, taking out, adjusting *)

Lemma sort_greatest_perm l : sort_by Nominations.cmp_greatest l ≡ₚ l.
Proof. apply sort_by_perm. Qed.
Lemma sort_greatest_sorted l : desc (sort_by Nominations.cmp_greatest l).
Proof.
  pose proof (sort_by_sorted Nominations.cmp_greatest) as Hs.
  assert (∀ x y, Nominations.cmp_greatest x y ≠ Gt ↔ ge_amount x y) as Hcmp.
  { intros x y. unfold Nominations.cmp_greatest, ge_amount. rewrite Z.compare_ngt_iff. lia. }
  eapply StronglySorted_impl; [|apply Hs].
  - intros x y. by rewrite Hcmp.
  - intros x y. unfold Nominations.cmp_greatest. rewrite Z.compare_gt_iff, Z.compare_ngt_iff. lia.
  - intros x y z. rewrite !Hcmp. unfold ge_amount. lia.
Qed.

Lemma sum_sort l : sum_amounts (sort_by Nominations.cmp_greatest l) = sum_amounts l.
Proof. by rewrite sort_greatest_perm. Qed.
Lemma length_sort l : length (sort_by Nominations.cmp_greatest l) = length l.
Proof. by rewrite sort_greatest_perm. Qed.
#[export] Hint Rewrite sum_sort : sums.

Section Taking.
Context (n : AccountId).
Implicit Types l : list Bond.t.

Lemma filter_others l : n ∉ owner <$> l → filter (λ d, owner d ≠ n) l = l.
Proof.
  induction l as [|x l IH]; [done|]. rewrite fmap_cons, not_elem_of_cons, filter_cons.
  intros [Hx Hl]. by rewrite decide_True, IH.
Qed.
Lemma filter_own l : n ∉ owner <$> l → filter (λ d, owner d = n) l = [].
Proof.
  induction l as [|x l IH]; [done|]. rewrite fmap_cons, not_elem_of_cons, filter_cons.
  intros [Hx Hl]. by rewrite decide_False, IH.
Qed.
Lemma map_others f l :
  n ∉ owner <$> l →
  ((λ d, if bool_decide (owner d = n) then Bond.mk (owner d) (f (amount d)) else d) <$> l) = l.
Proof.
  induction l as [|x l IH]; [done|]. rewrite fmap_cons, not_elem_of_cons, fmap_cons.
  intros [Hx Hl]. by rewrite bool_decide_false, IH.
Qed.

(** Whether the closures find a bond of [n]. *)
Lemma holds_spec l : Candidate.holds n l = true ↔ n ∈ owner <$> l.
Proof.
  unfold Candidate.holds. rewrite existsb_exists. setoid_rewrite bool_decide_eq_true.
  rewrite list_elem_of_fmap. setoid_rewrite <-list_elem_of_In. naive_solver.
Qed.
Lemma taken_None l : Candidate.taken n l = None ↔ n ∉ owner <$> l.
Proof.
  unfold Candidate.taken. rewrite last_None. split; [|apply filter_own].
  intros Hf (x&->&Hx)%list_elem_of_fmap.
  apply (not_elem_of_nil x). rewrite <-Hf. by apply list_elem_of_filter.
Qed.

(** With distinct owners they see one bond, and leave the others alone. *)
Lemma split_owner l :
  NoDup (owner <$> l) → n ∈ owner <$> l →
  ∃ l1 x l2, l = l1 ++ x :: l2 ∧ owner x = n ∧ n ∉ owner <$> (l1 ++ l2).
Proof.
  intros Hnd (x&->&(l1&l2&->)%list_elem_of_split)%list_elem_of_fmap.
  exists l1, x, l2. split_and!; [done|done|].
  rewrite fmap_app, fmap_cons in Hnd. rewrite fmap_app.
  rewrite <-Permutation_middle in Hnd. by apply NoDup_cons in Hnd as [? _].
Qed.
Lemma taken_middle l1 x l2 :
  owner x = n → n ∉ owner <$> (l1 ++ l2) → Candidate.taken n (l1 ++ x :: l2) = Some x.
Proof.
  rewrite fmap_app, not_elem_of_app. intros Hx [H1 H2]. unfold Candidate.taken.
  rewrite filter_app, filter_cons, decide_True by done.
  by rewrite (filter_own l1), (filter_own l2).
Qed.
Lemma without_middle l1 x l2 :
  owner x = n → n ∉ owner <$> (l1 ++ l2) →
  (length (l1 ++ x :: l2) ≤ MaxNominations)%nat →
  Candidate.without n (l1 ++ x :: l2) = l1 ++ l2.
Proof.
  rewrite fmap_app, not_elem_of_app. intros Hx [H1 H2]. unfold Candidate.without.
  rewrite filter_app, filter_cons, decide_False by auto.
  rewrite (filter_others l1), (filter_others l2) by done.
  rewrite !length_app. intros. apply take_ge. rewrite length_app. simpl in *. lia.
Qed.
Lemma adjust_middle f l1 x l2 :
  owner x = n → n ∉ owner <$> (l1 ++ l2) →
  (length (l1 ++ x :: l2) ≤ MaxNominations)%nat →
  Candidate.adjust n f (l1 ++ x :: l2) = l1 ++ Bond.mk n (f (amount x)) :: l2.
Proof.
  rewrite fmap_app, not_elem_of_app. intros Hx [H1 H2] Hlen. unfold Candidate.adjust.
  rewrite take_ge by (by rewrite length_fmap).
  rewrite fmap_app, fmap_cons, bool_decide_true by done.
  by rewrite map_others, map_others, Hx.
Qed.
Lemma own_middle l1 x l2 :
  owner x = n → n ∉ owner <$> (l1 ++ l2) →
  filter (λ d, owner d = n) (l1 ++ x :: l2) = [x].
Proof.
  rewrite fmap_app, not_elem_of_app. intros Hx [H1 H2].
  rewrite filter_app, filter_cons, decide_True by done.
  by rewrite (filter_own l1), (filter_own l2).
Qed.
End Taking.

Lemma pop_snoc l x : Candidate.pop (l ++ [x]) = Some (x, l).
Proof.
  unfold Candidate.pop. rewrite last_snoc. simpl. do 2 f_equal.
  rewrite length_app. simpl. rewrite Nat.add_1_r. simpl. apply take_app_length.
Qed.
Lemma snoc_cases (l : list Bond.t) : (0 < length l)%nat → ∃ l0 x, l = l0 ++ [x].
Proof. destruct l using rev_ind; simpl; [lia|eauto]. Qed.

(** ** The two lists of a candidate *)

(** The top holds the greatest nominations: it is filled first, and no bottom
    nomination exceeds a top one. *)
Record lists_ok `{Config} (top bottom : list Bond.t) : Prop := {
  lo_top_sorted : desc top;
  lo_bottom_sorted : desc bottom;
  lo_top_cap : (length top ≤ MaxTopNominationsPerCandidate)%nat;
  lo_bottom_cap : (length bottom ≤ MaxBottomNominationsPerCandidate)%nat;
  lo_top_first : bottom ≠ [] → length top = MaxTopNominationsPerCandidate;
  lo_split : ∀ x y, x ∈ top → y ∈ bottom → amount y <= amount x;
  lo_owners : NoDup (owner <$> top ++ bottom);
  lo_amounts : Forall (λ x, 0 <= amount x) (top ++ bottom);
}.

(** A value [v] between the lists shows the split. *)
Lemma split_by (v : Z) (top bottom : list Bond.t) :
  Forall (λ x, v <= amount x) top → Forall (λ y, amount y <= v) bottom →
  ∀ x y, x ∈ top → y ∈ bottom → amount y <= amount x.
Proof.
  rewrite !Forall_forall. intros Ht Hb x y Hx Hy.
  specialize (Ht x Hx). specialize (Hb y Hy). simpl in *. lia.
Qed.

Create HintDb staking discriminated.
#[export] Hint Resolve insert_desc_sorted sort_greatest_sorted : staking.
#[export] Hint Constructors StronglySorted : staking.

Section Lists.
Context `{ConfigOk}.
Implicit Types (top bottom : list Bond.t) (x y : Bond.t).

Lemma lo_split_last top y bottom :
  lists_ok (top ++ [y]) bottom →
  Forall (λ z, amount y <= amount z) top ∧ Forall (λ z, amount z <= amount y) bottom.
Proof.
  intros Hok. split.
  - pose proof (desc_last _ y (lo_top_sorted _ _ Hok)) as Hl. rewrite last_snoc in Hl.
    by specialize (Hl eq_refl) as [? _]%Forall_app.
  - apply Forall_forall. intros z Hz. apply (lo_split _ _ Hok y z); set_solver.
Qed.
Lemma lo_split_head top h bottom :
  lists_ok top (h :: bottom) →
  Forall (λ z, amount h <= amount z) top ∧ Forall (λ z, amount z <= amount h) bottom.
Proof.
  intros Hok. split.
  - apply Forall_forall. intros z Hz. apply (lo_split _ _ Hok z h); set_solver.
  - pose proof (lo_bottom_sorted _ _ Hok) as Hb. by apply StronglySorted_inv in Hb as [_ ?].
Qed.
Lemma lo_bottom_nil top bottom :
  lists_ok top bottom → (length top < MaxTopNominationsPerCandidate)%nat → bottom = [].
Proof.
  intros Hok Hlt. destruct bottom; [done|].
  rewrite (lo_top_first _ _ Hok) in Hlt by done. lia.
Qed.
Lemma lo_top_snoc top y bottom :
  lists_ok (top ++ [y]) bottom → desc top ∧ 0 <= amount y ∧ 0 <= sum_amounts top.
Proof.
  intros Hok. pose proof (lo_amounts _ _ Hok) as [[? Hy]%Forall_app _]%Forall_app.
  apply Forall_inv in Hy. simpl in Hy. split_and!; [|done|by apply sum_amounts_nonneg].
  by eapply StronglySorted_app_1_l, Hok.
Qed.
Lemma lo_bottom_snoc top bottom k :
  lists_ok top (bottom ++ [k]) → desc bottom ∧ 0 <= amount k ∧ 0 <= sum_amounts bottom.
Proof.
  intros Hok. pose proof (lo_amounts _ _ Hok) as [_ [? Hk]%Forall_app]%Forall_app.
  apply Forall_inv in Hk. simpl in Hk. split_and!; [|done|by apply sum_amounts_nonneg].
  by eapply StronglySorted_app_1_l, Hok.
Qed.
Lemma lo_top_middle l1 x l2 bottom :
  lists_ok (l1 ++ x :: l2) bottom →
  desc (l1 ++ l2) ∧ 0 <= amount x ∧ 0 <= sum_amounts (l1 ++ l2).
Proof.
  intros Hok. pose proof (lo_amounts _ _ Hok) as [Ham _]%Forall_app.
  rewrite <-Permutation_middle in Ham. apply Forall_cons in Ham as [Hx ?].
  split_and!; [|done|by apply sum_amounts_nonneg]. by eapply desc_remove, Hok.
Qed.
Lemma lo_bottom_middle top l1 x l2 :
  lists_ok top (l1 ++ x :: l2) →
  desc (l1 ++ l2) ∧ 0 <= amount x ∧ 0 <= sum_amounts (l1 ++ l2).
Proof.
  intros Hok. pose proof (lo_amounts _ _ Hok) as [_ Ham]%Forall_app.
  rewrite <-Permutation_middle in Ham. apply Forall_cons in Ham as [Hx ?].
  split_and!; [|done|by apply sum_amounts_nonneg]. by eapply desc_remove, Hok.
Qed.
Lemma lists_ok_nil : lists_ok [] [].
Proof. by split; try constructor; simpl; try lia; try set_solver. Qed.

(** Adding below the top's capacity. *)
Lemma lists_ok_add_top top bottom x :
  lists_ok top bottom → (length top < MaxTopNominationsPerCandidate)%nat →
  owner x ∉ owner <$> (top ++ bottom) → 0 <= amount x →
  lists_ok (insert_desc x top) bottom.
Proof.
  intros Hok Hlt Hx Ha. pose proof (lo_bottom_nil _ _ Hok Hlt) as ->. destruct Hok.
  split; rewrite ?insert_desc_length, ?insert_desc_perm; auto with staking.
  - done.
  - set_solver.
  - rewrite <-app_comm_cons, fmap_cons. apply NoDup_cons; auto.
  - rewrite <-app_comm_cons. by constructor.
Qed.

(** Adding to a full top: its lowest nomination [y] moves to the bottom,
    which may have lost its own lowest one before. *)
Lemma lists_ok_bump top y bottom x :
  lists_ok (top ++ [y]) bottom → length (top ++ [y]) = MaxTopNominationsPerCandidate →
  (length bottom < MaxBottomNominationsPerCandidate)%nat →
  amount y < amount x → owner x ∉ owner <$> ((top ++ [y]) ++ bottom) →
  lists_ok (insert_desc x top) (insert_desc y bottom).
Proof.
  intros Hok Hfull Hcap Hlt Hx. destruct (lo_split_last _ _ _ Hok) as [Hty Hby].
  assert (Hp : insert_desc x top ++ insert_desc y bottom ≡ₚ x :: (top ++ [y]) ++ bottom)
    by (rewrite !insert_desc_perm; simpl; by rewrite <-app_assoc).
  destruct Hok as [Hts Hbs _ _ _ _ Hnd Ham]. apply StronglySorted_app_1_l in Hts.
  assert (0 <= amount y) by (rewrite Forall_forall in Ham; apply Ham; set_solver).
  rewrite length_app in Hfull. simpl in Hfull.
  split; rewrite ?insert_desc_length, ?Hp; auto with staking; [lia|lia| | |].
  - apply (split_by (amount y)); rewrite insert_desc_perm; constructor; auto; lia.
  - simpl. apply NoDup_cons; auto.
  - constructor; [lia|done].
Qed.

(** Adding to the bottom of a full top. *)
Lemma lists_ok_add_bottom top bottom x :
  lists_ok top bottom → length top = MaxTopNominationsPerCandidate →
  (length bottom < MaxBottomNominationsPerCandidate)%nat →
  Forall (λ y, amount x <= amount y) top → 0 <= amount x →
  owner x ∉ owner <$> (top ++ bottom) →
  lists_ok top (insert_desc x bottom).
Proof.
  intros Hok Hfull Hcap Hle Ha Hx. destruct Hok as [Hts Hbs _ _ _ Hsp Hnd Ham].
  rewrite Forall_forall in Hle.
  split; rewrite ?insert_desc_length; auto with staking; [lia| | |].
  - intros y z Hy. rewrite insert_desc_perm, elem_of_cons. intros [->|]; auto.
  - rewrite insert_desc_perm, <-Permutation_middle. simpl. apply NoDup_cons; auto.
  - rewrite insert_desc_perm, <-Permutation_middle. by constructor.
Qed.

(** Losing the lowest bottom nomination. *)
Lemma lists_ok_kick top bottom k : lists_ok top (bottom ++ [k]) → lists_ok top bottom.
Proof.
  intros [Hts Hbs ? Hcap Hfirst Hsplit Hnd Ham].
  rewrite length_app in Hcap. rewrite app_assoc in Hnd, Ham.
  rewrite fmap_app in Hnd. apply NoDup_app in Hnd as (?&_&_).
  apply Forall_app in Ham as [? _].
  split; auto; [by eapply StronglySorted_app_1_l|lia| |set_solver].
  intros _. apply Hfirst. by destruct bottom.
Qed.

(** Removing from the top, with and without a bottom nomination to replace it. *)
Lemma lists_ok_rm_top l1 x l2 : lists_ok (l1 ++ x :: l2) [] → lists_ok (l1 ++ l2) [].
Proof.
  intros [Hts Hbs Hcap ? _ _ Hnd Ham].
  rewrite app_nil_r, <-Permutation_middle in Hnd, Ham. simpl in Hnd.
  apply NoDup_cons in Hnd as [_ ?]. apply Forall_cons in Ham as [_ ?].
  rewrite length_app in Hcap. simpl in Hcap.
  split; rewrite ?app_nil_r, ?length_app; auto; [|lia|done|set_solver].
  by eapply desc_remove.
Qed.
Lemma lists_ok_rm_top_bump l1 x l2 h bottom :
  lists_ok (l1 ++ x :: l2) (h :: bottom) → lists_ok (insert_desc h (l1 ++ l2)) bottom.
Proof.
  intros Hok. destruct (lo_split_head _ _ _ Hok) as [Hth Hbh].
  destruct Hok as [Hts Hbs Hcap Hbcap Hfirst _ Hnd Ham].
  assert (Hp : (l1 ++ x :: l2) ++ h :: bottom ≡ₚ x :: insert_desc h (l1 ++ l2) ++ bottom).
  { rewrite insert_desc_perm. solve_perm. }
  rewrite Hp in Hnd, Ham. apply NoDup_cons in Hnd as [_ ?]. apply Forall_cons in Ham as [_ ?].
  rewrite <-Permutation_middle in Hth. apply Forall_cons in Hth as [_ Hth].
  apply StronglySorted_inv in Hbs as [Hbs _]. specialize (Hfirst ltac:(done)).
  rewrite !length_app in *. simpl in *.
  split; rewrite ?insert_desc_length, ?length_app; auto; [|lia|lia|intros; lia|].
  - apply insert_desc_sorted. by eapply desc_remove.
  - apply (split_by (amount h)); [rewrite insert_desc_perm; by constructor|done].
Qed.
Lemma lists_ok_rm_bottom top l1 x l2 : lists_ok top (l1 ++ x :: l2) → lists_ok top (l1 ++ l2).
Proof.
  intros [Hts Hbs ? Hcap Hfirst Hsplit Hnd Ham].
  rewrite (app_assoc top), <-Permutation_middle, <-app_assoc in Hnd, Ham.
  apply NoDup_cons in Hnd as [_ ?]. apply Forall_cons in Ham as [_ ?].
  rewrite length_app in Hcap. simpl in Hcap.
  split; rewrite ?length_app; auto; [by eapply desc_remove|lia| |set_solver].
  intros _. apply Hfirst. by destruct l1.
Qed.

(** Changing an amount within the top, within the bottom. *)
Lemma lists_ok_replace_top l1 x l2 bottom a top' :
  lists_ok (l1 ++ x :: l2) bottom → 0 <= a → Forall (λ y, amount y <= a) bottom →
  desc top' → top' ≡ₚ l1 ++ Bond.mk (owner x) a :: l2 → lists_ok top' bottom.
Proof.
  intros [_ ? ? ? ? Hsplit Hnd Ham] Ha Hb Hs Hp. rewrite Forall_forall in Hb.
  rewrite length_app in *. simpl in *.
  split; auto; rewrite ?Hp, ?length_app; simpl; auto.
  - intros y z. rewrite Hp. intros [?|[->|?]%elem_of_cons]%elem_of_app ?; simpl; auto;
      apply Hsplit; set_solver.
  - revert Hnd. by rewrite !fmap_app, !fmap_cons.
  - rewrite <-app_assoc in *. simpl in *. rewrite <-Permutation_middle in Ham |- *.
    apply Forall_cons in Ham as [_ ?]. by constructor.
Qed.
Lemma lists_ok_replace_bottom top l1 x l2 a bottom' :
  lists_ok top (l1 ++ x :: l2) → 0 <= a → Forall (λ y, a <= amount y) top →
  desc bottom' → bottom' ≡ₚ l1 ++ Bond.mk (owner x) a :: l2 → lists_ok top bottom'.
Proof.
  intros [? _ ? ? Hfirst Hsplit Hnd Ham] Ha Hb Hs Hp. rewrite Forall_forall in Hb.
  rewrite length_app in *. simpl in *.
  split; auto; rewrite ?Hp, ?length_app; simpl; auto.
  - intros _. apply Hfirst. by destruct l1.
  - intros y z ?. rewrite Hp. intros [?|[->|?]%elem_of_cons]%elem_of_app; simpl; auto;
      apply Hsplit; set_solver.
  - revert Hnd. by rewrite !fmap_app, !fmap_cons.
  - rewrite app_assoc in *. rewrite <-Permutation_middle in Ham |- *.
    apply Forall_cons in Ham as [_ ?]. by constructor.
Qed.
End Lists.

(** Where a nomination is, from its amount. *)
Lemma lo_owners_top `{Config} top bottom n :
  lists_ok top bottom → n ∈ owner <$> top → n ∉ owner <$> bottom.
Proof.
  intros Hok Hn. pose proof (lo_owners _ _ Hok) as Hnd. rewrite fmap_app in Hnd.
  apply NoDup_app in Hnd as (_&Hd&_). by apply Hd.
Qed.
Lemma lo_top_nodup `{Config} top bottom : lists_ok top bottom → NoDup (owner <$> top).
Proof. intros Hok. pose proof (lo_owners _ _ Hok) as Hnd. rewrite fmap_app in Hnd. by apply NoDup_app in Hnd as (?&_). Qed.
Lemma lo_bottom_nodup `{Config} top bottom : lists_ok top bottom → NoDup (owner <$> bottom).
Proof. intros Hok. pose proof (lo_owners _ _ Hok) as Hnd. rewrite fmap_app in Hnd. by apply NoDup_app in Hnd as (_&_&?). Qed.

(** ** The top is the best choice *)

Lemma sum_upper v (l : list Bond.t) :
  Forall (λ x, amount x <= v) l → sum_amounts l <= v * Z.of_nat (length l).
Proof. induction 1; rewrite ?sum_nil, ?sum_cons; cbn [length]; lia. Qed.
Lemma sum_lower v (l : list Bond.t) :
  Forall (λ x, v <= amount x) l → v * Z.of_nat (length l) <= sum_amounts l.
Proof. induction 1; rewrite ?sum_nil, ?sum_cons; cbn [length]; lia. Qed.

(** No other choice of as many nominations backs the candidate with more. *)
Lemma lists_ok_optimal `{ConfigOk} top bottom l :
  lists_ok top bottom → l ⊆+ top ++ bottom →
  (length l ≤ MaxTopNominationsPerCandidate)%nat → sum_amounts l <= sum_amounts top.
Proof.
  intros Hok (k1&k2&Hl&Hk1&Hk2)%submseteq_app_r Hlen. rewrite Hl in *.
  apply submseteq_Permutation in Hk1 as [r Hr].
  pose proof (lo_amounts _ _ Hok) as [Hat Hab]%Forall_app. rewrite Hr in Hat |- *.
  apply Forall_app in Hat as [_ Hat]. rewrite !sum_amounts_app.
  apply Zplus_le_compat_l. destruct bottom as [|h bl].
  { apply submseteq_nil_r in Hk2 as ->. by apply sum_amounts_nonneg. }
  pose proof (lo_top_first _ _ Hok ltac:(done)) as Hfull. rewrite Hr, length_app in Hfull.
  rewrite length_app in Hlen. destruct (lo_split_head _ _ _ Hok) as [Htop Hbot].
  assert (Forall (λ x, amount x <= amount h) k2) as H2.
  { apply Forall_forall. intros x Hx. apply (elem_of_submseteq _ _ _ Hx) in Hk2.
    apply elem_of_cons in Hk2 as [->|Hk2]; [done|]. rewrite Forall_forall in Hbot. by apply Hbot. }
  rewrite Hr in Htop. apply Forall_app in Htop as [_ Htop].
  apply sum_upper in H2. apply sum_lower in Htop. apply Forall_cons in Hab as [? _]. nia.
Qed.
