(* ===== verification/BondSets.v ===== *)
(** * Sets of bonds as finite maps

    The candidate pool and the nominations of a nominator are
    [BoundedOrderedSet]s of [Bond]s, which compare by their owner: a finite
    map from owners to amounts.  [bond_map] is that map; the operations on the
    vectors refine the operations on it. *)

From S2P Require Import Prelude Slices Sets StakingConfig StakingTypes StakingState.
From S2P Require Import NominatorOps CandidateOps NominationLists.

#[export] Instance Bond_ord_laws : OrdLaws Bond.t.
Proof.
  split; unfold ord_cmp, Bond.ord, Bond.cmp.
  - intros x y. apply N.compare_antisym.
  - intros x y z. rewrite !N.compare_lt_iff. lia.
  - by intros x y z ->%N.compare_eq.
Qed.

Definition bond_map (l : list Bond.t) : gmap AccountId Balance :=
  list_to_map ((λ b, (owner b, amount b)) <$> l).
#[global] Arguments bond_map : simpl never.

Lemma ord_cmp_bond (x y : Bond.t) : ord_cmp x y = Eq ↔ owner x = owner y.
Proof. apply N.compare_eq_iff. Qed.
Lemma ord_lt_bond (x y : Bond.t) : ord_lt x y ↔ (owner x < owner y)%N.
Proof. apply N.compare_lt_iff. Qed.
Lemma member_bond (b : Bond.t) l : member b l ↔ owner b ∈ owner <$> l.
Proof.
  unfold member. setoid_rewrite ord_cmp_bond. rewrite list_elem_of_fmap. naive_solver.
Qed.
Lemma set_ok_owners (l : list Bond.t) : set_ok l → NoDup (owner <$> l).
Proof.
  induction 1 as [|x l Hl IH Hx]; simpl; constructor; [|done].
  rewrite list_elem_of_fmap. intros (y&Hxy&Hy). rewrite Forall_forall in Hx.
  apply Hx in Hy. rewrite ord_lt_bond in Hy. lia.
Qed.

Lemma bond_map_nil : bond_map [] = ∅.
Proof. done. Qed.
Lemma bond_map_cons b l : bond_map (b :: l) = <[owner b := amount b]> (bond_map l).
Proof. done. Qed.
Lemma bond_map_fst (l : list Bond.t) : ((λ b, (owner b, amount b)) <$> l).*1 = owner <$> l.
Proof. rewrite <-list_fmap_compose. done. Qed.
Lemma bond_map_None l c : bond_map l !! c = None ↔ c ∉ owner <$> l.
Proof. unfold bond_map. by rewrite <-not_elem_of_list_to_map, bond_map_fst. Qed.
Lemma bond_map_is_Some l c : is_Some (bond_map l !! c) ↔ c ∈ owner <$> l.
Proof. rewrite <-not_eq_None_Some, bond_map_None. split; [apply dec_stable|auto]. Qed.
Lemma bond_map_lookup l c a :
  NoDup (owner <$> l) → bond_map l !! c = Some a ↔ Bond.mk c a ∈ l.
Proof.
  intros Hnd. unfold bond_map. rewrite <-elem_of_list_to_map by (by rewrite bond_map_fst).
  rewrite list_elem_of_fmap. split.
  - intros ([]&[= -> ->]&?). done.
  - intros ?. by exists (Bond.mk c a).
Qed.
Lemma bond_map_perm l l' : NoDup (owner <$> l) → l ≡ₚ l' → bond_map l = bond_map l'.
Proof.
  intros Hnd Hp. apply list_to_map_proper; [by rewrite bond_map_fst|by rewrite Hp].
Qed.
Lemma bond_map_size l : NoDup (owner <$> l) → size (bond_map l) = length l.
Proof.
  intros Hnd. unfold bond_map. rewrite map_size_list_to_map by (by rewrite bond_map_fst).
  by rewrite length_fmap.
Qed.
Lemma bond_map_filter c l : bond_map (filter (λ b, owner b ≠ c) l) = delete c (bond_map l).
Proof.
  induction l as [|b l IH]; [by rewrite bond_map_nil, delete_empty|].
  rewrite filter_cons, bond_map_cons. case_decide as Hb.
  - by rewrite bond_map_cons, IH, delete_insert_ne.
  - subst c. by rewrite IH, delete_insert_eq.
Qed.

(** ** The operations on the vector *)

Lemma bond_map_try_insert cap b l :
  set_ok l →
  let r := BoundedOrderedSet.try_insert cap b l in
  set_ok r.2 ∧
  r = (if bool_decide (owner b ∈ owner <$> l) then (Some false, l)
       else if bool_decide (length l < cap)%nat then (Some true, r.2) else (None, l)) ∧
  (r.1 = Some true →
   r.2 ≡ₚ b :: l ∧ bond_map r.2 = <[owner b := amount b]> (bond_map l)).
Proof.
  intros Hl r. pose proof (try_insert_spec cap b l Hl) as Hs. fold r in Hs.
  destruct r as [[[]|] l']; rewrite member_bond in Hs; simpl.
  - destruct Hs as (Hm&Hlen&Hok&Hp). rewrite bool_decide_false, bool_decide_true by done.
    split_and!; [done|done|]. intros _. split; [done|].
    rewrite <-bond_map_cons. by apply bond_map_perm; [apply set_ok_owners|].
  - destruct Hs as [Hm ->]. by rewrite bool_decide_true.
  - destruct Hs as (Hm&Hlen&->). rewrite bool_decide_false, bool_decide_false by (done || lia).
    done.
Qed.
Lemma bond_map_remove b l :
  set_ok l →
  let r := BoundedOrderedSet.remove b l in
  set_ok r.2 ∧ r.1 = bool_decide (owner b ∈ owner <$> l) ∧
  bond_map r.2 = delete (owner b) (bond_map l) ∧
  length r.2 = (length l - if r.1 then 1 else 0)%nat.
Proof.
  intros Hl r. pose proof (remove_spec b l Hl) as Hs. fold r in Hs.
  destruct r as [[] l']; simpl.
  - destruct Hs as (y&Hy%ord_cmp_bond&Hp&Hok&Hm). rewrite member_bond in Hm.
    rewrite bool_decide_true by (rewrite Hp; set_solver).
    split_and!; [done|done| |by rewrite Hp; simpl; lia].
    rewrite (bond_map_perm _ _ (set_ok_owners _ Hl) Hp), bond_map_cons, Hy.
    rewrite delete_insert_id; [done|by apply bond_map_None].
  - destruct Hs as [Hm ->]. rewrite member_bond in Hm. rewrite bool_decide_false by done.
    split_and!; [done|done| |lia]. rewrite delete_id; [done|by apply bond_map_None].
Qed.
Lemma remove_absent c (l : list Bond.t) :
  set_ok l → c ∉ owner <$> l → (BoundedOrderedSet.remove (Bond.from_owner c) l).2 = l.
Proof.
  intros Hl Hc. pose proof (remove_spec (Bond.from_owner c) l Hl) as Hs.
  destruct (BoundedOrderedSet.remove _ l) as [[] l']; [|by destruct Hs].
  destruct Hs as (y&Hy%ord_cmp_bond&Hp&_). destruct Hc. rewrite Hp. simpl in *. set_solver.
Qed.

Section Pool.
Context `{ConfigOk}.

(** [update_active] stores the new total of a pooled candidate, adds one that
    is not pooled while there is room, and otherwise changes nothing. *)
Lemma pool_update_spec c total pool :
  set_ok pool →
  set_ok (pool_update c total pool) ∧
  (c ∈ owner <$> pool ∧ (length pool ≤ MaxCandidates)%nat ∨ (length pool < MaxCandidates)%nat →
   bond_map (pool_update c total pool) = <[c := total]> (bond_map pool)) ∧
  (c ∉ owner <$> pool → (MaxCandidates ≤ length pool)%nat → pool_update c total pool = pool).
Proof.
  intros Hl. unfold pool_update.
  destruct (bond_map_remove (Bond.from_owner c) pool Hl) as (Hok&Hr&Hm&Hlen). simpl in *.
  set (r := BoundedOrderedSet.remove _ pool) in *.
  assert (c ∉ owner <$> r.2) as Hc by (apply bond_map_None; rewrite Hm; apply lookup_delete_eq).
  destruct (bond_map_try_insert MaxCandidates (Bond.mk c total) r.2 Hok) as (Hok'&Hi&Hins).
  simpl in *. rewrite (bool_decide_false (c ∈ _)) in Hi by done. split_and!; [done| |].
  - intros Hroom. rewrite bool_decide_true in Hi; cycle 1.
    { rewrite Hlen. destruct Hroom as [[Hin ?]|?]; [|lia].
      rewrite Hr, bool_decide_true by done. apply list_elem_of_fmap in Hin as (?&_&Hin).
      destruct pool; [set_solver|]. simpl in *. lia. }
    destruct Hins as [_ ->]; [by rewrite Hi|]. rewrite Hm. apply insert_delete_eq.
  - intros Hnin Hfull. pose proof (remove_absent c pool Hl Hnin) as Hrem. fold r in Hrem.
    rewrite bool_decide_false in Hi by (rewrite Hrem; lia). by rewrite Hi.
Qed.
End Pool.

(** ** The nominations of a nominator *)

Lemma try_insert_snoc cap (l : list Bond.t) x :
  set_ok (l ++ [x]) → (length l < cap)%nat →
  BoundedOrderedSet.try_insert cap x l = (Some true, l ++ [x]).
Proof.
  intros Hl Hcap. unfold BoundedOrderedSet.try_insert.
  assert (set_ok l) as Hl' by (by eapply StronglySorted_app_1_l).
  assert (Forall (λ y, ord_cmp y x = Lt) l) as Hlt.
  { apply Forall_forall. intros y Hy.
    apply (StronglySorted_app_1_elem_of ord_lt l [x] y x Hl Hy). set_solver. }
  pose proof (binary_search_set x l Hl') as Hs. destruct (binary_search x l).
  - destruct Hs as (l1&y&l2&->&_&Hy). rewrite Forall_forall in Hlt.
    rewrite (Hlt y) in Hy; [done|set_solver].
  - destruct Hs as (l1&l2&->&<-&_&Hgt). destruct Hgt as [|y l2 Hy].
    + unfold try_insert_at. rewrite bool_decide_true by done.
      by rewrite vec_insert_app, app_nil_r.
    + rewrite Forall_forall in Hlt. rewrite (Hlt y) in Hy; [done|set_solver].
Qed.
Lemma rm_loop_spec c l acc amt :
  set_ok (acc ++ l) → (length (acc ++ l) ≤ MaxCloneableNominations)%nat →
  Nominator.rm_loop c l acc amt =
    Some (acc ++ filter (λ b, owner b ≠ c) l,
          if bool_decide (c ∈ owner <$> l) then bond_map l !! c else amt).
Proof.
  revert acc amt. induction l as [|x l IH]; intros acc amt Hok Hlen; cbn [Nominator.rm_loop].
  { by rewrite app_nil_r. }
  rewrite filter_cons, bond_map_cons. destruct (decide (owner x = c)) as [Hx|Hx].
  - rewrite (bool_decide_true (owner x = c)) by done.
    rewrite IH; [|by eapply set_ok_delete|rewrite length_app in *; simpl in *; lia].
    rewrite decide_False by auto. do 2 f_equal.
    assert (c ∉ owner <$> l) as Hc.
    { apply set_ok_owners in Hok. rewrite fmap_app in Hok. apply NoDup_app in Hok as (_&_&Hnd).
      simpl in Hnd. apply NoDup_cons in Hnd as [? _]. by rewrite <-Hx. }
    rewrite bool_decide_false, bool_decide_true by set_solver. by rewrite <-Hx, lookup_insert_eq.
  - rewrite (bool_decide_false (owner x = c)) by done.
    replace (acc ++ x :: l) with ((acc ++ [x]) ++ l) in Hok, Hlen by (by rewrite <-app_assoc).
    rewrite try_insert_snoc; [|by eapply StronglySorted_app_1_l|rewrite !length_app in Hlen; simpl in *; lia].
    rewrite IH by done. rewrite decide_True by done. rewrite <-app_assoc. simpl.
    rewrite lookup_insert_ne by done. do 2 f_equal.
    case_bool_decide; case_bool_decide; set_solver.
Qed.

(** * Nominators: the effect of losing a nomination

    Reference descriptions of what [Nominator::rm_nomination] and
    [nomination_remove_request_with_state] do to a nominator state and to
    storage, and the runs that meet them. *)

Section Nominators.
Context `{Config}.
Implicit Types (c n : AccountId) (st : Nominator.t) (s : Storage.t).

(** The lock of a nominator holds its total stake. *)
Definition lock_nominator st s : Storage.t :=
  Storage.upd_Balances
    (if bool_decide (Nominator.total st = 0)
     then remove_lock NOMINATOR_LOCK_ID (Nominator.id st)
     else set_lock NOMINATOR_LOCK_ID (Nominator.id st) (Nominator.total st)) s.

(** The state without its nomination of [c], worth [a]. *)
Definition nominator_without c (a : Balance) st : Nominator.t :=
  Nominator.set_total (Nominator.total st ⊖ a)
    (Nominator.set_nominations (filter (λ b, owner b ≠ c) (Nominator.nominations st)) st).

(** The request of [n] towards [c]. *)
Definition request_index c n s : option nat :=
  position (λ req, bool_decide (ScheduledRequest.nominator req = n)) (scheduled_requests c s).
Definition request_of c n s : option ScheduledRequest.t :=
  i ← request_index c n s; scheduled_requests c s !! i.
Definition drop_request c n s : Storage.t :=
  match request_index c n s with
  | Some i => Storage.upd_NominationScheduledRequests
                (insert c (delete i (scheduled_requests c s))) s
  | None => s
  end.
Definition without_request c n s st : Nominator.t :=
  match request_of c n s with
  | Some req =>
      Nominator.set_less_total
        (Nominator.less_total st ⊖ NominationAction.amount (ScheduledRequest.action req)) st
  | None => st
  end.

Lemma adjust_bond_lock_decrease st s :
  adjust_bond_lock st Decrease s = (Ok (), lock_nominator st s).
Proof.
  unfold adjust_bond_lock, lock_nominator, mbind, M_bind, mret, M_ret.
  by case_bool_decide.
Qed.
Lemma total_sub_run a st s :
  total_sub a st s =
    (Ok (Nominator.set_total (Nominator.total st ⊖ a) st),
     lock_nominator (Nominator.set_total (Nominator.total st ⊖ a) st) s).
Proof. unfold total_sub, mbind, M_bind. by rewrite adjust_bond_lock_decrease. Qed.

(** [rm_nomination] on a well-formed state. *)
Lemma rm_nomination_run c st s :
  set_ok (Nominator.nominations st) →
  (length (Nominator.nominations st) ≤ MaxCloneableNominations)%nat →
  rm_nomination c st s =
    match bond_map (Nominator.nominations st) !! c with
    | Some a =>
        let st' := nominator_without c a st in
        (Ok (Some (Nominator.total st'), st'), lock_nominator st' s)
    | None => (Ok (None, st), s)
    end.
Proof.
  intros Hok Hlen. unfold rm_nomination. unfold BoundedOrderedSet.new.
  rewrite rm_loop_spec by done. cbn [app].
  assert (∀ A B : Type, ∀ (x : A) (k : A → Dispatch B) s, (mret x ≫= k) s = k x s) as Hb by done.
  cbn [expect]. rewrite Hb. case_bool_decide as Hc.
  - destruct (bond_map _ !! c) as [a|] eqn:Ha; cycle 1.
    { by apply bond_map_None in Ha. }
    unfold mbind, M_bind, expect_ok. rewrite total_sub_run. done.
  - apply bond_map_None in Hc. by rewrite Hc.
Qed.

Lemma remove_request_run c n st s :
  nomination_remove_request_with_state c n st s =
    (Ok (without_request c n s st), drop_request c n s).
Proof.
  unfold nomination_remove_request_with_state, without_request, drop_request, request_of.
  unfold mbind, M_bind, gets, request_index.
  destruct (position _ (scheduled_requests c s)) as [i|] eqn:Hi; [|done].
  apply position_Some in Hi as (l1&x&l2&El&<-&_). simpl. rewrite El, list_lookup_middle by done.
  done.
Qed.

(** ** The kick of a bottom nomination *)

(** [b]'s owner has a well-formed state that holds the nomination of [c]. *)
Definition backs c (b : Bond.t) s : Prop :=
  ∃ st, Storage.NominatorState s !! owner b = Some st ∧
    set_ok (Nominator.nominations st) ∧
    (length (Nominator.nominations st) ≤ MaxCloneableNominations)%nat ∧
    bond_map (Nominator.nominations st) !! c = Some (amount b).

(** Storage after [k] lost its place in [c]'s bottom: the nomination, its lock
    and its pending request are gone, and the nominator too if that was its
    only nomination. *)
Definition kick_effect c (k : Bond.t) s : Storage.t :=
  match Storage.NominatorState s !! owner k with
  | None => s
  | Some st =>
      let st1 := nominator_without c (amount k) st in
      let s1 := lock_nominator st1 s in
      let st2 := without_request c (owner k) s1 st1 in
      let s2 := Storage.upd_events (λ l, l ++ [Event.NominationKicked (owner k) c (amount k)])
                  (drop_request c (owner k) s1) in
      if bool_decide (length (Nominator.nominations st) = 1%nat) then
        Storage.upd_events (λ l, l ++ [Event.NominatorLeft (owner k) (amount k)])
          (Storage.upd_NominatorState (delete (owner k)) s2)
      else Storage.upd_NominatorState (insert (owner k) st2) s2
  end.

Lemma kick_lowest_bottom_run c l k total s :
  backs c k s →
  Candidate.kick_lowest_bottom c (Nominations.mk (l ++ [k]) total) s =
    (Ok (Nominations.mk l (total ⊖ amount k)), kick_effect c k s).
Proof.
  intros (st&Hst&Hok&Hlen&Hm). unfold Candidate.kick_lowest_bottom, kick_effect.
  rewrite Hst. cbn [Nominations.nominations]. rewrite pop_snoc.
  unfold mbind at 1, M_bind at 1. cbn [expect mret M_ret fst snd].
  unfold mbind at 1, M_bind at 1. cbn [gets]. rewrite Hst.
  unfold mbind at 1, M_bind at 1. cbn [expect mret M_ret].
  unfold mbind at 1, M_bind at 1. rewrite rm_nomination_run, Hm by done. cbv zeta. cbn [snd].
  unfold mbind at 1, M_bind at 1. rewrite remove_request_run.
  by case_bool_decide.
Qed.

(** What a kick leaves alone. *)
Lemma kick_effect_frame c k s :
  let s' := kick_effect c k s in
  Storage.TopNominations s' = Storage.TopNominations s ∧
  Storage.BottomNominations s' = Storage.BottomNominations s ∧
  Storage.CandidatePool s' = Storage.CandidatePool s ∧
  Storage.CandidateInfo s' = Storage.CandidateInfo s ∧
  Storage.Total s' = Storage.Total s ∧
  ∀ n, n ≠ owner k → Storage.NominatorState s' !! n = Storage.NominatorState s !! n.
Proof.
  cbv zeta. unfold kick_effect. destruct (Storage.NominatorState s !! owner k); [|done].
  unfold drop_request.
  destruct (request_index _ _ _) as [i|]; case_bool_decide; split_and!; try done; intros n Hn; cbn;
    rewrite ?lookup_delete_ne, ?lookup_insert_ne by done; done.
Qed.
End Nominators.
