(* ===== verification/CandidateInv.v ===== *)
(** * Candidates: the invariant and the effect of the nomination operations

    [cand_ok] relates the metadata of a candidate to its stored nomination
    lists.  Each operation of [CandidateOps] is characterised by the lists it
    leaves behind: it preserves [cand_ok], adds, removes or changes exactly
    one nomination, and writes nothing but the two lists, the candidate pool
    and, when a nomination is kicked, the state of its nominator. *)

From S2P Require Import Prelude Slices Sets StakingConfig StakingTypes StakingState NominatorOps.
From S2P Require Import CandidateOps NominationLists BondSets.
Import CandidateMetadata Candidate.

Abbreviation noms := Nominations.nominations.

Section Invariant.
Context `{Config}.

(** The metadata that describes the given lists. *)
Definition meta_of (self : t) (top bottom : Nominations.t) : t :=
  mk (bond self)
     (Z.of_nat (length (noms top) + length (noms bottom)))
     (bond self + Nominations.total top)
     (Nominations.lowest_nomination_amount top)
     (Nominations.highest_nomination_amount bottom)
     (Nominations.lowest_nomination_amount bottom)
     (Nominations.top_capacity top)
     (Nominations.bottom_capacity bottom)
     (request self) (status self).

(** The bottom's [total] bounds the sum of its nominations: it is exact until
    a bottom nomination is decreased. *)
Record meta_ok (self : t) (top bottom : Nominations.t) : Prop := {
  mo_lists : lists_ok (noms top) (noms bottom);
  mo_meta : self = meta_of self top bottom;
  mo_top_total : Nominations.total top = sum_amounts (noms top);
  mo_bottom_total : sum_amounts (noms bottom) <= Nominations.total bottom;
  mo_bond : 0 <= bond self;
  mo_range : bond self + sum_amounts (noms top ++ noms bottom) <= u128_max;
}.

Record cand_ok (c : AccountId) (self : t) (top bottom : Nominations.t) (s : Storage.t) : Prop := {
  co_top : Storage.TopNominations s !! c = Some top;
  co_bottom : Storage.BottomNominations s !! c = Some bottom;
  co_meta : meta_ok self top bottom;
}.

(** What the operations write for a candidate. *)
Definition pool_effect (c : AccountId) (old new : t) (pool : list Bond.t) : list Bond.t :=
  if negb (bool_decide (total_counted old = total_counted new)) && is_active new
  then pool_update c (total_counted new) pool else pool.
Definition cand_write (c : AccountId) (old new : t) (top bottom : Nominations.t)
    (s : Storage.t) : Storage.t :=
  Storage.upd_CandidatePool (pool_effect c old new)
    (Storage.upd_TopNominations (insert c top)
       (Storage.upd_BottomNominations (insert c bottom) s)).
End Invariant.

Section Facts.
Context `{ConfigOk}.
Implicit Types (c n : AccountId) (self : t) (top bottom : Nominations.t) (s : Storage.t).

Lemma put_top_id c top s :
  Storage.TopNominations s !! c = Some top →
  Storage.upd_TopNominations (insert c top) s = s.
Proof. intros Ht. unfold Storage.upd_TopNominations. rewrite insert_id by done. by destruct s. Qed.
Lemma put_bottom_id c bottom s :
  Storage.BottomNominations s !! c = Some bottom →
  Storage.upd_BottomNominations (insert c bottom) s = s.
Proof. intros Hb. unfold Storage.upd_BottomNominations. rewrite insert_id by done. by destruct s. Qed.
Lemma pool_id s : Storage.upd_CandidatePool (λ p, p) s = s.
Proof. by destruct s. Qed.

(** Storage after the write satisfies the invariant when the lists do. *)
Lemma cand_ok_write c old new top bottom s :
  meta_ok new top bottom → cand_ok c new top bottom (cand_write c old new top bottom s).
Proof. intros Hm. split; [apply lookup_insert_eq|apply lookup_insert_eq|done]. Qed.

Lemma reset_top_data_run c top self s :
  let new := set_total_counted (bond self ⊕ Nominations.total top)
               (set_top_capacity (Nominations.top_capacity top)
                 (set_lowest_top_nomination_amount
                    (Nominations.lowest_nomination_amount top) self)) in
  reset_top_data c top self s = (Ok new, Storage.upd_CandidatePool (pool_effect c self new) s).
Proof.
  cbv zeta. unfold reset_top_data, pool_effect. cbn [total_counted set_total_counted
    set_top_capacity set_lowest_top_nomination_amount bond]. unfold mbind, M_bind.
  match goal with |- context [if ?b then update_active _ _ else _] => destruct b end;
    simpl; [done|]. by rewrite pool_id.
Qed.

(** The writes of an operation, folded. *)
Lemma cand_write_fold c old old' new new' top bottom s s1 :
  s1 = Storage.upd_BottomNominations (insert c bottom) s →
  total_counted old' = total_counted old → total_counted new' = total_counted new →
  status new' = status new →
  Storage.upd_TopNominations (insert c top)
    (Storage.upd_CandidatePool (pool_effect c old new) s1) =
  cand_write c old' new' top bottom s.
Proof.
  intros -> Ho Hn Hs. unfold cand_write, pool_effect, is_active. by rewrite Ho, Hn, Hs.
Qed.

(** ** Reading the metadata *)

Lemma capacity_Full max (l : list Bond.t) :
  (length l ≤ max)%nat → Nominations.capacity max l = Full ↔ length l = max.
Proof.
  intros. unfold Nominations.capacity. case_bool_decide; [split; [lia|done]|].
  case_bool_decide; split; try done; lia.
Qed.
Lemma capacity_Empty max (l : list Bond.t) :
  (0 < max)%nat → Nominations.capacity max l = Empty ↔ l = [].
Proof.
  intros. unfold Nominations.capacity. case_bool_decide.
  - split; [done|]. intros ->. simpl in *. lia.
  - rewrite <-length_zero_iff_nil. case_bool_decide; done.
Qed.

Section Meta.
Context (self : t) (top bottom : Nominations.t) (Hok : meta_ok self top bottom).

Lemma meta_top_Full :
  top_capacity self = Full ↔ length (noms top) = MaxTopNominationsPerCandidate.
Proof using Type*.
  rewrite (mo_meta _ _ _ Hok). apply capacity_Full, (lo_top_cap _ _ (mo_lists _ _ _ Hok)).
Qed.
Lemma meta_bottom_Full :
  bottom_capacity self = Full ↔ length (noms bottom) = MaxBottomNominationsPerCandidate.
Proof using Type*.
  rewrite (mo_meta _ _ _ Hok). apply capacity_Full, (lo_bottom_cap _ _ (mo_lists _ _ _ Hok)).
Qed.
Lemma meta_bottom_Empty : bottom_capacity self = Empty ↔ noms bottom = [].
Proof using Type*. rewrite (mo_meta _ _ _ Hok). apply capacity_Empty, max_bottom_pos. Qed.
Lemma meta_lowest_top :
  lowest_top_nomination_amount self = from_option amount 0 (last (noms top)).
Proof using Type*. by rewrite (mo_meta _ _ _ Hok). Qed.
Lemma meta_highest_bottom :
  highest_bottom_nomination_amount self = from_option amount 0 (head (noms bottom)).
Proof using Type*. by rewrite (mo_meta _ _ _ Hok). Qed.
Lemma meta_lowest_bottom :
  lowest_bottom_nomination_amount self = from_option amount 0 (last (noms bottom)).
Proof using Type*. by rewrite (mo_meta _ _ _ Hok). Qed.
End Meta.

(** ** Rebuilding the invariant *)

Lemma meta_eq new self top bottom :
  bond new = bond self → request new = request self → status new = status self →
  nomination_count new = Z.of_nat (length (noms top) + length (noms bottom)) →
  total_counted new = bond self + Nominations.total top →
  lowest_top_nomination_amount new = Nominations.lowest_nomination_amount top →
  top_capacity new = Nominations.top_capacity top →
  highest_bottom_nomination_amount new = Nominations.highest_nomination_amount bottom →
  lowest_bottom_nomination_amount new = Nominations.lowest_nomination_amount bottom →
  bottom_capacity new = Nominations.bottom_capacity bottom →
  new = meta_of self top bottom.
Proof. destruct new. unfold meta_of. cbn. by intros -> -> -> -> -> -> -> -> -> ->. Qed.
Lemma meta_fields self top bottom :
  meta_ok self top bottom →
  nomination_count self = Z.of_nat (length (noms top) + length (noms bottom)) ∧
  total_counted self = bond self + Nominations.total top ∧
  lowest_top_nomination_amount self = Nominations.lowest_nomination_amount top ∧
  top_capacity self = Nominations.top_capacity top ∧
  highest_bottom_nomination_amount self = Nominations.highest_nomination_amount bottom ∧
  lowest_bottom_nomination_amount self = Nominations.lowest_nomination_amount bottom ∧
  bottom_capacity self = Nominations.bottom_capacity bottom.
Proof. intros Hok. split_and!; by rewrite (mo_meta _ _ _ Hok). Qed.

Lemma meta_ok_intro self top bottom :
  lists_ok (noms top) (noms bottom) →
  Nominations.total top = sum_amounts (noms top) →
  sum_amounts (noms bottom) <= Nominations.total bottom →
  0 <= bond self → bond self + sum_amounts (noms top ++ noms bottom) <= u128_max →
  meta_ok (meta_of self top bottom) top bottom.
Proof. by split. Qed.
Lemma meta_ok_sums self top bottom :
  meta_ok self top bottom →
  0 <= sum_amounts (noms top) ∧ 0 <= sum_amounts (noms bottom) ∧
  bond self + sum_amounts (noms top) + sum_amounts (noms bottom) <= u128_max.
Proof.
  intros Hok. pose proof (mo_range _ _ _ Hok) as Hr. rewrite sum_amounts_app in Hr.
  pose proof (lo_amounts _ _ (mo_lists _ _ _ Hok)) as [? ?]%Forall_app.
  split_and!; [by apply sum_amounts_nonneg|by apply sum_amounts_nonneg|lia].
Qed.
Lemma meta_ok_lengths self top bottom :
  meta_ok self top bottom →
  (length (noms top) ≤ MaxTopNominationsPerCandidate ≤ 300)%nat ∧
  (length (noms bottom) ≤ MaxBottomNominationsPerCandidate ≤ 300)%nat.
Proof.
  intros [[]]. pose proof max_top_bound. pose proof max_bottom_bound.
  unfold MaxNominations in *. lia.
Qed.

Lemma insert_sorted_noms nom (x : Nominations.t) :
  desc (noms x) → (length (noms x) < MaxNominations)%nat →
  Nominations.insert_sorted_greatest_to_least nom x =
    Nominations.mk (insert_desc nom (noms x)) (Nominations.total x ⊕ amount nom).
Proof.
  intros. unfold Nominations.insert_sorted_greatest_to_least.
  by rewrite insert_sorted_insert_desc.
Qed.

(** ** Which list holds a nomination *)

Lemma locate self top bottom x :
  meta_ok self top bottom → x ∈ noms top ++ noms bottom →
  (lowest_top_nomination_amount self <= amount x →
   lowest_top_nomination_amount self ≠ highest_bottom_nomination_amount self → x ∈ noms top) ∧
  (amount x < lowest_top_nomination_amount self → x ∈ noms bottom).
Proof.
  intros Hok [Hx|Hx]%elem_of_app; rewrite (meta_lowest_top _ _ _ Hok);
    rewrite (meta_highest_bottom _ _ _ Hok); pose proof (mo_lists _ _ _ Hok) as Hlo.
  - split; [done|]. destruct (last (noms top)) as [y|] eqn:Hl; cycle 1.
    { apply last_None in Hl. rewrite Hl in Hx. set_solver. }
    pose proof (desc_last _ y (lo_top_sorted _ _ Hlo) Hl) as Hall. rewrite Forall_forall in Hall.
    specialize (Hall x Hx). cbn in *. lia.
  - split; [|done]. intros Hle Hne. exfalso. apply Hne.
    destruct (noms bottom) as [|h bl] eqn:Hb; [set_solver|].
    destruct (snoc_cases (noms top)) as (tl&y&Ht).
    { rewrite (lo_top_first _ _ Hlo) by done. apply max_top_pos. }
    rewrite Ht, last_snoc in *. cbn in *.
    assert (amount h <= amount y) by (apply (lo_split _ _ Hlo); set_solver).
    destruct (lo_split_head _ _ _ Hlo) as [_ Hbl]. rewrite Forall_forall in Hbl.
    apply elem_of_cons in Hx as [->|Hx]; [lia|]. specialize (Hbl x Hx). cbn in *. lia.
Qed.

Lemma wp_or_else_first {A} (first second : Dispatch A) s Q R :
  wp first s Q (λ _ _, False) → wp (or_else_dne first second) s Q R.
Proof.
  intros Hf. unfold or_else_dne. wp_step. wp_step.
  eapply wp_mono; [exact Hf|auto|done].
Qed.
Lemma wp_or_else_second {A} (first second : Dispatch A) s Q R :
  first s = (Err (Module_ Error.NominationDNE), s) → wp second s Q R →
  wp (or_else_dne first second) s Q R.
Proof.
  intros Hf Hs. unfold or_else_dne. wp_step. wp_step. unfold wp at 1. by rewrite Hf.
Qed.

(** The choice between the lists by amounts, as [increase_nomination],
    [decrease_nomination] and [rm_nomination_if_exists] make it. *)
Lemma wp_choose_list {A} (in_top in_bottom : Dispatch A) self top bottom x s Q R :
  meta_ok self top bottom → x ∈ noms top ++ noms bottom →
  (x ∈ noms top → wp in_top s Q (λ _ _, False)) →
  (owner x ∉ owner <$> noms top → in_top s = (Err (Module_ Error.NominationDNE), s)) →
  (x ∈ noms bottom → wp in_bottom s Q R) →
  let eq := bool_decide (lowest_top_nomination_amount self =
                         highest_bottom_nomination_amount self) in
  let geq := bool_decide (lowest_top_nomination_amount self <= amount x) in
  wp (if geq && negb eq then in_top
      else if geq && eq then or_else_dne in_top in_bottom else in_bottom) s Q R.
Proof.
  intros Hok Hx Htop Habs Hbot. cbv zeta.
  destruct (locate _ _ _ _ Hok Hx) as [Hlt Hlb].
  assert (x ∈ noms top → wp in_top s Q R) as Htop'.
  { intros ?. eapply wp_mono; [by apply Htop|done|done]. }
  case_bool_decide as Hge; cbn [andb]; [|apply Hbot, Hlb; lia].
  case_bool_decide as Heq; cbn [negb]; [|by apply Htop', Hlt].
  apply elem_of_app in Hx as [Hx|Hx]; [by apply wp_or_else_first, Htop|].
  apply wp_or_else_second; [apply Habs|by apply Hbot].
  intros Hin. apply (lo_owners_top _ _ _ (mo_lists _ _ _ Hok) Hin), list_elem_of_fmap. eauto.
Qed.
End Facts.

Ltac sat := unfold saturating_add_to, saturating_sub, u32_max, MaxNominations in *; lia.
Ltac sum_lia :=
  cbn [Nominations.nominations Nominations.total] in *; autorewrite with sums in *; sat.

(** Metadata computed by the setters is that of the lists, given the invariant
    [Hok] before. *)
Ltac solve_meta Hok :=
  let H := fresh in
  pose proof (meta_fields _ _ _ Hok) as H; destruct H as (?&?&?&?&?&?&?);
  unfold reset_bottom_data; apply meta_eq; cbn; try done;
  cbn [Nominations.nominations Nominations.total] in *;
  rewrite ?insert_desc_length, ?length_sort, ?length_app in *; cbn [length] in *; sat.

(** The arithmetic facts the invariant [Hok] gives, in the context. *)
Ltac cand_facts Hok :=
  pose proof (meta_ok_lengths _ _ _ Hok) as [? ?];
  pose proof (meta_ok_sums _ _ _ Hok) as (?&?&?);
  pose proof (mo_bond _ _ _ Hok);
  pose proof (mo_top_total _ _ _ Hok);
  pose proof (mo_bottom_total _ _ _ Hok).
