(* ===== verification/CandidateAdd.v ===== *)
(** * Adding a nomination to a candidate

    [CandidateMetadata::add_nomination]: the nomination enters the top or the
    bottom by its amount, possibly bumping the lowest top nomination into the
    bottom and kicking the lowest bottom nomination out. *)

From S2P Require Import Prelude Slices Sets StakingConfig StakingTypes StakingState.
From S2P Require Import NominatorOps CandidateOps NominationLists BondSets.
From S2P Require Import CandidateInv.

Import CandidateMetadata Candidate.

Section Add.
Context `{ConfigOk}.
Implicit Types (c n : AccountId) (nom k : Bond.t) (self : t) (top bottom : Nominations.t)
  (s : Storage.t).

(** The bottom after [add_bottom_nomination], and storage without the kicked
    nomination. *)
Lemma add_bottom_run bumped c nom self bottom s :
  Storage.BottomNominations s !! c = Some bottom →
  length (noms bottom) ≠ MaxBottomNominationsPerCandidate →
  let bottom' := Nominations.insert_sorted_greatest_to_least nom bottom in
  add_bottom_nomination bumped c nom self s =
    (Ok (reset_bottom_data bottom'
           (if bumped then self else set_nomination_count (nomination_count self ⊕₃₂ 1) self)),
     Storage.upd_BottomNominations (insert c bottom') s).
Proof.
  intros Hb Hlen. unfold add_bottom_nomination, mbind, M_bind, gets. rewrite Hb.
  cbn [expect mret M_ret]. rewrite bool_decide_false by done. by destruct bumped.
Qed.
Lemma add_bottom_kick_run bumped c nom self l k total s :
  Storage.BottomNominations s !! c = Some (Nominations.mk (l ++ [k]) total) →
  length (l ++ [k]) = MaxBottomNominationsPerCandidate → backs c k s →
  let bottom' := Nominations.insert_sorted_greatest_to_least nom
                   (Nominations.mk l (total ⊖ amount k)) in
  add_bottom_nomination bumped c nom self s =
    (Ok (reset_bottom_data bottom' self),
     Storage.upd_BottomNominations (insert c bottom') (kick_effect c k s)).
Proof.
  intros Hb Hlen Hk. unfold add_bottom_nomination. unfold mbind at 1, M_bind at 1.
  cbn [gets]. rewrite Hb. unfold mbind at 1, M_bind at 1. cbn [expect mret M_ret].
  unfold mbind at 1, M_bind at 1. rewrite bool_decide_true by done.
  unfold mbind at 1, M_bind at 1. by rewrite kick_lowest_bottom_run.
Qed.

(** ** Into the top *)

Lemma add_top_room_run c nom self top bottom s :
  cand_ok c self top bottom s →
  (length (noms top) < MaxTopNominationsPerCandidate)%nat →
  bond self + sum_amounts (noms top) + amount nom <= u128_max →
  let top' := Nominations.mk (insert_desc nom (noms top)) (Nominations.total top + amount nom) in
  let self' := meta_of self top' bottom in
  add_top_nomination c nom self s =
    (Ok (None, self'), cand_write c self self' top' bottom s).
Proof.
  intros [Ht Hb Hok] Hlt Hr. cbv zeta.
  cand_facts Hok.
  unfold add_top_nomination, mbind, M_bind, gets. rewrite Ht.
  cbn [expect mret M_ret]. rewrite bool_decide_false by lia. cbn [mret M_ret].
  rewrite insert_sorted_noms; [|apply Hok|unfold MaxNominations; lia].
  rewrite (sat_add_small _ (Nominations.total top)) by lia.
  set (top' := Nominations.mk _ _). rewrite reset_top_data_run, bool_decide_true by done.
  unfold put_top, modify, mret, M_ret. f_equal; [do 2 f_equal; solve_meta Hok|].
  apply cand_write_fold; [by rewrite put_bottom_id|done|cbn; sat|done].
Qed.

Lemma add_top_bump_run c nom self tl y tt bottom s :
  let top := Nominations.mk (tl ++ [y]) tt in
  cand_ok c self top bottom s →
  length (tl ++ [y]) = MaxTopNominationsPerCandidate →
  (length (noms bottom) < MaxBottomNominationsPerCandidate)%nat →
  bond self + sum_amounts (tl ++ [y]) + amount nom <= u128_max →
  let top' := Nominations.mk (insert_desc nom tl) (tt - amount y + amount nom) in
  let bottom' := Nominations.mk (insert_desc y (noms bottom)) (Nominations.total bottom ⊕ amount y) in
  let self' := meta_of self top' bottom' in
  add_top_nomination c nom self s =
    (Ok (None, self'), cand_write c self self' top' bottom' s).
Proof.
  cbv zeta. intros [Ht Hb Hok] Hfull Hlt Hr. cand_facts Hok.
  pose proof (mo_lists _ _ _ Hok) as Hlo. destruct (lo_top_snoc _ _ _ Hlo) as (Htl&Hy&?).
  assert (bottom_capacity self ≠ Full) as Hbc by (rewrite (meta_bottom_Full _ _ _ Hok); lia).
  cbn [Nominations.nominations Nominations.total] in *.
  rewrite length_app, sum_snoc in *. cbn [length] in *.
  unfold add_top_nomination, mbind, M_bind, gets. rewrite Ht. m_red.
  cbn [Nominations.nominations Nominations.total].
  rewrite length_app, bool_decide_true by done. rewrite pop_snoc. m_red.
  rewrite (bool_decide_false (_ = Full)) by done.
  rewrite (add_bottom_run _ _ _ _ bottom); [|done|lia]. m_red.
  rewrite (insert_sorted_noms nom); [|done|cbn; unfold MaxNominations; lia].
  rewrite (insert_sorted_noms y); [|apply Hlo|cbn; unfold MaxNominations; lia].
  cbn [Nominations.nominations Nominations.total].
  rewrite (sat_sub_small tt), (sat_add_small _ (tt - amount y)) by lia.
  rewrite reset_top_data_run, bool_decide_true by done.
  unfold put_top, modify, mret, M_ret. f_equal; [do 2 f_equal; solve_meta Hok|].
  apply cand_write_fold; [done|done|cbn; sat|done].
Qed.
Lemma add_top_kick_run c nom self tl y tt bl k tb s :
  let top := Nominations.mk (tl ++ [y]) tt in
  let bottom := Nominations.mk (bl ++ [k]) tb in
  cand_ok c self top bottom s →
  length (tl ++ [y]) = MaxTopNominationsPerCandidate →
  length (bl ++ [k]) = MaxBottomNominationsPerCandidate → backs c k s →
  bond self + sum_amounts (tl ++ [y]) + amount nom <= u128_max →
  let top' := Nominations.mk (insert_desc nom tl) (tt - amount y + amount nom) in
  let bottom' := Nominations.mk (insert_desc y bl) (tb ⊖ amount k ⊕ amount y) in
  let self' := meta_of self top' bottom' in
  add_top_nomination c nom self s =
    (Ok (Some (amount k), self'), cand_write c self self' top' bottom' (kick_effect c k s)).
Proof.
  cbv zeta. intros [Ht Hb Hok] Hfull Hbfull Hk Hr. cand_facts Hok.
  pose proof (mo_lists _ _ _ Hok) as Hlo. destruct (lo_top_snoc _ _ _ Hlo) as (Htl&Hy&?).
  destruct (lo_bottom_snoc _ _ _ Hlo) as (Hbl&?&?).
  assert (bottom_capacity self = Full) as Hbc by (by rewrite (meta_bottom_Full _ _ _ Hok)).
  assert (lowest_bottom_nomination_amount self = amount k) as Hlow
    by (rewrite (meta_lowest_bottom _ _ _ Hok); cbn; by rewrite last_snoc).
  cbn [Nominations.nominations Nominations.total] in *.
  unfold add_top_nomination, mbind, M_bind, gets. rewrite Ht. m_red.
  cbn [Nominations.nominations Nominations.total].
  rewrite (bool_decide_true (_ = MaxTopNominationsPerCandidate)) by done. rewrite pop_snoc. m_red.
  rewrite (bool_decide_true (_ = Full)) by done.
  rewrite (add_bottom_kick_run _ _ _ _ bl k tb) by done. m_red.
  rewrite length_app, sum_snoc in *. cbn [length] in *.
  rewrite (insert_sorted_noms nom); [|done|cbn; unfold MaxNominations; lia].
  rewrite (insert_sorted_noms y); [|done|cbn; unfold MaxNominations; lia].
  cbn [Nominations.nominations Nominations.total].
  rewrite (sat_sub_small tt), (sat_add_small _ (tt - amount y)) by lia.
  rewrite reset_top_data_run, bool_decide_false, Hlow by done.
  unfold put_top, modify, mret, M_ret. f_equal; [do 2 f_equal; solve_meta Hok|].
  apply cand_write_fold; [done|done|cbn; sat|done].
Qed.

(** ** Into the bottom *)

Lemma bottom_only_write c self top bottom' s :
  Storage.TopNominations s !! c = Some top →
  total_counted self = bond self + Nominations.total top →
  Storage.upd_BottomNominations (insert c bottom') s =
  cand_write c self (meta_of self top bottom') top bottom' s.
Proof.
  intros Ht Htc. unfold cand_write, pool_effect. cbn [total_counted meta_of].
  rewrite bool_decide_true by done. cbn [negb andb]. rewrite (put_top_id c top), pool_id; done.
Qed.
Lemma add_bottom_room_run c nom self top bottom s :
  cand_ok c self top bottom s →
  (length (noms bottom) < MaxBottomNominationsPerCandidate)%nat →
  let bottom' := Nominations.mk (insert_desc nom (noms bottom)) (Nominations.total bottom ⊕ amount nom) in
  let self' := meta_of self top bottom' in
  add_bottom_nomination false c nom self s = (Ok self', cand_write c self self' top bottom' s).
Proof.
  cbv zeta. intros [Ht Hb Hok] Hlt. cand_facts Hok.
  rewrite (add_bottom_run _ _ _ _ bottom) by (done || lia).
  rewrite insert_sorted_noms; [|apply Hok|unfold MaxNominations; lia].
  f_equal; [f_equal; solve_meta Hok|]. apply bottom_only_write; [done|].
  by apply (meta_fields _ _ _ Hok).
Qed.
Lemma add_bottom_kicking_run c nom self top bl k tb s :
  let bottom := Nominations.mk (bl ++ [k]) tb in
  cand_ok c self top bottom s →
  length (bl ++ [k]) = MaxBottomNominationsPerCandidate → backs c k s →
  let bottom' := Nominations.mk (insert_desc nom bl) (tb ⊖ amount k ⊕ amount nom) in
  let self' := meta_of self top bottom' in
  add_bottom_nomination false c nom self s =
    (Ok self', cand_write c self self' top bottom' (kick_effect c k s)).
Proof.
  cbv zeta. intros [Ht Hb Hok] Hfull Hk. cand_facts Hok.
  destruct (lo_bottom_snoc _ _ _ (mo_lists _ _ _ Hok)) as (Hbl&?&?).
  rewrite (add_bottom_kick_run _ _ _ _ bl k tb) by done.
  cbn [Nominations.nominations Nominations.total] in *. rewrite length_app in *.
  rewrite insert_sorted_noms; [|done|cbn in *; unfold MaxNominations; lia].
  f_equal; [f_equal; solve_meta Hok|]. apply bottom_only_write.
  - by destruct (kick_effect_frame c k s) as (->&_).
  - by apply (meta_fields _ _ _ Hok).
Qed.

(** ** What [add_nomination] does *)

(** The nomination is added to the lists, and a nomination [k] kicked when its
    amount is reported; the metadata describes the new lists. *)
Definition added_post c nom self top bottom s (r : NominatorAdded * option Balance * t)
    (s' : Storage.t) : Prop :=
  let '(added, less, self') := r in
  ∃ top' bottom', cand_ok c self' top' bottom' s' ∧ self' = meta_of self top' bottom' ∧
    match less with
    | None =>
        noms top' ++ noms bottom' ≡ₚ nom :: noms top ++ noms bottom ∧
        s' = cand_write c self self' top' bottom' s
    | Some a => ∃ k, last (noms bottom) = Some k ∧ a = amount k ∧ amount k < amount nom ∧
        k :: noms top' ++ noms bottom' ≡ₚ nom :: noms top ++ noms bottom ∧
        s' = cand_write c self self' top' bottom' (kick_effect c k s)
    end ∧
    match added with
    | AddedToTop new_total => new_total = total_counted self' ∧ nom ∈ noms top'
    | AddedToBottom => total_counted self' = total_counted self ∧ nom ∈ noms bottom'
    end.

(** When a nomination can be added: its owner has none yet, its amount fits,
    and a nomination that may be kicked is known to its nominator. *)
Record addable c nom self top bottom s : Prop := {
  ad_ok : cand_ok c self top bottom s;
  ad_fresh : owner nom ∉ owner <$> (noms top ++ noms bottom);
  ad_amount : 0 <= amount nom;
  ad_range : bond self + sum_amounts (noms top ++ noms bottom) + amount nom <= u128_max;
  ad_backs : ∀ k, last (noms bottom) = Some k →
    length (noms bottom) = MaxBottomNominationsPerCandidate → backs c k s;
}.

Lemma add_top_room c nom self top bottom s :
  addable c nom self top bottom s →
  (length (noms top) < MaxTopNominationsPerCandidate)%nat →
  wp (add_top_nomination c nom self) s
    (λ r s', r.1 = None ∧ added_post c nom self top bottom s
                            (AddedToTop (total_counted r.2), None, r.2) s')
    (λ _ _, False).
Proof.
  intros [Hco Hf Ha Hr _] Hlt. pose proof (co_meta _ _ _ _ _ Hco) as Hok. cand_facts Hok.
  rewrite sum_amounts_app in Hr. unfold wp. rewrite (add_top_room_run _ _ _ top bottom) by (done || lia).
  split; [done|]. eexists _, bottom. split_and!; [|done| |done|done|].
  - apply cand_ok_write, meta_ok_intro; cbn; autorewrite with sums; try done; [|lia|lia].
    apply lists_ok_add_top; auto. by apply Hok.
  - cbn. by rewrite insert_desc_perm.
  - cbn. rewrite insert_desc_perm. set_solver.
Qed.
Lemma add_top_full c nom self top bottom s :
  addable c nom self top bottom s →
  length (noms top) = MaxTopNominationsPerCandidate →
  lowest_top_nomination_amount self < amount nom →
  wp (add_top_nomination c nom self) s
    (λ r s', added_post c nom self top bottom s (AddedToTop (total_counted r.2), r.1, r.2) s')
    (λ _ _, False).
Proof.
  intros [Hco Hf Ha Hr Hbk] Hfull Hlow. pose proof (co_meta _ _ _ _ _ Hco) as Hok. cand_facts Hok.
  pose proof (mo_lists _ _ _ Hok) as Hlo. rewrite sum_amounts_app in Hr.
  rewrite (meta_lowest_top _ _ _ Hok) in Hlow. pose proof max_top_pos. pose proof max_bottom_pos.
  destruct top as [tl0 tt]. cbn in *. destruct (snoc_cases tl0) as (tl&y&->); [lia|].
  rewrite last_snoc in Hlow. cbn in Hlow. destruct (lo_top_snoc _ _ _ Hlo) as (Htl&Hy&?).
  rewrite sum_snoc in *. unfold wp.
  destruct (decide (length (noms bottom) = MaxBottomNominationsPerCandidate)) as [Hbf|Hbf].
  - destruct bottom as [bl0 tb]. cbn in *. destruct (snoc_cases bl0) as (bl&k&->); [lia|].
    destruct (lo_bottom_snoc _ _ _ Hlo) as (Hbl&?&?). rewrite sum_snoc, last_snoc in *.
    assert (amount k <= amount y) by (apply (lo_split _ _ Hlo); set_solver).
    rewrite (add_top_kick_run _ _ _ tl y tt bl k tb);
      [|done|done|done|by apply Hbk|rewrite sum_snoc; lia].
    eexists _, _. split_and!; [|done| |done|].
    + apply cand_ok_write, meta_ok_intro; cbn; autorewrite with sums; try done; [|lia|sat|sat].
      rewrite length_app in Hbf. cbn in Hbf.
      apply lists_ok_bump; [by eapply lists_ok_kick|done|lia|lia|].
      revert Hf. rewrite app_assoc, fmap_app. set_solver.
    + exists k. split_and!; [done|done|lia| |done].
      cbn. rewrite !insert_desc_perm. solve_perm.
    + cbn. rewrite insert_desc_perm. set_solver.
  - rewrite (add_top_bump_run _ _ _ tl y tt bottom); [|done|done|lia|rewrite sum_snoc; lia].
    eexists _, _. cbn [fst snd]. split_and!; [|done| |done|done|].
    + apply cand_ok_write, meta_ok_intro; cbn; autorewrite with sums; try done; [|lia|sat|sat].
      apply lists_ok_bump; auto; lia.
    + cbn. rewrite !insert_desc_perm. solve_perm.
    + cbn. rewrite insert_desc_perm. set_solver.
Qed.

(** The bottom receives what does not exceed the lowest top nomination. *)
Lemma add_bottom_full_top c nom self top bottom s :
  addable c nom self top bottom s →
  length (noms top) = MaxTopNominationsPerCandidate →
  amount nom <= lowest_top_nomination_amount self →
  (length (noms bottom) = MaxBottomNominationsPerCandidate →
   lowest_bottom_nomination_amount self < amount nom) →
  wp (add_bottom_nomination false c nom self) s
    (λ self' s', added_post c nom self top bottom s
       (AddedToBottom, if bool_decide (bottom_capacity self = Full)
                       then Some (lowest_bottom_nomination_amount self) else None, self') s')
    (λ _ _, False).
Proof.
  intros [Hco Hf Ha Hr Hbk] Hfull Hlow Hgt. pose proof (co_meta _ _ _ _ _ Hco) as Hok. cand_facts Hok.
  pose proof (mo_lists _ _ _ Hok) as Hlo. rewrite sum_amounts_app in Hr.
  rewrite (meta_lowest_top _ _ _ Hok) in Hlow. pose proof max_top_pos. pose proof max_bottom_pos.
  assert (Hle : Forall (λ y, amount nom <= amount y) (noms top)).
  { destruct (snoc_cases (noms top)) as (tl&y&Ht); [lia|]. rewrite Ht, last_snoc in *. cbn in Hlow.
    eapply Forall_impl; [apply (desc_last _ y (lo_top_sorted _ _ Hlo)), last_snoc|]. cbn. lia. }
  rewrite (meta_lowest_bottom _ _ _ Hok) in *. unfold wp.
  destruct (decide (length (noms bottom) = MaxBottomNominationsPerCandidate)) as [Hbf|Hbf].
  - specialize (Hgt Hbf). rewrite bool_decide_true by (by apply (meta_bottom_Full _ _ _ Hok)).
    destruct bottom as [bl0 tb]. cbn in *. destruct (snoc_cases bl0) as (bl&k&->); [lia|].
    rewrite last_snoc, sum_snoc in *. destruct (lo_bottom_snoc _ _ _ Hlo) as (Hbl&?&?).
    rewrite (add_bottom_kicking_run _ _ _ top bl k tb) by (done || by apply Hbk).
    exists top. eexists. split_and!; [|done| |by symmetry; apply (meta_fields _ _ _ Hok)|].
    + apply cand_ok_write, meta_ok_intro; cbn; autorewrite with sums; try done; [|sat|sat].
      rewrite length_app in Hbf. cbn in Hbf.
      apply lists_ok_add_bottom; auto; [by eapply lists_ok_kick|lia|].
      revert Hf. rewrite app_assoc, fmap_app. set_solver.
    + exists k. split_and!; [done|done|done| |done].
      cbn. rewrite insert_desc_perm. solve_perm.
    + cbn. rewrite insert_desc_perm. set_solver.
  - rewrite bool_decide_false by (by rewrite (meta_bottom_Full _ _ _ Hok)).
    rewrite (add_bottom_room_run _ _ _ top bottom) by (done || lia).
    exists top. eexists. split_and!; [|done| |done|by symmetry; apply (meta_fields _ _ _ Hok)|].
    + apply cand_ok_write, meta_ok_intro; cbn; autorewrite with sums; try done; [|sat|sat].
      apply lists_ok_add_bottom; auto; lia.
    + cbn. rewrite insert_desc_perm. solve_perm.
    + cbn. rewrite insert_desc_perm. set_solver.
Qed.

Lemma add_nomination_spec c nom self top bottom s :
  addable c nom self top bottom s →
  wp (add_nomination c nom self) s
    (added_post c nom self top bottom s)
    (λ e s', e = Error.CannotNominateLessThanOrEqualToLowestBottomWhenFull ∧ s' = s ∧
       top_capacity self = Full ∧ bottom_capacity self = Full ∧
       amount nom <= lowest_bottom_nomination_amount self).
Proof.
  intros Had. pose proof (co_meta _ _ _ _ _ (ad_ok _ _ _ _ _ _ Had)) as Hok. cand_facts Hok.
  assert (Hroom : top_capacity self ≠ Full →
    wp (r ← add_top_nomination c nom self;
        mret (AddedToTop (total_counted r.2), None, r.2)) s
       (added_post c nom self top bottom s) (λ _ _, False)).
  { rewrite (meta_top_Full _ _ _ Hok). intros Hnf. wp_step.
    eapply wp_mono; [apply (add_top_room c nom self top bottom s Had); lia| |done].
    intros [less self'] s' [Hl Hp]. cbn in Hl. by subst less. }
  unfold add_nomination. destruct (top_capacity self) eqn:Hcap; cycle 1.
  { eapply wp_mono; [by apply Hroom|done|done]. }
  { eapply wp_mono; [by apply Hroom|done|done]. }
  apply (meta_top_Full _ _ _ Hok) in Hcap as Hfull. case_bool_decide as Hlow.
  - wp_step. eapply wp_mono; [by apply (add_top_full c nom self top bottom s)| |done].
    by intros [less self'] s' Hp.
  - pose proof (add_bottom_full_top c nom self top bottom s Had Hfull ltac:(lia)) as Hb.
    rewrite <-(meta_bottom_Full _ _ _ Hok) in Hb.
    wp_step. case_bool_decide as Hbf.
    + wp_step. apply wp_ensure; intros Hg.
      * apply bool_decide_eq_true in Hg. wp_step. wp_step.
        eapply wp_mono; [by apply Hb| |done]. auto.
      * apply bool_decide_eq_false in Hg. split_and!; [done|done|done|done|lia].
    + wp_step. wp_step. eapply wp_mono; [by apply Hb| |done]. auto.
Qed.
End Add.

(** * Removing a nomination from a candidate

    [CandidateMetadata::rm_nomination_if_exists]: the metadata tells in which
    list the nomination is, and the highest bottom nomination takes the place
    of a removed top one. *)

Import CandidateMetadata Candidate.

Section Remove.
Context `{ConfigOk}.
Implicit Types (c n : AccountId) (x h : Bond.t) (self : t) (top bottom : Nominations.t)
  (s : Storage.t).

Lemma rm_top_absent c n self top s :
  Storage.TopNominations s !! c = Some top → n ∉ owner <$> noms top →
  rm_top_nomination c n self s = (Err (Module_ Error.NominationDNE), s).
Proof.
  intros Ht Hn. unfold rm_top_nomination, mbind, M_bind, gets. rewrite Ht. m_red.
  apply taken_None in Hn. by rewrite Hn.
Qed.
Lemma rm_bottom_absent c n self bottom s :
  Storage.BottomNominations s !! c = Some bottom → n ∉ owner <$> noms bottom →
  rm_bottom_nomination c n self s = (Err (Module_ Error.NominationDNE), s).
Proof.
  intros Hb Hn. unfold rm_bottom_nomination, mbind, M_bind, gets. rewrite Hb. m_red.
  apply taken_None in Hn. by rewrite Hn.
Qed.

Lemma rm_top_run c self l1 x l2 tt bottom s :
  let top := Nominations.mk (l1 ++ x :: l2) tt in
  cand_ok c self top bottom s → noms bottom = [] →
  owner x ∉ owner <$> (l1 ++ l2) →
  let top' := Nominations.mk (l1 ++ l2) (tt - amount x) in
  let self' := meta_of self top' bottom in
  rm_top_nomination c (owner x) self s =
    (Ok (bool_decide (total_counted self = total_counted self'), self'),
     cand_write c self self' top' bottom s).
Proof.
  cbv zeta. intros [Ht Hb Hok] Hbe Hx. cand_facts Hok.
  destruct (lo_top_middle _ _ _ _ (mo_lists _ _ _ Hok)) as (Hs&?&?).
  cbn [Nominations.nominations Nominations.total] in *.
  unfold rm_top_nomination, mbind, M_bind, gets. rewrite Ht. m_red.
  cbn [Nominations.nominations]. rewrite taken_middle by done.
  rewrite without_middle; [|done|done|unfold MaxNominations; lia].
  rewrite sum_middle in *. m_red. cbn [ok_or mret M_ret].
  rewrite (bool_decide_true (_ = Empty)) by (by apply (meta_bottom_Empty _ _ _ Hok)). m_red.
  unfold Nominations.set_total, Nominations.set_nominations.
  cbn [Nominations.nominations Nominations.total]. rewrite (sat_sub_small tt) by lia.
  rewrite reset_top_data_run. unfold put_top, modify, mret, M_ret.
  match goal with |- (Ok (_, ?new), _) = (Ok (_, ?self'), _) =>
    assert (new = self') as -> by (solve_meta Hok) end.
  f_equal. apply cand_write_fold; [by rewrite put_bottom_id|done|cbn; sat|done].
Qed.
Lemma rm_top_bump_run c self l1 x l2 tt h bl tb s :
  let top := Nominations.mk (l1 ++ x :: l2) tt in
  let bottom := Nominations.mk (h :: bl) tb in
  cand_ok c self top bottom s → owner x ∉ owner <$> (l1 ++ l2) →
  let top' := Nominations.mk (insert_desc h (l1 ++ l2)) (tt - amount x + amount h) in
  let bottom' := Nominations.mk bl (tb ⊖ amount h) in
  let self' := meta_of self top' bottom' in
  rm_top_nomination c (owner x) self s =
    (Ok (bool_decide (total_counted self = total_counted self'), self'),
     cand_write c self self' top' bottom' s).
Proof.
  cbv zeta. intros [Ht Hb Hok] Hx. cand_facts Hok.
  destruct (lo_top_middle _ _ _ _ (mo_lists _ _ _ Hok)) as (Hs&?&?).
  pose proof (lo_amounts _ _ (mo_lists _ _ _ Hok)) as [_ [? Hbl]%Forall_cons]%Forall_app.
  apply sum_amounts_nonneg in Hbl.
  cbn [Nominations.nominations Nominations.total] in *.
  unfold rm_top_nomination, mbind, M_bind, gets. rewrite Ht. m_red.
  cbn [Nominations.nominations]. rewrite taken_middle by done.
  rewrite without_middle; [|done|done|unfold MaxNominations; lia].
  rewrite sum_middle, sum_cons in *. cbn [ok_or mret M_ret].
  rewrite (bool_decide_false (_ = Empty)) by (by rewrite (meta_bottom_Empty _ _ _ Hok)).
  rewrite Hb. m_red. cbn [Nominations.nominations Nominations.total head tail]. m_red.
  unfold put_bottom, modify at 1. m_red. rewrite length_app in *. cbn [length] in *.
  rewrite insert_sorted_noms; [|done|cbn; rewrite length_app; unfold MaxNominations; lia].
  unfold Nominations.set_total, Nominations.set_nominations.
  cbn [Nominations.nominations Nominations.total].
  rewrite (sat_sub_small tt), (sat_add_small _ (tt - amount x)) by lia.
  rewrite reset_top_data_run. unfold put_top, modify, mret, M_ret.
  match goal with |- (Ok (_, ?new), _) = (Ok (_, ?self'), _) =>
    assert (new = self') as -> by (solve_meta Hok) end.
  f_equal. apply cand_write_fold; [done|done|cbn; sat|done].
Qed.
Lemma rm_bottom_run c self top l1 x l2 tb s :
  let bottom := Nominations.mk (l1 ++ x :: l2) tb in
  cand_ok c self top bottom s → owner x ∉ owner <$> (l1 ++ l2) →
  let bottom' := Nominations.mk (l1 ++ l2) (tb ⊖ amount x) in
  let self' := meta_of self top bottom' in
  rm_bottom_nomination c (owner x) self s =
    (Ok (false, self'), cand_write c self self' top bottom' s).
Proof.
  cbv zeta. intros [Ht Hb Hok] Hx. cand_facts Hok.
  cbn [Nominations.nominations Nominations.total] in *.
  unfold rm_bottom_nomination, mbind, M_bind, gets. rewrite Hb. m_red.
  cbn [Nominations.nominations]. rewrite taken_middle by done.
  rewrite without_middle; [|done|done|unfold MaxNominations; lia].
  rewrite length_app in *. cbn [ok_or mret M_ret length] in *.
  unfold put_bottom, modify, mret, M_ret. f_equal; [do 2 f_equal; solve_meta Hok|].
  apply bottom_only_write; [done|]. by apply (meta_fields _ _ _ Hok).
Qed.

(** ** What removing does *)

(** The nomination [x] left the lists, and nothing else did. *)
Definition removed_post c x self top bottom s self' s' : Prop :=
  ∃ top' bottom', cand_ok c self' top' bottom' s' ∧ self' = meta_of self top' bottom' ∧
    x :: noms top' ++ noms bottom' ≡ₚ noms top ++ noms bottom ∧
    s' = cand_write c self self' top' bottom' s.

Lemma rm_top_spec c x self top bottom s :
  cand_ok c self top bottom s → x ∈ noms top →
  wp (rm_top_nomination c (owner x) self) s
    (λ r s', r.1 = bool_decide (total_counted self = total_counted r.2) ∧
             removed_post c x self top bottom s r.2 s')
    (λ _ _, False).
Proof.
  intros Hco Hx. pose proof (co_meta _ _ _ _ _ Hco) as Hok. cand_facts Hok.
  pose proof (mo_lists _ _ _ Hok) as Hlo. pose proof (lo_top_nodup _ _ Hlo) as Hnd.
  destruct top as [tl tt]. cbn in *. apply list_elem_of_split in Hx as (l1&l2&->).
  assert (owner x ∉ owner <$> (l1 ++ l2)).
  { rewrite fmap_app, fmap_cons, <-Permutation_middle in Hnd.
    apply NoDup_cons in Hnd as [? _]. by rewrite fmap_app. }
  destruct (lo_top_middle _ _ _ _ Hlo) as (Hs&?&?). rewrite sum_middle in *. unfold wp.
  destruct (noms bottom) as [|h bl] eqn:Hbn.
  - rewrite (rm_top_run c self l1 x l2 tt bottom) by done. split; [done|]. cbn [snd].
    eexists _, bottom. split_and!; [|done| |done].
    + apply cand_ok_write, meta_ok_intro; cbn; rewrite ?Hbn; try done; [|sum_lia..]. by eapply lists_ok_rm_top.
    + cbn. rewrite Hbn. solve_perm.
  - destruct bottom as [bn tb]. cbn in *. subst bn.
    rewrite (rm_top_bump_run c self l1 x l2 tt h bl tb) by done.
    split; [done|]. cbn [snd]. eexists _, _. split_and!; [|done| |done].
    + apply cand_ok_write, meta_ok_intro; cbn; try done; [|sum_lia..].
      by eapply lists_ok_rm_top_bump.
    + cbn. rewrite insert_desc_perm. solve_perm.
Qed.
Lemma rm_bottom_spec c x self top bottom s :
  cand_ok c self top bottom s → x ∈ noms bottom →
  wp (rm_bottom_nomination c (owner x) self) s
    (λ r s', r.1 = false ∧ total_counted r.2 = total_counted self ∧
             removed_post c x self top bottom s r.2 s')
    (λ _ _, False).
Proof.
  intros Hco Hx. pose proof (co_meta _ _ _ _ _ Hco) as Hok. cand_facts Hok.
  pose proof (mo_lists _ _ _ Hok) as Hlo. pose proof (lo_bottom_nodup _ _ Hlo) as Hnd.
  destruct bottom as [bl tb]. cbn in *. apply list_elem_of_split in Hx as (l1&l2&->).
  assert (owner x ∉ owner <$> (l1 ++ l2)).
  { rewrite fmap_app, fmap_cons, <-Permutation_middle in Hnd.
    apply NoDup_cons in Hnd as [? _]. by rewrite fmap_app. }
  destruct (lo_bottom_middle _ _ _ _ Hlo) as (Hs&?&?). rewrite sum_middle in *. unfold wp.
  rewrite (rm_bottom_run c self top l1 x l2 tb) by done.
  split_and!; [done|by symmetry; apply (meta_fields _ _ _ Hok)|]. cbn [snd].
  exists top. eexists. split_and!; [|done| |done].
  - apply cand_ok_write, meta_ok_intro; cbn; try done; [|sum_lia..].
    by eapply lists_ok_rm_bottom.
  - cbn. solve_perm.
Qed.

(** Removing a nomination the candidate has. *)
Lemma rm_nomination_if_exists_spec c x self top bottom s :
  cand_ok c self top bottom s → x ∈ noms top ++ noms bottom →
  wp (rm_nomination_if_exists c (owner x) (amount x) self) s
    (λ r s', removed_post c x self top bottom s r.2 s') (λ _ _, False).
Proof.
  intros Hco Hx. pose proof (co_meta _ _ _ _ _ Hco) as Hok. unfold rm_nomination_if_exists.
  assert (x ∈ noms top → wp (rm_top_nomination c (owner x) self) s
    (λ r s', removed_post c x self top bottom s r.2 s') (λ _ _, False)) as Htop.
  { intros Ht. eapply wp_mono; [by eapply rm_top_spec| |done]. by intros r s' [_ ?]. }
  destruct (bool_decide (top_capacity self = Full)) eqn:Hfull; cbn [negb orb].
  - apply (wp_choose_list _ _ self top bottom x); auto.
    + intros Hn. by apply (rm_top_absent _ _ _ top); [apply Hco|].
    + intros Hb. eapply wp_mono; [by eapply rm_bottom_spec| |done]. by intros r s' (_&_&?).
  - apply Htop. apply bool_decide_eq_false in Hfull. rewrite (meta_top_Full _ _ _ Hok) in Hfull.
    cand_facts Hok. rewrite (lo_bottom_nil _ _ (mo_lists _ _ _ Hok)), app_nil_r in Hx by lia. done.
Qed.

(** A nominator the candidate does not know is refused, and nothing changes. *)
Lemma rm_nomination_if_exists_absent c n a self top bottom s :
  cand_ok c self top bottom s → n ∉ owner <$> (noms top ++ noms bottom) →
  rm_nomination_if_exists c n a self s = (Err (Module_ Error.NominationDNE), s).
Proof.
  rewrite fmap_app, not_elem_of_app. intros [Ht Hb _] [Hnt Hnb].
  unfold rm_nomination_if_exists, or_else_dne, try, mbind, M_bind.
  repeat match goal with |- context [if ?b then _ else _] => destruct b end;
    by rewrite ?(rm_top_absent _ _ _ top), ?(rm_bottom_absent _ _ _ bottom).
Qed.
End Remove.
