(* ===== verification/CandidateAdjust.v ===== *)
(** * Increasing and decreasing a nomination of a candidate

    [CandidateMetadata::increase_nomination] and [decrease_nomination]: one
    nomination changes its amount, and moves between the lists when its new
    amount demands it. *)

From S2P Require Import Prelude Slices Sets StakingConfig StakingTypes StakingState NominatorOps.
From S2P Require Import CandidateOps NominationLists BondSets CandidateInv.
From S2P Require Import CandidateAdd.
Import CandidateMetadata Candidate.

Section Adjust.
Context `{ConfigOk}.
Implicit Types (c n : AccountId) (x h : Bond.t) (self : t) (top bottom : Nominations.t)
  (s : Storage.t) (more less : Balance).

Abbreviation sorted := (sort_by Nominations.cmp_greatest).

(** ** Runs of the four cases of an increase *)

Lemma increase_top_absent c n more self top s :
  Storage.TopNominations s !! c = Some top → n ∉ owner <$> noms top →
  increase_top_nomination c n more self s = (Err (Module_ Error.NominationDNE), s).
Proof.
  intros Ht Hn. unfold increase_top_nomination, mbind, M_bind, gets. rewrite Ht. m_red.
  rewrite <-holds_spec in Hn. apply not_true_is_false in Hn. by rewrite Hn.
Qed.
Lemma increase_top_run c more self l1 x l2 tt bottom s :
  let top := Nominations.mk (l1 ++ x :: l2) tt in
  cand_ok c self top bottom s → owner x ∉ owner <$> (l1 ++ l2) →
  0 <= more → bond self + sum_amounts (l1 ++ x :: l2) + more <= u128_max →
  let top' := Nominations.mk (sorted (l1 ++ with_amount x (amount x + more) :: l2)) (tt + more) in
  let self' := meta_of self top' bottom in
  increase_top_nomination c (owner x) more self s =
    (Ok (true, self'), cand_write c self self' top' bottom s).
Proof.
  cbv zeta. intros [Ht Hb Hok] Hx Hm Hr. cand_facts Hok.
  destruct (lo_top_middle _ _ _ _ (mo_lists _ _ _ Hok)) as (Hs&?&?).
  cbn [Nominations.nominations Nominations.total] in *.
  unfold increase_top_nomination, mbind, M_bind, gets. rewrite Ht. m_red.
  cbn [Nominations.nominations]. rewrite (proj2 (holds_spec _ _)) by set_solver.
  rewrite adjust_middle; [|done|done|unfold MaxNominations; lia].
  rewrite sum_middle in *. cbn [ensure mret M_ret]. m_red.
  unfold Nominations.sort_greatest_to_least, Nominations.set_total, Nominations.set_nominations.
  cbn [Nominations.nominations Nominations.total].
  rewrite (sat_add_small _ tt), (sat_add_small _ (amount x)) by lia.
  rewrite reset_top_data_run. unfold put_top, modify, mret, M_ret, ensure.
  f_equal; [do 2 f_equal; solve_meta Hok|].
  apply cand_write_fold; [by rewrite put_bottom_id|done|cbn; sat|done].
Qed.
Lemma increase_bottom_stay_run c more self top l1 x l2 tb s :
  let bottom := Nominations.mk (l1 ++ x :: l2) tb in
  cand_ok c self top bottom s → owner x ∉ owner <$> (l1 ++ l2) → 
  0 <= more → sum_amounts (l1 ++ x :: l2) + more <= u128_max →
  amount x + more <= lowest_top_nomination_amount self →
  let bottom' := Nominations.mk (sorted (l1 ++ with_amount x (amount x + more) :: l2)) (tb ⊕ more) in
  let self' := meta_of self top bottom' in
  increase_bottom_nomination c (owner x) (amount x) more self s =
    (Ok (false, self'), cand_write c self self' top bottom' s).
Proof.
  cbv zeta. intros [Ht Hb Hok] Hx Hm Hr Hlow. cand_facts Hok.
  destruct (lo_bottom_middle _ _ _ _ (mo_lists _ _ _ Hok)) as (Hs&?&?).
  cbn [Nominations.nominations Nominations.total] in *.
  unfold increase_bottom_nomination, mbind, M_bind, gets. rewrite Hb. m_red. cbn [ok_or]. m_red.
  cbn [Nominations.nominations]. rewrite (proj2 (holds_spec _ _)) by set_solver.
  rewrite adjust_middle; [|done|done|unfold MaxNominations; lia].
  rewrite sum_middle in *. rewrite (sat_add_small _ (amount x)) by lia.
  rewrite bool_decide_false by lia. cbn [ensure]. m_red.
  unfold Nominations.sort_greatest_to_least, Nominations.set_total, Nominations.set_nominations.
  cbn [Nominations.nominations Nominations.total].
  unfold put_bottom, modify, mret, M_ret. f_equal; [do 2 f_equal; solve_meta Hok|].
  apply bottom_only_write; [done|]. by apply (meta_fields _ _ _ Hok).
Qed.
Lemma increase_bottom_move_run c more self tl y tt l1 x l2 tb s :
  let top := Nominations.mk (tl ++ [y]) tt in
  let bottom := Nominations.mk (l1 ++ x :: l2) tb in
  cand_ok c self top bottom s → owner x ∉ owner <$> (l1 ++ l2) → 
  length (tl ++ [y]) = MaxTopNominationsPerCandidate →
  0 <= more → bond self + sum_amounts (tl ++ [y]) + (amount x + more) <= u128_max →
  amount y < amount x + more →
  let top' := Nominations.mk (insert_desc (with_amount x (amount x + more)) tl)
                (tt - amount y + (amount x + more)) in
  let bottom' := Nominations.mk (insert_desc y (l1 ++ l2)) (tb ⊖ amount x ⊕ amount y) in
  let self' := meta_of self top' bottom' in
  increase_bottom_nomination c (owner x) (amount x) more self s =
    (Ok (true, self'), cand_write c self self' top' bottom' s).
Proof.
  cbv zeta. intros [Ht Hb Hok] Hx Hfull Hm Hr Hlow. cand_facts Hok.
  pose proof (mo_lists _ _ _ Hok) as Hlo. destruct (lo_bottom_middle _ _ _ _ Hlo) as (Hs&?&?).
  destruct (lo_top_snoc _ _ _ Hlo) as (Htl&?&?).
  assert (Hlt : lowest_top_nomination_amount self = amount y)
    by (rewrite (meta_lowest_top _ _ _ Hok); cbn; by rewrite last_snoc).
  cbn [Nominations.nominations Nominations.total] in *.
  unfold increase_bottom_nomination, mbind, M_bind, gets. rewrite Hb. cbn [ok_or]. m_red.
  cbn [Nominations.nominations]. rewrite taken_middle by done.
  rewrite without_middle; [|done|done|unfold MaxNominations; lia].
  rewrite ?sum_snoc, ?sum_middle in *. rewrite !(sat_add_small _ (amount x)) by lia.
  rewrite bool_decide_true by lia. cbn [ok_or]. m_red. rewrite Ht. m_red.
  rewrite bool_decide_true by (apply capacity_Full; cbn; lia).
  cbn [Nominations.nominations Nominations.total]. rewrite pop_snoc. m_red.
  rewrite length_app in *. cbn [length] in *.
  unfold Nominations.set_total, Nominations.set_nominations.
  rewrite (insert_sorted_noms y); [|done|cbn; rewrite length_app in *; cbn in *; unfold MaxNominations; lia].
  rewrite (insert_sorted_noms (Bond.mk _ _)); [|done|cbn; unfold MaxNominations; lia].
  cbn [Nominations.nominations Nominations.total amount].
  rewrite !(sat_add_small _ (amount x) more), (sat_sub_small tt), (sat_add_small _ (tt - amount y)) by lia.
  rewrite reset_top_data_run. unfold put_top, put_bottom, modify, mret, M_ret.
  f_equal; [do 2 f_equal; solve_meta Hok|].
  unfold cand_write, pool_effect. cbn. by rewrite (sat_add_small _ (bond self)) by lia.
Qed.

(** ** What an increase does *)

(** [x] became [x']: the lists differ in that nomination only, and [in_top]
    tells where it is now. *)
Definition changed_post c x x' self top bottom s (r : bool * t) s' : Prop :=
  ∃ top' bottom', cand_ok c r.2 top' bottom' s' ∧ r.2 = meta_of self top' bottom' ∧
    x :: noms top' ++ noms bottom' ≡ₚ x' :: noms top ++ noms bottom ∧
    (if r.1 then x' ∈ noms top' else x' ∈ noms bottom') ∧
    s' = cand_write c self r.2 top' bottom' s.

(** The place of a bond in a list of distinct owners. *)
Lemma split_bond l x :
  NoDup (owner <$> l) → x ∈ l → ∃ l1 l2, l = l1 ++ x :: l2 ∧ owner x ∉ owner <$> (l1 ++ l2).
Proof.
  intros Hnd (l1&l2&->)%list_elem_of_split. exists l1, l2. split; [done|].
  rewrite fmap_app, fmap_cons, <-Permutation_middle in Hnd.
  apply NoDup_cons in Hnd as [? _]. by rewrite fmap_app.
Qed.

Lemma increase_top_spec c x more self top bottom s :
  cand_ok c self top bottom s → x ∈ noms top → 0 <= more →
  bond self + sum_amounts (noms top ++ noms bottom) + more <= u128_max →
  wp (increase_top_nomination c (owner x) more self) s
    (changed_post c x (with_amount x (amount x + more)) self top bottom s) (λ _ _, False).
Proof.
  intros Hco Hx Hm Hr. pose proof (co_meta _ _ _ _ _ Hco) as Hok. cand_facts Hok.
  pose proof (mo_lists _ _ _ Hok) as Hlo. destruct top as [tl tt]. cbn in *.
  destruct (split_bond _ _ (lo_top_nodup _ _ Hlo) Hx) as (l1&l2&->&Hn).
  destruct (lo_top_middle _ _ _ _ Hlo) as (Hs&?&?).
  unfold wp. rewrite (increase_top_run c more self l1 x l2 tt bottom); [|done..|sum_lia].
  eexists _, bottom. cbn [fst snd Nominations.nominations Nominations.total].
  split_and!; [|done| | |done].
  - apply cand_ok_write, meta_ok_intro; cbn; try done; [|sum_lia..].
    eapply (lists_ok_replace_top l1 x l2 _ (amount x + more));
      [done|lia| |apply sort_greatest_sorted|apply sort_greatest_perm].
    apply Forall_forall. intros y Hy. pose proof (lo_split _ _ Hlo x y). set_solver by lia.
  - cbn. rewrite sort_greatest_perm. solve_perm.
  - cbn. rewrite sort_greatest_perm. set_solver.
Qed.
Lemma increase_bottom_spec c x more self top bottom s :
  cand_ok c self top bottom s → x ∈ noms bottom → 0 <= more →
  bond self + sum_amounts (noms top ++ noms bottom) + more <= u128_max →
  wp (increase_bottom_nomination c (owner x) (amount x) more self) s
    (changed_post c x (with_amount x (amount x + more)) self top bottom s) (λ _ _, False).
Proof.
  intros Hco Hx Hm Hr. pose proof (co_meta _ _ _ _ _ Hco) as Hok. cand_facts Hok.
  pose proof (mo_lists _ _ _ Hok) as Hlo. pose proof max_top_pos.
  destruct bottom as [bl tb], top as [tl0 tt]. cbn in *.
  assert (length tl0 = MaxTopNominationsPerCandidate) as Hfull.
  { apply Hlo. intros ->. set_solver. }
  destruct (split_bond _ _ (lo_bottom_nodup _ _ Hlo) Hx) as (l1&l2&->&Hn).
  destruct (lo_bottom_middle _ _ _ _ Hlo) as (Hs&?&?).
  destruct (snoc_cases tl0) as (tl&y&->); [lia|]. destruct (lo_top_snoc _ _ _ Hlo) as (Htl&?&?).
  destruct (lo_split_last _ _ _ Hlo) as [Hall _].
  unfold wp. destruct (decide (amount y < amount x + more)) as [Hgt|Hle].
  - rewrite (increase_bottom_move_run c more self tl y tt l1 x l2 tb); [|done..|sum_lia|done].
    eexists _, _. split_and!; [|done| | |done]; cbn [fst snd].
    + apply cand_ok_write, meta_ok_intro; cbn; try done; [|sum_lia..].
      apply lists_ok_bump; [by eapply lists_ok_rm_bottom|done| |cbn; lia|].
      * rewrite !length_app in *. cbn in *. lia.
      * cbn. pose proof (lo_owners _ _ Hlo) as Hnd. rewrite fmap_app, NoDup_app in Hnd.
        rewrite fmap_app, not_elem_of_app. split; [|done]. intros Hin.
        destruct Hnd as (_&Hd&_). apply (Hd _ Hin). set_solver.
    + cbn. rewrite !insert_desc_perm. solve_perm.
    + cbn. rewrite insert_desc_perm. set_solver.
  - rewrite (increase_bottom_stay_run c more self (Nominations.mk (tl ++ [y]) tt) l1 x l2 tb); [|done..|sum_lia|]; cycle 1.
    { rewrite (meta_lowest_top _ _ _ Hok). cbn. rewrite last_snoc. cbn. lia. }
    eexists _, _. split_and!; [|done| | |done]; cbn [fst snd].
    + apply cand_ok_write, meta_ok_intro; cbn; try done; [|sum_lia..].
      eapply (lists_ok_replace_bottom _ l1 x l2 (amount x + more));
        [done|lia| |apply sort_greatest_sorted|apply sort_greatest_perm].
      apply Forall_app. split; [|by repeat constructor; lia].
      eapply Forall_impl; [exact Hall|]. cbn. lia.
    + cbn. rewrite sort_greatest_perm. solve_perm.
    + cbn. rewrite sort_greatest_perm. set_solver.
Qed.

Lemma increase_nomination_spec c x more self top bottom s :
  cand_ok c self top bottom s → x ∈ noms top ++ noms bottom → 0 <= more →
  bond self + sum_amounts (noms top ++ noms bottom) + more <= u128_max →
  wp (increase_nomination c (owner x) (amount x) more self) s
    (changed_post c x (with_amount x (amount x + more)) self top bottom s) (λ _ _, False).
Proof.
  intros Hco Hx Hm Hr. unfold increase_nomination. eapply wp_choose_list; eauto.
  - by apply Hco.
  - intros. by apply increase_top_spec.
  - intros Hn. by eapply increase_top_absent; [apply Hco|].
  - intros. by apply increase_bottom_spec.
Qed.

(** ** Runs of the three cases of a decrease *)

Lemma decrease_top_absent c n b less self top s :
  Storage.TopNominations s !! c = Some top → n ∉ owner <$> noms top →
  decrease_top_nomination c n b less self s = (Err (Module_ Error.NominationDNE), s).
Proof.
  intros Ht Hn. unfold decrease_top_nomination, mbind, M_bind, gets. rewrite Ht. cbn [ok_or]. m_red.
  rewrite (proj2 (taken_None _ _) Hn). rewrite <-holds_spec in Hn. apply not_true_is_false in Hn.
  rewrite Hn. by match goal with |- context [if ?b then _ else _] => destruct b end.
Qed.
Lemma decrease_top_stay_run c less self l1 x l2 tt bottom s :
  let top := Nominations.mk (l1 ++ x :: l2) tt in
  cand_ok c self top bottom s → owner x ∉ owner <$> (l1 ++ l2) →
  0 <= less <= amount x →
  (noms bottom = [] ∨ highest_bottom_nomination_amount self <= amount x - less) →
  let top' := Nominations.mk (sorted (l1 ++ with_amount x (amount x - less) :: l2)) (tt - less) in
  let self' := meta_of self top' bottom in
  decrease_top_nomination c (owner x) (amount x) less self s =
    (Ok (true, self'), cand_write c self self' top' bottom s).
Proof.
  cbv zeta. intros [Ht Hb Hok] Hx Hm Hstay. cand_facts Hok.
  destruct (lo_top_middle _ _ _ _ (mo_lists _ _ _ Hok)) as (Hs&?&?).
  cbn [Nominations.nominations Nominations.total] in *.
  unfold decrease_top_nomination, mbind, M_bind, gets. rewrite Ht. cbn [ok_or]. m_red.
  match goal with |- context [if ?b then _ else _] => assert (b = false) as -> end.
  { rewrite (sat_sub_small (amount x)) by lia. destruct Hstay as [He|Hle].
    - rewrite (bool_decide_true (bottom_capacity self = Empty))
        by (by apply (meta_bottom_Empty _ _ _ Hok)). by rewrite !andb_false_r.
    - by rewrite bool_decide_false by lia. }
  cbn [Nominations.nominations]. rewrite (proj2 (holds_spec _ _)) by set_solver.
  rewrite adjust_middle; [|done|done|unfold MaxNominations; lia].
  rewrite sum_middle in *. cbn [ensure]. m_red.
  unfold Nominations.sort_greatest_to_least, Nominations.set_total, Nominations.set_nominations.
  cbn [Nominations.nominations Nominations.total].
  rewrite (sat_sub_small tt), (sat_sub_small (amount x)) by lia.
  rewrite reset_top_data_run. unfold put_top, modify, mret, M_ret.
  f_equal; [do 2 f_equal; solve_meta Hok|].
  apply cand_write_fold; [by rewrite put_bottom_id|done|cbn; sat|done].
Qed.
Lemma decrease_top_swap_run c less self l1 x l2 tt h bl tb s :
  let top := Nominations.mk (l1 ++ x :: l2) tt in
  let bottom := Nominations.mk (h :: bl) tb in
  cand_ok c self top bottom s → owner x ∉ owner <$> (l1 ++ l2) →
  0 <= less <= amount x → amount x - less < amount h →
  let top' := Nominations.mk (insert_desc h (l1 ++ l2)) (tt - amount x + amount h) in
  let bottom' := Nominations.mk (insert_desc (with_amount x (amount x - less)) bl)
                   (tb ⊖ amount h ⊕ (amount x - less)) in
  let self' := meta_of self top' bottom' in
  decrease_top_nomination c (owner x) (amount x) less self s =
    (Ok (false, self'), cand_write c self self' top' bottom' s).
Proof.
  cbv zeta. intros [Ht Hb Hok] Hx Hm Hlt. cand_facts Hok. pose proof (mo_lists _ _ _ Hok) as Hlo.
  destruct (lo_top_middle _ _ _ _ Hlo) as (Hs&?&?).
  pose proof (lo_bottom_middle _ [] h bl Hlo) as (Hbl&?&?).
  pose proof (lo_top_first _ _ Hlo ltac:(done)) as Hfull.
  cbn [Nominations.nominations Nominations.total app] in *.
  unfold decrease_top_nomination, mbind, M_bind, gets. rewrite Ht. cbn [ok_or]. m_red.
  match goal with |- context [if ?b then _ else _] => assert (b = true) as -> end.
  { rewrite (sat_sub_small (amount x)), (meta_highest_bottom _ _ _ Hok) by lia. cbn [head from_option].
    rewrite !bool_decide_true by (done || by apply (meta_top_Full _ _ _ Hok)).
    by rewrite bool_decide_false by (by rewrite (meta_bottom_Empty _ _ _ Hok)). }
  cbn [Nominations.nominations Nominations.total].
  rewrite own_middle, taken_middle by done. cbn [ok_or foldl]. m_red.
  rewrite without_middle; [|done|done|unfold MaxNominations; lia]. rewrite Hb. m_red.
  cbn [Nominations.nominations Nominations.total head tail]. m_red.
  unfold put_bottom, modify at 1. m_red. rewrite length_app, sum_middle, sum_cons in *. cbn [length] in *.
  rewrite (sat_sub_small (amount x)) by lia.
  rewrite (insert_sorted_noms h); [|done|cbn; rewrite length_app; unfold MaxNominations; lia].
  rewrite (insert_sorted_noms (Bond.mk _ _)); [|done|cbn; unfold MaxNominations; lia].
  cbn [Nominations.nominations Nominations.total amount].
  rewrite (sat_sub_small tt), (sat_add_small _ (tt - amount x)) by lia.
  rewrite reset_top_data_run. unfold put_top, modify, mret, M_ret.
  f_equal; [do 2 f_equal; solve_meta Hok|].
  apply cand_write_fold; [done|done|cbn; sat|done].
Qed.
Lemma decrease_bottom_run c less self top l1 x l2 tb s :
  let bottom := Nominations.mk (l1 ++ x :: l2) tb in
  cand_ok c self top bottom s → owner x ∉ owner <$> (l1 ++ l2) →
  0 <= less <= amount x →
  let bottom' := Nominations.mk (sorted (l1 ++ with_amount x (amount x - less) :: l2)) tb in
  let self' := meta_of self top bottom' in
  decrease_bottom_nomination c (owner x) less self s =
    (Ok (false, self'), cand_write c self self' top bottom' s).
Proof.
  cbv zeta. intros [Ht Hb Hok] Hx Hm. cand_facts Hok.
  cbn [Nominations.nominations Nominations.total] in *.
  unfold decrease_bottom_nomination, mbind, M_bind, gets. rewrite Hb. m_red.
  cbn [Nominations.nominations]. rewrite (proj2 (holds_spec _ _)) by set_solver.
  rewrite adjust_middle; [|done|done|unfold MaxNominations; lia].
  rewrite (sat_sub_small (amount x)) by lia. cbn [ensure]. m_red.
  unfold Nominations.sort_greatest_to_least, Nominations.set_nominations.
  cbn [Nominations.nominations Nominations.total].
  unfold put_bottom, modify, mret, M_ret. f_equal; [do 2 f_equal; solve_meta Hok|].
  apply bottom_only_write; [done|]. by apply (meta_fields _ _ _ Hok).
Qed.

(** ** What a decrease does *)

Lemma decrease_top_spec c x less self top bottom s :
  cand_ok c self top bottom s → x ∈ noms top → 0 <= less <= amount x →
  wp (decrease_top_nomination c (owner x) (amount x) less self) s
    (changed_post c x (with_amount x (amount x - less)) self top bottom s) (λ _ _, False).
Proof.
  intros Hco Hx Hm. pose proof (co_meta _ _ _ _ _ Hco) as Hok. cand_facts Hok.
  pose proof (mo_lists _ _ _ Hok) as Hlo. destruct top as [tl tt], bottom as [bl0 tb]. cbn in *.
  destruct (split_bond _ _ (lo_top_nodup _ _ Hlo) Hx) as (l1&l2&->&Hn).
  destruct (lo_top_middle _ _ _ _ Hlo) as (Hs&?&?). unfold wp.
  destruct (decide (bl0 = [] ∨ highest_bottom_nomination_amount self <= amount x - less))
    as [Hstay|Hswap].
  - rewrite (decrease_top_stay_run c less self l1 x l2 tt (Nominations.mk bl0 tb)) by done.
    eexists _, _. split_and!; [|done| | |done]; cbn [fst snd].
    + apply cand_ok_write, meta_ok_intro; cbn; try done; [|sum_lia..].
      eapply (lists_ok_replace_top l1 x l2 _ (amount x - less));
        [done|lia| |apply sort_greatest_sorted|apply sort_greatest_perm].
      destruct bl0 as [|h bl]; [done|]. destruct Hstay as [|Hstay]; [done|].
      rewrite (meta_highest_bottom _ _ _ Hok) in Hstay. cbn in Hstay.
      destruct (lo_split_head _ _ _ Hlo) as [_ Hall]. constructor; [done|].
      eapply Forall_impl; [exact Hall|]. cbn. lia.
    + cbn. rewrite sort_greatest_perm. solve_perm.
    + cbn. rewrite sort_greatest_perm. set_solver.
  - destruct bl0 as [|h bl]; [tauto|]. rewrite (meta_highest_bottom _ _ _ Hok) in Hswap. cbn in Hswap.
    pose proof (lo_bottom_middle _ [] h bl Hlo) as (Hbl&?&?). cbn in *.
    destruct (lo_split_head _ _ _ Hlo) as [Htop Hall].
    rewrite (decrease_top_swap_run c less self l1 x l2 tt h bl tb) by (done || lia).
    eexists _, _. split_and!; [|done| | |done]; cbn [fst snd].
    + apply cand_ok_write, meta_ok_intro; cbn; try done; [|sum_lia..].
      rewrite <-Permutation_middle in Htop. apply Forall_cons in Htop as [_ Htop].
      pose proof (lo_top_first _ _ Hlo ltac:(done)) as Hfull. rewrite length_app in Hfull. cbn in *.
      apply lists_ok_add_bottom; [by eapply lists_ok_rm_top_bump| |lia| |cbn; lia|].
      * rewrite insert_desc_length, length_app. lia.
      * rewrite insert_desc_perm. cbn. constructor; [lia|].
        eapply Forall_impl; [exact Htop|]. cbn. lia.
      * pose proof (lo_owners _ _ Hlo) as Hnd. rewrite insert_desc_perm. cbn.
        rewrite <-app_assoc in Hnd. cbn in Hnd. rewrite <-Permutation_middle in Hnd.
        rewrite fmap_cons in Hnd. apply NoDup_cons in Hnd as [Hnd _].
        revert Hnd. rewrite <-app_assoc, !fmap_app. set_solver.
    + cbn. rewrite !insert_desc_perm. solve_perm.
    + cbn. rewrite insert_desc_perm. set_solver.
Qed.
Lemma decrease_bottom_spec c x less self top bottom s :
  cand_ok c self top bottom s → x ∈ noms bottom → 0 <= less <= amount x →
  wp (decrease_bottom_nomination c (owner x) less self) s
    (λ r s', changed_post c x (with_amount x (amount x - less)) self top bottom s r s' ∧
       ∃ bottom', Storage.BottomNominations s' !! c = Some bottom' ∧
         Nominations.total bottom' = Nominations.total bottom ∧
         sum_amounts (noms bottom') = sum_amounts (noms bottom) - less) (λ _ _, False).
Proof.
  intros Hco Hx Hm. pose proof (co_meta _ _ _ _ _ Hco) as Hok. cand_facts Hok.
  pose proof (mo_lists _ _ _ Hok) as Hlo. destruct bottom as [bl tb]. cbn in *.
  destruct (split_bond _ _ (lo_bottom_nodup _ _ Hlo) Hx) as (l1&l2&->&Hn).
  destruct (lo_bottom_middle _ _ _ _ Hlo) as (Hs&?&?).
  unfold wp. rewrite (decrease_bottom_run c less self top l1 x l2 tb) by done.
  split; [|eexists; split_and!; [apply lookup_insert_eq|done|sum_lia]].
  exists top. eexists. split_and!; [|done| | |done]; cbn [fst snd].
  - apply cand_ok_write, meta_ok_intro; cbn; try done; [|sum_lia..].
    eapply (lists_ok_replace_bottom _ l1 x l2 (amount x - less));
      [done|lia| |apply sort_greatest_sorted|apply sort_greatest_perm].
    apply Forall_forall. intros y Hy. pose proof (lo_split _ _ Hlo y x Hy ltac:(set_solver)). cbn. lia.
  - cbn. rewrite sort_greatest_perm. solve_perm.
  - cbn. rewrite sort_greatest_perm. set_solver.
Qed.

Lemma decrease_nomination_spec c x less self top bottom s :
  cand_ok c self top bottom s → x ∈ noms top ++ noms bottom → 0 <= less <= amount x →
  wp (decrease_nomination c (owner x) (amount x) less self) s
    (changed_post c x (with_amount x (amount x - less)) self top bottom s) (λ _ _, False).
Proof.
  intros Hco Hx Hm. unfold decrease_nomination. eapply wp_choose_list; eauto.
  - by apply Hco.
  - intros. by apply decrease_top_spec.
  - intros Hn. by eapply decrease_top_absent; [apply Hco|].
  - intros. eapply wp_mono; [by eapply decrease_bottom_spec| |done]. by intros r s' [? _].
Qed.
End Adjust.
