(* ===== verification/CandidateProps.v ===== *)
(** * Candidates: what the pallet relies on

    The theorems about the nomination lists of a candidate, each with an
    example on the concrete runtime of [Examples]. *)

From S2P Require Import Prelude Slices Sets StakingConfig StakingTypes StakingState NominatorOps.
From S2P Require Import Examples CandidateOps NominationLists BondSets CandidateInv.
From S2P Require Import CandidateAdd CandidateAdjust.

(** ** A candidate with full lists *)

Definition ex_top : Nominations.t :=
  Nominations.mk [Bond.mk 10 50; Bond.mk 11 40; Bond.mk 12 30] 120.
Definition ex_bottom : Nominations.t := Nominations.mk [Bond.mk 13 20; Bond.mk 14 10] 30.
Definition ex_self : CandidateMetadata.t :=
  meta_of (CandidateMetadata.new 100) ex_top ex_bottom.
(** Candidate 1, with nominators 10 to 14; nominator 14 also backs candidate 2. *)
Definition ex_storage : Storage.t :=
  Storage.set_NominatorState
    (<[14%N := Nominator.mk 14 [Bond.mk 1 10; Bond.mk 2 15] 25 0]>
      (list_to_map ((λ p, (p.1, Nominator.mk p.1 [Bond.mk 1 p.2] p.2 0)) <$>
         [(10%N, 50); (11%N, 40); (12%N, 30); (13%N, 20)])))
    (Storage.set_CandidateInfo {[1%N := ex_self]}
      (Storage.set_TopNominations {[1%N := ex_top]}
        (Storage.set_BottomNominations {[1%N := ex_bottom]}
          (Storage.set_CandidatePool [Bond.mk 1 220]
            (Storage.set_Total 265 (empty_chain [1; 2; 10; 11; 12; 13; 14; 20]%N)))))).

Ltac solve_lists_ok :=
  split;
  [ repeat (constructor; unfold ge_amount; cbn; try lia)
  | repeat (constructor; unfold ge_amount; cbn; try lia)
  | cbn; lia | cbn; lia | done
  | intros x y Hx Hy; cbn in Hx, Hy;
    repeat (apply elem_of_cons in Hx as [->|Hx]; [|]); try (by apply elem_of_nil in Hx);
    repeat (apply elem_of_cons in Hy as [->|Hy]; [|]); try (by apply elem_of_nil in Hy); cbn; lia
  | apply (bool_decide_unpack _); by vm_compute
  | repeat (constructor; cbn; try lia) ].

Lemma ex_cand_ok : cand_ok 1 ex_self ex_top ex_bottom ex_storage.
Proof.
  split; [done|done|]. apply meta_ok_intro; cbn; [solve_lists_ok|done|done|lia|].
  unfold u128_max. vm_compute. congruence.
Qed.
Lemma ex_addable a :
  0 <= a <= 1000 → addable 1 (Bond.mk 20 a) ex_self ex_top ex_bottom ex_storage.
Proof.
  intros Ha. split; [apply ex_cand_ok|apply (bool_decide_unpack _); by vm_compute|cbn; lia| |].
  - change (sum_amounts _) with 150. cbn. unfold u128_max. lia.
  - intros k [= <-] _. eexists. split; [done|]. cbn. split_and!; [|unfold MaxCloneableNominations; lia|done].
    repeat constructor.
Qed.

(** ** Adding, removing, changing *)

(** C31: adding a nomination keeps the candidate's metadata and its two sorted,
    bounded lists consistent.  The nomination enters the top exactly when it
    exceeds the lowest top nomination or the top has room, the list that is
    full passes its lowest nomination on, and the only nomination lost is the
    lowest bottom one, which is less than the new one and is taken out of its
    nominator's state.  The call fails only when both lists are full and the
    amount does not exceed the lowest bottom nomination, without any write. *)
Theorem add_nomination_correct `{ConfigOk} c nom self top bottom s :
  addable c nom self top bottom s →
  wp (Candidate.add_nomination c nom self) s
    (added_post c nom self top bottom s)
    (λ e s', e = Error.CannotNominateLessThanOrEqualToLowestBottomWhenFull ∧ s' = s ∧
       CandidateMetadata.top_capacity self = Full ∧
       CandidateMetadata.bottom_capacity self = Full ∧
       amount nom <= CandidateMetadata.lowest_bottom_nomination_amount self).
Proof. apply add_nomination_spec. Qed.
Lemma add_nomination_witness :
  addable 1 (Bond.mk 20 45) ex_self ex_top ex_bottom ex_storage ∧
  wp (Candidate.add_nomination 1 (Bond.mk 20 45) ex_self) ex_storage
    (added_post 1 (Bond.mk 20 45) ex_self ex_top ex_bottom ex_storage)
    (λ e s', e = Error.CannotNominateLessThanOrEqualToLowestBottomWhenFull ∧ s' = ex_storage ∧
       CandidateMetadata.top_capacity ex_self = Full ∧
       CandidateMetadata.bottom_capacity ex_self = Full ∧
       45 <= CandidateMetadata.lowest_bottom_nomination_amount ex_self) ∧
  (Candidate.add_nomination 1 (Bond.mk 20 45) ex_self ex_storage).1 =
    Ok (AddedToTop 235, Some 10,
        CandidateMetadata.mk 100 5 235 40 30 20 Full Full None Active).
Proof.
  assert (addable 1 (Bond.mk 20 45) ex_self ex_top ex_bottom ex_storage) as Had
    by (apply ex_addable; lia).
  split_and!; [done|exact (add_nomination_correct _ _ _ _ _ _ Had)|by vm_compute].
Defined.

(** Removing a nomination the candidate holds succeeds, takes exactly that
    nomination out of the lists, refills the top from the bottom and keeps the
    metadata consistent; only the lists, and the pool entry of an active
    candidate whose counted total changed, are written. *)
Theorem rm_nomination_correct `{ConfigOk} c x self top bottom s :
  cand_ok c self top bottom s → x ∈ noms top ++ noms bottom →
  wp (Candidate.rm_nomination_if_exists c (owner x) (amount x) self) s
    (λ r s', removed_post c x self top bottom s r.2 s') (λ _ _, False).
Proof. apply rm_nomination_if_exists_spec. Qed.
Lemma rm_nomination_witness :
  Bond.mk 11 40 ∈ noms ex_top ++ noms ex_bottom ∧
  wp (Candidate.rm_nomination_if_exists 1 11 40 ex_self) ex_storage
    (λ r s', removed_post 1 (Bond.mk 11 40) ex_self ex_top ex_bottom ex_storage r.2 s')
    (λ _ _, False) ∧
  (Candidate.rm_nomination_if_exists 1 11 40 ex_self ex_storage).1 =
    Ok (false, CandidateMetadata.mk 100 4 200 20 10 10 Full Partial None Active).
Proof.
  assert (Bond.mk 11 40 ∈ noms ex_top ++ noms ex_bottom) as Hin by (cbn; set_solver).
  split_and!; [done| |by vm_compute].
  exact (rm_nomination_correct 1 (Bond.mk 11 40) _ _ _ _ ex_cand_ok Hin).
Defined.

(** Increasing a nomination replaces its amount and nothing else, moving it
    from the bottom to the top exactly when the new amount exceeds the lowest
    top nomination; the reported position is the list that holds it
    afterwards, and the metadata stays consistent. *)
Theorem increase_nomination_correct `{ConfigOk} c x more self top bottom s :
  cand_ok c self top bottom s → x ∈ noms top ++ noms bottom → 0 <= more →
  CandidateMetadata.bond self + sum_amounts (noms top ++ noms bottom) + more <= u128_max →
  wp (Candidate.increase_nomination c (owner x) (amount x) more self) s
    (changed_post c x (with_amount x (amount x + more)) self top bottom s) (λ _ _, False).
Proof. apply increase_nomination_spec. Qed.
Lemma increase_nomination_witness :
  wp (Candidate.increase_nomination 1 14 10 25 ex_self) ex_storage
    (changed_post 1 (Bond.mk 14 10) (Bond.mk 14 35) ex_self ex_top ex_bottom ex_storage)
    (λ _ _, False) ∧
  (Candidate.increase_nomination 1 14 10 25 ex_self ex_storage).1 =
    Ok (true, CandidateMetadata.mk 100 5 225 35 30 20 Full Full None Active).
Proof.
  split; [|by vm_compute].
  apply (increase_nomination_correct 1 (Bond.mk 14 10) 25 _ _ _ _ ex_cand_ok);
    [cbn; set_solver|lia|]. vm_compute. congruence.
Defined.

(** Decreasing a nomination by at most its amount replaces its amount and
    nothing else; a top nomination that falls below the highest bottom one
    changes place with it, and the metadata stays consistent. *)
Theorem decrease_nomination_correct `{ConfigOk} c x less self top bottom s :
  cand_ok c self top bottom s → x ∈ noms top ++ noms bottom → 0 <= less <= amount x →
  wp (Candidate.decrease_nomination c (owner x) (amount x) less self) s
    (changed_post c x (with_amount x (amount x - less)) self top bottom s) (λ _ _, False).
Proof. apply decrease_nomination_spec. Qed.
Lemma decrease_nomination_witness :
  wp (Candidate.decrease_nomination 1 10 50 35 ex_self) ex_storage
    (changed_post 1 (Bond.mk 10 50) (Bond.mk 10 15) ex_self ex_top ex_bottom ex_storage)
    (λ _ _, False) ∧
  (Candidate.decrease_nomination 1 10 50 35 ex_self ex_storage).1 =
    Ok (false, CandidateMetadata.mk 100 5 190 20 15 10 Full Full None Active).
Proof.
  split; [|by vm_compute].
  apply (decrease_nomination_correct 1 (Bond.mk 10 50) 35 _ _ _ _ ex_cand_ok);
    [cbn; set_solver|cbn; lia].
Defined.

(** The counted total of a candidate is its self bond plus the best backing
    its nominators can give it: no choice of at most
    [MaxTopNominationsPerCandidate] of all its nominations, top and bottom,
    is worth more than the counted ones. *)
Theorem total_counted_optimal `{ConfigOk} c self top bottom s l :
  cand_ok c self top bottom s →
  l ⊆+ noms top ++ noms bottom → (length l ≤ MaxTopNominationsPerCandidate)%nat →
  CandidateMetadata.bond self + sum_amounts l <= CandidateMetadata.total_counted self.
Proof.
  intros [_ _ Hok] Hl Hlen. destruct (meta_fields _ _ _ Hok) as (_&->&_).
  rewrite (mo_top_total _ _ _ Hok).
  pose proof (lists_ok_optimal _ _ l (mo_lists _ _ _ Hok) Hl Hlen). lia.
Qed.
Lemma total_counted_optimal_witness :
  CandidateMetadata.bond ex_self + sum_amounts [Bond.mk 13 20; Bond.mk 10 50; Bond.mk 11 40]
    <= CandidateMetadata.total_counted ex_self.
Proof.
  apply (total_counted_optimal 1 _ _ _ ex_storage _ ex_cand_ok); [|cbn; lia].
  apply (bool_decide_unpack _). by vm_compute.
Defined.

(** [insert_sorted_greatest_to_least], with its binary search and its loop
    over equal amounts, is insertion behind every nomination at least as large
    (first come, first served), as long as the vector has room. *)
Theorem insert_sorted_correct (nomination : Bond.t) (self : Nominations.t) :
  desc (noms self) → (length (noms self) < MaxNominations)%nat →
  Nominations.insert_sorted_greatest_to_least nomination self =
    Nominations.mk (insert_desc nomination (noms self))
      (Nominations.total self ⊕ amount nomination).
Proof. apply insert_sorted_noms. Qed.
Lemma insert_sorted_witness :
  Nominations.insert_sorted_greatest_to_least (Bond.mk 20 40) ex_top =
    Nominations.mk [Bond.mk 10 50; Bond.mk 11 40; Bond.mk 20 40; Bond.mk 12 30] 160.
Proof.
  rewrite (insert_sorted_correct (Bond.mk 20 40) ex_top);
    [by vm_compute| |cbn; unfold MaxNominations; lia].
  repeat (constructor; unfold ge_amount; cbn; try lia).
Defined.

(** [update_active] stores the new total of a pooled candidate, adds a
    candidate while the pool has room and otherwise changes nothing; the pool
    stays a strictly ordered vector, one entry per candidate. *)
Theorem update_active_correct `{ConfigOk} c total s :
  set_ok (Storage.CandidatePool s) →
  (length (Storage.CandidatePool s) ≤ MaxCandidates)%nat →
  let pool := Storage.CandidatePool s in
  let pool' := Storage.CandidatePool (update_active c total s).2 in
  (update_active c total s).1 = Ok () ∧ set_ok pool' ∧
  bond_map pool' =
    if bool_decide (c ∈ owner <$> pool ∨ (length pool < MaxCandidates)%nat)
    then <[c := total]> (bond_map pool) else bond_map pool.
Proof.
  intros Hok Hlen. cbv zeta. destruct (pool_update_spec c total _ Hok) as (Hok'&Hin&Hfull).
  split; [done|]. split; [done|]. case_bool_decide as Hc; [apply Hin; tauto|].
  cbn. rewrite Hfull; [done|tauto|lia].
Qed.
Lemma update_active_witness :
  bond_map (Storage.CandidatePool (update_active 1 300 ex_storage).2) =
    <[1%N := 300]> (bond_map [Bond.mk 1 220]).
Proof.
  destruct (update_active_correct 1 300 ex_storage) as (_&_&->);
    [repeat constructor|cbn; lia|]. by rewrite bool_decide_true by (left; cbn; set_solver).
Defined.

(** A decrease within the bottom list lowers the nomination but not the
    stored [total] of the list, which from then on exceeds the sum of its
    nominations by the decrease. *)
Theorem decrease_bottom_total_stale `{ConfigOk} c x less self top bottom s :
  cand_ok c self top bottom s → x ∈ noms bottom → 0 <= less <= amount x →
  Nominations.total bottom = sum_amounts (noms bottom) →
  wp (Candidate.decrease_bottom_nomination c (owner x) less self) s
    (λ r s', ∃ bottom', Storage.BottomNominations s' !! c = Some bottom' ∧
       Nominations.total bottom' = sum_amounts (noms bottom') + less)
    (λ _ _, False).
Proof.
  intros Hco Hx Hl Htot. eapply wp_mono; [by eapply decrease_bottom_spec| |done].
  intros r s' [_ (bottom'&Hb&Ht&Hsum)]. exists bottom'. split; [done|]. lia.
Qed.
Lemma decrease_bottom_total_witness :
  wp (Candidate.decrease_bottom_nomination 1 13 5 ex_self) ex_storage
    (λ r s', ∃ bottom', Storage.BottomNominations s' !! 1%N = Some bottom' ∧
       Nominations.total bottom' = sum_amounts (noms bottom') + 5)
    (λ _ _, False).
Proof.
  apply (decrease_bottom_total_stale 1 (Bond.mk 13 20) 5 _ _ _ _ ex_cand_ok);
    [cbn; set_solver|cbn; lia|done].
Defined.

(** The boolean of [rm_top_nomination] says that the counted total is
    unchanged. *)
Theorem rm_top_reports_unchanged `{ConfigOk} c x self top bottom s :
  cand_ok c self top bottom s → x ∈ noms top →
  wp (Candidate.rm_top_nomination c (owner x) self) s
    (λ r _, r.1 = true ↔
       CandidateMetadata.total_counted r.2 = CandidateMetadata.total_counted self)
    (λ _ _, False).
Proof.
  intros Hco Hx. eapply wp_mono; [by eapply rm_top_spec| |done].
  intros r s' [-> _]. rewrite bool_decide_eq_true. split; congruence.
Qed.
Lemma rm_top_reports_witness :
  wp (Candidate.rm_top_nomination 1 10 ex_self) ex_storage
    (λ r _, r.1 = true ↔
       CandidateMetadata.total_counted r.2 = CandidateMetadata.total_counted ex_self)
    (λ _ _, False).
Proof.
  apply (rm_top_reports_unchanged 1 (Bond.mk 10 50) _ _ _ _ ex_cand_ok). cbn; set_solver.
Defined.
