(* ===== verification/RequestFacts.v ===== *)
(** * Requests: the runs of scheduling and cancelling

    What scheduling a request and cancelling one write, and the position of a
    nominator's request in the vector of a collator. *)

From S2P Require Import Prelude Slices Sets StakingConfig StakingTypes StakingState.
From S2P Require Import NominatorOps Examples CandidateOps Requests NominationLists.
From S2P Require Import BondSets CandidateProps.

Section Facts.
Context `{Config}.
Implicit Types (c n : AccountId) (s : Storage.t).

(** Reading the requests of a collator after they were stored. *)
Lemma scheduled_requests_put c d reqs s :
  scheduled_requests d (Storage.upd_NominationScheduledRequests (insert c reqs) s) =
    if bool_decide (c = d) then reqs else scheduled_requests d s.
Proof.
  unfold scheduled_requests. cbn. case_bool_decide as Hcd.
  - subst. by rewrite lookup_insert_eq.
  - by rewrite lookup_insert_ne.
Qed.
Lemma position_of_None n reqs :
  position_of n reqs = None ↔ n ∉ ScheduledRequest.nominator <$> reqs.
Proof.
  unfold position_of. rewrite position_None, Forall_forall, list_elem_of_fmap.
  setoid_rewrite bool_decide_eq_false. naive_solver.
Qed.
Lemma position_of_snoc n reqs req :
  position_of n reqs = None → ScheduledRequest.nominator req = n →
  position_of n (reqs ++ [req]) = Some (length reqs).
Proof.
  unfold position_of. rewrite position_None. intros Hn Hr.
  apply position_app_cons; [done|by apply bool_decide_eq_true].
Qed.

(** Storage with a request of [n] towards [c] appended and its amount set
    aside, as both ways of scheduling leave it. *)
Definition with_request c n (st : Nominator.t) (req : ScheduledRequest.t) (e : Event.t) s :
    Storage.t :=
  Storage.upd_events (λ l, l ++ [e])
    (Storage.upd_NominatorState
       (insert n (Nominator.set_less_total
          (Nominator.less_total st ⊕ NominationAction.amount (ScheduledRequest.action req)) st))
       (Storage.upd_NominationScheduledRequests
          (insert c (scheduled_requests c s ++ [req])) s)).

Lemma put_nominator_id n st s :
  Storage.NominatorState s !! n = Some st →
  Storage.upd_NominatorState (insert n st) s = s.
Proof. intros Hn. unfold Storage.upd_NominatorState. rewrite insert_id by done. by destruct s. Qed.

Lemma cancel_request_run c n st reqs req s :
  Storage.NominatorState s !! n = Some st →
  scheduled_requests c s = reqs ++ [req] → position_of n reqs = None →
  ScheduledRequest.nominator req = n →
  nomination_cancel_request c n s =
    (Ok (), Storage.upd_events
       (λ l, l ++ [Event.CancelledNominationRequest n (ScheduledRequest.when_executable req)
                     (ScheduledRequest.action req) c])
       (Storage.upd_NominatorState
          (insert n (Nominator.set_less_total
             (Nominator.less_total st ⊖ NominationAction.amount (ScheduledRequest.action req)) st))
          (Storage.upd_NominationScheduledRequests (insert c reqs) s))).
Proof.
  intros Hst Hreqs Hn Hr. unfold nomination_cancel_request, get_nominator, mbind, M_bind, gets.
  rewrite Hst. cbn [ok_or]. m_red. rewrite Hreqs. unfold cancel_request_with_state.
  rewrite position_of_snoc by done. cbn [mbind option_bind].
  rewrite list_lookup_middle by done. cbn [mbind option_bind ok_or]. m_red.
  by rewrite delete_middle, app_nil_r.
Qed.

(** Cancelling takes back what scheduling did. *)
Lemma cancel_with_request c n st req e s :
  Storage.NominatorState s !! n = Some st →
  position_of n (scheduled_requests c s) = None →
  ScheduledRequest.nominator req = n →
  0 <= NominationAction.amount (ScheduledRequest.action req) →
  0 <= Nominator.less_total st →
  Nominator.less_total st + NominationAction.amount (ScheduledRequest.action req) <= u128_max →
  nomination_cancel_request c n (with_request c n st req e s) =
    (Ok (), Storage.upd_events
       (λ l, (l ++ [e]) ++
          [Event.CancelledNominationRequest n (ScheduledRequest.when_executable req)
             (ScheduledRequest.action req) c])
       (Storage.upd_NominationScheduledRequests (insert c (scheduled_requests c s)) s)).
Proof.
  intros Hst Hn Hr Ha Hless Hmax.
  rewrite (cancel_request_run c n (Nominator.set_less_total
    (Nominator.less_total st ⊕ NominationAction.amount (ScheduledRequest.action req)) st)
    (scheduled_requests c s) req); [|apply lookup_insert_eq| |done|done]; cycle 1.
  { unfold with_request, scheduled_requests. cbn. by rewrite lookup_insert_eq. }
  f_equal. unfold with_request, Storage.upd_events, Storage.upd_NominatorState,
    Storage.upd_NominationScheduledRequests. cbn. rewrite !insert_insert_eq.
  rewrite (insert_id (Storage.NominatorState s)); [done|]. rewrite Hst. f_equal.
  destruct st as [id l total less]. unfold Nominator.set_less_total. cbn in *.
  rewrite sat_add_small, sat_sub_small by lia. f_equal. lia.
Qed.

(** Both ways of scheduling append a request, unless the vector is full. *)
Lemma try_push_cases {A} cap (l : list A) x :
  try_push cap l x = if bool_decide (length l < cap)%nat then Some (l ++ [x]) else None.
Proof. done. Qed.
Lemma schedule_revoke_run c n s s' :
  nomination_schedule_revoke c n s = (Ok (), s') →
  ∃ st a, Storage.NominatorState s !! n = Some st ∧
    position_of n (scheduled_requests c s) = None ∧
    Nominator.get_bond_amount c st = Some a ∧
    let now := EraInfo.current (Storage.Era s) in
    let when := now ⊕₃₂ Storage.Delay s in
    s' = if bool_decide (length (scheduled_requests c s) < MaxNominationsPerNominator)%nat
         then with_request c n st (ScheduledRequest.mk n when (NominationAction.Revoke a))
                (Event.NominationRevocationScheduled now n c when) s
         else s.
Proof.
  unfold nomination_schedule_revoke, get_nominator, executable_at. intros Hrun. m_inv.
  rewrite bool_decide_eq_true in *. subst. eexists _, _. split_and!; [done..|].
  match goal with Hp : context [try_push] |- _ => rewrite try_push_cases in Hp end.
  unfold put_requests, put_nominator, deposit_event in *.
  destruct (bool_decide (length _ < _)%nat); m_inv; by subst.
Qed.
Lemma schedule_decrease_run c n a s s' :
  nomination_schedule_bond_decrease c n a s = (Ok (), s') →
  ∃ st b, Storage.NominatorState s !! n = Some st ∧
    position_of n (scheduled_requests c s) = None ∧
    Nominator.get_bond_amount c st = Some b ∧ a < b ∧ MinNominationPerCollator <= b - a ∧
    a <= Nominator.total st ⊖ Nominator.less_total st ⊖ Storage.MinTotalNominatorStake s ∧
    let now := EraInfo.current (Storage.Era s) in
    let when := now ⊕₃₂ Storage.Delay s in
    s' = if bool_decide (length (scheduled_requests c s) < MaxNominationsPerNominator)%nat
         then with_request c n st (ScheduledRequest.mk n when (NominationAction.Decrease a))
                (Event.NominationDecreaseScheduled n c a when) s
         else s.
Proof.
  unfold nomination_schedule_bond_decrease, get_nominator, executable_at. intros Hrun. m_inv.
  rewrite bool_decide_eq_true in *. subst. eexists _, _. split_and!; [done..|].
  match goal with Hp : context [try_push] |- _ => rewrite try_push_cases in Hp end.
  unfold put_requests, put_nominator, deposit_event in *.
  destruct (bool_decide (length _ < _)%nat); m_inv; by subst.
Qed.
End Facts.

(** * Requests: scheduling, cancelling, executing

    What happens to a request of a nominator between its scheduling and its
    execution. *)

(** A request of a nominator: revoking a nomination, or decreasing it. *)
Inductive scheduling `{Config} (c n : AccountId) : Dispatch unit → Prop :=
  | scheduling_revoke : scheduling c n (nomination_schedule_revoke c n)
  | scheduling_decrease a :
      0 <= a → scheduling c n (nomination_schedule_bond_decrease c n a).

Lemma get_bond_amount_range c st a max :
  Nominator.get_bond_amount c st = Some a →
  Forall (λ b, 0 <= amount b <= max) (Nominator.nominations st) → 0 <= a <= max.
Proof.
  intros ([i b]&(Hi&_&_)%list_find_Some&->)%fmap_Some Hpos. cbn.
  rewrite Forall_forall in Hpos. apply Hpos, list_elem_of_lookup. eauto.
Qed.
Lemma scheduling_run `{Config} c n m s s' st max :
  scheduling c n m → m s = (Ok (), s') →
  Storage.NominatorState s !! n = Some st →
  Forall (λ b, 0 <= amount b <= max) (Nominator.nominations st) →
  (length (scheduled_requests c s) < MaxNominationsPerNominator)%nat →
  position_of n (scheduled_requests c s) = None ∧
  ∃ req e, s' = with_request c n st req e s ∧ ScheduledRequest.nominator req = n ∧
    ScheduledRequest.when_executable req =
      EraInfo.current (Storage.Era s) ⊕₃₂ Storage.Delay s ∧
    0 <= NominationAction.amount (ScheduledRequest.action req) <= max.
Proof.
  intros Hm Hrun Hst Hpos Hlen. destruct Hm as [|a Ha].
  - apply schedule_revoke_run in Hrun as (st'&a&Hst'&Hp&Hb&->). simplify_eq.
    rewrite bool_decide_true by done. split; [done|].
    pose proof (get_bond_amount_range _ _ _ _ Hb Hpos).
    eexists _, _. split_and!; [done..|cbn; lia|cbn; lia].
  - apply schedule_decrease_run in Hrun as (st'&b&Hst'&Hp&Hb&Hab&_&_&->). simplify_eq.
    rewrite bool_decide_true by done. split; [done|].
    pose proof (get_bond_amount_range _ _ _ _ Hb Hpos).
    eexists _, _. split_and!; [done..|cbn; lia].
Qed.

(** ** The properties *)

(** A request that was scheduled can be cancelled: the cancellation
    succeeds and puts storage back as it was before the scheduling, up to the
    two events (and a request vector that may now be stored explicitly
    empty). *)
Theorem schedule_cancel_roundtrip `{Config} c n m s s' st :
  scheduling c n m → m s = (Ok (), s') →
  Storage.NominatorState s !! n = Some st → 0 <= Nominator.less_total st →
  Forall (λ b, 0 <= amount b <= u128_max - Nominator.less_total st) (Nominator.nominations st) →
  (length (scheduled_requests c s) < MaxNominationsPerNominator)%nat →
  ∃ e1 e2, nomination_cancel_request c n s' =
    (Ok (), Storage.upd_events (λ l, (l ++ [e1]) ++ [e2])
       (Storage.upd_NominationScheduledRequests (insert c (scheduled_requests c s)) s)).
Proof.
  intros Hm Hrun Hst Hless Hpos Hlen.
  destruct (scheduling_run _ _ _ _ _ _ _ Hm Hrun Hst Hpos Hlen) as (Hp&req&e&->&Hr&_&Ha).
  eexists e, _. apply cancel_with_request; [done..|lia|done|lia].
Qed.
Lemma schedule_cancel_witness :
  ∃ s' e1 e2, nomination_schedule_bond_decrease 1 10 5 ex_storage = (Ok (), s') ∧
    nomination_cancel_request 1 10 s' =
    (Ok (), Storage.upd_events (λ l, (l ++ [e1]) ++ [e2])
       (Storage.upd_NominationScheduledRequests
          (insert 1%N (scheduled_requests 1 ex_storage)) ex_storage)).
Proof.
  exists (nomination_schedule_bond_decrease 1 10 5 ex_storage).2.
  destruct (schedule_cancel_roundtrip 1 10 (nomination_schedule_bond_decrease 1 10 5)
    ex_storage (nomination_schedule_bond_decrease 1 10 5 ex_storage).2
    (Nominator.mk 10 [Bond.mk 1 50] 50 0)) as (e1&e2&He);
    [constructor; lia|done|done|cbn; lia| |vm_compute; lia|].
  { constructor; [|constructor]. unfold u128_max. cbn. lia. }
  exists e1, e2. split; [reflexivity|exact He].
Defined.

(** A request towards a collator whose request vector is full is not
    recorded, and the call reports success all the same: it returns [Ok] and
    leaves storage as it was. *)
Theorem schedule_full_is_lost `{Config} c n m s s' :
  scheduling c n m → m s = (Ok (), s') →
  (MaxNominationsPerNominator ≤ length (scheduled_requests c s))%nat →
  s' = s.
Proof.
  intros Hm Hrun Hlen. destruct Hm as [|a Ha].
  - apply schedule_revoke_run in Hrun as (st&a&_&_&_&->). by rewrite bool_decide_false by lia.
  - apply schedule_decrease_run in Hrun as (st&b&_&_&_&_&_&_&->).
    by rewrite bool_decide_false by lia.
Qed.
(** Four other nominators of candidate 1 have requests pending. *)
Definition ex_full_requests : Storage.t :=
  Storage.set_NominationScheduledRequests
    {[1%N := (λ n, ScheduledRequest.mk n 3 (NominationAction.Decrease 1)) <$> [11; 12; 13; 14]%N]}
    ex_storage.
Lemma schedule_full_witness :
  (nomination_schedule_revoke 1 10 ex_full_requests).1 = Ok () ∧
  (nomination_schedule_revoke 1 10 ex_full_requests).2 = ex_full_requests.
Proof.
  split; [by vm_compute|].
  apply (schedule_full_is_lost 1 10 (nomination_schedule_revoke 1 10));
    [apply scheduling_revoke|reflexivity|vm_compute; lia].
Defined.

(** A request can be executed only after its delay: before the era it
    becomes executable the call fails and writes nothing. *)
Theorem execute_request_not_due `{Config} c n st i req s :
  Storage.NominatorState s !! n = Some st →
  position_of n (scheduled_requests c s) = Some i →
  scheduled_requests c s !! i = Some req →
  EraInfo.current (Storage.Era s) < ScheduledRequest.when_executable req →
  nomination_execute_scheduled_request c n s =
    (Err (Module_ Error.PendingNominationRequestNotDueYet), s).
Proof.
  intros Hst Hp Hi Hdue. unfold nomination_execute_scheduled_request, get_nominator.
  unfold mbind, M_bind, gets. rewrite Hst. cbn [ok_or]. m_red. rewrite Hp. cbn [ok_or]. m_red.
  rewrite Hi. m_red. by rewrite bool_decide_false by (cbn; lia).
Qed.
Lemma execute_request_witness :
  nomination_execute_scheduled_request 1 12 ex_full_requests =
    (Err (Module_ Error.PendingNominationRequestNotDueYet), ex_full_requests).
Proof.
  eapply (execute_request_not_due 1 12); [done|by vm_compute|done|by vm_compute].
Defined.
