(* ===== verification/StakingInv.v ===== *)
(** * The staking invariant

    The pallet stores every nomination twice: in the state of the nominator
    and in the top or bottom list of the candidate.  [core_ok] says that the
    two agree, that every candidate's metadata describes its lists, that the
    pool holds the active candidates with their counted totals, that pending
    requests are backed by nominations and accounted for in [less_total], and
    that what is staked is covered by free balances.  It is stated on the
    stored maps themselves, so that a loop can be reasoned about with maps
    that storage does not hold yet. *)

From S2P Require Import Prelude Slices Sets StakingConfig StakingTypes StakingState NominatorOps.
From S2P Require Import CandidateOps NominationLists BondSets CandidateInv.

Abbreviation Requests := (gmap AccountId (list ScheduledRequest.t)).
Abbreviation Candidates := (gmap AccountId CandidateMetadata.t).
Abbreviation Nominators := (gmap AccountId Nominator.t).
Abbreviation Lists := (gmap AccountId Nominations.t).

(** ** Nominations, from both sides *)

Definition reqs_of (R : Requests) (c : AccountId) : list ScheduledRequest.t := unwrap_or [] (R !! c).
Definition cand_bonds (T B : Lists) (c : AccountId) : gmap AccountId Balance :=
  match T !! c, B !! c with
  | Some top, Some bottom => bond_map (noms top ++ noms bottom)
  | _, _ => ∅
  end.
Definition bonds_of (o : option Nominator.t) : gmap AccountId Balance :=
  from_option (λ st, bond_map (Nominator.nominations st)) ∅ o.
Definition nom_bonds (NS : Nominators) (n : AccountId) : gmap AccountId Balance :=
  bonds_of (NS !! n).

(** What a nominator asked to take out of one collator, and out of all. *)
Definition asked (n : AccountId) (l : list ScheduledRequest.t) : Balance :=
  sum_of (λ r, if decide (ScheduledRequest.nominator r = n)
               then NominationAction.amount (ScheduledRequest.action r) else 0) l.
Definition pending (R : Requests) (n : AccountId) (l : list Bond.t) : Balance :=
  sum_of (λ b, asked n (reqs_of R (owner b))) l.

(** ** The parts of the invariant *)

Section Parts.
Context `{Config}.

(** A pending decrease of the self bond stays below the bond. *)
Definition unbond_ok (self : CandidateMetadata.t) : Prop :=
  match CandidateMetadata.request self with
  | Some r => 0 <= CandidateBondLessRequest.amount r < CandidateMetadata.bond self
  | None => True
  end.
Definition candidate_ok (T B : Lists) (c : AccountId) (o : option CandidateMetadata.t) : Prop :=
  match o with
  | Some self => ∃ top bottom, T !! c = Some top ∧ B !! c = Some bottom ∧
      meta_ok self top bottom ∧ unbond_ok self
  | None => T !! c = None ∧ B !! c = None
  end.
Definition cands_ok (C : Candidates) (T B : Lists) : Prop := ∀ c, candidate_ok T B c (C !! c).

Record nominator_ok (R : Requests) (n : AccountId) (st : Nominator.t) : Prop := {
  no_id : Nominator.id st = n;
  no_set : set_ok (Nominator.nominations st);
  no_len : (length (Nominator.nominations st) ≤ MaxNominationsPerNominator)%nat;
  no_nonempty : Nominator.nominations st ≠ [];
  no_amounts : Forall (λ b, MinNominationPerCollator <= amount b) (Nominator.nominations st);
  no_total : Nominator.total st = sum_amounts (Nominator.nominations st);
  no_less : Nominator.less_total st = pending R n (Nominator.nominations st);
}.
Definition noms_ok (NS : Nominators) (R : Requests) : Prop :=
  ∀ n st, NS !! n = Some st → nominator_ok R n st.

Definition linked (T B : Lists) (NS : Nominators) : Prop :=
  ∀ c n, cand_bonds T B c !! n = nom_bonds NS n !! c.

Definition action_ok (a : Balance) (act : NominationAction.t) : Prop :=
  match act with
  | NominationAction.Revoke b => b = a
  | NominationAction.Decrease b => 0 <= b ∧ MinNominationPerCollator <= a - b
  end.
Record vector_ok (NS : Nominators) (c : AccountId) (l : list ScheduledRequest.t) : Prop := {
  vo_nodup : NoDup (ScheduledRequest.nominator <$> l);
  vo_len : (length l ≤ MaxNominationsPerNominator)%nat;
  vo_backed : ∀ r, r ∈ l → ∃ a, nom_bonds NS (ScheduledRequest.nominator r) !! c = Some a ∧
                              action_ok a (ScheduledRequest.action r);
}.
Definition reqs_ok (R : Requests) (NS : Nominators) : Prop :=
  ∀ c, vector_ok NS c (reqs_of R c).

Definition pool_total (self : CandidateMetadata.t) : option Balance :=
  if CandidateMetadata.is_active self then Some (CandidateMetadata.total_counted self) else None.
Record pool_ok (C : Candidates) (P : list Bond.t) : Prop := {
  po_set : set_ok P;
  po_len : (length P ≤ MaxCandidates)%nat;
  po_total : ∀ c, bond_map P !! c = C !! c ≫= pool_total;
}.

(** No account is both a candidate and a nominator. *)
Definition apart (C : Candidates) (NS : Nominators) : Prop :=
  ∀ a, C !! a = None ∨ NS !! a = None.
(** [f]: the free balance of an account. *)
Record covered (f : AccountId → Balance) (C : Candidates) (NS : Nominators) : Prop := {
  cov_cand : ∀ c self, C !! c = Some self → CandidateMetadata.bond self <= f c;
  cov_nom : ∀ n st, NS !! n = Some st → Nominator.total st <= f n;
}.

(** The maps the invariant is about. *)
Record core : Type := Core {
  k_cand : Candidates;
  k_top : Lists;
  k_bottom : Lists;
  k_nom : Nominators;
  k_req : Requests;
  k_pool : list Bond.t;
}.
Record core_ok (f : AccountId → Balance) (k : core) : Prop := {
  ok_cands : cands_ok (k_cand k) (k_top k) (k_bottom k);
  ok_noms : noms_ok (k_nom k) (k_req k);
  ok_linked : linked (k_top k) (k_bottom k) (k_nom k);
  ok_reqs : reqs_ok (k_req k) (k_nom k);
  ok_pool : pool_ok (k_cand k) (k_pool k);
  ok_apart : apart (k_cand k) (k_nom k);
  ok_covered : covered f (k_cand k) (k_nom k);
}.

(** All free balances together are an amount of the currency. *)
Definition issuance_ok (f : AccountId → Balance) : Prop :=
  ∀ l, NoDup l → sum_of f l <= u128_max.

Definition core_of (s : Storage.t) : core :=
  Core (Storage.CandidateInfo s) (Storage.TopNominations s) (Storage.BottomNominations s)
    (Storage.NominatorState s) (Storage.NominationScheduledRequests s) (Storage.CandidatePool s).
Definition free_of_chain (s : Storage.t) : AccountId → Balance := free_balance (Storage.Balances s).

Record staking_ok (s : Storage.t) : Prop := {
  so_core : core_ok (free_of_chain s) (core_of s);
  so_issuance : issuance_ok (free_of_chain s);
  so_min : MinNominationPerCollator <= Storage.MinTotalNominatorStake s;
}.
End Parts.

Lemma no_min `{Config} R n st c a :
  nominator_ok R n st → bond_map (Nominator.nominations st) !! c = Some a →
  MinNominationPerCollator <= a.
Proof.
  intros Hno Ha. apply bond_map_lookup in Ha; [|by apply set_ok_owners, Hno].
  pose proof (no_amounts _ _ _ Hno) as Hall. rewrite Forall_forall in Hall. by apply (Hall _ Ha).
Qed.
Lemma no_positive `{ConfigOk} R n st :
  nominator_ok R n st → Forall (λ b, 0 < amount b) (Nominator.nominations st).
Proof.
  intros Hno. pose proof min_nomination_range. eapply Forall_impl; [apply Hno|]. cbn. lia.
Qed.

(** ** Requests and what they ask *)

Section Asked.
Implicit Types (n m c d : AccountId) (l : list ScheduledRequest.t) (R : Requests).

Lemma asked_app n l1 l2 : asked n (l1 ++ l2) = asked n l1 + asked n l2.
Proof. apply sum_of_app. Qed.
Lemma asked_cons n r l :
  asked n (r :: l) =
    (if decide (ScheduledRequest.nominator r = n)
     then NominationAction.amount (ScheduledRequest.action r) else 0) + asked n l.
Proof. apply sum_of_cons. Qed.
Lemma asked_absent n l : n ∉ ScheduledRequest.nominator <$> l → asked n l = 0.
Proof.
  induction l as [|r l IH]; [done|]. intros [Hr Hl]%not_elem_of_cons.
  rewrite asked_cons, decide_False by congruence. by rewrite IH.
Qed.
(** The request of a nominator among those of a collator. *)
Lemma asked_middle n l1 r l2 :
  NoDup (ScheduledRequest.nominator <$> (l1 ++ r :: l2)) → ScheduledRequest.nominator r = n →
  asked n (l1 ++ r :: l2) = NominationAction.amount (ScheduledRequest.action r) ∧
  asked n (l1 ++ l2) = 0 ∧
  ∀ m, m ≠ n → asked m (l1 ++ l2) = asked m (l1 ++ r :: l2).
Proof.
  rewrite fmap_app, fmap_cons, <-Permutation_middle, NoDup_cons, <-fmap_app.
  intros [Hr Hnd] Hn. subst n. rewrite !asked_app, asked_cons, decide_True by done.
  pose proof (asked_absent _ _ Hr) as Ha. rewrite asked_app in Ha. split_and!; [lia|done|].
  intros m Hm. by rewrite !asked_app, asked_cons, decide_False by done.
Qed.

Lemma reqs_of_insert R c d l :
  reqs_of (<[c := l]> R) d = if decide (c = d) then l else reqs_of R d.
Proof. unfold reqs_of. rewrite lookup_insert. by case_decide. Qed.

Section Pending.
Context (R R' : Requests) (c : AccountId).
Context (Helse : ∀ d, d ≠ c → reqs_of R' d = reqs_of R d).

Lemma pending_same n (l : list Bond.t) :
  asked n (reqs_of R' c) = asked n (reqs_of R c) ∨ c ∉ owner <$> l →
  pending R' n l = pending R n l.
Proof using Type*.
  intros Hc. apply sum_of_ext. intros b Hb. destruct (decide (owner b = c)) as [<-|Hne].
  - destruct Hc as [?|Hc]; [done|]. destruct Hc. apply list_elem_of_fmap. eauto.
  - by rewrite Helse.
Qed.
Lemma pending_change n (l : list Bond.t) :
  NoDup (owner <$> l) → c ∈ owner <$> l →
  pending R' n l = pending R n l - asked n (reqs_of R c) + asked n (reqs_of R' c).
Proof using Type*.
  intros Hnd (b&->&Hb)%list_elem_of_fmap. apply list_elem_of_split in Hb as (l1&l2&->).
  rewrite fmap_app, fmap_cons, <-Permutation_middle, NoDup_cons, <-fmap_app in Hnd.
  destruct Hnd as [Hb _]. unfold pending. rewrite <-!Permutation_middle, !sum_of_cons.
  rewrite (sum_of_ext _ (λ b, asked n (reqs_of R (owner b)))); [lia|].
  intros x Hx. rewrite Helse; [done|]. intros Heq. apply Hb, list_elem_of_fmap. eauto.
Qed.
End Pending.

Lemma pending_perm R n (l l' : list Bond.t) : l ≡ₚ l' → pending R n l = pending R n l'.
Proof. apply sum_of_perm. Qed.
Lemma pending_without R n c (l : list Bond.t) :
  NoDup (owner <$> l) → c ∈ owner <$> l →
  pending R n (filter (λ b, owner b ≠ c) l) = pending R n l - asked n (reqs_of R c).
Proof.
  intros Hnd (b&->&Hb)%list_elem_of_fmap. apply list_elem_of_split in Hb as (l1&l2&->).
  rewrite fmap_app, fmap_cons, <-Permutation_middle, NoDup_cons, <-fmap_app in Hnd.
  destruct Hnd as [Hb _]. rewrite filter_app, filter_cons, decide_False by auto.
  unfold pending. rewrite <-Permutation_middle, sum_of_cons, <-filter_app.
  rewrite filter_others by done. lia.
Qed.
End Asked.

(** ** Changing one candidate and one nominator *)

Section Change.
Context `{ConfigOk} (f : AccountId → Balance) (k : core).

(** What makes it right to store, for the candidate [c], the metadata [self']
    and the lists [top'] and [bottom'], for the nominator [n] the state [o],
    and the requests [R'] and the pool [P'].  Nominations and requests between
    other accounts are those of [k]. *)
Record change_ok (c n : AccountId) (self' : CandidateMetadata.t) (top' bottom' : Nominations.t)
    (o : option Nominator.t) (R' : Requests) (P' : list Bond.t) : Prop := {
  ch_cand : is_Some (k_cand k !! c);
  ch_meta : meta_ok self' top' bottom';
  ch_unbond : unbond_ok self';
  ch_bond : CandidateMetadata.bond self' <= f c;
  ch_pool : pool_ok (<[c := self']> (k_cand k)) P';
  ch_lists : ∀ m, m ≠ n →
    bond_map (noms top' ++ noms bottom') !! m = cand_bonds (k_top k) (k_bottom k) c !! m;
  ch_bonds : ∀ d, d ≠ c → bonds_of o !! d = nom_bonds (k_nom k) n !! d;
  ch_link : bond_map (noms top' ++ noms bottom') !! n = bonds_of o !! c;
  ch_nom : ∀ st, o = Some st →
    nominator_ok R' n st ∧ Nominator.total st <= f n ∧ k_cand k !! n = None;
  ch_reqs_else : ∀ d, d ≠ c → reqs_of R' d = reqs_of (k_req k) d;
  ch_reqs_nodup : NoDup (ScheduledRequest.nominator <$> reqs_of R' c);
  ch_reqs_len : (length (reqs_of R' c) ≤ MaxNominationsPerNominator)%nat;
  ch_reqs_others : ∀ r, r ∈ reqs_of R' c → ScheduledRequest.nominator r ≠ n →
    r ∈ reqs_of (k_req k) c;
  ch_asked : ∀ m, m ≠ n → asked m (reqs_of R' c) = asked m (reqs_of (k_req k) c);
  ch_reqs_own : ∀ r, r ∈ reqs_of R' c → ScheduledRequest.nominator r = n →
    ∃ a, bonds_of o !! c = Some a ∧ action_ok a (ScheduledRequest.action r);
}.
Definition changed (c n : AccountId) (self' : CandidateMetadata.t) (top' bottom' : Nominations.t)
    (o : option Nominator.t) (R' : Requests) (P' : list Bond.t) : core :=
  Core (<[c := self']> (k_cand k)) (<[c := top']> (k_top k)) (<[c := bottom']> (k_bottom k))
    (partial_alter (λ _, o) n (k_nom k)) R' P'.

Lemma nom_bonds_alter NS n o m :
  nom_bonds (partial_alter (λ _, o) n NS) m = if decide (n = m) then bonds_of o else nom_bonds NS m.
Proof.
  unfold nom_bonds. rewrite lookup_partial_alter. by case_decide.
Qed.

Context (Hok : core_ok f k) (c n : AccountId) (self' : CandidateMetadata.t)
  (top' bottom' : Nominations.t) (o : option Nominator.t) (R' : Requests) (P' : list Bond.t).
Context (Hch : change_ok c n self' top' bottom' o R' P').

Lemma changed_cands : cands_ok (<[c := self']> (k_cand k)) (<[c := top']> (k_top k))
  (<[c := bottom']> (k_bottom k)).
Proof using Hok Hch.
  intros d. unfold candidate_ok. rewrite !lookup_insert. case_decide as Hd.
  - exists top', bottom'. split_and!; [done|done|apply Hch..].
  - apply (ok_cands _ _ Hok).
Qed.
Lemma changed_linked : linked (<[c := top']> (k_top k)) (<[c := bottom']> (k_bottom k))
  (partial_alter (λ _, o) n (k_nom k)).
Proof using Hok Hch.
  intros d m. unfold cand_bonds. rewrite !lookup_insert, nom_bonds_alter.
  pose proof (ok_linked _ _ Hok d m) as Hl. unfold cand_bonds in Hl.
  destruct (decide (c = d)) as [<-|Hd], (decide (n = m)) as [<-|Hm].
  - apply (ch_link _ _ _ _ _ _ _ _ Hch).
  - rewrite (ch_lists _ _ _ _ _ _ _ _ Hch) by done. apply Hl.
  - rewrite (ch_bonds _ _ _ _ _ _ _ _ Hch) by done. apply Hl.
  - apply Hl.
Qed.
Lemma changed_noms : noms_ok (partial_alter (λ _, o) n (k_nom k)) R'.
Proof using Hok Hch.
  intros m st. rewrite lookup_partial_alter. case_decide as Hm.
  { intros Ho. rewrite <-Hm. by apply (ch_nom _ _ _ _ _ _ _ _ Hch). }
  intros Hst. destruct (ok_noms _ _ Hok m st Hst) as [? ? ? ? ? ? Hless]. split; try done.
  rewrite Hless. symmetry. apply (pending_same _ _ c); [apply Hch|].
  left. by apply (ch_asked _ _ _ _ _ _ _ _ Hch).
Qed.
Lemma changed_reqs : reqs_ok R' (partial_alter (λ _, o) n (k_nom k)).
Proof using Hok Hch.
  intros d. destruct (decide (d = c)) as [->|Hd].
  - split; [apply Hch|apply Hch|]. intros r Hr. rewrite nom_bonds_alter. case_decide as Hn.
    + by apply (ch_reqs_own _ _ _ _ _ _ _ _ Hch).
    + apply (vo_backed _ _ _ (ok_reqs _ _ Hok c)), (ch_reqs_others _ _ _ _ _ _ _ _ Hch); auto.
  - rewrite (ch_reqs_else _ _ _ _ _ _ _ _ Hch) by done.
    destruct (ok_reqs _ _ Hok d) as [? ? Hb]. split; [done|done|].
    intros r Hr. destruct (Hb r Hr) as (a&Ha&?). exists a. split; [|done].
    rewrite nom_bonds_alter. case_decide as Hn; [|done].
    by rewrite (ch_bonds _ _ _ _ _ _ _ _ Hch), Hn.
Qed.
Lemma changed_ok : core_ok f (changed c n self' top' bottom' o R' P').
Proof using Hok Hch.
  assert (∀ st, o = Some st → c ≠ n) as Hcn.
  { intros st Ho ->. destruct (ch_cand _ _ _ _ _ _ _ _ Hch) as [? Hn].
    destruct (ch_nom _ _ _ _ _ _ _ _ Hch st Ho) as (_&_&?). congruence. }
  split; cbn; [apply changed_cands|apply changed_noms|apply changed_linked|apply changed_reqs
    |apply Hch| |].
  - intros a. rewrite lookup_insert, lookup_partial_alter.
    destruct (decide (n = a)) as [<-|Ha].
    + destruct o as [st|] eqn:Ho; [|by right]. left. rewrite decide_False by eauto.
      by apply (ch_nom _ _ _ _ _ _ _ _ Hch st).
    + case_decide as Hc; [|apply (ok_apart _ _ Hok)]. right. subst a.
      destruct (ok_apart _ _ Hok c) as [Hn|?]; [|done].
      destruct (ch_cand _ _ _ _ _ _ _ _ Hch). congruence.
  - split.
    + intros d self. rewrite lookup_insert. case_decide as Hd.
      * intros [= <-]. subst. apply Hch.
      * apply (cov_cand _ _ _ (ok_covered _ _ Hok)).
    + intros m st. rewrite lookup_partial_alter. case_decide as Hm.
      * intros Ho. subst m. by apply (ch_nom _ _ _ _ _ _ _ _ Hch st).
      * apply (cov_nom _ _ _ (ok_covered _ _ Hok)).
Qed.
End Change.

(** ** Requests without those of a nominator *)

Definition others (n : AccountId) (l : list ScheduledRequest.t) : list ScheduledRequest.t :=
  filter (λ r, ScheduledRequest.nominator r ≠ n) l.

Section Others.
Implicit Types (n m : AccountId) (l : list ScheduledRequest.t).

Lemma others_none n l : n ∉ ScheduledRequest.nominator <$> l → others n l = l.
Proof.
  unfold others. induction l as [|r l IH]; [done|]. rewrite fmap_cons, not_elem_of_cons, filter_cons.
  intros [Hr Hl]. by rewrite decide_True, IH.
Qed.
Lemma others_middle n l1 r l2 :
  NoDup (ScheduledRequest.nominator <$> (l1 ++ r :: l2)) → ScheduledRequest.nominator r = n →
  others n (l1 ++ r :: l2) = l1 ++ l2.
Proof.
  rewrite fmap_app, fmap_cons, <-Permutation_middle, NoDup_cons, <-fmap_app. intros [Hr _] Hn.
  unfold others. rewrite filter_app, filter_cons, decide_False by auto.
  rewrite <-filter_app. apply others_none. by rewrite <-Hn.
Qed.
Lemma asked_others n m l : asked m (others n l) = if decide (m = n) then 0 else asked m l.
Proof.
  unfold others, asked. rewrite sum_of_filter. case_decide as Hm.
  - subst. transitivity (sum_of (λ _ : ScheduledRequest.t, 0) l).
    + apply sum_of_ext. intros r _. repeat case_decide; done.
    + induction l; [done|]. by rewrite sum_of_cons.
  - apply sum_of_ext. intros r _. repeat case_decide; congruence.
Qed.
Lemma others_nodup n l :
  NoDup (ScheduledRequest.nominator <$> l) → NoDup (ScheduledRequest.nominator <$> others n l).
Proof. intros Hl. eapply sublist_NoDup, fmap_sublist, sublist_filter. done. Qed.
Lemma others_length n l : (length (others n l) ≤ length l)%nat.
Proof. apply sublist_length, sublist_filter. Qed.
Lemma elem_of_others n r l : r ∈ others n l ↔ ScheduledRequest.nominator r ≠ n ∧ r ∈ l.
Proof. unfold others. by rewrite list_elem_of_filter. Qed.
End Others.
