(* ===== verification/StakingCore.v ===== *)
(** * Using and keeping the staking invariant

    What the invariant says of a stored nomination, and the changes the
    operations of the pallet are made of: setting the nomination of a
    nominator with a candidate, removing it, changing the requests between
    them, changing a candidate alone. *)

From S2P Require Import Prelude Slices Sets StakingConfig StakingTypes StakingState NominatorOps.
From S2P Require Import CandidateOps NominationLists BondSets CandidateInv StakingInv.

(** Sums of nominations against free balances. *)
Lemma sum_amounts_sum_of l : sum_amounts l = sum_of amount l.
Proof. done. Qed.
Lemma amounts_within_issuance f (l : list Bond.t) c v :
  issuance_ok f → NoDup (c :: (owner <$> l)) → v <= f c →
  (∀ b, b ∈ l → amount b <= f (owner b)) → v + sum_amounts l <= u128_max.
Proof.
  intros Hf Hnd Hv Hl. specialize (Hf _ Hnd). rewrite sum_of_cons, sum_of_fmap in Hf.
  rewrite sum_amounts_sum_of. pose proof (sum_of_le amount (f ∘ owner) l Hl). lia.
Qed.

Section Reading.
Context `{ConfigOk} (f : AccountId → Balance) (k : core) (Hok : core_ok f k).
Implicit Types (c n : AccountId).

Lemma core_candidate c self :
  k_cand k !! c = Some self → ∃ top bottom, k_top k !! c = Some top ∧ k_bottom k !! c = Some bottom ∧
    meta_ok self top bottom ∧ unbond_ok self.
Proof using Hok. intros Hc. pose proof (ok_cands _ _ Hok c) as Hk. by rewrite Hc in Hk. Qed.
Lemma core_cand_bonds c top bottom :
  k_top k !! c = Some top → k_bottom k !! c = Some bottom →
  cand_bonds (k_top k) (k_bottom k) c = bond_map (noms top ++ noms bottom).
Proof. unfold cand_bonds. by intros -> ->. Qed.

(** A nomination a candidate lists is in its nominator's state. *)
Lemma core_listed c top bottom b :
  k_top k !! c = Some top → k_bottom k !! c = Some bottom →
  NoDup (owner <$> (noms top ++ noms bottom)) → b ∈ noms top ++ noms bottom →
  ∃ st, k_nom k !! owner b = Some st ∧ nominator_ok (k_req k) (owner b) st ∧
    bond_map (Nominator.nominations st) !! c = Some (amount b) ∧
    0 < amount b <= Nominator.total st ∧ Nominator.total st <= f (owner b).
Proof using H Hok.
  intros Ht Hb Hnd Hin. pose proof (ok_linked _ _ Hok c (owner b)) as Hl.
  rewrite (core_cand_bonds _ _ _ Ht Hb) in Hl. destruct b as [o a]. cbn in *.
  rewrite (proj2 (bond_map_lookup _ o a Hnd) Hin) in Hl. unfold nom_bonds in Hl.
  destruct (k_nom k !! o) as [st|] eqn:Hst; [|done]. cbn in Hl.
  pose proof (ok_noms _ _ Hok _ _ Hst) as Hno. exists st. split_and!; try done.
  - symmetry in Hl. apply bond_map_lookup in Hl; [|by apply set_ok_owners, Hno].
    pose proof (no_positive _ _ _ Hno) as Ha. rewrite Forall_forall in Ha. by apply (Ha _ Hl).
  - symmetry in Hl. apply bond_map_lookup in Hl; [|by apply set_ok_owners, Hno].
    rewrite (no_total _ _ _ Hno), sum_amounts_sum_of. pose proof (no_positive _ _ _ Hno) as Ha.
    rewrite Forall_forall in Ha.
    apply (sum_of_elem amount _ (Bond.mk c a)); [|done]. intros x Hx. specialize (Ha x Hx).
    cbn in Ha. lia.
  - by apply (cov_nom _ _ _ (ok_covered _ _ Hok)).
Qed.

(** A nomination a nominator holds is in one of the candidate's lists. *)
Lemma core_held n st c a :
  k_nom k !! n = Some st → bond_map (Nominator.nominations st) !! c = Some a →
  ∃ self top bottom, k_cand k !! c = Some self ∧ k_top k !! c = Some top ∧
    k_bottom k !! c = Some bottom ∧ meta_ok self top bottom ∧ unbond_ok self ∧
    Bond.mk n a ∈ noms top ++ noms bottom.
Proof using Hok.
  intros Hst Ha. pose proof (ok_linked _ _ Hok c n) as Hl. unfold nom_bonds in Hl.
  rewrite Hst in Hl. cbn in Hl. rewrite Ha in Hl. pose proof (ok_cands _ _ Hok c) as Hc.
  destruct (k_cand k !! c) as [self|] eqn:Hself; cbn in Hc; cycle 1.
  { unfold cand_bonds in Hl. destruct Hc as [Ht _]. by rewrite Ht in Hl. }
  destruct Hc as (top&bottom&Ht&Hb&Hm&Hu). exists self, top, bottom. split_and!; try done.
  rewrite (core_cand_bonds _ _ _ Ht Hb) in Hl. apply bond_map_lookup; [|done].
  apply (lo_owners _ _ (mo_lists _ _ _ Hm)).
Qed.
Lemma core_not_held n c top bottom :
  k_top k !! c = Some top → k_bottom k !! c = Some bottom →
  nom_bonds (k_nom k) n !! c = None → n ∉ owner <$> (noms top ++ noms bottom).
Proof using Hok.
  intros Ht Hb Hn. rewrite <-(ok_linked _ _ Hok c n), (core_cand_bonds _ _ _ Ht Hb) in Hn.
  by apply bond_map_None.
Qed.
Lemma core_not_nominator c self : k_cand k !! c = Some self → k_nom k !! c = None.
Proof using Hok. intros Hc. destruct (ok_apart _ _ Hok c); [congruence|done]. Qed.

(** Lists whose nominations are covered stay within the currency. *)
Lemma core_range c self (l : list Bond.t) v :
  issuance_ok f → k_cand k !! c = Some self → NoDup (owner <$> l) → v <= f c →
  (∀ b, b ∈ l → k_cand k !! owner b = None ∧ amount b <= f (owner b)) →
  v + sum_amounts l <= u128_max.
Proof.
  intros Hf Hc Hnd Hv Hl. apply (amounts_within_issuance f _ c); [done| |done|].
  - constructor; [|done]. intros (b&->&Hb)%list_elem_of_fmap. apply Hl in Hb as [? _]. congruence.
  - intros b Hb. by apply Hl.
Qed.
Lemma core_listed_covered c top bottom b :
  k_top k !! c = Some top → k_bottom k !! c = Some bottom →
  NoDup (owner <$> (noms top ++ noms bottom)) → b ∈ noms top ++ noms bottom →
  k_cand k !! owner b = None ∧ amount b <= f (owner b).
Proof using H Hok.
  intros Ht Hb Hnd Hin. destruct (core_listed _ _ _ _ Ht Hb Hnd Hin) as (st&Hst&_&_&?&?).
  split; [|lia]. destruct (ok_apart _ _ Hok (owner b)); [done|congruence].
Qed.
End Reading.

(** ** The candidate pool *)

Lemma pool_changed `{ConfigOk} C P c self self' P' :
  pool_ok C P → C !! c = Some self →
  CandidateMetadata.status self' = CandidateMetadata.status self →
  (CandidateMetadata.is_active self' = true ∧
     P' = pool_update c (CandidateMetadata.total_counted self') P ∨
   P' = P ∧ (CandidateMetadata.is_active self' = true →
             CandidateMetadata.total_counted self' = CandidateMetadata.total_counted self)) →
  pool_ok (<[c := self']> C) P'.
Proof.
  intros [Hset Hlen Htot] Hc Hst Hcase.
  assert (CandidateMetadata.is_active self' = CandidateMetadata.is_active self) as Hact
    by (unfold CandidateMetadata.is_active; by rewrite Hst).
  destruct Hcase as [[Ha ->]|[-> Ha]].
  - assert (c ∈ owner <$> P) as Hin.
    { apply bond_map_is_Some. rewrite Htot, Hc. cbn. unfold pool_total.
      by rewrite <-Hact, Ha. }
    destruct (pool_update_spec c (CandidateMetadata.total_counted self') P Hset) as (Hs&Hm&_).
    specialize (Hm ltac:(auto)). split; [done| |].
    + rewrite <-bond_map_size, Hm by (by apply set_ok_owners).
      rewrite map_size_insert_Some by (by apply bond_map_is_Some).
      by rewrite bond_map_size by (by apply set_ok_owners).
    + intros d. rewrite Hm, !lookup_insert. case_decide; [|apply Htot].
      cbn. unfold pool_total. by rewrite Ha.
  - split; [done|done|]. intros d. rewrite Htot, lookup_insert. case_decide as Hd; [|done].
    subst d. rewrite Hc. cbn. unfold pool_total. rewrite Hact.
    destruct (CandidateMetadata.is_active self) eqn:Hs; [|done]. by rewrite Ha by congruence.
Qed.
Lemma pool_effect_ok `{ConfigOk} C P c self self' :
  pool_ok C P → C !! c = Some self →
  CandidateMetadata.status self' = CandidateMetadata.status self →
  pool_ok (<[c := self']> C) (pool_effect c self self' P).
Proof.
  intros HP Hc Hst. eapply pool_changed; [done..|]. unfold pool_effect.
  case_bool_decide as Heq; cbn [negb andb]; [right; by rewrite Heq|].
  destruct (CandidateMetadata.is_active self'); [by left|right]. by split.
Qed.

(** ** The changes *)

(** The state of a nominator that lost its nomination of [c], worth [a], and
    what it asked for there; [None] when it has no other. *)
Definition lost (c : AccountId) (a ask : Balance) (st : Nominator.t) : option Nominator.t :=
  if bool_decide (length (Nominator.nominations st) = 1%nat) then None
  else Some (Nominator.mk (Nominator.id st)
               (filter (λ b, owner b ≠ c) (Nominator.nominations st))
               (Nominator.total st - a) (Nominator.less_total st - ask)).

Lemma filter_owner_length c (l : list Bond.t) :
  NoDup (owner <$> l) → c ∈ owner <$> l →
  length (filter (λ b, owner b ≠ c) l) = pred (length l).
Proof.
  intros Hnd (b&->&Hb)%list_elem_of_fmap. apply list_elem_of_split in Hb as (l1&l2&->).
  rewrite fmap_app, fmap_cons, <-Permutation_middle, NoDup_cons, <-fmap_app in Hnd.
  destruct Hnd as [Hb _]. rewrite filter_app, filter_cons, decide_False by auto.
  rewrite <-filter_app, filter_others by done. rewrite !length_app. cbn. lia.
Qed.
Lemma filter_owner_sum c (l : list Bond.t) a :
  NoDup (owner <$> l) → bond_map l !! c = Some a →
  sum_amounts (filter (λ b, owner b ≠ c) l) = sum_amounts l - a.
Proof.
  intros Hnd Hb%bond_map_lookup; [|done]. apply list_elem_of_split in Hb as (l1&l2&->).
  rewrite fmap_app, fmap_cons, <-Permutation_middle, NoDup_cons, <-fmap_app in Hnd.
  destruct Hnd as [Hb _]. cbn in Hb. rewrite filter_app, filter_cons, decide_False by auto.
  rewrite <-filter_app, filter_others by done. rewrite sum_middle. cbn. lia.
Qed.

Lemma lost_bonds c a ask st :
  NoDup (owner <$> Nominator.nominations st) → c ∈ owner <$> Nominator.nominations st →
  bonds_of (lost c a ask st) = delete c (bond_map (Nominator.nominations st)).
Proof.
  intros Hnd Hin. unfold lost. rewrite <-bond_map_filter.
  case_bool_decide as Hlen; [|done]. cbn. pose proof (filter_owner_length _ _ Hnd Hin) as Hf.
  rewrite Hlen in Hf. cbn in Hf. by apply nil_length_inv in Hf as ->.
Qed.
Lemma lost_ok `{ConfigOk} (R R' : Requests) c n a st st' :
  nominator_ok R n st → bond_map (Nominator.nominations st) !! c = Some a →
  (∀ d, d ≠ c → reqs_of R' d = reqs_of R d) →
  lost c a (asked n (reqs_of R c)) st = Some st' → nominator_ok R' n st'.
Proof.
  intros [Hid Hset Hlen Hne Ham Htot Hless] Ha Helse. unfold lost.
  case_bool_decide as Hlen1; [done|]. intros [= <-].
  pose proof (set_ok_owners _ Hset) as Hnd.
  assert (c ∈ owner <$> Nominator.nominations st) as Hin by (apply bond_map_is_Some; eauto).
  pose proof (filter_owner_length _ _ Hnd Hin) as Hf. split; cbn.
  - done.
  - by apply StronglySorted_filter.
  - lia.
  - rewrite <-length_zero_iff_nil in Hne |- *. lia.
  - apply Forall_forall. intros b [_ Hb]%list_elem_of_filter. rewrite Forall_forall in Ham. auto.
  - rewrite (filter_owner_sum _ _ a) by done. lia.
  - rewrite (pending_same R R' c), pending_without by (done || (right; rewrite list_elem_of_fmap;
      intros (b&->&[? _]%list_elem_of_filter); done)). lia.
Qed.

Section Changes.
Context `{ConfigOk} (f : AccountId → Balance) (k : core) (Hok : core_ok f k).
Context (c : AccountId) (self : CandidateMetadata.t) (top bottom : Nominations.t).
Context (Hc : k_cand k !! c = Some self) (Ht : k_top k !! c = Some top)
  (Hb : k_bottom k !! c = Some bottom).

Lemma unbond_meta (top' bottom' : Nominations.t) :
  unbond_ok (meta_of self top' bottom') ∧ CandidateMetadata.bond (meta_of self top' bottom') <= f c.
Proof using Hok Hc.
  destruct (core_candidate _ _ Hok c self Hc) as (?&?&_&_&_&Hu).
  split; [done|]. by apply (cov_cand _ _ _ (ok_covered _ _ Hok) c self).
Qed.

(** The nomination of [n] is removed. *)
Lemma change_remove n a st top' bottom' R' :
  let self' := meta_of self top' bottom' in
  meta_ok self' top' bottom' →
  Bond.mk n a :: noms top' ++ noms bottom' ≡ₚ noms top ++ noms bottom →
  k_nom k !! n = Some st →
  (∀ d, d ≠ c → reqs_of R' d = reqs_of (k_req k) d) →
  reqs_of R' c = others n (reqs_of (k_req k) c) →
  change_ok f k c n self' top' bottom' (lost c a (asked n (reqs_of (k_req k) c)) st) R'
    (pool_effect c self self' (k_pool k)).
Proof using Type*.
  intros self' Hm Hp Hst Helse HR'. destruct (unbond_meta top' bottom').
  destruct (core_candidate _ _ Hok c self Hc) as (?&?&?&?&Hm0&_). simplify_eq.
  pose proof (lo_owners _ _ (mo_lists _ _ _ Hm0)) as Hnd.
  destruct (core_listed _ _ Hok c top bottom (Bond.mk n a) Ht Hb Hnd) as (st'&Hst'&Hno&Ha&Hpos&Hf).
  { rewrite <-Hp. set_solver. }
  cbn in *. simplify_eq. pose proof (set_ok_owners _ (no_set _ _ _ Hno)) as Hnd'.
  assert (c ∈ owner <$> Nominator.nominations st) as Hin by (apply bond_map_is_Some; eauto).
  assert (NoDup (owner <$> (Bond.mk n a :: noms top' ++ noms bottom'))) as Hnd2 by (by rewrite Hp).
  assert (bond_map (noms top ++ noms bottom) =
          <[n := a]> (bond_map (noms top' ++ noms bottom'))) as Hmap.
  { by rewrite <-(bond_map_perm _ _ Hnd2 Hp). }
  rewrite fmap_cons, NoDup_cons in Hnd2. destruct Hnd2 as [Hn _].
  pose proof (ok_reqs _ _ Hok c) as Hv.
  split; rewrite ?HR', ?lost_bonds by done; try done.
  - apply pool_effect_ok; [apply (ok_pool _ _ Hok)|done|done].
  - intros m Hm'. rewrite (core_cand_bonds _ _ _ _ Ht Hb), Hmap. by rewrite lookup_insert_ne.
  - intros d Hd. unfold nom_bonds. rewrite Hst. cbn. by rewrite lookup_delete_ne.
  - rewrite lookup_delete_eq. by apply bond_map_None.
  - intros st2 Hlost. split_and!; [by eapply lost_ok| |].
    + unfold lost in Hlost. case_bool_decide; simplify_eq/=. lia.
    + destruct (ok_apart _ _ Hok n); [done|congruence].
  - apply others_nodup, Hv.
  - etransitivity; [apply others_length|apply Hv].
  - by intros r [_ ?]%elem_of_others.
  - intros m Hm'. by rewrite asked_others, decide_False.
  - by intros r [? _]%elem_of_others.
Qed.

(** The nomination of [n] becomes [a]. *)
Lemma change_set n a st' top' bottom' :
  let self' := meta_of self top' bottom' in
  meta_ok self' top' bottom' →
  bond_map (noms top' ++ noms bottom') = <[n := a]> (bond_map (noms top ++ noms bottom)) →
  bond_map (Nominator.nominations st') = <[c := a]> (nom_bonds (k_nom k) n) →
  nominator_ok (k_req k) n st' → Nominator.total st' <= f n → k_cand k !! n = None →
  (∀ r, r ∈ reqs_of (k_req k) c → ScheduledRequest.nominator r = n →
        action_ok a (ScheduledRequest.action r)) →
  change_ok f k c n self' top' bottom' (Some st') (k_req k)
    (pool_effect c self self' (k_pool k)).
Proof using Type*.
  intros self' Hm Hmap Hbonds Hno Hf Hn Hreq. destruct (unbond_meta top' bottom').
  pose proof (ok_reqs _ _ Hok c) as Hv. split; try done.
  - apply pool_effect_ok; [apply (ok_pool _ _ Hok)|done|done].
  - intros m Hm'. rewrite Hmap, (core_cand_bonds _ _ _ _ Ht Hb). by rewrite lookup_insert_ne.
  - intros d Hd. cbn. by rewrite Hbonds, lookup_insert_ne.
  - cbn. by rewrite Hmap, Hbonds, !lookup_insert_eq.
  - by intros st [= <-].
  - apply Hv.
  - apply Hv.
  - intros r Hr Hrn. exists a. cbn. rewrite Hbonds, lookup_insert_eq. auto.
Qed.
End Changes.

Lemma core_eta k :
  Core (k_cand k) (k_top k) (k_bottom k) (k_nom k) (k_req k) (k_pool k) = k.
Proof. by destruct k. Qed.

Section Cases.
Context `{ConfigOk} (f : AccountId → Balance) (k : core) (Hok : core_ok f k).
Implicit Types (c n : AccountId).

(** The request of [n] towards [c] becomes [own]. *)
Lemma requests_changed_ok c n st a own R' :
  k_nom k !! n = Some st → bond_map (Nominator.nominations st) !! c = Some a →
  (∀ d, d ≠ c → reqs_of R' d = reqs_of (k_req k) d) →
  reqs_of R' c = others n (reqs_of (k_req k) c) ++ own →
  (length (reqs_of R' c) ≤ MaxNominationsPerNominator)%nat →
  own = [] ∨ (∃ r, own = [r] ∧ ScheduledRequest.nominator r = n ∧
                   action_ok a (ScheduledRequest.action r)) →
  core_ok f (Core (k_cand k) (k_top k) (k_bottom k)
    (<[n := Nominator.set_less_total
              (Nominator.less_total st - asked n (reqs_of (k_req k) c) + asked n own) st]> (k_nom k))
    R' (k_pool k)).
Proof using Type*.
  intros Hst Ha Helse HR' Hlen Hown.
  destruct (core_held _ _ Hok n st c a Hst Ha) as (self&top&bottom&Hc&Ht&Hb&Hm&Hu&Hin).
  pose proof (ok_noms _ _ Hok n st Hst) as Hno. pose proof (ok_reqs _ _ Hok c) as Hv.
  assert (∀ m, m ≠ n → asked m own = 0) as Hask.
  { intros m Hmn. destruct Hown as [->|(r&->&Hr&_)]; [done|].
    apply asked_absent. cbn. set_solver. }
  set (st' := Nominator.set_less_total _ st).
  assert (change_ok f k c n self top bottom (Some st') R' (k_pool k)) as Hch.
  { split; rewrite ?HR'; try done.
    - by apply (cov_cand _ _ _ (ok_covered _ _ Hok) c self).
    - rewrite insert_id by done. apply (ok_pool _ _ Hok).
    - by rewrite (core_cand_bonds _ _ _ _ Ht Hb).
    - cbn. unfold nom_bonds. by rewrite Hst.
    - rewrite <-(core_cand_bonds _ _ _ _ Ht Hb), (ok_linked _ _ Hok c n). unfold nom_bonds.
      by rewrite Hst.
    - intros ? [= <-]. split_and!; [|by apply (cov_nom _ _ _ (ok_covered _ _ Hok) n st)|].
      + destruct Hno as [? ? ? ? ? ? Hless]. split; try done. cbn.
        rewrite (pending_change (k_req k) R' c Helse), Hless, HR', asked_app, asked_others,
          decide_True; [lia|done|by apply set_ok_owners|]. apply bond_map_is_Some. eauto.
      + destruct (ok_apart _ _ Hok n); [done|congruence].
    - rewrite fmap_app. apply NoDup_app. split; [apply others_nodup, Hv|].
      destruct Hown as [->|(r&->&Hr&_)]; [set_solver by constructor|]. split; [|apply NoDup_singleton].
      intros x (r'&->&[? _]%elem_of_others)%list_elem_of_fmap. cbn. set_solver.
    - by rewrite <-HR'.
    - intros r [[_ ?]%elem_of_others|Hr]%elem_of_app; [done|].
      destruct Hown as [->|(r'&->&?&_)]; set_solver.
    - intros m Hmn. rewrite asked_app, asked_others, decide_False, Hask by done. lia.
    - intros r [[? _]%elem_of_others|Hr]%elem_of_app; [done|]. intros _. exists a. split; [done|].
      destruct Hown as [->|(r'&->&?&?)]; [set_solver|]. by apply list_elem_of_singleton in Hr as ->. }
  pose proof (changed_ok _ _ Hok _ _ _ _ _ _ _ _ Hch) as Hres. unfold changed in Hres.
  by rewrite !insert_id in Hres.
Qed.

(** Only the metadata of [c] changes. *)
Lemma self_changed_ok c self self' top bottom P' :
  k_cand k !! c = Some self → k_top k !! c = Some top → k_bottom k !! c = Some bottom →
  meta_ok self' top bottom → unbond_ok self' → CandidateMetadata.bond self' <= f c →
  pool_ok (<[c := self']> (k_cand k)) P' →
  core_ok f (Core (<[c := self']> (k_cand k)) (k_top k) (k_bottom k) (k_nom k) (k_req k) P').
Proof using Type*.
  intros Hc Ht Hb Hm Hu Hbond HP. pose proof (core_not_nominator _ _ Hok c self Hc) as Hn.
  pose proof (ok_linked _ _ Hok c c) as Hl. pose proof (ok_reqs _ _ Hok c) as Hv.
  assert (nom_bonds (k_nom k) c = ∅) as Hemp by (unfold nom_bonds; by rewrite Hn).
  rewrite Hemp, (core_cand_bonds _ _ _ _ Ht Hb) in Hl.
  assert (change_ok f k c c self' top bottom None (k_req k) P') as Hch.
  { split; try done.
    - by rewrite (core_cand_bonds _ _ _ _ Ht Hb).
    - by rewrite Hemp.
    - apply Hv.
    - apply Hv.
    - intros r Hr Hrc. destruct (vo_backed _ _ _ Hv r Hr) as (a&Ha&_).
      by rewrite Hrc, Hemp in Ha. }
  pose proof (changed_ok _ _ Hok _ _ _ _ _ _ _ _ Hch) as Hres. unfold changed in Hres.
  rewrite (insert_id (k_top k)), (insert_id (k_bottom k)) in Hres by done.
  by rewrite <-Hn, partial_alter_self in Hres.
Qed.
End Cases.

(** ** Candidates that join and leave *)

Section JoinLeave.
Context `{ConfigOk} (f : AccountId → Balance) (k : core) (Hok : core_ok f k).
Implicit Types (c n : AccountId).

Lemma meta_ok_new bond :
  0 <= bond <= u128_max → meta_ok (CandidateMetadata.new bond) Nominations.default Nominations.default.
Proof using Type*.
  intros Hb. split; cbn; try done; try lia.
  - apply lists_ok_nil.
  - unfold meta_of. cbn. pose proof max_top_pos. pose proof max_bottom_pos.
    unfold Nominations.top_capacity, Nominations.bottom_capacity, Nominations.capacity. cbn.
    rewrite (bool_decide_false (MaxTopNominationsPerCandidate ≤ 0)%nat) by lia.
    rewrite (bool_decide_false (MaxBottomNominationsPerCandidate ≤ 0)%nat) by lia.
    by rewrite Z.add_0_r.
  - rewrite sum_nil. lia.
Qed.
Lemma joined_ok c bond P' :
  k_cand k !! c = None → k_nom k !! c = None → 0 <= bond <= u128_max → bond <= f c →
  let self := CandidateMetadata.new bond in
  pool_ok (<[c := self]> (k_cand k)) P' →
  core_ok f (Core (<[c := self]> (k_cand k)) (<[c := Nominations.default]> (k_top k))
    (<[c := Nominations.default]> (k_bottom k)) (k_nom k) (k_req k) P').
Proof using Type*.
  intros Hc Hn Hb Hf self HP. pose proof (ok_cands _ _ Hok c) as Hl. rewrite Hc in Hl.
  destruct Hl as [Ht Hbo]. split; cbn.
  - intros d. unfold candidate_ok. rewrite !lookup_insert. case_decide; [|apply (ok_cands _ _ Hok)].
    eexists _, _. split_and!; [done|done|by apply meta_ok_new|done].
  - apply (ok_noms _ _ Hok).
  - intros d m. rewrite <-(ok_linked _ _ Hok d m). unfold cand_bonds. rewrite !lookup_insert.
    case_decide; [|done]. subst. by rewrite Ht.
  - apply (ok_reqs _ _ Hok).
  - done.
  - intros a. rewrite lookup_insert. case_decide; [subst; by right|apply (ok_apart _ _ Hok)].
  - destruct (ok_covered _ _ Hok) as [Hcc Hcn]. split; [|done].
    intros d self'. rewrite lookup_insert. case_decide; [|apply Hcc]. intros [= <-]. by subst.
Qed.

End JoinLeave.

(** Everyone who backed [c] lost that nomination. *)
Section Left.
Context `{ConfigOk} (f : AccountId → Balance) (k : core) (Hok : core_ok f k).
Context (c : AccountId) (self : CandidateMetadata.t) (top bottom : Nominations.t)
  (NS' : Nominators) (P' : list Bond.t).
Context (Hc : k_cand k !! c = Some self) (Ht : k_top k !! c = Some top)
  (Hb : k_bottom k !! c = Some bottom).
Context (HNS : ∀ n, NS' !! n =
  match bond_map (noms top ++ noms bottom) !! n with
  | Some a => k_nom k !! n ≫= lost c a (asked n (reqs_of (k_req k) c))
  | None => k_nom k !! n
  end).
Let R' : Requests := delete c (k_req k).

Lemma left_reqs d : d ≠ c → reqs_of R' d = reqs_of (k_req k) d.
Proof using Type. intros Hd. unfold reqs_of, R'. by rewrite lookup_delete_ne. Qed.
Lemma left_link n : nom_bonds (k_nom k) n !! c = bond_map (noms top ++ noms bottom) !! n.
Proof using Type*. by rewrite <-(ok_linked _ _ Hok c n), (core_cand_bonds _ _ _ _ Ht Hb). Qed.
(** What remains of a nominator of [c]. *)
Lemma left_lost n a :
  bond_map (noms top ++ noms bottom) !! n = Some a → ∃ st, k_nom k !! n = Some st ∧
    nominator_ok (k_req k) n st ∧ bond_map (Nominator.nominations st) !! c = Some a ∧
    NS' !! n = lost c a (asked n (reqs_of (k_req k) c)) st ∧
    bonds_of (NS' !! n) = delete c (bond_map (Nominator.nominations st)).
Proof using Type*.
  intros Ha. pose proof (left_link n) as Hlink. rewrite Ha in Hlink. unfold nom_bonds in Hlink.
  destruct (k_nom k !! n) as [st|] eqn:Hst; [|done]. cbn in Hlink.
  pose proof (ok_noms _ _ Hok n st Hst) as Hno. exists st. split_and!; try done.
  - by rewrite HNS, Ha, Hst.
  - rewrite HNS, Ha, Hst. cbn. apply lost_bonds; [by apply set_ok_owners, Hno|].
    apply bond_map_is_Some. eauto.
Qed.
Lemma left_bonds n : nom_bonds NS' n = delete c (nom_bonds (k_nom k) n).
Proof using Type*.
  unfold nom_bonds at 1. destruct (bond_map (noms top ++ noms bottom) !! n) as [a|] eqn:Ha.
  - destruct (left_lost n a Ha) as (st&Hst&_&_&_&->). unfold nom_bonds. by rewrite Hst.
  - rewrite HNS, Ha. symmetry. apply delete_id. pose proof (left_link n) as Hl. by rewrite Ha in Hl.
Qed.
Lemma left_noms : noms_ok NS' R'.
Proof using Type*.
  intros n st Hst. destruct (bond_map (noms top ++ noms bottom) !! n) as [a|] eqn:Ha.
  - destruct (left_lost n a Ha) as (st0&_&Hno&Hb0&Hns&_). rewrite Hns in Hst.
    eapply lost_ok; [done|done|apply left_reqs|done].
  - rewrite HNS, Ha in Hst. destruct (ok_noms _ _ Hok n st Hst) as [? ? ? ? ? ? Hless].
    split; try done. rewrite Hless. symmetry. apply (pending_same _ _ c left_reqs). right.
    pose proof (left_link n) as Hlink. unfold nom_bonds in Hlink. rewrite Hst, Ha in Hlink.
    by apply bond_map_None.
Qed.
Lemma left_covered : covered f (delete c (k_cand k)) NS'.
Proof using Type*.
  destruct (ok_covered _ _ Hok) as [Hcc Hcn]. split.
  - intros d self'. rewrite lookup_delete. case_decide; [done|apply Hcc].
  - intros n st Hst. destruct (bond_map (noms top ++ noms bottom) !! n) as [a|] eqn:Ha; cycle 1.
    { rewrite HNS, Ha in Hst. by apply Hcn. }
    destruct (left_lost n a Ha) as (st0&Hst0&Hno&Hb0&Hns&_). rewrite Hns in Hst.
    specialize (Hcn n st0 Hst0). unfold lost in Hst. case_bool_decide; simplify_eq/=.
    apply bond_map_lookup in Hb0; [|by apply set_ok_owners, Hno].
    pose proof (no_positive _ _ _ Hno) as Hpos. rewrite Forall_forall in Hpos.
    specialize (Hpos _ Hb0). cbn in Hpos. lia.
Qed.
Lemma left_ok :
  pool_ok (delete c (k_cand k)) P' →
  core_ok f (Core (delete c (k_cand k)) (delete c (k_top k)) (delete c (k_bottom k)) NS' R' P').
Proof using Type*.
  intros HP. split; cbn; [|apply left_noms| | |done| |apply left_covered].
  - intros d. unfold candidate_ok. rewrite !lookup_delete. case_decide; [done|].
    apply (ok_cands _ _ Hok).
  - intros d m. rewrite left_bonds. unfold cand_bonds. rewrite !lookup_delete.
    case_decide; [done|]. apply (ok_linked _ _ Hok).
  - intros d. destruct (decide (d = c)) as [->|Hd].
    + unfold reqs_of, R'. rewrite lookup_delete_eq. split; cbn; [constructor|lia|set_solver].
    + rewrite left_reqs by done. destruct (ok_reqs _ _ Hok d) as [? ? Hbk]. split; [done|done|].
      intros r Hr. destruct (Hbk r Hr) as (a&?&?). exists a. by rewrite left_bonds, lookup_delete_ne.
  - intros a. rewrite lookup_delete. case_decide; [by left|].
    destruct (ok_apart _ _ Hok a) as [?|Hn]; [by left|right].
    rewrite HNS, Hn. by destruct (bond_map _ !! a).
Qed.
End Left.
