(* ===== verification/InvCandidates.v ===== *)
(** * Calls of candidates keep the staking invariant

    Joining, going offline and online, scheduling and cancelling an exit, and
    the self bond. *)

From S2P Require Import Prelude Slices Sets StakingConfig StakingTypes StakingState NominatorOps.
From S2P Require Import CandidateOps Requests Calls NominationLists BondSets.
From S2P Require Import CandidateInv StakingInv StakingCore.

Lemma not_candidate `{Config} a s :
  is_candidate a s = false ↔ Storage.CandidateInfo s !! a = None.
Proof. unfold is_candidate. by rewrite bool_decide_eq_false, eq_None_not_Some. Qed.
Lemma not_nominator `{Config} a s :
  is_nominator a s = false ↔ Storage.NominatorState s !! a = None.
Proof. unfold is_nominator. by rewrite bool_decide_eq_false, eq_None_not_Some. Qed.

(** [m] never panics, and where it succeeds the invariant still holds. *)
Definition keeps `{Config} {A} (m : Dispatch A) : Prop :=
  ∀ s, staking_ok s → wp m s (λ _ s', staking_ok s') (λ _ _, True).

(** What a passed check says. *)
Ltac check_facts :=
  repeat match goal with
  | Hb : bool_decide _ = true |- _ => apply bool_decide_eq_true in Hb
  | Hb : bool_decide _ = false |- _ => apply bool_decide_eq_false in Hb
  | Hb : negb _ = true |- _ => apply negb_true_iff in Hb
  | Hb : negb _ = false |- _ => apply negb_false_iff in Hb
  | Hb : is_candidate _ _ = false |- _ => apply not_candidate in Hb
  | Hb : is_nominator _ _ = false |- _ => apply not_nominator in Hb
  end.
(** Run [wp] forward up to the next call that is not a plain read or write;
    failing checks need nothing. *)
Ltac wp_go :=
  repeat (first
    [ progress wp_step
    | progress cbv beta iota zeta
    | lazymatch goal with
      | |- wp (deposit_event _) _ _ _ => unfold deposit_event
      | |- wp (currency _) _ _ _ => unfold currency
      | |- wp (put_candidate _ _) _ _ _ => unfold put_candidate
      | |- wp (put_nominator _ _) _ _ _ => unfold put_nominator
      | |- wp (put_requests _ _) _ _ _ => unfold put_requests
      | |- wp (Candidate.put_top _ _) _ _ _ => unfold Candidate.put_top
      | |- wp (Candidate.put_bottom _ _) _ _ _ => unfold Candidate.put_bottom
      | |- wp (get_candidate _) _ _ _ => unfold get_candidate
      | |- wp (get_nominator _) _ _ _ => unfold get_nominator
      end ]; try exact I); check_facts.

Section Frame.
Context `{Config} `{!CurrencyLaws config_currency}.
Implicit Types (s : Storage.t).

(** The free balances of [s'] are those of [s]. *)
Definition same_free s s' : Prop := ∀ a, free_of_chain s' a = free_of_chain s a.

Lemma core_ok_free f f' k : (∀ a, f' a = f a) → core_ok f k → core_ok f' k.
Proof.
  intros Hf [? ? ? ? ? ? [Hc Hn]]. split; try done.
  split; intros; rewrite Hf; [by apply Hc|by apply Hn].
Qed.
Lemma staking_intro s s' :
  staking_ok s → same_free s s' →
  Storage.MinTotalNominatorStake s' = Storage.MinTotalNominatorStake s →
  core_ok (free_of_chain s) (core_of s') → staking_ok s'.
Proof.
  intros [_ Hi Hm] Hf Hmin Hk. split.
  - by eapply core_ok_free.
  - intros l Hl. rewrite (sum_of_ext _ (free_of_chain s)) by (intros; apply Hf). by apply Hi.
  - by rewrite Hmin.
Qed.
Lemma staking_frame s s' :
  staking_ok s → same_free s s' →
  Storage.MinTotalNominatorStake s' = Storage.MinTotalNominatorStake s →
  core_of s' = core_of s → staking_ok s'.
Proof. intros Hs Hf Hm Hk. eapply staking_intro; [done..|]. rewrite Hk. apply Hs. Qed.

Lemma same_free_refl s : same_free s s.
Proof. done. Qed.
Lemma free_set_lock id who amt s a :
  free_of_chain (Storage.upd_Balances (set_lock id who amt) s) a = free_of_chain s a.
Proof. apply free_balance_set_lock. Qed.
Lemma free_remove_lock id who s a :
  free_of_chain (Storage.upd_Balances (remove_lock id who) s) a = free_of_chain s a.
Proof. apply free_balance_remove_lock. Qed.
Lemma free_lock_nominator st s a : free_of_chain (lock_nominator st s) a = free_of_chain s a.
Proof.
  unfold lock_nominator. case_bool_decide; [apply free_remove_lock|apply free_set_lock].
Qed.
End Frame.

(** Locks and other storage items leave the free balances alone. *)
Ltac solve_free :=
  intros ?; unfold free_of_chain; cbn;
  rewrite ?free_balance_set_lock, ?free_balance_remove_lock; done.

Section Candidates.
Context `{ConfigOk} `{!CurrencyLaws config_currency}.
Implicit Types (c : AccountId) (s : Storage.t) (self : CandidateMetadata.t).

(** ** Status and pool *)

Lemma pool_inserted C P c self t :
  pool_ok C P → C !! c ≫= pool_total = None → pool_total self = Some t →
  ∀ e s, wp (insert_candidate (Bond.mk c t) e P) s
    (λ P' s', s' = s ∧ pool_ok (<[c := self]> C) P') (λ _ _, True).
Proof using Type*.
  intros [Hset Hlen Htot] Hc Ht e s. unfold insert_candidate.
  destruct (bond_map_try_insert MaxCandidates (Bond.mk c t) P Hset) as (Hok&Hr&Hins).
  destruct (BoundedOrderedSet.try_insert _ _ P) as [[[]|] P'] eqn:He; cbn in *; [|done|done].
  destruct (Hins eq_refl) as [Hp Hm]. wp_step. split; [done|]. split; [done| |].
  - rewrite bool_decide_false in Hr by (apply bond_map_None; by rewrite Htot).
    rewrite Hp. cbn. case_bool_decide; [lia|done].
  - intros d. rewrite Hm, !lookup_insert. destruct (decide (c = d)); [|apply Htot]. cbn. by rewrite Ht.
Qed.
Lemma pool_removed C P c self :
  pool_ok C P → pool_total self = None →
  pool_ok (<[c := self]> C) (BoundedOrderedSet.remove (Bond.from_owner c) P).2.
Proof using Type*.
  intros [Hset Hlen Htot] Ht.
  destruct (bond_map_remove (Bond.from_owner c) P Hset) as (Hok&_&Hm&Hl).
  split; [done|lia|]. intros d. rewrite Hm, lookup_delete, lookup_insert. cbn.
  case_decide; [cbn; by rewrite Ht|apply Htot].
Qed.
Lemma remove_from_pool_run c s :
  set_ok (Storage.CandidatePool s) →
  remove_from_pool c (Storage.CandidatePool s) s =
    (Ok (), Storage.set_CandidatePool
       (BoundedOrderedSet.remove (Bond.from_owner c) (Storage.CandidatePool s)).2 s).
Proof using Type*.
  intros Hset. unfold remove_from_pool.
  destruct (bond_map_remove (Bond.from_owner c) _ Hset) as (_&Hr&_).
  destruct (decide (c ∈ owner <$> Storage.CandidatePool s)) as [Hc|Hc].
  - rewrite bool_decide_true in Hr by done. by destruct (BoundedOrderedSet.remove _ _) as [[] ?].
  - rewrite bool_decide_false in Hr by done. pose proof (remove_absent c _ Hset Hc) as Ha.
    destruct (BoundedOrderedSet.remove _ _) as [[] ?]; cbn in *; [done|]. subst. by destruct s.
Qed.

(** Storage with new metadata of [c] and a new pool. *)
Lemma self_changed c self self' P' s s' :
  staking_ok s → Storage.CandidateInfo s !! c = Some self →
  (∀ top bottom, meta_ok self top bottom → unbond_ok self → meta_ok self' top bottom ∧ unbond_ok self') →
  CandidateMetadata.bond self' <= free_of_chain s c →
  pool_ok (<[c := self']> (Storage.CandidateInfo s)) P' →
  core_of s' = Core (<[c := self']> (Storage.CandidateInfo s)) (Storage.TopNominations s)
    (Storage.BottomNominations s) (Storage.NominatorState s)
    (Storage.NominationScheduledRequests s) P' →
  same_free s s' → Storage.MinTotalNominatorStake s' = Storage.MinTotalNominatorStake s →
  staking_ok s'.
Proof using Type*.
  intros Hs Hc Hm Hbond HP Hk Hf Hmin. pose proof (so_core _ Hs) as Hok.
  destruct (core_candidate _ _ Hok c self Hc) as (top&bottom&Ht&Hb&Hmeta&Hu).
  destruct (Hm top bottom Hmeta Hu). eapply staking_intro; [done..|]. rewrite Hk.
  by eapply (self_changed_ok _ _ Hok c self).
Qed.
(** The same for a new status. *)
Lemma status_changed c self status P' s s' :
  staking_ok s → Storage.CandidateInfo s !! c = Some self →
  let self' := CandidateMetadata.set_status status self in
  pool_ok (<[c := self']> (Storage.CandidateInfo s)) P' →
  core_of s' = Core (<[c := self']> (Storage.CandidateInfo s)) (Storage.TopNominations s)
    (Storage.BottomNominations s) (Storage.NominatorState s)
    (Storage.NominationScheduledRequests s) P' →
  same_free s s' → Storage.MinTotalNominatorStake s' = Storage.MinTotalNominatorStake s →
  staking_ok s'.
Proof using Type*.
  intros Hs Hc self' HP Hk Hf Hmin. apply (self_changed c self self' P' s); try done.
  - intros top bottom [? Hm ? ? ? ?] ?. split; [|done]. split; try done.
    unfold self'. by rewrite Hm at 1.
  - by apply (cov_cand _ _ _ (ok_covered _ _ (so_core _ Hs)) c self).
Qed.

Lemma join_candidates_keeps origin bond n :
  0 <= bond <= u128_max → keeps (join_candidates origin bond n).
Proof using Type*.
  intros Hb s Hs. pose proof (so_core _ Hs) as Hok. unfold join_candidates, ensure_signed.
  destruct origin as [|acc|]; wp_go. rename select (Storage.CandidateInfo s !! acc = None) into Hc.
  eapply wp_mono; [apply (pool_inserted (Storage.CandidateInfo s) _ _ (CandidateMetadata.new bond));
    [apply (ok_pool _ _ Hok)|by rewrite Hc|done]| |done].
  intros P' ? [-> HP]. wp_go. unfold get_collator_stakable_free_balance in *. rewrite Hc in *.
  eapply staking_intro; [done|solve_free|done|]. by apply (joined_ok _ _ Hok).
Qed.
Lemma schedule_leave_candidates_keeps origin n : keeps (schedule_leave_candidates origin n).
Proof using Type*.
  intros s Hs. pose proof (so_core _ Hs) as Hok.
  unfold schedule_leave_candidates, ensure_signed, Candidate.schedule_leave.
  destruct origin as [|c|]; wp_go. unfold wp.
  rewrite remove_from_pool_run by apply (ok_pool _ _ Hok).
  eapply status_changed; [done|done| |done|done|done].
  by apply pool_removed; [apply (ok_pool _ _ Hok)|].
Qed.
(** Back into the pool, as active. *)
Lemma online_pool c self s e :
  staking_ok s → Storage.CandidateInfo s !! c = Some self →
  CandidateMetadata.is_active self = false →
  let self' := CandidateMetadata.go_online self in
  wp (insert_candidate (Bond.mk c (CandidateMetadata.total_counted self')) e
        (Storage.CandidatePool s)) s
    (λ P' s', s' = s ∧ pool_ok (<[c := self']> (Storage.CandidateInfo s)) P') (λ _ _, True).
Proof using Type*.
  intros Hs Hc Ha self'. apply pool_inserted; [apply (ok_pool _ _ (so_core _ Hs))| |done].
  rewrite Hc. cbn. unfold pool_total. by rewrite Ha.
Qed.
Lemma cancel_leave_candidates_keeps origin n : keeps (cancel_leave_candidates origin n).
Proof using Type*.
  intros s Hs. unfold cancel_leave_candidates, ensure_signed. destruct origin as [|c|]; wp_go.
  eapply wp_mono; [apply online_pool; [done..|]| |done].
  - unfold CandidateMetadata.is_active. unfold CandidateMetadata.is_leaving in *.
    by destruct (CandidateMetadata.status _).
  - intros P' ? [-> HP]. wp_go. by eapply status_changed.
Qed.
Lemma go_online_keeps origin : keeps (go_online origin).
Proof using Type*.
  intros s Hs. unfold go_online, ensure_signed. destruct origin as [|c|]; wp_go.
  eapply wp_mono; [apply online_pool; [done..|]| |done]; [done|].
  intros P' ? [-> HP]. wp_go. by eapply status_changed.
Qed.
Lemma go_offline_keeps origin : keeps (go_offline origin).
Proof using Type*.
  intros s Hs. pose proof (so_core _ Hs) as Hok. unfold go_offline, ensure_signed.
  destruct origin as [|c|]; wp_go. unfold wp.
  rewrite remove_from_pool_run by apply (ok_pool _ _ Hok).
  eapply status_changed; [done|done| |done|done|done].
  by apply pool_removed; [apply (ok_pool _ _ Hok)|].
Qed.

(** ** Self bonds *)

(** Metadata whose bond and counted total moved together. *)
Lemma meta_ok_bond self self' top bottom :
  meta_ok self top bottom →
  0 <= CandidateMetadata.bond self' →
  CandidateMetadata.bond self' + sum_amounts (noms top ++ noms bottom) <= u128_max →
  CandidateMetadata.total_counted self' - CandidateMetadata.bond self' =
    CandidateMetadata.total_counted self - CandidateMetadata.bond self →
  self' = CandidateMetadata.set_bond (CandidateMetadata.bond self')
    (CandidateMetadata.set_total_counted (CandidateMetadata.total_counted self')
      (CandidateMetadata.set_request (CandidateMetadata.request self')
        (CandidateMetadata.set_status (CandidateMetadata.status self') self))) →
  meta_ok self' top bottom.
Proof using Type*.
  intros Hok Hb Hr Ht Hself. pose proof (meta_fields _ _ _ Hok) as (?&?&?&?&?&?&?).
  destruct Hok. split; try done. rewrite Hself. apply meta_eq; try done. cbn. lia.
Qed.
(** A bond that is covered leaves room for the nominations. *)
Lemma covered_range c self top bottom s v :
  staking_ok s → Storage.CandidateInfo s !! c = Some self →
  Storage.TopNominations s !! c = Some top → Storage.BottomNominations s !! c = Some bottom →
  meta_ok self top bottom → v <= free_of_chain s c →
  v + sum_amounts (noms top ++ noms bottom) <= u128_max.
Proof using Type*.
  intros Hs Hc Ht Hb Hm Hv. pose proof (lo_owners _ _ (mo_lists _ _ _ Hm)) as Hnd.
  eapply (core_range _ (core_of s)); [apply Hs|done|done|done|].
  intros b Hin. by eapply core_listed_covered; [apply Hs|..].
Qed.
Lemma wp_update_if (b : bool) c t s Q (R : DispatchError → Storage.t → Prop) :
  Q () (Storage.upd_CandidatePool (if b then pool_update c t else id) s) →
  wp (if b then update_active c t else mret ()) s Q R.
Proof using Type*. destruct b; [done|]. unfold wp. cbn. by destruct s. Qed.
Lemma bond_changed c self self' P' s s' :
  staking_ok s → Storage.CandidateInfo s !! c = Some self →
  0 <= CandidateMetadata.bond self' <= free_of_chain s c →
  CandidateMetadata.total_counted self' - CandidateMetadata.bond self' =
    CandidateMetadata.total_counted self - CandidateMetadata.bond self →
  self' = CandidateMetadata.set_bond (CandidateMetadata.bond self')
    (CandidateMetadata.set_total_counted (CandidateMetadata.total_counted self')
      (CandidateMetadata.set_request (CandidateMetadata.request self') self)) →
  unbond_ok self' →
  P' = (if CandidateMetadata.is_active self'
        then pool_update c (CandidateMetadata.total_counted self') else id)
         (Storage.CandidatePool s) →
  core_of s' = Core (<[c := self']> (Storage.CandidateInfo s)) (Storage.TopNominations s)
    (Storage.BottomNominations s) (Storage.NominatorState s)
    (Storage.NominationScheduledRequests s) P' →
  same_free s s' → Storage.MinTotalNominatorStake s' = Storage.MinTotalNominatorStake s →
  staking_ok s'.
Proof using Type*.
  intros Hs Hc Hb Ht Hself Hu HP Hk Hf Hmin. pose proof (so_core _ Hs) as Hok.
  assert (CandidateMetadata.status self' = CandidateMetadata.status self) as Hst
    by (by rewrite Hself).
  destruct (core_candidate _ _ Hok c self Hc) as (top&bottom&Hto&Hbo&Hm&_).
  eapply staking_intro; [done..|]. rewrite Hk.
  eapply (self_changed_ok _ _ Hok c self); [done|done|done| |done|lia|].
  - apply (meta_ok_bond self); [done|lia| |done|by rewrite Hst].
    apply (covered_range c self top bottom s); [done..|lia].
  - eapply pool_changed; [apply (ok_pool _ _ Hok)|done|done|]. subst P'.
    destruct (CandidateMetadata.is_active self'); [by left|by right].
Qed.
Lemma call_candidate_bond_extra_keeps c more :
  0 <= more → keeps (call_candidate_bond_extra c more).
Proof using Type*.
  intros Hmore s Hs. pose proof (so_core _ Hs) as Hok.
  unfold call_candidate_bond_extra, Candidate.bond_extra. wp_go.
  rename select (_ !! c = Some a) into Hc. rename select (more <= _) into Hfree.
  destruct (core_candidate _ _ Hok c a Hc) as (top&bottom&Ht&Hb&Hm&Hu).
  pose proof (cov_cand _ _ _ (ok_covered _ _ Hok) c a Hc) as Hcov.
  unfold get_collator_stakable_free_balance in Hfree. rewrite Hc in Hfree.
  change (free_balance (Storage.Balances s) c) with (free_of_chain s c) in Hfree.
  assert (CandidateMetadata.bond a + more <= free_of_chain s c).
  { unfold saturating_sub in Hfree. lia. }
  pose proof (covered_range c a top bottom s _ Hs Hc Ht Hb Hm H0) as Hr.
  rewrite sum_amounts_app in Hr. cand_facts Hm. destruct (meta_fields _ _ _ Hm) as (_&Htot&_).
  set (self' := CandidateMetadata.set_total_counted _ _).
  assert (CandidateMetadata.bond self' = CandidateMetadata.bond a + more) as Hbond
    by (cbn; by rewrite sat_add_small by lia).
  assert (CandidateMetadata.total_counted self' = CandidateMetadata.total_counted a + more) as Htc
    by (cbn; rewrite sat_add_small by lia; done).
  apply wp_update_if.
  eapply (bond_changed c a self'); [done|done|lia|lia|done| |done|done|solve_free|done].
  unfold unbond_ok in *. cbn [CandidateMetadata.request CandidateMetadata.set_bond self'
    CandidateMetadata.set_total_counted]. destruct (CandidateMetadata.request a); lia.
Qed.
Lemma unbond_request_changed c self r s s' :
  staking_ok s → Storage.CandidateInfo s !! c = Some self →
  let self' := CandidateMetadata.set_request r self in
  unbond_ok self' →
  core_of s' = Core (<[c := self']> (Storage.CandidateInfo s)) (Storage.TopNominations s)
    (Storage.BottomNominations s) (Storage.NominatorState s)
    (Storage.NominationScheduledRequests s) (Storage.CandidatePool s) →
  same_free s s' → Storage.MinTotalNominatorStake s' = Storage.MinTotalNominatorStake s →
  staking_ok s'.
Proof using Type*.
  intros Hs Hc self' Hu Hk Hf Hmin. pose proof (so_core _ Hs) as Hok.
  apply (self_changed c self self' (Storage.CandidatePool s) s); try done.
  - intros top bottom Hm _. split; [|done]. destruct Hm as [? Hm ? ? ? ?]. split; try done.
    unfold self'. by rewrite Hm at 1.
  - by apply (cov_cand _ _ _ (ok_covered _ _ Hok) c self).
  - eapply pool_changed; [apply (ok_pool _ _ Hok)|done|done|]. by right.
Qed.
Lemma call_schedule_candidate_unbond_keeps c less :
  0 <= less → keeps (call_schedule_candidate_unbond c less).
Proof using Type*.
  intros Hl s Hs. unfold call_schedule_candidate_unbond, Candidate.schedule_unbond. wp_go.
  eapply unbond_request_changed; [done|done| |done|done|done]. cbn. lia.
Qed.
Lemma cancel_candidate_unbond_keeps origin : keeps (cancel_candidate_unbond origin).
Proof using Type*.
  intros s Hs. unfold cancel_candidate_unbond, Candidate.cancel_unbond, ensure_signed.
  destruct origin as [|c|]; wp_go. eapply unbond_request_changed; [done|done| |done|done|done]. done.
Qed.
Lemma call_execute_candidate_unbond_keeps c : keeps (call_execute_candidate_unbond c).
Proof using Type*.
  intros s Hs. pose proof (so_core _ Hs) as Hok.
  unfold call_execute_candidate_unbond, Candidate.execute_unbond. wp_go.
  rename select (_ !! c = Some a) into Hc. rename select (CandidateMetadata.request a = _) into Hreq.
  destruct (core_candidate _ _ Hok c a Hc) as (top&bottom&Ht&Hb&Hm&Hu).
  unfold unbond_ok in Hu. rewrite Hreq in Hu.
  pose proof (cov_cand _ _ _ (ok_covered _ _ Hok) c a Hc) as Hcov. cand_facts Hm.
  destruct (meta_fields _ _ _ Hm) as (_&Htot&_).
  apply wp_update_if. wp_go. set (self' := CandidateMetadata.set_request None _).
  assert (CandidateMetadata.bond self' =
    CandidateMetadata.bond a - CandidateBondLessRequest.amount a0) as Hbond
    by (cbn; by rewrite sat_sub_small by lia).
  assert (CandidateMetadata.total_counted self' =
    CandidateMetadata.total_counted a - CandidateBondLessRequest.amount a0) as Htc
    by (cbn; rewrite sat_sub_small by lia; done).
  eapply (bond_changed c a self'); [done|done|lia|lia|done|done|done|done|solve_free|done].
Qed.
End Candidates.
