(* ===== verification/InvRequests.v ===== *)
(** * Scheduling and cancelling requests keep the staking invariant *)

From S2P Require Import Prelude Slices Sets StakingConfig StakingTypes StakingState NominatorOps.
From S2P Require Import CandidateOps Requests Calls NominationLists BondSets.
From S2P Require Import CandidateInv RequestFacts StakingInv StakingCore InvCandidates.

Lemma get_bond_amount_map c st :
  Nominator.get_bond_amount c st = bond_map (Nominator.nominations st) !! c.
Proof.
  unfold Nominator.get_bond_amount. induction (Nominator.nominations st) as [|b l IH]; [done|].
  rewrite bond_map_cons, lookup_insert. cbn. case_decide as Hb; [done|].
  rewrite <-IH. by destruct (list_find _ l) as [[]|].
Qed.

(** The request found by its position. *)
Lemma position_of_Some n reqs i :
  NoDup (ScheduledRequest.nominator <$> reqs) → position_of n reqs = Some i →
  ∃ req, reqs !! i = Some req ∧ req ∈ reqs ∧ ScheduledRequest.nominator req = n ∧
    delete i reqs = others n reqs ∧
    asked n reqs = NominationAction.amount (ScheduledRequest.action req).
Proof.
  intros Hnd (l1&req&l2&->&<-&Hr&_)%position_Some. exists req.
  apply bool_decide_eq_true in Hr. split_and!; [by rewrite list_lookup_middle|set_solver|done| |].
  - by rewrite delete_app_cons, others_middle.
  - by apply asked_middle.
Qed.
Lemma not_requested n reqs :
  position_of n reqs = None → others n reqs = reqs ∧ asked n reqs = 0.
Proof. intros Hn%position_of_None. split; [by apply others_none|by apply asked_absent]. Qed.

(** The stored requests after [put_all_requests]. *)
Definition put_all (updated : list (AccountId * list ScheduledRequest.t)) (R : Requests) : Requests :=
  foldl (λ R p, <[p.1 := p.2]> R) R updated.
Lemma put_all_snoc updated c l R : put_all (updated ++ [(c, l)]) R = <[c := l]> (put_all updated R).
Proof. unfold put_all. by rewrite foldl_app. Qed.
Lemma put_all_other updated R c :
  c ∉ updated.*1 → reqs_of (put_all updated R) c = reqs_of R c.
Proof.
  induction updated as [|[d l] updated IH] using rev_ind; [done|]. rewrite fmap_app, put_all_snoc.
  intros Hc. rewrite reqs_of_insert, decide_False by set_solver. apply IH. set_solver.
Qed.

Section Requests.
Context `{ConfigOk} `{!CurrencyLaws config_currency}.
Implicit Types (c n : AccountId) (s : Storage.t).

(** ** What requests ask is within what is staked *)

Lemma asked_range f k n st c a :
  core_ok f k → k_nom k !! n = Some st → bond_map (Nominator.nominations st) !! c = Some a →
  0 <= asked n (reqs_of (k_req k) c) <= a.
Proof using Type*.
  intros Hok Hst Ha. destruct (ok_reqs _ _ Hok c) as [Hnd _ Hbk].
  assert (0 < a) as Hpos.
  { pose proof (ok_noms _ _ Hok n st Hst) as Hno. pose proof (no_positive _ _ _ Hno) as Hp.
    rewrite Forall_forall in Hp. apply bond_map_lookup in Ha; [by apply (Hp _ Ha)|].
    by apply set_ok_owners, Hno. }
  destruct (position_of n (reqs_of (k_req k) c)) as [i|] eqn:Hi; cycle 1.
  { apply not_requested in Hi as [_ ->]. lia. }
  apply position_of_Some in Hi as (req&_&Hin&Hn&_&->); [|done].
  destruct (Hbk req Hin) as (b&Hb&Hact). unfold nom_bonds in Hb. rewrite Hn, Hst in Hb.
  cbn in Hb. simplify_eq. unfold action_ok in Hact.
  destruct (ScheduledRequest.action req); cbn in *; (pose proof min_nomination_range; lia).
Qed.
Lemma less_range f k n st c a :
  core_ok f k → k_nom k !! n = Some st → bond_map (Nominator.nominations st) !! c = Some a →
  let ask := asked n (reqs_of (k_req k) c) in
  0 <= ask <= Nominator.less_total st ∧ Nominator.less_total st - ask + a <= Nominator.total st.
Proof using Type*.
  intros Hok Hst Ha ask. pose proof (ok_noms _ _ Hok n st Hst) as Hno.
  pose proof (set_ok_owners _ (no_set _ _ _ Hno)) as Hnd.
  assert (∀ b, b ∈ Nominator.nominations st →
    0 <= asked n (reqs_of (k_req k) (owner b)) <= amount b) as Hall.
  { intros [d v] Hb. eapply asked_range; [done..|]. by apply bond_map_lookup. }
  pose proof (pending_without (k_req k) n c _ Hnd ltac:(apply bond_map_is_Some; eauto)) as Hp.
  rewrite <-(no_less _ _ _ Hno) in Hp. fold ask in Hp.
  pose proof (filter_owner_sum c _ a Hnd Ha) as Hsum. rewrite <-(no_total _ _ _ Hno) in Hsum.
  assert (pending (k_req k) n (filter (λ b, owner b ≠ c) (Nominator.nominations st)) <=
          sum_amounts (filter (λ b, owner b ≠ c) (Nominator.nominations st))).
  { apply sum_of_le. intros b [_ Hb]%list_elem_of_filter. by apply Hall. }
  assert (0 <= pending (k_req k) n (filter (λ b, owner b ≠ c) (Nominator.nominations st))).
  { apply sum_of_nonneg. intros b [_ Hb]%list_elem_of_filter. by apply Hall. }
  pose proof (asked_range f k n st c a Hok Hst Ha). fold ask in H2. lia.
Qed.
Lemma total_range s n st :
  staking_ok s → Storage.NominatorState s !! n = Some st → Nominator.total st <= u128_max.
Proof using Type*.
  intros Hs Hst. pose proof (cov_nom _ _ _ (ok_covered _ _ (so_core _ Hs)) n st Hst).
  pose proof (free_balance_range (Storage.Balances s) n). unfold free_of_chain in *. lia.
Qed.

(** ** One request *)

(** Storage where the request of [n] towards [c] is [own]. *)
Lemma requests_changed c n st a own v s s' :
  staking_ok s → Storage.NominatorState s !! n = Some st →
  bond_map (Nominator.nominations st) !! c = Some a →
  own = [] ∨ (∃ r, own = [r] ∧ ScheduledRequest.nominator r = n ∧
                   action_ok a (ScheduledRequest.action r)) →
  let l' := others n (scheduled_requests c s) ++ own in
  (length l' ≤ MaxNominationsPerNominator)%nat →
  v = Nominator.less_total st - asked n (scheduled_requests c s) + asked n own →
  core_of s' = Core (Storage.CandidateInfo s) (Storage.TopNominations s)
    (Storage.BottomNominations s)
    (<[n := Nominator.set_less_total v st]> (Storage.NominatorState s))
    (<[c := l']> (Storage.NominationScheduledRequests s)) (Storage.CandidatePool s) →
  same_free s s' → Storage.MinTotalNominatorStake s' = Storage.MinTotalNominatorStake s →
  staking_ok s'.
Proof using Type*.
  intros Hs Hst Ha Hown l' Hlen -> Hk Hf Hm. eapply staking_intro; [done..|]. rewrite Hk.
  apply (requests_changed_ok _ _ (so_core _ Hs) c n st a own); try done;
    intros; rewrite reqs_of_insert; [by rewrite decide_False| |]; by rewrite decide_True.
Qed.
Lemma schedule_keeps c n st a when act e s :
  staking_ok s → Storage.NominatorState s !! n = Some st →
  position_of n (scheduled_requests c s) = None →
  bond_map (Nominator.nominations st) !! c = Some a → action_ok a act →
  wp (match try_push MaxNominationsPerNominator (scheduled_requests c s)
              (ScheduledRequest.mk n when act) with
      | Some reqs =>
          put_requests c reqs;;
          put_nominator n (Nominator.set_less_total
            (Nominator.less_total st ⊕ NominationAction.amount act) st);;
          deposit_event e
      | None => mret ()
      end) s (λ _ s', staking_ok s') (λ _ _, True).
Proof using Type*.
  intros Hs Hst Hn Ha Hact. rewrite try_push_cases. apply not_requested in Hn as [Ho Hask].
  case_bool_decide as Hlen; wp_go; [|done].
  destruct (less_range _ _ n st c a (so_core _ Hs) Hst Ha) as [? Hmax].
  pose proof (asked_range _ _ n st c a (so_core _ Hs) Hst Ha).
  pose proof (total_range s n st Hs Hst).
  change (reqs_of _ c) with (scheduled_requests c s) in *. rewrite Hask in *.
  assert (0 <= NominationAction.amount act <= a) by (destruct act; cbn in *; (pose proof min_nomination_range; lia)).
  eapply (requests_changed c n st a [ScheduledRequest.mk n when act]
    (Nominator.less_total st ⊕ NominationAction.amount act)); [done..| | | | |done|done].
  - right. by eexists.
  - rewrite Ho, length_app. cbn. lia.
  - rewrite sat_add_small, asked_cons, decide_True, Hask by (done || lia).
    change (asked n []) with 0. cbn. lia.
  - by rewrite Ho.
Qed.
Lemma nomination_schedule_revoke_keeps c n : keeps (nomination_schedule_revoke c n).
Proof using Type*.
  intros s Hs. unfold nomination_schedule_revoke, executable_at. wp_go.
  rewrite get_bond_amount_map in *. eapply schedule_keeps; try done.
Qed.
Lemma nomination_schedule_bond_decrease_keeps c n a :
  0 <= a → keeps (nomination_schedule_bond_decrease c n a).
Proof using Type*.
  intros Ha s Hs. unfold nomination_schedule_bond_decrease, executable_at. wp_go.
  rewrite get_bond_amount_map in *.
  eapply (schedule_keeps _ _ _ _ _ (NominationAction.Decrease a)); try done.
Qed.

(** What cancelling leaves: the request is gone, and what it asked with it. *)
Lemma cancel_request_spec f k n st c a :
  core_ok f k → k_nom k !! n = Some st → bond_map (Nominator.nominations st) !! c = Some a →
  let reqs := reqs_of (k_req k) c in
  cancel_request_with_state n st reqs =
    match position_of n reqs with
    | Some i => req ← reqs !! i;
        Some (req, Nominator.set_less_total (Nominator.less_total st - asked n reqs) st,
              others n reqs)
    | None => None
    end.
Proof using Type*.
  intros Hok Hst Ha reqs. unfold cancel_request_with_state.
  destruct (position_of n reqs) as [i|] eqn:Hi; [|done]. cbn.
  pose proof (less_range f k n st c a Hok Hst Ha) as [? _]. fold reqs in H0.
  apply position_of_Some in Hi as (req&->&_&_&->&Hask); [|apply (ok_reqs _ _ Hok)]. cbn.
  by rewrite <-Hask, sat_sub_small by lia.
Qed.
(** A request is only ever pending for a nomination. *)
Lemma requested_held f k n c st :
  core_ok f k → is_Some (position_of n (reqs_of (k_req k) c)) → k_nom k !! n = Some st →
  ∃ a, bond_map (Nominator.nominations st) !! c = Some a.
Proof using Type*.
  intros Hok [i Hi] Hst. destruct (ok_reqs _ _ Hok c) as [Hnd _ Hbk].
  apply position_of_Some in Hi as (req&_&Hin&Hn&_&_); [|done].
  destruct (Hbk req Hin) as (a&Ha&_). exists a. unfold nom_bonds in Ha. by rewrite Hn, Hst in Ha.
Qed.
Lemma nomination_cancel_request_keeps c n : keeps (nomination_cancel_request c n).
Proof using Type*.
  intros s Hs. pose proof (so_core _ Hs) as Hok. unfold nomination_cancel_request. wp_go.
  rename select (_ !! n = Some a) into Hst. rename select (_ = Some a0) into Hcan.
  destruct (position_of n (scheduled_requests c s)) as [i|] eqn:Hi; cycle 1.
  { unfold cancel_request_with_state in Hcan. by rewrite Hi in Hcan. }
  destruct (requested_held _ _ n c a Hok (mk_is_Some _ _ Hi) Hst) as (v&Hv).
  pose proof (cancel_request_spec _ _ n a c v Hok Hst Hv) as Hspec. cbn zeta in Hspec.
  change (reqs_of _ c) with (scheduled_requests c s) in Hspec. rewrite Hcan, Hi in Hspec.
  destruct (scheduled_requests c s !! i) as [req|]; [|done]. cbn in Hspec. simplify_eq. wp_go.
  eapply (requests_changed c n a v []); [done..|by left| | | |done|done].
  - rewrite app_nil_r. etransitivity; [apply others_length|apply (ok_reqs _ _ Hok)].
  - done.
  - change (asked n []) with 0. by rewrite Z.add_0_r, app_nil_r.
Qed.
Lemma hotfix_keeps origin cs :
  keeps (hotfix_remove_nomination_requests_exited_candidates origin cs).
Proof using Type*.
  intros s Hs. unfold hotfix_remove_nomination_requests_exited_candidates, ensure_signed.
  destruct origin as [|who|]; wp_go.
  apply (wp_for_each _ _ (λ l s', s' = s ∧ ∃ done, cs = done ++ l ∧
    ∀ c, c ∈ done → scheduled_requests c s = [])).
  - split; [done|]. exists []. split; [done|set_solver].
  - intros c l s' [-> (dn&Hcs&Hdn)]. wp_go. split; [done|]. exists (dn ++ [c]).
    rewrite <-app_assoc. split; [done|]. set_solver.
  - intros ? [-> (dn&Hcs&Hdn)]. rewrite app_nil_r in Hcs. subst dn.
    apply (wp_for_each _ _ (λ l s', staking_ok s' ∧
      ∀ c, c ∈ l → scheduled_requests c s' = [])); [done| |tauto].
    intros c l s' [Hs' Hl]. wp_go.
    assert (∀ d, scheduled_requests d (Storage.upd_NominationScheduledRequests (delete c) s') =
      scheduled_requests d s') as Hsame.
    { intros d. unfold scheduled_requests at 1. cbn. rewrite lookup_delete. case_decide; [|done].
      subst. cbn. symmetry. apply Hl. set_solver. }
    split; [|intros d Hd; rewrite Hsame; apply Hl; set_solver].
    eapply staking_intro; [done|done|done|]. destruct (so_core _ Hs') as [? Hno ? Hr ? ? ?].
    split; try done.
    + intros n st Hst. destruct (Hno n st Hst) as [? ? ? ? ? ? Hless]. split; try done.
      rewrite Hless. apply sum_of_ext. intros b _. symmetry. f_equal. apply Hsame.
    + intros d. specialize (Hr d). change (reqs_of _ d) with (scheduled_requests d s') in Hr.
      by rewrite <-Hsame in Hr.
Qed.

(** ** All requests of a nominator *)

Lemma put_all_requests_run updated s :
  put_all_requests updated s =
    (Ok (), Storage.upd_NominationScheduledRequests (put_all updated) s).
Proof using Type*.
  unfold put_all_requests. revert s. induction updated as [|p l IH]; intros s.
  - cbn. by destruct s.
  - cbn [for_each]. unfold mbind, M_bind, put_requests, modify at 1. by rewrite IH.
Qed.
(** The maps as they will be once the loop over the nominations has stored the
    vectors [updated] and the state [st]. *)
Definition with_updates (k : core) (n : AccountId) (st : Nominator.t)
    (updated : list (AccountId * list ScheduledRequest.t)) : core :=
  Core (k_cand k) (k_top k) (k_bottom k) (<[n := st]> (k_nom k)) (put_all updated (k_req k))
    (k_pool k).

(** One turn of such a loop, for the collator [c]. *)
Lemma with_updates_step f k n st updated c a own :
  core_ok f (with_updates k n st updated) →
  bond_map (Nominator.nominations st) !! c = Some a → c ∉ updated.*1 →
  let reqs := reqs_of (k_req k) c in
  let l' := others n reqs ++ own in
  (length l' ≤ MaxNominationsPerNominator)%nat →
  own = [] ∨ (∃ r, own = [r] ∧ ScheduledRequest.nominator r = n ∧
                   action_ok a (ScheduledRequest.action r)) →
  core_ok f (with_updates k n
    (Nominator.set_less_total (Nominator.less_total st - asked n reqs + asked n own) st)
    (updated ++ [(c, l')])).
Proof using Type*.
  intros Hok Ha Hc reqs l' Hlen Hown.
  assert (reqs_of (k_req (with_updates k n st updated)) c = reqs) as Hreqs by (by apply put_all_other).
  pose proof (requests_changed_ok _ _ Hok c n st a own (<[c := l']> (put_all updated (k_req k))))
    as Hres. cbn in Hres. cbn in Hreqs. rewrite !Hreqs, insert_insert_eq in Hres.
  unfold with_updates. rewrite put_all_snoc. apply Hres; try done.
  - apply lookup_insert_eq.
  - intros d Hd. by rewrite reqs_of_insert, decide_False.
  - by rewrite reqs_of_insert, decide_True.
  - by rewrite reqs_of_insert, decide_True.
Qed.

(** The vectors and the state a loop of updates reaches from [k]. *)
Definition updates_ok f k n (st0 st : Nominator.t) updated (todo : list Bond.t) : Prop :=
  core_ok f (with_updates k n st updated) ∧
  Nominator.nominations st = Nominator.nominations st0 ∧
  NoDup (owner <$> todo) ∧ (∀ b, b ∈ todo → b ∈ Nominator.nominations st0 ∧ owner b ∉ updated.*1).

Lemma updates_ok_start f k n st :
  core_ok f k → k_nom k !! n = Some st →
  updates_ok f k n st st [] (Nominator.nominations st).
Proof using Type*.
  intros Hok Hst. split_and!; [|done| |set_solver].
  - unfold with_updates. cbn. by rewrite insert_id, core_eta.
  - apply set_ok_owners, (ok_noms _ _ Hok n st Hst).
Qed.
Lemma updates_ok_step f k n st0 st updated b todo own :
  k_nom k !! n = Some st0 → core_ok f k →
  updates_ok f k n st0 st updated (b :: todo) →
  let reqs := reqs_of (k_req k) (owner b) in
  let l' := others n reqs ++ own in
  (length l' ≤ MaxNominationsPerNominator)%nat →
  own = [] ∨ (∃ r, own = [r] ∧ ScheduledRequest.nominator r = n ∧
                   action_ok (amount b) (ScheduledRequest.action r)) →
  updates_ok f k n st0
    (Nominator.set_less_total (Nominator.less_total st - asked n reqs + asked n own) st)
    (updated ++ [(owner b, l')]) todo.
Proof using Type*.
  intros Hst0 Hok0 (Hok&Hnoms&Hnd&Htodo) reqs l' Hlen Hown.
  apply NoDup_cons in Hnd as [Hb Hnd]. destruct (Htodo b ltac:(set_solver)) as [Hbin Hbu].
  pose proof (ok_noms _ _ Hok0 n st0 Hst0) as Hno. split_and!; [|done|done|].
  - apply (with_updates_step _ _ _ _ _ _ (amount b)); try done. rewrite Hnoms.
    apply bond_map_lookup; [by apply set_ok_owners, Hno|by destruct b].
  - intros b' Hb'. destruct (Htodo b' ltac:(set_solver)) as [? ?]. split; [done|].
    rewrite fmap_app. cbn. intros [?|Heq%list_elem_of_singleton]%elem_of_app; [done|].
    apply Hb. rewrite <-Heq. apply list_elem_of_fmap. eauto.
Qed.
Lemma updates_ok_skip f k n st0 st updated b todo :
  updates_ok f k n st0 st updated (b :: todo) → updates_ok f k n st0 st updated todo.
Proof using Type*.
  intros (Hok&Hnoms&Hnd&Htodo). apply NoDup_cons in Hnd as [_ Hnd].
  split_and!; [done|done|done|]. intros b' Hb'. apply Htodo. set_solver.
Qed.
Lemma updates_ok_held f k n st0 st updated b todo :
  updates_ok f k n st0 st updated (b :: todo) →
  bond_map (Nominator.nominations st) !! owner b = Some (amount b).
Proof using Type*.
  intros (Hok&Hnoms&_&Htodo). destruct (Htodo b ltac:(set_solver)) as [Hbin _].
  pose proof (ok_noms _ _ Hok n st (lookup_insert_eq _ _ _)) as Hno.
  apply bond_map_lookup; [by apply set_ok_owners, Hno|]. rewrite Hnoms. by destruct b.
Qed.
(** Cancelling within the loop. *)
Lemma updates_ok_cancel f k n st0 st updated b todo :
  k_nom k !! n = Some st0 → updates_ok f k n st0 st updated (b :: todo) →
  let reqs := reqs_of (k_req k) (owner b) in
  cancel_request_with_state n st reqs =
    match position_of n reqs with
    | Some i => req ← reqs !! i;
        Some (req, Nominator.set_less_total (Nominator.less_total st - asked n reqs) st,
              others n reqs)
    | None => None
    end.
Proof using Type*.
  intros Hst0 Hup reqs. pose proof (updates_ok_held _ _ _ _ _ _ _ _ Hup) as Hheld.
  destruct Hup as (Hok&_&_&Htodo). destruct (Htodo b ltac:(set_solver)) as [_ Hbu].
  pose proof (cancel_request_spec _ _ n st (owner b) (amount b) Hok (lookup_insert_eq _ _ _)) as Hs.
  cbn in Hs. rewrite put_all_other in Hs by done. by apply Hs.
Qed.
(** A revocation of a whole nomination becomes the pending request. *)
Lemma updates_ok_revoke f k n st0 st updated b todo r :
  k_nom k !! n = Some st0 → core_ok f k → issuance_ok f →
  updates_ok f k n st0 st updated (b :: todo) →
  let reqs := reqs_of (k_req k) (owner b) in
  (length (others n reqs) < MaxNominationsPerNominator)%nat →
  ScheduledRequest.nominator r = n →
  ScheduledRequest.action r = NominationAction.Revoke (amount b) →
  updates_ok f k n st0
    (Nominator.set_less_total ((Nominator.less_total st - asked n reqs) ⊕ amount b) st)
    (updated ++ [(owner b, others n reqs ++ [r])]) todo.
Proof using Type*.
  intros Hst0 Hok Hi Hup reqs Hlen Hr Hact.
  pose proof (updates_ok_held _ _ _ _ _ _ _ _ Hup) as Hheld.
  assert (Nominator.less_total st - asked n reqs + amount b <= u128_max).
  { destruct Hup as (Hok'&_&_&Htodo). destruct (Htodo b ltac:(set_solver)) as [_ Hbu].
    pose proof (less_range _ _ n st (owner b) (amount b) Hok' (lookup_insert_eq _ _ _) Hheld) as Hl.
    cbn in Hl. rewrite put_all_other in Hl by done. fold reqs in Hl.
    pose proof (cov_nom _ _ _ (ok_covered _ _ Hok') n st (lookup_insert_eq _ _ _)).
    specialize (Hi [n] (NoDup_singleton n)). rewrite sum_of_cons, sum_of_nil in Hi. lia. }
  pose proof (updates_ok_step _ _ _ _ _ _ _ _ [r] Hst0 Hok Hup) as Hstep.
  rewrite asked_cons, decide_True, Hact in Hstep by done. change (asked n []) with 0 in Hstep.
  cbn in Hstep. rewrite Z.add_0_r in Hstep. rewrite sat_add_small by done. apply Hstep.
  - rewrite length_app. cbn. fold reqs. lia.
  - right. exists r. by rewrite Hact.
Qed.
Lemma pending_revoke f k n st0 b i req :
  core_ok f k → k_nom k !! n = Some st0 → b ∈ Nominator.nominations st0 →
  let reqs := reqs_of (k_req k) (owner b) in
  position_of n reqs = Some i → reqs !! i = Some req →
  NominationAction.is_revoke (ScheduledRequest.action req) = true →
  ScheduledRequest.nominator req = n ∧
  ScheduledRequest.action req = NominationAction.Revoke (amount b).
Proof using Type*.
  intros Hok Hst0 Hb reqs Hi Hreq Hrev. destruct (ok_reqs _ _ Hok (owner b)) as [Hnd _ Hbk].
  apply position_of_Some in Hi as (req'&?&Hin&Hn&_&_); [|done]. simplify_eq. split; [done|].
  destruct (Hbk req' Hin) as (a&Ha&Hact). unfold nom_bonds in Ha. rewrite Hst0 in Ha. cbn in Ha.
  assert (bond_map (Nominator.nominations st0) !! owner b = Some (amount b)).
  { apply bond_map_lookup; [apply set_ok_owners, (ok_noms _ _ Hok _ _ Hst0)|by destruct b]. }
  simplify_eq. destruct (ScheduledRequest.action req'); [|done]. cbn in Hact. by subst.
Qed.

(** One turn of [nominator_schedule_revoke_all]: whatever was pending, a
    revocation of the whole nomination is pending afterwards, unless the vector
    of the collator is full. *)
Lemma revoke_all_step_ok n when s st0 acc b todo :
  staking_ok s → k_nom (core_of s) !! n = Some st0 →
  updates_ok (free_of_chain s) (core_of s) n st0 acc.1.1 acc.2 (b :: todo) →
  let r := revoke_all_step n when s acc b in
  updates_ok (free_of_chain s) (core_of s) n st0 r.1.1 r.2 todo.
Proof using Type*.
  intros [Hok Hi _] Hst0 Hup. destruct acc as [[st cnt] updated]. cbn [fst snd] in *.
  unfold revoke_all_step. change (scheduled_requests (owner b) s)
    with (reqs_of (k_req (core_of s)) (owner b)).
  rewrite (updates_ok_cancel _ _ _ _ _ _ _ _ Hst0 Hup).
  pose proof (λ r, updates_ok_revoke _ _ _ _ _ _ _ _ r Hst0 Hok Hi Hup) as Hpush. cbv zeta in Hpush.
  set (reqs := reqs_of _ (owner b)) in *. pose proof (ok_reqs _ _ Hok (owner b)) as Hv. fold reqs in Hv.
  destruct (position_of n reqs) as [i|] eqn:Hpos.
  - pose proof Hpos as Hpos'. apply position_of_Some in Hpos' as (req&Hreq&_&_&Hdel&_); [|apply Hv].
    rewrite Hreq. cbn [mbind option_bind].
    assert (length (others n reqs) < MaxNominationsPerNominator)%nat.
    { rewrite <-Hdel. pose proof (vo_len _ _ _ Hv). rewrite length_delete by eauto.
      apply lookup_lt_Some in Hreq. lia. }
    pose proof (pending_revoke _ _ n st0 b i req Hok Hst0) as Hrev.
    destruct (NominationAction.is_revoke _) eqn:Hir; rewrite try_push_cases, bool_decide_true by done;
      cbn [fst snd]; (apply Hpush; [done|try done|try done]); destruct Hup as (_&_&_&Htodo);
      apply Hrev; try done; apply Htodo; set_solver.
  - apply not_requested in Hpos as [Ho Hask]. rewrite try_push_cases, Ho, Hask in *.
    case_bool_decide; cbn [fst snd]; [|by eapply updates_ok_skip].
    rewrite Z.sub_0_r in Hpush. by apply Hpush.
Qed.
Lemma fold_updates_ok {Acc} (proj : Acc → Nominator.t * list (AccountId * list ScheduledRequest.t))
    (step : Acc → Bond.t → Acc) f k n st0 l acc :
  (∀ acc b todo, updates_ok f k n st0 (proj acc).1 (proj acc).2 (b :: todo) →
     updates_ok f k n st0 (proj (step acc b)).1 (proj (step acc b)).2 todo) →
  updates_ok f k n st0 (proj acc).1 (proj acc).2 l →
  let r := proj (foldl step acc l) in
  core_ok f (with_updates k n r.1 r.2).
Proof using Type*.
  intros Hstep. revert acc. induction l as [|b l IH]; intros acc Hup; [apply Hup|].
  cbn [foldl]. apply IH. by apply Hstep.
Qed.
Lemma wp_put_all updated s Q (R : DispatchError → Storage.t → Prop) :
  Q () (Storage.upd_NominationScheduledRequests (put_all updated) s) →
  wp (put_all_requests updated) s Q R.
Proof using Type*. unfold wp. by rewrite put_all_requests_run. Qed.
(** Storage after the vectors and the state were stored. *)
Lemma stored_updates n st updated s s' :
  staking_ok s → core_ok (free_of_chain s) (with_updates (core_of s) n st updated) →
  core_of s' = with_updates (core_of s) n st updated →
  same_free s s' → Storage.MinTotalNominatorStake s' = Storage.MinTotalNominatorStake s →
  staking_ok s'.
Proof using Type*. intros Hs Hok Hk Hf Hm. eapply staking_intro; [done..|]. by rewrite Hk. Qed.

Lemma nominator_schedule_revoke_all_keeps n : keeps (nominator_schedule_revoke_all n).
Proof using Type*.
  intros s Hs. unfold nominator_schedule_revoke_all, executable_at. wp_go.
  rename select (_ !! n = Some a) into Hst. set (when := _ ⊕₃₂ _).
  pose proof (fold_updates_ok (λ acc, (acc.1.1, acc.2)) (revoke_all_step n when s)
    (free_of_chain s) (core_of s) n a (Nominator.nominations a) (a, 0%nat, [])) as Hf.
  change (id s) with s. destruct (foldl _ _ _) as [[st cnt] updated]. cbn in Hf. wp_go.
  apply wp_put_all. wp_go. eapply stored_updates; [done| |done|done|done].
  apply Hf; [|by apply updates_ok_start; [apply Hs|]].
  intros acc b todo Hup. by apply revoke_all_step_ok.
Qed.
Lemma nominator_cancel_all_keeps n : keeps (nominator_cancel_scheduled_revoke_all n).
Proof using Type*.
  intros s Hs. pose proof (so_core _ Hs) as Hok.
  unfold nominator_cancel_scheduled_revoke_all. wp_go. rename select (_ !! n = Some a) into Hst.
  change (k_nom (core_of s) !! n = Some a) in Hst.
  apply (wp_for_each _ _ (λ _ s', s' = s)); [done|intros; subst; wp_go; done|].
  intros ? ->. wp_go. change (id s) with s.
  match goal with |- context [foldl ?g _ _] => set (step := g) end.
  pose proof (fold_updates_ok id step
    (free_of_chain s) (core_of s) n a (Nominator.nominations a) (a, [])) as Hf.
  destruct (foldl _ _ _) as [st updated]. cbn in Hf. wp_go.
  apply wp_put_all. wp_go. eapply stored_updates; [done| |done|done|done].
  apply Hf; [|by apply updates_ok_start]. clear st updated Hf.
  intros [st updated] b todo Hup. cbn [id fst snd] in *. unfold step.
  change (scheduled_requests (owner b) s) with (reqs_of (k_req (core_of s)) (owner b)).
  rewrite (updates_ok_cancel _ _ _ _ _ _ _ _ Hst Hup).
  pose proof (updates_ok_step _ _ _ _ _ _ _ _ [] Hst Hok Hup) as Hstep. cbv zeta in Hstep.
  change (asked n []) with 0 in Hstep. rewrite Z.add_0_r, app_nil_r in Hstep.
  pose proof (ok_reqs _ _ Hok (owner b)) as Hv. set (reqs := reqs_of _ (owner b)) in *.
  pose proof (others_length n reqs). pose proof (vo_len _ _ _ Hv).
  destruct (position_of n reqs) as [i|] eqn:Hpos.
  - apply position_of_Some in Hpos as (req&->&_); [|apply Hv]. apply Hstep; [lia|by left].
  - apply not_requested in Hpos as [Ho Hask]. rewrite Ho, Hask, Z.sub_0_r in Hstep.
    destruct st. apply Hstep; [lia|by left].
Qed.
End Requests.
