(* ===== verification/InvNominate.v ===== *)
(** * Nominating and adding to a nomination keep the staking invariant *)

From S2P Require Import Prelude Slices Sets StakingConfig StakingTypes StakingState.
From S2P Require Import NominatorOps CandidateOps Requests Calls NominationLists.
From S2P Require Import BondSets CandidateInv CandidateAdd CandidateAdjust.
From S2P Require Import RequestFacts StakingInv StakingCore InvCandidates InvRequests.

Section Nominate.
Context `{ConfigOk} `{!CurrencyLaws config_currency}.
Implicit Types (c n : AccountId) (s : Storage.t) (b : Bond.t).

(** ** What the invariant gives for the lists of a candidate *)

Lemma staking_candidate s c self :
  staking_ok s → Storage.CandidateInfo s !! c = Some self →
  ∃ top bottom, cand_ok c self top bottom s ∧ unbond_ok self.
Proof using Type*.
  intros Hs Hc. destruct (core_candidate _ _ (so_core _ Hs) c self Hc) as (top&bottom&?&?&?&?).
  by exists top, bottom.
Qed.
Lemma staking_listed s c self top bottom b :
  staking_ok s → cand_ok c self top bottom s → b ∈ noms top ++ noms bottom →
  ∃ st, Storage.NominatorState s !! owner b = Some st ∧
    nominator_ok (Storage.NominationScheduledRequests s) (owner b) st ∧
    bond_map (Nominator.nominations st) !! c = Some (amount b) ∧
    0 < amount b <= Nominator.total st ∧ Nominator.total st <= free_of_chain s (owner b).
Proof using Type*.
  intros Hs [Ht Hb Hm] Hin. eapply (core_listed _ _ (so_core _ Hs)); [done..| |done].
  apply (lo_owners _ _ (mo_lists _ _ _ Hm)).
Qed.
Lemma staking_backs s c self top bottom b :
  staking_ok s → cand_ok c self top bottom s → b ∈ noms top ++ noms bottom → backs c b s.
Proof using Type*.
  intros Hs Hc Hin. destruct (staking_listed _ _ _ _ _ _ Hs Hc Hin) as (st&Hst&Hno&Ha&_).
  exists st. split_and!; [done|apply Hno| |done].
  pose proof (no_len _ _ _ Hno). pose proof max_per_nominator_bound. lia.
Qed.

(** ** The kick of a nomination *)

Lemma drop_request_reqs c n s d :
  NoDup (ScheduledRequest.nominator <$> scheduled_requests c s) →
  reqs_of (Storage.NominationScheduledRequests (drop_request c n s)) d =
    if decide (c = d) then others n (scheduled_requests c s) else scheduled_requests d s.
Proof using Type*.
  intros Hnd. unfold drop_request, request_index.
  change (position _ _) with (position_of n (scheduled_requests c s)).
  destruct (position_of n _) as [i|] eqn:Hi.
  - apply position_of_Some in Hi as (req&_&_&_&->&_); [|done]. cbn. by rewrite reqs_of_insert.
  - apply not_requested in Hi as [Ho _]. case_decide; [subst; by rewrite Ho|done].
Qed.
Lemma without_request_asked c n s st :
  NoDup (ScheduledRequest.nominator <$> scheduled_requests c s) →
  asked n (scheduled_requests c s) <= Nominator.less_total st →
  without_request c n s st =
    Nominator.set_less_total (Nominator.less_total st - asked n (scheduled_requests c s)) st.
Proof using Type*.
  intros Hnd Hle. unfold without_request, request_of, request_index.
  change (position _ _) with (position_of n (scheduled_requests c s)).
  destruct (position_of n _) as [i|] eqn:Hi.
  - apply position_of_Some in Hi as (req&Hreq&_&_&_&Hask); [|done]. cbn [mbind option_bind].
    rewrite Hreq, <-Hask. by rewrite sat_sub_small.
  - apply not_requested in Hi as [_ ->]. cbn. rewrite Z.sub_0_r. by destruct st.
Qed.
Lemma drop_request_frame c n s :
  let s' := drop_request c n s in
  Storage.Balances s' = Storage.Balances s ∧
  Storage.MinTotalNominatorStake s' = Storage.MinTotalNominatorStake s ∧
  core_of s' = Core (Storage.CandidateInfo s) (Storage.TopNominations s)
    (Storage.BottomNominations s) (Storage.NominatorState s)
    (Storage.NominationScheduledRequests s') (Storage.CandidatePool s).
Proof using Type*. unfold drop_request. by destruct (request_index c n s). Qed.

(** The state of the nominator of [b] after it lost [b]. *)
Lemma lost_state s c self top bottom b st :
  staking_ok s → cand_ok c self top bottom s → b ∈ noms top ++ noms bottom →
  Storage.NominatorState s !! owner b = Some st →
  let ask := asked (owner b) (scheduled_requests c s) in
  without_request c (owner b) s (nominator_without c (amount b) st) =
    Nominator.mk (Nominator.id st) (filter (λ b, owner b ≠ c) (Nominator.nominations st))
      (Nominator.total st - amount b) (Nominator.less_total st - ask).
Proof using Type*.
  intros Hs Hc Hin Hst ask. pose proof (so_core _ Hs) as Hok.
  destruct (staking_listed _ _ _ _ _ _ Hs Hc Hin) as (st'&?&Hno&Ha&?&_). simplify_eq.
  pose proof (less_range _ _ (owner b) st c (amount b) Hok Hst Ha) as [[_ Hask] _].
  rewrite without_request_asked; [|apply (ok_reqs _ _ Hok c)|exact Hask].
  unfold nominator_without, Nominator.set_total, Nominator.set_less_total,
    Nominator.set_nominations. cbn. by rewrite sat_sub_small by lia.
Qed.
Lemma kick_core s c self top bottom b st :
  staking_ok s → cand_ok c self top bottom s → b ∈ noms top ++ noms bottom →
  Storage.NominatorState s !! owner b = Some st →
  let s' := kick_effect c b s in
  let R' := Storage.NominationScheduledRequests s' in
  core_of s' = Core (Storage.CandidateInfo s) (Storage.TopNominations s)
    (Storage.BottomNominations s)
    (partial_alter (λ _, lost c (amount b) (asked (owner b) (scheduled_requests c s)) st)
       (owner b) (Storage.NominatorState s)) R' (Storage.CandidatePool s) ∧
  (∀ d, reqs_of R' d = if decide (c = d) then others (owner b) (scheduled_requests c s)
                       else scheduled_requests d s) ∧
  same_free s s' ∧ Storage.MinTotalNominatorStake s' = Storage.MinTotalNominatorStake s.
Proof using Type*.
  intros Hs Hc Hin Hst. pose proof (so_core _ Hs) as Hok. unfold kick_effect. rewrite Hst.
  set (s1 := lock_nominator _ s). pose proof (lost_state _ _ _ _ _ _ _ Hs Hc Hin Hst) as Hlost.
  change (without_request c (owner b) s) with (without_request c (owner b) s1) in Hlost.
  rewrite Hlost. destruct (drop_request_frame c (owner b) s1) as (Hb&Hm&Hk).
  assert (∀ d, reqs_of (Storage.NominationScheduledRequests (drop_request c (owner b) s1)) d =
    if decide (c = d) then others (owner b) (scheduled_requests c s) else scheduled_requests d s) as HR.
  { intros d. rewrite drop_request_reqs; [done|apply (ok_reqs _ _ Hok c)]. }
  assert (same_free s (drop_request c (owner b) s1)) as Hf.
  { intros a. unfold free_of_chain. rewrite Hb. apply free_lock_nominator. }
  unfold core_of in Hk. injection Hk as Hk1 Hk2 Hk3 Hk4 Hk5.
  unfold lost. case_bool_decide; (split_and!; [|exact HR|exact Hf|exact Hm]); unfold core_of; cbn;
    by rewrite Hk1, Hk2, Hk3, Hk4, Hk5.
Qed.

(** ** Nominating *)

Lemma not_held_asked f k n c :
  core_ok f k → nom_bonds (k_nom k) n !! c = None → asked n (reqs_of (k_req k) c) = 0.
Proof using Type*.
  intros Hok Hn. apply asked_absent. intros (r&->&Hr)%list_elem_of_fmap.
  destruct (vo_backed _ _ _ (ok_reqs _ _ Hok c) r Hr) as (a&Ha&_). congruence.
Qed.

(** The state of a nominator with a new nomination of [c]. *)
Record nominating (f : AccountId → Balance) (k : core) n c (a : Balance) (st' : Nominator.t) : Prop := {
  ng_fresh : nom_bonds (k_nom k) n !! c = None;
  ng_bonds : bond_map (Nominator.nominations st') = <[c := a]> (nom_bonds (k_nom k) n);
  ng_ok : nominator_ok (k_req k) n st';
  ng_cover : Nominator.total st' <= f n;
  ng_amount : 0 < a <= Nominator.total st';
  ng_apart : k_cand k !! n = None;
}.
Lemma stakable_free s n a :
  staking_ok s → 0 <= a → a <= get_nominator_stakable_free_balance n s →
  match Storage.NominatorState s !! n with
  | Some st => Nominator.total st + a <= free_of_chain s n
  | None => a <= free_of_chain s n
  end.
Proof using Type*.
  intros Hs Ha. unfold get_nominator_stakable_free_balance.
  change (free_balance (Storage.Balances s) n) with (free_of_chain s n).
  destruct (Storage.NominatorState s !! n) as [st|] eqn:Hst; [|done].
  pose proof (cov_nom _ _ _ (ok_covered _ _ (so_core _ Hs)) n st Hst). unfold saturating_sub. lia.
Qed.
Lemma add_nomination_state s n st c a r :
  staking_ok s → Storage.NominatorState s !! n = Some st →
  (length (Nominator.nominations st) < MaxNominationsPerNominator)%nat →
  MinNominationPerCollator <= a → Nominator.total st + a <= free_of_chain s n →
  Nominator.add_nomination (Bond.mk c a) st = Some r →
  r.1 = true → nominating (free_of_chain s) (core_of s) n c a r.2.
Proof using Type*.
  intros Hs Hst Hlen Ha Hf Hadd Hr. pose proof (so_core _ Hs) as Hok. pose proof min_nomination_range.
  pose proof (ok_noms _ _ Hok n st Hst) as [Hid Hset Hl Hne Hpos Htot Hless].
  unfold Nominator.add_nomination in Hadd.
  destruct (bond_map_try_insert MaxCloneableNominations (Bond.mk c a) _ Hset) as (Hset'&Hcase&Hins).
  destruct (BoundedOrderedSet.try_insert _ _ _) as [[[]|] l'] eqn:He; try congruence; injection Hadd as <-; cbn in *; try congruence.
  destruct (Hins eq_refl) as [Hp Hm].
  destruct (bool_decide (c ∈ owner <$> Nominator.nominations st)) eqn:Hin; [done|].
  apply bool_decide_eq_false in Hin.
  assert (nom_bonds (Storage.NominatorState s) n !! c = None) as Hfresh.
  { unfold nom_bonds. rewrite Hst. cbn. by apply bond_map_None. }
  pose proof (free_balance_range (Storage.Balances s) n). unfold free_of_chain in Hf.
  pose proof (sum_amounts_nonneg (Nominator.nominations st)) as Hnn.
  assert (0 <= Nominator.total st).
  { rewrite Htot. apply Hnn. eapply Forall_impl; [done|]. cbn. lia. }
  split; cbn; rewrite ?sat_add_small by lia; try done; [| |lia|].
  - unfold nom_bonds. by rewrite Hst.
  - split; cbn; rewrite ?sat_add_small by lia; try done.
    + rewrite Hp. cbn. lia.
    + intros ->. by apply Permutation_nil_cons in Hp.
    + rewrite Hp. by constructor.
    + rewrite Hp, sum_cons. cbn. lia.
    + rewrite (pending_perm _ _ _ _ Hp). unfold pending. rewrite sum_of_cons. cbn.
      change (Storage.NominationScheduledRequests s) with (k_req (core_of s)).
      rewrite (not_held_asked _ _ _ _ Hok Hfresh). rewrite Hless. done.
  - destruct (ok_apart _ _ Hok n); [done|]. cbn in *. congruence.
Qed.
Lemma new_nominator_state s n c a :
  staking_ok s → Storage.NominatorState s !! n = None → Storage.CandidateInfo s !! n = None →
  MinNominationPerCollator <= a → a <= free_of_chain s n →
  nominating (free_of_chain s) (core_of s) n c a (Nominator.new n c a).
Proof using Type*.
  intros Hs Hst Hc Ha Hf. pose proof max_per_nominator_pos. pose proof min_nomination_range.
  assert (nom_bonds (Storage.NominatorState s) n = ∅) as Hemp by (unfold nom_bonds; by rewrite Hst).
  split; cbn; try done; [by rewrite Hemp|by rewrite Hemp| |lia].
  split; cbn; try done.
  - repeat constructor.
  - repeat constructor. done.
  - rewrite sum_cons, sum_nil. cbn. lia.
  - unfold pending. rewrite sum_of_cons, sum_of_nil. cbn.
    change (Storage.NominationScheduledRequests s) with (k_req (core_of s)).
    rewrite (not_held_asked _ _ _ _ (so_core _ Hs)); [done|]. cbn. by rewrite Hemp.
Qed.
Lemma nominate_state_spec s n c a cnt :
  staking_ok s → 0 <= a → a <= get_nominator_stakable_free_balance n s →
  wp (nominate_state n c a cnt) s (λ st' s', s' = s ∧ nominating (free_of_chain s) (core_of s) n c a st') (λ _ _, True).
Proof using Type*.
  intros Hs Ha Hfree%stakable_free; [|done..]. pose proof min_nomination_range.
  pose proof (so_min _ Hs). unfold nominate_state. wp_go.
  destruct (Storage.NominatorState s !! n) as [st|] eqn:Hst; wp_go.
  - destruct (Nominator.add_nomination (Bond.mk c a) st) as [r|] eqn:Hadd; wp_go.
    + eapply wp_expect; [done|]. wp_go. split; [done|].
      eapply add_nomination_state; [done|done|lia|lia|done|done|done].
    + exfalso. unfold Nominator.add_nomination in Hadd.
      pose proof (ok_noms _ _ (so_core _ Hs) n st Hst) as Hno.
      destruct (bond_map_try_insert MaxCloneableNominations (Bond.mk c a) _ (no_set _ _ _ Hno))
        as (_&Hcase&_). pose proof max_per_nominator_bound.
      rewrite (bool_decide_true (length _ < _)%nat) in Hcase by lia.
      destruct (bool_decide (owner (Bond.mk c a) ∈ _)); rewrite Hcase in Hadd; done.
  - split; [done|]. apply new_nominator_state; [done|done|done|lia|done].
Qed.

(** The lists of [c] with the new nomination. *)
Lemma nominated_ok f k c n a self st' top' bottom' top bottom :
  core_ok f k → k_cand k !! c = Some self → k_top k !! c = Some top → k_bottom k !! c = Some bottom →
  nominating f k n c a st' →
  let self' := meta_of self top' bottom' in
  meta_ok self' top' bottom' → noms top' ++ noms bottom' ≡ₚ Bond.mk n a :: noms top ++ noms bottom →
  core_ok f (Core (<[c := self']> (k_cand k)) (<[c := top']> (k_top k))
    (<[c := bottom']> (k_bottom k)) (<[n := st']> (k_nom k)) (k_req k)
    (pool_effect c self self' (k_pool k))).
Proof using Type*.
  intros Hok Hc Ht Hb [Hfresh Hbonds Hno Hcov Ha Hap] self' Hm' Hp.
  apply (changed_ok f k Hok c n self' top' bottom' (Some st')).
  apply (change_set _ _ Hok c self top bottom Hc Ht Hb n a); try done.
  - rewrite (bond_map_perm _ _ (lo_owners _ _ (mo_lists _ _ _ Hm')) Hp). done.
  - intros r Hr Hrn. destruct (vo_backed _ _ _ (ok_reqs _ _ Hok c) r Hr) as (v&Hv&_).
    rewrite Hrn in Hv. congruence.
Qed.
Lemma nominate_addable s c n a self st' top bottom :
  staking_ok s → Storage.CandidateInfo s !! c = Some self → cand_ok c self top bottom s →
  nominating (free_of_chain s) (core_of s) n c a st' → addable c (Bond.mk n a) self top bottom s.
Proof using Type*.
  intros Hs Hc Hco Hng. pose proof Hco as [Ht Hb Hm]. pose proof (so_core _ Hs) as Hok.
  pose proof (core_not_held _ _ Hok n c top bottom Ht Hb (ng_fresh _ _ _ _ _ _ Hng)) as Hn.
  destruct Hng as [_ _ _ Hcov Ha Hap]. split; cbn; [done|done|lia| |].
  - pose proof (core_range _ (core_of s) c self (Bond.mk n a :: noms top ++ noms bottom)
      (CandidateMetadata.bond self) (so_issuance _ Hs) Hc) as Hr. rewrite sum_cons in Hr. cbn in Hr.
    enough (CandidateMetadata.bond self + (a + sum_amounts (noms top ++ noms bottom)) <= u128_max)
      by lia.
    apply Hr.
    + apply NoDup_cons. split; [done|]. apply (lo_owners _ _ (mo_lists _ _ _ Hm)).
    + by apply (cov_cand _ _ _ (ok_covered _ _ Hok) c self).
    + intros b [->|Hin]%elem_of_cons; [cbn; split; [done|lia]|].
      eapply (core_listed_covered _ _ Hok); [done..| |done]. apply (lo_owners _ _ (mo_lists _ _ _ Hm)).
  - intros k Hk _. eapply staking_backs; [done..|]. apply elem_of_app. right.
    apply last_Some in Hk as [? ->]. set_solver.
Qed.

(** A nomination kicked from the bottom, before the new one is put in. *)
Definition bottom_without (bl : list Bond.t) : Nominations.t := Nominations.mk bl (sum_amounts bl).
Lemma kicked_ok f k c self top bottom bl b st R' :
  core_ok f k → k_cand k !! c = Some self → k_top k !! c = Some top → k_bottom k !! c = Some bottom →
  meta_ok self top bottom → noms bottom = bl ++ [b] → k_nom k !! owner b = Some st →
  (∀ d, reqs_of R' d = if decide (c = d) then others (owner b) (reqs_of (k_req k) c)
                       else reqs_of (k_req k) d) →
  let self1 := meta_of self top (bottom_without bl) in
  meta_ok self1 top (bottom_without bl) ∧
  CandidateMetadata.total_counted self1 = CandidateMetadata.total_counted self ∧
  core_ok f (Core (<[c := self1]> (k_cand k)) (k_top k) (<[c := bottom_without bl]> (k_bottom k))
    (partial_alter (λ _, lost c (amount b) (asked (owner b) (reqs_of (k_req k) c)) st) (owner b)
       (k_nom k)) R' (k_pool k)).
Proof using Type*.
  intros Hok Hc Ht Hb Hm Hbl Hst HR' self1. cand_facts Hm. pose proof (mo_lists _ _ _ Hm) as Hlo.
  rewrite Hbl in Hlo. destruct (lo_bottom_snoc _ _ _ Hlo) as (_&?&?). rewrite Hbl, sum_snoc in *.
  assert (meta_ok self1 top (bottom_without bl)) as Hm1.
  { apply meta_ok_intro; cbn; [by eapply lists_ok_kick|done|done|done|].
    rewrite sum_amounts_app. lia. }
  destruct (meta_fields _ _ _ Hm) as (_&Htot&_). split_and!; [done|by symmetry|].
  pose proof (changed_ok f k Hok c (owner b) self1 top (bottom_without bl)
    (lost c (amount b) (asked (owner b) (reqs_of (k_req k) c)) st) R'
    (pool_effect c self self1 (k_pool k))) as Hch. unfold changed in Hch.
  rewrite (insert_id (k_top k)) in Hch by done.
  unfold pool_effect in Hch. rewrite bool_decide_true in Hch by done. apply Hch.
  pose proof (change_remove _ _ Hok c self top bottom Hc Ht Hb (owner b) (amount b) st top
    (bottom_without bl) R') as Hrem. unfold pool_effect in Hrem.
  rewrite bool_decide_true in Hrem by done. apply Hrem; [done| |done| |].
  - rewrite Hbl. cbn. destruct b; cbn; solve_perm.
  - intros d Hd. by rewrite HR', decide_False.
  - by rewrite HR', decide_True.
Qed.
Lemma nominating_after_kick f k c n a st' b self1 bottom1 o R' :
  core_ok f k → nominating f k n c a st' → n ≠ owner b → n ≠ c →
  (∀ d, reqs_of R' d = if decide (c = d) then others (owner b) (reqs_of (k_req k) c)
                       else reqs_of (k_req k) d) →
  nominating f (Core (<[c := self1]> (k_cand k)) (k_top k) (<[c := bottom1]> (k_bottom k))
    (partial_alter (λ _, o) (owner b) (k_nom k)) R' (k_pool k)) n c a st'.
Proof using Type*.
  intros Hok [Hfresh Hbonds Hno Hcov Ha Hap] Hn Hnc HR'.
  assert (nom_bonds (partial_alter (λ _, o) (owner b) (k_nom k)) n = nom_bonds (k_nom k) n) as Heq
    by (by rewrite nom_bonds_alter, decide_False).
  split; cbn; rewrite ?Heq; try done.
  - destruct Hno as [? ? ? ? ? ? Hless]. split; try done. rewrite Hless. symmetry.
    apply (pending_same _ _ c); [intros d Hd; by rewrite HR', decide_False|].
    left. by rewrite HR', decide_True, asked_others, decide_False.
  - by rewrite lookup_insert_ne.
Qed.

(** The maps after [add_nomination] and the writes of [call_nominate]. *)
Lemma added_core s c n a self st' top bottom less self' s' top' bottom' :
  staking_ok s → Storage.CandidateInfo s !! c = Some self → cand_ok c self top bottom s →
  nominating (free_of_chain s) (core_of s) n c a st' →
  self' = meta_of self top' bottom' → meta_ok self' top' bottom' →
  match less with
  | None => noms top' ++ noms bottom' ≡ₚ Bond.mk n a :: noms top ++ noms bottom ∧
      s' = cand_write c self self' top' bottom' s
  | Some v => ∃ k, last (noms bottom) = Some k ∧ v = amount k ∧ amount k < a ∧
      k :: noms top' ++ noms bottom' ≡ₚ Bond.mk n a :: noms top ++ noms bottom ∧
      s' = cand_write c self self' top' bottom' (kick_effect c k s)
  end →
  same_free s s' ∧ Storage.MinTotalNominatorStake s' = Storage.MinTotalNominatorStake s ∧
  core_ok (free_of_chain s) (Core (<[c := self']> (Storage.CandidateInfo s'))
    (Storage.TopNominations s') (Storage.BottomNominations s')
    (<[n := st']> (Storage.NominatorState s')) (Storage.NominationScheduledRequests s')
    (Storage.CandidatePool s')).
Proof using Type*.
  intros Hs Hc Hco Hng -> Hm' Hless. pose proof (so_core _ Hs) as Hok. pose proof Hco as [Ht Hb Hm].
  destruct less as [v|].
  - destruct Hless as (k&Hlast&->&_&Hp&->). apply last_Some in Hlast as [bl Hbl].
    assert (k ∈ noms top ++ noms bottom) as Hk by (rewrite Hbl; set_solver).
    destruct (staking_listed _ _ _ _ _ _ Hs Hco Hk) as (st&Hst&_).
    destruct (kick_core _ _ _ _ _ _ _ Hs Hco Hk Hst) as (Hcore&HR&Hf&Hmin).
    pose proof (kicked_ok _ _ _ _ _ _ _ _ _ _ Hok Hc Ht Hb Hm Hbl Hst HR) as (Hm1&Htot1&Hok1).
    assert (n ∉ owner <$> (noms top ++ noms bottom)) as Hn.
    { eapply (core_not_held _ _ Hok); [done..|]. apply Hng. }
    assert (n ≠ owner k) by (intros ->; apply Hn, list_elem_of_fmap; eauto).
    assert (n ≠ c) by (intros ->; pose proof (ng_apart _ _ _ _ _ _ Hng); cbn in *; congruence).
    pose proof (nominating_after_kick _ _ c n a st' k (meta_of self top (bottom_without bl))
      (bottom_without bl) (lost c (amount k) (asked (owner k) (scheduled_requests c s)) st) _
      Hok Hng ltac:(done) ltac:(done) HR) as Hng1.
    split_and!; [exact Hf|exact Hmin|].
    pose proof (nominated_ok _ _ c n a _ st' top' bottom' top (bottom_without bl) Hok1
      (lookup_insert_eq _ _ _) Ht (lookup_insert_eq _ _ _) Hng1 Hm') as Hfin.
    unfold pool_effect in Hfin. rewrite Htot1 in Hfin. cbn in Hfin.
    rewrite !insert_insert_eq in Hfin. injection Hcore as Hk1 Hk2 Hk3 Hk4 Hk5.
    cbn [cand_write Storage.upd_CandidatePool]. cbn. rewrite Hk1, Hk2, Hk3, Hk4, Hk5.
    apply Hfin. rewrite Hbl in Hp. cbn. apply (Permutation_cons_inv (a := k)). rewrite Hp.
    solve_perm.
  - destruct Hless as [Hp ->]. split_and!; [done|done|].
    by apply (nominated_ok _ _ c n a self st' top' bottom' top bottom Hok Hc Ht Hb Hng).
Qed.
Lemma call_nominate_keeps n c a cnt1 cnt2 : 0 <= a → keeps (call_nominate n c a cnt1 cnt2).
Proof using Type*.
  intros Ha s Hs. unfold call_nominate. wp_go. rename select (a <= _) into Hfree.
  eapply wp_mono; [by apply nominate_state_spec| |done]. intros st' ? [-> Hng]. wp_go.
  rename select (_ !! c = Some _) into Hc.
  destruct (staking_candidate _ _ _ Hs Hc) as (top&bottom&Hco&_).
  eapply wp_mono; [by eapply add_nomination_spec, nominate_addable| |done].
  intros [[pos less] self'] s' (top'&bottom'&Hco'&Hself&Hless&_).
  destruct (added_core _ _ _ _ _ _ _ _ less self' s' top' bottom' Hs Hc Hco Hng Hself
    (co_meta _ _ _ _ _ Hco') Hless) as (Hf&Hmin&Hok').
  unfold adjust_bond_lock. wp_go. case_bool_decide; wp_go.
  all: eapply staking_intro; [exact Hs| |exact Hmin|exact Hok'].
  all: intros x; rewrite <-Hf; unfold free_of_chain; cbn;
    rewrite ?free_balance_set_lock, ?free_balance_remove_lock; done.
Qed.
End Nominate.

(** * Changing the amount of a nomination keeps the staking invariant

    Adding to a nomination, and executing a decrease that was scheduled. *)

(** ** A bond changed in place *)

Lemma set_ok_by_owner (l l' : list Bond.t) : owner <$> l = owner <$> l' → set_ok l → set_ok l'.
Proof.
  revert l'. induction l as [|x l IH]; intros [|y l'] Heq Hl; try done.
  cbn in Heq. injection Heq as Hxy Heq. apply StronglySorted_cons in Hl as [Hx Hl].
  apply StronglySorted_cons. split; [|by apply IH].
  rewrite Forall_forall in Hx |- *. intros z Hz. apply ord_lt_bond.
  assert (owner z ∈ owner <$> l) as (w&Hw&Hwl)%list_elem_of_fmap
    by (rewrite Heq; apply list_elem_of_fmap; eauto).
  specialize (Hx w Hwl). apply ord_lt_bond in Hx. by rewrite <-Hxy, Hw.
Qed.
Lemma bond_position_Some c l i :
  bond_position c l = Some i → ∃ l1 x l2, l = l1 ++ x :: l2 ∧ i = length l1 ∧ owner x = c.
Proof.
  intros (l1&x&l2&->&<-&Hx%bool_decide_eq_true&_)%position_Some. by exists l1, x, l2.
Qed.
Lemma bond_map_middle (l1 l2 : list Bond.t) x :
  NoDup (owner <$> (l1 ++ x :: l2)) →
  bond_map (l1 ++ x :: l2) = <[owner x := amount x]> (bond_map (l1 ++ l2)).
Proof.
  intros Hnd. rewrite (bond_map_perm _ (x :: l1 ++ l2)); [done|done|].
  by rewrite Permutation_middle.
Qed.

(** A nominator state in which the nomination of [c] became [a]. *)
Record amount_changed (c : AccountId) (v a : Balance) (st st' : Nominator.t) : Prop := {
  ac_id : Nominator.id st' = Nominator.id st;
  ac_owners : owner <$> Nominator.nominations st' = owner <$> Nominator.nominations st;
  ac_bonds : bond_map (Nominator.nominations st') =
    <[c := a]> (bond_map (Nominator.nominations st));
  ac_amounts m : m <= a → Forall (λ b, m <= amount b) (Nominator.nominations st) →
    Forall (λ b, m <= amount b) (Nominator.nominations st');
  ac_sum : sum_amounts (Nominator.nominations st') = sum_amounts (Nominator.nominations st) - v + a;
  ac_total : Nominator.total st' = Nominator.total st - v + a;
  ac_less : Nominator.less_total st' = Nominator.less_total st;
}.
Lemma amount_changed_middle l1 x l2 a st :
  Nominator.nominations st = l1 ++ x :: l2 → NoDup (owner <$> Nominator.nominations st) →
  amount_changed (owner x) (amount x) a st
    (Nominator.set_total (Nominator.total st - amount x + a)
      (Nominator.set_nominations (<[length l1 := Bond.mk (owner x) a]> (Nominator.nominations st)) st)).
Proof.
  intros Hl Hnd. assert (<[length l1 := Bond.mk (owner x) a]> (Nominator.nominations st) =
    l1 ++ Bond.mk (owner x) a :: l2) as Hins.
  { rewrite Hl. by rewrite insert_app_r_alt, Nat.sub_diag by lia. }
  assert (owner <$> (l1 ++ Bond.mk (owner x) a :: l2) = owner <$> Nominator.nominations st) as Hown.
  { by rewrite Hl, !fmap_app. }
  split; cbn; rewrite ?Hins; try done.
  - rewrite bond_map_middle by (by rewrite Hown). rewrite Hl in Hnd |- *.
    by rewrite (bond_map_middle _ _ _ Hnd), insert_insert_eq.
  - intros Ha. rewrite Hl, !Forall_app, !Forall_cons. cbn. naive_solver.
  - rewrite Hl, !sum_middle. cbn. lia.
Qed.
Lemma amount_changed_ok `{Config} (R : Requests) c n v a st st' :
  amount_changed c v a st st' → MinNominationPerCollator <= a → nominator_ok R n st → nominator_ok R n st'.
Proof.
  intros [Hid Hown _ Ham Hsum Htot Hless] Ha [? Hset Hlen Hne Hpos Ht Hl].
  split; [congruence| | | |by apply Ham|lia|].
  - by eapply set_ok_by_owner.
  - apply (f_equal length) in Hown. rewrite !length_fmap in Hown. lia.
  - intros Hn. rewrite Hn in Hown. destruct (Nominator.nominations st); done.
  - rewrite Hless, Hl. unfold pending.
    rewrite <-!(sum_of_fmap (λ o, asked n (reqs_of R o)) owner). by rewrite Hown.
Qed.

Section Adjust.
Context `{ConfigOk} `{!CurrencyLaws config_currency}.
Implicit Types (c n : AccountId) (s : Storage.t).

(** The nomination of [n] with [c] goes from [v] to [a], in the lists and in
    the nominator's state. *)
Lemma nomination_changed_ok f k c n v a self top bottom top' bottom' st st' :
  core_ok f k → k_cand k !! c = Some self → k_top k !! c = Some top → k_bottom k !! c = Some bottom →
  k_nom k !! n = Some st → amount_changed c v a st st' → MinNominationPerCollator <= a → Nominator.total st' <= f n →
  let self' := meta_of self top' bottom' in
  meta_ok self top bottom → meta_ok self' top' bottom' →
  Bond.mk n v ∈ noms top ++ noms bottom →
  Bond.mk n v :: noms top' ++ noms bottom' ≡ₚ Bond.mk n a :: noms top ++ noms bottom →
  (∀ r, r ∈ reqs_of (k_req k) c → ScheduledRequest.nominator r = n →
        action_ok a (ScheduledRequest.action r)) →
  core_ok f (Core (<[c := self']> (k_cand k)) (<[c := top']> (k_top k))
    (<[c := bottom']> (k_bottom k)) (<[n := st']> (k_nom k)) (k_req k)
    (pool_effect c self self' (k_pool k))).
Proof using Type*.
  intros Hok Hc Ht Hb Hst Hac Ha Hcov self' Hm Hm' Hin Hp Hreq.
  pose proof (ok_noms _ _ Hok n st Hst) as Hno.
  apply (changed_ok f k Hok c n self' top' bottom' (Some st')).
  apply (change_set _ _ Hok c self top bottom Hc Ht Hb n a); try done.
  - pose proof (lo_owners _ _ (mo_lists _ _ _ Hm)) as Hnd.
    pose proof (lo_owners _ _ (mo_lists _ _ _ Hm')) as Hnd'.
    apply elem_of_Permutation in Hin as [l Hl]. rewrite Hl in Hp.
    assert (noms top' ++ noms bottom' ≡ₚ Bond.mk n a :: l) as Hp'.
    { apply (Permutation_cons_inv (a := Bond.mk n v)). rewrite Hp. apply Permutation_swap. }
    rewrite (bond_map_perm _ _ Hnd' Hp'), (bond_map_perm _ _ Hnd Hl), !bond_map_cons. cbn.
    by rewrite insert_insert_eq.
  - unfold nom_bonds. rewrite Hst. apply Hac.
  - by eapply amount_changed_ok.
  - destruct (ok_apart _ _ Hok n); [done|congruence].
Qed.

(** ** Adding to a nomination *)

Lemma revoke_absent c n s r :
  nomination_request_revoke_exists c n s = false →
  r ∈ scheduled_requests c s → ScheduledRequest.nominator r = n →
  NominationAction.is_revoke (ScheduledRequest.action r) = false.
Proof using Type*.
  unfold nomination_request_revoke_exists. intros Hex Hr Hn.
  destruct (NominationAction.is_revoke _) eqn:Hrev; [|done].
  assert (existsb (λ req, bool_decide (ScheduledRequest.nominator req = n) &&
    NominationAction.is_revoke (ScheduledRequest.action req)) (scheduled_requests c s) = true); [|congruence].
  apply existsb_exists. exists r. split; [by apply list_elem_of_In|].
  by rewrite bool_decide_true, Hrev.
Qed.
Lemma adjust_bond_lock_spec st adj s (Q : unit → Storage.t → Prop) :
  (match adj with
   | Increase a => a <= get_nominator_stakable_free_balance (Nominator.id st) s
   | Decrease => True
   end → Q () (lock_nominator st s)) →
  wp (adjust_bond_lock st adj) s Q (λ _ _, True).
Proof using Type*.
  intros HQ. unfold adjust_bond_lock, lock_nominator in *.
  destruct adj as [a|]; wp_go; case_bool_decide; wp_go; by apply HQ.
Qed.
Lemma lock_nominator_frame st s :
  core_of (lock_nominator st s) = core_of s ∧ same_free s (lock_nominator st s) ∧
  Storage.MinTotalNominatorStake (lock_nominator st s) = Storage.MinTotalNominatorStake s.
Proof using Type*. split_and!; [done| |done]. intros a. apply free_lock_nominator. Qed.

(** A second [update_active] with the same total. *)
Lemma update_active_again C P c self self' :
  pool_ok (<[c := self']> C) (pool_effect c self self' P) →
  pool_ok (<[c := self']> C)
    ((if CandidateMetadata.is_active self' &&
         negb (bool_decide (CandidateMetadata.total_counted self =
                            CandidateMetadata.total_counted self'))
      then pool_update c (CandidateMetadata.total_counted self') else id)
     (pool_effect c self self' P)).
Proof using Type*.
  intros HP. destruct (CandidateMetadata.is_active self') eqn:Ha; [|done].
  cbn [andb]. destruct (negb _); [|done].
  rewrite <-(insert_insert_eq C c self' self'). eapply pool_changed; [done|apply lookup_insert_eq|done|].
  left. done.
Qed.
Lemma core_pool f C Tp Bt NS R P P' :
  core_ok f (Core C Tp Bt NS R P) → pool_ok C P' → core_ok f (Core C Tp Bt NS R P').
Proof using Type*. intros []. by split. Qed.

Lemma range_with_more s c n v more self top bottom :
  staking_ok s → Storage.CandidateInfo s !! c = Some self → cand_ok c self top bottom s →
  Bond.mk n v ∈ noms top ++ noms bottom → v + more <= free_of_chain s n →
  CandidateMetadata.bond self + sum_amounts (noms top ++ noms bottom) + more <= u128_max.
Proof using Type*.
  intros Hs Hc [Ht Hb Hm] Hin Hv. pose proof (so_core _ Hs) as Hok.
  pose proof (lo_owners _ _ (mo_lists _ _ _ Hm)) as Hnd.
  assert (∀ b, b ∈ noms top ++ noms bottom →
    Storage.CandidateInfo s !! owner b = None ∧ amount b <= free_of_chain s (owner b)) as Hcov.
  { intros b Hb'. by eapply (core_listed_covered _ _ Hok). }
  apply elem_of_Permutation in Hin as [l Hl]. rewrite Hl in Hnd |- *. setoid_rewrite Hl in Hcov.
  pose proof (core_range _ (core_of s) c self (Bond.mk n (v + more) :: l)
    (CandidateMetadata.bond self) (so_issuance _ Hs) Hc Hnd) as Hr.
  rewrite sum_cons in Hr |- *. cbn in Hr |- *.
  enough (CandidateMetadata.bond self + (v + more + sum_amounts l) <= u128_max) by lia.
  apply Hr; [by apply (cov_cand _ _ _ (ok_covered _ _ Hok) c self)|].
  intros b [->|Hb']%elem_of_cons; [|apply Hcov; set_solver]. cbn. split; [|done].
  apply (Hcov (Bond.mk n v)). set_solver.
Qed.
(** From the lock on, [increase_nomination] of [types.rs]. *)
Lemma increased_keeps s c n v more self top bottom st st1 ev :
  staking_ok s → Storage.CandidateInfo s !! c = Some self → cand_ok c self top bottom s →
  Storage.NominatorState s !! n = Some st → Bond.mk n v ∈ noms top ++ noms bottom →
  nomination_request_revoke_exists c n s = false → 0 <= more →
  Nominator.total st + more <= free_of_chain s n →
  amount_changed c v (v + more) st st1 →
  wp (r ← Candidate.increase_nomination c n v more self;
      let '(in_top, self') := r in
      (if CandidateMetadata.is_active self' &&
          negb (bool_decide (CandidateMetadata.total_counted self =
                             CandidateMetadata.total_counted self'))
       then update_active c (CandidateMetadata.total_counted self') else mret ());;
      put_candidate c self';;
      modify (Storage.upd_Total (λ total, total ⊕ more));;
      put_nominator n st1;;
      deposit_event (ev in_top)) (lock_nominator st1 s)
    (λ _ s', staking_ok s') (λ _ _, True).
Proof using Type*.
  intros Hs Hc Hco Hst Hin Hrev Hmore Hfree Hac. pose proof (so_core _ Hs) as Hok.
  destruct (staking_listed _ _ _ _ _ _ Hs Hco Hin) as (st'&?&Hno&Hb&Hpos&_). cbn in *. simplify_eq.
  pose proof (no_min _ _ _ _ _ Hno Hb). destruct (lock_nominator_frame st1 s) as (_&Hf&Hmin).
  assert (cand_ok c self top bottom (lock_nominator st1 s)) as Hco1 by (by destruct Hco; split).
  wp_step. eapply wp_mono; [apply (increase_nomination_spec c (Bond.mk n v) more); try done| |done].
  { cbn. eapply range_with_more; try done. lia. }
  intros [in_top self'] s1 (top'&bottom'&Hco'&Hself&Hp&_&->). cbn [snd fst] in *. cbv beta iota.
  wp_step. apply wp_update_if. wp_go.
  eapply staking_intro; [done|exact Hf|exact Hmin|].
  pose proof (nomination_changed_ok _ _ c n v (v + more) self top bottom top' bottom' st st1 Hok Hc
    (co_top _ _ _ _ _ Hco) (co_bottom _ _ _ _ _ Hco) Hst Hac ltac:(lia)) as Hres.
  rewrite <-Hself in Hres. eapply core_pool; [apply Hres; try done|].
  - rewrite (ac_total _ _ _ _ _ Hac). lia.
  - apply Hco.
  - apply Hco'.
  - intros r Hr Hn. pose proof (revoke_absent c n s r Hrev Hr Hn).
    destruct (vo_backed _ _ _ (ok_reqs _ _ Hok c) r Hr) as (a&Ha&Hact).
    rewrite Hn in Ha. unfold nom_bonds in Ha. cbn in Ha. rewrite Hst in Ha. cbn in Ha. simplify_eq.
    destruct (ScheduledRequest.action r); cbn in *; [done|lia].
  - apply update_active_again, pool_effect_ok; [apply (ok_pool _ _ Hok)|done|by rewrite Hself].
Qed.
Lemma call_bond_extra_keeps n c more : 0 <= more → keeps (call_bond_extra n c more).
Proof using Type*.
  intros Hmore s Hs. pose proof (so_core _ Hs) as Hok. unfold call_bond_extra. wp_go.
  rename select (_ !! n = Some a) into Hst. rename select (_ = false) into Hrev. rename a into st.
  pose proof (ok_noms _ _ Hok n st Hst) as Hno. pose proof (set_ok_owners _ (no_set _ _ _ Hno)) as Hnd.
  unfold nominator_increase_nomination. wp_go.
  rename select (bond_position _ _ = Some _) into Hpos.
  apply bond_position_Some in Hpos as (l1&x&l2&Hl&->&<-).
  eapply wp_expect; [rewrite Hl; by apply list_lookup_middle|]. wp_go.
  pose proof (total_range s n st Hs Hst). 
  set (st1 := Nominator.set_total _ _). apply adjust_bond_lock_spec. intros Hfree.
  change (Nominator.id st1) with (Nominator.id st) in *. rewrite (no_id _ _ _ Hno) in *.
  apply stakable_free in Hfree; [|done..]. rewrite Hst in Hfree.
  assert (bond_map (Nominator.nominations st) !! owner x = Some (amount x)) as Hbond.
  { apply bond_map_lookup; [done|]. rewrite Hl. destruct x. set_solver. }
  destruct (core_held _ _ Hok n st (owner x) (amount x) Hst Hbond) as (self&top&bottom&Hc&Ht&Hb&Hm&_&Hin).
  wp_step. unfold get_candidate. wp_step. wp_step. cbv beta.
  change (Storage.CandidateInfo (lock_nominator st1 s) !! owner x) with (k_cand (core_of s) !! owner x).
  rewrite Hc. apply wp_ok_or; [intros ? [= <-]|done]. cbv beta iota zeta.
  apply (increased_keeps s (owner x) n (amount x) more self top bottom st st1); try done.
  assert (0 < amount x <= Nominator.total st) as Hx.
  { destruct (core_listed _ _ Hok (owner x) top bottom (Bond.mk n (amount x)) Ht Hb) as (st'&Hst'&_&_&?&_);
      [apply (lo_owners _ _ (mo_lists _ _ _ Hm))|done|]. cbn in *. by simplify_eq. }
  pose proof (free_balance_range (Storage.Balances s) n). unfold free_of_chain in Hfree.
  pose proof (amount_changed_middle l1 x l2 (amount x + more) st Hl Hnd) as Hac.
  unfold st1. cbn. rewrite !sat_add_small by lia.
  by replace (Nominator.total st + more) with (Nominator.total st - amount x + (amount x + more)) by lia.
Qed.

(** ** Executing a decrease *)

(** From the lock on; [l'] are the requests without the one executed, [st1] the
    nominator's state without it. *)
Lemma decreased_keeps s c n a v self top bottom st1 st3 l' ev :
  staking_ok s → Storage.CandidateInfo s !! c = Some self → cand_ok c self top bottom s →
  Bond.mk n a ∈ noms top ++ noms bottom → 0 <= v ∧ MinNominationPerCollator <= a - v →
  let k1 := Core (Storage.CandidateInfo s) (Storage.TopNominations s) (Storage.BottomNominations s)
    (<[n := st1]> (Storage.NominatorState s)) (<[c := l']> (Storage.NominationScheduledRequests s))
    (Storage.CandidatePool s) in
  core_ok (free_of_chain s) k1 → (∀ r, r ∈ l' → ScheduledRequest.nominator r ≠ n) →
  amount_changed c a (a - v) st1 st3 →
  wp (r ← Candidate.decrease_nomination c n a v self;
      let '(in_top, self') := r in
      put_candidate c self';;
      modify (Storage.upd_Total (λ total, total ⊖ v));;
      put_requests c l';;
      put_nominator n st3;;
      deposit_event (ev in_top)) (lock_nominator st3 s)
    (λ _ s', staking_ok s') (λ _ _, True).
Proof using Type*.
  intros Hs Hc Hco Hin Hv k1 Hok1 Hl' Hac. pose proof min_nomination_range.
  destruct (lock_nominator_frame st3 s) as (_&Hf&Hmin).
  assert (cand_ok c self top bottom (lock_nominator st3 s)) as Hco1 by (by destruct Hco; split).
  wp_step. eapply wp_mono; [apply (decrease_nomination_spec c (Bond.mk n a) v); try done; cbn; lia| |done].
  intros [in_top self'] s1 (top'&bottom'&Hco'&Hself&Hp&_&->). cbn [snd fst] in *. wp_go.
  eapply staking_intro; [done|exact Hf|exact Hmin|].
  pose proof (cov_nom _ _ _ (ok_covered _ _ Hok1) n st1 (lookup_insert_eq _ _ _)) as Hcov.
  pose proof (nomination_changed_ok _ _ c n a (a - v) self top bottom top' bottom' st1 st3 Hok1 Hc
    (co_top _ _ _ _ _ Hco) (co_bottom _ _ _ _ _ Hco) (lookup_insert_eq _ _ _) Hac ltac:(lia)) as Hres.
  rewrite <-Hself in Hres. cbn in Hres. rewrite insert_insert_eq in Hres. apply Hres; try done.
  - rewrite (ac_total _ _ _ _ _ Hac). lia.
  - apply Hco.
  - apply Hco'.
  - intros r. rewrite reqs_of_insert, decide_True by done. intros Hr Hn. by destruct (Hl' r Hr).
Qed.
Lemma total_sub_if_spec a check st s (Q : Nominator.t → Storage.t → Prop) :
  (∀ t, wp (check t) s (λ _ s', s' = s) (λ _ _, True)) →
  (let st' := Nominator.set_total (Nominator.total st ⊖ a) st in Q st' (lock_nominator st' s)) →
  wp (total_sub_if a check st) s Q (λ _ _, True).
Proof using Type*.
  intros Hcheck HQ. unfold total_sub_if. wp_step. eapply wp_mono; [apply Hcheck| |done].
  intros [] ? ->. wp_step. apply adjust_bond_lock_spec. intros _. by wp_step.
Qed.
(** The state and the requests of a nominator whose request towards [c] was
    taken out. *)
Lemma without_request_ok s c n st i req :
  staking_ok s → Storage.NominatorState s !! n = Some st →
  position_of n (scheduled_requests c s) = Some i → scheduled_requests c s !! i = Some req →
  let v := NominationAction.amount (ScheduledRequest.action req) in
  let st1 := Nominator.set_less_total (Nominator.less_total st ⊖ v) st in
  let l' := delete i (scheduled_requests c s) in
  ∃ a, bond_map (Nominator.nominations st) !! c = Some a ∧
    action_ok a (ScheduledRequest.action req) ∧ 0 < a ∧
    l' = others n (scheduled_requests c s) ∧ asked n (scheduled_requests c s) = v ∧
    v <= Nominator.less_total st ∧
    core_ok (free_of_chain s) (Core (Storage.CandidateInfo s) (Storage.TopNominations s)
      (Storage.BottomNominations s) (<[n := st1]> (Storage.NominatorState s))
      (<[c := l']> (Storage.NominationScheduledRequests s)) (Storage.CandidatePool s)).
Proof using Type*.
  intros Hs Hst Hi Hreq v st1 l'. pose proof (so_core _ Hs) as Hok.
  destruct (requested_held _ _ n c st Hok (mk_is_Some _ _ Hi) Hst) as (a&Ha).
  pose proof (ok_reqs _ _ Hok c) as Hv.
  pose proof Hi as (req'&Hreq'&Hin&Hn&Hdel&Hask)%position_of_Some; [|apply Hv].
  rewrite Hreq in Hreq'. injection Hreq' as <-.
  destruct (less_range _ _ n st c a Hok Hst Ha) as [[_ Hle] _].
  change (asked n (scheduled_requests c s) <= Nominator.less_total st) in Hle. rewrite Hask in Hle.
  exists a. split_and!; try done.
  - destruct (vo_backed _ _ _ Hv req Hin) as (a'&Ha'&Hact). rewrite Hn in Ha'.
    unfold nom_bonds in Ha'. cbn in Ha'. rewrite Hst in Ha'. cbn in Ha'. by simplify_eq.
  - destruct (core_held _ _ Hok n st c a Hst Ha) as (self&top&bottom&_&Ht&Hb&Hm&_&Hin').
    destruct (core_listed _ _ Hok c top bottom (Bond.mk n a) Ht Hb)
      as (?&_&_&_&?&_); [apply (lo_owners _ _ (mo_lists _ _ _ Hm))|done|]. cbn in *. lia.
  - pose proof (requests_changed_ok _ _ Hok c n st a []) as Hres. cbn in Hres.
    change (reqs_of (Storage.NominationScheduledRequests s) c) with (scheduled_requests c s) in Hres.
    change (asked n []) with 0 in Hres. rewrite Hask, Z.add_0_r in Hres.
    unfold st1. rewrite sat_sub_small by done. apply Hres; try done.
    + intros d Hd. by rewrite reqs_of_insert, decide_False.
    + by rewrite reqs_of_insert, decide_True, app_nil_r.
    + rewrite reqs_of_insert, decide_True by done. unfold l'. rewrite Hdel.
      etransitivity; [apply others_length|apply Hv].
    + by left.
Qed.
Lemma execute_decrease_keeps s c n st i req v :
  staking_ok s → Storage.NominatorState s !! n = Some st →
  position_of n (scheduled_requests c s) = Some i → scheduled_requests c s !! i = Some req →
  ScheduledRequest.action req = NominationAction.Decrease v →
  wp (execute_decrease c n st (scheduled_requests c s) i v) s
    (λ _ s', staking_ok s') (λ _ _, True).
Proof using Type*.
  intros Hs Hst Hi Hreq Hact. pose proof (so_core _ Hs) as Hok.
  destruct (without_request_ok s c n st i req Hs Hst Hi Hreq) as (a&Ha&Hok_act&Hpos&Hl'&_&Hle&Hok1).
  rewrite Hact in *. cbn in Hok_act, Hle, Hok1. unfold execute_decrease.
  set (st1 := Nominator.set_less_total (Nominator.less_total st ⊖ v) st) in *.
  pose proof (ok_noms _ _ Hok n st Hst) as Hno. pose proof (set_ok_owners _ (no_set _ _ _ Hno)) as Hnd.
  wp_go. rename select (bond_position _ _ = Some _) into Hbp.
  apply bond_position_Some in Hbp as (l1&x&l2&Hl&->&<-).
  assert (amount x = a) as Hxa.
  { change (Nominator.nominations st = l1 ++ x :: l2) in Hl.
    assert (bond_map (Nominator.nominations st) !! owner x = Some (amount x)); [|congruence].
    apply bond_map_lookup; [done|]. rewrite Hl. destruct x. set_solver. }
  eapply wp_expect; [rewrite Hl; by apply list_lookup_middle|]. wp_step. wp_step; [|exact I].
  destruct (core_held _ _ Hok n st (owner x) a Hst Ha) as (self&top&bottom&Hc&Ht&Hb&Hm&_&Hin).
  assert (cand_ok (owner x) self top bottom s) as Hco by done.
  wp_step. unfold get_candidate. wp_step. wp_step.
  apply wp_ok_or; [intros self' Hself|done]. cbn in Hc. rewrite Hc in Hself. injection Hself as <-.
  cbv beta iota zeta. wp_step. apply total_sub_if_spec; [intros t; wp_go; done|]. cbv zeta.
  destruct (core_listed _ _ Hok (owner x) top bottom (Bond.mk n a) Ht Hb) as (st'&Hst'&_&_&Hat&_);
    [apply (lo_owners _ _ (mo_lists _ _ _ Hm))|done|]. cbn in Hst', Hat. simplify_eq.
  pose proof min_nomination_range.
  pose proof (amount_changed_middle l1 x l2 (amount x - v) st1 Hl Hnd) as Hac.
  rewrite (sat_sub_small (amount x) v) by lia.
  eapply (decreased_keeps s (owner x) n (amount x) v self top bottom st1); try done.
  - rewrite Hl'. by intros r [? _]%elem_of_others.
  - cbn. rewrite sat_sub_small by (cbn; lia). replace (Nominator.total st - v)
      with (Nominator.total st1 - amount x + (amount x - v)) by (cbn; lia). exact Hac.
Qed.
End Adjust.
