(* ===== verification/InvRevoke.v ===== *)
(** * Executing a request keeps the staking invariant

    The revocation of a nomination, alone and for all nominations of a
    nominator that leaves. *)

From S2P Require Import Prelude Slices Sets StakingConfig StakingTypes StakingState.
From S2P Require Import NominatorOps CandidateOps Requests Calls NominationLists.
From S2P Require Import BondSets CandidateInv CandidateAdd CandidateAdjust.
From S2P Require Import RequestFacts StakingInv StakingCore InvCandidates InvRequests.
From S2P Require Import InvNominate.

Section Revoke.
Context `{ConfigOk} `{!CurrencyLaws config_currency}.
Implicit Types (c n : AccountId) (s : Storage.t).

(** What [nominator_leaves_candidate] does to the candidate's side. *)
Record leaves_post c n (a : Balance) (self : CandidateMetadata.t) (top bottom : Nominations.t)
    s (top' bottom' : Nominations.t) s' : Prop := {
  lp_meta : meta_ok (meta_of self top' bottom') top' bottom';
  lp_perm : Bond.mk n a :: noms top' ++ noms bottom' ≡ₚ noms top ++ noms bottom;
  lp_core : let self' := meta_of self top' bottom' in
    core_of s' = Core (<[c := self']> (Storage.CandidateInfo s))
      (<[c := top']> (Storage.TopNominations s)) (<[c := bottom']> (Storage.BottomNominations s))
      (Storage.NominatorState s) (Storage.NominationScheduledRequests s)
      (pool_effect c self self' (Storage.CandidatePool s));
  lp_balances : Storage.Balances s' = Storage.Balances s;
  lp_min : Storage.MinTotalNominatorStake s' = Storage.MinTotalNominatorStake s;
}.
Lemma nominator_leaves_candidate_spec c n a self top bottom s :
  Storage.CandidateInfo s !! c = Some self → cand_ok c self top bottom s →
  Bond.mk n a ∈ noms top ++ noms bottom →
  wp (nominator_leaves_candidate c n a) s
    (λ _ s', ∃ top' bottom', leaves_post c n a self top bottom s top' bottom' s') (λ _ _, False).
Proof using Type*.
  intros Hc Hco Hin. unfold nominator_leaves_candidate, get_candidate.
  wp_step. wp_step. wp_step. apply wp_ok_or; [|congruence]. intros self' Hself.
  rewrite Hc in Hself. injection Hself as <-. wp_step.
  eapply wp_mono; [apply (rm_nomination_if_exists_spec c (Bond.mk n a)); done| |done].
  intros [r self'] s' (top'&bottom'&Hco'&Hself&Hp&->). cbn [snd] in *. wp_go.
  exists top', bottom'. subst self'. split; try done. apply Hco'.
Qed.
Lemma nomination_removed_ok f k c n a self top bottom top' bottom' st :
  core_ok f k → k_cand k !! c = Some self → k_top k !! c = Some top → k_bottom k !! c = Some bottom →
  k_nom k !! n = Some st →
  let self' := meta_of self top' bottom' in
  meta_ok self' top' bottom' →
  Bond.mk n a :: noms top' ++ noms bottom' ≡ₚ noms top ++ noms bottom →
  let reqs := reqs_of (k_req k) c in
  core_ok f (Core (<[c := self']> (k_cand k)) (<[c := top']> (k_top k))
    (<[c := bottom']> (k_bottom k)) (partial_alter (λ _, lost c a (asked n reqs) st) n (k_nom k))
    (<[c := others n reqs]> (k_req k)) (pool_effect c self self' (k_pool k))).
Proof using Type*.
  intros Hok Hc Ht Hb Hst self' Hm' Hp reqs.
  apply (changed_ok f k Hok c n self' top' bottom').
  apply (change_remove _ _ Hok c self top bottom Hc Ht Hb); try done.
  - intros d Hd. by rewrite reqs_of_insert, decide_False.
  - by rewrite reqs_of_insert, decide_True.
Qed.
(** The first step of [execute_revoke]: whether the nominator leaves. *)
Lemma leaving_check (b : bool) a st s (Q : bool → Storage.t → Prop) :
  Q b s →
  wp (if b then mret true
      else min_total ← gets Storage.MinTotalNominatorStake;
           ensure (bool_decide (a <= Nominator.total st ⊖ min_total))
             Error.NominatorBondBelowMin;; mret false) s Q (λ _ _, True).
Proof using Type*. intros HQ. destruct b; wp_go; done. Qed.
Lemma execute_revoke_keeps s c n st i req a :
  staking_ok s → Storage.NominatorState s !! n = Some st →
  position_of n (scheduled_requests c s) = Some i → scheduled_requests c s !! i = Some req →
  ScheduledRequest.action req = NominationAction.Revoke a →
  wp (execute_revoke c n st (scheduled_requests c s) i a) s
    (λ _ s', staking_ok s') (λ _ _, True).
Proof using Type*.
  intros Hs Hst Hi Hreq Hact. pose proof (so_core _ Hs) as Hok.
  destruct (without_request_ok s c n st i req Hs Hst Hi Hreq) as (a'&Ha&Hok_act&Hpos&Hl'&Hask&Hle&_).
  rewrite Hact in *. cbn in Hok_act, Hle, Hask. subst a'. unfold execute_revoke.
  pose proof (ok_noms _ _ Hok n st Hst) as Hno.
  destruct (core_held _ _ Hok n st c a Hst Ha) as (self&top&bottom&Hc&Ht&Hb&Hm&_&Hin).
  destruct (core_listed _ _ Hok c top bottom (Bond.mk n a) Ht Hb) as (st'&Hst'&_&_&Hat&_);
    [apply (lo_owners _ _ (mo_lists _ _ _ Hm))|done|]. cbn in Hst', Hat.
  rewrite Hst in Hst'. injection Hst' as <-.
  wp_step.
  apply leaving_check. cbv beta zeta. wp_step.
  set (st1 := Nominator.set_less_total _ st).
  pose proof max_per_nominator_bound. pose proof (no_len _ _ _ Hno).
  unfold wp at 1. rewrite rm_nomination_run by (apply Hno || (cbn; lia)).
  change (Nominator.nominations st1) with (Nominator.nominations st). rewrite Ha. cbv beta iota zeta.
  cbn [snd]. set (st2 := nominator_without c a st1). wp_step.
  eapply wp_mono; [eapply (nominator_leaves_candidate_spec c n a self top bottom); try done| |done].
  intros [] s1 (top'&bottom'&[Hm' Hp Hk Hbal Hmin]).
  pose proof (nomination_removed_ok _ _ c n a self top bottom top' bottom' st Hok Hc Ht Hb Hst Hm' Hp)
    as Hres. cbv zeta in Hres. change (reqs_of _ c) with (scheduled_requests c s) in Hres.
  rewrite Hask, <-Hl' in Hres. injection Hk as Hk1 Hk2 Hk3 Hk4 Hk5 Hk6.
  assert (same_free s s1) as Hf.
  { intros x. unfold free_of_chain. rewrite Hbal. apply free_lock_nominator. }
  assert (st2 = Nominator.mk (Nominator.id st)
    (filter (λ b, owner b ≠ c) (Nominator.nominations st))
    (Nominator.total st - a) (Nominator.less_total st - a)) as Hst2.
  { unfold st2, st1, nominator_without. cbn. by rewrite !sat_sub_small by lia. }
  unfold lost in Hres. rewrite <-Hst2 in Hres.
  wp_go. case_bool_decide; wp_go; (eapply staking_intro; [exact Hs|exact Hf|exact Hmin|]);
    unfold core_of; cbn; rewrite Hk1, Hk2, Hk3, Hk4, Hk5, Hk6; exact Hres.
Qed.
Lemma nomination_execute_scheduled_request_keeps c n :
  keeps (nomination_execute_scheduled_request c n).
Proof using Type*.
  intros s Hs. unfold nomination_execute_scheduled_request. wp_go.
  rename select (position_of _ _ = Some _) into Hi. pose proof Hi as (req&Hreq&_)%position_of_Some;
    [|apply (ok_reqs _ _ (so_core _ Hs))].
  eapply wp_expect; [done|]. wp_go. destruct (ScheduledRequest.action req) eqn:Hact.
  - by eapply execute_revoke_keeps.
  - by eapply execute_decrease_keeps.
Qed.

(** ** A nominator leaves *)

Lemma position_of_revoke_Some n reqs i :
  NoDup (ScheduledRequest.nominator <$> reqs) → position_of_revoke n reqs = Some i →
  (∃ req, reqs !! i = Some req) ∧ delete i reqs = others n reqs.
Proof using Type*.
  intros Hnd (l1&req&l2&->&<-&Hr&_)%position_Some. apply andb_true_iff in Hr as [Hr _].
  apply bool_decide_eq_true in Hr. split; [exists req; by rewrite list_lookup_middle|].
  by rewrite delete_app_cons, others_middle.
Qed.

(** What the loop that validates the revocations collects. *)
Definition validated_for s n (b : Bond.t) (v : Bond.t * list ScheduledRequest.t * nat) : Prop :=
  v.1.1 = b ∧ v.1.2 = scheduled_requests (owner b) s ∧
  delete v.2 v.1.2 = others n (scheduled_requests (owner b) s).
Lemma validate_revokes_spec n l s :
  staking_ok s →
  wp (validate_revokes n l) s (λ vs s', s' = s ∧ Forall2 (validated_for s n) l vs) (λ _ _, True).
Proof using Type*.
  intros Hs. unfold validate_revokes. wp_go.
  apply (wp_fold_m _ _ (λ todo vs s', s' = s ∧ ∃ l1, l = l1 ++ todo ∧ Forall2 (validated_for s n) l1 vs)).
  - split; [done|]. exists []. by split.
  - intros b todo vs ? [-> (l1&->&Hvs)]. wp_go.
    rename select (position_of_revoke _ _ = _) into Hp.
    apply position_of_revoke_Some in Hp as [[req Hreq] Hdel]; [|apply (ok_reqs _ _ (so_core _ Hs))].
    eapply wp_expect; [done|]. wp_go. split; [done|]. exists (l1 ++ [b]). rewrite <-app_assoc.
    split; [done|]. apply Forall2_app; [done|]. by constructor.
  - intros vs ? [-> (l1&->&Hvs)]. by rewrite app_nil_r.
Qed.

(** The maps once the nominations before [todo] are gone on both sides; [s'] is
    storage, where only the candidates' side was written so far. *)
Definition leaving_core s s' n (o : option Nominator.t)
    (updated : list (AccountId * list ScheduledRequest.t)) : core :=
  Core (Storage.CandidateInfo s') (Storage.TopNominations s') (Storage.BottomNominations s')
    (partial_alter (λ _, o) n (Storage.NominatorState s))
    (put_all updated (Storage.NominationScheduledRequests s)) (Storage.CandidatePool s').
Record leaving_inv s n (todo : list Bond.t) (updated : list (AccountId * list ScheduledRequest.t))
    s' : Prop := {
  li_core : ∃ o, core_ok (free_of_chain s) (leaving_core s s' n o updated) ∧
    match todo with
    | [] => o = None
    | _ => ∃ st, o = Some st ∧ Nominator.nominations st = todo
    end;
  li_todo : ∀ b, b ∈ todo → owner b ∉ updated.*1;
  li_nom : Storage.NominatorState s' = Storage.NominatorState s;
  li_req : Storage.NominationScheduledRequests s' = Storage.NominationScheduledRequests s;
  li_balances : Storage.Balances s' = Storage.Balances s;
  li_min : Storage.MinTotalNominatorStake s' = Storage.MinTotalNominatorStake s;
}.
Lemma partial_alter_twice (NS : Nominators) n o o' :
  partial_alter (λ _, o') n (partial_alter (λ _, o) n NS) = partial_alter (λ _, o') n NS.
Proof using Type*.
  apply map_eq. intros m. rewrite !lookup_partial_alter. by case_decide.
Qed.
Lemma lost_head (b : Bond.t) todo ask st :
  Nominator.nominations st = b :: todo → NoDup (owner <$> (b :: todo)) →
  match todo with
  | [] => lost (owner b) (amount b) ask st = None
  | _ => ∃ st', lost (owner b) (amount b) ask st = Some st' ∧ Nominator.nominations st' = todo
  end.
Proof using Type*.
  intros Hl [Hb Hnd]%NoDup_cons. unfold lost. rewrite Hl.
  destruct todo as [|b' todo]; [done|]. rewrite bool_decide_false by done.
  eexists. split; [done|]. cbn [Nominator.nominations].
  rewrite filter_cons, decide_False by auto. by apply filter_others.
Qed.
Lemma leaving_step s n b todo updated s' v :
  staking_ok s → leaving_inv s n (b :: todo) updated s' → validated_for s n b v →
  wp (let '(bond, reqs, request_idx) := v in
      try (nominator_leaves_candidate (Bond.owner bond) n (Bond.amount bond));;
      mret (updated ++ [(Bond.owner bond, delete request_idx reqs)])) s'
    (λ updated' s'', leaving_inv s n todo updated' s'') (λ _ _, True).
Proof using Type*.
  intros Hs [(o&Hok&st&->&Hl) Htodo Hn HR Hbal Hmin] Hv. destruct v as [[bond reqs] i].
  destruct Hv as (Hv1&Hv2&Hdel). cbn in Hv1, Hv2, Hdel. subst bond. rewrite Hdel. clear Hdel Hv2.
  pose proof (ok_noms _ _ Hok n st (lookup_insert_eq _ _ _)) as Hno.
  pose proof (set_ok_owners _ (no_set _ _ _ Hno)) as Hnd. rewrite Hl in Hnd.
  assert (bond_map (Nominator.nominations st) !! owner b = Some (amount b)) as Hbond.
  { rewrite Hl. apply bond_map_lookup; [done|]. destruct b. set_solver. }
  destruct (core_held _ _ Hok n st (owner b) (amount b) (lookup_insert_eq _ _ _) Hbond)
    as (self&top&bottom&Hc&Ht&Hb&Hm&_&Hin).
  wp_step. wp_step. eapply wp_mono;
    [apply (nominator_leaves_candidate_spec (owner b) n (amount b) self top bottom); done| |done].
  intros [] s'' (top'&bottom'&[Hm' Hp Hk Hbal' Hmin']). wp_step.
  pose proof (nomination_removed_ok _ _ (owner b) n (amount b) self top bottom top' bottom' st Hok
    Hc Ht Hb (lookup_insert_eq _ _ _) Hm' Hp) as Hres. cbn in Hres.
  rewrite put_all_other in Hres by (apply Htodo; set_solver).
  change (reqs_of _ (owner b)) with (scheduled_requests (owner b) s) in Hres.
  injection Hk as Hk1 Hk2 Hk3 Hk4 Hk5 Hk6. split; try congruence.
  - exists (lost (owner b) (amount b) (asked n (scheduled_requests (owner b) s)) st). split.
    + unfold leaving_core. rewrite put_all_snoc, Hk1, Hk2, Hk3, Hk6.
      rewrite partial_alter_twice in Hres. exact Hres.
    + pose proof (lost_head b todo (asked n (scheduled_requests (owner b) s)) st Hl Hnd) as Hh.
      by destruct todo.
  - intros b' Hb'. rewrite fmap_app. cbn. intros [?|Heq%list_elem_of_singleton]%elem_of_app.
    + apply (Htodo b'); [set_solver|done].
    + apply NoDup_cons in Hnd as [Hnb _]. apply Hnb. rewrite <-Heq. apply list_elem_of_fmap. eauto.
Qed.
Lemma leaving_start s n st :
  staking_ok s → Storage.NominatorState s !! n = Some st →
  leaving_inv s n (Nominator.nominations st) [] s.
Proof using Type*.
  intros Hs Hst. split; try done; [|set_solver].
  pose proof (ok_noms _ _ (so_core _ Hs) n st Hst) as Hno. exists (Some st). split.
  - unfold leaving_core.
    change (partial_alter (λ _, Some st) n (Storage.NominatorState s))
      with (<[n := st]> (Storage.NominatorState s)).
    rewrite insert_id by done. apply Hs.
  - destruct (Nominator.nominations st) eqn:Hl; [by destruct (no_nonempty _ _ _ Hno)|eauto].
Qed.
Lemma wp_total_sub a st s Q (R : DispatchError → Storage.t → Prop) :
  (let st' := Nominator.set_total (Nominator.total st ⊖ a) st in Q st' (lock_nominator st' s)) →
  wp (total_sub a st) s Q R.
Proof using Type*. unfold wp. by rewrite total_sub_run. Qed.
Lemma nominator_execute_all_keeps n cnt : keeps (nominator_execute_scheduled_revoke_all n cnt).
Proof using Type*.
  intros s Hs. unfold nominator_execute_scheduled_revoke_all. wp_go.
  rename select (_ !! n = Some a) into Hst. rename a into st.
  eapply wp_mono; [by apply validate_revokes_spec| |done]. intros vs ? [-> Hvs]. wp_step.
  apply (wp_fold_m _ _ (λ vs updated s', ∃ todo, Forall2 (validated_for s n) todo vs ∧
    leaving_inv s n todo updated s')).
  - exists (Nominator.nominations st). split; [done|]. by apply leaving_start.
  - intros v vs' updated s' (todo&Hf&Hinv). inversion Hf as [|b v' todo' vs'' Hv Hf']; subst.
    eapply wp_mono; [by apply (leaving_step s n b todo' updated s' v)| |done].
    intros updated' s'' Hinv'. by exists todo'.
  - intros updated s' (todo&Hf&Hinv). inversion Hf; subst.
    destruct Hinv as [(o&Hok&->) _ Hn HR Hbal Hmin]. wp_step. apply wp_total_sub. cbv zeta.
    wp_step. apply wp_put_all. wp_go.
    eapply staking_intro; [exact Hs| |exact Hmin|].
    + intros x. unfold free_of_chain. rewrite <-Hbal. apply free_lock_nominator.
    + unfold core_of, leaving_core in *. cbn. rewrite Hn, HR. exact Hok.
Qed.
End Revoke.

(** * A candidate that leaves keeps the staking invariant

    [execute_leave_candidates] returns the stake of every nominator in the two
    lists and removes the candidate. *)

Section Exit.
Context `{ConfigOk} `{!CurrencyLaws config_currency}.
Implicit Types (c n : AccountId) (s : Storage.t).

(** No stake remains exactly when there was one nomination. *)
Lemma remaining_zero R n st c a :
  nominator_ok R n st → bond_map (Nominator.nominations st) !! c = Some a →
  Nominator.total st - a = 0 ↔ length (Nominator.nominations st) = 1%nat.
Proof using Type*.
  intros Hno Ha. pose proof (set_ok_owners _ (no_set _ _ _ Hno)) as Hnd.
  pose proof (filter_owner_sum c _ a Hnd Ha) as Hsum. rewrite <-(no_total _ _ _ Hno) in Hsum.
  pose proof (filter_owner_length c _ Hnd ltac:(apply bond_map_is_Some; eauto)) as Hlen.
  pose proof (no_nonempty _ _ _ Hno) as Hne. pose proof (no_positive _ _ _ Hno) as Hpos.
  rewrite <-Hsum. rewrite <-length_zero_iff_nil in Hne.
  destruct (filter (λ b, owner b ≠ c) (Nominator.nominations st)) as [|b l] eqn:Hf.
  { rewrite sum_nil. cbn in Hlen. lia. }
  rewrite sum_cons. cbn in Hlen.
  assert (∀ x, x ∈ b :: l → 0 < amount x) as Hall.
  { intros x Hx. rewrite <-Hf in Hx. apply list_elem_of_filter in Hx as [_ Hx].
    rewrite Forall_forall in Hpos. by apply Hpos. }
  assert (0 < amount b) by (apply Hall; set_solver).
  assert (0 <= sum_amounts l).
  { apply sum_amounts_nonneg, Forall_forall. intros x Hx.
    assert (0 < amount x) by (apply Hall; set_solver). lia. }
  lia.
Qed.

(** What returning the stake of [b] does. *)
Lemma return_stake_spec c b st R s :
  Storage.NominatorState s !! owner b = Some st → nominator_ok R (owner b) st →
  bond_map (Nominator.nominations st) !! c = Some (amount b) →
  NoDup (ScheduledRequest.nominator <$> scheduled_requests c s) →
  let ask := asked (owner b) (scheduled_requests c s) in
  ask <= Nominator.less_total st → 0 <= amount b <= Nominator.total st →
  wp (return_stake c b) s (λ _ s',
    Storage.NominatorState s' =
      partial_alter (λ _, lost c (amount b) ask st) (owner b) (Storage.NominatorState s) ∧
    (∀ d, scheduled_requests d s' = if decide (c = d) then others (owner b) (scheduled_requests c s)
                                    else scheduled_requests d s) ∧
    (∀ d, d ≠ c → Storage.NominationScheduledRequests s' !! d =
                  Storage.NominationScheduledRequests s !! d) ∧
    Storage.CandidateInfo s' = Storage.CandidateInfo s ∧
    Storage.TopNominations s' = Storage.TopNominations s ∧
    Storage.BottomNominations s' = Storage.BottomNominations s ∧
    Storage.CandidatePool s' = Storage.CandidatePool s ∧
    Storage.MinTotalNominatorStake s' = Storage.MinTotalNominatorStake s ∧
    same_free s s') (λ _ _, False).
Proof using Type*.
  intros Hst Hno Ha Hnd ask Hask Hamt. unfold return_stake. wp_step. wp_step. wp_step.
  eapply wp_expect; [done|]. wp_step. pose proof max_per_nominator_bound.
  pose proof (no_len _ _ _ Hno). unfold wp at 1.
  rewrite rm_nomination_run, Ha by (apply Hno || lia). cbv beta iota zeta. wp_step. unfold wp at 1.
  rewrite remove_request_run. set (st1 := nominator_without c (amount b) st).
  set (s1 := lock_nominator st1 s). destruct (drop_request_frame c (owner b) s1) as (Hb&Hm&Hk).
  injection Hk as Hk1 Hk2 Hk3 Hk4 Hk5.
  assert (∀ d, scheduled_requests d (drop_request c (owner b) s1) =
    if decide (c = d) then others (owner b) (scheduled_requests c s) else scheduled_requests d s) as HR.
  { intros d. by apply (drop_request_reqs c (owner b) s1). }
  assert (∀ d, d ≠ c → Storage.NominationScheduledRequests (drop_request c (owner b) s1) !! d =
                  Storage.NominationScheduledRequests s !! d) as HR2.
  { intros d Hd. unfold drop_request. destruct (request_index _ _ _); [|done]. cbn.
    by rewrite lookup_insert_ne. }
  assert (same_free s (drop_request c (owner b) s1)) as Hf.
  { intros x. unfold free_of_chain. rewrite Hb. apply free_lock_nominator. }
  assert (without_request c (owner b) s1 st1 = Nominator.mk (Nominator.id st)
    (filter (λ b, owner b ≠ c) (Nominator.nominations st))
    (Nominator.total st - amount b) (Nominator.less_total st - ask)) as Hst2.
  { rewrite without_request_asked by done. unfold st1, nominator_without. cbn.
    by rewrite sat_sub_small by lia. }
  pose proof (remaining_zero R (owner b) st c (amount b) Hno Ha) as Hz.
  unfold lost. rewrite <-Hst2. change (Nominator.total st1) with (Nominator.total st ⊖ amount b).
  rewrite sat_sub_small by lia. rewrite (bool_decide_ext _ _ Hz).
  case_bool_decide; wp_go; rewrite <-?Hk4; split_and!; try done.
  intros x. unfold free_of_chain. cbn. rewrite free_balance_remove_lock. apply Hf.
Qed.

(** Storage while the stakes are returned: those of [p] are, those of [todo]
    are not yet. *)
Record exit_inv s c (p todo : list Bond.t) (Tp Bt : Lists) s' : Prop := {
  ei_nom : ∀ n, Storage.NominatorState s' !! n =
    match bond_map p !! n with
    | Some a => Storage.NominatorState s !! n ≫= lost c a (asked n (scheduled_requests c s))
    | None => Storage.NominatorState s !! n
    end;
  ei_reqs : NoDup (ScheduledRequest.nominator <$> scheduled_requests c s');
  ei_asked : ∀ b, b ∈ todo →
    asked (owner b) (scheduled_requests c s') = asked (owner b) (scheduled_requests c s);
  ei_other : ∀ d, d ≠ c → Storage.NominationScheduledRequests s' !! d =
                          Storage.NominationScheduledRequests s !! d;
  ei_cand : Storage.CandidateInfo s' = Storage.CandidateInfo s;
  ei_top : Storage.TopNominations s' = Tp;
  ei_bottom : Storage.BottomNominations s' = Bt;
  ei_pool : Storage.CandidatePool s' = Storage.CandidatePool s;
  ei_min : Storage.MinTotalNominatorStake s' = Storage.MinTotalNominatorStake s;
  ei_free : same_free s s';
}.
Lemma exit_step s c self top bottom p b todo Tp Bt s' :
  staking_ok s → cand_ok c self top bottom s → noms top ++ noms bottom = p ++ b :: todo →
  exit_inv s c p (b :: todo) Tp Bt s' →
  wp (return_stake c b) s' (λ _ s'', exit_inv s c (p ++ [b]) todo Tp Bt s'') (λ _ _, False).
Proof using Type*.
  intros Hs Hco Hl [Hn Hnd Hask Hother Hc Htp Hbt Hpool Hmin Hfree].
  pose proof (lo_owners _ _ (mo_lists _ _ _ (co_meta _ _ _ _ _ Hco))) as Hown. rewrite Hl in Hown.
  assert (b ∈ noms top ++ noms bottom) as Hin by (rewrite Hl; set_solver).
  destruct (staking_listed _ _ _ _ _ _ Hs Hco Hin) as (st&Hst&Hno&Ha&Hpos&_).
  destruct (less_range _ _ (owner b) st c (amount b) (so_core _ Hs) Hst Ha) as [[_ Hle] _].
  pose proof Hown as Hown'.
  rewrite fmap_app, fmap_cons, <-Permutation_middle, NoDup_cons, <-fmap_app in Hown'.
  destruct Hown' as [Hbfresh _].
  assert (bond_map p !! owner b = None) as Hbp.
  { apply bond_map_None. rewrite fmap_app in Hbfresh. set_solver. }
  pose proof (Hn (owner b)) as Hnb. rewrite Hbp, Hst in Hnb.
  pose proof (Hask b ltac:(set_solver)) as Haskb.
  eapply wp_mono; [eapply (return_stake_spec c b st); try done|  |done].
  { rewrite Haskb. exact Hle. }
  { lia. }
  rewrite Haskb. intros [] s'' (Hn'&HR'&Hother'&Hc'&Ht'&Hb'&Hp'&Hm'&Hf').
  assert (bond_map (p ++ [b]) = <[owner b := amount b]> (bond_map p)) as Hmap.
  { assert (NoDup (owner <$> (p ++ b :: []))) as Hnd'.
    { rewrite cons_middle, app_assoc, fmap_app in Hown. by apply NoDup_app in Hown as [? _]. }
    by rewrite (bond_map_middle _ _ _ Hnd'), app_nil_r. }
  split; try congruence.
  - intros n. rewrite Hn', lookup_partial_alter, Hmap, lookup_insert.
    destruct (decide (owner b = n)) as [<-|Hne]; [by rewrite Hst|apply Hn].
  - rewrite HR', decide_True by done. by apply others_nodup.
  - intros b' Hb''. rewrite HR', decide_True by done.
    rewrite asked_others, decide_False; [apply Hask; set_solver|].
    intros Heq. apply Hbfresh. rewrite fmap_app, <-Heq, elem_of_app. right. apply list_elem_of_fmap. eauto.
  - intros d Hd. rewrite Hother' by done. by apply Hother.
Qed.
Lemma exit_loop s c self top bottom p l todo Tp Bt s' (Q : unit → Storage.t → Prop)
    (R : DispatchError → Storage.t → Prop) :
  staking_ok s → cand_ok c self top bottom s → noms top ++ noms bottom = p ++ l ++ todo →
  exit_inv s c p (l ++ todo) Tp Bt s' →
  (∀ s'', exit_inv s c (p ++ l) todo Tp Bt s'' → Q () s'') →
  wp (for_each (return_stake c) l) s' Q R.
Proof using Type*.
  intros Hs Hco Hl Hinv HQ.
  apply (wp_for_each _ _ (λ rest s'', ∃ q, l = q ++ rest ∧
    exit_inv s c (p ++ q) (rest ++ todo) Tp Bt s'')).
  - exists []. split; [done|]. by rewrite app_nil_r.
  - intros b rest s1 (q&Hq&Hinv1). subst l.
    eapply wp_mono; [eapply (exit_step s c self top bottom (p ++ q) b (rest ++ todo)); try done| |done].
    + rewrite Hl, <-!app_assoc. done.
    + intros [] s2 Hinv2. exists (q ++ [b]). split; [by rewrite <-app_assoc|].
      by rewrite app_assoc.
  - intros s1 (q&Hq&Hinv1). rewrite app_nil_r in Hq. subst q. by apply HQ.
Qed.
Lemma exit_start s c l s' :
  staking_ok s → s' = Storage.upd_TopNominations (delete c) s →
  exit_inv s c [] l (delete c (Storage.TopNominations s)) (Storage.BottomNominations s) s'.
Proof using Type*. intros Hs ->. split; try done. apply (ok_reqs _ _ (so_core _ Hs) c). Qed.
Lemma pool_without C P c self :
  pool_ok C P → C !! c = Some self → CandidateMetadata.is_active self = false →
  pool_ok (delete c C) P.
Proof using Type*.
  intros [Hset Hlen Htot] Hc Ha. split; [done|done|]. intros d. rewrite Htot, lookup_delete.
  case_decide; [|done]. subst d. rewrite Hc. cbn. unfold pool_total. by rewrite Ha.
Qed.
(** Storage after the last stake was returned and the candidate removed. *)
Lemma exited_ok s c self top bottom Tp Bt s1 s' :
  staking_ok s → Storage.CandidateInfo s !! c = Some self → cand_ok c self top bottom s →
  CandidateMetadata.is_active self = false →
  exit_inv s c (noms top ++ noms bottom) [] Tp Bt s1 →
  core_of s' = Core (delete c (Storage.CandidateInfo s)) (delete c (Storage.TopNominations s))
    (delete c (Storage.BottomNominations s)) (Storage.NominatorState s1)
    (delete c (Storage.NominationScheduledRequests s1)) (Storage.CandidatePool s1) →
  same_free s1 s' → Storage.MinTotalNominatorStake s' = Storage.MinTotalNominatorStake s1 →
  staking_ok s'.
Proof using Type*.
  intros Hs Hc [Ht Hb Hm] Ha [Hn _ _ Hother _ _ _ Hpool Hmin Hfree] Hk Hf Hmin'.
  pose proof (so_core _ Hs) as Hok.
  eapply staking_intro; [done|intros x; by rewrite Hf, Hfree|congruence|]. rewrite Hk, Hpool.
  assert (delete c (Storage.NominationScheduledRequests s1) =
          delete c (Storage.NominationScheduledRequests s)) as ->.
  { apply map_eq. intros d. rewrite !lookup_delete. case_decide; [done|]. by apply Hother. }
  eapply (left_ok _ _ Hok c self top bottom); try done. apply (pool_without _ _ c self); try done.
  apply (ok_pool _ _ Hok).
Qed.
Lemma execute_leave_candidates_keeps origin c cnt : keeps (execute_leave_candidates origin c cnt).
Proof using Type*.
  intros s Hs. unfold execute_leave_candidates, ensure_signed, Candidate.can_leave.
  destruct origin as [|who|]; wp_go. rename select (_ !! c = Some _) into Hc. rename a into self.
  destruct (staking_candidate _ _ _ Hs Hc) as (top&bottom&Hco&_).
  destruct (CandidateMetadata.status self) eqn:Hst; wp_go.
  eapply wp_expect; [apply Hco|]. wp_step. wp_step. wp_step.
  eapply (exit_loop s c self top bottom [] (noms top) (noms bottom)); [done..| |].
  { by apply exit_start. }
  intros s1 Hinv1. cbv beta zeta. wp_step. wp_step. wp_step.
  eapply wp_expect; [rewrite (ei_bottom _ _ _ _ _ _ _ Hinv1); apply Hco|]. wp_step. wp_step. wp_step.
  apply (exit_loop s c self top bottom (noms top) (noms bottom) []
    (delete c (Storage.TopNominations s)) (delete c (Storage.BottomNominations s)));
    [done|done|by rewrite app_nil_r| |].
  { rewrite app_nil_r. pose proof (ei_bottom _ _ _ _ _ _ _ Hinv1) as Hb1.
    destruct Hinv1. split; try done. cbn. by rewrite Hb1. }
  intros s2 Hinv2. wp_go. eapply (exited_ok s c self top bottom _ _ s2); try done.
  - unfold CandidateMetadata.is_active. by rewrite Hst.
  - destruct Hinv2 as [_ _ _ _ Hc2 Ht2 Hb2 _ _ _]. unfold core_of. cbn.
    by rewrite Hc2, Ht2, Hb2, !delete_delete_eq.
  - solve_free.
Qed.
End Exit.
