(* ===== verification/InvDispatch.v ===== *)
(** * Every dispatchable keeps the staking invariant

    Admin settings and the signed calls, and [dispatch] as a whole. *)

From S2P Require Import Prelude Slices Sets StakingConfig StakingTypes StakingState NominatorOps.
From S2P Require Import CandidateOps Requests Calls SignedCalls NominationLists BondSets.
From S2P Require Import CandidateInv CandidateAdd CandidateAdjust RequestFacts.
From S2P Require Import StakingInv StakingCore InvCandidates InvRequests InvNominate.
From S2P Require Import InvRevoke.

Section Composition.
Context `{Config}.

Lemma keeps_bind {A B} (m : Dispatch A) (g : A → Dispatch B) :
  keeps m → (∀ a, keeps (g a)) → keeps (m ≫= g).
Proof.
  intros Hm Hg s Hs. apply wp_bind. eapply wp_mono; [by apply Hm| |done].
  intros a s' Hs'. by apply Hg.
Qed.
Lemma keeps_ret {A} (a : A) : keeps (mret a).
Proof. by intros s Hs. Qed.
Lemma keeps_fail {A} e : keeps (fail e : Dispatch A).
Proof. by intros s Hs. Qed.
Lemma keeps_gets {A} (g : Storage.t → A) : keeps (gets g).
Proof. by intros s Hs. Qed.
Lemma keeps_ensure b e : keeps (ensure b e).
Proof. intros s Hs. by destruct b. Qed.
Lemma keeps_ok_or {A} (o : option A) e : keeps (ok_or o e).
Proof. intros s Hs. by destruct o. Qed.
Lemma keeps_transactional {A} (m : Dispatch A) : keeps m → keeps (transactional m).
Proof. intros Hm s Hs. apply wp_transactional. by apply Hm. Qed.
Lemma keeps_for_each {A} (g : A → Dispatch unit) l :
  (∀ a, a ∈ l → keeps (g a)) → keeps (for_each g l).
Proof.
  induction l as [|a l IH]; intros Hg; [apply keeps_ret|]. cbn. apply keeps_bind; [apply Hg; set_solver|].
  intros _. apply IH. set_solver.
Qed.
(** A loop over a state with an invariant of its own. *)
Lemma keeps_fold_m {A B} (P : B → Prop) (g : B → A → Dispatch B) b l :
  P b →
  (∀ b a s, P b → staking_ok s → wp (g b a) s (λ b' s', P b' ∧ staking_ok s') (λ _ _, True)) →
  ∀ s, staking_ok s → wp (fold_m g b l) s (λ b' s', P b' ∧ staking_ok s') (λ _ _, True).
Proof.
  intros Hb Hg s Hs. apply (wp_fold_m _ _ (λ _ b s, P b ∧ staking_ok s)); [done| |tauto].
  intros a l' b' s' [Hb' Hs']. by apply Hg.
Qed.
Lemma keeps_ensure_signed origin : keeps (ensure_signed origin).
Proof. destruct origin; [apply keeps_fail|apply keeps_ret|apply keeps_fail]. Qed.
Lemma keeps_ensure_root origin : keeps (ensure_root origin).
Proof. destruct origin; [apply keeps_ret|apply keeps_fail|apply keeps_fail]. Qed.
(** Writes outside the maps of the invariant. *)
Lemma keeps_modify (g : Storage.t → Storage.t) :
  (∀ s, core_of (g s) = core_of s ∧ Storage.Balances (g s) = Storage.Balances s ∧
        Storage.MinTotalNominatorStake (g s) = Storage.MinTotalNominatorStake s) →
  keeps (modify g).
Proof.
  intros Hg s Hs. destruct (Hg s) as (Hk&Hb&Hm). eapply staking_frame; [done| |done|done].
  intros a. unfold free_of_chain. by rewrite Hb.
Qed.
Lemma keeps_event e : keeps (deposit_event e).
Proof. by apply keeps_modify. Qed.
Lemma keeps_increment_nonce who : keeps (increment_nonce who).
Proof. by apply keeps_modify. Qed.
Lemma keeps_check_signer sender proof payload e : keeps (check_signer sender proof payload e).
Proof.
  apply keeps_bind; [apply keeps_ensure|intros _]. apply keeps_bind; [apply keeps_gets|intros ?].
  apply keeps_ensure.
Qed.
Lemma keeps_get_nominator n : keeps (get_nominator n).
Proof. apply keeps_bind; [apply keeps_gets|intros ?; apply keeps_ok_or]. Qed.
Lemma keeps_get_candidate n : keeps (get_candidate n).
Proof. apply keeps_bind; [apply keeps_gets|intros ?; apply keeps_ok_or]. Qed.
End Composition.
#[export] Hint Resolve keeps_ret keeps_fail keeps_gets keeps_ensure keeps_ok_or keeps_ensure_signed
  keeps_ensure_root keeps_event keeps_increment_nonce keeps_check_signer keeps_get_nominator
  keeps_get_candidate : staking.
(** Compose what is known to keep the invariant. *)
Ltac keeps_tac :=
  repeat first
    [ solve [auto with staking]
    | apply keeps_transactional
    | apply keeps_bind; [solve [auto with staking]|intros ?] ].

Section Dispatching.
Context `{ConfigOk} `{!CurrencyLaws config_currency} `{!PerbillLaws config_perbill}.
Implicit Types (s : Storage.t) (origin : Origin).

(** ** Admin *)

Lemma set_total_selected_keeps origin new : keeps (set_total_selected origin new).
Proof using Type*.
  unfold set_total_selected. keeps_tac. apply keeps_bind; [by apply keeps_modify|intros _]. keeps_tac.
Qed.
Lemma set_blocks_per_era_keeps origin new : keeps (set_blocks_per_era origin new).
Proof using Type*.
  unfold set_blocks_per_era. keeps_tac. apply keeps_bind; [by apply keeps_modify|intros _]. keeps_tac.
Qed.
Lemma set_admin_setting_keeps origin value : keeps (set_admin_setting origin value).
Proof using Type*.
  intros s Hs. unfold set_admin_setting, ensure_root. destruct origin as [|who|]; wp_go.
  destruct value as [d|m|m]; wp_go; cbn in *; check_facts; destruct Hs; by split.
Qed.

(** ** Signed calls *)

(** What is left of an amount never goes below zero. *)
Lemma actual_amount_range per dust count index remaining s :
  0 <= per → 0 <= remaining →
  0 <= actual_amount per dust count index remaining s <= remaining.
Proof.
  intros Hp Hr. unfold actual_amount. destruct (collator_should_get_dust _ _ _ _); [|lia].
  pose proof (wrap_nonneg u128_max (per + dust) ltac:(done)). lia.
Qed.

Lemma split_and_nominate_keeps n ts a : 0 <= a → keeps (split_and_nominate n ts a).
Proof using Type*.
  intros Ha. unfold split_and_nominate. keeps_tac. apply keeps_bind; [|auto with staking].
  intros s Hs. eapply (wp_mono _ _ (λ p s', 0 <= p.1 ∧ staking_ok s')); [|by intros ?? [_ ?]|done].
  apply (keeps_fold_m (λ p, 0 <= p.1)); [done| |done].
  intros [remaining cnt] [index target] s' Hr Hs'. wp_go.
  match goal with |- wp (call_nominate _ _ ?x _ _) _ _ _ =>
    assert (0 <= x <= remaining) by (apply actual_amount_range; [apply share_range|]; done) end.
  eapply wp_mono; [by apply call_nominate_keeps; [lia|]| |done]. intros ? s1 Hs1. wp_go. cbn. split; [lia|done].
Qed.

Lemma signed_bond_extra_loop n per dust count (l : list (nat * Bond.t)) a :
  0 <= per → 0 <= a →
  keeps (fold_m (λ remaining '(index, nomination),
    x ← gets (actual_amount per dust count (Z.of_nat index) remaining);
    call_bond_extra n (Bond.owner nomination) x;; mret (remaining - x)) a l).
Proof using Type*.
  intros Hp Ha s Hs. eapply (wp_mono _ _ (λ p s', 0 <= p ∧ staking_ok s')); [|by intros ?? [_ ?]|done].
  apply (keeps_fold_m (λ p, 0 <= p)); [done| |done].
  intros remaining [index b] s' Hr Hs'. wp_go.
  match goal with |- wp (call_bond_extra _ _ ?x) _ _ _ =>
    assert (0 <= x <= remaining) by (by apply actual_amount_range) end.
  eapply wp_mono; [by apply call_bond_extra_keeps; [lia|]| |done]. intros ? s1 Hs1. wp_go.
  split; [lia|done].
Qed.

(** The payers' amounts are amounts. *)
Lemma withdraw_loop_range target l payers out :
  0 <= out → Forall (λ p, 0 <= StakeInfo.reserved_amount p ∧ 0 <= StakeInfo.free_amount p) payers →
  Forall (λ p, 0 <= StakeInfo.reserved_amount p ∧ 0 <= StakeInfo.free_amount p)
    (withdraw_loop target l payers out).1 ∧ 0 <= (withdraw_loop target l payers out).2.
Proof.
  revert payers out. induction l as [|b l IH]; intros payers out Ho Hp; [done|]. cbn [withdraw_loop].
  set (w := Z.min out _). assert (0 <= w <= out) by (unfold w; sat; lia).
  destruct (bool_decide (w <= Bond.amount b)); [|case_bool_decide; [done|by apply IH]].
  assert (Forall (λ p, 0 <= StakeInfo.reserved_amount p ∧ 0 <= StakeInfo.free_amount p)
    (payers ++ [StakeInfo.new (Bond.owner b)
                  (Bond.amount b -₁₂₈ (w +₁₂₈ MinNominationPerCollator)) w])).
  { apply Forall_app. split; [done|]. apply Forall_singleton. cbn. split; [lia|by apply wrap_nonneg]. }
  case_bool_decide; [split; [done|cbn; lia]|]. apply IH; [lia|done].
Qed.
Lemma top_up_range p out :
  0 <= out → 0 <= StakeInfo.reserved_amount p ∧ 0 <= StakeInfo.free_amount p →
  0 <= StakeInfo.reserved_amount (top_up p out).1 ∧ 0 <= (top_up p out).2.
Proof.
  intros Ho [Hr Hf]. unfold top_up. case_bool_decide; [done|]. cbn. split; [by apply wrap_nonneg|lia].
Qed.
Lemma identify_spec n a s :
  0 <= a → staking_ok s →
  wp (identify_collators_to_withdraw_from n a) s
    (λ r s', staking_ok s' ∧ 0 <= r.2 ∧
       Forall (λ p, 0 <= StakeInfo.reserved_amount p ∧ 0 <= StakeInfo.free_amount p) r.1)
    (λ _ _, True).
Proof using Type*.
  intros Ha Hs. unfold identify_collators_to_withdraw_from. wp_go. split; [done|].
  by apply and_comm, withdraw_loop_range.
Qed.
Lemma unbond_loop n l out :
  0 <= out → Forall (λ p, 0 <= StakeInfo.reserved_amount p ∧ 0 <= StakeInfo.free_amount p) l →
  keeps (fold_m (λ out stake,
    let '(stake, out) := top_up stake out in
    nomination_schedule_bond_decrease (StakeInfo.owner stake) n (StakeInfo.reserved_amount stake);;
    mret out) out l).
Proof using Type*.
  revert out. induction l as [|p l IH]; intros out Ho Hl; [apply keeps_ret|]. cbn [fold_m].
  apply Forall_cons in Hl as [Hp Hl]. pose proof (top_up_range p out Ho Hp) as Ht.
  destruct (top_up p out) as [p' out']. cbn in Ht. destruct Ht as [Hr Hout]. intros s Hs. apply wp_bind, wp_bind.
  eapply wp_mono; [by apply nomination_schedule_bond_decrease_keeps|intros ? s1 Hs1|done].
  wp_go. by apply IH.
Qed.

Lemma signed_execute_loop n now (l : list Bond.t) :
  keeps (for_each (λ bond,
    reqs ← gets (scheduled_requests (Bond.owner bond));
    request_idx ← ok_or (position_of n reqs) Error.PendingNominationRequestDNE;
    request ← expect (reqs !! request_idx);
    if bool_decide (ScheduledRequest.when_executable request <= now)
    then nomination_execute_scheduled_request (Bond.owner bond) n else mret ()) l).
Proof using Type*.
  apply keeps_for_each. intros b _ s Hs. wp_go.
  rename select (position_of _ _ = Some _) into Hi.
  apply position_of_Some in Hi as (req&Hi&_); [|apply (ok_reqs _ _ (so_core _ Hs))].
  eapply wp_expect; [done|]. destruct (bool_decide _); [|done].
  by apply nomination_execute_scheduled_request_keeps.
Qed.

Lemma signed_schedule_nominator_unbond_keeps origin proof less :
  0 <= less → keeps (signed_schedule_nominator_unbond origin proof less).
Proof using Type*.
  intros Hl. unfold signed_schedule_nominator_unbond. keeps_tac. intros s Hs. apply wp_bind.
  eapply wp_mono; [by apply identify_spec| |done]. intros [payers out] s1 (Hs1&Ho&Hp).
  revert s1 Hs1. apply keeps_bind; [by apply unbond_loop|intros ?]. keeps_tac.
Qed.
Lemma signed_bond_extra_keeps origin proof a : 0 <= a → keeps (signed_bond_extra origin proof a).
Proof using Type*.
  intros Ha. unfold signed_bond_extra. keeps_tac.
  apply keeps_bind; [apply signed_bond_extra_loop; [by apply share_range|done]|intros ?]. keeps_tac.
Qed.

(** ** Every call *)

(** The amounts of a call are [u128]s. *)
Definition call_in_range (call : Call.t) : Prop :=
  match call with
  | Call.join_candidates a _ | Call.candidate_bond_extra a | Call.signed_candidate_bond_extra _ a
  | Call.schedule_candidate_unbond a | Call.signed_schedule_candidate_unbond _ a
  | Call.nominate _ a _ _ | Call.signed_nominate _ _ a | Call.bond_extra _ a
  | Call.signed_bond_extra _ a | Call.schedule_nominator_unbond _ a
  | Call.signed_schedule_nominator_unbond _ a => 0 <= a <= u128_max
  | _ => True
  end.

#[local] Hint Resolve set_total_selected_keeps set_blocks_per_era_keeps set_admin_setting_keeps
  join_candidates_keeps schedule_leave_candidates_keeps cancel_leave_candidates_keeps go_online_keeps
  go_offline_keeps call_candidate_bond_extra_keeps call_schedule_candidate_unbond_keeps
  cancel_candidate_unbond_keeps call_execute_candidate_unbond_keeps nomination_schedule_revoke_keeps
  nomination_schedule_bond_decrease_keeps nomination_cancel_request_keeps hotfix_keeps
  nominator_schedule_revoke_all_keeps nominator_cancel_all_keeps call_nominate_keeps
  call_bond_extra_keeps nomination_execute_scheduled_request_keeps nominator_execute_all_keeps
  execute_leave_candidates_keeps split_and_nominate_keeps signed_execute_loop
  signed_schedule_nominator_unbond_keeps signed_bond_extra_keeps : staking.

Lemma dispatch_call_keeps origin call : call_in_range call → keeps (dispatch_call origin call).
Proof using Type*.
  intros Hr. destruct call; cbn [call_in_range dispatch_call] in *; destruct_and?;
    try solve [auto with staking];
    unfold candidate_bond_extra, signed_candidate_bond_extra, schedule_candidate_unbond,
      execute_candidate_unbond, signed_execute_candidate_unbond, signed_schedule_candidate_unbond,
      nominate, signed_nominate, schedule_leave_nominators, signed_schedule_leave_nominators,
      execute_leave_nominators, signed_execute_leave_nominators, cancel_leave_nominators,
      schedule_revoke_nomination, signed_schedule_revoke_nomination, bond_extra,
      schedule_nominator_unbond, execute_nomination_request, signed_execute_nomination_request,
      cancel_nomination_request; keeps_tac.
  case_match; keeps_tac.
Qed.
End Dispatching.
