(* ===== verification/InvHooks.v ===== *)
(** * The block hook keeps the staking invariant

    [on_initialize] ends normally: the transition to a new era finds the
    candidates of the pool and the snapshots of the collators selected before,
    and payouts leave every stake covered.  Stakes themselves do not change. *)

From S2P Require Import Prelude Slices Sets StakingConfig StakingTypes StakingState NominatorOps.
From S2P Require Import CandidateOps Requests Calls Eras NominationLists BondSets.
From S2P Require Import CandidateInv StakingInv StakingCore InvCandidates.

Section Invariant.
Context `{Config}.

Definition snapshots (era : EraIndex) (s : Storage.t) : gmap AccountId CollatorSnapshot.t :=
  unwrap_or ∅ (Storage.AtStake s !! era).
(** The selected collators have a snapshot of the current era. *)
Record era_ok (s : Storage.t) : Prop := {
  eo_current : 1 <= EraInfo.current (Storage.Era s);
  eo_selected : ∀ c, c ∈ Storage.SelectedCandidates s →
    is_Some (snapshots (EraInfo.current (Storage.Era s)) s !! c);
  eo_payouts : ∀ e p, Storage.DelayedPayouts s !! e = Some p → 0 <= total_staking_reward p;
}.
(** Nothing is staked from the reward pot. *)
Definition pot_idle (s : Storage.t) : Prop :=
  Storage.CandidateInfo s !! RewardPotAccount = None ∧
  Storage.NominatorState s !! RewardPotAccount = None.

(** What the hook leaves alone: the stakes, and the minimum. *)
Definition same_stakes (s s' : Storage.t) : Prop :=
  core_of s' = core_of s ∧
  Storage.MinTotalNominatorStake s' = Storage.MinTotalNominatorStake s.
(** And what the bookkeeping of growth leaves alone beyond that. *)
Definition era_view (s : Storage.t) :=
  (core_of s, Storage.MinTotalNominatorStake s, Storage.Balances s, Storage.SelectedCandidates s,
   Storage.AtStake s, Storage.Era s).
Definition growth_view (s : Storage.t) := (era_view s, Storage.DelayedPayouts s).
End Invariant.

Section Maps.
Context `{Config}.

Lemma snapshots_insert2 e c x m e' :
  unwrap_or ∅ (insert2 e c x m !! e') =
    if decide (e = e') then <[c := x]> (unwrap_or ∅ (m !! e)) else
    unwrap_or (∅ : gmap AccountId CollatorSnapshot.t) (m !! e').
Proof.
  unfold insert2. rewrite lookup_insert. destruct (decide (e = e')); done.
Qed.
Lemma snapshots_delete2 e c (m : gmap EraIndex (gmap AccountId CollatorSnapshot.t)) e' :
  e ≠ e' → unwrap_or ∅ (delete2 e c m !! e') = unwrap_or ∅ (m !! e').
Proof. intros Hne. unfold delete2. by rewrite lookup_insert_ne. Qed.

(** A prefix is walked in some order of its keys. *)
Lemma iter_prefix_perm {A} e (m : gmap EraIndex (gmap AccountId A)) :
  iter_prefix e m ≡ₚ map_to_list (unwrap_or ∅ (m !! e)).
Proof. apply sort_by_perm. Qed.
Lemma iter_prefix_elem {A} e (m : gmap EraIndex (gmap AccountId A)) c x :
  (c, x) ∈ iter_prefix e m ↔ unwrap_or ∅ (m !! e) !! c = Some x.
Proof. by rewrite iter_prefix_perm, elem_of_map_to_list. Qed.
Lemma iter_prefix_map {A B} e (m : gmap EraIndex (gmap AccountId A)) (g : A → B) c :
  is_Some (unwrap_or ∅ (m !! e) !! c) →
  is_Some ((list_to_map ((λ p, (p.1, g p.2)) <$> iter_prefix e m) : gmap AccountId B) !! c).
Proof.
  intros [x Hx]. apply elem_of_dom. rewrite dom_list_to_map_L. apply elem_of_list_to_set.
  rewrite <-list_fmap_compose. apply list_elem_of_fmap. exists (c, x).
  split; [done|]. by apply iter_prefix_elem.
Qed.
End Maps.

Section Selection.
Context `{ConfigOk} `{!CurrencyLaws config_currency}.
Implicit Types (s : Storage.t) (c : AccountId).

Lemma top_candidates_pool s c :
  c ∈ compute_top_candidates s → c ∈ owner <$> Storage.CandidatePool s.
Proof.
  unfold compute_top_candidates. rewrite sort_by_perm.
  intros (b&->&[_ Hb]%list_elem_of_filter)%list_elem_of_fmap.
  apply list_elem_of_fmap. exists b. split; [done|].
  apply elem_of_take in Hb as (i&Hi&_). apply list_elem_of_lookup_2 in Hi.
  by rewrite elem_of_reverse, sort_by_perm in Hi.
Qed.
Lemma top_candidates_length s :
  (length (compute_top_candidates s) ≤ length (Storage.CandidatePool s))%nat.
Proof.
  unfold compute_top_candidates. rewrite sort_by_perm, length_fmap.
  etransitivity; [apply length_filter|]. rewrite length_take, length_reverse, sort_by_perm. lia.
Qed.
Lemma pool_candidate s c :
  staking_ok s → c ∈ owner <$> Storage.CandidatePool s → is_Some (Storage.CandidateInfo s !! c).
Proof.
  intros Hs Hin. destruct (ok_pool _ _ (so_core _ Hs)) as [Hset _ Htot]. specialize (Htot c). cbn in *.
  destruct (Storage.CandidateInfo s !! c) as [self|]; [done|]. cbn in Htot.
  by apply bond_map_None in Htot.
Qed.

(** The selection writes only snapshots, events and the selected collators. *)
Definition selecting_view (s : Storage.t) :=
  (core_of s, Storage.MinTotalNominatorStake s, Storage.Balances s, Storage.DelayedPayouts s,
   Storage.Era s).
(** Snapshots of [now] are only added, those of [l] among them. *)
Definition snapshotted now (l : list AccountId) s s' : Prop :=
  ∀ c, is_Some (snapshots now s !! c) ∨ c ∈ l → is_Some (snapshots now s' !! c).

Lemma snapshotted_insert now c x s :
  snapshotted now [c] s (Storage.upd_AtStake (insert2 now c x) s).
Proof.
  intros d Hd. unfold snapshots. cbn. rewrite snapshots_insert2, decide_True by done.
  destruct (decide (c = d)) as [->|Hne]; [by rewrite lookup_insert_eq|].
  rewrite lookup_insert_ne by done. destruct Hd as [Hd|Hd]; [done|set_solver].
Qed.
Lemma snapshotted_trans now l1 l2 s1 s2 s3 :
  snapshotted now l1 s1 s2 → snapshotted now l2 s2 s3 → snapshotted now (l1 ++ l2) s1 s3.
Proof. unfold snapshotted. set_solver. Qed.

Lemma snapshot_collator_spec now counts c s :
  staking_ok s → is_Some (Storage.CandidateInfo s !! c) →
  wp (snapshot_collator now counts c) s
    (λ _ s', selecting_view s' = selecting_view s ∧ snapshotted now [c] s s') (λ _ _, False).
Proof using Type*.
  intros Hs [self Hc]. destruct counts as [[n1 n2] t]. unfold snapshot_collator, get_rewardable_nominators.
  destruct (core_candidate _ _ (so_core _ Hs) c self Hc) as (top&_&Ht&_).
  wp_step. wp_step. wp_step. eapply wp_expect; [done|]. wp_go.
  eapply wp_expect; [exact Ht|]. wp_go. split; [done|].
  match goal with |- snapshotted _ _ _ (Storage.upd_events _ ?x) => change (snapshotted now [c] s x) end.
  apply snapshotted_insert.
Qed.
Lemma snapshot_all_spec now l counts s :
  staking_ok s → (∀ c, c ∈ l → is_Some (Storage.CandidateInfo s !! c)) →
  wp (fold_m (snapshot_collator now) counts l) s
    (λ _ s', selecting_view s' = selecting_view s ∧ snapshotted now l s s') (λ _ _, False).
Proof using Type*.
  revert counts s. induction l as [|c l IH]; intros counts s Hs Hl; cbn [fold_m].
  { wp_step. split; [done|]. intros d [?|?]; [done|set_solver]. }
  wp_step. eapply wp_mono; [apply snapshot_collator_spec; [done|apply Hl; set_solver]| |done].
  intros counts' s1 [Hv H1]. pose proof Hv as Hv'. injection Hv' as Hk1 Hk2 Hk3 Hk4 Hk5 Hk6 Hm Hb _ _.
  assert (staking_ok s1) as Hs1.
  { eapply staking_frame; [done| |done|]; [intros a; unfold free_of_chain; by rewrite Hb|].
    unfold core_of. congruence. }
  eapply wp_mono; [apply IH; [done|]| |done].
  { intros d Hd. rewrite Hk1. apply Hl. set_solver. }
  intros counts'' s2 [Hv2 H2]. split; [congruence|]. by eapply (snapshotted_trans _ [c] l).
Qed.

Lemma copy_snapshots_spec now (l : list (AccountId * CollatorSnapshot.t)) counts s :
  wp (fold_m (λ '(collator_count, nomination_count, total) '(account, snapshot),
        modify (Storage.upd_AtStake (insert2 now account snapshot));;
        mret (collator_count ⊕₃₂ 1,
              nomination_count ⊕₃₂ Z.of_nat (length (CollatorSnapshot.nominations snapshot)),
              total ⊕ CollatorSnapshot.total snapshot)) counts l : Dispatch _) s
    (λ _ s', selecting_view s' = selecting_view s ∧
             Storage.SelectedCandidates s' = Storage.SelectedCandidates s ∧
             snapshotted now l.*1 s s') (λ _ _, False).
Proof using Type*.
  revert counts s. induction l as [|[c x] l IH]; intros [[n1 n2] t] s; cbn [fold_m].
  { wp_step. split_and!; [done..|]. intros d [?|?]; [done|set_solver]. }
  wp_go. eapply wp_mono; [apply IH| |done]. intros ? s' (Hv&Hsel&Hs'). split_and!; [done..|].
  eapply (snapshotted_trans _ [c] _ _ _ _ (snapshotted_insert now c x s)). done.
Qed.
Lemma reselect_spec now s :
  (∀ c, c ∈ Storage.SelectedCandidates s → is_Some (snapshots (now ⊖ 1) s !! c)) →
  wp (reselect_previous now) s
    (λ _ s', selecting_view s' = selecting_view s ∧
       ∀ c, c ∈ Storage.SelectedCandidates s' → is_Some (snapshots now s' !! c)) (λ _ _, False).
Proof using Type*.
  intros Hsel. unfold reselect_previous. wp_step. wp_step. wp_step.
  eapply wp_mono; [apply copy_snapshots_spec| |done]. intros counts s1 (Hv&Hsel1&H1). wp_go.
  apply (wp_for_each _ _ (λ l s', (∀ c, c ∈ l → c ∈ Storage.SelectedCandidates s) ∧
    selecting_view s' = selecting_view s ∧
    Storage.SelectedCandidates s' = Storage.SelectedCandidates s ∧ snapshots now s' = snapshots now s1)).
  - split_and!; [by rewrite Hsel1|done..].
  - intros c l s2 (Hl&Hv2&Hsel2&Hsn). wp_go.
    destruct (iter_prefix_map (now ⊖ 1) (Storage.AtStake s) CollatorSnapshot.total c) as [t Ht].
    { apply Hsel, Hl. set_solver. }
    eapply wp_expect; [exact Ht|]. wp_go. split_and!; [set_solver|done..].
  - intros s2 (_&Hv2&Hsel2&Hsn). wp_step. split; [done|]. intros c. rewrite Hsel2, Hsn. intros Hc.
    apply H1. right. apply Hsel in Hc as [x Hx]. apply list_elem_of_fmap. exists (c, x).
    split; [done|]. by apply iter_prefix_elem.
Qed.
Lemma select_spec now s :
  staking_ok s →
  (∀ c, c ∈ Storage.SelectedCandidates s → is_Some (snapshots (now ⊖ 1) s !! c)) →
  wp (select_top_candidates now) s
    (λ _ s', selecting_view s' = selecting_view s ∧
       ∀ c, c ∈ Storage.SelectedCandidates s' → is_Some (snapshots now s' !! c)) (λ _ _, False).
Proof using Type*.
  intros Hs Hsel. unfold select_top_candidates. wp_step. wp_step.
  pose proof (top_candidates_length s) as Hlen.
  pose proof (po_len _ _ (ok_pool _ _ (so_core _ Hs))) as Hmax. cbn in Hmax.
  assert (∀ c, c ∈ compute_top_candidates s → is_Some (Storage.CandidateInfo s !! c)) as Hc.
  { intros c Hc. by apply pool_candidate, top_candidates_pool. }
  destruct (compute_top_candidates s) as [|c0 l]; [by apply reselect_spec|]. wp_step.
  eapply wp_mono; [by apply snapshot_all_spec| |done]. intros counts s1 [Hv H1].
  rewrite bool_decide_true by lia. wp_go. split; [done|]. intros c Hin. apply H1. by right.
Qed.
End Selection.

(** ** Growth *)

Section GrowthFrame.
Context `{Config}.

(** [m] ends normally and leaves [growth_view] alone. *)
Abbreviation quiet m := (∀ s, wp m s (λ _ s', growth_view s' = growth_view s) (λ _ _, False)).

Lemma quiet_bind {A B} (m : Dispatch A) (g : A → Dispatch B) :
  quiet m → (∀ a, quiet (g a)) → quiet (m ≫= g).
Proof.
  intros Hm Hg s. apply wp_bind. eapply wp_mono; [apply Hm| |done]. intros a s' Hs'.
  rewrite <-Hs'. apply Hg.
Qed.
Lemma quiet_for_each {A} (g : A → Dispatch unit) l : (∀ a, quiet (g a)) → quiet (for_each g l).
Proof.
  intros Hg. induction l as [|a l IH]; intros s; [done|]. revert s. by apply quiet_bind.
Qed.
Lemma quiet_trigger period info : quiet (try (trigger_growth_on_t1 period info);; mret ()).
Proof.
  intros s. wp_step. apply wp_try. unfold trigger_growth_on_t1, mutate_growth, put_growth. wp_go.
  destruct (BridgeInterface_publish _ _ _ _) as [[e|tx] bridge]; wp_go; done.
Qed.
Lemma quiet_outstanding period : quiet (trigger_outstanding_growths period).
Proof.
  intros s. unfold trigger_outstanding_growths. wp_go.
  generalize (get_untriggered_growths period s). intros l. revert s. apply quiet_for_each.
  intros p s. wp_go. destruct (Storage.Growth s !! p); wp_go; [|done].
  case_match; wp_go; [done|]. case_match; [|apply quiet_trigger].
  unfold mutate_growth, put_growth. wp_go. done.
Qed.
Lemma quiet_collator_payout era staked payout pts scores :
  quiet (update_collator_payout era staked payout pts scores).
Proof.
  intros s. unfold update_collator_payout, accumulate_payout_for_period, mutate_growth, put_growth.
  wp_go. case_match; wp_go; [|done].
  eapply wp_mono; [apply quiet_outstanding|by intros ? ? ->|done].
Qed.
End GrowthFrame.

(** ** Payouts *)

Section Payouts.
Context `{ConfigOk} `{!CurrencyLaws config_currency} `{!PerbillLaws config_perbill}.
Implicit Types (s : Storage.t).

(** A transfer keeps the issuance within bounds. *)
Lemma transfer_issuance from to amt cs cs' :
  transfer from to amt cs = Some cs' → issuance_ok (free_balance cs) → issuance_ok (free_balance cs').
Proof using Type*.
  intros Ht Hi l Hl. destruct (decide (from = to)) as [<-|Hne].
  { rewrite (sum_of_ext _ (free_balance cs)); [by apply Hi|]. intros a _.
    destruct (decide (a = from)) as [->|]; [by eapply transfer_self|by eapply transfer_other]. }
  set (rest := filter (λ a, a ≠ from ∧ a ≠ to) l).
  assert (NoDup (from :: to :: rest)) as Hnd.
  { repeat constructor; [|unfold rest; rewrite list_elem_of_filter; tauto|by apply NoDup_filter].
    unfold rest. rewrite elem_of_cons, list_elem_of_filter. tauto. }
  etransitivity; [apply (sum_of_submseteq _ _ (from :: to :: rest))|].
  - intros a. apply free_balance_range.
  - apply NoDup_submseteq; [done|]. intros a Ha. unfold rest.
    rewrite !elem_of_cons, list_elem_of_filter.
    destruct (decide (a = from)), (decide (a = to)); tauto.
  - specialize (Hi _ Hnd). rewrite !sum_of_cons in *.
    rewrite (transfer_from _ _ _ _ _ Ht Hne), (transfer_to _ _ _ _ _ Ht Hne).
    rewrite (sum_of_ext _ (free_balance cs)); [lia|]. unfold rest.
    intros a [[? ?] _]%list_elem_of_filter. by eapply transfer_other.
Qed.
(** A transfer out of the pot leaves everyone else no poorer. *)
Lemma transfer_free to amt cs cs' a :
  transfer RewardPotAccount to amt cs = Some cs' → 0 <= amt → a ≠ RewardPotAccount →
  free_balance cs a <= free_balance cs' a.
Proof using Type*.
  intros Ht Hamt Ha. destruct (decide (a = to)) as [->|Hto].
  - rewrite (transfer_to _ _ _ _ _ Ht); [lia|done].
  - by rewrite (transfer_other _ _ _ _ _ a Ht).
Qed.
Lemma transfer_ok to amt s cs' :
  staking_ok s → pot_idle s → 0 <= amt →
  transfer RewardPotAccount to amt (Storage.Balances s) = Some cs' →
  staking_ok (Storage.set_Balances cs' s).
Proof using Type*.
  intros [[? ? ? ? ? ? [Hc Hn]] Hi Hm] [Hpc Hpn] Hamt Ht. split; [|by eapply transfer_issuance|done].
  split; try done. split.
  - intros c self Hself. etransitivity; [by apply Hc|]. eapply transfer_free; [done..|].
    intros ->. cbn in *. congruence.
  - intros n st Hst. etransitivity; [by apply Hn|]. eapply transfer_free; [done..|].
    intros ->. cbn in *. congruence.
Qed.

(** What payouts leave alone, with the snapshots and without. *)
Definition hook_view (s : Storage.t) :=
  (core_of s, Storage.MinTotalNominatorStake s, Storage.SelectedCandidates s, Storage.Era s,
   Storage.DelayedPayouts s).
Definition paying_view (s : Storage.t) := (hook_view s, Storage.AtStake s).
Lemma hook_view_idle s s' : hook_view s' = hook_view s → pot_idle s → pot_idle s'.
Proof. intros [= Hc _ _ Hn _ _ _ _ _ _]. unfold pot_idle. by rewrite Hc, Hn. Qed.

Lemma pay_reward_spec amt to s :
  staking_ok s → pot_idle s → 0 <= amt →
  wp (pay_reward amt to) s (λ _ s', staking_ok s' ∧ paying_view s' = paying_view s) (λ _ _, False).
Proof using Type*.
  intros Hs Hp Ha. unfold pay_reward. wp_go.
  destruct (transfer _ _ _ _) as [cs'|] eqn:Ht; wp_go; (split; [|done]).
  - eapply (staking_frame (Storage.set_Balances cs' s)); [by eapply transfer_ok|done..].
  - by eapply staking_frame.
Qed.
Lemma pay_all_spec (l : list Bond.t) (g : Bond.t → Balance) s :
  staking_ok s → pot_idle s → (∀ b, 0 <= g b) →
  wp (for_each (λ b, if bool_decide (g b = 0) then mret () else pay_reward (g b) (owner b)) l) s
    (λ _ s', staking_ok s' ∧ paying_view s' = paying_view s) (λ _ _, False).
Proof using Type*.
  intros Hs Hp Hg. apply (wp_for_each _ _ (λ _ s', staking_ok s' ∧ paying_view s' = paying_view s));
    [done| |done].
  intros b l' s' [Hs' Hv]. destruct (bool_decide _); [by wp_step|].
  eapply wp_mono; [apply pay_reward_spec; [done| |done]| |done].
  - by apply (hook_view_idle _ _ (f_equal fst Hv)).
  - cbn. intros _ s2 [? ->]. done.
Qed.

Lemma pay_one_spec era payout s :
  staking_ok s → pot_idle s → 0 <= total_staking_reward payout →
  wp (pay_one_collator_reward era payout) s
    (λ _ s', staking_ok s' ∧ hook_view s' = hook_view s ∧
             ∀ e, e ≠ era → snapshots e s' = snapshots e s) (λ _ _, False).
Proof using Type*.
  intros Hs Hp Hr. unfold pay_one_collator_reward. wp_go. destruct (bool_decide _); wp_go; [done|].
  case_match; [by wp_go|]. destruct p as [c pts]. wp_go.
  set (s1 := Storage.upd_AtStake _ _). set (state := at_stake _ _ _).
  assert (staking_ok s1) as Hs1 by (by eapply staking_frame).
  assert (hook_view s1 = hook_view s) as Hv1 by done.
  assert (∀ e, e ≠ era → snapshots e s1 = snapshots e s) as Hsn.
  { intros e He. unfold snapshots, s1. cbn. by apply snapshots_delete2. }
  clearbody s1 state. set (total := share pts _ _).
  assert (0 <= total) as Htot by (by apply share_range).
  eapply wp_mono; [apply pay_reward_spec; [done|by eapply hook_view_idle|by apply share_range]| |done].
  cbn. intros _ s2 [Hs2 Hv2]. wp_step.
  pose proof (f_equal fst Hv2) as Hh2. pose proof (f_equal snd Hv2) as Ha2. cbn in Hh2, Ha2.
  eapply wp_mono; [apply pay_all_spec; [done|by eapply hook_view_idle; [rewrite Hh2|]|]| |done].
  { intros b. by apply share_range. }
  cbn. intros _ s3 [Hs3 Hv3]. wp_step.
  pose proof (f_equal fst Hv3) as Hh3. pose proof (f_equal snd Hv3) as Ha3. cbn in Hh3, Ha3.
  split_and!; [done|congruence|]. intros e He. rewrite <-Hsn by done. unfold snapshots. congruence.
Qed.

Definition payouts_ok s : Prop :=
  ∀ e p, Storage.DelayedPayouts s !! e = Some p → 0 <= total_staking_reward p.

Lemma total_reward_spec s :
  wp compute_total_reward_to_pay s
    (λ r s', 0 <= r ∧ growth_view s' = growth_view s) (λ _ _, False).
Proof using Type*.
  unfold compute_total_reward_to_pay. wp_go.
  apply (wp_mono _ _ (λ r s', 0 <= r ∧ growth_view s' = growth_view s) _ (λ _ _, False)); [|intros r s1 Hr|done].
  - destruct (checked_sub_u128 _ _) as [r|] eqn:Hc; wp_go; [|done].
    unfold checked_sub_u128 in Hc. case_match; simplify_eq; check_facts; split; [lia|done].
  - destruct (checked_add_u128 _ _); wp_go; [done|]. split; [unfold saturating_sub; lia|apply Hr].
Qed.
Lemma prepare_spec now s :
  payouts_ok s →
  wp (prepare_staking_payouts now) s
    (λ _ s', era_view s' = era_view s ∧ payouts_ok s') (λ _ _, False).
Proof using Type*.
  intros Hp. unfold prepare_staking_payouts. destruct (bool_decide _); wp_go; [done|].
  destruct (bool_decide _); wp_go; [done|].
  eapply wp_mono; [apply total_reward_spec| |done]. intros r s1 [Hr Hv]. wp_go.
  pose proof (f_equal fst Hv) as He. pose proof (f_equal snd Hv) as Hd. cbn in He, Hd.
  set (s2 := Storage.upd_DelayedPayouts _ s1).
  assert (era_view s2 = era_view s) as Hv2 by done.
  assert (payouts_ok s2) as Hp2.
  { intros e p. unfold s2. cbn. rewrite Hd, lookup_insert. case_decide; [|apply Hp].
    intros [= <-]. done. }
  destruct GrowthEnabled; wp_go; [|done].
  eapply wp_mono; [apply quiet_collator_payout| |done]. cbn. intros _ s3 Hv3.
  split; [etransitivity; [apply (f_equal fst Hv3)|done]|].
  unfold payouts_ok. by rewrite (f_equal snd Hv3 : Storage.DelayedPayouts s3 = _).
Qed.
Lemma delayed_payouts_spec s :
  1 <= RewardPaymentDelay → staking_ok s → era_ok s → pot_idle s →
  wp (handle_delayed_payouts (EraInfo.current (Storage.Era s))) s
    (λ _ s', staking_ok s' ∧ era_ok s' ∧ same_stakes s s') (λ _ _, False).
Proof using Type*.
  intros Hd Hs [Hcur Hsel Hpay] Hp. unfold handle_delayed_payouts. set (now := EraInfo.current _) in *.
  destruct (bool_decide (now < RewardPaymentDelay)) eqn:Hlt; check_facts; wp_go; [by split_and!|].
  rewrite sat_sub_small by lia.
  destruct (Storage.DelayedPayouts s !! (now - RewardPaymentDelay)) as [payout|] eqn:Hpo; wp_go;
    [|by split_and!].
  eapply wp_mono; [apply pay_one_spec; [done|done|by eapply Hpay]| |done]. cbn.
  intros r s1 (Hs1&Hv&Hsn). assert (same_stakes s s1) as Hsame.
  { split; [apply (f_equal (λ v, v.1.1.1.1) Hv)|apply (f_equal (λ v, v.1.1.1.2) Hv)]. }
  pose proof (f_equal (λ v, v.1.1.2) Hv) as Hsel1. pose proof (f_equal (λ v, v.1.2) Hv) as Hera1.
  pose proof (f_equal snd Hv) as Hpay1. cbn in Hsel1, Hera1, Hpay1.
  assert (era_ok s1) as He1.
  { split; rewrite ?Hera1, ?Hsel1, ?Hpay1; [done| |done]. intros c Hc.
    rewrite Hsn by (fold now; lia). by apply Hsel. }
  destruct (bool_decide (r = None)); wp_go; [|done]. split_and!; [by eapply staking_frame| |done].
  destruct He1 as [? ? Hpay']. split; [done|done|]. cbn. intros e p [_ ?]%lookup_delete_Some. by eapply Hpay'.
Qed.
Lemma new_era_spec n s :
  staking_ok s → era_ok s → EraInfo.current (Storage.Era s) < u32_max →
  wp (start_new_era n (Storage.Era s)) s
    (λ era s', era = EraInfo.update n (Storage.Era s) ∧ Storage.Era s' = era ∧
               Storage.Staked s' !! EraInfo.current era = Some (Storage.Total s') ∧
               staking_ok s' ∧ era_ok s' ∧ same_stakes s s') (λ _ _, False).
Proof using Type*.
  intros Hs [Hcur Hsel Hpay] Hmax. unfold start_new_era.
  set (era := EraInfo.update n (Storage.Era s)).
  assert (EraInfo.current era = EraInfo.current (Storage.Era s) + 1) as Hera.
  { unfold era. cbn. by rewrite sat_add_small by lia. }
  wp_step. apply (wp_mono _ _ (λ _ s1, era_view s1 = era_view s ∧ payouts_ok s1) _ (λ _ _, False));
    [|intros _ s1 [Hv Hp1]|done].
  { destruct is_staking_enabled; [by apply prepare_spec|by wp_step]. }
  pose proof (f_equal (λ v, v.1.1.1.1.1) Hv) as Hk. pose proof (f_equal (λ v, v.1.1.1.1.2) Hv) as Hm.
  pose proof (f_equal (λ v, v.1.1.1.2) Hv) as Hb. pose proof (f_equal (λ v, v.1.1.2) Hv) as Hsel1.
  pose proof (f_equal (λ v, v.1.2) Hv) as Hat. cbn in Hk, Hm, Hb, Hsel1, Hat. wp_step.
  assert (staking_ok s1) as Hs1.
  { eapply staking_frame; [exact Hs| |done|done]. intros a. unfold free_of_chain. by rewrite Hb. }
  eapply wp_mono; [apply select_spec; [done|]| |done].
  { intros c. rewrite Hsel1, Hera, sat_sub_small by lia. intros Hc. unfold snapshots. rewrite Hat.
    replace (EraInfo.current (Storage.Era s) + 1 - 1) with (EraInfo.current (Storage.Era s)) by lia.
    by apply Hsel. }
  intros [[cc nc] ts] s2 [Hv2 Hsel2]. wp_go.
  pose proof (f_equal (λ v, v.1.1.1.1) Hv2) as Hk2. pose proof (f_equal (λ v, v.1.1.1.2) Hv2) as Hm2.
  pose proof (f_equal (λ v, v.1.1.2) Hv2) as Hb2. pose proof (f_equal (λ v, v.1.2) Hv2) as Hp2.
  cbn in Hk2, Hm2, Hb2, Hp2. split_and!; [done|done|apply lookup_insert_eq| | |].
  - eapply staking_frame; [exact Hs1| |exact Hm2|exact Hk2]. intros a. unfold free_of_chain. cbn. by rewrite Hb2.
  - split; [change (1 <= EraInfo.current era); lia|exact Hsel2|]. cbn. rewrite Hp2. apply Hp1.
  - split; [transitivity (core_of s1); [exact Hk2|done]|cbn; congruence].
Qed.
Lemma on_initialize_spec n s :
  1 <= RewardPaymentDelay → staking_ok s → era_ok s → pot_idle s →
  EraInfo.current (Storage.Era s) < u32_max →
  wp (on_initialize n) s (λ _ s', staking_ok s' ∧ era_ok s' ∧ same_stakes s s') (λ _ _, False).
Proof using Type*.
  intros Hd Hs He Hp Hmax. unfold on_initialize. wp_go.
  apply (wp_mono _ _ (λ era s', Storage.Era s' = era ∧ staking_ok s' ∧ era_ok s' ∧ same_stakes s s')
    _ (λ _ _, False)); [| |done].
  { destruct (EraInfo.should_update n _); [|by wp_step].
    eapply wp_mono; [by apply new_era_spec|by intros era s' (->&?&_&?)|done]. }
  intros era s1 (<-&Hs1&He1&Hk1&Hm1). destruct is_staking_enabled; [|by wp_step].
  eapply wp_mono; [apply delayed_payouts_spec; try done|intros _ s2 (?&?&Hk2&Hm2)|done].
  - unfold pot_idle. by injection Hk1 as -> _ _ -> _ _.
  - split_and!; [done|done|split; congruence].
Qed.
Lemma end_session_spec n s :
  staking_ok s → era_ok s → EraInfo.current (Storage.Era s) < u32_max →
  wp (should_end_session n) s (λ _ s', staking_ok s' ∧ era_ok s' ∧ same_stakes s s') (λ _ _, False).
Proof using Type*.
  intros Hs He Hmax. unfold should_end_session. wp_go.
  destruct (EraInfo.should_update n _); wp_go; [by split_and!|].
  destruct (Storage.ForceNewEra s); wp_go; [|by split_and!].
  set (s1 := Storage.set_ForceNewEra false s).
  eapply wp_mono; [apply (new_era_spec n s1); [by eapply staking_frame|by destruct He|done]| |done].
  intros era s2 (_&_&_&?&?&?). by wp_step.
Qed.
Lemma note_author_spec a s :
  staking_ok s → era_ok s →
  wp (note_author a) s (λ _ s', staking_ok s' ∧ era_ok s' ∧ same_stakes s s') (λ _ _, False).
Proof using Type*.
  intros Hs He. unfold note_author. wp_go. split_and!; [by eapply staking_frame|by destruct He|done].
Qed.
End Payouts.
