(* ===== verification/StakingProps.v ===== *)
(** * Staking: safety of the pallet

    Calls and hooks keep the staking invariant and never panic, so it holds in
    every state a chain reaches; with examples on the concrete runtime. *)

From S2P Require Import Prelude Frames Slices Sets StakingConfig StakingTypes StakingState.
From S2P Require Import NominatorOps.
From S2P Require Import Examples CandidateOps Requests Calls SignedCalls RewardFrame Eras.
From S2P Require Import NominationLists BondSets CandidateInv.
From S2P Require Import StakingInv StakingCore InvCandidates InvDispatch InvHooks.

(** ** The steps of a chain *)

Section Chain.
Context `{ConfigOk} `{!CurrencyLaws config_currency} `{!PerbillLaws config_perbill}.
Implicit Types (s : Storage.t).

Record chain_ok s : Prop := {
  ch_staking : staking_ok s;
  ch_era : era_ok s;
  ch_pot : pot_idle s;
}.

(** What other pallets do to the chain: they write their own storage, and
    leave locked funds where they are. *)
Record elsewhere s s' : Prop := {
  el_storage : ∃ cs bridge block, s' = Storage.set_block_number block
    (Storage.set_Bridge bridge (Storage.set_Balances cs s));
  el_locked : covered (free_of_chain s') (Storage.CandidateInfo s) (Storage.NominatorState s);
  el_issuance : issuance_ok (free_of_chain s');
}.

(** A step: a call of anyone but the reward pot, the hooks of a block, the
    other pallets. *)
Inductive chain_step s : Storage.t → Prop :=
  | step_call origin call :
      call_in_range call → pot_idle (dispatch origin call s).2 →
      chain_step s (dispatch origin call s).2
  | step_initialize n :
      EraInfo.current (Storage.Era s) < u32_max → chain_step s (on_initialize n s).2
  | step_session n :
      EraInfo.current (Storage.Era s) < u32_max → chain_step s (should_end_session n s).2
  | step_author a : chain_step s (note_author a s).2
  | step_elsewhere s' : elsewhere s s' → chain_step s s'.

(** The states of a chain that starts without stakes. *)
Inductive reachable : Storage.t → Prop :=
  | reach_start cs bridge min :
      issuance_ok (free_balance cs) → MinNominationPerCollator <= min →
      reachable (Storage.set_MinTotalNominatorStake min (Storage.empty cs bridge))
  | reach_step s s' : reachable s → chain_step s s' → reachable s'.

(** ** The invariant at the start *)

Lemma empty_core f : core_ok f (Core ∅ ∅ ∅ ∅ ∅ []).
Proof.
  split; cbn; [done|done| | | |by left|done].
  - by intros c n.
  - intros c. change (reqs_of ∅ c) with (@nil ScheduledRequest.t). split; [constructor|cbn; lia|set_solver].
  - split; [constructor|cbn; lia|done].
Qed.
Lemma start_ok cs bridge min :
  issuance_ok (free_balance cs) → MinNominationPerCollator <= min →
  chain_ok (Storage.set_MinTotalNominatorStake min (Storage.empty cs bridge)).
Proof.
  intros Hi Hm. split; [split; [apply empty_core|done|done]|split; cbn; [lia|set_solver|done]|done].
Qed.

(** ** The invariant along steps *)

Lemma wp_outcome {A} (m : Dispatch A) s Q R :
  wp m s Q R →
  (m s).1 ≠ Panic ∧ (∀ a, (m s).1 = Ok a → Q a (m s).2) ∧ (∀ e, (m s).1 = Err e → R e (m s).2).
Proof. unfold wp. destruct (m s) as [[a|e|] s']; naive_solver. Qed.
Lemma dispatch_wp origin call s :
  staking_ok s → call_in_range call →
  wp (dispatch origin call) s (λ _ s', staking_ok s') (λ _ s', s' = s).
Proof using Type*.
  intros Hs Hc. apply wp_transactional. eapply wp_mono; [by apply dispatch_call_keeps|done|done].
Qed.
Lemma era_ok_view s s' : rewards_view s' = rewards_view s → era_ok s → era_ok s'.
Proof.
  intros [= Hc _ Hs Ha Hp _ _ _ _ _ _ _ _ _ _] [? Hsel ?].
  split; unfold snapshots in *; by rewrite ?Hc, ?Hs, ?Ha, ?Hp.
Qed.
Lemma call_step_ok origin call s :
  chain_ok s → call_in_range call → pot_idle (dispatch origin call s).2 →
  chain_ok (dispatch origin call s).2.
Proof using Type*.
  intros [Hs He Hp] Hc Hp'. destruct (wp_outcome _ _ _ _ (dispatch_wp origin call s Hs Hc)) as (Hn&Hok&Herr).
  split; [|eapply era_ok_view; [apply dispatch_apart|done]|done].
  destruct (dispatch origin call s).1; [by eapply Hok|by erewrite Herr|done].
Qed.
Lemma hook_step_ok {A} (m : Dispatch A) s :
  chain_ok s → wp m s (λ _ s', staking_ok s' ∧ era_ok s' ∧ same_stakes s s') (λ _ _, False) →
  chain_ok (m s).2.
Proof.
  intros [_ _ [Hc Hn]] Hm. unfold wp in Hm. destruct (m s) as [[a|e|] s']; [|done..].
  destruct Hm as (?&?&Hk&_). injection Hk as Hk1 _ _ Hk2 _ _. split; [done..|]. split; cbn; congruence.
Qed.
Lemma elsewhere_ok s s' : chain_ok s → elsewhere s s' → chain_ok s'.
Proof.
  intros [[[] Hi Hm] He Hp] [(cs&bridge&block&->) Hl Hi'].
  split; [split; [by split|done|done]|by destruct He|done].
Qed.
Lemma step_ok s s' : 1 <= RewardPaymentDelay → chain_ok s → chain_step s s' → chain_ok s'.
Proof using Type*.
  intros Hd Hs Hstep. pose proof Hs as [Hst He Hp].
  destruct Hstep; [by apply call_step_ok| | | |by eapply elsewhere_ok]; apply hook_step_ok; try done.
  - by apply on_initialize_spec.
  - by apply end_session_spec.
  - by apply note_author_spec.
Qed.
Lemma reachable_chain_ok s : 1 <= RewardPaymentDelay → reachable s → chain_ok s.
Proof using Type*.
  intros Hd. induction 1 as [cs bridge min Hi Hm|s s' _ IH Hstep]; [by apply start_ok|by eapply step_ok].
Qed.
End Chain.

(** ** A chain with stakes *)

Lemma rich_issuance accounts :
  Z.of_nat (length accounts) * 1000 <= u128_max → issuance_ok (free_of (rich accounts)).
Proof.
  intros Hmax l Hl.
  assert (∀ a, a ∉ accounts → free_of (rich accounts) a = 0) as Hout.
  { intros a Ha. unfold free_of, rich. cbn. rewrite not_elem_of_list_to_map_1; [done|].
    rewrite <-list_fmap_compose. cbn. by rewrite list_fmap_id. }
  assert (∀ a, free_of (rich accounts) a <= 1000) as Hle.
  { intros a. unfold free_of, rich. cbn. destruct (list_to_map _ !! a) as [v|] eqn:Hv; cbn; [|lia].
    apply elem_of_list_to_map_2, list_elem_of_fmap in Hv as (?&[= -> ->]&_). lia. }
  etransitivity; [|exact Hmax].
  transitivity (sum_of (λ a, if decide (a ∈ accounts) then 1000 else 0) l).
  { apply sum_of_le. intros a _. destruct (decide (a ∈ accounts)); [done|]. by rewrite Hout. }
  rewrite <-(sum_of_filter (λ _, 1000)). set (k := filter _ l).
  assert (length k ≤ length accounts)%nat.
  { apply submseteq_length, NoDup_submseteq; [by apply NoDup_filter|].
    by intros a [? _]%list_elem_of_filter. }
  assert (∀ k : list N, sum_of (λ _, 1000) k = Z.of_nat (length k) * 1000) as ->; [|lia].
  clear. induction k as [|x k IH]; [done|]. rewrite sum_of_cons, IH. cbn. lia.
Qed.

Definition ex_start : Storage.t :=
  Storage.set_MinTotalNominatorStake 5
    (empty_chain [1; 2; 3; 10; 11; 12; 13; 14; 15; 20; 999]%N).
(** Candidates 1 and 2 join; nominators 10 to 14 fill the lists of candidate 1,
    14 backs candidate 2 as well; 11 schedules a decrease, 12 a revocation. *)
Definition ex_calls : list (Origin * Call.t) :=
  [(Signed 1, Call.join_candidates 100 5); (Signed 2, Call.join_candidates 80 5);
   (Signed 10, Call.nominate 1 50 9 9); (Signed 11, Call.nominate 1 40 9 9);
   (Signed 12, Call.nominate 1 30 9 9); (Signed 13, Call.nominate 1 20 9 9);
   (Signed 14, Call.nominate 1 10 9 9); (Signed 14, Call.nominate 2 15 9 9);
   (Signed 11, Call.schedule_nominator_unbond 1 7); (Signed 12, Call.schedule_revoke_nomination 1)]%N.
Definition run_call (s : Storage.t) (oc : Origin * Call.t) : Storage.t := (dispatch oc.1 oc.2 s).2.
Definition ex_chain : Storage.t := foldl run_call ex_start ex_calls.

Lemma run_calls_reachable l s :
  reachable s → Forall (λ oc, call_in_range oc.2) l →
  (∀ i, pot_idle (foldl run_call s (take i l))) → reachable (foldl run_call s l).
Proof.
  revert s. induction l as [|oc l IH]; intros s Hs Hl Hp; [done|]. apply Forall_cons in Hl as [Hoc Hl].
  cbn. apply IH; [|done|intros i; apply (Hp (S i))].
  eapply reach_step; [done|]. apply step_call; [done|]. apply (Hp 1%nat).
Qed.
Lemma ex_chain_reachable : reachable ex_chain.
Proof.
  apply run_calls_reachable.
  - apply reach_start; [apply rich_issuance; vm_compute; congruence|cbn; lia].
  - unfold ex_calls. rewrite !Forall_cons. cbn. unfold u128_max. split_and!; try lia. by constructor.
  - intros i. do 11 (destruct i as [|i]; [split; by vm_compute|]). split; by vm_compute.
Qed.
Lemma ex_chain_ok : chain_ok ex_chain.
Proof. apply reachable_chain_ok; [cbn; lia|apply ex_chain_reachable]. Qed.

(** ** The properties *)

(** C1: a call of the pallet never panics.  Where it succeeds, the staking
    invariant still holds: the nominations of candidates and nominators agree,
    every candidate's metadata and the pool describe the lists, pending
    requests are backed and accounted for, no nomination is below the minimum
    and every stake is covered by the staker's balance.  Where it fails,
    storage is as before. *)
Theorem dispatch_safe `{ConfigOk} `{!CurrencyLaws config_currency} `{!PerbillLaws config_perbill}
    origin call s :
  staking_ok s → call_in_range call →
  match dispatch origin call s with
  | (Ok _, s') => staking_ok s'
  | (Err _, s') => s' = s
  | (Panic, _) => False
  end.
Proof.
  intros Hs Hc. pose proof (dispatch_wp origin call s Hs Hc) as Hd. unfold wp in Hd.
  by destruct (dispatch origin call s) as [[] ?].
Qed.
(** Nominator 15 pushes nominator 14 out of the bottom of candidate 1. *)
Lemma dispatch_safe_witness :
  ∃ s', dispatch (Signed 15) (Call.nominate 1 45 9 9) ex_chain = (Ok (), s') ∧ staking_ok s' ∧
    bond_map <$> (Nominations.nominations <$> Storage.BottomNominations s' !! 1%N) =
      Some {[12%N := 30; 13%N := 20]}.
Proof.
  assert (staking_ok ex_chain) as Hs by apply ex_chain_ok.
  assert (call_in_range (Call.nominate 1 45 9 9)) as Hc by (vm_compute; split; congruence).
  pose proof (dispatch_safe (Signed 15) (Call.nominate 1 45 9 9) ex_chain Hs Hc) as Hd.
  destruct (dispatch (Signed 15) (Call.nominate 1 45 9 9) ex_chain) as [o s'] eqn:He.
  assert (o = (dispatch (Signed 15) (Call.nominate 1 45 9 9) ex_chain).1) as Ho by (by rewrite He).
  assert (s' = (dispatch (Signed 15) (Call.nominate 1 45 9 9) ex_chain).2) as Hs' by (by rewrite He).
  assert (o = Ok ()) as -> by (rewrite Ho; by vm_compute).
  exists s'. split; [done|]. split; [done|]. rewrite Hs'. by vm_compute.
Defined.

(** C15: the hook at the start of a block ends normally, whatever the block: a
    new era finds every candidate of the pool and a snapshot for every collator
    selected before, payouts leave every stake covered, and no stake, list or
    request changes. *)
Theorem on_initialize_safe `{ConfigOk} `{!CurrencyLaws config_currency}
    `{!PerbillLaws config_perbill} n s :
  1 <= RewardPaymentDelay → staking_ok s → era_ok s → pot_idle s →
  EraInfo.current (Storage.Era s) < u32_max →
  ∃ s', on_initialize n s = (Ok (), s') ∧ staking_ok s' ∧ era_ok s' ∧ same_stakes s s'.
Proof.
  intros Hd Hs He Hp Hmax. pose proof (on_initialize_spec n s Hd Hs He Hp Hmax) as Hw. unfold wp in Hw.
  destruct (on_initialize n s) as [[[]|e|] s']; [by exists s'|done|done].
Qed.
Lemma on_initialize_witness :
  ∃ s', on_initialize 30 ex_chain = (Ok (), s') ∧ staking_ok s' ∧ era_ok s' ∧ same_stakes ex_chain s'.
Proof.
  destruct ex_chain_ok as [Hs He Hp].
  apply on_initialize_safe; [cbn; lia|done|done|done|by vm_compute].
Defined.



(** No call touches the reward bookkeeping, whatever its outcome: the era,
    the selected collators, snapshots, points, delayed payouts and growth
    periods are changed by the hooks alone. *)
Theorem dispatch_leaves_rewards `{Config} origin call s :
  rewards_view (dispatch origin call s).2 = rewards_view s.
Proof. apply dispatch_apart. Qed.
