(* ===== verification/EraProps.v ===== *)
(** * Eras: what the hooks compute

    The selection of collators, the snapshots rewards are computed from, the
    funds promised to payouts and the payouts themselves. *)

From S2P Require Import Prelude Frames Slices Sets StakingConfig StakingTypes StakingState.
From S2P Require Import NominatorOps.
From S2P Require Import Examples CandidateOps Requests Calls SignedCalls RewardFrame Eras.
From S2P Require Import NominationLists.
From S2P Require Import BondSets CandidateInv StakingInv StakingCore InvCandidates.
From S2P Require Import RequestFacts InvRequests InvHooks StakingProps.

(** ** Selection *)

Lemma StronglySorted_reverse {A} (R : relation A) (l : list A) :
  StronglySorted R l → StronglySorted (flip R) (reverse l).
Proof.
  induction 1 as [|x l Hl IH Hx]; [constructor|]. rewrite reverse_cons.
  apply StronglySorted_app_2; [|done|repeat constructor].
  intros y z Hy ->%list_elem_of_singleton. rewrite elem_of_reverse in Hy.
  rewrite Forall_forall in Hx. by apply Hx.
Qed.
Lemma cmp_amount_sorted l : StronglySorted (λ x y, amount y <= amount x) (reverse (sort_by cmp_amount l)).
Proof.
  eapply StronglySorted_impl; [|apply StronglySorted_reverse, sort_by_sorted].
  - unfold flip, cmp_amount. intros x y. rewrite Z.compare_gt_iff. lia.
  - unfold cmp_amount. intros x y. rewrite !Z.compare_gt_iff. lia.
  - unfold cmp_amount. intros x y z. rewrite !Z.compare_gt_iff. lia.
Qed.

Section Selection.
Context `{Config}.
Implicit Types (s : Storage.t) (b : Bond.t).

(** The pool by decreasing amounts, and its first [TotalSelected] entries. *)
Definition ranked s : list Bond.t := reverse (sort_by cmp_amount (Storage.CandidatePool s)).
Definition winners s : list Bond.t := take (Z.to_nat (Storage.TotalSelected s)) (ranked s).

Lemma ranked_perm s : ranked s ≡ₚ Storage.CandidatePool s.
Proof. unfold ranked. by rewrite reverse_Permutation, sort_by_perm. Qed.
Lemma winners_split s : ranked s = winners s ++ drop (Z.to_nat (Storage.TotalSelected s)) (ranked s).
Proof. unfold winners. by rewrite take_drop. Qed.
Lemma selected_winner s c :
  c ∈ compute_top_candidates s ↔
  ∃ b, owner b = c ∧ b ∈ winners s ∧ Storage.MinCollatorStake s <= amount b.
Proof.
  unfold compute_top_candidates. rewrite sort_by_perm, list_elem_of_fmap.
  setoid_rewrite list_elem_of_filter. split; intros (b&?&?&?); exists b; naive_solver.
Qed.
(** An entry that is not among the first is beaten by all of them. *)
Lemma loser_beaten s b :
  b ∈ Storage.CandidatePool s → b ∉ winners s →
  length (winners s) = Z.to_nat (Storage.TotalSelected s) ∧
  ∀ w, w ∈ winners s → amount b <= amount w.
Proof.
  intros Hb Hn. assert (b ∈ drop (Z.to_nat (Storage.TotalSelected s)) (ranked s)) as Hd.
  { assert (b ∈ ranked s) as Hr by (by rewrite ranked_perm). rewrite winners_split in Hr. set_solver. }
  split.
  - unfold winners. rewrite length_take. apply list_elem_of_lookup_1 in Hd as [i Hi].
    rewrite lookup_drop in Hi. apply lookup_lt_Some in Hi. lia.
  - intros w Hw. pose proof (cmp_amount_sorted (Storage.CandidatePool s)) as Hs. fold (ranked s) in Hs.
    rewrite winners_split in Hs. by eapply (StronglySorted_app_1_elem_of (λ x y, amount y <= amount x)) in Hs.
Qed.
Lemma winners_pool s b : b ∈ winners s → b ∈ Storage.CandidatePool s.
Proof. intros Hb. rewrite <-ranked_perm, winners_split. set_solver. Qed.
Lemma selected_perm s :
  compute_top_candidates s ≡ₚ
    owner <$> filter (λ b, Storage.MinCollatorStake s <= amount b) (winners s).
Proof. unfold compute_top_candidates. by rewrite sort_by_perm. Qed.
Lemma selected_NoDup s :
  NoDup (owner <$> Storage.CandidatePool s) → NoDup (compute_top_candidates s).
Proof.
  intros Hnd. rewrite selected_perm. eapply (sublist_NoDup _ (owner <$> ranked s)).
  - by rewrite ranked_perm.
  - apply fmap_sublist. etransitivity; [apply sublist_filter|]. apply sublist_take.
Qed.
Lemma selected_sorted s : StronglySorted N.le (compute_top_candidates s).
Proof.
  eapply StronglySorted_impl; [|apply sort_by_sorted].
  - by intros x y.
  - intros x y. rewrite !N.compare_gt_iff. lia.
  - intros x y z. rewrite !N.compare_gt_iff. lia.
Qed.
Lemma pool_unique s b b' :
  NoDup (owner <$> Storage.CandidatePool s) → b ∈ Storage.CandidatePool s →
  b' ∈ Storage.CandidatePool s → owner b = owner b' → b = b'.
Proof.
  intros Hnd Hb Hb' Ho. destruct b as [o a], b' as [o' a']. cbn in Ho. subst o'.
  apply (bond_map_lookup _ o a Hnd) in Hb. apply (bond_map_lookup _ o a' Hnd) in Hb'. congruence.
Qed.
End Selection.


(** ** Snapshots *)

(** The request of each nominator, by nominator. *)
Definition actions_of (l : list ScheduledRequest.t) : gmap AccountId NominationAction.t :=
  foldl (λ m req, <[ScheduledRequest.nominator req := ScheduledRequest.action req]> m) ∅ l.
Lemma actions_of_snoc l r :
  actions_of (l ++ [r]) = <[ScheduledRequest.nominator r := ScheduledRequest.action r]> (actions_of l).
Proof. unfold actions_of. by rewrite foldl_app. Qed.
Lemma actions_of_None l n : n ∉ ScheduledRequest.nominator <$> l → actions_of l !! n = None.
Proof.
  induction l as [|r l IH] using rev_ind; [done|]. rewrite actions_of_snoc, fmap_app. intros Hn.
  rewrite lookup_insert_ne by set_solver. apply IH. set_solver.
Qed.
Lemma actions_of_Some l r :
  NoDup (ScheduledRequest.nominator <$> l) → r ∈ l →
  actions_of l !! ScheduledRequest.nominator r = Some (ScheduledRequest.action r).
Proof.
  induction l as [|x l IH] using rev_ind; [set_solver|]. rewrite actions_of_snoc, fmap_app.
  intros (Hl&Hx&_)%NoDup_app [Hr| ->%list_elem_of_singleton]%elem_of_app; [|apply lookup_insert_eq].
  rewrite lookup_insert_ne; [by apply IH|]. intros He.
  apply (Hx (ScheduledRequest.nominator r)); [by apply list_elem_of_fmap_2|set_solver].
Qed.

(** A nomination is split into what stays and what its request takes. *)
Lemma rewardable_split l b :
  NoDup (ScheduledRequest.nominator <$> l) →
  (∀ r, r ∈ l → ScheduledRequest.nominator r = owner b →
    0 <= NominationAction.amount (ScheduledRequest.action r) <= amount b ∧
    ∀ a, ScheduledRequest.action r = NominationAction.Revoke a → a = amount b) →
  rewardable (actions_of l) b = Bond.mk (owner b) (amount b - asked (owner b) l) ∧
  uncounted (actions_of l) b = asked (owner b) l.
Proof.
  intros Hnd Hr. unfold rewardable, uncounted. destruct b as [n a]. cbn in *.
  destruct (position_of n l) as [i|] eqn:Hp.
  - apply position_of_Some in Hp as (r&_&Hin&Hn&_&->); [|done]. destruct (Hr r Hin Hn) as [Hle Hrev].
    pose proof (actions_of_Some _ _ Hnd Hin) as Hact. rewrite Hn in Hact. rewrite Hact.
    destruct (ScheduledRequest.action r) as [v|v]; cbn in *.
    + rewrite (Hrev v eq_refl). by rewrite Z.sub_diag.
    + by rewrite sat_sub_small by lia.
  - pose proof Hp as Hn%position_of_None. apply not_requested in Hp as [_ ->].
    rewrite (actions_of_None _ _ Hn). by rewrite Z.sub_0_r.
Qed.

Section Snapshots.
Context `{ConfigOk} `{!CurrencyLaws config_currency}.
Implicit Types (s : Storage.t) (c : AccountId).

(** What a top nomination counts for: its amount without the part that is
    asked back. *)
Definition counted s c (b : Bond.t) : Bond.t :=
  Bond.mk (owner b) (amount b - asked (owner b) (scheduled_requests c s)).

Lemma requests_within s c top bottom b :
  staking_ok s → Storage.TopNominations s !! c = Some top →
  Storage.BottomNominations s !! c = Some bottom → NoDup (owner <$> (noms top ++ noms bottom)) →
  b ∈ noms top →
  (∀ r, r ∈ scheduled_requests c s → ScheduledRequest.nominator r = owner b →
    0 <= NominationAction.amount (ScheduledRequest.action r) <= amount b ∧
    ∀ a, ScheduledRequest.action r = NominationAction.Revoke a → a = amount b) ∧
  0 <= asked (owner b) (scheduled_requests c s) <= amount b.
Proof using Type*.
  intros Hs Ht Hb Hnd Hin. pose proof (so_core _ Hs) as Hok. pose proof min_nomination_range.
  destruct (core_listed _ _ Hok c top bottom b Ht Hb Hnd) as (st&Hst&Hno&Hbm&Hpos&_); [set_solver|].
  split; [|by apply (asked_range _ _ (owner b) st c (amount b) Hok)].
  intros r Hr Hn. destruct (vo_backed _ _ _ (ok_reqs _ _ Hok c) r Hr) as (a&Ha&Hact).
  rewrite Hn in Ha. unfold nom_bonds in Ha. rewrite Hst in Ha. cbn in Ha. rewrite Hbm in Ha.
  injection Ha as <-. unfold action_ok in Hact.
  destruct (ScheduledRequest.action r); cbn in *; split; [lia|congruence|lia|congruence].
Qed.
Lemma rewardable_all s c top bottom :
  staking_ok s → Storage.TopNominations s !! c = Some top →
  Storage.BottomNominations s !! c = Some bottom → NoDup (owner <$> (noms top ++ noms bottom)) →
  rewardable (request_actions c s) <$> noms top = counted s c <$> noms top ∧
  sum_of (uncounted (request_actions c s)) (noms top) =
    sum_of (λ b, asked (owner b) (scheduled_requests c s)) (noms top).
Proof using Type*.
  intros Hs Ht Hb Hnd. change (request_actions c s) with (actions_of (scheduled_requests c s)).
  assert (∀ b, b ∈ noms top →
    rewardable (actions_of (scheduled_requests c s)) b = counted s c b ∧
    uncounted (actions_of (scheduled_requests c s)) b = asked (owner b) (scheduled_requests c s)) as Hall.
  { intros b Hin. apply rewardable_split; [apply (ok_reqs _ _ (so_core _ Hs))|].
    by eapply requests_within. }
  split; [|apply sum_of_ext; intros b Hin; by apply Hall].
  apply list_fmap_ext. intros i b Hi. apply Hall. by eapply list_elem_of_lookup_2.
Qed.
Lemma foldl_sat_sum (g : Bond.t → Balance) l acc :
  (∀ b, b ∈ l → 0 <= g b) → 0 <= acc → acc + sum_of g l <= u128_max →
  foldl (λ acc b, acc ⊕ g b) acc l = acc + sum_of g l.
Proof.
  revert acc. induction l as [|b l IH]; intros acc Hg Ha Hle; [cbn; rewrite sum_of_nil; lia|].
  rewrite sum_of_cons in *. cbn. assert (0 <= g b) by (apply Hg; set_solver).
  assert (0 <= sum_of g l) by (apply sum_of_nonneg; set_solver).
  rewrite sat_add_small by lia. rewrite IH; [lia|set_solver|lia|lia].
Qed.

Lemma at_stake_insert now c x s e :
  at_stake now c (Storage.upd_events e (Storage.upd_AtStake (insert2 now c x) s)) = x.
Proof.
  unfold at_stake. cbn. rewrite snapshots_insert2, decide_True by done. by rewrite lookup_insert_eq.
Qed.
Lemma counted_total s c self top bottom :
  staking_ok s → Storage.TopNominations s !! c = Some top →
  Storage.BottomNominations s !! c = Some bottom → meta_ok self top bottom →
  CandidateMetadata.total_counted self ⊖
    foldl (λ acc b, acc ⊕ uncounted (request_actions c s) b) 0 (noms top) =
  CandidateMetadata.bond self + sum_amounts (counted s c <$> noms top).
Proof using Type*.
  intros Hs Ht Hb Hm. pose proof (lo_owners _ _ (mo_lists _ _ _ Hm)) as Hnd.
  destruct (rewardable_all s c top bottom Hs Ht Hb Hnd) as [_ Hsum].
  assert (∀ b, b ∈ noms top → 0 <= asked (owner b) (scheduled_requests c s) <= amount b) as Hask.
  { intros b Hin. by eapply requests_within. }
  pose proof (mo_range _ _ _ Hm) as Hr. rewrite sum_amounts_app in Hr.
  rewrite (sum_amounts_sum_of (noms top)), (sum_amounts_sum_of (noms bottom)) in Hr.
  pose proof (mo_bond _ _ _ Hm). assert (0 <= sum_of amount (noms bottom)).
  { rewrite <-sum_amounts_sum_of. apply sum_amounts_nonneg. pose proof (lo_amounts _ _ (mo_lists _ _ _ Hm)) as Ha.
    apply Forall_app in Ha as [_ Ha]. eapply Forall_impl; [exact Ha|]. cbn. lia. }
  assert (sum_of (λ b, asked (owner b) (scheduled_requests c s)) (noms top) <= sum_of amount (noms top))
    by (apply sum_of_le; intros; by apply Hask).
  assert (0 <= sum_of (λ b, asked (owner b) (scheduled_requests c s)) (noms top))
    by (apply sum_of_nonneg; intros; by apply Hask).
  rewrite foldl_sat_sum; [|intros b Hin|lia|rewrite Hsum; lia].
  - rewrite Hsum, (mo_meta _ _ _ Hm). cbn. rewrite (mo_top_total _ _ _ Hm).
    rewrite (sum_amounts_sum_of (noms top)), (sum_amounts_sum_of (_ <$> _)), sum_of_fmap.
    rewrite sat_sub_small by lia. unfold counted, compose. cbn.
    assert (∀ l (g h : Bond.t → Z), sum_of (λ b, g b - h b) l = sum_of g l - sum_of h l) as ->; [|lia].
    intros l g h. induction l as [|b l IH]; [done|]. rewrite !sum_of_cons, IH. lia.
  - destruct (rewardable_split (scheduled_requests c s) b) as [_ Hu];
      [apply (ok_reqs _ _ (so_core _ Hs))|by eapply requests_within|].
    change (0 <= uncounted (actions_of (scheduled_requests c s)) b). rewrite Hu. by apply Hask.
Qed.
End Snapshots.

(** The snapshot rewards are computed from holds the collator's bond and its
    top nominations without what their nominators asked back, none of them
    negative, and its total is exactly their sum: the shares of a reward add up
    to the whole. *)
Theorem snapshot_correct `{ConfigOk} `{!CurrencyLaws config_currency} now counts c self top s :
  staking_ok s → Storage.CandidateInfo s !! c = Some self →
  Storage.TopNominations s !! c = Some top →
  ∃ counts' s', snapshot_collator now counts c s = (Ok counts', s') ∧
    at_stake now c s' =
      CollatorSnapshot.mk (CandidateMetadata.bond self) (counted s c <$> noms top)
        (CandidateMetadata.bond self + sum_amounts (counted s c <$> noms top)) ∧
    Forall (λ b, 0 <= amount b) (counted s c <$> noms top).
Proof.
  intros Hs Hc Ht. destruct counts as [[n1 n2] t].
  destruct (core_candidate _ _ (so_core _ Hs) c self Hc) as (top'&bottom&Ht'&Hb&Hm&_).
  cbn in Ht', Hb. rewrite Ht in Ht'. injection Ht' as <-.
  pose proof (lo_owners _ _ (mo_lists _ _ _ Hm)) as Hnd.
  destruct (rewardable_all s c top bottom Hs Ht Hb Hnd) as [Hrew _].
  unfold snapshot_collator, get_rewardable_nominators, mbind, M_bind, gets. rewrite Hc. m_red. rewrite Ht. m_red.
  eexists _, _. split; [reflexivity|]. unfold deposit_event. cbn [modify snd].
  rewrite at_stake_insert, Hrew, take_ge, (counted_total s c self top bottom) by
    (done || (rewrite length_fmap; pose proof (lo_top_cap _ _ (mo_lists _ _ _ Hm));
              pose proof max_top_bound; lia)).
  split; [done|]. apply Forall_fmap, Forall_forall. intros b Hin. cbn.
  destruct (requests_within s c top bottom b Hs Ht Hb Hnd Hin) as [_ ?]. lia.
Qed.
(** Of the nominations 50, 40 and 30, nominator 11 asked 7 back and 12 all. *)
Lemma snapshot_witness :
  ∃ counts' s', snapshot_collator 2 (0, 0, 0) 1 ex_chain = (Ok counts', s') ∧
    at_stake 2 1 s' =
      CollatorSnapshot.mk 100 [Bond.mk 10 50; Bond.mk 11 33; Bond.mk 12 0] 183.
Proof.
  destruct (snapshot_correct 2 (0, 0, 0) 1
    (default (CandidateMetadata.new 0) (Storage.CandidateInfo ex_chain !! 1%N))
    (default Nominations.default (Storage.TopNominations ex_chain !! 1%N)) ex_chain)
    as (counts'&s'&Hrun&Hsnap&_); [apply ex_chain_ok|by vm_compute|by vm_compute|].
  exists counts', s'. split; [exact Hrun|]. rewrite Hsnap. by vm_compute.
Defined.

(** ** Funding of payouts *)

Section Funding.
Context `{Config} `{!CurrencyLaws config_currency} `{!PerbillLaws config_perbill}.
Implicit Types (s : Storage.t).

(** What is promised to payouts is in the pot. *)
Record funded s : Prop := {
  fu_payouts : payouts_ok s;
  fu_locked : 0 <= Storage.LockedEraPayout s <= reward_pot s;
}.
Definition funding_view s :=
  (Storage.DelayedPayouts s, Storage.LockedEraPayout s, Storage.Balances s).
Lemma funded_view s s' : funding_view s' = funding_view s → funded s → funded s'.
Proof. intros [= Hd Hl Hb] [Hp Hf]. split; unfold payouts_ok, reward_pot in *; by rewrite ?Hd, ?Hl, ?Hb. Qed.

(** [m] keeps [I], whatever its outcome. *)
Definition preserves {A} (I : Storage.t → Prop) (m : Dispatch A) : Prop := ∀ s, I s → I (m s).2.
Lemma preserves_bind {A B} I (m : Dispatch A) (g : A → Dispatch B) :
  preserves I m → (∀ a, preserves I (g a)) → preserves I (m ≫= g).
Proof.
  intros Hm Hg s Hs. specialize (Hm s Hs). unfold mbind, M_bind.
  destruct (m s) as [[a|e|] s']; [by apply Hg|done..].
Qed.
Lemma preserves_for_each {A} I (g : A → Dispatch unit) l :
  (∀ a, preserves I (g a)) → preserves I (for_each g l).
Proof. intros Hg. induction l as [|a l IH]; [by intros s ?|]. by apply preserves_bind. Qed.
Lemma funded_leaves {A} (m : Dispatch A) : leaves funding_view m → preserves funded m.
Proof. intros Hm s Hs. by apply (funded_view s _ (Hm s)). Qed.

Lemma select_funding now : leaves funding_view (select_top_candidates now).
Proof.
  unfold select_top_candidates, reselect_previous, snapshot_collator, get_rewardable_nominators,
    deposit_event. leaves_tac.
Qed.
Lemma collator_payout_funding era staked payout pts scores :
  leaves funding_view (update_collator_payout era staked payout pts scores).
Proof.
  unfold update_collator_payout, accumulate_payout_for_period, trigger_outstanding_growths,
    trigger_growth_on_t1, mutate_growth, put_growth. leaves_tac.
Qed.
Lemma pay_reward_funded amt to : 0 <= amt → preserves funded (pay_reward amt to).
Proof using Type*.
  intros Ha s [Hp [Hl Hf]]. unfold pay_reward, mbind, M_bind, gets. m_red.
  destruct (transfer _ _ _ _) as [cs'|] eqn:Ht; cbn; [|by split].
  split; [done|]. cbn. unfold reward_pot in *. cbn.
  destruct (decide (to = RewardPotAccount)) as [->|Hne].
  - rewrite (transfer_self _ _ _ _ Ht). unfold saturating_sub in *. lia.
  - rewrite (transfer_from _ _ _ _ _ Ht) by done. unfold saturating_sub in *. lia.
Qed.
Lemma pay_one_funded era payout :
  0 <= total_staking_reward payout → preserves funded (pay_one_collator_reward era payout).
Proof using Type*.
  intros Hr. unfold pay_one_collator_reward.
  apply preserves_bind; [by intros s ?|intros tp]. destruct (bool_decide _); [by intros s ?|].
  apply preserves_bind; [by intros s ?|intros [|[c pts] l]]; [by intros s ?|].
  set (total := share pts _ _). assert (0 <= total) as Htot by (by apply share_range).
  apply preserves_bind; [apply funded_leaves; leaves_tac|intros _].
  apply preserves_bind; [by intros s ?|intros state].
  apply preserves_bind; [apply funded_leaves; leaves_tac|intros _].
  apply preserves_bind; [by apply pay_reward_funded, share_range|intros _].
  apply preserves_bind; [|by intros _ s ?]. apply preserves_for_each. intros b.
  destruct (bool_decide _); [by intros s ?|by apply pay_reward_funded, share_range].
Qed.
Lemma delayed_payouts_funded now : preserves funded (handle_delayed_payouts now).
Proof using Type*.
  intros s Hs. unfold handle_delayed_payouts. destruct (bool_decide _); [done|].
  unfold mbind at 1, M_bind, gets. destruct (Storage.DelayedPayouts s !! _) as [payout|] eqn:Hp; [|done].
  revert s Hs Hp. intros s Hs Hp. pose proof (fu_payouts _ Hs _ _ Hp) as Hr. revert s Hs Hp.
  cut (preserves funded (result ← pay_one_collator_reward (now ⊖ RewardPaymentDelay) payout;
    if bool_decide (result = None) then
      modify (Storage.upd_DelayedPayouts (delete (now ⊖ RewardPaymentDelay)));;
      modify (Storage.upd_Points (delete (now ⊖ RewardPaymentDelay)))
    else mret ())); [intros Hcut s Hs _; by apply Hcut|].
  apply preserves_bind; [by apply pay_one_funded|intros r]. destruct (bool_decide _); [|by intros s ?].
  intros s [Hp Hf]. split; [|done]. intros e p Hl. apply (Hp e).
  change (delete (now ⊖ RewardPaymentDelay) (Storage.DelayedPayouts s) !! e = Some p) in Hl.
  by apply lookup_delete_Some in Hl as [_ ?].
Qed.
(** The new promise is exactly what the pot holds beyond the old ones. *)
Lemma total_reward_run s :
  funded s →
  ∃ s', compute_total_reward_to_pay s = (Ok (reward_pot s - Storage.LockedEraPayout s), s') ∧
    Storage.LockedEraPayout s' = reward_pot s ∧ reward_pot s' = reward_pot s ∧
    Storage.DelayedPayouts s' = Storage.DelayedPayouts s.
Proof using Type*.
  intros [_ Hf]. assert (reward_pot s <= u128_max).
  { unfold reward_pot, saturating_sub. pose proof (free_balance_range (Storage.Balances s) RewardPotAccount).
    pose proof (minimum_balance_nonneg (C := config_currency)). lia. }
  unfold compute_total_reward_to_pay, mbind, M_bind, gets. m_red.
  unfold checked_sub_u128. rewrite bool_decide_true by lia. m_red.
  unfold checked_add_u128. rewrite bool_decide_true by lia. m_red.
  eexists. split; [reflexivity|]. split_and!; [cbn; lia|done|done].
Qed.
Lemma prepare_funded now : preserves funded (prepare_staking_payouts now).
Proof using Type*.
  unfold prepare_staking_payouts. destruct (bool_decide _); [by intros s ?|].
  apply preserves_bind; [by intros s ?|intros tp]. destruct (bool_decide _); [by intros s ?|].
  apply preserves_bind; [by intros s ?|intros staked].
  apply preserves_bind; [apply funded_leaves; leaves_tac|intros _].
  intros s Hs. destruct (total_reward_run s Hs) as (s1&Hrun&Hl&Hr&Hd).
  unfold mbind at 1, M_bind. rewrite Hrun. pose proof (fu_locked _ Hs).
  match goal with |- funded (?m s1).2 => cut (funded (Storage.upd_DelayedPayouts
    (insert (now ⊖ RewardPaymentDelay) (mk_DelayedPayout (reward_pot s - Storage.LockedEraPayout s))) s1)) end.
  - intros Hs2. unfold mbind at 1, M_bind. cbn [modify].
    match goal with |- funded (?m ?x).2 => revert Hs2; generalize x; change (preserves funded m) end.
    destruct GrowthEnabled; [|by intros ? ?]. apply preserves_bind; [by intros ? ?|intros awarded].
    apply funded_leaves, collator_payout_funding.
  - split; [|cbn; unfold reward_pot in *; cbn in *; lia]. intros e p. cbn. rewrite Hd, lookup_insert.
    case_decide; [intros [= <-]; cbn; lia|apply (fu_payouts _ Hs)].
Qed.
End Funding.

(** Era 2, in which collator 1 authors two blocks and collator 2 one, and the
    eras after it up to the first payout for it. *)
Definition ex_era2 : Storage.t :=
  (note_author 2 (note_author 1 (note_author 1
    (on_initialize 30 (Storage.set_TotalSelected 2 ex_chain)).2).2).2).2.
Definition ex_era3 : Storage.t := (on_initialize 60 ex_era2).2.
Definition ex_era4 : Storage.t := (on_initialize 90 ex_era3).2.

(** ** Payouts come to an end *)

Section Draining.
Context `{Config}.
Implicit Types (s : Storage.t).

Definition drain_view s := (Storage.DelayedPayouts s, Storage.Points s, Storage.AwardedPts s).
Lemma pay_reward_run amt to s :
  wp (pay_reward amt to) s (λ _ s', drain_view s' = drain_view s) (λ _ _, False).
Proof.
  unfold pay_reward. wp_go. destruct (transfer _ _ _ _); wp_go; done.
Qed.
Lemma pay_nominators_run (l : list Bond.t) (g : Bond.t → Balance) s :
  wp (for_each (λ b, if bool_decide (g b = 0) then mret () else pay_reward (g b) (owner b)) l) s
    (λ _ s', drain_view s' = drain_view s) (λ _ _, False).
Proof.
  apply (wp_for_each _ _ (λ _ s', drain_view s' = drain_view s)); [done| |done].
  intros b l' s' Hv. rewrite <-Hv. destruct (bool_decide _); [by wp_step|apply pay_reward_run].
Qed.

(** The entries of an era that wait for their payout. *)
Definition waiting (e : EraIndex) s : gmap AccountId RewardPoint :=
  unwrap_or ∅ (Storage.AwardedPts s !! e).

Lemma pay_one_run e payout s :
  points e s ≠ 0 →
  wp (pay_one_collator_reward e payout) s
    (λ r s', Storage.DelayedPayouts s' = Storage.DelayedPayouts s ∧
       Storage.Points s' = Storage.Points s ∧
       match r with
       | Some (c, _) => is_Some (waiting e s !! c) ∧ waiting e s' = delete c (waiting e s)
       | None => waiting e s = ∅ ∧ s' = s
       end) (λ _ _, False).
Proof.
  intros Hp. unfold pay_one_collator_reward. wp_go. rewrite bool_decide_false by done. wp_go.
  change (unwrap_or ∅ (Storage.AwardedPts s !! e)) with (waiting e s).
  destruct ((iter_prefix e ∘ Storage.AwardedPts) s) as [|[c pts] l] eqn:Hit; cbn in Hit; wp_go.
  { split_and!; [done..| |done]. apply map_to_list_empty_iff, Permutation_nil_r.
    rewrite <-Hit. symmetry. apply iter_prefix_perm. }
  eapply wp_mono; [apply pay_reward_run| |done]. cbn. intros _ s1 Hv1. wp_step.
  eapply wp_mono; [apply pay_nominators_run| |done]. cbn. intros _ s2 Hv2. wp_step.
  rewrite Hv1 in Hv2. injection Hv2 as Hd Hpt Ha. cbn in *. split_and!; [done|done| |].
  - exists pts. apply iter_prefix_elem. rewrite Hit. set_solver.
  - unfold waiting. rewrite Ha. unfold delete2. by rewrite lookup_insert_eq.
Qed.
Lemma handle_run now payout s :
  RewardPaymentDelay <= now → 0 <= RewardPaymentDelay → let e := now - RewardPaymentDelay in
  Storage.DelayedPayouts s !! e = Some payout → points e s ≠ 0 →
  wp (handle_delayed_payouts now) s
    (λ _ s', if decide (waiting e s = ∅)
             then Storage.DelayedPayouts s' !! e = None ∧ Storage.Points s' !! e = None
             else Storage.DelayedPayouts s' !! e = Some payout ∧ points e s' ≠ 0 ∧
                  size (waiting e s) = S (size (waiting e s'))) (λ _ _, False).
Proof.
  intros Hnow Hd e Hpay Hpt. unfold handle_delayed_payouts. rewrite bool_decide_false by lia. wp_go.
  rewrite sat_sub_small by lia. fold e. rewrite Hpay. wp_step.
  eapply wp_mono; [by apply pay_one_run| |done]. cbn. intros r s1 (Hd1&Hp1&Hr).
  destruct r as [[c total]|].
  - rewrite bool_decide_false by done. wp_go. destruct Hr as [Hin Hw]. rewrite decide_False; [|intros He; rewrite He, lookup_empty in Hin; by destruct Hin].
    split_and!; [by rewrite Hd1|by unfold points; rewrite Hp1|]. rewrite Hw, map_size_delete_Some by done.
    destruct (size (waiting e s)) eqn:Hsz; [|done]. apply map_size_empty_inv in Hsz.
    rewrite Hsz, lookup_empty in Hin. by destruct Hin.
  - destruct Hr as [He ->]. rewrite bool_decide_true by done. wp_go. rewrite decide_True by done. cbn. by rewrite !lookup_delete_eq.
Qed.
End Draining.

(** The payouts of an era end: each block pays one collator of the era that
    still waits, and one block after the last one the payout and the era's
    points are gone.  Every one of those hooks ends normally. *)
Theorem payouts_drain `{Config} now payout s (blocks : list BlockNumber) :
  0 <= RewardPaymentDelay <= now → let e := now - RewardPaymentDelay in
  Storage.DelayedPayouts s !! e = Some payout → points e s ≠ 0 →
  length blocks = S (size (waiting e s)) →
  ∃ s', for_each (λ _, handle_delayed_payouts now) blocks s = (Ok (), s') ∧
    Storage.DelayedPayouts s' !! e = None ∧ Storage.Points s' !! e = None.
Proof.
  intros Hnow e. revert s. induction blocks as [|b blocks IH]; intros s Hpay Hpt Hlen; [done|].
  pose proof (handle_run now payout s ltac:(lia) ltac:(lia) Hpay Hpt) as Hw. unfold wp in Hw. fold e in Hw.
  cbn [for_each]. unfold mbind, M_bind.
  destruct (handle_delayed_payouts now s) as [[[]|?|] s1]; [|done..]. cbn in Hlen.
  destruct (decide (waiting e s = ∅)) as [He|He].
  - rewrite He, map_size_empty in Hlen. destruct blocks; [|done]. by exists s1.
  - destruct Hw as (Hpay1&Hpt1&Hsz). apply IH; [done|done|lia].
Qed.
(** Collator 1 was paid in the first block of era 4; collator 2 still waits. *)
Lemma payouts_drain_witness :
  size (waiting 2 ex_era4) = 1%nat ∧
  ∃ s', for_each (λ _, handle_delayed_payouts 4) [91; 92] ex_era4 = (Ok (), s') ∧
    Storage.DelayedPayouts s' !! 2 = None ∧ Storage.Points s' !! 2 = None.
Proof.
  split; [by vm_compute|].
  apply (payouts_drain 4 (mk_DelayedPayout 999) ex_era4); [cbn; lia|by vm_compute..].
Defined.

(** A block that is due starts the next era: the era counts up, starts at
    the block and keeps its length, the total stake is recorded for it, and
    every selected collator has a snapshot of it; payouts do not move the era. *)
Theorem new_era_correct `{ConfigOk} `{!CurrencyLaws config_currency} `{!PerbillLaws config_perbill}
    n s :
  staking_ok s → era_ok s → EraInfo.current (Storage.Era s) < u32_max →
  ∃ s', start_new_era n (Storage.Era s) s = (Ok (Storage.Era s'), s') ∧
    Storage.Era s' = EraInfo.mk (EraInfo.current (Storage.Era s) + 1) n (EraInfo.length (Storage.Era s)) ∧
    Storage.Staked s' !! EraInfo.current (Storage.Era s') = Some (Storage.Total s') ∧
    (∀ c, c ∈ Storage.SelectedCandidates s' →
      is_Some (snapshots (EraInfo.current (Storage.Era s')) s' !! c)) ∧
    same_stakes s s'.
Proof.
  intros Hs He Hmax. pose proof (new_era_spec n s Hs He Hmax) as Hw. unfold wp in Hw.
  destruct (start_new_era n (Storage.Era s) s) as [[era|?|] s']; [|done..].
  destruct Hw as (->&Hera&Hst&_&He'&Hsame). exists s'. rewrite Hera at 1. split; [done|].
  split_and!; [|by rewrite Hera|apply He'|done].
  rewrite Hera. unfold EraInfo.update. by rewrite sat_add_small by lia.
Qed.
Lemma new_era_witness :
  ∃ s', start_new_era 30 (EraInfo.mk 1 1 20) ex_chain = (Ok (EraInfo.mk 2 30 20), s') ∧
    Storage.Staked s' !! 2 = Some 345.
Proof.
  destruct ex_chain_ok as [Hs He _].
  destruct (new_era_correct 30 ex_chain Hs He ltac:(by vm_compute)) as (s'&Hrun&Hera&Hst&_).
  assert (Storage.Era ex_chain = EraInfo.mk 1 1 20) as H0 by (by vm_compute).
  rewrite H0 in Hrun, Hera. cbn in Hera. rewrite Hera in Hrun, Hst. exists s'. split; [exact Hrun|].
  replace s' with (start_new_era 30 (EraInfo.mk 1 1 20) ex_chain).2 in * by (by rewrite Hrun).
  by vm_compute.
Defined.
