(* ===== verification/SignedProps.v ===== *)
(** * Signed calls: authentication, replay, exact amounts *)

From S2P Require Import Prelude Frames Slices Sets StakingConfig StakingTypes StakingState.
From S2P Require Import NominatorOps.
From S2P Require Import Examples CandidateOps Requests Calls SignedCalls RewardFrame NominationLists.
From S2P Require Import BondSets CandidateInv RequestFacts StakingInv StakingCore.
From S2P Require Import InvCandidates InvRequests InvNominate InvDispatch InvHooks StakingProps.

(** ** Authentication *)

(** The payload a call is checked against names the signer's nonce. *)
Lemma payload_nonce `{Config} call s s' proof payload :
  get_encoded_call_param call s = Some (proof, payload) →
  ∃ payload', get_encoded_call_param call s' = Some (proof, payload') ∧
    (payload = payload' → proxy_nonce (proof_signer proof) s = proxy_nonce (proof_signer proof) s').
Proof.
  destruct call; cbn; intros [= <- <-]; (eexists; split; [done|]); by intros [=].
Qed.
Lemma nonce_moves n : n +₆₄ 1 ≠ n.
Proof.
  unfold wrap_to. intros He. pose proof (Z.mod_pos_bound (n + 1) (u64_max + 1) ltac:(done)) as Hr.
  rewrite He in Hr. destruct (decide (n = u64_max)) as [->|].
  - revert He. by vm_compute.
  - rewrite Z.mod_small in He; lia.
Qed.
Lemma dispatch_ok_run `{Config} origin call s s' :
  dispatch origin call s = (Ok (), s') → dispatch_call origin call s = (Ok (), s').
Proof. apply transactional_Ok. Qed.

(** C35: a signed call succeeds only if the signer of its proof submitted it and
    the signature covers the call's arguments and the signer's nonce, exactly
    as the proxy pallet checks it ([signature_is_valid]); it counts the
    signer's nonce up and leaves every other nonce alone. *)
Theorem signed_call_authentic `{Config} origin call s s' proof payload :
  get_encoded_call_param call s = Some (proof, payload) →
  dispatch origin call s = (Ok (), s') →
  origin = Signed (proof_signer proof) ∧ signature_is_valid call s = true ∧
  ∀ a, proxy_nonce a s' =
    if decide (a = proof_signer proof) then proxy_nonce a s +₆₄ 1 else proxy_nonce a s.
Proof.
  intros Hp Hrun%dispatch_ok_run. destruct (signed_call_run _ _ _ _ _ _ Hp Hrun) as [Ho Hv _ Hn].
  split_and!; [done|unfold signature_is_valid; by rewrite Hp|].
  intros a. unfold proxy_nonce. rewrite Hn, lookup_insert. repeat case_decide; by subst.
Qed.

(** A signed call cannot be replayed: where a signature covers at most one
    payload, the call that succeeded fails in the state it led to. *)
Theorem signed_call_no_replay `{Config} origin origin' call s s' proof payload :
  (∀ p x y, verify_signature p x = true → verify_signature p y = true → x = y) →
  get_encoded_call_param call s = Some (proof, payload) →
  dispatch origin call s = (Ok (), s') →
  ∀ s'', dispatch origin' call s' ≠ (Ok (), s'').
Proof.
  intros Hsig Hp Hrun%dispatch_ok_run s'' Hrun'%dispatch_ok_run.
  destruct (payload_nonce call s s' proof payload Hp) as (payload'&Hp'&Hnonce).
  destruct (signed_call_run _ _ _ _ _ _ Hp Hrun) as [_ Hv _ Hn].
  destruct (signed_call_run _ _ _ _ _ _ Hp' Hrun') as [_ Hv' _ _].
  specialize (Hnonce (Hsig _ _ _ Hv Hv')). unfold proxy_nonce in Hnonce at 2.
  rewrite Hn, lookup_insert_eq in Hnonce. cbn in Hnonce. symmetry in Hnonce. by apply nonce_moves in Hnonce.
Qed.

(** Candidate 1 signs a bond increase of 5 for relayer 7. *)
Definition ex_signed (nonce : Z) : Call.t :=
  Call.signed_candidate_bond_extra
    (mk_ProofOf 1 7 (1%N, SIGNED_CANDIDATE_BOND_EXTRA_CONTEXT 7 5 nonce)) 5.
Lemma signed_call_witness :
  let s' := (dispatch (Signed 1) (ex_signed 0) ex_chain).2 in
  dispatch (Signed 1) (ex_signed 0) ex_chain = (Ok (), s') ∧
  signature_is_valid (ex_signed 0) ex_chain = true ∧ proxy_nonce 1 s' = 1.
Proof.
  assert (dispatch (Signed 1) (ex_signed 0) ex_chain =
    (Ok (), (dispatch (Signed 1) (ex_signed 0) ex_chain).2)) as Hrun.
  { assert ((dispatch (Signed 1) (ex_signed 0) ex_chain).1 = Ok ()) as Ho by (by vm_compute).
    rewrite <-Ho. by destruct (dispatch (Signed 1) (ex_signed 0) ex_chain). }
  destruct (signed_call_authentic (Signed 1) (ex_signed 0) ex_chain _
    (mk_ProofOf 1 7 (1%N, SIGNED_CANDIDATE_BOND_EXTRA_CONTEXT 7 5 0))
    (SIGNED_CANDIDATE_BOND_EXTRA_CONTEXT 7 5 0) ltac:(by vm_compute) Hrun) as (_&Hv&Hn).
  split; [exact Hrun|]. split; [exact Hv|]. rewrite (Hn 1%N). by vm_compute.
Defined.
Lemma small_signatures p x y :
  verify_signature p x = true → verify_signature p y = true → x = y.
Proof.
  cbn. intros Hx%bool_decide_eq_true Hy%bool_decide_eq_true. congruence.
Qed.
Lemma signed_replay_witness :
  (dispatch (Signed 1) (ex_signed 0) (dispatch (Signed 1) (ex_signed 0) ex_chain).2).1 ≠ Ok ().
Proof.
  set (s1 := (dispatch (Signed 1) (ex_signed 0) ex_chain).2). intros Ho'.
  eapply (signed_call_no_replay (Signed 1) (Signed 1) (ex_signed 0) ex_chain s1
    (mk_ProofOf 1 7 (1%N, SIGNED_CANDIDATE_BOND_EXTRA_CONTEXT 7 5 0))
    (SIGNED_CANDIDATE_BOND_EXTRA_CONTEXT 7 5 0) small_signatures); [by vm_compute| |].
  - assert ((dispatch (Signed 1) (ex_signed 0) ex_chain).1 = Ok ()) as Ho by (by vm_compute).
    unfold s1. rewrite <-Ho. by destruct (dispatch (Signed 1) (ex_signed 0) ex_chain).
  - rewrite <-Ho'. apply surjective_pairing.
Defined.

(** ** Withdrawing an amount from several collators *)

Section Unbond.
Context `{ConfigOk} `{!CurrencyLaws config_currency} `{!PerbillLaws config_perbill}.
Implicit Types (s : Storage.t) (p : StakeInfo.t).

Definition reserved_sum (l : list StakeInfo.t) : Balance := sum_of StakeInfo.reserved_amount l.
(** A payer can give what is reserved and what is free, within its bond. *)
Definition payer_ok p : Prop :=
  0 <= StakeInfo.reserved_amount p ∧ 0 <= StakeInfo.free_amount p ∧
  StakeInfo.reserved_amount p + StakeInfo.free_amount p <= u128_max.

(** What the payers give and what is outstanding make up the amount; a payer is
    a nomination, in the order of the nominations. *)
Lemma withdraw_loop_sum target l payers out :
  MinNominationPerCollator <= target → 0 <= out →
  Forall (λ b, MinNominationPerCollator <= amount b <= u128_max) l → Forall payer_ok payers →
  let r := withdraw_loop target l payers out in
  reserved_sum r.1 + r.2 = reserved_sum payers + out ∧ 0 <= r.2 ∧ Forall payer_ok r.1 ∧
  ∃ k, (StakeInfo.owner <$> r.1) = (StakeInfo.owner <$> payers) ++ (owner <$> k) ∧ k `sublist_of` l.
Proof.
  intros Ht. pose proof min_nomination_range. revert payers out.
  induction l as [|b l IH]; intros payers out Ho Hl Hp; cbn.
  { split_and!; [done..|]. exists []. by rewrite app_nil_r. }
  apply Forall_cons in Hl as [Hb Hl]. set (w := Z.min out (amount b ⊖ target)).
  assert (0 <= w <= out ∧ (w = 0 ∨ w <= amount b - target)) as [Hw Hcase].
  { unfold w, saturating_sub. lia. }
  rewrite (bool_decide_true (w <= amount b)) by lia.
  set (p := StakeInfo.new _ _ _). assert (payer_ok p) as Hpo.
  { unfold p, payer_ok. cbn. rewrite (wrap_small _ (w + _)), wrap_small by lia. lia. }
  assert (reserved_sum (payers ++ [p]) = reserved_sum payers + w) as Hsum.
  { unfold reserved_sum. rewrite sum_of_app, sum_of_cons, sum_of_nil. cbn. lia. }
  assert (Forall payer_ok (payers ++ [p])) as Hps by (apply Forall_app; split; [done|by constructor]).
  case_bool_decide as Hz.
  - cbn. rewrite Hsum. split_and!; [lia|lia|done|]. exists [b]. rewrite fmap_app.
    split; [done|apply sublist_skip, sublist_nil_l].
  - destruct (IH (payers ++ [p]) (out - w) ltac:(lia) Hl Hps) as (Hs&Hr&Hall&k&Hk&Hsub).
    split_and!; [rewrite Hs, Hsum; lia|done|done|]. exists (b :: k). rewrite Hk, fmap_app, <-app_assoc.
    split; [done|by apply sublist_skip].
Qed.
Lemma top_up_sum p out :
  0 <= out → payer_ok p →
  let r := top_up p out in
  StakeInfo.reserved_amount r.1 + r.2 = StakeInfo.reserved_amount p + out ∧ 0 <= r.2 ∧
  0 <= StakeInfo.reserved_amount r.1 ∧ StakeInfo.owner r.1 = StakeInfo.owner p.
Proof.
  intros Ho (Hr&Hf&Hm). unfold top_up. case_bool_decide; cbn; [done|]. rewrite wrap_small by lia. lia.
Qed.

(** The loop over the payers books exactly what they give. *)
Lemma unbond_loop_run n l out s s' out' st :
  0 <= out → Forall payer_ok l → NoDup (StakeInfo.owner <$> l) →
  Storage.NominatorState s !! n = Some st → 0 <= Nominator.less_total st <= Nominator.total st →
  Nominator.total st <= u128_max → 0 <= Storage.MinTotalNominatorStake s →
  Forall (λ p, length (scheduled_requests (StakeInfo.owner p) s) < MaxNominationsPerNominator)%nat l →
  fold_m (λ out stake,
    let '(stake, out) := top_up stake out in
    nomination_schedule_bond_decrease (StakeInfo.owner stake) n (StakeInfo.reserved_amount stake);;
    mret out) out l s = (Ok out', s') →
  ∃ st', Storage.NominatorState s' !! n = Some st' ∧
    Nominator.less_total st' + out' = Nominator.less_total st + reserved_sum l + out ∧
    Nominator.total st' = Nominator.total st ∧ Nominator.nominations st' = Nominator.nominations st.
Proof.
  revert out s st. induction l as [|p l IH]; intros out s st Ho Hl Hnd Hst Hless Hmax Hmin Hroom Hrun.
  { injection Hrun as <- <-. exists st. unfold reserved_sum. rewrite sum_of_nil. split_and!; [done|lia|done..]. }
  apply Forall_cons in Hl as [Hp Hl]. apply Forall_cons in Hroom as [Hr Hroom].
  apply NoDup_cons in Hnd as [Hni Hnd]. destruct (top_up_sum p out Ho Hp) as (Hsum&Ho1&Hr1&Hown).
  cbn [fold_m] in Hrun. destruct (top_up p out) as [p1 out1]. cbn in Hsum, Ho1, Hr1, Hown.
  apply bind_Ok in Hrun as (out2&s1&Hstep&Hrest). apply bind_Ok in Hstep as ([]&s1'&Hdec&[= <- <-]).
  apply schedule_decrease_run in Hdec as (st0&b&Hst0&_&_&Hlt&_&Hle&->). rewrite Hst in Hst0.
  injection Hst0 as <-. rewrite Hown in *. rewrite bool_decide_true in Hrest by done.
  set (s1 := with_request _ _ _ _ _ _) in Hrest.
  set (st1 := Nominator.set_less_total (Nominator.less_total st ⊕ StakeInfo.reserved_amount p1) st).
  assert (Nominator.less_total st + StakeInfo.reserved_amount p1 <= Nominator.total st).
  { unfold saturating_sub in Hle. lia. }
  destruct (IH out1 s1 st1) as (st'&Hst'&Hless'&Htot'&Hnom'); try done.
  - cbn. apply lookup_insert_eq.
  - cbn. rewrite sat_add_small by lia. lia.
  - apply Forall_forall. intros q Hq. rewrite Forall_forall in Hroom.
    unfold s1, with_request, scheduled_requests. cbn. rewrite lookup_insert_ne; [by apply Hroom|].
    intros He. apply Hni. rewrite He. by apply list_elem_of_fmap_2.
  - exists st'. split_and!; [done| |done|done]. unfold reserved_sum in *. rewrite sum_of_cons.
    cbn in Hless'. rewrite sat_add_small in Hless' by lia. lia.
Qed.

Lemma less_total_range n st s :
  staking_ok s → Storage.NominatorState s !! n = Some st →
  0 <= Nominator.less_total st <= Nominator.total st.
Proof using Type*.
  intros Hs Hst. pose proof (ok_noms _ _ (so_core _ Hs) n st Hst) as Hno.
  destruct (Nominator.nominations st) as [|b l] eqn:Hl; [by destruct (no_nonempty _ _ _ Hno)|].
  assert (bond_map (Nominator.nominations st) !! owner b = Some (amount b)) as Hb.
  { apply bond_map_lookup; [by apply set_ok_owners, Hno|]. rewrite Hl. destruct b. set_solver. }
  pose proof (less_range _ _ n st _ _ (so_core _ Hs) Hst Hb) as Hr. cbn in Hr.
  pose proof (asked_range _ _ n st _ _ (so_core _ Hs) Hst Hb) as Ha. cbn in Ha. lia.
Qed.
Lemma check_signer_run who proof pl e s s' :
  check_signer who proof pl e s = (Ok (), s') → s' = s.
Proof. unfold check_signer. intros Hrun. by m_inv. Qed.
(** The plan: payers that give the amount, out of distinct nominations. *)
Lemma identify_run n less st s s' r :
  staking_ok s → 0 <= less → Storage.NominatorState s !! n = Some st →
  identify_collators_to_withdraw_from n less s = (Ok r, s') →
  s' = s ∧ reserved_sum r.1 + r.2 = less ∧ 0 <= r.2 ∧ Forall payer_ok r.1 ∧
  NoDup (StakeInfo.owner <$> r.1) ∧
  ∀ p, p ∈ r.1 → StakeInfo.owner p ∈ owner <$> Nominator.nominations st.
Proof using Type*.
  intros Hs Hless Hst Hrun. unfold identify_collators_to_withdraw_from, get_nominator in Hrun. m_inv.
  check_facts. rename select (_ !! n = Some _) into Hst'. rewrite Hst in Hst'. injection Hst' as <-.
  subst r. pose proof (ok_noms _ _ (so_core _ Hs) n st Hst) as Hno.
  pose proof (total_range s n st Hs Hst) as Htot.
  assert (Forall (λ b, MinNominationPerCollator <= amount b <= u128_max) (Nominator.nominations st)) as Hall.
  { apply Forall_forall. intros b Hb. pose proof (no_amounts _ _ _ Hno) as Hmin.
    pose proof (no_positive _ _ _ Hno) as Hpos. rewrite Forall_forall in Hmin, Hpos. split; [by apply Hmin|].
    transitivity (sum_of amount (Nominator.nominations st)).
    - apply sum_of_elem; [|done]. intros x Hx. specialize (Hpos x Hx). lia.
    - rewrite <-sum_amounts_sum_of, <-(no_total _ _ _ Hno). lia. }
  match goal with Ht : MinNominationPerCollator <= ?t |- _ =>
    destruct (withdraw_loop_sum t (Nominator.nominations st) [] less Ht Hless Hall (Forall_nil_2 _))
      as (Hsum&Ho&Hp&k&Hk&Hsub) end.
  split_and!; [done|done|done|done| |].
  - rewrite Hk. cbn. eapply sublist_NoDup; [|by apply fmap_sublist]. by apply set_ok_owners, Hno.
  - intros p Hp'. eapply list_elem_of_fmap_2 in Hp'. rewrite Hk in Hp'. cbn in Hp'.
    eapply elem_of_sublist; [|by apply fmap_sublist]. done.
Qed.
End Unbond.

(** A signed withdrawal of an amount from all nominations books exactly that
    amount: when the call succeeds and the nominated collators had room for the
    requests, what the nominator has pending grows by the amount, split into
    decreases of nominations; nothing is unbonded yet. *)
Theorem signed_unbond_exact `{ConfigOk} `{!CurrencyLaws config_currency}
    `{!PerbillLaws config_perbill} n proof less st s s' :
  staking_ok s → 0 <= less → Storage.NominatorState s !! n = Some st →
  Forall (λ b, length (scheduled_requests (owner b) s) < MaxNominationsPerNominator)%nat
    (Nominator.nominations st) →
  dispatch (Signed n) (Call.signed_schedule_nominator_unbond proof less) s = (Ok (), s') →
  ∃ st', Storage.NominatorState s' !! n = Some st' ∧
    Nominator.less_total st' = Nominator.less_total st + less ∧
    Nominator.total st' = Nominator.total st ∧ Nominator.nominations st' = Nominator.nominations st.
Proof.
  intros Hs Hless Hst Hroom Hrun%dispatch_ok_run. cbn [dispatch_call] in Hrun.
  unfold signed_schedule_nominator_unbond, ensure_signed in Hrun. apply (proj1 (transactional_Ok _ _ _ _)) in Hrun.
  apply bind_Ok in Hrun as (?&?&[= <- <-]&Hrun). apply bind_Ok in Hrun as ([]&s0&->%check_signer_run&Hrun).
  apply bind_Ok in Hrun as (r&s1&Hid&Hrun). pose proof min_nomination_range. pose proof (so_min _ Hs).
  destruct (identify_run n less st s s1 r Hs Hless Hst Hid) as (->&Hsum&Ho&Hp&Hnd&Hsub).
  destruct r as [payers out]. cbn in *. apply bind_Ok in Hrun as (out'&s2&Hloop&Hrun).
  apply bind_Ok in Hrun as ([]&s3&[Hz ->]%ensure_Ok&Hrun). apply modify_Ok in Hrun as ->. check_facts. subst out'.
  destruct (unbond_loop_run n payers out s s2 0 st Ho Hp Hnd Hst) as (st'&Hst'&Hl&Ht&Hn); try done.
  - by eapply less_total_range.
  - by apply (total_range s n).
  - lia.
  - apply Forall_forall. intros p Hin. apply Hsub, list_elem_of_fmap in Hin as (b&->&Hb).
    rewrite Forall_forall in Hroom. by apply Hroom.
  - exists st'. split_and!; [done|lia|done|done].
Qed.
(** Nominator 14 withdraws 9 of its 25, backing candidates 1 and 2. *)
Lemma signed_unbond_witness :
  let call := Call.signed_schedule_nominator_unbond
    (mk_ProofOf 14 7 (14%N, SIGNED_SCHEDULE_NOMINATOR_UNBOND_CONTEXT 7 9 0)) 9 in
  ∃ st', Storage.NominatorState (dispatch (Signed 14) call ex_chain).2 !! 14%N = Some st' ∧
    Nominator.less_total st' = 9 ∧ Nominator.total st' = 25.
Proof.
  intros call. assert (dispatch (Signed 14) call ex_chain =
    (Ok (), (dispatch (Signed 14) call ex_chain).2)) as Hrun.
  { assert ((dispatch (Signed 14) call ex_chain).1 = Ok ()) as Ho by (by vm_compute).
    rewrite <-Ho. by destruct (dispatch (Signed 14) call ex_chain). }
  destruct (signed_unbond_exact 14 _ 9 (Nominator.mk 14 [Bond.mk 1 10; Bond.mk 2 15] 25 0) ex_chain _
    (ch_staking _ ex_chain_ok) ltac:(lia) ltac:(by vm_compute)
    ltac:(apply (bool_decide_unpack _); by vm_compute) Hrun) as (st'&Hst&Hl&Ht&_).
  exists st'. split; [exact Hst|]. split; [exact Hl|exact Ht].
Defined.

(** ** Splitting an amount over collators *)

Section Split.
Context `{ConfigOk} `{!CurrencyLaws config_currency} `{!PerbillLaws config_perbill}.
Implicit Types (s : Storage.t).

Definition staked_by (n : AccountId) s : Balance :=
  from_option Nominator.total 0 (Storage.NominatorState s !! n).

Lemma nominate_state_run n c a cnt s s' st :
  nominate_state n c a cnt s = (Ok st, s') → s' = s ∧ Nominator.total st = staked_by n s ⊕ a ∨
  s' = s ∧ Storage.NominatorState s !! n = None ∧ Nominator.total st = a.
Proof.
  unfold nominate_state, staked_by. intros Hrun. apply bind_Ok in Hrun as (o&?&[-> ->]%gets_Ok&Hrun).
  destruct (Storage.NominatorState s !! n) as [st0|]; m_inv; subst; [left|by right].
  split; [done|]. rename select (Nominator.add_nomination _ _ = Some _) into Hadd.
  unfold Nominator.add_nomination in Hadd.
  destruct (BoundedOrderedSet.try_insert _ _ _) as [[[]|] l]; simplify_eq/=; done.
Qed.
Lemma call_nominate_run n c a cnt1 cnt2 s s' :
  staking_ok s → 0 <= a → call_nominate n c a cnt1 cnt2 s = (Ok (), s') →
  staking_ok s' ∧ staked_by n s' = staked_by n s + a ∧
  Storage.block_number s' = Storage.block_number s.
Proof using Type*.
  intros Hs Ha Hrun. split_and!.
  - pose proof (call_nominate_keeps n c a cnt1 cnt2 Ha s Hs) as Hw. unfold wp in Hw. by rewrite Hrun in Hw.
  - revert Hrun. unfold call_nominate. intros Hrun. apply bind_Ok in Hrun as (free&?&[-> ->]%gets_Ok&Hrun).
    apply bind_Ok in Hrun as ([]&?&[Hfree ->]%ensure_Ok&Hrun). check_facts.
    apply stakable_free in Hfree; [|done..]. pose proof (free_balance_range (Storage.Balances s) n).
    apply bind_Ok in Hrun as (st&s1&Hst&Hrun). unfold put_nominator, deposit_event in Hrun.
    assert (Nominator.total st = staked_by n s + a) as Htot.
    { apply nominate_state_run in Hst as [[_ ->]|(_&Hn&->)]; unfold staked_by in *; unfold free_of_chain in *.
      - destruct (Storage.NominatorState s !! n); cbn; by rewrite sat_add_small by lia.
      - by rewrite Hn. }
    apply bind_Ok in Hrun as (self&?&_&Hrun). apply bind_Ok in Hrun as ([]&?&_&Hrun).
    apply bind_Ok in Hrun as ([[pos less] self']&?&_&Hrun). cbv zeta in Hrun. m_inv.
    unfold staked_by at 1. cbn. by rewrite lookup_insert_eq.
  - pose proof (call_nominate_apart n c a cnt1 cnt2 s) as Hv. rewrite Hrun in Hv. by injection Hv.
Qed.

(** What is left of [a] before collator [k], collator [d] getting the dust. *)
Definition left_before (a per dust d k : Z) : Z :=
  Z.max 0 (a - k * per - (if bool_decide (d < k) then dust else 0)).
Lemma left_before_next a per dust count k s :
  0 <= per → 0 <= dust → per + dust <= u128_max → 0 < count →
  let d := Storage.block_number s mod count in
  left_before a per dust d k -
    actual_amount per dust count k (left_before a per dust d k) s = left_before a per dust d (k + 1).
Proof.
  intros Hp Hd Hmax Hc d. unfold actual_amount, collator_should_get_dust. fold d.
  destruct (bool_decide (dust = 0)) eqn:Hz; check_facts.
  - unfold left_before. rewrite Hz. destruct (bool_decide (d < k)), (bool_decide (d < k + 1)); lia.
  - destruct (bool_decide (k = d)) eqn:Hk; check_facts.
    + rewrite wrap_small by lia. unfold left_before.
      rewrite (bool_decide_false (d < k)), (bool_decide_true (d < k + 1)) by lia. lia.
    + unfold left_before. destruct (bool_decide (d < k)) eqn:H1, (bool_decide (d < k + 1)) eqn:H2;
        check_facts; lia.
Qed.
Lemma left_before_end a per count d :
  0 <= per → 0 <= a → 0 <= d < count →
  left_before a per (a ⊖ per * count) d count = 0.
Proof.
  intros. unfold left_before, saturating_sub. rewrite bool_decide_true by lia. lia.
Qed.

Lemma split_loop n per dust count a (ts : list LookupSource) k cnt s r s' :
  0 <= per → 0 <= dust → per + dust <= u128_max → 0 < count → 0 <= a → staking_ok s →
  let d := Storage.block_number s mod count in
  fold_m (λ '(remaining, nomination_count) '(index, target),
    collator ← Prelude.ok_or (Lookup_lookup target) CannotLookup;
    collator_state ← get_candidate collator;
    actual_amount ← gets (actual_amount per dust count (Z.of_nat index) remaining);
    call_nominate n collator actual_amount
      (CandidateMetadata.nomination_count collator_state) nomination_count;;
    mret (remaining - actual_amount, nomination_count +₃₂ 1))
    (left_before a per dust d (Z.of_nat k), cnt) (zip (seq k (length ts)) ts) s = (Ok r, s') →
  r.1 = left_before a per dust d (Z.of_nat (k + length ts)) ∧
  staked_by n s' + r.1 = staked_by n s + left_before a per dust d (Z.of_nat k).
Proof using Type*.
  intros Hp Hd Hmax Hc Ha Hs d. revert k cnt s r s' Hs d.
  induction ts as [|t ts IH]; intros k cnt s r s' Hs d Hrun.
  { injection Hrun as <- <-. cbn. rewrite Nat.add_0_r. done. }
  cbn [length seq zip zip_with fold_m] in Hrun. apply bind_Ok in Hrun as (r1&s1&Hstep&Hrun).
  apply bind_Ok in Hstep as (c&?&[_ ->]%ok_or_Ok&Hstep). unfold get_candidate in Hstep.
  apply bind_Ok in Hstep as (self&?&Hget&Hstep).
  apply bind_Ok in Hget as (?&?&[-> ->]%gets_Ok&[_ ->]%ok_or_Ok).
  apply bind_Ok in Hstep as (x&?&[Hx ->]%gets_Ok&Hstep).
  apply bind_Ok in Hstep as ([]&s2&Hnom&[<- ->]%ret_Ok).
  assert (0 <= x) as Hx0 by (rewrite Hx; apply actual_amount_range; [done|unfold left_before; lia]).
  apply call_nominate_run in Hnom as (Hs1&Htot&Hb); [|done..].
  pose proof (left_before_next a per dust count (Z.of_nat k) s Hp Hd Hmax Hc) as Hnext.
  cbv zeta in Hnext. fold d in Hnext. rewrite <-Hx in Hnext.
  replace (Z.of_nat k + 1) with (Z.of_nat (S k)) in Hnext by lia. rewrite Hnext in Hrun.
  unfold d in Hrun. rewrite <-Hb in Hrun. apply IH in Hrun as [Hr Hsum]; [|done].
  rewrite Hb in Hr, Hsum. fold d in Hr, Hsum. split; [rewrite Hr; f_equal; cbn; lia|lia].
Qed.
End Split.

(** A signed nomination of an amount over several collators stakes exactly
    that amount: rounding and the dust included, the nominator's total grows by
    it. *)
Theorem signed_nominate_exact `{ConfigOk} `{!CurrencyLaws config_currency}
    `{!PerbillLaws config_perbill} n proof targets a s s' :
  staking_ok s → 0 <= a <= u128_max → targets ≠ [] →
  share 1 (Z.of_nat (length targets)) a * Z.of_nat (length targets) <= u128_max →
  dispatch (Signed n) (Call.signed_nominate proof targets a) s = (Ok (), s') →
  staked_by n s' = staked_by n s + a.
Proof.
  intros Hs Ha Hne Hw Hrun%dispatch_ok_run. cbn [dispatch_call] in Hrun. unfold signed_nominate in Hrun.
  apply (proj1 (transactional_Ok _ _ _ _)) in Hrun. unfold ensure_signed in Hrun.
  apply bind_Ok in Hrun as (?&?&[= <- <-]&Hrun). apply bind_Ok in Hrun as ([]&?&[_ ->]%ensure_Ok&Hrun).
  apply bind_Ok in Hrun as ([]&s0&->%check_signer_run&Hrun).
  apply bind_Ok in Hrun as ([]&s1&Hrun&->%modify_Ok). change (staked_by n s1 = staked_by n s + a).
  unfold split_and_nominate in Hrun. apply bind_Ok in Hrun as (min&?&[-> ->]%gets_Ok&Hrun).
  apply bind_Ok in Hrun as ([]&?&[_ ->]%ensure_Ok&Hrun). apply bind_Ok in Hrun as (free&?&[-> ->]%gets_Ok&Hrun).
  apply bind_Ok in Hrun as ([]&?&[_ ->]%ensure_Ok&Hrun). apply bind_Ok in Hrun as (st&?&[-> ->]%gets_Ok&Hrun).
  apply bind_Ok in Hrun as (r&s2&Hrun&[_ ->]%ret_Ok).
  set (count := Z.of_nat (length targets)) in *. set (per := share 1 count a) in *.
  assert (0 < count) as Hc by (unfold count; destruct targets; [done|cbn; lia]).
  assert (0 <= per <= a) as Hper by (apply share_range; lia).
  cbv zeta in Hrun. change (share 1 count a) with per in Hrun. rewrite (wrap_small _ (per * count)) in Hrun by nia.
  set (d := Storage.block_number s mod count).
  assert (0 <= d < count) as Hdr by (by apply Z.mod_pos_bound).
  assert (left_before a per (a ⊖ per * count) d (Z.of_nat 0) = a) as H0.
  { unfold left_before. rewrite bool_decide_false by lia. lia. }
  assert (0 <= a ⊖ per * count ∧ per + (a ⊖ per * count) <= u128_max) as [Hd Hmax].
  { unfold saturating_sub. nia. }
  pose proof (split_loop n per (a ⊖ per * count) count a targets 0
    (from_option (λ state, Z.of_nat (length (Nominator.nominations state))) 0
       (Storage.NominatorState s !! n)) s r s2 ltac:(lia) Hd Hmax Hc ltac:(lia) Hs) as Hloop.
  cbv zeta in Hloop. fold d in Hloop. rewrite H0 in Hloop. destruct (Hloop Hrun) as [Hr Hsum].
  rewrite left_before_end in Hr by lia. lia.
Qed.
(** 100 over the candidates 1 and 2 and the new candidate 3. *)
Lemma signed_nominate_witness :
  let s := run_call ex_chain (Signed 3, Call.join_candidates 50 9) in
  let call := Call.signed_nominate
    (mk_ProofOf 15 7 (15%N, SIGNED_NOMINATOR_CONTEXT 7 [1; 2; 3]%N 100 0)) [1; 2; 3]%N 100 in
  staked_by 15 (dispatch (Signed 15) call s).2 = 100.
Proof.
  intros s call. assert (dispatch (Signed 15) call s = (Ok (), (dispatch (Signed 15) call s).2)) as Hrun.
  { assert ((dispatch (Signed 15) call s).1 = Ok ()) as Ho by (by vm_compute).
    rewrite <-Ho. by destruct (dispatch (Signed 15) call s). }
  assert (staking_ok s) as Hs.
  { apply ch_staking, (call_step_ok (Signed 3) (Call.join_candidates 50 9) ex_chain ex_chain_ok);
      [vm_compute; split; congruence|split; by vm_compute]. }
  etransitivity; [refine (signed_nominate_exact 15 _ _ 100 s _ Hs _ _ _ Hrun)|by vm_compute];
    vm_compute; [split; congruence|congruence|congruence].
Defined.
