(* ===== verification/Bytes.v ===== *)
(** * Byte strings

    Fixed-size arrays ([H160], [H256], [[u8; n]]) are numbers below [256^n],
    read as big-endian; byte vectors are lists of numbers below 256.  This file
    has the conversions the runtime uses: [to_be_bytes] and [from_be_bytes],
    slicing, UTF-8 validation, decimal printing and parsing. *)

From S2P Require Import Prelude.
From Stdlib Require Import Decimal DecimalN DecimalPos.

Abbreviation bytes := (list N) (only parsing).
Abbreviation H160 := N (only parsing).
Abbreviation H256 := N (only parsing).

(** ** Computations without storage

    [Result] of a function that touches no storage; a slice out of range and
    [expect] on an error panic. *)

Section Pure.
Context {E : Type}.
#[global] Instance outcome_ret : MRet (outcome E) := λ A a, Ok a.
#[global] Instance outcome_bind : MBind (outcome E) := λ A B f m,
  match m with
  | Ok a => f a
  | Err e => Err e
  | Panic => Panic
  end.
Definition check (b : bool) (e : E) : outcome E unit := if b then Ok () else Err e.
Definition or_err {A} (o : option A) (e : E) : outcome E A :=
  match o with Some a => Ok a | None => Err e end.
Definition or_panic {A} (o : option A) : outcome E A :=
  match o with Some a => Ok a | None => Panic end.
Definition lift_outcome {S A} (r : outcome E A) : M S E A := λ s, (r, s).
End Pure.

Definition no_panic {E A} (r : outcome E A) : bool :=
  match r with Panic => false | _ => true end.

(** ** Big-endian numbers *)

Fixpoint le_bytes (n : nat) (x : N) : bytes :=
  match n with
  | O => []
  | S n => (x mod 256)%N :: le_bytes n (x / 256)
  end.
Definition be_bytes (n : nat) (x : N) : bytes := reverse (le_bytes n x).
Fixpoint from_le_bytes (l : bytes) : N :=
  match l with
  | [] => 0
  | b :: l => (b + 256 * from_le_bytes l)%N
  end.
Definition from_be_bytes (l : bytes) : N := from_le_bytes (reverse l).

#[global] Arguments be_bytes : simpl never.
#[global] Arguments from_be_bytes : simpl never.

Definition byte (b : N) : Prop := (b < 256)%N.
Definition is_bytes (l : bytes) : Prop := Forall byte l.

Lemma le_bytes_length n x : length (le_bytes n x) = n.
Proof. revert x. induction n; intros x; simpl; auto. Qed.
Lemma be_bytes_length n x : length (be_bytes n x) = n.
Proof. unfold be_bytes. by rewrite length_reverse, le_bytes_length. Qed.
Lemma le_bytes_byte n x : is_bytes (le_bytes n x).
Proof.
  revert x. induction n as [|n IH]; intros x; simpl; constructor; [|apply IH].
  apply N.mod_lt. lia.
Qed.
Lemma be_bytes_byte n x : is_bytes (be_bytes n x).
Proof. apply Forall_reverse, le_bytes_byte. Qed.
Lemma from_le_bytes_le n x : from_le_bytes (le_bytes n x) = (x mod 256 ^ N.of_nat n)%N.
Proof.
  revert x. induction n as [|n IH]; intros x; cbn [le_bytes from_le_bytes].
  - by rewrite N.pow_0_r, N.mod_1_r.
  - rewrite IH, Nat2N.inj_succ, N.pow_succ_r', N.Div0.mod_mul_r. lia.
Qed.
Lemma from_be_bytes_be n x : (x < 256 ^ N.of_nat n)%N → from_be_bytes (be_bytes n x) = x.
Proof.
  intros Hx. unfold from_be_bytes, be_bytes. rewrite reverse_involutive, from_le_bytes_le.
  by apply N.mod_small.
Qed.
Lemma le_bytes_from_le l : is_bytes l → le_bytes (length l) (from_le_bytes l) = l.
Proof.
  induction l as [|b l IH]; intros Hl; [done|]. apply Forall_cons in Hl as [Hb Hl]. unfold byte in Hb.
  cbn [length le_bytes from_le_bytes].
  replace ((b + 256 * from_le_bytes l) mod 256)%N with b.
  - replace ((b + 256 * from_le_bytes l) / 256)%N with (from_le_bytes l); [by rewrite IH|].
    rewrite N.mul_comm, N.div_add, N.div_small by lia. lia.
  - rewrite N.mul_comm, N.Div0.mod_add, N.mod_small; done.
Qed.
Lemma be_bytes_from_be n l :
  length l = n → is_bytes l → be_bytes n (from_be_bytes l) = l.
Proof.
  intros <- Hl. unfold from_be_bytes, be_bytes.
  rewrite <-(length_reverse l), le_bytes_from_le, reverse_involutive; [done|].
  by apply Forall_reverse.
Qed.
Lemma from_le_bytes_bound l : is_bytes l → (from_le_bytes l < 256 ^ N.of_nat (length l))%N.
Proof.
  induction l as [|b l IH]; intros Hl; cbn [length from_le_bytes]; [simpl; lia|].
  apply Forall_cons in Hl as [Hb Hl]. unfold byte in Hb. specialize (IH Hl).
  rewrite Nat2N.inj_succ, N.pow_succ_r'. lia.
Qed.
Lemma from_be_bytes_bound l : is_bytes l → (from_be_bytes l < 256 ^ N.of_nat (length l))%N.
Proof.
  intros Hl. unfold from_be_bytes. rewrite <-length_reverse.
  by apply from_le_bytes_bound, Forall_reverse.
Qed.
Lemma from_le_bytes_replicate k : from_le_bytes (replicate k 0%N) = 0%N.
Proof. induction k as [|k IH]; cbn [replicate from_le_bytes]; [done|]. by rewrite IH. Qed.
Lemma from_le_bytes_zeros l k : from_le_bytes (l ++ replicate k 0%N) = from_le_bytes l.
Proof.
  induction l as [|b l IH]; [apply from_le_bytes_replicate|].
  rewrite <-app_comm_cons. cbn [from_le_bytes]. by rewrite IH.
Qed.
(** Leading zeros do not count. *)
Lemma from_be_bytes_zeros k l : from_be_bytes (replicate k 0%N ++ l) = from_be_bytes l.
Proof.
  unfold from_be_bytes. by rewrite reverse_app, reverse_replicate, from_le_bytes_zeros.
Qed.

(** ** Slices *)

(** [l[a..b]]: panics out of range. *)
Definition slice {A} (a b : nat) (l : list A) : option (list A) :=
  if decide (a ≤ b ∧ b ≤ length l)%nat then Some (take (b - a) (drop a l)) else None.
(** [l[i]]. *)
Definition index {A} (i : nat) (l : list A) : option A := l !! i.
Definition all_zero (l : bytes) : bool := forallb (N.eqb 0) l.

Lemma slice_Some {A} a b (l : list A) :
  (a ≤ b)%nat → (b ≤ length l)%nat → slice a b l = Some (take (b - a) (drop a l)).
Proof. intros. unfold slice. by rewrite decide_True. Qed.
Lemma slice_app_l {A} a b (l k : list A) :
  (b ≤ length l)%nat → slice a b (l ++ k) = slice a b l.
Proof.
  intros Hb. unfold slice. rewrite length_app. destruct (decide (a ≤ b)%nat) as [Ha|Ha].
  - rewrite !decide_True by lia. rewrite drop_app_le, take_app_le by (rewrite ?length_drop; lia). done.
  - rewrite !decide_False by lia. done.
Qed.
Lemma slice_app_r {A} n (l k : list A) a b :
  length l = n → (n ≤ a)%nat → (a ≤ b)%nat → slice a b (l ++ k) = slice (a - n) (b - n) k.
Proof.
  intros <- Ha Hb. unfold slice. rewrite length_app. destruct (decide (a ≤ b ∧ b ≤ length l + length k)%nat).
  - rewrite !decide_True by lia. rewrite drop_app_ge by lia. do 2 f_equal. lia.
  - rewrite !decide_False by lia. done.
Qed.
Lemma slice_all {A} n (l : list A) : length l = n → slice 0 n l = Some l.
Proof. intros <-. rewrite slice_Some by lia. by rewrite drop_0, Nat.sub_0_r, take_ge. Qed.
Lemma all_zero_replicate l : all_zero l = true → l = replicate (length l) 0%N.
Proof.
  unfold all_zero. rewrite forallb_forall. induction l as [|b l IH]; intros Hl; [done|].
  cbn. f_equal; [symmetry; apply N.eqb_eq, Hl; by left|]. apply IH. intros x Hx. apply Hl. by right.
Qed.

(** ** Text *)

(** The bytes of a string literal [b"..."]. *)
Definition b (s : string) : bytes := Ascii.N_of_ascii <$> String.list_ascii_of_string s.

(** [core::str::from_utf8] succeeds on exactly these byte strings. *)
Definition in_range (lo hi x : N) : bool := (lo <=? x)%N && (x <=? hi)%N.
Definition continuation (x : N) : bool := in_range 0x80 0xBF x.
Fixpoint is_utf8 (l : bytes) : bool :=
  match l with
  | [] => true
  | x :: l =>
      if (x <? 0x80)%N then is_utf8 l
      else if in_range 0xC2 0xDF x then
        match l with y :: l => continuation y && is_utf8 l | _ => false end
      else if in_range 0xE0 0xEF x then
        match l with
        | y :: z :: l =>
            (if (x =? 0xE0)%N then in_range 0xA0 0xBF y
             else if (x =? 0xED)%N then in_range 0x80 0x9F y else continuation y) &&
            continuation z && is_utf8 l
        | _ => false
        end
      else if in_range 0xF0 0xF4 x then
        match l with
        | y :: z :: t :: l =>
            (if (x =? 0xF0)%N then in_range 0x90 0xBF y
             else if (x =? 0xF4)%N then in_range 0x80 0x8F y else continuation y) &&
            continuation z && continuation t && is_utf8 l
        | _ => false
        end
      else false
  end.

(** [to_string] of an unsigned integer. *)
Fixpoint bytes_of_uint (u : Decimal.uint) : bytes :=
  match u with
  | Nil => []
  | D0 u => 48%N :: bytes_of_uint u | D1 u => 49%N :: bytes_of_uint u
  | D2 u => 50%N :: bytes_of_uint u | D3 u => 51%N :: bytes_of_uint u
  | D4 u => 52%N :: bytes_of_uint u | D5 u => 53%N :: bytes_of_uint u
  | D6 u => 54%N :: bytes_of_uint u | D7 u => 55%N :: bytes_of_uint u
  | D8 u => 56%N :: bytes_of_uint u | D9 u => 57%N :: bytes_of_uint u
  end.
Definition to_string (x : Z) : bytes := bytes_of_uint (N.to_uint (Z.to_N x)).

(** [str::parse] to an unsigned integer of at most [max]: an optional plus
    sign, then at least one digit and nothing else. *)
Definition digit (x : N) : option (Decimal.uint → Decimal.uint) :=
  match x with
  | 48%N => Some D0 | 49%N => Some D1 | 50%N => Some D2 | 51%N => Some D3 | 52%N => Some D4
  | 53%N => Some D5 | 54%N => Some D6 | 55%N => Some D7 | 56%N => Some D8 | 57%N => Some D9
  | _ => None
  end.
Fixpoint uint_of_bytes (l : bytes) : option Decimal.uint :=
  match l with
  | [] => Some Nil
  | x :: l => d ← digit x; u ← uint_of_bytes l; Some (d u)
  end.
Definition parse_digits (max : Z) (l : bytes) : option Z :=
  match l with
  | [] => None
  | _ =>
      u ← uint_of_bytes l;
      let x := Z.of_N (N.of_uint u) in
      if bool_decide (x <= max) then Some x else None
  end.
Definition parse (max : Z) (l : bytes) : option Z :=
  match l with
  | 43%N :: l => parse_digits max l
  | _ => parse_digits max l
  end.

Lemma uint_of_bytes_of_uint u : uint_of_bytes (bytes_of_uint u) = Some u.
Proof. induction u; cbn; rewrite ?IHu; done. Qed.
Lemma bytes_of_uint_ascii u : Forall (λ x, 48 <= x <= 57)%N (bytes_of_uint u).
Proof. induction u; cbn; constructor; try done; lia. Qed.
Lemma to_string_cons x : ∃ d l, to_string x = d :: l ∧ (48 <= d <= 57)%N.
Proof.
  unfold to_string. pose proof (bytes_of_uint_ascii (N.to_uint (Z.to_N x))) as Hf.
  destruct (bytes_of_uint (N.to_uint (Z.to_N x))) as [|d l] eqn:Hl.
  - assert (N.to_uint (Z.to_N x) = Nil) as Hnil.
    { by destruct (N.to_uint (Z.to_N x)). }
    by destruct (Z.to_N x) as [|p]; [done|destruct (DecimalPos.Unsigned.to_uint_nonnil p)].
  - apply Forall_cons in Hf as [? _]. eauto.
Qed.
(** Printing and parsing back. *)
Lemma parse_to_string max x : 0 <= x <= max → parse max (to_string x) = Some x.
Proof.
  intros Hx. destruct (to_string_cons x) as (d&l&Hl&Hd).
  assert (parse max (to_string x) = parse_digits max (to_string x)) as ->.
  { rewrite Hl. cbn. destruct d as [|p]; [done|]. do 6 (destruct p as [p|p|]; try done; try lia). }
  unfold parse_digits. rewrite Hl at 1. unfold to_string at 1.
  rewrite uint_of_bytes_of_uint. cbn. rewrite DecimalN.Unsigned.of_to, Z2N.id by lia.
  by rewrite bool_decide_true by lia.
Qed.
Lemma is_utf8_ascii l : Forall (λ x, x < 0x80)%N l → is_utf8 l = true.
Proof. induction 1 as [|x l Hx _ IH]; cbn; [done|]. by rewrite (proj2 (N.ltb_lt _ _) Hx). Qed.
Lemma to_string_utf8 x : is_utf8 (to_string x) = true.
Proof.
  apply is_utf8_ascii. unfold to_string. eapply Forall_impl; [apply bytes_of_uint_ascii|].
  cbn. lia.
Qed.
