(* ===== verification/EventTypes.v ===== *)
(** * Events of the Ethereum contracts

    [primitives/avn-common/src/event_types.rs]: the event kinds the runtime
    recognises, their topic-0 signatures, and the parsers that turn the topics
    and the data of a log into event data.  A topic is a list of bytes; indexing
    or slicing out of range panics. *)

From S2P Require Import Prelude Bytes.

Definition WORD_LENGTH : nat := 32.
Definition HALF_WORD_LENGTH : nat := 16.
Definition TWENTY_FOUR_BYTES : nat := 24.
Definition TWENTY_EIGHT_BYTES : nat := 28.
Definition DISCARDED_ZERO_BYTES : nat := 12.
Definition BYTE_LENGTH : nat := 1.
Definition LEGACY_LIFT_SIGNATURE : list H256 :=
  [0x8964776336bc2fa8ecaaf70b6f8e8450807efb1ff78f8b87980707aa821f0ec0%N;
   0x53dbd0621188344e69521ce5392debdff038d57d0ebd39536df06b20d9142bc0%N].

Module EventError.
Inductive t : Set :=
  | AddedValidatorEventMissingData | AddedValidatorEventBadDataLength
  | AddedValidatorEventWrongTopicCount | AddedValidatorEventBadTopicLength
  | LiftedEventMissingData | LiftedEventDataOverflow | LiftedEventBadDataLength
  | LiftedEventWrongTopicCount | LiftedEventBadTopicLength | NftMintedEventMissingData
  | NftMintedEventWrongTopicCount | NftMintedEventBadTopicLength
  | NftMintedEventSaleIndexConversion | NftMintedEventBadDataLength
  | NftMintedEventBadRefLength | NftTransferToEventShouldOnlyContainTopics
  | NftTransferToEventWrongTopicCount | NftTransferToEventBadTopicLength
  | NftTransferToEventTranferNonceConversion | NftCancelListingEventShouldOnlyContainTopics
  | NftCancelListingEventWrongTopicCount | NftCancelListingEventBadTopicLength
  | NftCancelListingEventDataOverflow | NftCancelListingEventTranferNonceConversion
  | NftEndBatchListingEventShouldOnlyContainTopics | NftEndBatchListingEventWrongTopicCount
  | NftEndBatchListingEventBadTopicLength | AvtGrowthLiftedEventShouldOnlyContainTopics
  | AvtGrowthLiftedEventWrongTopicCount | AvtGrowthLiftedEventBadTopicLength
  | AvtGrowthLiftedEventDataOverflow | AvtGrowthLiftedEventPeriodConversion
  | AvtLowerClaimedEventMissingData | AvtLowerClaimedEventWrongTopicCount
  | AvtLowerClaimedEventBadTopicLength | AvtLowerClaimedEventIdConversion
  | LowerRevertedEventMissingData | LowerRevertedEventWrongTopicCount
  | LowerRevertedEventBadTopicLength | LowerRevertedEventBadDataLength
  | LowerRevertedEventAmountOverflow | LowerRevertedEventLowerIdConversion
  | LiftedToPredictionMarketEventMissingData | LiftedToPredictionMarketEventDataOverflow
  | LiftedToPredictionMarketEventBadDataLength | LiftedToPredictionMarketEventWrongTopicCount
  | LiftedToPredictionMarketEventBadTopicLength | AvtRewardsMintedEventShouldOnlyContainTopics
  | AvtRewardsMintedEventWrongTopicCount | AvtRewardsMintedEventBadTopicLength
  | AvtRewardsMintedEventAmountOverflow | AvtRewardsMintedEventNewSupplyOverflow
  | AvtRewardsMintedEventTxIdConversion.
End EventError.

(** ** The kinds of event *)

Module ValidEvents.
Inductive t : Set :=
  | AddedValidator | Lifted | NftMint | NftTransferTo
  | NftCancelListing | NftEndBatchListing | AvtGrowthLifted | AvtLowerClaimed
  | LiftedToPredictionMarket | Erc20DirectTransfer | LowerReverted | AvtRewardsMinted.
#[global] Instance t_eq : EqDecision t.
Proof. solve_decision. Defined.

Definition signature (e : t) : H256 :=
  match e with
  | AddedValidator =>
      0xff083a6e395a67771f3c9108922bc274c27b38b48c210b0f6a8c5f4710c0494b%N
  | Lifted =>
      0x418da8f85cfa851601f87634c6950491b6b8785a6445c8584f5658048d512cae%N
  | NftMint =>
      0x242e8a2c5335295f6294a23543699a458e6d5ed7a5839f93cc420116e0a31f99%N
  | NftTransferTo =>
      0xfff226ba128aca9718a568817388f3711cfeedd8c81cec4d02dcefc50f3c67bb%N
  | NftCancelListing =>
      0xeb0a71ca01b1505be834cafcd54b651d77eafd1ca915d21c0898575bcab53358%N
  | NftEndBatchListing =>
      0x20c46236a16e176bc83a795b3a64ad94e5db8bc92afc8cc6d3fd4a3864211f8f%N
  | AvtGrowthLifted =>
      0x3ad58a8dc1110baa37ad88a68db14181b4ef0c69192dfa7699a9588960eca7fd%N
  | AvtLowerClaimed =>
      0x9853e4c075911a10a89a0f7a46bac6f8a246c4e9152480d16d86aa6a2391a4f1%N
  | LiftedToPredictionMarket =>
      0x2bf8107bf8c15cdcd8d6360f4a02ee97d7098a46b18fccd32df8796775552fc0%N
  | Erc20DirectTransfer =>
      0xddf252ad1be2c89b69c2b068fc378daa952ba7f163c4a11628f55a4df523b3ef%N
  | LowerReverted =>
      0x3a534ee35b9cf37cfa5e5aac24f8d0d3a2a2841b1ff92db68501d3c46956daa8%N
  | AvtRewardsMinted =>
      0x8780503b6efc49186826d97ab83686b74d0c76aa1052e08a81fa36a349472545%N
  end.
Definition is_nft_event (e : t) : bool :=
  match e with
  | NftMint | NftTransferTo | NftCancelListing | NftEndBatchListing => true
  | _ => false
  end.
(** The order of the declaration: [EnumIter]. *)
Definition values : list t :=
  [AddedValidator; Lifted; NftMint; NftTransferTo; NftCancelListing; NftEndBatchListing;
   AvtGrowthLifted; AvtLowerClaimed; LiftedToPredictionMarket; Erc20DirectTransfer;
   LowerReverted; AvtRewardsMinted].
Definition is_primary (e : t) : bool :=
  match e with Erc20DirectTransfer => false | _ => true end.
Definition try_from (value : H256) : option t :=
  List.find (λ event, N.eqb (signature event) value) values.
End ValidEvents.

(** ** Reading topics

    Arrays of a fixed size come from slices of that size, for which
    [try_into] cannot fail. *)

Abbreviation Parsed := (outcome EventError.t) (only parsing).

Definition len_is {A} (n : nat) (l : list A) : bool := bool_decide (length l = n).
Definition topic (i : nat) (topics : list bytes) : Parsed bytes := or_panic (index i topics).
Definition be_slice (i j : nat) (l : bytes) : Parsed N :=
  s ← or_panic (slice i j l); Ok (from_be_bytes s).
(** [l[0..n].iter().any(|byte| byte > &0)]. *)
Definition has_high_bytes (n : nat) (l : bytes) : Parsed bool :=
  s ← or_panic (slice 0 n l); Ok (negb (all_zero s)).
Definition address_of_word (l : bytes) : Parsed H160 := be_slice DISCARDED_ZERO_BYTES WORD_LENGTH l.
Definition u128_of_word (l : bytes) : Parsed Z :=
  x ← be_slice HALF_WORD_LENGTH WORD_LENGTH l; Ok (Z.of_N x).
Definition u64_of_word (l : bytes) : Parsed Z :=
  x ← be_slice TWENTY_FOUR_BYTES WORD_LENGTH l; Ok (Z.of_N x).
Definition u32_of_word (l : bytes) : Parsed Z :=
  x ← be_slice TWENTY_EIGHT_BYTES WORD_LENGTH l; Ok (Z.of_N x).

(** ** Event data *)

Module AddedValidatorData.
Record t := mk { eth_public_key : N; t2_address : H256; validator_account_id : N }.
#[global] Instance t_eq : EqDecision t.
Proof. solve_decision. Defined.
Definition is_valid (d : t) : bool :=
  negb (eth_public_key d =? 0)%N && negb (t2_address d =? 0)%N &&
  negb (validator_account_id d =? 0)%N.
Definition parse_bytes (data : option bytes) (topics : list bytes) : Parsed t :=
  data ← or_err data EventError.AddedValidatorEventMissingData;
  check (len_is WORD_LENGTH data) EventError.AddedValidatorEventBadDataLength;;
  check (len_is 4 topics) EventError.AddedValidatorEventWrongTopicCount;;
  lhs ← topic 1 topics;
  rhs ← topic 2 topics;
  t2 ← topic 3 topics;
  check (len_is WORD_LENGTH lhs && len_is WORD_LENGTH rhs && len_is WORD_LENGTH t2)
    EventError.AddedValidatorEventBadTopicLength;;
  Ok (mk (from_be_bytes (lhs ++ rhs)) (from_be_bytes t2) (from_be_bytes data)).
End AddedValidatorData.

Module LiftedData.
Record t := mk {
  token_contract : H160; sender_address : H160; receiver_address : H256; amount : Z; nonce : N }.
#[global] Instance t_eq : EqDecision t.
Proof. solve_decision. Defined.
Definition is_valid (d : t) : bool :=
  negb (token_contract d =? 0)%N && negb (receiver_address d =? 0)%N.
Definition new (token_contract : H160) (receiver_address : H256) (amount : Z) : t :=
  mk token_contract 0 receiver_address amount 0.
Definition parse_bytes (data : option bytes) (topics : list bytes) : Parsed t :=
  data ← or_err data EventError.LiftedEventMissingData;
  check (len_is WORD_LENGTH data) EventError.LiftedEventBadDataLength;;
  check (len_is 3 topics) EventError.LiftedEventWrongTopicCount;;
  currency ← topic 1 topics;
  t2 ← topic 2 topics;
  check (len_is WORD_LENGTH currency && len_is WORD_LENGTH t2)
    EventError.LiftedEventBadTopicLength;;
  token_contract ← address_of_word currency;
  overflow ← has_high_bytes HALF_WORD_LENGTH data;
  check (negb overflow) EventError.LiftedEventDataOverflow;;
  amount ← u128_of_word data;
  Ok (mk token_contract 0 (from_be_bytes t2) amount 0).
(** A direct ERC-20 transfer to the bridge: the receiver is the bridge contract,
    left-padded to 32 bytes, and the token is not known here. *)
Definition from_erc_20_contract_transfer_bytes (data : option bytes) (topics : list bytes) :
    Parsed t :=
  data ← or_err data EventError.LiftedEventMissingData;
  check (len_is WORD_LENGTH data) EventError.LiftedEventBadDataLength;;
  check (len_is 3 topics) EventError.LiftedEventWrongTopicCount;;
  from ← topic 1 topics;
  bridge ← topic 2 topics;
  check (len_is WORD_LENGTH bridge && len_is WORD_LENGTH from)
    EventError.LiftedEventBadTopicLength;;
  bridge_contract ← address_of_word bridge;
  sender_address ← address_of_word from;
  overflow ← has_high_bytes HALF_WORD_LENGTH data;
  check (negb overflow) EventError.LiftedEventDataOverflow;;
  amount ← u128_of_word data;
  Ok (mk 0 sender_address bridge_contract amount 0).
End LiftedData.

Module NftMintData.
Record t := mk {
  batch_id : N; t2_owner_public_key : H256; op_id : Z; t1_contract_issuer : H160;
  sale_index : Z; unique_external_ref : bytes }.
#[global] Instance t_eq : EqDecision t.
Proof. solve_decision. Defined.
Definition NftExternalRefBound : nat := 1024.
Definition is_valid (d : t) : bool :=
  negb (batch_id d =? 0)%N && negb (t2_owner_public_key d =? 0)%N &&
  negb (len_is 0 (unique_external_ref d)).
Definition parse_bytes (data : option bytes) (topics : list bytes) : Parsed t :=
  data ← or_err data EventError.NftMintedEventMissingData;
  check (len_is (4 * WORD_LENGTH) data) EventError.NftMintedEventBadDataLength;;
  check (len_is 4 topics) EventError.NftMintedEventWrongTopicCount;;
  batch ← topic 1 topics;
  sale ← topic 2 topics;
  owner ← topic 3 topics;
  check (len_is WORD_LENGTH batch && len_is WORD_LENGTH owner && len_is WORD_LENGTH sale)
    EventError.NftMintedEventBadTopicLength;;
  sale_index ← u64_of_word sale;
  ref ← or_panic (slice (2 * WORD_LENGTH) (2 * WORD_LENGTH + (WORD_LENGTH + 4 * BYTE_LENGTH)) data);
  check (bool_decide (length ref ≤ NftExternalRefBound)%nat)
    EventError.NftMintedEventBadRefLength;;
  Ok (mk (from_be_bytes batch) (from_be_bytes owner) 0 0 sale_index ref).
End NftMintData.

Module NftTransferToData.
Record t := mk { nft_id : N; t2_transfer_to_public_key : H256; op_id : Z }.
#[global] Instance t_eq : EqDecision t.
Proof. solve_decision. Defined.
Definition is_valid (d : t) : bool := negb (t2_transfer_to_public_key d =? 0)%N.
Definition parse_bytes (data : option bytes) (topics : list bytes) : Parsed t :=
  check (bool_decide (data = None)) EventError.NftTransferToEventShouldOnlyContainTopics;;
  check (len_is 4 topics) EventError.NftTransferToEventWrongTopicCount;;
  nft ← topic 1 topics;
  to ← topic 2 topics;
  op ← topic 3 topics;
  check (len_is WORD_LENGTH nft && len_is WORD_LENGTH to && len_is WORD_LENGTH op)
    EventError.NftTransferToEventBadTopicLength;;
  op_id ← u64_of_word op;
  Ok (mk (from_be_bytes nft) (from_be_bytes to) op_id).
End NftTransferToData.

Module NftCancelListingData.
Record t := mk { nft_id : N; op_id : Z }.
#[global] Instance t_eq : EqDecision t.
Proof. solve_decision. Defined.
Definition is_valid (_ : t) : bool := true.
(** The length of the operation topic is not checked. *)
Definition parse_bytes (data : option bytes) (topics : list bytes) : Parsed t :=
  check (bool_decide (data = None)) EventError.NftCancelListingEventShouldOnlyContainTopics;;
  check (len_is 3 topics) EventError.NftCancelListingEventWrongTopicCount;;
  nft ← topic 1 topics;
  check (len_is WORD_LENGTH nft) EventError.NftCancelListingEventBadTopicLength;;
  op ← topic 2 topics;
  overflow ← has_high_bytes TWENTY_FOUR_BYTES op;
  check (negb overflow) EventError.NftCancelListingEventDataOverflow;;
  op_id ← u64_of_word op;
  Ok (mk (from_be_bytes nft) op_id).
End NftCancelListingData.

Module NftEndBatchListingData.
Record t := mk { batch_id : N }.
#[global] Instance t_eq : EqDecision t.
Proof. solve_decision. Defined.
Definition is_valid (_ : t) : bool := true.
Definition parse_bytes (data : option bytes) (topics : list bytes) : Parsed t :=
  check (bool_decide (data = None)) EventError.NftEndBatchListingEventShouldOnlyContainTopics;;
  check (len_is 2 topics) EventError.NftEndBatchListingEventWrongTopicCount;;
  batch ← topic 1 topics;
  check (len_is WORD_LENGTH batch) EventError.NftEndBatchListingEventBadTopicLength;;
  Ok (mk (from_be_bytes batch)).
End NftEndBatchListingData.

Module AvtGrowthLiftedData.
Record t := mk { amount : Z; period : Z }.
#[global] Instance t_eq : EqDecision t.
Proof. solve_decision. Defined.
Definition is_valid (d : t) : bool := bool_decide (amount d > 0).
Definition parse_bytes (data : option bytes) (topics : list bytes) : Parsed t :=
  check (bool_decide (data = None)) EventError.AvtGrowthLiftedEventShouldOnlyContainTopics;;
  check (len_is 3 topics) EventError.AvtGrowthLiftedEventWrongTopicCount;;
  amt ← topic 1 topics;
  per ← topic 2 topics;
  check (len_is WORD_LENGTH amt && len_is WORD_LENGTH per)
    EventError.AvtGrowthLiftedEventBadTopicLength;;
  overflow ← has_high_bytes HALF_WORD_LENGTH amt;
  check (negb overflow) EventError.AvtGrowthLiftedEventDataOverflow;;
  amount ← u128_of_word amt;
  period ← u32_of_word per;
  Ok (mk amount period).
End AvtGrowthLiftedData.

Module AvtLowerClaimedData.
Record t := mk { lower_id : Z }.
#[global] Instance t_eq : EqDecision t.
Proof. solve_decision. Defined.
Definition parse_bytes (data : option bytes) (topics : list bytes) : Parsed t :=
  check (bool_decide (data = None)) EventError.AvtLowerClaimedEventMissingData;;
  check (len_is 2 topics) EventError.AvtLowerClaimedEventWrongTopicCount;;
  id ← topic 1 topics;
  check (len_is WORD_LENGTH id) EventError.AvtLowerClaimedEventBadTopicLength;;
  lower_id ← u32_of_word id;
  Ok (mk lower_id).
End AvtLowerClaimedData.

Module LowerRevertedData.
Record t := mk {
  token_contract : H160; receiver_address : H256; t1_recipient : H160; amount : Z; lower_id : Z }.
#[global] Instance t_eq : EqDecision t.
Proof. solve_decision. Defined.
Definition is_valid (d : t) : bool :=
  negb (token_contract d =? 0)%N && negb (receiver_address d =? 0)%N && bool_decide (amount d > 0).
Definition parse_bytes (data : option bytes) (topics : list bytes) : Parsed t :=
  data ← or_err data EventError.LowerRevertedEventMissingData;
  check (len_is (2 * WORD_LENGTH) data) EventError.LowerRevertedEventBadDataLength;;
  check (len_is 4 topics) EventError.LowerRevertedEventWrongTopicCount;;
  tok ← topic 1 topics;
  t2 ← topic 2 topics;
  recip ← topic 3 topics;
  check (len_is WORD_LENGTH tok && len_is WORD_LENGTH t2 && len_is WORD_LENGTH recip)
    EventError.LowerRevertedEventBadTopicLength;;
  token_contract ← address_of_word tok;
  t1_recipient ← address_of_word recip;
  amount_bytes ← or_panic (slice 0 WORD_LENGTH data);
  overflow ← has_high_bytes HALF_WORD_LENGTH amount_bytes;
  check (negb overflow) EventError.LowerRevertedEventAmountOverflow;;
  amount ← u128_of_word amount_bytes;
  lower_id_bytes ← or_panic (slice WORD_LENGTH (2 * WORD_LENGTH) data);
  lower_id ← u32_of_word lower_id_bytes;
  Ok (mk token_contract (from_be_bytes t2) t1_recipient amount lower_id).
End LowerRevertedData.

Module TotalSupplyUpdatedData.
Record t := mk { amount : Z; new_supply : Z; t2_tx_id : Z }.
#[global] Instance t_eq : EqDecision t.
Proof. solve_decision. Defined.
Definition is_valid (d : t) : bool := bool_decide (amount d > 0).
Definition parse_bytes (data : option bytes) (topics : list bytes) : Parsed t :=
  check (bool_decide (data = None)) EventError.AvtRewardsMintedEventShouldOnlyContainTopics;;
  check (len_is 4 topics) EventError.AvtRewardsMintedEventWrongTopicCount;;
  amt ← topic 1 topics;
  supply ← topic 2 topics;
  id ← topic 3 topics;
  check (len_is WORD_LENGTH amt && len_is WORD_LENGTH supply && len_is WORD_LENGTH id)
    EventError.AvtRewardsMintedEventBadTopicLength;;
  amount_overflow ← has_high_bytes HALF_WORD_LENGTH amt;
  check (negb amount_overflow) EventError.AvtRewardsMintedEventAmountOverflow;;
  supply_overflow ← has_high_bytes HALF_WORD_LENGTH supply;
  check (negb supply_overflow) EventError.AvtRewardsMintedEventNewSupplyOverflow;;
  amount ← u128_of_word amt;
  new_supply ← u128_of_word supply;
  t2_tx_id ← u32_of_word id;
  Ok (mk amount new_supply t2_tx_id).
End TotalSupplyUpdatedData.

Module EventData.
Inductive t : Type :=
  | LogAddedValidator (d : AddedValidatorData.t)
  | LogLifted (d : LiftedData.t)
  | EmptyEvent
  | LogNftMinted (d : NftMintData.t)
  | LogNftTransferTo (d : NftTransferToData.t)
  | LogNftCancelListing (d : NftCancelListingData.t)
  | LogNftEndBatchListing (d : NftEndBatchListingData.t)
  | LogAvtGrowthLifted (d : AvtGrowthLiftedData.t)
  | LogLowerClaimed (d : AvtLowerClaimedData.t)
  | LogLowerReverted (d : LowerRevertedData.t)
  | LogLiftedToPredictionMarket (d : LiftedData.t)
  | LogErc20Transfer (d : LiftedData.t)
  | LogRewardsMinted (d : TotalSupplyUpdatedData.t).
#[global] Instance t_eq : EqDecision t.
Proof. solve_decision. Defined.
(** A claimed lower is never valid: its case is missing. *)
Definition is_valid (e : t) : bool :=
  match e with
  | LogAddedValidator d => AddedValidatorData.is_valid d
  | LogLifted d => LiftedData.is_valid d
  | LogNftMinted d => NftMintData.is_valid d
  | LogNftTransferTo d => NftTransferToData.is_valid d
  | LogNftCancelListing d => NftCancelListingData.is_valid d
  | LogNftEndBatchListing d => NftEndBatchListingData.is_valid d
  | LogAvtGrowthLifted d => AvtGrowthLiftedData.is_valid d
  | LogLiftedToPredictionMarket d => LiftedData.is_valid d
  | LogErc20Transfer d => LiftedData.is_valid d
  | LogLowerReverted d => LowerRevertedData.is_valid d
  | LogRewardsMinted d => TotalSupplyUpdatedData.is_valid d
  | EmptyEvent => true
  | LogLowerClaimed _ => false
  end.
End EventData.

(** ** Events and their processing *)

Module EthEventId.
Record t := mk { signature : H256; transaction_hash : H256 }.
#[global] Instance t_eq : EqDecision t.
Proof. solve_decision. Defined.
End EthEventId.

Module EthEvent.
Record t := mk { event_id : EthEventId.t; event_data : EventData.t }.
#[global] Instance t_eq : EqDecision t.
Proof. solve_decision. Defined.
End EthEvent.

Module EthProcessedEvent.
Record t := mk { id : ValidEvents.t; accepted : bool }.
#[global] Instance t_eq : EqDecision t.
Proof. solve_decision. Defined.
End EthProcessedEvent.
