(* ===== verification/EventParsing.v ===== *)
(** * From logs to discovered events

    The two dispatchers over the parsers of [event_types.rs]:
    [parse_tier1_event] of [pallets/ethereum-events/src/lib.rs], on chain, and
    the [EventRegistry] of [client/external-service/src/ethereum_events_handler.rs],
    in the node; with the node's discovery of the events of a block range.  The
    Ethereum node behind [ChainClient] is a parameter. *)

From S2P Require Import Prelude Bytes EventTypes.

Definition map_ok {E A B} (f : A → B) (r : outcome E A) : outcome E B :=
  a ← r; Ok (f a).
Definition map_err {E E' A} (f : E → E') (r : outcome E A) : outcome E' A :=
  match r with
  | Ok a => Ok a
  | Err e => Err (f e)
  | Panic => Panic
  end.

(** ** In the runtime *)

Module EthereumEventsParse.
Inductive error : Set := EventParsingFailed | UnrecognizedEventSignature.

Definition parse_tier1_event (event_id : EthEventId.t) (data : option bytes)
    (topics : list bytes) : outcome error EventData.t :=
  let sig_is e := N.eqb (EthEventId.signature event_id) (ValidEvents.signature e) in
  let run {A} (f : A → EventData.t) (r : outcome EventError.t A) :=
    map_ok f (map_err (λ _, EventParsingFailed) r) in
  if sig_is ValidEvents.AddedValidator then
    run EventData.LogAddedValidator (AddedValidatorData.parse_bytes data topics)
  else if sig_is ValidEvents.Lifted then
    run EventData.LogLifted (LiftedData.parse_bytes data topics)
  else if sig_is ValidEvents.LiftedToPredictionMarket then
    run EventData.LogLiftedToPredictionMarket (LiftedData.parse_bytes data topics)
  else if sig_is ValidEvents.NftMint then
    run EventData.LogNftMinted (NftMintData.parse_bytes data topics)
  else if sig_is ValidEvents.NftTransferTo then
    run EventData.LogNftTransferTo (NftTransferToData.parse_bytes data topics)
  else if sig_is ValidEvents.NftCancelListing then
    run EventData.LogNftCancelListing (NftCancelListingData.parse_bytes data topics)
  else if sig_is ValidEvents.NftEndBatchListing then
    run EventData.LogNftEndBatchListing (NftEndBatchListingData.parse_bytes data topics)
  else if sig_is ValidEvents.AvtGrowthLifted then
    run EventData.LogAvtGrowthLifted (AvtGrowthLiftedData.parse_bytes data topics)
  else if sig_is ValidEvents.AvtLowerClaimed then
    run EventData.LogLowerClaimed (AvtLowerClaimedData.parse_bytes data topics)
  else if sig_is ValidEvents.LowerReverted then
    run EventData.LogLowerReverted (LowerRevertedData.parse_bytes data topics)
  else if sig_is ValidEvents.AvtRewardsMinted then
    run EventData.LogRewardsMinted (TotalSupplyUpdatedData.parse_bytes data topics)
  else Err UnrecognizedEventSignature.
End EthereumEventsParse.

(** ** In the node *)

Module AppError.
Inductive t : Set :=
  | ErrorParsingEventLogs
  | ErrorGettingEventLogs
  | ErrorGettingBridgeContract
  | RetryLimitReached
  | SignatureGenerationFailed
  | MissingTransactionHash
  | MissingBlockNumber
  | MissingEventSignature
  | ParsingError (e : EventError.t)
  | GenericError.
End AppError.

(** A parser of the registry. *)
Abbreviation Parser := (option bytes → list bytes → outcome AppError.t EventData.t) (only parsing).

Definition EventInfo {A} (f : A → EventData.t)
    (parse_bytes : option bytes → list bytes → outcome EventError.t A) : Parser :=
  λ data topics, map_ok f (map_err AppError.ParsingError (parse_bytes data topics)).

Definition EventRegistry : gmap H256 Parser :=
  list_to_map (reverse [
    (ValidEvents.signature ValidEvents.AddedValidator,
      EventInfo EventData.LogAddedValidator AddedValidatorData.parse_bytes);
    (ValidEvents.signature ValidEvents.Lifted,
      EventInfo EventData.LogLifted LiftedData.parse_bytes);
    (ValidEvents.signature ValidEvents.AvtGrowthLifted,
      EventInfo EventData.LogAvtGrowthLifted AvtGrowthLiftedData.parse_bytes);
    (ValidEvents.signature ValidEvents.NftCancelListing,
      EventInfo EventData.LogNftCancelListing NftCancelListingData.parse_bytes);
    (ValidEvents.signature ValidEvents.NftEndBatchListing,
      EventInfo EventData.LogNftEndBatchListing NftEndBatchListingData.parse_bytes);
    (ValidEvents.signature ValidEvents.NftMint,
      EventInfo EventData.LogNftMinted NftMintData.parse_bytes);
    (ValidEvents.signature ValidEvents.NftTransferTo,
      EventInfo EventData.LogNftTransferTo NftTransferToData.parse_bytes);
    (ValidEvents.signature ValidEvents.AvtLowerClaimed,
      EventInfo EventData.LogLowerClaimed AvtLowerClaimedData.parse_bytes);
    (ValidEvents.signature ValidEvents.LowerReverted,
      EventInfo EventData.LogLowerReverted LowerRevertedData.parse_bytes);
    (ValidEvents.signature ValidEvents.LiftedToPredictionMarket,
      EventInfo EventData.LogLiftedToPredictionMarket LiftedData.parse_bytes);
    (ValidEvents.signature ValidEvents.Erc20DirectTransfer,
      EventInfo EventData.LogErc20Transfer LiftedData.from_erc_20_contract_transfer_bytes);
    (ValidEvents.signature ValidEvents.AvtRewardsMinted,
      EventInfo EventData.LogRewardsMinted TotalSupplyUpdatedData.parse_bytes)]).

Definition parse_event_data (signature : H256) (data : option bytes) (topics : list bytes) :
    outcome AppError.t EventData.t :=
  parser ← or_err (EventRegistry !! signature) AppError.ErrorParsingEventLogs;
  parser data topics.

Module ChainLog.
Record t := mk {
  address : H160; topics : list H256; data : bytes;
  transaction_hash : option H256; block_number : option Z }.
End ChainLog.

Module DiscoveredEvent.
Record t := mk { event : EthEvent.t; block : Z }.
#[global] Instance t_eq : EqDecision t.
Proof. solve_decision. Defined.
Definition tx_hash (e : t) : H256 := EthEventId.transaction_hash (EthEvent.event_id (event e)).
Definition signature (e : t) : H256 := EthEventId.signature (EthEvent.event_id (event e)).
(** [Ord]: by block, then by transaction hash. *)
Definition cmp (e e' : t) : comparison :=
  match Z.compare (block e) (block e') with
  | Eq => N.compare (tx_hash e) (tx_hash e')
  | ord => ord
  end.
End DiscoveredEvent.

(** The token of a direct transfer is the contract that emitted the log. *)
Definition with_log_address (log : ChainLog.t) (e : EventData.t) : EventData.t :=
  match e with
  | EventData.LogErc20Transfer d =>
      if N.eqb (LiftedData.token_contract d) 0 then
        EventData.LogErc20Transfer
          (LiftedData.mk (ChainLog.address log) (LiftedData.sender_address d)
             (LiftedData.receiver_address d) (LiftedData.amount d) (LiftedData.nonce d))
      else e
  | _ => e
  end.

Definition parse_log (log : ChainLog.t) : outcome AppError.t DiscoveredEvent.t :=
  signature ← or_err (head (ChainLog.topics log)) AppError.MissingEventSignature;
  tx_hash ← or_err (ChainLog.transaction_hash log) AppError.MissingTransactionHash;
  block_number ← or_err (ChainLog.block_number log) AppError.MissingBlockNumber;
  let topics := be_bytes 32 <$> ChainLog.topics log in
  let data := match ChainLog.data log with [] => None | d => Some d end in
  event_data ← parse_event_data signature data topics;
  Ok (DiscoveredEvent.mk
        (EthEvent.mk (EthEventId.mk signature tx_hash) (with_log_address log event_data))
        block_number).

Module LogFilter.
Record t := mk {
  from_block : Z; to_block : Z; addresses : list H160; topics : list (option (list H256)) }.
End LogFilter.

Section Discovery.
(** [ChainClient::get_logs]: the logs that match a filter, or an error. *)
Variable get_logs : LogFilter.t → option (list ChainLog.t).

Definition identify_secondary_bridge_events (start_block end_block : Z)
    (contract_addresses : list H160) (event_types : list ValidEvents.t) :
    outcome AppError.t (list ChainLog.t) :=
  let topic0 := ValidEvents.signature <$> event_types in
  let filter := LogFilter.mk start_block end_block []
                  [Some topic0; None; Some contract_addresses; None] in
  or_err (get_logs filter) AppError.ErrorGettingEventLogs.
Definition identify_primary_bridge_events (start_block end_block : Z)
    (bridge_contract_addresses : list H160) (event_types : list ValidEvents.t) :
    outcome AppError.t (list ChainLog.t) :=
  let topic0 := ValidEvents.signature <$> event_types in
  let filter := LogFilter.mk start_block end_block bridge_contract_addresses
                  [Some topic0; None; None; None] in
  or_err (get_logs filter) AppError.ErrorGettingEventLogs.

(** The loop of [identify_events]: the first log of a transaction counts. *)
Fixpoint unique_transactions (logs : list ChainLog.t) (seen : gmap H256 DiscoveredEvent.t) :
    outcome AppError.t (gmap H256 DiscoveredEvent.t) :=
  match logs with
  | [] => Ok seen
  | log :: logs =>
      match ChainLog.transaction_hash log with
      | Some tx_hash =>
          match seen !! tx_hash with
          | Some _ => unique_transactions logs seen
          | None =>
              discovered_event ← parse_log log;
              unique_transactions logs (<[tx_hash := discovered_event]> seen)
          end
      | None => unique_transactions logs seen
      end
  end.

(** The values of the final [HashMap] come in no particular order. *)
Definition identify_events (start_block end_block : Z) (contract_addresses : list H160)
    (event_signatures_to_find : list H256) : outcome AppError.t (list DiscoveredEvent.t) :=
  let all_primary_events := List.filter ValidEvents.is_primary ValidEvents.values in
  let all_secondary_events := List.filter (negb ∘ ValidEvents.is_primary) ValidEvents.values in
  logs ← identify_primary_bridge_events start_block end_block contract_addresses all_primary_events;
  let extend_discovery_to_secondary_events :=
    existsb (λ x, bool_decide (x ∈ all_secondary_events))
      (omap ValidEvents.try_from event_signatures_to_find) in
  secondary_logs ←
    (if extend_discovery_to_secondary_events then
       identify_secondary_bridge_events start_block end_block contract_addresses
         all_secondary_events
     else Ok []);
  found ← unique_transactions (logs ++ secondary_logs) ∅;
  Ok ((map_to_list
         (filter (λ kv, DiscoveredEvent.signature kv.2 ∈ event_signatures_to_find) found)).*2).
End Discovery.
