(* ===== verification/EventDiscovery.v ===== *)
(** * Ranges of Ethereum blocks and partitions of events

    [primitives/avn-common/src/event_discovery.rs]: the block ranges the
    validators agree on, the partition of a range's events into batches that
    are voted on one after the other, and the filters of event kinds.  A
    [BTreeSet] is the list of its elements in their order. *)

From S2P Require Import Prelude Slices Bytes EventTypes EventParsing.

Definition MAX_INCOMING_EVENTS_BATCH_SIZE : nat := 32.

Module EthBlockRange.
Record t := mk { start_block : Z; length : Z }.
#[global] Instance t_eq : EqDecision t.
Proof. solve_decision. Defined.
Definition next_range (r : t) : t := mk (start_block r ⊕₃₂ length r) (length r).
(** [saturating_less_one] subtracts one. *)
Definition end_block (r : t) : Z := (start_block r ⊕₃₂ length r) ⊖ 1.
Definition range (r : t) : Z * Z := (start_block r, end_block r).
Definition default : t := mk 0 0.
End EthBlockRange.

Module EthereumEventsPartition.
Record t := mk {
  range : EthBlockRange.t; partition : Z; is_last : bool; data : list DiscoveredEvent.t }.
#[global] Instance t_eq : EqDecision t.
Proof. solve_decision. Defined.
End EthereumEventsPartition.

(** ** Filters *)

Module Filters.
Import ValidEvents.
Abbreviation filter := (list ValidEvents.t) (only parsing).
Definition contains (f : filter) (e : ValidEvents.t) : bool := bool_decide (e ∈ f).
Definition retain (p : ValidEvents.t → bool) (f : filter) : filter := List.filter p f.
(** [get_primary] and [get_remaining] of a filter whose [get] is [f]. *)
Definition get_primary (f : filter) : filter :=
  foldl (λ f e, retain (λ x, negb (bool_decide (x = e))) f) f
    (List.filter (negb ∘ is_primary) values).
Definition get_remaining (f : filter) : filter :=
  List.filter (λ e, negb (contains f e)) values.
Definition AllEventsFilter : filter := values.
Definition NoEventsFilter : filter := [].
Definition AllPrimaryEventsFilter : filter := get_primary AllEventsFilter.
Definition NftEventsFilter : filter := List.filter is_nft_event values.
Definition CorePrimaryEventsFilter : filter :=
  retain is_primary (get_remaining NftEventsFilter).
End Filters.

(** ** Partitions *)

(** [slice::chunks]; the fuel bounds the number of chunks. *)
Fixpoint chunks_fuel {A} (fuel n : nat) (l : list A) : list (list A) :=
  match fuel with
  | O => []
  | S fuel =>
      match l with
      | [] => []
      | _ => take n l :: chunks_fuel fuel n (drop n l)
      end
  end.
Definition chunks {A} (n : nat) (l : list A) : list (list A) := chunks_fuel (length l) n l.

(** [BTreeSet::from_iter] sorts and drops repeated elements. *)
Definition events_set (l : list DiscoveredEvent.t) : list DiscoveredEvent.t :=
  dedup_by (λ x y, bool_decide (x = y)) (sort_by DiscoveredEvent.cmp l).

(** [try_for_each] over the chunks: a set above the batch limit would end it. *)
Fixpoint create_chunks (range : EthBlockRange.t) (count i : nat)
    (l : list (list DiscoveredEvent.t)) : list EthereumEventsPartition.t :=
  match l with
  | [] => []
  | chunk :: l =>
      let data := events_set chunk in
      if bool_decide (length data ≤ MAX_INCOMING_EVENTS_BATCH_SIZE)%nat then
        EthereumEventsPartition.mk range (Z.of_nat i mod 65536) (Nat.eqb count (S i)) data
          :: create_chunks range count (S i) l
      else []
  end.
Definition create_partitions (range : EthBlockRange.t) (events : list DiscoveredEvent.t) :
    list EthereumEventsPartition.t :=
  let event_chunks := chunks MAX_INCOMING_EVENTS_BATCH_SIZE (sort_by DiscoveredEvent.cmp events) in
  match create_chunks range (length event_chunks) 0 event_chunks with
  | [] => [EthereumEventsPartition.mk range 0 true []]
  | partitions => partitions
  end.

(** ** The first range *)

Definition compute_start_block_from_finalised_block_number (ethereum_block range_length : Z) :
    option Z :=
  let calculation_block := ethereum_block ⊖ (wrap_to u32_max (5 * range_length)) in
  if bool_decide (range_length = 0) then None
  else Some (calculation_block ⊖ (calculation_block mod range_length)).
