(* ===== verification/EventProps.v ===== *)
(** * Properties of event parsing and discovery *)

From S2P Require Import Prelude Slices Bytes EventTypes EventParsing EventDiscovery.

(** ** Words *)

Definition word (x : N) : bytes := be_bytes WORD_LENGTH x.

#[global] Arguments word : simpl never.

Lemma word_length x : length (word x) = WORD_LENGTH.
Proof. apply be_bytes_length. Qed.
Lemma len_is_true {A} n (l : list A) : length l = n → len_is n l = true.
Proof. intros Hl. by apply bool_decide_eq_true. Qed.
Lemma le_bytes_app k n x :
  le_bytes (k + n) x = le_bytes k x ++ le_bytes n (x / 256 ^ N.of_nat k).
Proof.
  revert x. induction k as [|k IH]; intros x; cbn [le_bytes plus app].
  - by rewrite N.pow_0_r, N.div_1_r.
  - by rewrite IH, Nat2N.inj_succ, N.pow_succ_r', N.Div0.div_div.
Qed.
Lemma be_bytes_app n k x :
  be_bytes (n + k) x = be_bytes n (x / 256 ^ N.of_nat k) ++ be_bytes k x.
Proof. unfold be_bytes. by rewrite Nat.add_comm, le_bytes_app, reverse_app. Qed.
Lemma word_split k x :
  (k ≤ WORD_LENGTH)%nat →
  word x = be_bytes (WORD_LENGTH - k) (x / 256 ^ N.of_nat k) ++ be_bytes k x.
Proof. intros Hk. rewrite <-be_bytes_app. unfold word. f_equal. lia. Qed.
Lemma word_low k x :
  (k ≤ WORD_LENGTH)%nat → slice (WORD_LENGTH - k) WORD_LENGTH (word x) = Some (be_bytes k x).
Proof.
  intros Hk. rewrite (word_split k) by done.
  rewrite (slice_app_r (WORD_LENGTH - k)) by (rewrite ?be_bytes_length; lia).
  replace (WORD_LENGTH - (WORD_LENGTH - k))%nat with k by lia. rewrite Nat.sub_diag.
  apply slice_all, be_bytes_length.
Qed.
Lemma word_high k x :
  (k ≤ WORD_LENGTH)%nat →
  slice 0 (WORD_LENGTH - k) (word x) = Some (be_bytes (WORD_LENGTH - k) (x / 256 ^ N.of_nat k)).
Proof.
  intros Hk. rewrite (word_split k) by done.
  rewrite slice_app_l by (rewrite be_bytes_length; lia). apply slice_all, be_bytes_length.
Qed.
Lemma be_slice_word i x :
  (i ≤ WORD_LENGTH)%nat → (x < 256 ^ N.of_nat (WORD_LENGTH - i))%N →
  be_slice i WORD_LENGTH (word x) = Ok x.
Proof.
  intros Hi Hx. unfold be_slice.
  replace i with (WORD_LENGTH - (WORD_LENGTH - i))%nat at 1 by lia.
  rewrite word_low by lia. cbn [or_panic mbind outcome_bind]. by rewrite from_be_bytes_be.
Qed.
Lemma all_zero_zero n : all_zero (be_bytes n 0) = true.
Proof.
  unfold all_zero. apply forallb_forall. intros y Hy%list_elem_of_In.
  unfold be_bytes in Hy. rewrite elem_of_reverse in Hy.
  assert (∀ n, Forall (λ y, y = 0%N) (le_bytes n 0)) as Hz.
  { clear. induction n; cbn; by constructor. }
  apply (proj1 (Forall_forall _ _) (Hz n)) in Hy as ->. done.
Qed.
Lemma has_high_bytes_word i x :
  (i ≤ WORD_LENGTH)%nat → (x < 256 ^ N.of_nat (WORD_LENGTH - i))%N →
  has_high_bytes i (word x) = Ok false.
Proof.
  intros Hi Hx. unfold has_high_bytes.
  replace i with (WORD_LENGTH - (WORD_LENGTH - i))%nat at 1 by lia.
  rewrite word_high by lia. rewrite N.div_small by done. cbn [or_panic mbind outcome_bind].
  by rewrite all_zero_zero.
Qed.
Lemma from_word x : (x < 256 ^ 32)%N → from_be_bytes (word x) = x.
Proof. apply (from_be_bytes_be WORD_LENGTH). Qed.

Lemma address_of_word_word x : (x < 256 ^ 20)%N → address_of_word (word x) = Ok x.
Proof. intros. apply be_slice_word; [|done]. unfold WORD_LENGTH, DISCARDED_ZERO_BYTES. lia. Qed.
(** A number of [k] bytes, written as a word and read from its last bytes. *)
Lemma u128_of_word_word x : 0 <= x <= u128_max → u128_of_word (word (Z.to_N x)) = Ok x.
Proof.
  intros. unfold u128_of_word. rewrite be_slice_word.
  - cbn. by rewrite Z2N.id by lia.
  - unfold WORD_LENGTH, HALF_WORD_LENGTH. lia.
  - change (Z.to_N x < 340282366920938463463374607431768211456)%N. unfold u128_max in *. lia.
Qed.
Lemma u64_of_word_word x : 0 <= x <= u64_max → u64_of_word (word (Z.to_N x)) = Ok x.
Proof.
  intros. unfold u64_of_word. rewrite be_slice_word.
  - cbn. by rewrite Z2N.id by lia.
  - unfold WORD_LENGTH, TWENTY_FOUR_BYTES. lia.
  - change (Z.to_N x < 18446744073709551616)%N. unfold u64_max in *. lia.
Qed.
Lemma u32_of_word_word x : 0 <= x <= u32_max → u32_of_word (word (Z.to_N x)) = Ok x.
Proof.
  intros. unfold u32_of_word. rewrite be_slice_word.
  - cbn. by rewrite Z2N.id by lia.
  - unfold WORD_LENGTH, TWENTY_EIGHT_BYTES. lia.
  - change (Z.to_N x < 4294967296)%N. unfold u32_max in *. lia.
Qed.
Lemma high_u128_word x :
  0 <= x <= u128_max → has_high_bytes HALF_WORD_LENGTH (word (Z.to_N x)) = Ok false.
Proof.
  intros. apply has_high_bytes_word.
  - unfold WORD_LENGTH, HALF_WORD_LENGTH. lia.
  - change (Z.to_N x < 340282366920938463463374607431768211456)%N. unfold u128_max in *. lia.
Qed.
Lemma high_u64_word x :
  0 <= x <= u64_max → has_high_bytes TWENTY_FOUR_BYTES (word (Z.to_N x)) = Ok false.
Proof.
  intros. apply has_high_bytes_word.
  - unfold WORD_LENGTH, TWENTY_FOUR_BYTES. lia.
  - change (Z.to_N x < 18446744073709551616)%N. unfold u64_max in *. lia.
Qed.

(** ** Logs of the contracts

    How the contracts' ABI lays out each event: indexed arguments are topics
    after the signature, the others are words of the data.  [word x] has the
    last 32 bytes of [x]; a public key takes two topics. *)

Definition is_address (x : N) : Prop := (x < 256 ^ 20)%N.
Definition is_word (x : N) : Prop := (x < 256 ^ 32)%N.
Definition is_u128 (x : Z) : Prop := 0 <= x <= u128_max.
Definition is_u64 (x : Z) : Prop := 0 <= x <= u64_max.
Definition is_u32 (x : Z) : Prop := 0 <= x <= u32_max.

Definition zword (x : Z) : bytes := word (Z.to_N x).
Definition kind_of (e : EventData.t) : ValidEvents.t :=
  match e with
  | EventData.LogAddedValidator _ => ValidEvents.AddedValidator
  | EventData.LogLifted _ | EventData.EmptyEvent => ValidEvents.Lifted
  | EventData.LogNftMinted _ => ValidEvents.NftMint
  | EventData.LogNftTransferTo _ => ValidEvents.NftTransferTo
  | EventData.LogNftCancelListing _ => ValidEvents.NftCancelListing
  | EventData.LogNftEndBatchListing _ => ValidEvents.NftEndBatchListing
  | EventData.LogAvtGrowthLifted _ => ValidEvents.AvtGrowthLifted
  | EventData.LogLowerClaimed _ => ValidEvents.AvtLowerClaimed
  | EventData.LogLowerReverted _ => ValidEvents.LowerReverted
  | EventData.LogLiftedToPredictionMarket _ => ValidEvents.LiftedToPredictionMarket
  | EventData.LogErc20Transfer _ => ValidEvents.Erc20DirectTransfer
  | EventData.LogRewardsMinted _ => ValidEvents.AvtRewardsMinted
  end.
Definition log_data (e : EventData.t) : option bytes :=
  match e with
  | EventData.LogAddedValidator d => Some (word (AddedValidatorData.validator_account_id d))
  | EventData.LogLifted d | EventData.LogLiftedToPredictionMarket d
  | EventData.LogErc20Transfer d => Some (zword (LiftedData.amount d))
  | EventData.LogNftMinted d =>
      Some (word 32 ++ word 36 ++ NftMintData.unique_external_ref d ++ replicate 28 0%N)
  | EventData.LogLowerReverted d =>
      Some (zword (LowerRevertedData.amount d) ++ zword (LowerRevertedData.lower_id d))
  | _ => None
  end.
Definition log_args (e : EventData.t) : list bytes :=
  match e with
  | EventData.LogAddedValidator d =>
      [word (AddedValidatorData.eth_public_key d / 256 ^ 32);
       word (AddedValidatorData.eth_public_key d);
       word (AddedValidatorData.t2_address d)]
  | EventData.LogLifted d | EventData.LogLiftedToPredictionMarket d =>
      [word (LiftedData.token_contract d); word (LiftedData.receiver_address d)]
  | EventData.LogErc20Transfer d =>
      [word (LiftedData.sender_address d); word (LiftedData.receiver_address d)]
  | EventData.EmptyEvent => []
  | EventData.LogNftMinted d =>
      [word (NftMintData.batch_id d); zword (NftMintData.sale_index d);
       word (NftMintData.t2_owner_public_key d)]
  | EventData.LogNftTransferTo d =>
      [word (NftTransferToData.nft_id d); word (NftTransferToData.t2_transfer_to_public_key d);
       zword (NftTransferToData.op_id d)]
  | EventData.LogNftCancelListing d =>
      [word (NftCancelListingData.nft_id d); zword (NftCancelListingData.op_id d)]
  | EventData.LogNftEndBatchListing d => [word (NftEndBatchListingData.batch_id d)]
  | EventData.LogAvtGrowthLifted d =>
      [zword (AvtGrowthLiftedData.amount d); zword (AvtGrowthLiftedData.period d)]
  | EventData.LogLowerClaimed d => [zword (AvtLowerClaimedData.lower_id d)]
  | EventData.LogLowerReverted d =>
      [word (LowerRevertedData.token_contract d); word (LowerRevertedData.receiver_address d);
       word (LowerRevertedData.t1_recipient d)]
  | EventData.LogRewardsMinted d =>
      [zword (TotalSupplyUpdatedData.amount d); zword (TotalSupplyUpdatedData.new_supply d);
       zword (TotalSupplyUpdatedData.t2_tx_id d)]
  end.
Definition log_topics (e : EventData.t) : list bytes :=
  word (ValidEvents.signature (kind_of e)) :: log_args e.

(** The event data a log can carry: every field fits its type, and the fields
    that are kept for compatibility are zero. *)
Definition representable (e : EventData.t) : Prop :=
  match e with
  | EventData.LogAddedValidator d =>
      (AddedValidatorData.eth_public_key d < 256 ^ 64)%N ∧
      is_word (AddedValidatorData.t2_address d) ∧
      is_word (AddedValidatorData.validator_account_id d)
  | EventData.LogLifted d | EventData.LogLiftedToPredictionMarket d =>
      is_address (LiftedData.token_contract d) ∧ is_word (LiftedData.receiver_address d) ∧
      is_u128 (LiftedData.amount d) ∧ LiftedData.sender_address d = 0%N ∧ LiftedData.nonce d = 0%N
  | EventData.LogErc20Transfer d =>
      is_address (LiftedData.sender_address d) ∧ is_address (LiftedData.receiver_address d) ∧
      is_u128 (LiftedData.amount d) ∧ LiftedData.token_contract d = 0%N ∧ LiftedData.nonce d = 0%N
  | EventData.EmptyEvent => False
  | EventData.LogNftMinted d =>
      is_word (NftMintData.batch_id d) ∧ is_word (NftMintData.t2_owner_public_key d) ∧
      is_u64 (NftMintData.sale_index d) ∧ NftMintData.op_id d = 0 ∧
      NftMintData.t1_contract_issuer d = 0%N ∧
      length (NftMintData.unique_external_ref d) = 36%nat
  | EventData.LogNftTransferTo d =>
      is_word (NftTransferToData.nft_id d) ∧
      is_word (NftTransferToData.t2_transfer_to_public_key d) ∧ is_u64 (NftTransferToData.op_id d)
  | EventData.LogNftCancelListing d =>
      is_word (NftCancelListingData.nft_id d) ∧ is_u64 (NftCancelListingData.op_id d)
  | EventData.LogNftEndBatchListing d => is_word (NftEndBatchListingData.batch_id d)
  | EventData.LogAvtGrowthLifted d =>
      is_u128 (AvtGrowthLiftedData.amount d) ∧ is_u32 (AvtGrowthLiftedData.period d)
  | EventData.LogLowerClaimed d => is_u32 (AvtLowerClaimedData.lower_id d)
  | EventData.LogLowerReverted d =>
      is_address (LowerRevertedData.token_contract d) ∧
      is_word (LowerRevertedData.receiver_address d) ∧
      is_address (LowerRevertedData.t1_recipient d) ∧ is_u128 (LowerRevertedData.amount d) ∧
      is_u32 (LowerRevertedData.lower_id d)
  | EventData.LogRewardsMinted d =>
      is_u128 (TotalSupplyUpdatedData.amount d) ∧ is_u128 (TotalSupplyUpdatedData.new_supply d) ∧
      is_u32 (TotalSupplyUpdatedData.t2_tx_id d)
  end.

(** Run a parser on a log of words. *)
Ltac parse_tac :=
  repeat first
    [ progress cbn [mbind outcome_bind or_err or_panic check andb negb topic index lookup list_lookup]
    | rewrite len_is_true by (done || apply word_length)
    | rewrite bool_decide_true by done
    | rewrite address_of_word_word by done
    | rewrite high_u128_word by done
    | rewrite high_u64_word by done
    | rewrite u128_of_word_word by done
    | rewrite u64_of_word_word by done
    | rewrite u32_of_word_word by done
    | rewrite from_word by done ].

Lemma added_validator_roundtrip d :
  let e := EventData.LogAddedValidator d in representable e →
  AddedValidatorData.parse_bytes (log_data e) (log_topics e) = Ok d.
Proof.
  intros e (Hk&Ht&Hv). unfold e, log_topics, AddedValidatorData.parse_bytes. cbn [log_data log_args].
  parse_tac. destruct d as [k t2 v]. cbn in Hk, Ht, Hv |- *.
  unfold word at 1 2. rewrite <-(be_bytes_app 32 32), from_be_bytes_be by done. by parse_tac.
Qed.
Lemma lifted_roundtrip d :
  let e := EventData.LogLifted d in representable e →
  LiftedData.parse_bytes (log_data e) (log_topics e) = Ok d.
Proof.
  intros e (Ht&Hr&Ha&Hs&Hn). unfold e, log_topics, LiftedData.parse_bytes, zword.
  cbn [log_data log_args]. unfold zword. parse_tac. destruct d. cbn in *. by subst.
Qed.
Lemma erc20_roundtrip d :
  let e := EventData.LogErc20Transfer d in representable e →
  LiftedData.from_erc_20_contract_transfer_bytes (log_data e) (log_topics e) = Ok d.
Proof.
  intros e (Hs&Hr&Ha&Ht&Hn). unfold e, log_topics, LiftedData.from_erc_20_contract_transfer_bytes.
  cbn [log_data log_args]. unfold zword. parse_tac. destruct d. cbn in *. by subst.
Qed.
Lemma nft_mint_roundtrip d :
  let e := EventData.LogNftMinted d in representable e →
  NftMintData.parse_bytes (log_data e) (log_topics e) = Ok d.
Proof.
  intros e (Hb&Ho&Hs&Hop&Hi&Hr). unfold e, log_topics, NftMintData.parse_bytes.
  cbn [log_data log_args]. unfold zword. cbn [or_err mbind outcome_bind].
  rewrite (len_is_true (4 * WORD_LENGTH)) by (rewrite !length_app, !word_length, Hr; done). parse_tac.
  rewrite app_assoc, (slice_app_r 64), slice_app_l, slice_all
    by (rewrite ?length_app, ?word_length, ?Hr; unfold WORD_LENGTH, BYTE_LENGTH; lia).
  cbn [or_panic mbind outcome_bind]. rewrite bool_decide_true
    by (rewrite Hr; unfold NftMintData.NftExternalRefBound; lia).
  cbn. destruct d. cbn in *. by subst.
Qed.
Lemma lower_reverted_roundtrip d :
  let e := EventData.LogLowerReverted d in representable e →
  LowerRevertedData.parse_bytes (log_data e) (log_topics e) = Ok d.
Proof.
  intros e (Ht&Hr&Hc&Ha&Hl). unfold e, log_topics, LowerRevertedData.parse_bytes.
  cbn [log_data log_args]. unfold zword. cbn [or_err mbind outcome_bind].
  rewrite (len_is_true (2 * WORD_LENGTH)) by (rewrite !length_app, !word_length; done). parse_tac.
  rewrite (slice_app_l 0 WORD_LENGTH), slice_all by (rewrite ?word_length; lia). parse_tac.
  rewrite (slice_app_r WORD_LENGTH), Nat.sub_diag, slice_all
    by (rewrite ?word_length; unfold WORD_LENGTH; lia).
  parse_tac. by destruct d.
Qed.

Lemma registry_run {A} k (f : A → EventData.t) parse_bytes data topics d :
  EventRegistry !! ValidEvents.signature k = Some (EventInfo f parse_bytes) →
  parse_bytes data topics = Ok d →
  parse_event_data (ValidEvents.signature k) data topics = Ok (f d).
Proof. intros Hp Hd. unfold parse_event_data. rewrite Hp. cbn. unfold EventInfo. by rewrite Hd. Qed.

Definition ex_reverted : EventData.t :=
  EventData.LogLowerReverted (LowerRevertedData.mk 0xA1 77 0xB2 1000 5).

(** ** The two dispatchers *)

Definition of_app_error (e : AppError.t) : EthereumEventsParse.error :=
  match e with
  | AppError.ParsingError _ => EthereumEventsParse.EventParsingFailed
  | _ => EthereumEventsParse.UnrecognizedEventSignature
  end.

Lemma run_agree {A} (f : A → EventData.t) parse_bytes data topics :
  map_ok f (map_err (λ _, EthereumEventsParse.EventParsingFailed) (parse_bytes data topics)) =
  map_err of_app_error (EventInfo f parse_bytes data topics).
Proof. unfold EventInfo, map_ok. by destruct (parse_bytes data topics). Qed.

(** C33: the runtime and the node read a log the same way: for every signature
    but that of a direct ERC-20 transfer, which the runtime does not recognise,
    [parse_tier1_event] returns what the node's registry returns. *)
Theorem parsers_agree event_id data topics :
  EthereumEventsParse.parse_tier1_event event_id data topics =
  if N.eqb (EthEventId.signature event_id) (ValidEvents.signature ValidEvents.Erc20DirectTransfer)
  then Err EthereumEventsParse.UnrecognizedEventSignature
  else map_err of_app_error (parse_event_data (EthEventId.signature event_id) data topics).
Proof.
  destruct event_id as [sig tx]. cbn [EthEventId.signature].
  unfold EthereumEventsParse.parse_tier1_event. cbn [EthEventId.signature].
  destruct (ValidEvents.try_from sig) as [k|] eqn:Hk.
  - apply List.find_some in Hk as [_ <-%N.eqb_eq].
    destruct k; cbn -[EventRegistry]; try apply run_agree; reflexivity.
  - assert (∀ k, N.eqb sig (ValidEvents.signature k) = false) as Hno.
    { intros k. apply N.eqb_neq. intros ->.
      pose proof (List.find_none _ _ Hk k) as Hf. cbv beta in Hf. rewrite N.eqb_refl in Hf.
      assert (In k ValidEvents.values) as Hin by (destruct k; cbv; tauto). by specialize (Hf Hin). }
    rewrite !Hno. unfold parse_event_data.
    assert (EventRegistry !! sig = None) as ->; [|done].
    apply not_elem_of_list_to_map_1. rewrite fmap_reverse, elem_of_reverse. cbn [fmap list_fmap fst].
    intros Hin. setoid_rewrite N.eqb_neq in Hno.
    repeat (apply elem_of_cons in Hin as [Hin|Hin]; [by eapply Hno|]). by apply elem_of_nil in Hin.
Qed.

(** ** Panics *)

Lemma be_slice_total i l :
  length l = WORD_LENGTH → (i ≤ WORD_LENGTH)%nat → ∃ x, be_slice i WORD_LENGTH l = Ok x.
Proof. intros Hl Hi. unfold be_slice. rewrite slice_Some by lia. by eexists. Qed.
Lemma has_high_bytes_total n l : (n ≤ length l)%nat → ∃ x, has_high_bytes n l = Ok x.
Proof. intros Hl. unfold has_high_bytes. rewrite slice_Some by lia. by eexists. Qed.
Lemma address_total l : length l = WORD_LENGTH → ∃ x, address_of_word l = Ok x.
Proof. intros Hl. apply be_slice_total; [done|]. unfold DISCARDED_ZERO_BYTES, WORD_LENGTH. lia. Qed.
Lemma u128_total l : length l = WORD_LENGTH → ∃ x, u128_of_word l = Ok x.
Proof.
  intros Hl. unfold u128_of_word. destruct (be_slice_total HALF_WORD_LENGTH l) as [x ->]; [done| |by eexists].
  unfold HALF_WORD_LENGTH, WORD_LENGTH. lia.
Qed.
Lemma u64_total l : length l = WORD_LENGTH → ∃ x, u64_of_word l = Ok x.
Proof.
  intros Hl. unfold u64_of_word. destruct (be_slice_total TWENTY_FOUR_BYTES l) as [x ->]; [done| |by eexists].
  unfold TWENTY_FOUR_BYTES, WORD_LENGTH. lia.
Qed.
Lemma u32_total l : length l = WORD_LENGTH → ∃ x, u32_of_word l = Ok x.
Proof.
  intros Hl. unfold u32_of_word. destruct (be_slice_total TWENTY_EIGHT_BYTES l) as [x ->]; [done| |by eexists].
  unfold TWENTY_EIGHT_BYTES, WORD_LENGTH. lia.
Qed.
Lemma high_half_total l : length l = WORD_LENGTH → ∃ x, has_high_bytes HALF_WORD_LENGTH l = Ok x.
Proof. intros Hl. apply has_high_bytes_total. rewrite Hl. unfold HALF_WORD_LENGTH, WORD_LENGTH. lia. Qed.

(** Case analysis of the checks of a parser. *)
Ltac no_panic_tac :=
  repeat first
    [ done
    | progress cbn [mbind outcome_bind or_err or_panic check topic index lookup list_lookup]
    | match goal with
      | H : (_ && _) = true |- _ => apply andb_prop in H as [? ?]
      | H : len_is _ _ = true |- _ => apply bool_decide_eq_true in H
      | |- context [address_of_word ?l] => destruct (address_total l ltac:(assumption)) as [? ->]
      | |- context [u128_of_word ?l] => destruct (u128_total l ltac:(assumption)) as [? ->]
      | |- context [u64_of_word ?l] => destruct (u64_total l ltac:(assumption)) as [? ->]
      | |- context [u32_of_word ?l] => destruct (u32_total l ltac:(assumption)) as [? ->]
      | |- context [has_high_bytes HALF_WORD_LENGTH ?l] =>
          destruct (high_half_total l ltac:(assumption)) as [? ->]
      | |- context [check ?b ?e] => destruct b eqn:?
      end ].
Ltac no_panic_topics topics :=
  destruct topics as [|? [|? [|? [|? [|? ?]]]]]; no_panic_tac.

Lemma added_validator_no_panic data topics :
  no_panic (AddedValidatorData.parse_bytes data topics) = true.
Proof. unfold AddedValidatorData.parse_bytes. destruct data; [|done]. no_panic_topics topics. Qed.
Lemma lifted_no_panic data topics : no_panic (LiftedData.parse_bytes data topics) = true.
Proof. unfold LiftedData.parse_bytes. destruct data; [|done]. no_panic_topics topics. Qed.
Lemma nft_transfer_no_panic data topics : no_panic (NftTransferToData.parse_bytes data topics) = true.
Proof. unfold NftTransferToData.parse_bytes. destruct data; [done|]. no_panic_topics topics. Qed.
Lemma nft_end_batch_no_panic data topics :
  no_panic (NftEndBatchListingData.parse_bytes data topics) = true.
Proof. unfold NftEndBatchListingData.parse_bytes. destruct data; [done|]. no_panic_topics topics. Qed.
Lemma growth_no_panic data topics : no_panic (AvtGrowthLiftedData.parse_bytes data topics) = true.
Proof. unfold AvtGrowthLiftedData.parse_bytes. destruct data; [done|]. no_panic_topics topics. Qed.
Lemma lower_claimed_no_panic data topics :
  no_panic (AvtLowerClaimedData.parse_bytes data topics) = true.
Proof. unfold AvtLowerClaimedData.parse_bytes. destruct data; [done|]. no_panic_topics topics. Qed.
Lemma supply_no_panic data topics : no_panic (TotalSupplyUpdatedData.parse_bytes data topics) = true.
Proof. unfold TotalSupplyUpdatedData.parse_bytes. destruct data; [done|]. no_panic_topics topics. Qed.
Lemma nft_mint_no_panic data topics : no_panic (NftMintData.parse_bytes data topics) = true.
Proof.
  unfold NftMintData.parse_bytes. destruct data as [data|]; [|done]. cbn [or_err mbind outcome_bind].
  destruct (len_is (4 * WORD_LENGTH) data) eqn:Hd; [|done]. apply bool_decide_eq_true in Hd.
  rewrite slice_Some by (rewrite ?Hd; unfold WORD_LENGTH, BYTE_LENGTH; lia). no_panic_topics topics.
Qed.
Lemma lower_reverted_no_panic data topics :
  no_panic (LowerRevertedData.parse_bytes data topics) = true.
Proof.
  unfold LowerRevertedData.parse_bytes. destruct data as [data|]; [|done].
  cbn [or_err mbind outcome_bind].
  destruct (len_is (2 * WORD_LENGTH) data) eqn:Hd; [|done]. apply bool_decide_eq_true in Hd.
  rewrite !slice_Some by (rewrite ?Hd; unfold WORD_LENGTH; lia).
  set (amt := take _ (drop 0 _)). set (id := take _ (drop WORD_LENGTH _)).
  assert (length amt = WORD_LENGTH) by (unfold amt; rewrite length_take, length_drop, Hd; done).
  assert (length id = WORD_LENGTH) by (unfold id; rewrite length_take, length_drop, Hd; done).
  no_panic_topics topics.
Qed.
(** The operation topic is read before its length is known. *)
Lemma nft_cancel_panic data topics :
  no_panic (NftCancelListingData.parse_bytes data topics) = false →
  ∃ op, topics !! 2%nat = Some op ∧ (length op < WORD_LENGTH)%nat.
Proof.
  unfold NftCancelListingData.parse_bytes. destruct data as [data|]; [done|].
  destruct topics as [|t0 [|t1 [|op [|? ?]]]]; try done. intros Hp. exists op. split; [done|].
  destruct (decide (length op < WORD_LENGTH)%nat) as [|Hge]; [done|]. exfalso. revert Hp.
  cbn [mbind outcome_bind check topic index lookup list_lookup or_panic].
  rewrite bool_decide_true by done. cbn [mbind outcome_bind check].
  rewrite (len_is_true 3) by done. cbn [mbind outcome_bind check].
  destruct (len_is WORD_LENGTH t1); [|done]. cbn [mbind outcome_bind check].
  unfold WORD_LENGTH in Hge. destruct (has_high_bytes_total TWENTY_FOUR_BYTES op) as [h ->].
  { unfold TWENTY_FOUR_BYTES. lia. }
  destruct h; [done|]. cbn [mbind outcome_bind check negb].
  unfold u64_of_word, be_slice, WORD_LENGTH. rewrite slice_Some by (unfold TWENTY_FOUR_BYTES; lia). done.
Qed.
Lemma no_panic_run {A E} (f : A → EventData.t) (g : EventError.t → E) (r : outcome EventError.t A) :
  no_panic (map_ok f (map_err g r)) = no_panic r.
Proof. by destruct r. Qed.

(** C38: reading a log on chain never panics, whatever its data and topics are,
    unless it claims to be a cancelled NFT listing whose operation topic is
    shorter than a word. *)
Theorem parse_tier1_event_panic event_id data topics :
  EthereumEventsParse.parse_tier1_event event_id data topics = Panic →
  EthEventId.signature event_id = ValidEvents.signature ValidEvents.NftCancelListing ∧
  ∃ op, topics !! 2%nat = Some op ∧ (length op < WORD_LENGTH)%nat.
Proof.
  intros Hp. assert (no_panic (EthereumEventsParse.parse_tier1_event event_id data topics) = false)
    as Hn by (by rewrite Hp). clear Hp. revert Hn. unfold EthereumEventsParse.parse_tier1_event.
  repeat (match goal with |- context [N.eqb ?x ?y] => destruct (N.eqb x y) eqn:? end;
    [rewrite no_panic_run|]); try done;
    rewrite ?added_validator_no_panic, ?lifted_no_panic, ?nft_mint_no_panic, ?nft_transfer_no_panic,
      ?nft_end_batch_no_panic, ?growth_no_panic, ?lower_claimed_no_panic, ?lower_reverted_no_panic,
      ?supply_no_panic; try done.
  intros Hn. split; [by apply N.eqb_eq|by apply nft_cancel_panic in Hn].
Qed.
(** A listing cancelled with an operation topic of four bytes. *)
Lemma parse_tier1_panic_witness :
  let topics := [word 0; word 7; [0; 0; 0; 1]%N] in
  EthereumEventsParse.parse_tier1_event
    (EthEventId.mk (ValidEvents.signature ValidEvents.NftCancelListing) 1) None topics = Panic ∧
  ∃ op, topics !! 2%nat = Some op ∧ (length op < WORD_LENGTH)%nat.
Proof.
  split; [by vm_compute|].
  apply (parse_tier1_event_panic
    (EthEventId.mk (ValidEvents.signature ValidEvents.NftCancelListing) 1) None). by vm_compute.
Defined.

(** ** Discovery *)

Definition first_log (tx : H256) (logs : list ChainLog.t) : option ChainLog.t :=
  List.find (λ log, bool_decide (ChainLog.transaction_hash log = Some tx)) logs.

Lemma unique_transactions_spec logs seen found :
  unique_transactions logs seen = Ok found →
  ∀ tx ev, found !! tx = Some ev ↔
    seen !! tx = Some ev ∨
    seen !! tx = None ∧ ∃ log, first_log tx logs = Some log ∧ parse_log log = Ok ev.
Proof.
  revert seen. induction logs as [|log logs IH]; intros seen Hrun tx ev; cbn in Hrun |- *.
  { injection Hrun as ->. split; [auto|]. by intros [?|(_&?&?&_)]. }
  destruct (ChainLog.transaction_hash log) as [h|] eqn:Hh.
  2:{ rewrite (IH _ Hrun). by rewrite bool_decide_false. }
  destruct (seen !! h) as [ev'|] eqn:Hs.
  { rewrite (IH _ Hrun). destruct (decide (h = tx)) as [<-|Hne].
    - rewrite Hs. split; (intros [?|[? _]]; [by left|done]).
    - rewrite bool_decide_false by congruence. done. }
  destruct (parse_log log) as [ev'|e|] eqn:Hp; [|done..]. cbn in Hrun. rewrite (IH _ Hrun).
  destruct (decide (h = tx)) as [<-|Hne].
  - rewrite lookup_insert_eq, Hs, bool_decide_true by done. split.
    + intros [[= ->]|[? _]]; [|done]. right. eauto.
    + intros [?|(_&log'&[= <-]&Hp')]; [done|]. left. congruence.
  - by rewrite lookup_insert_ne, bool_decide_false by congruence.
Qed.
Lemma parse_log_hash log ev tx :
  parse_log log = Ok ev → ChainLog.transaction_hash log = Some tx → DiscoveredEvent.tx_hash ev = tx.
Proof.
  unfold parse_log. intros Hp Ht. rewrite Ht in Hp.
  destruct (head _); [|done]. destruct (ChainLog.block_number log); [|done]. cbn in Hp.
  destruct (parse_event_data _ _ _); [|done..]. by injection Hp as <-.
Qed.

(** The events a node reports for a range: one per transaction, taken from
    the first log of the transaction with the bridge's own logs before those of
    other contracts, and only of the kinds asked for. *)
Theorem identify_events_correct get_logs from to contracts signatures events :
  identify_events get_logs from to contracts signatures = Ok events →
  NoDup (DiscoveredEvent.tx_hash <$> events) ∧
  ∃ primary secondary,
    identify_primary_bridge_events get_logs from to contracts
      (List.filter ValidEvents.is_primary ValidEvents.values) = Ok primary ∧
    ∀ ev, ev ∈ events ↔
      DiscoveredEvent.signature ev ∈ signatures ∧
      ∃ log, first_log (DiscoveredEvent.tx_hash ev) (primary ++ secondary) = Some log ∧
        parse_log log = Ok ev.
Proof.
  unfold identify_events. intros Hrun.
  destruct (identify_primary_bridge_events _ _ _ _ _) as [primary|e|]; [|done..]. cbn in Hrun.
  destruct (if existsb _ _ then _ else _) as [secondary|e|]; [|done..]. cbn in Hrun.
  destruct (unique_transactions _ _) as [found|e|] eqn:Hu; [|done..]. injection Hrun as <-.
  set (kept := filter _ found). pose proof (unique_transactions_spec _ _ _ Hu) as Hspec.
  assert (∀ tx ev, found !! tx = Some ev → DiscoveredEvent.tx_hash ev = tx) as Hkey.
  { intros tx ev [Hn|(_&log&Hf&Hp)]%Hspec; [done|].
    apply List.find_some in Hf as [_ Hf%bool_decide_eq_true]. by eapply parse_log_hash. }
  split.
  - assert (DiscoveredEvent.tx_hash <$> (map_to_list kept).*2 = (map_to_list kept).*1) as ->;
      [|apply NoDup_fst_map_to_list].
    rewrite <-list_fmap_compose. apply list_fmap_ext. intros i [tx ev] Hi%list_elem_of_lookup_2.
    apply elem_of_map_to_list, map_lookup_filter_Some in Hi as [Hi _]. cbn. by apply Hkey.
  - exists primary, secondary. split; [done|]. intros ev. rewrite list_elem_of_fmap. split.
    + intros ([tx ev']&->&Hi). apply elem_of_map_to_list, map_lookup_filter_Some in Hi as [Hi Hs].
      split; [done|]. cbn [snd]. rewrite (Hkey _ _ Hi). apply Hspec in Hi as [Hn|(_&log&Hf&Hp)]; [done|eauto].
    + intros (Hs&log&Hf&Hp). exists (DiscoveredEvent.tx_hash ev, ev). split; [done|].
      apply elem_of_map_to_list, map_lookup_filter_Some. split; [|done].
      apply Hspec. right. split; [apply lookup_empty|eauto].
Qed.
(** A range with two lifts and a claimed lower; the claim's transaction also
    moved an ERC-20 token to the bridge. *)
Definition ex_log (tx : H256) (block : Z) (e : EventData.t) : ChainLog.t :=
  ChainLog.mk 0xCC (from_be_bytes <$> log_topics e) (default [] (log_data e)) (Some tx) (Some block).
Definition ex_lift (amount : Z) : EventData.t := EventData.LogLifted (LiftedData.mk 0xA1 0 9 amount 0).
Definition ex_get_logs (f : LogFilter.t) : option (list ChainLog.t) :=
  match LogFilter.addresses f with
  | [] => Some [ex_log 3 12 (EventData.LogErc20Transfer (LiftedData.mk 0 0xD0 0xCC 4 0))]
  | _ => Some [ex_log 1 10 (ex_lift 5); ex_log 2 11 (ex_lift 6);
               ex_log 3 12 (EventData.LogLowerClaimed (AvtLowerClaimedData.mk 8))]
  end.
Definition ex_signatures : list H256 :=
  ValidEvents.signature <$> [ValidEvents.Lifted; ValidEvents.Erc20DirectTransfer].
Definition ex_found : list DiscoveredEvent.t :=
  match identify_events ex_get_logs 10 20 [0xCC%N] ex_signatures with Ok l => l | _ => [] end.
Lemma identify_events_witness :
  identify_events ex_get_logs 10 20 [0xCC%N] ex_signatures = Ok ex_found ∧
  length ex_found = 2%nat ∧ NoDup (DiscoveredEvent.tx_hash <$> ex_found).
Proof.
  split; [by vm_compute|]. split; [by vm_compute|].
  refine (proj1 (identify_events_correct ex_get_logs 10 20 [0xCC%N] ex_signatures _ _)).
  by vm_compute.
Defined.

(** ** Partitions *)

Lemma event_cmp_total x y : DiscoveredEvent.cmp x y = Gt → DiscoveredEvent.cmp y x ≠ Gt.
Proof.
  unfold DiscoveredEvent.cmp. rewrite (Z.compare_antisym (DiscoveredEvent.block x)).
  destruct (Z.compare _ _) eqn:Hz; cbn; try done. rewrite (N.compare_antisym (DiscoveredEvent.tx_hash x)).
  by destruct (N.compare _ _).
Qed.
Lemma event_cmp_le x y :
  DiscoveredEvent.cmp x y ≠ Gt ↔
  DiscoveredEvent.block x < DiscoveredEvent.block y ∨
  DiscoveredEvent.block x = DiscoveredEvent.block y ∧
    (DiscoveredEvent.tx_hash x <= DiscoveredEvent.tx_hash y)%N.
Proof.
  unfold DiscoveredEvent.cmp, N.le. destruct (Z.compare_spec (DiscoveredEvent.block x)
    (DiscoveredEvent.block y)); split; intros; try done; try lia; auto.
  destruct H0; [lia|tauto].
Qed.
Lemma event_cmp_trans x y z :
  DiscoveredEvent.cmp x y ≠ Gt → DiscoveredEvent.cmp y z ≠ Gt → DiscoveredEvent.cmp x z ≠ Gt.
Proof. rewrite !event_cmp_le. lia. Qed.

Definition event_le (x y : DiscoveredEvent.t) : Prop := DiscoveredEvent.cmp x y ≠ Gt.
(** A block and a transaction identify an event. *)
Definition keyed (l : list DiscoveredEvent.t) : Prop :=
  NoDup ((λ e, (DiscoveredEvent.block e, DiscoveredEvent.tx_hash e)) <$> l).

Lemma keyed_antisym l x y :
  keyed l → x ∈ l → y ∈ l → event_le x y → event_le y x → x = y.
Proof.
  unfold event_le. rewrite !event_cmp_le. intros Hk Hx Hy Hxy Hyx.
  apply list_elem_of_lookup_1 in Hx as [i Hi]. apply list_elem_of_lookup_1 in Hy as [j Hj].
  assert (i = j) as ->; [|congruence].
  eapply (NoDup_lookup _ _ _ _ Hk); rewrite list_lookup_fmap; [by rewrite Hi|].
  rewrite Hj. cbn. f_equal. f_equal; lia.
Qed.
Lemma sort_perm_eq l l' :
  keyed l → l ≡ₚ l' → sort_by DiscoveredEvent.cmp l = sort_by DiscoveredEvent.cmp l'.
Proof.
  intros Hk Hp. pose proof event_cmp_total. pose proof event_cmp_trans.
  apply (StronglySorted_unique_strong event_le); [|by apply sort_by_sorted..|by rewrite !sort_by_perm].
  intros x y. rewrite !sort_by_perm, <-Hp. by apply keyed_antisym.
Qed.
Lemma chunks_fuel_spec {A} fuel n (l : list A) :
  (0 < n)%nat → (length l ≤ fuel)%nat →
  concat (chunks_fuel fuel n l) = l ∧ Forall (λ c, length c ≤ n)%nat (chunks_fuel fuel n l) ∧
  (length (chunks_fuel fuel n l) * n < length l + n)%nat.
Proof.
  intros Hn. revert l. induction fuel as [|fuel IH]; intros l Hl.
  { destruct l; [|cbn in Hl; lia]. cbn. split_and!; [done|constructor|lia]. }
  cbn. destruct l as [|x l]; [cbn; split_and!; [done|constructor|lia]|].
  destruct (IH (drop n (x :: l))) as (Hc&Hf&Hlen).
  { rewrite length_drop. cbn in *. lia. }
  cbn [concat]. rewrite Hc, take_drop. split_and!; [done| |].
  - constructor; [|done]. rewrite length_take. lia.
  - rewrite length_drop in Hlen. cbn [length] in *.
    generalize dependent (length (chunks_fuel fuel n (drop n (x :: l)))). intros k Hlen.
    destruct (decide (n ≤ S (length l))%nat); [lia|]. destruct k as [|k]; nia.
Qed.
Lemma sorted_app_inv (l k : list DiscoveredEvent.t) :
  StronglySorted event_le (l ++ k) → StronglySorted event_le l ∧ StronglySorted event_le k.
Proof.
  induction l as [|x l IH]; cbn; [by split; [constructor|]|].
  intros [Hx Hl]%StronglySorted_cons. apply IH in Hl as [Hl Hk]. split; [|done].
  apply StronglySorted_cons. split; [|done]. apply Forall_app in Hx. tauto.
Qed.
Lemma dedup_nodup {A} `{EqDecision A} (l : list A) :
  NoDup l → dedup_by (λ x y, bool_decide (x = y)) l = l.
Proof.
  induction l as [|x l IH]; intros Hl; [done|]. apply NoDup_cons in Hl as [Hx Hl].
  cbn. rewrite IH by done. destruct l as [|y l]; [done|].
  rewrite bool_decide_false; [done|]. intros ->. set_solver.
Qed.
Lemma events_set_id l : StronglySorted event_le l → NoDup l → events_set l = l.
Proof.
  intros Hs Hn. unfold events_set. rewrite sort_by_sorted_id; [by apply dedup_nodup|done].
Qed.
Lemma create_chunks_spec range count i l :
  StronglySorted event_le (concat l) → NoDup (concat l) →
  Forall (λ c, length c ≤ MAX_INCOMING_EVENTS_BATCH_SIZE)%nat l → Z.of_nat i + Z.of_nat (length l) <= 65536 →
  (EthereumEventsPartition.data <$> create_chunks range count i l) = l ∧
  ∀ j p, create_chunks range count i l !! j = Some p →
    EthereumEventsPartition.range p = range ∧
    EthereumEventsPartition.partition p = Z.of_nat (i + j) ∧
    EthereumEventsPartition.is_last p = Nat.eqb count (S (i + j)).
Proof.
  revert i. induction l as [|c l IH]; intros i Hs Hn Hf Hi; [done|]. cbn in Hs, Hn |- *.
  apply sorted_app_inv in Hs as [Hsc Hs]. apply NoDup_app in Hn as (Hnc&_&Hn).
  apply Forall_cons in Hf as [Hc Hf]. cbn [length] in Hi. rewrite events_set_id, bool_decide_true by done.
  destruct (IH (S i) Hs Hn Hf ltac:(lia)) as [Hd Hp]. cbn. rewrite Hd. split; [done|].
  intros [|j] p Hj; cbn in Hj.
  - injection Hj as <-. cbn. rewrite Nat.add_0_r, Z.mod_small by lia. done.
  - apply Hp in Hj. by rewrite Nat.add_succ_r.
Qed.

(** All nodes cut the events of a range into the same batches, in whatever
    order they found them: the batches, put one after the other, are the events
    in order; no batch is above the limit; batches are numbered in order, and
    exactly the last one is marked as last. *)
Theorem partitions_correct range l l' :
  keyed l → l ≡ₚ l' → Z.of_nat (length l) <= 32 * 65535 →
  let partitions := create_partitions range l in
  create_partitions range l' = partitions ∧
  concat (EthereumEventsPartition.data <$> partitions) = sort_by DiscoveredEvent.cmp l ∧
  ∀ i p, partitions !! i = Some p →
    EthereumEventsPartition.range p = range ∧
    (length (EthereumEventsPartition.data p) ≤ MAX_INCOMING_EVENTS_BATCH_SIZE)%nat ∧
    EthereumEventsPartition.partition p = Z.of_nat i ∧
    EthereumEventsPartition.is_last p = Nat.eqb (length partitions) (S i).
Proof.
  intros Hk Hp Hlen. unfold create_partitions. rewrite <-(sort_perm_eq l l') by done.
  set (sorted := sort_by _ l). set (cs := chunks _ sorted). split; [done|].
  assert (length sorted = length l) as Hsl by (unfold sorted; by rewrite sort_by_perm).
  destruct (chunks_fuel_spec (length sorted) MAX_INCOMING_EVENTS_BATCH_SIZE sorted)
    as (Hc&Hf&Hn); [unfold MAX_INCOMING_EVENTS_BATCH_SIZE; lia|done|].
  fold (chunks MAX_INCOMING_EVENTS_BATCH_SIZE sorted) in Hc, Hf, Hn. fold cs in Hc, Hf, Hn.
  destruct (create_chunks_spec range (length cs) 0 cs) as [Hd Hps].
  { rewrite Hc. apply sort_by_sorted; [apply event_cmp_total|apply event_cmp_trans]. }
  { rewrite Hc. unfold sorted. rewrite sort_by_perm. by eapply NoDup_fmap_1. }
  { done. }
  { unfold MAX_INCOMING_EVENTS_BATCH_SIZE in Hn. lia. }
  assert (length (create_chunks range (length cs) 0 cs) = length cs) as Hl.
  { apply (f_equal length) in Hd. by rewrite length_fmap in Hd. }
  destruct (create_chunks range (length cs) 0 cs) as [|p0 ps] eqn:Hcs.
  - cbn in Hd. rewrite <-Hd in Hc. cbn in Hc |- *. split; [done|].
    intros [|i] p Hi; [|done]. injection Hi as <-. cbn. split_and!; [done|lia|done|done].
  - rewrite <-Hcs in *. split; [by rewrite Hd|]. intros i p Hi. rewrite Hl.
    destruct (Hps i p Hi) as (Hr&Hpt&Hlast). split_and!; [done| |done|done].
    apply (Forall_lookup_1 _ _ i (EthereumEventsPartition.data p) Hf).
    by rewrite <-Hd, list_lookup_fmap, Hi.
Qed.
Definition ex_range : EthBlockRange.t := EthBlockRange.mk 10 20.
Lemma partitions_witness :
  keyed ex_found ∧ length (create_partitions ex_range ex_found) = 1%nat ∧
  create_partitions ex_range (reverse ex_found) = create_partitions ex_range ex_found.
Proof.
  assert (keyed ex_found) as Hk by (by vm_compute; repeat constructor; set_solver).
  split; [exact Hk|]. split; [by vm_compute|].
  refine (proj1 (partitions_correct ex_range ex_found (reverse ex_found) Hk _ _));
    [by rewrite reverse_Permutation|by vm_compute].
Defined.
