(* ===== verification/EthTypes.v ===== *)
(** * Messages for the Ethereum bridge contract

    [primitives/avn-common/src/eth/mod.rs]: the bridge instance and its EIP-712
    domain, the contract methods, the packed parameters of a lower and the
    messages the validators sign.  Hashing a typed message under a domain
    (EIP-712, from the [alloy] crates) is a parameter. *)

From S2P Require Import Prelude Bytes.

Abbreviation EthereumId := Z (only parsing).
Abbreviation LowerId := Z (only parsing).

(** ** The bridge instance *)

Module EthereumNetwork.
Inductive t : Set := Ethereum | EWC | Sepolia | Holesky | Volta | Custom (id : Z).
#[global] Instance t_eq : EqDecision t.
Proof. solve_decision. Defined.
Definition chain_id (n : t) : Z :=
  match n with
  | Ethereum => 1
  | EWC => 246
  | Sepolia => 11155111
  | Holesky => 17000
  | Volta => 73799
  | Custom value => value
  end.
Definition from (value : Z) : t :=
  if Z.eqb value 1 then Ethereum
  else if Z.eqb value 246 then EWC
  else if Z.eqb value 11155111 then Sepolia
  else if Z.eqb value 17000 then Holesky
  else if Z.eqb value 73799 then Volta
  else Custom value.
End EthereumNetwork.

Module EthBridgeInstance.
Record t := mk {
  network : EthereumNetwork.t; bridge_contract : H160; name : bytes; version : bytes;
  salt : option N }.
#[global] Instance t_eq : EqDecision t.
Proof. solve_decision. Defined.
Definition default : t := mk EthereumNetwork.Ethereum 0 [] [] None.
Definition is_valid (i : t) : bool :=
  negb (bridge_contract i =? 0)%N && negb (bool_decide (name i = [])) &&
  negb (bool_decide (version i = [])).
End EthBridgeInstance.

(** The domain has the bytes of the name and of the version: their decoding as
    text is part of the hash.  The salt is not in the domain. *)
Module Eip712Domain.
Record t := mk { name : bytes; version : bytes; chain_id : Z; verifying_contract : H160 }.
Definition of_instance (i : EthBridgeInstance.t) : t :=
  mk (EthBridgeInstance.name i) (EthBridgeInstance.version i)
     (EthereumNetwork.chain_id (EthBridgeInstance.network i)) (EthBridgeInstance.bridge_contract i).
End Eip712Domain.

(** ** Contract methods *)

Module BridgeContractMethod.
Inductive t : Set :=
  | ReferenceRateUpdatedAt | CheckReferenceRate | UpdateReferenceRate | PublishRoot
  | TriggerGrowth | AddAuthor | RemoveAuthor | MintRewards.
Definition name_as_bytes (m : t) : bytes :=
  match m with
  | ReferenceRateUpdatedAt => b "referenceRateUpdatedAt"
  | CheckReferenceRate => b "checkReferenceRate"
  | UpdateReferenceRate => b "updateReferenceRate"
  | PublishRoot => b "publishRoot"
  | TriggerGrowth => b "triggerGrowth"
  | AddAuthor => b "addAuthor"
  | RemoveAuthor => b "removeAuthor"
  | MintRewards => b "mintRewards"
  end.
Definition try_from (value : bytes) : option t :=
  if bool_decide (value = b "referenceRateUpdatedAt") then Some ReferenceRateUpdatedAt
  else if bool_decide (value = b "checkReferenceRate") then Some CheckReferenceRate
  else if bool_decide (value = b "updateReferenceRate") then Some UpdateReferenceRate
  else if bool_decide (value = b "publishRoot") then Some PublishRoot
  else if bool_decide (value = b "triggerGrowth") then Some TriggerGrowth
  else if bool_decide (value = b "addAuthor") then Some AddAuthor
  else if bool_decide (value = b "removeAuthor") then Some RemoveAuthor
  else if bool_decide (value = b "mintRewards") then Some MintRewards
  else None.
End BridgeContractMethod.

(** The structures of the [sol!] blocks. *)
Module SolStruct.
Inductive t : Type :=
  | PublishRoot (rootHash : H256) (expiry t2TxId : Z)
  | TriggerGrowth (rewards avgStaked period expiry t2TxId : Z)
  | AddAuthor (t1PubKey : bytes) (t2PubKey : H256) (expiry t2TxId : Z)
  | RemoveAuthor (t2PubKey : H256) (t1PubKey : bytes) (expiry t2TxId : Z)
  | LowerData (token : H160) (amount : Z) (recipient : H160) (lowerId : Z)
      (t2Sender : H256) (t2Timestamp : Z)
  | MintRewards (amount expiry t2TxId : Z).
End SolStruct.

(** ** Lowers *)

Definition PACKED_LOWER_V1_PARAMS_SIZE : nat := 76.
Definition PACKED_LOWER_V2_PARAMS_SIZE : nat := 116.
(** [[u8; PACKED_LOWER_V2_PARAMS_SIZE]]. *)
Abbreviation LowerParams := (list N) (only parsing).

(** The spans of the packed parameters cover them one after the other. *)
Definition concat_lower_data (lower_id : LowerId) (token_id : H160) (amount : Z)
    (t1_recipient : H160) (t2_sender : H256) (t2_timestamp : Z) : LowerParams :=
  be_bytes 20 token_id ++ replicate 16 0%N ++ be_bytes 16 (Z.to_N amount) ++
  be_bytes 20 t1_recipient ++ be_bytes 4 (Z.to_N lower_id) ++ be_bytes 32 t2_sender ++
  be_bytes 8 (Z.to_N t2_timestamp).

Definition LowerData_try_from (lower_params : LowerParams) : outcome unit SolStruct.t :=
  check (bool_decide (length lower_params = PACKED_LOWER_V2_PARAMS_SIZE)) ();;
  token ← or_panic (slice 0 20 lower_params);
  amount ← or_panic (slice 36 52 lower_params);
  recipient ← or_panic (slice 52 72 lower_params);
  lower_id ← or_panic (slice 72 PACKED_LOWER_V1_PARAMS_SIZE lower_params);
  t2_sender ← or_panic (slice PACKED_LOWER_V1_PARAMS_SIZE 108 lower_params);
  t2_timestamp ← or_panic (slice 108 PACKED_LOWER_V2_PARAMS_SIZE lower_params);
  Ok (SolStruct.LowerData (from_be_bytes token) (Z.of_N (from_be_bytes amount))
        (from_be_bytes recipient) (Z.of_N (from_be_bytes lower_id)) (from_be_bytes t2_sender)
        (Z.of_N (from_be_bytes t2_timestamp))).

(** ** What is signed *)

Section Hashes.
(** [SolStruct::eip712_signing_hash]. *)
Context (eip712_hash : SolStruct.t → Eip712Domain.t → H256).

Definition create_lower_proof_hash (lower_params : LowerParams) (domain : Eip712Domain.t) :
    outcome unit H256 :=
  claim_lower ← LowerData_try_from lower_params;
  Ok (eip712_hash claim_lower domain).

Definition parse_from_utf8 (max : Z) (value : bytes) : outcome unit Z :=
  check (is_utf8 value) ();;
  or_err (parse max value) ().
(** [H256::from_slice] and [FixedBytes::from_slice] panic on other lengths. *)
Definition word_from_slice (value : bytes) : outcome unit H256 :=
  if bool_decide (length value = 32%nat) then Ok (from_be_bytes value) else Panic.
Definition value_at (i : nat) (params : list (bytes * bytes)) : outcome unit bytes :=
  p ← or_panic (index i params); Ok p.2.

Definition extract_tx_id_and_expiry (params : list (bytes * bytes)) : outcome unit (Z * Z) :=
  check (bool_decide (2 ≤ length params)%nat) ();;
  expiry_bytes ← value_at (length params - 2) params;
  expiry ← parse_from_utf8 u64_max expiry_bytes;
  tx_id_bytes ← value_at (length params - 1) params;
  tx_id ← parse_from_utf8 u32_max tx_id_bytes;
  Ok (tx_id, expiry).

Definition create_function_confirmation_hash (function_name : bytes)
    (params : list (bytes * bytes)) (domain : Eip712Domain.t) : outcome unit H256 :=
  let expect_params n := check (bool_decide (length params = n)) () in
  m ← or_err (BridgeContractMethod.try_from function_name) ();
  match m with
  | BridgeContractMethod.PublishRoot =>
      expect_params 3%nat;;
      v ← value_at 0 params;
      root ← word_from_slice v;
      ids ← extract_tx_id_and_expiry params;
      Ok (eip712_hash (SolStruct.PublishRoot root ids.2 ids.1) domain)
  | BridgeContractMethod.TriggerGrowth =>
      expect_params 5%nat;;
      v0 ← value_at 0 params;
      rewards ← parse_from_utf8 u128_max v0;
      v1 ← value_at 1 params;
      avg_staked ← parse_from_utf8 u128_max v1;
      v2 ← value_at 2 params;
      period ← parse_from_utf8 u32_max v2;
      ids ← extract_tx_id_and_expiry params;
      Ok (eip712_hash (SolStruct.TriggerGrowth rewards avg_staked period ids.2 ids.1) domain)
  | BridgeContractMethod.AddAuthor =>
      expect_params 4%nat;;
      t1_pub_key ← value_at 0 params;
      v1 ← value_at 1 params;
      t2_pub_key ← word_from_slice v1;
      ids ← extract_tx_id_and_expiry params;
      Ok (eip712_hash (SolStruct.AddAuthor t1_pub_key t2_pub_key ids.2 ids.1) domain)
  | BridgeContractMethod.RemoveAuthor =>
      expect_params 4%nat;;
      v0 ← value_at 0 params;
      t2_pub_key ← word_from_slice v0;
      t1_pub_key ← value_at 1 params;
      ids ← extract_tx_id_and_expiry params;
      Ok (eip712_hash (SolStruct.RemoveAuthor t2_pub_key t1_pub_key ids.2 ids.1) domain)
  | BridgeContractMethod.MintRewards =>
      expect_params 3%nat;;
      v0 ← value_at 0 params;
      amount ← parse_from_utf8 u128_max v0;
      ids ← extract_tx_id_and_expiry params;
      Ok (eip712_hash (SolStruct.MintRewards amount ids.2 ids.1) domain)
  | _ => Err ()
  end.
End Hashes.
