(* ===== verification/RuntimeErrors.v ===== *)
(** * Errors and origins of the runtime

    The error enums of the pallets that share the state [Runtime.t], the
    [DispatchError] that is one of them, and the origin of a call. *)

From S2P Require Import Prelude.

Abbreviation AccountId := N (only parsing).

Module AvnError.
Inductive t : Set :=
  | NotAValidator | NoLocalAccounts | OffchainWorkerAlreadyRun | ErrorConvertingAccountId
  | ErrorConvertingBlockNumber | ErrorConvertingUtf8 | ErrorDecodingHex
  | ErrorRecordingOffchainWorkerRun | NoValidatorsFound | UnexpectedStatusCode
  | InvalidResponse | InvalidVotingSession | InvalidContractAddress | DuplicateVote
  | InvalidVote | ErrorRecoveringPublicKeyFromSignature | InvalidECDSASignature
  | VectorBoundsExceeded | MaxValidatorsExceeded | ResponseFailed | RequestFailed
  | ErrorGettingFinalisedBlock | ErrorDecodingU32.
#[global] Instance t_eq : EqDecision t.
Proof. solve_decision. Defined.
End AvnError.

Module BridgeError.
Inductive t : Set :=
  | CorroborateCallFailed | DuplicateConfirmation | DuplicateEventSubmission
  | EmptyFunctionName | ErrorAssigningSender | EthTxHashAlreadySet | EthTxHashMustBeSetBySender
  | ExceedsConfirmationLimit | ExceedsCorroborationLimit | ExceedsFunctionNameLimit
  | EventAlreadyProcessed | EventNotProcessed | FunctionEncodingError | FunctionNameError
  | HandlePublishingResultFailed | InvalidBytes | InvalidBytesLength
  | InvalidQueryResponseFromEthereum | InvalidCorroborateCalldata | InvalidCorroborateResult
  | InvalidECDSASignature | InvalidHashLength | InvalidHexString | InvalidParamData
  | InvalidSendCalldata | InvalidUint | InvalidAccountId | InvalidUTF8 | MsgHashError
  | ParamsLimitExceeded | ParamTypeEncodingError | SendTransactionFailed | TxRequestQueueFull
  | TypeNameLengthExceeded | ValueLengthExceeded | ErrorGettingEthereumCallData
  | InvalidSendRequest | LowerParamsError | CallerIdLengthExceeded | NoActiveRequest
  | CannotCorroborateOwnTransaction | EventVotesFull | InvalidEventVote | EventVoteExists
  | NonActiveEthereumRange | VotingEnded | ValidatorNotFound | InvalidEthereumBlockRange
  | ErrorGettingFinalisedEthereumBlock | InvalidResponse | ErrorDecodingU32
  | EventBelongsInFutureRange | QuotaReachedForAdditionalEvents | EventAlreadyAccepted
  | InvalidInstance | AuthorNotSender | SigningError | InvalidCorroborationData.
#[global] Instance t_eq : EqDecision t.
Proof. solve_decision. Defined.
End BridgeError.

Module TokenError.
Inductive t : Set :=
  | NoTier1EventForLogLifted | NoTier1EventForLogLowerClaimed | NoTier1EventForLogLowerReverted
  | AmountOverflow | DepositFailed | LowerFailed | AmountIsZero | InsufficientSenderBalance
  | TransactionNotSupported | SenderNotValid | UnauthorizedTransaction
  | UnauthorizedProxyTransaction | UnauthorizedSignedTransferTransaction
  | UnauthorizedSignedLowerTransaction | ErrorConvertingAccountId | ErrorConvertingTokenBalance
  | ErrorConvertingToBalance | NoTier1EventForLogAvtGrowthLifted | Overflow | InvalidLowerCall
  | LowerDataLimitExceeded | InvalidLowerId | LoweringDisabled | InvalidLiftRequest
  | InvalidEthAddress | InvalidToken | NativeTokenNotRegistered | WithdrawFailed.
#[global] Instance t_eq : EqDecision t.
Proof. solve_decision. Defined.
End TokenError.

Module NodeError.
Inductive t : Set :=
  | OriginNotRegistrar | InvalidNodePointer | InvalidPeriodPointer | RegistrarNotSet
  | DuplicateNode | InvalidSigningKey | SigningKeyAlreadyInUse | RewardPeriodInvalid
  | BatchSizeInvalid | NextHeartbeatPeriodInvalid | NextHeartbeatPeriodZero
  | InsufficientBalanceForReward | TotalUptimeNotFound | NodeUptimeNotFound
  | InvalidRewardPaymentRequest | DuplicateHeartbeat | InvalidHeartbeat | NodeNotRegistered
  | FailedToAcquireOcwDbLock | RewardAmountZero | SenderIsNotSigner
  | UnauthorizedSignedTransaction | SignedTransactionExpired | HeartbeatThresholdReached
  | UptimeThresholdZero | NodeNotOwnedByOwner | UnauthorizedSigningKeyUpdate
  | SigningKeyMustBeDifferent | ZeroAmount | InsufficientFreeBalance
  | InsufficientStakedBalance | ReserveFailed | DurationZero | NoStakeFound
  | AutoStakeStillActive | NoAvailableStakeToUnstake | NodeNotFound | BalanceOverflow
  | BalanceUnderflow | RewardPotNotFound | NextRewardAmountPerPeriodZero | MintAmountOverflow
  | NoTier1MintEventFound | MintRequestInProgress | NodeSerialLimitReached | InvalidBonusRange
  | BonusNode | NodeOwnersMustBeDifferent | StakeMismatch
  | SourceAndDestinationNodeMustBeDifferent | EmptyNodeList | DuplicateNodeInList
  | AutoStakeExpired.
#[global] Instance t_eq : EqDecision t.
Proof. solve_decision. Defined.
End NodeError.

Module AnchorError.
Inductive t : Set :=
  | ChainNotRegistered | HandlerAlreadyRegistered | UnauthorizedHandler | NoAvailableChainId
  | EmptyChainName | NoAvailableCheckpointId | UnauthorizedSignedTransaction | SenderNotValid
  | TransactionNotSupported | UnauthorizedProxyTransaction | _NoChainDataAvailable
  | CheckpointOriginAlreadyExists | AppChainTokenAlreadyRegistered | AppChainTokenNotRegistered
  | MaxAppChainsReached | ChainNameTooLongForRegistry | TokenSymbolTooLongForRegistry
  | TokenLocationAlreadyRegistered | CallDeprecated | EmptyTokenSymbol | ZeroRewardAmount
  | AppChainAssetNotRegistered | NotAppChainHandler | AppChainTokenNotResolvable
  | AssetNotAppChainNative | NoUnpaidRewards | AppChainNotDisabled | AppChainNotActive.
#[global] Instance t_eq : EqDecision t.
Proof. solve_decision. Defined.
End AnchorError.

Module SummaryError.
Inductive t : Set :=
  | Overflow | ErrorCalculatingChosenValidator | ErrorConvertingBlockNumber
  | ErrorGettingSummaryDataFromService | InvalidSummaryRange | ErrorSubmittingTransaction
  | InvalidKey | ErrorSigning | InvalidHexString | InvalidUTF8Bytes | InvalidRootHashLength
  | SummaryPendingOrApproved | RootHasAlreadyBeenRegisteredForVoting | InvalidRoot
  | DuplicateVote | ErrorEndingVotingPeriod | ErrorSubmitCandidateTxnToTier1
  | VotingSessionIsNotValid | ErrorRecoveringPublicKeyFromSignature | ECDSASignatureNotValid
  | RootDataNotFound | InvalidChallenge | WrongValidator | GracePeriodElapsed
  | TooEarlyToAdvance | InvalidIngressCounter | SchedulePeriodIsTooShort
  | VotingPeriodIsTooShort | VotingPeriodIsTooLong
  | VotingPeriodIsEqualOrLongerThanSchedulePeriod | CurrentSlotValidatorNotFound
  | ErrorPublishingSummary | ExternalRefNotFound | InvalidExternalValidationThreshold
  | ExternalValidationThresholdNotSet | ExternalValidationRequestNotFound
  | ExternalValidationStatusMissing.
#[global] Instance t_eq : EqDecision t.
Proof. solve_decision. Defined.
End SummaryError.

Module WatchtowerError.
Inductive t : Set :=
  | InvalidTitle | InvalidInlinePayload | InvalidUri | InvalidProposal | InvalidProposalSource
  | DuplicateExternalRef | DuplicateProposal | InnerProposalQueueFull | QueueCorruptState
  | QueueEmpty | SignedTransactionExpired | SenderIsNotSigner | UnauthorizedSignedTransaction
  | ProposalNotFound | UnauthorizedVoter | ProposalNotActive | AlreadyVoted
  | VoterSigningKeyNotFound | UnauthorizedUnsignedTransaction | ProposalVotingPeriodNotEnded
  | VotingPeriodTooShort | CorruptedState | InvalidProposalForUnsignedVote | AdminAccountNotSet.
#[global] Instance t_eq : EqDecision t.
Proof. solve_decision. Defined.
End WatchtowerError.

Module SummaryWatchtowerError.
Inductive t : Set :=
  | InvalidSummaryProposal | ExternalPayloadNotSupported | FailedToAcquireOcwDbLock.
#[global] Instance t_eq : EqDecision t.
Proof. solve_decision. Defined.
End SummaryWatchtowerError.

Inductive DispatchError : Set :=
  | BadOrigin
  | Avn_ (e : AvnError.t)
  | EthBridge_ (e : BridgeError.t)
  | TokenManager_ (e : TokenError.t)
  | NodeManager_ (e : NodeError.t)
  | Anchor_ (e : AnchorError.t)
  | Summary_ (e : SummaryError.t)
  | Watchtower_ (e : WatchtowerError.t)
  | SummaryWatchtower_ (e : SummaryWatchtowerError.t)
  | Arithmetic (** [DispatchError::Arithmetic] *)
  | OtherBridge (e : BridgeError.t) (** [DispatchError::Other(e.into())] *)
  | Other (message : list N)
  | External. (** an error of a pallet that is a parameter *)
#[global] Instance DispatchError_eq : EqDecision DispatchError.
Proof. solve_decision. Defined.
Coercion Avn_ : AvnError.t >-> DispatchError.
Coercion EthBridge_ : BridgeError.t >-> DispatchError.
Coercion TokenManager_ : TokenError.t >-> DispatchError.
Coercion NodeManager_ : NodeError.t >-> DispatchError.
Coercion Anchor_ : AnchorError.t >-> DispatchError.
Coercion Summary_ : SummaryError.t >-> DispatchError.
Coercion Watchtower_ : WatchtowerError.t >-> DispatchError.
Coercion SummaryWatchtower_ : SummaryWatchtowerError.t >-> DispatchError.

Inductive Origin : Set := Root | Signed (who : AccountId) | NoOrigin.
