(* ===== verification/NodeTypes.v ===== *)
(** * Data of the node manager and of the app chains

    The types of [pallets/node-manager/src/types.rs], and the storage and events of [pallets/node-manager/src/lib.rs] and [pallets/avn-anchor/src/lib.rs].
    A [Perbill], a [Perquintill] and a [FixedU128] are the numbers of their parts. *)

From S2P Require Import Prelude Bytes RuntimeErrors.

Abbreviation AccountId := N (only parsing).
Abbreviation NodeId := N (only parsing).
Abbreviation SignerId := N (only parsing).
Abbreviation Balance := Z (only parsing).
Abbreviation Duration := Z (only parsing).
Abbreviation RewardPeriodIndex := Z (only parsing).
Abbreviation Perbill := Z (only parsing).
Abbreviation Perquintill := Z (only parsing).
Abbreviation FixedU128 := Z (only parsing).
Abbreviation ChainId := Z (only parsing).
Abbreviation CheckpointId := Z (only parsing).
Abbreviation AppChainAssetId := Z (only parsing).

(** ** Types of the node manager *)

Module RewardPeriodInfo.
Record t : Type := mk {
  current : RewardPeriodIndex;
  first : Z;
  length : Z;
  heartbeat_period : Z;
  uptime_threshold : Z;
  reward_amount : Balance;
}.
End RewardPeriodInfo.

Module RewardPotInfo.
Record t : Type := mk {
  total_reward : Balance;
  uptime_threshold : Z;
  reward_end_time : Duration;
}.
End RewardPotInfo.

Module UptimeInfo.
Record t : Type := mk {
  count : Z;
  weight : Z;
  last_reported : Z;
}.
End UptimeInfo.

Module PaymentPointer.
Record t : Type := mk {
  period_index : RewardPeriodIndex;
  node : NodeId;
}.
End PaymentPointer.

Module UnstakeRestriction.
Inductive t : Set :=
  | Locked
  | Free
  | Periodic (per_period_allowance : Balance) (expires_sec : Duration).
End UnstakeRestriction.

Module StakeInfo.
Record t : Type := mk {
  amount : Balance;
  unlocked_stake : Balance;
  next_unstake_time_sec : option Duration;
  restriction : UnstakeRestriction.t;
}.
Definition upd_amount (f : Balance → Balance) (x : t) : t :=
  mk (f x.(amount)) x.(unlocked_stake) x.(next_unstake_time_sec) x.(restriction).
Definition upd_restriction (f : UnstakeRestriction.t → UnstakeRestriction.t) (x : t) : t :=
  mk x.(amount) x.(unlocked_stake) x.(next_unstake_time_sec) (f x.(restriction)).
End StakeInfo.

Module NodeInfo.
Record t : Type := mk {
  owner : AccountId;
  signing_key : SignerId;
  serial_number : Z;
  auto_stake_expiry : Duration;
  auto_stake_rewards : bool;
  stake : StakeInfo.t;
}.
Definition upd_owner (f : AccountId → AccountId) (x : t) : t :=
  mk (f x.(owner)) x.(signing_key) x.(serial_number) x.(auto_stake_expiry)
  x.(auto_stake_rewards) x.(stake).
Definition upd_signing_key (f : SignerId → SignerId) (x : t) : t :=
  mk x.(owner) (f x.(signing_key)) x.(serial_number) x.(auto_stake_expiry)
  x.(auto_stake_rewards) x.(stake).
Definition upd_auto_stake_rewards (f : bool → bool) (x : t) : t :=
  mk x.(owner) x.(signing_key) x.(serial_number) x.(auto_stake_expiry) (f
  x.(auto_stake_rewards)) x.(stake).
Definition upd_stake (f : StakeInfo.t → StakeInfo.t) (x : t) : t :=
  mk x.(owner) x.(signing_key) x.(serial_number) x.(auto_stake_expiry) x.(auto_stake_rewards)
  (f x.(stake)).
End NodeInfo.

Module TotalUptimeInfo.
Record t : Type := mk {
  total_heartbeats : Z;
  total_weight : Z;
}.
End TotalUptimeInfo.

Module RewardWeight.
Record t : Type := mk {
  genesis_bonus : FixedU128;
  stake_multiplier : FixedU128;
}.
End RewardWeight.

Module PendingMintRequest.
Record t : Type := mk {
  tx_id : Z;
  amount : Balance;
  bridge_confirmed : bool;
  credit_received : bool;
}.
Definition upd_bridge_confirmed (f : bool → bool) (x : t) : t :=
  mk x.(tx_id) x.(amount) (f x.(bridge_confirmed)) x.(credit_received).
Definition upd_credit_received (f : bool → bool) (x : t) : t :=
  mk x.(tx_id) x.(amount) x.(bridge_confirmed) (f x.(credit_received)).
End PendingMintRequest.

Module BonusRange.
Record t : Type := mk {
  start : Z;
  end_ : Z;
}.
End BonusRange.

Module GenesisBonus.
Inductive t : Set := Genesis50 | Genesis25 | Excluded.
End GenesisBonus.

Inductive StakeOperation : Set := Add | Remove.

Module AdminConfig.
Inductive t : Set :=
  | NodeRegistrar (registrar : AccountId)
  | NextRewardPeriodLength (period : Z)
  | BatchSize (size : Z)
  | NextHeartbeatPeriod (period : Z)
  | NextRewardAmountPerPeriod (amount : Balance)
  | NumPeriodsToMint (periods : Z)
  | RewardEnabled (enabled : bool)
  | MinUptimeThreshold (threshold : Perbill)
  | AutoStakeDuration (duration_sec : Duration)
  | MaxUnstakePercentage (percentage : Perbill)
  | UnstakePeriod (duration_sec : Duration)
  | RestrictedUnstakeDuration (duration_sec : Duration)
  | RewardFee (percentage : Perbill)
  | GenesisBonus50 (range : BonusRange.t)
  | GenesisBonus25 (range : BonusRange.t).
End AdminConfig.

(** ** Storage of the node manager *)

Module NodeStorage.
Record t : Type := mk {
  NodeRegistry : gmap NodeId NodeInfo.t;
  SigningKeyToNodeId : gmap SignerId NodeId;
  TotalRegisteredNodes : Z;
  OwnedNodes : gset (AccountId * NodeId);
  OwnedNodesCount : gmap AccountId Z;
  NodeRegistrar : option AccountId;
  MaxBatchSize : Z;
  NextHeartbeatPeriod : Z;
  NextRewardPeriodLength : Z;
  NextRewardAmountPerPeriod : Balance;
  NumPeriodsToMint : Z;
  RewardPot : gmap RewardPeriodIndex RewardPotInfo.t;
  OutstandingRewardToPay : Balance;
  RewardPeriod : RewardPeriodInfo.t;
  OldestUnpaidRewardPeriodIndex : RewardPeriodIndex;
  LastPaidPointer : option PaymentPointer.t;
  NodeUptime : gmap (RewardPeriodIndex * NodeId) UptimeInfo.t;
  PendingMintRequestState : option PendingMintRequest.t;
  TotalUptime : gmap RewardPeriodIndex TotalUptimeInfo.t;
  RewardEnabled : bool;
  MinUptimeThreshold : option Perbill;
  AutoStakeDurationSec : Duration;
  UnstakePeriodSec : Duration;
  MaxUnstakePercentage : Perbill;
  NextNodeSerialNumber : Z;
  NextBonusNodeSerialNumber : Z;
  RestrictedUnstakeDurationSec : Duration;
  RewardFeePercentage : Perbill;
  TotalStake : gmap AccountId Balance;
  GenesisBonus50 : BonusRange.t;
  GenesisBonus25 : BonusRange.t;
  TotalRegisteredBonusNodes : Z;
  GenesisOverrides : gmap Z GenesisBonus.t;
}.
Definition upd_NodeRegistry (f : (gmap NodeId NodeInfo.t) → (gmap NodeId NodeInfo.t)) (x : t) : t :=
  mk (f x.(NodeRegistry)) x.(SigningKeyToNodeId) x.(TotalRegisteredNodes) x.(OwnedNodes)
  x.(OwnedNodesCount) x.(NodeRegistrar) x.(MaxBatchSize) x.(NextHeartbeatPeriod)
  x.(NextRewardPeriodLength) x.(NextRewardAmountPerPeriod) x.(NumPeriodsToMint) x.(RewardPot)
  x.(OutstandingRewardToPay) x.(RewardPeriod) x.(OldestUnpaidRewardPeriodIndex)
  x.(LastPaidPointer) x.(NodeUptime) x.(PendingMintRequestState) x.(TotalUptime)
  x.(RewardEnabled) x.(MinUptimeThreshold) x.(AutoStakeDurationSec) x.(UnstakePeriodSec)
  x.(MaxUnstakePercentage) x.(NextNodeSerialNumber) x.(NextBonusNodeSerialNumber)
  x.(RestrictedUnstakeDurationSec) x.(RewardFeePercentage) x.(TotalStake) x.(GenesisBonus50)
  x.(GenesisBonus25) x.(TotalRegisteredBonusNodes) x.(GenesisOverrides).
Definition upd_SigningKeyToNodeId (f : (gmap SignerId NodeId) → (gmap SignerId NodeId)) (x : t) : t :=
  mk x.(NodeRegistry) (f x.(SigningKeyToNodeId)) x.(TotalRegisteredNodes) x.(OwnedNodes)
  x.(OwnedNodesCount) x.(NodeRegistrar) x.(MaxBatchSize) x.(NextHeartbeatPeriod)
  x.(NextRewardPeriodLength) x.(NextRewardAmountPerPeriod) x.(NumPeriodsToMint) x.(RewardPot)
  x.(OutstandingRewardToPay) x.(RewardPeriod) x.(OldestUnpaidRewardPeriodIndex)
  x.(LastPaidPointer) x.(NodeUptime) x.(PendingMintRequestState) x.(TotalUptime)
  x.(RewardEnabled) x.(MinUptimeThreshold) x.(AutoStakeDurationSec) x.(UnstakePeriodSec)
  x.(MaxUnstakePercentage) x.(NextNodeSerialNumber) x.(NextBonusNodeSerialNumber)
  x.(RestrictedUnstakeDurationSec) x.(RewardFeePercentage) x.(TotalStake) x.(GenesisBonus50)
  x.(GenesisBonus25) x.(TotalRegisteredBonusNodes) x.(GenesisOverrides).
Definition upd_TotalRegisteredNodes (f : Z → Z) (x : t) : t :=
  mk x.(NodeRegistry) x.(SigningKeyToNodeId) (f x.(TotalRegisteredNodes)) x.(OwnedNodes)
  x.(OwnedNodesCount) x.(NodeRegistrar) x.(MaxBatchSize) x.(NextHeartbeatPeriod)
  x.(NextRewardPeriodLength) x.(NextRewardAmountPerPeriod) x.(NumPeriodsToMint) x.(RewardPot)
  x.(OutstandingRewardToPay) x.(RewardPeriod) x.(OldestUnpaidRewardPeriodIndex)
  x.(LastPaidPointer) x.(NodeUptime) x.(PendingMintRequestState) x.(TotalUptime)
  x.(RewardEnabled) x.(MinUptimeThreshold) x.(AutoStakeDurationSec) x.(UnstakePeriodSec)
  x.(MaxUnstakePercentage) x.(NextNodeSerialNumber) x.(NextBonusNodeSerialNumber)
  x.(RestrictedUnstakeDurationSec) x.(RewardFeePercentage) x.(TotalStake) x.(GenesisBonus50)
  x.(GenesisBonus25) x.(TotalRegisteredBonusNodes) x.(GenesisOverrides).
Definition upd_OwnedNodes (f : (gset (AccountId * NodeId)) → (gset (AccountId * NodeId))) (x : t) : t :=
  mk x.(NodeRegistry) x.(SigningKeyToNodeId) x.(TotalRegisteredNodes) (f x.(OwnedNodes))
  x.(OwnedNodesCount) x.(NodeRegistrar) x.(MaxBatchSize) x.(NextHeartbeatPeriod)
  x.(NextRewardPeriodLength) x.(NextRewardAmountPerPeriod) x.(NumPeriodsToMint) x.(RewardPot)
  x.(OutstandingRewardToPay) x.(RewardPeriod) x.(OldestUnpaidRewardPeriodIndex)
  x.(LastPaidPointer) x.(NodeUptime) x.(PendingMintRequestState) x.(TotalUptime)
  x.(RewardEnabled) x.(MinUptimeThreshold) x.(AutoStakeDurationSec) x.(UnstakePeriodSec)
  x.(MaxUnstakePercentage) x.(NextNodeSerialNumber) x.(NextBonusNodeSerialNumber)
  x.(RestrictedUnstakeDurationSec) x.(RewardFeePercentage) x.(TotalStake) x.(GenesisBonus50)
  x.(GenesisBonus25) x.(TotalRegisteredBonusNodes) x.(GenesisOverrides).
Definition upd_OwnedNodesCount (f : (gmap AccountId Z) → (gmap AccountId Z)) (x : t) : t :=
  mk x.(NodeRegistry) x.(SigningKeyToNodeId) x.(TotalRegisteredNodes) x.(OwnedNodes) (f
  x.(OwnedNodesCount)) x.(NodeRegistrar) x.(MaxBatchSize) x.(NextHeartbeatPeriod)
  x.(NextRewardPeriodLength) x.(NextRewardAmountPerPeriod) x.(NumPeriodsToMint) x.(RewardPot)
  x.(OutstandingRewardToPay) x.(RewardPeriod) x.(OldestUnpaidRewardPeriodIndex)
  x.(LastPaidPointer) x.(NodeUptime) x.(PendingMintRequestState) x.(TotalUptime)
  x.(RewardEnabled) x.(MinUptimeThreshold) x.(AutoStakeDurationSec) x.(UnstakePeriodSec)
  x.(MaxUnstakePercentage) x.(NextNodeSerialNumber) x.(NextBonusNodeSerialNumber)
  x.(RestrictedUnstakeDurationSec) x.(RewardFeePercentage) x.(TotalStake) x.(GenesisBonus50)
  x.(GenesisBonus25) x.(TotalRegisteredBonusNodes) x.(GenesisOverrides).
Definition upd_NodeRegistrar (f : (option AccountId) → (option AccountId)) (x : t) : t :=
  mk x.(NodeRegistry) x.(SigningKeyToNodeId) x.(TotalRegisteredNodes) x.(OwnedNodes)
  x.(OwnedNodesCount) (f x.(NodeRegistrar)) x.(MaxBatchSize) x.(NextHeartbeatPeriod)
  x.(NextRewardPeriodLength) x.(NextRewardAmountPerPeriod) x.(NumPeriodsToMint) x.(RewardPot)
  x.(OutstandingRewardToPay) x.(RewardPeriod) x.(OldestUnpaidRewardPeriodIndex)
  x.(LastPaidPointer) x.(NodeUptime) x.(PendingMintRequestState) x.(TotalUptime)
  x.(RewardEnabled) x.(MinUptimeThreshold) x.(AutoStakeDurationSec) x.(UnstakePeriodSec)
  x.(MaxUnstakePercentage) x.(NextNodeSerialNumber) x.(NextBonusNodeSerialNumber)
  x.(RestrictedUnstakeDurationSec) x.(RewardFeePercentage) x.(TotalStake) x.(GenesisBonus50)
  x.(GenesisBonus25) x.(TotalRegisteredBonusNodes) x.(GenesisOverrides).
Definition upd_MaxBatchSize (f : Z → Z) (x : t) : t :=
  mk x.(NodeRegistry) x.(SigningKeyToNodeId) x.(TotalRegisteredNodes) x.(OwnedNodes)
  x.(OwnedNodesCount) x.(NodeRegistrar) (f x.(MaxBatchSize)) x.(NextHeartbeatPeriod)
  x.(NextRewardPeriodLength) x.(NextRewardAmountPerPeriod) x.(NumPeriodsToMint) x.(RewardPot)
  x.(OutstandingRewardToPay) x.(RewardPeriod) x.(OldestUnpaidRewardPeriodIndex)
  x.(LastPaidPointer) x.(NodeUptime) x.(PendingMintRequestState) x.(TotalUptime)
  x.(RewardEnabled) x.(MinUptimeThreshold) x.(AutoStakeDurationSec) x.(UnstakePeriodSec)
  x.(MaxUnstakePercentage) x.(NextNodeSerialNumber) x.(NextBonusNodeSerialNumber)
  x.(RestrictedUnstakeDurationSec) x.(RewardFeePercentage) x.(TotalStake) x.(GenesisBonus50)
  x.(GenesisBonus25) x.(TotalRegisteredBonusNodes) x.(GenesisOverrides).
Definition upd_NextHeartbeatPeriod (f : Z → Z) (x : t) : t :=
  mk x.(NodeRegistry) x.(SigningKeyToNodeId) x.(TotalRegisteredNodes) x.(OwnedNodes)
  x.(OwnedNodesCount) x.(NodeRegistrar) x.(MaxBatchSize) (f x.(NextHeartbeatPeriod))
  x.(NextRewardPeriodLength) x.(NextRewardAmountPerPeriod) x.(NumPeriodsToMint) x.(RewardPot)
  x.(OutstandingRewardToPay) x.(RewardPeriod) x.(OldestUnpaidRewardPeriodIndex)
  x.(LastPaidPointer) x.(NodeUptime) x.(PendingMintRequestState) x.(TotalUptime)
  x.(RewardEnabled) x.(MinUptimeThreshold) x.(AutoStakeDurationSec) x.(UnstakePeriodSec)
  x.(MaxUnstakePercentage) x.(NextNodeSerialNumber) x.(NextBonusNodeSerialNumber)
  x.(RestrictedUnstakeDurationSec) x.(RewardFeePercentage) x.(TotalStake) x.(GenesisBonus50)
  x.(GenesisBonus25) x.(TotalRegisteredBonusNodes) x.(GenesisOverrides).
Definition upd_NextRewardPeriodLength (f : Z → Z) (x : t) : t :=
  mk x.(NodeRegistry) x.(SigningKeyToNodeId) x.(TotalRegisteredNodes) x.(OwnedNodes)
  x.(OwnedNodesCount) x.(NodeRegistrar) x.(MaxBatchSize) x.(NextHeartbeatPeriod) (f
  x.(NextRewardPeriodLength)) x.(NextRewardAmountPerPeriod) x.(NumPeriodsToMint) x.(RewardPot)
  x.(OutstandingRewardToPay) x.(RewardPeriod) x.(OldestUnpaidRewardPeriodIndex)
  x.(LastPaidPointer) x.(NodeUptime) x.(PendingMintRequestState) x.(TotalUptime)
  x.(RewardEnabled) x.(MinUptimeThreshold) x.(AutoStakeDurationSec) x.(UnstakePeriodSec)
  x.(MaxUnstakePercentage) x.(NextNodeSerialNumber) x.(NextBonusNodeSerialNumber)
  x.(RestrictedUnstakeDurationSec) x.(RewardFeePercentage) x.(TotalStake) x.(GenesisBonus50)
  x.(GenesisBonus25) x.(TotalRegisteredBonusNodes) x.(GenesisOverrides).
Definition upd_NextRewardAmountPerPeriod (f : Balance → Balance) (x : t) : t :=
  mk x.(NodeRegistry) x.(SigningKeyToNodeId) x.(TotalRegisteredNodes) x.(OwnedNodes)
  x.(OwnedNodesCount) x.(NodeRegistrar) x.(MaxBatchSize) x.(NextHeartbeatPeriod)
  x.(NextRewardPeriodLength) (f x.(NextRewardAmountPerPeriod)) x.(NumPeriodsToMint)
  x.(RewardPot) x.(OutstandingRewardToPay) x.(RewardPeriod) x.(OldestUnpaidRewardPeriodIndex)
  x.(LastPaidPointer) x.(NodeUptime) x.(PendingMintRequestState) x.(TotalUptime)
  x.(RewardEnabled) x.(MinUptimeThreshold) x.(AutoStakeDurationSec) x.(UnstakePeriodSec)
  x.(MaxUnstakePercentage) x.(NextNodeSerialNumber) x.(NextBonusNodeSerialNumber)
  x.(RestrictedUnstakeDurationSec) x.(RewardFeePercentage) x.(TotalStake) x.(GenesisBonus50)
  x.(GenesisBonus25) x.(TotalRegisteredBonusNodes) x.(GenesisOverrides).
Definition upd_NumPeriodsToMint (f : Z → Z) (x : t) : t :=
  mk x.(NodeRegistry) x.(SigningKeyToNodeId) x.(TotalRegisteredNodes) x.(OwnedNodes)
  x.(OwnedNodesCount) x.(NodeRegistrar) x.(MaxBatchSize) x.(NextHeartbeatPeriod)
  x.(NextRewardPeriodLength) x.(NextRewardAmountPerPeriod) (f x.(NumPeriodsToMint))
  x.(RewardPot) x.(OutstandingRewardToPay) x.(RewardPeriod) x.(OldestUnpaidRewardPeriodIndex)
  x.(LastPaidPointer) x.(NodeUptime) x.(PendingMintRequestState) x.(TotalUptime)
  x.(RewardEnabled) x.(MinUptimeThreshold) x.(AutoStakeDurationSec) x.(UnstakePeriodSec)
  x.(MaxUnstakePercentage) x.(NextNodeSerialNumber) x.(NextBonusNodeSerialNumber)
  x.(RestrictedUnstakeDurationSec) x.(RewardFeePercentage) x.(TotalStake) x.(GenesisBonus50)
  x.(GenesisBonus25) x.(TotalRegisteredBonusNodes) x.(GenesisOverrides).
Definition upd_RewardPot (f : (gmap RewardPeriodIndex RewardPotInfo.t) → (gmap RewardPeriodIndex RewardPotInfo.t)) (x : t) : t :=
  mk x.(NodeRegistry) x.(SigningKeyToNodeId) x.(TotalRegisteredNodes) x.(OwnedNodes)
  x.(OwnedNodesCount) x.(NodeRegistrar) x.(MaxBatchSize) x.(NextHeartbeatPeriod)
  x.(NextRewardPeriodLength) x.(NextRewardAmountPerPeriod) x.(NumPeriodsToMint) (f
  x.(RewardPot)) x.(OutstandingRewardToPay) x.(RewardPeriod) x.(OldestUnpaidRewardPeriodIndex)
  x.(LastPaidPointer) x.(NodeUptime) x.(PendingMintRequestState) x.(TotalUptime)
  x.(RewardEnabled) x.(MinUptimeThreshold) x.(AutoStakeDurationSec) x.(UnstakePeriodSec)
  x.(MaxUnstakePercentage) x.(NextNodeSerialNumber) x.(NextBonusNodeSerialNumber)
  x.(RestrictedUnstakeDurationSec) x.(RewardFeePercentage) x.(TotalStake) x.(GenesisBonus50)
  x.(GenesisBonus25) x.(TotalRegisteredBonusNodes) x.(GenesisOverrides).
Definition upd_OutstandingRewardToPay (f : Balance → Balance) (x : t) : t :=
  mk x.(NodeRegistry) x.(SigningKeyToNodeId) x.(TotalRegisteredNodes) x.(OwnedNodes)
  x.(OwnedNodesCount) x.(NodeRegistrar) x.(MaxBatchSize) x.(NextHeartbeatPeriod)
  x.(NextRewardPeriodLength) x.(NextRewardAmountPerPeriod) x.(NumPeriodsToMint) x.(RewardPot)
  (f x.(OutstandingRewardToPay)) x.(RewardPeriod) x.(OldestUnpaidRewardPeriodIndex)
  x.(LastPaidPointer) x.(NodeUptime) x.(PendingMintRequestState) x.(TotalUptime)
  x.(RewardEnabled) x.(MinUptimeThreshold) x.(AutoStakeDurationSec) x.(UnstakePeriodSec)
  x.(MaxUnstakePercentage) x.(NextNodeSerialNumber) x.(NextBonusNodeSerialNumber)
  x.(RestrictedUnstakeDurationSec) x.(RewardFeePercentage) x.(TotalStake) x.(GenesisBonus50)
  x.(GenesisBonus25) x.(TotalRegisteredBonusNodes) x.(GenesisOverrides).
Definition upd_RewardPeriod (f : RewardPeriodInfo.t → RewardPeriodInfo.t) (x : t) : t :=
  mk x.(NodeRegistry) x.(SigningKeyToNodeId) x.(TotalRegisteredNodes) x.(OwnedNodes)
  x.(OwnedNodesCount) x.(NodeRegistrar) x.(MaxBatchSize) x.(NextHeartbeatPeriod)
  x.(NextRewardPeriodLength) x.(NextRewardAmountPerPeriod) x.(NumPeriodsToMint) x.(RewardPot)
  x.(OutstandingRewardToPay) (f x.(RewardPeriod)) x.(OldestUnpaidRewardPeriodIndex)
  x.(LastPaidPointer) x.(NodeUptime) x.(PendingMintRequestState) x.(TotalUptime)
  x.(RewardEnabled) x.(MinUptimeThreshold) x.(AutoStakeDurationSec) x.(UnstakePeriodSec)
  x.(MaxUnstakePercentage) x.(NextNodeSerialNumber) x.(NextBonusNodeSerialNumber)
  x.(RestrictedUnstakeDurationSec) x.(RewardFeePercentage) x.(TotalStake) x.(GenesisBonus50)
  x.(GenesisBonus25) x.(TotalRegisteredBonusNodes) x.(GenesisOverrides).
Definition upd_OldestUnpaidRewardPeriodIndex (f : RewardPeriodIndex → RewardPeriodIndex) (x : t) : t :=
  mk x.(NodeRegistry) x.(SigningKeyToNodeId) x.(TotalRegisteredNodes) x.(OwnedNodes)
  x.(OwnedNodesCount) x.(NodeRegistrar) x.(MaxBatchSize) x.(NextHeartbeatPeriod)
  x.(NextRewardPeriodLength) x.(NextRewardAmountPerPeriod) x.(NumPeriodsToMint) x.(RewardPot)
  x.(OutstandingRewardToPay) x.(RewardPeriod) (f x.(OldestUnpaidRewardPeriodIndex))
  x.(LastPaidPointer) x.(NodeUptime) x.(PendingMintRequestState) x.(TotalUptime)
  x.(RewardEnabled) x.(MinUptimeThreshold) x.(AutoStakeDurationSec) x.(UnstakePeriodSec)
  x.(MaxUnstakePercentage) x.(NextNodeSerialNumber) x.(NextBonusNodeSerialNumber)
  x.(RestrictedUnstakeDurationSec) x.(RewardFeePercentage) x.(TotalStake) x.(GenesisBonus50)
  x.(GenesisBonus25) x.(TotalRegisteredBonusNodes) x.(GenesisOverrides).
Definition upd_LastPaidPointer (f : (option PaymentPointer.t) → (option PaymentPointer.t)) (x : t) : t :=
  mk x.(NodeRegistry) x.(SigningKeyToNodeId) x.(TotalRegisteredNodes) x.(OwnedNodes)
  x.(OwnedNodesCount) x.(NodeRegistrar) x.(MaxBatchSize) x.(NextHeartbeatPeriod)
  x.(NextRewardPeriodLength) x.(NextRewardAmountPerPeriod) x.(NumPeriodsToMint) x.(RewardPot)
  x.(OutstandingRewardToPay) x.(RewardPeriod) x.(OldestUnpaidRewardPeriodIndex) (f
  x.(LastPaidPointer)) x.(NodeUptime) x.(PendingMintRequestState) x.(TotalUptime)
  x.(RewardEnabled) x.(MinUptimeThreshold) x.(AutoStakeDurationSec) x.(UnstakePeriodSec)
  x.(MaxUnstakePercentage) x.(NextNodeSerialNumber) x.(NextBonusNodeSerialNumber)
  x.(RestrictedUnstakeDurationSec) x.(RewardFeePercentage) x.(TotalStake) x.(GenesisBonus50)
  x.(GenesisBonus25) x.(TotalRegisteredBonusNodes) x.(GenesisOverrides).
Definition upd_NodeUptime (f : (gmap (RewardPeriodIndex * NodeId) UptimeInfo.t) → (gmap (RewardPeriodIndex * NodeId) UptimeInfo.t)) (x : t) : t :=
  mk x.(NodeRegistry) x.(SigningKeyToNodeId) x.(TotalRegisteredNodes) x.(OwnedNodes)
  x.(OwnedNodesCount) x.(NodeRegistrar) x.(MaxBatchSize) x.(NextHeartbeatPeriod)
  x.(NextRewardPeriodLength) x.(NextRewardAmountPerPeriod) x.(NumPeriodsToMint) x.(RewardPot)
  x.(OutstandingRewardToPay) x.(RewardPeriod) x.(OldestUnpaidRewardPeriodIndex)
  x.(LastPaidPointer) (f x.(NodeUptime)) x.(PendingMintRequestState) x.(TotalUptime)
  x.(RewardEnabled) x.(MinUptimeThreshold) x.(AutoStakeDurationSec) x.(UnstakePeriodSec)
  x.(MaxUnstakePercentage) x.(NextNodeSerialNumber) x.(NextBonusNodeSerialNumber)
  x.(RestrictedUnstakeDurationSec) x.(RewardFeePercentage) x.(TotalStake) x.(GenesisBonus50)
  x.(GenesisBonus25) x.(TotalRegisteredBonusNodes) x.(GenesisOverrides).
Definition upd_PendingMintRequestState (f : (option PendingMintRequest.t) → (option PendingMintRequest.t)) (x : t) : t :=
  mk x.(NodeRegistry) x.(SigningKeyToNodeId) x.(TotalRegisteredNodes) x.(OwnedNodes)
  x.(OwnedNodesCount) x.(NodeRegistrar) x.(MaxBatchSize) x.(NextHeartbeatPeriod)
  x.(NextRewardPeriodLength) x.(NextRewardAmountPerPeriod) x.(NumPeriodsToMint) x.(RewardPot)
  x.(OutstandingRewardToPay) x.(RewardPeriod) x.(OldestUnpaidRewardPeriodIndex)
  x.(LastPaidPointer) x.(NodeUptime) (f x.(PendingMintRequestState)) x.(TotalUptime)
  x.(RewardEnabled) x.(MinUptimeThreshold) x.(AutoStakeDurationSec) x.(UnstakePeriodSec)
  x.(MaxUnstakePercentage) x.(NextNodeSerialNumber) x.(NextBonusNodeSerialNumber)
  x.(RestrictedUnstakeDurationSec) x.(RewardFeePercentage) x.(TotalStake) x.(GenesisBonus50)
  x.(GenesisBonus25) x.(TotalRegisteredBonusNodes) x.(GenesisOverrides).
Definition upd_TotalUptime (f : (gmap RewardPeriodIndex TotalUptimeInfo.t) → (gmap RewardPeriodIndex TotalUptimeInfo.t)) (x : t) : t :=
  mk x.(NodeRegistry) x.(SigningKeyToNodeId) x.(TotalRegisteredNodes) x.(OwnedNodes)
  x.(OwnedNodesCount) x.(NodeRegistrar) x.(MaxBatchSize) x.(NextHeartbeatPeriod)
  x.(NextRewardPeriodLength) x.(NextRewardAmountPerPeriod) x.(NumPeriodsToMint) x.(RewardPot)
  x.(OutstandingRewardToPay) x.(RewardPeriod) x.(OldestUnpaidRewardPeriodIndex)
  x.(LastPaidPointer) x.(NodeUptime) x.(PendingMintRequestState) (f x.(TotalUptime))
  x.(RewardEnabled) x.(MinUptimeThreshold) x.(AutoStakeDurationSec) x.(UnstakePeriodSec)
  x.(MaxUnstakePercentage) x.(NextNodeSerialNumber) x.(NextBonusNodeSerialNumber)
  x.(RestrictedUnstakeDurationSec) x.(RewardFeePercentage) x.(TotalStake) x.(GenesisBonus50)
  x.(GenesisBonus25) x.(TotalRegisteredBonusNodes) x.(GenesisOverrides).
Definition upd_RewardEnabled (f : bool → bool) (x : t) : t :=
  mk x.(NodeRegistry) x.(SigningKeyToNodeId) x.(TotalRegisteredNodes) x.(OwnedNodes)
  x.(OwnedNodesCount) x.(NodeRegistrar) x.(MaxBatchSize) x.(NextHeartbeatPeriod)
  x.(NextRewardPeriodLength) x.(NextRewardAmountPerPeriod) x.(NumPeriodsToMint) x.(RewardPot)
  x.(OutstandingRewardToPay) x.(RewardPeriod) x.(OldestUnpaidRewardPeriodIndex)
  x.(LastPaidPointer) x.(NodeUptime) x.(PendingMintRequestState) x.(TotalUptime) (f
  x.(RewardEnabled)) x.(MinUptimeThreshold) x.(AutoStakeDurationSec) x.(UnstakePeriodSec)
  x.(MaxUnstakePercentage) x.(NextNodeSerialNumber) x.(NextBonusNodeSerialNumber)
  x.(RestrictedUnstakeDurationSec) x.(RewardFeePercentage) x.(TotalStake) x.(GenesisBonus50)
  x.(GenesisBonus25) x.(TotalRegisteredBonusNodes) x.(GenesisOverrides).
Definition upd_MinUptimeThreshold (f : (option Perbill) → (option Perbill)) (x : t) : t :=
  mk x.(NodeRegistry) x.(SigningKeyToNodeId) x.(TotalRegisteredNodes) x.(OwnedNodes)
  x.(OwnedNodesCount) x.(NodeRegistrar) x.(MaxBatchSize) x.(NextHeartbeatPeriod)
  x.(NextRewardPeriodLength) x.(NextRewardAmountPerPeriod) x.(NumPeriodsToMint) x.(RewardPot)
  x.(OutstandingRewardToPay) x.(RewardPeriod) x.(OldestUnpaidRewardPeriodIndex)
  x.(LastPaidPointer) x.(NodeUptime) x.(PendingMintRequestState) x.(TotalUptime)
  x.(RewardEnabled) (f x.(MinUptimeThreshold)) x.(AutoStakeDurationSec) x.(UnstakePeriodSec)
  x.(MaxUnstakePercentage) x.(NextNodeSerialNumber) x.(NextBonusNodeSerialNumber)
  x.(RestrictedUnstakeDurationSec) x.(RewardFeePercentage) x.(TotalStake) x.(GenesisBonus50)
  x.(GenesisBonus25) x.(TotalRegisteredBonusNodes) x.(GenesisOverrides).
Definition upd_AutoStakeDurationSec (f : Duration → Duration) (x : t) : t :=
  mk x.(NodeRegistry) x.(SigningKeyToNodeId) x.(TotalRegisteredNodes) x.(OwnedNodes)
  x.(OwnedNodesCount) x.(NodeRegistrar) x.(MaxBatchSize) x.(NextHeartbeatPeriod)
  x.(NextRewardPeriodLength) x.(NextRewardAmountPerPeriod) x.(NumPeriodsToMint) x.(RewardPot)
  x.(OutstandingRewardToPay) x.(RewardPeriod) x.(OldestUnpaidRewardPeriodIndex)
  x.(LastPaidPointer) x.(NodeUptime) x.(PendingMintRequestState) x.(TotalUptime)
  x.(RewardEnabled) x.(MinUptimeThreshold) (f x.(AutoStakeDurationSec)) x.(UnstakePeriodSec)
  x.(MaxUnstakePercentage) x.(NextNodeSerialNumber) x.(NextBonusNodeSerialNumber)
  x.(RestrictedUnstakeDurationSec) x.(RewardFeePercentage) x.(TotalStake) x.(GenesisBonus50)
  x.(GenesisBonus25) x.(TotalRegisteredBonusNodes) x.(GenesisOverrides).
Definition upd_UnstakePeriodSec (f : Duration → Duration) (x : t) : t :=
  mk x.(NodeRegistry) x.(SigningKeyToNodeId) x.(TotalRegisteredNodes) x.(OwnedNodes)
  x.(OwnedNodesCount) x.(NodeRegistrar) x.(MaxBatchSize) x.(NextHeartbeatPeriod)
  x.(NextRewardPeriodLength) x.(NextRewardAmountPerPeriod) x.(NumPeriodsToMint) x.(RewardPot)
  x.(OutstandingRewardToPay) x.(RewardPeriod) x.(OldestUnpaidRewardPeriodIndex)
  x.(LastPaidPointer) x.(NodeUptime) x.(PendingMintRequestState) x.(TotalUptime)
  x.(RewardEnabled) x.(MinUptimeThreshold) x.(AutoStakeDurationSec) (f x.(UnstakePeriodSec))
  x.(MaxUnstakePercentage) x.(NextNodeSerialNumber) x.(NextBonusNodeSerialNumber)
  x.(RestrictedUnstakeDurationSec) x.(RewardFeePercentage) x.(TotalStake) x.(GenesisBonus50)
  x.(GenesisBonus25) x.(TotalRegisteredBonusNodes) x.(GenesisOverrides).
Definition upd_MaxUnstakePercentage (f : Perbill → Perbill) (x : t) : t :=
  mk x.(NodeRegistry) x.(SigningKeyToNodeId) x.(TotalRegisteredNodes) x.(OwnedNodes)
  x.(OwnedNodesCount) x.(NodeRegistrar) x.(MaxBatchSize) x.(NextHeartbeatPeriod)
  x.(NextRewardPeriodLength) x.(NextRewardAmountPerPeriod) x.(NumPeriodsToMint) x.(RewardPot)
  x.(OutstandingRewardToPay) x.(RewardPeriod) x.(OldestUnpaidRewardPeriodIndex)
  x.(LastPaidPointer) x.(NodeUptime) x.(PendingMintRequestState) x.(TotalUptime)
  x.(RewardEnabled) x.(MinUptimeThreshold) x.(AutoStakeDurationSec) x.(UnstakePeriodSec) (f
  x.(MaxUnstakePercentage)) x.(NextNodeSerialNumber) x.(NextBonusNodeSerialNumber)
  x.(RestrictedUnstakeDurationSec) x.(RewardFeePercentage) x.(TotalStake) x.(GenesisBonus50)
  x.(GenesisBonus25) x.(TotalRegisteredBonusNodes) x.(GenesisOverrides).
Definition upd_NextNodeSerialNumber (f : Z → Z) (x : t) : t :=
  mk x.(NodeRegistry) x.(SigningKeyToNodeId) x.(TotalRegisteredNodes) x.(OwnedNodes)
  x.(OwnedNodesCount) x.(NodeRegistrar) x.(MaxBatchSize) x.(NextHeartbeatPeriod)
  x.(NextRewardPeriodLength) x.(NextRewardAmountPerPeriod) x.(NumPeriodsToMint) x.(RewardPot)
  x.(OutstandingRewardToPay) x.(RewardPeriod) x.(OldestUnpaidRewardPeriodIndex)
  x.(LastPaidPointer) x.(NodeUptime) x.(PendingMintRequestState) x.(TotalUptime)
  x.(RewardEnabled) x.(MinUptimeThreshold) x.(AutoStakeDurationSec) x.(UnstakePeriodSec)
  x.(MaxUnstakePercentage) (f x.(NextNodeSerialNumber)) x.(NextBonusNodeSerialNumber)
  x.(RestrictedUnstakeDurationSec) x.(RewardFeePercentage) x.(TotalStake) x.(GenesisBonus50)
  x.(GenesisBonus25) x.(TotalRegisteredBonusNodes) x.(GenesisOverrides).
Definition upd_NextBonusNodeSerialNumber (f : Z → Z) (x : t) : t :=
  mk x.(NodeRegistry) x.(SigningKeyToNodeId) x.(TotalRegisteredNodes) x.(OwnedNodes)
  x.(OwnedNodesCount) x.(NodeRegistrar) x.(MaxBatchSize) x.(NextHeartbeatPeriod)
  x.(NextRewardPeriodLength) x.(NextRewardAmountPerPeriod) x.(NumPeriodsToMint) x.(RewardPot)
  x.(OutstandingRewardToPay) x.(RewardPeriod) x.(OldestUnpaidRewardPeriodIndex)
  x.(LastPaidPointer) x.(NodeUptime) x.(PendingMintRequestState) x.(TotalUptime)
  x.(RewardEnabled) x.(MinUptimeThreshold) x.(AutoStakeDurationSec) x.(UnstakePeriodSec)
  x.(MaxUnstakePercentage) x.(NextNodeSerialNumber) (f x.(NextBonusNodeSerialNumber))
  x.(RestrictedUnstakeDurationSec) x.(RewardFeePercentage) x.(TotalStake) x.(GenesisBonus50)
  x.(GenesisBonus25) x.(TotalRegisteredBonusNodes) x.(GenesisOverrides).
Definition upd_RestrictedUnstakeDurationSec (f : Duration → Duration) (x : t) : t :=
  mk x.(NodeRegistry) x.(SigningKeyToNodeId) x.(TotalRegisteredNodes) x.(OwnedNodes)
  x.(OwnedNodesCount) x.(NodeRegistrar) x.(MaxBatchSize) x.(NextHeartbeatPeriod)
  x.(NextRewardPeriodLength) x.(NextRewardAmountPerPeriod) x.(NumPeriodsToMint) x.(RewardPot)
  x.(OutstandingRewardToPay) x.(RewardPeriod) x.(OldestUnpaidRewardPeriodIndex)
  x.(LastPaidPointer) x.(NodeUptime) x.(PendingMintRequestState) x.(TotalUptime)
  x.(RewardEnabled) x.(MinUptimeThreshold) x.(AutoStakeDurationSec) x.(UnstakePeriodSec)
  x.(MaxUnstakePercentage) x.(NextNodeSerialNumber) x.(NextBonusNodeSerialNumber) (f
  x.(RestrictedUnstakeDurationSec)) x.(RewardFeePercentage) x.(TotalStake) x.(GenesisBonus50)
  x.(GenesisBonus25) x.(TotalRegisteredBonusNodes) x.(GenesisOverrides).
Definition upd_RewardFeePercentage (f : Perbill → Perbill) (x : t) : t :=
  mk x.(NodeRegistry) x.(SigningKeyToNodeId) x.(TotalRegisteredNodes) x.(OwnedNodes)
  x.(OwnedNodesCount) x.(NodeRegistrar) x.(MaxBatchSize) x.(NextHeartbeatPeriod)
  x.(NextRewardPeriodLength) x.(NextRewardAmountPerPeriod) x.(NumPeriodsToMint) x.(RewardPot)
  x.(OutstandingRewardToPay) x.(RewardPeriod) x.(OldestUnpaidRewardPeriodIndex)
  x.(LastPaidPointer) x.(NodeUptime) x.(PendingMintRequestState) x.(TotalUptime)
  x.(RewardEnabled) x.(MinUptimeThreshold) x.(AutoStakeDurationSec) x.(UnstakePeriodSec)
  x.(MaxUnstakePercentage) x.(NextNodeSerialNumber) x.(NextBonusNodeSerialNumber)
  x.(RestrictedUnstakeDurationSec) (f x.(RewardFeePercentage)) x.(TotalStake)
  x.(GenesisBonus50) x.(GenesisBonus25) x.(TotalRegisteredBonusNodes) x.(GenesisOverrides).
Definition upd_TotalStake (f : (gmap AccountId Balance) → (gmap AccountId Balance)) (x : t) : t :=
  mk x.(NodeRegistry) x.(SigningKeyToNodeId) x.(TotalRegisteredNodes) x.(OwnedNodes)
  x.(OwnedNodesCount) x.(NodeRegistrar) x.(MaxBatchSize) x.(NextHeartbeatPeriod)
  x.(NextRewardPeriodLength) x.(NextRewardAmountPerPeriod) x.(NumPeriodsToMint) x.(RewardPot)
  x.(OutstandingRewardToPay) x.(RewardPeriod) x.(OldestUnpaidRewardPeriodIndex)
  x.(LastPaidPointer) x.(NodeUptime) x.(PendingMintRequestState) x.(TotalUptime)
  x.(RewardEnabled) x.(MinUptimeThreshold) x.(AutoStakeDurationSec) x.(UnstakePeriodSec)
  x.(MaxUnstakePercentage) x.(NextNodeSerialNumber) x.(NextBonusNodeSerialNumber)
  x.(RestrictedUnstakeDurationSec) x.(RewardFeePercentage) (f x.(TotalStake))
  x.(GenesisBonus50) x.(GenesisBonus25) x.(TotalRegisteredBonusNodes) x.(GenesisOverrides).
Definition upd_GenesisBonus50 (f : BonusRange.t → BonusRange.t) (x : t) : t :=
  mk x.(NodeRegistry) x.(SigningKeyToNodeId) x.(TotalRegisteredNodes) x.(OwnedNodes)
  x.(OwnedNodesCount) x.(NodeRegistrar) x.(MaxBatchSize) x.(NextHeartbeatPeriod)
  x.(NextRewardPeriodLength) x.(NextRewardAmountPerPeriod) x.(NumPeriodsToMint) x.(RewardPot)
  x.(OutstandingRewardToPay) x.(RewardPeriod) x.(OldestUnpaidRewardPeriodIndex)
  x.(LastPaidPointer) x.(NodeUptime) x.(PendingMintRequestState) x.(TotalUptime)
  x.(RewardEnabled) x.(MinUptimeThreshold) x.(AutoStakeDurationSec) x.(UnstakePeriodSec)
  x.(MaxUnstakePercentage) x.(NextNodeSerialNumber) x.(NextBonusNodeSerialNumber)
  x.(RestrictedUnstakeDurationSec) x.(RewardFeePercentage) x.(TotalStake) (f
  x.(GenesisBonus50)) x.(GenesisBonus25) x.(TotalRegisteredBonusNodes) x.(GenesisOverrides).
Definition upd_GenesisBonus25 (f : BonusRange.t → BonusRange.t) (x : t) : t :=
  mk x.(NodeRegistry) x.(SigningKeyToNodeId) x.(TotalRegisteredNodes) x.(OwnedNodes)
  x.(OwnedNodesCount) x.(NodeRegistrar) x.(MaxBatchSize) x.(NextHeartbeatPeriod)
  x.(NextRewardPeriodLength) x.(NextRewardAmountPerPeriod) x.(NumPeriodsToMint) x.(RewardPot)
  x.(OutstandingRewardToPay) x.(RewardPeriod) x.(OldestUnpaidRewardPeriodIndex)
  x.(LastPaidPointer) x.(NodeUptime) x.(PendingMintRequestState) x.(TotalUptime)
  x.(RewardEnabled) x.(MinUptimeThreshold) x.(AutoStakeDurationSec) x.(UnstakePeriodSec)
  x.(MaxUnstakePercentage) x.(NextNodeSerialNumber) x.(NextBonusNodeSerialNumber)
  x.(RestrictedUnstakeDurationSec) x.(RewardFeePercentage) x.(TotalStake) x.(GenesisBonus50)
  (f x.(GenesisBonus25)) x.(TotalRegisteredBonusNodes) x.(GenesisOverrides).
Definition upd_TotalRegisteredBonusNodes (f : Z → Z) (x : t) : t :=
  mk x.(NodeRegistry) x.(SigningKeyToNodeId) x.(TotalRegisteredNodes) x.(OwnedNodes)
  x.(OwnedNodesCount) x.(NodeRegistrar) x.(MaxBatchSize) x.(NextHeartbeatPeriod)
  x.(NextRewardPeriodLength) x.(NextRewardAmountPerPeriod) x.(NumPeriodsToMint) x.(RewardPot)
  x.(OutstandingRewardToPay) x.(RewardPeriod) x.(OldestUnpaidRewardPeriodIndex)
  x.(LastPaidPointer) x.(NodeUptime) x.(PendingMintRequestState) x.(TotalUptime)
  x.(RewardEnabled) x.(MinUptimeThreshold) x.(AutoStakeDurationSec) x.(UnstakePeriodSec)
  x.(MaxUnstakePercentage) x.(NextNodeSerialNumber) x.(NextBonusNodeSerialNumber)
  x.(RestrictedUnstakeDurationSec) x.(RewardFeePercentage) x.(TotalStake) x.(GenesisBonus50)
  x.(GenesisBonus25) (f x.(TotalRegisteredBonusNodes)) x.(GenesisOverrides).
Definition upd_GenesisOverrides (f : (gmap Z GenesisBonus.t) → (gmap Z GenesisBonus.t)) (x : t) : t :=
  mk x.(NodeRegistry) x.(SigningKeyToNodeId) x.(TotalRegisteredNodes) x.(OwnedNodes)
  x.(OwnedNodesCount) x.(NodeRegistrar) x.(MaxBatchSize) x.(NextHeartbeatPeriod)
  x.(NextRewardPeriodLength) x.(NextRewardAmountPerPeriod) x.(NumPeriodsToMint) x.(RewardPot)
  x.(OutstandingRewardToPay) x.(RewardPeriod) x.(OldestUnpaidRewardPeriodIndex)
  x.(LastPaidPointer) x.(NodeUptime) x.(PendingMintRequestState) x.(TotalUptime)
  x.(RewardEnabled) x.(MinUptimeThreshold) x.(AutoStakeDurationSec) x.(UnstakePeriodSec)
  x.(MaxUnstakePercentage) x.(NextNodeSerialNumber) x.(NextBonusNodeSerialNumber)
  x.(RestrictedUnstakeDurationSec) x.(RewardFeePercentage) x.(TotalStake) x.(GenesisBonus50)
  x.(GenesisBonus25) x.(TotalRegisteredBonusNodes) (f x.(GenesisOverrides)).
End NodeStorage.

(** ** Events *)

Module NodeEvent.
Inductive t : Type :=
  | NodeRegistered (owner : AccountId) (node : NodeId)
  | RewardPeriodLengthSet (period_index : Z) (old_reward_period_length : Z)
      (new_reward_period_length : Z)
  | NewRewardPeriodStarted (reward_period_index : RewardPeriodIndex) (reward_period_length : Z)
      (uptime_threshold : Z) (previous_period_reward : Balance)
  | RewardPayoutCompleted (reward_period_index : RewardPeriodIndex)
  | RewardPaid (reward_period : RewardPeriodIndex) (owner : AccountId) (node : NodeId)
      (amount : Balance)
  | ErrorPayingReward (reward_period : RewardPeriodIndex) (node : NodeId)
      (error : DispatchError)
  | RewardAutoStaked (reward_period : RewardPeriodIndex) (owner : AccountId) (node : NodeId)
      (amount : Balance)
  | NodeRegistrarSet (new_registrar : AccountId)
  | BatchSizeSet (new_size : Z)
  | NextHeartbeatPeriodSet (new_heartbeat_period : Z)
  | HeartbeatReceived (reward_period_index : RewardPeriodIndex) (node : NodeId)
  | NextRewardAmountPerPeriodSet (new_amount : Balance)
  | NumPeriodsToMintSet (periods : Z)
  | RewardEnabledSet (enabled : bool)
  | MinUptimeThresholdSet (threshold : Perbill)
  | MaxUnstakePercentageSet (percentage : Perbill)
  | UnstakePeriodSet (duration_sec : Duration)
  | NodeDeregistered (owner : AccountId) (node : NodeId)
  | SigningKeyUpdated (owner : AccountId) (node : NodeId)
  | AutoStakeDurationSet (duration_sec : Duration)
  | StakeAdded (owner : AccountId) (node_id : NodeId) (reward_period : RewardPeriodIndex)
      (amount : Balance) (new_total : Balance)
  | StakeRemoved (owner : AccountId) (node_id : NodeId) (reward_period : RewardPeriodIndex)
      (amount : Balance) (new_total : Balance)
  | RestrictedUnstakeDurationSet (duration_sec : Duration)
  | RewardFeePercentageSet (percentage : Perbill)
  | GenesisBonus50Set (range : BonusRange.t)
  | GenesisBonus25Set (range : BonusRange.t)
  | AutoStakePreferenceUpdated (owner : AccountId) (node_id : NodeId)
      (auto_stake_rewards : bool)
  | MintRequestSubmitted (amount : Balance) (tx_id : Z)
  | MintRequestResolved (tx_id : Z) (succeeded : bool)
  | GenesisOverrideSet (node_id : NodeId) (node_serial : Z) (genesis_bonus : GenesisBonus.t)
  | GenesisOverrideCleared (node_id : NodeId) (node_serial : Z)
  | NodeMoved (old_owner : AccountId) (new_owner : AccountId) (node : NodeId) (stake : Balance)
  | StakeMoved (owner : AccountId) (to_node : NodeId) (total_amount : Balance).
End NodeEvent.

(** ** App chains *)

Module CheckpointData.
Record t : Type := mk {
  hash : H256;
  origin_id : Z;
}.
End CheckpointData.

Module RewardRecord.
Record t : Type := mk {
  owner : AccountId;
  share : Perquintill;
  auto_stake_expiry : Duration;
}.
End RewardRecord.

Module AnchorStorage.
Record t : Type := mk {
  CheckpointFee : gmap ChainId Balance;
  Nonces : gmap ChainId Z;
  ChainHandlers : gmap AccountId ChainId;
  NextChainId : ChainId;
  Checkpoints : gmap (ChainId * CheckpointId) CheckpointData.t;
  OriginIdToCheckpoint : gmap (ChainId * Z) CheckpointId;
  NextCheckpointId : gmap ChainId CheckpointId;
  AssetIdToChainId : gmap AppChainAssetId ChainId;
  RegisteredAppchains : list AppChainAssetId;
  NextRewardAmountPerPeriod : gmap AppChainAssetId (H160 * Balance);
  PeriodChainReward : gmap (RewardPeriodIndex * AppChainAssetId) (H160 * Balance);
  UnpaidByPeriod : gmap (RewardPeriodIndex * NodeId) RewardRecord.t;
  UnpaidByNode : gset (NodeId * RewardPeriodIndex);
  SweepCursor : option (RewardPeriodIndex * NodeId);
  PeriodPayoutCompleted : gset RewardPeriodIndex;
}.
Definition upd_CheckpointFee (f : (gmap ChainId Balance) → (gmap ChainId Balance)) (x : t) : t :=
  mk (f x.(CheckpointFee)) x.(Nonces) x.(ChainHandlers) x.(NextChainId) x.(Checkpoints)
  x.(OriginIdToCheckpoint) x.(NextCheckpointId) x.(AssetIdToChainId) x.(RegisteredAppchains)
  x.(NextRewardAmountPerPeriod) x.(PeriodChainReward) x.(UnpaidByPeriod) x.(UnpaidByNode)
  x.(SweepCursor) x.(PeriodPayoutCompleted).
Definition upd_Nonces (f : (gmap ChainId Z) → (gmap ChainId Z)) (x : t) : t :=
  mk x.(CheckpointFee) (f x.(Nonces)) x.(ChainHandlers) x.(NextChainId) x.(Checkpoints)
  x.(OriginIdToCheckpoint) x.(NextCheckpointId) x.(AssetIdToChainId) x.(RegisteredAppchains)
  x.(NextRewardAmountPerPeriod) x.(PeriodChainReward) x.(UnpaidByPeriod) x.(UnpaidByNode)
  x.(SweepCursor) x.(PeriodPayoutCompleted).
Definition upd_ChainHandlers (f : (gmap AccountId ChainId) → (gmap AccountId ChainId)) (x : t) : t :=
  mk x.(CheckpointFee) x.(Nonces) (f x.(ChainHandlers)) x.(NextChainId) x.(Checkpoints)
  x.(OriginIdToCheckpoint) x.(NextCheckpointId) x.(AssetIdToChainId) x.(RegisteredAppchains)
  x.(NextRewardAmountPerPeriod) x.(PeriodChainReward) x.(UnpaidByPeriod) x.(UnpaidByNode)
  x.(SweepCursor) x.(PeriodPayoutCompleted).
Definition upd_NextChainId (f : ChainId → ChainId) (x : t) : t :=
  mk x.(CheckpointFee) x.(Nonces) x.(ChainHandlers) (f x.(NextChainId)) x.(Checkpoints)
  x.(OriginIdToCheckpoint) x.(NextCheckpointId) x.(AssetIdToChainId) x.(RegisteredAppchains)
  x.(NextRewardAmountPerPeriod) x.(PeriodChainReward) x.(UnpaidByPeriod) x.(UnpaidByNode)
  x.(SweepCursor) x.(PeriodPayoutCompleted).
Definition upd_Checkpoints (f : (gmap (ChainId * CheckpointId) CheckpointData.t) → (gmap (ChainId * CheckpointId) CheckpointData.t)) (x : t) : t :=
  mk x.(CheckpointFee) x.(Nonces) x.(ChainHandlers) x.(NextChainId) (f x.(Checkpoints))
  x.(OriginIdToCheckpoint) x.(NextCheckpointId) x.(AssetIdToChainId) x.(RegisteredAppchains)
  x.(NextRewardAmountPerPeriod) x.(PeriodChainReward) x.(UnpaidByPeriod) x.(UnpaidByNode)
  x.(SweepCursor) x.(PeriodPayoutCompleted).
Definition upd_OriginIdToCheckpoint (f : (gmap (ChainId * Z) CheckpointId) → (gmap (ChainId * Z) CheckpointId)) (x : t) : t :=
  mk x.(CheckpointFee) x.(Nonces) x.(ChainHandlers) x.(NextChainId) x.(Checkpoints) (f
  x.(OriginIdToCheckpoint)) x.(NextCheckpointId) x.(AssetIdToChainId) x.(RegisteredAppchains)
  x.(NextRewardAmountPerPeriod) x.(PeriodChainReward) x.(UnpaidByPeriod) x.(UnpaidByNode)
  x.(SweepCursor) x.(PeriodPayoutCompleted).
Definition upd_NextCheckpointId (f : (gmap ChainId CheckpointId) → (gmap ChainId CheckpointId)) (x : t) : t :=
  mk x.(CheckpointFee) x.(Nonces) x.(ChainHandlers) x.(NextChainId) x.(Checkpoints)
  x.(OriginIdToCheckpoint) (f x.(NextCheckpointId)) x.(AssetIdToChainId)
  x.(RegisteredAppchains) x.(NextRewardAmountPerPeriod) x.(PeriodChainReward)
  x.(UnpaidByPeriod) x.(UnpaidByNode) x.(SweepCursor) x.(PeriodPayoutCompleted).
Definition upd_AssetIdToChainId (f : (gmap AppChainAssetId ChainId) → (gmap AppChainAssetId ChainId)) (x : t) : t :=
  mk x.(CheckpointFee) x.(Nonces) x.(ChainHandlers) x.(NextChainId) x.(Checkpoints)
  x.(OriginIdToCheckpoint) x.(NextCheckpointId) (f x.(AssetIdToChainId))
  x.(RegisteredAppchains) x.(NextRewardAmountPerPeriod) x.(PeriodChainReward)
  x.(UnpaidByPeriod) x.(UnpaidByNode) x.(SweepCursor) x.(PeriodPayoutCompleted).
Definition upd_RegisteredAppchains (f : (list AppChainAssetId) → (list AppChainAssetId)) (x : t) : t :=
  mk x.(CheckpointFee) x.(Nonces) x.(ChainHandlers) x.(NextChainId) x.(Checkpoints)
  x.(OriginIdToCheckpoint) x.(NextCheckpointId) x.(AssetIdToChainId) (f
  x.(RegisteredAppchains)) x.(NextRewardAmountPerPeriod) x.(PeriodChainReward)
  x.(UnpaidByPeriod) x.(UnpaidByNode) x.(SweepCursor) x.(PeriodPayoutCompleted).
Definition upd_NextRewardAmountPerPeriod (f : (gmap AppChainAssetId (H160 * Balance)) → (gmap AppChainAssetId (H160 * Balance))) (x : t) : t :=
  mk x.(CheckpointFee) x.(Nonces) x.(ChainHandlers) x.(NextChainId) x.(Checkpoints)
  x.(OriginIdToCheckpoint) x.(NextCheckpointId) x.(AssetIdToChainId) x.(RegisteredAppchains)
  (f x.(NextRewardAmountPerPeriod)) x.(PeriodChainReward) x.(UnpaidByPeriod) x.(UnpaidByNode)
  x.(SweepCursor) x.(PeriodPayoutCompleted).
Definition upd_PeriodChainReward (f : (gmap (RewardPeriodIndex * AppChainAssetId) (H160 * Balance)) → (gmap (RewardPeriodIndex * AppChainAssetId) (H160 * Balance))) (x : t) : t :=
  mk x.(CheckpointFee) x.(Nonces) x.(ChainHandlers) x.(NextChainId) x.(Checkpoints)
  x.(OriginIdToCheckpoint) x.(NextCheckpointId) x.(AssetIdToChainId) x.(RegisteredAppchains)
  x.(NextRewardAmountPerPeriod) (f x.(PeriodChainReward)) x.(UnpaidByPeriod) x.(UnpaidByNode)
  x.(SweepCursor) x.(PeriodPayoutCompleted).
Definition upd_UnpaidByPeriod (f : (gmap (RewardPeriodIndex * NodeId) RewardRecord.t) → (gmap (RewardPeriodIndex * NodeId) RewardRecord.t)) (x : t) : t :=
  mk x.(CheckpointFee) x.(Nonces) x.(ChainHandlers) x.(NextChainId) x.(Checkpoints)
  x.(OriginIdToCheckpoint) x.(NextCheckpointId) x.(AssetIdToChainId) x.(RegisteredAppchains)
  x.(NextRewardAmountPerPeriod) x.(PeriodChainReward) (f x.(UnpaidByPeriod)) x.(UnpaidByNode)
  x.(SweepCursor) x.(PeriodPayoutCompleted).
Definition upd_UnpaidByNode (f : (gset (NodeId * RewardPeriodIndex)) → (gset (NodeId * RewardPeriodIndex))) (x : t) : t :=
  mk x.(CheckpointFee) x.(Nonces) x.(ChainHandlers) x.(NextChainId) x.(Checkpoints)
  x.(OriginIdToCheckpoint) x.(NextCheckpointId) x.(AssetIdToChainId) x.(RegisteredAppchains)
  x.(NextRewardAmountPerPeriod) x.(PeriodChainReward) x.(UnpaidByPeriod) (f x.(UnpaidByNode))
  x.(SweepCursor) x.(PeriodPayoutCompleted).
Definition upd_SweepCursor (f : (option (RewardPeriodIndex * NodeId)) → (option (RewardPeriodIndex * NodeId))) (x : t) : t :=
  mk x.(CheckpointFee) x.(Nonces) x.(ChainHandlers) x.(NextChainId) x.(Checkpoints)
  x.(OriginIdToCheckpoint) x.(NextCheckpointId) x.(AssetIdToChainId) x.(RegisteredAppchains)
  x.(NextRewardAmountPerPeriod) x.(PeriodChainReward) x.(UnpaidByPeriod) x.(UnpaidByNode) (f
  x.(SweepCursor)) x.(PeriodPayoutCompleted).
Definition upd_PeriodPayoutCompleted (f : (gset RewardPeriodIndex) → (gset RewardPeriodIndex)) (x : t) : t :=
  mk x.(CheckpointFee) x.(Nonces) x.(ChainHandlers) x.(NextChainId) x.(Checkpoints)
  x.(OriginIdToCheckpoint) x.(NextCheckpointId) x.(AssetIdToChainId) x.(RegisteredAppchains)
  x.(NextRewardAmountPerPeriod) x.(PeriodChainReward) x.(UnpaidByPeriod) x.(UnpaidByNode)
  x.(SweepCursor) (f x.(PeriodPayoutCompleted)).
End AnchorStorage.

Module AnchorEvent.
Inductive t : Type :=
  | ChainHandlerUpdated (old_handler : AccountId) (new_handler : AccountId) (chain_id : ChainId)
  | CheckpointSubmitted (handler : AccountId) (chain_id : ChainId)
      (checkpoint_id : CheckpointId) (checkpoint : H256)
  | CheckpointFeeUpdated (chain_id : ChainId) (new_fee : Balance)
  | CheckpointFeeCharged (handler : AccountId) (chain_id : ChainId) (fee : Balance)
  | AppChainRegistered (chain_id : ChainId) (handler : AccountId) (token : H160)
      (asset_id : AppChainAssetId)
  | AppChainRewardAmountPerPeriodUpdated (asset_id : AppChainAssetId) (amount : Balance)
  | AppChainRewardPaid (reward_period : RewardPeriodIndex) (node : AccountId)
      (owner : AccountId) (asset_id : AppChainAssetId) (amount : Balance)
  | AppChainRewardSettledForNode (reward_period : RewardPeriodIndex) (node : AccountId)
  | AppChainRewardPayoutCompleted (reward_period : RewardPeriodIndex)
  | AppChainRewardPayoutFailed (reward_period : RewardPeriodIndex) (node : AccountId)
      (error : DispatchError)
  | AppChainDisabled (asset_id : AppChainAssetId)
  | AppChainEnabled (asset_id : AppChainAssetId)
  | AppChainDeregistered (chain_id : ChainId) (asset_id : AppChainAssetId).
End AnchorEvent.
