(* ===== verification/SummaryTypes.v ===== *)
(** * Data of the summaries and of the watchtowers

    The types, storage and events of [pallets/summary] and [pallets/watchtower], of
    [pallets/summary-watchtower], of the voting sessions in [pallets/avn/src/vote.rs] and of
    [primitives/watchtower].  A [BoundedVec] is a list; the bound is checked where a list
    grows. *)

From S2P Require Import Prelude Bytes RuntimeErrors NodeTypes EthTypes.

Abbreviation IngressCounter := Z (only parsing).
Abbreviation ProposalId := H256 (only parsing).
Abbreviation QueueId := Z (only parsing).
Abbreviation SlotNumber := Z (only parsing).

(** ** Roots ([primitives/avn-common/src/lib.rs]) *)

Module RootRange.
Record t : Type := mk {
  from_block : Z;
  to_block : Z;
}.
#[global] Instance t_eq : EqDecision t.
Proof. solve_decision. Defined.
#[global] Instance t_countable : Countable t.
Proof. refine (inj_countable' (λ x, (x.(from_block), x.(to_block))) (λ '(a0, a1), mk a0 a1) _). by intros []. Defined.
(** [encode]: two [u32]s. *)
Definition encode (x : t) : bytes :=
  le_bytes 4 (Z.to_N x.(from_block)) ++ le_bytes 4 (Z.to_N x.(to_block)).
End RootRange.

Module RootId.
Record t : Type := mk {
  range : RootRange.t;
  ingress_counter : IngressCounter;
}.
#[global] Instance t_eq : EqDecision t.
Proof. solve_decision. Defined.
#[global] Instance t_countable : Countable t.
Proof. refine (inj_countable' (λ x, (x.(range), x.(ingress_counter))) (λ '(a0, a1), mk a0 a1) _). by intros []. Defined.
Definition encode (x : t) : bytes :=
  RootRange.encode x.(range) ++ le_bytes 8 (Z.to_N x.(ingress_counter)).
(** [VotingSessionIdBound] is 64. *)
Definition session_id (x : t) : bytes := take 64 (encode x).
Definition default : t := mk (RootRange.mk 0 0) 0.
End RootId.

(** ** Voting sessions ([pallets/avn/src/vote.rs]) *)

Module VotingSessionData.
Record t : Type := mk {
  voting_session_id : bytes;
  threshold : Z;
  ayes : list AccountId;
  nays : list AccountId;
  end_of_voting_period : Z;
  created_at_block : Z;
}.
Definition upd_ayes (f : (list AccountId) → (list AccountId)) (x : t) : t :=
  mk x.(voting_session_id) x.(threshold) (f x.(ayes)) x.(nays) x.(end_of_voting_period)
  x.(created_at_block).
Definition upd_nays (f : (list AccountId) → (list AccountId)) (x : t) : t :=
  mk x.(voting_session_id) x.(threshold) x.(ayes) (f x.(nays)) x.(end_of_voting_period)
  x.(created_at_block).
Definition default : t := mk [] 0 [] [] 0 0.
Definition new (session_id : bytes) (threshold end_of_voting_period created_at_block : Z) : t :=
  mk session_id threshold [] [] end_of_voting_period created_at_block.
Definition has_outcome (x : t) : bool :=
  bool_decide (x.(threshold) <= Z.of_nat (length x.(ayes))) ||
  bool_decide (x.(threshold) <= Z.of_nat (length x.(nays))).
Definition is_approved (x : t) : bool :=
  bool_decide (x.(threshold) <= Z.of_nat (length x.(ayes))).
Definition has_voted (x : t) (voter : AccountId) : bool :=
  bool_decide (voter ∈ x.(ayes)) || bool_decide (voter ∈ x.(nays)).
End VotingSessionData.

(** ** Proposals ([primitives/watchtower/src/lib.rs] and [pallets/watchtower/src/types.rs]) *)

Module RawPayload.
Inductive t : Type := Inline (data : bytes) | Uri (data : bytes).
#[global] Instance t_eq : EqDecision t.
Proof. solve_decision. Defined.
End RawPayload.
Module ProposalType.
Inductive t : Set := Summary | Anchor | Governance | Other (x : Z).
#[global] Instance t_eq : EqDecision t.
Proof. solve_decision. Defined.
End ProposalType.
Module ProposalSource.
Inductive t : Set := External | Internal (internal_type : ProposalType.t).
#[global] Instance t_eq : EqDecision t.
Proof. solve_decision. Defined.
Definition is_external (x : t) : bool := match x with External => true | Internal _ => false end.
Definition is_internal (x : t) : bool := negb (is_external x).
End ProposalSource.
Module ProposalStatusEnum.
Inductive t : Set := Queued | Active | Resolved (passed : bool) | Cancelled | Expired | Unknown.
#[global] Instance t_eq : EqDecision t.
Proof. solve_decision. Defined.
End ProposalStatusEnum.
Module DecisionRule.
Inductive t : Set := SimpleMajority.
#[global] Instance t_eq : EqDecision t.
Proof. solve_decision. Defined.
End DecisionRule.

Module ProposalRequest.
Record t : Type := mk {
  title : bytes;
  payload : RawPayload.t;
  threshold : Perbill;
  source : ProposalSource.t;
  decision_rule : DecisionRule.t;
  external_ref : H256;
  created_at : Z;
  vote_duration : option Z;
}.
#[global] Instance t_eq : EqDecision t.
Proof. solve_decision. Defined.
End ProposalRequest.

(** The payload is bounded when a request becomes a proposal. *)
Module Proposal.
Record t : Type := mk {
  title : bytes;
  payload : RawPayload.t;
  threshold : Perbill;
  source : ProposalSource.t;
  decision_rule : DecisionRule.t;
  external_ref : H256;
  proposer : option AccountId;
  created_at : Z;
  vote_duration : Z;
  end_at : option Z;
}.
Definition upd_end_at (f : (option Z) → (option Z)) (x : t) : t :=
  mk x.(title) x.(payload) x.(threshold) x.(source) x.(decision_rule) x.(external_ref)
  x.(proposer) x.(created_at) x.(vote_duration) (f x.(end_at)).
End Proposal.

Module Vote.
Record t : Type := mk {
  in_favors : Z;
  againsts : Z;
}.
Definition upd_in_favors (f : Z → Z) (x : t) : t :=
  mk (f x.(in_favors)) x.(againsts).
Definition upd_againsts (f : Z → Z) (x : t) : t :=
  mk x.(in_favors) (f x.(againsts)).
#[global] Instance t_eq : EqDecision t.
Proof. solve_decision. Defined.
Definition default : t := mk 0 0.
End Vote.

Module WatchtowerAdminConfig.
Inductive t : Set := MinVotingPeriod (period : Z) | AdminAccount (account : option AccountId).
End WatchtowerAdminConfig.

(** ** Storage of the watchtower ([pallets/watchtower/src/lib.rs]) *)

Module WatchtowerStorage.
Record t : Type := mk {
  MinVotingPeriod : Z;
  ExternalRef : gmap H256 ProposalId;
  Proposals : gmap ProposalId Proposal.t;
  ProposalStatus : gmap ProposalId ProposalStatusEnum.t;
  Votes : gmap ProposalId Vote.t;
  Voters : gmap (ProposalId * AccountId) bool;
  ActiveInternalProposal : option ProposalId;
  InternalProposalQueue : gmap (QueueId * Z) ProposalId;
  Head : Z;
  Tail : Z;
  ProposalsToRemove : gset ProposalId;
  AdminAccount : option AccountId;
}.
Definition upd_MinVotingPeriod (f : Z → Z) (x : t) : t :=
  mk (f x.(MinVotingPeriod)) x.(ExternalRef) x.(Proposals) x.(ProposalStatus) x.(Votes)
  x.(Voters) x.(ActiveInternalProposal) x.(InternalProposalQueue) x.(Head) x.(Tail)
  x.(ProposalsToRemove) x.(AdminAccount).
Definition upd_ExternalRef (f : (gmap H256 ProposalId) → (gmap H256 ProposalId)) (x : t) : t :=
  mk x.(MinVotingPeriod) (f x.(ExternalRef)) x.(Proposals) x.(ProposalStatus) x.(Votes)
  x.(Voters) x.(ActiveInternalProposal) x.(InternalProposalQueue) x.(Head) x.(Tail)
  x.(ProposalsToRemove) x.(AdminAccount).
Definition upd_Proposals (f : (gmap ProposalId Proposal.t) → (gmap ProposalId Proposal.t)) (x : t) : t :=
  mk x.(MinVotingPeriod) x.(ExternalRef) (f x.(Proposals)) x.(ProposalStatus) x.(Votes)
  x.(Voters) x.(ActiveInternalProposal) x.(InternalProposalQueue) x.(Head) x.(Tail)
  x.(ProposalsToRemove) x.(AdminAccount).
Definition upd_ProposalStatus (f : (gmap ProposalId ProposalStatusEnum.t) → (gmap ProposalId ProposalStatusEnum.t)) (x : t) : t :=
  mk x.(MinVotingPeriod) x.(ExternalRef) x.(Proposals) (f x.(ProposalStatus)) x.(Votes)
  x.(Voters) x.(ActiveInternalProposal) x.(InternalProposalQueue) x.(Head) x.(Tail)
  x.(ProposalsToRemove) x.(AdminAccount).
Definition upd_Votes (f : (gmap ProposalId Vote.t) → (gmap ProposalId Vote.t)) (x : t) : t :=
  mk x.(MinVotingPeriod) x.(ExternalRef) x.(Proposals) x.(ProposalStatus) (f x.(Votes))
  x.(Voters) x.(ActiveInternalProposal) x.(InternalProposalQueue) x.(Head) x.(Tail)
  x.(ProposalsToRemove) x.(AdminAccount).
Definition upd_Voters (f : (gmap (ProposalId * AccountId) bool) → (gmap (ProposalId * AccountId) bool)) (x : t) : t :=
  mk x.(MinVotingPeriod) x.(ExternalRef) x.(Proposals) x.(ProposalStatus) x.(Votes) (f
  x.(Voters)) x.(ActiveInternalProposal) x.(InternalProposalQueue) x.(Head) x.(Tail)
  x.(ProposalsToRemove) x.(AdminAccount).
Definition upd_ActiveInternalProposal (f : (option ProposalId) → (option ProposalId)) (x : t) : t :=
  mk x.(MinVotingPeriod) x.(ExternalRef) x.(Proposals) x.(ProposalStatus) x.(Votes) x.(Voters)
  (f x.(ActiveInternalProposal)) x.(InternalProposalQueue) x.(Head) x.(Tail)
  x.(ProposalsToRemove) x.(AdminAccount).
Definition upd_InternalProposalQueue (f : (gmap (QueueId * Z) ProposalId) → (gmap (QueueId * Z) ProposalId)) (x : t) : t :=
  mk x.(MinVotingPeriod) x.(ExternalRef) x.(Proposals) x.(ProposalStatus) x.(Votes) x.(Voters)
  x.(ActiveInternalProposal) (f x.(InternalProposalQueue)) x.(Head) x.(Tail)
  x.(ProposalsToRemove) x.(AdminAccount).
Definition upd_Head (f : Z → Z) (x : t) : t :=
  mk x.(MinVotingPeriod) x.(ExternalRef) x.(Proposals) x.(ProposalStatus) x.(Votes) x.(Voters)
  x.(ActiveInternalProposal) x.(InternalProposalQueue) (f x.(Head)) x.(Tail)
  x.(ProposalsToRemove) x.(AdminAccount).
Definition upd_Tail (f : Z → Z) (x : t) : t :=
  mk x.(MinVotingPeriod) x.(ExternalRef) x.(Proposals) x.(ProposalStatus) x.(Votes) x.(Voters)
  x.(ActiveInternalProposal) x.(InternalProposalQueue) x.(Head) (f x.(Tail))
  x.(ProposalsToRemove) x.(AdminAccount).
Definition upd_ProposalsToRemove (f : (gset ProposalId) → (gset ProposalId)) (x : t) : t :=
  mk x.(MinVotingPeriod) x.(ExternalRef) x.(Proposals) x.(ProposalStatus) x.(Votes) x.(Voters)
  x.(ActiveInternalProposal) x.(InternalProposalQueue) x.(Head) x.(Tail) (f
  x.(ProposalsToRemove)) x.(AdminAccount).
Definition upd_AdminAccount (f : (option AccountId) → (option AccountId)) (x : t) : t :=
  mk x.(MinVotingPeriod) x.(ExternalRef) x.(Proposals) x.(ProposalStatus) x.(Votes) x.(Voters)
  x.(ActiveInternalProposal) x.(InternalProposalQueue) x.(Head) x.(Tail) x.(ProposalsToRemove)
  (f x.(AdminAccount)).
End WatchtowerStorage.

Module WatchtowerEvent.
Inductive t : Type :=
  | ProposalSubmitted (proposal_id : ProposalId) (external_ref : H256) (status : ProposalStatusEnum.t)
  | VoteSubmitted (voter : AccountId) (proposal_id : ProposalId) (in_favor : bool) (vote_weight : Z)
  | VotingEnded (proposal_id : ProposalId) (external_ref : H256)
      (consensus_result : ProposalStatusEnum.t)
  | ProposalCleaned (proposal_id : ProposalId)
  | MinVotingPeriodSet (new_period : Z)
  | AdminAccountSet (new_admin : option AccountId).
End WatchtowerEvent.

(** ** Summaries ([pallets/summary]) *)

Module RootData.
Record t : Type := mk {
  root_hash : H256;
  added_by : option AccountId;
  is_validated : bool;
  is_finalised : bool;
  tx_id : option EthereumId;
}.
Definition upd_is_validated (f : bool → bool) (x : t) : t :=
  mk x.(root_hash) x.(added_by) (f x.(is_validated)) x.(is_finalised) x.(tx_id).
Definition upd_is_finalised (f : bool → bool) (x : t) : t :=
  mk x.(root_hash) x.(added_by) x.(is_validated) (f x.(is_finalised)) x.(tx_id).
Definition upd_tx_id (f : (option EthereumId) → (option EthereumId)) (x : t) : t :=
  mk x.(root_hash) x.(added_by) x.(is_validated) x.(is_finalised) (f x.(tx_id)).
Definition new (root_hash : H256) (added_by : AccountId) (transaction_id : option EthereumId) : t :=
  mk root_hash (Some added_by) false false transaction_id.
Definition default : t := mk 0 None false false None.
End RootData.

Module ExternalValidationEnum.
Inductive t : Set := Unknown | ValidationInProgress | PendingAdminReview | Accepted | Rejected.
#[global] Instance t_eq : EqDecision t.
Proof. solve_decision. Defined.
End ExternalValidationEnum.
Module ExternalValidationData.
Record t : Type := mk {
  proposal_id : ProposalId;
  external_ref : H256;
  proposal_status : ProposalStatusEnum.t;
}.
End ExternalValidationData.

Module SummaryAdminConfig.
Inductive t : Set :=
  | ExternalValidationThreshold (threshold : Z)
  | SchedulePeriod (period : Z)
  | VotingPeriod (period : Z).
End SummaryAdminConfig.
Module SummaryChallengeReason.
Inductive t : Set := SlotNotAdvanced (slot_number : SlotNumber) | Unknown.
#[global] Instance t_eq : EqDecision t.
Proof. solve_decision. Defined.
End SummaryChallengeReason.
Module SummaryChallenge.
Record t : Type := mk {
  challenge_reason : SummaryChallengeReason.t;
  challenger : AccountId;
  challengee : AccountId;
}.
#[global] Instance t_eq : EqDecision t.
Proof. solve_decision. Defined.
End SummaryChallenge.

Module SummaryOffenceType.
Inductive t : Set :=
  | InvalidSignatureSubmitted | InvalidVoteSubmitted | SlotNotAdvanced | NoSummaryCreated
  | RejectedValidRoot | CreatedInvalidRoot | ApprovedInvalidRoot.
#[global] Instance t_eq : EqDecision t.
Proof. solve_decision. Defined.
End SummaryOffenceType.

(** [Roots] is keyed by the range and the counter, that is by the id. *)
Module SummaryStorage.
Record t : Type := mk {
  NextBlockToProcess : Z;
  TxIdToRoot : gmap EthereumId RootId.t;
  NextSlotAtBlock : Z;
  CurrentSlot : Z;
  CurrentSlotsValidator : option AccountId;
  SlotOfLastPublishedSummary : Z;
  Roots : gmap RootId.t RootData.t;
  VotesRepository : gmap RootId.t VotingSessionData.t;
  PendingApproval : gmap RootRange.t IngressCounter;
  TotalIngresses : IngressCounter;
  SchedulePeriod : Z;
  VotingPeriod : Z;
  AnchorRootsCounter : Z;
  AnchorRoots : gmap Z H256;
  ExternalValidationStatus : gmap RootId.t ExternalValidationEnum.t;
  ExternalValidationRef : gmap H256 RootId.t;
  PendingAdminReviews : gmap RootId.t ExternalValidationData.t;
  ExternalValidationThreshold : option Z;
}.
Definition upd_NextBlockToProcess (f : Z → Z) (x : t) : t :=
  mk (f x.(NextBlockToProcess)) x.(TxIdToRoot) x.(NextSlotAtBlock) x.(CurrentSlot)
  x.(CurrentSlotsValidator) x.(SlotOfLastPublishedSummary) x.(Roots) x.(VotesRepository)
  x.(PendingApproval) x.(TotalIngresses) x.(SchedulePeriod) x.(VotingPeriod)
  x.(AnchorRootsCounter) x.(AnchorRoots) x.(ExternalValidationStatus)
  x.(ExternalValidationRef) x.(PendingAdminReviews) x.(ExternalValidationThreshold).
Definition upd_TxIdToRoot (f : (gmap EthereumId RootId.t) → (gmap EthereumId RootId.t)) (x : t) : t :=
  mk x.(NextBlockToProcess) (f x.(TxIdToRoot)) x.(NextSlotAtBlock) x.(CurrentSlot)
  x.(CurrentSlotsValidator) x.(SlotOfLastPublishedSummary) x.(Roots) x.(VotesRepository)
  x.(PendingApproval) x.(TotalIngresses) x.(SchedulePeriod) x.(VotingPeriod)
  x.(AnchorRootsCounter) x.(AnchorRoots) x.(ExternalValidationStatus)
  x.(ExternalValidationRef) x.(PendingAdminReviews) x.(ExternalValidationThreshold).
Definition upd_NextSlotAtBlock (f : Z → Z) (x : t) : t :=
  mk x.(NextBlockToProcess) x.(TxIdToRoot) (f x.(NextSlotAtBlock)) x.(CurrentSlot)
  x.(CurrentSlotsValidator) x.(SlotOfLastPublishedSummary) x.(Roots) x.(VotesRepository)
  x.(PendingApproval) x.(TotalIngresses) x.(SchedulePeriod) x.(VotingPeriod)
  x.(AnchorRootsCounter) x.(AnchorRoots) x.(ExternalValidationStatus)
  x.(ExternalValidationRef) x.(PendingAdminReviews) x.(ExternalValidationThreshold).
Definition upd_CurrentSlot (f : Z → Z) (x : t) : t :=
  mk x.(NextBlockToProcess) x.(TxIdToRoot) x.(NextSlotAtBlock) (f x.(CurrentSlot))
  x.(CurrentSlotsValidator) x.(SlotOfLastPublishedSummary) x.(Roots) x.(VotesRepository)
  x.(PendingApproval) x.(TotalIngresses) x.(SchedulePeriod) x.(VotingPeriod)
  x.(AnchorRootsCounter) x.(AnchorRoots) x.(ExternalValidationStatus)
  x.(ExternalValidationRef) x.(PendingAdminReviews) x.(ExternalValidationThreshold).
Definition upd_CurrentSlotsValidator (f : (option AccountId) → (option AccountId)) (x : t) : t :=
  mk x.(NextBlockToProcess) x.(TxIdToRoot) x.(NextSlotAtBlock) x.(CurrentSlot) (f
  x.(CurrentSlotsValidator)) x.(SlotOfLastPublishedSummary) x.(Roots) x.(VotesRepository)
  x.(PendingApproval) x.(TotalIngresses) x.(SchedulePeriod) x.(VotingPeriod)
  x.(AnchorRootsCounter) x.(AnchorRoots) x.(ExternalValidationStatus)
  x.(ExternalValidationRef) x.(PendingAdminReviews) x.(ExternalValidationThreshold).
Definition upd_SlotOfLastPublishedSummary (f : Z → Z) (x : t) : t :=
  mk x.(NextBlockToProcess) x.(TxIdToRoot) x.(NextSlotAtBlock) x.(CurrentSlot)
  x.(CurrentSlotsValidator) (f x.(SlotOfLastPublishedSummary)) x.(Roots) x.(VotesRepository)
  x.(PendingApproval) x.(TotalIngresses) x.(SchedulePeriod) x.(VotingPeriod)
  x.(AnchorRootsCounter) x.(AnchorRoots) x.(ExternalValidationStatus)
  x.(ExternalValidationRef) x.(PendingAdminReviews) x.(ExternalValidationThreshold).
Definition upd_Roots (f : (gmap RootId.t RootData.t) → (gmap RootId.t RootData.t)) (x : t) : t :=
  mk x.(NextBlockToProcess) x.(TxIdToRoot) x.(NextSlotAtBlock) x.(CurrentSlot)
  x.(CurrentSlotsValidator) x.(SlotOfLastPublishedSummary) (f x.(Roots)) x.(VotesRepository)
  x.(PendingApproval) x.(TotalIngresses) x.(SchedulePeriod) x.(VotingPeriod)
  x.(AnchorRootsCounter) x.(AnchorRoots) x.(ExternalValidationStatus)
  x.(ExternalValidationRef) x.(PendingAdminReviews) x.(ExternalValidationThreshold).
Definition upd_VotesRepository (f : (gmap RootId.t VotingSessionData.t) → (gmap RootId.t VotingSessionData.t)) (x : t) : t :=
  mk x.(NextBlockToProcess) x.(TxIdToRoot) x.(NextSlotAtBlock) x.(CurrentSlot)
  x.(CurrentSlotsValidator) x.(SlotOfLastPublishedSummary) x.(Roots) (f x.(VotesRepository))
  x.(PendingApproval) x.(TotalIngresses) x.(SchedulePeriod) x.(VotingPeriod)
  x.(AnchorRootsCounter) x.(AnchorRoots) x.(ExternalValidationStatus)
  x.(ExternalValidationRef) x.(PendingAdminReviews) x.(ExternalValidationThreshold).
Definition upd_PendingApproval (f : (gmap RootRange.t IngressCounter) → (gmap RootRange.t IngressCounter)) (x : t) : t :=
  mk x.(NextBlockToProcess) x.(TxIdToRoot) x.(NextSlotAtBlock) x.(CurrentSlot)
  x.(CurrentSlotsValidator) x.(SlotOfLastPublishedSummary) x.(Roots) x.(VotesRepository) (f
  x.(PendingApproval)) x.(TotalIngresses) x.(SchedulePeriod) x.(VotingPeriod)
  x.(AnchorRootsCounter) x.(AnchorRoots) x.(ExternalValidationStatus)
  x.(ExternalValidationRef) x.(PendingAdminReviews) x.(ExternalValidationThreshold).
Definition upd_TotalIngresses (f : IngressCounter → IngressCounter) (x : t) : t :=
  mk x.(NextBlockToProcess) x.(TxIdToRoot) x.(NextSlotAtBlock) x.(CurrentSlot)
  x.(CurrentSlotsValidator) x.(SlotOfLastPublishedSummary) x.(Roots) x.(VotesRepository)
  x.(PendingApproval) (f x.(TotalIngresses)) x.(SchedulePeriod) x.(VotingPeriod)
  x.(AnchorRootsCounter) x.(AnchorRoots) x.(ExternalValidationStatus)
  x.(ExternalValidationRef) x.(PendingAdminReviews) x.(ExternalValidationThreshold).
Definition upd_SchedulePeriod (f : Z → Z) (x : t) : t :=
  mk x.(NextBlockToProcess) x.(TxIdToRoot) x.(NextSlotAtBlock) x.(CurrentSlot)
  x.(CurrentSlotsValidator) x.(SlotOfLastPublishedSummary) x.(Roots) x.(VotesRepository)
  x.(PendingApproval) x.(TotalIngresses) (f x.(SchedulePeriod)) x.(VotingPeriod)
  x.(AnchorRootsCounter) x.(AnchorRoots) x.(ExternalValidationStatus)
  x.(ExternalValidationRef) x.(PendingAdminReviews) x.(ExternalValidationThreshold).
Definition upd_VotingPeriod (f : Z → Z) (x : t) : t :=
  mk x.(NextBlockToProcess) x.(TxIdToRoot) x.(NextSlotAtBlock) x.(CurrentSlot)
  x.(CurrentSlotsValidator) x.(SlotOfLastPublishedSummary) x.(Roots) x.(VotesRepository)
  x.(PendingApproval) x.(TotalIngresses) x.(SchedulePeriod) (f x.(VotingPeriod))
  x.(AnchorRootsCounter) x.(AnchorRoots) x.(ExternalValidationStatus)
  x.(ExternalValidationRef) x.(PendingAdminReviews) x.(ExternalValidationThreshold).
Definition upd_AnchorRootsCounter (f : Z → Z) (x : t) : t :=
  mk x.(NextBlockToProcess) x.(TxIdToRoot) x.(NextSlotAtBlock) x.(CurrentSlot)
  x.(CurrentSlotsValidator) x.(SlotOfLastPublishedSummary) x.(Roots) x.(VotesRepository)
  x.(PendingApproval) x.(TotalIngresses) x.(SchedulePeriod) x.(VotingPeriod) (f
  x.(AnchorRootsCounter)) x.(AnchorRoots) x.(ExternalValidationStatus)
  x.(ExternalValidationRef) x.(PendingAdminReviews) x.(ExternalValidationThreshold).
Definition upd_AnchorRoots (f : (gmap Z H256) → (gmap Z H256)) (x : t) : t :=
  mk x.(NextBlockToProcess) x.(TxIdToRoot) x.(NextSlotAtBlock) x.(CurrentSlot)
  x.(CurrentSlotsValidator) x.(SlotOfLastPublishedSummary) x.(Roots) x.(VotesRepository)
  x.(PendingApproval) x.(TotalIngresses) x.(SchedulePeriod) x.(VotingPeriod)
  x.(AnchorRootsCounter) (f x.(AnchorRoots)) x.(ExternalValidationStatus)
  x.(ExternalValidationRef) x.(PendingAdminReviews) x.(ExternalValidationThreshold).
Definition upd_ExternalValidationStatus (f : (gmap RootId.t ExternalValidationEnum.t) → (gmap RootId.t ExternalValidationEnum.t)) (x : t) : t :=
  mk x.(NextBlockToProcess) x.(TxIdToRoot) x.(NextSlotAtBlock) x.(CurrentSlot)
  x.(CurrentSlotsValidator) x.(SlotOfLastPublishedSummary) x.(Roots) x.(VotesRepository)
  x.(PendingApproval) x.(TotalIngresses) x.(SchedulePeriod) x.(VotingPeriod)
  x.(AnchorRootsCounter) x.(AnchorRoots) (f x.(ExternalValidationStatus))
  x.(ExternalValidationRef) x.(PendingAdminReviews) x.(ExternalValidationThreshold).
Definition upd_ExternalValidationRef (f : (gmap H256 RootId.t) → (gmap H256 RootId.t)) (x : t) : t :=
  mk x.(NextBlockToProcess) x.(TxIdToRoot) x.(NextSlotAtBlock) x.(CurrentSlot)
  x.(CurrentSlotsValidator) x.(SlotOfLastPublishedSummary) x.(Roots) x.(VotesRepository)
  x.(PendingApproval) x.(TotalIngresses) x.(SchedulePeriod) x.(VotingPeriod)
  x.(AnchorRootsCounter) x.(AnchorRoots) x.(ExternalValidationStatus) (f
  x.(ExternalValidationRef)) x.(PendingAdminReviews) x.(ExternalValidationThreshold).
Definition upd_PendingAdminReviews (f : (gmap RootId.t ExternalValidationData.t) → (gmap RootId.t ExternalValidationData.t)) (x : t) : t :=
  mk x.(NextBlockToProcess) x.(TxIdToRoot) x.(NextSlotAtBlock) x.(CurrentSlot)
  x.(CurrentSlotsValidator) x.(SlotOfLastPublishedSummary) x.(Roots) x.(VotesRepository)
  x.(PendingApproval) x.(TotalIngresses) x.(SchedulePeriod) x.(VotingPeriod)
  x.(AnchorRootsCounter) x.(AnchorRoots) x.(ExternalValidationStatus)
  x.(ExternalValidationRef) (f x.(PendingAdminReviews)) x.(ExternalValidationThreshold).
Definition upd_ExternalValidationThreshold (f : (option Z) → (option Z)) (x : t) : t :=
  mk x.(NextBlockToProcess) x.(TxIdToRoot) x.(NextSlotAtBlock) x.(CurrentSlot)
  x.(CurrentSlotsValidator) x.(SlotOfLastPublishedSummary) x.(Roots) x.(VotesRepository)
  x.(PendingApproval) x.(TotalIngresses) x.(SchedulePeriod) x.(VotingPeriod)
  x.(AnchorRootsCounter) x.(AnchorRoots) x.(ExternalValidationStatus)
  x.(ExternalValidationRef) x.(PendingAdminReviews) (f x.(ExternalValidationThreshold)).
Definition empty : t :=
  mk 0 ∅ 0 0 None 0 ∅ ∅ ∅ 0 0 0 0 ∅ ∅ ∅ ∅ None.
End SummaryStorage.

Module SummaryEvent.
Inductive t : Type :=
  | SchedulePeriodAndVotingPeriodUpdated (schedule_period voting_period : Z)
  | SummaryCalculated (from to : Z) (root_hash : H256) (submitter : AccountId)
  | VoteAdded (voter : AccountId) (root_id : RootId.t) (agree_vote : bool)
  | VotingEnded (root_id : RootId.t) (vote_approved : bool)
  | SummaryOffenceReported (offence_type : SummaryOffenceType.t) (offenders : list AccountId)
  | SlotAdvanced (advanced_by : AccountId) (new_slot : Z) (slot_validator : AccountId) (slot_end : Z)
  | ChallengeAdded (challenge_reason : SummaryChallengeReason.t) (challenger challengee : AccountId)
  | SummaryNotPublishedOffence (challengee : AccountId) (void_slot last_published end_vote : Z)
  | SummaryRootValidated (root_hash : H256) (ingress_counter : IngressCounter)
      (block_range : RootRange.t)
  | AdminReviewRequested (root_id : RootId.t) (proposal_id : ProposalId) (external_ref : H256)
      (status : ProposalStatusEnum.t)
  | RootPassedValidation (root_id : RootId.t) (root_hash : H256)
  | RootChallengeResolved (root_id : RootId.t) (accepted : bool)
  | SchedulePeriodSet (new_period : Z)
  | VotingPeriodSet (new_period : Z)
  | ExternalValidationThresholdSet (new_threshold : Z).
End SummaryEvent.

(** ** Summaries that watchtowers check ([pallets/summary-watchtower]) *)

(** [RootData] of that pallet. *)
Module WatchedRoot.
Record t : Type := mk {
  root_id : RootId.t;
  root_hash : H256;
}.
#[global] Instance t_eq : EqDecision t.
Proof. solve_decision. Defined.
End WatchedRoot.

Module SummaryWatchtowerEvent.
Inductive t : Type :=
  | SummaryVerificationRequested (proposal_id : ProposalId) (root_data : WatchedRoot.t)
  | ProposalValidationReplaced (aborted_proposal_id new_proposal_id : ProposalId).
End SummaryWatchtowerEvent.
