(* ===== verification/BridgeTypes.v ===== *)
(** * State of the bridge side of the runtime

    The storage and events of the AvN pallet ([pallets/avn]), the Ethereum bridge
    ([pallets/eth-bridge]) and the token manager ([pallets/token-manager]); the state
    [Runtime.t], which has these and the node manager's and the app chains'; and what
    the pallets take from elsewhere: the crates for signatures and hashes, the
    offences, scheduler, asset and currency pallets, as fields of a class. *)

From S2P Require Import Prelude Slices Bytes EventTypes EventParsing EventDiscovery EthTypes.
From S2P Require Import RuntimeErrors NodeTypes SummaryTypes.

Abbreviation AuthorityId := N (only parsing).
Abbreviation EcdsaSignature := N (only parsing).
Abbreviation EcdsaPublic := N (only parsing).
Abbreviation CurrencyId := Z (only parsing).

(** ** AvN validators *)

Module Validator.
Record t : Type := mk {
  account_id : AccountId;
  key : AuthorityId;
}.
#[global] Instance t_eq : EqDecision t.
Proof. solve_decision. Defined.
End Validator.

Module AvnStorage.
Record t : Type := mk {
  Validators : list Validator.t;
  AvnBridgeContractAddress : H160;
  PrimaryCollatorIndexForSending : Z;
}.
Definition upd_Validators (f : (list Validator.t) → (list Validator.t)) (x : t) : t :=
  mk (f x.(Validators)) x.(AvnBridgeContractAddress) x.(PrimaryCollatorIndexForSending).
Definition upd_AvnBridgeContractAddress (f : H160 → H160) (x : t) : t :=
  mk x.(Validators) (f x.(AvnBridgeContractAddress)) x.(PrimaryCollatorIndexForSending).
Definition upd_PrimaryCollatorIndexForSending (f : Z → Z) (x : t) : t :=
  mk x.(Validators) x.(AvnBridgeContractAddress) (f x.(PrimaryCollatorIndexForSending)).
End AvnStorage.

(** ** Requests to Ethereum ([pallets/eth-bridge/src/types.rs]) *)

Definition MAX_CONFIRMATIONS : nat := 100.
Definition FunctionLimit : nat := 32.
Definition CallerIdLimit : nat := 50.
Definition ParamsLimit : nat := 5.
Definition TypeLimit : nat := 7.
Definition ValueLimit : nat := 130.
Definition DEFAULT_ETH_RANGE : Z := 20.

Module SendRequestData.
Record t : Type := mk {
  tx_id : EthereumId;
  function_name : bytes;
  params : list (bytes * bytes);
  caller_id : bytes;
}.
#[global] Instance t_eq : EqDecision t.
Proof. solve_decision. Defined.
End SendRequestData.

Module LowerProofRequestData.
Record t : Type := mk {
  lower_id : LowerId;
  params : LowerParams;
  caller_id : bytes;
}.
#[global] Instance t_eq : EqDecision t.
Proof. solve_decision. Defined.
End LowerProofRequestData.

Module Request.
Inductive t : Type := Send (req : SendRequestData.t) | LowerProof (req : LowerProofRequestData.t).
#[global] Instance t_eq : EqDecision t.
Proof. solve_decision. Defined.
Definition id_matches (r : t) (id : Z) : bool :=
  match r with
  | Send req => Z.eqb (SendRequestData.tx_id req) id
  | LowerProof req => Z.eqb (LowerProofRequestData.lower_id req) id
  end.
End Request.

Module ActiveConfirmation.
Record t : Type := mk {
  msg_hash : H256;
  confirmations : list EcdsaSignature;
}.
End ActiveConfirmation.

Module TransactionData.
Record t : Type := mk {
  function_name : bytes;
  params : list (bytes * bytes);
  sender : AccountId;
  eth_tx_hash : H256;
  tx_succeeded : bool;
}.
End TransactionData.

Module ActiveEthTransaction.
Record t : Type := mk {
  function_name : bytes;
  eth_tx_params : list (bytes * bytes);
  sender : AccountId;
  expiry : Z;
  eth_tx_hash : H256;
  success_corroborations : list AccountId;
  failure_corroborations : list AccountId;
  valid_tx_hash_corroborations : list AccountId;
  invalid_tx_hash_corroborations : list AccountId;
  tx_succeeded : bool;
  replay_attempt : Z;
}.
Definition upd_eth_tx_hash (f : H256 → H256) (x : t) : t :=
  mk x.(function_name) x.(eth_tx_params) x.(sender) x.(expiry) (f x.(eth_tx_hash))
  x.(success_corroborations) x.(failure_corroborations) x.(valid_tx_hash_corroborations)
  x.(invalid_tx_hash_corroborations) x.(tx_succeeded) x.(replay_attempt).
Definition upd_success_corroborations (f : (list AccountId) → (list AccountId)) (x : t) : t :=
  mk x.(function_name) x.(eth_tx_params) x.(sender) x.(expiry) x.(eth_tx_hash) (f
  x.(success_corroborations)) x.(failure_corroborations) x.(valid_tx_hash_corroborations)
  x.(invalid_tx_hash_corroborations) x.(tx_succeeded) x.(replay_attempt).
Definition upd_failure_corroborations (f : (list AccountId) → (list AccountId)) (x : t) : t :=
  mk x.(function_name) x.(eth_tx_params) x.(sender) x.(expiry) x.(eth_tx_hash)
  x.(success_corroborations) (f x.(failure_corroborations)) x.(valid_tx_hash_corroborations)
  x.(invalid_tx_hash_corroborations) x.(tx_succeeded) x.(replay_attempt).
Definition upd_valid_tx_hash_corroborations (f : (list AccountId) → (list AccountId)) (x : t) : t :=
  mk x.(function_name) x.(eth_tx_params) x.(sender) x.(expiry) x.(eth_tx_hash)
  x.(success_corroborations) x.(failure_corroborations) (f x.(valid_tx_hash_corroborations))
  x.(invalid_tx_hash_corroborations) x.(tx_succeeded) x.(replay_attempt).
Definition upd_invalid_tx_hash_corroborations (f : (list AccountId) → (list AccountId)) (x : t) : t :=
  mk x.(function_name) x.(eth_tx_params) x.(sender) x.(expiry) x.(eth_tx_hash)
  x.(success_corroborations) x.(failure_corroborations) x.(valid_tx_hash_corroborations) (f
  x.(invalid_tx_hash_corroborations)) x.(tx_succeeded) x.(replay_attempt).
Definition upd_tx_succeeded (f : bool → bool) (x : t) : t :=
  mk x.(function_name) x.(eth_tx_params) x.(sender) x.(expiry) x.(eth_tx_hash)
  x.(success_corroborations) x.(failure_corroborations) x.(valid_tx_hash_corroborations)
  x.(invalid_tx_hash_corroborations) (f x.(tx_succeeded)) x.(replay_attempt).
End ActiveEthTransaction.

Module ActiveRequestData.
Record t : Type := mk {
  request : Request.t;
  confirmation : ActiveConfirmation.t;
  tx_data : option ActiveEthTransaction.t;
  last_updated : Z;
}.
Definition upd_confirmation (f : ActiveConfirmation.t → ActiveConfirmation.t) (x : t) : t :=
  mk x.(request) (f x.(confirmation)) x.(tx_data) x.(last_updated).
Definition upd_tx_data (f : (option ActiveEthTransaction.t) → (option ActiveEthTransaction.t)) (x : t) : t :=
  mk x.(request) x.(confirmation) (f x.(tx_data)) x.(last_updated).
Definition upd_last_updated (f : Z → Z) (x : t) : t :=
  mk x.(request) x.(confirmation) x.(tx_data) (f x.(last_updated)).
End ActiveRequestData.

Module ActiveTransactionData.
Record t : Type := mk {
  request : SendRequestData.t;
  confirmation : ActiveConfirmation.t;
  data : ActiveEthTransaction.t;
  replay_attempt : Z;
}.
Definition upd_data (f : ActiveEthTransaction.t → ActiveEthTransaction.t) (x : t) : t :=
  mk x.(request) x.(confirmation) (f x.(data)) x.(replay_attempt).
End ActiveTransactionData.

Module ActiveEthRange.
Record t : Type := mk {
  range : EthBlockRange.t;
  partition : Z;
  event_types_filter : list ValidEvents.t;
  additional_transactions : gset H256;
}.
End ActiveEthRange.

Module AdminSettings.
Inductive t : Type :=
  | EthereumTransactionLifetimeSeconds (secs : Z)
  | EthereumTransactionId (id : EthereumId)
  | RemoveActiveRequest
  | QueueAdditionalEthereumEvent (tx : H256)
  | RestartEventDiscoveryOnRange
  | SetEthBridgeInstance (instance : EthBridgeInstance.t).
End AdminSettings.

Module EthBridgeOffenceType.
Inductive t : Set :=
  | ChallengeAttemptedOnSuccessfulTransaction
  | ChallengeAttemptedOnUnsuccessfulTransaction
  | InvalidEthereumRangeData.
End EthBridgeOffenceType.

(** The votes on the events of a range are keyed by the partition voted for; the
    order of the list stands for the order of the hashed keys. *)
Module BridgeStorage.
Record t : Type := mk {
  NextTxId : EthereumId;
  EthTxLifetimeSecs : Z;
  RequestQueue : option (list Request.t);
  SettledTransactions : gmap EthereumId TransactionData.t;
  ActiveRequest : option ActiveRequestData.t;
  ActiveEthereumRange : option ActiveEthRange.t;
  EthereumEvents : list (EthereumEventsPartition.t * gset AccountId);
  SubmittedEthBlocks : gmap Z (gset AccountId);
  EthBlockRangeSize : Z;
  ProcessedEthereumEvents : gmap H256 EthProcessedEvent.t;
  AdditionalEthereumEventsQueue : gset H256;
  Instance : EthBridgeInstance.t;
}.
Definition upd_NextTxId (f : EthereumId → EthereumId) (x : t) : t :=
  mk (f x.(NextTxId)) x.(EthTxLifetimeSecs) x.(RequestQueue) x.(SettledTransactions)
  x.(ActiveRequest) x.(ActiveEthereumRange) x.(EthereumEvents) x.(SubmittedEthBlocks)
  x.(EthBlockRangeSize) x.(ProcessedEthereumEvents) x.(AdditionalEthereumEventsQueue)
  x.(Instance).
Definition upd_EthTxLifetimeSecs (f : Z → Z) (x : t) : t :=
  mk x.(NextTxId) (f x.(EthTxLifetimeSecs)) x.(RequestQueue) x.(SettledTransactions)
  x.(ActiveRequest) x.(ActiveEthereumRange) x.(EthereumEvents) x.(SubmittedEthBlocks)
  x.(EthBlockRangeSize) x.(ProcessedEthereumEvents) x.(AdditionalEthereumEventsQueue)
  x.(Instance).
Definition upd_RequestQueue (f : (option (list Request.t)) → (option (list Request.t))) (x : t) : t :=
  mk x.(NextTxId) x.(EthTxLifetimeSecs) (f x.(RequestQueue)) x.(SettledTransactions)
  x.(ActiveRequest) x.(ActiveEthereumRange) x.(EthereumEvents) x.(SubmittedEthBlocks)
  x.(EthBlockRangeSize) x.(ProcessedEthereumEvents) x.(AdditionalEthereumEventsQueue)
  x.(Instance).
Definition upd_SettledTransactions (f : (gmap EthereumId TransactionData.t) → (gmap EthereumId TransactionData.t)) (x : t) : t :=
  mk x.(NextTxId) x.(EthTxLifetimeSecs) x.(RequestQueue) (f x.(SettledTransactions))
  x.(ActiveRequest) x.(ActiveEthereumRange) x.(EthereumEvents) x.(SubmittedEthBlocks)
  x.(EthBlockRangeSize) x.(ProcessedEthereumEvents) x.(AdditionalEthereumEventsQueue)
  x.(Instance).
Definition upd_ActiveRequest (f : (option ActiveRequestData.t) → (option ActiveRequestData.t)) (x : t) : t :=
  mk x.(NextTxId) x.(EthTxLifetimeSecs) x.(RequestQueue) x.(SettledTransactions) (f
  x.(ActiveRequest)) x.(ActiveEthereumRange) x.(EthereumEvents) x.(SubmittedEthBlocks)
  x.(EthBlockRangeSize) x.(ProcessedEthereumEvents) x.(AdditionalEthereumEventsQueue)
  x.(Instance).
Definition upd_ActiveEthereumRange (f : (option ActiveEthRange.t) → (option ActiveEthRange.t)) (x : t) : t :=
  mk x.(NextTxId) x.(EthTxLifetimeSecs) x.(RequestQueue) x.(SettledTransactions)
  x.(ActiveRequest) (f x.(ActiveEthereumRange)) x.(EthereumEvents) x.(SubmittedEthBlocks)
  x.(EthBlockRangeSize) x.(ProcessedEthereumEvents) x.(AdditionalEthereumEventsQueue)
  x.(Instance).
Definition upd_EthereumEvents (f : (list (EthereumEventsPartition.t * gset AccountId)) → (list (EthereumEventsPartition.t * gset AccountId))) (x : t) : t :=
  mk x.(NextTxId) x.(EthTxLifetimeSecs) x.(RequestQueue) x.(SettledTransactions)
  x.(ActiveRequest) x.(ActiveEthereumRange) (f x.(EthereumEvents)) x.(SubmittedEthBlocks)
  x.(EthBlockRangeSize) x.(ProcessedEthereumEvents) x.(AdditionalEthereumEventsQueue)
  x.(Instance).
Definition upd_SubmittedEthBlocks (f : (gmap Z (gset AccountId)) → (gmap Z (gset AccountId))) (x : t) : t :=
  mk x.(NextTxId) x.(EthTxLifetimeSecs) x.(RequestQueue) x.(SettledTransactions)
  x.(ActiveRequest) x.(ActiveEthereumRange) x.(EthereumEvents) (f x.(SubmittedEthBlocks))
  x.(EthBlockRangeSize) x.(ProcessedEthereumEvents) x.(AdditionalEthereumEventsQueue)
  x.(Instance).
Definition upd_EthBlockRangeSize (f : Z → Z) (x : t) : t :=
  mk x.(NextTxId) x.(EthTxLifetimeSecs) x.(RequestQueue) x.(SettledTransactions)
  x.(ActiveRequest) x.(ActiveEthereumRange) x.(EthereumEvents) x.(SubmittedEthBlocks) (f
  x.(EthBlockRangeSize)) x.(ProcessedEthereumEvents) x.(AdditionalEthereumEventsQueue)
  x.(Instance).
Definition upd_ProcessedEthereumEvents (f : (gmap H256 EthProcessedEvent.t) → (gmap H256 EthProcessedEvent.t)) (x : t) : t :=
  mk x.(NextTxId) x.(EthTxLifetimeSecs) x.(RequestQueue) x.(SettledTransactions)
  x.(ActiveRequest) x.(ActiveEthereumRange) x.(EthereumEvents) x.(SubmittedEthBlocks)
  x.(EthBlockRangeSize) (f x.(ProcessedEthereumEvents)) x.(AdditionalEthereumEventsQueue)
  x.(Instance).
Definition upd_AdditionalEthereumEventsQueue (f : (gset H256) → (gset H256)) (x : t) : t :=
  mk x.(NextTxId) x.(EthTxLifetimeSecs) x.(RequestQueue) x.(SettledTransactions)
  x.(ActiveRequest) x.(ActiveEthereumRange) x.(EthereumEvents) x.(SubmittedEthBlocks)
  x.(EthBlockRangeSize) x.(ProcessedEthereumEvents) (f x.(AdditionalEthereumEventsQueue))
  x.(Instance).
Definition upd_Instance (f : EthBridgeInstance.t → EthBridgeInstance.t) (x : t) : t :=
  mk x.(NextTxId) x.(EthTxLifetimeSecs) x.(RequestQueue) x.(SettledTransactions)
  x.(ActiveRequest) x.(ActiveEthereumRange) x.(EthereumEvents) x.(SubmittedEthBlocks)
  x.(EthBlockRangeSize) x.(ProcessedEthereumEvents) x.(AdditionalEthereumEventsQueue) (f
  x.(Instance)).
End BridgeStorage.

(** ** Tokens ([pallets/token-manager/src/lib.rs]) *)

Module LowerProofData.
Record t : Type := mk {
  params : LowerParams;
  encoded_lower_data : bytes;
}.
End LowerProofData.

Module TokenStorage.
Record t : Type := mk {
  Balances : gmap (H160 * AccountId) Balance;
  Nonces : gmap AccountId Z;
  LowerAccountId : H256;
  AVTTokenContract : H160;
  LowersReadyToClaim : gmap LowerId LowerProofData.t;
  LowersPendingProof : gmap LowerId LowerParams;
  FailedLowerProofs : gmap LowerId LowerParams;
  LowerNonce : LowerId;
  LowerSchedulePeriod : Z;
  LowersDisabled : bool;
}.
Definition upd_Balances (f : (gmap (H160 * AccountId) Balance) → (gmap (H160 * AccountId) Balance)) (x : t) : t :=
  mk (f x.(Balances)) x.(Nonces) x.(LowerAccountId) x.(AVTTokenContract)
  x.(LowersReadyToClaim) x.(LowersPendingProof) x.(FailedLowerProofs) x.(LowerNonce)
  x.(LowerSchedulePeriod) x.(LowersDisabled).
Definition upd_Nonces (f : (gmap AccountId Z) → (gmap AccountId Z)) (x : t) : t :=
  mk x.(Balances) (f x.(Nonces)) x.(LowerAccountId) x.(AVTTokenContract)
  x.(LowersReadyToClaim) x.(LowersPendingProof) x.(FailedLowerProofs) x.(LowerNonce)
  x.(LowerSchedulePeriod) x.(LowersDisabled).
Definition upd_LowerAccountId (f : H256 → H256) (x : t) : t :=
  mk x.(Balances) x.(Nonces) (f x.(LowerAccountId)) x.(AVTTokenContract)
  x.(LowersReadyToClaim) x.(LowersPendingProof) x.(FailedLowerProofs) x.(LowerNonce)
  x.(LowerSchedulePeriod) x.(LowersDisabled).
Definition upd_AVTTokenContract (f : H160 → H160) (x : t) : t :=
  mk x.(Balances) x.(Nonces) x.(LowerAccountId) (f x.(AVTTokenContract))
  x.(LowersReadyToClaim) x.(LowersPendingProof) x.(FailedLowerProofs) x.(LowerNonce)
  x.(LowerSchedulePeriod) x.(LowersDisabled).
Definition upd_LowersReadyToClaim (f : (gmap LowerId LowerProofData.t) → (gmap LowerId LowerProofData.t)) (x : t) : t :=
  mk x.(Balances) x.(Nonces) x.(LowerAccountId) x.(AVTTokenContract) (f
  x.(LowersReadyToClaim)) x.(LowersPendingProof) x.(FailedLowerProofs) x.(LowerNonce)
  x.(LowerSchedulePeriod) x.(LowersDisabled).
Definition upd_LowersPendingProof (f : (gmap LowerId LowerParams) → (gmap LowerId LowerParams)) (x : t) : t :=
  mk x.(Balances) x.(Nonces) x.(LowerAccountId) x.(AVTTokenContract) x.(LowersReadyToClaim) (f
  x.(LowersPendingProof)) x.(FailedLowerProofs) x.(LowerNonce) x.(LowerSchedulePeriod)
  x.(LowersDisabled).
Definition upd_FailedLowerProofs (f : (gmap LowerId LowerParams) → (gmap LowerId LowerParams)) (x : t) : t :=
  mk x.(Balances) x.(Nonces) x.(LowerAccountId) x.(AVTTokenContract) x.(LowersReadyToClaim)
  x.(LowersPendingProof) (f x.(FailedLowerProofs)) x.(LowerNonce) x.(LowerSchedulePeriod)
  x.(LowersDisabled).
Definition upd_LowerNonce (f : LowerId → LowerId) (x : t) : t :=
  mk x.(Balances) x.(Nonces) x.(LowerAccountId) x.(AVTTokenContract) x.(LowersReadyToClaim)
  x.(LowersPendingProof) x.(FailedLowerProofs) (f x.(LowerNonce)) x.(LowerSchedulePeriod)
  x.(LowersDisabled).
Definition upd_LowerSchedulePeriod (f : Z → Z) (x : t) : t :=
  mk x.(Balances) x.(Nonces) x.(LowerAccountId) x.(AVTTokenContract) x.(LowersReadyToClaim)
  x.(LowersPendingProof) x.(FailedLowerProofs) x.(LowerNonce) (f x.(LowerSchedulePeriod))
  x.(LowersDisabled).
Definition upd_LowersDisabled (f : bool → bool) (x : t) : t :=
  mk x.(Balances) x.(Nonces) x.(LowerAccountId) x.(AVTTokenContract) x.(LowersReadyToClaim)
  x.(LowersPendingProof) x.(FailedLowerProofs) x.(LowerNonce) x.(LowerSchedulePeriod) (f
  x.(LowersDisabled)).
End TokenStorage.

(** ** Events *)

Module BridgeEvent.
Inductive t : Type :=
  | PublishToEthereum (tx_id : EthereumId) (function_name : bytes) (params : list (bytes * bytes))
      (caller_id : bytes)
  | LowerProofRequested (lower_id : LowerId) (params : LowerParams) (caller_id : bytes)
  | EthTxIdUpdated (eth_tx_id : EthereumId)
  | EthTxLifetimeUpdated (eth_tx_lifetime_secs : Z)
  | CorroborationOffenceReported (offence_type : EthBridgeOffenceType.t) (offenders : list AccountId)
  | ActiveRequestRemoved (request_id : EthereumId)
  | ActiveRequestRetried (function_name : bytes) (params : list (bytes * bytes)) (caller_id : bytes)
  | EventAccepted (eth_event_id : EthEventId.t)
  | EventRejected (eth_event_id : EthEventId.t) (reason : DispatchError)
  | EventMigrated (eth_event_id : EthEventId.t) (accepted : bool)
  | AdditionalEventQueued (transaction_hash : H256).
End BridgeEvent.

Module TokenEvent.
Inductive t : Type :=
  | AVTLifted (recipient : AccountId) (amount : Balance) (eth_tx_hash : H256)
  | TokenLifted (token_id : H160) (recipient : AccountId) (token_balance : Balance)
      (eth_tx_hash : H256)
  | TokenTransferred (token_id : H160) (sender recipient : AccountId) (token_balance : Balance)
  | CallDispatched (relayer : AccountId)
  | TokenLowered (token_id : H160) (sender recipient : AccountId) (amount : Z)
      (t1_recipient : H160) (lower_id : LowerId)
  | AvtLowered (sender recipient : AccountId) (amount : Z) (t1_recipient : H160)
      (lower_id : LowerId)
  | AVTLowerReverted (t2_refunded_sender : AccountId) (amount : Balance) (eth_tx_hash : H256)
      (lower_id : LowerId) (t1_reverted_recipient : H160)
  | TokenLowerReverted (token_id : H160) (t2_refunded_sender : AccountId) (amount : Balance)
      (eth_tx_hash : H256) (lower_id : LowerId) (t1_reverted_recipient : H160)
  | AvtTransferredFromTreasury (recipient : AccountId) (amount : Balance)
  | AVTGrowthLifted (treasury_share collators_share : Balance) (eth_tx_hash : H256)
  | LowerRequested (token_id : H160) (from : AccountId) (amount : Z) (t1_recipient : H160)
      (sender_nonce : option Z) (lower_id : LowerId)
  | LowerReadyToClaim (lower_id : LowerId)
  | AvtLowerClaimed (lower_id : LowerId)
  | FailedToGenerateLowerProof (lower_id : LowerId)
  | RegeneratingLowerProof (lower_id : LowerId) (requester : AccountId)
  | RegeneratingFailedLowerProof (lower_id : LowerId) (requester : AccountId)
  | LowerSchedulePeriodUpdated (new_period : Z)
  | LoweringEnabled
  | LoweringDisabled
  | TokensDeposited (token_id : H160) (recipient : AccountId) (token_balance : Balance)
  | NativeTokenEthAddressUpdated (old_address new_address : H160).
End TokenEvent.

Inductive RuntimeEvent : Type :=
  | AvnBridgeContractUpdated (old_contract new_contract : H160)
  | EthBridgeEvent (e : BridgeEvent.t)
  | TokenManagerEvent (e : TokenEvent.t)
  | NodeManagerEvent (e : NodeEvent.t)
  | AnchorEvent_ (e : AnchorEvent.t)
  | SummaryEvent_ (instance : Z) (e : SummaryEvent.t)
  | WatchtowerEvent_ (e : WatchtowerEvent.t)
  | SummaryWatchtowerEvent_ (e : SummaryWatchtowerEvent.t).

(** ** What validators sign

    The tuples that [validate_unsigned] has signed, before their SCALE encoding;
    the constructor is the context. *)

Module Payload.
Inductive t : Type :=
  | ADD_CONFIRMATION_CONTEXT (instance_hash : H256) (request_id : Z)
      (confirmation : EcdsaSignature) (author : AccountId)
  | ADD_ETH_TX_HASH_CONTEXT (instance_hash : H256) (tx_id : Z) (eth_tx_hash : H256)
      (author : AccountId)
  | ADD_CORROBORATION_CONTEXT (instance_hash : H256) (tx_id : Z) (tx_succeeded : bool)
      (tx_hash_is_valid : bool) (author : AccountId) (replay_attempt : Z)
  | SUBMIT_ETHEREUM_EVENTS_HASH_CONTEXT (instance_hash : H256) (author : AccountId)
      (partition : EthereumEventsPartition.t)
  | SUBMIT_LATEST_ETH_BLOCK_CONTEXT (instance_hash : H256) (author : AccountId)
      (latest_seen_block : Z)
  | PAYOUT_REWARD_CONTEXT (reward_period_index : RewardPeriodIndex)
  | MINT_REWARDS_CONTEXT (amount : Balance)
  | HEARTBEAT_CONTEXT (heartbeat_count : Z) (reward_period_index : RewardPeriodIndex)
  | CAST_VOTE_CONTEXT (voting_session_id : bytes) (vote : bool)
  | END_VOTING_PERIOD_CONTEXT (voting_session_id : bytes)
  | CHALLENGE_CONTEXT (challenge : SummaryChallenge.t)
  | UPDATE_BLOCK_NUMBER_CONTEXT (instance_id : Z) (root_hash : H256) (ingress_counter : IngressCounter)
      (new_block_number : Z)
  | ADVANCE_SLOT_CONTEXT (instance_id : Z) (current_slot : Z)
  | WATCHTOWER_UNSIGNED_VOTE_CONTEXT (proposal_id : ProposalId) (in_favor : bool)
      (watchtower : AccountId).
#[global] Instance t_eq : EqDecision t.
Proof. solve_decision. Defined.
End Payload.

(** What a user signs for a relayer. *)
Module UserPayload.
Inductive t : Type :=
  | SIGNED_TRANSFER_CONTEXT (relayer from to : AccountId) (token_id : H160) (amount : Balance)
      (sender_nonce : Z)
  | SIGNED_LOWER_CONTEXT (relayer from : AccountId) (token_id : H160) (amount : Z)
      (t1_recipient : H160) (sender_nonce : Z)
  | SIGNED_REGISTER_NODE_CONTEXT (relayer : AccountId) (node : NodeId) (owner : AccountId)
      (signing_key : SignerId) (block_number : Z)
  | SIGNED_DEREGISTER_NODE_CONTEXT (relayer owner : AccountId) (nodes_to_deregister : list NodeId)
      (number_of_nodes_to_deregister : Z) (block_number : Z)
  | UPDATE_CHAIN_HANDLER (relayer old_handler new_handler : AccountId) (chain_id : ChainId)
      (nonce : Z)
  | SUBMIT_CHECKPOINT (relayer handler : AccountId) (checkpoint : H256) (chain_id : ChainId)
      (nonce : Z) (origin_id : Z)
  | SIGNED_SUBMIT_EXTERNAL_PROPOSAL_CONTEXT (relayer : AccountId) (proposal : ProposalRequest.t)
      (block_number : Z)
  | SIGNED_SUBMIT_VOTE_CONTEXT (relayer : AccountId) (proposal_id : ProposalId) (in_favor : bool)
      (block_number : Z).
#[global] Instance t_eq : EqDecision t.
Proof. solve_decision. Defined.
End UserPayload.

(** [Proof<Signature, AccountId>]. *)
Module Proof_.
Record t (Signature : Type) := mk { signer : AccountId; relayer : AccountId; signature : Signature }.
Arguments mk {_}.
Arguments signer {_}.
Arguments relayer {_}.
Arguments signature {_}.
End Proof_.

(** ** The quorum policy *)

(** [QuorumPolicy] of [primitives/avn-common/src/lib.rs]: what the pallets use of
    it is how many of a number of members are needed. *)
Class QuorumPolicy := {
  required_for : Z → Z;
  required_for_supermajority : Z → Z;
}.
(** Of [n] members some, and not more than all, are needed. *)
Class QuorumLaws (Q : QuorumPolicy) : Prop := {
  required_for_range n : 1 <= n <= 256 → 1 <= required_for n <= n;
  required_for_supermajority_range n : 0 <= n <= 256 → 0 <= required_for_supermajority n <= n;
}.

(** ** What comes from elsewhere *)

Class BridgeConfig := {
  #[global] Quorum :: QuorumPolicy;
  MaxQueuedTxRequests : nat;
  MinEthBlockConfirmation : Z;
  (** [T::ProcessedEventsHandler::get()]. *)
  ProcessedEventsHandler_get : list ValidEvents.t;
  (** [RuntimeAppPublic::verify]. *)
  AuthoritySignature : Type;
  authority_verify : AuthorityId → Payload.t → AuthoritySignature → bool;
  (** [secp256k1_ecdsa_recover_compressed] and [EthereumPublicKeyChecker]. *)
  recover_public_key : EcdsaSignature → H256 → option EcdsaPublic;
  get_validator_for_eth_public_key : EcdsaPublic → option AccountId;
  (** EIP-712 and [blake2_256] of an encoded instance. *)
  eip712_hash : SolStruct.t → Eip712Domain.t → H256;
  instance_hash : EthBridgeInstance.t → H256;
  (** [ValidatorIdOf] and [FullIdentificationOf], and the offences pallet. *)
  identification : AccountId → option AccountId;
  OffencesState : Type;
  is_known_offence : OffencesState → list AccountId → Z → bool;
  report_offence :
    AccountId → list AccountId → EthBridgeOffenceType.t → Z → Z → OffencesState → OffencesState;
  (** [T::AssetManager] and [T::AssetRegistry]; [KeepAlive] operations. *)
  AssetState : Type;
  asset_id : AssetState → H160 → option CurrencyId;
  asset_deposit : CurrencyId → AccountId → Balance → AssetState → option AssetState;
  asset_withdraw : CurrencyId → AccountId → Balance → AssetState → option AssetState;
  asset_transfer : CurrencyId → AccountId → AccountId → Balance → AssetState → option AssetState;
  (** [T::Currency::transfer] and [T::Currency::deposit_into_existing] on the native token. *)
  native_transfer : AccountId → AccountId → Balance → AssetState → option AssetState;
  native_deposit_into_existing : AccountId → Balance → AssetState → option AssetState;
  (** The rest of [Currency] and [ReservableCurrency]; [native_unreserve] also returns
      what it could not unreserve. *)
  native_free_balance : AssetState → AccountId → Balance;
  native_reserved_balance : AssetState → AccountId → Balance;
  native_minimum_balance : Balance;
  native_transfer_allow_death : AccountId → AccountId → Balance → AssetState → option AssetState;
  native_reserve : AccountId → Balance → AssetState → option AssetState;
  native_unreserve : AccountId → Balance → AssetState → Balance * AssetState;
  native_deposit_creating : AccountId → Balance → AssetState → AssetState;
  (** [T::Scheduler::schedule_named] of the call that executes a lower. *)
  SchedulerState : Type;
  schedule_named :
    LowerId → Z → (AccountId * AccountId * H160 * Z * H160 * LowerId) → SchedulerState →
    option SchedulerState;
  UserSignature : Type;
  verify_user_signature : Proof_.t UserSignature → UserPayload.t → bool;
  TreasuryAccount : AccountId;
  (** [TreasuryGrowthPercentage::get() * amount]. *)
  treasury_growth_share : Z → Z;
  (** [OnGrowthLiftedHandler]; the state of the other pallets. *)
  OthersState : Type;
  on_growth_lifted : Z → Z → OthersState → (DispatchError + OthersState);
}.

(** ** The storage of the runtime *)

Module Runtime.
Section S.
Context `{BridgeConfig}.
Record t : Type := mk {
  block_number : Z;
  now : Z;
  session_index : Z;
  events : list RuntimeEvent;
  avn : AvnStorage.t;
  bridge : BridgeStorage.t;
  tokens : TokenStorage.t;
  nodes : NodeStorage.t;
  anchor : AnchorStorage.t;
  summaries : gmap Z SummaryStorage.t;
  watchtower : WatchtowerStorage.t;
  root_info : option (ProposalId * WatchedRoot.t);
  offences : OffencesState;
  assets : AssetState;
  scheduler : SchedulerState;
  others : OthersState;
}.
Definition upd_block_number (f : Z → Z) (x : t) : t :=
  mk (f x.(block_number)) x.(now) x.(session_index) x.(events) x.(avn) x.(bridge) x.(tokens)
  x.(nodes) x.(anchor) x.(summaries) x.(watchtower) x.(root_info) x.(offences) x.(assets)
  x.(scheduler) x.(others).
Definition upd_now (f : Z → Z) (x : t) : t :=
  mk x.(block_number) (f x.(now)) x.(session_index) x.(events) x.(avn) x.(bridge) x.(tokens)
  x.(nodes) x.(anchor) x.(summaries) x.(watchtower) x.(root_info) x.(offences) x.(assets)
  x.(scheduler) x.(others).
Definition upd_session_index (f : Z → Z) (x : t) : t :=
  mk x.(block_number) x.(now) (f x.(session_index)) x.(events) x.(avn) x.(bridge) x.(tokens)
  x.(nodes) x.(anchor) x.(summaries) x.(watchtower) x.(root_info) x.(offences) x.(assets)
  x.(scheduler) x.(others).
Definition upd_events (f : (list RuntimeEvent) → (list RuntimeEvent)) (x : t) : t :=
  mk x.(block_number) x.(now) x.(session_index) (f x.(events)) x.(avn) x.(bridge) x.(tokens)
  x.(nodes) x.(anchor) x.(summaries) x.(watchtower) x.(root_info) x.(offences) x.(assets)
  x.(scheduler) x.(others).
Definition upd_avn (f : AvnStorage.t → AvnStorage.t) (x : t) : t :=
  mk x.(block_number) x.(now) x.(session_index) x.(events) (f x.(avn)) x.(bridge) x.(tokens)
  x.(nodes) x.(anchor) x.(summaries) x.(watchtower) x.(root_info) x.(offences) x.(assets)
  x.(scheduler) x.(others).
Definition upd_bridge (f : BridgeStorage.t → BridgeStorage.t) (x : t) : t :=
  mk x.(block_number) x.(now) x.(session_index) x.(events) x.(avn) (f x.(bridge)) x.(tokens)
  x.(nodes) x.(anchor) x.(summaries) x.(watchtower) x.(root_info) x.(offences) x.(assets)
  x.(scheduler) x.(others).
Definition upd_tokens (f : TokenStorage.t → TokenStorage.t) (x : t) : t :=
  mk x.(block_number) x.(now) x.(session_index) x.(events) x.(avn) x.(bridge) (f x.(tokens))
  x.(nodes) x.(anchor) x.(summaries) x.(watchtower) x.(root_info) x.(offences) x.(assets)
  x.(scheduler) x.(others).
Definition upd_nodes (f : NodeStorage.t → NodeStorage.t) (x : t) : t :=
  mk x.(block_number) x.(now) x.(session_index) x.(events) x.(avn) x.(bridge) x.(tokens) (f
  x.(nodes)) x.(anchor) x.(summaries) x.(watchtower) x.(root_info) x.(offences) x.(assets)
  x.(scheduler) x.(others).
Definition upd_anchor (f : AnchorStorage.t → AnchorStorage.t) (x : t) : t :=
  mk x.(block_number) x.(now) x.(session_index) x.(events) x.(avn) x.(bridge) x.(tokens)
  x.(nodes) (f x.(anchor)) x.(summaries) x.(watchtower) x.(root_info) x.(offences) x.(assets)
  x.(scheduler) x.(others).
Definition upd_summaries (f : (gmap Z SummaryStorage.t) → (gmap Z SummaryStorage.t)) (x : t) : t :=
  mk x.(block_number) x.(now) x.(session_index) x.(events) x.(avn) x.(bridge) x.(tokens)
  x.(nodes) x.(anchor) (f x.(summaries)) x.(watchtower) x.(root_info) x.(offences) x.(assets)
  x.(scheduler) x.(others).
Definition upd_watchtower (f : WatchtowerStorage.t → WatchtowerStorage.t) (x : t) : t :=
  mk x.(block_number) x.(now) x.(session_index) x.(events) x.(avn) x.(bridge) x.(tokens)
  x.(nodes) x.(anchor) x.(summaries) (f x.(watchtower)) x.(root_info) x.(offences) x.(assets)
  x.(scheduler) x.(others).
Definition upd_root_info (f : (option (ProposalId * WatchedRoot.t)) → (option (ProposalId * WatchedRoot.t))) (x : t) : t :=
  mk x.(block_number) x.(now) x.(session_index) x.(events) x.(avn) x.(bridge) x.(tokens)
  x.(nodes) x.(anchor) x.(summaries) x.(watchtower) (f x.(root_info)) x.(offences) x.(assets)
  x.(scheduler) x.(others).
Definition upd_offences (f : OffencesState → OffencesState) (x : t) : t :=
  mk x.(block_number) x.(now) x.(session_index) x.(events) x.(avn) x.(bridge) x.(tokens)
  x.(nodes) x.(anchor) x.(summaries) x.(watchtower) x.(root_info) (f x.(offences)) x.(assets)
  x.(scheduler) x.(others).
Definition upd_assets (f : AssetState → AssetState) (x : t) : t :=
  mk x.(block_number) x.(now) x.(session_index) x.(events) x.(avn) x.(bridge) x.(tokens)
  x.(nodes) x.(anchor) x.(summaries) x.(watchtower) x.(root_info) x.(offences) (f x.(assets))
  x.(scheduler) x.(others).
Definition upd_scheduler (f : SchedulerState → SchedulerState) (x : t) : t :=
  mk x.(block_number) x.(now) x.(session_index) x.(events) x.(avn) x.(bridge) x.(tokens)
  x.(nodes) x.(anchor) x.(summaries) x.(watchtower) x.(root_info) x.(offences) x.(assets) (f
  x.(scheduler)) x.(others).
Definition upd_others (f : OthersState → OthersState) (x : t) : t :=
  mk x.(block_number) x.(now) x.(session_index) x.(events) x.(avn) x.(bridge) x.(tokens)
  x.(nodes) x.(anchor) x.(summaries) x.(watchtower) x.(root_info) x.(offences) x.(assets)
  x.(scheduler) (f x.(others)).
End S.
Arguments t {_}.
End Runtime.

Abbreviation Dispatch A := (M Runtime.t DispatchError A) (only parsing).
Abbreviation ensure := (@Prelude.ensure _ DispatchError).
Abbreviation fail := (@Prelude.fail _ DispatchError _).
Abbreviation ok_or := (@Prelude.ok_or _ DispatchError _).

Section Effects.
Context `{BridgeConfig}.
Definition deposit_event (e : RuntimeEvent) : Dispatch unit :=
  modify (Runtime.upd_events (λ l, l ++ [e])).
Definition ensure_root (o : Origin) : Dispatch unit :=
  match o with Root => mret () | _ => fail BadOrigin end.
Definition ensure_none (o : Origin) : Dispatch unit :=
  match o with NoOrigin => mret () | _ => fail BadOrigin end.
Definition ensure_signed (o : Origin) : Dispatch AccountId :=
  match o with Signed who => mret who | _ => fail BadOrigin end.
(** A pure function whose error is mapped to one of the runtime. *)
Definition run {E A} (r : outcome E A) (e : DispatchError) : Dispatch A :=
  match r with
  | Ok a => mret a
  | Err _ => fail e
  | Panic => panic
  end.
End Effects.
