(* ===== verification/Avn.v ===== *)
(** * The AvN pallet: validators, primaries and quorums

    [pallets/avn/src/lib.rs], without the calls to the external service: the set
    of validators and how sessions change it, the rotation of the validator that
    sends to Ethereum, the quorums, and the check of a validator's signature. *)

From S2P Require Import Prelude Slices Bytes EventTypes EthTypes RuntimeErrors NodeTypes BridgeTypes.

(** ** Quorums *)

(** [impl QuorumPolicy for Pallet<T>], on [u32]. *)
Module AvnQuorum.
Definition required_for (num : Z) : Z := num -₃₂ (wrap_to u32_max (num * 2) / 3).
Definition required_for_supermajority (num : Z) : Z := wrap_to u32_max (num * 2) / 3.
End AvnQuorum.
Definition avn_quorum : QuorumPolicy := {|
  required_for := AvnQuorum.required_for;
  required_for_supermajority := AvnQuorum.required_for_supermajority;
|}.

Section Avn.
Context `{BridgeConfig}.

Definition validators (s : Runtime.t) : list Validator.t := AvnStorage.Validators (Runtime.avn s).
Definition put_validators (l : list Validator.t) : Dispatch unit :=
  modify (Runtime.upd_avn (AvnStorage.upd_Validators (λ _, l))).
Definition put_primary (index : Z) : Dispatch unit :=
  modify (Runtime.upd_avn (AvnStorage.upd_PrimaryCollatorIndexForSending (λ _, index))).
(** [validators().len() as u32]. *)
Definition total_num_of_validators (s : Runtime.t) : Z :=
  wrap_to u32_max (Z.of_nat (length (validators s))).

(** [get_quorum] and [get_supermajority_quorum] of the configured policy. *)
Definition get_quorum (s : Runtime.t) : Z := required_for (total_num_of_validators s).
Definition get_supermajority_quorum (s : Runtime.t) : Z :=
  required_for_supermajority (total_num_of_validators s).

(** ** The validator that sends to Ethereum *)

Definition nth_account (l : list Validator.t) (i : Z) : Dispatch AccountId :=
  v ← expect (l !! Z.to_nat i);
  mret (Validator.account_id v).

Definition get_primary_validator_for_sending : Dispatch AccountId :=
  vs ← gets validators;
  ensure (negb (bool_decide (vs = []))) AvnError.NoValidatorsFound;;
  index ← gets (AvnStorage.PrimaryCollatorIndexForSending ∘ Runtime.avn);
  if bool_decide (Z.of_nat (length vs) <= index) then put_primary 0;; nth_account vs 0
  else nth_account vs index.

Definition is_primary_validator_for_sending (current_validator : AccountId) : Dispatch bool :=
  primary ← get_primary_validator_for_sending;
  mret (bool_decide (primary = current_validator)).

(** The counter and the length are [u8]; a remainder by zero panics. *)
Definition advance_primary_validator_for_sending : Dispatch AccountId :=
  vs ← gets validators;
  ensure (negb (bool_decide (vs = []))) AvnError.NoValidatorsFound;;
  ethereum_counter ← gets (AvnStorage.PrimaryCollatorIndexForSending ∘ Runtime.avn);
  let validators_len := wrap_to u8_max (Z.of_nat (length vs)) in
  if bool_decide (validators_len = 0) then panic
  else
    let index := saturating_add_to u8_max ethereum_counter 1 mod validators_len in
    put_primary index;;
    nth_account vs index.

(** Block numbers are [u32] and always fit a [usize]. *)
Definition calculate_primary_validator_for_block (block_number : Z) : Dispatch AccountId :=
  vs ← gets validators;
  ensure (negb (bool_decide (vs = []))) AvnError.NoValidatorsFound;;
  nth_account vs (block_number mod Z.of_nat (length vs)).
Definition is_primary_for_block (block_number : Z) (current_validator : AccountId) : Dispatch bool :=
  primary ← calculate_primary_validator_for_block block_number;
  mret (bool_decide (primary = current_validator)).

(** ** Membership and signatures *)

Definition is_validator (account_id : AccountId) (s : Runtime.t) : bool :=
  existsb (λ v, bool_decide (Validator.account_id v = account_id)) (validators s).
Definition try_get_validator (account_id : AccountId) (s : Runtime.t) : option Validator.t :=
  List.find (λ v, bool_decide (Validator.account_id v = account_id)) (validators s).
Definition remove_validator_from_active_list (validator_id : AccountId) : Dispatch unit :=
  vs ← gets validators;
  match position (λ v, bool_decide (Validator.account_id v = validator_id)) vs with
  | Some validator_index => put_validators (delete validator_index vs)
  | None => mret ()
  end.
(** The node's own keys, sorted, are searched for each validator's key. *)
Definition get_validator_for_current_node (local_keys : list AuthorityId) (s : Runtime.t) :
    option Validator.t :=
  let local_keys := sort_by N.compare local_keys in
  List.find (λ v, match binary_search_by (λ k, N.compare k (Validator.key v)) local_keys with
                  | Found _ => true
                  | NotFound _ => false
                  end) (validators s).

(** The key checked is the one the caller sends along with its account. *)
Definition signature_is_valid (data : Payload.t) (validator : Validator.t)
    (signature : AuthoritySignature) (s : Runtime.t) : bool :=
  is_validator (Validator.account_id validator) s &&
  authority_verify (Validator.key validator) data signature.

(** ** Sessions *)

Definition set_bridge_contract (origin : Origin) (contract_address : H160) : Dispatch unit :=
  ensure_root origin;;
  ensure (negb (N.eqb contract_address 0)) AvnError.InvalidContractAddress;;
  old_contract ← gets (AvnStorage.AvnBridgeContractAddress ∘ Runtime.avn);
  modify (Runtime.upd_avn (AvnStorage.upd_AvnBridgeContractAddress (λ _, contract_address)));;
  deposit_event (AvnBridgeContractUpdated old_contract contract_address).

(** [WeakBoundedVec::force_from] keeps what exceeds the bound; a second genesis
    panics. *)
Definition on_genesis_session (session_validators : list Validator.t) : Dispatch unit :=
  if bool_decide (session_validators = []) then mret ()
  else
    vs ← gets validators;
    if bool_decide (vs = []) then put_validators session_validators else panic.
(** [DisabledValidatorChecker::is_disabled] is a parameter. *)
Definition on_new_session (is_disabled : AccountId → bool) (changed : bool)
    (session_validators : list Validator.t) : Dispatch unit :=
  let active_avn_validators :=
    List.filter (λ v, negb (is_disabled (Validator.account_id v))) session_validators in
  if changed then put_validators active_avn_validators else mret ().
End Avn.
