(* ===== verification/BridgeExamples.v ===== *)
(** * A small runtime with a bridge

    A configuration and a state in which the theorems about the bridge and the
    token manager are applied: four validators, signatures that are the key of
    the signer, and no asset in the registry. *)

From S2P Require Import Prelude Slices Bytes EventTypes EthTypes RuntimeErrors NodeTypes SummaryTypes BridgeTypes Avn.

(** A ledger of free and reserved balances. *)
Module Ledger.
Definition t : Type := gmap AccountId (N * N).
Definition account (l : t) (a : AccountId) : N * N := unwrap_or (0, 0)%N (l !! a).
Definition free (l : t) (a : AccountId) : Z := Z.of_N (account l a).1.
Definition reserved (l : t) (a : AccountId) : Z := Z.of_N (account l a).2.
Definition set (a : AccountId) (free reserved : Z) (l : t) : t :=
  <[a := (Z.to_N free, Z.to_N reserved)]> l.
Definition transfer (keep : Z) (from to : AccountId) (amount : Z) (l : t) : option t :=
  if bool_decide (0 <= amount <= free l from - keep) then
    let l := set from (free l from - amount) (reserved l from) l in
    Some (set to (free l to + amount) (reserved l to) l)
  else None.
Definition reserve (who : AccountId) (amount : Z) (l : t) : option t :=
  if bool_decide (0 <= amount <= free l who) then
    Some (set who (free l who - amount) (reserved l who + amount) l)
  else None.
Definition unreserve (who : AccountId) (amount : Z) (l : t) : Z * t :=
  let actual := Z.max 0 (Z.min amount (reserved l who)) in
  (amount - actual, set who (free l who + actual) (reserved l who - actual) l).
Definition deposit (who : AccountId) (amount : Z) (l : t) : t :=
  set who (free l who + Z.max 0 amount) (reserved l who) l.
End Ledger.

Definition demo_config : BridgeConfig := {|
  Quorum := avn_quorum;
  MaxQueuedTxRequests := 3;
  MinEthBlockConfirmation := 20;
  ProcessedEventsHandler_get := [ValidEvents.Lifted];
  AuthoritySignature := N;
  authority_verify key _ signature := N.eqb key signature;
  recover_public_key signature _ := Some signature;
  get_validator_for_eth_public_key public_key :=
    if (bool_decide (101 <= public_key <= 104))%N then Some (public_key - 100)%N else None;
  eip712_hash _ _ := 7%N;
  instance_hash _ := 9%N;
  identification account := Some account;
  OffencesState := list (AccountId * list AccountId);
  is_known_offence _ _ _ := false;
  report_offence reporter offenders _ _ _ offences := (reporter, offenders) :: offences;
  AssetState := Ledger.t;
  asset_id _ _ := None;
  asset_deposit _ _ _ _ := None;
  asset_withdraw _ _ _ _ := None;
  asset_transfer _ _ _ _ _ := None;
  native_transfer := Ledger.transfer 1;
  native_deposit_into_existing who amount l := Some (Ledger.deposit who amount l);
  native_free_balance := Ledger.free;
  native_reserved_balance := Ledger.reserved;
  native_minimum_balance := 1;
  native_transfer_allow_death := Ledger.transfer 0;
  native_reserve := Ledger.reserve;
  native_unreserve := Ledger.unreserve;
  native_deposit_creating := Ledger.deposit;
  SchedulerState := list LowerId;
  schedule_named id _ _ scheduled := Some (id :: scheduled);
  UserSignature := N;
  verify_user_signature proof _ := N.eqb (Proof_.signature proof) (Proof_.signer proof);
  TreasuryAccount := 99%N;
  treasury_growth_share amount := amount * 75 / 100;
  OthersState := unit;
  on_growth_lifted _ _ others := inr others;
|}.

Section Demo.
#[local] Existing Instance demo_config.

Definition demo_validators : list Validator.t :=
  [Validator.mk 1 11; Validator.mk 2 12; Validator.mk 3 13; Validator.mk 4 14].
Definition demo_instance : EthBridgeInstance.t :=
  EthBridgeInstance.mk EthereumNetwork.Sepolia 5 (b "bridge") (b "1") None.
Definition demo_bridge : BridgeStorage.t :=
  BridgeStorage.mk 0 3600 None ∅ None None [] ∅ 20 ∅ ∅ demo_instance.
Definition demo_tokens : TokenStorage.t :=
  TokenStorage.mk {[ (8%N, 50%N) := 1000 ]} ∅ 0%N 6%N ∅ ∅ ∅ 0 10 false.
(** Account 70 may register nodes. *)
Definition demo_nodes : NodeStorage.t :=
  NodeStorage.mk ∅ ∅ 0 ∅ ∅ (Some 70%N) 2 2 10 900 3 ∅ 0 (RewardPeriodInfo.mk 0 0 10 2 4 900) 0 None ∅
    None ∅ true None 500 100 100000000 0 1000 1000 0 ∅ (BonusRange.mk 0 5) (BonusRange.mk 6 9) 0 ∅.
Definition demo_anchor : AnchorStorage.t :=
  AnchorStorage.mk ∅ ∅ ∅ 0 ∅ ∅ ∅ ∅ [] ∅ ∅ ∅ ∅ None ∅.
Definition demo_watchtower : WatchtowerStorage.t :=
  WatchtowerStorage.mk 100 ∅ ∅ ∅ ∅ ∅ None ∅ 0 0 ∅ None.
Definition demo_ledger : Ledger.t :=
  {[ 50%N := (1000, 0)%N; 51%N := (1000, 0)%N; 80%N := (5000, 0)%N ]}.
Definition demo_state : Runtime.t :=
  Runtime.mk 10 1000 0 [] (AvnStorage.mk demo_validators 5%N 0) demo_bridge demo_tokens demo_nodes
    demo_anchor ∅ demo_watchtower None [] demo_ledger [] ().
End Demo.
