(* ===== verification/NodeStake.v ===== *)
(** * Nodes: what they stake and what they weigh

    The operations of [pallets/node-manager/src/types.rs] and
    [pallets/node-manager/src/stake.rs]: the restriction of unstaking, the weight of
    a heartbeat, and adding, removing and moving stake.  The fixed-point types of
    [sp_arithmetic] and the order of storage keys are fields of a class. *)

From S2P Require Import Prelude Slices Bytes EventTypes EventParsing EventDiscovery EthTypes.
From S2P Require Import RuntimeErrors NodeTypes BridgeTypes.

Definition HEARTBEAT_BASE_WEIGHT : Z := 100000000.
Definition saturating_mul_to (max a b : Z) : Z := Z.min max (a * b).
Definition checked_add_to (max a b : Z) : option Z :=
  if bool_decide (a + b <= max) then Some (a + b) else None.

Class NodeConfig := {
  (** [PalletId::into_account_truncating] of [T::RewardPotId]. *)
  RewardPotAccount : AccountId;
  SignedTxLifetime : Z;
  VirtualNodeStake : Balance;
  BonusNodeSerialStart : Z;
  (** [Perbill], [Perquintill] and [FixedU128]; [fixed_from_rational], [fixed_add] and
      [fixed_mul_int] saturate. *)
  perbill_from_percent : Z → Perbill;
  perbill_mul : Perbill → Z → Z;
  perbill_mul_floor : Perbill → Z → Z;
  perquintill_from_rational : Z → Z → Perquintill;
  perquintill_mul_floor : Perquintill → Z → Z;
  fixed_one : FixedU128;
  fixed_from_rational : Z → Z → FixedU128;
  fixed_add : FixedU128 → FixedU128 → FixedU128;
  fixed_mul_int : FixedU128 → Z → Z;
  (** The place of a node in the hashed keys of a period. *)
  node_position : NodeId → N;
  (** [RuntimeAppPublic::verify] of a node's key. *)
  NodeSignature : Type;
  node_verify : SignerId → Payload.t → NodeSignature → bool;
}.

Section NodeStake.
Context `{BridgeConfig} `{!NodeConfig}.

(** ** Storage *)

Definition node_get {A} (f : NodeStorage.t → A) : Dispatch A := gets (f ∘ Runtime.nodes).
Definition node_modify (f : NodeStorage.t → NodeStorage.t) : Dispatch unit :=
  modify (Runtime.upd_nodes f).
Definition node_event (e : NodeEvent.t) : Dispatch unit := deposit_event (NodeManagerEvent e).
Definition node_info (node : NodeId) (s : Runtime.t) : option NodeInfo.t :=
  NodeStorage.NodeRegistry (Runtime.nodes s) !! node.
Definition put_node (node : NodeId) (info : NodeInfo.t) : Dispatch unit :=
  node_modify (NodeStorage.upd_NodeRegistry (insert node info)).
Definition total_stake (owner : AccountId) (s : Runtime.t) : Balance :=
  unwrap_or 0 (NodeStorage.TotalStake (Runtime.nodes s) !! owner).
(** [TotalStake::try_mutate] with [checked_add] and [checked_sub]. *)
Definition raise_total_stake (owner : AccountId) (amount : Balance) : Dispatch unit :=
  total ← gets (total_stake owner);
  total ← ok_or (checked_add_u128 total amount) NodeError.BalanceOverflow;
  node_modify (NodeStorage.upd_TotalStake (insert owner total)).
Definition lower_total_stake (owner : AccountId) (amount : Balance) : Dispatch unit :=
  total ← gets (total_stake owner);
  total ← ok_or (checked_sub_u128 total amount) NodeError.BalanceUnderflow;
  node_modify (NodeStorage.upd_TotalStake (insert owner total)).

(** ** [types.rs] *)

Definition should_update (p : RewardPeriodInfo.t) (now : Z) : bool :=
  bool_decide (RewardPeriodInfo.length p <= now ⊖ RewardPeriodInfo.first p).
Definition update (p : RewardPeriodInfo.t) (now length heartbeat_period uptime_threshold : Z)
    (reward_amount : Balance) : RewardPeriodInfo.t :=
  RewardPeriodInfo.mk (saturating_add_to u64_max (RewardPeriodInfo.current p) 1) now length
    heartbeat_period uptime_threshold reward_amount.

Definition can_unstake (info : NodeInfo.t) (now_sec : Duration) : bool :=
  bool_decide (NodeInfo.auto_stake_expiry info <= now_sec).
Definition set_restriction (r : UnstakeRestriction.t) (info : NodeInfo.t) : NodeInfo.t :=
  NodeInfo.upd_stake (StakeInfo.upd_restriction (λ _, r)) info.
Definition try_snapshot_stake (now_sec : Duration) (max_pct : Perbill)
    (restriction_duration : Duration) (info : NodeInfo.t) : NodeInfo.t :=
  match StakeInfo.restriction (NodeInfo.stake info) with
  | UnstakeRestriction.Periodic _ expires_sec =>
      if bool_decide (expires_sec <= now_sec) then set_restriction UnstakeRestriction.Free info
      else info
  | UnstakeRestriction.Free => info
  | UnstakeRestriction.Locked =>
      if bool_decide (now_sec < NodeInfo.auto_stake_expiry info) then info
      else
        let amount := StakeInfo.amount (NodeInfo.stake info) in
        set_restriction
          (if bool_decide (amount = 0) then UnstakeRestriction.Free
           else UnstakeRestriction.Periodic (perbill_mul max_pct amount)
                  (saturating_add_to u64_max (NodeInfo.auto_stake_expiry info) restriction_duration))
          info
  end.
(** What can be unstaked, and when the next period of unstaking starts. *)
Definition available_to_unstake (info : NodeInfo.t) (now_sec unstake_period : Duration) :
    outcome DispatchError (Balance * option Duration) :=
  let stake := NodeInfo.stake info in
  if bool_decide (StakeInfo.amount stake = 0 ∨ unstake_period = 0) then
    Ok (0, StakeInfo.next_unstake_time_sec stake)
  else
    match StakeInfo.restriction stake with
    | UnstakeRestriction.Locked => Ok (0, None)
    | UnstakeRestriction.Free => Ok (StakeInfo.amount stake, None)
    | UnstakeRestriction.Periodic per_period_allowance expires_sec =>
        if bool_decide (expires_sec <= now_sec) then Ok (StakeInfo.amount stake, None)
        else
          let next_unstake :=
            unwrap_or (NodeInfo.auto_stake_expiry info) (StakeInfo.next_unstake_time_sec stake) in
          if bool_decide (now_sec < next_unstake) then
            Ok (Z.min (StakeInfo.unlocked_stake stake) (StakeInfo.amount stake), Some next_unstake)
          else
            let elapsed := now_sec ⊖ next_unstake in
            let periods := saturating_add_to u64_max 1 (elapsed / unstake_period) in
            let newly_unlocked :=
              saturating_mul_to u128_max per_period_allowance (wrap_to u32_max periods) in
            available ← or_err (checked_add_u128 (StakeInfo.unlocked_stake stake) newly_unlocked)
                          Arithmetic;
            next ← or_err (checked_add_to u64_max next_unstake
                             (saturating_mul_to u64_max periods unstake_period)) Arithmetic;
            Ok (Z.min available (StakeInfo.amount stake), Some next)
    end.

Definition to_heartbeat_weight (w : RewardWeight.t) : Z :=
  let scaled_stake_weight := fixed_mul_int (RewardWeight.stake_multiplier w) HEARTBEAT_BASE_WEIGHT in
  fixed_mul_int (RewardWeight.genesis_bonus w) scaled_stake_weight.
Definition bonus_contains (range : BonusRange.t) (n : Z) : bool :=
  bool_decide (BonusRange.start range <= n <= BonusRange.end_ range).

(** ** Weights *)

Definition get_genesis_bonus (node_serial_number : Z) (s : Runtime.t) : option GenesisBonus.t :=
  match NodeStorage.GenesisOverrides (Runtime.nodes s) !! node_serial_number with
  | Some override_level => Some override_level
  | None =>
      if bonus_contains (NodeStorage.GenesisBonus50 (Runtime.nodes s)) node_serial_number
      then Some GenesisBonus.Genesis50
      else if bonus_contains (NodeStorage.GenesisBonus25 (Runtime.nodes s)) node_serial_number
      then Some GenesisBonus.Genesis25
      else None
  end.
Definition calculate_genesis_bonus (info : NodeInfo.t) (timestamp_sec : Duration) (s : Runtime.t) :
    FixedU128 :=
  if bool_decide (NodeInfo.auto_stake_expiry info <= timestamp_sec) then fixed_one
  else
    match get_genesis_bonus (NodeInfo.serial_number info) s with
    | Some GenesisBonus.Genesis50 => fixed_from_rational 3 2
    | Some GenesisBonus.Genesis25 => fixed_from_rational 5 4
    | Some GenesisBonus.Excluded | None => fixed_one
    end.
Definition calculate_stake_bonus (info : NodeInfo.t) : FixedU128 :=
  let stake := StakeInfo.amount (NodeInfo.stake info) in
  if bool_decide (stake = 0 ∨ VirtualNodeStake = 0) then fixed_one
  else fixed_add fixed_one (fixed_from_rational stake VirtualNodeStake).
Definition compute_reward_weight (info : NodeInfo.t) (reward_period_end_time : Duration)
    (s : Runtime.t) : RewardWeight.t :=
  RewardWeight.mk (calculate_genesis_bonus info reward_period_end_time s) (calculate_stake_bonus info).
Definition effective_heartbeat_weight (info : NodeInfo.t) (reward_period_end_time : Duration)
    (s : Runtime.t) : Z :=
  to_heartbeat_weight (compute_reward_weight info reward_period_end_time s).

(** ** Stake *)

Definition update_reserves (owner : AccountId) (amount : Balance) (op : StakeOperation) :
    Dispatch unit :=
  a ← gets Runtime.assets;
  match op with
  | Add =>
      a ← ok_or (native_reserve owner amount a) NodeError.InsufficientFreeBalance;
      modify (Runtime.upd_assets (λ _, a))
  | Remove =>
      let '(leftover, a) := native_unreserve owner amount a in
      modify (Runtime.upd_assets (λ _, a));;
      ensure (bool_decide (leftover = 0)) NodeError.InsufficientStakedBalance
  end.

Definition do_add_stake (owner : AccountId) (node_id : NodeId) (amount : Balance) :
    Dispatch Balance :=
  ensure (negb (bool_decide (amount = 0))) NodeError.ZeroAmount;;
  now_sec ← gets Runtime.now;
  max_pct ← node_get NodeStorage.MaxUnstakePercentage;
  restriction_duration ← node_get NodeStorage.RestrictedUnstakeDurationSec;
  transactional (
    info ← gets (node_info node_id);
    info ← ok_or info NodeError.NodeNotFound;
    let info := try_snapshot_stake now_sec max_pct restriction_duration info in
    new_amount ← ok_or (checked_add_u128 (StakeInfo.amount (NodeInfo.stake info)) amount)
                   NodeError.BalanceOverflow;
    let info := NodeInfo.upd_stake (StakeInfo.upd_amount (λ _, new_amount)) info in
    put_node node_id info;;
    raise_total_stake owner amount;;
    update_reserves owner amount Add;;
    mret (StakeInfo.amount (NodeInfo.stake info))).

(** The amount that is removed: what is asked for, or all that is available. *)
Definition amount_to_remove (maybe_amount : option Balance) (staked available : Balance) :
    Dispatch Balance :=
  match maybe_amount with
  | Some requested =>
      ensure (negb (bool_decide (requested = 0))) NodeError.ZeroAmount;;
      ensure (bool_decide (requested <= staked)) NodeError.InsufficientStakedBalance;;
      ensure (bool_decide (requested <= available)) NodeError.NoAvailableStakeToUnstake;;
      mret requested
  | None =>
      ensure (bool_decide (0 < available)) NodeError.NoAvailableStakeToUnstake;;
      mret available
  end.
Definition do_remove_stake (owner : AccountId) (node_id : NodeId) (maybe_amount : option Balance) :
    Dispatch (Balance * Balance) :=
  now_sec ← gets Runtime.now;
  max_pct ← node_get NodeStorage.MaxUnstakePercentage;
  restriction_duration ← node_get NodeStorage.RestrictedUnstakeDurationSec;
  unstake_period ← node_get NodeStorage.UnstakePeriodSec;
  info ← gets (node_info node_id);
  info ← ok_or info NodeError.NodeNotFound;
  let info := try_snapshot_stake now_sec max_pct restriction_duration info in
  ensure (can_unstake info now_sec) NodeError.AutoStakeStillActive;;
  unlocked ← run (available_to_unstake info now_sec unstake_period) NodeError.BalanceOverflow;
  let '(available, next_unstake) := unlocked in
  let staked := StakeInfo.amount (NodeInfo.stake info) in
  amount ← amount_to_remove maybe_amount staked available;
  new_total ← ok_or (checked_sub_u128 staked amount) NodeError.InsufficientStakedBalance;
  unlocked_stake ← ok_or (checked_sub_u128 available amount) NodeError.BalanceUnderflow;
  put_node node_id
    (NodeInfo.upd_stake (λ stake, StakeInfo.mk new_total unlocked_stake next_unstake
                                    (StakeInfo.restriction stake)) info);;
  lower_total_stake owner amount;;
  update_reserves owner amount Remove;;
  mret (amount, new_total).

(** One source node of [do_move_stake]. *)
Definition move_stake_from (owner : AccountId) (to_node : NodeId) (now : Duration)
    (acc : Balance * gset NodeId) (source : NodeId * option Balance) :
    Dispatch (Balance * gset NodeId) :=
  let '(total_amount, seen) := acc in
  let '(from_node, maybe_amount) := source in
  ensure (negb (bool_decide (from_node = to_node))) NodeError.SourceAndDestinationNodeMustBeDifferent;;
  ensure (negb (bool_decide (from_node ∈ seen))) NodeError.DuplicateNodeInList;;
  let seen := {[from_node]} ∪ seen in
  from_info ← gets (node_info from_node);
  from_info ← ok_or from_info NodeError.NodeNotRegistered;
  ensure (bool_decide (NodeInfo.owner from_info = owner)) NodeError.NodeNotOwnedByOwner;;
  ensure (bool_decide (now < NodeInfo.auto_stake_expiry from_info)) NodeError.AutoStakeExpired;;
  let staked := StakeInfo.amount (NodeInfo.stake from_info) in
  amount ←
    (match maybe_amount with
     | Some amt =>
         ensure (bool_decide (0 < amt)) NodeError.ZeroAmount;;
         ensure (bool_decide (amt <= staked)) NodeError.InsufficientStakedBalance;;
         mret amt
     | None => mret staked
     end);
  if bool_decide (amount = 0) then mret (total_amount, seen)
  else
    left ← ok_or (checked_sub_u128 staked amount) NodeError.BalanceUnderflow;
    put_node from_node (NodeInfo.upd_stake (StakeInfo.upd_amount (λ _, left)) from_info);;
    total_amount ← ok_or (checked_add_u128 total_amount amount) NodeError.BalanceOverflow;
    mret (total_amount, seen).
Definition do_move_stake (owner : AccountId) (source_nodes : list (NodeId * option Balance))
    (to_node : NodeId) : Dispatch unit :=
  ensure (negb (bool_decide (source_nodes = []))) NodeError.EmptyNodeList;;
  now ← gets Runtime.now;
  to_info ← gets (node_info to_node);
  to_info ← ok_or to_info NodeError.NodeNotRegistered;
  ensure (bool_decide (NodeInfo.owner to_info = owner)) NodeError.NodeNotOwnedByOwner;;
  ensure (bool_decide (now < NodeInfo.auto_stake_expiry to_info)) NodeError.AutoStakeExpired;;
  acc ← fold_m (move_stake_from owner to_node now) (0, ∅) source_nodes;
  let '(total_amount, _) := acc in
  if bool_decide (total_amount = 0) then mret ()
  else
    new_amount ← ok_or (checked_add_u128 (StakeInfo.amount (NodeInfo.stake to_info)) total_amount)
                   NodeError.BalanceOverflow;
    put_node to_node (NodeInfo.upd_stake (StakeInfo.upd_amount (λ _, new_amount)) to_info);;
    node_event (NodeEvent.StakeMoved owner to_node total_amount).
End NodeStake.
