(* ===== verification/EthBridge.v ===== *)
(** * The Ethereum bridge: requests, confirmations and corroborations

    [pallets/eth-bridge/src]: [request.rs], [tx.rs], [util.rs], the signature
    checks and encodings of [eth.rs], [offence.rs] and the dispatchables of
    [lib.rs] that move the active request.  The pallets that are told of results
    ([T::BridgeInterfaceNotification]) are an instance of a class. *)

From S2P Require Import Prelude Slices Bytes EventTypes EventParsing EventDiscovery EthTypes.
From S2P Require Import RuntimeErrors NodeTypes BridgeTypes Avn.

Class BridgeInterfaceNotification `{BridgeConfig} := {
  process_result : EthereumId → bytes → bool → Dispatch unit;
  (** [None] is [Err(())]. *)
  process_lower_proof_result : LowerId → bytes → option bytes → Dispatch unit;
  on_incoming_event_processed : EthEvent.t → Dispatch unit;
}.
(** A tuple of pallets: they are notified in order, up to the first error. *)
Definition notification_tuple `{BridgeConfig} (l : list BridgeInterfaceNotification) :
    BridgeInterfaceNotification := {|
  process_result tx_id caller_id succeeded :=
    for_each (λ N, @process_result _ N tx_id caller_id succeeded) l;
  process_lower_proof_result lower_id caller_id encoded_lower :=
    for_each (λ N, @process_lower_proof_result _ N lower_id caller_id encoded_lower) l;
  on_incoming_event_processed event := for_each (λ N, @on_incoming_event_processed _ N event) l;
|}.

Section EthBridge.
Context `{BridgeConfig} `{!BridgeInterfaceNotification}.

(** ** Storage *)

Definition active_request (s : Runtime.t) : option ActiveRequestData.t :=
  BridgeStorage.ActiveRequest (Runtime.bridge s).
Definition request_queue (s : Runtime.t) : option (list Request.t) :=
  BridgeStorage.RequestQueue (Runtime.bridge s).
Definition put_active_request (r : option ActiveRequestData.t) : Dispatch unit :=
  modify (Runtime.upd_bridge (BridgeStorage.upd_ActiveRequest (λ _, r))).
Definition put_request_queue (q : option (list Request.t)) : Dispatch unit :=
  modify (Runtime.upd_bridge (BridgeStorage.upd_RequestQueue (λ _, q))).
Definition bridge_event (e : BridgeEvent.t) : Dispatch unit := deposit_event (EthBridgeEvent e).
Definition instance (s : Runtime.t) : EthBridgeInstance.t := BridgeStorage.Instance (Runtime.bridge s).

(** [BoundedVec::try_from]. *)
Definition bounded {A} (max : nat) (l : list A) (e : BridgeError.t) : outcome BridgeError.t (list A) :=
  check (bool_decide (length l ≤ max)%nat) e;; Ok l.

(** ** [util.rs] *)

Definition has_enough_corroborations (corroborations : nat) (s : Runtime.t) : bool :=
  let num_authors_excluding_sender := total_num_of_validators s -₃₂ 1 in
  bool_decide (required_for num_authors_excluding_sender <=
               wrap_to u32_max (Z.of_nat corroborations)).
Definition enough_confirmations (confirmations : Z) (s : Runtime.t) : bool :=
  bool_decide (get_quorum s <= confirmations +₃₂ 1).
Definition has_supermajority_confirmations (confirmations : Z) (s : Runtime.t) : bool :=
  bool_decide (get_supermajority_quorum s <= confirmations).
Definition requires_corroboration (eth_tx : ActiveEthTransaction.t) (author : AccountId) : bool :=
  negb (bool_decide (author ∈ ActiveEthTransaction.success_corroborations eth_tx)) &&
  negb (bool_decide (author ∈ ActiveEthTransaction.failure_corroborations eth_tx)).
Fixpoint bound_each (params : list (bytes * bytes)) : outcome BridgeError.t (list (bytes * bytes)) :=
  match params with
  | [] => Ok []
  | (type_vec, value_vec) :: params =>
      t ← bounded TypeLimit type_vec BridgeError.TypeNameLengthExceeded;
      v ← bounded ValueLimit value_vec BridgeError.ValueLengthExceeded;
      rest ← bound_each params;
      Ok ((t, v) :: rest)
  end.
Definition bound_params (params : list (bytes * bytes)) :
    outcome BridgeError.t (list (bytes * bytes)) :=
  result ← bound_each params;
  bounded ParamsLimit result BridgeError.ParamsLimitExceeded.
Definition unbound_params (params : list (bytes * bytes)) : list (bytes * bytes) := params.

Definition bridge_result {A} (r : outcome BridgeError.t A) : Dispatch A :=
  match r with
  | Ok a => mret a
  | Err e => fail (EthBridge_ e)
  | Panic => panic
  end.

(** ** [types.rs] *)

Definition UINT256 : bytes := b "uint256".
Definition UINT32 : bytes := b "uint32".
Definition extend_params (req : SendRequestData.t) (expiry : Z) :
    outcome BridgeError.t (list (bytes * bytes)) :=
  bound_params (unbound_params (SendRequestData.params req) ++
    [(UINT256, to_string expiry); (UINT32, to_string (SendRequestData.tx_id req))]).
Definition as_active_tx (r : ActiveRequestData.t) : outcome BridgeError.t ActiveTransactionData.t :=
  tx_data ← or_err (ActiveRequestData.tx_data r) BridgeError.InvalidSendRequest;
  match ActiveRequestData.request r with
  | Request.Send req =>
      Ok (ActiveTransactionData.mk req (ActiveRequestData.confirmation r) tx_data
            (ActiveEthTransaction.replay_attempt tx_data))
  | Request.LowerProof _ => Err BridgeError.InvalidSendRequest
  end.

(** ** [eth.rs] *)

Definition eth_signature_is_valid (msg_hash : H256) (validator : AccountId)
    (signature : EcdsaSignature) (s : Runtime.t) : bool :=
  is_validator validator s &&
  match recover_public_key signature msg_hash with
  | Some public_key =>
      match get_validator_for_eth_public_key public_key with
      | Some maybe_validator => bool_decide (maybe_validator = validator)
      | None => false
      end
  | None => false
  end.
Definition verify_signature (msg_hash : H256) (author : AccountId) (confirmation : EcdsaSignature) :
    Dispatch unit :=
  valid ← gets (eth_signature_is_valid msg_hash author confirmation);
  ensure valid BridgeError.InvalidECDSASignature.
(** A signature has 65 bytes. *)
Definition encode_confirmations (confirmations : list EcdsaSignature) : bytes :=
  concat (be_bytes 65 <$> confirmations).
Definition generate_encoded_lower_proof (lower_req : LowerProofRequestData.t)
    (confirmations : list EcdsaSignature) : bytes :=
  LowerProofRequestData.params lower_req ++ encode_confirmations confirmations.

(** ** [offence.rs] *)

Definition create_offenders_identification (offenders_accounts : list AccountId) : list AccountId :=
  omap identification offenders_accounts.
Definition create_and_report_bridge_offence (reporter : AccountId)
    (offenders_accounts : list AccountId) (offence_type : EthBridgeOffenceType.t) : Dispatch unit :=
  let offenders := create_offenders_identification offenders_accounts in
  if bool_decide (offenders = []) then mret ()
  else
    session_index ← gets Runtime.session_index;
    validator_set_count ← gets total_num_of_validators;
    known ← gets (λ s, is_known_offence (Runtime.offences s) offenders session_index);
    if (known : bool) then mret ()
    else
      modify (Runtime.upd_offences
        (report_offence reporter offenders offence_type session_index validator_set_count));;
      bridge_event (BridgeEvent.CorroborationOffenceReported offence_type offenders).

(** ** [tx.rs]: setting up a transaction *)

Definition is_active_request (id : EthereumId) (s : Runtime.t) : bool :=
  match active_request s with
  | Some r => Request.id_matches (ActiveRequestData.request r) id
  | None => false
  end.
Definition use_next_tx_id : Dispatch EthereumId :=
  tx_id ← gets (BridgeStorage.NextTxId ∘ Runtime.bridge);
  modify (Runtime.upd_bridge (BridgeStorage.upd_NextTxId (λ _, tx_id +₃₂ 1)));;
  mret tx_id.
Definition assign_sender : Dispatch AccountId :=
  r ← try advance_primary_validator_for_sending;
  match r with
  | inr sender => mret sender
  | inl _ => fail (EthBridge_ BridgeError.ErrorAssigningSender)
  end.
Definition set_up_active_tx (req : SendRequestData.t) (replay_maybe : option Z) : Dispatch unit :=
  now ← gets Runtime.now;
  lifetime ← gets (BridgeStorage.EthTxLifetimeSecs ∘ Runtime.bridge);
  let expiry := now +₆₄ lifetime in
  extended_params ← bridge_result (extend_params req expiry);
  domain ← gets (Eip712Domain.of_instance ∘ instance);
  msg_hash ← run (create_function_confirmation_hash eip712_hash (SendRequestData.function_name req)
                    extended_params domain) BridgeError.MsgHashError;
  let replay_attempt := unwrap_or 0 replay_maybe in
  sender ← assign_sender;
  block_number ← gets Runtime.block_number;
  put_active_request (Some (ActiveRequestData.mk (Request.Send req)
    (ActiveConfirmation.mk msg_hash [])
    (Some (ActiveEthTransaction.mk (SendRequestData.function_name req) extended_params sender
             expiry 0 [] [] [] [] false replay_attempt))
    block_number)).

(** ** [request.rs] *)

Definition queue_request (request : Request.t) : Dispatch unit :=
  maybe_queue ← gets request_queue;
  let queue := unwrap_or [] maybe_queue in
  if bool_decide (length queue < MaxQueuedTxRequests)%nat then
    put_request_queue (Some (queue ++ [request]))
  else fail (EthBridge_ BridgeError.TxRequestQueueFull).
Definition dequeue_request : Dispatch (option Request.t) :=
  queue ← gets request_queue;
  put_request_queue None;;
  match queue with
  | Some (r :: q) =>
      (match q with [] => mret () | _ => put_request_queue (Some q) end);;
      mret (Some r)
  | _ => mret None
  end.
Definition set_up_active_lower_proof (req : LowerProofRequestData.t) : Dispatch unit :=
  domain ← gets (Eip712Domain.of_instance ∘ instance);
  msg_hash ← run (create_lower_proof_hash eip712_hash (LowerProofRequestData.params req) domain)
               BridgeError.LowerParamsError;
  block_number ← gets Runtime.block_number;
  put_active_request (Some (ActiveRequestData.mk (Request.LowerProof req)
    (ActiveConfirmation.mk msg_hash []) None block_number)).

(** Every call takes a request off the queue, so the length of the queue and one
    more is fuel enough. *)
Fixpoint process_next_request_fuel (fuel : nat) : Dispatch unit :=
  match fuel with
  | O => panic
  | S fuel =>
      put_active_request None;;
      req ← dequeue_request;
      match req with
      | None => mret ()
      | Some (Request.Send send_req) =>
          r ← try (set_up_active_tx send_req None);
          match r with
          | inr _ => mret ()
          | inl _ =>
              try (process_result (SendRequestData.tx_id send_req)
                     (SendRequestData.caller_id send_req) false);;
              process_next_request_fuel fuel
          end
      | Some (Request.LowerProof lower_req) =>
          r ← try (set_up_active_lower_proof lower_req);
          match r with
          | inr _ => mret ()
          | inl _ =>
              try (process_lower_proof_result (LowerProofRequestData.lower_id lower_req)
                     (LowerProofRequestData.caller_id lower_req) None);;
              process_next_request_fuel fuel
          end
      end
  end.
Definition process_next_request : Dispatch unit :=
  queue ← gets request_queue;
  process_next_request_fuel (S (length (unwrap_or [] queue))).

Definition has_enough_confirmations (req : ActiveRequestData.t) (s : Runtime.t) : bool :=
  let confirmations :=
    Z.of_nat (length (ActiveConfirmation.confirmations (ActiveRequestData.confirmation req))) in
  match ActiveRequestData.request req with
  | Request.Send _ => enough_confirmations confirmations s
  | Request.LowerProof _ => has_supermajority_confirmations confirmations s
  end.
Definition complete_lower_proof_request (lower_req : LowerProofRequestData.t)
    (confirmations : list EcdsaSignature) : Dispatch unit :=
  let lower_proof := generate_encoded_lower_proof lower_req confirmations in
  try (process_lower_proof_result (LowerProofRequestData.lower_id lower_req)
         (LowerProofRequestData.caller_id lower_req) (Some lower_proof));;
  process_next_request.

Definition add_new_send_request (function_name : bytes) (params : list (bytes * bytes))
    (caller_id : bytes) : Dispatch EthereumId :=
  ensure (is_utf8 function_name) BridgeError.FunctionNameError;;
  ensure (negb (bool_decide (function_name = []))) BridgeError.EmptyFunctionName;;
  tx_id ← use_next_tx_id;
  function_name ← bridge_result
    (bounded FunctionLimit function_name BridgeError.ExceedsFunctionNameLimit);
  params ← bridge_result (bound_params params);
  caller_id ← bridge_result (bounded CallerIdLimit caller_id BridgeError.CallerIdLengthExceeded);
  let send_req := SendRequestData.mk tx_id function_name params caller_id in
  active ← gets active_request;
  (match active with
   | Some _ => queue_request (Request.Send send_req)
   | None => set_up_active_tx send_req None
   end);;
  mret tx_id.
Definition add_new_lower_proof_request (lower_id : LowerId) (params : LowerParams)
    (caller_id : bytes) : Dispatch unit :=
  caller_id ← bridge_result (bounded CallerIdLimit caller_id BridgeError.CallerIdLengthExceeded);
  let proof_req := LowerProofRequestData.mk lower_id params caller_id in
  active ← gets active_request;
  match active with
  | Some _ => queue_request (Request.LowerProof proof_req)
  | None => set_up_active_lower_proof proof_req
  end.

(** ** [tx.rs]: settling a transaction *)

Definition report_challengers (sender : AccountId) (challengers : list AccountId)
    (offence_type : EthBridgeOffenceType.t) : Dispatch unit :=
  if bool_decide (challengers = []) then mret ()
  else create_and_report_bridge_offence sender challengers offence_type.
Definition complete_transaction (tx : ActiveTransactionData.t) (success : bool) : Dispatch unit :=
  let request := ActiveTransactionData.request tx in
  r ← try (process_result (SendRequestData.tx_id request) (SendRequestData.caller_id request) success);
  (match r with
   | inr _ => mret ()
   | inl _ => fail (EthBridge_ BridgeError.HandlePublishingResultFailed)
   end);;
  let data := ActiveEthTransaction.upd_tx_succeeded (λ _, success) (ActiveTransactionData.data tx) in
  data ←
    (if success then
       report_challengers (ActiveEthTransaction.sender data)
         (ActiveEthTransaction.failure_corroborations data)
         EthBridgeOffenceType.ChallengeAttemptedOnSuccessfulTransaction;;
       wrong_hash ← gets (has_enough_corroborations
         (length (ActiveEthTransaction.invalid_tx_hash_corroborations data)));
       mret (if wrong_hash : bool then ActiveEthTransaction.upd_eth_tx_hash (λ _, 0%N) data else data)
     else
       report_challengers (ActiveEthTransaction.sender data)
         (ActiveEthTransaction.success_corroborations data)
         EthBridgeOffenceType.ChallengeAttemptedOnUnsuccessfulTransaction;;
       mret data);
  modify (Runtime.upd_bridge (BridgeStorage.upd_SettledTransactions
    (insert (SendRequestData.tx_id request)
       (TransactionData.mk (SendRequestData.function_name request)
          (ActiveEthTransaction.eth_tx_params data) (ActiveEthTransaction.sender data)
          (ActiveEthTransaction.eth_tx_hash data) (ActiveEthTransaction.tx_succeeded data)))));;
  process_next_request.
Definition replay_send_request (tx : ActiveTransactionData.t) : Dispatch unit :=
  let request := ActiveTransactionData.request tx in
  bridge_event (BridgeEvent.ActiveRequestRetried (SendRequestData.function_name request)
    (SendRequestData.params request) (SendRequestData.caller_id request));;
  set_up_active_tx request
    (Some (saturating_add_to 65535 (ActiveTransactionData.replay_attempt tx) 1)).
Definition finalize_state (tx : ActiveTransactionData.t) (success : bool) : Dispatch unit :=
  invalid ← gets (has_enough_corroborations
    (length (ActiveEthTransaction.invalid_tx_hash_corroborations (ActiveTransactionData.data tx))));
  if negb success && invalid then replay_send_request tx else complete_transaction tx success.

Definition save_active_request_to_storage (tx : ActiveRequestData.t) : Dispatch unit :=
  block_number ← gets Runtime.block_number;
  put_active_request (Some (ActiveRequestData.upd_last_updated (λ _, block_number) tx)).

(** ** The dispatchables on the active request *)

Definition is_sender_of (author : AccountId) (req : ActiveRequestData.t) : bool :=
  match ActiveRequestData.request req, ActiveRequestData.tx_data req with
  | Request.Send _, Some data => bool_decide (ActiveEthTransaction.sender data = author)
  | _, _ => false
  end.
Definition add_confirmation (origin : Origin) (request_id : Z) (confirmation : EcdsaSignature)
    (author : Validator.t) : Dispatch unit :=
  ensure_none origin;;
  active ← gets (is_active_request request_id);
  if negb active then mret ()
  else
    maybe_req ← gets active_request;
    req ← expect maybe_req;
    enough ← gets (has_enough_confirmations req);
    if (enough : bool) then mret ()
    else if is_sender_of (Validator.account_id author) req then mret ()
    else
      let conf := ActiveRequestData.confirmation req in
      verify_signature (ActiveConfirmation.msg_hash conf) (Validator.account_id author) confirmation;;
      ensure (negb (bool_decide (confirmation ∈ ActiveConfirmation.confirmations conf)))
        BridgeError.DuplicateConfirmation;;
      confirmations ← ok_or (try_push MAX_CONFIRMATIONS (ActiveConfirmation.confirmations conf)
                               confirmation) BridgeError.ExceedsConfirmationLimit;
      let req := ActiveRequestData.upd_confirmation
        (λ _, ActiveConfirmation.mk (ActiveConfirmation.msg_hash conf) confirmations) req in
      enough ← gets (has_enough_confirmations req);
      match ActiveRequestData.request req with
      | Request.LowerProof lower_req =>
          if (enough : bool) then complete_lower_proof_request lower_req confirmations
          else save_active_request_to_storage req
      | Request.Send _ => save_active_request_to_storage req
      end.

Definition add_eth_tx_hash (origin : Origin) (tx_id : EthereumId) (eth_tx_hash : H256)
    (author : Validator.t) : Dispatch unit :=
  ensure_none origin;;
  active ← gets (is_active_request tx_id);
  if negb active then mret ()
  else
    maybe_tx ← gets active_request;
    tx ← expect maybe_tx;
    match ActiveRequestData.tx_data tx with
    | None => mret ()
    | Some data =>
        ensure (N.eqb (ActiveEthTransaction.eth_tx_hash data) 0) BridgeError.EthTxHashAlreadySet;;
        ensure (bool_decide (ActiveEthTransaction.sender data = Validator.account_id author))
          BridgeError.EthTxHashMustBeSetBySender;;
        save_active_request_to_storage (ActiveRequestData.upd_tx_data
          (λ _, Some (ActiveEthTransaction.upd_eth_tx_hash (λ _, eth_tx_hash) data)) tx)
    end.

(** The corroborations of an author on the hash and on the outcome. *)
Definition push_corroboration (l : list AccountId) (author : AccountId) : Dispatch (list AccountId) :=
  ok_or (try_push MAX_CONFIRMATIONS l author) BridgeError.ExceedsCorroborationLimit.
Definition corroborate_hash (tx_hash_is_valid : bool) (author : AccountId)
    (data : ActiveEthTransaction.t) : Dispatch ActiveEthTransaction.t :=
  if tx_hash_is_valid then
    l ← push_corroboration (ActiveEthTransaction.valid_tx_hash_corroborations data) author;
    mret (ActiveEthTransaction.upd_valid_tx_hash_corroborations (λ _, l) data)
  else
    l ← push_corroboration (ActiveEthTransaction.invalid_tx_hash_corroborations data) author;
    mret (ActiveEthTransaction.upd_invalid_tx_hash_corroborations (λ _, l) data).
Definition corroborate_outcome (tx_succeeded : bool) (author : AccountId)
    (data : ActiveEthTransaction.t) : Dispatch (ActiveEthTransaction.t * nat) :=
  if tx_succeeded then
    l ← push_corroboration (ActiveEthTransaction.success_corroborations data) author;
    mret (ActiveEthTransaction.upd_success_corroborations (λ _, l) data, length l)
  else
    l ← push_corroboration (ActiveEthTransaction.failure_corroborations data) author;
    mret (ActiveEthTransaction.upd_failure_corroborations (λ _, l) data, length l).
Definition add_corroboration (origin : Origin) (tx_id : EthereumId)
    (tx_succeeded tx_hash_is_valid : bool) (author : Validator.t) (replay_attempt : Z) :
    Dispatch unit :=
  ensure_none origin;;
  active ← gets (is_active_request tx_id);
  if negb active then mret ()
  else
    maybe_tx ← gets active_request;
    tx ← expect maybe_tx;
    match ActiveRequestData.tx_data tx with
    | None => mret ()
    | Some data =>
        let author := Validator.account_id author in
        ensure (Z.eqb replay_attempt (ActiveEthTransaction.replay_attempt data))
          BridgeError.InvalidCorroborationData;;
        ensure (negb (bool_decide (author = ActiveEthTransaction.sender data)))
          BridgeError.CannotCorroborateOwnTransaction;;
        if negb (requires_corroboration data author) then mret ()
        else
          data ← corroborate_hash tx_hash_is_valid author data;
          r ← corroborate_outcome tx_succeeded author data;
          let tx := ActiveRequestData.upd_tx_data (λ _, Some r.1) tx in
          enough ← gets (has_enough_corroborations r.2);
          if (enough : bool) then
            active_tx ← bridge_result (as_active_tx tx);
            finalize_state active_tx tx_succeeded
          else save_active_request_to_storage tx
    end.

(** ** The interface for other pallets *)

Definition publish (function_name : bytes) (params : list (bytes * bytes)) (caller_id : bytes) :
    Dispatch EthereumId :=
  r ← try (add_new_send_request function_name params caller_id);
  match r with
  | inl (EthBridge_ e) => fail (OtherBridge e)
  | inl e => fail e
  | inr tx_id =>
      bridge_event (BridgeEvent.PublishToEthereum tx_id function_name params caller_id);;
      mret tx_id
  end.
Definition generate_lower_proof (lower_id : LowerId) (params : LowerParams) (caller_id : bytes) :
    Dispatch unit :=
  add_new_lower_proof_request lower_id params caller_id;;
  bridge_event (BridgeEvent.LowerProofRequested lower_id params caller_id).

Definition remove_active_request_impl : Dispatch unit :=
  req ← gets active_request;
  req ← ok_or req BridgeError.NoActiveRequest;
  request_id ←
    (match ActiveRequestData.request req with
     | Request.Send send_req =>
         try (process_result (SendRequestData.tx_id send_req)
                (SendRequestData.caller_id send_req) false);;
         mret (SendRequestData.tx_id send_req)
     | Request.LowerProof lower_req =>
         try (process_lower_proof_result (LowerProofRequestData.lower_id lower_req)
                (LowerProofRequestData.caller_id lower_req) None);;
         mret (LowerProofRequestData.lower_id lower_req)
     end);
  process_next_request;;
  bridge_event (BridgeEvent.ActiveRequestRemoved request_id).
End EthBridge.
