(* ===== verification/BridgeEvents.v ===== *)
(** * The Ethereum bridge: incoming events, settings and admission

    The rest of [pallets/eth-bridge/src/lib.rs]: the votes on the first block and
    on the events of a range, the processing of agreed events, the record of
    processed events, the settings of the root origin, and [validate_unsigned],
    which every unsigned call passes before it is dispatched. *)

From S2P Require Import Prelude Slices Bytes EventTypes EventParsing EventDiscovery EthTypes.
From S2P Require Import RuntimeErrors NodeTypes BridgeTypes Avn EthBridge.

Definition MaximumValidatorsBound : nat := 256.
Definition AdditionalEventsBound : nat := 16.

(** [BoundedBTreeSet::try_insert]. *)
Definition set_try_insert {A} `{Countable A} (max : nat) (x : A) (X : gset A) : option (gset A) :=
  if decide (x ∈ X) then Some X
  else if bool_decide (size X < max)%nat then Some ({[x]} ∪ X) else None.

Section BridgeEvents.
Context `{BridgeConfig} `{!BridgeInterfaceNotification}.

Definition bridge_get {A} (f : BridgeStorage.t → A) : Dispatch A := gets (f ∘ Runtime.bridge).
Definition bridge_modify (f : BridgeStorage.t → BridgeStorage.t) : Dispatch unit :=
  modify (Runtime.upd_bridge f).

(** ** Processed events *)

Definition ethereum_event_has_already_been_accepted (tx_hash : H256) (s : Runtime.t) : bool :=
  match BridgeStorage.ProcessedEthereumEvents (Runtime.bridge s) !! tx_hash with
  | Some processed_event => EthProcessedEvent.accepted processed_event
  | None => false
  end.
(** [ProcessedEventsChecker]. *)
Definition processed_event_exists (event_id : EthEventId.t) (s : Runtime.t) : bool :=
  bool_decide (is_Some
    (BridgeStorage.ProcessedEthereumEvents (Runtime.bridge s) !! EthEventId.transaction_hash event_id)).
Definition add_processed_event (event_id : EthEventId.t) (accepted : bool) : Dispatch unit :=
  let tx_hash := EthEventId.transaction_hash event_id in
  already ← gets (ethereum_event_has_already_been_accepted tx_hash);
  ensure (negb already) External;;
  id ← ok_or (if existsb (N.eqb (EthEventId.signature event_id)) LEGACY_LIFT_SIGNATURE
              then Some ValidEvents.Lifted
              else ValidEvents.try_from (EthEventId.signature event_id)) External;
  bridge_modify (BridgeStorage.upd_ProcessedEthereumEvents
    (insert tx_hash (EthProcessedEvent.mk id accepted))).
(** [NetworkAwareProcessedEventsChecker]: for another network there are no
    processed events, and none can be added. *)
Definition network_processed_event_exists (network : EthereumNetwork.t) (event_id : EthEventId.t)
    (s : Runtime.t) : bool :=
  EthBridgeInstance.is_valid (instance s) &&
  bool_decide (EthBridgeInstance.network (instance s) = network) &&
  processed_event_exists event_id s.
Definition network_add_processed_event (network : EthereumNetwork.t) (event_id : EthEventId.t)
    (accepted : bool) : Dispatch unit :=
  i ← gets instance;
  ensure (EthBridgeInstance.is_valid i) External;;
  ensure (bool_decide (EthBridgeInstance.network i = network)) External;;
  add_processed_event event_id accepted.

(** ** Votes on events *)

Definition event_votes (partition : EthereumEventsPartition.t) (s : Runtime.t) : gset AccountId :=
  match List.find (λ pv, bool_decide (pv.1 = partition))
          (BridgeStorage.EthereumEvents (Runtime.bridge s)) with
  | Some pv => pv.2
  | None => ∅
  end.
(** [StorageMap::insert] and [remove] on the association list. *)
Fixpoint put_votes (partition : EthereumEventsPartition.t) (votes : gset AccountId)
    (l : list (EthereumEventsPartition.t * gset AccountId)) :=
  match l with
  | [] => [(partition, votes)]
  | pv :: l =>
      if decide (pv.1 = partition) then (partition, votes) :: l else pv :: put_votes partition votes l
  end.
Definition remove_votes (partition : EthereumEventsPartition.t)
    (l : list (EthereumEventsPartition.t * gset AccountId)) :=
  List.filter (λ pv, negb (bool_decide (pv.1 = partition))) l.

Definition author_has_cast_event_vote (author : AccountId) (s : Runtime.t) : bool :=
  existsb (λ pv, bool_decide (author ∈ pv.2)) (BridgeStorage.EthereumEvents (Runtime.bridge s)).
Definition does_range_matches_active (events_partition : EthereumEventsPartition.t) (s : Runtime.t) :
    bool :=
  match BridgeStorage.ActiveEthereumRange (Runtime.bridge s) with
  | Some active_range =>
      bool_decide (EthereumEventsPartition.range events_partition = ActiveEthRange.range active_range) &&
      Z.eqb (EthereumEventsPartition.partition events_partition) (ActiveEthRange.partition active_range)
  | None => false
  end.

Definition process_ethereum_event (network : EthereumNetwork.t) (event : EthEvent.t) : Dispatch unit :=
  exists_ ← gets (network_processed_event_exists network (EthEvent.event_id event));
  ensure (negb exists_) BridgeError.EventAlreadyProcessed;;
  r ← try (network_add_processed_event network (EthEvent.event_id event) true);
  (match r with
   | inr _ => mret ()
   | inl _ => fail (EthBridge_ BridgeError.EventAlreadyProcessed)
   end);;
  r ← try (on_incoming_event_processed event);
  match r with
  | inr _ => bridge_event (BridgeEvent.EventAccepted (EthEvent.event_id event))
  | inl err => bridge_event (BridgeEvent.EventRejected (EthEvent.event_id event) err)
  end.
Definition process_discovered_event (network : EthereumNetwork.t) (active_range : ActiveEthRange.t)
    (discovered_event : DiscoveredEvent.t) : Dispatch unit :=
  let event := DiscoveredEvent.event discovered_event in
  match ValidEvents.try_from (DiscoveredEvent.signature discovered_event) with
  | None => mret ()
  | Some valid_event =>
      if negb (Filters.contains (ActiveEthRange.event_types_filter active_range) valid_event)
      then mret ()
      else if bool_decide (EthBlockRange.end_block (ActiveEthRange.range active_range) <
                           DiscoveredEvent.block discovered_event)
      then bridge_event (BridgeEvent.EventRejected (EthEvent.event_id event)
                           BridgeError.EventBelongsInFutureRange)
      else
        r ← try (process_ethereum_event network event);
        match r with
        | inr _ => mret ()
        | inl err => bridge_event (BridgeEvent.EventRejected (EthEvent.event_id event) err)
        end
  end.
Definition process_ethereum_events_partition (network : EthereumNetwork.t)
    (active_range : ActiveEthRange.t) (partition : EthereumEventsPartition.t) (author : AccountId) :
    Dispatch unit :=
  bridge_modify (BridgeStorage.upd_EthereumEvents (remove_votes partition));;
  for_each (process_discovered_event network active_range) (EthereumEventsPartition.data partition);;
  remaining ← bridge_get BridgeStorage.EthereumEvents;
  bridge_modify (BridgeStorage.upd_EthereumEvents (λ _, []));;
  for_each (λ pv, create_and_report_bridge_offence author (sort_by N.compare (elements pv.2))
                    EthBridgeOffenceType.InvalidEthereumRangeData) remaining.
Definition take_additional_events : Dispatch (gset H256) :=
  l ← bridge_get BridgeStorage.AdditionalEthereumEventsQueue;
  bridge_modify (BridgeStorage.upd_AdditionalEthereumEventsQueue (λ _, ∅));;
  mret l.
Definition advance_partition (active_range : ActiveEthRange.t)
    (approved_partition : EthereumEventsPartition.t) : Dispatch unit :=
  next_active_range ←
    (if EthereumEventsPartition.is_last approved_partition then
       additional_transactions ← take_additional_events;
       mret (ActiveEthRange.mk (EthBlockRange.next_range (ActiveEthRange.range active_range)) 0
               ProcessedEventsHandler_get additional_transactions)
     else
       mret (ActiveEthRange.mk (ActiveEthRange.range active_range)
               (saturating_add_to 65535 (ActiveEthRange.partition active_range) 1)
               (ActiveEthRange.event_types_filter active_range)
               (ActiveEthRange.additional_transactions active_range)));
  bridge_modify (BridgeStorage.upd_ActiveEthereumRange (λ _, Some next_active_range)).

Definition submit_ethereum_events (origin : Origin) (author : Validator.t)
    (events_partition : EthereumEventsPartition.t) : Dispatch unit :=
  ensure_none origin;;
  i ← gets instance;
  ensure (EthBridgeInstance.is_valid i) BridgeError.InvalidInstance;;
  maybe_range ← bridge_get BridgeStorage.ActiveEthereumRange;
  active_range ← ok_or maybe_range BridgeError.NonActiveEthereumRange;
  ensure (bool_decide (EthereumEventsPartition.range events_partition =
                       ActiveEthRange.range active_range) &&
          Z.eqb (EthereumEventsPartition.partition events_partition)
            (ActiveEthRange.partition active_range)) BridgeError.NonActiveEthereumRange;;
  voted ← gets (author_has_cast_event_vote (Validator.account_id author));
  ensure (negb voted) BridgeError.EventVoteExists;;
  votes ← gets (event_votes events_partition);
  votes ← ok_or (set_try_insert MaximumValidatorsBound (Validator.account_id author) votes)
            BridgeError.EventVotesFull;
  quorum ← gets get_quorum;
  if bool_decide (Z.of_nat (size votes) < quorum) then
    bridge_modify (BridgeStorage.upd_EthereumEvents (put_votes events_partition votes))
  else
    process_ethereum_events_partition (EthBridgeInstance.network i) active_range events_partition
      (Validator.account_id author);;
    advance_partition active_range events_partition.

(** ** Votes on the first block *)

Definition author_has_submitted_latest_block (author : AccountId) (s : Runtime.t) : bool :=
  existsb (λ bv : Z * gset AccountId, bool_decide (author ∈ bv.2))
    (map_to_list (BridgeStorage.SubmittedEthBlocks (Runtime.bridge s))).
(** The submitted blocks with their numbers of votes, in ascending order. *)
Definition cmp_submitted (x y : Z * nat) : comparison :=
  match Z.compare x.1 y.1 with Eq => Nat.compare x.2 y.2 | ord => ord end.
Definition submitted_blocks (m : gmap Z (gset AccountId)) : list (Z * nat) :=
  sort_by cmp_submitted ((λ bv : Z * gset AccountId, (bv.1, size bv.2)) <$> map_to_list m).
Definition total_votes_count (l : list (Z * nat)) : nat := sum_list (snd <$> l).
Fixpoint select_range (l : list (Z * nat)) (remaining_votes_threshold quorum length : Z) :
    EthBlockRange.t :=
  match l with
  | [] => EthBlockRange.default
  | (eth_block_num, votes_count) :: l =>
      let remaining_votes_threshold := remaining_votes_threshold ⊖ Z.of_nat votes_count in
      if bool_decide (remaining_votes_threshold < quorum) then EthBlockRange.mk eth_block_num length
      else select_range l remaining_votes_threshold quorum length
  end.
Definition submit_latest_ethereum_block (origin : Origin) (author : Validator.t)
    (latest_seen_block : Z) : Dispatch unit :=
  ensure_none origin;;
  i ← gets instance;
  ensure (EthBridgeInstance.is_valid i) BridgeError.InvalidInstance;;
  active_range ← bridge_get BridgeStorage.ActiveEthereumRange;
  ensure (bool_decide (active_range = None)) BridgeError.VotingEnded;;
  voted ← gets (author_has_submitted_latest_block (Validator.account_id author));
  ensure (negb voted) BridgeError.EventVoteExists;;
  eth_block_range_size ← bridge_get BridgeStorage.EthBlockRangeSize;
  latest_finalised_block ← ok_or
    (compute_start_block_from_finalised_block_number latest_seen_block eth_block_range_size)
    BridgeError.InvalidEthereumBlockRange;
  blocks ← bridge_get BridgeStorage.SubmittedEthBlocks;
  votes ← ok_or (set_try_insert MaximumValidatorsBound (Validator.account_id author)
                   (unwrap_or ∅ (blocks !! latest_finalised_block))) BridgeError.EventVotesFull;
  bridge_modify (BridgeStorage.upd_SubmittedEthBlocks (insert latest_finalised_block votes));;
  blocks ← bridge_get BridgeStorage.SubmittedEthBlocks;
  remaining_votes_threshold ← gets get_supermajority_quorum;
  if bool_decide (remaining_votes_threshold <=
                  Z.of_nat (total_votes_count (submitted_blocks blocks))) then
    quorum ← gets get_quorum;
    let selected_range :=
      select_range (submitted_blocks blocks) remaining_votes_threshold quorum eth_block_range_size in
    additional_transactions ← take_additional_events;
    bridge_modify (BridgeStorage.upd_ActiveEthereumRange
      (λ _, Some (ActiveEthRange.mk selected_range 0 ProcessedEventsHandler_get
                    additional_transactions)));;
    bridge_modify (BridgeStorage.upd_SubmittedEthBlocks (λ _, ∅))
  else mret ().

(** ** Settings *)

(** [StorageMap::clear] removes at most so many entries. *)
Definition clear_events (limit : nat) : Dispatch unit :=
  bridge_modify (BridgeStorage.upd_EthereumEvents (drop limit)).
Definition set_admin_setting (origin : Origin) (value : AdminSettings.t) : Dispatch unit :=
  ensure_root origin;;
  match value with
  | AdminSettings.EthereumTransactionLifetimeSeconds eth_tx_lifetime_secs =>
      bridge_modify (BridgeStorage.upd_EthTxLifetimeSecs (λ _, eth_tx_lifetime_secs));;
      bridge_event (BridgeEvent.EthTxLifetimeUpdated eth_tx_lifetime_secs)
  | AdminSettings.EthereumTransactionId eth_tx_id =>
      bridge_modify (BridgeStorage.upd_NextTxId (λ _, eth_tx_id));;
      bridge_event (BridgeEvent.EthTxIdUpdated eth_tx_id)
  | AdminSettings.RemoveActiveRequest => remove_active_request_impl
  | AdminSettings.QueueAdditionalEthereumEvent transaction_hash =>
      already ← gets (ethereum_event_has_already_been_accepted transaction_hash);
      ensure (negb already) BridgeError.EventAlreadyAccepted;;
      transactions ← bridge_get BridgeStorage.AdditionalEthereumEventsQueue;
      transactions ← ok_or (set_try_insert AdditionalEventsBound transaction_hash transactions)
                       BridgeError.QuotaReachedForAdditionalEvents;
      bridge_modify (BridgeStorage.upd_AdditionalEthereumEventsQueue (λ _, transactions));;
      bridge_event (BridgeEvent.AdditionalEventQueued transaction_hash)
  | AdminSettings.RestartEventDiscoveryOnRange => clear_events 100
  | AdminSettings.SetEthBridgeInstance i =>
      ensure (EthBridgeInstance.is_valid i) BridgeError.InvalidInstance;;
      clear_events 100;;
      clear_events 1;;
      bridge_modify (BridgeStorage.upd_Instance (λ _, i));;
      active ← gets active_request;
      match active with
      | Some tx =>
          match ActiveRequestData.request tx with
          | Request.Send tx_data => set_up_active_tx tx_data None
          | Request.LowerProof _ => mret ()
          end
      | None => mret ()
      end
  end.

(** ** Calls *)

Inductive BridgeCall : Type :=
  | Call_add_confirmation (request_id : Z) (confirmation : EcdsaSignature) (author : Validator.t)
      (signature : AuthoritySignature)
  | Call_add_eth_tx_hash (tx_id : EthereumId) (eth_tx_hash : H256) (author : Validator.t)
      (signature : AuthoritySignature)
  | Call_add_corroboration (tx_id : EthereumId) (tx_succeeded tx_hash_is_valid : bool)
      (author : Validator.t) (replay_attempt : Z) (signature : AuthoritySignature)
  | Call_submit_ethereum_events (author : Validator.t) (events_partition : EthereumEventsPartition.t)
      (signature : AuthoritySignature)
  | Call_submit_latest_ethereum_block (author : Validator.t) (latest_seen_block : Z)
      (signature : AuthoritySignature)
  | Call_set_admin_setting (value : AdminSettings.t).

Definition bridge_call (origin : Origin) (call : BridgeCall) : Dispatch unit :=
  match call with
  | Call_add_confirmation request_id confirmation author _ =>
      add_confirmation origin request_id confirmation author
  | Call_add_eth_tx_hash tx_id eth_tx_hash author _ => add_eth_tx_hash origin tx_id eth_tx_hash author
  | Call_add_corroboration tx_id tx_succeeded tx_hash_is_valid author replay_attempt _ =>
      add_corroboration origin tx_id tx_succeeded tx_hash_is_valid author replay_attempt
  | Call_submit_ethereum_events author events_partition _ =>
      submit_ethereum_events origin author events_partition
  | Call_submit_latest_ethereum_block author latest_seen_block _ =>
      submit_latest_ethereum_block origin author latest_seen_block
  | Call_set_admin_setting value => set_admin_setting origin value
  end.

(** ** Admission of unsigned calls *)

Inductive InvalidTransaction : Set := Custom (code : Z) | InvalidCall | Stale | BadProof.
(** [None] when the call is valid. *)
Definition valid_if (ok : bool) (code : Z) : option InvalidTransaction :=
  if ok then None else Some (Custom code).
Definition validate_unsigned (call : BridgeCall) (s : Runtime.t) : option InvalidTransaction :=
  let h := instance_hash (instance s) in
  match call with
  | Call_add_confirmation request_id confirmation author signature =>
      valid_if (Avn.signature_is_valid (Payload.ADD_CONFIRMATION_CONTEXT h request_id confirmation
        (Validator.account_id author)) author signature s) 1
  | Call_add_eth_tx_hash tx_id eth_tx_hash author signature =>
      valid_if (Avn.signature_is_valid (Payload.ADD_ETH_TX_HASH_CONTEXT h tx_id eth_tx_hash
        (Validator.account_id author)) author signature s) 2
  | Call_add_corroboration tx_id tx_succeeded tx_hash_is_valid author replay_attempt signature =>
      valid_if (Avn.signature_is_valid (Payload.ADD_CORROBORATION_CONTEXT h tx_id tx_succeeded
        tx_hash_is_valid (Validator.account_id author) replay_attempt) author signature s) 3
  | Call_submit_ethereum_events author events_partition signature =>
      valid_if (does_range_matches_active events_partition s &&
        Avn.signature_is_valid (Payload.SUBMIT_ETHEREUM_EVENTS_HASH_CONTEXT h
          (Validator.account_id author) events_partition) author signature s) 4
  | Call_submit_latest_ethereum_block author latest_seen_block signature =>
      valid_if (bool_decide (BridgeStorage.ActiveEthereumRange (Runtime.bridge s) = None) &&
        Avn.signature_is_valid (Payload.SUBMIT_LATEST_ETH_BLOCK_CONTEXT h
          (Validator.account_id author) latest_seen_block) author signature s) 5
  | Call_set_admin_setting _ => Some InvalidCall
  end.

(** An unsigned call is admitted by [validate_unsigned] and then dispatched; the
    storage layer rolls a failed call back. *)
Definition apply_unsigned (call : BridgeCall) (s : Runtime.t) :
    (InvalidTransaction + outcome DispatchError unit) * Runtime.t :=
  match validate_unsigned call s with
  | Some e => (inl e, s)
  | None => let r := transactional (bridge_call NoOrigin call) s in (inr r.1, r.2)
  end.
End BridgeEvents.
