(* ===== verification/TokenManager.v ===== *)
(** * The token manager: lifting, transferring and lowering tokens

    [pallets/token-manager/src/lib.rs] and [utils.rs].  Tokens the asset registry
    knows live in the asset pallet (a parameter), the others in this pallet's
    [Balances].  A lower burns tokens and asks the bridge for a proof with which
    they are claimed on Ethereum; a lift mints what arrived there. *)

From S2P Require Import Prelude Slices Bytes EventTypes EventParsing EventDiscovery EthTypes.
From S2P Require Import RuntimeErrors NodeTypes BridgeTypes Avn EthBridge BridgeEvents.

Definition PALLET_ID : bytes := b "token_manager".
Definition LowerDataLimit : Z := 10000.

Section TokenManager.
Context `{BridgeConfig}.

Definition token_get {A} (f : TokenStorage.t → A) : Dispatch A := gets (f ∘ Runtime.tokens).
Definition token_modify (f : TokenStorage.t → TokenStorage.t) : Dispatch unit :=
  modify (Runtime.upd_tokens f).
Definition token_event (e : TokenEvent.t) : Dispatch unit := deposit_event (TokenManagerEvent e).

Definition balance (token_id : H160) (who : AccountId) (s : Runtime.t) : Balance :=
  unwrap_or 0 (TokenStorage.Balances (Runtime.tokens s) !! (token_id, who)).
Definition put_balance (token_id : H160) (who : AccountId) (v : Balance) : Dispatch unit :=
  token_modify (TokenStorage.upd_Balances (insert (token_id, who) v)).
Definition nonce (who : AccountId) (s : Runtime.t) : Z :=
  unwrap_or 0 (TokenStorage.Nonces (Runtime.tokens s) !! who).
Definition bump_nonce (who : AccountId) : Dispatch unit :=
  n ← gets (nonce who);
  token_modify (TokenStorage.upd_Nonces (insert who (n +₆₄ 1))).

(** ** [utils.rs] *)

Definition is_native_token (token_id : H160) (s : Runtime.t) : bool :=
  N.eqb token_id (TokenStorage.AVTTokenContract (Runtime.tokens s)).
(** The asset a token is registered as. *)
Definition asset_of (token_id : H160) (s : Runtime.t) : option CurrencyId :=
  asset_id (Runtime.assets s) token_id.
Definition update_assets (f : AssetState → option AssetState) (e : DispatchError) : Dispatch unit :=
  a ← gets Runtime.assets;
  a ← ok_or (f a) e;
  modify (Runtime.upd_assets (λ _, a)).

Definition mint_known_token (asset : CurrencyId) (recipient : AccountId) (raw_amount : Z) :
    Dispatch Balance :=
  update_assets (asset_deposit asset recipient raw_amount) TokenError.DepositFailed;;
  mret raw_amount.
Definition mint_unknown_token (token_id : H160) (recipient : AccountId) (raw_amount : Z) :
    Dispatch Balance :=
  native ← gets (is_native_token token_id);
  ensure (negb native) TokenError.NativeTokenNotRegistered;;
  bal ← gets (balance token_id recipient);
  bal ← ok_or (checked_add_u128 bal raw_amount) TokenError.AmountOverflow;
  put_balance token_id recipient bal;;
  mret raw_amount.
Definition burn_known_token (asset : CurrencyId) (from : AccountId) (raw_amount : Z) : Dispatch unit :=
  update_assets (asset_withdraw asset from raw_amount) TokenError.InsufficientSenderBalance.
Definition burn_unknown_token (token_id : H160) (from : AccountId) (raw_amount : Z) : Dispatch unit :=
  native ← gets (is_native_token token_id);
  ensure (negb native) TokenError.NativeTokenNotRegistered;;
  bal ← gets (balance token_id from);
  bal ← ok_or (checked_sub_u128 bal raw_amount) TokenError.InsufficientSenderBalance;
  put_balance token_id from bal.
Definition credit_user_balance (token_id : H160) (recipient : AccountId) (raw_amount : Z) :
    Dispatch Balance :=
  asset ← gets (asset_of token_id);
  match asset with
  | Some asset => mint_known_token asset recipient raw_amount
  | None => mint_unknown_token token_id recipient raw_amount
  end.
Definition debit_user_balance (token_id : H160) (from : AccountId) (raw_amount : Z) : Dispatch unit :=
  asset ← gets (asset_of token_id);
  match asset with
  | Some asset => burn_known_token asset from raw_amount
  | None => burn_unknown_token token_id from raw_amount
  end.

(** ** Transfers *)

Definition settle_transfer (token_id : H160) (from to : AccountId) (amount : Balance) :
    Dispatch unit :=
  if bool_decide (amount = 0 ∨ from = to) then mret ()
  else
    asset ← gets (asset_of token_id);
    match asset with
    | Some asset => update_assets (asset_transfer asset from to amount) External
    | None =>
        native ← gets (is_native_token token_id);
        ensure (negb native) TokenError.NativeTokenNotRegistered;;
        bal ← gets (balance token_id from);
        bal ← ok_or (checked_sub_u128 bal amount) TokenError.InsufficientSenderBalance;
        put_balance token_id from bal;;
        bal ← gets (balance token_id to);
        bal ← ok_or (checked_add_u128 bal amount) TokenError.AmountOverflow;
        put_balance token_id to bal;;
        token_event (TokenEvent.TokenTransferred token_id from to amount)
    end.

(** ** Lowers *)

Definition regenerate_proof (lower_id : LowerId) (params : LowerParams) : Dispatch unit :=
  token_modify (TokenStorage.upd_LowersPendingProof (insert lower_id params));;
  generate_lower_proof lower_id params PALLET_ID.
(** An account has the 32 bytes of its number. *)
Definition settle_lower (token_id : H160) (from to : AccountId) (raw_amount : Z)
    (t1_recipient : H160) (lower_id : LowerId) : Dispatch unit :=
  debit_user_balance token_id from raw_amount;;
  native ← gets (is_native_token token_id);
  (if (native : bool) then token_event (TokenEvent.AvtLowered from to raw_amount t1_recipient lower_id)
   else token_event (TokenEvent.TokenLowered token_id from to raw_amount t1_recipient lower_id));;
  t2_timestamp ← gets Runtime.now;
  let lower_params := concat_lower_data lower_id token_id raw_amount t1_recipient from t2_timestamp in
  token_modify (TokenStorage.upd_LowersPendingProof (insert lower_id lower_params));;
  generate_lower_proof lower_id lower_params PALLET_ID.
Definition schedule_lower (from to_account_id : AccountId) (token_id : H160) (amount : Z)
    (t1_recipient : H160) (sender_nonce : option Z) : Dispatch unit :=
  lower_id ← token_get TokenStorage.LowerNonce;
  period ← token_get TokenStorage.LowerSchedulePeriod;
  sched ← gets Runtime.scheduler;
  sched ← ok_or (schedule_named lower_id period
            (from, to_account_id, token_id, amount, t1_recipient, lower_id) sched) External;
  modify (Runtime.upd_scheduler (λ _, sched));;
  token_modify (TokenStorage.upd_LowerNonce (λ _, lower_id +₃₂ 1));;
  token_event (TokenEvent.LowerRequested token_id from amount t1_recipient sender_nonce lower_id).
Definition remove_used_lower (lower_id : LowerId) : Dispatch unit :=
  ready ← token_get TokenStorage.LowersReadyToClaim;
  token_modify (TokenStorage.upd_LowersReadyToClaim (delete lower_id));;
  ensure (bool_decide (is_Some (ready !! lower_id))) TokenError.InvalidLowerId.

(** ** Events from Ethereum *)

Definition process_lift (event : EthEvent.t) (data : LiftedData.t) : Dispatch unit :=
  let event_id := EthEvent.event_id event in
  processed ← gets (processed_event_exists event_id);
  ensure processed TokenError.NoTier1EventForLogLifted;;
  ensure (negb (Z.eqb (LiftedData.amount data) 0)) TokenError.AmountIsZero;;
  let recipient := LiftedData.receiver_address data in
  let token_id := LiftedData.token_contract data in
  amount ← credit_user_balance token_id recipient (LiftedData.amount data);
  native ← gets (is_native_token token_id);
  token_event (if native : bool
    then TokenEvent.AVTLifted recipient amount (EthEventId.transaction_hash event_id)
    else TokenEvent.TokenLifted token_id recipient amount (EthEventId.transaction_hash event_id)).
Definition process_avt_growth_lift (event : EthEvent.t) (data : AvtGrowthLiftedData.t) :
    Dispatch unit :=
  let event_id := EthEvent.event_id event in
  event_validity ← gets (processed_event_exists event_id);
  avt_token_id ← token_get TokenStorage.AVTTokenContract;
  ensure event_validity TokenError.NoTier1EventForLogAvtGrowthLifted;;
  let amount := AvtGrowthLiftedData.amount data in
  ensure (negb (Z.eqb amount 0)) TokenError.AmountIsZero;;
  let treasury_share := treasury_growth_share amount in
  treasury_amount ← credit_user_balance avt_token_id TreasuryAccount treasury_share;
  remaining_amount ← ok_or (checked_sub_u128 amount treasury_share) TokenError.AmountOverflow;
  token_event (TokenEvent.AVTGrowthLifted treasury_amount remaining_amount
                 (EthEventId.transaction_hash event_id));;
  others ← gets Runtime.others;
  match on_growth_lifted remaining_amount (AvtGrowthLiftedData.period data) others with
  | inl e => fail e
  | inr others => modify (Runtime.upd_others (λ _, others))
  end.
Definition process_lower_claim (event : EthEvent.t) (data : AvtLowerClaimedData.t) : Dispatch unit :=
  event_validity ← gets (processed_event_exists (EthEvent.event_id event));
  ensure event_validity TokenError.NoTier1EventForLogLowerClaimed;;
  remove_used_lower (AvtLowerClaimedData.lower_id data);;
  token_event (TokenEvent.AvtLowerClaimed (AvtLowerClaimedData.lower_id data)).
Definition process_lower_reverted (event : EthEvent.t) (data : LowerRevertedData.t) : Dispatch unit :=
  let event_id := EthEvent.event_id event in
  event_validity ← gets (processed_event_exists event_id);
  ensure event_validity TokenError.NoTier1EventForLogLowerReverted;;
  ensure (negb (Z.eqb (LowerRevertedData.amount data) 0)) TokenError.AmountIsZero;;
  let t2_refunded_sender := LowerRevertedData.receiver_address data in
  let token_id := LowerRevertedData.token_contract data in
  remove_used_lower (LowerRevertedData.lower_id data);;
  amount ← credit_user_balance token_id t2_refunded_sender (LowerRevertedData.amount data);
  native ← gets (is_native_token token_id);
  let tx := EthEventId.transaction_hash event_id in
  token_event (if native : bool
    then TokenEvent.AVTLowerReverted t2_refunded_sender amount tx (LowerRevertedData.lower_id data)
           (LowerRevertedData.t1_recipient data)
    else TokenEvent.TokenLowerReverted token_id t2_refunded_sender amount tx
           (LowerRevertedData.lower_id data) (LowerRevertedData.t1_recipient data)).
Definition processed_event_handler (event : EthEvent.t) : Dispatch unit :=
  match EthEvent.event_data event with
  | EventData.LogLifted d => process_lift event d
  | EventData.LogAvtGrowthLifted d => process_avt_growth_lift event d
  | EventData.LogLowerClaimed d => process_lower_claim event d
  | EventData.LogLowerReverted d => process_lower_reverted event d
  | _ => mret ()
  end.

(** ** Results from the bridge *)

Definition lower_proof_result (lower_id : LowerId) (caller_id : bytes) (data : option bytes) :
    Dispatch unit :=
  pending ← token_get TokenStorage.LowersPendingProof;
  match pending !! lower_id with
  | Some pending_lower =>
      if negb (bool_decide (caller_id = PALLET_ID)) then mret ()
      else
        token_modify (TokenStorage.upd_LowersPendingProof (delete lower_id));;
        match data with
        | Some lower_data =>
            ensure (bool_decide (Z.of_nat (length lower_data) <= LowerDataLimit))
              TokenError.LowerDataLimitExceeded;;
            token_modify (TokenStorage.upd_LowersReadyToClaim
              (insert lower_id (LowerProofData.mk pending_lower lower_data)));;
            token_event (TokenEvent.LowerReadyToClaim lower_id)
        | None =>
            token_modify (TokenStorage.upd_FailedLowerProofs (insert lower_id pending_lower));;
            token_event (TokenEvent.FailedToGenerateLowerProof lower_id)
        end
  | None => mret ()
  end.
(** [impl BridgeInterfaceNotification for Pallet<T>]. *)
Definition token_notification : BridgeInterfaceNotification := {|
  process_result _ _ _ := mret ();
  process_lower_proof_result := lower_proof_result;
  on_incoming_event_processed := processed_event_handler;
|}.

(** [TokenInterface] and [CollatorPayoutDustHandler]. *)
Definition TokenInterface_process_lift (event : EthEvent.t) : Dispatch unit :=
  match EthEvent.event_data event with
  | EventData.LogLiftedToPredictionMarket d | EventData.LogErc20Transfer d =>
      process_lift event (LiftedData.new (LiftedData.token_contract d)
        (LiftedData.receiver_address d) (LiftedData.amount d))
  | _ => fail (TokenManager_ TokenError.InvalidLiftRequest)
  end.
Definition process_token_deposit (token_id : H160) (recipient : AccountId) (raw_amount : Z) :
    Dispatch unit :=
  amount ← credit_user_balance token_id recipient raw_amount;
  token_event (TokenEvent.TokensDeposited token_id recipient amount).
Definition handle_dust (imbalance : Balance) : Dispatch unit :=
  a ← gets Runtime.assets;
  match native_deposit_into_existing TreasuryAccount imbalance a with
  | Some a => modify (Runtime.upd_assets (λ _, a))
  | None => mret ()
  end.

(** ** Dispatchables *)

Definition encode_signed_transfer_params (proof : Proof_.t UserSignature) (from to : AccountId)
    (token_id : H160) (amount : Balance) (sender_nonce : Z) : UserPayload.t :=
  UserPayload.SIGNED_TRANSFER_CONTEXT (Proof_.relayer proof) from to token_id amount sender_nonce.
Definition encode_signed_lower_params (proof : Proof_.t UserSignature) (from : AccountId)
    (token_id : H160) (amount : Z) (t1_recipient : H160) (sender_nonce : Z) : UserPayload.t :=
  UserPayload.SIGNED_LOWER_CONTEXT (Proof_.relayer proof) from token_id amount t1_recipient
    sender_nonce.

Definition signed_transfer (origin : Origin) (proof : Proof_.t UserSignature) (from to : AccountId)
    (token_id : H160) (amount : Balance) : Dispatch unit :=
  sender ← ensure_signed origin;
  ensure (bool_decide (sender = from)) TokenError.SenderNotValid;;
  sender_nonce ← gets (nonce sender);
  ensure (verify_user_signature proof
            (encode_signed_transfer_params proof from to token_id amount sender_nonce))
    TokenError.UnauthorizedSignedTransferTransaction;;
  settle_transfer token_id from to amount;;
  bump_nonce from.
Definition transfer_from_treasury (origin : Origin) (recipient : AccountId) (amount : Balance) :
    Dispatch unit :=
  ensure_root origin;;
  ensure (negb (Z.eqb amount 0)) TokenError.AmountIsZero;;
  update_assets (native_transfer TreasuryAccount recipient amount) External;;
  token_event (TokenEvent.AvtTransferredFromTreasury recipient amount).
Definition execute_lower (origin : Origin) (from to_account_id : AccountId) (token_id : H160)
    (amount : Z) (t1_recipient : H160) (lower_id : LowerId) : Dispatch unit :=
  ensure_root origin;;
  disabled ← token_get TokenStorage.LowersDisabled;
  ensure (negb disabled) TokenError.LoweringDisabled;;
  settle_lower token_id from to_account_id amount t1_recipient lower_id.
Definition schedule_direct_lower (origin : Origin) (from : AccountId) (token_id : H160) (amount : Z)
    (t1_recipient : H160) : Dispatch unit :=
  sender ← ensure_signed origin;
  ensure (bool_decide (sender = from)) TokenError.SenderNotValid;;
  disabled ← token_get TokenStorage.LowersDisabled;
  ensure (negb disabled) TokenError.LoweringDisabled;;
  ensure (negb (Z.eqb amount 0)) TokenError.AmountIsZero;;
  to_account_id ← token_get TokenStorage.LowerAccountId;
  schedule_lower from to_account_id token_id amount t1_recipient None.
Definition schedule_signed_lower (origin : Origin) (proof : Proof_.t UserSignature)
    (from : AccountId) (token_id : H160) (amount : Z) (t1_recipient : H160) : Dispatch unit :=
  sender ← ensure_signed origin;
  ensure (bool_decide (sender = from)) TokenError.SenderNotValid;;
  disabled ← token_get TokenStorage.LowersDisabled;
  ensure (negb disabled) TokenError.LoweringDisabled;;
  ensure (negb (Z.eqb amount 0)) TokenError.AmountIsZero;;
  sender_nonce ← gets (nonce sender);
  ensure (verify_user_signature proof
            (encode_signed_lower_params proof from token_id amount t1_recipient sender_nonce))
    TokenError.UnauthorizedSignedLowerTransaction;;
  to_account_id ← token_get TokenStorage.LowerAccountId;
  schedule_lower from to_account_id token_id amount t1_recipient (Some sender_nonce);;
  bump_nonce from.
Definition regenerate_lower_proof (origin : Origin) (lower_id : LowerId) : Dispatch unit :=
  requester ← ensure_signed origin;
  disabled ← token_get TokenStorage.LowersDisabled;
  ensure (negb disabled) TokenError.LoweringDisabled;;
  ready ← token_get TokenStorage.LowersReadyToClaim;
  token_modify (TokenStorage.upd_LowersReadyToClaim (delete lower_id));;
  match ready !! lower_id with
  | Some lower =>
      regenerate_proof lower_id (LowerProofData.params lower);;
      token_event (TokenEvent.RegeneratingLowerProof lower_id requester)
  | None =>
      failed ← token_get TokenStorage.FailedLowerProofs;
      token_modify (TokenStorage.upd_FailedLowerProofs (delete lower_id));;
      match failed !! lower_id with
      | Some lower_params =>
          regenerate_proof lower_id lower_params;;
          token_event (TokenEvent.RegeneratingFailedLowerProof lower_id requester)
      | None => fail (TokenManager_ TokenError.InvalidLowerId)
      end
  end.
Definition set_lower_schedule_period (origin : Origin) (new_period : Z) : Dispatch unit :=
  ensure_root origin;;
  token_modify (TokenStorage.upd_LowerSchedulePeriod (λ _, new_period));;
  token_event (TokenEvent.LowerSchedulePeriodUpdated new_period).
Definition toggle_lowering (origin : Origin) (enabled : bool) : Dispatch unit :=
  ensure_root origin;;
  token_modify (TokenStorage.upd_LowersDisabled (λ _, negb enabled));;
  token_event (if enabled then TokenEvent.LoweringEnabled else TokenEvent.LoweringDisabled).
Definition set_native_token_eth_address (origin : Origin) (new_address : H160) : Dispatch unit :=
  ensure_root origin;;
  ensure (negb (N.eqb new_address 0)) TokenError.InvalidEthAddress;;
  old_address ← token_get TokenStorage.AVTTokenContract;
  token_modify (TokenStorage.upd_AVTTokenContract (λ _, new_address));;
  token_event (TokenEvent.NativeTokenEthAddressUpdated old_address new_address).
Definition transfer (origin : Origin) (to : AccountId) (token_id : H160) (amount : Balance) :
    Dispatch unit :=
  from ← ensure_signed origin;
  settle_transfer token_id from to amount.

(** The calls a relayer can send for a signer. *)
Inductive ProxiedCall : Type :=
  | Call_signed_transfer (proof : Proof_.t UserSignature) (from to : AccountId) (token_id : H160)
      (amount : Balance)
  | Call_schedule_signed_lower (proof : Proof_.t UserSignature) (from : AccountId) (token_id : H160)
      (amount : Z) (t1_recipient : H160).
Definition get_proof (call : ProxiedCall) : Proof_.t UserSignature :=
  match call with
  | Call_signed_transfer proof _ _ _ _ | Call_schedule_signed_lower proof _ _ _ _ => proof
  end.
Definition get_encoded_call_param (call : ProxiedCall) (s : Runtime.t) :
    Proof_.t UserSignature * UserPayload.t :=
  match call with
  | Call_signed_transfer proof from to token_id amount =>
      (proof, encode_signed_transfer_params proof from to token_id amount
                (nonce (Proof_.signer proof) s))
  | Call_schedule_signed_lower proof from token_id amount t1_recipient =>
      (proof, encode_signed_lower_params proof from token_id amount t1_recipient
                (nonce (Proof_.signer proof) s))
  end.
Definition call_signature_is_valid (call : ProxiedCall) (s : Runtime.t) : bool :=
  let '(proof, payload) := get_encoded_call_param call s in verify_user_signature proof payload.
Definition dispatch_proxied (origin : Origin) (call : ProxiedCall) : Dispatch unit :=
  match call with
  | Call_signed_transfer proof from to token_id amount =>
      signed_transfer origin proof from to token_id amount
  | Call_schedule_signed_lower proof from token_id amount t1_recipient =>
      schedule_signed_lower origin proof from token_id amount t1_recipient
  end.
Definition proxy (origin : Origin) (call : ProxiedCall) : Dispatch unit :=
  relayer ← ensure_signed origin;
  let proof := get_proof call in
  ensure (bool_decide (relayer = Proof_.relayer proof)) TokenError.UnauthorizedProxyTransaction;;
  transactional (dispatch_proxied (Signed (Proof_.signer proof)) call);;
  token_event (TokenEvent.CallDispatched relayer).

(** All of them. *)
Inductive TokenCall : Type :=
  | Call_proxy (call : ProxiedCall)
  | Call_direct (call : ProxiedCall)
  | Call_transfer_from_treasury (recipient : AccountId) (amount : Balance)
  | Call_execute_lower (from to_account_id : AccountId) (token_id : H160) (amount : Z)
      (t1_recipient : H160) (lower_id : LowerId)
  | Call_schedule_direct_lower (from : AccountId) (token_id : H160) (amount : Z)
      (t1_recipient : H160)
  | Call_regenerate_lower_proof (lower_id : LowerId)
  | Call_set_lower_schedule_period (new_period : Z)
  | Call_toggle_lowering (enabled : bool)
  | Call_set_native_token_eth_address (new_address : H160)
  | Call_transfer (to : AccountId) (token_id : H160) (amount : Balance).
Definition token_call (origin : Origin) (call : TokenCall) : Dispatch unit :=
  match call with
  | Call_proxy call => proxy origin call
  | Call_direct call => dispatch_proxied origin call
  | Call_transfer_from_treasury recipient amount => transfer_from_treasury origin recipient amount
  | Call_execute_lower from to token_id amount t1_recipient lower_id =>
      execute_lower origin from to token_id amount t1_recipient lower_id
  | Call_schedule_direct_lower from token_id amount t1_recipient =>
      schedule_direct_lower origin from token_id amount t1_recipient
  | Call_regenerate_lower_proof lower_id => regenerate_lower_proof origin lower_id
  | Call_set_lower_schedule_period new_period => set_lower_schedule_period origin new_period
  | Call_toggle_lowering enabled => toggle_lowering origin enabled
  | Call_set_native_token_eth_address new_address => set_native_token_eth_address origin new_address
  | Call_transfer to token_id amount => transfer origin to token_id amount
  end.
End TokenManager.
