(* ===== verification/BridgeInv.v ===== *)
(** * The invariant of the Ethereum bridge

    A bridge that has no active request has an empty queue, so no request is ever
    stranded; the corroborations and confirmations of the active request are
    those of distinct accounts and signatures.  What the bridge needs from the
    pallets it notifies is that they do not call back into it. *)

From S2P Require Import Prelude Frames Slices Bytes EventTypes EventParsing EventDiscovery EthTypes.
From S2P Require Import RuntimeErrors NodeTypes BridgeTypes Avn EthBridge BridgeEvents.

(** ** What the notified pallets promise *)

Section Aside.
Context `{BridgeConfig}.
Definition aside (s : Runtime.t) :=
  (Runtime.bridge s, Runtime.avn s, Runtime.block_number s, Runtime.now s, Runtime.session_index s).
End Aside.

Class NotificationLaws `{BridgeConfig} (N : BridgeInterfaceNotification) : Prop := {
  process_result_aside id caller ok : leaves aside (process_result id caller ok);
  process_result_total id caller ok s : (process_result id caller ok s).1 ≠ Panic;
  process_lower_proof_result_aside id caller data :
    leaves aside (process_lower_proof_result id caller data);
  process_lower_proof_result_total id caller data s :
    (process_lower_proof_result id caller data s).1 ≠ Panic;
  on_incoming_event_processed_aside event : leaves aside (on_incoming_event_processed event);
  on_incoming_event_processed_total event s : (on_incoming_event_processed event s).1 ≠ Panic;
}.

(** A tuple keeps the promises its pallets make. *)
Lemma for_each_total `{BridgeConfig} {A} (f : A → Dispatch unit) l s :
  Forall (λ x, ∀ s, (f x s).1 ≠ Panic) l → (for_each f l s).1 ≠ Panic.
Proof.
  intros Hl. revert s. induction Hl as [|x l Hx Hl IH]; intros s; [done|]. cbn. unfold mbind, M_bind.
  specialize (Hx s). by destruct (f x s) as [[[]| |] s'].
Qed.
Lemma notification_tuple_laws `{BridgeConfig} l :
  Forall NotificationLaws l → NotificationLaws (notification_tuple l).
Proof.
  intros Hl.
  assert (∀ f : BridgeInterfaceNotification → Dispatch unit,
    (∀ N, NotificationLaws N → leaves aside (f N)) → leaves aside (for_each f l)) as Ha.
  { intros f Hf. induction Hl as [|N l HN Hl IH]; [apply leaves_ret|]. apply leaves_bind; auto. }
  constructor; cbn; intros.
  - apply Ha. intros N ?. apply process_result_aside.
  - apply for_each_total. eapply Forall_impl; [exact Hl|]. intros N ? ?. apply process_result_total.
  - apply Ha. intros N ?. apply process_lower_proof_result_aside.
  - apply for_each_total. eapply Forall_impl; [exact Hl|]. intros N ? ?. apply process_lower_proof_result_total.
  - apply Ha. intros N ?. apply on_incoming_event_processed_aside.
  - apply for_each_total. eapply Forall_impl; [exact Hl|]. intros N ? ?. apply on_incoming_event_processed_total.
Qed.

Section BridgeInv.
Context `{BridgeConfig} {N : BridgeInterfaceNotification} `{!NotificationLaws N}.
Implicit Types (s : Runtime.t) (req : SendRequestData.t).

(** ** The invariant *)

Definition queue s : list Request.t := unwrap_or [] (request_queue s).
Definition with_active (r : option ActiveRequestData.t) s : Runtime.t :=
  Runtime.upd_bridge (BridgeStorage.upd_ActiveRequest (λ _, r)) s.
Definition with_queue (q : option (list Request.t)) s : Runtime.t :=
  Runtime.upd_bridge (BridgeStorage.upd_RequestQueue (λ _, q)) s.
Definition with_primary (i : Z) s : Runtime.t :=
  Runtime.upd_avn (AvnStorage.upd_PrimaryCollatorIndexForSending (λ _, i)) s.

(** The parameters a request is sent with, and that its hash can be computed
    without a panic: the words in it have 32 bytes. *)
Definition sent_params req (expiry : Z) : list (bytes * bytes) :=
  SendRequestData.params req ++
    [(UINT256, to_string expiry); (UINT32, to_string (SendRequestData.tx_id req))].
Definition send_ok req : Prop :=
  ∀ expiry domain,
    no_panic (create_function_confirmation_hash eip712_hash (SendRequestData.function_name req)
                (sent_params req expiry) domain) = true.
Definition request_ok (r : Request.t) : Prop :=
  match r with Request.Send req => send_ok req | Request.LowerProof _ => True end.

(** Every corroborator has voted once on the outcome and once on the hash, and
    the sender has not voted. *)
Record tx_ok (d : ActiveEthTransaction.t) : Prop := {
  tx_voters : NoDup (ActiveEthTransaction.success_corroborations d ++
                     ActiveEthTransaction.failure_corroborations d);
  tx_sender : ActiveEthTransaction.sender d ∉
    ActiveEthTransaction.success_corroborations d ++ ActiveEthTransaction.failure_corroborations d;
  tx_hash_votes :
    ActiveEthTransaction.valid_tx_hash_corroborations d ++
      ActiveEthTransaction.invalid_tx_hash_corroborations d ≡ₚ
    ActiveEthTransaction.success_corroborations d ++ ActiveEthTransaction.failure_corroborations d;
  tx_limit : (length (ActiveEthTransaction.invalid_tx_hash_corroborations d) ≤ MAX_CONFIRMATIONS)%nat;
}.
Definition confirmations_of (r : ActiveRequestData.t) : list EcdsaSignature :=
  ActiveConfirmation.confirmations (ActiveRequestData.confirmation r).
(** The signer of a confirmation had the key of a validator. *)
Definition signed_by_validator (msg_hash : H256) (c : EcdsaSignature) : Prop :=
  ∃ public_key validator, recover_public_key c msg_hash = Some public_key ∧
    get_validator_for_eth_public_key public_key = Some validator.
Record active_ok (r : ActiveRequestData.t) : Prop := {
  ac_request : request_ok (ActiveRequestData.request r);
  ac_distinct : NoDup (confirmations_of r);
  ac_limit : (length (confirmations_of r) ≤ MAX_CONFIRMATIONS)%nat;
  ac_data :
    match ActiveRequestData.request r, ActiveRequestData.tx_data r with
    | Request.Send _, Some d => tx_ok d
    | Request.LowerProof _, None => True
    | _, _ => False
    end;
  ac_signed : Forall (signed_by_validator
    (ActiveConfirmation.msg_hash (ActiveRequestData.confirmation r))) (confirmations_of r);
}.
Record bridge_ok s : Prop := {
  br_validators : (length (validators s) ≤ 255)%nat;
  br_idle : active_request s = None → queue s = [];
  br_bound : (length (queue s) ≤ MaxQueuedTxRequests)%nat;
  br_queue : Forall request_ok (queue s);
  br_active r : active_request s = Some r → active_ok r;
}.

Lemma bridge_ok_aside s s' : aside s' = aside s → bridge_ok s → bridge_ok s'.
Proof.
  unfold aside. intros Ha. injection Ha as Hb Hv _ _ _. intros [V I B Q A].
  unfold queue, request_queue, active_request, validators in *.
  constructor; unfold queue, request_queue, active_request, validators; by rewrite ?Hb, ?Hv.
Qed.
(** An operation that stays aside maintains the invariant. *)
Lemma aside_maintains {A} (m : Dispatch A) :
  leaves aside m → (∀ s, (m s).1 ≠ Panic) → maintains bridge_ok m.
Proof.
  intros Hm Ht s Hs. specialize (Hm s). specialize (Ht s). unfold wp.
  destruct (m s) as [[a|e|] s']; cbn in *; [by eapply bridge_ok_aside..|done].
Qed.
Lemma process_result_ok id caller ok : maintains bridge_ok (process_result id caller ok).
Proof. apply aside_maintains; [apply process_result_aside|apply process_result_total]. Qed.
Lemma process_lower_proof_result_ok id caller data :
  maintains bridge_ok (process_lower_proof_result id caller data).
Proof.
  apply aside_maintains; [apply process_lower_proof_result_aside|apply process_lower_proof_result_total].
Qed.

(** ** Choosing a sender *)

Lemma advance_primary_spec s :
  (length (validators s) ≤ 255)%nat →
  wp advance_primary_validator_for_sending s
    (λ a s', ∃ i, s' = with_primary i s ∧ 0 <= i ∧
       (Validator.account_id <$> validators s) !! Z.to_nat i = Some a)
    (λ _ s', s' = s ∧ validators s = []).
Proof.
  intros Hl. unfold advance_primary_validator_for_sending. repeat wp_step.
  2:{ split; [done|]. by apply negb_false_iff, bool_decide_eq_true in H0. }
  apply negb_true_iff, bool_decide_eq_false in H0.
  assert (0 < Z.of_nat (length (validators s)) <= 255) as Hn.
  { destruct (validators s); [done|]. cbn in *. lia. }
  repeat wp_step. rewrite wrap_small by (unfold u8_max; lia).
  rewrite bool_decide_false by lia. set (i := _ mod _).
  assert (0 <= i < Z.of_nat (length (validators s))) as Hi by (apply Z.mod_pos_bound; lia).
  apply wp_bind, wp_modify. unfold nth_account.
  destruct (lookup_lt_is_Some_2 (validators s) (Z.to_nat i)) as [v Hv]; [lia|].
  rewrite Hv. apply wp_bind. apply wp_expect with (a := v); [done|]. apply wp_ret.
  exists i. split; [done|]. split; [lia|]. by rewrite list_lookup_fmap, Hv.
Qed.

(** ** Setting up a request *)

Definition fresh_tx req (msg_hash : H256) (sender : AccountId) (expiry attempt block : Z) :
    ActiveRequestData.t :=
  ActiveRequestData.mk (Request.Send req) (ActiveConfirmation.mk msg_hash [])
    (Some (ActiveEthTransaction.mk (SendRequestData.function_name req) (sent_params req expiry)
             sender expiry 0 [] [] [] [] false attempt)) block.
(** [s'] is [s] with the request set up by a validator. *)
Definition set_up_from req (attempt : Z) s s' : Prop :=
  ∃ index msg_hash sender expiry,
    s' = with_active (Some (fresh_tx req msg_hash sender expiry attempt (Runtime.block_number s)))
           (with_primary index s) ∧
    sender ∈ Validator.account_id <$> validators s ∧
    create_function_confirmation_hash eip712_hash (SendRequestData.function_name req)
      (sent_params req expiry) (Eip712Domain.of_instance (instance s)) = Ok msg_hash.

Lemma bounded_Ok {A} max (l l' : list A) e : bounded max l e = Ok l' → l' = l ∧ (length l ≤ max)%nat.
Proof. unfold bounded. cbn. case_bool_decide; cbn; [|done]. by intros [= ->]. Qed.
Lemma bound_each_Ok params params' : bound_each params = Ok params' → params' = params.
Proof.
  revert params'. induction params as [|[t v] params IH]; intros params'; cbn; [by intros [= <-]|].
  destruct (bounded TypeLimit t _) as [t'|?|] eqn:Ht; [|done..]. apply bounded_Ok in Ht as [-> _].
  cbn. destruct (bounded ValueLimit v _) as [v'|?|] eqn:Hv; [|done..].
  apply bounded_Ok in Hv as [-> _]. cbn. destruct (bound_each params) as [rest|?|]; [|done..].
  cbn. intros [= <-]. by rewrite (IH rest).
Qed.
Lemma bound_params_Ok params params' :
  bound_params params = Ok params' → params' = params ∧ (length params ≤ ParamsLimit)%nat.
Proof.
  unfold bound_params. destruct (bound_each params) as [rest|?|] eqn:Hr; [|done..].
  apply bound_each_Ok in Hr as ->. cbn. apply bounded_Ok.
Qed.
Lemma bounded_no_panic {A} max (l : list A) e : bounded max l e ≠ Panic.
Proof. unfold bounded. cbn. by case_bool_decide. Qed.
Lemma bound_params_no_panic params : bound_params params ≠ Panic.
Proof.
  unfold bound_params. assert (bound_each params ≠ Panic) as Hb.
  { induction params as [|[t v] params IH]; cbn; [done|].
    destruct (bounded TypeLimit t _) eqn:Ht; cbn; [|done|by apply bounded_no_panic in Ht].
    destruct (bounded ValueLimit v _) eqn:Hv; cbn; [|done|by apply bounded_no_panic in Hv].
    by destruct (bound_each params). }
  destruct (bound_each params); cbn; [apply bounded_no_panic|done|done].
Qed.
(** A computation on bridge errors that does not panic. *)
Lemma wp_bridge_result {A} (o : outcome BridgeError.t A) s Q (R : DispatchError → Runtime.t → Prop) :
  o ≠ Panic → (∀ a, o = Ok a → Q a s) → (∀ e, o = Err e → R (EthBridge_ e) s) →
  wp (bridge_result o) s Q R.
Proof. destruct o; unfold wp; cbn; auto. Qed.
Lemma wp_run {E A} (o : outcome E A) e s Q (R : DispatchError → Runtime.t → Prop) :
  no_panic o = true → (∀ a, o = Ok a → Q a s) → (∀ x, o = Err x → R e s) → wp (run o e) s Q R.
Proof. destruct o; unfold wp; cbn; eauto. done. Qed.

(** What decides whether a request can be set up. *)
Definition settings s :=
  (validators s, Runtime.now s, BridgeStorage.EthTxLifetimeSecs (Runtime.bridge s), instance s).
Definition expiry_of s : Z :=
  Runtime.now s +₆₄ BridgeStorage.EthTxLifetimeSecs (Runtime.bridge s).
Definition unsendable s (r : Request.t) : Prop :=
  match r with
  | Request.Send req =>
      validators s = [] ∨
      (∃ e, extend_params req (expiry_of s) = Err e) ∨
      (∃ e, create_function_confirmation_hash eip712_hash (SendRequestData.function_name req)
              (sent_params req (expiry_of s)) (Eip712Domain.of_instance (instance s)) = Err e)
  | Request.LowerProof req =>
      length (LowerProofRequestData.params req) ≠ PACKED_LOWER_V2_PARAMS_SIZE
  end.
Lemma unsendable_settings s s' (r : Request.t) : settings s' = settings s → unsendable s r → unsendable s' r.
Proof.
  unfold settings, unsendable, expiry_of. intros [= -> -> -> ->]. done.
Qed.

Lemma set_up_active_tx_spec req replay s :
  (length (validators s) ≤ 255)%nat → send_ok req →
  wp (set_up_active_tx req replay) s
    (λ _ s', set_up_from req (unwrap_or 0 replay) s s')
    (λ _ s', s' = s ∧ unsendable s (Request.Send req)).
Proof.
  intros Hv Hreq. unfold set_up_active_tx. repeat wp_step.
  apply wp_bridge_result; [apply bound_params_no_panic| |cbn; eauto]. intros params Hp.
  apply bound_params_Ok in Hp as [-> _]. repeat wp_step.
  apply wp_run; [apply Hreq| |cbn; eauto]. intros msg Hmsg. wp_step. unfold assign_sender. wp_step. wp_step.
  eapply wp_mono; [by apply advance_primary_spec| |].
  - intros a s' (i&->&Hi&Ha). cbn [fst snd]. repeat wp_step.
    exists i, msg, a, (Runtime.now s +₆₄ BridgeStorage.EthTxLifetimeSecs (Runtime.bridge s)).
    split; [done|]. split; [|exact Hmsg]. by eapply list_elem_of_lookup_2.
  - intros e s' [-> Hn]. apply wp_fail. cbn. auto.
Qed.
Definition fresh_lower (req : LowerProofRequestData.t) (msg_hash : H256) (block : Z) :
    ActiveRequestData.t :=
  ActiveRequestData.mk (Request.LowerProof req) (ActiveConfirmation.mk msg_hash []) None block.
Lemma LowerData_no_panic params : no_panic (LowerData_try_from params) = true.
Proof.
  unfold LowerData_try_from. cbn [mbind outcome_bind check].
  case_bool_decide as Hl; [|done]. cbn [check]. unfold PACKED_LOWER_V2_PARAMS_SIZE in *.
  rewrite !slice_Some by (unfold PACKED_LOWER_V1_PARAMS_SIZE; lia). done.
Qed.
Lemma LowerData_Err params :
  (∃ e, LowerData_try_from params = Err e) ↔ length params ≠ PACKED_LOWER_V2_PARAMS_SIZE.
Proof.
  unfold LowerData_try_from. case_bool_decide as Hl; cbn [mbind outcome_bind check].
  - rewrite !slice_Some by (unfold PACKED_LOWER_V1_PARAMS_SIZE, PACKED_LOWER_V2_PARAMS_SIZE in *; lia).
    cbn. split; [by intros [? ?]|done].
  - split; [done|]. intros _. by eexists.
Qed.
Lemma set_up_active_lower_proof_spec (req : LowerProofRequestData.t) s :
  wp (set_up_active_lower_proof req) s
    (λ _ s', ∃ msg_hash, s' = with_active (Some (fresh_lower req msg_hash (Runtime.block_number s))) s)
    (λ _ s', s' = s ∧ unsendable s (Request.LowerProof req)).
Proof.
  unfold set_up_active_lower_proof, create_lower_proof_hash. repeat wp_step. unfold run.
  pose proof (LowerData_no_panic (LowerProofRequestData.params req)).
  pose proof (LowerData_Err (LowerProofRequestData.params req)) as [He _].
  destruct (LowerData_try_from _) as [d|e|]; cbn; [|apply wp_fail; eauto|done].
  repeat wp_step. by eexists.
Qed.

(** ** Moving on to the next request *)

Definition requests s : list Request.t :=
  option_list (ActiveRequestData.request <$> active_request s) ++ queue s.
Lemma dequeue_request_spec s :
  wp dequeue_request s
    (λ o s', ∃ q, s' = with_queue q s ∧ o = head (queue s) ∧ unwrap_or [] q = tail (queue s))
    (λ _ _, False).
Proof.
  unfold dequeue_request, queue. repeat wp_step.
  destruct (request_queue s) as [[|r [|r' q]]|]; repeat wp_step; by eexists.
Qed.

(** What a property of the state needs to survive the search for the next
    request, when the requests in the queue satisfy [P]. *)
Record carried (P : Request.t → Prop) (J : Runtime.t → Prop) : Prop := {
  carried_active (r : option ActiveRequestData.t) s : J s → J (with_active r s);
  carried_queue q s : J s → J (with_queue q s);
  carried_primary i s : J s → J (with_primary i s);
  carried_result id caller : maintains J (process_result id caller false);
  carried_lower (req : LowerProofRequestData.t) :
    P (Request.LowerProof req) →
    length (LowerProofRequestData.params req) ≠ PACKED_LOWER_V2_PARAMS_SIZE →
    maintains J (process_lower_proof_result (LowerProofRequestData.lower_id req)
                   (LowerProofRequestData.caller_id req) None);
}.

(** The first request of the queue that can be set up is the active one
    afterwards, and those behind it are queued in their order. *)
Definition moved_on s (q : list Request.t) s' : Prop :=
  ∃ dropped, q = dropped ++ requests s' ∧ Forall (unsendable s) dropped.

Lemma fresh_tx_ok req msg sender expiry attempt block :
  send_ok req → active_ok (fresh_tx req msg sender expiry attempt block).
Proof.
  intros Hr. constructor; cbn; [done|constructor|lia| |constructor].
  constructor; cbn; [constructor|apply not_elem_of_nil|done|lia].
Qed.
Lemma fresh_lower_ok (req : LowerProofRequestData.t) msg block : active_ok (fresh_lower req msg block).
Proof. constructor; cbn; [done|constructor|lia|done|constructor]. Qed.
Lemma set_up_from_ok req attempt s s' :
  (length (validators s) ≤ 255)%nat → (length (queue s) ≤ MaxQueuedTxRequests)%nat →
  Forall request_ok (queue s) → send_ok req → set_up_from req attempt s s' → bridge_ok s'.
Proof.
  intros Hv Hb Hq Hr (i&msg&sender&expiry&->&_&_). constructor; [done|done|done|done|].
  cbn. intros r [= <-]. by apply fresh_tx_ok.
Qed.
Lemma set_up_lower_ok (req : LowerProofRequestData.t) msg block s :
  (length (validators s) ≤ 255)%nat → (length (queue s) ≤ MaxQueuedTxRequests)%nat →
  Forall request_ok (queue s) → bridge_ok (with_active (Some (fresh_lower req msg block)) s).
Proof.
  intros Hv Hb Hq. constructor; [done|done|done|done|]. cbn. intros r [= <-]. apply fresh_lower_ok.
Qed.

Section NextRequest.
Context (P : Request.t → Prop) (J : Runtime.t → Prop) (HJ : carried P J).
(** The notification of a request that cannot be set up, and the state after it. *)
Lemma notified_step {A} (m : Dispatch unit) (k : Dispatch A) s Q (R : DispatchError → Runtime.t → Prop) :
  leaves aside m → maintains J m → J s →
  (∀ s', aside s' = aside s → J s' → wp k s' Q R) → wp (try m;; k) s Q R.
Proof.
  intros Ha Hm Hs Hk. apply wp_bind, wp_try. specialize (Ha s). specialize (Hm s Hs). unfold wp in *.
  by destruct (m s) as [[] s']; cbn in *; auto; apply Hk.
Qed.
Lemma aside_queue s s' : aside s' = aside s → queue s' = queue s.
Proof. unfold aside, queue, request_queue. by intros [= -> _ _ _ _]. Qed.
Lemma aside_validators s s' : aside s' = aside s → validators s' = validators s.
Proof. unfold aside, validators. by intros [= _ -> _ _ _]. Qed.
Lemma moved_on_cons s s1 (r : Request.t) q s' :
  settings s1 = settings s → unsendable s r → moved_on s1 q s' → moved_on s (r :: q) s'.
Proof.
  intros Hs Hr (d&->&Hd). exists (r :: d). split; [done|]. constructor; [done|].
  eapply Forall_impl; [exact Hd|]. intros x. by apply unsendable_settings.
Qed.
Lemma aside_settings s s' : aside s' = aside s → settings s' = settings s.
Proof. unfold aside, settings, validators, instance. by intros [= -> -> _ -> _]. Qed.

Lemma process_next_request_fuel_spec fuel s :
  (length (queue s) < fuel)%nat →
  (length (validators s) ≤ 255)%nat → (length (queue s) ≤ MaxQueuedTxRequests)%nat →
  Forall request_ok (queue s) → Forall P (queue s) → J s →
  wp (process_next_request_fuel fuel) s
    (λ _ s', bridge_ok s' ∧ moved_on s (queue s) s' ∧ J s') (λ _ _, False).
Proof.
  revert s. induction fuel as [|fuel IH]; intros s Hf Hv Hb Hq HP Hs; [lia|].
  cbn [process_next_request_fuel]. wp_step. apply wp_modify. wp_step.
  eapply wp_mono; [apply dequeue_request_spec| |done]. cbn beta.
  intros o s1 (q&->&->&Hq1). change (queue (Runtime.upd_bridge _ s)) with (queue s) in *.
  set (s1 := with_queue q _). assert (J s1) as Hs1 by by apply HJ, (carried_active _ _ HJ).
  assert (queue s1 = tail (queue s)) as Hqs by exact Hq1.
  assert (validators s1 = validators s) as Hvs by reflexivity.
  assert (settings s1 = settings s) as Hset by reflexivity.
  assert (active_request s1 = None) as Hact by reflexivity. clearbody s1.
  destruct (queue s) as [|r rest]; cbn [head tail] in *.
  { apply wp_ret. split; [|split; [|done]].
    - constructor; rewrite ?Hvs, ?Hqs; [done..|]. by rewrite Hact.
    - exists []. unfold requests. by rewrite Hact, Hqs. }
  inversion_clear Hq as [|? ? Hr Hrest]. inversion_clear HP as [|? ? HPr HPrest]. cbn in Hf, Hb.
  assert (∀ s2, aside s2 = aside s1 → J s2 → unsendable s1 r →
    wp (process_next_request_fuel fuel) s2
      (λ _ s', bridge_ok s' ∧ moved_on s (r :: rest) s' ∧ J s') (λ _ _, False)) as Hgo.
  { intros s2 Ha Hs2 Hm. pose proof (aside_queue _ _ Ha) as Hq2. rewrite Hqs in Hq2.
    pose proof (aside_validators _ _ Ha) as Hv2. rewrite Hvs in Hv2.
    eapply wp_mono; [apply IH; rewrite ?Hq2, ?Hv2; auto; lia| |done]. cbn beta. rewrite Hq2.
    intros [] s' (H1&H2&H3). split; [done|]. split; [|done]. apply (moved_on_cons s s2); [| |done].
    - by rewrite (aside_settings _ _ Ha).
    - by eapply unsendable_settings. }
  destruct r as [req|req]; wp_step; apply wp_try.
  - eapply wp_mono; [apply set_up_active_tx_spec; [by rewrite Hvs|done]| |]; cbn beta.
    + intros [] s2 Hup. apply wp_ret. split; [|split].
      * by eapply set_up_from_ok; [..|exact Hup]; rewrite ?Hvs, ?Hqs; try done; lia.
      * destruct Hup as (i&msg&sender&expiry&->&_). exists []. split; [|done].
        unfold requests. cbn. f_equal. symmetry. exact Hqs.
      * destruct Hup as (i&msg&sender&expiry&->&_). by apply HJ, HJ.
    + intros e s2 [-> Hm]. apply notified_step; [..|intros; by apply Hgo];
        [apply process_result_aside|apply HJ|done].
  - eapply wp_mono; [apply set_up_active_lower_proof_spec| |]; cbn beta.
    + intros [] s2 (msg&->). apply wp_ret. split; [|split].
      * apply set_up_lower_ok; rewrite ?Hvs, ?Hqs; try done; lia.
      * exists []. split; [|done]. unfold requests. cbn. f_equal. symmetry. exact Hqs.
      * by apply HJ.
    + intros e s2 [-> Hm]. apply notified_step; [..|intros; by apply Hgo];
        [apply process_lower_proof_result_aside|by apply HJ|done].
Qed.
Lemma process_next_request_spec s :
  (length (validators s) ≤ 255)%nat → (length (queue s) ≤ MaxQueuedTxRequests)%nat →
  Forall request_ok (queue s) → Forall P (queue s) → J s →
  wp process_next_request s
    (λ _ s', bridge_ok s' ∧ moved_on s (queue s) s' ∧ J s') (λ _ _, False).
Proof.
  intros. unfold process_next_request. wp_step. wp_step.
  apply process_next_request_fuel_spec; auto.
Qed.
End NextRequest.
End BridgeInv.
