(* ===== verification/AvnProps.v ===== *)
(** * Quorums, the rotation of senders, and the signatures of validators

    How many faulty validators the quorums stand, that the duty to send to
    Ethereum goes round fairly, and what the check of a validator's signature
    establishes. *)

From S2P Require Import Prelude Frames Slices Bytes EventTypes EventParsing.
From S2P Require Import EventDiscovery EthTypes RuntimeErrors NodeTypes BridgeTypes.
From S2P Require Import Avn BridgeExamples EthBridge BridgeEvents BridgeInv.

(** ** Quorums *)

Lemma avn_required_for n : 0 <= n <= 256 → AvnQuorum.required_for n = n - n * 2 / 3.
Proof.
  intros Hn. unfold AvnQuorum.required_for.
  rewrite (wrap_small _ (n * 2)) by (unfold u32_max; lia).
  assert (0 <= n * 2 / 3 <= n) by (split; [apply Z.div_pos|apply Z.div_le_upper_bound]; lia).
  apply wrap_small. unfold u32_max. lia.
Qed.
Lemma avn_required_for_supermajority n :
  0 <= n <= 256 → AvnQuorum.required_for_supermajority n = n * 2 / 3.
Proof.
  intros Hn. unfold AvnQuorum.required_for_supermajority.
  by rewrite (wrap_small _ (n * 2)) by (unfold u32_max; lia).
Qed.
#[global] Instance avn_quorum_laws : QuorumLaws avn_quorum.
Proof.
  constructor; cbn; intros n Hn.
  - rewrite avn_required_for by lia. pose proof (Z.div_mod (n * 2) 3). pose proof (Z.mod_pos_bound (n * 2) 3). lia.
  - rewrite avn_required_for_supermajority by lia. pose proof (Z.div_mod (n * 2) 3).
    pose proof (Z.mod_pos_bound (n * 2) 3). lia.
Qed.

(** C37: the quorums stand [f] faulty validators among [n] whenever [3 f < n].  The
    faulty ones alone are never a quorum, the others always are, and they can also
    give a supermajority; a quorum is the least such number, one more than the
    largest [f], and together a quorum and a supermajority are all validators. *)
Theorem quorum_tolerance n f :
  1 <= n <= 256 → 0 <= f → 3 * f < n →
  f < AvnQuorum.required_for n <= n - f ∧
  AvnQuorum.required_for_supermajority n <= n - f ∧
  3 * (AvnQuorum.required_for n - 1) < n ∧
  AvnQuorum.required_for n + AvnQuorum.required_for_supermajority n = n.
Proof.
  intros Hn Hf H3. rewrite avn_required_for, avn_required_for_supermajority by lia.
  pose proof (Z.div_mod (n * 2) 3). pose proof (Z.mod_pos_bound (n * 2) 3). lia.
Qed.
Lemma quorum_tolerance_witness : 3 < AvnQuorum.required_for 10 <= 7.
Proof. apply (quorum_tolerance 10 3); lia. Defined.

(** ** The rotation of senders *)

Section Avn.
Context `{BridgeConfig}.
Implicit Types (s : Runtime.t).

(** The senders chosen by [n] calls in a row. *)
Fixpoint advance_primary_times (n : nat) : Dispatch (list AccountId) :=
  match n with
  | O => mret []
  | S n =>
      a ← advance_primary_validator_for_sending;
      l ← advance_primary_times n;
      mret (a :: l)
  end.
Definition accounts s : list AccountId := Validator.account_id <$> validators s.
Definition primary_index s : Z := AvnStorage.PrimaryCollatorIndexForSending (Runtime.avn s).
Definition next_index s : Z :=
  saturating_add_to u8_max (primary_index s) 1 mod Z.of_nat (length (validators s)).
Definition rotate {A} (k : nat) (l : list A) : list A := drop k l ++ take k l.

Lemma advance_primary_run s :
  (1 ≤ length (validators s) ≤ 255)%nat →
  ∃ a, accounts s !! Z.to_nat (next_index s) = Some a ∧
    advance_primary_validator_for_sending s =
      (Ok a, Runtime.upd_avn (AvnStorage.upd_PrimaryCollatorIndexForSending (λ _, next_index s)) s).
Proof.
  intros Hl. pose proof (Z.mod_pos_bound (saturating_add_to u8_max (primary_index s) 1)
    (Z.of_nat (length (validators s)))) as Hi. fold (next_index s) in Hi.
  destruct (lookup_lt_is_Some_2 (validators s) (Z.to_nat (next_index s))) as [v Hv]; [lia|].
  exists (Validator.account_id v). unfold accounts. rewrite list_lookup_fmap, Hv. split; [done|].
  unfold advance_primary_validator_for_sending, put_primary, nth_account, mbind, M_bind, gets, ensure.
  cbn. destruct (validators s) as [|v0 vs] eqn:Hvs; [cbn in Hl; lia|].
  rewrite bool_decide_false by done. cbn [negb mret M_ret].
  rewrite wrap_small by (unfold u8_max; lia). rewrite bool_decide_false by (cbn; lia).
  unfold modify. unfold next_index, primary_index in *. rewrite Hvs in *. by rewrite Hv.
Qed.
Lemma next_index_bound s :
  (1 ≤ length (validators s))%nat → 0 <= next_index s < Z.of_nat (length (validators s)).
Proof. intros. apply Z.mod_pos_bound. lia. Qed.
(** Calls in a row choose the accounts one after the other, going round. *)
Lemma advance_primary_times_run k s :
  (1 ≤ length (validators s) ≤ 255)%nat →
  ∃ l s', advance_primary_times k s = (Ok l, s') ∧ length l = k ∧ validators s' = validators s ∧
    ∀ j, (j < k)%nat → l !! j =
      accounts s !! Z.to_nat ((next_index s + Z.of_nat j) mod Z.of_nat (length (validators s))).
Proof.
  revert s. induction k as [|k IH]; intros s Hl; [by exists [], s; split_and!; [..|intros; lia]|].
  destruct (advance_primary_run s Hl) as (a&Ha&Hrun). pose proof (next_index_bound s ltac:(lia)) as Hi.
  set (s1 := Runtime.upd_avn _ s) in Hrun. destruct (IH s1 Hl) as (l&s'&Hrun'&Hlen&Hv&Hj).
  exists (a :: l), s'. split_and!; [|cbn; lia|done|].
  - cbn. unfold mbind, M_bind. by rewrite Hrun, Hrun'.
  - assert (next_index s1 = (next_index s + 1) mod Z.of_nat (length (validators s))) as Hnext.
    { unfold next_index at 1. change (primary_index s1) with (next_index s).
      change (validators s1) with (validators s). f_equal. unfold saturating_add_to, u8_max. lia. }
    change (validators s1) with (validators s) in Hj. change (accounts s1) with (accounts s) in Hj.
    intros [|j] Hlt; cbn [lookup list_lookup].
    + by rewrite Z.add_0_r, Z.mod_small by lia.
    + rewrite Hj, Hnext by lia. do 2 f_equal. rewrite Zplus_mod_idemp_l. f_equal. lia.
Qed.
Lemma rotate_lookup {A} k (l : list A) j :
  (k < length l)%nat → (j < length l)%nat →
  rotate k l !! j = l !! Z.to_nat ((Z.of_nat k + Z.of_nat j) mod Z.of_nat (length l)).
Proof.
  intros Hk Hj. unfold rotate. destruct (decide (k + j < length l)%nat) as [Hlt|Hge].
  - rewrite lookup_app_l by (rewrite length_drop; lia). rewrite lookup_drop, Z.mod_small by lia.
    f_equal. lia.
  - rewrite lookup_app_r by (rewrite length_drop; lia). rewrite length_drop, lookup_take_lt by lia.
    replace (Z.of_nat k + Z.of_nat j) with ((Z.of_nat k + Z.of_nat j - Z.of_nat (length l)) +
      1 * Z.of_nat (length l)) by lia.
    rewrite Z.mod_add, Z.mod_small by lia. f_equal. lia.
Qed.

(** The duty to send transactions goes round.  As many calls in a row as there
    are validators, wherever the counter stands, choose the validators in their
    order from one of them on, each exactly once; none of the calls fails. *)
Theorem primary_rotation_fair s :
  (1 ≤ length (validators s) ≤ 255)%nat →
  ∃ k s', advance_primary_times (length (validators s)) s =
            (Ok (drop k (accounts s) ++ take k (accounts s)), s') ∧ validators s' = validators s.
Proof.
  intros Hl. destruct (advance_primary_times_run (length (validators s)) s Hl) as (l&s'&Hrun&Hlen&Hv&Hj).
  pose proof (next_index_bound s ltac:(lia)) as Hi. exists (Z.to_nat (next_index s)), s'.
  assert (length (accounts s) = length (validators s)) as Ha by apply length_fmap.
  assert (l = rotate (Z.to_nat (next_index s)) (accounts s)) as Hrot.
  { apply list_eq_same_length with (length (validators s)); [|done|].
    - unfold rotate. rewrite length_app, length_drop, length_take. lia.
    - intros j x y Hjl Hx Hy. rewrite Hj in Hx by done. rewrite rotate_lookup in Hy by lia.
      rewrite Ha, Z2Nat.id in Hy by lia. congruence. }
  unfold rotate in Hrot. by rewrite Hrun, Hrot.
Qed.
End Avn.
Lemma primary_rotation_fair_witness :
  ∃ k s', @advance_primary_times demo_config 4 demo_state =
            (Ok (drop k [1; 2; 3; 4]%N ++ take k [1; 2; 3; 4]%N), s') ∧
          @validators demo_config s' = demo_validators.
Proof. apply (@primary_rotation_fair demo_config demo_state). cbn. lia. Defined.

(** * What the validators sign

    The hash that is confirmed for a transaction or a lower is that of the
    structure with the values that were asked for: encoding them as parameters
    and decoding them again loses nothing. *)

(** ** Lowers *)

Lemma slice_at {A} (x m y l : list A) a c :
  l = x ++ m ++ y → length x = a → (length x + length m)%nat = c → slice a c l = Some m.
Proof.
  intros -> <- <-. rewrite (slice_app_r (length x)) by lia.
  replace (length x - length x)%nat with O by lia.
  replace (length x + length m - length x)%nat with (length m) by lia.
  rewrite slice_app_l by done. by apply slice_all.
Qed.
(** The spans of a concatenation [l] of parts of known lengths. *)
Ltac span_tac :=
  match goal with
  | |- ?l = _ => unfold l; cbn [app]; rewrite ?app_nil_r, <- ?app_assoc; reflexivity
  | _ => unfold PACKED_LOWER_V1_PARAMS_SIZE, PACKED_LOWER_V2_PARAMS_SIZE;
         rewrite ?length_app; cbn [length]; lia
  end.
Lemma be_bytes_Z n x :
  0 <= x < 256 ^ Z.of_nat n → Z.of_N (from_be_bytes (be_bytes n (Z.to_N x))) = x.
Proof. intros Hx. rewrite from_be_bytes_be; [lia|]. apply N2Z.inj_lt. rewrite N2Z.inj_pow. lia. Qed.

(** The parameters of a lower survive the packing into 116 bytes: what the
    hash of the proof covers is the token, the amount, the recipient, the number,
    the sender and the time that were lowered. *)
Theorem lower_params_roundtrip lower_id token amount recipient sender timestamp :
  0 <= lower_id <= u32_max → (token < 2 ^ 160)%N → 0 <= amount <= u128_max →
  (recipient < 2 ^ 160)%N → (sender < 2 ^ 256)%N → 0 <= timestamp <= u64_max →
  LowerData_try_from (concat_lower_data lower_id token amount recipient sender timestamp) =
    Ok (SolStruct.LowerData token amount recipient lower_id sender timestamp).
Proof.
  intros Hid Ht Ha Hr Hs Htm. unfold LowerData_try_from, concat_lower_data.
  set (s1 := be_bytes 20 token). set (s3 := be_bytes 16 (Z.to_N amount)).
  set (s4 := be_bytes 20 recipient). set (s5 := be_bytes 4 (Z.to_N lower_id)).
  set (s6 := be_bytes 32 sender). set (s7 := be_bytes 8 (Z.to_N timestamp)).
  set (s2 := replicate 16 0%N).
  assert (length s1 = 20 ∧ length s2 = 16 ∧ length s3 = 16 ∧ length s4 = 20 ∧ length s5 = 4 ∧
          length s6 = 32 ∧ length s7 = 8)%nat as (L1&L2&L3&L4&L5&L6&L7).
  { split_and!; first [apply be_bytes_length|apply length_replicate]. }
  assert (Z.of_N (from_be_bytes s3) = amount) as E3 by (apply be_bytes_Z; revert Ha; unfold u128_max; lia).
  assert (Z.of_N (from_be_bytes s5) = lower_id) as E5 by (apply be_bytes_Z; revert Hid; unfold u32_max; lia).
  assert (Z.of_N (from_be_bytes s7) = timestamp) as E7 by (apply be_bytes_Z; revert Htm; unfold u64_max; lia).
  assert (from_be_bytes s1 = token) as E1 by by apply from_be_bytes_be.
  assert (from_be_bytes s4 = recipient) as E4 by by apply from_be_bytes_be.
  assert (from_be_bytes s6 = sender) as E6 by by apply from_be_bytes_be.
  clearbody s1 s2 s3 s4 s5 s6 s7. set (l := s1 ++ _).
  assert (length l = PACKED_LOWER_V2_PARAMS_SIZE) as Hl.
  { unfold l. rewrite !length_app, L1, L2, L3, L4, L5, L6, L7. done. }
  rewrite bool_decide_true by done. cbn [check mbind outcome_bind].
  rewrite (slice_at [] s1 (s2 ++ s3 ++ s4 ++ s5 ++ s6 ++ s7) l 0 20) by span_tac.
  rewrite (slice_at (s1 ++ s2) s3 (s4 ++ s5 ++ s6 ++ s7) l 36 52) by span_tac.
  rewrite (slice_at (s1 ++ s2 ++ s3) s4 (s5 ++ s6 ++ s7) l 52 72) by span_tac.
  rewrite (slice_at (s1 ++ s2 ++ s3 ++ s4) s5 (s6 ++ s7) l 72 _) by span_tac.
  rewrite (slice_at (s1 ++ s2 ++ s3 ++ s4 ++ s5) s6 s7 l _ 108) by span_tac.
  rewrite (slice_at (s1 ++ s2 ++ s3 ++ s4 ++ s5 ++ s6) s7 [] l 108 _) by span_tac.
  cbn. by rewrite E1, E3, E4, E5, E6, E7.
Qed.
Lemma lower_params_roundtrip_witness :
  LowerData_try_from (concat_lower_data 3 8 250 9 50 1000) = Ok (SolStruct.LowerData 8 250 9 3 50 1000).
Proof. by apply lower_params_roundtrip. Defined.

(** ** Transactions *)

Section Hashes.
Context (hash : SolStruct.t → Eip712Domain.t → H256) (domain : Eip712Domain.t).

Lemma parse_from_utf8_to_string max x :
  0 <= x <= max → parse_from_utf8 max (to_string x) = Ok x.
Proof. intros Hx. unfold parse_from_utf8. by rewrite to_string_utf8, parse_to_string. Qed.
Lemma extract_sent params t1 t2 expiry tx_id :
  0 <= expiry <= u64_max → 0 <= tx_id <= u32_max →
  extract_tx_id_and_expiry (params ++ [(t1, to_string expiry); (t2, to_string tx_id)]) = Ok (tx_id, expiry).
Proof.
  intros He Ht. unfold extract_tx_id_and_expiry, value_at, index. rewrite length_app. cbn [length].
  rewrite bool_decide_true by lia. cbn [check mbind outcome_bind].
  rewrite !lookup_app_r by lia.
  replace (length params + 2 - 2 - length params)%nat with 0%nat by lia.
  replace (length params + 2 - 1 - length params)%nat with 1%nat by lia.
  cbn. by rewrite !parse_from_utf8_to_string.
Qed.

Lemma try_from_name m :
  BridgeContractMethod.try_from (BridgeContractMethod.name_as_bytes m) = Some m.
Proof. by destruct m. Qed.
(** The hash of a transaction, with the two parameters the bridge appends. *)
Definition sent_hash (m : BridgeContractMethod.t) (params : list (bytes * bytes)) (expiry tx_id : Z) :
    outcome unit H256 :=
  let name := BridgeContractMethod.name_as_bytes m in
  create_function_confirmation_hash hash name
    (sent_params (SendRequestData.mk tx_id name params []) expiry) domain.

(** The hash the validators confirm for a transaction is that of the structure
    of its method with the values of its parameters, its expiry and its number:
    the decimal strings and the words decode to what was encoded. *)
Theorem confirmation_hash_faithful expiry tx_id :
  0 <= expiry <= u64_max → 0 <= tx_id <= u32_max →
  (∀ t root, length root = 32%nat →
     sent_hash BridgeContractMethod.PublishRoot [(t, root)] expiry tx_id =
       Ok (hash (SolStruct.PublishRoot (from_be_bytes root) expiry tx_id) domain)) ∧
  (∀ t0 t1 t2 rewards avg_staked period,
     0 <= rewards <= u128_max → 0 <= avg_staked <= u128_max → 0 <= period <= u32_max →
     sent_hash BridgeContractMethod.TriggerGrowth
         [(t0, to_string rewards); (t1, to_string avg_staked); (t2, to_string period)] expiry tx_id =
       Ok (hash (SolStruct.TriggerGrowth rewards avg_staked period expiry tx_id) domain)) ∧
  (∀ t0 t1 t1_key t2_key, length t2_key = 32%nat →
     sent_hash BridgeContractMethod.AddAuthor [(t0, t1_key); (t1, t2_key)] expiry tx_id =
       Ok (hash (SolStruct.AddAuthor t1_key (from_be_bytes t2_key) expiry tx_id) domain) ∧
     sent_hash BridgeContractMethod.RemoveAuthor [(t1, t2_key); (t0, t1_key)] expiry tx_id =
       Ok (hash (SolStruct.RemoveAuthor (from_be_bytes t2_key) t1_key expiry tx_id) domain)) ∧
  (∀ t amount, 0 <= amount <= u128_max →
     sent_hash BridgeContractMethod.MintRewards [(t, to_string amount)] expiry tx_id =
       Ok (hash (SolStruct.MintRewards amount expiry tx_id) domain)).
Proof.
  intros He Ht. unfold sent_hash, sent_params, create_function_confirmation_hash, word_from_slice.
  cbn [SendRequestData.params SendRequestData.tx_id]. rewrite !try_from_name. split_and!.
  - intros t root Hr. rewrite extract_sent by done. cbn. by rewrite bool_decide_true.
  - intros. rewrite extract_sent by done. cbn. by rewrite !parse_from_utf8_to_string.
  - intros t0 t1 k1 k2 Hk. rewrite !extract_sent by done.
    split; cbn; by rewrite bool_decide_true by done.
  - intros t amount Ha. rewrite extract_sent by done. cbn. by rewrite parse_from_utf8_to_string.
Qed.
End Hashes.
Lemma confirmation_hash_witness :
  sent_hash (λ _ _, 7%N) (Eip712Domain.of_instance EthBridgeInstance.default)
    BridgeContractMethod.MintRewards [(UINT256, to_string 30)] 4600 1 = Ok 7%N.
Proof.
  by apply (confirmation_hash_faithful (λ _ _, 7%N)
              (Eip712Domain.of_instance EthBridgeInstance.default) 4600 1).
Defined.

(** A root of 32 bytes can be published without a panic. *)
Lemma extract_no_panic params : no_panic (extract_tx_id_and_expiry params) = true.
Proof.
  unfold extract_tx_id_and_expiry, value_at, index. case_bool_decide as Hl; [|done].
  destruct (lookup_lt_is_Some_2 params (length params - 2)) as [p Hp]; [lia|].
  destruct (lookup_lt_is_Some_2 params (length params - 1)) as [q Hq]; [lia|].
  cbn. rewrite Hp, Hq. cbn. unfold parse_from_utf8.
  destruct (is_utf8 p.2); cbn; [|done]. destruct (parse _ p.2); cbn; [|done].
  destruct (is_utf8 q.2); cbn; [|done]. by destruct (parse _ q.2).
Qed.
Lemma publish_root_ok `{BridgeConfig} tx_id t root caller_id :
  length root = 32%nat →
  send_ok (SendRequestData.mk tx_id (b "publishRoot") [(t, root)] caller_id).
Proof.
  intros Hr expiry domain. unfold create_function_confirmation_hash, sent_params, word_from_slice.
  set (ids := extract_tx_id_and_expiry _). pose proof (extract_no_panic
    ([(t, root)] ++ [(UINT256, to_string expiry); (UINT32, to_string tx_id)])) as Hn.
  change (no_panic ids = true) in Hn. clearbody ids. cbn. rewrite bool_decide_true by done.
  by destruct ids.
Qed.
