(* ===== verification/BridgeCalls.v ===== *)
(** * The token manager does not call back into the bridge

    What the bridge asks of the pallets it notifies ([NotificationLaws]) holds of
    the token manager: its handlers leave the storage of the bridge and of the
    validators alone, and do not panic. *)

From S2P Require Import Prelude Frames Slices Bytes EventTypes EventParsing.
From S2P Require Import EventDiscovery EthTypes RuntimeErrors NodeTypes BridgeTypes.
From S2P Require Import Avn EthBridge BridgeEvents TokenManager BridgeInv.

Section TokenAside.
Context `{BridgeConfig}.
Implicit Types (s : Runtime.t).

Lemma total_of {A} (m : Dispatch A) s : maintains (λ _, True) m → (m s).1 ≠ Panic.
Proof. intros Hm. specialize (Hm s Logic.I). unfold wp in Hm. by destruct (m s) as [[] ?]. Qed.
Lemma modify_total (f : Runtime.t → Runtime.t) : maintains (λ _, True) (modify f : Dispatch unit).
Proof. by apply maintains_modify. Qed.
Lemma credit_aside t w a : leaves aside (credit_user_balance t w a).
Proof.
  unfold credit_user_balance, mint_known_token, mint_unknown_token, update_assets, put_balance,
    token_modify. leaves_tac.
Qed.
Lemma credit_total t w a : maintains (λ _, True) (credit_user_balance t w a).
Proof.
  pose proof modify_total.
  unfold credit_user_balance, mint_known_token, mint_unknown_token, update_assets, put_balance,
    token_modify. maintains_tac.
Qed.
#[local] Hint Resolve credit_aside : frame.
#[local] Hint Resolve credit_total modify_total : maintain.
Lemma processed_event_handler_aside e : leaves aside (processed_event_handler e).
Proof.
  unfold processed_event_handler, process_lift, process_avt_growth_lift, process_lower_claim,
    process_lower_reverted, remove_used_lower, token_get, token_modify, token_event, deposit_event.
  leaves_tac.
Qed.
Lemma processed_event_handler_total e : maintains (λ _, True) (processed_event_handler e).
Proof.
  unfold processed_event_handler, process_lift, process_avt_growth_lift, process_lower_claim,
    process_lower_reverted, remove_used_lower, token_get, token_modify, token_event, deposit_event.
  maintains_tac.
Qed.
#[global] Instance token_notification_laws : NotificationLaws token_notification.
Proof.
  constructor; cbn.
  - intros. apply leaves_ret.
  - done.
  - intros. unfold lower_proof_result, token_get, token_modify, token_event, deposit_event. leaves_tac.
  - intros. apply total_of.
    unfold lower_proof_result, token_get, token_modify, token_event, deposit_event. maintains_tac.
  - apply processed_event_handler_aside.
  - intros. apply total_of, processed_event_handler_total.
Qed.
End TokenAside.

(** * What the calls of the Ethereum bridge maintain

    The calls of the bridge maintain every invariant of the runtime that survives
    what they are made of: writing the active request back, setting it up again,
    settling it and moving on, and notifying the pallets. *)

Section BridgeCalls.
Context `{BridgeConfig} {N : BridgeInterfaceNotification} `{!NotificationLaws N}.
Implicit Types (s : Runtime.t).

Lemma wp_assoc {A B C} (m : Dispatch A) (f : A → Dispatch B) (g : B → Dispatch C) s Q R :
  wp ((m ≫= f) ≫= g) s Q R → wp (m ≫= λ a, f a ≫= g) s Q R.
Proof. unfold wp, mbind, M_bind. by destruct (m s) as [[a|e|] s']. Qed.

Lemma wp_swap_ret {A B C} (m : Dispatch A) (b : B) (g : Dispatch unit) (k : B → Dispatch C) s Q R :
  wp ((m;; g) ≫= λ _, k b) s Q R → wp ((m;; mret b) ≫= λ b, g;; k b) s Q R.
Proof. unfold wp, mbind, M_bind. by destruct (m s) as [[a|e|] s']. Qed.

(** ** What an invariant needs to be maintained by the calls *)

Definition requests_view (b : BridgeStorage.t) :=
  (BridgeStorage.ActiveRequest b, BridgeStorage.RequestQueue b).
(** The events of the node manager. *)
Definition node_events s : list NodeEvent.t :=
  omap (λ e, match e with NodeManagerEvent e => Some e | _ => None end) (Runtime.events s).
Definition pallets s := (Runtime.tokens s, Runtime.nodes s, Runtime.assets s, node_events s).
(** Invariants that do not look at the rest of the storage of the bridge, its
    events, the offences or the sender that comes next. *)
Record steady (I : Runtime.t → Prop) : Prop := {
  steady_same s s' :
    aside s' = aside s → pallets s' = pallets s → I s → I s';
  steady_upd g s :
    (∀ b, requests_view (g b) = requests_view b) → I s → I (Runtime.upd_bridge g s);
  steady_primary i s : I s → I (with_primary i s);
  steady_result id caller ok : maintains I (process_result id caller ok);
}.
(** The proof that is sent for a request. *)
Definition proof_of (req : LowerProofRequestData.t) (data : option bytes) : Prop :=
  match data with
  | Some proof => ∃ signatures,
      proof = generate_encoded_lower_proof req signatures ∧ NoDup signatures ∧
      (length signatures ≤ MAX_CONFIRMATIONS)%nat
  | None => True
  end.
Record respected (I : Runtime.t → Prop) : Prop := {
  re_steady : steady I;
  re_ok s : I s → bridge_ok s;
  re_event event : maintains I (on_incoming_event_processed event);
  (** The active request is written back, or set up again. *)
  re_again s r r' :
    I s → active_request s = Some r →
    ActiveRequestData.request r' = ActiveRequestData.request r → active_ok r' →
    I (with_active (Some r') s);
  (** The active request is settled. *)
  re_next_send s req :
    I s → ActiveRequestData.request <$> active_request s = Some (Request.Send req) →
    wp process_next_request s (λ _ s', I s') (λ _ s', I s');
  re_next_lower s req data :
    I s → ActiveRequestData.request <$> active_request s = Some (Request.LowerProof req) →
    proof_of req data →
    wp (try (process_lower_proof_result (LowerProofRequestData.lower_id req)
               (LowerProofRequestData.caller_id req) data);; process_next_request) s
      (λ _ s', I s') (λ _ s', I s');
}.

Section Steady.
Variable I : Runtime.t → Prop.

Lemma same_modify_ok (f : Runtime.t → Runtime.t) :
  steady I → (∀ s, aside (f s) = aside s) → (∀ s, pallets (f s) = pallets s) →
  maintains I (modify f : Dispatch unit).
Proof. intros [HS _ _ _] Ha Ht. apply maintains_modify. intros s. by apply HS. Qed.
Lemma upd_bridge_ok (g : BridgeStorage.t → BridgeStorage.t) :
  steady I → (∀ b, requests_view (g b) = requests_view b) →
  maintains I (modify (Runtime.upd_bridge g) : Dispatch unit).
Proof. intros [_ HU _ _] Hg. apply maintains_modify. intros s. by apply HU. Qed.
Lemma bridge_event_ok e : steady I → maintains I (bridge_event e).
Proof.
  intros HI. apply same_modify_ok; [done|done|]. intros s. unfold pallets, node_events. cbn.
  by rewrite omap_app, app_nil_r.
Qed.
Lemma ensure_none_ok o : maintains I (ensure_none o).
Proof. destruct o; maintains_tac. Qed.
Lemma ensure_root_ok o : maintains I (ensure_root o).
Proof. destruct o; maintains_tac. Qed.
Lemma report_offence_ok reporter offenders t :
  steady I → maintains I (create_and_report_bridge_offence reporter offenders t).
Proof.
  intros HI. unfold create_and_report_bridge_offence.
  pose proof (bridge_event_ok). maintains_tac. by apply same_modify_ok.
Qed.
Lemma report_challengers_ok sender l t : steady I → maintains I (report_challengers sender l t).
Proof. intros HI. unfold report_challengers. pose proof report_offence_ok. maintains_tac. Qed.
End Steady.
#[local] Hint Resolve bridge_event_ok ensure_none_ok ensure_root_ok steady_result report_offence_ok
  report_challengers_ok : maintain.
#[local] Hint Extern 1 (maintains _ (modify (Runtime.upd_bridge _))) =>
  apply upd_bridge_ok; [assumption|reflexivity] : maintain.

Section Respected.
Variable I : Runtime.t → Prop.
Hypothesis HI : respected I.
Let HS : steady I := re_steady I HI.

(** ** Confirmations *)

Lemma save_active_request_ok (r r' : ActiveRequestData.t) s :
  I s → active_request s = Some r →
  ActiveRequestData.request r' = ActiveRequestData.request r → active_ok r' →
  wp (save_active_request_to_storage r') s (λ _ s', I s') (λ _ s', I s').
Proof.
  intros Hs Ha Hreq [R D L T G]. unfold save_active_request_to_storage. wp_step. wp_step.
  apply wp_modify. by apply (re_again I HI s r).
Qed.
(** Setting the active transaction up again. *)
Lemma set_up_active_tx_ok req replay s :
  I s → ActiveRequestData.request <$> active_request s = Some (Request.Send req) →
  wp (set_up_active_tx req replay) s (λ _ s', I s') (λ _ s', I s').
Proof.
  intros Hs Ha. pose proof (re_ok I HI s Hs) as [V _ B Q A].
  destruct (active_request s) as [r|] eqn:Hr; [|done]. injection Ha as Ha.
  assert (send_ok req) as Hok. { destruct (A r eq_refl) as [Hreq _ _ _ _]. by rewrite Ha in Hreq. }
  eapply wp_mono; [by apply set_up_active_tx_spec| |]; cbn beta; [|by intros e s' [-> _]].
  intros [] s' (i&msg&sender&expiry&->&_).
  apply (re_again I HI _ r); [by apply HS|done|done|by apply fresh_tx_ok].
Qed.
Lemma try_push_Some {A} max (l l' : list A) a :
  try_push max l a = Some l' → l' = l ++ [a] ∧ (length l' ≤ max)%nat.
Proof.
  unfold try_push. case_bool_decide; [|done]. intros [= <-]. rewrite length_app. cbn. split; [done|lia].
Qed.
Lemma confirmed_ok (r : ActiveRequestData.t) msg c l :
  active_ok r → c ∉ confirmations_of r → signed_by_validator msg c →
  msg = ActiveConfirmation.msg_hash (ActiveRequestData.confirmation r) →
  try_push MAX_CONFIRMATIONS (confirmations_of r) c = Some l →
  active_ok (ActiveRequestData.upd_confirmation (λ _, ActiveConfirmation.mk msg l) r).
Proof.
  intros [R D L T G] Hc Hsig -> [-> Hl]%try_push_Some.
  constructor; cbn; [done| |done|done|by apply Forall_app; auto].
  apply NoDup_app. split; [done|]. split; [|apply NoDup_singleton].
  intros x Hx ->%list_elem_of_singleton. done.
Qed.
Lemma eth_signature_signed msg a c s : eth_signature_is_valid msg a c s = true → signed_by_validator msg c.
Proof.
  unfold eth_signature_is_valid, signed_by_validator. intros [_ Hv]%andb_true_iff.
  destruct (recover_public_key c msg) as [pk|]; [|done].
  destruct (get_validator_for_eth_public_key pk) as [v|] eqn:Hpk; [|done]. eauto.
Qed.
Lemma complete_lower_proof_request_ok req confirmations s :
  I s → ActiveRequestData.request <$> active_request s = Some (Request.LowerProof req) →
  NoDup confirmations → (length confirmations ≤ MAX_CONFIRMATIONS)%nat →
  wp (complete_lower_proof_request req confirmations) s (λ _ s', I s') (λ _ s', I s').
Proof.
  intros Hs Ha Hd Hl. apply (re_next_lower I HI s req (Some _)); [done|done|]. by exists confirmations.
Qed.
Lemma is_active_request_Some id s :
  is_active_request id s = true → ∃ r, active_request s = Some r.
Proof. unfold is_active_request. destruct (active_request s); [eauto|done]. Qed.

Lemma add_confirmation_ok origin request_id confirmation author :
  maintains I (add_confirmation origin request_id confirmation author).
Proof.
  unfold add_confirmation. apply maintains_bind; [maintains_tac|]. intros _ s Hs.
  wp_step. wp_step. destruct (is_active_request request_id s) eqn:Hact; cbn [negb]; [|by wp_step].
  apply is_active_request_Some in Hact as [r Hr]. pose proof (br_active s (re_ok I HI s Hs) r Hr) as Hok.
  wp_step. wp_step. wp_step. apply wp_expect with (a := r); [done|]. wp_step. wp_step.
  destruct (has_enough_confirmations r s); [by wp_step|].
  destruct (is_sender_of _ r); [by wp_step|]. cbv zeta. unfold verify_signature.
  repeat wp_step; [|done..]. apply negb_true_iff, bool_decide_eq_false in H1.
  pose proof (confirmed_ok r (ActiveConfirmation.msg_hash (ActiveRequestData.confirmation r))
                _ _ Hok H1 (eth_signature_signed _ _ _ _ H0) eq_refl H2) as Hnew.
  case_match eqn:Hrq; [by apply (save_active_request_ok r)|].
  destruct (has_enough_confirmations _ s).
  { apply complete_lower_proof_request_ok; [done|rewrite Hr; cbn in *; by rewrite Hrq|..]; apply Hnew. }
  by apply (save_active_request_ok r).
Qed.

(** ** Corroborations *)

Lemma add_eth_tx_hash_ok origin tx_id eth_tx_hash author :
  maintains I (add_eth_tx_hash origin tx_id eth_tx_hash author).
Proof.
  unfold add_eth_tx_hash. apply maintains_bind; [maintains_tac|]. intros _ s Hs.
  wp_step. wp_step. destruct (is_active_request tx_id s) eqn:Hact; cbn [negb]; [|by wp_step].
  apply is_active_request_Some in Hact as [r Hr]. pose proof (br_active s (re_ok I HI s Hs) r Hr) as [R D L T G].
  wp_step. wp_step. wp_step. apply wp_expect with (a := r); [done|].
  destruct (ActiveRequestData.tx_data r) as [d|] eqn:Hd; [|by wp_step].
  repeat wp_step; [|done..]. apply (save_active_request_ok r); [done..|]. constructor; cbn; [done|done|done| |done].
  destruct (ActiveRequestData.request r); [|done]. destruct T. by constructor.
Qed.
(** The transaction data after a corroboration. *)
Definition corroborated (succeeded hash_is_valid : bool) (author : AccountId)
    (d : ActiveEthTransaction.t) : ActiveEthTransaction.t :=
  let d := if hash_is_valid
           then ActiveEthTransaction.upd_valid_tx_hash_corroborations (.++ [author]) d
           else ActiveEthTransaction.upd_invalid_tx_hash_corroborations (.++ [author]) d in
  if succeeded then ActiveEthTransaction.upd_success_corroborations (.++ [author]) d
  else ActiveEthTransaction.upd_failure_corroborations (.++ [author]) d.
Definition outcome_votes (succeeded : bool) (d : ActiveEthTransaction.t) : list AccountId :=
  if succeeded then ActiveEthTransaction.success_corroborations d
  else ActiveEthTransaction.failure_corroborations d.
Lemma push_corroboration_spec l a s :
  wp (push_corroboration l a) s
    (λ l' s', s' = s ∧ l' = l ++ [a] ∧ (length l' ≤ MAX_CONFIRMATIONS)%nat) (λ _ s', s' = s).
Proof.
  unfold push_corroboration. wp_step; [|done]. split; [done|]. by apply try_push_Some in H0 as [-> ?].
Qed.
Lemma app_snoc_perm (l k : list AccountId) a :
  (l ++ [a]) ++ k ≡ₚ a :: l ++ k ∧ l ++ k ++ [a] ≡ₚ a :: l ++ k.
Proof.
  split; [rewrite <- app_assoc; symmetry; apply Permutation_middle|].
  rewrite app_assoc. symmetry. apply Permutation_cons_append.
Qed.
Lemma corroborated_perm succeeded valid author d :
  let votes d := ActiveEthTransaction.success_corroborations d ++
                 ActiveEthTransaction.failure_corroborations d in
  let hash_votes d := ActiveEthTransaction.valid_tx_hash_corroborations d ++
                      ActiveEthTransaction.invalid_tx_hash_corroborations d in
  votes (corroborated succeeded valid author d) ≡ₚ author :: votes d ∧
  hash_votes (corroborated succeeded valid author d) ≡ₚ author :: hash_votes d.
Proof. destruct succeeded, valid; cbn; split; apply app_snoc_perm. Qed.
Lemma tx_ok_corroborated succeeded valid author d :
  tx_ok d → requires_corroboration d author = true → author ≠ ActiveEthTransaction.sender d →
  (length (ActiveEthTransaction.invalid_tx_hash_corroborations
             (corroborated succeeded valid author d)) ≤ MAX_CONFIRMATIONS)%nat →
  tx_ok (corroborated succeeded valid author d).
Proof.
  unfold requires_corroboration. intros [V S P _] [Hs Hf]%andb_true_iff Hne Hlim.
  apply negb_true_iff, bool_decide_eq_false in Hs, Hf.
  destruct (corroborated_perm succeeded valid author d) as [Hv Hh].
  assert (ActiveEthTransaction.sender (corroborated succeeded valid author d) =
          ActiveEthTransaction.sender d) as Hsender by by destruct succeeded, valid.
  constructor; rewrite ?Hv, ?Hh, ?P, ?Hsender; [|rewrite elem_of_cons|done|done].
  - constructor; [|done]. rewrite elem_of_app. tauto.
  - intros [?|?]; [congruence|by apply S].
Qed.
Lemma corroborate_spec succeeded valid author d s :
  tx_ok d → requires_corroboration d author = true → author ≠ ActiveEthTransaction.sender d →
  wp (data ← corroborate_hash valid author d; corroborate_outcome succeeded author data) s
    (λ r s', s' = s ∧ tx_ok r.1 ∧
       r = (corroborated succeeded valid author d,
            length (outcome_votes succeeded (corroborated succeeded valid author d))))
    (λ _ s', s' = s).
Proof.
  intros Hok Hreq Hne. pose proof (tx_limit d Hok) as Hl.
  pose proof (tx_ok_corroborated succeeded valid author d Hok Hreq Hne) as Hnew.
  wp_step. unfold corroborate_hash, corroborate_outcome.
  destruct valid; wp_step; (eapply wp_mono; [apply push_corroboration_spec| |done]);
    intros l ? (->&->&Hl1); wp_step; destruct succeeded; wp_step;
    (eapply wp_mono; [apply push_corroboration_spec| |done]); intros l ? (->&->&Hl2); wp_step;
    auto.
Qed.

(** The invariant, while a given transaction is active. *)
Definition sending (req : SendRequestData.t) s : Prop :=
  I s ∧ ActiveRequestData.request <$> active_request s = Some (Request.Send req).
Lemma sending_steady req : steady (sending req).
Proof.
  constructor.
  - intros s s' Ha Ht [Hs Hr]. split; [by apply HS with (s := s)|]. revert Ha.
    unfold aside, active_request in *. by intros [= -> _ _ _ _].
  - intros g s Hg [Hs Hr]. split; [by apply HS|]. pose proof (Hg (Runtime.bridge s)) as [= Hb _].
    unfold active_request in *. cbn. by rewrite Hb.
  - intros i s [Hs Hr]. split; [by apply HS|done].
  - intros id caller ok s [Hs Hr]. pose proof (steady_result I HS id caller ok s Hs) as Hw.
    pose proof (process_result_aside id caller ok s) as Ha. unfold wp in *.
    destruct (process_result _ _ _ s) as [[] s']; cbn in *; [| |done]; (split; [done|]);
      revert Ha; unfold aside, active_request in *; by intros [= -> _ _ _ _].
Qed.
Lemma maintains_then {A B} (J : Runtime.t → Prop) (m : Dispatch A) (k : A → Dispatch B) s :
  maintains J m → J s → (∀ s, J s → I s) →
  (∀ a s, J s → wp (k a) s (λ _ s', I s') (λ _ s', I s')) →
  wp (m ≫= k) s (λ _ s', I s') (λ _ s', I s').
Proof. intros Hm Hs HJ Hk. apply wp_bind. eapply wp_mono; [by apply Hm|auto|auto]. Qed.
Lemma complete_transaction_ok tx success s :
  sending (ActiveTransactionData.request tx) s →
  wp (complete_transaction tx success) s (λ _ s', I s') (λ _ s', I s').
Proof.
  intros Hs. pose proof (sending_steady (ActiveTransactionData.request tx)) as HJ.
  unfold complete_transaction. cbv zeta.
  do 3 (eapply maintains_then; [|exact Hs|by intros ? [? _]|clear s Hs; intros ? s Hs];
    [destruct success; by maintains_tac|]).
  eapply maintains_then; [|exact Hs|by intros ? [? _]|clear s Hs; intros ? s Hs]; [by maintains_tac|].
  by eapply (re_next_send I HI); apply Hs.
Qed.
Lemma finalize_state_ok tx success s :
  sending (ActiveTransactionData.request tx) s →
  wp (finalize_state tx success) s (λ _ s', I s') (λ _ s', I s').
Proof.
  intros Hs. pose proof (sending_steady (ActiveTransactionData.request tx)) as HJ.
  unfold finalize_state, replay_send_request. wp_step. wp_step.
  destruct (negb success && _); [|by apply complete_transaction_ok].
  eapply maintains_then; [|exact Hs|by intros ? [? _]|clear s Hs; intros ? s Hs]; [by maintains_tac|].
  apply set_up_active_tx_ok; apply Hs.
Qed.
Lemma add_corroboration_ok origin tx_id tx_succeeded tx_hash_is_valid author attempt :
  maintains I (add_corroboration origin tx_id tx_succeeded tx_hash_is_valid author attempt).
Proof.
  unfold add_corroboration. apply maintains_bind; [maintains_tac|]. intros _ s Hs.
  wp_step. wp_step. destruct (is_active_request tx_id s) eqn:Hact; cbn [negb]; [|by wp_step].
  apply is_active_request_Some in Hact as [r Hr]. pose proof (br_active s (re_ok I HI s Hs) r Hr) as [R D L T G].
  wp_step. wp_step. wp_step. apply wp_expect with (a := r); [done|].
  destruct (ActiveRequestData.tx_data r) as [d|] eqn:Hd; [|by wp_step].
  cbv zeta. wp_step. wp_step; [|done]. wp_step. wp_step; [|done].
  apply negb_true_iff, bool_decide_eq_false in H1.
  destruct (requires_corroboration d _) eqn:Hreq; cbn [negb]; [|by wp_step].
  destruct (ActiveRequestData.request r) as [req|] eqn:Hrq; [|done].
  apply wp_assoc, wp_bind. eapply wp_mono; [by apply corroborate_spec| |by intros e s' ->]; cbn beta.
  intros x s' (->&Hnew&->). cbn [fst snd] in *. wp_step. wp_step.
  destruct (has_enough_corroborations _ s).
  - unfold as_active_tx. cbn. rewrite Hrq. wp_step. apply (wp_ret _ _ _ _).
    apply finalize_state_ok. split; [done|]. by rewrite Hr; cbn; rewrite Hrq.
  - apply (save_active_request_ok r); [done..|]. constructor; cbn; rewrite ?Hrq; done.
Qed.

(** ** Settings, and the events of Ethereum *)

Lemma remove_active_request_ok : maintains I remove_active_request_impl.
Proof.
  intros s Hs. unfold remove_active_request_impl. wp_step. wp_step. wp_step. wp_step; [|done].
  destruct (ActiveRequestData.request a) as [req|req] eqn:Hreq.
  - pose proof (sending_steady req) as HJ.
    assert (sending req s) as Hs' by (split; [done|rewrite H0; cbn; by rewrite Hreq]).
    eapply maintains_then; [|exact Hs'|by intros ? [? _]|clear s Hs H0 Hs'; intros ? s Hs]; [by maintains_tac|].
    wp_step. eapply wp_mono; [eapply (re_next_send I HI); apply Hs| |done].
    intros [] s' Hs'. by apply bridge_event_ok.
  - apply wp_swap_ret, wp_bind.
    eapply wp_mono; [apply (re_next_lower I HI s req None); [done|by rewrite H0; cbn; rewrite Hreq|done]| |done].
    intros [] s' Hs'. by apply bridge_event_ok.
Qed.
Lemma clear_events_ok limit : maintains I (clear_events limit).
Proof. by apply upd_bridge_ok. Qed.
Hint Resolve remove_active_request_ok clear_events_ok : maintain.
Lemma set_admin_setting_ok origin value : maintains I (set_admin_setting origin value).
Proof.
  unfold set_admin_setting. apply maintains_bind; [maintains_tac|]. intros _.
  unfold bridge_get, bridge_modify. destruct value; [by maintains_tac..|].
  do 4 (apply maintains_bind; [by maintains_tac|intros _]). intros s Hs. wp_step. wp_step.
  destruct (active_request s) as [r|] eqn:Hr; [|by wp_step].
  destruct (ActiveRequestData.request r) eqn:Hrq; [|by wp_step].
  apply set_up_active_tx_ok; [done|]. by rewrite Hr; cbn; rewrite Hrq.
Qed.
Lemma process_ethereum_event_ok network e : maintains I (process_ethereum_event network e).
Proof.
  unfold process_ethereum_event, network_add_processed_event, add_processed_event, bridge_modify.
  pose proof (re_event I HI). maintains_tac.
Qed.
Hint Resolve process_ethereum_event_ok : maintain.
Lemma process_discovered_event_ok network active e :
  maintains I (process_discovered_event network active e).
Proof. unfold process_discovered_event. maintains_tac. Qed.
Hint Resolve process_discovered_event_ok : maintain.
Lemma submit_ethereum_events_ok origin author partition :
  maintains I (submit_ethereum_events origin author partition).
Proof.
  unfold submit_ethereum_events, process_ethereum_events_partition, advance_partition,
    take_additional_events, bridge_get, bridge_modify. maintains_tac.
Qed.
Lemma submit_latest_ethereum_block_ok origin author block :
  maintains I (submit_latest_ethereum_block origin author block).
Proof.
  unfold submit_latest_ethereum_block, take_additional_events, bridge_get, bridge_modify.
  maintains_tac.
Qed.
Lemma bridge_call_ok origin call : maintains I (bridge_call origin call).
Proof.
  destruct call; [apply add_confirmation_ok|apply add_eth_tx_hash_ok|apply add_corroboration_ok
    |apply submit_ethereum_events_ok|apply submit_latest_ethereum_block_ok|apply set_admin_setting_ok].
Qed.

End Respected.
End BridgeCalls.
