(* ===== verification/BridgeProps.v ===== *)
(** * The line of requests of the Ethereum bridge

    No call panics, and no request is stranded, reordered or duplicated: requests
    join the line at its back and leave it at its front.  The steps of the runtime
    around the bridge are a step relation, and the invariant holds in every state
    they reach. *)

From S2P Require Import Prelude Frames Slices Bytes EventTypes EventParsing EventDiscovery EthTypes.
From S2P Require Import RuntimeErrors NodeTypes BridgeTypes Avn BridgeExamples EthBridge BridgeEvents TokenManager.
From S2P Require Import BridgeInv AvnProps BridgeCalls.

Section BridgeProps.
Context `{BridgeConfig} {N : BridgeInterfaceNotification} `{!NotificationLaws N}.
Implicit Types (s : Runtime.t).

(** ** What every call does to the requests *)

(** The invariant, and that the requests of [s0] have only left from the front. *)
Section Line.
Variable s0 : Runtime.t.
Definition line s : Prop := bridge_ok s ∧ requests s `suffix_of` requests s0.

Lemma aside_requests s s' : aside s' = aside s → requests s' = requests s.
Proof. unfold aside, requests, queue, request_queue, active_request. by intros [= -> _ _ _ _]. Qed.
Lemma line_aside s s' : aside s' = aside s → line s → line s'.
Proof.
  intros Ha [Hs Hr]. split; [by eapply bridge_ok_aside|]. by rewrite (aside_requests _ _ Ha).
Qed.
Lemma aside_maintains_line {A} (m : Dispatch A) :
  leaves aside m → (∀ s, (m s).1 ≠ Panic) → maintains line m.
Proof.
  intros Hm Ht s Hs. specialize (Hm s). specialize (Ht s). unfold wp.
  destruct (m s) as [[a|e|] s']; cbn in *; [by eapply line_aside..|done].
Qed.
Lemma line_steady : steady line.
Proof.
  constructor.
  - intros s s' Ha _. by apply line_aside.
  - unfold requests_view. intros g s Hg [[V I B Q A] Hr]. pose proof (Hg (Runtime.bridge s)) as [= Ha Hq].
    split; [constructor|]; unfold requests, queue, request_queue, active_request, validators in *; cbn;
      by rewrite ?Ha, ?Hq.
  - intros i s [[V I B Q A] Hr]. split; [by constructor|done].
  - intros. apply aside_maintains_line; [apply process_result_aside|apply process_result_total].
Qed.
Lemma carried_always : carried (λ _, True) (λ _, True).
Proof.
  constructor; [done..| |].
  - intros id caller s _. generalize (process_result_total id caller false s). unfold wp.
    by destruct (process_result _ _ _ s) as [[] ?].
  - intros req _ _ s _.
    generalize (process_lower_proof_result_total (LowerProofRequestData.lower_id req)
                  (LowerProofRequestData.caller_id req) None s). unfold wp.
    by destruct (process_lower_proof_result _ _ _ s) as [[] ?].
Qed.
Lemma moved_on_suffix s q s' : moved_on s q s' → requests s' `suffix_of` q.
Proof. intros (d&->&_). by exists d. Qed.
Lemma process_next_request_line : maintains line process_next_request.
Proof.
  intros s [[V I B Q A] Hr].
  eapply wp_mono; [apply (process_next_request_spec _ _ carried_always); auto; by apply Forall_true| |done].
  intros [] s' (Hs&Hm%moved_on_suffix&_). split; [done|].
  etrans; [exact Hm|]. etrans; [|exact Hr]. by apply suffix_app_r.
Qed.
Lemma line_respected : respected line.
Proof.
  constructor.
  - apply line_steady.
  - by intros s [? _].
  - intros. apply aside_maintains_line;
      [apply on_incoming_event_processed_aside|apply on_incoming_event_processed_total].
  - intros s r r' [[V I B Q A] Hr] Ha Hreq Hok. split.
    + constructor; [done..|]. cbn. by intros x [= <-].
    + unfold requests in *. cbn. rewrite Ha in Hr. cbn in Hr. by rewrite Hreq.
  - intros s req Hs _. by apply process_next_request_line.
  - intros s req data Hs _ _. eapply maintains_bind; [| |done]; [|intros _; apply process_next_request_line].
    apply maintains_try, aside_maintains_line;
      [apply process_lower_proof_result_aside|apply process_lower_proof_result_total].
Qed.
End Line.

(** A computation that keeps the line keeps the invariant and the order. *)
Lemma line_run {A} (m : Dispatch A) s :
  (∀ s0, maintains (line s0) m) → bridge_ok s →
  (m s).1 ≠ Panic ∧ bridge_ok (m s).2 ∧ requests (m s).2 `suffix_of` requests s.
Proof.
  intros Hm Hs. specialize (Hm s s (conj Hs (reflexivity _))). unfold wp, line in Hm.
  by destruct (m s) as [[] ?].
Qed.

(** ** Invariants of the pallets behind the bridge *)

(** [K] is about the storage of the other pallets, and what they are told keeps it. *)
Record apart (K : Runtime.t → Prop) : Prop := {
  apart_same s s' : pallets s' = pallets s → K s → K s';
  apart_result id caller ok : maintains K (process_result id caller ok);
  apart_lower id caller data : maintains K (process_lower_proof_result id caller data);
  apart_event event : maintains K (on_incoming_event_processed event);
}.
Section Apart.
Variable K : Runtime.t → Prop.
Hypothesis HK : apart K.

Lemma apart_carried : carried (λ _, True) K.
Proof.
  constructor.
  - intros r s. by apply (apart_same K HK).
  - intros q s. by apply (apart_same K HK).
  - intros i s. by apply (apart_same K HK).
  - intros. apply (apart_result K HK).
  - intros. apply (apart_lower K HK).
Qed.
Lemma process_next_request_apart : maintains (λ s, bridge_ok s ∧ K s) process_next_request.
Proof.
  intros s [[V I B Q A] Hk].
  eapply wp_mono; [apply (process_next_request_spec _ _ apart_carried); auto; by apply Forall_true| |done].
  by intros [] s' (Hs&_&?).
Qed.
Lemma maintains_both {A} (I J : Runtime.t → Prop) (m : Dispatch A) :
  maintains I m → maintains J m → maintains (λ s, I s ∧ J s) m.
Proof.
  intros HI HJ s [Hi Hj]. specialize (HI s Hi). specialize (HJ s Hj). unfold wp in *.
  by destruct (m s) as [[] ?].
Qed.
Lemma apart_respected : respected (λ s, bridge_ok s ∧ K s).
Proof.
  constructor; [constructor|..].
  - intros s s' Ha Hp [Hs Hk]. split; [by eapply bridge_ok_aside|by eapply apart_same].
  - intros g s Hg [Hs Hk]. split; [|by eapply apart_same; [..|exact Hk]].
    apply (steady_upd _ (line_steady s)); [done|by split].
  - intros i s [Hs Hk]. split; [|by eapply apart_same; [..|exact Hk]].
    apply (steady_primary _ (line_steady s)). by split.
  - intros. apply maintains_both; [apply process_result_ok|by apply apart_result].
  - by intros s [? _].
  - intros. apply maintains_both; [|by apply apart_event].
    apply aside_maintains; [apply on_incoming_event_processed_aside|apply on_incoming_event_processed_total].
  - intros s r r' [Hs Hk] Ha Hreq Hok. split; [|by eapply apart_same; [..|exact Hk]].
    by apply (re_again _ (line_respected s) s r).
  - intros s req Hs _. by apply process_next_request_apart.
  - intros s req data Hs _ _. eapply maintains_bind; [| |done];
      [|intros _; apply process_next_request_apart].
    apply maintains_try, maintains_both; [|by apply apart_lower].
    apply aside_maintains; [apply process_lower_proof_result_aside|apply process_lower_proof_result_total].
Qed.
End Apart.

(** ** New requests *)

(** What [publish] relies on: whatever the number of the transaction, its hash can
    be computed without a panic. *)
Definition publishable (function_name : bytes) (params : list (bytes * bytes)) : Prop :=
  ∀ tx_id caller_id, send_ok (SendRequestData.mk tx_id function_name params caller_id).
Definition unmoved s s' : Prop := bridge_ok s' ∧ requests s' = requests s.
Definition arrived (r : Request.t) s s' : Prop := bridge_ok s' ∧ requests s' = requests s ++ [r].

Lemma queue_request_arrived (r : Request.t) s :
  bridge_ok s → request_ok r → active_request s ≠ None →
  wp (queue_request r) s (λ _ s', arrived r s s') (λ _ s', unmoved s s').
Proof.
  intros Hs Hr Ha. pose proof Hs as [V I B Q A]. unfold queue_request. wp_step. wp_step.
  fold (queue s). case_bool_decide as Hl; [|by apply wp_fail].
  apply wp_modify. split; [|by unfold requests; rewrite <- app_assoc].
  constructor; [done|done| |by apply Forall_app; auto|done].
  unfold queue, request_queue in *. cbn. rewrite length_app. cbn. lia.
Qed.
Lemma idle_requests s : bridge_ok s → active_request s = None → requests s = [] ∧ queue s = [].
Proof. intros [_ I _ _ _] Ha. unfold requests. by rewrite Ha, I. Qed.
Lemma set_up_active_tx_arrived req replay s :
  bridge_ok s → send_ok req → active_request s = None →
  wp (set_up_active_tx req replay) s
    (λ _ s', arrived (Request.Send req) s s') (λ _ s', unmoved s s').
Proof.
  intros Hs Hr Ha. destruct (idle_requests s Hs Ha) as [Hreq Hq]. pose proof Hs as [V I B Q A].
  eapply wp_mono; [by apply set_up_active_tx_spec| |by intros e s' [-> _]]; cbn beta.
  intros [] s' Hset. split; [by eapply set_up_from_ok|].
  destruct Hset as (i&msg&sender&expiry&->&_). rewrite Hreq. unfold requests. cbn. by f_equal.
Qed.
Lemma add_new_lower_proof_request_arrived lower_id params caller_id s :
  bridge_ok s →
  wp (add_new_lower_proof_request lower_id params caller_id) s
    (λ _ s', arrived (Request.LowerProof (LowerProofRequestData.mk lower_id params caller_id)) s s')
    (λ _ s', unmoved s s').
Proof.
  intros Hs. pose proof Hs as [V I B Q A]. unfold add_new_lower_proof_request. wp_step.
  apply wp_bridge_result; [apply bounded_no_panic| |done]. intros c [-> _]%bounded_Ok. wp_step. wp_step.
  destruct (active_request s) as [r|] eqn:Hr; [by apply queue_request_arrived; [| |rewrite Hr]|].
  destruct (idle_requests s Hs Hr) as [Hreq Hq].
  eapply wp_mono; [apply set_up_active_lower_proof_spec| |by intros e s' [-> _]]; cbn beta.
  intros [] s' [msg ->]. split; [by apply set_up_lower_ok|]. rewrite Hreq.
  unfold requests. cbn. by f_equal.
Qed.
Lemma bridge_event_spec e s Q (R : DispatchError → Runtime.t → Prop) :
  (∀ s', aside s' = aside s → Runtime.tokens s' = Runtime.tokens s → Q () s') →
  wp (bridge_event e) s Q R.
Proof. intros HQ. apply wp_modify. by apply HQ. Qed.
Lemma arrived_aside r s s' s'' : aside s'' = aside s' → arrived r s s' → arrived r s s''.
Proof.
  intros Ha [Hs Hr]. split; [by eapply bridge_ok_aside|]. by rewrite (aside_requests _ _ Ha).
Qed.
Lemma generate_lower_proof_arrived lower_id params caller_id s :
  bridge_ok s →
  wp (generate_lower_proof lower_id params caller_id) s
    (λ _ s', arrived (Request.LowerProof (LowerProofRequestData.mk lower_id params caller_id)) s s')
    (λ _ s', unmoved s s').
Proof.
  intros Hs. unfold generate_lower_proof. wp_step.
  eapply wp_mono; [by apply add_new_lower_proof_request_arrived| |done]. intros [] s' Hs'.
  apply bridge_event_spec. intros s'' Ha _. by eapply arrived_aside.
Qed.
Lemma use_next_tx_id_unmoved s :
  bridge_ok s → wp use_next_tx_id s (λ _ s', unmoved s s') (λ _ _, False).
Proof.
  intros Hs. unfold use_next_tx_id. do 3 wp_step. apply wp_modify. wp_step. split; [|done].
  destruct Hs as [V I B Q A]. by constructor.
Qed.
Lemma arrived_unmoved r s s' s'' : unmoved s s' → arrived r s' s'' → arrived r s s''.
Proof. intros [_ Hu] [? Hr]. split; [done|]. by rewrite Hr, Hu. Qed.
Lemma unmoved_trans s s' s'' : unmoved s s' → unmoved s' s'' → unmoved s s''.
Proof. intros [_ Hu] [? Hr]. split; [done|]. by rewrite Hr, Hu. Qed.
Lemma add_new_send_request_arrived function_name params caller_id s :
  bridge_ok s → publishable function_name params →
  wp (add_new_send_request function_name params caller_id) s
    (λ tx_id s', arrived (Request.Send (SendRequestData.mk tx_id function_name params caller_id)) s s')
    (λ _ s', unmoved s s').
Proof.
  intros Hs Hp. unfold add_new_send_request. wp_step. wp_step; [|done]. wp_step. wp_step; [|done].
  wp_step. eapply wp_mono; [by apply use_next_tx_id_unmoved| |done]. cbn beta. intros tx_id s1 Hs1.
  wp_step. apply wp_bridge_result; [apply bounded_no_panic| |done]. intros f [-> _]%bounded_Ok. wp_step.
  apply wp_bridge_result; [apply bound_params_no_panic| |done]. intros ps [-> _]%bound_params_Ok.
  wp_step. apply wp_bridge_result; [apply bounded_no_panic| |done]. intros c [-> _]%bounded_Ok.
  wp_step. wp_step. wp_step. pose proof Hs1 as [Hok _]. destruct (active_request s1) as [r|] eqn:Hr.
  - eapply wp_mono; [apply queue_request_arrived; [done|apply Hp|by rewrite Hr]| |];
      cbn beta; [intros [] s2 Hs2; wp_step; by eapply arrived_unmoved|].
    intros e s2 Hs2. by eapply unmoved_trans.
  - eapply wp_mono; [apply set_up_active_tx_arrived; [done|apply Hp|done]| |];
      cbn beta; [intros [] s2 Hs2; wp_step; by eapply arrived_unmoved|].
    intros e s2 Hs2. by eapply unmoved_trans.
Qed.
Lemma publish_arrived function_name params caller_id s :
  bridge_ok s → publishable function_name params →
  wp (publish function_name params caller_id) s
    (λ tx_id s', arrived (Request.Send (SendRequestData.mk tx_id function_name params caller_id)) s s')
    (λ _ s', unmoved s s').
Proof.
  intros Hs Hp. unfold publish. wp_step. wp_step.
  eapply wp_mono; [by apply add_new_send_request_arrived| |]; cbn beta.
  - intros tx_id s' Hs'. wp_step. apply bridge_event_spec. intros s'' Ha _. wp_step.
    by eapply arrived_aside.
  - intros e s' Hs'. destruct e; by wp_step.
Qed.

(** ** The bridge in the runtime *)

(** The calls of the bridge, the requests of the other pallets, and anything else
    that leaves the storage of the bridge alone: blocks, sessions, other calls. *)
Inductive bridge_step : Runtime.t → Runtime.t → Prop :=
  | step_call origin call s : bridge_step s (transactional (bridge_call origin call) s).2
  | step_unsigned call s : bridge_step s (apply_unsigned call s).2
  | step_publish function_name params caller_id s :
      publishable function_name params →
      bridge_step s (publish function_name params caller_id s).2
  | step_lower lower_id params caller_id s :
      bridge_step s (generate_lower_proof lower_id params caller_id s).2
  | step_others s s' :
      Runtime.bridge s' = Runtime.bridge s → (length (validators s') ≤ 255)%nat → bridge_step s s'.
Definition bridge_start s : Prop :=
  active_request s = None ∧ request_queue s = None ∧ (length (validators s) ≤ 255)%nat.

Lemma bridge_start_ok s : bridge_start s → bridge_ok s.
Proof.
  intros (Ha&Hq&Hv). constructor; unfold queue; rewrite ?Ha, ?Hq; cbn; try done; lia.
Qed.
Lemma bridge_call_safe origin call s :
  bridge_ok s → bridge_ok (transactional (bridge_call origin call) s).2.
Proof.
  intros Hs. by apply line_run; [intros; apply maintains_transactional, bridge_call_ok, line_respected|].
Qed.
Lemma bridge_step_ok s s' : bridge_step s s' → bridge_ok s → bridge_ok s'.
Proof.
  destruct 1 as [origin call s|call s|f params caller s Hp|id params caller s|s s' Hb Hv]; intros Hs.
  - by apply bridge_call_safe.
  - unfold apply_unsigned. by destruct (validate_unsigned call s); [|apply bridge_call_safe].
  - generalize (publish_arrived f params caller s Hs Hp). unfold wp.
    by destruct (publish _ _ _ s) as [[] s']; [intros [? _]..|].
  - generalize (generate_lower_proof_arrived id params caller s Hs). unfold wp.
    by destruct (generate_lower_proof _ _ _ s) as [[] s']; [intros [? _]..|].
  - destruct Hs as [V I B Q A].
    constructor; [done|..]; unfold queue, request_queue, active_request in *; by rewrite Hb.
Qed.


(** C14: requests are served in the order in which they were accepted: an accepted
    request joins the line of the active and the queued ones at its back, whatever
    is refused leaves the line as it was, and a call on the bridge takes requests
    from the front only. *)
Theorem requests_in_order s :
  bridge_ok s →
  (∀ origin call, requests (bridge_call origin call s).2 `suffix_of` requests s) ∧
  (∀ function_name params caller_id, publishable function_name params →
     match publish function_name params caller_id s with
     | (Ok tx_id, s') => requests s' = requests s ++
         [Request.Send (SendRequestData.mk tx_id function_name params caller_id)]
     | (Err _, s') => requests s' = requests s
     | (Panic, _) => False
     end) ∧
  (∀ lower_id params caller_id,
     match generate_lower_proof lower_id params caller_id s with
     | (Ok _, s') => requests s' = requests s ++
         [Request.LowerProof (LowerProofRequestData.mk lower_id params caller_id)]
     | (Err _, s') => requests s' = requests s
     | (Panic, _) => False
     end).
Proof.
  intros Hs. split; [|split].
  - intros origin call. by apply line_run; [intros; apply bridge_call_ok, line_respected|].
  - intros f params caller Hp. pose proof (publish_arrived f params caller s Hs Hp) as Hw. unfold wp in Hw.
    destruct (publish _ _ _ s) as [[] s']; [apply Hw|apply Hw|done].
  - intros id params caller. pose proof (generate_lower_proof_arrived id params caller s Hs) as Hw.
    unfold wp in Hw. destruct (generate_lower_proof _ _ _ s) as [[] s']; [apply Hw|apply Hw|done].
Qed.
End BridgeProps.

(** ** An example *)

Section Witnesses.
#[local] Existing Instance demo_config.
#[local] Existing Instance token_notification.

Lemma demo_publishable : publishable (b "publishRoot") [(b "bytes32", replicate 32 1%N)].
Proof. intros tx_id caller. by apply publish_root_ok. Qed.
(** A root is published, and a proof of a lower asked for behind it. *)
Definition demo_published : Runtime.t :=
  (publish (b "publishRoot") [(b "bytes32", replicate 32 1%N)] (b "summary") demo_state).2.
Definition demo_line : Runtime.t :=
  (generate_lower_proof 3 (replicate 116 2%N) (b "token_manager") demo_published).2.
Lemma demo_line_reached : rtc bridge_step demo_state demo_line.
Proof.
  eapply rtc_l; [exact (step_publish _ _ (b "summary") demo_state demo_publishable)|].
  eapply rtc_once, step_lower.
Qed.
Lemma demo_start : bridge_start demo_state.
Proof. split_and!; [done|done|cbn; lia]. Qed.
Lemma demo_line_ok : bridge_ok demo_line.
Proof.
  eapply bridge_step_ok; [apply step_lower|].
  eapply bridge_step_ok; [exact (step_publish _ _ (b "summary") demo_state demo_publishable)|]. apply bridge_start_ok, demo_start.
Qed.
Lemma requests_in_order_witness :
  requests (bridge_call NoOrigin (Call_add_corroboration 0 true true (Validator.mk 3 13) 0 13%N)
              demo_line).2 `suffix_of` requests demo_line.
Proof. apply (requests_in_order demo_line demo_line_ok). Defined.
End Witnesses.
