(* ===== verification/VoteProps.v ===== *)
(** * Votes on the events of Ethereum

    Where the bridge starts to look for events, when it processes a partition of
    them, and that it processes no event twice. *)

From S2P Require Import Prelude Frames Slices Bytes EventTypes EventParsing EventDiscovery EthTypes.
From S2P Require Import RuntimeErrors NodeTypes BridgeTypes Avn BridgeExamples AvnProps EthBridge BridgeEvents TokenManager.
From S2P Require Import BridgeInv BridgeCalls BridgeProps.

(** ** The first block *)

(** The votes for blocks up to [n], and below it. *)
Definition votes_upto (n : Z) (l : list (Z * nat)) : Z :=
  Z.of_nat (sum_list (snd <$> filter (λ x, x.1 <= n) l)).
Definition votes_below (n : Z) (l : list (Z * nat)) : Z :=
  Z.of_nat (sum_list (snd <$> filter (λ x, x.1 < n) l)).
Lemma filter_none {A} (P : A → Prop) `{!∀ x, Decision (P x)} l :
  Forall (λ x, ¬ P x) l → filter P l = [].
Proof. induction 1 as [|x l Hx _ IH]; [done|]. by rewrite filter_cons_False. Qed.
Lemma votes_split pre n (c : nat) post :
  StronglySorted (λ x y : Z * nat, x.1 < y.1) (pre ++ (n, c) :: post) →
  votes_below n (pre ++ (n, c) :: post) = Z.of_nat (total_votes_count pre) ∧
  votes_upto n (pre ++ (n, c) :: post) = Z.of_nat (total_votes_count pre) + Z.of_nat c.
Proof.
  intros Hs. apply StronglySorted_app in Hs as (Hpre&_&Hpost).
  apply StronglySorted_cons in Hpost as [Hpost _].
  assert (Forall (λ x : Z * nat, x.1 < n) pre) as Hlt.
  { apply Forall_forall. intros x Hx. apply (Hpre x (n, c)); [done|by left]. }
  unfold votes_below, votes_upto, total_votes_count. split.
  - rewrite filter_app, (filter_all _ pre), filter_cons_False, filter_none;
      [by rewrite app_nil_r| |cbn; lia|by apply Forall_forall].
    eapply Forall_impl; [exact Hpost|]. cbn. lia.
  - rewrite filter_app, (filter_all _ pre), filter_cons_True, filter_none, fmap_app; [| |cbn; lia|].
    + rewrite sum_list_with_app. cbn. lia.
    + eapply Forall_impl; [exact Hpost|]. cbn. lia.
    + intros x Hx. rewrite Forall_forall in Hlt. specialize (Hlt x Hx). cbn in *. lia.
Qed.

Lemma cmp_submitted_total x y : cmp_submitted x y = Gt → cmp_submitted y x ≠ Gt.
Proof.
  unfold cmp_submitted. destruct (Z.compare_spec x.1 y.1), (Z.compare_spec y.1 x.1); try done; try lia.
  rewrite Nat.compare_gt_iff, Nat.compare_gt_iff. lia.
Qed.
Lemma cmp_submitted_le x y : cmp_submitted x y ≠ Gt ↔ x.1 < y.1 ∨ x.1 = y.1 ∧ (x.2 ≤ y.2)%nat.
Proof.
  unfold cmp_submitted. destruct (Z.compare_spec x.1 y.1); [rewrite Nat.compare_le_iff; lia|..];
    (split; [intros; try lia; done|intros; try lia; done]).
Qed.
Lemma cmp_submitted_trans x y z :
  cmp_submitted x y ≠ Gt → cmp_submitted y z ≠ Gt → cmp_submitted x z ≠ Gt.
Proof. rewrite !cmp_submitted_le. lia. Qed.
(** The submitted blocks are in ascending order, each once. *)
Lemma submitted_blocks_perm m :
  submitted_blocks m ≡ₚ (λ bv : Z * gset AccountId, (bv.1, size bv.2)) <$> map_to_list m.
Proof. apply sort_by_perm. Qed.
Lemma submitted_blocks_sorted m : StronglySorted (λ x y : Z * nat, x.1 < y.1) (submitted_blocks m).
Proof.
  assert (NoDup (fst <$> submitted_blocks m)) as Hn.
  { rewrite submitted_blocks_perm, <- list_fmap_compose. apply NoDup_fst_map_to_list. }
  pose proof (sort_by_sorted _ cmp_submitted_total cmp_submitted_trans
    ((λ bv : Z * gset AccountId, (bv.1, size bv.2)) <$> map_to_list m)) as Hs.
  fold (submitted_blocks m) in Hs. induction Hs as [|x l _ IH Hx]; [constructor|].
  cbn in Hn. apply NoDup_cons in Hn as [Hnin Hn]. constructor; [by apply IH|].
  rewrite Forall_forall in *. intros y Hy. specialize (Hx y Hy). apply cmp_submitted_le in Hx as [?|[He _]]; [done|].
  destruct Hnin. rewrite He. by apply list_elem_of_fmap_2.
Qed.
Lemma select_range_spec l T q n :
  1 <= q → T <= Z.of_nat (total_votes_count l) → 0 <= T → l ≠ [] →
  ∃ pre b c post, l = pre ++ (b, c) :: post ∧ select_range l T q n = EthBlockRange.mk b n ∧
    (pre = [] ∨ Z.of_nat (total_votes_count pre) <= T - q) ∧
    T - q < Z.of_nat (total_votes_count pre) + Z.of_nat c.
Proof.
  revert T. induction l as [|[b c] l IH]; intros T Hq Ht H0 Hne; [done|]. cbn [select_range].
  assert (T ⊖ Z.of_nat c = Z.max 0 (T - Z.of_nat c)) as Hsub by reflexivity. rewrite Hsub.
  unfold total_votes_count in Ht. cbn in Ht. fold (total_votes_count l) in Ht.
  case_bool_decide as Hlt.
  - exists [], b, c, l. split_and!; [done|done|by left|cbn; lia].
  - destruct (IH (Z.max 0 (T - Z.of_nat c))) as (pre&b'&c'&post&->&Hsel&Hpre&Hc'); [done|lia|lia| |].
    { intros ->. cbn in Ht. lia. }
    exists ((b, c) :: pre), b', c', post. unfold total_votes_count in *. cbn.
    split_and!; [done|done|right; destruct Hpre as [->|?]; cbn; lia|lia].
Qed.

Section VoteProps.
Context `{BridgeConfig} `{!QuorumLaws Quorum}.
Implicit Types (s : Runtime.t).

Definition submitted s : gmap Z (gset AccountId) := BridgeStorage.SubmittedEthBlocks (Runtime.bridge s).
Definition active_range s : option ActiveEthRange.t := BridgeStorage.ActiveEthereumRange (Runtime.bridge s).
Lemma quorums_range s :
  (1 ≤ length (validators s) ≤ 256)%nat → 1 <= get_quorum s ∧ 0 <= get_supermajority_quorum s.
Proof.
  intros Hn. unfold get_quorum, get_supermajority_quorum, total_num_of_validators.
  rewrite wrap_small by (unfold u32_max; lia).
  pose proof (required_for_range (Z.of_nat (length (validators s)))).
  pose proof (required_for_supermajority_range (Z.of_nat (length (validators s)))). lia.
Qed.

(** The first range of blocks is chosen by the votes.  Each vote is for the
    start of the range of the block an author has seen; once there are as many
    votes as the supermajority [T], with the quorum [q], the range starts at the
    least block such that more than [T - q] votes are for it or a lower one.  It
    is always a block some author voted for. *)
Theorem latest_block_chosen author block s s' :
  (1 ≤ length (validators s) ≤ 256)%nat →
  submit_latest_ethereum_block NoOrigin author block s = (Ok (), s') →
  let range_size := BridgeStorage.EthBlockRangeSize (Runtime.bridge s) in
  let T := get_supermajority_quorum s in
  let q := get_quorum s in
  ∃ first votes,
    compute_start_block_from_finalised_block_number block range_size = Some first ∧
    set_try_insert MaximumValidatorsBound (Validator.account_id author)
      (unwrap_or ∅ (submitted s !! first)) = Some votes ∧
    let blocks := <[first := votes]> (submitted s) in
    let l := submitted_blocks blocks in
    if bool_decide (T <= Z.of_nat (total_votes_count l)) then
      submitted s' = ∅ ∧
      ∃ start additional,
        active_range s' = Some (ActiveEthRange.mk (EthBlockRange.mk start range_size) 0
                                  ProcessedEventsHandler_get additional) ∧
        is_Some (blocks !! start) ∧
        T - q < votes_upto start l ∧ votes_below start l <= Z.max 0 (T - q)
    else submitted s' = blocks ∧ active_range s' = None.
Proof.
  intros Hn Hrun range_size T q. destruct (quorums_range s Hn) as [Hq HT].
  unfold submit_latest_ethereum_block, bridge_get, bridge_modify, take_additional_events, bridge_get,
    bridge_modify in Hrun. cbn [ensure_none] in Hrun. m_inv.
  match goal with H3 : _ = Some ?f, H1 : set_try_insert _ _ _ = Some ?v, Hif : (if ?c then _ else _) _ = _ |- _ =>
    exists f, v; split; [exact H3|]; split; [exact H1|]; cbv zeta;
    set (l := submitted_blocks (<[f := v]> (submitted s)));
    change c with (bool_decide (T <= Z.of_nat (total_votes_count l))) in Hif; rename Hif into Hrun
  end.
  destruct (bool_decide (T <= Z.of_nat (total_votes_count l))) eqn:Hc; m_inv.
  - apply bool_decide_eq_true in Hc. split; [done|].
    destruct (select_range_spec l T q range_size) as (pre&start&c&post&Hl&Hsel&Hpre&Hup); [done..| |].
    { intros Hl. assert (is_Some ((<[x15 := x19]> (submitted s)) !! x15)) as [v Hv] by by rewrite lookup_insert_eq.
      apply elem_of_map_to_list in Hv.
      assert ((x15, size v) ∈ l) as Hin; [|by rewrite Hl in Hin; apply elem_of_nil in Hin].
      unfold l. rewrite submitted_blocks_perm. by apply (list_elem_of_fmap_2 (λ bv, (bv.1, size bv.2)) _ (x15, v)). }
    pose proof (submitted_blocks_sorted (<[x15 := x19]> (submitted s))) as Hs. fold l in Hs. rewrite Hl in Hs.
    destruct (votes_split _ _ _ _ Hs) as [Hb Hu]. rewrite <- Hl in Hb, Hu.
    eexists start, _. split; [|split; [|split]].
    + unfold active_range. cbn. do 2 f_equal. exact Hsel.
    + assert ((start, c) ∈ l) as Hin by (rewrite Hl; apply elem_of_app; right; by left).
      unfold l in Hin. rewrite submitted_blocks_perm in Hin.
      apply list_elem_of_fmap in Hin as ([k v]&[= -> ->]&Hkv). apply elem_of_map_to_list in Hkv. by eexists.
    + rewrite Hu. exact Hup.
    + rewrite Hb. destruct Hpre as [->|?]; [cbn|]; lia.
  - split; [done|]. apply bool_decide_eq_true in H4. exact H4.
Qed.
End VoteProps.

(** ** Events are processed once *)

Section Processed.
Context `{BridgeConfig} {N : BridgeInterfaceNotification} `{!NotificationLaws N}.
Implicit Types (s : Runtime.t).

Definition processed s : gmap H256 EthProcessedEvent.t :=
  BridgeStorage.ProcessedEthereumEvents (Runtime.bridge s).
Definition grows {A} (m : Dispatch A) : Prop := ∀ s, processed s ⊆ processed (m s).2.

Lemma grows_leaves {A} (m : Dispatch A) : leaves processed m → grows m.
Proof. intros Hm s. by rewrite Hm. Qed.
Lemma grows_bind {A B} (m : Dispatch A) (k : A → Dispatch B) :
  grows m → (∀ a, grows (k a)) → grows (m ≫= k).
Proof.
  intros Hm Hk s. specialize (Hm s). unfold mbind, M_bind.
  destruct (m s) as [[a|e|] s']; cbn in *; [|done..]. etrans; [exact Hm|apply Hk].
Qed.
Lemma grows_try {A} (m : Dispatch A) : grows m → grows (try m).
Proof. intros Hm s. specialize (Hm s). unfold try. by destruct (m s) as [[] ?]. Qed.
Lemma grows_for_each {A} (f : A → Dispatch unit) l : (∀ a, grows (f a)) → grows (for_each f l).
Proof. intros Hf. induction l as [|a l IH]; [by intros s|]. cbn. by apply grows_bind. Qed.

Lemma aside_processed {A} (m : Dispatch A) : leaves aside m → leaves processed m.
Proof. intros Hm s. specialize (Hm s). revert Hm. unfold aside, processed. by intros [= -> _ _ _ _]. Qed.
Lemma process_result_processed id c ok : leaves processed (process_result id c ok).
Proof. apply aside_processed, process_result_aside. Qed.
Lemma process_lower_proof_result_processed id c d : leaves processed (process_lower_proof_result id c d).
Proof. apply aside_processed, process_lower_proof_result_aside. Qed.
Lemma panic_processed {A} : leaves processed (panic : Dispatch A).
Proof. done. Qed.
#[local] Hint Resolve process_result_processed process_lower_proof_result_processed panic_processed : frame.
Lemma set_up_active_tx_processed req replay : leaves processed (set_up_active_tx req replay).
Proof.
  unfold set_up_active_tx, bridge_result, run, assign_sender, advance_primary_validator_for_sending,
    put_primary, nth_account, put_active_request. leaves_tac.
Qed.
#[local] Hint Resolve set_up_active_tx_processed : frame.
Lemma process_next_request_processed : leaves processed process_next_request.
Proof.
  unfold process_next_request. apply leaves_bind; [leaves_tac|]. intros q.
  generalize (S (length (unwrap_or [] q))). intros fuel.
  induction fuel as [|fuel IH]; cbn [process_next_request_fuel]; [done|].
  unfold dequeue_request, put_active_request, put_request_queue, set_up_active_lower_proof, run,
    put_active_request. leaves_tac; auto with frame.
Qed.
#[local] Hint Resolve process_next_request_processed : frame.
Lemma report_processed a l t : leaves processed (create_and_report_bridge_offence a l t).
Proof. unfold create_and_report_bridge_offence, bridge_event, deposit_event. leaves_tac. Qed.
#[local] Hint Resolve report_processed : frame.
Lemma other_calls_processed origin call :
  (∀ a p g, call ≠ Call_submit_ethereum_events a p g) → leaves processed (bridge_call origin call).
Proof.
  intros Hcall. destruct call; [..|by exfalso; eapply Hcall| |]; clear Hcall; cbn [bridge_call];
    unfold add_confirmation, add_eth_tx_hash, add_corroboration, corroborate_hash, corroborate_outcome,
      push_corroboration, bridge_result, finalize_state, replay_send_request, complete_transaction,
      report_challengers, submit_latest_ethereum_block, set_admin_setting, complete_lower_proof_request,
      save_active_request_to_storage, put_active_request, verify_signature, take_additional_events,
      remove_active_request_impl, clear_events, bridge_get, bridge_modify, bridge_event, deposit_event,
      ensure_none, ensure_root; leaves_tac.
Qed.

(** An event that is recorded is not processed; one that is processed was not
    recorded, and is afterwards. *)
Lemma process_ethereum_event_recorded network e s :
  is_Some (processed s !! EthEventId.transaction_hash (EthEvent.event_id e)) →
  process_ethereum_event network e s = (Err (EthBridge_ BridgeError.EventAlreadyProcessed), s).
Proof.
  intros Hp. unfold process_ethereum_event, network_processed_event_exists, processed_event_exists.
  unfold processed in Hp.
  unfold mbind at 1, M_bind, gets at 1. cbn [negb].
  destruct (EthBridgeInstance.is_valid (instance s)) eqn:Hi;
    [destruct (bool_decide (EthBridgeInstance.network (instance s) = network)) eqn:Hn|];
    cbn [andb negb].
  - rewrite bool_decide_true by done. done.
  - unfold network_add_processed_event, mbind, M_bind, try, gets, Prelude.ensure. cbn. rewrite Hi. cbn.
    by rewrite Hn.
  - unfold network_add_processed_event, mbind, M_bind, try, gets, Prelude.ensure. cbn. by rewrite Hi.
Qed.
Lemma network_add_processed_event_spec network id accepted s :
  wp (network_add_processed_event network id accepted) s
    (λ _ s', ∃ kind, processed s' =
       <[EthEventId.transaction_hash id := EthProcessedEvent.mk kind accepted]> (processed s))
    (λ _ s', s' = s).
Proof.
  unfold network_add_processed_event, add_processed_event, bridge_modify. repeat wp_step; try done.
  by eexists.
Qed.
Lemma process_ethereum_event_spec network e s :
  let tx := EthEventId.transaction_hash (EthEvent.event_id e) in
  wp (process_ethereum_event network e) s
    (λ _ s', processed s !! tx = None ∧
             ∃ kind, processed s' = <[tx := EthProcessedEvent.mk kind true]> (processed s))
    (λ _ s', s' = s).
Proof.
  intros tx. destruct (processed s !! tx) eqn:Hp.
  { unfold wp. by rewrite process_ethereum_event_recorded by (by eexists). }
  unfold process_ethereum_event. wp_step. wp_step. wp_step. wp_step; [|done]. wp_step. wp_step.
  eapply wp_mono; [apply network_add_processed_event_spec| |]; cbn beta; [|by intros ? ? ->; repeat wp_step].
  intros [] s1 [kind Hs1]. wp_step. wp_step. wp_step. wp_step.
  pose proof (aside_processed _ (on_incoming_event_processed_aside e) s1) as Ha.
  pose proof (on_incoming_event_processed_total e s1) as Ht. unfold wp at 1.
  destruct (on_incoming_event_processed e s1) as [[u|err|] s2]; cbn in *; [..|done]; apply wp_modify;
    (split; [done|]); exists kind; rewrite <- Ha in Hs1; exact Hs1.
Qed.
Lemma process_ethereum_event_grows network e : grows (process_ethereum_event network e).
Proof.
  intros s. pose proof (process_ethereum_event_spec network e s) as Hw. unfold wp in Hw. revert Hw.
  destruct (process_ethereum_event network e s) as [[u|err|] s']; cbn; [|by intros ->|done].
  intros [Hn [kind ->]]. by apply insert_subseteq.
Qed.
Lemma submit_ethereum_events_grows origin author p : grows (submit_ethereum_events origin author p).
Proof.
  unfold submit_ethereum_events, process_ethereum_events_partition, bridge_get, bridge_modify.
  repeat lazymatch goal with
    | |- grows (for_each (process_discovered_event _ _) _ ≫= _) => fail
    | |- grows (_ ≫= _) =>
        apply grows_bind; [apply grows_leaves; unfold ensure_none; by leaves_tac|intros ?]
    end.
  case_bool_decide; [apply grows_leaves; by leaves_tac|].
  apply grows_bind; [|intros; apply grows_leaves; unfold advance_partition, take_additional_events,
    bridge_get, bridge_modify; by leaves_tac].
  apply grows_bind; [apply grows_leaves; by leaves_tac|intros _].
  apply grows_bind; [|intros; apply grows_leaves; by leaves_tac].
  apply grows_for_each. intros d. unfold process_discovered_event.
  destruct (ValidEvents.try_from _); [|by apply grows_leaves].
  destruct (negb _); [by apply grows_leaves|]. case_bool_decide; [by apply grows_leaves|].
  apply grows_bind; [apply grows_try, process_ethereum_event_grows|].
  intros [|]; by apply grows_leaves.
Qed.

(** C13: an event of Ethereum is processed at most once.  No call on the bridge takes
    an event off the record of processed ones; an event that is on the record,
    whatever the network and the kind, is refused and changes nothing; and one
    that is processed was not on the record, and is afterwards. *)
Theorem events_processed_once s :
  (∀ origin call, processed s ⊆ processed (transactional (bridge_call origin call) s).2) ∧
  (∀ network e,
     let tx := EthEventId.transaction_hash (EthEvent.event_id e) in
     match process_ethereum_event network e s with
     | (Ok _, s') => processed s !! tx = None ∧
         ∃ kind, processed s' = <[tx := EthProcessedEvent.mk kind true]> (processed s)
     | (Err _, s') => s' = s
     | (Panic, _) => False
     end) ∧
  (∀ network e, is_Some (processed s !! EthEventId.transaction_hash (EthEvent.event_id e)) →
     process_ethereum_event network e s = (Err (EthBridge_ BridgeError.EventAlreadyProcessed), s)).
Proof.
  split; [|split].
  - intros origin call. assert (grows (bridge_call origin call)) as Hg.
    { destruct call; try (apply grows_leaves, other_calls_processed; by intros).
      apply submit_ethereum_events_grows. }
    specialize (Hg s). unfold transactional. by destruct (bridge_call origin call s) as [[] ?].
  - intros network e. pose proof (process_ethereum_event_spec network e s) as Hw. unfold wp in Hw.
    by destruct (process_ethereum_event network e s) as [[] ?].
  - intros network e. apply process_ethereum_event_recorded.
Qed.
End Processed.

(** ** An example *)

Section Witnesses.
#[local] Existing Instance demo_config.
#[local] Existing Instance token_notification.

Definition demo_author : Validator.t := Validator.mk 1 11.
Definition demo_voted : Runtime.t := (submit_latest_ethereum_block NoOrigin demo_author 1000 demo_state).2.
Lemma demo_voted_run :
  submit_latest_ethereum_block NoOrigin demo_author 1000 demo_state = (Ok (), demo_voted).
Proof.
  assert ((submit_latest_ethereum_block NoOrigin demo_author 1000 demo_state).1 = Ok ()) as Hr
    by (vm_compute; reflexivity).
  unfold demo_voted. rewrite <- Hr. apply surjective_pairing.
Qed.
Lemma latest_block_chosen_witness :
  ∃ first, compute_start_block_from_finalised_block_number 1000 20 = Some first.
Proof.
  pose proof (latest_block_chosen (QuorumLaws0 := avn_quorum_laws) demo_author 1000 demo_state demo_voted
    ltac:(cbn; lia) demo_voted_run) as (first&_&Hfirst&_). exists first. exact Hfirst.
Defined.
Lemma events_processed_once_witness :
  processed demo_state ⊆
  processed (transactional (bridge_call Root (Call_set_admin_setting
    (AdminSettings.EthereumTransactionId 7))) demo_state).2.
Proof. apply (events_processed_once demo_state). Defined.
End Witnesses.
