(* ===== verification/SettleProps.v ===== *)
(** * Settling transactions

    A transaction is settled by the corroborations of enough distinct accounts
    other than its sender, and nothing else writes the settled transactions; a
    failed transaction whose hash is disputed is sent again instead. *)

From S2P Require Import Prelude Frames Slices Bytes EventTypes EventParsing EventDiscovery EthTypes.
From S2P Require Import RuntimeErrors NodeTypes BridgeTypes Avn BridgeExamples EthBridge BridgeEvents TokenManager.
From S2P Require Import BridgeInv BridgeCalls BridgeProps.

Section SettleProps.
Context `{BridgeConfig} {N : BridgeInterfaceNotification} `{!NotificationLaws N}.
Implicit Types (s : Runtime.t).

Definition settled s : gmap Z TransactionData.t := BridgeStorage.SettledTransactions (Runtime.bridge s).

(** ** What leaves the settled transactions alone *)

Lemma aside_settled {A} (m : Dispatch A) : leaves aside m → leaves settled m.
Proof. intros Hm s. specialize (Hm s). revert Hm. unfold aside, settled. by intros [= -> _ _ _ _]. Qed.
Lemma process_result_settled id c ok : leaves settled (process_result id c ok).
Proof. apply aside_settled, process_result_aside. Qed.
Lemma process_lower_proof_result_settled id c d : leaves settled (process_lower_proof_result id c d).
Proof. apply aside_settled, process_lower_proof_result_aside. Qed.
Lemma on_incoming_settled e : leaves settled (on_incoming_event_processed e).
Proof. apply aside_settled, on_incoming_event_processed_aside. Qed.
Lemma panic_settled {A} : leaves settled (panic : Dispatch A).
Proof. done. Qed.
#[local] Hint Resolve process_result_settled process_lower_proof_result_settled on_incoming_settled
  panic_settled : frame.
Lemma set_up_active_tx_settled req replay : leaves settled (set_up_active_tx req replay).
Proof.
  unfold set_up_active_tx, bridge_result, run, assign_sender, advance_primary_validator_for_sending,
    put_primary, nth_account, put_active_request. leaves_tac.
Qed.
Lemma set_up_active_lower_proof_settled req : leaves settled (set_up_active_lower_proof req).
Proof. unfold set_up_active_lower_proof, run, put_active_request. leaves_tac. Qed.
#[local] Hint Resolve set_up_active_tx_settled set_up_active_lower_proof_settled : frame.
Lemma process_next_request_settled : leaves settled process_next_request.
Proof.
  unfold process_next_request. apply leaves_bind; [leaves_tac|]. intros q. generalize (S (length (unwrap_or [] q))).
  intros fuel. induction fuel as [|fuel IH]; cbn [process_next_request_fuel]; [done|].
  unfold dequeue_request, put_active_request, put_request_queue. leaves_tac; auto with frame.
Qed.
#[local] Hint Resolve process_next_request_settled : frame.
Lemma report_settled a l t : leaves settled (create_and_report_bridge_offence a l t).
Proof. unfold create_and_report_bridge_offence, bridge_event, deposit_event. leaves_tac. Qed.
#[local] Hint Resolve report_settled : frame.
Lemma report_challengers_settled a l t : leaves settled (report_challengers a l t).
Proof. unfold report_challengers. leaves_tac. Qed.
#[local] Hint Resolve report_challengers_settled : frame.
Lemma save_settled r : leaves settled (save_active_request_to_storage r).
Proof. unfold save_active_request_to_storage, put_active_request. leaves_tac. Qed.
#[local] Hint Resolve save_settled : frame.
(** Every call but the corroborations. *)
Lemma other_calls_settled origin call :
  (∀ i o h a n g, call ≠ Call_add_corroboration i o h a n g) → leaves settled (bridge_call origin call).
Proof.
  intros Hcall. destruct call; [..|by exfalso; eapply Hcall| | |]; clear Hcall; cbn [bridge_call];
    unfold add_confirmation, add_eth_tx_hash, submit_ethereum_events, submit_latest_ethereum_block,
      set_admin_setting, complete_lower_proof_request, verify_signature,
      process_ethereum_events_partition, advance_partition, take_additional_events,
      process_discovered_event, process_ethereum_event, network_add_processed_event,
      add_processed_event, remove_active_request_impl, clear_events, bridge_get, bridge_modify,
      bridge_event, deposit_event, ensure_none, ensure_root; leaves_tac.
Qed.

(** ** Corroborations *)

Lemma wp_frame {A B V} (v : Runtime.t → V) (m : Dispatch A) (k : A → Dispatch B) s I Q :
  leaves v m → maintains I m → I s →
  (∀ a s', v s' = v s → I s' → wp (k a) s' Q (λ _ _, True)) → wp (m ≫= k) s Q (λ _ _, True).
Proof.
  intros Hv Hm Hs Hk. apply wp_bind. specialize (Hv s). specialize (Hm s Hs). unfold wp in Hm.
  unfold wp at 1. destruct (m s) as [[a|e|] s']; cbn in *; auto.
Qed.
(** The entry that settles a transaction; the hash is dropped when it is disputed. *)
Definition settlement (req : SendRequestData.t) (d : ActiveEthTransaction.t) (hash : H256)
    (success : bool) : TransactionData.t :=
  TransactionData.mk (SendRequestData.function_name req) (ActiveEthTransaction.eth_tx_params d)
    (ActiveEthTransaction.sender d) hash success.
Lemma maintains_any {A} (m : Dispatch A) : (∀ s, (m s).1 ≠ Panic) → maintains (λ _, True) m.
Proof. intros Hm s _. specialize (Hm s). unfold wp. by destruct (m s) as [[] ?]. Qed.
Lemma bridge_ok_steady : steady bridge_ok.
Proof.
  constructor.
  - intros s s' Ha _. by apply bridge_ok_aside.
  - intros g s Hg Hs. apply (steady_upd _ (line_steady s)); [done|]. by split.
  - intros i s Hs. apply (steady_primary _ (line_steady s)). by split.
  - apply process_result_ok.
Qed.
Lemma process_next_request_ok : maintains bridge_ok process_next_request.
Proof.
  intros s Hs. eapply wp_mono; [apply (process_next_request_line s); by split|by intros ? ? [? _]..].
Qed.
Lemma complete_transaction_settles tx success s :
  bridge_ok s →
  let req := ActiveTransactionData.request tx in
  let d := ActiveTransactionData.data tx in
  wp (complete_transaction tx success) s
    (λ _ s', ∃ hash, settled s' = <[SendRequestData.tx_id req := settlement req d hash success]> (settled s))
    (λ _ _, True).
Proof.
  intros Hs req d. unfold complete_transaction. pose proof bridge_ok_steady as HS. fold req d.
  eapply (wp_frame settled _ _ _ bridge_ok); [leaves_tac|apply maintains_try, process_result_ok|done|].
  intros r s1 Hs1 Hok1. rewrite <- Hs1. clear s Hs Hs1.
  eapply (wp_frame settled _ _ _ bridge_ok); [leaves_tac|destruct r; maintains_tac|done|].
  intros u s2 Hs2 Hok2. rewrite <- Hs2. clear s1 Hok1 Hs2. wp_step.
  assert (∀ hash s3, bridge_ok s3 → settled s3 = settled s2 →
    wp (modify (Runtime.upd_bridge (BridgeStorage.upd_SettledTransactions
          (insert (SendRequestData.tx_id req) (settlement req d hash success))));; process_next_request) s3
      (λ _ s', ∃ hash, settled s' =
         <[SendRequestData.tx_id req := settlement req d hash success]> (settled s2)) (λ _ _, True)) as Hgo.
  { intros hash s3 Hok3 Hs3. wp_step. apply wp_modify.
    set (s4 := Runtime.upd_bridge _ s3). assert (bridge_ok s4) as Hok4 by by apply HS.
    pose proof (process_next_request_settled s4) as Hn. pose proof (process_next_request_ok s4 Hok4) as Hw.
    unfold wp in *. destruct (process_next_request s4) as [[] s5]; [|done..]. cbn in Hn. exists hash.
    rewrite Hn, <- Hs3. done. }
  destruct success; (eapply (wp_frame settled _ _ _ bridge_ok);
    [leaves_tac|by apply report_challengers_ok|done|]); intros v s3 Hs3 Hok3.
  - wp_step. wp_step. wp_step. by destruct (has_enough_corroborations _ s3); apply Hgo.
  - wp_step. by apply Hgo.
Qed.
(** The corroborations with the last one of [author], of [r] in state [s]. *)
Definition corroborated_enough s (d' : ActiveEthTransaction.t) (succeeded : bool) : Prop :=
  NoDup (outcome_votes succeeded d') ∧
  (ActiveEthTransaction.sender d' ∉ outcome_votes succeeded d') ∧
  required_for (total_num_of_validators s -₃₂ 1) <= Z.of_nat (length (outcome_votes succeeded d')) ∧
  (succeeded = false →
   Z.of_nat (length (ActiveEthTransaction.invalid_tx_hash_corroborations d')) <
     required_for (total_num_of_validators s -₃₂ 1)).
Lemma outcome_votes_ok b d :
  tx_ok d → NoDup (outcome_votes b d) ∧ ActiveEthTransaction.sender d ∉ outcome_votes b d.
Proof. intros [V S _]. apply NoDup_app in V as (?&_&?). destruct b; cbn; set_solver. Qed.
Lemma wrap_le max z : 0 <= max → 0 <= z → wrap_to max z <= z.
Proof. intros. unfold wrap_to. apply Z.mod_le; lia. Qed.
Lemma enough_votes n s :
  has_enough_corroborations n s = true →
  required_for (total_num_of_validators s -₃₂ 1) <= Z.of_nat n.
Proof.
  unfold has_enough_corroborations. intros Hn%bool_decide_eq_true. etrans; [exact Hn|].
  apply wrap_le; unfold u32_max; lia.
Qed.
Lemma not_enough_votes n s :
  (n ≤ MAX_CONFIRMATIONS)%nat → has_enough_corroborations n s = false →
  Z.of_nat n < required_for (total_num_of_validators s -₃₂ 1).
Proof.
  unfold has_enough_corroborations, MAX_CONFIRMATIONS. intros Hl Hn%bool_decide_eq_false.
  rewrite (wrap_small _ (Z.of_nat n)) in Hn by (unfold u32_max; lia). lia.
Qed.
Lemma finalize_state_settles tx success s :
  bridge_ok s → tx_ok (ActiveTransactionData.data tx) →
  required_for (total_num_of_validators s -₃₂ 1) <=
    Z.of_nat (length (outcome_votes success (ActiveTransactionData.data tx))) →
  let req := ActiveTransactionData.request tx in
  let d := ActiveTransactionData.data tx in
  send_ok req →
  wp (finalize_state tx success) s
    (λ _ s', settled s' = settled s ∨ corroborated_enough s d success ∧ ∃ hash,
       settled s' = <[SendRequestData.tx_id req := settlement req d hash success]> (settled s))
    (λ _ _, True).
Proof.
  intros Hs Htx Hvotes req d Hreq. unfold finalize_state. wp_step. wp_step.
  destruct (outcome_votes_ok success d Htx) as [Hd Hn].
  destruct (negb success && _) eqn:Hreplay.
  - unfold replay_send_request. fold req.
    eapply (wp_frame settled _ _ _ bridge_ok); [done|by apply bridge_event_ok, bridge_ok_steady|done|].
    intros _ s1 Hs1 Hok1. pose proof (set_up_active_tx_settled req
      (Some (saturating_add_to 65535 (ActiveTransactionData.replay_attempt tx) 1)) s1) as Hset.
    pose proof (set_up_active_tx_spec req
      (Some (saturating_add_to 65535 (ActiveTransactionData.replay_attempt tx) 1)) s1
      (br_validators s1 Hok1) Hreq) as Hw.
    unfold wp in *. destruct (set_up_active_tx _ _ s1) as [[] s2]; [left|done|done]. cbn in Hset.
    by rewrite Hset.
  - eapply wp_mono; [by apply complete_transaction_settles| |done]. cbn beta. intros [] s' Hs'. right.
    split; [|done]. split; [done|]. split; [done|]. split; [done|]. intros ->. cbn in Hreplay.
    by apply not_enough_votes; [apply tx_limit|].
Qed.
Lemma add_corroboration_settles origin tx_id succeeded valid author attempt s :
  bridge_ok s →
  wp (add_corroboration origin tx_id succeeded valid author attempt) s
    (λ _ s', settled s' = settled s ∨ ∃ r req d hash,
       active_request s = Some r ∧ ActiveRequestData.request r = Request.Send req ∧
       ActiveRequestData.tx_data r = Some d ∧
       let d' := corroborated succeeded valid (Validator.account_id author) d in
       corroborated_enough s d' succeeded ∧
       settled s' = <[SendRequestData.tx_id req := settlement req d' hash succeeded]> (settled s))
    (λ _ _, True).
Proof.
  intros Hs. unfold add_corroboration. wp_step. destruct origin; cbn; try by wp_step. wp_step.
  wp_step. wp_step. destruct (is_active_request tx_id s) eqn:Hact; cbn [negb]; [|wp_step; by left].
  apply is_active_request_Some in Hact as [r Hr]. pose proof (br_active s Hs r Hr) as [R D L T G].
  wp_step. wp_step. wp_step. apply wp_expect with (a := r); [done|].
  destruct (ActiveRequestData.tx_data r) as [d|] eqn:Hd; [|wp_step; by left].
  wp_step. wp_step; [|done]. wp_step. wp_step; [|done].
  apply negb_true_iff, bool_decide_eq_false in H1.
  destruct (requires_corroboration d _) eqn:Hreq; cbn [negb]; [|wp_step; by left].
  destruct (ActiveRequestData.request r) as [req|] eqn:Hrq; [|done].
  apply wp_assoc, wp_bind. eapply wp_mono; [by apply corroborate_spec| |done]; cbn beta.
  intros x s' (->&Hnew&->). cbn [fst snd] in *. wp_step. wp_step.
  destruct (has_enough_corroborations _ s) eqn:Henough.
  - unfold as_active_tx. cbn. wp_step. apply (wp_ret _ _ _ _).
    eapply wp_mono; [apply finalize_state_settles; [done|done|by apply enough_votes|done]| |done].
    cbn. intros [] s' [?|(?&hash&?)]; [by left|right]. by exists r, req, d, hash.
  - pose proof (save_settled (ActiveRequestData.upd_tx_data (λ _, Some (corroborated succeeded valid
      (Validator.account_id author) d)) r) s). unfold wp. by left.
Qed.

(** C11: a transaction is settled only on the corroborations of enough accounts.  A
    call on the bridge leaves the settled transactions as they were, unless it is
    the corroboration that completes the quorum: then, counting it, distinct
    accounts other than the sender, at least the quorum of the validators but one,
    agree on the outcome that is recorded; and a failure is recorded only when
    there is no quorum that disputes the hash of the transaction. *)
Theorem settled_by_quorum origin call s :
  bridge_ok s →
  let s' := (transactional (bridge_call origin call) s).2 in
  settled s' = settled s ∨
  ∃ tx_id succeeded valid author attempt signature r req d hash,
    call = Call_add_corroboration tx_id succeeded valid author attempt signature ∧
    active_request s = Some r ∧ ActiveRequestData.request r = Request.Send req ∧
    ActiveRequestData.tx_data r = Some d ∧
    let d' := corroborated succeeded valid (Validator.account_id author) d in
    corroborated_enough s d' succeeded ∧
    settled s' = <[SendRequestData.tx_id req := settlement req d' hash succeeded]> (settled s).
Proof.
  intros Hs s'. destruct call as [| |tx_id succeeded valid author attempt signature| | |];
    try (left; apply leaves_transactional, other_calls_settled; by intros).
  pose proof (add_corroboration_settles origin tx_id succeeded valid author attempt s Hs) as Hw.
  subst s'. unfold wp, transactional in *. cbn [bridge_call].
  destruct (add_corroboration _ _ _ _ _ _ s) as [[] s']; [|by left|done].
  destruct Hw as [?|(r&req&d&hash&?)]; [by left|right].
  by exists tx_id, succeeded, valid, author, attempt, signature, r, req, d, hash.
Qed.
End SettleProps.

(** ** An example *)

Section Witnesses.
#[local] Existing Instance demo_config.
#[local] Existing Instance token_notification.

(** One of the three other validators is enough to settle the transaction. *)
Lemma settled_by_quorum_witness :
  let call := Call_add_corroboration 0 true true (Validator.mk 3 13) 0 13%N in
  let s' := (transactional (bridge_call NoOrigin call) demo_line).2 in
  ∃ succeeded author d hash,
    corroborated_enough demo_line (corroborated succeeded true author d) succeeded ∧
    settled s' !! 0 = Some (TransactionData.mk (b "publishRoot")
      (ActiveEthTransaction.eth_tx_params d) 2%N hash true).
Proof.
  pose proof (settled_by_quorum NoOrigin
    (Call_add_corroboration 0 true true (Validator.mk 3 13) 0 13%N) demo_line demo_line_ok)
    as [Hsame|(tx_id&succeeded&valid&author&attempt&sig&r&req&d&hash&Hcall&Ha&Hr&Hd&He&Hs)].
  - exfalso. assert (settled demo_line !! 0 = None) as Hn by reflexivity.
    rewrite <- Hsame in Hn. by vm_compute in Hn.
  - injection Hcall as <- <- <- <- <- <-. vm_compute in Ha. injection Ha as <-.
    injection Hr as <-. injection Hd as <-. cbv zeta. eexists true, _, _, hash. split; [exact He|].
    cbv zeta in Hs. rewrite Hs. by apply lookup_insert_eq.
Defined.
End Witnesses.
