(* ===== verification/LowerProps.v ===== *)
(** * The life of a lower

    A lower whose tokens are burnt is pending while the bridge collects signatures
    for its proof, then ready to be claimed, or failed and open to another try.
    The invariant ties the pending lowers of the token manager to the requests of
    the bridge, across both pallets. *)

From S2P Require Import Prelude Frames Slices Bytes EventTypes EventParsing.
From S2P Require Import EventDiscovery EthTypes RuntimeErrors NodeTypes BridgeTypes.
From S2P Require Import Avn BridgeExamples EthBridge BridgeEvents TokenManager.
From S2P Require Import BridgeInv BridgeCalls BridgeProps.

Section LowerInv.
Context `{BridgeConfig}.
Implicit Types (s : Runtime.t).

(** ** The invariant *)

Definition lowers (l : list Request.t) : list LowerProofRequestData.t :=
  omap (λ r, match r with Request.LowerProof q => Some q | Request.Send _ => None end) l.
(** The proof of a lower is its parameters and distinct signatures. *)
Definition proof_ok (d : LowerProofData.t) : Prop :=
  ∃ signatures, NoDup signatures ∧
    LowerProofData.encoded_lower_data d =
      LowerProofData.params d ++ encode_confirmations signatures.
Record lower_core (ls : list LowerProofRequestData.t) (pending : gmap LowerId LowerParams)
    (ready : gmap LowerId LowerProofData.t) (failed : gmap LowerId LowerParams) : Prop := {
  (** Every request for a proof is that of a pending lower, and is its only one. *)
  lc_requested q : q ∈ ls →
    LowerProofRequestData.caller_id q = PALLET_ID ∧
    pending !! LowerProofRequestData.lower_id q = Some (LowerProofRequestData.params q);
  lc_pending id p : pending !! id = Some p → ∃ q, q ∈ ls ∧ LowerProofRequestData.lower_id q = id;
  lc_distinct : NoDup (LowerProofRequestData.lower_id <$> ls);
  (** A lower is in one stage. *)
  lc_pending_ready id p : pending !! id = Some p → ready !! id = None;
  lc_pending_failed id p : pending !! id = Some p → failed !! id = None;
  lc_ready_failed id d : ready !! id = Some d → failed !! id = None;
  lc_pending_size id p : pending !! id = Some p → length p = PACKED_LOWER_V2_PARAMS_SIZE;
  lc_ready_size id d : ready !! id = Some d →
    length (LowerProofData.params d) = PACKED_LOWER_V2_PARAMS_SIZE ∧ proof_ok d;
  lc_failed_size id p : failed !! id = Some p → length p = PACKED_LOWER_V2_PARAMS_SIZE;
}.
Definition token_core (ls : list LowerProofRequestData.t) (T : TokenStorage.t) : Prop :=
  lower_core ls (TokenStorage.LowersPendingProof T) (TokenStorage.LowersReadyToClaim T)
    (TokenStorage.FailedLowerProofs T).
Definition lowers_ok s : Prop := bridge_ok s ∧ token_core (lowers (requests s)) (Runtime.tokens s).

(** The request of a pending lower leaves the line with a proof, or without. *)
Lemma core_lines q ls P R F :
  lower_core (q :: ls) P R F →
  (∀ q', q' ∈ ls → LowerProofRequestData.caller_id q' = PALLET_ID ∧
     delete (LowerProofRequestData.lower_id q) P !! LowerProofRequestData.lower_id q' =
       Some (LowerProofRequestData.params q')) ∧
  (∀ id p, delete (LowerProofRequestData.lower_id q) P !! id = Some p →
     ∃ q', q' ∈ ls ∧ LowerProofRequestData.lower_id q' = id).
Proof.
  intros HC. pose proof (lc_distinct _ _ _ _ HC) as [Hn Hd]%NoDup_cons. split.
  - intros q' Hq'. destruct (lc_requested _ _ _ _ HC q') as [Hc Hp]; [by right|]. split; [done|].
    rewrite lookup_delete_ne; [done|]. intros Heq. apply Hn. rewrite Heq. by apply list_elem_of_fmap_2.
  - intros id p [Hne Hp]%lookup_delete_Some. destruct (lc_pending _ _ _ _ HC id p Hp) as (q'&Hq'&<-).
    apply elem_of_cons in Hq' as [->|Hq']; [done|]. by exists q'.
Qed.
Lemma core_ready q ls P R F proof :
  lower_core (q :: ls) P R F → proof_of q (Some proof) →
  lower_core ls (delete (LowerProofRequestData.lower_id q) P)
    (<[LowerProofRequestData.lower_id q :=
         LowerProofData.mk (LowerProofRequestData.params q) proof]> R) F.
Proof.
  intros HC (sigs&->&Hsigs&_). destruct (core_lines _ _ _ _ _ HC) as [HL1 HL2].
  destruct (lc_requested _ _ _ _ HC q) as [_ Hq]; [by left|].
  pose proof (lc_distinct _ _ _ _ HC) as [_ Hd]%NoDup_cons. destruct HC. constructor; [done|done|done|..].
  - intros id p [Hne Hp]%lookup_delete_Some. rewrite lookup_insert_ne by done. eauto.
  - intros id p [Hne Hp]%lookup_delete_Some. eauto.
  - intros id d [[<- <-]|[Hne Hp]]%lookup_insert_Some; eauto.
  - intros id p [Hne Hp]%lookup_delete_Some. eauto.
  - intros id d [[<- <-]|[Hne Hp]]%lookup_insert_Some; [|eauto]. split; [by eapply lc_pending_size0|].
    by exists sigs.
  - done.
Qed.
Lemma core_failed q ls P R F :
  lower_core (q :: ls) P R F →
  lower_core ls (delete (LowerProofRequestData.lower_id q) P) R
    (<[LowerProofRequestData.lower_id q := LowerProofRequestData.params q]> F).
Proof.
  intros HC. destruct (core_lines _ _ _ _ _ HC) as [HL1 HL2].
  destruct (lc_requested _ _ _ _ HC q) as [_ Hq]; [by left|].
  pose proof (lc_distinct _ _ _ _ HC) as [_ Hd]%NoDup_cons. destruct HC. constructor; [done|done|done|..].
  - intros id p [Hne Hp]%lookup_delete_Some. eauto.
  - intros id p [Hne Hp]%lookup_delete_Some. rewrite lookup_insert_ne by done. eauto.
  - intros id d Hd'. destruct (decide (LowerProofRequestData.lower_id q = id)) as [<-|Hne].
    + by rewrite (lc_pending_ready0 _ _ Hq) in Hd'.
    + rewrite lookup_insert_ne by done. eauto.
  - intros id p [Hne Hp]%lookup_delete_Some. eauto.
  - done.
  - intros id p [[<- <-]|[Hne Hp]]%lookup_insert_Some; eauto.
Qed.
(** A lower that is in no stage becomes pending, its request at the end of the line. *)
Lemma core_enter id p ls P R F :
  lower_core ls P R F → P !! id = None → R !! id = None → F !! id = None →
  length p = PACKED_LOWER_V2_PARAMS_SIZE →
  lower_core (ls ++ [LowerProofRequestData.mk id p PALLET_ID]) (<[id := p]> P) R F.
Proof.
  intros HC HP HR HF Hp. assert (∀ q, q ∈ ls → LowerProofRequestData.lower_id q ≠ id) as Hne.
  { intros q Hq <-. destruct (lc_requested _ _ _ _ HC q Hq) as [_ Hq']. congruence. }
  destruct HC. constructor.
  - intros q [Hq| ->%list_elem_of_singleton]%elem_of_app; cbn; [|by rewrite lookup_insert_eq].
    rewrite lookup_insert_ne by (symmetry; auto). auto.
  - intros i x [[<- <-]|[Hi Hx]]%lookup_insert_Some.
    + eexists. split; [apply elem_of_app; right; by apply list_elem_of_singleton|done].
    + destruct (lc_pending0 i x Hx) as (q&Hq&<-). exists q. split; [apply elem_of_app; by left|done].
  - rewrite fmap_app. apply NoDup_app. split; [done|]. split; [|apply NoDup_singleton].
    intros i (q&->&Hq)%list_elem_of_fmap Hi%list_elem_of_singleton. by eapply Hne.
  - intros i x [[<- <-]|[Hi Hx]]%lookup_insert_Some; eauto.
  - intros i x [[<- <-]|[Hi Hx]]%lookup_insert_Some; eauto.
  - done.
  - intros i x [[<- <-]|[Hi Hx]]%lookup_insert_Some; eauto.
  - done.
  - done.
Qed.
Lemma core_forget_ready id ls P R F : lower_core ls P R F → lower_core ls P (delete id R) F.
Proof.
  intros []. constructor; try done.
  - intros i x Hx. apply lookup_delete_None. eauto.
  - intros i x [_ Hx]%lookup_delete_Some. eauto.
  - intros i x [_ Hx]%lookup_delete_Some. eauto.
Qed.
Lemma core_forget_failed id ls P R F : lower_core ls P R F → lower_core ls P R (delete id F).
Proof.
  intros []. constructor; try done.
  - intros i x Hx. apply lookup_delete_None. eauto.
  - intros i x Hx. apply lookup_delete_None. eauto.
  - intros i x [_ Hx]%lookup_delete_Some. eauto.
Qed.
End LowerInv.

(** * The life of a lower, across the token manager and the bridge

    Every step of the two pallets maintains the invariant of [LowerInv]: a lower
    that is pending has one request in the bridge and is not lost by it, and what
    is ready to claim carries the signatures that were collected. *)

Section LowerProps.
Context `{BridgeConfig}.
#[local] Existing Instance token_notification.
Implicit Types (s : Runtime.t).

(** ** What the bridge does to lowers *)

Lemma encode_confirmations_length l : length (encode_confirmations l) = (65 * length l)%nat.
Proof.
  unfold encode_confirmations. induction l as [|c l IH]; [done|].
  cbn [fmap list_fmap concat length]. rewrite length_app, IH, be_bytes_length. lia.
Qed.
(** A proof of at most a hundred signatures is within the limit of the token manager. *)
Lemma proof_within_limit q proof :
  length (LowerProofRequestData.params q) = PACKED_LOWER_V2_PARAMS_SIZE →
  proof_of q (Some proof) → Z.of_nat (length proof) <= LowerDataLimit.
Proof.
  intros Hq (sigs&->&_&Hl). unfold generate_encoded_lower_proof.
  rewrite length_app, encode_confirmations_length, Hq.
  unfold PACKED_LOWER_V2_PARAMS_SIZE, LowerDataLimit, MAX_CONFIRMATIONS in *. lia.
Qed.
Lemma lower_proof_result_spec q ls data s :
  token_core (q :: ls) (Runtime.tokens s) → proof_of q data →
  wp (lower_proof_result (LowerProofRequestData.lower_id q) (LowerProofRequestData.caller_id q) data) s
    (λ _ s', aside s' = aside s ∧ token_core ls (Runtime.tokens s')) (λ _ _, False).
Proof.
  intros HC Hp. destruct (lc_requested _ _ _ _ HC q) as [Hc Hq]; [by left|].
  unfold lower_proof_result, token_get, token_modify, token_event, deposit_event. wp_step. wp_step.
  cbn [compose]. rewrite Hq, Hc, bool_decide_true by done. cbn [negb]. wp_step. wp_step.
  destruct data as [proof|].
  - wp_step. wp_step; [|by rewrite bool_decide_true in H0
      by (eapply proof_within_limit; [by eapply (lc_pending_size _ _ _ _ HC)|done])].
    wp_step. wp_step. apply wp_modify. split; [done|]. by apply core_ready.
  - wp_step. wp_step. apply wp_modify. split; [done|]. by apply core_failed.
Qed.

Lemma elem_of_lowers q l : q ∈ lowers l ↔ Request.LowerProof q ∈ l.
Proof.
  unfold lowers. rewrite list_elem_of_omap. split; [|by intros; exists (Request.LowerProof q)].
  intros ([]&?&?); by simplify_eq.
Qed.
Lemma lowers_app l1 l2 : lowers (l1 ++ l2) = lowers l1 ++ lowers l2.
Proof. apply omap_app. Qed.
Definition sized (r : Request.t) : Prop :=
  match r with
  | Request.LowerProof q => length (LowerProofRequestData.params q) = PACKED_LOWER_V2_PARAMS_SIZE
  | Request.Send _ => True
  end.
Lemma core_sized l T : token_core (lowers l) T → Forall sized l.
Proof.
  intros HC. apply Forall_forall. intros [req|q] Hr; [done|]. cbn.
  apply elem_of_lowers in Hr. eapply (lc_pending_size _ _ _ _ HC), HC, Hr.
Qed.
Lemma carried_tokens T : carried sized (λ s, Runtime.tokens s = T).
Proof. constructor; [done..| |done]. intros id caller s Hs. by apply wp_ret. Qed.
(** The lowers in the queue stay in line when the bridge moves on. *)
Lemma process_next_lowers s :
  bridge_ok s → token_core (lowers (queue s)) (Runtime.tokens s) →
  wp process_next_request s (λ _ s', lowers_ok s') (λ _ _, False).
Proof.
  intros [V I B Q A] HC. pose proof (core_sized _ _ HC) as Hsz.
  eapply wp_mono; [apply (process_next_request_spec _ _ (carried_tokens (Runtime.tokens s))); auto| |done].
  cbn beta. intros [] s' (Hs'&(dropped&Hq&Hd)&Ht). split; [done|]. rewrite Ht.
  rewrite Hq, lowers_app in HC. assert (lowers dropped = []) as Hl; [|by rewrite Hl in HC].
  apply elem_of_nil_inv. intros q Hr%elem_of_lowers.
  rewrite Hq in Hsz. apply Forall_app in Hsz as [Hsz _].
  rewrite Forall_forall in Hsz, Hd. by apply (Hd _ Hr), (Hsz _ Hr).
Qed.
Lemma requests_head s r :
  ActiveRequestData.request <$> active_request s = Some r → requests s = r :: queue s.
Proof. unfold requests. by intros ->. Qed.

(** ** Events from Ethereum *)

Definition lower_view (T : TokenStorage.t) :=
  (TokenStorage.LowersPendingProof T, TokenStorage.LowersReadyToClaim T, TokenStorage.FailedLowerProofs T).
Lemma lowers_ok_view s s' :
  aside s' = aside s → lower_view (Runtime.tokens s') = lower_view (Runtime.tokens s) →
  lowers_ok s → lowers_ok s'.
Proof.
  unfold lower_view, lowers_ok, token_core. intros Ha [= -> -> ->] [Hs HC].
  split; [by eapply bridge_ok_aside|]. by rewrite (aside_requests _ _ Ha).
Qed.
Lemma lowers_modify (f : Runtime.t → Runtime.t) :
  (∀ s, aside (f s) = aside s) → (∀ s, lower_view (Runtime.tokens (f s)) = lower_view (Runtime.tokens s)) →
  maintains lowers_ok (modify f : Dispatch unit).
Proof. intros Ha Hv. apply maintains_modify. intros s. by apply lowers_ok_view. Qed.
#[local] Hint Extern 1 (maintains lowers_ok (modify _)) =>
  apply lowers_modify; reflexivity : maintain.
Lemma credit_lowers t w a : maintains lowers_ok (credit_user_balance t w a).
Proof.
  unfold credit_user_balance, mint_known_token, mint_unknown_token, update_assets, put_balance,
    token_modify. maintains_tac.
Qed.
Lemma remove_used_lower_lowers id : maintains lowers_ok (remove_used_lower id).
Proof.
  unfold remove_used_lower, token_get, token_modify. apply maintains_bind; [apply maintains_gets|].
  intros ready. apply maintains_bind; [|intros; apply maintains_ensure]. apply maintains_modify.
  intros s [Hs HC]. split; [by eapply bridge_ok_aside; [|exact Hs]|]. by apply core_forget_ready.
Qed.
#[local] Hint Resolve credit_lowers remove_used_lower_lowers : maintain.
Lemma processed_event_handler_lowers e : maintains lowers_ok (processed_event_handler e).
Proof.
  unfold processed_event_handler, process_lift, process_avt_growth_lift, process_lower_claim,
    process_lower_reverted, token_get, token_event, deposit_event. maintains_tac.
Qed.

(** ** Calls on the bridge *)

Lemma lowers_steady : steady lowers_ok.
Proof.
  constructor.
  - intros s s' Ha [= Ht _ _]. apply lowers_ok_view; [done|by rewrite Ht].
  - unfold requests_view. intros g s Hg [Hs HC]. pose proof (Hg (Runtime.bridge s)) as [= Ha Hq].
    split.
    + apply (steady_upd _ (line_steady s)); [done|]. by split.
    + revert HC. unfold requests, queue, request_queue, active_request. cbn. by rewrite Ha, Hq.
  - intros i s [Hs HC]. split; [|done]. apply (steady_primary _ (line_steady s)). by split.
  - intros. apply maintains_ret.
Qed.
Lemma lowers_respected : respected lowers_ok.
Proof.
  constructor.
  - apply lowers_steady.
  - by intros s [? _].
  - apply processed_event_handler_lowers.
  - intros s r r' [Hs HC] Ha Hreq Hok. split; [by apply (re_again _ (line_respected s) s r)|].
    revert HC. unfold requests. cbn. by rewrite Ha; cbn; rewrite Hreq.
  - intros s req [Hs HC] Ha%requests_head. eapply wp_mono; [apply process_next_lowers; [done|]|done|done].
    by rewrite Ha in HC.
  - intros s req data [Hs HC] Ha%requests_head Hp. rewrite Ha in HC. wp_step. wp_step.
    eapply wp_mono; [by apply lower_proof_result_spec| |done]. cbn beta. intros [] s' [Ha' HC'].
    eapply wp_mono; [apply process_next_lowers; [by eapply bridge_ok_aside|]|done|done].
    by rewrite (aside_queue _ _ Ha').
Qed.

(** ** Calls on the token manager *)

Lemma wp_leaves {A V} (v : Runtime.t → V) (m : Dispatch A) s Q (R : DispatchError → Runtime.t → Prop) :
  leaves v m → wp m s Q R →
  wp m s (λ a s', Q a s' ∧ v s' = v s) (λ e s', R e s' ∧ v s' = v s).
Proof. intros Hv. specialize (Hv s). unfold wp. destruct (m s) as [[] ?]; cbn in *; auto. Qed.
Lemma generate_lower_proof_tokens id p c : leaves Runtime.tokens (generate_lower_proof id p c).
Proof.
  unfold generate_lower_proof, add_new_lower_proof_request, bridge_result, queue_request,
    set_up_active_lower_proof, run, bridge_event, deposit_event, put_request_queue, put_active_request.
  leaves_tac; by intros.
Qed.
(** A lower number that no lower has. *)
Definition unused_id (id : LowerId) (T : TokenStorage.t) : Prop :=
  TokenStorage.LowersPendingProof T !! id = None ∧ TokenStorage.LowersReadyToClaim T !! id = None ∧
  TokenStorage.FailedLowerProofs T !! id = None.
Lemma regenerate_proof_spec id p s :
  lowers_ok s → unused_id id (Runtime.tokens s) → length p = PACKED_LOWER_V2_PARAMS_SIZE →
  wp (regenerate_proof id p) s (λ _ s', lowers_ok s') (λ _ _, True).
Proof.
  intros [Hs HC] (HP&HR&HF) Hp. unfold regenerate_proof, token_modify. wp_step. apply wp_modify.
  set (s1 := Runtime.upd_tokens _ s).
  assert (bridge_ok s1) as Hs1 by by eapply bridge_ok_aside; [|exact Hs].
  eapply wp_mono; [eapply wp_leaves; [apply generate_lower_proof_tokens|
    by apply generate_lower_proof_arrived]| |done]; cbn beta.
  intros [] s' [[Hs' Hr] Ht]. split; [done|]. rewrite Hr, Ht, lowers_app. by apply core_enter.
Qed.
Lemma concat_lower_data_length id t a r f n :
  length (concat_lower_data id t a r f n) = PACKED_LOWER_V2_PARAMS_SIZE.
Proof. unfold concat_lower_data. by rewrite !length_app, !be_bytes_length, length_replicate. Qed.

Lemma debit_lowers t w a : maintains lowers_ok (debit_user_balance t w a).
Proof.
  unfold debit_user_balance, burn_known_token, burn_unknown_token, update_assets, put_balance,
    token_modify. maintains_tac.
Qed.
Lemma debit_keeps_view t w a : leaves (lower_view ∘ Runtime.tokens) (debit_user_balance t w a).
Proof.
  unfold debit_user_balance, burn_known_token, burn_unknown_token, update_assets, put_balance,
    token_modify. leaves_tac.
Qed.
Lemma unused_view id T T' : lower_view T' = lower_view T → unused_id id T → unused_id id T'.
Proof. unfold lower_view, unused_id. by intros [= -> -> ->]. Qed.
Lemma settle_lower_spec token from to amount recipient id s :
  lowers_ok s → unused_id id (Runtime.tokens s) →
  wp (settle_lower token from to amount recipient id) s (λ _ s', lowers_ok s') (λ _ _, True).
Proof.
  intros Hs Hid. unfold settle_lower, token_event, deposit_event. wp_step.
  eapply wp_mono; [eapply wp_leaves; [apply debit_keeps_view|by apply debit_lowers]| |done]; cbn beta.
  intros [] s1 [Hs1 Hv]. eapply unused_view in Hid; [|exact Hv]. clear s Hs Hv. wp_step. wp_step.
  wp_step. assert (∀ e s2, s2 = Runtime.upd_events e s1 →
    wp (regenerate_proof id (concat_lower_data id token amount recipient from (Runtime.now s2))) s2
      (λ _ s', lowers_ok s') (λ _ _, True)) as Hgo.
  { intros e s2 ->. apply regenerate_proof_spec; [|done|apply concat_lower_data_length].
    by eapply lowers_ok_view; [..|exact Hs1]. }
  destruct (is_native_token token s1); apply wp_modify; wp_step; wp_step; by eapply Hgo.
Qed.
Lemma regenerate_lower_proof_spec origin id s :
  lowers_ok s → wp (regenerate_lower_proof origin id) s (λ _ s', lowers_ok s') (λ _ _, True).
Proof.
  intros Hs. unfold regenerate_lower_proof, token_get, token_modify, token_event, deposit_event.
  destruct origin; cbn; wp_step; [by wp_step| |by wp_step]. wp_step. wp_step. wp_step. wp_step.
  wp_step; [|done]. wp_step. wp_step. wp_step. apply wp_modify. cbn [compose].
  set (s1 := Runtime.upd_tokens _ s). destruct Hs as [Hs HC].
  assert (lowers_ok s1) as Hs1.
  { split; [by eapply bridge_ok_aside; [|exact Hs]|]. by apply core_forget_ready. }
  assert (∀ s', lowers_ok s' → ∀ f, lowers_ok (Runtime.upd_events f s')) as He.
  { intros s' Hs' f. by eapply lowers_ok_view; [..|exact Hs']. }
  destruct (TokenStorage.LowersReadyToClaim (Runtime.tokens s) !! id) as [d|] eqn:Hready.
  - wp_step. eapply wp_mono; [apply regenerate_proof_spec; [done| |]| |done].
    + split_and!; cbn; [|by apply lookup_delete_eq|by eapply (lc_ready_failed _ _ _ _ HC)].
      destruct (TokenStorage.LowersPendingProof _ !! id) eqn:Hpend; [|done].
      by rewrite (lc_pending_ready _ _ _ _ HC id _ Hpend) in Hready.
    + by eapply (lc_ready_size _ _ _ _ HC).
    + intros [] s' Hs'. apply wp_modify. by apply He.
  - wp_step. wp_step. wp_step. apply wp_modify. set (s2 := Runtime.upd_tokens _ s1).
    assert (lowers_ok s2) as Hs2.
    { destruct Hs1 as [Hb1 HC1]. split; [by eapply bridge_ok_aside; [|exact Hb1]|].
      by apply core_forget_failed. }
    cbn [compose]. destruct (TokenStorage.FailedLowerProofs (Runtime.tokens s1) !! id) as [p|] eqn:Hf;
      [|by wp_step]. wp_step. change (TokenStorage.FailedLowerProofs (Runtime.tokens s) !! id = Some p) in Hf.
    eapply wp_mono; [apply regenerate_proof_spec; [done| |]| |done].
    + split_and!; cbn; [|by rewrite lookup_delete_eq|by rewrite lookup_delete_eq].
      destruct (TokenStorage.LowersPendingProof _ !! id) eqn:Hpend; [|done].
      by rewrite (lc_pending_failed _ _ _ _ HC id _ Hpend) in Hf.
    + by eapply (lc_failed_size _ _ _ _ HC).
    + intros [] s' Hs'. apply wp_modify. by apply He.
Qed.

Lemma ensure_signed_lowers o : maintains lowers_ok (ensure_signed o).
Proof. destruct o; maintains_tac. Qed.
#[local] Hint Resolve ensure_signed_lowers ensure_root_ok : maintain.
Lemma dispatch_proxied_lowers origin call : maintains lowers_ok (dispatch_proxied origin call).
Proof.
  destruct call; cbn; unfold signed_transfer, settle_transfer, schedule_signed_lower, schedule_lower,
    bump_nonce, update_assets, put_balance, token_get, token_modify, token_event, deposit_event;
    maintains_tac.
Qed.
#[local] Hint Resolve dispatch_proxied_lowers : maintain.
(** The number of a lower that is executed is new. *)
Definition new_lower (call : TokenCall) s : Prop :=
  match call with
  | Call_execute_lower _ _ _ _ _ lower_id => unused_id lower_id (Runtime.tokens s)
  | _ => True
  end.
Lemma maintains_weak {A} (m : Dispatch A) s :
  maintains lowers_ok m → lowers_ok s → wp m s (λ _ s', lowers_ok s') (λ _ _, True).
Proof. intros Hm Hs. by eapply wp_mono; [by apply Hm|done|]. Qed.
Lemma token_call_spec origin call s :
  lowers_ok s → new_lower call s →
  wp (token_call origin call) s (λ _ s', lowers_ok s') (λ _ _, True).
Proof.
  intros Hs Hnew. destruct call; cbn [token_call];
    try (apply maintains_weak; [|done]; unfold proxy, transfer_from_treasury, schedule_direct_lower,
      schedule_lower, set_lower_schedule_period, toggle_lowering, set_native_token_eth_address,
      transfer, settle_transfer, update_assets, put_balance, token_get, token_modify, token_event,
      deposit_event; by maintains_tac).
  - unfold execute_lower, token_get. destruct origin; cbn; wp_step; [|by wp_step..]. wp_step.
    wp_step. wp_step. wp_step. wp_step; [|done]. by apply settle_lower_spec.
  - by apply regenerate_lower_proof_spec.
Qed.

(** ** The two pallets in the runtime *)

(** The calls on both pallets, the transactions other pallets publish, and
    anything else that leaves the storage of the bridge and the lowers alone. *)
Inductive lower_step : Runtime.t → Runtime.t → Prop :=
  | lower_bridge_call origin call s : lower_step s (transactional (bridge_call origin call) s).2
  | lower_unsigned call s : lower_step s (apply_unsigned call s).2
  | lower_token_call origin call s :
      new_lower call s → lower_step s (transactional (token_call origin call) s).2
  | lower_publish function_name params caller_id s :
      publishable function_name params →
      lower_step s (publish function_name params caller_id s).2
  | lower_others s s' :
      Runtime.bridge s' = Runtime.bridge s → (length (validators s') ≤ 255)%nat →
      lower_view (Runtime.tokens s') = lower_view (Runtime.tokens s) → lower_step s s'.
Definition lower_start s : Prop :=
  bridge_start s ∧ lower_view (Runtime.tokens s) = (∅, ∅, ∅).

Lemma publish_tokens f p c : leaves Runtime.tokens (publish f p c).
Proof.
  unfold publish, add_new_send_request, use_next_tx_id, set_up_active_tx, assign_sender,
    advance_primary_validator_for_sending, put_primary, nth_account, bridge_result, queue_request,
    run, bridge_event, deposit_event, put_request_queue, put_active_request.
  leaves_tac; by intros.
Qed.
Lemma bridge_call_lowers origin call s :
  lowers_ok s → lowers_ok (transactional (bridge_call origin call) s).2.
Proof.
  intros Hs. pose proof (maintains_transactional _ _ (bridge_call_ok _ lowers_respected origin call) s Hs) as Hw.
  unfold wp in Hw. by destruct (transactional _ s) as [[] ?].
Qed.
Lemma lower_start_ok s : lower_start s → lowers_ok s.
Proof.
  intros [Hb Hv]. split; [by apply bridge_start_ok|]. unfold lower_view in Hv. injection Hv as HP HR HF.
  destruct Hb as (Ha&Hq&_). unfold requests, queue, token_core. rewrite Ha, Hq, HP, HR, HF. cbn.
  constructor; try (by intros ? ? ?%lookup_empty_Some); [|constructor]. by intros q ?%elem_of_nil.
Qed.
Lemma lower_step_ok s s' : lower_step s s' → lowers_ok s → lowers_ok s'.
Proof.
  destruct 1 as [origin call s|call s|origin call s Hnew|f params caller s Hp|s s' Hb Hv Ht]; intros Hs.
  - by apply bridge_call_lowers.
  - unfold apply_unsigned. by destruct (validate_unsigned call s); [|apply bridge_call_lowers].
  - pose proof (token_call_spec origin call s Hs Hnew) as Hw. unfold wp, transactional in *.
    by destruct (token_call origin call s) as [[] ?].
  - destruct Hs as [Hs HC]. pose proof (publish_tokens f params caller s) as Ht.
    pose proof (publish_arrived f params caller s Hs Hp) as Hw. unfold wp in Hw.
    destruct (publish _ _ _ s) as [[] s']; cbn in *; [| |done]; destruct Hw as [Hs' Hr];
      (split; [done|]); rewrite Hr, Ht, ?lowers_app; cbn; by rewrite ?app_nil_r.
  - destruct Hs as [Hs HC]. split; [by eapply bridge_step_ok; [apply step_others|]|].
    revert Ht HC. unfold lower_view, token_core. intros [= -> -> ->].
    unfold requests, queue, request_queue, active_request. by rewrite Hb.
Qed.

End LowerProps.

(** ** An example *)

Section Witnesses.
#[local] Existing Instance demo_config.
#[local] Existing Instance token_notification.

(** 250 of a token are lowered. *)
Definition demo_lowered : Runtime.t :=
  (transactional (token_call Root (Call_execute_lower 50%N 0%N 8%N 250 9%N 0)) demo_state).2.
End Witnesses.
