(* ===== verification/TokenProps.v ===== *)
(** * Conservation of tokens, and the calls of relayers

    The supply of a token the registry does not know changes only by what is
    lifted and lowered; a call a relayer sends is one its signer authorised, once. *)

From S2P Require Import Prelude Frames Slices Bytes EventTypes EventParsing EventDiscovery EthTypes.
From S2P Require Import RuntimeErrors NodeTypes BridgeTypes Avn BridgeExamples EthBridge BridgeEvents TokenManager.
From S2P Require Import BridgeInv BridgeCalls BridgeProps LowerProps.

(** ** The supply of a token *)

Abbreviation Ledger := (gmap (H160 * AccountId) Balance).
Definition supply (t : H160) (m : Ledger) : Z :=
  map_sum (λ k v, if decide (k.1 = t) then v else 0) m.
Definition held (t : H160) (w : AccountId) (m : Ledger) : Balance := unwrap_or 0 (m !! (t, w)).

Lemma supply_insert (t u : H160) (w : AccountId) (v : Balance) (m : Ledger) :
  supply t (<[(u, w) := v]> m) = supply t m + if decide (u = t) then v - held u w m else 0.
Proof.
  unfold supply. rewrite map_sum_insert. unfold term, held. cbn.
  destruct (m !! (u, w)); cbn; case_decide; lia.
Qed.
Lemma held_insert (t u : H160) (w w' : AccountId) (v : Balance) (m : Ledger) :
  held t w (<[(u, w') := v]> m) = if decide ((t, w) = (u, w')) then v else held t w m.
Proof.
  unfold held. case_decide as Heq; [by rewrite Heq, lookup_insert_eq|].
  by rewrite lookup_insert_ne by done.
Qed.

Section TokenProps.
Context `{BridgeConfig}.
Implicit Types (s : Runtime.t).

Definition ledger s : Ledger := TokenStorage.Balances (Runtime.tokens s).
Definition token_supply (t : H160) s : Z := supply t (ledger s).

(** ** Crediting and debiting *)

Lemma update_assets_spec f e s :
  wp (update_assets f e) s (λ _ s', ∃ a, s' = Runtime.upd_assets (λ _, a) s) (λ _ s', s' = s).
Proof. unfold update_assets. wp_step. wp_step. wp_step. wp_step; [|done]. apply wp_modify. by eexists. Qed.
(** What a change of a balance does to the supply; known tokens are elsewhere. *)
Definition unknown (t : H160) s : bool := bool_decide (asset_of t s = None).
Definition changed (t u : H160) (amount : Z) s : Z :=
  if decide (u = t) then if unknown u s then amount else 0 else 0.
Lemma credit_supply t u w amount s :
  wp (credit_user_balance u w amount) s
    (λ r s', r = amount ∧ token_supply t s' = token_supply t s + changed t u amount s) (λ _ _, True).
Proof.
  unfold credit_user_balance, changed, unknown. wp_step. wp_step. destruct (asset_of u s) as [c|].
  - unfold mint_known_token. wp_step. eapply wp_mono; [apply update_assets_spec| |done].
    intros [] s' [a ->]. wp_step. cbn. split; [done|].
    unfold token_supply, ledger. cbn. case_decide; lia.
  - unfold mint_unknown_token, put_balance, token_modify. repeat wp_step; [|done..]. split; [done|].
    unfold checked_add_u128 in *. case_bool_decide; [|done]. simplify_eq.
    unfold token_supply, ledger. cbn. rewrite supply_insert.
    unfold held, balance. destruct (decide (u = t)); lia.
Qed.
Lemma debit_supply t u w amount s :
  wp (debit_user_balance u w amount) s
    (λ _ s', token_supply t s' = token_supply t s - changed t u amount s) (λ _ _, True).
Proof.
  unfold debit_user_balance, changed, unknown. wp_step. wp_step. destruct (asset_of u s) as [c|].
  - unfold burn_known_token. eapply wp_mono; [apply update_assets_spec| |done].
    intros [] s' [a ->]. unfold token_supply, ledger. cbn. case_decide; lia.
  - unfold burn_unknown_token, put_balance, token_modify. repeat wp_step; [|done..].
    unfold checked_sub_u128 in *. case_bool_decide; [|done]. simplify_eq.
    unfold token_supply, ledger. cbn. rewrite supply_insert.
    unfold held, balance. destruct (decide (u = t)); lia.
Qed.
Lemma settle_transfer_supply t u from to amount s :
  wp (settle_transfer u from to amount) s
    (λ _ s', token_supply t s' = token_supply t s) (λ _ _, True).
Proof.
  unfold settle_transfer. case_bool_decide as Hz; [by wp_step|]. wp_step. wp_step.
  destruct (asset_of u s) as [c|].
  - eapply wp_mono; [apply update_assets_spec| |done]. by intros [] s' [a ->].
  - unfold put_balance, token_modify, token_event, deposit_event. repeat wp_step; [|done..].
    unfold checked_add_u128, checked_sub_u128 in *. repeat (case_bool_decide; [|done]). simplify_eq.
    unfold token_supply, ledger. cbn. rewrite !supply_insert, held_insert.
    unfold held, balance in *. cbn in *. assert ((u, from) ≠ (u, to)) by (intros [=]; tauto).
    rewrite lookup_insert_ne in * by done. rewrite (decide_False (P := (u, to) = (u, from))) by congruence.
    destruct (decide (u = t)); lia.
Qed.

Lemma generate_lower_proof_no_panic id p c s : (generate_lower_proof id p c s).1 ≠ Panic.
Proof.
  unfold generate_lower_proof, add_new_lower_proof_request, bridge_result, bounded, queue_request,
    set_up_active_lower_proof, run, create_lower_proof_hash, mbind, M_bind, gets. cbn.
  case_bool_decide; cbn; [|done]. destruct (active_request s); cbn; [by case_bool_decide|].
  pose proof (LowerData_no_panic p). by destruct (LowerData_try_from p).
Qed.

(** ** What calls and events do to the supply *)

Section Supply.
Variable t : H160.
Definition supplied (delta : Z) s (s' : Runtime.t) : Prop := token_supply t s' = token_supply t s + delta.
(** Follow a call that only transfers. *)
Ltac supply_go :=
  repeat first
    [ wp_step
    | progress cbn [ensure_signed ensure_root]
    | lazymatch goal with
      | |- wp (settle_transfer _ _ _ _) _ _ _ =>
          eapply wp_mono; [apply settle_transfer_supply| |done]; cbn beta; intros [] ? <-
      | |- wp (update_assets _ _) _ _ _ =>
          eapply wp_mono; [apply update_assets_spec| |done]; cbn beta; intros [] ? [? ->]
      | |- wp (match ?x with _ => _ end) _ _ _ => destruct x
      | |- True => exact Logic.I
      end ].
Lemma proxied_supply origin call s :
  wp (dispatch_proxied origin call) s (λ _ s', token_supply t s' = token_supply t s) (λ _ _, True).
Proof.
  destruct call; cbn [dispatch_proxied]; unfold signed_transfer, schedule_signed_lower, schedule_lower,
    bump_nonce, token_get, token_modify, token_event, deposit_event; destruct origin; by supply_go.
Qed.
(** What a call burns. *)
Definition burnt (call : TokenCall) s : Z :=
  match call with
  | Call_execute_lower _ _ token_id amount _ _ => changed t token_id amount s
  | _ => 0
  end.
Lemma settle_lower_supply token from to amount recipient id s :
  wp (settle_lower token from to amount recipient id) s
    (λ _ s', supplied (- changed t token amount s) s s') (λ _ _, True).
Proof.
  unfold settle_lower, token_event, deposit_event, token_modify. wp_step.
  eapply wp_mono; [apply (debit_supply t)| |done]. cbn beta. intros [] s1 Hs1. wp_step. wp_step. wp_step.
  assert (∀ p s2, token_supply t s2 = token_supply t s1 →
    wp (generate_lower_proof id p PALLET_ID) s2 (λ _ s', supplied (- changed t token amount s) s s')
      (λ _ _, True)) as Hgo.
  { intros p s2 Hs2. unfold supplied. pose proof (generate_lower_proof_tokens id p PALLET_ID s2) as Ht.
    pose proof (generate_lower_proof_no_panic id p PALLET_ID s2) as Hp. unfold wp.
    destruct (generate_lower_proof _ _ _ s2) as [[] s3]; cbn in *; [|done..].
    unfold token_supply, ledger in *. rewrite Ht. lia. }
  destruct (is_native_token token s1); apply wp_modify; wp_step; wp_step; wp_step; apply wp_modify;
    by apply Hgo.
Qed.
Lemma regenerate_supply origin id s :
  wp (regenerate_lower_proof origin id) s (λ _ s', token_supply t s' = token_supply t s) (λ _ _, True).
Proof.
  assert (∀ p e s1, token_supply t s1 = token_supply t s →
    wp (regenerate_proof id p;; token_event e) s1 (λ _ s', token_supply t s' = token_supply t s)
      (λ _ _, True)) as Hgo.
  { intros p e s1 Hs1. unfold regenerate_proof, token_modify. wp_step. wp_step. apply wp_modify.
    set (s2 := Runtime.upd_tokens _ s1).
    pose proof (generate_lower_proof_tokens id p PALLET_ID s2) as Ht.
    pose proof (generate_lower_proof_no_panic id p PALLET_ID s2) as Hp. unfold wp at 1.
    destruct (generate_lower_proof _ _ _ s2) as [[] s3]; cbn in *; [|done..]. apply wp_modify.
    unfold token_supply, ledger in *. cbn. by rewrite Ht. }
  unfold regenerate_lower_proof, token_get, token_modify. destruct origin; cbn [ensure_signed];
    repeat wp_step; try done. cbn [compose]. destruct (TokenStorage.LowersReadyToClaim _ !! id).
  - by apply Hgo.
  - repeat wp_step. destruct (_ !! id); [by apply Hgo|by wp_step].
Qed.
Lemma token_call_supply origin call s :
  wp (token_call origin call) s (λ _ s', supplied (- burnt call s) s s') (λ _ _, True).
Proof.
  destruct call; cbn [token_call burnt]; unfold supplied; rewrite ?Z.add_0_r.
  - unfold proxy, token_event, deposit_event. destruct origin; supply_go.
    eapply wp_mono; [apply proxied_supply| |done]. cbn beta. intros [] s1 Hs1. by wp_step.
  - apply proxied_supply.
  - unfold transfer_from_treasury, token_event, deposit_event. destruct origin; by supply_go.
  - unfold execute_lower, token_get. destruct origin; cbn [ensure_root]; repeat wp_step; try done.
    apply settle_lower_supply.
  - unfold schedule_direct_lower, schedule_lower, token_get, token_modify, token_event, deposit_event.
    destruct origin; by supply_go.
  - apply regenerate_supply.
  - unfold set_lower_schedule_period, token_modify, token_event, deposit_event.
    destruct origin; by supply_go.
  - unfold toggle_lowering, token_modify, token_event, deposit_event. destruct origin; by supply_go.
  - unfold set_native_token_eth_address, token_get, token_modify, token_event, deposit_event.
    destruct origin; by supply_go.
  - unfold transfer. destruct origin; by supply_go.
Qed.
(** What an event mints. *)
Definition minted (event : EthEvent.t) s : Z :=
  match EthEvent.event_data event with
  | EventData.LogLifted d => changed t (LiftedData.token_contract d) (LiftedData.amount d) s
  | EventData.LogLowerReverted d =>
      changed t (LowerRevertedData.token_contract d) (LowerRevertedData.amount d) s
  | EventData.LogAvtGrowthLifted d =>
      changed t (TokenStorage.AVTTokenContract (Runtime.tokens s))
        (treasury_growth_share (AvtGrowthLiftedData.amount d)) s
  | _ => 0
  end.
Lemma processed_event_supply event s :
  wp (processed_event_handler event) s (λ _ s', supplied (minted event s) s s') (λ _ _, True).
Proof.
  unfold processed_event_handler, minted, supplied. destruct (EthEvent.event_data event);
    try (wp_step; by rewrite Z.add_0_r).
  - unfold process_lift, token_event, deposit_event. repeat wp_step; try done.
    eapply wp_mono; [apply (credit_supply t)| |done]. cbn beta. intros a s1 [_ Hs1]. by repeat wp_step.
  - unfold process_avt_growth_lift, token_get, token_event, deposit_event. repeat wp_step; try done.
    eapply wp_mono; [apply (credit_supply t)| |done]. cbn beta. intros a s1 [_ Hs1].
    repeat wp_step; try done. destruct (on_growth_lifted _ _ _); by wp_step.
  - unfold process_lower_claim, remove_used_lower, token_get, token_modify, token_event, deposit_event.
    repeat wp_step; try done. by rewrite Z.add_0_r.
  - unfold process_lower_reverted, remove_used_lower, token_get, token_modify, token_event, deposit_event.
    repeat wp_step; try done.
    eapply wp_mono; [apply (credit_supply t)| |done]. cbn beta. intros a s1 [_ Hs1]. by repeat wp_step.
Qed.
End Supply.

(** C12: tokens the registry does not know are conserved.  A call on the token
    manager that succeeds changes the sum of the balances of a token only by the
    amount that [execute_lower] burns of it, and one that fails changes nothing;
    an event from Ethereum that is handled adds exactly the amount it lifts or
    refunds, and for growth the share of the treasury. *)
Theorem token_conservation t s :
  (∀ origin call,
     match transactional (token_call origin call) s with
     | (Ok _, s') => token_supply t s' = token_supply t s - burnt t call s
     | (Err _, s') => s' = s
     | (Panic, _) => False
     end) ∧
  (∀ event,
     match processed_event_handler event s with
     | (Ok _, s') => token_supply t s' = token_supply t s + minted t event s
     | (Err _, _) => True
     | (Panic, _) => False
     end).
Proof.
  split.
  - intros origin call. pose proof (token_call_supply t origin call s) as Hw.
    unfold wp, transactional, supplied in *. destruct (token_call origin call s) as [[] s']; [lia|done|done].
  - intros event. pose proof (processed_event_supply t event s) as Hw. unfold wp, supplied in Hw.
    by destruct (processed_event_handler event s) as [[] s'].
Qed.

(** ** Calls of relayers *)

Definition nonces s : gmap AccountId Z := TokenStorage.Nonces (Runtime.tokens s).
Lemma nonces_upd f s : nonces (Runtime.upd_tokens (TokenStorage.upd_Nonces f) s) = f (nonces s).
Proof. done. Qed.
Lemma nonce_eq who s : nonce who s = unwrap_or 0 (nonces s !! who).
Proof. done. Qed.
Lemma settle_transfer_nonces t from to amount : leaves nonces (settle_transfer t from to amount).
Proof.
  unfold settle_transfer, update_assets, put_balance, token_modify, token_event, deposit_event. leaves_tac.
Qed.
Lemma schedule_lower_nonces from to t amount r n : leaves nonces (schedule_lower from to t amount r n).
Proof. unfold schedule_lower, token_get, token_modify, token_event, deposit_event. leaves_tac. Qed.
Lemma leaves_run {A V} (v : Runtime.t → V) (m : Dispatch A) s r s' :
  leaves v m → m s = (r, s') → v s' = v s.
Proof. intros Hv Hm. specialize (Hv s). by rewrite Hm in Hv. Qed.
(** The signer of a call and what they pay with. *)
Definition payer (call : ProxiedCall) : AccountId :=
  match call with
  | Call_signed_transfer _ from _ _ _ | Call_schedule_signed_lower _ from _ _ _ => from
  end.
Lemma dispatch_proxied_Ok signer call s u s' :
  dispatch_proxied (Signed signer) call s = (Ok u, s') →
  payer call = signer ∧
  verify_user_signature (get_proof call)
    (match call with
     | Call_signed_transfer p from to t amount =>
         encode_signed_transfer_params p from to t amount (nonce signer s)
     | Call_schedule_signed_lower p from t amount r =>
         encode_signed_lower_params p from t amount r (nonce signer s)
     end) = true ∧
  nonces s' = <[signer := nonce signer s +₆₄ 1]> (nonces s).
Proof.
  destruct call as [p from to t amount|p from t amount r];
    cbn [dispatch_proxied]; unfold signed_transfer, schedule_signed_lower, bump_nonce, token_get, token_modify;
    cbn [ensure_signed]; intros Hrun; m_inv; rewrite ?bool_decide_eq_true in *; subst;
    cbn [payer get_proof] in *;
    match goal with
    | Hr : settle_transfer _ _ _ _ _ = _ |- _ =>
        apply (leaves_run nonces) in Hr as Hn; [|apply settle_transfer_nonces]
    | Hr : schedule_lower _ _ _ _ _ _ _ = _ |- _ =>
        apply (leaves_run nonces) in Hr as Hn; [|apply schedule_lower_nonces]
    end; (split; [done|]); (split; [done|]); rewrite nonces_upd, !nonce_eq, Hn; reflexivity.
Qed.

(** C34: a call of a relayer goes through only with a signature of its signer over
    its own parameters, the relayer and the next number of the signer, and what it
    spends is the signer's; the number then moves on, so that the same call needs
    a new signature.  The numbers of all others are as they were. *)
Theorem proxied_call_authentic origin call s s' :
  token_call origin (Call_proxy call) s = (Ok (), s') →
  let signer := Proof_.signer (get_proof call) in
  origin = Signed (Proof_.relayer (get_proof call)) ∧ payer call = signer ∧
  call_signature_is_valid call s = true ∧
  nonce signer s' = nonce signer s +₆₄ 1 ∧ (∀ who, who ≠ signer → nonce who s' = nonce who s).
Proof.
  intros Hrun signer. cbn [token_call] in Hrun. unfold proxy, token_event, deposit_event in Hrun.
  destruct origin as [|relayer|]; cbn [ensure_signed] in Hrun; m_inv. rewrite bool_decide_eq_true in *. subst.
  apply dispatch_proxied_Ok in H2 as (Hpay&Hsig&Hn). fold signer in Hpay, Hsig, Hn.
  split; [done|]. split; [done|]. split; [by destruct call|].
  assert (∀ who f, nonce who (Runtime.upd_events f x4) = unwrap_or 0 (nonces x4 !! who)) as Hx by done.
  rewrite Hx, Hn. split; [rewrite lookup_insert_eq; reflexivity|].
  intros who Hwho. by rewrite Hx, Hn, lookup_insert_ne.
Qed.
End TokenProps.

(** ** An example *)

Section Witnesses.
#[local] Existing Instance demo_config.

Definition demo_proof : Proof_.t N := Proof_.mk 50%N 60%N 50%N.
Definition demo_call : ProxiedCall := Call_signed_transfer demo_proof 50%N 51%N 8%N 300.
Definition demo_transferred : Runtime.t := (token_call (Signed 60%N) (Call_proxy demo_call) demo_state).2.
Lemma demo_transfer_run :
  token_call (Signed 60%N) (Call_proxy demo_call) demo_state = (Ok (), demo_transferred).
Proof.
  assert ((token_call (Signed 60%N) (Call_proxy demo_call) demo_state).1 = Ok ()) as Hr
    by (vm_compute; reflexivity).
  unfold demo_transferred. rewrite <- Hr. apply surjective_pairing.
Qed.
Lemma proxied_call_authentic_witness :
  call_signature_is_valid demo_call demo_state = true ∧
  nonce 50%N demo_transferred = nonce 50%N demo_state +₆₄ 1.
Proof.
  pose proof (proxied_call_authentic _ _ _ _ demo_transfer_run) as (_&_&Hsig&Hn&_).
  split; [exact Hsig|exact Hn].
Defined.
End Witnesses.
