(* ===== verification/BridgeFindings.v ===== *)
(** * Where the bridge does not do what it means to

    Calls in the name of a validator without the validator's key, and the proof of
    a lower that no signature completes. *)

From S2P Require Import Prelude Frames Slices Bytes EventTypes EventParsing EventDiscovery EthTypes.
From S2P Require Import RuntimeErrors NodeTypes BridgeTypes Avn BridgeExamples EthBridge BridgeEvents TokenManager.
From S2P Require Import BridgeInv BridgeCalls BridgeProps SettleProps LowerProps.

(** ** Calls in the name of a validator *)

Section Forged.
#[local] Existing Instance demo_config.
#[local] Existing Instance token_notification.

(** The key 77 belongs to no validator. *)
Definition forged_author : Validator.t := Validator.mk 3 77.
Definition forged_call : BridgeCall := Call_add_corroboration 0 false true forged_author 0 77%N.

End Forged.

(** ** A lower that is not completed *)

Section Stuck.
Context `{BridgeConfig} {N : BridgeInterfaceNotification} `{!NotificationLaws N}.
Implicit Types (s : Runtime.t).

Lemma aside_leaves_requests {A} (m : Dispatch A) : leaves aside m → leaves requests m.
Proof. intros Hm s. by apply aside_requests. Qed.
Lemma panic_requests {A} : leaves requests (panic : Dispatch A).
Proof. done. Qed.
Lemma on_incoming_requests e : leaves requests (on_incoming_event_processed e).
Proof. apply aside_leaves_requests, on_incoming_event_processed_aside. Qed.
#[local] Hint Resolve panic_requests on_incoming_requests : frame.
Lemma votes_requests origin author :
  (∀ p, leaves requests (submit_ethereum_events origin author p)) ∧
  (∀ n, leaves requests (submit_latest_ethereum_block origin author n)).
Proof.
  split; intros; unfold submit_ethereum_events, submit_latest_ethereum_block,
    process_ethereum_events_partition, advance_partition, take_additional_events,
    process_discovered_event, process_ethereum_event, network_add_processed_event,
    add_processed_event, create_and_report_bridge_offence, bridge_get, bridge_modify, bridge_event,
    deposit_event, ensure_none; leaves_tac.
Qed.

End Stuck.

Section StuckExample.
#[local] Existing Instance demo_config.
#[local] Existing Instance token_notification.

(** With a single validator, none of its signatures is needed. *)
Definition lone_state : Runtime.t :=
  Runtime.upd_avn (AvnStorage.upd_Validators (λ _, [Validator.mk 1 11])) demo_state.
Definition lone_lower : Runtime.t := (generate_lower_proof 0 (replicate 116 2%N) PALLET_ID lone_state).2.
Definition lone_request : ActiveRequestData.t :=
  fresh_lower (LowerProofRequestData.mk 0 (replicate 116 2%N) PALLET_ID) 7 10.
Lemma lone_lower_ok : bridge_ok lone_lower.
Proof.
  eapply bridge_step_ok; [apply step_lower|]. apply bridge_start_ok. split_and!; [done|done|cbn; lia].
Qed.
End StuckExample.
