(* ===== verification/NodeRewards.v ===== *)
(** * Nodes: heartbeats, reward periods and payouts

    [pallets/node-manager/src/reward.rs], and the parts of
    [pallets/node-manager/src/lib.rs] that drive it: heartbeats, the change of
    period in [on_initialize], the payout of the oldest period in batches, and the
    checks of [offchain.rs] that decide when a heartbeat or a payout is due.  The
    app chains that are told of payouts are an instance of a class. *)

From S2P Require Import Prelude Slices Bytes EventTypes EventParsing EventDiscovery EthTypes.
From S2P Require Import RuntimeErrors NodeTypes BridgeTypes Avn EthBridge BridgeEvents TokenManager.
From S2P Require Import NodeStake.

(** [AppChainInterface] of [primitives/avn-common/src/lib.rs], without weights. *)
Class AppChainInterface `{BridgeConfig} := {
  on_new_reward_period : RewardPeriodIndex → Dispatch unit;
  on_reward_paid : RewardPeriodIndex → AccountId → NodeId → Duration → Perquintill → Dispatch unit;
  on_reward_period_completed : RewardPeriodIndex → Dispatch unit;
}.

Section NodeRewards.
Context `{BridgeConfig} `{!NodeConfig} `{!AppChainInterface}.

(** ** Uptimes of a period, in the order of their keys *)

Definition uptime (period : RewardPeriodIndex) (node : NodeId) (s : Runtime.t) :
    option UptimeInfo.t :=
  NodeStorage.NodeUptime (Runtime.nodes s) !! (period, node).
Definition uptimes_of (period : RewardPeriodIndex)
    (m : gmap (RewardPeriodIndex * NodeId) UptimeInfo.t) : list (NodeId * UptimeInfo.t) :=
  prefix_of node_position period m.
(** [NodeUptime::iter_prefix]. *)
Definition uptimes (period : RewardPeriodIndex) (s : Runtime.t) : list (NodeId * UptimeInfo.t) :=
  uptimes_of period (NodeStorage.NodeUptime (Runtime.nodes s)).
(** [NodeUptime::iter_prefix_from] the key of a node. *)
Definition uptimes_after (period : RewardPeriodIndex) (node : NodeId) (s : Runtime.t) :
    list (NodeId * UptimeInfo.t) :=
  filter (λ x, (node_position node < node_position x.1)%N) (uptimes period s).
Definition total_uptime (period : RewardPeriodIndex) (s : Runtime.t) : TotalUptimeInfo.t :=
  unwrap_or (TotalUptimeInfo.mk 0 0) (NodeStorage.TotalUptime (Runtime.nodes s) !! period).

(** ** Rewards *)

Definition calculate_node_weight (uptime_info : UptimeInfo.t) (info : NodeInfo.t)
    (uptime_threshold : Z) (reward_period_end_time : Duration) (s : Runtime.t) : Z :=
  if bool_decide (uptime_threshold < UptimeInfo.count uptime_info) then
    let single_node_weight := effective_heartbeat_weight info reward_period_end_time s in
    saturating_mul_to u128_max single_node_weight uptime_threshold
  else UptimeInfo.weight uptime_info.
Definition calculate_reward (weight total_weight : Z) (total_reward : Balance) :
    outcome DispatchError (Balance * Perquintill) :=
  if bool_decide (total_weight = 0) then Err Arithmetic
  else
    let ratio := perquintill_from_rational weight total_weight in
    Ok (perquintill_mul_floor ratio total_reward, ratio).
Definition calculate_reward_fee (amount : Balance) (s : Runtime.t) : Balance :=
  perbill_mul_floor (NodeStorage.RewardFeePercentage (Runtime.nodes s)) amount.
Definition reward_pot_balance (s : Runtime.t) : Balance :=
  native_free_balance (Runtime.assets s) RewardPotAccount ⊖ native_minimum_balance.

(** [PaymentHandler::pay_treasury] of the token manager. *)
Definition pay_treasury (amount : Balance) (payer : AccountId) : Dispatch unit :=
  token ← token_get TokenStorage.AVTTokenContract;
  settle_transfer token payer TreasuryAccount amount.

Definition pay_reward (period : RewardPeriodIndex) (node_id : NodeId) (info : NodeInfo.t)
    (amount : Balance) (reward_percentage : Perquintill) : Dispatch unit :=
  let node_owner := NodeInfo.owner info in
  (if bool_decide (reward_percentage = 0) then mret ()
   else on_reward_paid period node_owner node_id (NodeInfo.auto_stake_expiry info)
          reward_percentage);;
  if bool_decide (amount = 0) then node_event (NodeEvent.RewardPaid period node_owner node_id amount)
  else
    reward_fee ← gets (calculate_reward_fee amount);
    let net_reward := amount ⊖ reward_fee in
    update_assets (native_transfer RewardPotAccount node_owner net_reward) External;;
    node_event (NodeEvent.RewardPaid period node_owner node_id net_reward);;
    (if bool_decide (0 < reward_fee) then try (pay_treasury reward_fee RewardPotAccount);; mret ()
     else mret ());;
    if bool_decide (net_reward <= 0) then mret ()
    else
      now ← gets Runtime.now;
      if bool_decide (now < NodeInfo.auto_stake_expiry info) || NodeInfo.auto_stake_rewards info then
        r ← try (do_add_stake node_owner node_id net_reward);
        match r with
        | inr _ => node_event (NodeEvent.RewardAutoStaked period node_owner node_id net_reward)
        | inl _ => mret ()
        end
      else mret ().

Definition remove_paid_nodes (period_index : RewardPeriodIndex) (paid_nodes : list NodeId) :
    Dispatch unit :=
  for_each (λ node, node_modify (NodeStorage.upd_NodeUptime (delete (period_index, node)))) paid_nodes.
Definition complete_reward_payout (period_index : RewardPeriodIndex) : Dispatch unit :=
  pot ← node_get NodeStorage.RewardPot;
  (match pot !! period_index with
   | Some reward_pot =>
       node_modify (NodeStorage.upd_OutstandingRewardToPay
                      (λ outstanding, outstanding ⊖ RewardPotInfo.total_reward reward_pot))
   | None => mret ()
   end);;
  node_modify (NodeStorage.upd_OldestUnpaidRewardPeriodIndex
                 (λ _, saturating_add_to u64_max period_index 1));;
  node_modify (NodeStorage.upd_LastPaidPointer (λ _, None));;
  node_modify (NodeStorage.upd_TotalUptime (delete period_index));;
  node_modify (NodeStorage.upd_RewardPot (delete period_index));;
  on_reward_period_completed period_index;;
  node_event (NodeEvent.RewardPayoutCompleted period_index).
Definition update_last_paid_pointer (period_index : RewardPeriodIndex)
    (last_node_paid : option NodeId) : Dispatch unit :=
  match last_node_paid with
  | Some node =>
      node_modify (NodeStorage.upd_LastPaidPointer
                     (λ _, Some (PaymentPointer.mk period_index node)))
  | None => mret ()
  end.
Definition get_iterator_from_last_paid (oldest_period : RewardPeriodIndex)
    (last_paid_pointer : PaymentPointer.t) : Dispatch (list (NodeId * UptimeInfo.t)) :=
  ensure (bool_decide (PaymentPointer.period_index last_paid_pointer = oldest_period))
    NodeError.InvalidPeriodPointer;;
  u ← gets (uptime oldest_period (PaymentPointer.node last_paid_pointer));
  ensure (bool_decide (u = None)) NodeError.InvalidNodePointer;;
  gets (uptimes_after oldest_period (PaymentPointer.node last_paid_pointer)).

(** ** Payouts *)

(** The closure [pay] of [offchain_pay_nodes]. *)
Definition pay_node (oldest_period : RewardPeriodIndex) (total_weight : Z)
    (reward_pot : RewardPotInfo.t) (node : NodeId) (uptime : UptimeInfo.t) : Dispatch unit :=
  info ← gets (node_info node);
  info ← ok_or info NodeError.NodeNotRegistered;
  node_weight ← gets (calculate_node_weight uptime info (RewardPotInfo.uptime_threshold reward_pot)
                        (RewardPotInfo.reward_end_time reward_pot));
  reward ← lift_outcome (calculate_reward node_weight total_weight
                           (RewardPotInfo.total_reward reward_pot));
  let '(reward_amount, reward_percentage) := reward in
  pay_reward oldest_period node info reward_amount reward_percentage.
(** A payment that fails is reported and the next one is made. *)
Definition try_pay_node (oldest_period : RewardPeriodIndex) (total_weight : Z)
    (reward_pot : RewardPotInfo.t) (x : NodeId * UptimeInfo.t) : Dispatch unit :=
  r ← try (pay_node oldest_period total_weight reward_pot x.1 x.2);
  match r with
  | inl e => node_event (NodeEvent.ErrorPayingReward oldest_period x.1 e)
  | inr _ => mret ()
  end.
Definition offchain_pay_nodes (origin : Origin) (reward_period_index : RewardPeriodIndex) :
    Dispatch unit :=
  ensure_none origin;;
  oldest_period ← node_get NodeStorage.OldestUnpaidRewardPeriodIndex;
  period ← node_get NodeStorage.RewardPeriod;
  ensure (bool_decide (reward_period_index = oldest_period ∧
                       oldest_period < RewardPeriodInfo.current period))
    NodeError.InvalidRewardPaymentRequest;;
  total ← gets (total_uptime oldest_period);
  all ← gets (uptimes oldest_period);
  let total_weight := TotalUptimeInfo.total_weight total in
  if bool_decide (total_weight = 0 ∧ head all = None) then complete_reward_payout oldest_period
  else
    ensure (bool_decide (0 < total_weight)) NodeError.TotalUptimeNotFound;;
    ensure (negb (bool_decide (head all = None))) NodeError.NodeUptimeNotFound;;
    pots ← node_get NodeStorage.RewardPot;
    reward_pot ← ok_or (pots !! oldest_period) NodeError.RewardPotNotFound;
    pointer ← node_get NodeStorage.LastPaidPointer;
    iter ←
      (match pointer with
       | Some pointer => get_iterator_from_last_paid oldest_period pointer
       | None =>
           funds ← gets reward_pot_balance;
           ensure (bool_decide (RewardPotInfo.total_reward reward_pot <= funds))
             NodeError.InsufficientBalanceForReward;;
           mret all
       end);
    batch_size ← node_get NodeStorage.MaxBatchSize;
    let batch := take (Z.to_nat batch_size) iter in
    for_each (try_pay_node oldest_period total_weight reward_pot) batch;;
    remove_paid_nodes oldest_period batch.*1;;
    if bool_decide (head (drop (Z.to_nat batch_size) iter) = None) then
      complete_reward_payout oldest_period
    else update_last_paid_pointer oldest_period (last batch.*1).

(** ** Heartbeats *)

Definition validate_heartbeats (node : NodeId) (reward_period_index : RewardPeriodIndex)
    (heartbeat_count : Z) : Dispatch unit :=
  info ← gets (node_info node);
  ensure (negb (bool_decide (info = None))) NodeError.NodeNotRegistered;;
  reward_period ← node_get NodeStorage.RewardPeriod;
  maybe_uptime_info ← gets (uptime reward_period_index node);
  ensure (bool_decide (RewardPeriodInfo.current reward_period = reward_period_index))
    NodeError.InvalidHeartbeat;;
  match maybe_uptime_info with
  | Some uptime_info =>
      ensure (bool_decide (UptimeInfo.count uptime_info <
                           RewardPeriodInfo.uptime_threshold reward_period))
        NodeError.HeartbeatThresholdReached;;
      let expected_submission :=
        UptimeInfo.last_reported uptime_info +₃₂ RewardPeriodInfo.heartbeat_period reward_period in
      block_number ← gets Runtime.block_number;
      ensure (bool_decide (expected_submission <= block_number)) NodeError.DuplicateHeartbeat;;
      ensure (bool_decide (heartbeat_count = UptimeInfo.count uptime_info)) NodeError.InvalidHeartbeat
  | None => ensure (bool_decide (heartbeat_count = 0)) NodeError.InvalidHeartbeat
  end.
Definition offchain_submit_heartbeat (origin : Origin) (node : NodeId)
    (reward_period_index : RewardPeriodIndex) (heartbeat_count : Z) : Dispatch unit :=
  ensure_none origin;;
  validate_heartbeats node reward_period_index heartbeat_count;;
  period ← node_get NodeStorage.RewardPeriod;
  let current := RewardPeriodInfo.current period in
  info ← gets (node_info node);
  info ← ok_or info NodeError.NodeNotRegistered;
  now ← gets Runtime.block_number;
  now_sec ← gets Runtime.now;
  maybe_info ← gets (uptime current node);
  node_weight ← gets (effective_heartbeat_weight info now_sec);
  let u := unwrap_or (UptimeInfo.mk 0 0 now) maybe_info in
  node_modify (NodeStorage.upd_NodeUptime (insert (current, node)
    (UptimeInfo.mk (saturating_add_to u64_max (UptimeInfo.count u) 1)
       (UptimeInfo.weight u ⊕ node_weight) now)));;
  total ← gets (total_uptime current);
  node_modify (NodeStorage.upd_TotalUptime (insert current
    (TotalUptimeInfo.mk (saturating_add_to u64_max (TotalUptimeInfo.total_heartbeats total) 1)
       (TotalUptimeInfo.total_weight total ⊕ node_weight))));;
  node_event (NodeEvent.HeartbeatReceived current node).

(** ** Reward periods *)

Definition get_default_threshold : Perbill := perbill_from_percent 33.
(** [saturating_div] panics when the divisor is zero. *)
Definition calculate_uptime_threshold (reward_period_length heartbeat_period : Z) : Dispatch Z :=
  threshold ← node_get NodeStorage.MinUptimeThreshold;
  max_heartbeats ←
    expect (if bool_decide (heartbeat_period = 0) then None
            else Some (reward_period_length / heartbeat_period));
  mret (perbill_mul (unwrap_or get_default_threshold threshold) max_heartbeats).
Definition on_initialize (n : Z) : Dispatch unit :=
  enabled ← node_get NodeStorage.RewardEnabled;
  reward_period ← node_get NodeStorage.RewardPeriod;
  if negb enabled || negb (should_update reward_period n) then mret ()
  else
    next_length ← node_get NodeStorage.NextRewardPeriodLength;
    next_heartbeat_period ← node_get NodeStorage.NextHeartbeatPeriod;
    if bool_decide (next_length = 0 ∨ next_heartbeat_period = 0) then mret ()
    else
      let reward_amount := RewardPeriodInfo.reward_amount reward_period in
      next_reward_amount ← node_get NodeStorage.NextRewardAmountPerPeriod;
      next_uptime_threshold ← calculate_uptime_threshold next_length next_heartbeat_period;
      let next := update reward_period n next_length next_heartbeat_period next_uptime_threshold
                    next_reward_amount in
      node_modify (NodeStorage.upd_RewardPeriod (λ _, next));;
      now ← gets Runtime.now;
      node_modify (NodeStorage.upd_RewardPot (insert (RewardPeriodInfo.current reward_period)
        (RewardPotInfo.mk reward_amount (RewardPeriodInfo.uptime_threshold reward_period) now)));;
      node_modify (NodeStorage.upd_OutstandingRewardToPay (λ outstanding, outstanding ⊕ reward_amount));;
      on_new_reward_period (RewardPeriodInfo.current next);;
      node_event (NodeEvent.NewRewardPeriodStarted (RewardPeriodInfo.current next)
        (RewardPeriodInfo.length next) (RewardPeriodInfo.uptime_threshold next) reward_amount).

(** ** The worker of a node

    What it decides from the storage; [in_progress] is what it remembers of its own
    submission. *)

Definition should_send_heartbeat (in_progress : bool) (block_number : Z)
    (uptime_info : option UptimeInfo.t) (reward_period : RewardPeriodInfo.t) : bool :=
  if in_progress then false
  else
    match uptime_info with
    | Some u =>
        bool_decide (UptimeInfo.count u < RewardPeriodInfo.uptime_threshold reward_period) &&
        bool_decide (UptimeInfo.last_reported u +₃₂ RewardPeriodInfo.heartbeat_period reward_period
                     <= block_number)
    | None => true
    end.
Definition can_trigger_payment (s : Runtime.t) : bool :=
  negb (bool_decide (RewardPeriodInfo.current (NodeStorage.RewardPeriod (Runtime.nodes s)) <=
                     NodeStorage.OldestUnpaidRewardPeriodIndex (Runtime.nodes s))).
(** [binary_search] on the sorted keys of the node. *)
Definition match_node_id_to_signing_key (node_id : NodeId) (local_keys : list SignerId)
    (s : Runtime.t) : option (NodeId * SignerId) :=
  info ← node_info node_id s;
  if bool_decide (NodeInfo.signing_key info ∈ local_keys) then Some (node_id, NodeInfo.signing_key info)
  else None.
Fixpoint search_node_id_by_signing_key (local_keys : list SignerId) (s : Runtime.t) :
    option (NodeId * SignerId) :=
  match local_keys with
  | [] => None
  | key :: keys =>
      match NodeStorage.SigningKeyToNodeId (Runtime.nodes s) !! key with
      | Some node_id =>
          match node_info node_id s with
          | Some info =>
              if bool_decide (NodeInfo.signing_key info = key) then Some (node_id, key)
              else search_node_id_by_signing_key keys s
          | None => search_node_id_by_signing_key keys s
          end
      | None => search_node_id_by_signing_key keys s
      end
  end.
End NodeRewards.
