(* ===== verification/NodeManager.v ===== *)
(** * The node manager

    The dispatchables, hooks and notifications of
    [pallets/node-manager/src/lib.rs]: registration and transfer of nodes, settings,
    the requests to mint rewards on Ethereum, the admission of unsigned calls, and
    the genesis of the pallet. *)

From S2P Require Import Prelude Slices Bytes EventTypes EventParsing EventDiscovery EthTypes.
From S2P Require Import RuntimeErrors NodeTypes BridgeTypes Avn EthBridge BridgeEvents TokenManager.
From S2P Require Import NodeStake NodeRewards.

Definition MAX_BATCH_SIZE : Z := 1000.
Definition MINT_SAFETY_CAP_MULTIPLIER : Z := 4.
Definition NODE_MANAGER_PALLET_ID : bytes := b "node-manager".
Definition checked_mul_u128 (x y : Z) : option Z :=
  if bool_decide (x * y <= u128_max) then Some (x * y) else None.

Inductive TransactionSource : Set := Local | InBlock | ExternalSource.

Section NodeManager.
Context `{BridgeConfig} `{!NodeConfig}.

(** ** The index of signing keys *)

Definition node_of_key (key : SignerId) (s : Runtime.t) : option NodeId :=
  NodeStorage.SigningKeyToNodeId (Runtime.nodes s) !! key.
Definition insert_signing_key_index (node : NodeId) (signing_key : SignerId) : Dispatch unit :=
  existing ← gets (node_of_key signing_key);
  match existing with
  | Some existing_node =>
      ensure (bool_decide (existing_node = node)) NodeError.SigningKeyAlreadyInUse
  | None => node_modify (NodeStorage.upd_SigningKeyToNodeId (insert signing_key node))
  end.
Definition remove_signing_key_index (node : NodeId) (signing_key : SignerId) : Dispatch unit :=
  existing ← gets (node_of_key signing_key);
  match existing with
  | Some existing_node =>
      ensure (bool_decide (existing_node = node)) NodeError.InvalidSigningKey;;
      node_modify (NodeStorage.upd_SigningKeyToNodeId (delete signing_key))
  | None => mret ()
  end.
Definition rotate_signing_key_index (node : NodeId) (old_key new_key : SignerId) : Dispatch unit :=
  if bool_decide (old_key = new_key) then mret ()
  else
    remove_signing_key_index node old_key;;
    insert_signing_key_index node new_key.

(** ** Registration *)

Definition owns (owner : AccountId) (node : NodeId) (s : Runtime.t) : bool :=
  bool_decide ((owner, node) ∈ NodeStorage.OwnedNodes (Runtime.nodes s)).
Definition owned_count (owner : AccountId) (s : Runtime.t) : Z :=
  unwrap_or 0 (NodeStorage.OwnedNodesCount (Runtime.nodes s) !! owner).
Definition mutate_owned_count (owner : AccountId) (f : Z → Z) : Dispatch unit :=
  n ← gets (owned_count owner);
  node_modify (NodeStorage.upd_OwnedNodesCount (insert owner (f n))).

Definition calculate_auto_stake_expiry (s : Runtime.t) : Duration :=
  saturating_add_to u64_max (Runtime.now s) (NodeStorage.AutoStakeDurationSec (Runtime.nodes s)).
Definition calculate_node_serial (is_bonus : bool) : Dispatch Z :=
  if is_bonus then
    current ← node_get NodeStorage.NextBonusNodeSerialNumber;
    node_modify (NodeStorage.upd_NextBonusNodeSerialNumber (λ n, n ⊕₃₂ 1));;
    mret current
  else
    current ← node_get NodeStorage.NextNodeSerialNumber;
    node_modify (NodeStorage.upd_NextNodeSerialNumber (λ n, n ⊕₃₂ 1));;
    mret current.
Definition is_bonus_node (info : NodeInfo.t) : bool :=
  bool_decide (BonusNodeSerialStart <= NodeInfo.serial_number info).

Definition do_register_node (node : NodeId) (owner : AccountId) (signing_key : SignerId)
    (auto_stake_rewards is_bonus : bool) : Dispatch unit :=
  info ← gets (node_info node);
  ensure (bool_decide (info = None)) NodeError.DuplicateNode;;
  existing ← gets (node_of_key signing_key);
  ensure (bool_decide (existing = None)) NodeError.SigningKeyAlreadyInUse;;
  next ← node_get NodeStorage.NextNodeSerialNumber;
  ensure (is_bonus || bool_decide (next < BonusNodeSerialStart)) NodeError.NodeSerialLimitReached;;
  auto_stake_expiry ← gets calculate_auto_stake_expiry;
  node_modify (NodeStorage.upd_OwnedNodes (union {[(owner, node)]}));;
  mutate_owned_count owner (λ n, n ⊕₃₂ 1);;
  node_modify (NodeStorage.upd_TotalRegisteredNodes (λ n, n ⊕₃₂ 1));;
  (if is_bonus then node_modify (NodeStorage.upd_TotalRegisteredBonusNodes (λ n, n ⊕₃₂ 1))
   else mret ());;
  insert_signing_key_index node signing_key;;
  node_serial_number ← calculate_node_serial is_bonus;
  put_node node (NodeInfo.mk owner signing_key node_serial_number auto_stake_expiry
                   auto_stake_rewards (StakeInfo.mk 0 0 None UnstakeRestriction.Locked));;
  node_event (NodeEvent.NodeRegistered owner node).

Definition deregister_node (owner : AccountId) (node : NodeId) : Dispatch unit :=
  owned ← gets (owns owner node);
  ensure owned NodeError.NodeNotOwnedByOwner;;
  info ← gets (node_info node);
  info ← ok_or info NodeError.NodeNotRegistered;
  node_modify (NodeStorage.upd_NodeRegistry (delete node));;
  remove_signing_key_index node (NodeInfo.signing_key info);;
  node_modify (NodeStorage.upd_OwnedNodes (λ o, o ∖ {[(owner, node)]}));;
  node_modify (NodeStorage.upd_GenesisOverrides (delete (NodeInfo.serial_number info)));;
  mutate_owned_count owner (λ n, n ⊖ 1);;
  node_modify (NodeStorage.upd_TotalRegisteredNodes (λ n, n ⊖ 1));;
  (if is_bonus_node info then node_modify (NodeStorage.upd_TotalRegisteredBonusNodes (λ n, n ⊖ 1))
   else mret ());;
  let amount := StakeInfo.amount (NodeInfo.stake info) in
  (if bool_decide (amount = 0) then mret ()
   else
     update_reserves owner amount Remove;;
     lower_total_stake owner amount);;
  node_event (NodeEvent.NodeDeregistered owner node).
Definition do_deregister_nodes (owner : AccountId) (nodes : list NodeId) : Dispatch unit :=
  for_each (deregister_node owner) nodes.

(** ** Transfer of nodes *)

Definition move_reserved_balance (from to : AccountId) (amount : Balance) : Dispatch unit :=
  a ← gets Runtime.assets;
  let '(leftover, a) := native_unreserve from amount a in
  modify (Runtime.upd_assets (λ _, a));;
  ensure (bool_decide (leftover = 0)) NodeError.InsufficientStakedBalance;;
  update_assets (native_transfer_allow_death from to amount) NodeError.InsufficientFreeBalance;;
  update_assets (native_reserve to amount) NodeError.ReserveFailed.
(** What follows the transfer of [n] nodes with [amount] staked on them. *)
Definition move_owner_totals (current_owner new_owner : AccountId) (n : Z) (amount : Balance) :
    Dispatch unit :=
  mutate_owned_count current_owner (λ c, c ⊖ n);;
  mutate_owned_count new_owner (λ c, c ⊕₃₂ n);;
  if bool_decide (amount = 0) then mret ()
  else
    move_reserved_balance current_owner new_owner amount;;
    lower_total_stake current_owner amount;;
    raise_total_stake new_owner amount.
Definition move_node (current_owner new_owner : AccountId) (total_stake_moved : Balance)
    (node_id : NodeId) : Dispatch Balance :=
  owned ← gets (owns current_owner node_id);
  ensure owned NodeError.NodeNotOwnedByOwner;;
  info ← gets (node_info node_id);
  info ← ok_or info NodeError.NodeNotRegistered;
  let stake := StakeInfo.amount (NodeInfo.stake info) in
  total_stake_moved ←
    (if bool_decide (stake = 0) then mret total_stake_moved
     else ok_or (checked_add_u128 total_stake_moved stake) NodeError.BalanceOverflow);
  put_node node_id (NodeInfo.upd_owner (λ _, new_owner) info);;
  node_modify (NodeStorage.upd_OwnedNodes (λ o, o ∖ {[(current_owner, node_id)]}));;
  node_modify (NodeStorage.upd_OwnedNodes (union {[(new_owner, node_id)]}));;
  node_event (NodeEvent.NodeMoved current_owner new_owner node_id stake);;
  mret total_stake_moved.
Definition do_move_nodes (current_owner new_owner : AccountId) (nodes : list NodeId) :
    Dispatch unit :=
  total_stake_moved ← fold_m (move_node current_owner new_owner) 0 nodes;
  move_owner_totals current_owner new_owner (wrap_to u32_max (Z.of_nat (length nodes)))
    total_stake_moved.

(** The first pass of [do_move_nodes_with_stake]: the nodes are checked and read. *)
Definition check_moved_node (current_owner : AccountId) (now : Duration)
    (acc : Balance * list NodeInfo.t * gset NodeId) (node_id : NodeId) :
    Dispatch (Balance * list NodeInfo.t * gset NodeId) :=
  let '(total, infos, seen) := acc in
  ensure (negb (bool_decide (node_id ∈ seen))) NodeError.DuplicateNodeInList;;
  owned ← gets (owns current_owner node_id);
  ensure owned NodeError.NodeNotOwnedByOwner;;
  info ← gets (node_info node_id);
  info ← ok_or info NodeError.NodeNotRegistered;
  ensure (bool_decide (now < NodeInfo.auto_stake_expiry info)) NodeError.AutoStakeExpired;;
  total ← ok_or (checked_add_u128 total (StakeInfo.amount (NodeInfo.stake info)))
            NodeError.BalanceOverflow;
  mret (total, infos ++ [info], {[node_id]} ∪ seen).
(** The second pass: the node at index [i] of [n] gets its part of the stake. *)
Definition move_node_with_stake (current_owner new_owner : AccountId) (n : nat)
    (per_node dust : Balance) (x : nat * (NodeId * NodeInfo.t)) : Dispatch unit :=
  let '(i, (node_id, info)) := x in
  target ←
    (if bool_decide (i = n - 1)%nat
     then ok_or (checked_add_u128 per_node dust) NodeError.BalanceOverflow
     else mret per_node);
  put_node node_id
    (NodeInfo.upd_owner (λ _, new_owner)
       (NodeInfo.upd_stake (StakeInfo.upd_amount (λ _, target)) info));;
  node_modify (NodeStorage.upd_OwnedNodes (λ o, o ∖ {[(current_owner, node_id)]}));;
  node_modify (NodeStorage.upd_OwnedNodes (union {[(new_owner, node_id)]}));;
  node_event (NodeEvent.NodeMoved current_owner new_owner node_id target).
Definition do_move_nodes_with_stake (current_owner new_owner : AccountId) (nodes : list NodeId)
    (stake_amount : Balance) : Dispatch unit :=
  ensure (negb (bool_decide (nodes = []))) NodeError.EmptyNodeList;;
  let n := length nodes in
  let n_balance := wrap_to u32_max (Z.of_nat n) in
  let per_node := stake_amount / n_balance in
  let dust := stake_amount mod n_balance in
  now ← gets Runtime.now;
  acc ← fold_m (check_moved_node current_owner now) (0, [], ∅) nodes;
  let '(nodes_current_total, node_infos, _) := acc in
  ensure (bool_decide (nodes_current_total = stake_amount)) NodeError.StakeMismatch;;
  for_each (move_node_with_stake current_owner new_owner n per_node dust)
    (zip (seq 0 n) (zip nodes node_infos));;
  move_owner_totals current_owner new_owner (wrap_to u32_max (Z.of_nat n)) stake_amount.

(** ** Minting *)

Definition pending_mint (s : Runtime.t) : option PendingMintRequest.t :=
  NodeStorage.PendingMintRequestState (Runtime.nodes s).
Definition put_pending_mint (p : option PendingMintRequest.t) : Dispatch unit :=
  node_modify (NodeStorage.upd_PendingMintRequestState (λ _, p)).
Definition next_mint_amount_to_request (s : Runtime.t) : option Balance :=
  let n := Runtime.nodes s in
  if bool_decide (pending_mint s ≠ None) then None
  else if bool_decide (NodeStorage.NumPeriodsToMint n = 0) then None
  else if bool_decide (NodeStorage.NextRewardAmountPerPeriod n = 0) then None
  else
    let current_balance := reward_pot_balance s in
    runway ← checked_mul_u128 (NodeStorage.NextRewardAmountPerPeriod n) (NodeStorage.NumPeriodsToMint n);
    refill_threshold ← checked_add_u128 (NodeStorage.OutstandingRewardToPay n) runway;
    target ← checked_add_u128 refill_threshold runway;
    if bool_decide (refill_threshold <= current_balance) then None
    else
      mint_amount ← checked_sub_u128 target current_balance;
      let max_mint := saturating_mul_to u128_max runway MINT_SAFETY_CAP_MULTIPLIER in
      if bool_decide (max_mint < mint_amount) then None else Some mint_amount.

Definition credit_reward_pot (raw_amount : Z) : Dispatch unit :=
  modify (Runtime.upd_assets (native_deposit_creating RewardPotAccount raw_amount)).
Definition resolve_pending_mint_request (tx_id : EthereumId) (succeeded : bool) : Dispatch unit :=
  put_pending_mint None;;
  node_event (NodeEvent.MintRequestResolved tx_id succeeded).
Definition process_mint_request_result (tx_id : EthereumId) (succeeded : bool) : Dispatch unit :=
  pending ← gets pending_mint;
  match pending with
  | Some pending =>
      if bool_decide (PendingMintRequest.tx_id pending = tx_id) then
        if negb succeeded then resolve_pending_mint_request tx_id false
        else if PendingMintRequest.credit_received pending then resolve_pending_mint_request tx_id true
        else put_pending_mint (Some (PendingMintRequest.upd_bridge_confirmed (λ _, true) pending))
      else mret ()
  | None => mret ()
  end.
Definition process_rewards_minted (event : EthEvent.t) (data : TotalSupplyUpdatedData.t) :
    Dispatch unit :=
  event_validity ← gets (processed_event_exists (EthEvent.event_id event));
  ensure event_validity NodeError.NoTier1MintEventFound;;
  ensure (bool_decide (0 < TotalSupplyUpdatedData.amount data)) NodeError.ZeroAmount;;
  credit_reward_pot (TotalSupplyUpdatedData.amount data);;
  if bool_decide (TotalSupplyUpdatedData.t2_tx_id data = 0) then mret ()
  else
    pending ← gets pending_mint;
    match pending with
    | Some pending =>
        if bool_decide (PendingMintRequest.tx_id pending = TotalSupplyUpdatedData.t2_tx_id data) then
          if PendingMintRequest.bridge_confirmed pending then
            resolve_pending_mint_request (TotalSupplyUpdatedData.t2_tx_id data) true
          else put_pending_mint (Some (PendingMintRequest.upd_credit_received (λ _, true) pending))
        else mret ()
    | None => mret ()
    end.
Definition node_processed_event_handler (event : EthEvent.t) : Dispatch unit :=
  match EthEvent.event_data event with
  | EventData.LogRewardsMinted d => process_rewards_minted event d
  | _ => mret ()
  end.
Definition node_process_result (tx_id : EthereumId) (caller_id : bytes) (succeeded : bool) :
    Dispatch unit :=
  if bool_decide (caller_id = NODE_MANAGER_PALLET_ID) then process_mint_request_result tx_id succeeded
  else mret ().
(** [impl BridgeInterfaceNotification for Pallet]. *)
Definition node_notification : BridgeInterfaceNotification := {|
  process_result := node_process_result;
  process_lower_proof_result _ _ _ := mret ();
  on_incoming_event_processed := node_processed_event_handler;
|}.
End NodeManager.

(** ** Dispatchables *)

Section NodeCalls.
Context `{BridgeConfig} `{!NodeConfig} `{!BridgeInterfaceNotification} `{!AppChainInterface}.

Definition ensure_registrar (who : AccountId) : Dispatch unit :=
  registrar ← node_get NodeStorage.NodeRegistrar;
  registrar ← ok_or registrar NodeError.RegistrarNotSet;
  ensure (bool_decide (who = registrar)) NodeError.OriginNotRegistrar.
Definition register_node (origin : Origin) (node : NodeId) (owner : AccountId)
    (signing_key : SignerId) (is_bonus : bool) : Dispatch unit :=
  who ← ensure_signed origin;
  ensure_registrar who;;
  do_register_node node owner signing_key true is_bonus.

Definition set_node_admin_config (origin : Origin) (config : AdminConfig.t) : Dispatch unit :=
  ensure_root origin;;
  match config with
  | AdminConfig.NodeRegistrar registrar =>
      node_modify (NodeStorage.upd_NodeRegistrar (λ _, Some registrar));;
      node_event (NodeEvent.NodeRegistrarSet registrar)
  | AdminConfig.NextRewardPeriodLength period =>
      heartbeat ← node_get NodeStorage.NextHeartbeatPeriod;
      ensure (bool_decide (heartbeat < period)) NodeError.RewardPeriodInvalid;;
      p ← node_get NodeStorage.RewardPeriod;
      old_period ← node_get NodeStorage.NextRewardPeriodLength;
      node_modify (NodeStorage.upd_NextRewardPeriodLength (λ _, period));;
      node_event (NodeEvent.RewardPeriodLengthSet (RewardPeriodInfo.current p) old_period period)
  | AdminConfig.BatchSize size =>
      ensure (bool_decide (0 < size <= MAX_BATCH_SIZE)) NodeError.BatchSizeInvalid;;
      node_modify (NodeStorage.upd_MaxBatchSize (λ _, size));;
      node_event (NodeEvent.BatchSizeSet size)
  | AdminConfig.NextHeartbeatPeriod period =>
      next_reward_period_length ← node_get NodeStorage.NextRewardPeriodLength;
      ensure (bool_decide (0 < period)) NodeError.NextHeartbeatPeriodZero;;
      ensure (bool_decide (period < next_reward_period_length)) NodeError.NextHeartbeatPeriodInvalid;;
      node_modify (NodeStorage.upd_NextHeartbeatPeriod (λ _, period));;
      node_event (NodeEvent.NextHeartbeatPeriodSet period)
  | AdminConfig.NextRewardAmountPerPeriod amount =>
      ensure (bool_decide (0 < amount)) NodeError.NextRewardAmountPerPeriodZero;;
      node_modify (NodeStorage.upd_NextRewardAmountPerPeriod (λ _, amount));;
      node_event (NodeEvent.NextRewardAmountPerPeriodSet amount)
  | AdminConfig.NumPeriodsToMint periods =>
      node_modify (NodeStorage.upd_NumPeriodsToMint (λ _, periods));;
      node_event (NodeEvent.NumPeriodsToMintSet periods)
  | AdminConfig.RewardEnabled enabled =>
      node_modify (NodeStorage.upd_RewardEnabled (λ _, enabled));;
      node_event (NodeEvent.RewardEnabledSet enabled)
  | AdminConfig.MinUptimeThreshold threshold =>
      ensure (bool_decide (0 < threshold)) NodeError.UptimeThresholdZero;;
      node_modify (NodeStorage.upd_MinUptimeThreshold (λ _, Some threshold));;
      node_event (NodeEvent.MinUptimeThresholdSet threshold)
  | AdminConfig.AutoStakeDuration duration_sec =>
      node_modify (NodeStorage.upd_AutoStakeDurationSec (λ _, duration_sec));;
      node_event (NodeEvent.AutoStakeDurationSet duration_sec)
  | AdminConfig.MaxUnstakePercentage percentage =>
      node_modify (NodeStorage.upd_MaxUnstakePercentage (λ _, percentage));;
      node_event (NodeEvent.MaxUnstakePercentageSet percentage)
  | AdminConfig.UnstakePeriod duration_sec =>
      ensure (bool_decide (0 < duration_sec)) NodeError.DurationZero;;
      node_modify (NodeStorage.upd_UnstakePeriodSec (λ _, duration_sec));;
      node_event (NodeEvent.UnstakePeriodSet duration_sec)
  | AdminConfig.RestrictedUnstakeDuration duration_sec =>
      node_modify (NodeStorage.upd_RestrictedUnstakeDurationSec (λ _, duration_sec));;
      node_event (NodeEvent.RestrictedUnstakeDurationSet duration_sec)
  | AdminConfig.RewardFee percentage =>
      node_modify (NodeStorage.upd_RewardFeePercentage (λ _, percentage));;
      node_event (NodeEvent.RewardFeePercentageSet percentage)
  | AdminConfig.GenesisBonus50 range =>
      ensure (bool_decide (BonusRange.start range < BonusRange.end_ range)) NodeError.InvalidBonusRange;;
      node_modify (NodeStorage.upd_GenesisBonus50 (λ _, range));;
      node_event (NodeEvent.GenesisBonus50Set range)
  | AdminConfig.GenesisBonus25 range =>
      ensure (bool_decide (BonusRange.start range < BonusRange.end_ range)) NodeError.InvalidBonusRange;;
      node_modify (NodeStorage.upd_GenesisBonus25 (λ _, range));;
      node_event (NodeEvent.GenesisBonus25Set range)
  end.

(** A signed call is good for [SignedTxLifetime] blocks. *)
Definition ensure_not_expired (block_number : Z) : Dispatch unit :=
  now ← gets Runtime.block_number;
  ensure (bool_decide (now < block_number ⊕₃₂ SignedTxLifetime)) NodeError.SignedTransactionExpired.
Definition encode_signed_register_node_params (proof : Proof_.t UserSignature) (node : NodeId)
    (owner : AccountId) (signing_key : SignerId) (block_number : Z) : UserPayload.t :=
  UserPayload.SIGNED_REGISTER_NODE_CONTEXT (Proof_.relayer proof) node owner signing_key block_number.
Definition encode_signed_deregister_node_params (proof : Proof_.t UserSignature) (owner : AccountId)
    (nodes : list NodeId) (block_number : Z) : UserPayload.t :=
  UserPayload.SIGNED_DEREGISTER_NODE_CONTEXT (Proof_.relayer proof) owner nodes
    (wrap_to u32_max (Z.of_nat (length nodes))) block_number.
Definition signed_register_node (origin : Origin) (proof : Proof_.t UserSignature) (node : NodeId)
    (owner : AccountId) (signing_key : SignerId) (block_number : Z) : Dispatch unit :=
  sender ← ensure_signed origin;
  ensure (bool_decide (sender = Proof_.signer proof)) NodeError.SenderIsNotSigner;;
  ensure_registrar sender;;
  ensure_not_expired block_number;;
  ensure (verify_user_signature proof
            (encode_signed_register_node_params proof node owner signing_key block_number))
    NodeError.UnauthorizedSignedTransaction;;
  do_register_node node owner signing_key true false.
Definition deregister_nodes (origin : Origin) (owner : AccountId) (nodes : list NodeId) :
    Dispatch unit :=
  sender ← ensure_signed origin;
  ensure_registrar sender;;
  do_deregister_nodes owner nodes.
Definition signed_deregister_nodes (origin : Origin) (proof : Proof_.t UserSignature)
    (owner : AccountId) (nodes : list NodeId) (block_number : Z) : Dispatch unit :=
  sender ← ensure_signed origin;
  ensure (bool_decide (sender = Proof_.signer proof)) NodeError.SenderIsNotSigner;;
  ensure_registrar sender;;
  ensure_not_expired block_number;;
  ensure (verify_user_signature proof
            (encode_signed_deregister_node_params proof owner nodes block_number))
    NodeError.UnauthorizedSignedTransaction;;
  do_deregister_nodes owner nodes.
Definition update_signing_key (origin : Origin) (node : NodeId) (new_signing_key : SignerId) :
    Dispatch unit :=
  who ← ensure_signed origin;
  registrar ← node_get NodeStorage.NodeRegistrar;
  registrar ← ok_or registrar NodeError.RegistrarNotSet;
  info ← gets (node_info node);
  info ← ok_or info NodeError.NodeNotRegistered;
  ensure (bool_decide (who = registrar ∨ who = NodeInfo.owner info))
    NodeError.UnauthorizedSigningKeyUpdate;;
  ensure (negb (bool_decide (NodeInfo.signing_key info = new_signing_key)))
    NodeError.SigningKeyMustBeDifferent;;
  existing ← gets (node_of_key new_signing_key);
  ensure (bool_decide (existing = None)) NodeError.SigningKeyAlreadyInUse;;
  put_node node (NodeInfo.upd_signing_key (λ _, new_signing_key) info);;
  rotate_signing_key_index node (NodeInfo.signing_key info) new_signing_key;;
  node_event (NodeEvent.SigningKeyUpdated (NodeInfo.owner info) node).

Definition ensure_owns (owner : AccountId) (node_id : NodeId) : Dispatch unit :=
  owned ← gets (owns owner node_id);
  ensure owned NodeError.NodeNotOwnedByOwner.
Definition add_stake (origin : Origin) (node_id : NodeId) (amount : Balance) : Dispatch unit :=
  owner ← ensure_signed origin;
  ensure_owns owner node_id;;
  p ← node_get NodeStorage.RewardPeriod;
  new_total ← do_add_stake owner node_id amount;
  node_event (NodeEvent.StakeAdded owner node_id (RewardPeriodInfo.current p) amount new_total).
Definition remove_stake (origin : Origin) (node_id : NodeId) (maybe_amount : option Balance) :
    Dispatch unit :=
  owner ← ensure_signed origin;
  ensure_owns owner node_id;;
  p ← node_get NodeStorage.RewardPeriod;
  r ← do_remove_stake owner node_id maybe_amount;
  let '(amount, new_total) := r in
  node_event (NodeEvent.StakeRemoved owner node_id (RewardPeriodInfo.current p) amount new_total).
Definition update_auto_stake_preference (origin : Origin) (node_id : NodeId)
    (auto_stake_rewards : bool) : Dispatch unit :=
  owner ← ensure_signed origin;
  ensure_owns owner node_id;;
  info ← gets (node_info node_id);
  info ← ok_or info NodeError.NodeNotFound;
  put_node node_id (NodeInfo.upd_auto_stake_rewards (λ _, auto_stake_rewards) info);;
  node_event (NodeEvent.AutoStakePreferenceUpdated owner node_id auto_stake_rewards).

Definition send_mint_to_ethereum (amount : Balance) : Dispatch EthereumId :=
  publish (BridgeContractMethod.name_as_bytes BridgeContractMethod.MintRewards)
    [(b "uint128", to_string amount)] NODE_MANAGER_PALLET_ID.
Definition offchain_mint_rewards (origin : Origin) (amount : Balance) (author : Validator.t)
    (signature : AuthoritySignature) : Dispatch unit :=
  ensure_none origin;;
  valid ← gets (Avn.signature_is_valid (Payload.MINT_REWARDS_CONTEXT amount) author signature);
  ensure valid NodeError.UnauthorizedSignedTransaction;;
  ensure (bool_decide (0 < amount)) NodeError.ZeroAmount;;
  pending ← gets pending_mint;
  ensure (bool_decide (pending = None)) NodeError.MintRequestInProgress;;
  reward ← node_get NodeStorage.NextRewardAmountPerPeriod;
  periods ← node_get NodeStorage.NumPeriodsToMint;
  runway ← ok_or (checked_mul_u128 reward periods) NodeError.MintAmountOverflow;
  let max_mint_cap := saturating_mul_to u128_max runway MINT_SAFETY_CAP_MULTIPLIER in
  ensure (bool_decide (amount <= max_mint_cap)) NodeError.MintAmountOverflow;;
  tx_id ← send_mint_to_ethereum amount;
  put_pending_mint (Some (PendingMintRequest.mk tx_id amount false false));;
  node_event (NodeEvent.MintRequestSubmitted amount tx_id).

Definition override_genesis_bonus (genesis_override : option GenesisBonus.t) (node_id : NodeId) :
    Dispatch unit :=
  info ← gets (node_info node_id);
  info ← ok_or info NodeError.NodeNotRegistered;
  let node_serial := NodeInfo.serial_number info in
  ensure (bool_decide (node_serial < BonusNodeSerialStart)) NodeError.BonusNode;;
  match genesis_override with
  | Some genesis_bonus =>
      node_modify (NodeStorage.upd_GenesisOverrides (insert node_serial genesis_bonus));;
      node_event (NodeEvent.GenesisOverrideSet node_id node_serial genesis_bonus)
  | None =>
      node_modify (NodeStorage.upd_GenesisOverrides (delete node_serial));;
      node_event (NodeEvent.GenesisOverrideCleared node_id node_serial)
  end.
Definition set_genesis_override (origin : Origin) (node_ids : list NodeId)
    (genesis_override : option GenesisBonus.t) : Dispatch unit :=
  who ← ensure_signed origin;
  ensure_registrar who;;
  for_each (override_genesis_bonus genesis_override) node_ids.
Definition move_nodes (origin : Origin) (current_owner new_owner : AccountId) (nodes : list NodeId) :
    Dispatch unit :=
  sender ← ensure_signed origin;
  ensure_registrar sender;;
  ensure (negb (bool_decide (current_owner = new_owner))) NodeError.NodeOwnersMustBeDifferent;;
  do_move_nodes current_owner new_owner nodes.
Definition move_stake (origin : Origin) (owner : AccountId)
    (source_nodes : list (NodeId * option Balance)) (to_node : NodeId) : Dispatch unit :=
  sender ← ensure_signed origin;
  ensure_registrar sender;;
  do_move_stake owner source_nodes to_node.
Definition move_nodes_with_stake (origin : Origin) (current_owner new_owner : AccountId)
    (nodes : list NodeId) (total_stake_to_move : Balance) : Dispatch unit :=
  sender ← ensure_signed origin;
  ensure_registrar sender;;
  ensure (negb (bool_decide (current_owner = new_owner))) NodeError.NodeOwnersMustBeDifferent;;
  do_move_nodes_with_stake current_owner new_owner nodes total_stake_to_move.

(** [Call].  The lists of nodes have at most [MaxNodes] elements. *)
Definition MaxNodes : nat := 64.
Inductive NodeCall : Type :=
  | Call_register_node (node : NodeId) (owner : AccountId) (signing_key : SignerId)
  | Call_set_node_admin_config (config : AdminConfig.t)
  | Call_offchain_pay_nodes (reward_period_index : RewardPeriodIndex) (author : Validator.t)
      (signature : AuthoritySignature)
  | Call_offchain_submit_heartbeat (node : NodeId) (reward_period_index : RewardPeriodIndex)
      (heartbeat_count : Z) (signature : NodeSignature)
  | Call_signed_register_node (proof : Proof_.t UserSignature) (node : NodeId) (owner : AccountId)
      (signing_key : SignerId) (block_number : Z)
  | Call_deregister_nodes (owner : AccountId) (nodes : list NodeId)
  | Call_signed_deregister_nodes (proof : Proof_.t UserSignature) (owner : AccountId)
      (nodes : list NodeId) (block_number : Z)
  | Call_update_signing_key (node : NodeId) (new_signing_key : SignerId)
  | Call_add_stake (node_id : NodeId) (amount : Balance)
  | Call_remove_stake (node_id : NodeId) (maybe_amount : option Balance)
  | Call_update_auto_stake_preference (node_id : NodeId) (auto_stake_rewards : bool)
  | Call_offchain_mint_rewards (amount : Balance) (author : Validator.t)
      (signature : AuthoritySignature)
  | Call_register_bonus_node (node : NodeId) (owner : AccountId) (signing_key : SignerId)
  | Call_set_genesis_override (node_ids : list NodeId) (genesis_override : option GenesisBonus.t)
  | Call_move_nodes (current_owner new_owner : AccountId) (nodes : list NodeId)
  | Call_move_stake (owner : AccountId) (source_nodes : list (NodeId * option Balance))
      (to_node : NodeId)
  | Call_move_nodes_with_stake (current_owner new_owner : AccountId) (nodes : list NodeId)
      (total_stake_to_move : Balance).
Definition node_call (origin : Origin) (call : NodeCall) : Dispatch unit :=
  match call with
  | Call_register_node node owner signing_key => register_node origin node owner signing_key false
  | Call_set_node_admin_config config => set_node_admin_config origin config
  | Call_offchain_pay_nodes reward_period_index _ _ => offchain_pay_nodes origin reward_period_index
  | Call_offchain_submit_heartbeat node reward_period_index heartbeat_count _ =>
      offchain_submit_heartbeat origin node reward_period_index heartbeat_count
  | Call_signed_register_node proof node owner signing_key block_number =>
      signed_register_node origin proof node owner signing_key block_number
  | Call_deregister_nodes owner nodes => deregister_nodes origin owner nodes
  | Call_signed_deregister_nodes proof owner nodes block_number =>
      signed_deregister_nodes origin proof owner nodes block_number
  | Call_update_signing_key node new_signing_key => update_signing_key origin node new_signing_key
  | Call_add_stake node_id amount => add_stake origin node_id amount
  | Call_remove_stake node_id maybe_amount => remove_stake origin node_id maybe_amount
  | Call_update_auto_stake_preference node_id auto_stake_rewards =>
      update_auto_stake_preference origin node_id auto_stake_rewards
  | Call_offchain_mint_rewards amount author signature =>
      offchain_mint_rewards origin amount author signature
  | Call_register_bonus_node node owner signing_key => register_node origin node owner signing_key true
  | Call_set_genesis_override node_ids genesis_override =>
      set_genesis_override origin node_ids genesis_override
  | Call_move_nodes current_owner new_owner nodes => move_nodes origin current_owner new_owner nodes
  | Call_move_stake owner source_nodes to_node => move_stake origin owner source_nodes to_node
  | Call_move_nodes_with_stake current_owner new_owner nodes total_stake_to_move =>
      move_nodes_with_stake origin current_owner new_owner nodes total_stake_to_move
  end.

(** ** Admission of unsigned calls *)

Definition from_local (source : TransactionSource) : bool :=
  match source with Local | InBlock => true | ExternalSource => false end.
(** [None] when the call is valid. *)
Definition validate_unsigned_node (source : TransactionSource) (call : NodeCall) (s : Runtime.t) :
    option InvalidTransaction :=
  if negb (NodeStorage.RewardEnabled (Runtime.nodes s)) then Some (Custom 4)
  else
    match call with
    | Call_offchain_pay_nodes reward_period_index author signature =>
        if negb (from_local source) then Some InvalidCall
        else valid_if (Avn.signature_is_valid (Payload.PAYOUT_REWARD_CONTEXT reward_period_index)
                         author signature s) 1
    | Call_offchain_submit_heartbeat node reward_period_index heartbeat_count signature =>
        match node_info node s with
        | Some info =>
            match (validate_heartbeats node reward_period_index heartbeat_count s).1 with
            | Ok _ =>
                valid_if (node_verify (NodeInfo.signing_key info)
                            (Payload.HEARTBEAT_CONTEXT heartbeat_count reward_period_index)
                            signature) 2
            | _ => Some (Custom 5)
            end
        | None => Some (Custom 3)
        end
    | Call_offchain_mint_rewards amount author signature =>
        if negb (from_local source) then Some InvalidCall
        else if bool_decide (pending_mint s ≠ None) then Some Stale
        else valid_if (Avn.signature_is_valid (Payload.MINT_REWARDS_CONTEXT amount) author signature s) 6
    | _ => Some InvalidCall
    end.

(** ** Calls through the proxy *)

Definition node_encoded_call_param (call : NodeCall) : option (Proof_.t UserSignature * UserPayload.t) :=
  match call with
  | Call_signed_register_node proof node owner signing_key block_number =>
      Some (proof, encode_signed_register_node_params proof node owner signing_key block_number)
  | Call_signed_deregister_nodes proof owner nodes block_number =>
      Some (proof, encode_signed_deregister_node_params proof owner nodes block_number)
  | _ => None
  end.
Definition node_call_signature_is_valid (call : NodeCall) : bool :=
  match node_encoded_call_param call with
  | Some (proof, signed_payload) => verify_user_signature proof signed_payload
  | None => false
  end.
End NodeCalls.

(** ** Genesis *)

Module NodeGenesis.
Record t : Type := mk {
  max_batch_size : Z;
  reward_period : Z;
  heartbeat_period : Z;
  reward_amount_per_period : Balance;
  num_periods_to_mint : Z;
  auto_stake_duration_sec : Duration;
  max_unstake_percentage : Perbill;
  unstake_period_sec : Duration;
  restricted_unstake_duration_sec : Duration;
  reward_fee_percentage : Perbill;
}.
Section Build.
Context `{BridgeConfig} `{!NodeConfig}.
Definition default : t :=
  mk 1 4 1 0 1 (180 * 24 * 60 * 60) (perbill_from_percent 10) (7 * 24 * 60 * 60)
    (10 * 7 * 24 * 60 * 60) (perbill_from_percent 0).
(** [assert!]. *)
Definition assert (ok : bool) : Dispatch unit := if ok then mret () else panic.
Definition build (g : t) : Dispatch unit :=
  assert (bool_decide (heartbeat_period g < reward_period g));;
  assert (bool_decide (0 < unstake_period_sec g));;
  assert (bool_decide (0 < heartbeat_period g));;
  node_modify (NodeStorage.upd_NextRewardPeriodLength (λ _, reward_period g));;
  node_modify (NodeStorage.upd_NextRewardAmountPerPeriod (λ _, reward_amount_per_period g));;
  node_modify (NodeStorage.upd_NumPeriodsToMint (λ _, num_periods_to_mint g));;
  node_modify (NodeStorage.upd_MaxBatchSize (λ _, max_batch_size g));;
  node_modify (NodeStorage.upd_NextHeartbeatPeriod (λ _, heartbeat_period g));;
  node_modify (NodeStorage.upd_MinUptimeThreshold (λ _, Some get_default_threshold));;
  node_modify (NodeStorage.upd_AutoStakeDurationSec (λ _, auto_stake_duration_sec g));;
  node_modify (NodeStorage.upd_MaxUnstakePercentage (λ _, max_unstake_percentage g));;
  node_modify (NodeStorage.upd_UnstakePeriodSec (λ _, unstake_period_sec g));;
  node_modify (NodeStorage.upd_RestrictedUnstakeDurationSec
                 (λ _, restricted_unstake_duration_sec g));;
  node_modify (NodeStorage.upd_RewardFeePercentage (λ _, reward_fee_percentage g));;
  uptime_threshold ← calculate_uptime_threshold (reward_period g) (heartbeat_period g);
  node_modify (NodeStorage.upd_RewardPeriod
    (λ _, RewardPeriodInfo.mk 0 0 (reward_period g) (heartbeat_period g) uptime_threshold
            (reward_amount_per_period g)));;
  node_modify (NodeStorage.upd_OutstandingRewardToPay (λ _, 0)).
(** The storage before: every value at its default. *)
Definition empty : NodeStorage.t :=
  NodeStorage.mk ∅ ∅ 0 ∅ ∅ None 0 0 0 0 0 ∅ 0 (RewardPeriodInfo.mk 0 0 20 10 u32_max 0) 0 None ∅
    None ∅ false None 0 0 0 0 BonusNodeSerialStart 0 0 ∅ (BonusRange.mk 3001 6000)
    (BonusRange.mk 6001 11000) 0 ∅.
End Build.
End NodeGenesis.
