(* ===== verification/Anchor.v ===== *)
(** * App chains: registration, checkpoints and rewards

    [pallets/avn-anchor/src/lib.rs] and [reward.rs].  An app chain registers a token
    and pays the nodes a reward of its own each period: the node manager tells this
    pallet the share of each node, and the shares are paid later, when there is
    room.  The asset registry, the order of storage keys and the weight meter are
    fields of a class. *)

From S2P Require Import Prelude Slices Bytes EventTypes EventParsing EventDiscovery EthTypes.
From S2P Require Import RuntimeErrors NodeTypes BridgeTypes Avn EthBridge BridgeEvents TokenManager.
From S2P Require Import NodeStake NodeRewards.

Definition ChainNameLimit : nat := 32.

(** What the pallet reads and writes of an entry of the asset registry; the location
    is an address on Ethereum or something else. *)
Module RegistryMetadata.
Record t : Type := mk {
  decimals : Z;
  name : bytes;
  symbol : bytes;
  location : option H160;
  appchain_native : bool;
}.
End RegistryMetadata.

Class AnchorConfig `{BridgeConfig} := {
  DefaultCheckpointFee : Balance;
  MaxRegisteredAppChains : nat;
  AssetRegistryStringLimit : nat;
  AppChainRewardPot : AccountId;
  MaxPeriodsPerPayout : nat;
  is_eligible : AppChainAssetId → NodeId → RewardPeriodIndex → Duration → bool;
  registry_metadata : AssetState → AppChainAssetId → option RegistryMetadata.t;
  register_asset : AppChainAssetId → RegistryMetadata.t → AssetState → option AssetState;
  update_asset_native : AppChainAssetId → bool → AssetState → option AssetState;
  (** The places of keys in storage. *)
  asset_position : AppChainAssetId → N;
  unpaid_position : RewardPeriodIndex → NodeId → N;
  period_position : RewardPeriodIndex → N;
  (** [WeightMeter], for the weight of one payout. *)
  Meter : Type;
  full_meter : Meter;
  can_consume : Meter → bool;
  consume : Meter → Meter;
}.

Section Anchor.
Context `{BridgeConfig} `{!NodeConfig} `{!AnchorConfig}.

(** ** Storage *)

Definition anchor_get {A} (f : AnchorStorage.t → A) : Dispatch A := gets (f ∘ Runtime.anchor).
Definition anchor_modify (f : AnchorStorage.t → AnchorStorage.t) : Dispatch unit :=
  modify (Runtime.upd_anchor f).
Definition anchor_event (e : AnchorEvent.t) : Dispatch unit := deposit_event (AnchorEvent_ e).
Definition chain_handler (who : AccountId) (s : Runtime.t) : option ChainId :=
  AnchorStorage.ChainHandlers (Runtime.anchor s) !! who.
Definition anchor_nonce (chain_id : ChainId) (s : Runtime.t) : Z :=
  unwrap_or 0 (AnchorStorage.Nonces (Runtime.anchor s) !! chain_id).
Definition bump_anchor_nonce (chain_id : ChainId) : Dispatch unit :=
  n ← gets (anchor_nonce chain_id);
  anchor_modify (AnchorStorage.upd_Nonces (insert chain_id (n +₆₄ 1))).
Definition checkpoint_fee (chain_id : ChainId) (s : Runtime.t) : Balance :=
  unwrap_or DefaultCheckpointFee (AnchorStorage.CheckpointFee (Runtime.anchor s) !! chain_id).

(** The entries of one period, or of one node, in the order of their keys. *)
Definition chain_rewards_of (period : RewardPeriodIndex)
    (m : gmap (RewardPeriodIndex * AppChainAssetId) (H160 * Balance)) :
    list (AppChainAssetId * (H160 * Balance)) :=
  prefix_of asset_position period m.
Definition chain_rewards (period : RewardPeriodIndex) (s : Runtime.t) :
    list (AppChainAssetId * (H160 * Balance)) :=
  chain_rewards_of period (AnchorStorage.PeriodChainReward (Runtime.anchor s)).
Definition unpaid (period : RewardPeriodIndex) (node : NodeId) (s : Runtime.t) :
    option RewardRecord.t :=
  AnchorStorage.UnpaidByPeriod (Runtime.anchor s) !! (period, node).
(** [UnpaidByPeriod::iter]. *)
Definition all_unpaid (s : Runtime.t) : list (RewardPeriodIndex * NodeId) :=
  sort_by (λ x y, (unpaid_position x.1 x.2 ?= unpaid_position y.1 y.2)%N)
    (map_to_list (AnchorStorage.UnpaidByPeriod (Runtime.anchor s))).*1.
Definition unpaid_after (cursor : option (RewardPeriodIndex * NodeId)) (s : Runtime.t) :
    list (RewardPeriodIndex * NodeId) :=
  match cursor with
  | Some (period, node) =>
      filter (λ x, (unpaid_position period node < unpaid_position x.1 x.2)%N) (all_unpaid s)
  | None => all_unpaid s
  end.
Definition has_unpaid (period : RewardPeriodIndex) (s : Runtime.t) : bool :=
  existsb (λ x, bool_decide (x.1 = period)) (all_unpaid s).
(** [UnpaidByNode::iter_prefix]. *)
Definition unpaid_periods (node : NodeId) (s : Runtime.t) : list RewardPeriodIndex :=
  sort_by (λ x y, (period_position x ?= period_position y)%N)
    (omap (λ '(n, period), if bool_decide (n = node) then Some period else None)
       (elements (AnchorStorage.UnpaidByNode (Runtime.anchor s)))).

(** ** Rewards: [reward.rs] *)

Definition resolve_payout_token (asset : AppChainAssetId) (s : Runtime.t) :
    outcome DispatchError H160 :=
  metadata ← or_err (registry_metadata (Runtime.assets s) asset)
               (Anchor_ AnchorError.AppChainTokenNotResolvable);
  check (RegistryMetadata.appchain_native metadata) (Anchor_ AnchorError.AssetNotAppChainNative);;
  or_err (RegistryMetadata.location metadata) (Anchor_ AnchorError.AppChainTokenNotResolvable).

(** [clear_prefix] deletes up to its limit of the entries of the period. *)
Definition try_reclaim_period (period : RewardPeriodIndex) : Dispatch unit :=
  completed ← anchor_get AnchorStorage.PeriodPayoutCompleted;
  owing ← gets (has_unpaid period);
  if negb (bool_decide (period ∈ completed)) then mret ()
  else if (owing : bool) then mret ()
  else
    snapshot ← gets (chain_rewards period);
    for_each (λ x, anchor_modify (AnchorStorage.upd_PeriodChainReward (delete (period, x.1))))
      (take MaxRegisteredAppChains snapshot);;
    rest ← gets (chain_rewards period);
    if bool_decide (rest = []) then
      anchor_modify (AnchorStorage.upd_PeriodPayoutCompleted (λ c, c ∖ {[period]}));;
      anchor_event (AnchorEvent.AppChainRewardPayoutCompleted period)
    else mret ().

Definition share_of (share : Perquintill) (total : Balance) : Balance :=
  perquintill_mul_floor share total.
(** [PaymentHandler::pay_recipient] of the token manager. *)
Definition pay_recipient (token : H160) (amount : Balance) (payer recipient : AccountId) :
    Dispatch unit :=
  settle_transfer token payer recipient amount.

Definition pay_chain_reward (period : RewardPeriodIndex) (node : NodeId) (record : RewardRecord.t)
    (x : AppChainAssetId * (H160 * Balance)) : Dispatch unit :=
  let '(asset, (token, total)) := x in
  if negb (is_eligible asset node period (RewardRecord.auto_stake_expiry record)) then mret ()
  else
    let amount := share_of (RewardRecord.share record) total in
    if bool_decide (amount = 0) then mret ()
    else
      pay_recipient token amount AppChainRewardPot (RewardRecord.owner record);;
      anchor_event (AnchorEvent.AppChainRewardPaid period node (RewardRecord.owner record) asset amount).
Definition try_pay_node_period (period : RewardPeriodIndex) (node : NodeId) : Dispatch unit :=
  transactional (
    record ← gets (unpaid period node);
    record ← ok_or record AnchorError.NoUnpaidRewards;
    chains ← gets (chain_rewards period);
    for_each (pay_chain_reward period node record) chains;;
    anchor_modify (AnchorStorage.upd_UnpaidByPeriod (delete (period, node)));;
    anchor_modify (AnchorStorage.upd_UnpaidByNode (λ u, u ∖ {[(node, period)]}));;
    anchor_event (AnchorEvent.AppChainRewardSettledForNode period node);;
    try_reclaim_period period).
(** A payout that fails is reported and kept for another try. *)
Definition pay_or_report (x : RewardPeriodIndex * NodeId) : Dispatch unit :=
  r ← try (try_pay_node_period x.1 x.2);
  match r with
  | inl e => anchor_event (AnchorEvent.AppChainRewardPayoutFailed x.1 x.2 e)
  | inr _ => mret ()
  end.
Definition claim_node (node : NodeId) (max : nat) : Dispatch nat :=
  periods ← gets (unpaid_periods node);
  let periods := take max periods in
  for_each (λ period, pay_or_report (period, node)) periods;;
  mret (length periods).

(** The keys a sweep looks at, whether it came to the end of them, and what is left
    of the meter. *)
Fixpoint collect_batch (max : nat) (meter : Meter) (keys : list (RewardPeriodIndex * NodeId)) :
    list (RewardPeriodIndex * NodeId) * bool * Meter :=
  match max with
  | O => ([], false, meter)
  | S max =>
      if negb (can_consume meter) then ([], false, meter)
      else
        match keys with
        | [] => ([], true, meter)
        | key :: keys =>
            let '(batch, exhausted, meter) := collect_batch max (consume meter) keys in
            (key :: batch, exhausted, meter)
        end
  end.
Definition sweep (meter : Meter) (max : nat) : Dispatch nat :=
  cursor ← anchor_get AnchorStorage.SweepCursor;
  keys ← gets (unpaid_after cursor);
  let '(batch, exhausted, _) := collect_batch max meter keys in
  (if (exhausted : bool) then anchor_modify (AnchorStorage.upd_SweepCursor (λ _, None))
   else
     match last batch with
     | Some l => anchor_modify (AnchorStorage.upd_SweepCursor (λ _, Some l))
     | None => mret ()
     end);;
  for_each pay_or_report batch;;
  mret (length batch).
Definition on_idle (meter : Meter) : Dispatch unit :=
  sweep meter MaxPeriodsPerPayout;; mret ().

(** ** What the node manager calls *)

Definition next_rewards (s : Runtime.t) : list (AppChainAssetId * (H160 * Balance)) :=
  sort_by (λ x y, (asset_position x.1 ?= asset_position y.1)%N)
    (map_to_list (AnchorStorage.NextRewardAmountPerPeriod (Runtime.anchor s))).
Definition snapshot_chain_rewards (period_index : RewardPeriodIndex) : Dispatch unit :=
  chains ← gets next_rewards;
  for_each (λ '(asset, (token, amount)),
    if bool_decide (amount = 0) then mret ()
    else anchor_modify (AnchorStorage.upd_PeriodChainReward
                          (insert (period_index, asset) (token, amount)))) chains.
Definition record_share (period_index : RewardPeriodIndex) (node_owner : AccountId)
    (node_id : NodeId) (auto_stake_expiry : Duration) (reward_percentage : Perquintill) :
    Dispatch unit :=
  if bool_decide (reward_percentage = 0) then mret ()
  else
    chains ← gets (chain_rewards period_index);
    if bool_decide (head chains = None) then mret ()
    else
      anchor_modify (AnchorStorage.upd_UnpaidByPeriod (insert (period_index, node_id)
        (RewardRecord.mk node_owner reward_percentage auto_stake_expiry)));;
      anchor_modify (AnchorStorage.upd_UnpaidByNode (union {[(node_id, period_index)]})).
Definition complete_chain_rewards (period_index : RewardPeriodIndex) : Dispatch unit :=
  anchor_modify (AnchorStorage.upd_PeriodPayoutCompleted (union {[period_index]}));;
  try_reclaim_period period_index.
(** [impl AppChainInterface for Pallet]. *)
Definition anchor_interface : AppChainInterface := {|
  on_new_reward_period := snapshot_chain_rewards;
  on_reward_paid := record_share;
  on_reward_period_completed := complete_chain_rewards;
|}.
End Anchor.

(** ** Dispatchables: [lib.rs] *)

Section AnchorCalls.
Context `{BridgeConfig} `{!NodeConfig} `{!AnchorConfig}.

Definition charge_fee (handler : AccountId) (chain_id : ChainId) : Dispatch unit :=
  fee ← gets (checkpoint_fee chain_id);
  pay_treasury fee handler;;
  anchor_event (AnchorEvent.CheckpointFeeCharged handler chain_id fee).
Definition get_next_chain_id : Dispatch ChainId :=
  current_id ← anchor_get AnchorStorage.NextChainId;
  next ← ok_or (checked_add_to u32_max current_id 1) AnchorError.NoAvailableChainId;
  anchor_modify (AnchorStorage.upd_NextChainId (λ _, next));;
  mret current_id.
Definition next_checkpoint_id (chain_id : ChainId) (s : Runtime.t) : CheckpointId :=
  unwrap_or 0 (AnchorStorage.NextCheckpointId (Runtime.anchor s) !! chain_id).
Definition get_next_checkpoint_id (chain_id : ChainId) : Dispatch CheckpointId :=
  current_id ← gets (next_checkpoint_id chain_id);
  next ← ok_or (checked_add_to u64_max current_id 1) AnchorError.NoAvailableCheckpointId;
  anchor_modify (AnchorStorage.upd_NextCheckpointId (insert chain_id next));;
  mret current_id.

Definition do_update_chain_handler (old_handler new_handler : AccountId) (chain_id : ChainId) :
    Dispatch unit :=
  new_chain ← gets (chain_handler new_handler);
  ensure (bool_decide (new_chain = None)) AnchorError.HandlerAlreadyRegistered;;
  old_chain ← gets (chain_handler old_handler);
  ensure (negb (bool_decide (old_chain = None))) AnchorError.ChainNotRegistered;;
  anchor_modify (AnchorStorage.upd_ChainHandlers (insert new_handler chain_id));;
  anchor_modify (AnchorStorage.upd_ChainHandlers (delete old_handler));;
  anchor_event (AnchorEvent.ChainHandlerUpdated old_handler new_handler chain_id).
Definition get_checkpoint_id_by_origin (chain_id : ChainId) (origin_id : Z) (s : Runtime.t) :
    option CheckpointId :=
  AnchorStorage.OriginIdToCheckpoint (Runtime.anchor s) !! (chain_id, origin_id).
Definition do_submit_checkpoint (handler : AccountId) (checkpoint : H256) (chain_id : ChainId)
    (origin_id : Z) : Dispatch unit :=
  existing ← gets (get_checkpoint_id_by_origin chain_id origin_id);
  ensure (bool_decide (existing = None)) AnchorError.CheckpointOriginAlreadyExists;;
  checkpoint_id ← get_next_checkpoint_id chain_id;
  anchor_modify (AnchorStorage.upd_Checkpoints
    (insert (chain_id, checkpoint_id) (CheckpointData.mk checkpoint origin_id)));;
  anchor_modify (AnchorStorage.upd_OriginIdToCheckpoint (insert (chain_id, origin_id) checkpoint_id));;
  anchor_event (AnchorEvent.CheckpointSubmitted handler chain_id checkpoint_id checkpoint);;
  bump_anchor_nonce chain_id;;
  charge_fee handler chain_id.

Definition update_chain_handler (origin : Origin) (new_handler : AccountId) : Dispatch unit :=
  old_handler ← ensure_signed origin;
  new_chain ← gets (chain_handler new_handler);
  ensure (bool_decide (new_chain = None)) AnchorError.HandlerAlreadyRegistered;;
  chain_id ← gets (chain_handler old_handler);
  chain_id ← ok_or chain_id AnchorError.ChainNotRegistered;
  do_update_chain_handler old_handler new_handler chain_id.
Definition submit_checkpoint_with_identity (origin : Origin) (checkpoint : H256) (origin_id : Z) :
    Dispatch unit :=
  handler ← ensure_signed origin;
  chain_id ← gets (chain_handler handler);
  chain_id ← ok_or chain_id AnchorError.ChainNotRegistered;
  do_submit_checkpoint handler checkpoint chain_id origin_id.
Definition encode_signed_update_chain_handler_params (proof : Proof_.t UserSignature)
    (old_handler new_handler : AccountId) (chain_id : ChainId) (nonce : Z) : UserPayload.t :=
  UserPayload.UPDATE_CHAIN_HANDLER (Proof_.relayer proof) old_handler new_handler chain_id nonce.
Definition encode_signed_submit_checkpoint_params (proof : Proof_.t UserSignature)
    (handler : AccountId) (checkpoint : H256) (chain_id : ChainId) (nonce origin_id : Z) :
    UserPayload.t :=
  UserPayload.SUBMIT_CHECKPOINT (Proof_.relayer proof) handler checkpoint chain_id nonce origin_id.
Definition signed_update_chain_handler (origin : Origin) (proof : Proof_.t UserSignature)
    (old_handler new_handler : AccountId) : Dispatch unit :=
  sender ← ensure_signed origin;
  ensure (bool_decide (sender = old_handler)) AnchorError.SenderNotValid;;
  chain_id ← gets (chain_handler old_handler);
  chain_id ← ok_or chain_id AnchorError.ChainNotRegistered;
  nonce ← gets (anchor_nonce chain_id);
  ensure (verify_user_signature proof
            (encode_signed_update_chain_handler_params proof old_handler new_handler chain_id nonce))
    AnchorError.UnauthorizedSignedTransaction;;
  do_update_chain_handler old_handler new_handler chain_id;;
  bump_anchor_nonce chain_id.
Definition signed_submit_checkpoint_with_identity (origin : Origin) (proof : Proof_.t UserSignature)
    (handler : AccountId) (checkpoint : H256) (origin_id : Z) : Dispatch unit :=
  sender ← ensure_signed origin;
  ensure (bool_decide (sender = handler)) AnchorError.SenderNotValid;;
  chain_id ← gets (chain_handler handler);
  chain_id ← ok_or chain_id AnchorError.ChainNotRegistered;
  nonce ← gets (anchor_nonce chain_id);
  ensure (verify_user_signature proof
            (encode_signed_submit_checkpoint_params proof handler checkpoint chain_id nonce origin_id))
    AnchorError.UnauthorizedSignedTransaction;;
  do_submit_checkpoint handler checkpoint chain_id origin_id.
Definition set_checkpoint_fee (origin : Origin) (chain_id : ChainId) (new_fee : Balance) :
    Dispatch unit :=
  ensure_root origin;;
  anchor_modify (AnchorStorage.upd_CheckpointFee (insert chain_id new_fee));;
  anchor_event (AnchorEvent.CheckpointFeeUpdated chain_id new_fee).

Definition register_appchain (origin : Origin) (handler : AccountId) (name symbol : bytes)
    (token : H160) (asset : AppChainAssetId) (decimals : Z) : Dispatch unit :=
  ensure_root origin;;
  existing ← gets (chain_handler handler);
  ensure (bool_decide (existing = None)) AnchorError.HandlerAlreadyRegistered;;
  ensure (negb (bool_decide (name = []))) AnchorError.EmptyChainName;;
  ensure (negb (bool_decide (symbol = []))) AnchorError.EmptyTokenSymbol;;
  registered ← gets (asset_of token);
  ensure (bool_decide (registered = None)) AnchorError.TokenLocationAlreadyRegistered;;
  ensure (bool_decide (length name ≤ AssetRegistryStringLimit)%nat)
    AnchorError.ChainNameTooLongForRegistry;;
  ensure (bool_decide (length symbol ≤ AssetRegistryStringLimit)%nat)
    AnchorError.TokenSymbolTooLongForRegistry;;
  let metadata := RegistryMetadata.mk decimals name symbol (Some token) true in
  chain_id ← get_next_chain_id;
  anchor_modify (AnchorStorage.upd_ChainHandlers (insert handler chain_id));;
  update_assets (register_asset asset metadata) External;;
  anchor_modify (AnchorStorage.upd_AssetIdToChainId (insert asset chain_id));;
  ids ← anchor_get AnchorStorage.RegisteredAppchains;
  ids ← ok_or (try_push MaxRegisteredAppChains ids asset) AnchorError.MaxAppChainsReached;
  anchor_modify (AnchorStorage.upd_RegisteredAppchains (λ _, ids));;
  anchor_event (AnchorEvent.AppChainRegistered chain_id handler token asset).

Definition appchain_is_active (asset : AppChainAssetId) (s : Runtime.t) : bool :=
  match AnchorStorage.NextRewardAmountPerPeriod (Runtime.anchor s) !! asset with
  | Some (_, amt) => bool_decide (0 < amt)
  | None => false
  end.
Definition ensure_reward_manager (origin : Origin) (asset : AppChainAssetId) : Dispatch unit :=
  chains ← anchor_get AnchorStorage.AssetIdToChainId;
  chain_id ← ok_or (chains !! asset) AnchorError.AppChainAssetNotRegistered;
  match origin with
  | Root => mret ()
  | Signed sender =>
      chain ← gets (chain_handler sender);
      ensure (bool_decide (chain = Some chain_id)) AnchorError.NotAppChainHandler
  | NoOrigin => fail BadOrigin
  end.
Definition set_appchain_period_reward (origin : Origin) (asset : AppChainAssetId)
    (amount : Balance) : Dispatch unit :=
  ensure_reward_manager origin asset;;
  ensure (bool_decide (0 < amount)) AnchorError.ZeroRewardAmount;;
  was_active ← gets (appchain_is_active asset);
  token ← gets (resolve_payout_token asset);
  token ← lift_outcome token;
  anchor_modify (AnchorStorage.upd_NextRewardAmountPerPeriod (insert asset (token, amount)));;
  anchor_event (AnchorEvent.AppChainRewardAmountPerPeriodUpdated asset amount);;
  if (was_active : bool) then mret () else anchor_event (AnchorEvent.AppChainEnabled asset).
Definition claim (origin : Origin) (node : NodeId) : Dispatch unit :=
  ensure_signed origin;;
  processed ← claim_node node MaxPeriodsPerPayout;
  ensure (bool_decide (0 < processed)%nat) AnchorError.NoUnpaidRewards.
Definition process_outstanding_rewards (origin : Origin) : Dispatch unit :=
  ensure_signed origin;;
  processed ← sweep full_meter MaxPeriodsPerPayout;
  ensure (bool_decide (0 < processed)%nat) AnchorError.NoUnpaidRewards.
Definition disable_appchain (origin : Origin) (asset : AppChainAssetId) : Dispatch unit :=
  ensure_reward_manager origin asset;;
  active ← gets (appchain_is_active asset);
  ensure active AnchorError.AppChainNotActive;;
  anchor_modify (AnchorStorage.upd_NextRewardAmountPerPeriod (delete asset));;
  anchor_event (AnchorEvent.AppChainDisabled asset).
Definition deregister_appchain (origin : Origin) (handler : AccountId) (asset : AppChainAssetId) :
    Dispatch unit :=
  ensure_root origin;;
  chains ← anchor_get AnchorStorage.AssetIdToChainId;
  chain_id ← ok_or (chains !! asset) AnchorError.AppChainAssetNotRegistered;
  chain ← gets (chain_handler handler);
  ensure (bool_decide (chain = Some chain_id)) AnchorError.NotAppChainHandler;;
  active ← gets (appchain_is_active asset);
  ensure (negb active) AnchorError.AppChainNotDisabled;;
  update_assets (update_asset_native asset false) External;;
  anchor_modify (AnchorStorage.upd_RegisteredAppchains (filter (λ id, id ≠ asset)));;
  anchor_modify (AnchorStorage.upd_AssetIdToChainId (delete asset));;
  anchor_modify (AnchorStorage.upd_ChainHandlers (delete handler));;
  anchor_modify (AnchorStorage.upd_NextRewardAmountPerPeriod (delete asset));;
  anchor_event (AnchorEvent.AppChainDeregistered chain_id asset).
Definition reclaim_period (origin : Origin) (period : RewardPeriodIndex) : Dispatch unit :=
  ensure_root origin;;
  try_reclaim_period period.

(** [Call]; the two deprecated calls only fail. *)
Inductive AnchorCall : Type :=
  | Call_register_chain_handler (name : bytes)
  | Call_update_chain_handler (new_handler : AccountId)
  | Call_submit_checkpoint_with_identity (checkpoint : H256) (origin_id : Z)
  | Call_signed_register_chain_handler (proof : Proof_.t UserSignature) (handler : AccountId)
      (name : bytes)
  | Call_signed_update_chain_handler (proof : Proof_.t UserSignature)
      (old_handler new_handler : AccountId)
  | Call_signed_submit_checkpoint_with_identity (proof : Proof_.t UserSignature)
      (handler : AccountId) (checkpoint : H256) (origin_id : Z)
  | Call_set_checkpoint_fee (chain_id : ChainId) (new_fee : Balance)
  | Call_register_appchain (handler : AccountId) (name symbol : bytes) (token : H160)
      (asset : AppChainAssetId) (decimals : Z)
  | Call_set_appchain_period_reward (asset : AppChainAssetId) (amount : Balance)
  | Call_claim (node : NodeId)
  | Call_process_outstanding_rewards
  | Call_disable_appchain (asset : AppChainAssetId)
  | Call_deregister_appchain (handler : AccountId) (asset : AppChainAssetId)
  | Call_reclaim_period (period : RewardPeriodIndex).
Definition anchor_call (origin : Origin) (call : AnchorCall) : Dispatch unit :=
  match call with
  | Call_register_chain_handler _ | Call_signed_register_chain_handler _ _ _ =>
      ensure_signed origin;; fail AnchorError.CallDeprecated
  | Call_update_chain_handler new_handler => update_chain_handler origin new_handler
  | Call_submit_checkpoint_with_identity checkpoint origin_id =>
      submit_checkpoint_with_identity origin checkpoint origin_id
  | Call_signed_update_chain_handler proof old_handler new_handler =>
      signed_update_chain_handler origin proof old_handler new_handler
  | Call_signed_submit_checkpoint_with_identity proof handler checkpoint origin_id =>
      signed_submit_checkpoint_with_identity origin proof handler checkpoint origin_id
  | Call_set_checkpoint_fee chain_id new_fee => set_checkpoint_fee origin chain_id new_fee
  | Call_register_appchain handler name symbol token asset decimals =>
      register_appchain origin handler name symbol token asset decimals
  | Call_set_appchain_period_reward asset amount => set_appchain_period_reward origin asset amount
  | Call_claim node => claim origin node
  | Call_process_outstanding_rewards => process_outstanding_rewards origin
  | Call_disable_appchain asset => disable_appchain origin asset
  | Call_deregister_appchain handler asset => deregister_appchain origin handler asset
  | Call_reclaim_period period => reclaim_period origin period
  end.

(** ** Calls through the proxy *)

Definition anchor_proof (call : AnchorCall) : option (Proof_.t UserSignature) :=
  match call with
  | Call_signed_update_chain_handler proof _ _
  | Call_signed_submit_checkpoint_with_identity proof _ _ _ => Some proof
  | _ => None
  end.
Definition anchor_encoded_call_param (call : AnchorCall) (s : Runtime.t) :
    option (Proof_.t UserSignature * UserPayload.t) :=
  match call with
  | Call_signed_update_chain_handler proof old_handler new_handler =>
      chain_id ← chain_handler old_handler s;
      Some (proof, encode_signed_update_chain_handler_params proof old_handler new_handler chain_id
                     (anchor_nonce chain_id s))
  | Call_signed_submit_checkpoint_with_identity proof handler checkpoint origin_id =>
      chain_id ← chain_handler handler s;
      Some (proof, encode_signed_submit_checkpoint_params proof handler checkpoint chain_id
                     (anchor_nonce chain_id s) origin_id)
  | _ => None
  end.
Definition anchor_call_signature_is_valid (call : AnchorCall) (s : Runtime.t) : bool :=
  match anchor_encoded_call_param call s with
  | Some (proof, signed_payload) => verify_user_signature proof signed_payload
  | None => false
  end.
End AnchorCalls.
