(* ===== verification/NodeInv.v ===== *)
(** * The registry of nodes: the invariant

    The pallet stores a node in the registry, in the table of its owner, in the index
    of signing keys and in several totals.  [reg_off] says that they agree, up to
    the counts and stakes of owners that a transfer in progress has not moved yet. *)

From S2P Require Import Prelude Frames Slices Bytes EventTypes EventParsing.
From S2P Require Import EventDiscovery EthTypes RuntimeErrors NodeTypes BridgeTypes.
From S2P Require Import Avn NodeStake EthBridge BridgeEvents TokenManager NodeRewards.
From S2P Require Import NodeManager.

(** ** What is assumed of the currency *)

(** Reserving and unreserving move funds between the two balances of one account;
    transfers and deposits leave reserves alone. *)
Class ReserveLaws (C : BridgeConfig) : Prop := {
  reserved_nonneg a w : 0 <= native_reserved_balance a w;
  reserve_reserved w amount a a' x :
    native_reserve w amount a = Some a' →
    native_reserved_balance a' x = native_reserved_balance a x + if decide (x = w) then amount else 0;
  unreserve_reserved w amount a x :
    0 <= amount →
    let '(leftover, a') := native_unreserve w amount a in
    0 <= leftover ∧
    native_reserved_balance a' x =
      native_reserved_balance a x - if decide (x = w) then amount - leftover else 0;
  transfer_reserved from to amount a a' x :
    native_transfer from to amount a = Some a' →
    native_reserved_balance a' x = native_reserved_balance a x;
  transfer_allow_death_reserved from to amount a a' x :
    native_transfer_allow_death from to amount a = Some a' →
    native_reserved_balance a' x = native_reserved_balance a x;
  deposit_creating_reserved w amount a x :
    native_reserved_balance (native_deposit_creating w amount a) x = native_reserved_balance a x;
  deposit_into_existing_reserved w amount a a' x :
    native_deposit_into_existing w amount a = Some a' →
    native_reserved_balance a' x = native_reserved_balance a x;
  asset_deposit_reserved c w amount a a' x :
    asset_deposit c w amount a = Some a' →
    native_reserved_balance a' x = native_reserved_balance a x;
  asset_withdraw_reserved c w amount a a' x :
    asset_withdraw c w amount a = Some a' →
    native_reserved_balance a' x = native_reserved_balance a x;
  asset_transfer_reserved c from to amount a a' x :
    asset_transfer c from to amount a = Some a' →
    native_reserved_balance a' x = native_reserved_balance a x;
}.

Section NodeInv.
Context `{BridgeConfig} `{!NodeConfig}.
Implicit Types (n : NodeStorage.t) (r : gmap NodeId NodeInfo.t) (i : NodeInfo.t) (o : AccountId)
  (k : NodeId).

(** ** Totals over the registry *)

Definition amount_of i : Balance := StakeInfo.amount (NodeInfo.stake i).
Definition staked o r : Z := map_sum (λ _ i, if decide (NodeInfo.owner i = o) then amount_of i else 0) r.
Definition owned_nodes o r : Z := map_sum (λ _ i, if decide (NodeInfo.owner i = o) then 1 else 0) r.
Definition bonus_nodes r : Z := map_count (λ _ i, is_bonus_node i) r.

Definition total_of_owner n o : Balance := unwrap_or 0 (NodeStorage.TotalStake n !! o).
Definition count_of_owner n o : Z := unwrap_or 0 (NodeStorage.OwnedNodesCount n !! o).

(** A serial number below the start of the bonus nodes belongs to one node. *)
Record serials_ok n : Prop := {
  se_next : 0 <= NodeStorage.NextNodeSerialNumber n <= BonusNodeSerialStart;
  se_next_bonus : BonusNodeSerialStart <= NodeStorage.NextBonusNodeSerialNumber n;
  se_range k i :
    NodeStorage.NodeRegistry n !! k = Some i →
    NodeInfo.serial_number i < NodeStorage.NextNodeSerialNumber n ∨
    BonusNodeSerialStart <= NodeInfo.serial_number i;
  se_unique k1 k2 i1 i2 :
    NodeStorage.NodeRegistry n !! k1 = Some i1 → NodeStorage.NodeRegistry n !! k2 = Some i2 →
    NodeInfo.serial_number i1 = NodeInfo.serial_number i2 →
    NodeInfo.serial_number i1 < BonusNodeSerialStart → k1 = k2;
}.

(** [dc] and [ds] are the counts and stakes that are still to be added to owners. *)
Record reg_off n (dc ds : AccountId → Z) : Prop := {
  rg_owned o k :
    (o, k) ∈ NodeStorage.OwnedNodes n ↔
    NodeInfo.owner <$> NodeStorage.NodeRegistry n !! k = Some o;
  rg_keys key k :
    NodeStorage.SigningKeyToNodeId n !! key = Some k ↔
    NodeInfo.signing_key <$> NodeStorage.NodeRegistry n !! k = Some key;
  rg_count o : count_of_owner n o + dc o = owned_nodes o (NodeStorage.NodeRegistry n);
  rg_total : NodeStorage.TotalRegisteredNodes n = Z.of_nat (size (NodeStorage.NodeRegistry n));
  rg_bonus : NodeStorage.TotalRegisteredBonusNodes n = bonus_nodes (NodeStorage.NodeRegistry n);
  rg_stake o : total_of_owner n o + ds o = staked o (NodeStorage.NodeRegistry n);
  rg_amount k i : NodeStorage.NodeRegistry n !! k = Some i → 0 <= amount_of i;
  rg_size : Z.of_nat (size (NodeStorage.NodeRegistry n)) <= u32_max;
  rg_serials : serials_ok n;
}.
Definition settled (o : AccountId) : Z := 0.
Definition registry_ok n : Prop := reg_off n settled settled.
(** What is staked is reserved. *)
Definition covered (s : Runtime.t) : Prop :=
  ∀ o, total_of_owner (Runtime.nodes s) o <= native_reserved_balance (Runtime.assets s) o.
Definition nodes_ok (s : Runtime.t) : Prop := registry_ok (Runtime.nodes s) ∧ covered s.
Definition bump (o : AccountId) (d : Z) (f : AccountId → Z) (x : AccountId) : Z :=
  f x + if decide (x = o) then d else 0.

(** ** How the totals change *)

Lemma owner_term o r k i :
  r !! k = Some i →
  term (λ _ i, if decide (NodeInfo.owner i = o) then amount_of i else 0) k r =
  if decide (NodeInfo.owner i = o) then amount_of i else 0.
Proof. intros Hk. unfold term. by rewrite Hk. Qed.
Lemma staked_insert o r k i :
  staked o (<[k := i]> r) =
  staked o r - from_option (λ i, if decide (NodeInfo.owner i = o) then amount_of i else 0) 0 (r !! k) +
  if decide (NodeInfo.owner i = o) then amount_of i else 0.
Proof. unfold staked. by rewrite map_sum_insert. Qed.
Lemma owned_insert o r k i :
  owned_nodes o (<[k := i]> r) =
  owned_nodes o r - from_option (λ i, if decide (NodeInfo.owner i = o) then 1 else 0) 0 (r !! k) +
  if decide (NodeInfo.owner i = o) then 1 else 0.
Proof. unfold owned_nodes. by rewrite map_sum_insert. Qed.
Lemma bonus_insert r k i :
  bonus_nodes (<[k := i]> r) =
  bonus_nodes r - from_option (λ i, Z.b2z (is_bonus_node i)) 0 (r !! k) + Z.b2z (is_bonus_node i).
Proof. unfold bonus_nodes, map_count. by rewrite map_sum_insert. Qed.
Lemma staked_delete o r k :
  staked o (delete k r) =
  staked o r - from_option (λ i, if decide (NodeInfo.owner i = o) then amount_of i else 0) 0 (r !! k).
Proof. unfold staked. by rewrite map_sum_delete. Qed.
Lemma owned_delete o r k :
  owned_nodes o (delete k r) =
  owned_nodes o r - from_option (λ i, if decide (NodeInfo.owner i = o) then 1 else 0) 0 (r !! k).
Proof. unfold owned_nodes. by rewrite map_sum_delete. Qed.
Lemma bonus_delete r k :
  bonus_nodes (delete k r) = bonus_nodes r - from_option (λ i, Z.b2z (is_bonus_node i)) 0 (r !! k).
Proof. unfold bonus_nodes, map_count. by rewrite map_sum_delete. Qed.
Lemma owned_range o r : 0 <= owned_nodes o r <= Z.of_nat (size r).
Proof.
  rewrite <- map_count_true. unfold owned_nodes, map_count.
  split; [apply map_sum_nonneg|apply map_sum_le]; intros k i _; case_decide; cbn; lia.
Qed.
Lemma bonus_range r : 0 <= bonus_nodes r <= Z.of_nat (size r).
Proof. apply map_count_le. Qed.
Lemma staked_elem o r k i :
  (∀ k i, r !! k = Some i → 0 <= amount_of i) → r !! k = Some i → NodeInfo.owner i = o →
  amount_of i <= staked o r.
Proof.
  intros Hr Hk Ho. unfold staked.
  pose proof (map_sum_elem (λ _ i, if decide (NodeInfo.owner i = o) then amount_of i else 0) k i r) as Hs.
  cbn in Hs. rewrite decide_True in Hs by done. apply Hs; [|done].
  intros j i' Hj. case_decide; [by eapply Hr|lia].
Qed.
Lemma staked_nonneg o r : (∀ k i, r !! k = Some i → 0 <= amount_of i) → 0 <= staked o r.
Proof. intros Hr. apply map_sum_nonneg. intros k i Hk. case_decide; [by eapply Hr|lia]. Qed.

(** ** How the invariant changes *)

Definition reg_view n :=
  (NodeStorage.NodeRegistry n, NodeStorage.SigningKeyToNodeId n, NodeStorage.OwnedNodes n,
   NodeStorage.OwnedNodesCount n, NodeStorage.TotalRegisteredNodes n,
   NodeStorage.TotalRegisteredBonusNodes n, NodeStorage.TotalStake n,
   NodeStorage.NextNodeSerialNumber n, NodeStorage.NextBonusNodeSerialNumber n).
Lemma reg_off_same n n' dc ds : reg_view n' = reg_view n → reg_off n dc ds → reg_off n' dc ds.
Proof.
  unfold reg_view. intros [= ER EK EO EC ET EB ES EN EM] [A1 A2 A3 A4 A5 A6 A7 AZ [B1 B2 B3 B4]].
  constructor; [..|constructor]; unfold count_of_owner, total_of_owner in *;
    by rewrite ?ER, ?EK, ?EO, ?EC, ?ET, ?EB, ?ES, ?EN, ?EM.
Qed.
Lemma reg_off_ext n dc ds dc' ds' :
  (∀ o, dc' o = dc o) → (∀ o, ds' o = ds o) → reg_off n dc ds → reg_off n dc' ds'.
Proof.
  intros Ec Es [A1 A2 A3 A4 A5 A6 A7 AZ A8]. constructor; [done..| | | | | | |done];
    [intros o; by rewrite Ec|done|done|intros o; by rewrite Es|done|done].
Qed.

(** The identity of a node: what its stake does not affect. *)
Definition same_node i i' : Prop :=
  NodeInfo.owner i' = NodeInfo.owner i ∧ NodeInfo.signing_key i' = NodeInfo.signing_key i ∧
  NodeInfo.serial_number i' = NodeInfo.serial_number i.
Lemma lookup_insert_fmap {A B} (f : A → B) (m : gmap NodeId A) k j x y :
  m !! k = Some x → f y = f x → f <$> (<[k := y]> m) !! j = f <$> m !! j.
Proof.
  intros Hk Hf. destruct (decide (j = k)) as [->|Hj].
  - by rewrite lookup_insert_eq, Hk; cbn; rewrite Hf.
  - by rewrite lookup_insert_ne.
Qed.
Lemma serials_put n k i i' :
  serials_ok n → NodeStorage.NodeRegistry n !! k = Some i →
  NodeInfo.serial_number i' = NodeInfo.serial_number i →
  serials_ok (NodeStorage.upd_NodeRegistry (insert k i') n).
Proof.
  intros [B1 B2 B3 B4] Hk Hs.
  assert (∀ j x, (<[k := i']> (NodeStorage.NodeRegistry n)) !! j = Some x →
          ∃ y, NodeStorage.NodeRegistry n !! j = Some y ∧
               NodeInfo.serial_number x = NodeInfo.serial_number y) as Hl.
  { intros j x [[-> <-]|[_ Hj]]%lookup_insert_Some; eauto. }
  constructor; cbn; [done|done| |].
  - intros j x (y&Hy&->)%Hl. by apply (B3 j).
  - intros j1 j2 x1 x2 (y1&H1&->)%Hl (y2&H2&->)%Hl. by apply B4.
Qed.
Lemma put_off n dc ds k i i' :
  reg_off n dc ds → NodeStorage.NodeRegistry n !! k = Some i → same_node i i' → 0 <= amount_of i' →
  reg_off (NodeStorage.upd_NodeRegistry (insert k i') n) dc
    (bump (NodeInfo.owner i) (amount_of i' - amount_of i) ds).
Proof.
  intros [A1 A2 A3 A4 A5 A6 A7 AZ A8] Hk (Eo&Ek&Es) Ha.
  constructor; cbn; [..|by eapply serials_put].
  - intros o j. by rewrite (lookup_insert_fmap _ _ _ _ _ _ Hk Eo).
  - intros key j. by rewrite (lookup_insert_fmap _ _ _ _ _ _ Hk Ek).
  - intros o. rewrite owned_insert, Hk. cbn. rewrite Eo. rewrite <- A3.
    unfold count_of_owner. cbn. lia.
  - by rewrite map_size_insert_Some.
  - rewrite bonus_insert, Hk. cbn. unfold is_bonus_node at 1 2. rewrite Es. lia.
  - intros o. rewrite staked_insert, Hk. cbn. rewrite Eo. specialize (A6 o).
    unfold bump, total_of_owner in *. cbn. repeat case_decide; lia || congruence.
  - intros j x [[_ <-]|[_ Hj]]%lookup_insert_Some; [done|by eapply A7].
  - by rewrite map_size_insert_Some.
Qed.
Lemma unwrap_insert {A} (d v : A) (m : gmap AccountId A) o x :
  unwrap_or d (<[o := v]> m !! x) = if decide (x = o) then v else unwrap_or d (m !! x).
Proof.
  case_decide as Hx; [by rewrite Hx, lookup_insert_eq|by rewrite lookup_insert_ne].
Qed.
Lemma total_off n dc ds o v :
  reg_off n dc ds →
  reg_off (NodeStorage.upd_TotalStake (insert o v) n) dc (bump o (total_of_owner n o - v) ds).
Proof.
  intros [A1 A2 A3 A4 A5 A6 A7 AZ [B1 B2 B3 B4]]. constructor; [done..| |done|done|by constructor].
  intros x. rewrite <- A6. unfold bump, total_of_owner. cbn. rewrite unwrap_insert.
  case_decide; subst; lia.
Qed.
Lemma count_off n dc ds o c :
  reg_off n dc ds →
  reg_off (NodeStorage.upd_OwnedNodesCount (insert o c) n) (bump o (count_of_owner n o - c) dc) ds.
Proof.
  intros [A1 A2 A3 A4 A5 A6 A7 AZ [B1 B2 B3 B4]]. constructor; [done|done| |done..|by constructor].
  intros x. rewrite <- A3. unfold bump, count_of_owner. cbn. rewrite unwrap_insert.
  case_decide; subst; lia.
Qed.
Lemma move_off n dc ds k i i' :
  reg_off n dc ds → NodeStorage.NodeRegistry n !! k = Some i →
  NodeInfo.owner i ≠ NodeInfo.owner i' → NodeInfo.signing_key i' = NodeInfo.signing_key i →
  NodeInfo.serial_number i' = NodeInfo.serial_number i → 0 <= amount_of i' →
  reg_off (NodeStorage.upd_OwnedNodes (union {[(NodeInfo.owner i', k)]})
            (NodeStorage.upd_OwnedNodes (λ owned, owned ∖ {[(NodeInfo.owner i, k)]})
              (NodeStorage.upd_NodeRegistry (insert k i') n)))
    (bump (NodeInfo.owner i') 1 (bump (NodeInfo.owner i) (-1) dc))
    (bump (NodeInfo.owner i') (amount_of i') (bump (NodeInfo.owner i) (- amount_of i) ds)).
Proof.
  intros [A1 A2 A3 A4 A5 A6 A7 AZ A8] Hk Hne Ek Es Ha.
  constructor; cbn; [..|by destruct (serials_put n k i i' A8 Hk Es)].
  - intros o j. rewrite elem_of_union, elem_of_difference, !elem_of_singleton, A1.
    destruct (decide (j = k)) as [->|Hj].
    + rewrite lookup_insert_eq, Hk. cbn. naive_solver.
    + rewrite lookup_insert_ne by done. naive_solver.
  - intros key j. by rewrite (lookup_insert_fmap _ _ _ _ _ _ Hk Ek).
  - intros o. rewrite owned_insert, Hk. cbn. rewrite <- A3.
    unfold bump, count_of_owner. cbn. repeat case_decide; subst; lia || congruence.
  - by rewrite map_size_insert_Some.
  - rewrite bonus_insert, Hk. cbn. unfold is_bonus_node at 1 2. rewrite Es. lia.
  - intros o. rewrite staked_insert, Hk. cbn. rewrite <- A6.
    unfold bump, total_of_owner. cbn. repeat case_decide; subst; lia || congruence.
  - intros j x [[_ <-]|[_ Hj]]%lookup_insert_Some; [done|by eapply A7].
  - by rewrite map_size_insert_Some.
Qed.
Lemma key_off n dc ds k i key :
  reg_off n dc ds → NodeStorage.NodeRegistry n !! k = Some i →
  NodeStorage.SigningKeyToNodeId n !! key = None →
  reg_off (NodeStorage.upd_SigningKeyToNodeId (insert key k)
            (NodeStorage.upd_SigningKeyToNodeId (delete (NodeInfo.signing_key i))
              (NodeStorage.upd_NodeRegistry (insert k (NodeInfo.upd_signing_key (λ _, key) i)) n))) dc ds.
Proof.
  intros HR Hk Hkey. pose proof HR as [A1 A2 A3 A4 A5 A6 A7 AZ A8].
  assert (∀ j, NodeInfo.signing_key <$> NodeStorage.NodeRegistry n !! j ≠ Some key) as Hfree.
  { intros j Hj%A2. congruence. }
  constructor; cbn; [..|by destruct (serials_put n k i (NodeInfo.upd_signing_key (λ _, key) i) A8 Hk)].
  - intros o j. by rewrite (lookup_insert_fmap _ _ _ _ i) by done.
  - intros key' j. destruct (decide (key' = key)) as [->|Hne].
    + rewrite lookup_insert_eq. destruct (decide (j = k)) as [->|Hj].
      * by rewrite lookup_insert_eq.
      * rewrite lookup_insert_ne by done. split; [congruence|]. intros Hj'. by destruct (Hfree j).
    + rewrite lookup_insert_ne, lookup_delete_Some, A2 by done. destruct (decide (j = k)) as [->|Hj].
      * rewrite lookup_insert_eq, Hk. cbn. naive_solver.
      * rewrite lookup_insert_ne by done. split; [naive_solver|]. intros Hj'. split; [|done].
        intros <-. assert (Some j = Some k) as [=]; [|done].
        rewrite <- (proj2 (A2 (NodeInfo.signing_key i) j) Hj'). apply A2. by rewrite Hk.
  - intros o. by rewrite owned_insert, Hk; cbn; rewrite <- A3; unfold count_of_owner; cbn; lia.
  - by rewrite map_size_insert_Some.
  - rewrite bonus_insert, Hk. cbn. unfold is_bonus_node at 1 2. cbn. lia.
  - intros o. rewrite staked_insert, Hk. cbn. rewrite <- A6. unfold total_of_owner, amount_of. cbn. lia.
  - intros j x [[_ <-]|[_ Hj]]%lookup_insert_Some; [exact (A7 k i Hk)|by eapply A7].
  - by rewrite map_size_insert_Some.
Qed.

(** A new node, with a serial number that is not in use. *)
Lemma registered_ok n n' k i :
  registry_ok n → NodeStorage.NodeRegistry n !! k = None →
  NodeStorage.SigningKeyToNodeId n !! NodeInfo.signing_key i = None →
  Z.of_nat (size (NodeStorage.NodeRegistry n)) < u32_max → amount_of i = 0 →
  NodeStorage.NodeRegistry n' = <[k := i]> (NodeStorage.NodeRegistry n) →
  NodeStorage.SigningKeyToNodeId n' =
    <[NodeInfo.signing_key i := k]> (NodeStorage.SigningKeyToNodeId n) →
  NodeStorage.OwnedNodes n' = {[(NodeInfo.owner i, k)]} ∪ NodeStorage.OwnedNodes n →
  NodeStorage.OwnedNodesCount n' =
    <[NodeInfo.owner i := count_of_owner n (NodeInfo.owner i) ⊕₃₂ 1]> (NodeStorage.OwnedNodesCount n) →
  NodeStorage.TotalRegisteredNodes n' = NodeStorage.TotalRegisteredNodes n ⊕₃₂ 1 →
  NodeStorage.TotalRegisteredBonusNodes n' =
    (if is_bonus_node i then NodeStorage.TotalRegisteredBonusNodes n ⊕₃₂ 1
     else NodeStorage.TotalRegisteredBonusNodes n) →
  NodeStorage.TotalStake n' = NodeStorage.TotalStake n → serials_ok n' → registry_ok n'.
Proof.
  intros [A1 A2 A3 A4 A5 A6 A7 AZ A8] Hk Hkey Hsize Ha ER EK EO EC ET EB ES Hser.
  pose proof (owned_range (NodeInfo.owner i) (NodeStorage.NodeRegistry n)) as Hc.
  pose proof (bonus_range (NodeStorage.NodeRegistry n)) as Hb.
  constructor; [..|done]; unfold count_of_owner, total_of_owner, settled in *;
    rewrite ?ER, ?EK, ?EO, ?EC, ?ET, ?EB, ?ES.
  - intros o j. rewrite elem_of_union, elem_of_singleton, A1. destruct (decide (j = k)) as [->|Hj].
    + rewrite lookup_insert_eq, Hk. cbn. naive_solver.
    + rewrite lookup_insert_ne by done. naive_solver.
  - intros key j. rewrite lookup_insert_Some, A2. destruct (decide (j = k)) as [->|Hj].
    + rewrite lookup_insert_eq, Hk. cbn. naive_solver.
    + rewrite lookup_insert_ne by done. split; [naive_solver|]. intros Hj'. right. split; [|done].
      intros <-. apply A2 in Hj'. congruence.
  - intros o. rewrite unwrap_insert, owned_insert, Hk. cbn. specialize (A3 o) as Ho.
    specialize (A3 (NodeInfo.owner i)). repeat case_decide; subst; [|congruence..|lia].
    rewrite sat_add_small by lia. lia.
  - rewrite map_size_insert_None, sat_add_small by (done || lia). lia.
  - rewrite bonus_insert, Hk. cbn. rewrite A5. destruct (is_bonus_node i); cbn; [|lia].
    rewrite sat_add_small by lia. lia.
  - intros o. rewrite staked_insert, Hk. cbn. rewrite Ha, <- A6. case_decide; lia.
  - intros j x [[_ <-]|[_ Hj]]%lookup_insert_Some; [lia|by eapply A7].
  - rewrite map_size_insert_None by done. lia.
Qed.
Lemma serials_delete n k : serials_ok n → serials_ok (NodeStorage.upd_NodeRegistry (delete k) n).
Proof.
  intros [B1 B2 B3 B4]. constructor; cbn; [done|done| |].
  - intros j x [_ Hj]%lookup_delete_Some. by apply (B3 j).
  - intros j1 j2 x1 x2 [_ H1]%lookup_delete_Some [_ H2]%lookup_delete_Some. by apply B4.
Qed.
(** A node that is gone, with its stake still in the total of its owner. *)
Lemma deregistered_off n n' k i :
  registry_ok n → NodeStorage.NodeRegistry n !! k = Some i →
  NodeStorage.NodeRegistry n' = delete k (NodeStorage.NodeRegistry n) →
  NodeStorage.SigningKeyToNodeId n' =
    delete (NodeInfo.signing_key i) (NodeStorage.SigningKeyToNodeId n) →
  NodeStorage.OwnedNodes n' = NodeStorage.OwnedNodes n ∖ {[(NodeInfo.owner i, k)]} →
  NodeStorage.OwnedNodesCount n' =
    <[NodeInfo.owner i := count_of_owner n (NodeInfo.owner i) ⊖ 1]> (NodeStorage.OwnedNodesCount n) →
  NodeStorage.TotalRegisteredNodes n' = NodeStorage.TotalRegisteredNodes n ⊖ 1 →
  NodeStorage.TotalRegisteredBonusNodes n' =
    (if is_bonus_node i then NodeStorage.TotalRegisteredBonusNodes n ⊖ 1
     else NodeStorage.TotalRegisteredBonusNodes n) →
  NodeStorage.TotalStake n' = NodeStorage.TotalStake n →
  NodeStorage.NextNodeSerialNumber n' = NodeStorage.NextNodeSerialNumber n →
  NodeStorage.NextBonusNodeSerialNumber n' = NodeStorage.NextBonusNodeSerialNumber n →
  reg_off n' settled (bump (NodeInfo.owner i) (- amount_of i) settled).
Proof.
  intros [A1 A2 A3 A4 A5 A6 A7 AZ A8] Hk ER EK EO EC ET EB ES EN EM.
  assert (NodeStorage.NodeRegistry n = <[k := i]> (delete k (NodeStorage.NodeRegistry n))) as Hins
    by by rewrite insert_delete_id.
  pose proof (owned_range (NodeInfo.owner i) (delete k (NodeStorage.NodeRegistry n))) as Hc.
  pose proof (bonus_range (delete k (NodeStorage.NodeRegistry n))) as Hb.
  assert (size (NodeStorage.NodeRegistry n) = S (size (delete k (NodeStorage.NodeRegistry n)))) as Hs.
  { rewrite Hins at 1. apply map_size_insert_None, lookup_delete_eq. }
  constructor; unfold count_of_owner, total_of_owner, settled, bump in *;
    rewrite ?ER, ?EK, ?EO, ?EC, ?ET, ?EB, ?ES.
  - intros o j. rewrite elem_of_difference, elem_of_singleton, A1. destruct (decide (j = k)) as [->|Hj].
    + rewrite lookup_delete_eq, Hk. cbn. naive_solver.
    + rewrite lookup_delete_ne by done. naive_solver.
  - intros key j. rewrite lookup_delete_Some, A2. destruct (decide (j = k)) as [->|Hj].
    + rewrite lookup_delete_eq, Hk. cbn. naive_solver.
    + rewrite lookup_delete_ne by done. split; [naive_solver|]. intros Hj'. split; [|done].
      intros <-. apply A2 in Hj'. assert (NodeStorage.SigningKeyToNodeId n !! NodeInfo.signing_key i = Some k)
        by (apply A2; by rewrite Hk). congruence.
  - intros o. rewrite unwrap_insert, owned_delete, Hk. cbn. specialize (A3 o) as Ho.
    specialize (A3 (NodeInfo.owner i)). rewrite owned_delete, Hk in Hc. cbn in Hc.
    rewrite decide_True in Hc by done. repeat case_decide; subst; [|congruence..|lia].
    rewrite sat_sub_small by lia. lia.
  - rewrite A4, Hs, sat_sub_small by lia. lia.
  - rewrite bonus_delete, Hk in Hb |- *. cbn in Hb |- *. rewrite A5. destruct (is_bonus_node i); cbn in *; [|lia].
    rewrite sat_sub_small by lia. lia.
  - intros o. rewrite staked_delete, Hk. cbn. rewrite <- A6. repeat case_decide; subst; lia || congruence.
  - intros j x [_ Hj]%lookup_delete_Some. by eapply A7.
  - lia.
  - destruct (serials_delete n k A8) as [B1 B2 B3 B4]. cbn in *.
    constructor; rewrite ?ER, ?EN, ?EM; done.
Qed.
End NodeInv.

(** Goals about the amounts by which owners are off. *)
Ltac off_tac :=
  unfold bump, settled, amount_of in *; cbn in *; repeat case_decide; subst; lia || congruence.

(** * Operations on the stake of nodes keep the registry consistent

    Adding, removing and moving stake, and moving nodes between owners, keep
    [nodes_ok]: the tables agree, the totals are exact, what is staked is reserved. *)

Section NodeMoves.
Context `{BridgeConfig} `{!NodeConfig} `{!ReserveLaws _}.
Implicit Types (s : Runtime.t) (i : NodeInfo.t) (o : AccountId) (k : NodeId).

(** What [nodes_ok] depends on. *)
Definition reg_of s := reg_view (Runtime.nodes s).
Definition reserves_kept s s' : Prop :=
  ∀ o, native_reserved_balance (Runtime.assets s') o = native_reserved_balance (Runtime.assets s) o.
Lemma nodes_ok_same s s' : reg_of s' = reg_of s → reserves_kept s s' → nodes_ok s → nodes_ok s'.
Proof.
  intros Hr Ha [HR HC]. split; [by eapply reg_off_same|]. intros o. rewrite Ha.
  specialize (HC o). unfold total_of_owner in *. unfold reg_of, reg_view in Hr. congruence.
Qed.
Lemma nodes_modify_ok (f : Runtime.t → Runtime.t) :
  (∀ s, reg_of (f s) = reg_of s) → (∀ s, Runtime.assets (f s) = Runtime.assets s) →
  maintains nodes_ok (modify f : Dispatch unit).
Proof.
  intros Hr Ha. apply maintains_modify. intros s Hs.
  apply (nodes_ok_same s); [done| |done]. intros o. by rewrite Ha.
Qed.
Lemma node_event_ok e : maintains nodes_ok (node_event e).
Proof. by apply nodes_modify_ok. Qed.
Lemma node_modify_ok f :
  (∀ n, reg_view (f n) = reg_view n) → maintains nodes_ok (node_modify f).
Proof. intros Hf. apply nodes_modify_ok; [|done]. intros s. apply Hf. Qed.

(** ** Adding and removing stake *)

Lemma checked_add_Some a b c : checked_add_u128 a b = Some c → c = a + b.
Proof. unfold checked_add_u128. case_bool_decide; naive_solver. Qed.
Lemma checked_sub_Some a b c : checked_sub_u128 a b = Some c → c = a - b ∧ 0 <= c.
Proof. unfold checked_sub_u128. case_bool_decide; naive_solver. Qed.
Lemma snapshot_same now pct d i :
  same_node i (try_snapshot_stake now pct d i) ∧ amount_of (try_snapshot_stake now pct d i) = amount_of i.
Proof. unfold try_snapshot_stake. repeat case_match; done. Qed.
Ltac snapshot_tac i Hsame Hamt :=
  match goal with
  | |- context [try_snapshot_stake ?now ?pct ?d i] =>
      let j := fresh "j" in
      pose proof (snapshot_same now pct d i) as [Hsame Hamt];
      set (j := try_snapshot_stake now pct d i) in *; clearbody j
  end.
(** The stake of one node and the total of its owner change by the same amount. *)
Lemma stake_changed s k i i' v a :
  nodes_ok s → node_info k s = Some i → same_node i i' → 0 <= amount_of i' →
  v = total_of_owner (Runtime.nodes s) (NodeInfo.owner i) + (amount_of i' - amount_of i) →
  (∀ x, native_reserved_balance (Runtime.assets s) x +
        (if decide (x = NodeInfo.owner i) then amount_of i' - amount_of i else 0) <=
        native_reserved_balance a x) →
  nodes_ok (Runtime.upd_assets (λ _, a)
             (Runtime.upd_nodes (NodeStorage.upd_TotalStake (insert (NodeInfo.owner i) v))
               (Runtime.upd_nodes (NodeStorage.upd_NodeRegistry (insert k i')) s))).
Proof.
  intros [HR HC] Hk Hsame Hpos -> Ha. split.
  - eapply reg_off_ext; [| |apply total_off, (put_off _ _ _ _ _ _ HR Hk Hsame Hpos)];
      [done|]. intros x. unfold bump, settled, total_of_owner. cbn. case_decide; lia.
  - intros x. specialize (HC x) as Hx. specialize (Ha x). unfold total_of_owner in *. cbn in *.
    rewrite unwrap_insert. case_decide; subst; lia.
Qed.
Lemma do_add_stake_spec o k amount s :
  nodes_ok s → 0 <= amount → (∀ i, node_info k s = Some i → NodeInfo.owner i = o) →
  wp (do_add_stake o k amount) s (λ _ s', nodes_ok s') (λ _ s', s' = s).
Proof.
  intros Hs Ha Ho. unfold do_add_stake, node_get, raise_total_stake, update_reserves, put_node, node_modify.
  repeat wp_step; cbv zeta; repeat wp_step; try done.
  rename select (node_info k s = Some _) into Hk. rename select (native_reserve _ _ _ = _) into Hr.
  rename select (checked_add_u128 (total_stake _ _) _ = _) into Ht.
  apply checked_add_Some in H3 as ->, Ht as ->. rewrite <- (Ho _ Hk) in *.
  snapshot_tac a Hsame Hamt. pose proof (rg_amount _ _ _ (proj1 Hs) _ _ Hk).
  eapply (stake_changed s k a); [done|done|done|unfold amount_of in *; cbn; rewrite Hamt; lia| |].
  - unfold total_of_owner, total_stake, amount_of in *. cbn. rewrite Hamt. lia.
  - intros x. unfold amount_of in *. cbn. rewrite (reserve_reserved _ _ _ _ x Hr), Hamt. cbn. repeat case_decide; lia || done.
Qed.
(** What is available to unstake is not more than the stake. *)
Lemma available_range i now period av next :
  available_to_unstake i now period = Ok (av, next) → 0 <= amount_of i → av <= amount_of i.
Proof.
  unfold available_to_unstake, amount_of. intros Hav Hi.
  repeat (case_match; simplify_eq; try lia). unfold mbind, outcome_bind, or_err in Hav.
  repeat (case_match; simplify_eq; try lia).
Qed.
Lemma available_no_panic i now period : available_to_unstake i now period ≠ Panic.
Proof.
  unfold available_to_unstake, mbind, outcome_bind, or_err. by repeat (case_match; simplify_eq).
Qed.
Lemma wp_run_value {E A} (r : outcome E A) (e : DispatchError) s (Q : A → Runtime.t → Prop) R :
  r ≠ Panic → (∀ a, r = Ok a → Q a s) → R e s → wp (run r e) s Q R.
Proof. destruct r as [a|e'|]; cbn; intros Hp HQ HR; [by apply HQ|done|done]. Qed.
(** An amount in an argument is not negative. *)
Definition amount_arg (amount : option Balance) : Prop :=
  match amount with Some x => 0 <= x | None => True end.
Lemma amount_to_remove_spec amount staked av s :
  amount_arg amount →
  wp (amount_to_remove amount staked av) s (λ x s', s' = s ∧ 0 < x <= av) (λ _ _, True).
Proof.
  intros Ha. unfold amount_to_remove. destruct amount as [x|]; repeat wp_step; try done.
  - rewrite negb_true_iff, bool_decide_eq_false, ?bool_decide_eq_true in *. cbn in Ha. split; [done|lia].
  - rewrite bool_decide_eq_true in *. split; [done|lia].
Qed.
Lemma unreserve_all o amount a a' x :
  0 <= amount → native_unreserve o amount a = (0, a') →
  native_reserved_balance a' x = native_reserved_balance a x - if decide (x = o) then amount else 0.
Proof.
  intros Ha Hu. pose proof (unreserve_reserved o amount a x Ha) as Hl. rewrite Hu in Hl.
  destruct Hl as [_ ->]. case_decide; lia.
Qed.
Lemma do_remove_stake_spec o k amount s :
  nodes_ok s → amount_arg amount → (∀ i, node_info k s = Some i → NodeInfo.owner i = o) →
  wp (do_remove_stake o k amount) s (λ _ s', nodes_ok s') (λ _ _, True).
Proof.
  intros Hs Harg Ho.
  unfold do_remove_stake, node_get, lower_total_stake, update_reserves, put_node, node_modify.
  repeat wp_step; cbv zeta; try done. rename select (node_info k s = Some _) into Hk.
  snapshot_tac a Hsame Hamt. apply wp_run_value; [apply available_no_panic| |done]. intros [av next] Hav.
  wp_step. eapply wp_mono; [by apply amount_to_remove_spec| |done]. intros x s' [-> Hx].
  repeat wp_step; try done. case_match eqn:Hu. repeat wp_step; try done.
  rename select (bool_decide _ = true) into Hz. apply bool_decide_eq_true in Hz as ->.
  rename select (checked_sub_u128 (StakeInfo.amount _) _ = _) into Hn. apply checked_sub_Some in Hn as [-> Hn].
  rename select (checked_sub_u128 (total_stake _ _) _ = _) into Ht. apply checked_sub_Some in Ht as [-> Ht].
  rewrite <- (Ho _ Hk) in *. unfold amount_of in Hamt.
  eapply (stake_changed s k a); [done|done|done|done| |].
  - unfold total_of_owner, total_stake, amount_of in *. cbn. rewrite Hamt. lia.
  - intros y. unfold amount_of. cbn. rewrite (unreserve_all _ x _ _ y ltac:(lia) Hu), Hamt.
    cbn. repeat case_decide; lia || done.
Qed.

(** ** Moving stake between the nodes of an owner *)


(** Totals and reserves are as they were at [s0]; the registry is off by [dc] and [ds]. *)
Definition moving s0 (dc ds : AccountId → Z) s : Prop :=
  reg_off (Runtime.nodes s) dc ds ∧ Runtime.assets s = Runtime.assets s0 ∧
  NodeStorage.TotalStake (Runtime.nodes s) = NodeStorage.TotalStake (Runtime.nodes s0) ∧
  NodeStorage.OwnedNodesCount (Runtime.nodes s) = NodeStorage.OwnedNodesCount (Runtime.nodes s0).
Lemma moving_ext s0 s dc ds dc' ds' :
  (∀ o, dc' o = dc o) → (∀ o, ds' o = ds o) → moving s0 dc ds s → moving s0 dc' ds' s.
Proof. intros Hc Hs [HR Hm]. split; [by eapply reg_off_ext|done]. Qed.
Lemma moving_start s : nodes_ok s → moving s settled settled s.
Proof. by intros [HR _]. Qed.
Lemma moving_event s0 s dc ds e : moving s0 dc ds s → wp (node_event e) s (λ _ s', moving s0 dc ds s') (λ _ _, True).
Proof. done. Qed.
Lemma move_stake_from_spec o to to_info now s0 total seen source s :
  moving s0 settled (bump o (- total) settled) s → 0 <= total → node_info to s = Some to_info →
  amount_arg source.2 →
  wp (move_stake_from o to now (total, seen) source) s
    (λ acc s', moving s0 settled (bump o (- acc.1) settled) s' ∧ 0 <= acc.1 ∧
               node_info to s' = Some to_info) (λ _ _, True).
Proof.
  intros (HR&Ha&Ht&Hc) Hpos Hto Harg. destruct source as [from amount]. unfold move_stake_from, put_node, node_modify.
  cbn [fst snd] in *. repeat wp_step; try done. cbv zeta.
  rename select (negb (bool_decide (from = to)) = true) into Hne. rename a into i.
  rename select (node_info from s = Some i) into Hk. apply negb_true_iff, bool_decide_eq_false in Hne.
  rename select (bool_decide (NodeInfo.owner i = o) = true) into Ho. apply bool_decide_eq_true in Ho.
  eapply wp_mono with (Q := λ x s', s' = s ∧ 0 <= x) (R := λ _ _, True); [| |done].
  { destruct amount; repeat wp_step; try done. split; [done|]. by apply (rg_amount _ _ _ HR from). }
  intros x s' [-> Hx]. cbv beta. destruct (bool_decide (x = 0)) eqn:Hz; [by apply wp_ret|]. repeat wp_step; try done.
  rename select (checked_sub_u128 _ _ = _) into Hn. apply checked_sub_Some in Hn as [-> Hn].
  rename select (checked_add_u128 _ _ = _) into Hs. apply checked_add_Some in Hs as ->. cbn [fst].
  split; [|split; [lia|]].
  - split; [|done]. eapply reg_off_ext; [| |apply (put_off _ _ _ _ _ _ HR Hk); [done|]];
      [done| |done]. intros y. off_tac.
  - unfold node_info in *. cbn. by rewrite lookup_insert_ne.
Qed.
Lemma do_move_stake_ok o sources to :
  Forall (amount_arg ∘ snd) sources → keeps nodes_ok (do_move_stake o sources to).
Proof.
  intros Hargs s Hs. unfold do_move_stake. repeat wp_step; try done. rename a into to_info.
  rename select (node_info to s = Some to_info) into Hto.
  rename select (bool_decide (NodeInfo.owner to_info = o) = true) into Ho. apply bool_decide_eq_true in Ho.
  apply wp_fold_m with (I := λ l acc s', Forall (amount_arg ∘ snd) l ∧
    moving s settled (bump o (- acc.1) settled) s' ∧ 0 <= acc.1 ∧ node_info to s' = Some to_info).
  - split; [done|]. split; [|done]. eapply moving_ext; [| |by apply moving_start]; [done|].
    intros y. off_tac.
  - intros x l [total seen] s' ([Hx Hl]%Forall_cons&Hm&Hp&Hi).
    eapply wp_mono; [by eapply move_stake_from_spec| |done]. by intros acc s'' ?.
  - intros [total seen] s' (_&(HR&Ha&Ht&Hc)&Hp&Hi). cbn in *. destruct (bool_decide (total = 0)) eqn:Hz; [apply bool_decide_eq_true in Hz|].
    { wp_step. subst total. split.
      - eapply reg_off_ext; [done| |done]. intros y. off_tac.
      - intros y. unfold total_of_owner. rewrite Ht, Ha. apply Hs. }
    unfold put_node, node_modify, node_event, deposit_event. repeat wp_step; try done.
    rename select (checked_add_u128 _ _ = _) into Hn. apply checked_add_Some in Hn as ->.
    pose proof (rg_amount _ _ _ HR _ _ Hi) as Hpos. unfold amount_of in Hpos. split.
    + eapply reg_off_ext; [| |refine (put_off _ _ _ to to_info _ HR Hi _ _); [done|off_tac]]; [done|].
      intros y. off_tac.
    + intros y. unfold total_of_owner. cbn. rewrite Ht, Ha. apply Hs.
Qed.

(** ** Moving nodes between owners *)

(** [n] nodes with [amount] staked on them have moved, in the registry. *)
Definition moved cur new (n amount : Z) s0 s : Prop :=
  moving s0 (bump new n (bump cur (- n) settled)) (bump new amount (bump cur (- amount) settled)) s.
Lemma counts_moved cur new n dc s :
  cur ≠ new → reg_off (Runtime.nodes s) (bump new n (bump cur (- n) settled)) dc → 0 <= n →
  count_of_owner (Runtime.nodes s) cur ⊖ n = count_of_owner (Runtime.nodes s) cur - n ∧
  count_of_owner (Runtime.nodes s) new ⊕₃₂ n = count_of_owner (Runtime.nodes s) new + n.
Proof.
  intros Hne [_ _ HC _ _ _ _ HZ _] Hn.
  pose proof (owned_range cur (NodeStorage.NodeRegistry (Runtime.nodes s))).
  pose proof (owned_range new (NodeStorage.NodeRegistry (Runtime.nodes s))).
  pose proof (HC cur). pose proof (HC new). rewrite sat_sub_small, sat_add_small; [done|off_tac..].
Qed.
Lemma move_reserved_balance_spec cur new amount s :
  cur ≠ new → 0 <= amount →
  wp (move_reserved_balance cur new amount) s
    (λ _ s', ∃ a, s' = Runtime.upd_assets (λ _, a) s ∧ ∀ x,
       native_reserved_balance a x = native_reserved_balance (Runtime.assets s) x +
         bump new amount (bump cur (- amount) settled) x) (λ _ _, True).
Proof.
  intros Hne Ha. unfold move_reserved_balance, update_assets. repeat wp_step.
  destruct (native_unreserve cur amount (Runtime.assets s)) as [left a1] eqn:Hu.
  repeat wp_step; try done. rename select (bool_decide _ = true) into Hz.
  apply bool_decide_eq_true in Hz as ->. cbn in *. eexists. split; [done|]. intros x.
  erewrite (reserve_reserved _ _ _ _ x) by done.
  erewrite (transfer_allow_death_reserved _ _ _ _ _ x) by done.
  rewrite (unreserve_all _ _ _ _ x Ha Hu). off_tac.
Qed.
Lemma move_owner_totals_spec cur new n amount s0 s :
  cur ≠ new → nodes_ok s0 → moved cur new n amount s0 s → 0 <= n → 0 <= amount →
  wp (move_owner_totals cur new n amount) s (λ _ s', nodes_ok s') (λ _ _, True).
Proof.
  intros Hne [_ HC] (HR&Ha&Ht&Hc) Hn Hpos. destruct (counts_moved cur new n _ s Hne HR Hn) as [E1 E2].
  unfold move_owner_totals, mutate_owned_count, node_modify. do 4 wp_step. do 3 wp_step. wp_step.
  set (s2 := Runtime.upd_nodes _ _).
  assert (reg_off (Runtime.nodes s2) settled (bump new amount (bump cur (- amount) settled))) as HR2.
  { eapply reg_off_ext; [| |refine (count_off _ _ _ new _ (count_off _ _ _ cur _ HR))]; [|done].
    intros x. unfold owned_count, count_of_owner in *. cbn. rewrite E1, unwrap_insert.
    rewrite decide_False by done. rewrite E2. off_tac. }
  assert (Runtime.assets s2 = Runtime.assets s0 ∧
          NodeStorage.TotalStake (Runtime.nodes s2) = NodeStorage.TotalStake (Runtime.nodes s0)) as [Ha2 Ht2]
    by done. clearbody s2. clear HR Ha Ht Hc E1 E2.
  destruct (bool_decide (amount = 0)) eqn:Hz; [apply bool_decide_eq_true in Hz as ->; wp_step|].
  { split; [by eapply reg_off_ext; [..|done]; [|intros x; off_tac]|].
    intros x. unfold total_of_owner. rewrite Ht2, Ha2. apply HC. }
  wp_step. eapply wp_mono; [by apply move_reserved_balance_spec| |done].
  intros [] s3 (a&->&Hres). unfold lower_total_stake, raise_total_stake, node_modify.
  repeat wp_step; try done.
  rename select (checked_sub_u128 _ _ = _) into Hl. apply checked_sub_Some in Hl as [-> Hl].
  rename select (checked_add_u128 _ _ = _) into Hh. apply checked_add_Some in Hh as ->.
  unfold total_stake in *. cbn in *. rewrite unwrap_insert, decide_False in * by done. split.
  - eapply reg_off_ext; [| |refine (total_off _ _ _ new _ (total_off _ _ _ cur _ HR2))]; [done|].
    intros x. unfold total_of_owner. cbn. rewrite unwrap_insert, decide_False by done. off_tac.
  - intros x. specialize (HC x). unfold total_of_owner in *. cbn. rewrite Hres, !unwrap_insert, Ha2.
    rewrite <- Ht2 in HC. off_tac.
Qed.
Lemma owns_Some o k s dc ds :
  reg_off (Runtime.nodes s) dc ds → owns o k s = true →
  ∃ i, node_info k s = Some i ∧ NodeInfo.owner i = o.
Proof.
  intros HR Ho. apply bool_decide_eq_true, (rg_owned _ _ _ HR) in Ho. unfold node_info.
  destruct (NodeStorage.NodeRegistry _ !! k) as [i|]; [|done]. exists i. naive_solver.
Qed.
Lemma move_node_spec cur new n total s0 k s :
  cur ≠ new → moved cur new n total s0 s → 0 <= total →
  wp (move_node cur new total k) s
    (λ total' s', moved cur new (n + 1) total' s0 s' ∧ 0 <= total') (λ _ _, True).
Proof.
  intros Hne (HR&Ha&Ht&Hc) Hpos. unfold move_node, put_node, node_modify, node_event, deposit_event.
  repeat wp_step; try done. rename a into i. rename select (owns cur k s = true) into Ho.
  rename select (node_info k s = Some i) into Hk. destruct (owns_Some _ _ _ _ _ HR Ho) as (i'&Hi'&Howner).
  rewrite Hk in Hi'. injection Hi' as <-. pose proof (rg_amount _ _ _ HR k i Hk) as Hi.
  eapply wp_mono with (Q := λ x s', s' = s ∧ x = total + amount_of i) (R := λ _ _, True); [| |done].
  { destruct (bool_decide _) eqn:Hz; repeat wp_step; try done.
    - apply bool_decide_eq_true in Hz. split; [done|off_tac].
    - rename select (checked_add_u128 _ _ = _) into Hh. by apply checked_add_Some in Hh as ->. }
  intros x s' [-> ->]. repeat wp_step. split; [|lia]. split; [|done].
  eapply reg_off_ext; [| |refine (reg_off_same _ _ _ _ _ (move_off _ _ _ k i
    (NodeInfo.upd_owner (λ _, new) i) HR Hk _ _ _ _)); cbn; rewrite ?Howner; done]; cbn; rewrite Howner;
    intros y; off_tac.
Qed.
Lemma do_move_nodes_ok cur new nodes :
  cur ≠ new → (length nodes ≤ MaxNodes)%nat → keeps nodes_ok (do_move_nodes cur new nodes).
Proof.
  intros Hne Hlen s Hs. unfold do_move_nodes. wp_step.
  apply wp_fold_m with (I := λ l total s', moved cur new (Z.of_nat (length nodes - length l)) total s s' ∧
    0 <= total ∧ (length l ≤ length nodes)%nat).
  - split; [|done]. eapply moving_ext; [| |by apply moving_start]; intros y; off_tac.
  - intros k l total s' (Hm&Hp&Hl). cbn in Hl. eapply wp_mono; [by apply (move_node_spec _ _ _ _ _ _ _ Hne Hm)| |done].
    intros total' s'' [Hm' Hp']. split; [|split; [done|lia]].
    replace (Z.of_nat (length nodes - length l)) with (Z.of_nat (length nodes - length (k :: l)) + 1); [done|].
    cbn. lia.
  - intros total s' (Hm&Hp&_). rewrite wrap_small by (unfold MaxNodes, u32_max in *; lia).
    apply (move_owner_totals_spec _ _ _ _ s); [done|done| |lia|done]. cbn in Hm. by rewrite Nat.sub_0_r in Hm.
Qed.

(** ** Moving nodes with an equal part of the stake each *)

Definition part (n : nat) (per_node dust : Balance) (i : nat) : Balance :=
  if bool_decide (i = n - 1)%nat then per_node + dust else per_node.
Lemma parts_sum_lt n per_node dust m :
  (m < n)%nat → zsum (part n per_node dust) (seq 0 m) = Z.of_nat m * per_node.
Proof.
  induction m as [|m IH]; intros Hm; [done|]. rewrite seq_S, zsum_app, IH by lia. cbn.
  unfold part. rewrite bool_decide_eq_false_2 by lia. lia.
Qed.
Lemma parts_sum n per_node dust :
  (0 < n)%nat → zsum (part n per_node dust) (seq 0 n) = Z.of_nat n * per_node + dust.
Proof.
  intros Hn. destruct n as [|n]; [lia|]. rewrite seq_S, zsum_app, parts_sum_lt by lia. cbn.
  unfold part. rewrite bool_decide_eq_true_2 by lia. lia.
Qed.
(** The nodes that were read are there, and belong to the owner. *)
Definition read_node cur s (x : NodeId * NodeInfo.t) : Prop :=
  node_info x.1 s = Some x.2 ∧ NodeInfo.owner x.2 = cur.
Lemma check_moved_nodes_spec cur now nodes s :
  registry_ok (Runtime.nodes s) →
  wp (fold_m (check_moved_node cur now) (0, [], ∅) nodes) s
    (λ acc s', s' = s ∧ NoDup nodes ∧ length acc.1.2 = length nodes ∧
       Forall (read_node cur s) (zip nodes acc.1.2) ∧ acc.1.1 = zsum amount_of acc.1.2) (λ _ _, True).
Proof.
  intros HR.
  apply wp_fold_m with (I := λ l acc s', s' = s ∧ ∃ done, nodes = done ++ l ∧
    NoDup done ∧ acc.2 = list_to_set done ∧ length acc.1.2 = length done ∧
    Forall (read_node cur s) (zip done acc.1.2) ∧ acc.1.1 = zsum amount_of acc.1.2).
  - split; [done|]. exists []. repeat split; [constructor|constructor].
  - intros k l [[total infos] seen] s' (->&done&->&Hd&Hseen&Hl&Hf&Hsum). cbn [fst snd] in *.
    unfold check_moved_node. repeat wp_step; try by auto. rename a into i. rename a0 into total'.
    rename select (owns cur k s = true) into Ho. rename select (node_info k s = Some i) into Hk.
    destruct (owns_Some _ _ _ _ _ HR Ho) as (i'&Hi'&Howner). rewrite Hk in Hi'. injection Hi' as <-.
    rename select (checked_add_u128 _ _ = _) into Hh. apply checked_add_Some in Hh as ->.
    rename select (negb _ = true) into Hnew. apply negb_true_iff, bool_decide_eq_false in Hnew.
    rewrite Hseen, elem_of_list_to_set in Hnew.
    split; [done|]. exists (done ++ [k]). cbn [fst snd]. repeat split.
    + by rewrite <- app_assoc.
    + apply NoDup_app. split; [done|]. split; [|apply NoDup_singleton].
      by intros x Hx ->%list_elem_of_singleton.
    + rewrite Hseen, list_to_set_app_L. cbn. set_solver.
    + rewrite !length_app. cbn. lia.
    + rewrite zip_with_app by done. apply Forall_app. split; [done|]. by constructor.
    + rewrite zsum_app, Hsum. cbn. unfold amount_of. lia.
  - intros [[total infos] seen] s' (->&done&->&Hd&Hseen&Hl&Hf&Hsum). cbn [fst snd] in *.
    rewrite app_nil_r. auto.
Qed.
Lemma move_node_with_stake_spec cur new n per_node dust c t a s0 x s :
  cur ≠ new → 0 <= per_node → 0 <= dust → read_node cur s x.2 →
  moving s0 (bump new c (bump cur (- c) settled)) (bump new t (bump cur (- a) settled)) s →
  wp (move_node_with_stake cur new n per_node dust x) s
    (λ _ s', moving s0 (bump new (c + 1) (bump cur (- (c + 1)) settled))
               (bump new (t + part n per_node dust x.1)
                  (bump cur (- (a + amount_of x.2.2)) settled)) s' ∧
             ∀ k, k ≠ x.2.1 → node_info k s' = node_info k s) (λ _ _, True).
Proof.
  intros Hne Hper Hdust [Hk Howner] (HR&Ha&Ht&Hc). destruct x as [j [k i]]. cbn [fst snd] in *.
  unfold move_node_with_stake, put_node, node_modify, node_event, deposit_event. wp_step.
  eapply wp_mono with (Q := λ x s', s' = s ∧ x = part n per_node dust j) (R := λ _ _, True); [| |done].
  { unfold part. destruct (bool_decide _); repeat wp_step; try done.
    rename select (checked_add_u128 _ _ = _) into Hh. by apply checked_add_Some in Hh as ->. }
  intros x s' [-> ->]. repeat wp_step. split.
  - split; [|done].
    eapply reg_off_ext; [| |refine (reg_off_same _ _ _ _ _ (move_off _ _ _ k i
      (NodeInfo.upd_owner (λ _, new) (NodeInfo.upd_stake (StakeInfo.upd_amount (λ _, part n per_node dust j)) i))
      HR Hk _ _ _ _)); cbn; rewrite ?Howner; try done]; cbn; rewrite ?Howner; try (intros y; off_tac).
    unfold amount_of, part. cbn. case_bool_decide; lia.
  - intros k' Hk'. unfold node_info. cbn. by rewrite lookup_insert_ne.
Qed.
Lemma move_nodes_with_parts_spec cur new n per_node dust s0 l c t a s :
  cur ≠ new → 0 <= per_node → 0 <= dust → NoDup (fst ∘ snd <$> l) →
  Forall (read_node cur s ∘ snd) l →
  moving s0 (bump new c (bump cur (- c) settled)) (bump new t (bump cur (- a) settled)) s →
  wp (for_each (move_node_with_stake cur new n per_node dust) l) s
    (λ _ s', moving s0
       (bump new (c + Z.of_nat (length l)) (bump cur (- (c + Z.of_nat (length l))) settled))
       (bump new (t + zsum (part n per_node dust ∘ fst) l)
          (bump cur (- (a + zsum (amount_of ∘ snd ∘ snd) l)) settled)) s') (λ _ _, True).
Proof.
  intros Hne Hper Hdust. revert c t a s. induction l as [|x l IH]; intros c t a s Hd Hf Hm.
  { apply wp_ret. eapply moving_ext; [..|done]; intros y; cbn; off_tac. }
  rewrite fmap_cons in Hd. apply NoDup_cons in Hd as [Hx Hd]. apply Forall_cons in Hf as [Hr Hf]. cbn [for_each]. wp_step.
  eapply wp_mono; [by eapply move_node_with_stake_spec| |done]. intros [] s1 [Hm1 Hk].
  assert (Forall (read_node cur s1 ∘ snd) l) as Hf1.
  { rewrite Forall_forall in Hf |- *. intros y Hy. destruct (Hf y Hy) as [Hy1 Hy2]. split; [|done].
    rewrite Hk; [done|]. intros E. apply Hx. apply list_elem_of_fmap. by exists y. }
  eapply wp_mono; [exact (IH _ _ _ _ Hd Hf1 Hm1)| |done].
  intros [] s2 Hm2. eapply moving_ext; [..|exact Hm2]; intros y; rewrite ?zsum_cons; cbn [length compose fst snd]; off_tac.
Qed.
End NodeMoves.
