(* ===== verification/NodeDispatch.v ===== *)
(** * Every call of the node manager keeps the registry consistent

    Registration, deregistration and signing keys; then all dispatchables, and what
    the bridge tells the pallet. *)

From S2P Require Import Prelude Frames Slices Bytes EventTypes EventParsing.
From S2P Require Import EventDiscovery EthTypes RuntimeErrors NodeTypes BridgeTypes.
From S2P Require Import Avn NodeStake EthBridge BridgeEvents TokenManager BridgeInv.
From S2P Require Import BridgeCalls NodeRewards NodeManager Anchor NodeInv.

(** What the app chains are not to touch: the bridge, the node manager and its events, and the
    currency. *)
Definition around `{BridgeConfig} (s : Runtime.t) :=
  (aside s, Runtime.nodes s, Runtime.assets s, node_events s).
(** The app chains stay away from it, and do not fail. *)
Class AppChainLaws `{BridgeConfig} (A : AppChainInterface) : Prop := {
  on_new_reward_period_leaves period :
    leaves around (on_new_reward_period period);
  on_new_reward_period_total period s : ∃ u, (on_new_reward_period period s).1 = Ok u;
  on_reward_paid_leaves period owner node expiry share :
    leaves around (on_reward_paid period owner node expiry share);
  on_reward_paid_total period owner node expiry share s :
    ∃ u, (on_reward_paid period owner node expiry share s).1 = Ok u;
  on_reward_period_completed_leaves period :
    leaves around (on_reward_period_completed period);
  on_reward_period_completed_total period s : ∃ u, (on_reward_period_completed period s).1 = Ok u;
}.

Section NodeDispatch.
Context `{BridgeConfig} `{!NodeConfig} `{!ReserveLaws _}.
Implicit Types (s : Runtime.t) (i : NodeInfo.t) (o : AccountId) (k : NodeId).

Lemma do_move_nodes_with_stake_ok cur new nodes stake_amount :
  cur ≠ new → (length nodes ≤ MaxNodes)%nat → 0 <= stake_amount →
  keeps nodes_ok (do_move_nodes_with_stake cur new nodes stake_amount).
Proof.
  intros Hne Hlen Hpos s Hs. unfold do_move_nodes_with_stake. wp_step. wp_step; [|done].
  rename select (negb _ = true) into Hnil. apply negb_true_iff, bool_decide_eq_false in Hnil.
  assert (0 < length nodes)%nat as Hn by (destruct nodes; [done|cbn; lia]).
  rewrite wrap_small by (unfold MaxNodes, u32_max in *; lia). cbv zeta. wp_step. wp_step. wp_step.
  eapply wp_mono; [apply check_moved_nodes_spec, Hs| |done].
  intros [[total infos] seen] s' (->&Hd&Hl&Hf&Hsum). cbn [fst snd] in *. wp_step. wp_step; [|done].
  rename select (bool_decide _ = true) into He. apply bool_decide_eq_true in He. subst total.
  wp_step. set (l := zip (seq 0 (length nodes)) (zip nodes infos)).
  assert (length (zip nodes infos) = length nodes) as Hz by (rewrite length_zip_with; lia).
  assert (fst <$> l = seq 0 (length nodes)) as Hl1 by (apply fst_zip; rewrite length_seq; lia).
  assert (snd <$> l = zip nodes infos) as Hl2 by (apply snd_zip; rewrite length_seq; lia).
  pose proof (Z.div_mod stake_amount (Z.of_nat (length nodes)) ltac:(lia)).
  pose proof (Z.mod_pos_bound stake_amount (Z.of_nat (length nodes)) ltac:(lia)).
  eapply wp_mono; [apply (move_nodes_with_parts_spec cur new _ _ _ s _ 0 0 0)| |done].
  - done.
  - apply Z.div_pos; lia.
  - lia.
  - rewrite list_fmap_compose, Hl2. rewrite fst_zip by lia. done.
  - rewrite <- Forall_fmap, Hl2. done.
  - eapply moving_ext; [..|by apply moving_start]; intros y; off_tac.
  - intros [] s' Hm.
    apply (move_owner_totals_spec _ _ _ _ s); [done|done| |lia|done].
    assert (length l = length nodes) as Hll by (rewrite <- (length_fmap fst), Hl1; apply length_seq).
    rewrite Hll, !Z.add_0_l in Hm. rewrite <- zsum_fmap, Hl1, parts_sum in Hm by done.
    rewrite <- (zsum_fmap snd), Hl2, <- (zsum_fmap snd), snd_zip in Hm by lia.
    rewrite He in Hm. by replace (Z.of_nat (length nodes) * _ + _) with stake_amount in Hm by lia.
Qed.

(** ** Registration *)

(** A serial number is taken from the counter that fits the kind of the node. *)
Lemma serial_taken n n' k i :
  serials_ok n → 0 <= BonusNodeSerialStart <= u32_max →
  NodeStorage.NodeRegistry n' = <[k := i]> (NodeStorage.NodeRegistry n) →
  (NodeInfo.serial_number i = NodeStorage.NextNodeSerialNumber n ∧
   NodeStorage.NextNodeSerialNumber n < BonusNodeSerialStart ∧
   NodeStorage.NextNodeSerialNumber n' = NodeStorage.NextNodeSerialNumber n ⊕₃₂ 1 ∧
   NodeStorage.NextBonusNodeSerialNumber n' = NodeStorage.NextBonusNodeSerialNumber n) ∨
  (NodeInfo.serial_number i = NodeStorage.NextBonusNodeSerialNumber n ∧
   NodeStorage.NextBonusNodeSerialNumber n' = NodeStorage.NextBonusNodeSerialNumber n ⊕₃₂ 1 ∧
   NodeStorage.NextNodeSerialNumber n' = NodeStorage.NextNodeSerialNumber n) →
  serials_ok n'.
Proof.
  intros [B1 B2 B3 B4] Hb ER Hcase.
  assert (NodeStorage.NextNodeSerialNumber n <= NodeStorage.NextNodeSerialNumber n' <= BonusNodeSerialStart) as Hn.
  { destruct Hcase as [(_&?&->&_)|(_&_&->)]; [rewrite sat_add_small by lia|]; lia. }
  constructor; [lia| | |]; rewrite ?ER.
  - destruct Hcase as [(_&_&_&->)|(_&->&_)]; unfold saturating_add_to; lia.
  - intros j x [[_ <-]|[_ Hj]]%lookup_insert_Some.
    + destruct Hcase as [(->&?&->&_)|(->&_)]; [left; rewrite sat_add_small by lia; lia|by right].
    + destruct (B3 j x Hj); [left; lia|by right].
  - intros j1 j2 x1 x2 H1 H2 Heq Hlt.
    assert (∀ j x, NodeStorage.NodeRegistry n !! j = Some x → NodeInfo.serial_number i = NodeInfo.serial_number x →
            NodeInfo.serial_number i < BonusNodeSerialStart → False) as Hfresh.
    { intros j x Hj Hs Hl. destruct (B3 j x Hj); destruct Hcase as [(?&?&_)|(?&_)]; lia. }
    apply lookup_insert_Some in H1 as [[<- <-]|[Hn1 H1]], H2 as [[<- <-]|[Hn2 H2]]; [done|..].
    + by destruct (Hfresh _ _ H2).
    + rewrite Heq in Hlt. by destruct (Hfresh _ _ H1).
    + by eapply B4.
Qed.
Lemma do_register_node_ok node owner key auto bonus s :
  0 <= BonusNodeSerialStart <= u32_max →
  Z.of_nat (size (NodeStorage.NodeRegistry (Runtime.nodes s))) < u32_max → nodes_ok s →
  wp (do_register_node node owner key auto bonus) s (λ _ s', nodes_ok s') (λ _ _, True).
Proof.
  intros Hb Hsize [HR HC].
  unfold do_register_node, node_get, mutate_owned_count, insert_signing_key_index, calculate_node_serial,
    put_node, node_modify, node_event, deposit_event.
  repeat wp_step; try done.
  rename select (bool_decide (node_info node s = None) = true) into Hnode. apply bool_decide_eq_true in Hnode.
  rename select (bool_decide (node_of_key key s = None) = true) into Hkey. apply bool_decide_eq_true in Hkey.
  rename select (bonus || _ = true) into Hlimit.
  destruct bonus; repeat wp_step; unfold node_of_key in *; cbn [Runtime.nodes Runtime.upd_nodes
    NodeStorage.SigningKeyToNodeId NodeStorage.upd_TotalRegisteredBonusNodes NodeStorage.upd_OwnedNodesCount
    NodeStorage.upd_TotalRegisteredNodes NodeStorage.upd_OwnedNodes] in *; rewrite Hkey; repeat wp_step.
  all: split; [|intros x; apply HC].
  all: set (n' := Runtime.nodes _).
  all: pose proof (rg_serials _ _ _ HR) as HS; pose proof (se_next_bonus _ HS) as HS'.
  all: eapply (registered_ok (Runtime.nodes s) n' node (NodeInfo.mk owner key _ _ _ (StakeInfo.mk 0 0 None UnstakeRestriction.Locked)));
    [exact HR|exact Hnode|exact Hkey|exact Hsize|reflexivity|reflexivity|reflexivity|reflexivity|
     reflexivity|reflexivity| |reflexivity|].
  - unfold is_bonus_node. cbn. by rewrite bool_decide_eq_true_2.
  - eapply (serial_taken _ _ _ _ HS Hb); [reflexivity|]. by right.
  - unfold is_bonus_node. cbn. apply bool_decide_eq_true in Hlimit. cbn in Hlimit. by rewrite bool_decide_eq_false_2 by lia.
  - eapply (serial_taken _ _ _ _ HS Hb); [reflexivity|]. apply bool_decide_eq_true in Hlimit. by left.
Qed.

Lemma remove_signing_key_spec k i s (s1 : Runtime.t) :
  nodes_ok s → node_info k s = Some i →
  NodeStorage.SigningKeyToNodeId (Runtime.nodes s1) = NodeStorage.SigningKeyToNodeId (Runtime.nodes s) →
  wp (remove_signing_key_index k (NodeInfo.signing_key i)) s1
    (λ _ s', s' = Runtime.upd_nodes (NodeStorage.upd_SigningKeyToNodeId (delete (NodeInfo.signing_key i))) s1)
    (λ _ _, True).
Proof.
  intros [HR _] Hk HE. unfold remove_signing_key_index, node_of_key, node_modify.
  assert (NodeStorage.SigningKeyToNodeId (Runtime.nodes s1) !! NodeInfo.signing_key i = Some k) as Hkey.
  { rewrite HE. apply (rg_keys _ _ _ HR). unfold node_info in Hk. by rewrite Hk. }
  wp_step. wp_step. rewrite Hkey. repeat wp_step; done.
Qed.
Lemma deregister_node_ok owner k : keeps nodes_ok (deregister_node owner k).
Proof.
  intros s Hs. pose proof Hs as [HR HC].
  unfold deregister_node, mutate_owned_count, node_modify, node_event, deposit_event.
  repeat wp_step; try done. rename a into i. rename select (owns owner k s = true) into Ho.
  rename select (node_info k s = Some i) into Hk. destruct (owns_Some _ _ _ _ _ HR Ho) as (i'&Hi'&Howner).
  rewrite Hk in Hi'. injection Hi' as <-. pose proof (rg_amount _ _ _ HR k i Hk) as Hpos.
  eapply wp_mono; [eapply (remove_signing_key_spec k i s); [done|done|reflexivity]| |done].
  intros [] s1 ->. repeat wp_step.
  eapply wp_mono with (R := λ _ _, True) (Q := λ _ s2,
    reg_off (Runtime.nodes s2) settled (bump owner (- amount_of i) settled) ∧
    Runtime.assets s2 = Runtime.assets s ∧
    NodeStorage.TotalStake (Runtime.nodes s2) = NodeStorage.TotalStake (Runtime.nodes s)); [| |done].
  { destruct (is_bonus_node i) eqn:Hbonus; repeat wp_step; (split; [|done]); subst owner;
      (eapply (deregistered_off (Runtime.nodes s) _ k i HR Hk); [reflexivity..| | | |]; try reflexivity);
      by rewrite Hbonus. }
  intros [] s2 (HR2&Ha2&Ht2). cbv beta. wp_step.
  eapply wp_mono with (R := λ _ _, True) (Q := λ _ s3, nodes_ok s3); [| |done].
  { destruct (bool_decide (StakeInfo.amount (NodeInfo.stake i) = 0)) eqn:Hz.
    - apply bool_decide_eq_true in Hz. wp_step. split.
      + eapply reg_off_ext; [..|exact HR2]; [done|]. intros x. off_tac.
      + intros x. unfold total_of_owner. rewrite Ht2, Ha2. apply HC.
    - unfold update_reserves, lower_total_stake, node_modify. repeat wp_step.
      destruct (native_unreserve _ _ _) as [left a] eqn:Hu. repeat wp_step; try done.
      rename select (bool_decide (left = 0) = true) into Hl. apply bool_decide_eq_true in Hl as ->.
      rename select (checked_sub_u128 _ _ = _) into Ht. apply checked_sub_Some in Ht as [-> Ht].
      unfold total_stake in *. cbn in *. split.
      + eapply reg_off_ext; [| |refine (total_off _ _ _ owner _ HR2)]; [done|].
        intros x. unfold total_of_owner. cbn. off_tac.
      + intros x. specialize (HC x). unfold total_of_owner in *. cbn. rewrite unwrap_insert.
        rewrite (unreserve_all _ _ _ _ x Hpos Hu), Ha2. rewrite <- Ht2 in HC. off_tac. }
  intros [] s3 Hs3. by apply (node_event_ok _ s3).
Qed.

Lemma update_signing_key_ok origin k key : keeps nodes_ok (update_signing_key origin k key).
Proof.
  intros s Hs. pose proof Hs as [HR HC].
  unfold update_signing_key, node_get, put_node, rotate_signing_key_index, insert_signing_key_index, node_modify.
  destruct origin; cbn [ensure_signed]; repeat wp_step; try done.
  match goal with Hx : node_info k s = Some ?x |- _ => rename x into i, Hx into Hk end.
  rename select (negb _ = true) into Hne. apply negb_true_iff in Hne.
  rename select (bool_decide (node_of_key key s = None) = true) into Hkey. apply bool_decide_eq_true in Hkey.
  rewrite Hne. wp_step. eapply wp_mono; [eapply (remove_signing_key_spec k i s); [done|done|reflexivity]| |done].
  intros [] s1 ->. repeat wp_step. unfold node_of_key in *. cbn. rewrite lookup_delete_ne, Hkey.
  2: { intros E. by rewrite E, bool_decide_eq_true_2 in Hne. }
  repeat wp_step. apply (node_event_ok (NodeEvent.SigningKeyUpdated (NodeInfo.owner i) k) _).
  split; [|intros x; apply HC]. exact (key_off _ _ _ _ _ _ HR Hk Hkey).
Qed.

(** ** Operations that do not touch the registry *)

Lemma ensure_registrar_ok who : maintains nodes_ok (ensure_registrar who).
Proof. unfold ensure_registrar, node_get. maintains_tac. Qed.
Lemma ensure_signed_ok (o : Origin) : maintains nodes_ok (ensure_signed o).
Proof. destruct o; maintains_tac. Qed.
Lemma ensure_root_keeps (o : Origin) : maintains nodes_ok (ensure_root o).
Proof. destruct o; maintains_tac. Qed.
Lemma ensure_none_keeps (o : Origin) : maintains nodes_ok (ensure_none o).
Proof. destruct o; maintains_tac. Qed.
Lemma ensure_not_expired_ok n : maintains nodes_ok (ensure_not_expired n).
Proof. unfold ensure_not_expired. maintains_tac. Qed.
#[local] Hint Resolve node_event_ok ensure_registrar_ok ensure_signed_ok ensure_root_keeps
  ensure_none_keeps ensure_not_expired_ok : maintain.
#[local] Hint Extern 1 (maintains _ (node_modify _)) => apply node_modify_ok; reflexivity : maintain.
#[local] Hint Extern 1 (maintains _ (node_get _)) => apply maintains_gets : maintain.
Lemma set_node_admin_config_ok origin config : maintains nodes_ok (set_node_admin_config origin config).
Proof. unfold set_node_admin_config. maintains_tac. Qed.
Lemma set_genesis_override_ok origin nodes bonus :
  maintains nodes_ok (set_genesis_override origin nodes bonus).
Proof. unfold set_genesis_override, override_genesis_bonus. maintains_tac. Qed.
Lemma validate_heartbeats_ok k p c : maintains nodes_ok (validate_heartbeats k p c).
Proof. unfold validate_heartbeats. maintains_tac. Qed.
#[local] Hint Resolve validate_heartbeats_ok : maintain.
Lemma offchain_submit_heartbeat_ok origin k p c :
  maintains nodes_ok (offchain_submit_heartbeat origin k p c).
Proof. unfold offchain_submit_heartbeat. maintains_tac. Qed.
Lemma update_auto_stake_preference_ok origin k auto :
  keeps nodes_ok (update_auto_stake_preference origin k auto).
Proof.
  intros s Hs. unfold update_auto_stake_preference. wp_step.
  eapply wp_mono; [by apply ensure_signed_ok| |done]. intros who s1 Hs1. unfold ensure_owns, put_node, node_modify.
  repeat wp_step; try done. apply (node_event_ok (NodeEvent.AutoStakePreferenceUpdated who k auto)).
  split; [|apply Hs1]. rename select (node_info k s1 = Some _) into Hk.
  eapply reg_off_ext; [| |refine (put_off _ _ _ _ _ _ (proj1 Hs1) Hk _ _)]; [done| |done|].
  - intros x. off_tac.
  - exact (rg_amount _ _ _ (proj1 Hs1) _ _ Hk).
Qed.

(** ** Stake *)

Lemma owner_unique o k s :
  nodes_ok s → owns o k s = true → ∀ i, node_info k s = Some i → NodeInfo.owner i = o.
Proof.
  intros [HR _] Ho i Hi. destruct (owns_Some _ _ _ _ _ HR Ho) as (i'&Hi'&<-). congruence.
Qed.
Lemma add_stake_ok origin k amount : 0 <= amount → keeps nodes_ok (add_stake origin k amount).
Proof.
  intros Ha s Hs. unfold add_stake. wp_step. eapply wp_mono; [by apply ensure_signed_ok| |done].
  intros who s1 Hs1. unfold ensure_owns, node_get. repeat wp_step; try done.
  eapply wp_mono; [apply do_add_stake_spec; [done|done|by apply owner_unique]| |done].
  intros total s2 Hs2. by apply (node_event_ok _ s2).
Qed.
Lemma remove_stake_ok origin k amount : amount_arg amount → keeps nodes_ok (remove_stake origin k amount).
Proof.
  intros Ha s Hs. unfold remove_stake. wp_step. eapply wp_mono; [by apply ensure_signed_ok| |done].
  intros who s1 Hs1. unfold ensure_owns, node_get. repeat wp_step; try done.
  eapply wp_mono; [apply do_remove_stake_spec; [done|done|by apply owner_unique]| |done].
  intros [x total] s2 Hs2. by apply (node_event_ok _ s2).
Qed.

(** ** Payouts *)

(** The node manager's storage is [n] and the reserves are [r]. *)
Definition quiet (n : NodeStorage.t) (r : AccountId → Balance) s : Prop :=
  Runtime.nodes s = n ∧ ∀ o, native_reserved_balance (Runtime.assets s) o = r o.
Lemma quiet_here s : quiet (Runtime.nodes s) (native_reserved_balance (Runtime.assets s)) s.
Proof. done. Qed.
Lemma quiet_ok s s' :
  nodes_ok s → quiet (Runtime.nodes s) (native_reserved_balance (Runtime.assets s)) s' → nodes_ok s'.
Proof.
  intros Hs [Hn Hr]. apply (nodes_ok_same s); [|done|done]. unfold reg_of. by rewrite Hn.
Qed.
Lemma quiet_leaves {A} n r (m : Dispatch A) :
  leaves around m → (∀ s, ∃ a, (m s).1 = Ok a) →
  maintains (quiet n r) m.
Proof.
  intros Hl Ht s [Hn Hr]. specialize (Hl s). destruct (Ht s) as [a Ha]. unfold wp.
  destruct (m s) as [[]]; cbn in *; [|done..]. 
  pose proof (f_equal (snd ∘ fst ∘ fst) Hl : Runtime.nodes _ = Runtime.nodes _) as En.
  pose proof (f_equal (snd ∘ fst) Hl : Runtime.assets _ = Runtime.assets _) as Ea.
  split; [by rewrite En|]. intros o. by rewrite Ea.
Qed.
Lemma quiet_event n r e : maintains (quiet n r) (node_event e).
Proof. by apply maintains_modify. Qed.
Lemma quiet_assets n r f e :
  (∀ a a' o, f a = Some a' → native_reserved_balance a' o = native_reserved_balance a o) →
  maintains (quiet n r) (update_assets f e).
Proof.
  intros Hf s [Hn Hr]. unfold update_assets. repeat wp_step; [|done].
  split; [done|]. intros o. cbn. by erewrite Hf.
Qed.
Lemma quiet_settle n r t from to amount : maintains (quiet n r) (settle_transfer t from to amount).
Proof.
  unfold settle_transfer, put_balance, token_modify, token_event, deposit_event. maintains_tac.
  - apply quiet_assets. intros. by eapply asset_transfer_reserved.
  - by apply maintains_modify.
  - by apply maintains_modify.
  - by apply maintains_modify.
Qed.
Lemma quiet_treasury n r amount payer : maintains (quiet n r) (pay_treasury amount payer).
Proof. unfold pay_treasury, token_get. pose proof quiet_settle. maintains_tac. Qed.
#[local] Hint Resolve quiet_event quiet_treasury : maintain.

Section Payouts.
Context `{!AppChainInterface} `{!AppChainLaws _}.

Lemma quiet_paid n r p o k e share : maintains (quiet n r) (on_reward_paid p o k e share).
Proof. apply quiet_leaves; [apply on_reward_paid_leaves|apply on_reward_paid_total]. Qed.
#[local] Hint Resolve quiet_paid : maintain.

Lemma pay_reward_ok p k i amount share s :
  nodes_ok s → node_info k s = Some i →
  wp (pay_reward p k i amount share) s (λ _ s', nodes_ok s') (λ _ s', nodes_ok s').
Proof.
  intros Hs Hk. unfold pay_reward.
  set (n := Runtime.nodes s). set (r := native_reserved_balance (Runtime.assets s)).
  assert (∀ s', quiet n r s' → nodes_ok s') as Hq by (intros; by eapply quiet_ok).
  assert (∀ (m : Dispatch unit) (g : unit → Dispatch unit) s', maintains (quiet n r) m → quiet n r s' →
    (∀ s', quiet n r s' → wp (g ()) s' (λ _ s', nodes_ok s') (λ _ s', nodes_ok s')) →
    wp (m ≫= g) s' (λ _ s', nodes_ok s') (λ _ s', nodes_ok s')) as Hbind.
  { intros m g s' Hm Hs' Hg. wp_step. eapply wp_mono; [by apply Hm| |intros ? ?; apply Hq].
    intros []. apply Hg. }
  apply Hbind; [maintains_tac|done|]. intros s1 Hs1. case_bool_decide.
  { eapply wp_mono; [by apply quiet_event|intros ? ?; apply Hq..]. }
  wp_step. wp_step. generalize (calculate_reward_fee amount s1) as fee. intros fee.
  apply Hbind; [|done|]; clear s1 Hs1.
  { apply quiet_assets. intros. by eapply transfer_reserved. }
  intros s1 Hs1. apply Hbind; [maintains_tac|done|]. clear s1 Hs1. intros s1 Hs1.
  apply Hbind; [maintains_tac|done|]. clear s1 Hs1. intros s1 Hs1.
  destruct (bool_decide (_ <= 0)) eqn:Hz; [by wp_step; apply Hq|].
  wp_step. wp_step. destruct (_ || _); [|by wp_step; apply Hq]. wp_step. wp_step.
  eapply wp_mono; [apply do_add_stake_spec| |]; cbn beta.
  - by apply Hq.
  - apply sat_sub_nonneg.
  - intros i' Hi'. unfold node_info in *. destruct Hs1 as [E _]. rewrite E in Hi'. unfold n in Hi'. congruence.
  - intros x s2 Hs2. by apply node_event_ok.
  - intros e s2 ->. wp_step. by apply Hq.
Qed.
Lemma pay_node_ok p w pot k u : maintains nodes_ok (pay_node p w pot k u).
Proof.
  intros s Hs. unfold pay_node. repeat wp_step; [|done].
  rename select (node_info k s = Some _) into Hk. unfold wp at 1. cbn.
  unfold calculate_reward. case_bool_decide; cbn; [done|]. by apply pay_reward_ok.
Qed.
Lemma try_pay_node_ok p w pot x : maintains nodes_ok (try_pay_node p w pot x).
Proof. unfold try_pay_node. pose proof pay_node_ok. maintains_tac. Qed.
Lemma complete_reward_payout_ok p : maintains nodes_ok (complete_reward_payout p).
Proof.
  assert (∀ p, maintains nodes_ok (on_reward_period_completed p)).
  { intros q s Hs. eapply wp_mono.
    - apply (quiet_leaves (Runtime.nodes s) (native_reserved_balance (Runtime.assets s)));
        [apply on_reward_period_completed_leaves|apply on_reward_period_completed_total|done].
    - intros [] s'. by apply quiet_ok.
    - intros ? s'. by apply quiet_ok. }
  unfold complete_reward_payout. maintains_tac.
Qed.
Lemma get_iterator_ok p pointer : maintains nodes_ok (get_iterator_from_last_paid p pointer).
Proof. unfold get_iterator_from_last_paid. maintains_tac. Qed.
#[local] Hint Resolve try_pay_node_ok complete_reward_payout_ok get_iterator_ok : maintain.
Lemma offchain_pay_nodes_ok origin p : maintains nodes_ok (offchain_pay_nodes origin p).
Proof.
  unfold offchain_pay_nodes, remove_paid_nodes, update_last_paid_pointer. maintains_tac.
Qed.
Lemma on_initialize_ok n : maintains nodes_ok (NodeRewards.on_initialize n).
Proof.
  assert (∀ p, maintains nodes_ok (on_new_reward_period p)).
  { intros q s Hs. eapply wp_mono.
    - apply (quiet_leaves (Runtime.nodes s) (native_reserved_balance (Runtime.assets s)));
        [apply on_new_reward_period_leaves|apply on_new_reward_period_total|done].
    - intros [] s'. by apply quiet_ok.
    - intros ? s'. by apply quiet_ok. }
  assert (∀ l h, h ≠ 0 → maintains nodes_ok (calculate_uptime_threshold l h)) as Hu.
  { intros l h Hh. unfold calculate_uptime_threshold. rewrite bool_decide_false by done. cbn [expect].
    maintains_tac. }
  unfold NodeRewards.on_initialize. apply maintains_bind; [maintains_tac|intros enabled].
  apply maintains_bind; [maintains_tac|intros period]. destruct (_ || _); [maintains_tac|].
  apply maintains_bind; [maintains_tac|intros next]. apply maintains_bind; [maintains_tac|intros heartbeat].
  case_bool_decide as Hz; [maintains_tac|]. specialize (Hu next heartbeat ltac:(tauto)). maintains_tac.
Qed.
End Payouts.
End NodeDispatch.

(** * The app chains keep their promise to the node manager

    What the node manager asks of the app chains ([AppChainLaws]) holds of
    [pallets/avn-anchor]: its hooks do not fail, and leave the node manager, the
    bridge and the currency alone. *)

Section AnchorLaws.
Context `{BridgeConfig} `{!NodeConfig} `{!AnchorConfig}.
Implicit Types (s : Runtime.t).

(** [m] does not fail. *)
Definition total {A} (m : Dispatch A) : Prop := ∀ s, ∃ a, (m s).1 = Ok a.
Lemma total_bind {A B} (m : Dispatch A) (g : A → Dispatch B) :
  total m → (∀ a, total (g a)) → total (m ≫= g).
Proof.
  intros Hm Hg s. destruct (Hm s) as [a Ha]. unfold mbind, M_bind. destruct (m s) as [r s']. cbn in Ha.
  subst r. apply Hg.
Qed.
Lemma total_ret {A} (a : A) : total (mret a : Dispatch A).
Proof. intros s. by exists a. Qed.
Lemma total_gets {A} (g : Runtime.t → A) : total (gets g).
Proof. intros s. by eexists. Qed.
Lemma total_modify f : total (modify f : Dispatch unit).
Proof. intros s. by eexists. Qed.
Lemma total_for_each {A} (f : A → Dispatch unit) l : (∀ x, total (f x)) → total (for_each f l).
Proof. intros Hf. induction l as [|x l IH]; [apply total_ret|]. by apply total_bind. Qed.

Create HintDb totals.
#[local] Hint Resolve total_ret total_gets total_modify : totals.
Ltac total_tac :=
  repeat (cbv beta iota zeta; first
    [ solve [eauto 1 with totals]
    | lazymatch goal with
      | |- total (_ ≫= _) => apply total_bind; [|intros ?]
      | |- total (for_each _ _) => apply total_for_each; intros ?
      | |- total (match ?x with _ => _ end) => destruct x
      end ]).

Lemma anchor_modify_total f : total (anchor_modify f).
Proof. apply total_modify. Qed.
Lemma anchor_modify_around f : leaves around (anchor_modify f).
Proof. by apply leaves_modify. Qed.
Lemma anchor_event_total e : total (anchor_event e).
Proof. apply total_modify. Qed.
Lemma anchor_event_around e : leaves around (anchor_event e).
Proof.
  apply leaves_modify. intros s. unfold around, node_events. cbn. by rewrite omap_app, app_nil_r.
Qed.
#[local] Hint Resolve anchor_modify_total anchor_event_total : totals.
#[local] Hint Resolve anchor_modify_around anchor_event_around : frame.
Lemma try_reclaim_period_total p : total (try_reclaim_period p).
Proof. unfold try_reclaim_period, anchor_get. total_tac. Qed.
Lemma try_reclaim_period_around p : leaves around (try_reclaim_period p).
Proof. unfold try_reclaim_period, anchor_get. leaves_tac. Qed.
#[local] Hint Resolve try_reclaim_period_total : totals.
#[local] Hint Resolve try_reclaim_period_around : frame.

#[global] Instance anchor_laws : AppChainLaws anchor_interface.
Proof.
  constructor; cbn [on_new_reward_period on_reward_paid on_reward_period_completed anchor_interface].
  - intros p. unfold snapshot_chain_rewards. leaves_tac.
  - intros p. change (total (snapshot_chain_rewards p)). unfold snapshot_chain_rewards. total_tac.
  - intros. unfold record_share. leaves_tac.
  - intros p o k e share. change (total (record_share p o k e share)). unfold record_share. total_tac.
  - intros. unfold complete_chain_rewards. leaves_tac.
  - intros p. change (total (complete_chain_rewards p)). unfold complete_chain_rewards. total_tac.
Qed.
End AnchorLaws.
