(* ===== verification/NodeExamples.v ===== *)
(** * A small runtime with nodes and app chains

    The arithmetic and the currency of [BridgeExamples], and the laws they satisfy. *)

From S2P Require Import Prelude Frames Slices Bytes EventTypes EventParsing EventDiscovery.
From S2P Require Import EthTypes RuntimeErrors NodeTypes BridgeTypes Avn BridgeExamples EthBridge.
From S2P Require Import BridgeEvents TokenManager NodeStake NodeRewards NodeManager Anchor NodeInv.

Module LedgerFacts.
Import Ledger.
Lemma account_set l a f r x :
  account (set a f r l) x = if decide (x = a) then (Z.to_N f, Z.to_N r) else account l x.
Proof.
  unfold account, set, t in *. case_decide as Hx.
  - subst. by rewrite lookup_insert_eq.
  - by rewrite lookup_insert_ne.
Qed.
Lemma reserved_set l a f r x :
  0 <= r → reserved (set a f r l) x = if decide (x = a) then r else reserved l x.
Proof. intros Hr. unfold reserved. rewrite account_set. case_decide; cbn; [lia|done]. Qed.
Lemma free_set l a f r x :
  0 <= f → free (set a f r l) x = if decide (x = a) then f else free l x.
Proof. intros Hf. unfold free. rewrite account_set. case_decide; cbn; [lia|done]. Qed.
Lemma reserved_nonneg l x : 0 <= reserved l x.
Proof. unfold reserved. lia. Qed.
Lemma free_nonneg l x : 0 <= free l x.
Proof. unfold free. lia. Qed.
Lemma transfer_reserved keep from to amount l l' x :
  transfer keep from to amount l = Some l' → reserved l' x = reserved l x.
Proof.
  unfold transfer. case_bool_decide; [|done]. intros [= <-].
  rewrite !reserved_set by (rewrite ?reserved_set; repeat case_decide; subst; apply reserved_nonneg).
  repeat case_decide; congruence.
Qed.
End LedgerFacts.

#[global] Instance demo_reserve_laws : ReserveLaws demo_config.
Proof.
  constructor; cbn; intros.
  - apply LedgerFacts.reserved_nonneg.
  - unfold Ledger.reserve in *. case_bool_decide; [|done]. simplify_eq.
    rewrite LedgerFacts.reserved_set by (pose proof (LedgerFacts.reserved_nonneg a w); lia).
    case_decide; subst; lia.
  - unfold Ledger.unreserve. pose proof (LedgerFacts.reserved_nonneg a w). split; [lia|].
    rewrite LedgerFacts.reserved_set by lia. case_decide; subst; lia.
  - by eapply LedgerFacts.transfer_reserved.
  - by eapply LedgerFacts.transfer_reserved.
  - unfold Ledger.deposit. rewrite LedgerFacts.reserved_set by apply LedgerFacts.reserved_nonneg.
    by case_decide; subst.
  - simplify_eq. unfold Ledger.deposit. rewrite LedgerFacts.reserved_set by apply LedgerFacts.reserved_nonneg.
    by case_decide; subst.
  - done.
  - done.
  - done.
Qed.

(** Account 80 is the reward pot; serial numbers from 1000 on are those of bonus nodes. *)
#[global] Instance demo_node_config : @NodeConfig := {|
  RewardPotAccount := 80%N;
  SignedTxLifetime := 16;
  VirtualNodeStake := 100;
  BonusNodeSerialStart := 1000;
  perbill_from_percent p := p * 10000000;
  perbill_mul p x := (Z.max 0 p * x + 500000000) / 1000000000;
  perbill_mul_floor p x := Z.max 0 p * x / 1000000000;
  perquintill_from_rational w total := Z.min w total * 1000000000000000000 / Z.max 1 total;
  perquintill_mul_floor q x := q * x / 1000000000000000000;
  fixed_one := 1000000000000000000;
  fixed_from_rational n d := Z.min u128_max (n * 1000000000000000000 / d);
  fixed_add x y := Z.min u128_max (x + y);
  fixed_mul_int x n := Z.min u128_max (x * n / 1000000000000000000);
  node_position node := node;
  NodeSignature := N;
  node_verify key _ signature := N.eqb key signature;
|}.
(** Integers as positions. *)
Definition z_position (z : Z) : N := Z.to_N (if bool_decide (0 <= z) then 2 * z else - 2 * z - 1).
#[global] Instance z_position_inj : Inj (=) (=) z_position.
Proof. intros x y. unfold z_position. repeat case_bool_decide; lia. Qed.
(** The registry is kept in the ledger, beyond the accounts: the token and whether it is native. *)
Definition registry_key (asset : AppChainAssetId) : N := (1000000 + z_position asset)%N.
#[local] Typeclasses Transparent Ledger.t.
Definition demo_metadata (l : Ledger.t) (asset : AppChainAssetId) : option RegistryMetadata.t :=
  '(token, native) ← l !! registry_key asset;
  Some (RegistryMetadata.mk 18 [] [] (Some token) (N.eqb native 1)).
Definition demo_register (asset : AppChainAssetId) (metadata : RegistryMetadata.t) (l : Ledger.t) : option Ledger.t :=
  match l !! registry_key asset, RegistryMetadata.location metadata with
  | None, Some token => Some (<[registry_key asset := (token, 1%N)]> l)
  | _, _ => None
  end.
Definition demo_set_native (asset : AppChainAssetId) (native : bool) (l : Ledger.t) : option Ledger.t :=
  '(token, _) ← l !! registry_key asset;
  Some (<[registry_key asset := (token, if native then 1%N else 0%N)]> l).
(** Every node is eligible. *)
#[global] Instance demo_anchor_config : @AnchorConfig demo_config := {|
  DefaultCheckpointFee := 1;
  MaxRegisteredAppChains := 4;
  AssetRegistryStringLimit := 64;
  AppChainRewardPot := 81%N;
  MaxPeriodsPerPayout := 2;
  is_eligible _ _ _ _ := true;
  registry_metadata := (demo_metadata : @AssetState demo_config → _);
  register_asset := (demo_register : _ → _ → @AssetState demo_config → option (@AssetState demo_config));
  update_asset_native := (demo_set_native : _ → _ → @AssetState demo_config → option (@AssetState demo_config));
  asset_position := z_position;
  unpaid_position period node := (Z.to_N period * 1000 + node)%N;
  period_position period := Z.to_N period;
  Meter := nat;
  full_meter := 1000%nat;
  can_consume m := bool_decide (0 < m)%nat;
  consume m := (m - 1)%nat;
|}.

(** ** A run *)

Section Run.
#[local] Existing Instance demo_config.
#[local] Existing Instance anchor_interface.
#[local] Existing Instance token_notification.

(** Periods of 10 blocks with a heartbeat every 2 and 900 tokens each; nodes are
    locked for 500 seconds and then unlock a tenth every 100. *)
Definition demo_genesis : NodeGenesis.t := NodeGenesis.mk 2 10 2 900 3 500 100000000 100 1000 0.
Definition demo_before : Runtime.t := Runtime.upd_nodes (λ _, NodeGenesis.empty) demo_state.
Definition demo_built : Runtime.t := (NodeGenesis.build demo_genesis demo_before).2.
(** Run a list of calls. *)
Definition run_nodes (calls : list (Origin * NodeCall)) (s : Runtime.t) : Runtime.t :=
  foldl (λ s c, (transactional (node_call c.1 c.2) s).2) s calls.
(** Account 70 becomes the registrar and registers nodes 1 and 2 of account 50 and
    node 3 of account 51; rewards are enabled. *)
Definition demo_registrations : list (Origin * NodeCall) :=
  [(Root, Call_set_node_admin_config (AdminConfig.NodeRegistrar 70%N));
   (Root, Call_set_node_admin_config (AdminConfig.RewardEnabled true));
   (Signed 70%N, Call_register_node 1%N 50%N 11%N);
   (Signed 70%N, Call_register_node 2%N 50%N 12%N);
   (Signed 70%N, Call_register_node 3%N 51%N 13%N)].
Definition demo_registered : Runtime.t := run_nodes demo_registrations demo_built.
Definition demo_stakes : list (Origin * NodeCall) :=
  [(Signed 50%N, Call_add_stake 1%N 300); (Signed 51%N, Call_add_stake 3%N 100)].
Definition demo_staked : Runtime.t := run_nodes demo_stakes demo_registered.
End Run.
