(* ===== verification/NodeProps.v ===== *)
(** * The registry of nodes in the runtime

    The calls of the node manager, the bridge that notifies it, the token manager
    and the rest of the runtime are a step relation; in every state that it
    reaches the registry is consistent and what is staked is reserved. *)

From S2P Require Import Prelude Frames Slices Bytes EventTypes EventParsing EventDiscovery.
From S2P Require Import EthTypes RuntimeErrors NodeTypes BridgeTypes Avn BridgeExamples EthBridge.
From S2P Require Import BridgeEvents TokenManager NodeStake NodeRewards NodeManager NodeInv.
From S2P Require Import BridgeInv AvnProps BridgeCalls BridgeProps NodeDispatch Anchor.
From S2P Require Import NodeExamples.

(** ** The node manager and the bridge *)

Section Aside.
Context `{BridgeConfig} `{!NodeConfig} `{!AppChainInterface} `{!AppChainLaws _}.
Implicit Types (s : Runtime.t).

Lemma around_aside {A} (m : Dispatch A) : leaves around m → leaves aside m.
Proof. intros Hm s. exact (f_equal (fst ∘ fst ∘ fst) (Hm s)). Qed.
Lemma around_nodes {A} (m : Dispatch A) : leaves around m → leaves Runtime.nodes m.
Proof. intros Hm s. exact (f_equal (snd ∘ fst ∘ fst) (Hm s)). Qed.
Lemma node_event_aside e : leaves aside (node_event e).
Proof. by apply leaves_modify. Qed.
Lemma node_modify_aside f : leaves aside (node_modify f).
Proof. by apply leaves_modify. Qed.
Lemma update_assets_aside f e : leaves aside (update_assets f e).
Proof. unfold update_assets. leaves_tac. Qed.
Lemma ensure_signed_aside (o : Origin) : leaves aside (ensure_signed o).
Proof. destruct o; leaves_tac. Qed.
Lemma ensure_none_aside (o : Origin) : leaves aside (ensure_none o).
Proof. destruct o; leaves_tac. Qed.
Lemma ensure_root_aside (o : Origin) : leaves aside (ensure_root o).
Proof. destruct o; leaves_tac. Qed.
Lemma ensure_registrar_aside w : leaves aside (ensure_registrar w).
Proof. unfold ensure_registrar, node_get. leaves_tac. Qed.
#[local] Hint Resolve node_event_aside node_modify_aside update_assets_aside ensure_signed_aside
  ensure_none_aside ensure_root_aside ensure_registrar_aside : frame.

Lemma do_register_node_aside k o key auto bonus : leaves aside (do_register_node k o key auto bonus).
Proof.
  unfold do_register_node, mutate_owned_count, insert_signing_key_index, calculate_node_serial, put_node, node_get.
  leaves_tac.
Qed.
Lemma do_deregister_nodes_aside o nodes : leaves aside (do_deregister_nodes o nodes).
Proof.
  unfold do_deregister_nodes, deregister_node, remove_signing_key_index, mutate_owned_count, update_reserves,
    lower_total_stake, node_get. leaves_tac.
Qed.
Lemma do_add_stake_aside o k a : leaves aside (do_add_stake o k a).
Proof.
  unfold do_add_stake, put_node, raise_total_stake, update_reserves, node_get. leaves_tac.
Qed.
Lemma do_remove_stake_aside o k a : leaves aside (do_remove_stake o k a).
Proof.
  unfold do_remove_stake, put_node, lower_total_stake, update_reserves, amount_to_remove, run, node_get. leaves_tac.
Qed.
Lemma do_move_stake_aside o sources k : leaves aside (do_move_stake o sources k).
Proof. unfold do_move_stake, move_stake_from, put_node. leaves_tac. Qed.
Lemma move_owner_totals_aside o w n a : leaves aside (move_owner_totals o w n a).
Proof.
  unfold move_owner_totals, mutate_owned_count, move_reserved_balance, lower_total_stake, raise_total_stake, node_get.
  leaves_tac.
Qed.
#[local] Hint Resolve move_owner_totals_aside do_add_stake_aside : frame.
Lemma do_move_nodes_aside o w nodes : leaves aside (do_move_nodes o w nodes).
Proof. unfold do_move_nodes, move_node, put_node. leaves_tac. Qed.
Lemma do_move_nodes_with_stake_aside o w nodes a : leaves aside (do_move_nodes_with_stake o w nodes a).
Proof. unfold do_move_nodes_with_stake, check_moved_node, move_node_with_stake, put_node. leaves_tac. Qed.
Lemma pay_treasury_aside a w : leaves aside (pay_treasury a w).
Proof. unfold pay_treasury, settle_transfer, token_get, put_balance, token_modify, token_event, deposit_event. leaves_tac. Qed.
Lemma on_reward_paid_aside p o k e share : leaves aside (on_reward_paid p o k e share).
Proof. apply around_aside, on_reward_paid_leaves. Qed.
Lemma on_reward_period_completed_aside p : leaves aside (on_reward_period_completed p).
Proof. apply around_aside, on_reward_period_completed_leaves. Qed.
Lemma on_new_reward_period_aside p : leaves aside (on_new_reward_period p).
Proof. apply around_aside, on_new_reward_period_leaves. Qed.
#[local] Hint Resolve pay_treasury_aside on_reward_paid_aside on_reward_period_completed_aside
  on_new_reward_period_aside : frame.
Lemma offchain_pay_nodes_aside o p : leaves aside (offchain_pay_nodes o p).
Proof.
  unfold offchain_pay_nodes, try_pay_node, pay_node, pay_reward, complete_reward_payout, remove_paid_nodes,
    update_last_paid_pointer, get_iterator_from_last_paid, lift_outcome, node_get. leaves_tac.
Qed.
Lemma offchain_submit_heartbeat_aside o k p c : leaves aside (offchain_submit_heartbeat o k p c).
Proof. unfold offchain_submit_heartbeat, validate_heartbeats, node_get. leaves_tac. Qed.
Lemma node_on_initialize_aside n : leaves aside (NodeRewards.on_initialize n).
Proof. unfold NodeRewards.on_initialize, calculate_uptime_threshold, node_get. leaves_tac. Qed.
#[local] Hint Resolve do_register_node_aside do_deregister_nodes_aside do_remove_stake_aside
  do_move_stake_aside do_move_nodes_aside do_move_nodes_with_stake_aside offchain_pay_nodes_aside
  offchain_submit_heartbeat_aside : frame.
(** Only a mint asks the bridge for something. *)
Lemma node_call_aside `{!BridgeInterfaceNotification} origin call :
  (∀ amount author signature, call ≠ Call_offchain_mint_rewards amount author signature) →
  leaves aside (node_call origin call).
Proof.
  intros Hc.
  destruct call; cbn [node_call];
    unfold register_node, set_node_admin_config, signed_register_node, deregister_nodes, signed_deregister_nodes,
      update_signing_key, add_stake, remove_stake, update_auto_stake_preference, set_genesis_override,
      override_genesis_bonus, move_nodes, move_stake, move_nodes_with_stake, ensure_not_expired, ensure_owns,
      rotate_signing_key_index, insert_signing_key_index, remove_signing_key_index, put_node, node_get; try solve [leaves_tac].
  by edestruct Hc.
Qed.
Lemma bridge_result_leaves {A V} (v : Runtime.t → V) (r : outcome BridgeError.t A) : leaves v (bridge_result r).
Proof. by destruct r. Qed.
Lemma run_leaves {E A V} (v : Runtime.t → V) (r : outcome E A) e : leaves v (run r e).
Proof. by destruct r. Qed.
#[local] Hint Resolve bridge_result_leaves run_leaves : frame.
Lemma publish_around `{!BridgeInterfaceNotification} f params caller :
  leaves (λ s, (Runtime.nodes s, Runtime.assets s)) (publish f params caller).
Proof.
  unfold publish, add_new_send_request, use_next_tx_id, queue_request, set_up_active_tx,
    assign_sender, advance_primary_validator_for_sending, put_primary, nth_account, bridge_event, deposit_event, put_request_queue,
    put_active_request. leaves_tac.
Qed.
End Aside.

(** ** Calls *)

(** The ranges of the types of the arguments. *)
Definition node_call_typed `{BridgeConfig} `{!NodeConfig} (call : NodeCall) : Prop :=
  match call with
  | Call_add_stake _ amount => 0 <= amount
  | Call_remove_stake _ amount => amount_arg amount
  | Call_offchain_mint_rewards amount _ _ => 0 <= amount <= u128_max
  | Call_move_nodes _ _ nodes => (length nodes ≤ MaxNodes)%nat
  | Call_move_stake _ sources _ => Forall (amount_arg ∘ snd) sources
  | Call_move_nodes_with_stake _ _ nodes amount => (length nodes ≤ MaxNodes)%nat ∧ 0 <= amount
  | _ => True
  end.
Lemma mint_publishable `{BridgeConfig} amount :
  0 <= amount <= u128_max →
  publishable (BridgeContractMethod.name_as_bytes BridgeContractMethod.MintRewards)
    [(b "uint128", to_string amount)].
Proof.
  intros Ha tx_id caller expiry domain. unfold create_function_confirmation_hash, sent_params.
  cbn [SendRequestData.params SendRequestData.function_name SendRequestData.tx_id]. rewrite try_from_name.
  set (ids := extract_tx_id_and_expiry _). pose proof (extract_no_panic
    ([(b "uint128", to_string amount)] ++ [(UINT256, to_string expiry); (UINT32, to_string tx_id)])) as Hn.
  change (no_panic ids = true) in Hn. clearbody ids. cbn.
  rewrite parse_from_utf8_to_string by done. by destruct ids.
Qed.

Section Calls.
Context `{BridgeConfig} `{!NodeConfig} `{!ReserveLaws _} `{!AppChainInterface} `{!AppChainLaws _}.
Context {N : BridgeInterfaceNotification} `{!NotificationLaws N}.
Hypothesis bonus_start : 0 <= BonusNodeSerialStart <= u32_max.
Implicit Types (s : Runtime.t).

(** There is room for another node. *)
Definition room s : Prop := Z.of_nat (size (NodeStorage.NodeRegistry (Runtime.nodes s))) < u32_max.
Definition node_inv s : Prop := bridge_ok s ∧ nodes_ok s.

Lemma leaves_aside_wp {A} (m : Dispatch A) s :
  leaves aside m → bridge_ok s → wp m s (λ _ s', nodes_ok s') (λ _ _, True) →
  wp m s (λ _ s', node_inv s') (λ _ _, True).
Proof.
  intros Ha Hs. specialize (Ha s). unfold wp. destruct (m s) as [[] s']; cbn in *; try done.
  intros. split; [|done]. by eapply bridge_ok_aside.
Qed.
Lemma publish_inv f params caller s :
  publishable f params → node_inv s →
  wp (publish f params caller) s (λ _ s', node_inv s') (λ _ s', node_inv s').
Proof.
  intros Hp [Hs Hn]. pose proof (publish_around f params caller s) as Hl.
  pose proof (publish_arrived f params caller s Hs Hp) as Hw. unfold wp in *.
  destruct (publish f params caller s) as [[a|e|] s']; cbn in *; [| |done].
  - split; [apply Hw|]. injection Hl as En Ea. apply (nodes_ok_same s); [| |done].
    + unfold reg_of. by rewrite En.
    + intros o. by rewrite Ea.
  - split; [apply Hw|]. injection Hl as En Ea. apply (nodes_ok_same s); [| |done].
    + unfold reg_of. by rewrite En.
    + intros o. by rewrite Ea.
Qed.
Lemma offchain_mint_rewards_ok origin amount author signature s :
  0 <= amount <= u128_max → node_inv s →
  wp (offchain_mint_rewards origin amount author signature) s (λ _ s', node_inv s') (λ _ _, True).
Proof.
  intros Ha Hs. unfold offchain_mint_rewards, send_mint_to_ethereum, put_pending_mint, node_get.
  wp_step. eapply wp_mono; [apply (ensure_none_ok (eq s) origin s eq_refl)| |done]. intros [] s1 <-.
  repeat (wp_step; try done).
  eapply wp_mono; [by apply publish_inv; [apply mint_publishable|]| |done]. intros tx_id s1 [Hb Hn].
  apply leaves_aside_wp; [|done|].
  - apply leaves_bind; [by apply leaves_modify|]. intros _. by apply leaves_modify.
  - apply keeps_maintains; [|done]. apply maintains_bind; [by apply node_modify_ok|]. intros _.
    apply node_event_ok.
Qed.

Lemma do_deregister_nodes_ok o nodes : keeps nodes_ok (do_deregister_nodes o nodes).
Proof. apply call_for_each. intros k. apply deregister_node_ok. Qed.
(** The checks before a call of the registrar do not change the state. *)
Ltac checks_tac :=
  unfold ensure_registrar, ensure_not_expired, node_get;
  repeat (first [wp_step | match goal with |- wp (match ?o with _ => _ end) _ _ _ => destruct o end]; try done).
Lemma node_call_ok origin call s :
  node_call_typed call → room s → node_inv s →
  wp (node_call origin call) s (λ _ s', node_inv s') (λ _ _, True).
Proof.
  intros Ht Hr [Hb Hn].
  destruct call eqn:Hc; try (apply leaves_aside_wp; [by apply node_call_aside|done|]);
    cbn [node_call node_call_typed] in *.
  - unfold register_node. destruct origin; cbn [ensure_signed]; checks_tac. by apply do_register_node_ok.
  - by apply keeps_maintains, Hn; apply set_node_admin_config_ok.
  - by apply keeps_maintains, Hn; apply offchain_pay_nodes_ok.
  - by apply keeps_maintains, Hn; apply offchain_submit_heartbeat_ok.
  - unfold signed_register_node. destruct origin; cbn [ensure_signed]; checks_tac.
    by apply do_register_node_ok.
  - unfold deregister_nodes. destruct origin; cbn [ensure_signed]; checks_tac.
    by apply (do_deregister_nodes_ok _ _ _ Hn).
  - unfold signed_deregister_nodes. destruct origin; cbn [ensure_signed]; checks_tac.
    by apply (do_deregister_nodes_ok _ _ _ Hn).
  - by apply update_signing_key_ok.
  - by apply add_stake_ok.
  - by apply remove_stake_ok.
  - by apply update_auto_stake_preference_ok.
  - by apply offchain_mint_rewards_ok.
  - unfold register_node. destruct origin; cbn [ensure_signed]; checks_tac. by apply do_register_node_ok.
  - by apply keeps_maintains, Hn; apply set_genesis_override_ok.
  - unfold move_nodes. destruct origin; cbn [ensure_signed]; checks_tac.
    rename select (negb _ = true) into Hne. apply negb_true_iff, bool_decide_eq_false in Hne.
    by apply do_move_nodes_ok.
  - unfold move_stake. destruct origin; cbn [ensure_signed]; checks_tac. by apply do_move_stake_ok.
  - unfold move_nodes_with_stake. destruct origin; cbn [ensure_signed]; checks_tac.
    rename select (negb _ = true) into Hne. apply negb_true_iff, bool_decide_eq_false in Hne.
    destruct Ht. by apply do_move_nodes_with_stake_ok.
Qed.
Lemma node_call_inv origin call s :
  node_call_typed call → room s → node_inv s →
  (node_call origin call s).1 ≠ Panic ∧ node_inv (transactional (node_call origin call) s).2.
Proof.
  intros Ht Hr Hs. pose proof (node_call_ok origin call s Ht Hr Hs) as Hw. unfold wp, transactional in *.
  by destruct (node_call origin call s) as [[] s'].
Qed.
Lemma node_on_initialize_inv n s :
  node_inv s →
  (NodeRewards.on_initialize n s).1 ≠ Panic ∧ node_inv (NodeRewards.on_initialize n s).2.
Proof.
  intros [Hb Hs]. pose proof (on_initialize_ok n s Hs) as Hw. pose proof (node_on_initialize_aside n s) as Ha.
  unfold wp in Hw. destruct (NodeRewards.on_initialize n s) as [[] s']; cbn in *; [| |done].
  - split; [done|]. split; [by eapply bridge_ok_aside|done].
  - split; [done|]. split; [by eapply bridge_ok_aside|done].
Qed.
End Calls.

(** ** What the bridge tells the pallets *)

(** The node manager with its events, and the reserve of [o]. *)
Definition calm `{BridgeConfig} (o : AccountId) (s : Runtime.t) :=
  (Runtime.nodes s, node_events s, native_reserved_balance (Runtime.assets s) o).
(** A pallet that leaves them alone. *)
Class QuietNotification `{BridgeConfig} (N : BridgeInterfaceNotification) : Prop := {
  #[global] quiet_laws :: NotificationLaws N;
  quiet_result o id caller ok : leaves (calm o) (process_result id caller ok);
  quiet_lower o id caller data : leaves (calm o) (process_lower_proof_result id caller data);
  quiet_incoming o event : leaves (calm o) (on_incoming_event_processed event);
}.
Section Notified.
Context `{BridgeConfig} `{!NodeConfig} `{!ReserveLaws _}.
Implicit Types (s : Runtime.t).

Lemma calm_maintains {A} (m : Dispatch A) :
  (∀ o, leaves (calm o) m) → (∀ s, (m s).1 ≠ Panic) → maintains nodes_ok m.
Proof.
  intros Hc Ht s Hs. specialize (Ht s).
  assert (nodes_ok (m s).2).
  { apply (nodes_ok_same s); [| |done].
    - unfold reg_of. by rewrite (f_equal (fst ∘ fst) (Hc 0%N s) : Runtime.nodes _ = Runtime.nodes _).
    - intros o. exact (f_equal snd (Hc o s)). }
  unfold wp. by destruct (m s) as [[] ?].
Qed.
Lemma update_assets_calm o f e :
  (∀ a a', f a = Some a' → native_reserved_balance a' o = native_reserved_balance a o) →
  leaves (calm o) (update_assets f e).
Proof.
  intros Hf s. unfold update_assets, mbind, M_bind, gets, ok_or. cbn.
  destruct (f (Runtime.assets s)) as [a|] eqn:Ha; cbn; [|done].
  unfold calm. cbn. by rewrite (Hf _ _ Ha).
Qed.
Lemma credit_calm o t w a : leaves (calm o) (credit_user_balance t w a).
Proof.
  unfold credit_user_balance, mint_known_token, mint_unknown_token, put_balance, token_modify. leaves_tac.
  apply update_assets_calm. intros. by eapply asset_deposit_reserved.
Qed.
Lemma token_event_calm o e : leaves (calm o) (token_event e).
Proof.
  apply leaves_modify. intros s. unfold calm, node_events. cbn. by rewrite omap_app, app_nil_r.
Qed.
#[local] Hint Resolve credit_calm token_event_calm : frame.
#[global] Instance token_quiet : QuietNotification token_notification.
Proof.
  split; [apply _|..]; cbn; intros.
  - leaves_tac.
  - unfold lower_proof_result, token_get, token_modify. leaves_tac.
  - unfold processed_event_handler, process_lift, process_avt_growth_lift, process_lower_claim,
      process_lower_reverted, remove_used_lower, token_get, token_modify.
    leaves_tac.
Qed.
Lemma resolve_ok tx ok : maintains nodes_ok (resolve_pending_mint_request tx ok).
Proof.
  unfold resolve_pending_mint_request, put_pending_mint. apply maintains_bind; [by apply node_modify_ok|].
  intros _. apply node_event_ok.
Qed.
Lemma put_pending_mint_ok p : maintains nodes_ok (put_pending_mint p).
Proof. by apply node_modify_ok. Qed.
Lemma credit_reward_pot_ok amount : maintains nodes_ok (credit_reward_pot amount).
Proof.
  apply maintains_modify. intros s Hs. apply (nodes_ok_same s); [done| |done].
  intros o. apply deposit_creating_reserved.
Qed.
#[local] Hint Resolve resolve_ok put_pending_mint_ok credit_reward_pot_ok : maintain.
Lemma node_process_result_ok tx caller ok : maintains nodes_ok (node_process_result tx caller ok).
Proof. unfold node_process_result, process_mint_request_result. maintains_tac. Qed.
Lemma node_processed_event_handler_ok e : maintains nodes_ok (node_processed_event_handler e).
Proof. unfold node_processed_event_handler, process_rewards_minted. maintains_tac. Qed.
#[global] Instance node_notification_laws : NotificationLaws node_notification.
Proof.
  assert (∀ f, maintains (λ _, True) (modify f : Dispatch unit)) by (intros; by apply maintains_modify).
  constructor; cbn; intros; try done.
  - unfold node_process_result, process_mint_request_result, resolve_pending_mint_request, put_pending_mint,
      node_event, deposit_event, node_modify. leaves_tac.
  - apply total_of. unfold node_process_result, process_mint_request_result, resolve_pending_mint_request,
      put_pending_mint, node_event, deposit_event, node_modify. maintains_tac.
  - unfold node_processed_event_handler, process_rewards_minted, credit_reward_pot, resolve_pending_mint_request,
      put_pending_mint, node_event, deposit_event, node_modify. leaves_tac.
  - apply total_of. unfold node_processed_event_handler, process_rewards_minted, credit_reward_pot,
      resolve_pending_mint_request, put_pending_mint, node_event, deposit_event, node_modify. maintains_tac.
Qed.

(** The node manager is notified first, then the other pallets. *)
Section Apart.
Context (others : list BridgeInterfaceNotification) (Hothers : Forall QuietNotification others).
Definition notified : BridgeInterfaceNotification := notification_tuple (node_notification :: others).
Lemma notified_laws : NotificationLaws notified.
Proof.
  apply notification_tuple_laws. constructor; [apply _|].
  eapply Forall_impl; [exact Hothers|]. intros N ?. apply _.
Qed.
Lemma told_maintains (K : Runtime.t → Prop) (f : BridgeInterfaceNotification → Dispatch unit) :
  maintains K (f node_notification) → (∀ N, QuietNotification N → maintains K (f N)) →
  maintains K (for_each f (node_notification :: others)).
Proof.
  intros Hn Hq. apply maintains_bind; [done|]. intros _.
  clear -Hothers Hq. induction Hothers; [apply maintains_ret|]. apply maintains_bind; auto.
Qed.
Lemma nodes_apart : @apart _ notified nodes_ok.
Proof.
  constructor; cbn [process_result process_lower_proof_result on_incoming_event_processed notified notification_tuple].
  - intros s s' Hp. apply nodes_ok_same; unfold pallets in Hp; injection Hp as _ Hn Ha _.
    + unfold reg_of. by rewrite Hn.
    + intros o. by rewrite Ha.
  - intros. apply told_maintains; [apply node_process_result_ok|]. intros N ?.
    apply calm_maintains; [intros; apply quiet_result|apply process_result_total].
  - intros. apply told_maintains; [apply maintains_ret|]. intros N ?.
    apply calm_maintains; [intros; apply quiet_lower|apply process_lower_proof_result_total].
  - intros. apply told_maintains; [apply node_processed_event_handler_ok|]. intros N ?.
    apply calm_maintains; [intros; apply quiet_incoming|apply on_incoming_event_processed_total].
Qed.
End Apart.
End Notified.

(** ** Every reachable state *)

Section Reachable.
Context `{BridgeConfig} `{!NodeConfig} `{!ReserveLaws _} `{!AppChainInterface} `{!AppChainLaws _}.
Context (others : list BridgeInterfaceNotification).
#[local] Instance notified_here : BridgeInterfaceNotification := notified others.
Implicit Types (s : Runtime.t).

(** The calls and the hook of the node manager, the calls of the bridge, and
    whatever else leaves the nodes alone and does not take reserves away. *)
Inductive node_step : Runtime.t → Runtime.t → Prop :=
  | node_step_call origin call s :
      node_call_typed call → room s → node_step s (transactional (node_call origin call) s).2
  | node_step_initialize n s : node_step s (NodeRewards.on_initialize n s).2
  | node_step_bridge origin call s : node_step s (transactional (bridge_call origin call) s).2
  | node_step_others s s' :
      rtc bridge_step s s' → Runtime.nodes s' = Runtime.nodes s → node_events s' = node_events s →
      (∀ o, native_reserved_balance (Runtime.assets s) o <= native_reserved_balance (Runtime.assets s') o) →
      node_step s s'.
(** The state after genesis. *)
Definition node_start s : Prop :=
  bridge_start s ∧ ∃ g s0, Runtime.nodes s0 = NodeGenesis.empty ∧ NodeGenesis.build g s0 = (Ok (), s).

Lemma build_reg g s0 u s : NodeGenesis.build g s0 = (Ok u, s) → reg_view (Runtime.nodes s) = reg_view (Runtime.nodes s0).
Proof.
  assert (leaves (λ s, reg_view (Runtime.nodes s)) (NodeGenesis.build g)) as Hl.
  { unfold NodeGenesis.build, NodeGenesis.assert, calculate_uptime_threshold, node_get, node_modify. leaves_tac. }
  intros E. specialize (Hl s0). by rewrite E in Hl.
Qed.
Lemma empty_registry : 0 <= BonusNodeSerialStart → registry_ok NodeGenesis.empty.
Proof. intros Hb. by constructor. Qed.
Lemma node_start_inv s : 0 <= BonusNodeSerialStart → node_start s → node_inv s.
Proof.
  intros Hb [Hs (g&s0&He&Hg)]. apply build_reg in Hg. rewrite He in Hg. split; [by apply bridge_start_ok|].
  split; [by eapply reg_off_same, empty_registry|].
  intros o. unfold total_of_owner. unfold reg_view in Hg. injection Hg as _ _ _ _ _ _ -> _ _.
  apply reserved_nonneg.
Qed.
Lemma bridge_call_nodes origin call :
  Forall QuietNotification others → maintains node_inv (transactional (bridge_call origin call)).
Proof.
  intros Ho. pose proof (notified_laws others Ho).
  apply maintains_transactional, bridge_call_ok, apart_respected, nodes_apart, Ho.
Qed.
Lemma node_step_inv s s' :
  0 <= BonusNodeSerialStart <= u32_max → Forall QuietNotification others →
  node_step s s' → node_inv s → node_inv s'.
Proof.
  intros Hb Ho Hstep Hs. pose proof (notified_laws others Ho).
  destruct Hstep as [origin call s Ht Hr|n s|origin call s|s s' Hbr Hn _ Hres].
  - by apply node_call_inv.
  - by apply node_on_initialize_inv.
  - pose proof (bridge_call_nodes origin call Ho s Hs) as Hw. unfold wp in Hw.
    by destruct (transactional _ s) as [[] ?].
  - destruct Hs as [Hbok [HR HC]]. split.
    + clear -Hbr Hbok H2. induction Hbr as [|s s1 s2 Hstep _ IH]; [done|]. by eapply IH, bridge_step_ok.
    + split; [by rewrite Hn|]. intros o. rewrite Hn. etrans; [apply HC|done].
Qed.

End Reachable.

(** ** A run *)

Section Witness.
#[local] Existing Instance demo_config.
#[local] Existing Instance anchor_interface.
#[local] Existing Instance token_notification.

Lemma demo_node_start : node_start demo_built.
Proof.
  split; [split_and!; [done|done|by apply Nat.leb_le]|].
  exists demo_genesis, demo_before. split; [done|]. by rewrite (surjective_pairing (NodeGenesis.build _ _)).
Qed.
(** There is room at every call. *)
Fixpoint roomy (calls : list (Origin * NodeCall)) (s : Runtime.t) : bool :=
  match calls with
  | [] => true
  | c :: calls =>
      bool_decide (Z.of_nat (size (NodeStorage.NodeRegistry (Runtime.nodes s))) < u32_max) &&
      roomy calls (transactional (node_call c.1 c.2) s).2
  end.
Lemma run_reaches others calls s :
  Forall (node_call_typed ∘ snd) calls → roomy calls s = true → rtc (node_step others) s (run_nodes calls s).
Proof.
  intros Hc. revert s. induction Hc as [|c calls Hc _ IH]; intros s; [done|]. cbn [roomy].
  intros [Hr Hs]%andb_prop. apply bool_decide_eq_true in Hr.
  eapply rtc_l; [|by apply IH]. by apply node_step_call.
Qed.
End Witness.
