(* ===== verification/Watchtower.v ===== *)
(** * Watchtowers: proposals, votes and the queue

    [pallets/watchtower]: other pallets and users submit proposals; the nodes, or
    their owners, vote on them.  One proposal of a pallet is voted on at a time, the
    others wait in a ring buffer.  The nodes are those of the node manager, through the
    adapter of [runtime/avn/src/configs/mod.rs].  Hashes, the fixed-point type, the order of
    storage keys and the weight meter are fields of a class. *)

From S2P Require Import Prelude Slices Bytes EventTypes EventParsing EventDiscovery EthTypes.
From S2P Require Import RuntimeErrors NodeTypes SummaryTypes BridgeTypes Avn EthBridge BridgeEvents.
From S2P Require Import NodeStake NodeManager.

Definition DEFAULT_VOTING_PERIOD_BLOCKS : Z := 100.
Definition UNSIGNED_VOTE_NOT_VALID : Z := 2.
Definition MAX_VOTERS : nat := 250.
(** [Perbill::one()]. *)
Definition perbill_one : Perbill := 1000000000.

(** ** Interfaces *)

Class WatchtowerInterface `{BridgeConfig} := {
  submit_proposal : option AccountId → ProposalRequest.t → Dispatch unit;
}.
(** [NoopWatchtower]. *)
Definition noop_watchtower `{BridgeConfig} : WatchtowerInterface := {|
  submit_proposal _ _ := mret ();
|}.

(** The last two hooks return nothing: what fails in them is not passed on. *)
Class WatchtowerHooks `{BridgeConfig} := {
  on_proposal_submitted : ProposalId → Proposal.t → Dispatch unit;
  on_voting_completed : ProposalId → H256 → ProposalStatusEnum.t → Dispatch unit;
  on_cancelled : ProposalId → H256 → Dispatch unit;
}.
(** A tuple of pallets: each is told in turn, and what it answers is dropped. *)
Definition hooks_tuple `{BridgeConfig} (l : list WatchtowerHooks) : WatchtowerHooks := {|
  on_proposal_submitted proposal_id proposal :=
    for_each (λ K, try (@on_proposal_submitted _ K proposal_id proposal);; mret ()) l;
  on_voting_completed proposal_id external_ref result :=
    for_each (λ K, @on_voting_completed _ K proposal_id external_ref result) l;
  on_cancelled proposal_id external_ref :=
    for_each (λ K, @on_cancelled _ K proposal_id external_ref) l;
|}.

(** Who may vote. *)
Class NodesInterface `{BridgeConfig} := {
  is_authorized_watchtower : AccountId → Runtime.t → bool;
  is_watchtower_owner : AccountId → Runtime.t → bool;
  get_authorized_watchtowers_count : Runtime.t → Z;
  get_watchtower_voting_weight : AccountId → Runtime.t → Z;
  get_node_signing_key : AccountId → Runtime.t → option SignerId;
}.
(** [RuntimeNodeManager]. *)
Definition RuntimeNodeManager `{BridgeConfig} : NodesInterface := {|
  is_authorized_watchtower node s := negb (bool_decide (node_info node s = None));
  is_watchtower_owner who s :=
    existsb (λ x, bool_decide (x.1 = who)) (elements (NodeStorage.OwnedNodes (Runtime.nodes s)));
  get_authorized_watchtowers_count s := NodeStorage.TotalRegisteredNodes (Runtime.nodes s);
  get_watchtower_voting_weight owner s := owned_count owner s;
  get_node_signing_key node s := NodeInfo.signing_key <$> node_info node s;
|}.

(** What one step of the clean-up may cost. *)
Inductive CleanupWeight : Set :=
  | active_proposal_expiry_status_weight
  | finalise_expired_voting_weight
  | reads (n : Z)
  | writes (n : Z).

Class WatchtowerConfig := {
  WatchtowerTxLifetime : Z;
  MaxTitleLen : nat;
  MaxInlineLen : nat;
  MaxUriLen : nat;
  MaxInternalProposalLen : Z;
  blake2_256 : bytes → H256;
  perbill_mul_ceil : Perbill → Z → Z;
  (** The places of keys in storage. *)
  voter_position : AccountId → N;
  proposal_position : ProposalId → N;
  (** [WeightMeter]. *)
  WeightMeter : Type;
  try_consume : CleanupWeight → WeightMeter → option WeightMeter;
}.

Section Watchtower.
Context `{BridgeConfig} `{!NodeConfig} `{!WatchtowerConfig} `{!NodesInterface} `{!WatchtowerHooks}.
Implicit Types (s : Runtime.t) (proposal_id : ProposalId) (proposal : Proposal.t).

(** ** Storage *)

Definition wt_get {A} (f : WatchtowerStorage.t → A) : Dispatch A := gets (f ∘ Runtime.watchtower).
Definition wt_modify (f : WatchtowerStorage.t → WatchtowerStorage.t) : Dispatch unit :=
  modify (Runtime.upd_watchtower f).
Definition wt_event (e : WatchtowerEvent.t) : Dispatch unit := deposit_event (WatchtowerEvent_ e).
Definition proposals proposal_id s : option Proposal.t :=
  WatchtowerStorage.Proposals (Runtime.watchtower s) !! proposal_id.
Definition proposal_status proposal_id s : ProposalStatusEnum.t :=
  unwrap_or ProposalStatusEnum.Unknown
    (WatchtowerStorage.ProposalStatus (Runtime.watchtower s) !! proposal_id).
Definition votes proposal_id s : Vote.t :=
  unwrap_or Vote.default (WatchtowerStorage.Votes (Runtime.watchtower s) !! proposal_id).
Definition put_status proposal_id (status : ProposalStatusEnum.t) : Dispatch unit :=
  wt_modify (WatchtowerStorage.upd_ProposalStatus (insert proposal_id status)).
Definition put_proposal proposal_id proposal : Dispatch unit :=
  wt_modify (WatchtowerStorage.upd_Proposals (insert proposal_id proposal)).
Definition put_active (active : option ProposalId) : Dispatch unit :=
  wt_modify (WatchtowerStorage.upd_ActiveInternalProposal (λ _, active)).

(** ** The ring buffer ([queue.rs]) *)

Definition cap : Z := MaxInternalProposalLen.
Definition len s : Z :=
  WatchtowerStorage.Tail (Runtime.watchtower s) ⊖ WatchtowerStorage.Head (Runtime.watchtower s).
Definition is_empty s : bool := bool_decide (len s = 0).
Definition is_full s : bool := bool_decide (cap <= len s).
(** [QueueId::default()] and the index, a [u32]; a remainder by zero panics. *)
Definition slot_of (position : Z) : option (QueueId * Z) :=
  if bool_decide (cap = 0) then None else Some (0, wrap_to u32_max (position mod cap)).

Definition enqueue proposal_id : Dispatch unit :=
  full ← gets is_full;
  ensure (negb full) WatchtowerError.InnerProposalQueueFull;;
  tail ← wt_get WatchtowerStorage.Tail;
  slot ← expect (slot_of tail);
  queue ← wt_get WatchtowerStorage.InternalProposalQueue;
  ensure (bool_decide (queue !! slot = None)) WatchtowerError.QueueCorruptState;;
  wt_modify (WatchtowerStorage.upd_InternalProposalQueue (insert slot proposal_id));;
  wt_modify (WatchtowerStorage.upd_Tail (λ _, tail +₆₄ 1)).
Definition dequeue : Dispatch ProposalId :=
  empty ← gets is_empty;
  ensure (negb empty) WatchtowerError.QueueEmpty;;
  head ← wt_get WatchtowerStorage.Head;
  slot ← expect (slot_of head);
  queue ← wt_get WatchtowerStorage.InternalProposalQueue;
  proposal_id ← ok_or (queue !! slot) WatchtowerError.QueueCorruptState;
  wt_modify (WatchtowerStorage.upd_InternalProposalQueue (delete slot));;
  wt_modify (WatchtowerStorage.upd_Head (λ _, head +₆₄ 1));;
  mret proposal_id.
Definition peek_front : Dispatch (option (ProposalId * Proposal.t)) :=
  empty ← gets is_empty;
  if (empty : bool) then mret None
  else
    head ← wt_get WatchtowerStorage.Head;
    slot ← expect (slot_of head);
    queue ← wt_get WatchtowerStorage.InternalProposalQueue;
    proposal_id ← ok_or (queue !! slot) WatchtowerError.QueueCorruptState;
    item ← gets (proposals proposal_id);
    item ← ok_or item WatchtowerError.QueueCorruptState;
    mret (Some (proposal_id, item)).

(** ** Proposals ([types.rs]) *)

Definition to_payload (raw : RawPayload.t) : Dispatch RawPayload.t :=
  match raw with
  | RawPayload.Inline data =>
      ensure (bool_decide (length data <= MaxInlineLen)%nat) WatchtowerError.InvalidInlinePayload;;
      mret (RawPayload.Inline data)
  | RawPayload.Uri data =>
      ensure (bool_decide (length data <= MaxUriLen)%nat) WatchtowerError.InvalidUri;;
      mret (RawPayload.Uri data)
  end.
Definition generate_id proposal : ProposalId :=
  blake2_256 (be_bytes 32 (Proposal.external_ref proposal) ++
    le_bytes 4 (Z.to_N (Proposal.created_at proposal)) ++
    le_bytes 4 (Z.to_N (Proposal.vote_duration proposal))).
Definition proposal_is_valid proposal (current_block min_voting_period : Z) : bool :=
  let base_is_valid :=
    negb (bool_decide (Proposal.title proposal = [])) &&
    negb (N.eqb (Proposal.external_ref proposal) 0) &&
    bool_decide (min_voting_period <= Proposal.vote_duration proposal) &&
    bool_decide (Proposal.threshold proposal <= perbill_one) &&
    bool_decide (Proposal.created_at proposal <= current_block) in
  let payload_valid :=
    match Proposal.payload proposal with
    | RawPayload.Inline data =>
        negb (bool_decide (data = [])) && ProposalSource.is_internal (Proposal.source proposal)
    | RawPayload.Uri data =>
        negb (bool_decide (data = [])) && ProposalSource.is_external (Proposal.source proposal)
    end in
  base_is_valid && payload_valid.
Definition to_proposal (request : ProposalRequest.t) (proposer : option AccountId)
    (current_block : Z) : Dispatch Proposal.t :=
  min_vote_duration ← wt_get WatchtowerStorage.MinVotingPeriod;
  let vote_duration := unwrap_or min_vote_duration (ProposalRequest.vote_duration request) in
  ensure (bool_decide (min_vote_duration <= vote_duration)) WatchtowerError.VotingPeriodTooShort;;
  ensure (bool_decide (length (ProposalRequest.title request) <= MaxTitleLen)%nat)
    WatchtowerError.InvalidTitle;;
  payload ← to_payload (ProposalRequest.payload request);
  let proposal :=
    Proposal.mk (ProposalRequest.title request) payload (ProposalRequest.threshold request)
      (ProposalRequest.source request) (ProposalRequest.decision_rule request)
      (ProposalRequest.external_ref request) proposer (ProposalRequest.created_at request)
      vote_duration None in
  ensure (proposal_is_valid proposal current_block min_vote_duration) WatchtowerError.InvalidProposal;;
  mret proposal.

(** ** Results ([vote.rs]) *)

Definition threshold_achieved proposal_id (threshold : Perbill) s : option bool :=
  let vote := votes proposal_id s in
  let total_voters := get_authorized_watchtowers_count s in
  if bool_decide (total_voters = 0) then None
  else
    let min_votes := perbill_mul_ceil threshold total_voters in
    if bool_decide (min_votes <= Vote.in_favors vote) then Some true
    else if bool_decide (min_votes <= Vote.againsts vote) then Some false
    else None.
Definition get_proposal_status (result : bool) : ProposalStatusEnum.t :=
  if result then ProposalStatusEnum.Resolved true else ProposalStatusEnum.Resolved false.
Definition get_vote_result_on_expiry proposal_id proposal s : ProposalStatusEnum.t :=
  match Proposal.source proposal with
  | ProposalSource.Internal _ => ProposalStatusEnum.Expired
  | ProposalSource.External =>
      let vote := votes proposal_id s in
      if bool_decide (Proposal.decision_rule proposal = DecisionRule.SimpleMajority) &&
         bool_decide (Vote.againsts vote < Vote.in_favors vote)
      then ProposalStatusEnum.Resolved true
      else ProposalStatusEnum.Resolved false
  end.
Definition proposal_expired (current_block : Z) proposal : bool :=
  bool_decide (unwrap_or 0 (Proposal.end_at proposal) <= current_block).
Definition get_finalised_consensus_result proposal_id proposal (current_block : Z) s :
    option ProposalStatusEnum.t :=
  match threshold_achieved proposal_id (Proposal.threshold proposal) s with
  | Some result => Some (get_proposal_status result)
  | None =>
      if proposal_expired current_block proposal
      then Some (get_vote_result_on_expiry proposal_id proposal s)
      else None
  end.
Definition active_proposal_expiry_status (now : Z) s : option (ProposalId * Proposal.t * bool) :=
  proposal_id ← WatchtowerStorage.ActiveInternalProposal (Runtime.watchtower s);
  active_proposal ← proposals proposal_id s;
  Some (proposal_id, active_proposal, proposal_expired now active_proposal).

(** The next waiting proposal becomes the active one. *)
Definition activate_next : Dispatch unit :=
  next ← try dequeue;
  match next with
  | inl _ => mret ()
  | inr next_proposal_id =>
      put_active (Some next_proposal_id);;
      put_status next_proposal_id ProposalStatusEnum.Active;;
      p ← gets (proposals next_proposal_id);
      p ← ok_or p WatchtowerError.ProposalNotFound;
      now ← gets Runtime.block_number;
      let updated_proposal :=
        Proposal.upd_end_at (λ _, Some (now +₃₂ Proposal.vote_duration p)) p in
      put_proposal next_proposal_id updated_proposal;;
      on_proposal_submitted next_proposal_id updated_proposal
  end.
Definition finalise_voting proposal_id proposal (consensus_result : ProposalStatusEnum.t) :
    Dispatch unit :=
  put_status proposal_id consensus_result;;
  on_voting_completed proposal_id (Proposal.external_ref proposal) consensus_result;;
  wt_event (WatchtowerEvent.VotingEnded proposal_id (Proposal.external_ref proposal) consensus_result);;
  (match Proposal.source proposal with
   | ProposalSource.Internal _ => put_active None;; activate_next
   | ProposalSource.External => mret ()
   end);;
  wt_modify (WatchtowerStorage.upd_ProposalsToRemove (λ to_remove, {[ proposal_id ]} ∪ to_remove)).
Definition finalise_expired_voting proposal_id proposal : Dispatch unit :=
  consensus_result ← gets (get_vote_result_on_expiry proposal_id proposal);
  finalise_voting proposal_id proposal consensus_result.

(** ** Submitting and voting ([lib.rs]) *)

Definition add_proposal (proposer : option AccountId) (proposal_request : ProposalRequest.t) :
    Dispatch unit :=
  current_block ← gets Runtime.block_number;
  proposal ← to_proposal proposal_request proposer current_block;
  let external_ref := Proposal.external_ref proposal in
  refs ← wt_get WatchtowerStorage.ExternalRef;
  ensure (bool_decide (refs !! external_ref = None)) WatchtowerError.DuplicateExternalRef;;
  let proposal_id := generate_id proposal in
  existing ← gets (proposals proposal_id);
  ensure (bool_decide (existing = None)) WatchtowerError.DuplicateProposal;;
  let activated :=
    Proposal.upd_end_at (λ _, Some (current_block ⊕₃₂ Proposal.vote_duration proposal)) proposal in
  '(proposal, status) ←
    (match Proposal.source proposal with
     | ProposalSource.Internal _ =>
         active ← wt_get WatchtowerStorage.ActiveInternalProposal;
         if bool_decide (active = None) then
           put_active (Some proposal_id);;
           mret (activated, ProposalStatusEnum.Active)
         else
           enqueue proposal_id;;
           mret (proposal, ProposalStatusEnum.Queued)
     | ProposalSource.External => mret (activated, ProposalStatusEnum.Active)
     end);
  put_status proposal_id status;;
  put_proposal proposal_id proposal;;
  wt_modify (WatchtowerStorage.upd_ExternalRef (insert external_ref proposal_id));;
  (if bool_decide (status = ProposalStatusEnum.Active) then on_proposal_submitted proposal_id proposal
   else mret ());;
  wt_event (WatchtowerEvent.ProposalSubmitted proposal_id external_ref status).

(** Who may vote on a proposal, and with what weight. *)
Definition authorise_vote proposal_id proposal (voter : AccountId) : Dispatch Z :=
  match Proposal.source proposal with
  | ProposalSource.Internal _ =>
      authorized ← gets (is_authorized_watchtower voter);
      ensure authorized WatchtowerError.UnauthorizedVoter;;
      active ← wt_get WatchtowerStorage.ActiveInternalProposal;
      ensure (bool_decide (active = Some proposal_id)) WatchtowerError.CorruptedState;;
      mret 1
  | ProposalSource.External =>
      owner ← gets (is_watchtower_owner voter);
      ensure owner WatchtowerError.UnauthorizedVoter;;
      vote_weight ← gets (get_watchtower_voting_weight voter);
      ensure (bool_decide (0 < vote_weight)) WatchtowerError.UnauthorizedVoter;;
      mret vote_weight
  end.
Definition count_vote (in_favor : bool) (vote_weight : Z) (vote : Vote.t) : Vote.t :=
  if in_favor then Vote.upd_in_favors (λ n, n ⊕₃₂ vote_weight) vote
  else Vote.upd_againsts (λ n, n ⊕₃₂ vote_weight) vote.
Definition process_vote (voter : AccountId) proposal_id (in_favor : bool) : Dispatch bool :=
  proposal ← gets (proposals proposal_id);
  proposal ← ok_or proposal WatchtowerError.ProposalNotFound;
  status ← gets (proposal_status proposal_id);
  ensure (bool_decide (status = ProposalStatusEnum.Active)) WatchtowerError.ProposalNotActive;;
  current_block ← gets Runtime.block_number;
  if proposal_expired current_block proposal then
    finalise_expired_voting proposal_id proposal;; mret true
  else
    voters ← wt_get WatchtowerStorage.Voters;
    ensure (bool_decide (voters !! (proposal_id, voter) = None)) WatchtowerError.AlreadyVoted;;
    vote_weight ← authorise_vote proposal_id proposal voter;
    wt_modify (WatchtowerStorage.upd_Voters (insert (proposal_id, voter) in_favor));;
    vote ← gets (votes proposal_id);
    wt_modify (WatchtowerStorage.upd_Votes (insert proposal_id (count_vote in_favor vote_weight vote)));;
    wt_event (WatchtowerEvent.VoteSubmitted voter proposal_id in_favor vote_weight);;
    result ← gets (get_finalised_consensus_result proposal_id proposal current_block);
    match result with
    | Some result => finalise_voting proposal_id proposal result;; mret true
    | None => mret false
    end.

(** ** Cleaning up *)

(** [Voters::iter_prefix] and [ProposalsToRemove::iter_keys]. *)
Definition voters_of proposal_id s : list (AccountId * bool) :=
  prefix_of voter_position proposal_id (WatchtowerStorage.Voters (Runtime.watchtower s)).
Definition proposals_to_remove s : list ProposalId :=
  sort_by (λ x y, (proposal_position x ?= proposal_position y)%N)
    (elements (WatchtowerStorage.ProposalsToRemove (Runtime.watchtower s))).
(** The voters that the meter allows to read. *)
Fixpoint voters_to_delete (meter : WeightMeter) (l : list (AccountId * bool)) :
    WeightMeter * list AccountId :=
  match l with
  | [] => (meter, [])
  | (who, _) :: l =>
      match try_consume (reads 1) meter with
      | None => (meter, [])
      | Some meter => let '(meter, to_delete) := voters_to_delete meter l in (meter, who :: to_delete)
      end
  end.
Fixpoint delete_voters proposal_id (meter : WeightMeter) (l : list AccountId) : Dispatch WeightMeter :=
  match l with
  | [] => mret meter
  | who :: l =>
      match try_consume (writes 1) meter with
      | None => mret meter
      | Some meter =>
          wt_modify (WatchtowerStorage.upd_Voters (delete (proposal_id, who)));;
          delete_voters proposal_id meter l
      end
  end.
(** The votes of a finished proposal go first, at most [MAX_VOTERS] at a time. *)
Definition remove_proposal (meter : WeightMeter) : Dispatch unit :=
  match try_consume (reads 1) meter with
  | None => mret ()
  | Some meter =>
      to_remove ← gets proposals_to_remove;
      match to_remove with
      | [] => mret ()
      | proposal_id :: _ =>
          l ← gets (voters_of proposal_id);
          let '(meter, to_delete) := voters_to_delete meter (take MAX_VOTERS l) in
          meter ← delete_voters proposal_id meter to_delete;
          match try_consume (reads 1) meter with
          | None => mret ()
          | Some meter =>
              l ← gets (voters_of proposal_id);
              if bool_decide (l = []) then
                match try_consume (writes 4) meter with
                | None => mret ()
                | Some _ =>
                    wt_modify (WatchtowerStorage.upd_Proposals (delete proposal_id));;
                    wt_modify (WatchtowerStorage.upd_Votes (delete proposal_id));;
                    wt_modify (WatchtowerStorage.upd_ProposalsToRemove
                      (λ to_remove, to_remove ∖ {[ proposal_id ]}));;
                    wt_event (WatchtowerEvent.ProposalCleaned proposal_id)
                end
              else mret ()
          end
      end
  end.
(** [on_idle]. *)
Definition cleanup_proposals (now : Z) (meter : WeightMeter) : Dispatch unit :=
  match try_consume active_proposal_expiry_status_weight meter with
  | None => mret ()
  | Some meter =>
      status ← gets (active_proposal_expiry_status now);
      match status with
      | Some (proposal_id, active_proposal, expired) =>
          if (expired : bool) then
            match try_consume finalise_expired_voting_weight meter with
            | None => mret ()
            | Some meter =>
                try (finalise_expired_voting proposal_id active_proposal);;
                remove_proposal meter
            end
          else mret ()
      | None => remove_proposal meter
      end
  end.

(** ** Dispatchables *)

(** [EnsureExternalProposerOrRoot] of the runtime: without an admin, anyone. *)
Definition ensure_external_proposer (origin : Origin) : Dispatch (option AccountId) :=
  admin ← wt_get WatchtowerStorage.AdminAccount;
  match origin with
  | Root => mret None
  | Signed who =>
      match admin with
      | Some admin => if bool_decide (who = admin) then mret (Some who) else fail BadOrigin
      | None => mret (Some who)
      end
  | NoOrigin => fail BadOrigin
  end.
Definition submit_external_proposal (origin : Origin) (proposal : ProposalRequest.t) : Dispatch unit :=
  proposer ← ensure_external_proposer origin;
  ensure (ProposalSource.is_external (ProposalRequest.source proposal))
    WatchtowerError.InvalidProposalSource;;
  add_proposal proposer proposal.
Definition ensure_tx_alive (block_number : Z) : Dispatch unit :=
  now ← gets Runtime.block_number;
  ensure (bool_decide (now < block_number ⊕₃₂ WatchtowerTxLifetime))
    WatchtowerError.SignedTransactionExpired.
Definition encode_signed_submit_external_proposal_params (relayer : AccountId)
    (proposal : ProposalRequest.t) (block_number : Z) : UserPayload.t :=
  UserPayload.SIGNED_SUBMIT_EXTERNAL_PROPOSAL_CONTEXT relayer proposal block_number.
Definition encode_signed_submit_vote_params (relayer : AccountId) proposal_id (in_favor : bool)
    (block_number : Z) : UserPayload.t :=
  UserPayload.SIGNED_SUBMIT_VOTE_CONTEXT relayer proposal_id in_favor block_number.
Definition signed_submit_external_proposal (origin : Origin) (proof : Proof_.t UserSignature)
    (proposal : ProposalRequest.t) (block_number : Z) : Dispatch unit :=
  proposer ← ensure_external_proposer origin;
  ensure (ProposalSource.is_external (ProposalRequest.source proposal))
    WatchtowerError.InvalidProposalSource;;
  ensure (bool_decide (proposer = Some (Proof_.signer proof))) WatchtowerError.SenderIsNotSigner;;
  ensure_tx_alive block_number;;
  ensure (verify_user_signature proof
            (encode_signed_submit_external_proposal_params (Proof_.relayer proof) proposal block_number))
    WatchtowerError.UnauthorizedSignedTransaction;;
  add_proposal proposer proposal.
Definition vote (origin : Origin) proposal_id (in_favor : bool) : Dispatch unit :=
  owner ← ensure_signed origin;
  process_vote owner proposal_id in_favor;;
  mret ().
Definition signed_vote (origin : Origin) (proof : Proof_.t UserSignature) proposal_id (in_favor : bool)
    (block_number : Z) : Dispatch unit :=
  owner ← ensure_signed origin;
  ensure (bool_decide (owner = Proof_.signer proof)) WatchtowerError.SenderIsNotSigner;;
  ensure_tx_alive block_number;;
  ensure (verify_user_signature proof
            (encode_signed_submit_vote_params (Proof_.relayer proof) proposal_id in_favor block_number))
    WatchtowerError.UnauthorizedSignedTransaction;;
  process_vote owner proposal_id in_favor;;
  mret ().
Definition offchain_signature_is_valid (data : Payload.t) (signer : SignerId)
    (signature : NodeSignature) : bool := node_verify signer data signature.
Definition validate_unsigned_vote proposal_id (watchtower : AccountId) (signature : NodeSignature)
    (in_favor : bool) : Dispatch unit :=
  active ← wt_get WatchtowerStorage.ActiveInternalProposal;
  ensure (bool_decide (active = Some proposal_id)) WatchtowerError.InvalidProposalForUnsignedVote;;
  voter_signing_key ← gets (get_node_signing_key watchtower);
  voter_signing_key ← ok_or voter_signing_key WatchtowerError.VoterSigningKeyNotFound;
  ensure (offchain_signature_is_valid
            (Payload.WATCHTOWER_UNSIGNED_VOTE_CONTEXT proposal_id in_favor watchtower)
            voter_signing_key signature) WatchtowerError.UnauthorizedUnsignedTransaction.
Definition unsigned_vote (origin : Origin) proposal_id (in_favor : bool) (watchtower : AccountId)
    (signature : NodeSignature) : Dispatch unit :=
  ensure_none origin;;
  validate_unsigned_vote proposal_id watchtower signature in_favor;;
  process_vote watchtower proposal_id in_favor;;
  mret ().
Definition finalise_proposal (origin : Origin) proposal_id : Dispatch unit :=
  ensure_signed origin;;
  proposal ← gets (proposals proposal_id);
  proposal ← ok_or proposal WatchtowerError.ProposalNotFound;
  status ← gets (proposal_status proposal_id);
  ensure (bool_decide (status = ProposalStatusEnum.Active)) WatchtowerError.ProposalNotActive;;
  current_block ← gets Runtime.block_number;
  ensure (proposal_expired current_block proposal) WatchtowerError.ProposalVotingPeriodNotEnded;;
  finalise_expired_voting proposal_id proposal.
Definition set_watchtower_admin_config (origin : Origin) (config : WatchtowerAdminConfig.t) :
    Dispatch unit :=
  ensure_root origin;;
  match config with
  | WatchtowerAdminConfig.MinVotingPeriod period =>
      wt_modify (WatchtowerStorage.upd_MinVotingPeriod (λ _, period));;
      wt_event (WatchtowerEvent.MinVotingPeriodSet period)
  | WatchtowerAdminConfig.AdminAccount admin_account =>
      wt_modify (WatchtowerStorage.upd_AdminAccount (λ _, admin_account));;
      wt_event (WatchtowerEvent.AdminAccountSet admin_account)
  end.

Inductive WatchtowerCall : Type :=
  | Call_submit_external_proposal (proposal : ProposalRequest.t)
  | Call_signed_submit_external_proposal (proof : Proof_.t UserSignature)
      (proposal : ProposalRequest.t) (block_number : Z)
  | Call_vote (proposal_id : ProposalId) (in_favor : bool)
  | Call_signed_vote (proof : Proof_.t UserSignature) (proposal_id : ProposalId) (in_favor : bool)
      (block_number : Z)
  | Call_unsigned_vote (proposal_id : ProposalId) (in_favor : bool) (watchtower : AccountId)
      (signature : NodeSignature)
  | Call_finalise_proposal (proposal_id : ProposalId)
  | Call_set_watchtower_admin_config (config : WatchtowerAdminConfig.t).
Definition watchtower_call (origin : Origin) (call : WatchtowerCall) : Dispatch unit :=
  match call with
  | Call_submit_external_proposal proposal => submit_external_proposal origin proposal
  | Call_signed_submit_external_proposal proof proposal block_number =>
      signed_submit_external_proposal origin proof proposal block_number
  | Call_vote proposal_id in_favor => vote origin proposal_id in_favor
  | Call_signed_vote proof proposal_id in_favor block_number =>
      signed_vote origin proof proposal_id in_favor block_number
  | Call_unsigned_vote proposal_id in_favor watchtower signature =>
      unsigned_vote origin proposal_id in_favor watchtower signature
  | Call_finalise_proposal proposal_id => finalise_proposal origin proposal_id
  | Call_set_watchtower_admin_config config => set_watchtower_admin_config origin config
  end.
Definition validate_unsigned_watchtower (call : WatchtowerCall) s : option InvalidTransaction :=
  match call with
  | Call_unsigned_vote proposal_id in_favor watchtower signature =>
      match (validate_unsigned_vote proposal_id watchtower signature in_favor s).1 with
      | Ok _ => None
      | _ => Some (Custom UNSIGNED_VOTE_NOT_VALID)
      end
  | _ => Some InvalidCall
  end.
Definition watchtower_encoded_call_param (call : WatchtowerCall) :
    option (Proof_.t UserSignature * UserPayload.t) :=
  match call with
  | Call_signed_submit_external_proposal proof proposal block_number =>
      Some (proof, encode_signed_submit_external_proposal_params (Proof_.relayer proof) proposal
                     block_number)
  | Call_signed_vote proof proposal_id in_favor block_number =>
      Some (proof, encode_signed_submit_vote_params (Proof_.relayer proof) proposal_id in_favor
                     block_number)
  | _ => None
  end.
Definition watchtower_call_signature_is_valid (call : WatchtowerCall) : bool :=
  match watchtower_encoded_call_param call with
  | Some (proof, signed_payload) => verify_user_signature proof signed_payload
  | None => false
  end.

(** What the pallet offers others. *)
Definition watchtower_interface : WatchtowerInterface := {| submit_proposal := add_proposal |}.
Definition get_proposer proposal_id s : option AccountId :=
  proposal ← proposals proposal_id s;
  Proposal.proposer proposal.
End Watchtower.
