(* ===== verification/WatchtowerProps.v ===== *)
(** * Watchtowers: the queue, the votes and the results

    The ring buffer of [queue.rs] is a bounded first-in-first-out queue.  The invariant of
    the pallet ties together the proposal that is voted on, the queue, the status of
    every proposal, the votes and the events: a voter counts once, and a proposal is
    decided once. *)

From S2P Require Import Prelude Frames Slices Bytes EventTypes EventParsing EventDiscovery EthTypes.
From S2P Require Import RuntimeErrors NodeTypes SummaryTypes BridgeTypes Avn BridgeExamples.
From S2P Require Import EthBridge BridgeEvents TokenManager NodeStake NodeRewards NodeManager Anchor NodeExamples Watchtower.

(** ** The ring buffer *)

(** The slots from [head] to [tail], modulo the capacity, hold [l] in order, and nothing
    else is stored. *)
Definition ring (c : Z) (q : gmap (QueueId * Z) ProposalId) (head tail : Z) (l : list ProposalId) : Prop :=
  0 <= head ∧ tail = head + Z.of_nat (length l) ∧ Z.of_nat (length l) <= c ∧
  ∀ k j id, q !! (k, j) = Some id ↔
    k = 0 ∧ ∃ i, l !! i = Some id ∧ j = (head + Z.of_nat i) mod c.

Lemma mod_slots h i j c : 0 <= i < c → 0 <= j < c → (h + i) mod c = (h + j) mod c → i = j.
Proof.
  intros Hi Hj He. assert (c ≠ 0) by lia.
  pose proof (Z_div_mod_eq_full (h + i) c). pose proof (Z_div_mod_eq_full (h + j) c).
  assert (i - j = c * ((h + i) / c - (h + j) / c)) as Hd by lia.
  set (k := (h + i) / c - (h + j) / c) in Hd. clearbody k. assert (k = 0) by nia. nia.
Qed.
Lemma ring_slot c q h t l i id :
  ring c q h t l → l !! i = Some id → q !! (0, (h + Z.of_nat i) mod c) = Some id.
Proof. intros (_&_&_&Hq) Hi. apply Hq. eauto. Qed.
Lemma ring_free c q h t l :
  ring c q h t l → Z.of_nat (length l) < c → q !! (0, t mod c) = None.
Proof.
  intros (Hh&->&_&Hq) Hl. destruct (q !! _) as [id|] eqn:Hs; [|done].
  apply Hq in Hs as (_&i&Hi&He). apply lookup_lt_Some in Hi.
  apply mod_slots in He; lia.
Qed.
Lemma ring_push c q h t l id :
  ring c q h t l → Z.of_nat (length l) < c → ring c (<[(0, t mod c) := id]> q) h (t + 1) (l ++ [id]).
Proof.
  intros Hr Hl. pose proof (ring_free _ _ _ _ _ Hr Hl) as Hf. destruct Hr as (Hh&->&_&Hq).
  unfold ring. rewrite length_app. cbn [length]. split_and!; [lia..|]. intros k j x. split.
  - intros Hs. destruct (decide ((k, j) = (0, (h + Z.of_nat (length l)) mod c))) as [He|Hne].
    + simplify_eq. rewrite lookup_insert_eq in Hs. simplify_eq. split; [done|]. exists (length l).
      by rewrite lookup_app_r, Nat.sub_diag.
    + rewrite lookup_insert_ne in Hs by done. apply Hq in Hs as (->&i&Hi&->). split; [done|].
      exists i. split; [by apply lookup_app_l_Some|done].
  - intros (->&i&Hi&->). apply lookup_app_Some in Hi as [Hi|[Hle Hi]].
    + rewrite lookup_insert_ne; [apply Hq; eauto|]. intros [= He]. apply lookup_lt_Some in Hi.
      apply mod_slots in He; lia.
    + assert (i = length l) as -> by (apply lookup_lt_Some in Hi; cbn in Hi; lia).
      rewrite Nat.sub_diag in Hi. cbn in Hi. simplify_eq. apply lookup_insert_eq.
Qed.
Lemma ring_pop c q h t id l :
  ring c q h t (id :: l) → q !! (0, h mod c) = Some id ∧ ring c (delete (0, h mod c) q) (h + 1) t l.
Proof.
  intros Hr. pose proof (ring_slot _ _ _ _ _ 0 id Hr eq_refl) as H0. cbn [Z.of_nat] in H0.
  rewrite Z.add_0_r in H0. split; [done|].
  destruct Hr as (Hh&->&Hl&Hq). cbn [length] in *. unfold ring. split_and!; [lia..|]. intros k j x. split.
  - rewrite lookup_delete_Some. intros [Hne Hs]. apply Hq in Hs as (->&i&Hi&->). split; [done|].
    destruct i as [|i]; [by replace (h + Z.of_nat 0) with h in Hne by lia|].
    exists i. split; [done|]. f_equal. lia.
  - intros (->&i&Hi&->). rewrite lookup_delete_Some. split.
    + intros [= He]. apply lookup_lt_Some in Hi.
      assert (0 = Z.of_nat (S i)); [|lia].
      apply (mod_slots h _ _ c); [lia..|]. rewrite <- Z.add_assoc in He. rewrite Z.add_0_r, He. f_equal. lia.
    + apply Hq. split; [done|]. exists (S i). split; [done|]. f_equal. lia.
Qed.
Lemma ring_empty c : 0 <= c → ring c ∅ 0 0 [].
Proof.
  intros Hc. unfold ring. cbn. split_and!; [lia..|]. intros k j x. rewrite lookup_empty.
  split; [done|]. by intros (_&i&?&_).
Qed.

(** ** The queue *)

(** The capacity is a [u32], and no two of the byte strings that identify proposals
    collide under the hash. *)
Class WatchtowerLaws `{!WatchtowerConfig} : Prop := {
  cap_range : 0 <= cap <= u32_max;
  blake2_256_inj a b : length a = 40%nat → length b = 40%nat → blake2_256 a = blake2_256 b → a = b;
}.
Definition is_ref (external_ref : H256) : Prop := (external_ref < 256 ^ 32)%N.
Lemma generate_id_ref `{!WatchtowerConfig} `{!WatchtowerLaws} p q :
  is_ref (Proposal.external_ref p) → is_ref (Proposal.external_ref q) →
  generate_id p = generate_id q → Proposal.external_ref p = Proposal.external_ref q.
Proof.
  unfold generate_id, is_ref. intros Hp Hq He. apply blake2_256_inj in He.
  - apply app_inj_1 in He as [He _]; [|by rewrite !be_bytes_length].
    rewrite <- (from_be_bytes_be 32 (Proposal.external_ref p)), He by done. by rewrite from_be_bytes_be.
  - by rewrite !length_app, be_bytes_length, !le_bytes_length.
  - by rewrite !length_app, be_bytes_length, !le_bytes_length.
Qed.

Section Queue.
Context `{BridgeConfig} `{!NodeConfig} `{!WatchtowerConfig} `{!WatchtowerLaws}.
Implicit Types (s : Runtime.t) (W : WatchtowerStorage.t) (l : list ProposalId).

Definition queued W l : Prop :=
  ring cap (WatchtowerStorage.InternalProposalQueue W) (WatchtowerStorage.Head W)
    (WatchtowerStorage.Tail W) l.
Lemma queued_len s l : queued (Runtime.watchtower s) l → len s = Z.of_nat (length l).
Proof. intros (Hh&Ht&_). unfold len, saturating_sub. lia. Qed.
Lemma slot_of_position i : cap ≠ 0 → slot_of i = Some (0, i mod cap).
Proof.
  intros Hc. unfold slot_of. rewrite bool_decide_false by done. repeat f_equal.
  pose proof cap_range. apply wrap_small. pose proof (Z.mod_pos_bound i cap). lia.
Qed.

Definition pushed (id : ProposalId) W : WatchtowerStorage.t :=
  WatchtowerStorage.upd_Tail (λ t, t + 1)
    (WatchtowerStorage.upd_InternalProposalQueue (insert (0, WatchtowerStorage.Tail W mod cap) id) W).
Definition popped W : WatchtowerStorage.t :=
  WatchtowerStorage.upd_Head (λ h, h + 1)
    (WatchtowerStorage.upd_InternalProposalQueue (delete (0, WatchtowerStorage.Head W mod cap)) W).
Lemma pushed_queued id W l :
  queued W l → Z.of_nat (length l) < cap → queued (pushed id W) (l ++ [id]).
Proof. intros Hq Hl. by apply ring_push. Qed.
Lemma popped_queued id W l : queued W (id :: l) → queued (popped W) l.
Proof. intros Hq. by apply ring_pop in Hq as [_ Hq]. Qed.

Lemma enqueue_spec id s l :
  queued (Runtime.watchtower s) l → WatchtowerStorage.Tail (Runtime.watchtower s) < u64_max →
  enqueue id s =
    if bool_decide (Z.of_nat (length l) < cap) then (Ok (), Runtime.upd_watchtower (pushed id) s)
    else (Err (Watchtower_ WatchtowerError.InnerProposalQueueFull), s).
Proof.
  intros Hq Ht. unfold enqueue, wt_get, wt_modify. unfold mbind, M_bind, gets, is_full.
  rewrite (queued_len _ _ Hq). destruct (decide (Z.of_nat (length l) < cap)) as [Hc|Hc].
  - rewrite bool_decide_false, bool_decide_true by lia. cbn -[slot_of].
    rewrite slot_of_position by lia. cbn. rewrite (ring_free _ _ _ _ _ Hq) by done.
    rewrite bool_decide_true by done. cbn. destruct Hq as (Hh&Hl&_).
    rewrite wrap_small by (unfold u64_max in *; lia). by destruct s as [????????????????], watchtower.
  - by rewrite bool_decide_true, bool_decide_false by lia.
Qed.
Lemma dequeue_spec s l :
  queued (Runtime.watchtower s) l → WatchtowerStorage.Tail (Runtime.watchtower s) <= u64_max →
  dequeue s =
    match l with
    | [] => (Err (Watchtower_ WatchtowerError.QueueEmpty), s)
    | id :: _ => (Ok id, Runtime.upd_watchtower popped s)
    end.
Proof.
  intros Hq Ht. unfold dequeue, wt_get, wt_modify. unfold mbind, M_bind, gets, is_empty.
  rewrite (queued_len _ _ Hq). destruct l as [|id l]; [done|]. rewrite bool_decide_false by done.
  pose proof (ring_pop _ _ _ _ _ _ Hq) as [Hid _]. destruct Hq as (Hh&Hl&Hc&_). cbn [length] in *.
  cbn -[slot_of]. rewrite slot_of_position by lia. cbn. rewrite Hid. cbn.
  rewrite wrap_small by lia. by destruct s as [????????????????], watchtower.
Qed.
Lemma peek_front_spec s l :
  queued (Runtime.watchtower s) l →
  peek_front s =
    match l with
    | [] => (Ok None, s)
    | id :: _ =>
        match proposals id s with
        | Some p => (Ok (Some (id, p)), s)
        | None => (Err (Watchtower_ WatchtowerError.QueueCorruptState), s)
        end
    end.
Proof.
  intros Hq. unfold peek_front, wt_get. unfold mbind, M_bind, gets, is_empty.
  rewrite (queued_len _ _ Hq). destruct l as [|id l]; [done|]. rewrite bool_decide_false by done.
  pose proof (ring_pop _ _ _ _ _ _ Hq) as [Hid _]. destruct Hq as (Hh&Hl&Hc&_). cbn [length] in *.
  cbn -[slot_of proposals]. rewrite slot_of_position by lia. cbn -[proposals]. rewrite Hid. cbn -[proposals].
  by destruct (proposals id s).
Qed.

(** C28: the ring buffer is a bounded first-in-first-out queue.  Seen as the list of the
    proposals it holds, [enqueue] adds one at the end, and fails without a write exactly
    when the capacity is reached; [dequeue] removes the first, and fails exactly on the empty
    list; [peek_front] returns the first with its proposal. *)
Theorem queue_refines_list s l id :
  queued (Runtime.watchtower s) l → WatchtowerStorage.Tail (Runtime.watchtower s) < u64_max →
  (Z.of_nat (length l) < cap →
    ∃ s', enqueue id s = (Ok (), s') ∧ queued (Runtime.watchtower s') (l ++ [id])) ∧
  (cap <= Z.of_nat (length l) →
    enqueue id s = (Err (Watchtower_ WatchtowerError.InnerProposalQueueFull), s)) ∧
  match l with
  | [] => dequeue s = (Err (Watchtower_ WatchtowerError.QueueEmpty), s) ∧ peek_front s = (Ok None, s)
  | first :: rest =>
      (∃ s', dequeue s = (Ok first, s') ∧ queued (Runtime.watchtower s') rest) ∧
      ∀ p, proposals first s = Some p → peek_front s = (Ok (Some (first, p)), s)
  end.
Proof.
  intros Hq Ht. rewrite (enqueue_spec id s l), (dequeue_spec s l), (peek_front_spec s l) by (done || lia).
  split_and!.
  - intros Hl. rewrite bool_decide_true by done. eexists. split; [done|]. by apply pushed_queued.
  - intros Hl. by rewrite bool_decide_false by lia.
  - destruct l as [|first rest]; [done|]. split.
    + eexists. split; [done|]. by apply (popped_queued first).
    + by intros p ->.
Qed.
End Queue.

(** ** Votes and results as the events tell them *)

Section Events.
Context `{BridgeConfig}.
Implicit Types (E : list WatchtowerEvent.t) (id : ProposalId).

Definition wt_events (s : Runtime.t) : list WatchtowerEvent.t :=
  omap (λ e, match e with WatchtowerEvent_ e => Some e | _ => None end) (Runtime.events s).
(** The votes cast on a proposal: who, for or against, and the weight. *)
Definition cast E id : list (AccountId * bool * Z) :=
  omap (λ e, match e with
             | WatchtowerEvent.VoteSubmitted voter proposal_id in_favor vote_weight =>
                 if bool_decide (proposal_id = id) then Some (voter, in_favor, vote_weight) else None
             | _ => None
             end) E.
Definition tally E id (in_favor : bool) : Z :=
  Z.min u32_max (zsum (λ x, if bool_decide (x.1.2 = in_favor) then x.2 else 0) (cast E id)).
(** The results announced for a proposal. *)
Definition ended E id : list ProposalStatusEnum.t :=
  omap (λ e, match e with
             | WatchtowerEvent.VotingEnded proposal_id _ result =>
                 if bool_decide (proposal_id = id) then Some result else None
             | _ => None
             end) E.
Lemma cast_app E E' id : cast (E ++ E') id = cast E id ++ cast E' id.
Proof. apply omap_app. Qed.
Lemma ended_app E E' id : ended (E ++ E') id = ended E id ++ ended E' id.
Proof. apply omap_app. Qed.
Lemma tally_quiet E E' id b : cast E' id = [] → tally (E ++ E') id b = tally E id b.
Proof. intros He. unfold tally. by rewrite cast_app, He, app_nil_r. Qed.
End Events.

Definition finished (st : ProposalStatusEnum.t) : bool :=
  match st with
  | ProposalStatusEnum.Resolved _ | ProposalStatusEnum.Expired => true
  | _ => false
  end.

(** An entry that was inserted, or another one. *)
Ltac at_key j k :=
  destruct (decide (j = k)) as [->|?]; [rewrite ?lookup_insert_eq|rewrite ?lookup_insert_ne by done].

Section Invariant.
Context `{BridgeConfig} `{!NodeConfig} `{!WatchtowerConfig} `{!WatchtowerLaws}.
Implicit Types (s : Runtime.t) (W : WatchtowerStorage.t) (l : list ProposalId) (E : list WatchtowerEvent.t).
Implicit Types (id : ProposalId) (p : Proposal.t) (st : ProposalStatusEnum.t).

(** A proposal is finished and waits to be removed, or waits in the queue, or is voted
    on; a pallet's proposal only when it is the active one. *)
Definition placed W l id p st : Prop :=
  if decide (id ∈ WatchtowerStorage.ProposalsToRemove W) then finished st = true
  else if decide (id ∈ l) then
    st = ProposalStatusEnum.Queued ∧ ProposalSource.is_internal (Proposal.source p) = true
  else
    st = ProposalStatusEnum.Active ∧ is_Some (Proposal.end_at p) ∧
    (ProposalSource.is_internal (Proposal.source p) = true →
     WatchtowerStorage.ActiveInternalProposal W = Some id).
Record wt_base W E l : Prop := {
  wb_queue : queued W l;
  wb_tail : WatchtowerStorage.Tail W <= u64_max;
  wb_nodup : NoDup l;
  wb_placed id p : WatchtowerStorage.Proposals W !! id = Some p →
    ∃ st, WatchtowerStorage.ProposalStatus W !! id = Some st ∧ placed W l id p st;
  wb_waiting id : id ∈ l →
    (id ∉ WatchtowerStorage.ProposalsToRemove W) ∧ WatchtowerStorage.Proposals W !! id ≠ None;
  wb_active id : WatchtowerStorage.ActiveInternalProposal W = Some id →
    (id ∉ l) ∧ (id ∉ WatchtowerStorage.ProposalsToRemove W) ∧
    ∃ p, WatchtowerStorage.Proposals W !! id = Some p ∧ ProposalSource.is_internal (Proposal.source p) = true;
  wb_remove id : id ∈ WatchtowerStorage.ProposalsToRemove W → WatchtowerStorage.Proposals W !! id ≠ None;
  wb_gone id st : WatchtowerStorage.Proposals W !! id = None →
    WatchtowerStorage.ProposalStatus W !! id = Some st → finished st = true;
  wb_ref id p : WatchtowerStorage.Proposals W !! id = Some p →
    generate_id p = id ∧ WatchtowerStorage.ExternalRef W !! Proposal.external_ref p = Some id;
  wb_range r : WatchtowerStorage.ExternalRef W !! r ≠ None → is_ref r;
  wb_known id : WatchtowerStorage.ProposalStatus W !! id ≠ None →
    ∃ p, generate_id p = id ∧ WatchtowerStorage.ExternalRef W !! Proposal.external_ref p ≠ None;
  wb_votes id p : WatchtowerStorage.Proposals W !! id = Some p →
    unwrap_or Vote.default (WatchtowerStorage.Votes W !! id) = Vote.mk (tally E id true) (tally E id false);
  wb_voters id p who b : WatchtowerStorage.Proposals W !! id = Some p →
    id ∉ WatchtowerStorage.ProposalsToRemove W →
    WatchtowerStorage.Voters W !! (id, who) = Some b ↔ (who, b) ∈ (cast E id).*1;
  wb_leftover id who : WatchtowerStorage.Voters W !! (id, who) ≠ None → WatchtowerStorage.Proposals W !! id ≠ None;
  wb_once id : NoDup (cast E id).*1.*1;
  wb_fresh id : WatchtowerStorage.ProposalStatus W !! id = None →
    cast E id = [] ∧ WatchtowerStorage.Votes W !! id = None;
  wb_ended id : ended E id =
    match WatchtowerStorage.ProposalStatus W !! id with
    | Some st => if finished st then [st] else []
    | None => []
    end;
}.
(** Nothing waits when no proposal of a pallet is voted on. *)
Definition wt_fine W E : Prop :=
  ∃ l, wt_base W E l ∧ (WatchtowerStorage.ActiveInternalProposal W = None → l = []).

Lemma wb_active_placed W E l id p :
  wt_base W E l → WatchtowerStorage.Proposals W !! id = Some p →
  unwrap_or ProposalStatusEnum.Unknown (WatchtowerStorage.ProposalStatus W !! id) = ProposalStatusEnum.Active →
  WatchtowerStorage.ProposalStatus W !! id = Some ProposalStatusEnum.Active ∧
  (id ∉ WatchtowerStorage.ProposalsToRemove W) ∧ (id ∉ l) ∧ is_Some (Proposal.end_at p) ∧
  (ProposalSource.is_internal (Proposal.source p) = true →
   WatchtowerStorage.ActiveInternalProposal W = Some id).
Proof.
  intros HB Hp Hst. destruct (wb_placed _ _ _ HB _ _ Hp) as (st&Hs&Hpl). rewrite Hs in *. cbn in Hst. subst st.
  unfold placed in Hpl. repeat case_decide; [done|naive_solver|naive_solver].
Qed.

(** ** Finishing a vote *)

Definition finish id p st W : WatchtowerStorage.t :=
  WatchtowerStorage.upd_ProposalsToRemove (λ x, {[ id ]} ∪ x)
    (WatchtowerStorage.upd_ActiveInternalProposal
       (λ active, if ProposalSource.is_internal (Proposal.source p) then None else active)
       (WatchtowerStorage.upd_ProposalStatus (insert id st) W)).
Lemma to_remove_other id j (X : gset ProposalId) : j ≠ id → j ∈ {[ id ]} ∪ X ↔ j ∈ X.
Proof. set_solver. Qed.
Lemma finish_ok W E l id p st r :
  wt_base W E l → WatchtowerStorage.Proposals W !! id = Some p →
  unwrap_or ProposalStatusEnum.Unknown (WatchtowerStorage.ProposalStatus W !! id) = ProposalStatusEnum.Active →
  finished st = true → wt_base (finish id p st W) (E ++ [WatchtowerEvent.VotingEnded id r st]) l.
Proof.
  intros HB Hp Hst Hf. destruct (wb_active_placed _ _ _ _ _ HB Hp Hst) as (Hs&Hr&Hl&_&Hin).
  assert (∀ j, cast (E ++ [WatchtowerEvent.VotingEnded id r st]) j = cast E j) as Hc.
  { intros j. by rewrite cast_app, app_nil_r. }
  constructor; cbn.
  - apply HB.
  - apply HB.
  - apply HB.
  - intros j q Hq. destruct (decide (j = id)) as [->|Hne].
    + exists st. rewrite lookup_insert_eq. split; [done|]. unfold placed. cbn. by rewrite decide_True by set_solver.
    + rewrite lookup_insert_ne by done. destruct (wb_placed _ _ _ HB _ _ Hq) as (st'&Hst'&Hpl).
      exists st'. split; [done|]. revert Hpl. unfold placed. cbn.
      rewrite (decide_ext _ _ _ _ (to_remove_other id j _ Hne)).
      destruct (decide _); [done|]. destruct (decide _); [done|]. intros (->&?&Ha). split_and!; [done|done|].
      intros Hi. specialize (Ha Hi). destruct (ProposalSource.is_internal (Proposal.source p)); [|done].
      rewrite Hin in Ha by done. congruence.
  - intros j Hj. destruct (wb_waiting _ _ _ HB _ Hj). split; [|done]. rewrite to_remove_other; [done|congruence].
  - intros j Hj. destruct (ProposalSource.is_internal (Proposal.source p)) eqn:Hi; [done|].
    destruct (wb_active _ _ _ HB _ Hj) as (?&?&q&Hq&?). split_and!; [done| |by eauto].
    rewrite to_remove_other; [done|]. congruence.
  - intros j [->%elem_of_singleton|Hj]%elem_of_union; [by rewrite Hp|]. by apply (wb_remove _ _ _ HB).
  - intros j st' Hj. rewrite lookup_insert_ne by congruence. by apply (wb_gone _ _ _ HB).
  - apply HB.
  - apply HB.
  - intros j Hj. apply (wb_known _ _ _ HB). destruct (decide (j = id)) as [->|Hne]; [by rewrite Hs|].
    by rewrite lookup_insert_ne in Hj.
  - intros j q Hq. unfold tally. rewrite !Hc. by apply (wb_votes _ _ _ HB _ q).
  - intros j q who b Hq Hj. rewrite Hc. apply (wb_voters _ _ _ HB _ q); [done|]. set_solver.
  - apply HB.
  - intros j. rewrite Hc. apply HB.
  - intros j Hj. rewrite Hc. apply (wb_fresh _ _ _ HB). destruct (decide (j = id)) as [->|Hne].
    + by rewrite lookup_insert_eq in Hj.
    + by rewrite lookup_insert_ne in Hj.
  - intros j. rewrite ended_app, (wb_ended _ _ _ HB). cbn. destruct (decide (j = id)) as [->|Hne].
    + rewrite Hs, lookup_insert_eq, bool_decide_true by done. cbn. by rewrite Hf.
    + by rewrite lookup_insert_ne, bool_decide_false, app_nil_r by done.
Qed.

(** ** Activating the next proposal *)

Definition activate id p W : WatchtowerStorage.t :=
  WatchtowerStorage.upd_Proposals (insert id p)
    (WatchtowerStorage.upd_ProposalStatus (insert id ProposalStatusEnum.Active)
       (WatchtowerStorage.upd_ActiveInternalProposal (λ _, Some id) W)).
Lemma activate_ok W E l id p end_at :
  wt_base W E (id :: l) → WatchtowerStorage.ActiveInternalProposal W = None →
  WatchtowerStorage.Proposals W !! id = Some p →
  wt_base (activate id (Proposal.upd_end_at (λ _, Some end_at) p) (popped W)) E l.
Proof.
  intros HB Ha Hp. pose proof (wb_nodup _ _ _ HB) as [Hid Hn]%NoDup_cons.
  destruct (wb_waiting _ _ _ HB id ltac:(left)) as [Hr _].
  destruct (wb_placed _ _ _ HB _ _ Hp) as (st&Hst&Hpl). unfold placed in Hpl.
  rewrite decide_False, decide_True in Hpl by (done || by left). destruct Hpl as [-> Hi].
  destruct (wb_ref _ _ _ HB _ _ Hp) as [Hg Href].
  constructor; cbn.
  - by apply (popped_queued id), HB.
  - apply HB.
  - done.
  - intros j q. destruct (decide (j = id)) as [->|Hne].
    + rewrite !lookup_insert_eq. intros [= <-]. eexists. split; [done|]. unfold placed. cbn.
      rewrite !decide_False by done. eauto.
    + rewrite !lookup_insert_ne by done. intros Hq. destruct (wb_placed _ _ _ HB _ _ Hq) as (st&Hj&Hpl).
      exists st. split; [done|]. revert Hpl. unfold placed. cbn.
      rewrite (decide_ext (j ∈ id :: l) (j ∈ l)) by (rewrite elem_of_cons; naive_solver).
      destruct (decide _); [done|]. destruct (decide _); [done|]. intros (?&?&Hc). split_and!; [done|done|].
      intros Hi'. specialize (Hc Hi'). congruence.
  - intros j Hj. destruct (wb_waiting _ _ _ HB j ltac:(by right)). split; [done|].
    by at_key j id.
  - intros j [= <-]. split_and!; [done|done|]. rewrite lookup_insert_eq. by eexists.
  - intros j Hj. at_key j id; [done|]. by apply (wb_remove _ _ _ HB).
  - intros j st. at_key j id; [done|]. apply HB.
  - intros j q. at_key j id; [by intros [= <-]|]. apply HB.
  - apply HB.
  - intros j. at_key j id; [|by apply HB]. intros _. exists p. by rewrite Href.
  - intros j q. at_key j id; [|by apply HB]. intros _. by apply (wb_votes _ _ _ HB _ p).
  - intros j q who b. at_key j id; [|by apply HB]. intros _. by apply (wb_voters _ _ _ HB _ p).
  - intros j who Hv. at_key j id; [done|]. by apply (wb_leftover _ _ _ HB _ who).
  - apply HB.
  - intros j. at_key j id; [done|]. apply HB.
  - intros j. rewrite (wb_ended _ _ _ HB). at_key j id; [by rewrite Hst|done].
Qed.

(** ** Submitting a proposal *)

Definition submit id p st W : WatchtowerStorage.t :=
  WatchtowerStorage.upd_ExternalRef (insert (Proposal.external_ref p) id)
    (WatchtowerStorage.upd_Proposals (insert id p)
       (WatchtowerStorage.upd_ProposalStatus (insert id st) W)).
(** What is new is not known, under its id or under its reference. *)
Lemma wb_new W E l p :
  wt_base W E l → is_ref (Proposal.external_ref p) → WatchtowerStorage.ExternalRef W !! Proposal.external_ref p = None →
  WatchtowerStorage.ProposalStatus W !! generate_id p = None.
Proof.
  intros HB Hrange Hr. destruct (WatchtowerStorage.ProposalStatus W !! generate_id p) eqn:Hs; [|done].
  destruct (wb_known _ _ _ HB (generate_id p)) as (q&Hg&Hq); [by rewrite Hs|].
  apply generate_id_ref in Hg; [|by apply (wb_range _ _ _ HB)|done]. by rewrite Hg in Hq.
Qed.
(** [W'] is [W] with the place of the new proposal taken. *)
Lemma submit_ok W W' E l l' p st :
  let id := generate_id p in
  wt_base W E l → is_ref (Proposal.external_ref p) →
  WatchtowerStorage.ExternalRef W !! Proposal.external_ref p = None →
  WatchtowerStorage.Proposals W !! id = None →
  WatchtowerStorage.ExternalRef W' = WatchtowerStorage.ExternalRef W →
  WatchtowerStorage.Proposals W' = WatchtowerStorage.Proposals W →
  WatchtowerStorage.ProposalStatus W' = WatchtowerStorage.ProposalStatus W →
  WatchtowerStorage.Votes W' = WatchtowerStorage.Votes W →
  WatchtowerStorage.Voters W' = WatchtowerStorage.Voters W →
  WatchtowerStorage.ProposalsToRemove W' = WatchtowerStorage.ProposalsToRemove W →
  queued W' l' → WatchtowerStorage.Tail W' <= u64_max → NoDup l' →
  (∀ j, j ≠ id → j ∈ l' ↔ j ∈ l) →
  (∀ j, j ≠ id →
    WatchtowerStorage.ActiveInternalProposal W' = Some j ↔ WatchtowerStorage.ActiveInternalProposal W = Some j) →
  (WatchtowerStorage.ActiveInternalProposal W' = Some id →
    (id ∉ l') ∧ ProposalSource.is_internal (Proposal.source p) = true) →
  finished st = false →
  (id ∉ WatchtowerStorage.ProposalsToRemove W → placed W' l' id p st) →
  wt_base (submit id p st W') E l'.
Proof.
  intros id HB Hrange Hr Hp He1 He2 He3 He4 He5 He6 Hq Ht Hn Hl Ha Hac Hf Hpl.
  pose proof (wb_new _ _ _ _ HB Hrange Hr) as Hs. fold id in Hs.
  assert (id ∉ WatchtowerStorage.ProposalsToRemove W) as Hnr by (intros Hin%(wb_remove _ _ _ HB); done).
  constructor; cbn; rewrite ?He1, ?He2, ?He3, ?He4, ?He5, ?He6; try done.
  - intros j q. destruct (decide (j = id)) as [->|Hne].
    + rewrite !lookup_insert_eq. intros [= <-]. eexists. split; [done|]. by apply Hpl.
    + rewrite !lookup_insert_ne by done. intros Hj. destruct (wb_placed _ _ _ HB _ _ Hj) as (st'&Hst'&Hpj).
      exists st'. split; [done|]. revert Hpj. unfold placed. cbn. rewrite He6.
      rewrite (decide_ext (j ∈ l') (j ∈ l)) by auto.
      destruct (decide _); [done|]. destruct (decide _); [done|]. intros (?&?&Hc). split_and!; [done|done|].
      intros Hi. by apply Ha; auto.
  - intros j Hj. at_key j id; [done|]. by apply (wb_waiting _ _ _ HB), Hl.
  - intros j Hj. destruct (decide (j = id)) as [->|Hne].
    + rewrite lookup_insert_eq. destruct (Hac Hj). eauto.
    + rewrite lookup_insert_ne, Hl by done. by apply (wb_active _ _ _ HB), Ha.
  - intros j Hj. at_key j id; [done|]. by apply (wb_remove _ _ _ HB).
  - intros j st'. at_key j id; [done|]. apply HB.
  - intros j q. destruct (decide (j = id)) as [->|Hne].
    + rewrite lookup_insert_eq. intros [= <-]. by rewrite lookup_insert_eq.
    + rewrite lookup_insert_ne by done. intros Hj. destruct (wb_ref _ _ _ HB _ _ Hj) as [? Hj'].
      split; [done|]. rewrite lookup_insert_ne; [done|]. congruence.
  - intros r. destruct (decide (r = Proposal.external_ref p)) as [->|Hne]; [done|].
    rewrite lookup_insert_ne by done. apply HB.
  - intros j. destruct (decide (j = id)) as [->|Hne].
    + intros _. exists p. by rewrite lookup_insert_eq.
    + rewrite lookup_insert_ne by done. intros Hj. destruct (wb_known _ _ _ HB _ Hj) as (q&?&Hq').
      exists q. split; [done|]. rewrite lookup_insert_ne; [done|]. congruence.
  - intros j q. destruct (decide (j = id)) as [->|Hne].
    + intros _. destruct (wb_fresh _ _ _ HB _ Hs) as [Hc ->]. unfold tally. by rewrite Hc.
    + rewrite lookup_insert_ne by done. apply HB.
  - intros j q who b. destruct (decide (j = id)) as [->|Hne].
    + intros _ _. destruct (wb_fresh _ _ _ HB _ Hs) as [-> _]. split; [|by intros ?%not_elem_of_nil].
      intros Hv. destruct (wb_leftover _ _ _ HB id who); [by rewrite Hv|done].
    + rewrite lookup_insert_ne by done. apply HB.
  - intros j who Hv. at_key j id; [done|]. by apply (wb_leftover _ _ _ HB _ who).
  - apply HB.
  - intros j. at_key j id; [done|]. apply HB.
  - intros j. rewrite (wb_ended _ _ _ HB). destruct (decide (j = id)) as [->|Hne].
    + rewrite Hs, lookup_insert_eq. by rewrite Hf.
    + by rewrite lookup_insert_ne.
Qed.

(** ** Counting a vote *)

Definition counted id (who : AccountId) (b : bool) (w : Z) W : WatchtowerStorage.t :=
  WatchtowerStorage.upd_Votes
    (insert id (count_vote b w (unwrap_or Vote.default (WatchtowerStorage.Votes W !! id))))
    (WatchtowerStorage.upd_Voters (insert (id, who) b) W).
Lemma tally_vote E id who b w j c :
  0 <= w →
  tally (E ++ [WatchtowerEvent.VoteSubmitted who id b w]) j c =
    if decide (j = id ∧ c = b) then tally E j c ⊕₃₂ w else tally E j c.
Proof.
  intros Hw. unfold tally. rewrite cast_app, zsum_app. cbn. destruct (decide (id = j)) as [->|Hne].
  - rewrite (bool_decide_true (j = j)) by done. cbn. destruct (decide (b = c)) as [->|Hbc].
    + rewrite bool_decide_true, decide_True by done. unfold saturating_add_to. lia.
    + rewrite bool_decide_false, decide_False by naive_solver. lia.
  - rewrite bool_decide_false, decide_False by naive_solver. cbn. lia.
Qed.
Lemma counted_ok W E l id p who b w :
  wt_base W E l → WatchtowerStorage.Proposals W !! id = Some p →
  id ∉ WatchtowerStorage.ProposalsToRemove W → WatchtowerStorage.Voters W !! (id, who) = None → 0 <= w →
  wt_base (counted id who b w W) (E ++ [WatchtowerEvent.VoteSubmitted who id b w]) l.
Proof.
  intros HB Hp Hr Hv Hw.
  assert (WatchtowerStorage.ProposalStatus W !! id ≠ None) as Hs.
  { destruct (wb_placed _ _ _ HB _ _ Hp) as (st&->&_). done. }
  assert (∀ j, cast (E ++ [WatchtowerEvent.VoteSubmitted who id b w]) j =
               cast E j ++ (if bool_decide (id = j) then [(who, b, w)] else [])) as Hc.
  { intros j. rewrite cast_app. cbn. by case_bool_decide. }
  constructor; cbn; try apply HB.
  - intros j q Hq. at_key j id.
    + cbn. rewrite (wb_votes _ _ _ HB _ _ Hp). rewrite !tally_vote by done.
      destruct b; repeat case_decide; naive_solver.
    + rewrite !tally_vote, !decide_False by (done || naive_solver). by apply (wb_votes _ _ _ HB _ q).
  - intros j q x c Hq Hj. rewrite Hc, fmap_app, elem_of_app, <- (wb_voters _ _ _ HB _ _ x c Hq Hj).
    destruct (decide ((j, x) = (id, who))) as [He|Hne].
    + simplify_eq. rewrite lookup_insert_eq, bool_decide_true, Hv by done. cbn.
      rewrite list_elem_of_singleton. naive_solver.
    + rewrite lookup_insert_ne by done. case_bool_decide; cbn; [|by rewrite elem_of_nil; naive_solver].
      rewrite list_elem_of_singleton. naive_solver.
  - intros j x. destruct (decide ((j, x) = (id, who))) as [He|Hne]; [simplify_eq; by rewrite Hp|].
    rewrite lookup_insert_ne by done. apply HB.
  - intros j. rewrite Hc, !fmap_app. case_bool_decide; [subst j|cbn; rewrite app_nil_r; apply HB].
    apply NoDup_app. split; [apply HB|]. cbn. split; [|apply NoDup_singleton].
    intros x ([y c]&->&Hx)%list_elem_of_fmap. rewrite list_elem_of_singleton. cbn. intros ->.
    apply (wb_voters _ _ _ HB _ p) in Hx; [congruence|done..].
  - intros j Hj. assert (id ≠ j) by congruence. rewrite Hc, bool_decide_false by done.
    rewrite app_nil_r, lookup_insert_ne by done. by apply (wb_fresh _ _ _ HB).
  - intros j. rewrite ended_app, app_nil_r. apply HB.
Qed.

(** ** Removing a finished proposal *)

Lemma delete_voter_ok W E l id who :
  wt_base W E l → id ∈ WatchtowerStorage.ProposalsToRemove W →
  wt_base (WatchtowerStorage.upd_Voters (delete (id, who)) W) E l.
Proof.
  intros HB Hr. constructor; cbn; try apply HB.
  - intros j p x b Hp Hj. rewrite lookup_delete_ne by congruence. by apply (wb_voters _ _ _ HB _ p).
  - intros j x Hv. apply (wb_leftover _ _ _ HB _ x). intros He. apply Hv. by apply lookup_delete_None; right.
Qed.
Definition cleaned id W : WatchtowerStorage.t :=
  WatchtowerStorage.upd_ProposalsToRemove (λ x, x ∖ {[ id ]})
    (WatchtowerStorage.upd_Votes (delete id) (WatchtowerStorage.upd_Proposals (delete id) W)).
Lemma cleaned_ok W E l id :
  wt_base W E l → id ∈ WatchtowerStorage.ProposalsToRemove W →
  (∀ who, WatchtowerStorage.Voters W !! (id, who) = None) →
  wt_base (cleaned id W) (E ++ [WatchtowerEvent.ProposalCleaned id]) l.
Proof.
  intros HB Hr Hv.
  assert (∀ j, cast (E ++ [WatchtowerEvent.ProposalCleaned id]) j = cast E j) as Hc.
  { intros j. by rewrite cast_app, app_nil_r. }
  assert (id ∉ l) as Hl by (intros Hin; by apply (wb_waiting _ _ _ HB) in Hin as [??]).
  assert (∀ j, j ≠ id → j ∈ WatchtowerStorage.ProposalsToRemove W ∖ {[id]} ↔
                        j ∈ WatchtowerStorage.ProposalsToRemove W) as Hother by set_solver.
  constructor; cbn; try apply HB.
  - intros j p [Hne Hp]%lookup_delete_Some. destruct (wb_placed _ _ _ HB _ _ Hp) as (st&?&Hpl).
    exists st. split; [done|]. revert Hpl. unfold placed. cbn.
    by rewrite (decide_ext (j ∈ _ ∖ {[id]}) (j ∈ WatchtowerStorage.ProposalsToRemove W)) by (apply Hother; congruence).
  - intros j Hj. assert (j ≠ id) by congruence. rewrite Hother, lookup_delete_ne by done. by apply (wb_waiting _ _ _ HB).
  - intros j Hj. destruct (wb_active _ _ _ HB _ Hj) as (?&?&p&Hp&?).
    assert (j ≠ id) by congruence. rewrite Hother, lookup_delete_ne by done. eauto.
  - intros j [Hj Hne%not_elem_of_singleton]%elem_of_difference. rewrite lookup_delete_ne by done. by apply (wb_remove _ _ _ HB).
  - intros j st. destruct (decide (j = id)) as [->|Hne].
    + intros _ Hst. destruct (WatchtowerStorage.Proposals W !! id) as [p|] eqn:Hp; [|by eapply (wb_gone _ _ _ HB)].
      destruct (wb_placed _ _ _ HB _ _ Hp) as (st'&?&Hpl). unfold placed in Hpl. rewrite decide_True in Hpl by done.
      by simplify_eq.
    + rewrite lookup_delete_ne by done. apply HB.
  - intros j p [_ Hp]%lookup_delete_Some. by apply (wb_ref _ _ _ HB).
  - intros j p [Hne Hp]%lookup_delete_Some. unfold tally. rewrite !Hc, lookup_delete_ne by done. by apply (wb_votes _ _ _ HB _ p).
  - intros j p who b [Hne Hp]%lookup_delete_Some. rewrite Hc, Hother by congruence. by apply (wb_voters _ _ _ HB _ p).
  - intros j who Hj. rewrite lookup_delete_ne by (intros ->; by rewrite Hv in Hj). by apply (wb_leftover _ _ _ HB _ who).
  - intros j. rewrite Hc. apply HB.
  - intros j Hj. rewrite Hc. destruct (wb_fresh _ _ _ HB _ Hj) as [? Hvj]. split; [done|].
    apply lookup_delete_None. by right.
  - intros j. rewrite ended_app, app_nil_r. apply HB.
Qed.
End Invariant.

(** ** The operations *)

(** What the pallet sees of the state. *)
Definition wt `{BridgeConfig} (s : Runtime.t) : WatchtowerStorage.t * list WatchtowerEvent.t :=
  (Runtime.watchtower s, wt_events s).
(** The pallets that are told about proposals leave the watchtower alone, and what fails in
    them is not passed on; telling them of a result may panic. *)
Class HookLaws `{BridgeConfig} (K : WatchtowerHooks) : Prop := {
  hook_submitted_quiet id p : leaves wt (on_proposal_submitted id p);
  hook_submitted_ok id p s : (on_proposal_submitted id p s).1 = Ok ();
  hook_completed_quiet id r st : leaves wt (on_voting_completed id r st);
  hook_completed_ok id r st s :
    (on_voting_completed id r st s).1 = Ok () ∨ (on_voting_completed id r st s).1 = Panic;
}.
Definition hooks_panic `{BridgeConfig} (K : WatchtowerHooks) : Prop :=
  ∃ id r st s, (on_voting_completed id r st s).1 = Panic.

Section Steps.
Context `{BridgeConfig} `{!WatchtowerConfig}.
Implicit Types (s : Runtime.t) (W : WatchtowerStorage.t) (E : list WatchtowerEvent.t) (id : ProposalId).
Context {P : Prop} s W E (Hs : wt s = (W, E)).

Lemma wpp_wt_modify f (Q : unit → Runtime.t → Prop) R :
  (∀ s', wt s' = (f W, E) → Q () s') → wpp P (wt_modify f) s Q R.
Proof using Hs. injection Hs as <- <-. intros HQ. apply wpp_modify. by apply HQ. Qed.
Lemma wpp_wt_event e (Q : unit → Runtime.t → Prop) R :
  (∀ s', wt s' = (W, E ++ [e]) → Q () s') → wpp P (wt_event e) s Q R.
Proof using Hs.
  injection Hs as <- <-. intros HQ. apply wpp_modify. apply HQ. unfold wt, wt_events. cbn. by rewrite omap_app.
Qed.
Lemma wpp_wt_get {A} (f : WatchtowerStorage.t → A) (Q : A → Runtime.t → Prop) R :
  Q (f W) s → wpp P (wt_get f) s Q R.
Proof using Hs. injection Hs as <- <-. intros HQ. by apply wpp_gets. Qed.
Lemma wt_proposals id : proposals id s = WatchtowerStorage.Proposals W !! id.
Proof using Hs. by injection Hs as <- <-. Qed.
Lemma wt_status id :
  proposal_status id s = unwrap_or ProposalStatusEnum.Unknown (WatchtowerStorage.ProposalStatus W !! id).
Proof using Hs. by injection Hs as <- <-. Qed.
Lemma wt_votes id : votes id s = unwrap_or Vote.default (WatchtowerStorage.Votes W !! id).
Proof using Hs. by injection Hs as <- <-. Qed.
(** A step that returns a value and leaves the pallet alone. *)
Lemma wpp_quiet {A} (m : Dispatch A) a (Q : A → Runtime.t → Prop) R :
  leaves wt m → (m s).1 = Ok a → (∀ s', wt s' = (W, E) → Q a s') → wpp P m s Q R.
Proof using Hs.
  intros Hl Hok HQ. specialize (Hl s). unfold wpp. destruct (m s) as [r s']. cbn in *. subst r.
  apply HQ. congruence.
Qed.
Lemma wpp_completed (K : WatchtowerHooks) `{!HookLaws K} id r st (Q : unit → Runtime.t → Prop) R :
  (∀ s', wt s' = (W, E) → Q () s') →
  wpp (hooks_panic K) (on_voting_completed id r st) s Q R.
Proof using Hs.
  intros HQ. pose proof (hook_completed_quiet id r st s) as Hl.
  pose proof (hook_completed_ok id r st s) as Ho. unfold wpp.
  destruct (on_voting_completed id r st s) as [x s'] eqn:Hr. cbn in *.
  destruct Ho as [-> | ->]; [apply HQ; congruence|]. exists id, r, st, s. by rewrite Hr.
Qed.
Lemma wpp_dequeue `{!WatchtowerLaws} l (Q : DispatchError + ProposalId → Runtime.t → Prop) R :
  queued W l → WatchtowerStorage.Tail W <= u64_max →
  match l with
  | [] => ∀ e, Q (inl e) s
  | id :: _ => ∀ s', wt s' = (popped W, E) → Q (inr id) s'
  end → wpp P (try dequeue) s Q R.
Proof using Hs.
  injection Hs as <- <-. intros Hq Ht HQ. apply wpp_try. unfold wpp. rewrite (dequeue_spec s l) by done.
  by destruct l; apply HQ.
Qed.
End Steps.

(** Follow an operation of the pallet; of each state its [wt] is remembered. *)
Ltac wt_step :=
  match goal with
  | Hs : wt ?s = _ |- wpp _ (wt_modify _) ?s _ _ => apply (wpp_wt_modify _ _ _ Hs); clear Hs; intros ? Hs
  | Hs : wt ?s = _ |- wpp _ (put_status _ _) ?s _ _ => apply (wpp_wt_modify _ _ _ Hs); clear Hs; intros ? Hs
  | Hs : wt ?s = _ |- wpp _ (put_proposal _ _) ?s _ _ => apply (wpp_wt_modify _ _ _ Hs); clear Hs; intros ? Hs
  | Hs : wt ?s = _ |- wpp _ (put_active _) ?s _ _ => apply (wpp_wt_modify _ _ _ Hs); clear Hs; intros ? Hs
  | Hs : wt ?s = _ |- wpp _ (wt_get _) ?s _ _ => apply (wpp_wt_get _ _ _ Hs)
  | Hs : wt ?s = _ |- wpp _ (gets (proposals _)) ?s _ _ => apply wpp_gets; rewrite (wt_proposals _ _ _ Hs)
  | Hs : wt ?s = _ |- wpp _ (gets (proposal_status _)) ?s _ _ => apply wpp_gets; rewrite (wt_status _ _ _ Hs)
  | Hs : wt ?s = _ |- wpp _ (gets (votes _)) ?s _ _ => apply wpp_gets; rewrite (wt_votes _ _ _ Hs)
  | Hs : wt ?s = _ |- wpp _ (wt_event _) ?s _ _ => apply (wpp_wt_event _ _ _ Hs); clear Hs; intros ? Hs
  | Hs : wt ?s = _ |- wpp _ (on_proposal_submitted _ _) ?s _ _ =>
      eapply (wpp_quiet _ _ _ Hs); [apply hook_submitted_quiet|apply hook_submitted_ok|clear Hs; intros ? Hs]
  | Hs : wt ?s = _ |- wpp (hooks_panic ?K) (on_voting_completed _ _ _) ?s _ _ =>
      apply (wpp_completed _ _ _ Hs K); clear Hs; intros ? Hs
  | |- _ => wpp_step
  end.

Section Operations.
Context `{BridgeConfig} `{!NodeConfig} `{!WatchtowerConfig} `{!WatchtowerLaws}.
Context `{!NodesInterface} (K : WatchtowerHooks) `{!HookLaws K}.
Implicit Types (s : Runtime.t) (id : ProposalId) (p : Proposal.t) (W : WatchtowerStorage.t).
#[local] Existing Instance K.
Local Abbreviation P := (hooks_panic K).

(** The first proposal that waits, with the end of its vote, becomes the active one. *)
Definition promote l (end_at : Z) W : WatchtowerStorage.t :=
  match l with
  | [] => W
  | id :: _ =>
      match WatchtowerStorage.Proposals W !! id with
      | Some p => activate id (Proposal.upd_end_at (λ _, Some end_at) p) (popped W)
      | None => W
      end
  end.
Lemma activate_next_spec s W E l :
  wt s = (W, E) → queued W l → WatchtowerStorage.Tail W <= u64_max →
  (∀ id, id ∈ l → WatchtowerStorage.Proposals W !! id ≠ None) →
  wpp P activate_next s
    (λ _ s', ∃ end_at, wt s' = (promote l end_at W, E)) (λ _ _, False).
Proof.
  intros Hs Hq Ht Hl. unfold activate_next, promote. wt_step. apply (wpp_dequeue _ _ _ Hs l); [done..|].
  destruct l as [|id l]; [intros _; wt_step; by exists 0|]. specialize (Hl id ltac:(left)).
  destruct (WatchtowerStorage.Proposals W !! id) as [p|] eqn:Hid; [|done].
  clear Hs. intros s1 Hs.
  repeat wt_step; cbn in *; [|congruence]. simplify_eq. by eexists.
Qed.
Lemma promote_fine W E l end_at :
  wt_base W E l → WatchtowerStorage.ActiveInternalProposal W = None → wt_fine (promote l end_at W) E.
Proof.
  intros HB Ha. destruct l as [|id l]; [by exists []|]. cbn.
  destruct (wb_waiting _ _ _ HB id ltac:(left)) as [_ Hp].
  destruct (WatchtowerStorage.Proposals W !! id) as [p|] eqn:Hid; [|done].
  exists l. split; [by apply activate_ok|done].
Qed.
Lemma promote_remove l end_at f W :
  WatchtowerStorage.upd_ProposalsToRemove f (promote l end_at W) =
  promote l end_at (WatchtowerStorage.upd_ProposalsToRemove f W).
Proof. destruct l as [|id l]; [done|]. cbn. by destruct (WatchtowerStorage.Proposals W !! id). Qed.

(** The state after a vote: the proposal is finished, and the next one of the pallets is
    voted on. *)
Definition after_vote l (end_at : Z) id p st W : WatchtowerStorage.t :=
  if ProposalSource.is_internal (Proposal.source p) then promote l end_at (finish id p st W)
  else finish id p st W.
Lemma after_vote_fine W E l end_at id p st r :
  wt_base W E l → (WatchtowerStorage.ActiveInternalProposal W = None → l = []) →
  WatchtowerStorage.Proposals W !! id = Some p →
  unwrap_or ProposalStatusEnum.Unknown (WatchtowerStorage.ProposalStatus W !! id) = ProposalStatusEnum.Active →
  finished st = true →
  wt_fine (after_vote l end_at id p st W) (E ++ [WatchtowerEvent.VotingEnded id r st]).
Proof.
  intros HB Hn Hp Hst Hf. pose proof (finish_ok W E l id p st r HB Hp Hst Hf) as HF. unfold after_vote.
  destruct (ProposalSource.is_internal _) eqn:Hi; [apply promote_fine; [done|]; cbn; by rewrite Hi|].
  exists l. split; [done|]. cbn. by rewrite Hi.
Qed.
(** Ending a vote announces the result and succeeds. *)
Lemma finalise_voting_spec s W E l id p st :
  wt s = (W, E) → wt_base W E l →
  wpp P (finalise_voting id p st) s
    (λ _ s', ∃ end_at, wt s' = (after_vote l end_at id p st W,
                                E ++ [WatchtowerEvent.VotingEnded id (Proposal.external_ref p) st]))
    (λ _ _, False).
Proof.
  intros Hs HB. unfold finalise_voting, after_vote, finish. repeat wt_step.
  destruct (Proposal.source p) as [|pallet] eqn:Hsrc; cbn.
  - repeat wt_step. exists 0. by destruct W.
  - repeat wt_step. eapply wpp_mono; [eapply (activate_next_spec _ _ _ l Hs); [apply HB..|apply HB]| |done].
    cbn. intros _ s2 [end_at Hs2]. wt_step. exists end_at. by rewrite <- promote_remove.
Qed.
Lemma expiry_finished id p s : finished (get_vote_result_on_expiry id p s) = true.
Proof. unfold get_vote_result_on_expiry. destruct (Proposal.source p); [|done]. by case_match. Qed.
Lemma consensus_finished id p now s st :
  get_finalised_consensus_result id p now s = Some st → finished st = true.
Proof.
  unfold get_finalised_consensus_result. destruct (threshold_achieved _ _ _) as [[]|]; [naive_solver..|].
  case_match; [|done]. intros [= <-]. apply expiry_finished.
Qed.

Definition wt_ok s : Prop := wt_fine (wt s).1 (wt s).2.
Lemma wt_ok_intro s W E : wt s = (W, E) → wt_fine W E → wt_ok s.
Proof. unfold wt_ok. by intros ->. Qed.
(** The last step of an operation that ends a vote. *)
Lemma ends_vote s W E id p st (Q : unit → Runtime.t → Prop) R :
  wt s = (W, E) → wt_fine W E → WatchtowerStorage.Proposals W !! id = Some p →
  unwrap_or ProposalStatusEnum.Unknown (WatchtowerStorage.ProposalStatus W !! id) = ProposalStatusEnum.Active →
  finished st = true → (∀ s', wt_ok s' → Q () s') → wpp P (finalise_voting id p st) s Q R.
Proof.
  intros Hs (l&HB&Hn) Hp Hst Hfin HQ. eapply wpp_mono; [by eapply (finalise_voting_spec s W E l)| |done].
  intros [] s' (end_at&Hs'). eapply HQ, wt_ok_intro; [done|]. by apply after_vote_fine.
Qed.
Lemma authorise_vote_spec s W E id p who :
  wt s = (W, E) → wpp P (authorise_vote id p who) s (λ w s', s' = s ∧ 0 <= w) (λ _ _, True).
Proof.
  intros Hs. unfold authorise_vote. destruct (Proposal.source p); repeat wt_step; try done.
  split; [done|]. bool_tac. lia.
Qed.
Lemma process_vote_fine s who id b :
  wt_ok s → wpp P (process_vote who id b) s (λ _ s', wt_ok s') (λ _ _, True).
Proof.
  intros Hf. destruct (wt s) as [W E] eqn:Hs. unfold wt_ok in Hf. rewrite Hs in Hf. cbn in Hf.
  unfold process_vote. do 8 (wt_step; [|done..]). bool_tac.
  match goal with E1 : _ !! id = Some ?x |- _ => rename x into p; rename E1 into Hp end.
  match goal with E1 : unwrap_or _ _ = _ |- _ => rename E1 into Hst end.
  do 2 wt_step. destruct (proposal_expired _ p) eqn:Hexp.
  - unfold finalise_expired_voting. do 3 wt_step. apply (ends_vote _ W E); auto using expiry_finished.
  - repeat wt_step; [|done]. bool_tac. eapply wpp_mono; [by eapply authorise_vote_spec| |done].
    cbn. intros w s' [-> Hw]. do 8 wt_step.
    assert (wt_fine (counted id who b w W) (E ++ [WatchtowerEvent.VoteSubmitted who id b w])) as Hc.
    { destruct Hf as (l&HB&Hn). exists l. split; [|done].
      destruct (wb_active_placed _ _ _ _ _ HB Hp Hst) as (_&?&_). by apply (counted_ok W E l id p). }
    do 2 wt_step. destruct (get_finalised_consensus_result _ _ _ _) as [st|] eqn:Hst'.
    + wt_step. eapply ends_vote; [done..| |].
      * by eapply consensus_finished.
      * intros s2 Hs2. by wt_step.
    + wt_step. by eapply wt_ok_intro.
Qed.

(** Events that are neither votes nor results. *)
Lemma wb_event W E l e :
  (∀ id, cast [e] id = []) → (∀ id, ended [e] id = []) → wt_base W E l → wt_base W (E ++ [e]) l.
Proof.
  intros Hc He HB.
  assert (∀ id, cast (E ++ [e]) id = cast E id) as Hca by (intros id; by rewrite cast_app, Hc, app_nil_r).
  constructor; try apply HB.
  - intros id p Hp. unfold tally. rewrite !Hca. by apply (wb_votes _ _ _ HB _ p).
  - intros id p who b Hp Hr. rewrite Hca. by apply (wb_voters _ _ _ HB _ p).
  - intros id. rewrite Hca. apply HB.
  - intros id. rewrite Hca. apply HB.
  - intros id. rewrite ended_app, He, app_nil_r. apply HB.
Qed.
Lemma wpp_enqueue s W E l id (Q : unit → Runtime.t → Prop) :
  wt s = (W, E) → queued W l → WatchtowerStorage.Tail W < u64_max →
  (∀ s', Z.of_nat (length l) < cap → wt s' = (pushed id W, E) → Q () s') →
  wpp P (enqueue id) s Q (λ _ _, True).
Proof.
  intros [= <- <-] Hq Ht HQ. unfold wpp. rewrite (enqueue_spec id s l) by done.
  case_bool_decide; [|done]. by apply HQ.
Qed.
Lemma to_proposal_spec req proposer now s :
  wpp P (to_proposal req proposer now) s
    (λ p s', s' = s ∧ Proposal.external_ref p = ProposalRequest.external_ref req) (λ _ _, True).
Proof.
  unfold to_proposal, wt_get, to_payload. repeat wpp_step; try done.
  destruct (ProposalRequest.payload req); repeat wpp_step; done.
Qed.

(** The ways a new proposal finds its place. *)
Lemma submit_external_fine W E p :
  wt_fine W E → is_ref (Proposal.external_ref p) →
  WatchtowerStorage.ExternalRef W !! Proposal.external_ref p = None →
  WatchtowerStorage.Proposals W !! generate_id p = None →
  Proposal.source p = ProposalSource.External → is_Some (Proposal.end_at p) →
  wt_fine (submit (generate_id p) p ProposalStatusEnum.Active W) E.
Proof.
  intros (l&HB&Hn) Hr Href Hp Hsrc He. exists l. split; [|done].
  apply (submit_ok W W E l l p); try done; try apply HB.
  - intros Ha. by destruct (wb_active _ _ _ HB _ Ha) as (_&_&q&?&_); simplify_eq.
  - intros Hrem. unfold placed. rewrite decide_False by done. rewrite decide_False; [by rewrite Hsrc|].
    intros Hin. by destruct (wb_waiting _ _ _ HB _ Hin).
Qed.
Lemma submit_active_fine W E p :
  wt_fine W E → is_ref (Proposal.external_ref p) →
  WatchtowerStorage.ExternalRef W !! Proposal.external_ref p = None →
  WatchtowerStorage.Proposals W !! generate_id p = None →
  ProposalSource.is_internal (Proposal.source p) = true → is_Some (Proposal.end_at p) →
  WatchtowerStorage.ActiveInternalProposal W = None →
  wt_fine (submit (generate_id p) p ProposalStatusEnum.Active
    (WatchtowerStorage.upd_ActiveInternalProposal (λ _, Some (generate_id p)) W)) E.
Proof.
  intros (l&HB&Hn) Hr Href Hp Hsrc He Ha. rewrite Hn in HB by done. exists []. split; [|done].
  apply (submit_ok W _ E [] [] p); try done; try apply HB.
  - intros j Hj. cbn. rewrite Ha. naive_solver.
  - intros _. split; [|done]. by apply not_elem_of_nil.
  - intros Hrem. unfold placed. rewrite !decide_False; [done|by apply not_elem_of_nil|done].
Qed.
Lemma submit_queued_fine W E l p :
  wt_base W E l → WatchtowerStorage.ActiveInternalProposal W ≠ None → is_ref (Proposal.external_ref p) →
  WatchtowerStorage.ExternalRef W !! Proposal.external_ref p = None →
  WatchtowerStorage.Proposals W !! generate_id p = None →
  ProposalSource.is_internal (Proposal.source p) = true →
  Z.of_nat (length l) < cap → WatchtowerStorage.Tail W < u64_max →
  wt_fine (submit (generate_id p) p ProposalStatusEnum.Queued (pushed (generate_id p) W)) E.
Proof.
  intros HB Ha Hr Href Hp Hsrc Hl Ht. exists (l ++ [generate_id p]). split; [|done].
  assert (generate_id p ∉ l) as Hnew by (intros Hin; by destruct (wb_waiting _ _ _ HB _ Hin)).
  apply (submit_ok W _ E l _ p); try done.
  - by apply pushed_queued; [apply HB|].
  - cbn. unfold u64_max in *. lia.
  - apply NoDup_app. split_and!; [apply HB| |apply NoDup_singleton].
    intros j Hj ->%list_elem_of_singleton. done.
  - intros j Hj. rewrite elem_of_app, list_elem_of_singleton. naive_solver.
  - intros Hact. by destruct (wb_active _ _ _ HB _ Hact) as (_&_&q&?&_); simplify_eq.
  - intros Hrem. unfold placed. rewrite decide_False by done. rewrite decide_True; [done|].
    apply elem_of_app. right. by apply list_elem_of_singleton.
Qed.
(** The last steps of a submission. *)
Lemma submitted_fine s W E p st (Q : unit → Runtime.t → Prop) R :
  let id := generate_id p in
  wt s = (W, E) → wt_fine (submit id p st W) E → (∀ s', wt_ok s' → Q () s') →
  wpp P (put_status id st;; put_proposal id p;;
      wt_modify (WatchtowerStorage.upd_ExternalRef (insert (Proposal.external_ref p) id));;
      (if bool_decide (st = ProposalStatusEnum.Active) then on_proposal_submitted id p else mret ());;
      wt_event (WatchtowerEvent.ProposalSubmitted id (Proposal.external_ref p) st)) s Q R.
Proof.
  intros id Hs (l&HB&Hn) HQ. repeat wt_step.
  case_bool_decide; repeat wt_step;
    (eapply HQ, wt_ok_intro; [done|]; exists l; split; [by apply wb_event|done]).
Qed.
Lemma add_proposal_fine s proposer req :
  wt_ok s → WatchtowerStorage.Tail (Runtime.watchtower s) < u64_max →
  is_ref (ProposalRequest.external_ref req) →
  wpp P (add_proposal proposer req) s (λ _ s', wt_ok s') (λ _ _, True).
Proof.
  intros Hf Ht Hr. destruct (wt s) as [W E] eqn:Hs. unfold wt_ok in Hf. rewrite Hs in Hf. cbn in Hf.
  assert (WatchtowerStorage.Tail W < u64_max) as Ht' by (by injection Hs as <- <-). clear Ht.
  unfold add_proposal. do 3 wt_step. eapply wpp_mono; [by eapply to_proposal_spec| |done].
  cbn. intros p s' [-> Hreq]. rewrite <- Hreq in Hr. repeat wt_step; try done. bool_tac.
  destruct (Proposal.source p) as [|pallet] eqn:Hsrc.
  - wt_step. eapply (submitted_fine _ W E (Proposal.upd_end_at _ p)); [done| |done].
    by apply submit_external_fine.
  - do 2 wt_step. case_bool_decide as Hact.
    + do 3 wt_step. eapply (submitted_fine _ _ E (Proposal.upd_end_at _ p)); [done| |done].
      apply (submit_active_fine W E (Proposal.upd_end_at _ p)); try done. cbn. by rewrite Hsrc.
    + destruct Hf as (l&HB&Hn). wt_step. eapply (wpp_enqueue _ W E l); [done|apply HB|done|].
      intros s1 Hl Hs1. wt_step. eapply (submitted_fine _ _ E p); [done| |done].
      apply (submit_queued_fine W E l); try done. by rewrite Hsrc.
Qed.

(** ** Cleaning up *)

Lemma delete_voters_fine s W E l id meter L :
  wt s = (W, E) → wt_base W E l → id ∈ WatchtowerStorage.ProposalsToRemove W →
  wpp P (delete_voters id meter L) s
    (λ _ s', ∃ W', wt s' = (W', E) ∧ wt_base W' E l ∧ id ∈ WatchtowerStorage.ProposalsToRemove W' ∧
       WatchtowerStorage.ActiveInternalProposal W' = WatchtowerStorage.ActiveInternalProposal W)
    (λ _ _, False).
Proof.
  revert s W meter. induction L as [|who L IH]; intros s W meter Hs HB Hr; cbn; [wt_step; eauto|].
  destruct (try_consume (writes 1) meter) as [meter'|]; [|wt_step; eauto].
  do 2 wt_step. eapply (IH _ _ meter' Hs); [|done]. by apply delete_voter_ok.
Qed.
Lemma remove_proposal_fine s meter :
  wt_ok s → wpp P (remove_proposal meter) s (λ _ s', wt_ok s') (λ _ _, False).
Proof.
  intros Hf. unfold remove_proposal. destruct (try_consume (reads 1) meter) as [meter1|]; [|by wt_step].
  do 2 wt_step. destruct (proposals_to_remove s) as [|id L] eqn:Hl; [by wt_step|].
  assert (id ∈ WatchtowerStorage.ProposalsToRemove (Runtime.watchtower s)) as Hid.
  { apply elem_of_elements. unfold proposals_to_remove in Hl. erewrite <- sort_by_perm, Hl. left. }
  destruct Hf as (l&HB&Hn). cbn in HB, Hn. do 2 wt_step. destruct (voters_to_delete _ _) as [meter2 to_delete]. wt_step.
  eapply wpp_mono; [by eapply (delete_voters_fine s _ _ l)| |done]. cbn. intros meter3 s1 (W&Hs&HB1&Hid1&Ha).
  rewrite <- Ha in Hn. pose proof (f_equal fst Hs) as HW. cbn in HW.
  assert (wt_ok s1) as Hok by (eapply wt_ok_intro; [done|]; by exists l).
  destruct (try_consume (reads 1) meter3) as [meter4|]; [|by wt_step]. do 2 wt_step.
  case_bool_decide as Hv; [|by wt_step]. destruct (try_consume (writes 4) meter4); [|by wt_step].
  repeat wt_step. eapply wt_ok_intro; [done|]. exists l. split; [|done]. apply cleaned_ok; [done..|].
  intros who. unfold voters_of in Hv. rewrite HW in Hv.
  by apply (proj1 (prefix_nil _ _ _) Hv).
Qed.
Lemma cleanup_proposals_fine s now meter :
  wt_ok s → wpp P (cleanup_proposals now meter) s (λ _ s', wt_ok s') (λ _ _, False).
Proof.
  intros Hf. unfold cleanup_proposals. destruct (try_consume _ meter) as [meter1|]; [|by wt_step].
  do 2 wt_step. unfold active_proposal_expiry_status.
  destruct (WatchtowerStorage.ActiveInternalProposal (Runtime.watchtower s)) as [id|] eqn:Ha; cbn;
    [|by apply remove_proposal_fine].
  destruct (proposals id s) as [p|] eqn:Hp; cbn; [|by apply remove_proposal_fine].
  destruct (proposal_expired now p); [|by wt_step]. destruct (try_consume _ meter1) as [meter2|]; [|by wt_step].
  repeat wt_step. eapply ends_vote; [done|exact Hf|done| |apply expiry_finished|].
  - destruct Hf as (l&HB&_). destruct (wb_active _ _ _ HB _ Ha) as (Hl&Hr&_).
    destruct (wb_placed _ _ _ HB _ _ Hp) as (st&Hst&Hpl). unfold placed in Hpl.
    rewrite !decide_False in Hpl by done. unfold wt in Hst. cbn in Hst. rewrite Hst. cbn. naive_solver.
  - intros s' Hs'. by apply remove_proposal_fine.
Qed.

(** ** Every call, and what is reachable *)

(** References are 32 bytes. *)
Definition call_refs (call : WatchtowerCall) : Prop :=
  match call with
  | Call_submit_external_proposal req | Call_signed_submit_external_proposal _ req _ =>
      is_ref (ProposalRequest.external_ref req)
  | _ => True
  end.
Lemma process_vote_call s who id b :
  wt_ok s → wpp P (process_vote who id b;; mret ()) s (λ _ s', wt_ok s') (λ _ _, True).
Proof. intros Hs. wpp_step. eapply wpp_mono; [by apply process_vote_fine| |done]. intros ? s' ?. by wpp_step. Qed.
Lemma external_proposer_reads s origin (Q : option AccountId → Runtime.t → Prop) :
  (∀ who, Q who s) → wpp P (ensure_external_proposer origin) s Q (λ _ _, True).
Proof.
  intros HQ. unfold ensure_external_proposer, wt_get. do 2 wpp_step.
  destruct origin; [by wpp_step|..|by wpp_step]. repeat case_match; by wpp_step.
Qed.
Lemma watchtower_call_fine s origin call :
  wt_ok s → WatchtowerStorage.Tail (Runtime.watchtower s) < u64_max → call_refs call →
  wpp P (watchtower_call origin call) s (λ _ s', wt_ok s') (λ _ _, True).
Proof.
  intros Hs Ht Hr. destruct call as [req|proof req n|id b|proof id b n|id b who sig|id|config]; cbn.
  - unfold submit_external_proposal. wpp_step. apply external_proposer_reads. intros proposer. repeat wpp_step; [|done].
    by apply add_proposal_fine.
  - unfold signed_submit_external_proposal, ensure_tx_alive. wpp_step. apply external_proposer_reads. intros proposer.
    repeat wpp_step; try done. by apply add_proposal_fine.
  - destruct origin; [done| |done]. by apply process_vote_call.
  - destruct origin; [done| |done]. unfold signed_vote, ensure_tx_alive, ensure_signed. repeat wpp_step; try done.
    by apply process_vote_fine.
  - destruct origin; [done..|]. unfold unsigned_vote, validate_unsigned_vote, wt_get, ensure_none.
    repeat wpp_step; try done. by apply process_vote_fine.
  - destruct origin; [done| |done]. unfold finalise_proposal, finalise_expired_voting, ensure_signed. repeat wpp_step; try done.
    bool_tac. eapply ends_vote; [done|exact Hs|done|done|apply expiry_finished|done].
  - unfold set_watchtower_admin_config, ensure_root. destruct (wt s) as [W E] eqn:Hw.
    unfold wt_ok in Hs. rewrite Hw in Hs. destruct Hs as (l&HB&Hn). destruct origin; [|done..]. do 2 wpp_step.
    destruct config; repeat wt_step; (eapply wt_ok_intro; [done|]; exists l; split; [apply wb_event|]; try done);
      by destruct HB; constructor.
Qed.

(** A step of the chain, as the pallet sees it: one of its calls, a proposal of another
    pallet, the clean-up of idle blocks, or anything that leaves the pallet alone. *)
Inductive watchtower_step s s' : Prop :=
  | Step_call origin call r : call_refs call →
      transactional (watchtower_call origin call) s = (r, s') → watchtower_step s s'
  | Step_submit proposer req : is_ref (ProposalRequest.external_ref req) →
      submit_proposal (WatchtowerInterface := watchtower_interface) proposer req s = (Ok (), s') →
      watchtower_step s s'
  | Step_idle meter : cleanup_proposals (Runtime.block_number s) meter s = (Ok (), s') → watchtower_step s s'
  | Step_elsewhere : wt s' = wt s → watchtower_step s s'.
Definition watchtower_start s : Prop :=
  wt_events s = [] ∧ ∃ period admin,
    Runtime.watchtower s = WatchtowerStorage.mk period ∅ ∅ ∅ ∅ ∅ None ∅ 0 0 ∅ admin.
Inductive watchtower_reachable : Runtime.t → Prop :=
  | Reach_start s : watchtower_start s → watchtower_reachable s
  | Reach_step s s' :
      watchtower_reachable s → WatchtowerStorage.Tail (Runtime.watchtower s) < u64_max →
      watchtower_step s s' → watchtower_reachable s'.

Lemma watchtower_start_fine s : watchtower_start s → wt_ok s.
Proof.
  intros (He&period&admin&HW). eapply wt_ok_intro; [unfold wt; by rewrite He, HW|].
  exists []. split; [|done]. constructor; cbn; try done; try (intros; by rewrite ?lookup_empty in * ); try set_solver.
  - apply ring_empty, cap_range.
  - constructor.
  - intros _. constructor.
Qed.
Lemma watchtower_step_fine s s' :
  wt_ok s → WatchtowerStorage.Tail (Runtime.watchtower s) < u64_max → watchtower_step s s' → wt_ok s'.
Proof.
  intros Hs Ht [origin call r Hr Hrun|proposer req Hr Hrun|meter Hrun|Hw].
  - pose proof (watchtower_call_fine s origin call Hs Ht Hr) as Hwp. revert Hrun Hwp. unfold wpp, transactional.
    destruct (watchtower_call origin call s) as [[]?]; naive_solver.
  - pose proof (add_proposal_fine s proposer req Hs Ht Hr) as Hwp. unfold wpp in Hwp. cbn in Hrun.
    by rewrite Hrun in Hwp.
  - pose proof (cleanup_proposals_fine s (Runtime.block_number s) meter Hs) as Hwp. unfold wpp in Hwp.
    by rewrite Hrun in Hwp.
  - unfold wt_ok. by rewrite Hw.
Qed.

Lemma watchtower_reachable_ok s : watchtower_reachable s → wt_ok s.
Proof. induction 1; eauto using watchtower_start_fine, watchtower_step_fine. Qed.

(** C4: whatever calls, submissions of pallets and clean-ups happen, the watchtower stays
    consistent: the proposals that wait are queued in order, a pallet's proposal is voted on
    only as the active one, and nothing waits when none is active; the counts of every stored
    proposal are the sums of the votes told in events, no account votes twice on a proposal,
    and a proposal gets at most one result, which its status keeps. *)
Theorem watchtower_reachable_consistent s :
  watchtower_reachable s →
  wt_ok s ∧ ∀ id,
    (∀ p, proposals id s = Some p →
       votes id s = Vote.mk (tally (wt_events s) id true) (tally (wt_events s) id false)) ∧
    NoDup (cast (wt_events s) id).*1.*1 ∧
    (ended (wt_events s) id = [] ∨ ended (wt_events s) id = [proposal_status id s]).
Proof.
  intros Hs%watchtower_reachable_ok. split; [done|]. destruct Hs as (l&HB&_). cbn in HB. intros id. split_and!.
  - intros p Hp. by apply (wb_votes _ _ _ HB _ p).
  - apply HB.
  - rewrite (wb_ended _ _ _ HB id). unfold proposal_status.
    destruct (WatchtowerStorage.ProposalStatus (Runtime.watchtower s) !! id) as [st|]; [|by left].
    cbn. destruct (finished st); auto.
Qed.
End Operations.

(** ** What a vote decides, and the end of a vote *)

Section Outcomes.
Context `{BridgeConfig} `{!NodeConfig} `{!WatchtowerConfig} `{!WatchtowerLaws}.
Context (K : WatchtowerHooks) `{!HookLaws K}.
Implicit Types (s : Runtime.t) (id : ProposalId) (p : Proposal.t) (W : WatchtowerStorage.t).
#[local] Existing Instance K.
Local Abbreviation P := (hooks_panic K).
#[local] Instance nodes_interface : NodesInterface := RuntimeNodeManager.

(** What the counts of a vote mean for a proposal when [total] nodes are registered. *)
Definition verdict (threshold : Perbill) (total : Z) (v : Vote.t) : ProposalStatusEnum.t :=
  let min_votes := perbill_mul_ceil threshold total in
  if decide (total = 0) then ProposalStatusEnum.Active
  else if decide (min_votes <= Vote.in_favors v) then ProposalStatusEnum.Resolved true
  else if decide (min_votes <= Vote.againsts v) then ProposalStatusEnum.Resolved false
  else ProposalStatusEnum.Active.
Lemma consensus_verdict s W E id p v :
  wt s = (W, E) → WatchtowerStorage.Votes W !! id = Some v →
  proposal_expired (Runtime.block_number s) p = false →
  get_finalised_consensus_result id p (Runtime.block_number s) s =
  (let st := verdict (Proposal.threshold p) (NodeStorage.TotalRegisteredNodes (Runtime.nodes s)) v in
   if finished st then Some st else None).
Proof.
  intros Hs Hv He. unfold get_finalised_consensus_result, threshold_achieved, verdict.
  rewrite (wt_votes _ _ _ Hs), Hv, He. cbn -[decide].
  repeat case_bool_decide; repeat case_decide; done.
Qed.
Lemma promote_status l end_at W id :
  id ∉ l → WatchtowerStorage.ProposalStatus (promote l end_at W) !! id = WatchtowerStorage.ProposalStatus W !! id.
Proof.
  intros Hid. destruct l as [|j l]; [done|]. cbn. destruct (WatchtowerStorage.Proposals W !! j); [|done].
  cbn. rewrite lookup_insert_ne; [done|]. intros ->. apply Hid. left.
Qed.
Lemma promote_votes l end_at W : WatchtowerStorage.Votes (promote l end_at W) = WatchtowerStorage.Votes W.
Proof. destruct l as [|j l]; [done|]. cbn. by destruct (WatchtowerStorage.Proposals W !! j). Qed.
Lemma after_vote_active W E l end_at id p st :
  wt_base W E l → ProposalSource.is_internal (Proposal.source p) = true →
  WatchtowerStorage.ActiveInternalProposal (after_vote l end_at id p st W) = head l.
Proof.
  intros HB Hi. unfold after_vote. rewrite Hi. destruct l as [|j l]; cbn; [by rewrite Hi|].
  destruct (wb_waiting _ _ _ HB j ltac:(left)) as [_ Hp]. by destruct (WatchtowerStorage.Proposals W !! j).
Qed.
Lemma after_vote_status l end_at id p st W :
  id ∉ l → WatchtowerStorage.ProposalStatus (after_vote l end_at id p st W) !! id = Some st.
Proof.
  intros Hid. unfold after_vote. destruct (ProposalSource.is_internal _).
  - rewrite promote_status by done. cbn. by rewrite lookup_insert_eq.
  - cbn. by rewrite lookup_insert_eq.
Qed.
Lemma after_vote_votes l end_at id p st W :
  WatchtowerStorage.Votes (after_vote l end_at id p st W) = WatchtowerStorage.Votes W.
Proof. unfold after_vote. destruct (ProposalSource.is_internal _); [by rewrite promote_votes|done]. Qed.


(** What the removal of a finished proposal does not touch. *)
Definition wt_stage s : option ProposalId * gmap ProposalId ProposalStatusEnum.t :=
  (WatchtowerStorage.ActiveInternalProposal (Runtime.watchtower s),
   WatchtowerStorage.ProposalStatus (Runtime.watchtower s)).
Lemma remove_proposal_leaves meter : leaves wt_stage (remove_proposal meter).
Proof.
  unfold remove_proposal, wt_modify, wt_event, deposit_event.
  assert (∀ id m l, leaves wt_stage (delete_voters id m l)) as Hd.
  { intros id m l. revert m. induction l as [|who l IH]; intros m; cbn; unfold wt_modify; leaves_tac; apply IH. }
  leaves_tac; auto.
Qed.

End Outcomes.

(** ** A run *)

(** Two proposals fit the queue; the meter counts steps. *)
#[global] Instance demo_wt_config : WatchtowerConfig := {|
  WatchtowerTxLifetime := 16;
  MaxTitleLen := 64;
  MaxInlineLen := 64;
  MaxUriLen := 64;
  MaxInternalProposalLen := 2;
  blake2_256 l := Npos (encode l);
  perbill_mul_ceil p x := (p * x + 999999999) / 1000000000;
  voter_position who := who;
  proposal_position id := id;
  WeightMeter := nat;
  try_consume _ m := match m with O => None | S m => Some m end;
|}.
#[global] Instance demo_wt_laws : WatchtowerLaws.
Proof. split; [done|]. intros a b _ _ Hab. injection Hab. apply (inj encode). Qed.

Section Witness.
#[local] Existing Instance demo_config.
#[local] Existing Instance anchor_interface.
#[local] Existing Instance token_notification.
(** No pallet is told. *)
#[local] Instance no_hooks : WatchtowerHooks := hooks_tuple [].
#[local] Instance no_hooks_laws : HookLaws no_hooks.
Proof. constructor; [done..|by left]. Qed.
Lemma no_hooks_calm : ¬ hooks_panic no_hooks.
Proof. by intros (?&?&?&?&?). Qed.
#[local] Existing Instance nodes_interface.

Definition demo_request (source : ProposalSource.t) (payload : RawPayload.t) (ref : H256) : ProposalRequest.t :=
  ProposalRequest.mk [116%N] payload 1000000000 source DecisionRule.SimpleMajority ref 5 None.
Definition demo_internal (ref : H256) : ProposalRequest.t :=
  demo_request (ProposalSource.Internal ProposalType.Summary) (RawPayload.Inline [1%N]) ref.
Definition demo_external : ProposalRequest.t := demo_request ProposalSource.External (RawPayload.Uri [1%N]) 9%N.
(** A pallet submits two proposals; nodes 1 and 2 vote for the first. *)
Definition demo_submitted : Runtime.t :=
  (add_proposal None (demo_internal 8) (add_proposal None (demo_internal 7) demo_staked).2).2.
Definition demo_first : ProposalId :=
  unwrap_or 0%N (WatchtowerStorage.ActiveInternalProposal (Runtime.watchtower demo_submitted)).
Definition wt_call (origin : Origin) (call : WatchtowerCall) (s : Runtime.t) : Runtime.t :=
  (transactional (watchtower_call origin call) s).2.
Definition demo_voted : Runtime.t :=
  wt_call (Signed 2%N) (Call_vote demo_first true) (wt_call (Signed 1%N) (Call_vote demo_first true) demo_submitted).
Lemma demo_voted_counts :
  votes demo_first demo_voted = Vote.mk 2 0 ∧ proposal_status demo_first demo_voted = ProposalStatusEnum.Active.
Proof. by vm_compute. Qed.
Lemma ran_ok (m : Dispatch unit) s : (m s).1 = Ok () → m s = (Ok (), (m s).2).
Proof. intros <-. apply surjective_pairing. Qed.
Lemma demo_submit_reach s ref :
  watchtower_reachable no_hooks s → is_ref ref →
  bool_decide (WatchtowerStorage.Tail (Runtime.watchtower s) < u64_max) = true →
  (add_proposal None (demo_internal ref) s).1 = Ok () →
  watchtower_reachable no_hooks (add_proposal None (demo_internal ref) s).2.
Proof.
  intros Hs Hr Ht%bool_decide_eq_true Hok. eapply Reach_step; [exact Hs|exact Ht|].
  apply (Step_submit _ _ _ None (demo_internal ref)); [exact Hr|exact (ran_ok _ _ Hok)].
Qed.
Lemma demo_reach : watchtower_reachable no_hooks demo_submitted.
Proof.
  apply demo_submit_reach; [|vm_compute; reflexivity..].
  apply demo_submit_reach; [|vm_compute; reflexivity..].
  apply Reach_start. split; [vm_compute; reflexivity|]. exists 100, None. vm_compute. reflexivity.
Qed.
Lemma demo_call_reach s origin call :
  watchtower_reachable no_hooks s → call_refs call →
  bool_decide (WatchtowerStorage.Tail (Runtime.watchtower s) < u64_max) = true →
  watchtower_reachable no_hooks (wt_call origin call s).
Proof.
  intros Hs Hc Ht%bool_decide_eq_true. eapply Reach_step; [exact Hs|exact Ht|].
  eapply Step_call; [exact Hc|apply surjective_pairing].
Qed.
Lemma demo_reach_voted : watchtower_reachable no_hooks demo_voted.
Proof.
  apply demo_call_reach; [|exact I|vm_compute; reflexivity].
  apply demo_call_reach; [|exact I|vm_compute; reflexivity]. exact demo_reach.
Qed.
Lemma watchtower_reachable_consistent_witness :
  wt_ok demo_voted ∧
  votes demo_first demo_voted = Vote.mk (tally (wt_events demo_voted) demo_first true) 0 ∧
  tally (wt_events demo_voted) demo_first true = 2.
Proof.
  destruct (watchtower_reachable_consistent no_hooks demo_voted demo_reach_voted) as [Hok Hid].
  split_and!; [exact Hok| |by vm_compute].
  destruct (Hid demo_first) as (Hv&_).
  destruct (proposals demo_first demo_voted) as [p|] eqn:Hp; [|by vm_compute in Hp].
  rewrite (Hv p eq_refl). f_equal.
Defined.
Lemma demo_tail : WatchtowerStorage.Tail (Runtime.watchtower demo_submitted) < u64_max.
Proof. vm_compute. reflexivity. Qed.
Lemma demo_len : len demo_submitted = 1.
Proof. vm_compute. reflexivity. Qed.
Lemma ok_queued s : wt_ok s → ∃ l, queued (Runtime.watchtower s) l.
Proof. intros (l&HB&_). exists l. apply HB. Qed.
Lemma queue_refines_list_witness :
  ∃ x s', queued (Runtime.watchtower demo_submitted) [x] ∧
    dequeue demo_submitted = (Ok x, s') ∧ queued (Runtime.watchtower s') [].
Proof.
  destruct (ok_queued _ (watchtower_reachable_ok no_hooks _ demo_reach)) as (l&Hq).
  pose proof (queued_len _ _ Hq) as Hl. rewrite demo_len in Hl.
  destruct l as [|x [|y l]]; [cbn in Hl; lia| |cbn in Hl; lia].
  destruct (queue_refines_list demo_submitted [x] 5%N Hq demo_tail) as (_&_&(s'&Hd&Hq')&_).
  exists x, s'. split_and!; [exact Hq|exact Hd|exact Hq'].
Defined.
Definition demo_proposal : Proposal.t :=
  Proposal.mk [116%N] (RawPayload.Inline [1%N]) 1000000000 (ProposalSource.Internal ProposalType.Summary)
    DecisionRule.SimpleMajority 7%N None 5 100 (Some 110).
Lemma demo_voting :
  proposals demo_first demo_voted = Some demo_proposal ∧
  proposal_status demo_first demo_voted = ProposalStatusEnum.Active ∧
  proposal_expired (Runtime.block_number demo_voted) demo_proposal = false ∧
  WatchtowerStorage.Voters (Runtime.watchtower demo_voted) !! (demo_first, 3%N) = None ∧
  (authorise_vote demo_first demo_proposal 3%N demo_voted).1 = Ok 1 ∧
  verdict 1000000000 (NodeStorage.TotalRegisteredNodes (Runtime.nodes demo_voted))
    (count_vote true 1 (votes demo_first demo_voted)) = ProposalStatusEnum.Resolved true.
Proof. split_and!; vm_compute; reflexivity. Qed.

(** 100 blocks later the meter allows the clean-up. *)
Definition demo_later : Runtime.t := Runtime.upd_block_number (λ _, 110) demo_submitted.
Lemma demo_expired :
  WatchtowerStorage.ActiveInternalProposal (Runtime.watchtower demo_later) = Some demo_first ∧
  proposals demo_first demo_later = Some demo_proposal ∧
  proposal_expired (Runtime.block_number demo_later) demo_proposal = true ∧ len demo_later = 1.
Proof. split_and!; vm_compute; reflexivity. Qed.
Lemma ok_moved f s : wt_ok s → ∃ l, wt_base (Runtime.watchtower (Runtime.upd_block_number f s))
  (wt_events (Runtime.upd_block_number f s)) l ∧ queued (Runtime.watchtower (Runtime.upd_block_number f s)) l.
Proof. intros (l&HB&_). exists l. split; apply HB. Qed.

(** The weight of a vote on an external proposal is the number of nodes its voter owns then.
    Nodes that change hands count again: account 50 votes with its two nodes of three, they
    are moved to account 52, which votes too, and the proposal passes with all of the
    nodes required while the owner of the third has not voted. *)
Definition demo_opened : Runtime.t := (add_proposal None demo_external demo_staked).2.
Definition demo_poll : ProposalId :=
  unwrap_or 0%N (WatchtowerStorage.ExternalRef (Runtime.watchtower demo_opened) !! 9%N).
Definition demo_half : Runtime.t := wt_call (Signed 50%N) (Call_vote demo_poll true) demo_opened.
Definition demo_moved : Runtime.t := run_nodes [(Signed 70%N, Call_move_nodes 50%N 52%N [1%N; 2%N])] demo_half.
Definition demo_twice : Runtime.t := wt_call (Signed 52%N) (Call_vote demo_poll true) demo_moved.
Lemma moved_nodes_count_twice :
  NodeStorage.TotalRegisteredNodes (Runtime.nodes demo_twice) = 3 ∧
  proposal_status demo_poll demo_half = ProposalStatusEnum.Active ∧
  votes demo_poll demo_twice = Vote.mk 4 0 ∧
  proposal_status demo_poll demo_twice = ProposalStatusEnum.Resolved true.
Proof. split_and!; vm_compute; reflexivity. Qed.
End Witness.
