(* ===== verification/Summary.v ===== *)
(** * Summaries: slots, roots and their votes

    [pallets/summary] and the voting sessions of [pallets/avn/src/vote.rs].  The
    validators take turns, slot by slot, in recording the root of the blocks since the
    last approved one; the others vote on it, and an approved root goes to Ethereum, or
    to the watchtowers first.  The pallet has instances: the storage of each is found
    under its [InstanceId]. *)

From S2P Require Import Prelude Slices Bytes EventTypes EventParsing EventDiscovery EthTypes.
From S2P Require Import RuntimeErrors NodeTypes SummaryTypes BridgeTypes Avn EthBridge BridgeEvents.
From S2P Require Import NodeStake Watchtower.

Definition APPROVE_VOTE_IS_NOT_VALID : Z := 2.
Definition REJECT_VOTE_IS_NOT_VALID : Z := 3.
Definition VOTE_SESSION_IS_NOT_VALID : Z := 4.
Definition VOTING_SESSION_DATA_IS_NOT_FOUND : Z := 5.
Definition UNKNOWN_CHALLENGE_REASON : Z := 10.
Definition ERROR_CODE_VALIDATOR_IS_NOT_PRIMARY : Z := 10.
Definition ERROR_CODE_INVALID_ROOT_RANGE : Z := 30.
Definition MIN_SCHEDULE_PERIOD : Z := 30.
Definition DEFAULT_SCHEDULE_PERIOD : Z := 28800.
Definition MIN_VOTING_PERIOD : Z := 25.
Definition MAX_VOTING_PERIOD : Z := 28800.
Definition DEFAULT_VOTING_PERIOD : Z := 600.
Definition SUMMARY_PALLET_ID : bytes := b "summary-".

(** [safe_add_block_numbers] and [safe_sub_block_numbers]: a block number is a [u32]. *)
Definition safe_add_block_numbers (left right : Z) : option Z := checked_add_to u32_max left right.
Definition safe_sub_block_numbers (left right : Z) : option Z :=
  if bool_decide (right <= left) then Some (left - right) else None.

(** ** Voting sessions ([pallets/avn/src/vote.rs]) *)

(** The two payloads carry the contexts of the trait. *)
Record VotingSessionManager `{BridgeConfig} := {
  cast_vote_payload : bytes → bool → Payload.t;
  end_voting_period_payload : bytes → Payload.t;
  state : Runtime.t → DispatchError + VotingSessionData.t;
  is_valid : Runtime.t → bool;
  is_active : Runtime.t → bool;
  record_approve_vote : AccountId → Dispatch unit;
  record_reject_vote : AccountId → Dispatch unit;
  end_voting_session : AccountId → Dispatch unit;
}.

Section Voting.
Context `{BridgeConfig}.
Implicit Types (voting_session : VotingSessionManager) (voter : AccountId) (s : Runtime.t).

(** [voting_session.state()?]. *)
Definition session_state voting_session : Dispatch VotingSessionData.t :=
  r ← gets (state voting_session);
  match r with inl e => fail e | inr data => mret data end.
Definition validate_vote voting_session voter : Dispatch unit :=
  validator ← gets (is_validator voter);
  ensure validator AvnError.NotAValidator;;
  active ← gets (is_active voting_session);
  ensure active AvnError.InvalidVote;;
  data ← session_state voting_session;
  ensure (negb (VotingSessionData.has_voted data voter)) AvnError.DuplicateVote.
Definition end_voting_if_outcome_reached voting_session voter : Dispatch unit :=
  data ← session_state voting_session;
  active ← gets (is_active voting_session);
  if VotingSessionData.has_outcome data && active then end_voting_session voting_session voter
  else mret ().
Definition process_approve_vote voting_session voter : Dispatch unit :=
  validate_vote voting_session voter;;
  record_approve_vote voting_session voter;;
  end_voting_if_outcome_reached voting_session voter.
Definition process_reject_vote voting_session voter : Dispatch unit :=
  validate_vote voting_session voter;;
  record_reject_vote voting_session voter;;
  end_voting_if_outcome_reached voting_session voter.

(** [None] when the call is valid. *)
Definition signed_session voting_session (payload : bytes → Payload.t) (validator : Validator.t)
    (signature : AuthoritySignature) s : option InvalidTransaction :=
  match state voting_session s with
  | inl _ => Some (Custom VOTING_SESSION_DATA_IS_NOT_FOUND)
  | inr data =>
      if signature_is_valid (payload (VotingSessionData.voting_session_id data)) validator signature s
      then None else Some BadProof
  end.
Definition end_voting_period_validate_unsigned voting_session (validator : Validator.t)
    (signature : AuthoritySignature) s : option InvalidTransaction :=
  if negb (is_valid voting_session s) then Some (Custom VOTE_SESSION_IS_NOT_VALID)
  else signed_session voting_session (end_voting_period_payload voting_session) validator signature s.
Definition approve_vote_validate_unsigned voting_session (validator : Validator.t)
    (signature : AuthoritySignature) s : option InvalidTransaction :=
  match (validate_vote voting_session (Validator.account_id validator) s).1 with
  | Ok _ =>
      signed_session voting_session (λ id, cast_vote_payload voting_session id true) validator
        signature s
  | _ => Some (Custom APPROVE_VOTE_IS_NOT_VALID)
  end.
Definition reject_vote_validate_unsigned voting_session (validator : Validator.t)
    (signature : AuthoritySignature) s : option InvalidTransaction :=
  match (validate_vote voting_session (Validator.account_id validator) s).1 with
  | Ok _ =>
      signed_session voting_session (λ id, cast_vote_payload voting_session id false) validator
        signature s
  | _ => Some (Custom REJECT_VOTE_IS_NOT_VALID)
  end.
End Voting.

(** ** An instance of the pallet *)

Class SummaryConfig `{BridgeConfig} := {
  AdvanceSlotGracePeriod : Z;
  MinBlockAge : Z;
  AutoSubmitSummaries : bool;
  InstanceId : Z;
  ExternalValidationEnabled : bool;
  (** [T::Hashing]. *)
  hash_of : bytes → H256;
  (** The offences pallet. *)
  is_known_summary_offence : OffencesState → list AccountId → Z → bool;
  report_summary_offence :
    AccountId → list AccountId → SummaryOffenceType.t → Z → Z → OffencesState → OffencesState;
}.

Section Summary.
Context `{BridgeConfig} `{!NodeConfig} `{!SummaryConfig}.
Implicit Types (s : Runtime.t) (root_id : RootId.t) (validator : Validator.t).

(** ** Storage *)

Definition summary_of (instance : Z) s : SummaryStorage.t :=
  unwrap_or SummaryStorage.empty (Runtime.summaries s !! instance).
Definition summary s : SummaryStorage.t := summary_of InstanceId s.
Definition summary_get {A} (f : SummaryStorage.t → A) : Dispatch A := gets (f ∘ summary).
Definition summary_modify (f : SummaryStorage.t → SummaryStorage.t) : Dispatch unit :=
  modify (λ s, Runtime.upd_summaries (insert InstanceId (f (summary s))) s).
Definition summary_event (e : SummaryEvent.t) : Dispatch unit :=
  deposit_event (SummaryEvent_ InstanceId e).
Definition get_vote root_id s : VotingSessionData.t :=
  unwrap_or VotingSessionData.default (SummaryStorage.VotesRepository (summary s) !! root_id).
Definition root_data_of root_id s : RootData.t :=
  unwrap_or RootData.default (SummaryStorage.Roots (summary s) !! root_id).
(** [Roots::mutate]. *)
Definition mutate_root root_id (f : RootData.t → RootData.t) : Dispatch unit :=
  summary_modify (λ x, SummaryStorage.upd_Roots
    (insert root_id (f (unwrap_or RootData.default (SummaryStorage.Roots x !! root_id)))) x).
Definition summary_pallet_id : bytes := SUMMARY_PALLET_ID ++ [Z.to_N InstanceId].
Definition empty_root : H256 := 0%N.

Definition try_get_root_data root_id s : option RootData.t :=
  SummaryStorage.Roots (summary s) !! root_id.
Definition get_root_data root_id : Dispatch RootData.t :=
  r ← gets (try_get_root_data root_id);
  ok_or r SummaryError.RootDataNotFound.

(** ** Offences ([offence.rs]) *)

Definition create_and_report_summary_offence (reporter : AccountId)
    (offenders_accounts : list AccountId) (offence_type : SummaryOffenceType.t) : Dispatch unit :=
  let offenders := create_offenders_identification offenders_accounts in
  if bool_decide (offenders = []) then mret ()
  else
    session_index ← gets Runtime.session_index;
    validator_set_count ← gets total_num_of_validators;
    known ← gets (λ s, is_known_summary_offence (Runtime.offences s) offenders session_index);
    if (known : bool) then mret ()
    else
      modify (Runtime.upd_offences
        (report_summary_offence reporter offenders offence_type session_index validator_set_count));;
      summary_event (SummaryEvent.SummaryOffenceReported offence_type offenders).

(** ** Periods and slots *)

Definition validate_schedule_period (schedule_period_in_blocks : Z) : Dispatch unit :=
  ensure (bool_decide (MIN_SCHEDULE_PERIOD <= schedule_period_in_blocks))
    SummaryError.SchedulePeriodIsTooShort.
Definition validate_voting_period (voting_period_in_blocks schedule_period_in_blocks : Z) :
    Dispatch unit :=
  ensure (bool_decide (MIN_VOTING_PERIOD <= voting_period_in_blocks))
    SummaryError.VotingPeriodIsTooShort;;
  ensure (bool_decide (voting_period_in_blocks < schedule_period_in_blocks))
    SummaryError.VotingPeriodIsEqualOrLongerThanSchedulePeriod;;
  ensure (bool_decide (voting_period_in_blocks <= MAX_VOTING_PERIOD))
    SummaryError.VotingPeriodIsTooLong.

Definition grace_period_elapsed (block_number : Z) s : bool :=
  let diff :=
    unwrap_or 0 (safe_sub_block_numbers block_number (SummaryStorage.NextSlotAtBlock (summary s))) in
  bool_decide (AdvanceSlotGracePeriod < diff).
Definition validator_can_advance_slot validator : Dispatch unit :=
  current_block_number ← gets Runtime.block_number;
  next_slot ← summary_get SummaryStorage.NextSlotAtBlock;
  ensure (bool_decide (next_slot <= current_block_number)) SummaryError.TooEarlyToAdvance;;
  current_slot_validator ← summary_get SummaryStorage.CurrentSlotsValidator;
  current_slot_validator ← ok_or current_slot_validator SummaryError.CurrentSlotValidatorNotFound;
  elapsed ← gets (grace_period_elapsed current_block_number);
  let own := bool_decide (Validator.account_id validator = current_slot_validator) in
  if (elapsed : bool) then ensure (negb own) SummaryError.GracePeriodElapsed
  else ensure own SummaryError.WrongValidator.
Definition register_offence_if_no_summary_created_in_slot (reporter : Validator.t) : Dispatch unit :=
  x ← gets summary;
  if bool_decide (SummaryStorage.SlotOfLastPublishedSummary x < SummaryStorage.CurrentSlot x) then
    match SummaryStorage.CurrentSlotsValidator x with
    | None => mret ()
    | Some current_slot_validator =>
        create_and_report_summary_offence (Validator.account_id reporter) [current_slot_validator]
          SummaryOffenceType.NoSummaryCreated;;
        summary_event (SummaryEvent.SummaryNotPublishedOffence current_slot_validator
          (SummaryStorage.CurrentSlot x) (SummaryStorage.SlotOfLastPublishedSummary x)
          (SummaryStorage.NextSlotAtBlock x))
    end
  else mret ().
Definition update_slot_number validator : Dispatch unit :=
  validator_can_advance_slot validator;;
  register_offence_if_no_summary_created_in_slot validator;;
  current_slot ← summary_get SummaryStorage.CurrentSlot;
  new_slot_number ← ok_or (safe_add_block_numbers current_slot 1) SummaryError.Overflow;
  new_validator_account_id ← calculate_primary_validator_for_block new_slot_number;
  next_slot ← summary_get SummaryStorage.NextSlotAtBlock;
  schedule_period ← summary_get SummaryStorage.SchedulePeriod;
  next_slot_start_block ← ok_or (safe_add_block_numbers next_slot schedule_period) SummaryError.Overflow;
  summary_modify (SummaryStorage.upd_CurrentSlot (λ _, new_slot_number));;
  summary_modify (SummaryStorage.upd_CurrentSlotsValidator (λ _, Some new_validator_account_id));;
  summary_modify (SummaryStorage.upd_NextSlotAtBlock (λ _, next_slot_start_block));;
  summary_event (SummaryEvent.SlotAdvanced (Validator.account_id validator) new_slot_number
    new_validator_account_id next_slot_start_block).

Definition get_target_block : Dispatch Z :=
  next_block ← summary_get SummaryStorage.NextBlockToProcess;
  schedule_period ← summary_get SummaryStorage.SchedulePeriod;
  end_block_number ← ok_or (safe_add_block_numbers next_block schedule_period) SummaryError.Overflow;
  if bool_decide (next_block = 0) then mret end_block_number
  else ok_or (safe_sub_block_numbers end_block_number 1) SummaryError.Overflow.
Definition summary_is_neither_pending_nor_approved (root_range : RootRange.t) s : bool :=
  let has_been_approved :=
    existsb (λ '(id, root), bool_decide (RootId.range id = root_range) && RootData.is_validated root)
      (map_to_list (SummaryStorage.Roots (summary s))) in
  bool_decide (SummaryStorage.PendingApproval (summary s) !! root_range = None) &&
  negb has_been_approved.

(** [SummaryChallenge::is_valid]. *)
Definition challenge_is_valid (challenge : SummaryChallenge.t)
    (current_slot_number current_block_number : Z) (challengee : AccountId) s : bool :=
  match SummaryChallenge.challenge_reason challenge with
  | SummaryChallengeReason.SlotNotAdvanced slot_number_to_challenge =>
      match SummaryStorage.CurrentSlotsValidator (summary s) with
      | None => false
      | Some current_slot_validator =>
          bool_decide (slot_number_to_challenge = current_slot_number) &&
          grace_period_elapsed current_block_number s &&
          bool_decide (challengee = current_slot_validator)
      end
  | SummaryChallengeReason.Unknown => false
  end.

(** ** External validation ([utils.rs]) *)

Definition set_summary_status root_id (status : ExternalValidationEnum.t) : Dispatch unit :=
  summary_modify (SummaryStorage.upd_ExternalValidationStatus (insert root_id status)).
Definition cleanup_external_validation_data root_id (external_ref : H256) : Dispatch unit :=
  summary_modify (SummaryStorage.upd_ExternalValidationStatus (delete root_id));;
  summary_modify (SummaryStorage.upd_ExternalValidationRef (delete external_ref));;
  summary_modify (SummaryStorage.upd_PendingAdminReviews (delete root_id)).
Definition get_root_id_by_external_ref (external_ref : H256) s : option RootId.t :=
  SummaryStorage.ExternalValidationRef (summary s) !! external_ref.
Definition setup_root_for_admin_review root_id (proposal_id : ProposalId) (external_ref : H256)
    (status : ProposalStatusEnum.t) : Dispatch unit :=
  set_summary_status root_id ExternalValidationEnum.PendingAdminReview;;
  summary_modify (SummaryStorage.upd_PendingAdminReviews
    (insert root_id (ExternalValidationData.mk proposal_id external_ref status)));;
  summary_event (SummaryEvent.AdminReviewRequested root_id proposal_id external_ref status).
(** [inner_payload.encode()]. *)
Definition encode_root root_id (root_hash : H256) : bytes :=
  RootId.encode root_id ++ be_bytes 32 root_hash.
Definition get_next_approved_root_id : Dispatch Z :=
  counter ← summary_get SummaryStorage.AnchorRootsCounter;
  next ← ok_or (checked_add_to u32_max counter 1) SummaryError.Overflow;
  summary_modify (SummaryStorage.upd_AnchorRootsCounter (λ _, next));;
  mret counter.

(** What the bridge reports: [BridgeInterfaceNotification]. *)
Definition summary_process_result (tx_id : EthereumId) (caller_id : bytes) (succeeded : bool) :
    Dispatch unit :=
  let matches_caller :=
    if AutoSubmitSummaries then
      bool_decide (take (length caller_id) summary_pallet_id = caller_id)
    else bool_decide (caller_id = summary_pallet_id) in
  roots ← summary_get SummaryStorage.TxIdToRoot;
  match roots !! tx_id with
  | Some root_id =>
      if matches_caller && succeeded then
        mutate_root root_id (RootData.upd_is_finalised (λ _, true));;
        summary_modify (SummaryStorage.upd_TxIdToRoot (delete tx_id))
      else mret ()
  | None => mret ()
  end.
Definition summary_notification : BridgeInterfaceNotification := {|
  process_result := summary_process_result;
  process_lower_proof_result _ _ _ := mret ();
  on_incoming_event_processed _ := mret ();
|}.
End Summary.

(** ** Roots *)

Section Roots.
Context `{BridgeConfig} `{!BridgeInterfaceNotification} `{!NodeConfig} `{!SummaryConfig}.
Implicit Types (s : Runtime.t) (root_id : RootId.t) (validator : Validator.t).

(** The error of the bridge is passed on as its message. *)
Definition send_root_to_ethereum root_id (root_data : RootData.t) : Dispatch unit :=
  tx_id ← publish (BridgeContractMethod.name_as_bytes BridgeContractMethod.PublishRoot)
            [(b "bytes32", be_bytes 32 (RootData.root_hash root_data))] summary_pallet_id;
  mutate_root root_id (RootData.upd_tx_id (λ _, Some tx_id));;
  summary_modify (SummaryStorage.upd_TxIdToRoot (insert tx_id root_id)).
Definition process_accepted_root root_id (root_hash : H256) : Dispatch unit :=
  root_data ← get_root_data root_id;
  if bool_decide (RootData.root_hash root_data = empty_root) then mret ()
  else
    (if AutoSubmitSummaries then send_root_to_ethereum root_id root_data
     else
       approved_root_id ← get_next_approved_root_id;
       summary_modify (SummaryStorage.upd_AnchorRoots
         (insert approved_root_id (RootData.root_hash root_data))));;
    summary_event (SummaryEvent.RootPassedValidation root_id root_hash).

(** [WatchtowerHooks]: errors are logged. *)
Definition summary_voting_completed (proposal_id : ProposalId) (external_ref : H256)
    (result : ProposalStatusEnum.t) : Dispatch unit :=
  root_id ← gets (get_root_id_by_external_ref external_ref);
  match root_id with
  | None => mret ()
  | Some root_id =>
      if bool_decide (result = ProposalStatusEnum.Expired) ||
         bool_decide (result = ProposalStatusEnum.Resolved true)
      then
        root_data ← gets (try_get_root_data root_id);
        match root_data with
        | None => mret ()
        | Some root_data =>
            set_summary_status root_id ExternalValidationEnum.Accepted;;
            r ← try (process_accepted_root root_id (RootData.root_hash root_data));
            match r with
            | inl _ => mret ()
            | inr _ => cleanup_external_validation_data root_id external_ref
            end
        end
      else setup_root_for_admin_review root_id proposal_id external_ref result
  end.
Definition summary_cancelled (proposal_id : ProposalId) (external_ref : H256) : Dispatch unit :=
  root_id ← gets (get_root_id_by_external_ref external_ref);
  match root_id with
  | None => mret ()
  | Some root_id =>
      setup_root_for_admin_review root_id proposal_id external_ref ProposalStatusEnum.Cancelled
  end.
Definition summary_hooks : WatchtowerHooks := {|
  on_proposal_submitted _ _ := mret ();
  on_voting_completed := summary_voting_completed;
  on_cancelled := summary_cancelled;
|}.
End Roots.

Section Calls.
Context `{BridgeConfig} `{!BridgeInterfaceNotification} `{!NodeConfig} `{!SummaryConfig} `{!WatchtowerInterface}.
Implicit Types (s : Runtime.t) (root_id : RootId.t) (validator : Validator.t).

Definition submit_root_for_external_validation root_id (root_hash : H256) : Dispatch unit :=
  current_block ← gets Runtime.block_number;
  let inner_payload := encode_root root_id root_hash in
  let external_ref := hash_of inner_payload in
  let '(title, proposal_type) :=
    if AutoSubmitSummaries then (b "Summary Root", ProposalType.Summary)
    else (b "Anchor Root", ProposalType.Anchor) in
  threshold_val ← summary_get SummaryStorage.ExternalValidationThreshold;
  threshold_val ← ok_or threshold_val SummaryError.ExternalValidationThresholdNotSet;
  submit_proposal None
    (ProposalRequest.mk title (RawPayload.Inline inner_payload) (perbill_from_percent threshold_val)
       (ProposalSource.Internal proposal_type) DecisionRule.SimpleMajority external_ref current_block
       None);;
  summary_modify (SummaryStorage.upd_ExternalValidationRef (insert external_ref root_id));;
  set_summary_status root_id ExternalValidationEnum.ValidationInProgress.

(** ** The end of a vote *)

(** [RootVotingSession]. *)
Definition root_session_state root_id s : DispatchError + VotingSessionData.t :=
  match SummaryStorage.VotesRepository (summary s) !! root_id with
  | Some data => inr data
  | None => inl (Other (b "Root Id is not found in votes repository"))
  end.
Definition root_session_is_valid root_id s : bool :=
  match root_session_state root_id s, try_get_root_data root_id s,
        SummaryStorage.PendingApproval (summary s) !! RootId.range root_id with
  | inr _, Some root_data, Some pending_approval_root_ingress_counter =>
      negb (RootData.is_validated root_data) &&
      bool_decide (pending_approval_root_ingress_counter = RootId.ingress_counter root_id)
  | _, _, _ => false
  end.
Definition root_session_is_active root_id s : bool :=
  match root_session_state root_id s with
  | inl _ => false
  | inr data =>
      bool_decide (Runtime.block_number s < VotingSessionData.end_of_voting_period data) &&
      root_session_is_valid root_id s
  end.
(** [VotesRepository::try_mutate] that pushes a voter. *)
Definition record_vote root_id (votes : VotingSessionData.t → list AccountId)
    (push : (list AccountId → list AccountId) → VotingSessionData.t → VotingSessionData.t)
    (voter : AccountId) : Dispatch unit :=
  data ← gets (get_vote root_id);
  ensure (bool_decide (length (votes data) < MaximumValidatorsBound)%nat) AvnError.VectorBoundsExceeded;;
  summary_modify (SummaryStorage.upd_VotesRepository
    (insert root_id (push (λ l, l ++ [voter]) data))).
Definition can_end_vote (vote : VotingSessionData.t) s : bool :=
  VotingSessionData.has_outcome vote ||
  bool_decide (VotingSessionData.end_of_voting_period vote <= Runtime.block_number s).

Definition accept_root (reporter : AccountId) root_id (vote : VotingSessionData.t)
    (root_data : RootData.t) : Dispatch unit :=
  (if bool_decide (RootData.root_hash root_data = empty_root) then mret ()
   else if ExternalValidationEnabled then
     submit_root_for_external_validation root_id (RootData.root_hash root_data)
   else process_accepted_root root_id (RootData.root_hash root_data));;
  create_and_report_summary_offence reporter (VotingSessionData.nays vote)
    SummaryOffenceType.RejectedValidRoot;;
  next_block_to_process ←
    ok_or (safe_add_block_numbers (RootRange.to_block (RootId.range root_id)) 1) SummaryError.Overflow;
  summary_modify (SummaryStorage.upd_NextBlockToProcess (λ _, next_block_to_process));;
  mutate_root root_id (RootData.upd_is_validated (λ _, true));;
  current_slot ← summary_get SummaryStorage.CurrentSlot;
  summary_modify (SummaryStorage.upd_SlotOfLastPublishedSummary (λ _, current_slot));;
  summary_event (SummaryEvent.SummaryRootValidated (RootData.root_hash root_data)
    (RootId.ingress_counter root_id) (RootId.range root_id)).
Definition refuse_root (reporter : AccountId) (vote : VotingSessionData.t) (root_data : RootData.t) :
    Dispatch unit :=
  root_creator ← ok_or (RootData.added_by root_data) SummaryError.CurrentSlotValidatorNotFound;
  create_and_report_summary_offence reporter [root_creator] SummaryOffenceType.CreatedInvalidRoot;;
  create_and_report_summary_offence reporter (VotingSessionData.ayes vote)
    SummaryOffenceType.ApprovedInvalidRoot.
Definition end_voting (reporter : AccountId) root_id : Dispatch unit :=
  valid ← gets (root_session_is_valid root_id);
  ensure valid SummaryError.VotingSessionIsNotValid;;
  vote ← gets (get_vote root_id);
  can_end ← gets (can_end_vote vote);
  ensure can_end SummaryError.ErrorEndingVotingPeriod;;
  let root_is_approved := VotingSessionData.is_approved vote in
  root_data ← get_root_data root_id;
  (if root_is_approved then accept_root reporter root_id vote root_data
   else refuse_root reporter vote root_data);;
  summary_modify (SummaryStorage.upd_PendingApproval (delete (RootId.range root_id)));;
  summary_event (SummaryEvent.VotingEnded root_id root_is_approved).

Definition get_root_voting_session root_id : VotingSessionManager := {|
  cast_vote_payload := Payload.CAST_VOTE_CONTEXT;
  end_voting_period_payload := Payload.END_VOTING_PERIOD_CONTEXT;
  state := root_session_state root_id;
  is_valid := root_session_is_valid root_id;
  is_active := root_session_is_active root_id;
  record_approve_vote := record_vote root_id VotingSessionData.ayes VotingSessionData.upd_ayes;
  record_reject_vote := record_vote root_id VotingSessionData.nays VotingSessionData.upd_nays;
  end_voting_session voter := end_voting voter root_id;
|}.

(** ** Dispatchables *)

Definition set_periods (origin : Origin) (schedule_period_in_blocks voting_period_in_blocks : Z) :
    Dispatch unit :=
  ensure_root origin;;
  validate_schedule_period schedule_period_in_blocks;;
  validate_voting_period voting_period_in_blocks schedule_period_in_blocks;;
  next_block_to_process ← summary_get SummaryStorage.NextBlockToProcess;
  new_slot_at_block ←
    ok_or (safe_add_block_numbers next_block_to_process schedule_period_in_blocks) SummaryError.Overflow;
  summary_modify (SummaryStorage.upd_SchedulePeriod (λ _, schedule_period_in_blocks));;
  summary_modify (SummaryStorage.upd_VotingPeriod (λ _, voting_period_in_blocks));;
  summary_modify (SummaryStorage.upd_NextSlotAtBlock (λ _, new_slot_at_block));;
  summary_event (SummaryEvent.SchedulePeriodAndVotingPeriodUpdated schedule_period_in_blocks
    voting_period_in_blocks).
Definition record_summary_calculation (origin : Origin) (new_block_number : Z) (root_hash : H256)
    (ingress_counter : IngressCounter) validator : Dispatch unit :=
  ensure_none origin;;
  ingresses ← summary_get SummaryStorage.TotalIngresses;
  ensure (bool_decide (ingresses +₆₄ 1 = ingress_counter)) SummaryError.InvalidIngressCounter;;
  is_validator ← gets (is_validator (Validator.account_id validator));
  ensure is_validator SummaryError.InvalidKey;;
  next_block ← summary_get SummaryStorage.NextBlockToProcess;
  let root_id := RootId.mk (RootRange.mk next_block new_block_number) ingress_counter in
  expected_target_block ← get_target_block;
  current_block_number ← gets Runtime.block_number;
  fresh ← gets (summary_is_neither_pending_nor_approved (RootId.range root_id));
  ensure fresh SummaryError.SummaryPendingOrApproved;;
  repository ← summary_get SummaryStorage.VotesRepository;
  ensure (bool_decide (repository !! root_id = None))
    SummaryError.RootHasAlreadyBeenRegisteredForVoting;;
  ensure (bool_decide (new_block_number = expected_target_block)) SummaryError.InvalidSummaryRange;;
  quorum ← gets get_quorum;
  voting_period ← summary_get SummaryStorage.VotingPeriod;
  voting_period_end ←
    ok_or (safe_add_block_numbers current_block_number voting_period) SummaryError.Overflow;
  summary_modify (SummaryStorage.upd_TotalIngresses (λ _, ingress_counter));;
  summary_modify (SummaryStorage.upd_Roots
    (insert root_id (RootData.new root_hash (Validator.account_id validator) None)));;
  summary_modify (SummaryStorage.upd_PendingApproval (insert (RootId.range root_id) ingress_counter));;
  summary_modify (SummaryStorage.upd_VotesRepository
    (insert root_id (VotingSessionData.new (RootId.session_id root_id) quorum voting_period_end
                       current_block_number)));;
  summary_event (SummaryEvent.SummaryCalculated next_block new_block_number root_hash
    (Validator.account_id validator)).
Definition approve_root (origin : Origin) root_id validator : Dispatch unit :=
  ensure_none origin;;
  get_root_data root_id;;
  process_approve_vote (get_root_voting_session root_id) (Validator.account_id validator);;
  summary_event (SummaryEvent.VoteAdded (Validator.account_id validator) root_id true).
Definition reject_root (origin : Origin) root_id validator : Dispatch unit :=
  ensure_none origin;;
  process_reject_vote (get_root_voting_session root_id) (Validator.account_id validator);;
  summary_event (SummaryEvent.VoteAdded (Validator.account_id validator) root_id false).
Definition end_voting_period (origin : Origin) root_id validator : Dispatch unit :=
  ensure_none origin;;
  end_voting (Validator.account_id validator) root_id.
Definition advance_slot (origin : Origin) validator : Dispatch unit :=
  ensure_none origin;;
  update_slot_number validator.
Definition add_challenge (origin : Origin) (challenge : SummaryChallenge.t) validator : Dispatch unit :=
  ensure_none origin;;
  current_slot ← summary_get SummaryStorage.CurrentSlot;
  block_number ← gets Runtime.block_number;
  ok ← gets (challenge_is_valid challenge current_slot block_number
               (SummaryChallenge.challengee challenge));
  ensure ok SummaryError.InvalidChallenge;;
  let offender := SummaryChallenge.challengee challenge in
  let challenge_type :=
    match SummaryChallenge.challenge_reason challenge with
    | SummaryChallengeReason.SlotNotAdvanced _ => Some SummaryOffenceType.SlotNotAdvanced
    | SummaryChallengeReason.Unknown => None
    end in
  challenge_type ← ok_or challenge_type SummaryError.InvalidChallenge;
  create_and_report_summary_offence (Validator.account_id validator) [offender] challenge_type;;
  update_slot_number validator;;
  summary_event (SummaryEvent.ChallengeAdded (SummaryChallenge.challenge_reason challenge)
    (SummaryChallenge.challenger challenge) (SummaryChallenge.challengee challenge)).
Definition set_summary_admin_config (origin : Origin) (config : SummaryAdminConfig.t) : Dispatch unit :=
  ensure_root origin;;
  match config with
  | SummaryAdminConfig.ExternalValidationThreshold threshold =>
      summary_modify (SummaryStorage.upd_ExternalValidationThreshold (λ _, Some threshold));;
      ensure (bool_decide (0 < threshold) && bool_decide (threshold <= 100))
        SummaryError.InvalidExternalValidationThreshold;;
      summary_modify (SummaryStorage.upd_ExternalValidationThreshold (λ _, Some threshold));;
      summary_event (SummaryEvent.ExternalValidationThresholdSet threshold)
  | SummaryAdminConfig.SchedulePeriod period =>
      validate_schedule_period period;;
      voting_period ← summary_get SummaryStorage.VotingPeriod;
      validate_voting_period voting_period period;;
      next_block_to_process ← summary_get SummaryStorage.NextBlockToProcess;
      new_slot_at_block ←
        ok_or (safe_add_block_numbers next_block_to_process period) SummaryError.Overflow;
      summary_modify (SummaryStorage.upd_SchedulePeriod (λ _, period));;
      summary_modify (SummaryStorage.upd_NextSlotAtBlock (λ _, new_slot_at_block));;
      summary_event (SummaryEvent.SchedulePeriodSet period)
  | SummaryAdminConfig.VotingPeriod period =>
      schedule_period ← summary_get SummaryStorage.SchedulePeriod;
      validate_voting_period period schedule_period;;
      summary_modify (SummaryStorage.upd_VotingPeriod (λ _, period));;
      summary_event (SummaryEvent.VotingPeriodSet period)
  end.
Definition admin_resolve_challenge (origin : Origin) root_id (accepted : bool) : Dispatch unit :=
  ensure_root origin;;
  reviews ← summary_get SummaryStorage.PendingAdminReviews;
  pending_review ← ok_or (reviews !! root_id) SummaryError.ExternalValidationRequestNotFound;
  root_data ← get_root_data root_id;
  statuses ← summary_get SummaryStorage.ExternalValidationStatus;
  external_validation_status ←
    ok_or (statuses !! root_id) SummaryError.ExternalValidationStatusMissing;
  ensure (bool_decide (external_validation_status = ExternalValidationEnum.PendingAdminReview))
    SummaryError.InvalidRoot;;
  (if accepted then process_accepted_root root_id (RootData.root_hash root_data) else mret ());;
  cleanup_external_validation_data root_id (ExternalValidationData.external_ref pending_review);;
  summary_event (SummaryEvent.RootChallengeResolved root_id accepted).

Inductive SummaryCall : Type :=
  | Call_set_periods (schedule_period_in_blocks voting_period_in_blocks : Z)
  | Call_record_summary_calculation (new_block_number : Z) (root_hash : H256)
      (ingress_counter : IngressCounter) (validator : Validator.t) (signature : AuthoritySignature)
  | Call_approve_root (root_id : RootId.t) (validator : Validator.t) (signature : AuthoritySignature)
  | Call_reject_root (root_id : RootId.t) (validator : Validator.t) (signature : AuthoritySignature)
  | Call_end_voting_period (root_id : RootId.t) (validator : Validator.t)
      (signature : AuthoritySignature)
  | Call_advance_slot (validator : Validator.t) (signature : AuthoritySignature)
  | Call_add_challenge (challenge : SummaryChallenge.t) (validator : Validator.t)
      (signature : AuthoritySignature)
  | Call_set_summary_admin_config (config : SummaryAdminConfig.t)
  | Call_admin_resolve_challenge (root_id : RootId.t) (accepted : bool).
Definition summary_call (origin : Origin) (call : SummaryCall) : Dispatch unit :=
  match call with
  | Call_set_periods schedule_period voting_period => set_periods origin schedule_period voting_period
  | Call_record_summary_calculation new_block_number root_hash ingress_counter validator _ =>
      record_summary_calculation origin new_block_number root_hash ingress_counter validator
  | Call_approve_root root_id validator _ => approve_root origin root_id validator
  | Call_reject_root root_id validator _ => reject_root origin root_id validator
  | Call_end_voting_period root_id validator _ => end_voting_period origin root_id validator
  | Call_advance_slot validator _ => advance_slot origin validator
  | Call_add_challenge challenge validator _ => add_challenge origin challenge validator
  | Call_set_summary_admin_config config => set_summary_admin_config origin config
  | Call_admin_resolve_challenge root_id accepted => admin_resolve_challenge origin root_id accepted
  end.

(** ** Admission of unsigned calls *)

Definition is_slot_validator validator s : bool :=
  bool_decide (SummaryStorage.CurrentSlotsValidator (summary s) = Some (Validator.account_id validator)).
Definition record_summary_validate_unsigned (new_block_number : Z) (root_hash : H256)
    (ingress_counter : IngressCounter) validator (signature : AuthoritySignature) s :
    option InvalidTransaction :=
  if negb (is_slot_validator validator s) then Some (Custom ERROR_CODE_VALIDATOR_IS_NOT_PRIMARY)
  else if signature_is_valid (Payload.UPDATE_BLOCK_NUMBER_CONTEXT InstanceId root_hash ingress_counter
                                new_block_number) validator signature s
  then None else Some BadProof.
Definition advance_slot_validate_unsigned validator (signature : AuthoritySignature) s :
    option InvalidTransaction :=
  if negb (is_slot_validator validator s) then Some (Custom ERROR_CODE_VALIDATOR_IS_NOT_PRIMARY)
  else if signature_is_valid (Payload.ADVANCE_SLOT_CONTEXT InstanceId
                                (SummaryStorage.CurrentSlot (summary s))) validator signature s
  then None else Some BadProof.
Definition add_challenge_validate_unsigned (challenge : SummaryChallenge.t) validator
    (signature : AuthoritySignature) s : option InvalidTransaction :=
  if bool_decide (SummaryChallenge.challenge_reason challenge = SummaryChallengeReason.Unknown)
  then Some (Custom UNKNOWN_CHALLENGE_REASON)
  else if signature_is_valid (Payload.CHALLENGE_CONTEXT challenge) validator signature s
  then None else Some BadProof.
Definition validate_unsigned_summary (call : SummaryCall) s : option InvalidTransaction :=
  match call with
  | Call_record_summary_calculation new_block_number root_hash ingress_counter validator signature =>
      record_summary_validate_unsigned new_block_number root_hash ingress_counter validator signature s
  | Call_end_voting_period root_id validator signature =>
      end_voting_period_validate_unsigned (get_root_voting_session root_id) validator signature s
  | Call_approve_root root_id validator signature =>
      if bool_decide (try_get_root_data root_id s = None) then Some (Custom ERROR_CODE_INVALID_ROOT_RANGE)
      else approve_vote_validate_unsigned (get_root_voting_session root_id) validator signature s
  | Call_reject_root root_id validator signature =>
      reject_vote_validate_unsigned (get_root_voting_session root_id) validator signature s
  | Call_add_challenge challenge validator signature =>
      add_challenge_validate_unsigned challenge validator signature s
  | Call_advance_slot validator signature => advance_slot_validate_unsigned validator signature s
  | _ => Some InvalidCall
  end.

(** ** Genesis *)

Definition build_summary (schedule_period voting_period : Z) : Dispatch unit :=
  let schedule_period_in_blocks :=
    if bool_decide (schedule_period = 0) then DEFAULT_SCHEDULE_PERIOD else schedule_period in
  expect_ok (validate_schedule_period schedule_period_in_blocks);;
  summary_modify (SummaryStorage.upd_NextSlotAtBlock (λ _, schedule_period_in_blocks));;
  summary_modify (SummaryStorage.upd_SchedulePeriod (λ _, schedule_period_in_blocks));;
  let voting_period_in_blocks :=
    if bool_decide (voting_period = 0) then MIN_VOTING_PERIOD else voting_period in
  expect_ok (validate_voting_period voting_period_in_blocks schedule_period_in_blocks);;
  summary_modify (SummaryStorage.upd_VotingPeriod (λ _, voting_period_in_blocks));;
  vs ← gets validators;
  first_validator ← expect (head vs);
  summary_modify (SummaryStorage.upd_CurrentSlotsValidator
    (λ _, Some (Validator.account_id first_validator))).
End Calls.
