(* ===== verification/Periods.v ===== *)
(** * Reward periods: the invariant

    The periods between the oldest unpaid one and the current one have a pot each;
    heartbeats are counted in them, and the payout of the oldest works through its
    nodes in the order of their keys. *)

From S2P Require Import Prelude Frames Slices Bytes EventTypes EventParsing.
From S2P Require Import EventDiscovery EthTypes RuntimeErrors NodeTypes BridgeTypes.
From S2P Require Import Avn NodeStake EthBridge BridgeEvents TokenManager BridgeInv.
From S2P Require Import BridgeCalls BridgeProps NodeRewards NodeManager NodeInv.
From S2P Require Import NodeDispatch NodeProps.

(** ** What is assumed of the arithmetic and of the hashes of keys *)

(** The parts of a [Perquintill]. *)
Definition QUINTILLION : Z := 1000000000000000000.
(** Conversions round down; products with a factor that is not below one do not shrink. *)
Class NodeLaws (N : NodeConfig) : Prop := {
  #[global] position_inj :: Inj (=) (=) node_position;
  virtual_stake_nonneg : 0 <= VirtualNodeStake;
  perbill_mul_nonneg p x : 0 <= x → 0 <= perbill_mul p x;
  perbill_mul_floor_nonneg p x : 0 <= x → 0 <= perbill_mul_floor p x;
  perquintill_from_rational_le w total :
    0 <= w → 0 < total →
    0 <= perquintill_from_rational w total ∧
    perquintill_from_rational w total * total <= QUINTILLION * w;
  perquintill_mul_floor_le q x :
    0 <= q → 0 <= x → 0 <= perquintill_mul_floor q x ∧ perquintill_mul_floor q x * QUINTILLION <= q * x;
  fixed_bonus_50 : fixed_one <= fixed_from_rational 3 2;
  fixed_bonus_25 : fixed_one <= fixed_from_rational 5 4;
  fixed_from_rational_nonneg n d : 0 <= n → 0 <= d → 0 <= fixed_from_rational n d;
  fixed_add_le x y : fixed_one <= x → 0 <= y → fixed_one <= fixed_add x y;
  fixed_mul_int_le x n : fixed_one <= x → 0 < n <= u128_max → n <= fixed_mul_int x n <= u128_max;
}.

Section Periods.
Context `{BridgeConfig} `{!NodeConfig} `{!NodeLaws _}.
Implicit Types (s : Runtime.t) (n : NodeStorage.t) (i : NodeInfo.t) (k : NodeId) (u : UptimeInfo.t)
  (p : RewardPeriodIndex).

Definition oldest n : RewardPeriodIndex := NodeStorage.OldestUnpaidRewardPeriodIndex n.
Definition current n : RewardPeriodIndex := RewardPeriodInfo.current (NodeStorage.RewardPeriod n).
Definition period_uptimes n p : list (NodeId * UptimeInfo.t) := uptimes_of p (NodeStorage.NodeUptime n).
Definition weight_of (x : NodeId * UptimeInfo.t) : Z := UptimeInfo.weight x.2.
Definition period_weight n p : Z := TotalUptimeInfo.total_weight
  (unwrap_or (TotalUptimeInfo.mk 0 0) (NodeStorage.TotalUptime n !! p)).
(** The heartbeats a node needs in a period. *)
Definition threshold_of n p : Z :=
  if decide (p = current n) then RewardPeriodInfo.uptime_threshold (NodeStorage.RewardPeriod n)
  else from_option RewardPotInfo.uptime_threshold 0 (NodeStorage.RewardPot n !! p).
Definition uptime_ok n p u : Prop :=
  oldest n <= p <= current n ∧ 0 < UptimeInfo.weight u ∧
  0 < UptimeInfo.count u <= Z.max 1 (threshold_of n p).

Record periods_ok n : Prop := {
  pe_order : 0 <= oldest n <= current n ∧ current n <= u64_max;
  (** Every period that has ended and is not paid out has a pot. *)
  pe_pots p : is_Some (NodeStorage.RewardPot n !! p) ↔ oldest n <= p < current n;
  pe_reward p pot : NodeStorage.RewardPot n !! p = Some pot → 0 <= RewardPotInfo.total_reward pot;
  pe_amounts : 0 <= RewardPeriodInfo.reward_amount (NodeStorage.RewardPeriod n) ∧
               0 <= NodeStorage.NextRewardAmountPerPeriod n;
  (** What is owed is what is in the pots. *)
  pe_outstanding : NodeStorage.OutstandingRewardToPay n =
    map_sum (λ _ pot, RewardPotInfo.total_reward pot) (NodeStorage.RewardPot n);
  (** A node is counted as often as it must be and not more. *)
  pe_uptime p k u : NodeStorage.NodeUptime n !! (p, k) = Some u → uptime_ok n p u;
  (** The shares of the nodes of a period do not exceed the whole, unless it saturated. *)
  pe_weight p : period_weight n p < u128_max → zsum weight_of (period_uptimes n p) <= period_weight n p;
  (** A period has a weight exactly when it has nodes to pay. *)
  pe_total p : 0 <= period_weight n p ∧ (period_weight n p = 0 ↔ period_uptimes n p = []);
  (** The nodes that are left to pay come after the last one paid. *)
  pe_pointer ptr : NodeStorage.LastPaidPointer n = Some ptr →
    PaymentPointer.period_index ptr = oldest n ∧ oldest n < current n ∧
    Forall (λ x, (node_position (PaymentPointer.node ptr) < node_position x.1)%N)
      (period_uptimes n (oldest n));
  pe_batch : 0 < NodeStorage.MaxBatchSize n;
  pe_lengths : 0 <= NodeStorage.NextRewardPeriodLength n ∧ 0 <= NodeStorage.NextHeartbeatPeriod n;
  pe_threshold p : 0 <= threshold_of n p;
}.
Definition period_view n :=
  (NodeStorage.RewardPot n, NodeStorage.OutstandingRewardToPay n, NodeStorage.RewardPeriod n,
   NodeStorage.OldestUnpaidRewardPeriodIndex n, NodeStorage.LastPaidPointer n, NodeStorage.NodeUptime n,
   NodeStorage.TotalUptime n, NodeStorage.MaxBatchSize n, NodeStorage.NextRewardAmountPerPeriod n,
   NodeStorage.NextRewardPeriodLength n, NodeStorage.NextHeartbeatPeriod n).
Lemma periods_ok_same n n' : period_view n' = period_view n → periods_ok n → periods_ok n'.
Proof.
  unfold period_view. intros [= E1 E2 E3 E4 E5 E6 E7 E8 E9 E10 E11] [A B C D E F G I J K L M].
  constructor; unfold uptime_ok, threshold_of, period_weight, period_uptimes, oldest, current in *;
    rewrite ?E1, ?E2, ?E3, ?E4, ?E5, ?E6, ?E7, ?E8, ?E9, ?E10, ?E11; done.
Qed.

(** ** The weight of a heartbeat *)

Lemma stake_bonus_le i : 0 <= amount_of i → fixed_one <= calculate_stake_bonus i.
Proof.
  intros Hi. unfold calculate_stake_bonus. case_bool_decide; [done|].
  apply fixed_add_le; [done|]. apply fixed_from_rational_nonneg; [done|apply virtual_stake_nonneg].
Qed.
Lemma genesis_bonus_le i t s : fixed_one <= calculate_genesis_bonus i t s.
Proof.
  unfold calculate_genesis_bonus. case_bool_decide; [done|].
  destruct (get_genesis_bonus _ _) as [[]|]; [apply fixed_bonus_50|apply fixed_bonus_25|done|done].
Qed.
Lemma heartbeat_weight_range i t s :
  0 <= amount_of i → 0 < effective_heartbeat_weight i t s <= u128_max.
Proof.
  intros Hi. unfold effective_heartbeat_weight, compute_reward_weight, to_heartbeat_weight. cbn.
  pose proof (stake_bonus_le i Hi) as H1. pose proof (genesis_bonus_le i t s) as H2.
  assert (0 < HEARTBEAT_BASE_WEIGHT <= u128_max) as Hb by (unfold HEARTBEAT_BASE_WEIGHT, u128_max; lia).
  pose proof (fixed_mul_int_le _ _ H1 Hb) as H3.
  set (x := fixed_mul_int _ HEARTBEAT_BASE_WEIGHT) in *.
  pose proof (fixed_mul_int_le _ x H2) as H4. lia.
Qed.

(** ** Heartbeats *)

(** [n'] is [n] with a heartbeat of weight [w] of the node [k] in the current period. *)
Record beaten n k w n' : Prop := {
  be_same : period_view n' = period_view
    (NodeStorage.upd_NodeUptime (λ _, NodeStorage.NodeUptime n')
       (NodeStorage.upd_TotalUptime (λ _, NodeStorage.TotalUptime n') n));
  be_uptime : ∃ u u', u = unwrap_or (UptimeInfo.mk 0 0 (UptimeInfo.last_reported u))
      (NodeStorage.NodeUptime n !! (current n, k)) ∧
    NodeStorage.NodeUptime n' = <[(current n, k) := u']> (NodeStorage.NodeUptime n) ∧
    UptimeInfo.weight u' = UptimeInfo.weight u ⊕ w ∧
    0 < UptimeInfo.count u' <= Z.max 1 (threshold_of n (current n));
  be_total : ∃ h, NodeStorage.TotalUptime n' =
    <[current n := TotalUptimeInfo.mk h (period_weight n (current n) ⊕ w)]> (NodeStorage.TotalUptime n);
}.
Lemma beaten_other n k w n' p :
  beaten n k w n' → p ≠ current n →
  period_uptimes n' p = period_uptimes n p ∧ period_weight n' p = period_weight n p.
Proof.
  intros [_ (u&u'&_&Hu&_) [h Ht]] Hp. unfold period_uptimes, period_weight, uptimes_of. rewrite Hu, Ht. split.
  - apply (prefix_ext node_position). intros k'. by rewrite lookup_insert_ne by congruence.
  - by rewrite lookup_insert_ne by congruence.
Qed.
Lemma beaten_weights n k w n' :
  periods_ok n → beaten n k w n' → 0 < w →
  zsum weight_of (period_uptimes n' (current n)) <= zsum weight_of (period_uptimes n (current n)) + w ∧
  period_uptimes n' (current n) ≠ [].
Proof.
  intros Hn [_ (u&u'&Hu0&Hu&Hw&_) _] Hpos. unfold period_uptimes, uptimes_of. rewrite Hu. set (p := current n) in *.
  rewrite (zsum_perm weight_of _ _ (prefix_insert node_position p (NodeStorage.NodeUptime n) k u')).
  rewrite zsum_cons. unfold weight_of at 1. cbn [snd]. rewrite Hw. split.
  - destruct (NodeStorage.NodeUptime n !! (p, k)) as [v|] eqn:Hk; cbn in Hu0.
    + subst v. rewrite (zsum_perm weight_of _ _ (prefix_lookup node_position _ _ _ _ Hk)).
      rewrite zsum_cons. unfold weight_of at 2. cbn [snd]. unfold saturating_add_to. lia.
    + rewrite prefix_delete_none by done. assert (UptimeInfo.weight u = 0) as -> by by rewrite Hu0.
      unfold saturating_add_to. lia.
  - intros Hnil. eapply not_elem_of_nil. rewrite <- Hnil, prefix_elem. by rewrite lookup_insert_eq.
Qed.
Lemma beaten_ok n k w n' : periods_ok n → beaten n k w n' → 0 < w → periods_ok n'.
Proof.
  intros Hn Hb Hw. pose proof (beaten_weights n k w n' Hn Hb Hw) as [Hsum Hne].
  pose proof (λ p, beaten_other n k w n' p Hb) as Hother.
  destruct Hb as [Hsame (u&u'&Hu0&Hu&Hw'&Hc) [h Ht]].
  unfold period_view in Hsame. cbn in Hsame. injection Hsame as E1 E2 E3 E4 E5 E8 E9 E10 E11.
  pose proof Hn as [A B C D E F G I J K L M].
  assert (oldest n' = oldest n) as Eo by exact E4. assert (current n' = current n) as Ec by (unfold current; by rewrite E3).
  assert (∀ p, threshold_of n' p = threshold_of n p) as Eth by (intros; unfold threshold_of; by rewrite Ec, E3, E1).
  assert (period_weight n' (current n) = period_weight n (current n) ⊕ w) as Hpw.
  { unfold period_weight at 1. by rewrite Ht, lookup_insert_eq. }
  constructor; rewrite ?Eo, ?Ec, ?E1, ?E2, ?E3, ?E8, ?E9, ?E10, ?E11; try done.
  - intros p k' v. unfold uptime_ok. rewrite Eth, Hu, Eo, Ec. intros [[[= <- <-] <-]|[Hk Hv]]%lookup_insert_Some.
    + split; [lia|]. split; [|done]. rewrite Hw'.
      destruct (NodeStorage.NodeUptime n !! (current n, k)) as [v|] eqn:Hk; cbn in Hu0.
      * subst v. apply F in Hk as (_&?&_). unfold saturating_add_to, u128_max. lia.
      * rewrite Hu0. unfold saturating_add_to, u128_max. cbn. lia.
    + by eapply F.
  - intros p. destruct (decide (p = current n)) as [->|Hp].
    + rewrite Hpw. specialize (G (current n)). unfold saturating_add_to. lia.
    + destruct (Hother p Hp) as [-> ->]. apply G.
  - intros p. destruct (decide (p = current n)) as [->|Hp].
    + rewrite Hpw. destruct (I (current n)) as [HI _]. unfold saturating_add_to, u128_max. split; [lia|].
      split; [lia|]. by intros.
    + destruct (Hother p Hp) as [-> ->]. apply I.
  - intros ptr Hp. rewrite E5 in Hp. destruct (J ptr Hp) as (Hi&Ho&Hf). split_and!; [done|done|].
    destruct (Hother (oldest n)) as [-> _]; [lia|done].
  - intros p. rewrite Eth. apply M.
Qed.

(** A heartbeat that is accepted: it is of the current period, numbered by those that
    came before, spaced by the heartbeat period and below the threshold. *)
Definition may_beat s k p (c : Z) : Prop :=
  let period := NodeStorage.RewardPeriod (Runtime.nodes s) in
  is_Some (node_info k s) ∧ p = RewardPeriodInfo.current period ∧
  match uptime p k s with
  | Some u =>
      UptimeInfo.count u < RewardPeriodInfo.uptime_threshold period ∧
      UptimeInfo.last_reported u +₃₂ RewardPeriodInfo.heartbeat_period period <= Runtime.block_number s ∧
      c = UptimeInfo.count u
  | None => c = 0
  end.
Lemma validate_heartbeats_spec k p c s :
  wp (validate_heartbeats k p c) s
    (λ _ s', s' = s ∧ may_beat s k p c) (λ _ s', s' = s ∧ ¬ may_beat s k p c).
Proof.
  unfold validate_heartbeats, node_get, may_beat. repeat wp_step; bool_tac; try naive_solver.
  destruct (uptime p k s) as [u|] eqn:Hu; repeat wp_step; bool_tac; cbn in *; naive_solver.
Qed.
Lemma submit_heartbeat_spec origin k p c s :
  nodes_ok s → periods_ok (Runtime.nodes s) →
  wp (offchain_submit_heartbeat origin k p c) s
    (λ _ s', may_beat s k p c ∧ ∃ w, 0 < w ∧ beaten (Runtime.nodes s) k w (Runtime.nodes s'))
    (λ _ s', s' = s).
Proof.
  intros [HR _] Hn. unfold offchain_submit_heartbeat. wp_step.
  eapply wp_mono; [apply (ensure_none_ok (eq s) origin s eq_refl)| |by intros ? ? <-]. intros [] s0 <-.
  wp_step. eapply wp_mono; [apply validate_heartbeats_spec| |by intros ? ? [? _]]. intros [] s0 [-> Hb].
  unfold node_get, node_modify, node_event, deposit_event. repeat wp_step; try done.
  split; [done|]. rename select (node_info k s = Some _) into Hi.
  pose proof (rg_amount _ _ _ HR k _ Hi) as Ha.
  pose proof (heartbeat_weight_range _ (Runtime.now s) s Ha) as Hw.
  eexists. split; [apply Hw|]. clear Hw. destruct Hb as (_&->&Hm).
  constructor; [done| |by eexists].
  eexists _, _. split; [|split; [reflexivity|split; [reflexivity|]]].
  - change (NodeStorage.NodeUptime (Runtime.nodes s) !! (current (Runtime.nodes s), k))
      with (uptime (current (Runtime.nodes s)) k s). cbn. unfold current. by destruct (uptime _ k s).
  - cbn. cbn in Hm. unfold threshold_of, saturating_add_to, u64_max. rewrite decide_True by done.
    change (RewardPeriodInfo.current (NodeStorage.RewardPeriod (Runtime.nodes s)))
      with (current (Runtime.nodes s)) in *.
    destruct (uptime (current (Runtime.nodes s)) k s) as [u|] eqn:Hu; cbn; [|lia].
    apply (pe_uptime _ Hn) in Hu as (_&_&?). lia.
Qed.

(** ** The next period *)

Lemma wp_around {A} (m : Dispatch A) s Q (R : DispatchError → Runtime.t → Prop) :
  leaves around m → (∀ s, ∃ a, (m s).1 = Ok a) → (∀ a s', around s' = around s → Q a s') → wp m s Q R.
Proof.
  intros Hl Ht HQ. specialize (Hl s). destruct (Ht s) as [a Ha]. unfold wp.
  destruct (m s) as [r s']. cbn in *. subst r. by apply HQ.
Qed.

(** The pot of the period that ends, and the period that follows. *)
Definition ended (b length heartbeat threshold now : Z) n n' : Prop :=
  let r := NodeStorage.RewardPeriod n in
  NodeStorage.RewardPeriod n' =
    update r b length heartbeat threshold (NodeStorage.NextRewardAmountPerPeriod n) ∧
  NodeStorage.RewardPot n' = <[current n :=
    RewardPotInfo.mk (RewardPeriodInfo.reward_amount r) (RewardPeriodInfo.uptime_threshold r) now]>
      (NodeStorage.RewardPot n) ∧
  NodeStorage.OutstandingRewardToPay n' =
    NodeStorage.OutstandingRewardToPay n ⊕ RewardPeriodInfo.reward_amount r ∧
  period_view n' = period_view (NodeStorage.upd_RewardPeriod (λ _, NodeStorage.RewardPeriod n')
    (NodeStorage.upd_RewardPot (λ _, NodeStorage.RewardPot n')
       (NodeStorage.upd_OutstandingRewardToPay (λ _, NodeStorage.OutstandingRewardToPay n') n))).
(** There is room for another period and its reward. *)
Definition solvent n : Prop :=
  current n < u64_max ∧
  NodeStorage.OutstandingRewardToPay n + RewardPeriodInfo.reward_amount (NodeStorage.RewardPeriod n) <= u128_max.
Lemma ended_ok b length heartbeat threshold now n n' :
  periods_ok n → solvent n → 0 <= threshold → ended b length heartbeat threshold now n n' → periods_ok n'.
Proof.
  intros Hn [Hc Hs] Hth (Er&Ep&Eo&Ev). pose proof Hn as [A B C D E F G I J K L M].
  unfold period_view in Ev. cbn in Ev. injection Ev as E4 E5 E6 E7 E8 E9 E10 E11.
  assert (oldest n' = oldest n) as Eold by exact E4.
  assert (current n' = current n + 1) as Ec.
  { unfold current at 1. rewrite Er. cbn. fold (current n). unfold saturating_add_to. lia. }
  assert (NodeStorage.RewardPot n !! current n = None) as Hfresh.
  { apply eq_None_not_Some. rewrite B. lia. }
  constructor; rewrite ?Eold, ?Ec, ?E8, ?E9, ?E10, ?E11; try done.
  - lia.
  - intros p. rewrite Ep, lookup_insert_is_Some, B. lia.
  - intros p pot. rewrite Ep. intros [[_ <-]|[_ Hp]]%lookup_insert_Some; [apply D|by eapply C].
  - rewrite Er. cbn. lia.
  - rewrite Eo, Ep, map_sum_insert_fresh by done. cbn. rewrite sat_add_small by done. lia.
  - intros p k u Hu. rewrite E6 in Hu. apply F in Hu as (Hr&Hw&Hcnt). unfold uptime_ok. rewrite Eold, Ec.
    split_and!; [lia|lia|done|lia|]. replace (threshold_of n' p) with (threshold_of n p); [lia|].
    unfold threshold_of. rewrite Ec, Ep. rewrite (decide_False (P := p = current n + 1)) by lia.
    case_decide; [subst p; by rewrite lookup_insert_eq|by rewrite lookup_insert_ne].
  - intros p. unfold period_weight, period_uptimes. rewrite E6, E7. apply G.
  - intros p. unfold period_weight, period_uptimes. rewrite E6, E7. apply I.
  - intros ptr. rewrite E5. unfold period_uptimes. rewrite E6. intros Hp. destruct (J ptr Hp) as (?&?&?).
    split_and!; [done|lia|done].
  - intros p. unfold threshold_of at 1. rewrite Ec, Er, Ep. cbn. case_decide; [done|].
    destruct (decide (p = current n)) as [->|Hp].
    + rewrite lookup_insert_eq. cbn. specialize (M (current n)). unfold threshold_of in M.
      by rewrite decide_True in M.
    + rewrite lookup_insert_ne by done. specialize (M p). unfold threshold_of in M. by rewrite decide_False in M.
Qed.
End Periods.

(** * The payout of a period

    What one payment, one batch and the whole payout of a period do: every node of
    the period is handled once, in the order of its key, and together they are paid no
    more than the reward of the period. *)

Section Payouts.
Context `{BridgeConfig} `{!NodeConfig} `{!NodeLaws _} `{!ReserveLaws _}.
Context `{!AppChainInterface} `{!AppChainLaws _}.
Implicit Types (s : Runtime.t) (n : NodeStorage.t) (i : NodeInfo.t) (k : NodeId) (u : UptimeInfo.t)
  (p : RewardPeriodIndex).

(** ** The book: what the events say of heartbeats, periods and payments *)

Definition booked (e : NodeEvent.t) : bool :=
  match e with
  | NodeEvent.NewRewardPeriodStarted _ _ _ _ | NodeEvent.RewardPaid _ _ _ _
  | NodeEvent.ErrorPayingReward _ _ _ | NodeEvent.HeartbeatReceived _ _ => true
  | _ => false
  end.
Definition book s : list NodeEvent.t := filter booked (node_events s).
(** The node a payment of the period [p] is about, and what it was paid. *)
Definition payment p (e : NodeEvent.t) : option (NodeId * Balance) :=
  match e with
  | NodeEvent.RewardPaid q _ k amount => if bool_decide (q = p) then Some (k, amount) else None
  | NodeEvent.ErrorPayingReward q k _ => if bool_decide (q = p) then Some (k, 0) else None
  | _ => None
  end.
Definition payments p s : list (NodeId * Balance) := omap (payment p) (book s).
Definition paying s := (period_view (Runtime.nodes s), book s).

Lemma book_event e s :
  book (Runtime.upd_events (λ l, l ++ [NodeManagerEvent e]) s) =
  book s ++ (if booked e then [e] else []).
Proof.
  unfold book, node_events. cbn. rewrite omap_app, filter_app. f_equal. cbn. unfold filter. cbn.
  by destruct (booked e).
Qed.
Lemma paying_around {A} (m : Dispatch A) : leaves around m → leaves paying m.
Proof.
  intros Hm s. unfold paying, book.
  rewrite (f_equal (snd ∘ fst ∘ fst) (Hm s) : Runtime.nodes _ = Runtime.nodes _).
  by rewrite (f_equal snd (Hm s) : node_events _ = node_events _).
Qed.
Lemma paying_event e : booked e = false → leaves paying (node_event e).
Proof.
  intros He. apply leaves_modify. intros s. unfold paying. by rewrite book_event, He, app_nil_r.
Qed.
Lemma paying_modify f :
  (∀ n, period_view (f n) = period_view n) → leaves paying (node_modify f).
Proof. intros Hf. apply leaves_modify. intros s. unfold paying. f_equal. apply Hf. Qed.
#[local] Hint Extern 1 (leaves paying (node_modify _)) => apply paying_modify; reflexivity : frame.
Lemma paying_assets f e : leaves paying (update_assets f e).
Proof. unfold update_assets. leaves_tac. Qed.
Lemma paying_treasury amount w : leaves paying (pay_treasury amount w).
Proof.
  assert (∀ e, leaves paying (token_event e)).
  { intros e. apply leaves_modify. intros s. unfold paying, book, node_events. cbn.
    by rewrite omap_app, app_nil_r. }
  unfold pay_treasury, settle_transfer, token_get, put_balance, token_modify.
  pose proof paying_assets. leaves_tac.
Qed.
Lemma paying_add_stake o k amount : leaves paying (do_add_stake o k amount).
Proof.
  unfold do_add_stake, put_node, raise_total_stake, update_reserves, node_get. leaves_tac.
Qed.
#[local] Hint Resolve paying_treasury paying_add_stake paying_assets : frame.

(** ** One payment *)

#[local] Hint Resolve modify_total : maintain.
Lemma treasury_no_panic amount w : maintains (λ _, True) (pay_treasury amount w).
Proof.
  unfold pay_treasury, settle_transfer, update_assets, token_get, put_balance, token_modify, token_event,
    deposit_event. maintains_tac.
Qed.
Lemma add_stake_no_panic o k amount : maintains (λ _, True) (do_add_stake o k amount).
Proof.
  unfold do_add_stake, put_node, raise_total_stake, update_reserves, node_get, node_modify. maintains_tac.
Qed.
#[local] Hint Resolve treasury_no_panic add_stake_no_panic : maintain.

(** The payment of [x] has been reported. *)
Definition reported p (x : NodeId * Balance) s s' : Prop :=
  period_view (Runtime.nodes s') = period_view (Runtime.nodes s) ∧
  ∃ e, payment p e = Some x ∧ book s' = book s ++ [e].
Lemma reported_paying p x s s1 s2 : paying s2 = paying s1 → reported p x s s1 → reported p x s s2.
Proof.
  intros Hp (Hv&e&He&Hl). split; [by rewrite (f_equal fst Hp : period_view _ = period_view _)|].
  exists e. by rewrite (f_equal snd Hp : book _ = book _).
Qed.
Lemma paying_reported p x s s1 s2 : paying s1 = paying s → reported p x s1 s2 → reported p x s s2.
Proof.
  intros Hp (Hv&e&He&Hl). split; [by rewrite Hv, (f_equal fst Hp : period_view _ = period_view _)|].
  exists e. by rewrite Hl, (f_equal snd Hp : book _ = book _).
Qed.
Lemma payment_booked p e x : payment p e = Some x → booked e = true.
Proof. by destruct e. Qed.
Lemma event_reported p e x s :
  payment p e = Some x →
  reported p x s (Runtime.upd_events (λ l, l ++ [NodeManagerEvent e]) s).
Proof. intros He. split; [done|]. exists e. by rewrite book_event, (payment_booked p e x He). Qed.
Lemma wp_paying {A} (m : Dispatch A) s Q (R : DispatchError → Runtime.t → Prop) :
  leaves paying m → (m s).1 ≠ Panic →
  (∀ a s', paying s' = paying s → Q a s') → (∀ e s', paying s' = paying s → R e s') → wp m s Q R.
Proof.
  intros Hl Hp HQ HR. specialize (Hl s). unfold wp. destruct (m s) as [[]]; cbn in *; auto.
Qed.
Lemma wp_try_paying {A} (m : Dispatch A) s Q (R : DispatchError → Runtime.t → Prop) :
  leaves paying m → maintains (λ _, True) m →
  (∀ r s', paying s' = paying s → Q r s') → wp (try m) s Q R.
Proof.
  intros Hl Hm HQ. specialize (Hl s). specialize (Hm s Logic.I). unfold wp, try in *.
  destruct (m s) as [[]]; cbn in *; auto.
Qed.

Lemma pay_node_reward_spec p k i amount share s :
  0 <= amount →
  wp (pay_reward p k i amount share) s
    (λ _ s', ∃ a, 0 <= a <= amount ∧ reported p (k, a) s s') (λ _ s', paying s' = paying s).
Proof.
  intros Ha. unfold pay_reward. wp_step.
  apply wp_paying.
  { case_bool_decide; [apply leaves_ret|]. apply paying_around, on_reward_paid_leaves. }
  { case_bool_decide; [done|]. by destruct (on_reward_paid_total p (NodeInfo.owner i) k
      (NodeInfo.auto_stake_expiry i) share s) as [[] ->]. }
  2: { done. }
  intros [] s1 Hs1. case_bool_decide as Hz.
  { apply wp_modify. exists amount. split; [lia|]. eapply paying_reported; [exact Hs1|].
    apply event_reported. cbn. by rewrite bool_decide_true. }
  do 2 wp_step.
  pose proof (perbill_mul_floor_nonneg (NodeStorage.RewardFeePercentage (Runtime.nodes s1)) amount Ha) as Hf.
  fold (calculate_reward_fee amount s1) in Hf. set (fee := calculate_reward_fee amount s1) in *. clearbody fee.
  set (net := amount ⊖ fee). assert (0 <= net <= amount) as Hnet by (unfold net, saturating_sub; lia).
  clearbody net. wp_step. apply wp_paying; [apply paying_assets|apply total_of; unfold update_assets; maintains_tac| |].
  2: { intros e s2 ->. exact Hs1. }
  intros [] s2 Hs2. wp_step. apply wp_modify.
  set (s3 := Runtime.upd_events _ s2). assert (reported p (k, net) s s3) as H3.
  { eapply paying_reported; [by etrans|]. apply event_reported. cbn. by rewrite bool_decide_true. }
  clearbody s3. clear s1 Hs1 s2 Hs2. wp_step.
  assert (∀ s4, paying s4 = paying s3 → ∃ a, 0 <= a <= amount ∧ reported p (k, a) s s4) as Hend.
  { intros s4 Hs4. exists net. split; [done|]. by eapply reported_paying. }
  eapply (wp_mono _ _ (λ _ s4, paying s4 = paying s3) _ (λ _ _, False)); [| |done].
  { case_bool_decide; [|by repeat wp_step]. wp_step. apply wp_try_paying; auto with frame maintain. }
  intros _ s4 Hs4. case_bool_decide; [by apply wp_ret, Hend|].
  wp_step. wp_step. case_match; [|by apply wp_ret, Hend].
  wp_step. apply wp_try_paying; [auto with frame maintain..|]. intros r s5 Hs5. destruct r.
  { apply wp_ret, Hend. by etrans. }
  apply wp_modify, Hend. etrans; [|exact Hs4]. etrans; [|exact Hs5].
  exact (paying_event (NodeEvent.RewardAutoStaked p (NodeInfo.owner i) k net) eq_refl s5).
Qed.
(** ** A batch *)

(** What [x] may be paid of the reward of a period whose nodes weigh [total]: its share, rounded down. *)
Definition fair (total : Z) (pot : RewardPotInfo.t) (x : NodeId * UptimeInfo.t) (a : Balance) : Prop :=
  0 <= a ∧ a * total <= weight_of x * RewardPotInfo.total_reward pot.
(** The uptime of a node in a period that has ended. *)
Definition counted (pot : RewardPotInfo.t) (x : NodeId * UptimeInfo.t) : Prop :=
  0 < weight_of x ∧ 0 < UptimeInfo.count x.2 <= Z.max 1 (RewardPotInfo.uptime_threshold pot).
Lemma node_weight_le i pot x t s :
  counted pot x → 0 <= RewardPotInfo.uptime_threshold pot →
  0 <= calculate_node_weight x.2 i (RewardPotInfo.uptime_threshold pot) t s <= weight_of x.
Proof.
  intros [Hw Hc] Ht. unfold calculate_node_weight. fold (weight_of x). case_bool_decide; [|lia].
  replace (RewardPotInfo.uptime_threshold pot) with 0 by lia. unfold saturating_mul_to, u128_max. lia.
Qed.
Lemma share_fair w total pot x :
  0 <= w <= weight_of x → 0 < total → 0 <= RewardPotInfo.total_reward pot →
  fair total pot x
    (perquintill_mul_floor (perquintill_from_rational w total) (RewardPotInfo.total_reward pot)).
Proof.
  intros Hw Ht HR. destruct (perquintill_from_rational_le w total) as [Hq Hq']; [lia|done|].
  destruct (perquintill_mul_floor_le (perquintill_from_rational w total) _ Hq HR) as [Hf Hf'].
  set (q := perquintill_from_rational w total) in *. set (a := perquintill_mul_floor q _) in *.
  set (R := RewardPotInfo.total_reward pot) in *. split; [done|].
  assert (0 < QUINTILLION) by done. apply (Z.mul_le_mono_pos_r _ _ QUINTILLION); [done|].
  apply (Z.mul_le_mono_nonneg_r _ _ R) in Hq'; [|done].
  apply (Z.mul_le_mono_nonneg_r _ _ total) in Hf'; [|lia].
  assert (w * R * QUINTILLION <= weight_of x * R * QUINTILLION) by (do 2 (apply Z.mul_le_mono_nonneg_r; [lia|]); lia).
  lia.
Qed.
Lemma try_pay_node_spec p total pot x s :
  counted pot x → 0 < total → 0 <= RewardPotInfo.total_reward pot → 0 <= RewardPotInfo.uptime_threshold pot →
  wp (try_pay_node p total pot x) s
    (λ _ s', ∃ a, fair total pot x a ∧ reported p (x.1, a) s s') (λ _ _, False).
Proof.
  intros Hx Ht HR Hth. unfold try_pay_node. wp_step. apply wp_try.
  assert (wp (pay_node p total pot x.1 x.2) s
    (λ _ s', ∃ a, fair total pot x a ∧ reported p (x.1, a) s s') (λ _ s', paying s' = paying s)) as Hp.
  { unfold pay_node, calculate_reward. rewrite bool_decide_false by lia. repeat (wp_step; try done).
    rename select (node_info _ _ = Some _) into Hi. apply wp_ret. cbn beta iota.
    pose proof (share_fair _ _ _ _ (node_weight_le a pot x (RewardPotInfo.reward_end_time pot) s Hx Hth) Ht HR) as [Hn Hf].
    eapply wp_mono; [by apply pay_node_reward_spec| |done].
    cbn beta. intros [] s' (a'&Ha&Hr). exists a'. split; [|done].
    split; [lia|]. etrans; [|exact Hf]. apply Z.mul_le_mono_nonneg_r; lia. }
  eapply wp_mono; [exact Hp| |]; cbn beta.
  - intros [] s' Hr. by apply wp_ret.
  - intros e s' Hs'. apply wp_modify. exists 0. split.
    + destruct Hx as [Hx _]. split; [done|]. nia.
    + eapply paying_reported; [exact Hs'|]. apply event_reported. cbn. by rewrite bool_decide_true.
Qed.

(** The payments of the nodes [l] have been reported. *)
Definition batch_paid p total pot (l : list (NodeId * UptimeInfo.t)) s s' : Prop :=
  period_view (Runtime.nodes s') = period_view (Runtime.nodes s) ∧
  ∃ es, book s' = book s ++ es ∧
    Forall2 (λ x e, ∃ a, fair total pot x a ∧ payment p e = Some (x.1, a)) l es.
Lemma batch_spec p total pot l s :
  Forall (counted pot) l → 0 < total → 0 <= RewardPotInfo.total_reward pot →
  0 <= RewardPotInfo.uptime_threshold pot →
  wp (for_each (try_pay_node p total pot) l) s (λ _ s', batch_paid p total pot l s s') (λ _ _, False).
Proof.
  intros Hl Ht HR Hth. revert s. induction Hl as [|x l Hx _ IH]; intros s; cbn [for_each].
  { apply wp_ret. split; [done|]. exists []. by rewrite app_nil_r. }
  wp_step. eapply wp_mono; [by apply try_pay_node_spec| |done]. cbn beta.
  intros [] s1 (a&Ha&Hv&e&He&Hb). eapply wp_mono; [apply IH| |done]. cbn beta.
  intros [] s2 (Hv2&es&Hb2&Hf). split; [by rewrite Hv2|]. exists (e :: es).
  rewrite Hb2, Hb, <- app_assoc. split; [done|]. constructor; eauto.
Qed.
Lemma remove_paid_nodes_spec p ks s :
  remove_paid_nodes p ks s =
    (Ok (), Runtime.upd_nodes (NodeStorage.upd_NodeUptime (delete_all p ks)) s).
Proof.
  revert s. induction ks as [|k ks IH]; intros s; [by destruct s as [? ? ? ? ? ? ? [] ? ? ? ? ?]|].
  unfold remove_paid_nodes in *. cbn [for_each]. unfold mbind, M_bind at 1. cbn -[delete_all]. rewrite IH.
  unfold Runtime.upd_nodes, NodeStorage.upd_NodeUptime. cbn -[delete_all]. by rewrite delete_all_cons.
Qed.
(** ** What a call of the payout does *)

(** The period [p] is paid out. *)
Definition completed p n : NodeStorage.t :=
  NodeStorage.upd_OutstandingRewardToPay
    (λ r, r ⊖ from_option RewardPotInfo.total_reward 0 (NodeStorage.RewardPot n !! p))
  (NodeStorage.upd_OldestUnpaidRewardPeriodIndex (λ _, saturating_add_to u64_max p 1)
  (NodeStorage.upd_LastPaidPointer (λ _, None)
  (NodeStorage.upd_TotalUptime (delete p) (NodeStorage.upd_RewardPot (delete p) n)))).
(** The nodes that are paid next, and those after them. *)
Definition next_batch n := take (Z.to_nat (NodeStorage.MaxBatchSize n)) (period_uptimes n (oldest n)).
Definition next_rest n := drop (Z.to_nat (NodeStorage.MaxBatchSize n)) (period_uptimes n (oldest n)).
(** A batch of the oldest period is paid. *)
Definition after_batch n : NodeStorage.t :=
  let n' := NodeStorage.upd_NodeUptime (delete_all (oldest n) (next_batch n).*1) n in
  if decide (next_rest n = []) then completed (oldest n) n'
  else NodeStorage.upd_LastPaidPointer (λ _, PaymentPointer.mk (oldest n) <$> last (next_batch n).*1) n'.
(** The call pays: the period is the oldest that is not paid out, it has ended, and
    when its payout starts there is enough to pay it. *)
Definition may_pay origin p s : Prop :=
  let n := Runtime.nodes s in
  origin = NoOrigin ∧ p = oldest n ∧ oldest n < current n ∧
  (period_uptimes n p = [] ∨ NodeStorage.LastPaidPointer n ≠ None ∨
   from_option RewardPotInfo.total_reward 0 (NodeStorage.RewardPot n !! p) <= reward_pot_balance s).
(** What it leaves. *)
Definition paid_batch s s' : Prop :=
  let n := Runtime.nodes s in let p := oldest n in
  period_view (Runtime.nodes s') = period_view (after_batch n) ∧
  ∃ es pot, NodeStorage.RewardPot n !! p = Some pot ∧ book s' = book s ++ es ∧
    Forall2 (λ x e, ∃ a, fair (period_weight n p) pot x a ∧ payment p e = Some (x.1, a)) (next_batch n) es.

Lemma complete_spec p pot s :
  NodeStorage.RewardPot (Runtime.nodes s) !! p = Some pot →
  wp (complete_reward_payout p) s
    (λ _ s', period_view (Runtime.nodes s') = period_view (completed p (Runtime.nodes s)) ∧ book s' = book s)
    (λ _ _, False).
Proof.
  intros Hp. unfold complete_reward_payout, node_get, node_modify. repeat wp_step.
  unfold compose. rewrite Hp. repeat wp_step.
  apply wp_around; [apply on_reward_period_completed_leaves|apply on_reward_period_completed_total|].
  intros [] s' Ha. apply wp_modify. split.
  - cbn. rewrite (f_equal (snd ∘ fst ∘ fst) Ha : Runtime.nodes s' = _). unfold completed. cbn. by rewrite Hp.
  - rewrite book_event. cbn. rewrite app_nil_r. unfold book.
    by rewrite (f_equal snd Ha : node_events _ = node_events _).
Qed.

(** The view is enough to tell what happens to it. *)
Lemma view_uptime f n n' :
  period_view n = period_view n' →
  period_view (NodeStorage.upd_NodeUptime f n) = period_view (NodeStorage.upd_NodeUptime f n').
Proof. unfold period_view. cbn. congruence. Qed.
Lemma view_pointer f n n' :
  period_view n = period_view n' →
  period_view (NodeStorage.upd_LastPaidPointer f n) = period_view (NodeStorage.upd_LastPaidPointer f n').
Proof. unfold period_view. cbn. congruence. Qed.
Lemma view_completed p n n' :
  period_view n = period_view n' → period_view (completed p n) = period_view (completed p n').
Proof. unfold period_view, completed. cbn. congruence. Qed.

Section Call.
Context (s : Runtime.t) (Hn : periods_ok (Runtime.nodes s)).
Abbreviation n := (Runtime.nodes s).
Abbreviation p := (oldest n).
Lemma unpaid_counted pot x :
  NodeStorage.RewardPot n !! p = Some pot → p < current n → x ∈ period_uptimes n p → counted pot x.
Proof.
  destruct x as [k u]. intros Hp Hc Hx. apply (prefix_elem node_position) in Hx.
  apply (pe_uptime _ Hn) in Hx as (_&Hw&Hcnt). unfold threshold_of in Hcnt.
  rewrite decide_False, Hp in Hcnt by lia. by split.
Qed.
Lemma rest_nil : next_batch n = [] → next_rest n = [].
Proof.
  pose proof (pe_batch _ Hn). unfold next_batch, next_rest. intros Hb. apply (f_equal length) in Hb.
  rewrite length_take in Hb. cbn in Hb. apply drop_ge. lia.
Qed.
(** The batch is paid, and the period completed or the place kept. *)
Lemma pay_batch_spec pot :
  NodeStorage.RewardPot n !! p = Some pot → p < current n → 0 < period_weight n p →
  wp (for_each (try_pay_node p (period_weight n p) pot) (next_batch n);;
      remove_paid_nodes p (next_batch n).*1;;
      if bool_decide (head (next_rest n) = None) then complete_reward_payout p
      else update_last_paid_pointer p (last (next_batch n).*1)) s
    (λ _ s', paid_batch s s') (λ _ _, False).
Proof.
  intros Hp Hc HW. wp_step. eapply wp_mono; [apply batch_spec; [|done|..]| |done].
  - apply Forall_forall. intros x Hx. apply unpaid_counted; [done|done|]. by eapply subseteq_take.
  - by eapply pe_reward.
  - pose proof (pe_threshold _ Hn p) as Ht. unfold threshold_of in Ht. by rewrite decide_False, Hp in Ht by lia.
  - cbn beta. intros [] s1 (Hv&es&Hb&Hf). wp_step. unfold wp at 1. rewrite remove_paid_nodes_spec.
    apply (view_uptime (delete_all p (next_batch n).*1)) in Hv.
    change (NodeStorage.upd_NodeUptime _ (Runtime.nodes s1)) with
      (Runtime.nodes (Runtime.upd_nodes (NodeStorage.upd_NodeUptime (delete_all p (next_batch n).*1)) s1)) in Hv.
    set (s2 := Runtime.upd_nodes _ s1) in *. change (book s2 = book s ++ es) in Hb. clearbody s2.
    assert (∀ s3, period_view (Runtime.nodes s3) = period_view (after_batch n) → book s3 = book s2 →
      paid_batch s s3) as Hend. { intros s3 Hv3 Hb3. split; [done|]. exists es, pot. by rewrite Hb3. }
    unfold after_batch in Hend. case_bool_decide as Hr.
    + rewrite decide_True in Hend by by destruct (next_rest n).
      eapply wp_mono; [apply (complete_spec _ pot)| |done].
      { injection Hv as Hv _. by rewrite Hv. }
      cbn beta. intros [] s3 [Hv3 Hb3]. apply Hend; [|done]. rewrite Hv3. by apply view_completed.
    + rewrite decide_False in Hend by (intros Hd; by rewrite Hd in Hr).
      unfold update_last_paid_pointer. destruct (last (next_batch n).*1) as [k|] eqn:Hl.
      * apply wp_modify, Hend; [|done]. by apply view_pointer.
      * apply last_None, fmap_nil_inv in Hl. by rewrite (rest_nil Hl) in Hr.
Qed.
Lemma batch_of_nothing pot :
  NodeStorage.RewardPot n !! p = Some pot → period_uptimes n p = [] →
  wp (complete_reward_payout p) s (λ _ s', paid_batch s s') (λ _ _, False).
Proof.
  intros Hp Hl. eapply wp_mono; [by apply (complete_spec _ pot)| |done]. cbn beta. intros [] s' [Hv Hb].
  unfold paid_batch, after_batch, next_batch, next_rest. rewrite Hl, take_nil, drop_nil, decide_True by done.
  split; [exact Hv|]. exists [], pot. by rewrite Hb, app_nil_r.
Qed.
Lemma after_pointer ptr :
  NodeStorage.LastPaidPointer n = Some ptr →
  get_iterator_from_last_paid p ptr s = (Ok (period_uptimes n p), s).
Proof.
  intros Hp. destruct (pe_pointer _ Hn ptr Hp) as (Hi&Ho&Hf).
  assert (uptime p (PaymentPointer.node ptr) s = None) as Hu.
  { destruct (uptime _ _ _) as [u|] eqn:Hu; [|done]. apply (prefix_elem node_position) in Hu.
    rewrite Forall_forall in Hf. specialize (Hf _ Hu). cbn in Hf. lia. }
  unfold get_iterator_from_last_paid, mbind, M_bind, gets, ensure.
  rewrite bool_decide_true by done. cbn -[uptime uptimes_after]. rewrite Hu, bool_decide_true by done.
  cbn -[uptimes_after]. f_equal. f_equal. apply filter_all.
  by apply Forall_forall.
Qed.
End Call.
Lemma offchain_pay_nodes_spec origin p s :
  periods_ok (Runtime.nodes s) →
  wp (offchain_pay_nodes origin p) s
    (λ _ s', may_pay origin p s ∧ paid_batch s s') (λ _ s', s' = s ∧ ¬ may_pay origin p s).
Proof.
  intros Hn. unfold offchain_pay_nodes, node_get. wp_step.
  destruct origin; cbn [ensure_none]; try (wp_step; split; [done|]; by intros [? _]).
  do 6 wp_step. unfold compose. fold (oldest (Runtime.nodes s)) (current (Runtime.nodes s)). wp_step; cycle 1.
  { split; [done|]. bool_tac. intros (_&?&?&_). tauto. }
  bool_tac. rename select (p = _ ∧ _) into Hp. destruct Hp as [-> Hc].
  destruct (proj2 (pe_pots _ Hn (oldest (Runtime.nodes s)))) as [pot Hpot]; [pose proof (pe_order _ Hn); lia|].
  pose proof (pe_total _ Hn (oldest (Runtime.nodes s))) as [Hw Hl].
  do 4 wp_step. change (TotalUptimeInfo.total_weight (total_uptime (oldest (Runtime.nodes s)) s))
    with (period_weight (Runtime.nodes s) (oldest (Runtime.nodes s))).
  change (uptimes (oldest (Runtime.nodes s)) s) with (period_uptimes (Runtime.nodes s) (oldest (Runtime.nodes s))).
  case_bool_decide as Hz.
  { destruct Hz as [Hz%Hl _]. eapply wp_mono; [by apply (batch_of_nothing s pot)| |done].
    cbn beta. intros [] s' Hs'. split; [|done]. unfold may_pay. auto. }
  assert (period_uptimes (Runtime.nodes s) (oldest (Runtime.nodes s)) ≠ []) as Hne.
  { intros He. apply Hz. rewrite He. split; [by apply Hl|done]. }
  assert (0 < period_weight (Runtime.nodes s) (oldest (Runtime.nodes s))) as Hpos.
  { apply Z.le_neq. split; [done|]. intros He. by apply Hne, Hl. }
  repeat (wp_step; bool_tac; try done).
  2: { rewrite Hpot in *. by unfold is_Some in *. }
  2: { by destruct (period_uptimes _ _). }
  simplify_eq. eapply wp_mono with (Q := λ iter s', s' = s ∧ may_pay NoOrigin (oldest (Runtime.nodes s)) s ∧
    iter = period_uptimes (Runtime.nodes s) (oldest (Runtime.nodes s)))
    (R := λ _ s', s' = s ∧ ¬ may_pay NoOrigin (oldest (Runtime.nodes s)) s); [| |done].
  - destruct (NodeStorage.LastPaidPointer (Runtime.nodes s)) as [ptr|] eqn:Hptr.
    + unfold wp. rewrite (after_pointer s Hn ptr Hptr). split_and!; [done| |done].
      unfold may_pay. rewrite Hptr. naive_solver.
    + repeat wp_step; bool_tac; (split; [done|]); unfold may_pay; rewrite Hptr, Hpot; cbn; naive_solver.
  - cbn beta. intros iter s' (->&Hmay&->). wp_step. wp_step.
    eapply wp_mono; [by apply (pay_batch_spec s Hn pot)| |done]. by intros [] s' Hs'.
Qed.
End Payouts.
