(* ===== verification/PayoutInv.v ===== *)
(** * The book of heartbeats and payments

    What is reported of a reward period over the whole life of the chain: the
    payments of a period go to the nodes that sent heartbeats in it, once each, and
    together they are at most the reward of the period. *)

From S2P Require Import Prelude Frames Slices Bytes EventTypes EventParsing EventDiscovery.
From S2P Require Import EthTypes RuntimeErrors NodeTypes BridgeTypes Avn EthBridge BridgeEvents.
From S2P Require Import TokenManager NodeStake NodeRewards NodeManager NodeInv BridgeInv.
From S2P Require Import BridgeCalls BridgeProps NodeDispatch NodeProps Periods.

(** ** A batch and the invariant of the periods *)

Section Batch.
Context `{BridgeConfig} `{!NodeConfig} `{!NodeLaws _}.
Implicit Types (n : NodeStorage.t) (k : NodeId) (u : UptimeInfo.t) (p q : RewardPeriodIndex).

Lemma batch_split n : period_uptimes n (oldest n) = next_batch n ++ next_rest n.
Proof. symmetry. apply take_drop. Qed.
Lemma batch_uptimes n q :
  period_uptimes (after_batch n) q = if decide (q = oldest n) then next_rest n else period_uptimes n q.
Proof.
  assert (NodeStorage.NodeUptime (after_batch n) =
    delete_all (oldest n) (next_batch n).*1 (NodeStorage.NodeUptime n)) as Hu.
  { unfold after_batch. by case_decide. }
  unfold period_uptimes at 1, uptimes_of. rewrite Hu. case_decide as Hq.
  - subst q. apply (prefix_drop node_position).
  - by apply (prefix_delete_other node_position).
Qed.
Lemma batch_lookup n q k :
  NodeStorage.NodeUptime (after_batch n) !! (q, k) =
  if decide (q = oldest n ∧ k ∈ (next_batch n).*1) then None else NodeStorage.NodeUptime n !! (q, k).
Proof. unfold after_batch. case_decide; apply delete_all_lookup. Qed.
Lemma uptime_elem n p k u : (k, u) ∈ period_uptimes n p ↔ NodeStorage.NodeUptime n !! (p, k) = Some u.
Proof. apply (prefix_elem node_position). Qed.

(** Those that are left come after the batch. *)
Lemma rest_after n k :
  last (next_batch n).*1 = Some k → Forall (λ x, (node_position k < node_position x.1)%N) (next_rest n).
Proof.
  intros [l Hl]%last_Some. apply Forall_forall. intros [k' u'] Hx.
  assert (k ∈ (next_batch n).*1) as Hk by (rewrite Hl; set_solver).
  apply list_elem_of_fmap in Hk as ([k0 u0]&->&Hk).
  pose proof (prefix_ordered node_position (oldest n) (NodeStorage.NodeUptime n)) as Ho.
  pose proof (prefix_nodup node_position (oldest n) (NodeStorage.NodeUptime n)) as Hd.
  change (ordered node_position (period_uptimes n (oldest n))) in Ho.
  change (NoDup (period_uptimes n (oldest n)).*1) in Hd. rewrite batch_split in Ho, Hd.
  rewrite fmap_app in Hd. apply NoDup_app in Hd as (_&Hd&_).
  assert (node_position k0 ≠ node_position k') as Hne.
  { intros He%(inj node_position). subst k'. apply (Hd k0).
    - by apply (list_elem_of_fmap_2 fst) in Hk.
    - by apply (list_elem_of_fmap_2 fst) in Hx. }
  pose proof (StronglySorted_app_1_elem_of _ _ _ _ _ Ho Hk Hx) as Hle. cbn in *. lia.
Qed.
Lemma rest_weight n :
  periods_ok n → zsum weight_of (next_rest n) <= zsum weight_of (period_uptimes n (oldest n)).
Proof.
  intros Hn. rewrite batch_split, zsum_app. assert (0 <= zsum weight_of (next_batch n)); [|lia].
  apply zsum_nonneg. intros [k u] Hx. assert ((k, u) ∈ period_uptimes n (oldest n)) as Hu%uptime_elem.
  { rewrite batch_split. set_solver. }
  apply (pe_uptime _ Hn) in Hu as (_&?&_). unfold weight_of. cbn. lia.
Qed.
Lemma kept_ok n : periods_ok n → oldest n < current n → next_rest n ≠ [] → periods_ok (after_batch n).
Proof.
  intros Hn Hc Hr. pose proof Hn as [A B C D E F G I J K L M].
  assert (after_batch n = NodeStorage.upd_LastPaidPointer (λ _, PaymentPointer.mk (oldest n) <$> last (next_batch n).*1)
    (NodeStorage.upd_NodeUptime (delete_all (oldest n) (next_batch n).*1) n)) as Ha.
  { unfold after_batch. by rewrite decide_False. }
  assert (∀ q, period_weight (after_batch n) q = period_weight n q) as Hw by by rewrite Ha.
  assert (oldest (after_batch n) = oldest n) as Ho by by rewrite Ha.
  constructor; try (rewrite Ha; done).
  - intros p k u. rewrite batch_lookup. case_decide; [done|]. intros Hu%F. by rewrite Ha.
  - intros p. rewrite Hw, batch_uptimes. intros Hlt. case_decide; [subst p|by apply G].
    etrans; [by apply rest_weight|by apply G].
  - intros p. rewrite Hw, batch_uptimes. destruct (I p) as [HI HI']. split; [done|]. case_decide; [subst p|done].
    split; [|done]. intros He%HI'. rewrite batch_split in He. by apply app_nil in He as [_ ?].
  - intros ptr Hp. rewrite Ho, batch_uptimes, decide_True by done. rewrite Ha in Hp |- *. cbn in Hp.
    destruct (last (next_batch n).*1) as [k|] eqn:Hl; [|done]. injection Hp as <-. cbn.
    split_and!; [done|done|by apply rest_after].
Qed.
Lemma completed_ok n : periods_ok n → oldest n < current n → next_rest n = [] → periods_ok (after_batch n).
Proof.
  intros Hn Hc Hr. pose proof Hn as [A B C D E F G I J K L M]. set (p := oldest n).
  assert (after_batch n = completed p (NodeStorage.upd_NodeUptime (delete_all p (next_batch n).*1) n)) as Ha.
  { unfold after_batch. by rewrite decide_True. }
  assert (oldest (after_batch n) = p + 1) as Ho.
  { rewrite Ha. unfold oldest, completed. cbn. unfold saturating_add_to, p. lia. }
  assert (∀ q, q ≠ p → period_weight (after_batch n) q = period_weight n q) as Hw.
  { intros q Hq. rewrite Ha. unfold period_weight, completed. cbn. by rewrite lookup_delete_ne. }
  assert (period_weight (after_batch n) p = 0) as Hw0.
  { rewrite Ha. unfold period_weight, completed. cbn. by rewrite lookup_delete_eq. }
  assert (∀ q, q ≠ p → threshold_of (after_batch n) q = threshold_of n q) as Hth.
  { intros q Hq. rewrite Ha. unfold threshold_of, completed. cbn. by rewrite lookup_delete_ne. }
  assert (current (after_batch n) = current n) as Hcur by by rewrite Ha.
  constructor; rewrite ?Ho, ?Hcur; try (rewrite Ha; done).
  - unfold p in *. lia.
  - intros q. rewrite Ha. cbn. rewrite lookup_delete_is_Some, B. unfold p in *. lia.
  - intros q pot. rewrite Ha. cbn. intros [_ Hq]%lookup_delete_Some. by eapply C.
  - rewrite Ha. cbn. rewrite map_sum_delete, E. unfold term.
    destruct (NodeStorage.RewardPot n !! p) as [pot|] eqn:Hp; cbn.
    + pose proof (map_sum_elem (λ _ pot, RewardPotInfo.total_reward pot) p pot _ C Hp) as Hle. cbn in Hle.
      unfold saturating_sub. lia.
    + pose proof (map_sum_nonneg (λ _ pot, RewardPotInfo.total_reward pot) _ C). unfold saturating_sub. lia.
  - intros q k u. rewrite batch_lookup. case_decide as Hd; [done|]. intros Hu.
    assert (q ≠ p) as Hq.
    { intros ->. apply Hd. split; [done|]. apply uptime_elem in Hu. unfold p in Hu.
      rewrite batch_split, Hr, app_nil_r in Hu. by apply (list_elem_of_fmap_2 fst) in Hu. }
    apply F in Hu as (?&?&?). unfold uptime_ok. rewrite Ho, Hcur, Hth by done. unfold p in *. lia.
  - intros q. rewrite batch_uptimes. case_decide as Hq; [subst q; fold p; by rewrite Hr, Hw0|]. rewrite Hw by done. apply G.
  - intros q. rewrite batch_uptimes. case_decide as Hq; [subst q; fold p; by rewrite Hr, Hw0|]. rewrite Hw by done. apply I.
  - intros q. destruct (decide (q = p)) as [->|Hq]; [|rewrite Hth; auto].
    rewrite Ha. unfold threshold_of, completed, current in *. cbn. rewrite lookup_delete_eq.
    rewrite decide_False by (unfold p; lia). done.
Qed.
Lemma after_batch_ok n : periods_ok n → oldest n < current n → periods_ok (after_batch n).
Proof. intros. destruct (decide (next_rest n = [])); [by apply completed_ok|by apply kept_ok]. Qed.
End Batch.

(** ** The invariant of the book *)

(** The node of a heartbeat in the period [p]. *)
Definition beat (p : RewardPeriodIndex) (e : NodeEvent.t) : option NodeId :=
  match e with
  | NodeEvent.HeartbeatReceived q k => if bool_decide (q = p) then Some k else None
  | _ => None
  end.
(** The reward announced for the period [p] when the next one starts. *)
Definition reward_of (p : RewardPeriodIndex) (e : NodeEvent.t) : option Balance :=
  match e with
  | NodeEvent.NewRewardPeriodStarted q _ _ r => if bool_decide (q = p + 1) then Some r else None
  | _ => None
  end.

Section Books.
Context `{BridgeConfig} `{!NodeConfig} `{!NodeLaws _}.
Implicit Types (n : NodeStorage.t) (k : NodeId) (u : UptimeInfo.t) (p q : RewardPeriodIndex)
  (b es : list NodeEvent.t).

Definition paid p b : list (NodeId * Balance) := omap (payment p) b.
Definition beats p b : list NodeId := omap (beat p) b.
Definition rewards p b : list Balance := omap (reward_of p) b.

Record books_ok n b : Prop := {
  bk_once p : NoDup (paid p b).*1;
  bk_amounts p : Forall (λ x, 0 <= x.2) (paid p b);
  (** Nothing is paid for a period that has not ended. *)
  bk_late p : current n <= p → paid p b = [];
  (** The nodes that sent heartbeats are paid or left to pay. *)
  bk_left p k : k ∈ (paid p b).*1 → NodeStorage.NodeUptime n !! (p, k) = None;
  bk_beats p k :
    k ∈ beats p b ↔ k ∈ (paid p b).*1 ∨ is_Some (NodeStorage.NodeUptime n !! (p, k));
  (** What is left of the reward is enough for the nodes that are left. *)
  bk_budget p pot : NodeStorage.RewardPot n !! p = Some pot → period_weight n p < u128_max →
    zsum snd (paid p b) * period_weight n p +
    zsum weight_of (period_uptimes n p) * RewardPotInfo.total_reward pot <=
    period_weight n p * RewardPotInfo.total_reward pot;
  bk_started p : oldest n <= p → paid p b ≠ [] → 0 < period_weight n p;
  bk_announced p r : r ∈ rewards p b →
    p < current n ∧ ∀ pot, NodeStorage.RewardPot n !! p = Some pot → r = RewardPotInfo.total_reward pot;
  bk_known p : 0 <= p < current n → ∃ r, r ∈ rewards p b;
  (** A period that is paid out did not cost more than its reward. *)
  bk_done p r : p < oldest n → r ∈ rewards p b → zsum snd (paid p b) <= r;
}.

(** ** Heartbeats *)

Lemma beaten_books n k w n' b :
  periods_ok n → beaten n k w n' → books_ok n b →
  books_ok n' (b ++ [NodeEvent.HeartbeatReceived (current n) k]).
Proof.
  intros Hn Hb [A B C D E F G I KN J]. pose proof (λ p, beaten_other n k w n' p Hb) as Hother.
  destruct Hb as [Hsame (u&u'&Hu0&Hu&_) _].
  unfold period_view in Hsame. cbn in Hsame. injection Hsame as E1 E2 E3 E4 E5 E8 E9 E10 E11.
  assert (oldest n' = oldest n) as Eo by exact E4. assert (current n' = current n) as Ec by (unfold current; by rewrite E3).
  assert (∀ p, paid p (b ++ [NodeEvent.HeartbeatReceived (current n) k]) = paid p b) as Ep.
  { intros p. unfold paid. by rewrite omap_app, app_nil_r. }
  assert (∀ p, rewards p (b ++ [NodeEvent.HeartbeatReceived (current n) k]) = rewards p b) as Er.
  { intros p. unfold rewards. by rewrite omap_app, app_nil_r. }
  constructor; intros p; rewrite ?Ep, ?Er, ?Eo, ?Ec, ?E1; [apply A|apply B|apply C|..|apply I|apply KN|apply J].
  - intros k' Hk. rewrite Hu, lookup_insert_ne; [by apply D|]. intros [= <- <-].
    rewrite C in Hk by lia. by apply not_elem_of_nil in Hk.
  - intros k'. unfold beats. rewrite omap_app, elem_of_app. fold (beats p b). rewrite E, Hu. cbn.
    destruct (decide ((p, k') = (current n, k))) as [[= -> ->]|Hne].
    + rewrite bool_decide_true, lookup_insert_eq by done. set_solver.
    + rewrite lookup_insert_ne by congruence. case_bool_decide; [|set_solver].
      rewrite list_elem_of_singleton. naive_solver.
  - intros pot Hp. destruct (Hother p) as [-> ->]; [|by apply F]. intros ->.
    assert (oldest n <= current n < current n); [|lia]. apply (pe_pots _ Hn). by exists pot.
  - intros Ho Hne. destruct (Hother p) as [_ ->]; [|by apply G]. intros ->. by rewrite C in Hne by lia.
Qed.

(** ** The next period *)

Lemma ended_books bl length heartbeat threshold now n n' b :
  periods_ok n → solvent n → ended bl length heartbeat threshold now n n' → books_ok n b →
  books_ok n' (b ++ [NodeEvent.NewRewardPeriodStarted (current n + 1) length threshold
                       (RewardPeriodInfo.reward_amount (NodeStorage.RewardPeriod n))]).
Proof.
  intros Hn [Hc Hs] (Er&Ep&Eo&Ev) [A B C D E F G I KN J].
  unfold period_view in Ev. cbn in Ev. injection Ev as E4 E5 E6 E7 E8 E9 E10 E11.
  assert (oldest n' = oldest n) as Eold by exact E4.
  assert (current n' = current n + 1) as Ec.
  { unfold current at 1. rewrite Er. cbn. fold (current n). unfold saturating_add_to. lia. }
  set (e := NodeEvent.NewRewardPeriodStarted _ _ _ _).
  assert (∀ p, paid p (b ++ [e]) = paid p b) as Epd.
  { intros p. unfold paid. by rewrite omap_app, app_nil_r. }
  assert (∀ p, beats p (b ++ [e]) = beats p b) as Eb.
  { intros p. unfold beats. by rewrite omap_app, app_nil_r. }
  assert (∀ p, period_weight n' p = period_weight n p ∧ period_uptimes n' p = period_uptimes n p) as Hw.
  { intros p. unfold period_weight, period_uptimes. by rewrite E6, E7. }
  assert (∀ p r, r ∈ rewards p (b ++ [e]) ↔ r ∈ rewards p b ∨
    p = current n ∧ r = RewardPeriodInfo.reward_amount (NodeStorage.RewardPeriod n)) as Hrew.
  { intros p r. unfold rewards. rewrite omap_app, elem_of_app. cbn. case_bool_decide; [|set_solver by lia].
    rewrite list_elem_of_singleton. naive_solver lia. }
  constructor; intros p; rewrite ?Epd, ?Eb, ?Eold, ?Ec, ?E6, ?(proj1 (Hw p)), ?(proj2 (Hw p));
    [apply A|apply B| |apply D|apply E| |apply G|..].
  - intros ?. apply C. lia.
  - intros pot. rewrite Ep. intros [[<- <-]|[Hne Hp]]%lookup_insert_Some HW; [|by apply F].
    rewrite C by lia. cbn. pose proof (pe_weight _ Hn _ HW). pose proof (proj1 (pe_amounts _ Hn)).
    apply Z.mul_le_mono_nonneg_r; lia.
  - intros r. rewrite Hrew. intros [[Hp Hpot]%I|[-> ->]].
    + split; [lia|]. rewrite Ep. intros pot. rewrite lookup_insert_ne by lia. apply Hpot.
    + split; [lia|]. rewrite Ep, lookup_insert_eq. by intros pot [= <-].
  - intros Hp. destruct (decide (p = current n)) as [->|Hne]; [eexists; apply Hrew; by right|].
    destruct (KN p) as [r Hr]; [lia|]. exists r. apply Hrew. by left.
  - intros r Ho. rewrite Hrew. pose proof (pe_order _ Hn). intros [Hr|[-> _]]; [by apply J|lia].
Qed.
(** ** Payments *)

Lemma payment_only p e x :
  payment p e = Some x → (∀ q, q ≠ p → payment q e = None) ∧ (∀ q, beat q e = None) ∧ ∀ q, reward_of q e = None.
Proof.
  destruct e; cbn; try done; case_bool_decide; try done; subst; intros _; (split; [|done]); intros q Hq;
    by rewrite bool_decide_false.
Qed.
(** The payments of a batch. *)
Lemma batch_payments p total pot l es :
  Forall2 (λ x e, ∃ a, fair total pot x a ∧ payment p e = Some (x.1, a)) l es →
  (paid p es).*1 = l.*1 ∧ Forall (λ x, 0 <= x.2) (paid p es) ∧
  zsum snd (paid p es) * total <= zsum weight_of l * RewardPotInfo.total_reward pot ∧
  (∀ q, q ≠ p → paid q es = []) ∧ (∀ q, beats q es = []) ∧ (∀ q, rewards q es = []).
Proof.
  unfold paid, beats, rewards. induction 1 as [|x e l es (a&[Ha Hf]&He) _ (I1&I2&I3&I4&I5&I6)]; [done|].
  destruct (payment_only _ _ _ He) as (P1&P2&P3). cbn [omap list_omap]. rewrite He. cbn [fmap list_fmap fst].
  split_and!.
  - by rewrite I1.
  - by constructor.
  - rewrite !zsum_cons, !Z.mul_add_distr_r. unfold weight_of in *. cbn in *. lia.
  - intros q Hq. rewrite P1 by done. by apply I4.
  - intros q. rewrite P2. apply I5.
  - intros q. rewrite P3. apply I6.
Qed.
(** What changes but the uptimes. *)
Lemma after_batch_fields n :
  periods_ok n → oldest n < current n →
  current (after_batch n) = current n ∧
  (next_rest n ≠ [] ∧ oldest (after_batch n) = oldest n ∧
     NodeStorage.RewardPot (after_batch n) = NodeStorage.RewardPot n ∧
     (∀ q, period_weight (after_batch n) q = period_weight n q) ∨
   next_rest n = [] ∧ oldest (after_batch n) = oldest n + 1 ∧
     NodeStorage.RewardPot (after_batch n) = delete (oldest n) (NodeStorage.RewardPot n) ∧
     (∀ q, q ≠ oldest n → period_weight (after_batch n) q = period_weight n q)).
Proof.
  intros Hn Hc. pose proof (pe_order _ Hn). unfold after_batch. case_decide; (split; [done|]); [right|by left].
  split_and!; [done| |done|].
  - unfold oldest, completed. cbn. unfold saturating_add_to, oldest in *. lia.
  - intros q Hq. unfold period_weight, completed. cbn. by rewrite lookup_delete_ne.
Qed.
Lemma batch_elem n k : k ∈ (next_batch n).*1 → is_Some (NodeStorage.NodeUptime n !! (oldest n, k)).
Proof.
  intros ([k' u]&->&Hk)%list_elem_of_fmap. exists u. apply uptime_elem. rewrite batch_split. set_solver.
Qed.
Lemma batch_nodup n : NoDup (next_batch n).*1.
Proof.
  pose proof (prefix_nodup node_position (oldest n) (NodeStorage.NodeUptime n)) as Hd.
  change (NoDup (period_uptimes n (oldest n)).*1) in Hd. rewrite batch_split, fmap_app in Hd.
  by apply NoDup_app in Hd as [? _].
Qed.
Section BatchBooks.
Context n b es (pot : RewardPotInfo.t) (Hn : periods_ok n) (Hc : oldest n < current n).
Abbreviation p := (oldest n).
Context (HW : period_weight n p < u128_max) (Hpot : NodeStorage.RewardPot n !! p = Some pot).
Context (Hes : Forall2 (λ x e, ∃ a, fair (period_weight n p) pot x a ∧ payment p e = Some (x.1, a)) (next_batch n) es).
Context (Hb : books_ok n b).

Lemma paid_app q : paid q (b ++ es) = paid q b ++ if decide (q = p) then paid p es else [].
Proof.
  unfold paid at 1. rewrite omap_app. f_equal. case_decide as Hq; [by subst|]. by apply (batch_payments _ _ _ _ _ Hes).
Qed.
Lemma beats_app q : beats q (b ++ es) = beats q b.
Proof.
  destruct (batch_payments _ _ _ _ _ Hes) as (_&_&_&_&P&_). unfold beats at 1. rewrite omap_app.
  change (beats q b ++ beats q es = beats q b). by rewrite P, app_nil_r.
Qed.
Lemma rewards_app q : rewards q (b ++ es) = rewards q b.
Proof.
  destruct (batch_payments _ _ _ _ _ Hes) as (_&_&_&_&_&P). unfold rewards at 1. rewrite omap_app.
  change (rewards q b ++ rewards q es = rewards q b). by rewrite P, app_nil_r.
Qed.
Lemma batch_fst : (paid p es).*1 = (next_batch n).*1.
Proof. by apply (batch_payments _ _ _ _ _ Hes). Qed.
(** What is left after the batch. *)
Lemma batch_budget :
  zsum snd (paid p b ++ paid p es) * period_weight n p +
    zsum weight_of (next_rest n) * RewardPotInfo.total_reward pot <=
  period_weight n p * RewardPotInfo.total_reward pot.
Proof.
  destruct (batch_payments _ _ _ _ _ Hes) as (_&_&P&_). pose proof (bk_budget _ _ Hb p pot Hpot HW) as F.
  rewrite batch_split, !zsum_app in *. lia.
Qed.
(** The whole payout. *)
Lemma batch_total : next_rest n = [] → zsum snd (paid p b ++ paid p es) <= RewardPotInfo.total_reward pot.
Proof.
  intros Hr. pose proof batch_budget as Hle. rewrite Hr in Hle. cbn in Hle.
  destruct (pe_total _ Hn p) as [Hw Hl]. destruct (decide (period_weight n p = 0)) as [Hz|Hz]; [|nia].
  assert (paid p b = []) as ->.
  { destruct (paid p b) as [|x l] eqn:Hp; [done|]. pose proof (bk_started _ _ Hb p) as G. rewrite Hp in G.
    assert (0 < period_weight n p) by (by apply G). lia. }
  apply Hl in Hz. rewrite batch_split in Hz. apply app_nil in Hz as [Hz _].
  pose proof batch_fst as Hf. rewrite Hz in Hf. apply fmap_nil_inv in Hf. rewrite Hf. by eapply pe_reward.
Qed.
Lemma batch_books : books_ok (after_batch n) (b ++ es).
Proof.
  pose proof Hb as [A B C D E F G I KN J]. destruct (after_batch_fields n Hn Hc) as [Ec Hcases].
  pose proof batch_fst as P1.
  constructor; intros q; rewrite ?Ec, ?rewards_app, ?beats_app, ?paid_app.
  - case_decide as Hq; [subst q|by rewrite app_nil_r].
    rewrite fmap_app, P1. apply NoDup_app. split_and!; [apply A| |apply batch_nodup].
    intros k Hk%D [u Hu]%batch_elem. congruence.
  - apply Forall_app. split; [apply B|]. case_decide; [|done]. by apply (batch_payments _ _ _ _ _ Hes).
  - intros Hq. rewrite C by lia. case_decide; [lia|done].
  - intros k. rewrite batch_lookup, fmap_app, elem_of_app.
    destruct (decide (q = p)) as [->|Hq].
    + rewrite P1. intros [Hk|Hk]; [rewrite D by done; by case_decide|by rewrite decide_True].
    + intros [Hk|Hk%not_elem_of_nil]; [|done]. rewrite D by done. by case_decide.
  - intros k. rewrite E, batch_lookup, fmap_app, elem_of_app. destruct (decide (q = p)) as [->|Hq].
    + rewrite P1. pose proof (batch_elem n k). case_decide; naive_solver.
    + rewrite (decide_False (P := _ ∧ _)) by tauto. set_solver.
  - intros pot' Hp' HW'. rewrite batch_uptimes. destruct Hcases as [(_&_&Epot&Ew)|(_&_&Epot&Ew)]; rewrite Epot in Hp'.
    + rewrite Ew in *. case_decide as Hq; [|rewrite app_nil_r; by apply F].
      subst q. rewrite Hpot in Hp'. injection Hp' as <-. apply batch_budget.
    + apply lookup_delete_Some in Hp' as [Hq Hp']. rewrite !decide_False, app_nil_r, Ew in * by congruence. by apply F.
  - intros Ho Hne. destruct Hcases as [(Hr&Eo&_&Ew)|(_&Eo&_&Ew)]; rewrite Eo in Ho; rewrite Ew by lia.
    + case_decide as Hq; [|rewrite app_nil_r in Hne; by apply G]. subst q.
      destruct (pe_total _ Hn p) as [Hw Hl]. apply Z.le_neq. split; [done|]. intros Hz%symmetry%Hl.
      rewrite batch_split in Hz. by apply app_nil in Hz as [_ ?].
    + rewrite decide_False, app_nil_r in Hne by lia. apply G; [lia|done].
  - intros r [Hq Hr]%I. split; [done|]. intros pot'. destruct Hcases as [(_&_&->&_)|(_&_&->&_)]; [apply Hr|].
    intros [_ ?]%lookup_delete_Some. by apply Hr.
  - apply KN.
  - intros r Ho Hr. case_decide as Hq.
    + subst q. destruct Hcases as [(_&Eo&_&_)|(Hrest&_&_&_)]; [lia|].
      apply I in Hr as [_ Hr]. rewrite (Hr _ Hpot). by apply batch_total.
    + rewrite app_nil_r. apply J; [|done]. destruct Hcases as [(_&Eo&_&_)|(_&Eo&_&_)]; lia.
Qed.
End BatchBooks.
End Books.
