(* ===== verification/PayoutProps.v ===== *)
(** * Reward periods in the runtime

    In every state the runtime reaches, what is reported of a reward period that has
    been paid out agrees with the heartbeats of its nodes and with its reward; and
    the payout of a period gets done. *)

From S2P Require Import Prelude Frames Slices Bytes EventTypes EventParsing.
From S2P Require Import EventDiscovery EthTypes RuntimeErrors NodeTypes BridgeTypes.
From S2P Require Import Avn BridgeExamples NodeStake EthBridge BridgeEvents.
From S2P Require Import TokenManager BridgeInv BridgeCalls BridgeProps NodeRewards.
From S2P Require Import NodeManager Anchor NodeInv NodeDispatch NodeExamples.
From S2P Require Import NodeProps Periods PayoutInv.

(** ** Steps that leave the accounts alone *)

Section Accounts.
Context `{BridgeConfig} `{!NodeConfig} `{!NodeLaws _}.
Implicit Types (s : Runtime.t) (n : NodeStorage.t) (p : RewardPeriodIndex).

Definition accounts_ok s : Prop := periods_ok (Runtime.nodes s) ∧ books_ok (Runtime.nodes s) (book s).

(** The book is about the periods and not about the settings for the next one. *)
Definition period_core n :=
  (NodeStorage.RewardPot n, NodeStorage.RewardPeriod n, NodeStorage.OldestUnpaidRewardPeriodIndex n,
   NodeStorage.NodeUptime n, NodeStorage.TotalUptime n).
Lemma books_ok_same n n' b : period_core n' = period_core n → books_ok n b → books_ok n' b.
Proof.
  unfold period_core. intros [= E1 E2 E3 E4 E5] [A B C D E F G I KN J].
  constructor; unfold period_weight, period_uptimes, oldest, current in *; rewrite ?E1, ?E2, ?E3, ?E4, ?E5; done.
Qed.
Lemma view_core n n' : period_view n' = period_view n → period_core n' = period_core n.
Proof. unfold period_view, period_core. congruence. Qed.
Lemma accounts_ok_same s s' : paying s' = paying s → accounts_ok s → accounts_ok s'.
Proof.
  intros Hp [Hn Hb]. pose proof (f_equal fst Hp : period_view _ = period_view _) as Hv.
  pose proof (f_equal snd Hp : book _ = book _) as Hbk. split; [by eapply periods_ok_same|].
  rewrite Hbk. by eapply books_ok_same; [apply view_core|].
Qed.
Lemma paying_keeps {A} (m : Dispatch A) s : leaves paying m → accounts_ok s → accounts_ok (m s).2.
Proof. intros Hl. apply accounts_ok_same, Hl. Qed.

#[local] Hint Extern 1 (leaves paying (node_modify _)) => apply paying_modify; reflexivity : frame.
#[local] Hint Extern 1 (leaves paying (node_event _)) => apply paying_event; reflexivity : frame.
#[local] Hint Resolve paying_assets paying_add_stake : frame.
Lemma ensure_signed_paying (o : Origin) : leaves paying (ensure_signed o).
Proof. destruct o; leaves_tac. Qed.
Lemma ensure_none_paying (o : Origin) : leaves paying (ensure_none o).
Proof. destruct o; leaves_tac. Qed.
Lemma ensure_registrar_paying w : leaves paying (ensure_registrar w).
Proof. unfold ensure_registrar, node_get. leaves_tac. Qed.
#[local] Hint Resolve ensure_signed_paying ensure_none_paying ensure_registrar_paying : frame.
Lemma do_register_node_paying k o key auto bonus : leaves paying (do_register_node k o key auto bonus).
Proof.
  unfold do_register_node, mutate_owned_count, insert_signing_key_index, calculate_node_serial, put_node, node_get.
  leaves_tac.
Qed.
Lemma do_deregister_nodes_paying o nodes : leaves paying (do_deregister_nodes o nodes).
Proof.
  unfold do_deregister_nodes, deregister_node, remove_signing_key_index, mutate_owned_count, update_reserves,
    lower_total_stake, node_get. leaves_tac.
Qed.
Lemma do_remove_stake_paying o k a : leaves paying (do_remove_stake o k a).
Proof.
  unfold do_remove_stake, put_node, lower_total_stake, update_reserves, amount_to_remove, run, node_get. leaves_tac.
Qed.
Lemma do_move_stake_paying o sources k : leaves paying (do_move_stake o sources k).
Proof. unfold do_move_stake, move_stake_from, put_node. leaves_tac. Qed.
Lemma move_owner_totals_paying o w c a : leaves paying (move_owner_totals o w c a).
Proof.
  unfold move_owner_totals, mutate_owned_count, move_reserved_balance, lower_total_stake, raise_total_stake, node_get.
  leaves_tac.
Qed.
#[local] Hint Resolve move_owner_totals_paying : frame.
Lemma do_move_nodes_paying o w nodes : leaves paying (do_move_nodes o w nodes).
Proof. unfold do_move_nodes, move_node, put_node. leaves_tac. Qed.
Lemma do_move_nodes_with_stake_paying o w nodes a : leaves paying (do_move_nodes_with_stake o w nodes a).
Proof. unfold do_move_nodes_with_stake, check_moved_node, move_node_with_stake, put_node. leaves_tac. Qed.
Lemma bridge_event_paying e : leaves paying (bridge_event e).
Proof.
  apply leaves_modify. intros s. unfold paying, book, node_events. cbn. by rewrite omap_app, app_nil_r.
Qed.
Lemma publish_paying `{!BridgeInterfaceNotification} f params caller : leaves paying (publish f params caller).
Proof.
  pose proof bridge_event_paying. unfold publish, add_new_send_request, use_next_tx_id, queue_request, set_up_active_tx,
    assign_sender, advance_primary_validator_for_sending, put_primary, nth_account, put_request_queue,
    put_active_request.
  pose proof (@bridge_result_leaves). pose proof (@run_leaves). leaves_tac.
Qed.
#[local] Hint Resolve do_register_node_paying do_deregister_nodes_paying do_remove_stake_paying
  do_move_stake_paying do_move_nodes_paying do_move_nodes_with_stake_paying publish_paying : frame.
(** The calls that are not about periods. *)
Definition off_account (call : NodeCall) : Prop :=
  match call with
  | Call_set_node_admin_config _ | Call_offchain_pay_nodes _ _ _ | Call_offchain_submit_heartbeat _ _ _ _ => False
  | _ => True
  end.
Lemma node_call_paying `{!AppChainInterface} `{!BridgeInterfaceNotification} origin call :
  off_account call → leaves paying (node_call origin call).
Proof.
  intros Hc. destruct call; try done; cbn [node_call];
    unfold register_node, signed_register_node, deregister_nodes, signed_deregister_nodes,
      update_signing_key, add_stake, remove_stake, update_auto_stake_preference, set_genesis_override,
      override_genesis_bonus, move_nodes, move_stake, move_nodes_with_stake, ensure_not_expired, ensure_owns,
      rotate_signing_key_index, insert_signing_key_index, remove_signing_key_index, put_node, node_get,
      offchain_mint_rewards, send_mint_to_ethereum, put_pending_mint; leaves_tac.
  apply publish_paying.
Qed.

(** ** Steps that change them *)

Lemma setting_step f e s :
  booked e = false → period_core (f (Runtime.nodes s)) = period_core (Runtime.nodes s) →
  periods_ok (f (Runtime.nodes s)) → accounts_ok s →
  wp (node_modify f) s (λ _ s', wp (node_event e) s' (λ _ s', accounts_ok s') (λ _ _, True)) (λ _ _, True).
Proof.
  intros He Hc Hp [Hn Hb]. do 2 apply wp_modify. split; [done|]. rewrite book_event, He, app_nil_r.
  by eapply books_ok_same.
Qed.
Lemma set_node_admin_config_accounts origin config s :
  accounts_ok s → wp (set_node_admin_config origin config) s (λ _ s', accounts_ok s') (λ _ _, True).
Proof.
  intros Hs. pose proof Hs as [Hn Hb]. unfold set_node_admin_config. wp_step.
  destruct origin; cbn [ensure_root]; try (by repeat wp_step). wp_step.
  destruct config; unfold node_get; repeat (wp_step; bool_tac; try done);
    apply setting_step; try done; try (by apply (periods_ok_same (Runtime.nodes s)));
    pose proof Hn as [A B C D E F G I J K L M]; constructor; try assumption;
    unfold compose in *; cbn in *; lia.
Qed.
Lemma heartbeat_book origin k p c s :
  wp (offchain_submit_heartbeat origin k p c) s
    (λ _ s', book s' = book s ++ [NodeEvent.HeartbeatReceived (current (Runtime.nodes s)) k]) (λ _ _, True).
Proof.
  unfold offchain_submit_heartbeat. wp_step.
  eapply wp_mono; [apply (ensure_none_ok (eq s) origin s eq_refl)| |done]. intros [] s0 <-.
  wp_step. eapply wp_mono; [apply validate_heartbeats_spec| |done]. intros [] s0 [-> Hb].
  unfold node_get, node_modify, node_event, deposit_event. repeat wp_step; try done. by rewrite book_event.
Qed.
Lemma heartbeat_accounts origin k p c s :
  nodes_ok s → accounts_ok s →
  wp (offchain_submit_heartbeat origin k p c) s (λ _ s', accounts_ok s') (λ _ _, True).
Proof.
  intros Hs [Hn Hb]. eapply wp_mono;
    [apply wp_and; [by apply (submit_heartbeat_spec origin k p c)|apply (heartbeat_book origin k p c)]| |done].
  cbn beta. intros [] s' [(_&w&Hw&Hbeat) Hbook]. split; [by eapply beaten_ok|]. rewrite Hbook. by eapply beaten_books.
Qed.
Section Hooks.
Context `{!AppChainInterface} `{!AppChainLaws _}.
Lemma period_hook_spec b s :
  periods_ok (Runtime.nodes s) →
  wp (NodeRewards.on_initialize b) s
    (λ _ s', paying s' = paying s ∨
       ∃ length heartbeat threshold, 0 <= threshold ∧
         ended b length heartbeat threshold (Runtime.now s) (Runtime.nodes s) (Runtime.nodes s') ∧
         book s' = book s ++ [NodeEvent.NewRewardPeriodStarted
           (saturating_add_to u64_max (current (Runtime.nodes s)) 1) length threshold
           (RewardPeriodInfo.reward_amount (NodeStorage.RewardPeriod (Runtime.nodes s)))])
    (λ _ _, False).
Proof.
  intros Hn. pose proof (pe_lengths _ Hn) as [Hl Hh].
  unfold NodeRewards.on_initialize, calculate_uptime_threshold, node_get, node_modify, node_event, deposit_event.
  do 4 wp_step. destruct (_ || _); [wp_step; by left|]. do 4 wp_step.
  case_bool_decide as Hz; [wp_step; by left|]. repeat wp_step.
  rewrite bool_decide_false by tauto. cbn [expect]. repeat wp_step.
  apply wp_around; [apply on_new_reward_period_leaves|apply on_new_reward_period_total|].
  intros [] s' Ha. apply wp_modify. right. eexists _, _, _. rewrite book_event.
  pose proof (f_equal (snd ∘ fst ∘ fst) Ha : Runtime.nodes s' = _) as Hnodes.
  assert (book s' = book s) as -> by (unfold book; by rewrite (f_equal snd Ha : node_events s' = _)).
  split_and!; cycle 1.
  - unfold ended. cbn. rewrite Hnodes. split_and!; reflexivity.
  - reflexivity.
  - apply perbill_mul_nonneg, Z.div_pos; [exact Hl|]. unfold compose in *. lia.
Qed.
Lemma on_initialize_accounts b s :
  solvent (Runtime.nodes s) → accounts_ok s →
  wp (NodeRewards.on_initialize b) s (λ _ s', accounts_ok s') (λ _ _, False).
Proof.
  intros Hs Hok. pose proof Hok as [Hn Hb]. eapply wp_mono; [by apply period_hook_spec| |done]. cbn beta.
  intros [] s' [Hp|(l&h&t&Ht&He&Hbook)]; [by eapply accounts_ok_same|].
  split; [by eapply ended_ok|]. rewrite Hbook.
  replace (saturating_add_to u64_max (current (Runtime.nodes s)) 1) with (current (Runtime.nodes s) + 1);
    [by eapply ended_books|]. destruct Hs. unfold saturating_add_to. lia.
Qed.
Lemma pay_accounts `{!ReserveLaws _} origin p s :
  accounts_ok s → period_weight (Runtime.nodes s) (oldest (Runtime.nodes s)) < u128_max →
  wp (offchain_pay_nodes origin p) s (λ _ s', accounts_ok s') (λ _ _, True).
Proof.
  intros [Hn Hb] HW. eapply wp_mono; [by apply offchain_pay_nodes_spec| |done]. cbn beta.
  intros [] s' [(_&_&Hc&_) (Hv&es&pot&Hpot&Hbook&Hes)]. split; [by eapply periods_ok_same, after_batch_ok|].
  rewrite Hbook. eapply books_ok_same; [by apply view_core|]. by eapply batch_books.
Qed.
End Hooks.
End Accounts.

(** ** What the bridge tells the pallets *)

Section Notified.
Context `{BridgeConfig} `{!NodeConfig} `{!NodeLaws _}.
Context (others : list BridgeInterfaceNotification) (Hothers : Forall QuietNotification others).
Implicit Types (s : Runtime.t).
#[local] Hint Extern 1 (leaves paying (node_modify _)) => apply paying_modify; reflexivity : frame.
#[local] Hint Extern 1 (leaves paying (node_event _)) => apply paying_event; reflexivity : frame.

Lemma steady_accounts {A} (m : Dispatch A) :
  leaves paying m → (∀ s, (m s).1 ≠ Panic) → maintains accounts_ok m.
Proof.
  intros Hl Ht s Hs. specialize (Ht s). pose proof (paying_keeps m s Hl Hs) as Hk. unfold wp.
  by destruct (m s) as [[] ?].
Qed.
Lemma calm_paying {A} (m : Dispatch A) : (∀ o, leaves (calm o) m) → leaves paying m.
Proof.
  intros Hc s. specialize (Hc 0%N s). unfold paying, book.
  rewrite (f_equal (fst ∘ fst) Hc : Runtime.nodes _ = Runtime.nodes _).
  by rewrite (f_equal (snd ∘ fst) Hc : node_events _ = node_events _).
Qed.
Lemma node_process_result_paying tx caller ok : leaves paying (node_process_result tx caller ok).
Proof.
  unfold node_process_result, process_mint_request_result, resolve_pending_mint_request, put_pending_mint. leaves_tac.
Qed.
Lemma node_processed_event_paying e : leaves paying (node_processed_event_handler e).
Proof.
  unfold node_processed_event_handler, process_rewards_minted, credit_reward_pot, resolve_pending_mint_request,
    put_pending_mint. leaves_tac.
Qed.
Lemma accounts_apart : @apart _ (notified others) accounts_ok.
Proof.
  constructor; cbn [process_result process_lower_proof_result on_incoming_event_processed notified notification_tuple].
  - intros s s' Hp. apply accounts_ok_same. unfold paying, book.
    rewrite (f_equal (snd ∘ fst ∘ fst) Hp : Runtime.nodes _ = Runtime.nodes _).
    by rewrite (f_equal snd Hp : node_events _ = node_events _).
  - intros. apply (told_maintains others Hothers); [|intros N ?]; apply steady_accounts.
    + apply node_process_result_paying.
    + apply (process_result_total (N := node_notification)).
    + apply calm_paying. intros. apply quiet_result.
    + apply process_result_total.
  - intros. apply (told_maintains others Hothers); [apply maintains_ret|intros N ?]. apply steady_accounts.
    + apply calm_paying. intros. apply quiet_lower.
    + apply process_lower_proof_result_total.
  - intros. apply (told_maintains others Hothers); [|intros N ?]; apply steady_accounts.
    + apply node_processed_event_paying.
    + apply (on_incoming_event_processed_total (N := node_notification)).
    + apply calm_paying. intros. apply quiet_incoming.
    + apply on_incoming_event_processed_total.
Qed.
End Notified.

(** ** Every reachable state *)

Section Reachable.
Context `{BridgeConfig} `{!NodeConfig} `{!NodeLaws _} `{!ReserveLaws _} `{!AppChainInterface} `{!AppChainLaws _}.
Context (others : list BridgeInterfaceNotification).
#[local] Instance notified_pallets : BridgeInterfaceNotification := notified others.
Implicit Types (s : Runtime.t).

(** No total is saturated, and the next one is not. *)
Definition sound s : Prop :=
  solvent (Runtime.nodes s) ∧ ∀ p, period_weight (Runtime.nodes s) p < u128_max.
Definition account_step s s' : Prop := sound s ∧ node_step others s s'.
(** After a genesis with a batch size that is positive. *)
Definition account_start s : Prop :=
  bridge_start s ∧ ∃ g s0, Runtime.nodes s0 = NodeGenesis.empty ∧ book s0 = [] ∧
    0 < NodeGenesis.max_batch_size g ∧ 0 <= NodeGenesis.reward_amount_per_period g ∧
    NodeGenesis.build g s0 = (Ok (), s).

Lemma empty_books n :
  NodeStorage.NodeUptime n = ∅ → NodeStorage.RewardPot n = ∅ → current n = 0 → books_ok n [].
Proof.
  intros Hu Hp Hc. constructor; intros p; cbn; try (rewrite Hu || rewrite Hp); try done; try set_solver.
  - constructor.
  - intros k. rewrite lookup_empty. unfold is_Some. set_solver.
  - lia.
Qed.
Lemma fresh_periods n :
  oldest n = 0 → current n = 0 → NodeStorage.NodeUptime n = ∅ → NodeStorage.RewardPot n = ∅ →
  NodeStorage.TotalUptime n = ∅ → NodeStorage.OutstandingRewardToPay n = 0 →
  NodeStorage.LastPaidPointer n = None → 0 < NodeStorage.MaxBatchSize n →
  0 <= RewardPeriodInfo.reward_amount (NodeStorage.RewardPeriod n) → 0 <= NodeStorage.NextRewardAmountPerPeriod n →
  0 <= NodeStorage.NextRewardPeriodLength n → 0 <= NodeStorage.NextHeartbeatPeriod n →
  0 <= RewardPeriodInfo.uptime_threshold (NodeStorage.RewardPeriod n) → periods_ok n.
Proof.
  intros Ho Hc Hu Hp Ht Hout Hptr ? ? ? ? ? Hth.
  assert (∀ p, period_uptimes n p = []) as Hl.
  { intros p. apply (prefix_nil node_position). intros k. by rewrite Hu, lookup_empty. }
  assert (∀ p, period_weight n p = 0) as Hw by (intros; unfold period_weight; by rewrite Ht, lookup_empty).
  constructor; rewrite ?Ho, ?Hc, ?Hp, ?Hptr; try done.
  - intros p. rewrite lookup_empty. split; [by intros [??]|lia].
  - intros p k u. by rewrite Hu, lookup_empty.
  - intros p. by rewrite Hw, Hl.
  - intros p. by rewrite Hw, Hl.
  - intros p. unfold threshold_of. rewrite Hp, lookup_empty. by case_decide.
Qed.
Lemma built_accounts g s0 s :
  Runtime.nodes s0 = NodeGenesis.empty → book s0 = [] → 0 < NodeGenesis.max_batch_size g →
  0 <= NodeGenesis.reward_amount_per_period g → NodeGenesis.build g s0 = (Ok (), s) → accounts_ok s.
Proof.
  intros He Hbook Hm Hr. unfold NodeGenesis.build, calculate_uptime_threshold, node_get, node_modify.
  unfold NodeGenesis.assert. intros Hg.
  destruct (bool_decide_reflect (NodeGenesis.heartbeat_period g < NodeGenesis.reward_period g)); [|by cbn in Hg].
  destruct (bool_decide_reflect (0 < NodeGenesis.unstake_period_sec g)); [|by cbn in Hg].
  destruct (bool_decide_reflect (0 < NodeGenesis.heartbeat_period g)); [|by cbn in Hg].
  match type of Hg with ?m s0 = _ => assert (wp m s0 (λ _ s', accounts_ok s') (λ _ _, False)) as Hw end;
    [clear Hg s|unfold wp in Hw; by rewrite Hg in Hw].
  repeat wp_step. rewrite bool_decide_false by lia. cbn [expect]. repeat wp_step. split.
  - apply fresh_periods; unfold oldest, current; cbn -[NodeGenesis.empty]; rewrite ?He; try done; try lia.
    apply perbill_mul_nonneg, Z.div_pos; lia.
  - match goal with |- books_ok _ ?b => replace b with (@nil NodeEvent.t) by (symmetry; exact Hbook) end.
    apply empty_books; cbn -[NodeGenesis.empty]; by rewrite ?He.
Qed.
Lemma account_step_inv s s' :
  0 <= BonusNodeSerialStart <= u32_max → Forall QuietNotification others →
  account_step s s' → node_inv s ∧ accounts_ok s → node_inv s' ∧ accounts_ok s'.
Proof.
  intros Hb Ho [[Hsol HW] Hstep] [Hi Ha]. split; [by eapply node_step_inv|].
  pose proof (notified_laws others Ho). pose proof Hi as [Hbr Hn].
  destruct Hstep as [origin call s Ht Hr|n s|origin call s|s s' _ Hnodes Hev _].
  - assert (wp (node_call origin call) s (λ _ s', accounts_ok s') (λ _ _, True)) as Hw.
    { assert (off_account call → wp (node_call origin call) s (λ _ s', accounts_ok s') (λ _ _, True)) as Hoff.
      { intros Hc. pose proof (node_call_ok Hb origin call s Ht Hr Hi) as Hok.
        pose proof (paying_keeps (node_call origin call) s (node_call_paying origin call Hc) Ha) as Hk.
        unfold wp in *. by destruct (node_call origin call s) as [[] ?]. }
      destruct call; try (by apply Hoff);
        [by apply set_node_admin_config_accounts|by apply pay_accounts|by apply heartbeat_accounts]. }
    unfold wp, transactional in *. by destruct (node_call origin call s) as [[] ?].
  - pose proof (on_initialize_accounts n s Hsol Ha) as Hw. unfold wp in Hw.
    by destruct (NodeRewards.on_initialize n s) as [[] ?].
  - assert (maintains (λ s, bridge_ok s ∧ accounts_ok s) (transactional (bridge_call origin call))) as Hw.
    { apply maintains_transactional, bridge_call_ok, apart_respected, accounts_apart, Ho. }
    specialize (Hw s (conj Hbr Ha)). unfold wp in Hw. by destruct (transactional _ s) as [[] ?]; destruct Hw.
  - apply (accounts_ok_same s); [|done]. unfold paying, book. by rewrite Hnodes, Hev.
Qed.
Lemma account_start_inv s : 0 <= BonusNodeSerialStart → account_start s → node_inv s ∧ accounts_ok s.
Proof.
  intros Hb [Hs (g&s0&He&Hbook&Hm&Hr&Hg)]. split; [|by eapply built_accounts].
  apply node_start_inv; [done|]. split; [done|]. by exists g, s0.
Qed.
Lemma account_reachable s0 s :
  0 <= BonusNodeSerialStart <= u32_max → Forall QuietNotification others →
  account_start s0 → rtc account_step s0 s → node_inv s ∧ accounts_ok s.
Proof.
  intros Hb Ho Hs Hr. apply account_start_inv in Hs; [|lia]. revert Hs. induction Hr; [done|].
  intros ?. by eapply IHHr, account_step_inv.
Qed.

(** C7: from genesis on, as long as no total reaches the largest number there is,
    the events of the node manager tell the same story whatever else happens in
    between: for every reward period that has been paid out, the nodes that were
    handled are those that sent heartbeats in the period, each exactly once, no
    payment is negative, and together they are at most the reward announced when
    the period ended.  What is recorded as owed is the sum of the rewards of the
    periods that have ended and are not paid out. *)
Theorem payouts_settled s0 s :
  0 <= BonusNodeSerialStart <= u32_max → Forall QuietNotification others →
  account_start s0 → rtc account_step s0 s →
  (∀ p, 0 <= p < oldest (Runtime.nodes s) →
    NoDup (paid p (book s)).*1 ∧
    (∀ k, k ∈ (paid p (book s)).*1 ↔ k ∈ beats p (book s)) ∧
    Forall (λ x, 0 <= x.2) (paid p (book s)) ∧
    (∃ r, r ∈ rewards p (book s)) ∧ ∀ r, r ∈ rewards p (book s) → zsum snd (paid p (book s)) <= r) ∧
  NodeStorage.OutstandingRewardToPay (Runtime.nodes s) =
    map_sum (λ _ pot, RewardPotInfo.total_reward pot) (NodeStorage.RewardPot (Runtime.nodes s)).
Proof.
  intros Hb Ho Hs Hr. destruct (account_reachable s0 s Hb Ho Hs Hr) as [_ [Hn Hk]].
  split; [|apply Hn]. intros p Hp. pose proof (pe_order _ Hn).
  split_and!; [by apply Hk| |by apply Hk|apply (bk_known _ _ Hk); lia|intros r; apply (bk_done _ _ Hk); lia].
  intros k. rewrite (bk_beats _ _ Hk). split; [by left|]. intros [?|[u Hu]]; [done|].
  apply (pe_uptime _ Hn) in Hu as [? _]. lia.
Qed.
End Reachable.

(** ** A payout gets done *)

Section Completion.
Context `{BridgeConfig} `{!NodeConfig} `{!NodeLaws _} `{!ReserveLaws _} `{!AppChainInterface} `{!AppChainLaws _}.
Implicit Types (s : Runtime.t).

(** Payouts of the oldest period, one after the other; [None] when one fails. *)
Fixpoint pay_times (m : nat) s : option Runtime.t :=
  match m with
  | O => Some s
  | S m =>
      match offchain_pay_nodes NoOrigin (oldest (Runtime.nodes s)) s with
      | (Ok _, s') => pay_times m s'
      | _ => None
      end
  end.
Lemma pay_once s :
  periods_ok (Runtime.nodes s) → may_pay NoOrigin (oldest (Runtime.nodes s)) s →
  ∃ s', offchain_pay_nodes NoOrigin (oldest (Runtime.nodes s)) s = (Ok (), s') ∧ paid_batch s s' ∧
    periods_ok (Runtime.nodes s').
Proof.
  intros Hn Hm. pose proof (offchain_pay_nodes_spec NoOrigin (oldest (Runtime.nodes s)) s Hn) as Hw.
  unfold wp in Hw. destruct (offchain_pay_nodes _ _ s) as [[[]|e|] s']; [|by destruct Hw|done].
  exists s'. destruct Hw as [_ Hp]. split_and!; [done|done|]. eapply periods_ok_same; [apply Hp|].
  apply after_batch_ok; [done|]. apply Hm.
Qed.
Lemma paid_batch_nodes s s' :
  paid_batch s s' →
  (paid (oldest (Runtime.nodes s)) (book s')).*1 =
    (paid (oldest (Runtime.nodes s)) (book s)).*1 ++ (next_batch (Runtime.nodes s)).*1.
Proof.
  intros (_&es&pot&_&->&Hes). unfold paid at 1. rewrite omap_app, fmap_app. f_equal.
  by apply (batch_payments _ _ _ _ _ Hes).
Qed.

Lemma pay_last s s' :
  periods_ok (Runtime.nodes s) → oldest (Runtime.nodes s) < current (Runtime.nodes s) → paid_batch s s' →
  next_rest (Runtime.nodes s) = [] → oldest (Runtime.nodes s') = oldest (Runtime.nodes s) + 1.
Proof.
  intros Hn Hc [Hv%view_core _] Hr. unfold oldest at 1. injection Hv as _ _ -> _ _.
  destruct (after_batch_fields _ Hn Hc) as [_ [(?&_)|(_&Ho&_)]]; [done|exact Ho].
Qed.
Lemma pay_more s s' :
  periods_ok (Runtime.nodes s) → oldest (Runtime.nodes s) < current (Runtime.nodes s) → paid_batch s s' →
  next_rest (Runtime.nodes s) ≠ [] →
  oldest (Runtime.nodes s') = oldest (Runtime.nodes s) ∧
  period_uptimes (Runtime.nodes s') (oldest (Runtime.nodes s)) = next_rest (Runtime.nodes s) ∧
  NodeStorage.MaxBatchSize (Runtime.nodes s') = NodeStorage.MaxBatchSize (Runtime.nodes s) ∧
  may_pay NoOrigin (oldest (Runtime.nodes s)) s'.
Proof.
  intros Hn Hc [Hv _] Hr. pose proof (batch_uptimes (Runtime.nodes s) (oldest (Runtime.nodes s))) as Hu.
  rewrite decide_True in Hu by done. pose proof (rest_nil s Hn) as Hb.
  unfold period_view in Hv. injection Hv as V1 V2 V3 V4 V5 V6 V7 V8 V9 V10 V11.
  assert (oldest (Runtime.nodes s') = oldest (Runtime.nodes s)) as Ho.
  { etrans; [exact V4|]. unfold after_batch. by rewrite decide_False. }
  split_and!; [done| | |].
  - unfold period_uptimes in *. by rewrite V6.
  - rewrite V8. unfold after_batch. by case_decide.
  - unfold may_pay. rewrite Ho. unfold current. rewrite V3, V5. unfold after_batch. rewrite decide_False by done.
    split_and!; [done|done|done|]. right; left. cbn.
    destruct (last (next_batch (Runtime.nodes s)).*1) eqn:Hl; [done|].
    apply last_None, fmap_nil_inv, Hb in Hl. done.
Qed.
Lemma pay_times_completes m s :
  periods_ok (Runtime.nodes s) → may_pay NoOrigin (oldest (Runtime.nodes s)) s →
  Z.of_nat (length (period_uptimes (Runtime.nodes s) (oldest (Runtime.nodes s)))) <=
    Z.of_nat m * NodeStorage.MaxBatchSize (Runtime.nodes s) →
  ∃ m' s', (m' ≤ 1 `max` m)%nat ∧ pay_times m' s = Some s' ∧
    oldest (Runtime.nodes s') = oldest (Runtime.nodes s) + 1 ∧
    (paid (oldest (Runtime.nodes s)) (book s')).*1 =
      (paid (oldest (Runtime.nodes s)) (book s)).*1 ++
      (period_uptimes (Runtime.nodes s) (oldest (Runtime.nodes s))).*1.
Proof.
  revert s. induction m as [|m IH]; intros s Hn Hm Hle;
    destruct (pay_once s Hn Hm) as (s1&Hp&Hb&Hn1); pose proof (paid_batch_nodes _ _ Hb) as Hpaid;
    pose proof (proj1 (proj2 (proj2 Hm))) as Hc; pose proof (pe_batch _ Hn) as Hpos;
    destruct (decide (next_rest (Runtime.nodes s) = [])) as [Hr|Hr].
  1, 3: exists 1%nat, s1; rewrite batch_split, Hr, app_nil_r; cbn [pay_times]; rewrite Hp;
    split_and!; [lia|done|by apply pay_last|done].
  - destruct Hr. apply drop_ge. lia.
  - destruct (pay_more s s1 Hn Hc Hb Hr) as (Ho&Hu&HB&Hm1).
    assert (Z.of_nat (length (next_rest (Runtime.nodes s))) <= Z.of_nat m * NodeStorage.MaxBatchSize (Runtime.nodes s)) as Hlen.
    { unfold next_rest. rewrite length_drop. lia. }
    destruct (IH s1) as (m'&s'&Hm'&Hrun&Ho'&Hpaid'); [done|by rewrite Ho|by rewrite Ho, Hu, HB|].
    exists (S m'), s'. cbn [pay_times]. rewrite Hp. rewrite Ho in *. rewrite Hu, Hpaid in Hpaid'.
    split_and!; [|done|done|by rewrite Hpaid', batch_split, fmap_app, app_assoc].
    destruct m; [|lia]. destruct (next_rest (Runtime.nodes s)); [done|cbn in Hlen; lia].
Qed.

End Completion.

(** * A reward period from start to finish

    Three nodes send heartbeats, the period ends, and it is paid out in two batches. *)

#[global] Instance demo_node_laws : NodeLaws demo_node_config.
Proof.
  constructor; cbn; try done.
  - intros x y. done.
  - intros p x Hx. apply Z.div_pos; [|lia]. nia.
  - intros p x Hx. apply Z.div_pos; [|lia]. nia.
  - intros w total Hw Ht. rewrite (Z.max_r 1 total) by lia. split; [apply Z.div_pos; lia|].
    unfold QUINTILLION. pose proof (Z.mul_div_le (Z.min w total * 1000000000000000000) total). nia.
  - intros q x Hq Hx. split; [apply Z.div_pos; nia|]. unfold QUINTILLION.
    pose proof (Z.mul_div_le (q * x) 1000000000000000000). lia.
  - intros n d Hn Hd. assert (0 <= n * 1000000000000000000 / d).
    { destruct (decide (d = 0)) as [->|]; [by rewrite Z.div_0_r|]. apply Z.div_pos; lia. }
    unfold u128_max. lia.
  - intros x y Hx Hy. unfold u128_max. lia.
  - intros x n Hx Hn. split; [|lia]. apply Z.min_glb; [lia|]. apply Z.div_le_lower_bound; [lia|]. nia.
Qed.

Section Run.
#[local] Existing Instance demo_config.
#[local] Existing Instance anchor_interface.
#[local] Existing Instance token_notification.

(** A call or the start of a block. *)
Inductive action : Type :=
  | Call (origin : Origin) (call : NodeCall)
  | Block (n : Z).
Definition act (a : action) (s : Runtime.t) : Runtime.t :=
  match a with
  | Call origin call => (transactional (node_call origin call) s).2
  | Block n => (NodeRewards.on_initialize n s).2
  end.
Definition acts (l : list action) (s : Runtime.t) : Runtime.t := foldl (λ s a, act a s) s l.

(** The conditions of the steps, decided. *)
Definition sound_now (s : Runtime.t) : bool :=
  let n := Runtime.nodes s in
  bool_decide (current n < u64_max) &&
  bool_decide (NodeStorage.OutstandingRewardToPay n +
               RewardPeriodInfo.reward_amount (NodeStorage.RewardPeriod n) <= u128_max) &&
  forallb (λ x, bool_decide (TotalUptimeInfo.total_weight x.2 < u128_max)) (map_to_list (NodeStorage.TotalUptime n)) &&
  bool_decide (Z.of_nat (size (NodeStorage.NodeRegistry n)) < u32_max).
Fixpoint sound_run (l : list action) (s : Runtime.t) : bool :=
  match l with
  | [] => true
  | a :: l => sound_now s && sound_run l (act a s)
  end.
Definition typed (a : action) : Prop := match a with Call _ call => node_call_typed call | Block _ => True end.
Lemma sound_now_sound s : sound_now s = true → sound s ∧ room s.
Proof.
  unfold sound_now. rewrite !andb_true_iff, !bool_decide_eq_true. intros [[[? ?] Hw] ?].
  split; [|done]. split; [done|]. intros p. unfold period_weight.
  destruct (NodeStorage.TotalUptime _ !! p) as [u|] eqn:Hu; cbn; [|done].
  rewrite forallb_forall in Hw. apply elem_of_map_to_list, list_elem_of_In, Hw in Hu.
  by apply bool_decide_eq_true in Hu.
Qed.
Lemma acts_reach others l s :
  Forall typed l → sound_run l s = true → rtc (account_step others) s (acts l s).
Proof.
  intros Hl. revert s. induction Hl as [|a l Ha _ IH]; intros s; [done|]. cbn [sound_run].
  intros [[Hs Hroom]%sound_now_sound Hr]%andb_prop. eapply rtc_l; [|by apply IH].
  split; [done|]. destruct a; by constructor.
Qed.

(** Three nodes of two accounts, one heartbeat each; the first of the two batches is
    paid after the period has ended. *)
Definition demo_period : list action :=
  (uncurry Call <$> demo_registrations ++ demo_stakes) ++
  [Call NoOrigin (Call_offchain_submit_heartbeat 1%N 0 0 11%N);
   Call NoOrigin (Call_offchain_submit_heartbeat 2%N 0 0 12%N);
   Call NoOrigin (Call_offchain_submit_heartbeat 3%N 0 0 13%N); Block 10].
Definition demo_payout : list action :=
  [Call NoOrigin (Call_offchain_pay_nodes 0 (Validator.mk 1%N 1%N) 1%N)].
Definition demo_ended : Runtime.t := acts demo_period demo_built.
Definition demo_half_paid : Runtime.t := acts (demo_period ++ demo_payout) demo_built.
Definition demo_paid : Runtime.t := acts (demo_period ++ demo_payout ++ demo_payout) demo_built.
Lemma demo_account_start : account_start demo_built.
Proof.
  split; [split_and!; [done|done|by apply Nat.leb_le]|].
  exists demo_genesis, demo_before. split_and!; [done|done|done|done|].
  by rewrite (surjective_pairing (NodeGenesis.build _ _)).
Qed.
Lemma payouts_settled_witness :
  paid 0 (book demo_paid) = [(1%N, 514); (2%N, 128); (3%N, 257)] ∧ rewards 0 (book demo_paid) = [900] ∧
  NoDup (paid 0 (book demo_paid)).*1 ∧ zsum snd (paid 0 (book demo_paid)) <= 900.
Proof.
  destruct (payouts_settled [token_notification] demo_built demo_paid) as [Hp _].
  - cbn. unfold u32_max. lia.
  - constructor; [apply _|constructor].
  - exact demo_account_start.
  - apply acts_reach; [|by vm_compute]. repeat constructor; cbn; lia.
  - assert (oldest (Runtime.nodes demo_paid) = 1) as Ho by by vm_compute.
    destruct (Hp 0) as (Hd&_&_&_&Hs); [rewrite Ho; lia|].
    split_and!; [by vm_compute|by vm_compute|exact Hd|]. apply Hs.
    assert (rewards 0 (book demo_paid) = [900]) as -> by by vm_compute. left.
Defined.
End Run.
