(* ===== verification/Worker.v ===== *)
(** * The worker of a node

    [pallets/node-manager/src/offchain.rs] and [offchain_worker] of its [lib.rs]: what
    the worker of a collator or of a registered node submits in a block.  The state of
    the chain is only read; the database of the node is a record, and the host (keys,
    signatures, the pool of transactions, the service that follows Ethereum) a class. *)

From S2P Require Import Prelude Frames Slices Bytes EventTypes EventParsing EventDiscovery EthTypes.
From S2P Require Import RuntimeErrors NodeTypes BridgeTypes Avn EthBridge BridgeEvents TokenManager.
From S2P Require Import NodeStake NodeRewards NodeManager.

Definition BLOCK_INCLUSION_PERIOD : Z := 5.

(** The database of the node, per key that the worker uses. *)
Module LocalStorage.
Record t : Type := mk {
  last_run : option Z;
  (** The node given on the command line, decoded. *)
  registered_node_cli : option NodeId;
  pallet_registered_node : option NodeId;
  heartbeats : gmap (RewardPeriodIndex * Z) Z;
}.
Definition upd_last_run f (x : t) : t :=
  mk (f x.(last_run)) x.(registered_node_cli) x.(pallet_registered_node) x.(heartbeats).
Definition upd_registered_node_cli f (x : t) : t :=
  mk x.(last_run) (f x.(registered_node_cli)) x.(pallet_registered_node) x.(heartbeats).
Definition upd_pallet_registered_node f (x : t) : t :=
  mk x.(last_run) x.(registered_node_cli) (f x.(pallet_registered_node)) x.(heartbeats).
Definition upd_heartbeats f (x : t) : t :=
  mk x.(last_run) x.(registered_node_cli) x.(pallet_registered_node) (f x.(heartbeats)).
End LocalStorage.

(** The host in one run of the worker. *)
Class WorkerHost `{BridgeConfig} `{!NodeConfig} := {
  (** [sp_io::offchain::is_validator] and the service that follows Ethereum. *)
  host_is_validator : bool;
  finalised_block : option Z;
  (** [RuntimeAppPublic::all] and [sign]. *)
  local_authorities : list AuthorityId;
  local_signers : list SignerId;
  authority_sign : AuthorityId → Payload.t → option AuthoritySignature;
  node_sign : SignerId → Payload.t → option NodeSignature;
  (** [SubmitTransaction::submit_transaction]. *)
  submit_transaction : NodeCall → bool;
  (** [MutateStorageError::ConcurrentModification]. *)
  concurrent_modification : bool;
}.

Section Worker.
Context `{WorkerHost}.
Implicit Types (s : Runtime.t) (l : LocalStorage.t).

(** [StorageValueRef::mutate] with a function that does not fail. *)
Definition mutate (f : LocalStorage.t → LocalStorage.t) l : LocalStorage.t * bool :=
  if concurrent_modification then (l, false) else (f l, true).

(** ** Once per block ([primitives/avn-common/src/ocw_lock.rs]) *)

Definition record_block_run (block_number : Z) l : LocalStorage.t * bool :=
  match LocalStorage.last_run l with
  | Some block =>
      if bool_decide (block_number <= block) then (l, false)
      else mutate (LocalStorage.upd_last_run (λ _, Some block_number)) l
  | None => mutate (LocalStorage.upd_last_run (λ _, Some block_number)) l
  end.
(** [AVN::pre_run_setup]. *)
Definition pre_run_setup (block_number : Z) s l : LocalStorage.t * option Validator.t :=
  if negb host_is_validator then (l, None)
  else
    match get_validator_for_current_node local_authorities s with
    | None => (l, None)
    | Some validator =>
        match finalised_block with
        | None => (l, None)
        | Some _ =>
            let '(l, ok) := record_block_run block_number l in
            (l, if ok then Some validator else None)
        end
    end.
Definition try_get_node_author (block_number : Z) s l : LocalStorage.t * option (Validator.t * bool) :=
  let '(l, setup_result) := pre_run_setup block_number s l in
  match setup_result with
  | Some this_author =>
      match (is_primary_for_block block_number (Validator.account_id this_author) s).1 with
      | Ok is_primary => (l, Some (this_author, is_primary))
      | _ => (l, Some (this_author, false))
      end
  | None => (l, None)
  end.

(** ** Collators *)

(** What is submitted; the pool may refuse it. *)
Definition trigger_payment_if_required (reward_period_index : RewardPeriodIndex) (author : Validator.t) s :
    list NodeCall :=
  if can_trigger_payment s then
    match authority_sign (Validator.key author) (Payload.PAYOUT_REWARD_CONTEXT reward_period_index) with
    | Some signature => [Call_offchain_pay_nodes reward_period_index author signature]
    | None => []
    end
  else [].
Definition trigger_mint_if_required (author : Validator.t) s : list NodeCall :=
  match next_mint_amount_to_request s with
  | Some amount =>
      match authority_sign (Validator.key author) (Payload.MINT_REWARDS_CONTEXT amount) with
      | Some signature => [Call_offchain_mint_rewards amount author signature]
      | None => []
      end
  | None => []
  end.

(** ** Nodes *)

Definition record_formatted_node_id (node_id : NodeId) : LocalStorage.t → LocalStorage.t * bool :=
  mutate (LocalStorage.upd_pallet_registered_node (λ _, Some node_id)).
Definition get_node_from_signing_key s l : LocalStorage.t * option (NodeId * SignerId) :=
  let local_keys := sort_by N.compare local_signers in
  let l :=
    match LocalStorage.registered_node_cli l with
    | Some cli_node_id =>
        let '(l, ok) := record_formatted_node_id cli_node_id l in
        if ok then LocalStorage.upd_registered_node_cli (λ _, None) l else l
    | None => l
    end in
  let search :=
    match search_node_id_by_signing_key local_keys s with
    | Some (node_id, signing_key) => ((record_formatted_node_id node_id l).1, Some (node_id, signing_key))
    | None => (l, None)
    end in
  match LocalStorage.pallet_registered_node l with
  | Some node_id =>
      match match_node_id_to_signing_key node_id local_keys s with
      | Some key_pair => (l, Some key_pair)
      | None => search
      end
  | None => search
  end.
Definition heartbeat_submission_in_progress (reward_period_index : RewardPeriodIndex)
    (heartbeat_count current_block : Z) l : bool :=
  match LocalStorage.heartbeats l !! (reward_period_index, heartbeat_count) with
  | Some last_submission => bool_decide (current_block <= last_submission ⊕₃₂ BLOCK_INCLUSION_PERIOD)
  | None => false
  end.
Definition record_heartbeat_ocw_submission (now : Z) (reward_period_index : RewardPeriodIndex)
    (heartbeat_count : Z) : LocalStorage.t → LocalStorage.t * bool :=
  mutate (LocalStorage.upd_heartbeats (insert (reward_period_index, heartbeat_count) now)).
Definition send_heartbeat_if_required (block_number : Z) s l : LocalStorage.t * list NodeCall :=
  let '(l, maybe_node_key) := get_node_from_signing_key s l in
  match maybe_node_key with
  | Some (node, signing_key) =>
      let reward_period := NodeStorage.RewardPeriod (Runtime.nodes s) in
      let current_reward_period := RewardPeriodInfo.current reward_period in
      let uptime_info := uptime current_reward_period node s in
      let heartbeat_count := from_option UptimeInfo.count 0 uptime_info in
      let in_progress := heartbeat_submission_in_progress current_reward_period heartbeat_count block_number l in
      if should_send_heartbeat in_progress block_number uptime_info reward_period then
        match node_sign signing_key (Payload.HEARTBEAT_CONTEXT heartbeat_count current_reward_period) with
        | Some signature =>
            let call := Call_offchain_submit_heartbeat node current_reward_period heartbeat_count signature in
            let l :=
              if submit_transaction call
              then (record_heartbeat_ocw_submission block_number current_reward_period heartbeat_count l).1
              else l in
            (l, [call])
        | None => (l, [])
        end
      else (l, [])
  | None => (l, [])
  end.

(** ** A run *)

(** The database after the run, and the calls submitted in order. *)
Definition offchain_worker (n : Z) s l : LocalStorage.t * list NodeCall :=
  if negb (NodeStorage.RewardEnabled (Runtime.nodes s)) then (l, [])
  else
    let '(l, result) := try_get_node_author n s l in
    match result with
    | Some (author, is_primary) =>
        if negb is_primary then (l, [])
        else
          (l, trigger_mint_if_required author s ++
              trigger_payment_if_required (NodeStorage.OldestUnpaidRewardPeriodIndex (Runtime.nodes s)) author s)
    | None => send_heartbeat_if_required n s l
    end.
End Worker.
