(* ===== verification/WorkerProps.v ===== *)
(** * What the worker of a node submits is accepted

    The decisions of the worker agree with the checks on chain. *)

From S2P Require Import Prelude Frames Slices Bytes EventTypes EventParsing EventDiscovery.
From S2P Require Import EthTypes RuntimeErrors NodeTypes BridgeTypes Avn BridgeExamples EthBridge BridgeEvents.
From S2P Require Import TokenManager NodeStake NodeRewards NodeManager NodeInv BridgeInv.
From S2P Require Import BridgeCalls BridgeProps NodeDispatch Anchor NodeExamples NodeProps.
From S2P Require Import Periods PayoutInv PayoutProps Worker.

(** A key verifies what it signs. *)
Class HostLaws `{WorkerHost} : Prop := {
  authority_sign_ok key payload signature :
    authority_sign key payload = Some signature → authority_verify key payload signature = true;
  node_sign_ok key payload signature :
    node_sign key payload = Some signature → node_verify key payload signature = true;
}.

Section Worker.
Context `{WorkerHost} `{!HostLaws} `{!NodeLaws _} `{!ReserveLaws _}.
Context `{!AppChainInterface} `{!AppChainLaws _} `{!BridgeInterfaceNotification}.
Implicit Types (s : Runtime.t) (l : LocalStorage.t) (k : NodeId).

(** ** The calls are what the chain accepts *)

Lemma run_ret {A B} (a : A) (f : A → Dispatch B) s : (mret a ≫= f) s = f a s.
Proof. done. Qed.
Lemma run_gets {A B} (g : Runtime.t → A) (f : A → Dispatch B) s : (gets g ≫= f) s = f (g s) s.
Proof. done. Qed.
Lemma run_ensure {B} b (e : DispatchError) (f : unit → Dispatch B) s : b = true → (ensure b e ≫= f) s = f () s.
Proof. by intros ->. Qed.
Lemma run_ok_or {A B} o (e : DispatchError) (a : A) (f : A → Dispatch B) s :
  o = Some a → (ok_or o e ≫= f) s = f a s.
Proof. by intros ->. Qed.

Lemma submit_heartbeat_ok s k p c :
  may_beat s k p c → ∃ s', offchain_submit_heartbeat NoOrigin k p c s = (Ok (), s').
Proof.
  intros Hb. assert (wp (offchain_submit_heartbeat NoOrigin k p c) s (λ _ _, True) (λ _ _, False)) as Hw.
  { unfold offchain_submit_heartbeat, node_get. wp_step. apply wp_ret. wp_step.
    eapply wp_mono; [apply validate_heartbeats_spec| |by intros ? ? [_ ?]]. intros [] s' [-> (Hi&_&_)].
    repeat wp_step; try done. destruct Hi as [i Hi]. congruence. }
  unfold wp in Hw. destruct (offchain_submit_heartbeat _ _ _ _ s) as [[[]|e|] s']; [|done..]. by exists s'.
Qed.
Lemma node_key s l l' k key :
  get_node_from_signing_key s l = (l', Some (k, key)) →
  ∃ i, node_info k s = Some i ∧ NodeInfo.signing_key i = key.
Proof.
  assert (∀ keys, search_node_id_by_signing_key keys s = Some (k, key) →
    ∃ i, node_info k s = Some i ∧ NodeInfo.signing_key i = key) as Hsearch.
  { intros keys. induction keys as [|x keys IH]; cbn; [done|].
    destruct (_ !! x) as [k'|]; [|done]. destruct (node_info k' s) as [i|] eqn:Hi; [|done].
    case_bool_decide as Hx; [|done]. intros [= -> ->]. by exists i. }
  unfold get_node_from_signing_key. cbn zeta.
  match goal with |- context [LocalStorage.pallet_registered_node ?x] => generalize x; intros l0 end.
  destruct (LocalStorage.pallet_registered_node l0) as [k0|].
  - destruct (match_node_id_to_signing_key _ _ _) as [[k1 key1]|] eqn:Hm.
    + intros [= <- -> ->]. unfold match_node_id_to_signing_key in Hm.
      destruct (node_info k0 s) as [i|] eqn:Hi; cbn in Hm; [|done]. case_bool_decide; [|done].
      injection Hm as <- <-. by exists i.
    + destruct (search_node_id_by_signing_key _ _) as [[k1 key1]|] eqn:Hs; [|done].
      intros [= _ -> ->]. by eapply Hsearch.
  - destruct (search_node_id_by_signing_key _ _) as [[k1 key1]|] eqn:Hs; [|done].
    intros [= _ -> ->]. by eapply Hsearch.
Qed.
Lemma author_known s v : get_validator_for_current_node local_authorities s = Some v → is_validator (Validator.account_id v) s = true.
Proof.
  unfold get_validator_for_current_node, is_validator. intros [Hin _]%List.find_some.
  apply existsb_exists. exists v. split; [done|]. by apply bool_decide_true.
Qed.
Lemma author_of_run n s l l' v primary :
  try_get_node_author n s l = (l', Some (v, primary)) → is_validator (Validator.account_id v) s = true.
Proof.
  unfold try_get_node_author, pre_run_setup. destruct (negb _); [done|].
  destruct (get_validator_for_current_node _ s) as [v'|] eqn:Hv; [|done]. apply author_known in Hv.
  destruct finalised_block; [|done]. destruct (record_block_run n l) as [l1 []]; [|done].
  destruct (is_primary_for_block _ _ s).1; by intros [= _ <- _].
Qed.

(** What happens to a call that is submitted: it is admitted, and executes unless the
    pot does not cover the period or the bridge refuses the request. *)
Definition welcome s (call : NodeCall) : Prop :=
  validate_unsigned_node Local call s = None ∧
  match call with
  | Call_offchain_submit_heartbeat _ _ _ _ => ∃ s', node_call NoOrigin call s = (Ok (), s')
  | Call_offchain_pay_nodes p _ _ =>
      p = oldest (Runtime.nodes s) ∧ p < current (Runtime.nodes s) ∧
      (from_option RewardPotInfo.total_reward 0 (NodeStorage.RewardPot (Runtime.nodes s) !! p) <= reward_pot_balance s →
       ∃ s', node_call NoOrigin call s = (Ok (), s'))
  | Call_offchain_mint_rewards amount _ _ =>
      0 < amount ∧ ∀ e, (node_call NoOrigin call s).1 = Err e → (send_mint_to_ethereum amount s).1 = Err e
  | _ => False
  end.
Lemma heartbeat_welcome s l l' calls :
  NodeStorage.RewardEnabled (Runtime.nodes s) = true →
  send_heartbeat_if_required (Runtime.block_number s) s l = (l', calls) → Forall (welcome s) calls.
Proof.
  intros He. unfold send_heartbeat_if_required.
  destruct (get_node_from_signing_key s l) as [l1 [[k key]|]] eqn:Hk; [|by intros [= _ <-]].
  apply node_key in Hk as (i&Hi&Hkey). set (p := NodeStorage.RewardPeriod (Runtime.nodes s)).
  set (u := uptime (RewardPeriodInfo.current p) k s).
  destruct (should_send_heartbeat _ _ u p) eqn:Hsend; [|by intros [= _ <-]].
  destruct (node_sign _ _) as [signature|] eqn:Hsig; [|by intros [= _ <-]]. intros [= _ <-].
  assert (may_beat s k (RewardPeriodInfo.current p) (from_option UptimeInfo.count 0 u)) as Hb.
  { split_and!; [by exists i|done|]. fold u. unfold should_send_heartbeat in Hsend. destruct (heartbeat_submission_in_progress _ _ _ _); [done|].
    destruct u as [u|]; [|done]. apply andb_prop in Hsend as [Hc Hl]. apply bool_decide_eq_true in Hc, Hl. done. }
  constructor; [|constructor]. split.
  - unfold validate_unsigned_node. rewrite He, Hi. cbn [negb].
    pose proof (validate_heartbeats_spec k (RewardPeriodInfo.current p) (from_option UptimeInfo.count 0 u) s) as Hv.
    unfold wp in Hv. destruct (validate_heartbeats _ _ _ s) as [[]]; cbn [fst]; [|by destruct Hv|done].
    rewrite Hkey. apply node_sign_ok in Hsig. by rewrite Hsig.
  - by apply submit_heartbeat_ok.
Qed.
Lemma payment_welcome s v :
  NodeStorage.RewardEnabled (Runtime.nodes s) = true → periods_ok (Runtime.nodes s) →
  is_validator (Validator.account_id v) s = true →
  Forall (welcome s) (trigger_payment_if_required (oldest (Runtime.nodes s)) v s).
Proof.
  intros He Hn Hv. unfold trigger_payment_if_required, can_trigger_payment.
  destruct (negb _) eqn:Hc; [|constructor]. apply negb_true_iff, bool_decide_eq_false in Hc.
  destruct (authority_sign _ _) as [signature|] eqn:Hs; [|constructor]. apply authority_sign_ok in Hs.
  assert (oldest (Runtime.nodes s) < current (Runtime.nodes s)) as Hlt by (unfold oldest, current; lia).
  constructor; [|constructor]. split.
  - unfold validate_unsigned_node, Avn.signature_is_valid. by rewrite He, Hv, Hs.
  - split_and!; [done|done|]. intros Hfunds. destruct (pay_once s) as (s'&Hp&_); [done| |by exists s'].
    unfold may_pay. split_and!; auto.
Qed.
Lemma mint_welcome s v :
  NodeStorage.RewardEnabled (Runtime.nodes s) = true → is_validator (Validator.account_id v) s = true →
  0 <= NodeStorage.NextRewardAmountPerPeriod (Runtime.nodes s) → 0 <= NodeStorage.NumPeriodsToMint (Runtime.nodes s) →
  Forall (welcome s) (trigger_mint_if_required v s).
Proof.
  intros He Hv Hreward Hperiods. unfold trigger_mint_if_required. destruct (next_mint_amount_to_request s) as [amount|] eqn:Hm; [|constructor].
  destruct (authority_sign _ _) as [signature|] eqn:Hs; [|constructor]. apply authority_sign_ok in Hs.
  unfold next_mint_amount_to_request in Hm. case_bool_decide as Hp; [done|].
  do 2 (case_bool_decide; [done|]). destruct (checked_mul_u128 _ _) as [runway|] eqn:Hr; cbn in Hm; [|done].
  destruct (checked_add_u128 _ runway) as [refill|] eqn:Hrefill; cbn in Hm; [|done].
  destruct (checked_add_u128 refill runway) as [target|] eqn:Ht; cbn in Hm; [|done].
  case_bool_decide as Hlow; [done|]. destruct (checked_sub_u128 target _) as [a|] eqn:Ha; cbn in Hm; [|done].
  case_bool_decide as Hcap; [done|]. injection Hm as ->.
  assert (0 < amount) as Hpos.
  { unfold checked_mul_u128, checked_add_u128, checked_sub_u128 in *. repeat case_bool_decide; simplify_eq. nia. }
  constructor; [|constructor]. split.
  - unfold validate_unsigned_node, Avn.signature_is_valid. rewrite He, Hv, Hs. cbn [negb from_local andb].
    by rewrite Hp.
  - split; [done|]. intros e. cbn [node_call].
    assert (offchain_mint_rewards NoOrigin amount v signature s =
      (tx_id ← send_mint_to_ethereum amount;
       put_pending_mint (Some (PendingMintRequest.mk tx_id amount false false));;
       node_event (NodeEvent.MintRequestSubmitted amount tx_id)) s) as ->.
    { unfold offchain_mint_rewards, node_get. cbn [ensure_none]. rewrite run_ret, run_gets.
      rewrite run_ensure by (unfold Avn.signature_is_valid; by rewrite Hv, Hs).
      rewrite run_ensure by by apply bool_decide_true.
      rewrite run_gets, run_ensure by by apply bool_decide_true.
      do 2 rewrite run_gets. rewrite (run_ok_or _ _ runway) by exact Hr.
      by rewrite run_ensure by (apply bool_decide_true; lia). }
    unfold mbind, M_bind, put_pending_mint, node_modify, node_event, deposit_event, modify.
    destruct (send_mint_to_ethereum amount s) as [[] ?]; cbn; congruence.
Qed.

(** C18: the worker never submits a call in vain: in a state where it runs, every
    call it submits is admitted to the pool; a heartbeat is executed, a payout is
    executed if the pot covers the oldest period, and a request to mint is only
    refused when the bridge refuses it. *)
Theorem worker_calls_accepted s l l' calls :
  periods_ok (Runtime.nodes s) → 0 <= NodeStorage.NumPeriodsToMint (Runtime.nodes s) →
  offchain_worker (Runtime.block_number s) s l = (l', calls) → Forall (welcome s) calls.
Proof.
  intros Hn Hp. unfold offchain_worker.
  destruct (NodeStorage.RewardEnabled (Runtime.nodes s)) eqn:He; [|by intros [= _ <-]]. cbn [negb].
  destruct (try_get_node_author _ s l) as [l1 [[v []]|]] eqn:Hv; cbn [negb]; [..|by apply heartbeat_welcome].
  - apply author_of_run in Hv. intros [= _ <-]. apply Forall_app. split.
    + apply mint_welcome; [done|done|apply Hn|done].
    + by apply payment_welcome.
  - by intros [= _ <-].
Qed.
(** The node that was found is found again. *)
Lemma found_again s l l1 k key f :
  concurrent_modification = false → get_node_from_signing_key s l = (l1, Some (k, key)) →
  get_node_from_signing_key s (LocalStorage.upd_heartbeats f l1) =
    (LocalStorage.upd_heartbeats f l1, Some (k, key)).
Proof.
  intros Hc. assert (∀ keys, search_node_id_by_signing_key keys s = Some (k, key) →
    match_node_id_to_signing_key k keys s = Some (k, key)) as Hsearch.
  { intros keys Hs. assert (key ∈ keys ∧ ∃ i, node_info k s = Some i ∧ NodeInfo.signing_key i = key) as (Hin&i&Hi&Hkey).
    { induction keys as [|x keys IH]; cbn in Hs; [done|]. rewrite elem_of_cons.
      destruct (_ !! x) as [k'|]; [|by apply IH in Hs as [??]; auto].
      destruct (node_info k' s) as [i|] eqn:Hi; [|by apply IH in Hs as [??]; auto].
      case_bool_decide as Hx; [|by apply IH in Hs as [??]; auto]. injection Hs as -> ->. eauto. }
    unfold match_node_id_to_signing_key. rewrite Hi. cbn. rewrite Hkey. by rewrite bool_decide_true. }
  unfold get_node_from_signing_key, record_formatted_node_id, mutate. rewrite Hc. cbn zeta.
  match goal with |- context [LocalStorage.pallet_registered_node ?x] => set (l0 := x) end.
  assert (LocalStorage.registered_node_cli l0 = None) as Hcli.
  { unfold l0. by destruct (LocalStorage.registered_node_cli l) eqn:E. }
  clearbody l0. set (keys := sort_by _ _). destruct (LocalStorage.pallet_registered_node l0) as [k0|] eqn:Hp.
  - destruct (match_node_id_to_signing_key k0 keys s) as [[k1 key1]|] eqn:Hm.
    + intros [= <- -> ->]. cbn. rewrite Hcli. cbn. rewrite Hp. assert (k0 = k) as ->.
      { unfold match_node_id_to_signing_key in Hm. destruct (node_info k0 s); cbn in Hm; [|done].
        case_bool_decide; [|done]. by injection Hm. }
      by rewrite Hm.
    + destruct (search_node_id_by_signing_key keys s) as [[k1 key1]|] eqn:Hs; [|done].
      intros [= <- -> ->]. cbn. rewrite Hcli. cbn. by rewrite Hsearch.
  - destruct (search_node_id_by_signing_key keys s) as [[k1 key1]|] eqn:Hs; [|done].
    intros [= <- -> ->]. cbn. rewrite Hcli. cbn. by rewrite Hsearch.
Qed.
(** No worker repeats itself: after a heartbeat was submitted and recorded, the
    worker does not submit another one until the chain has counted it or the blocks
    it was given to be included have passed. *)
Theorem heartbeat_not_repeated s l l' n n' call :
  concurrent_modification = false → submit_transaction call = true →
  send_heartbeat_if_required n s l = (l', [call]) →
  n <= n' <= n + BLOCK_INCLUSION_PERIOD → n' <= u32_max →
  (send_heartbeat_if_required n' s l').2 = [].
Proof.
  intros Hc Hsub. unfold send_heartbeat_if_required at 1.
  destruct (get_node_from_signing_key s l) as [l1 [[k key]|]] eqn:Hk; [|done].
  set (p := RewardPeriodInfo.current _). set (c := from_option UptimeInfo.count 0 (uptime p k s)).
  destruct (should_send_heartbeat _ _ _ _); [|done]. destruct (node_sign _ _) as [signature|]; [|done].
  intros [= <- <-] Hn Hmax. rewrite Hsub. unfold record_heartbeat_ocw_submission, mutate. rewrite Hc. cbn [fst].
  unfold send_heartbeat_if_required. rewrite (found_again s l l1 k key _ Hc Hk). fold p. fold c.
  unfold heartbeat_submission_in_progress. cbn [LocalStorage.heartbeats LocalStorage.upd_heartbeats].
  rewrite lookup_insert_eq, bool_decide_true; [done|]. unfold saturating_add_to. lia.
Qed.
End Worker.

(** ** Two hosts *)

Section Hosts.
#[local] Existing Instance demo_config.
#[local] Existing Instance anchor_interface.
#[local] Existing Instance token_notification.

(** The host of validator 3, and the host of node 1. *)
Definition collator_host : WorkerHost := {|
  host_is_validator := true;
  finalised_block := Some 100;
  local_authorities := [13%N];
  local_signers := [];
  authority_sign key _ := Some key;
  node_sign key _ := Some key;
  submit_transaction _ := true;
  concurrent_modification := false;
|}.
Definition node_host : WorkerHost := {|
  host_is_validator := false;
  finalised_block := None;
  local_authorities := [];
  local_signers := [11%N];
  authority_sign key _ := Some key;
  node_sign key _ := Some key;
  submit_transaction _ := true;
  concurrent_modification := false;
|}.
Definition fresh_storage : LocalStorage.t := LocalStorage.mk None None None ∅.
Lemma collator_laws : @HostLaws _ _ collator_host.
Proof. constructor; cbn; intros ? ? ? [= <-]; apply N.eqb_refl. Qed.
Lemma node_host_laws : @HostLaws _ _ node_host.
Proof. constructor; cbn; intros ? ? ? [= <-]; apply N.eqb_refl. Qed.
Lemma demo_ended_periods : periods_ok (Runtime.nodes demo_ended).
Proof.
  apply (account_reachable [token_notification] demo_built demo_ended).
  - cbn. unfold u32_max. lia.
  - constructor; [apply _|constructor].
  - exact demo_account_start.
  - apply acts_reach; [|by vm_compute]. repeat constructor; cbn; lia.
Qed.
Definition demo_beat : @NodeCall demo_config demo_node_config := Call_offchain_submit_heartbeat 1%N 0 0 11%N.
Definition demo_pay : @NodeCall demo_config demo_node_config :=
  Call_offchain_pay_nodes 0 (Validator.mk 3%N 13%N) 13%N.
Lemma worker_calls_accepted_witness :
  (@offchain_worker _ _ collator_host 10 demo_ended fresh_storage).2 =
    [demo_pay] ∧
  Forall (welcome demo_ended) (@offchain_worker _ _ collator_host 10 demo_ended fresh_storage).2.
Proof.
  split; [vm_cast_no_check (eq_refl [demo_pay])|].
  assert (Runtime.block_number demo_ended = 10) as Hb by by vm_compute.
  apply (@worker_calls_accepted _ _ collator_host collator_laws _ _ _ demo_ended fresh_storage
           (@offchain_worker _ _ collator_host 10 demo_ended fresh_storage).1).
  - exact demo_ended_periods.
  - by vm_compute.
  - rewrite Hb. apply surjective_pairing.
Defined.
Lemma heartbeat_not_repeated_witness :
  let run n l := @send_heartbeat_if_required _ _ node_host n demo_registered l in
  (run 10 fresh_storage).2 = [demo_beat] ∧
  (run 15 (run 10 fresh_storage).1).2 = [].
Proof.
  split; [vm_cast_no_check (eq_refl [demo_beat])|].
  apply (@heartbeat_not_repeated _ _ node_host demo_registered fresh_storage
           (@send_heartbeat_if_required _ _ node_host 10 demo_registered fresh_storage).1 10 15
           demo_beat); [done|done| |done|done].
  etrans; [apply surjective_pairing|]. by f_equal.
Defined.
End Hosts.
