(* ===== verification/SummaryWorker.v ===== *)
(** * Summaries: watchtowers and workers

    [pallets/summary-watchtower], which follows the summary that the watchtowers vote on,
    and the workers: that of a validator ([pallets/summary], with [vote.rs] and
    [challenge.rs]) and that of a watchtower.  A worker only reads the state of the chain;
    what it submits and the locks it keeps are its result.  The service that computes root
    hashes, the keys, the locks and the pool of transactions belong to the host. *)

From S2P Require Import Prelude Slices Bytes EventTypes EventParsing EventDiscovery EthTypes.
From S2P Require Import RuntimeErrors NodeTypes SummaryTypes BridgeTypes Avn EthBridge BridgeEvents.
From S2P Require Import NodeStake NodeRewards NodeManager Watchtower Summary Worker.

(** ** The summary that is voted on *)

Section SummaryWatchtower.
Context `{BridgeConfig}.
Implicit Types (s : Runtime.t) (proposal_id : ProposalId) (proposal : Proposal.t).

Definition put_root_info (x : option (ProposalId * WatchedRoot.t)) : Dispatch unit :=
  modify (Runtime.upd_root_info (λ _, x)).
Definition summary_watchtower_event (e : SummaryWatchtowerEvent.t) : Dispatch unit :=
  deposit_event (SummaryWatchtowerEvent_ e).
(** [<(RootId, H256)>::decode]: what follows is ignored. *)
Definition decode_root (data : bytes) : option (RootId.t * H256) :=
  from_block ← slice 0 4 data;
  to_block ← slice 4 8 data;
  ingress_counter ← slice 8 16 data;
  root_hash ← slice 16 48 data;
  Some (RootId.mk (RootRange.mk (Z.of_N (from_le_bytes from_block)) (Z.of_N (from_le_bytes to_block)))
          (Z.of_N (from_le_bytes ingress_counter)), from_be_bytes root_hash).

Definition remove_root_if_needed (new_proposal_id : ProposalId) : Dispatch unit :=
  info ← gets Runtime.root_info;
  match info with
  | Some (id, _) =>
      put_root_info None;;
      summary_watchtower_event (SummaryWatchtowerEvent.ProposalValidationReplaced id new_proposal_id)
  | None => mret ()
  end.
Definition process_new_proposal proposal_id proposal : Dispatch unit :=
  '(root_id, root_hash) ←
    (match Proposal.payload proposal with
     | RawPayload.Inline data => ok_or (decode_root data) SummaryWatchtowerError.InvalidSummaryProposal
     | RawPayload.Uri _ => fail SummaryWatchtowerError.ExternalPayloadNotSupported
     end);
  current_block ← gets Runtime.block_number;
  let range := RootId.range root_id in
  ensure (bool_decide (RootRange.from_block range <= RootRange.to_block range) &&
          bool_decide (RootRange.to_block range <= current_block))
    SummaryWatchtowerError.InvalidSummaryProposal;;
  remove_root_if_needed proposal_id;;
  let root_data := WatchedRoot.mk root_id root_hash in
  put_root_info (Some (proposal_id, root_data));;
  summary_watchtower_event (SummaryWatchtowerEvent.SummaryVerificationRequested proposal_id root_data).
Definition forget_proposal proposal_id : Dispatch unit :=
  info ← gets Runtime.root_info;
  match info with
  | Some (stored_proposal_id, _) =>
      if bool_decide (stored_proposal_id = proposal_id) then put_root_info None else mret ()
  | None => mret ()
  end.
Definition summary_watchtower_hooks : WatchtowerHooks := {|
  on_proposal_submitted proposal_id proposal :=
    match Proposal.source proposal with
    | ProposalSource.Internal ProposalType.Anchor | ProposalSource.Internal ProposalType.Summary =>
        process_new_proposal proposal_id proposal
    | _ => mret ()
    end;
  on_voting_completed proposal_id _ _ := forget_proposal proposal_id;
  on_cancelled proposal_id _ := forget_proposal proposal_id;
|}.
End SummaryWatchtower.

(** ** The host *)

(** The names of the locks, by their prefix. *)
Inductive SummaryLock : Type :=
  | vote_lock (root_id : RootId.t)
  | challenge_lock (challenge : SummaryChallenge.t)
  | create_summary_lock (block_number : Z)
  | advance_slot_lock (block_number : Z)
  | validate_root_lock (proposal_id : ProposalId) (now : Z) (root_data : WatchedRoot.t).

(** [str::trim]: the encodings of the characters that are [White_Space] in Unicode are
    stripped at both ends. *)
Definition whitespace : list bytes :=
  ([[9]; [10]; [11]; [12]; [13]; [32]; [0xC2; 0x85]; [0xC2; 0xA0]; [0xE1; 0x9A; 0x80];
    [0xE2; 0x80; 0x80]; [0xE2; 0x80; 0x81]; [0xE2; 0x80; 0x82]; [0xE2; 0x80; 0x83];
    [0xE2; 0x80; 0x84]; [0xE2; 0x80; 0x85]; [0xE2; 0x80; 0x86]; [0xE2; 0x80; 0x87];
    [0xE2; 0x80; 0x88]; [0xE2; 0x80; 0x89]; [0xE2; 0x80; 0x8A]; [0xE2; 0x80; 0xA8];
    [0xE2; 0x80; 0xA9]; [0xE2; 0x80; 0xAF]; [0xE2; 0x81; 0x9F]; [0xE3; 0x80; 0x80]])%N.
Fixpoint strip (fuel : nat) (chars : list bytes) (l : bytes) : bytes :=
  match fuel with
  | O => l
  | S fuel =>
      match List.find (λ c, bool_decide (take (length c) l = c)) chars with
      | Some c => strip fuel chars (drop (length c) l)
      | None => l
      end
  end.
Definition trim (l : bytes) : bytes :=
  let l := strip (length l) whitespace l in
  reverse (strip (length l) (reverse <$> whitespace) (reverse l)).

(** The length of the text is fuel enough: nothing that could be stripped is left. *)
Lemma strip_done fuel chars l :
  Forall (λ c, c ≠ []) chars → (length l ≤ fuel)%nat → ∀ c, c ∈ chars → ¬ c `prefix_of` strip fuel chars l.
Proof.
  intros Hne. revert l. induction fuel as [|fuel IH]; intros l Hl c Hc Hp; cbn in *.
  - rewrite Forall_forall in Hne. apply (Hne c Hc). destruct l; [|cbn in Hl; lia]. by apply prefix_nil_inv.
  - destruct (List.find _ chars) as [d|] eqn:Hf.
    + apply List.find_some in Hf as [Hd Ht%bool_decide_eq_true]. rewrite Forall_forall in Hne.
      pose proof (Hne d ltac:(by apply list_elem_of_In)) as Hd0. refine (IH _ _ c Hc Hp). rewrite length_drop.
      assert (l ≠ []) by (intros ->; rewrite take_nil in Ht; congruence).
      destruct d, l; cbn in *; try congruence; lia.
    + pose proof (List.find_none _ _ Hf c ltac:(by apply list_elem_of_In)) as Hn%bool_decide_eq_false.
      destruct Hp as [k ->]. by rewrite take_app_length in Hn.
Qed.

Definition MAX_VOTING_SESSIONS_RETURNED : nat := 5.

Class SummaryHost `{WorkerHost} := {
  (** [StorageLock::try_lock] in this run. *)
  lock_free : SummaryLock → bool;
  (** [AVN::get_data_from_service] at [roothash/from/to]. *)
  root_hash_response : Z → Z → option bytes;
  (** [hex::decode_to_slice]. *)
  decode_to_slice : bytes → option H256;
  (** [SubmitTransaction::submit_transaction]. *)
  submit_summary_call : SummaryCall → bool;
  submit_watchtower_call : WatchtowerCall → bool;
  (** The place of a range in the hashed keys of [PendingApproval]. *)
  range_position : RootRange.t → N;
}.

Section Worker.
Context `{SummaryHost} `{!SummaryConfig} `{!BridgeInterfaceNotification} `{!WatchtowerInterface}.
Implicit Types (s : Runtime.t) (l : LocalStorage.t) (this_validator : Validator.t) (root_id : RootId.t).

(** The calls submitted, and the locks kept. *)
Abbreviation Sent := (list SummaryCall * list SummaryLock)%type.
Definition nothing : Sent := ([], []).

Definition validate_response (response : bytes) : option H256 :=
  if bool_decide (length response = 64%nat) && is_utf8 response then decode_to_slice response else None.
Definition compute_root_hash (from_block to_block : Z) : option H256 :=
  response ← root_hash_response from_block to_block;
  validate_response response.

(** ** Slots and summaries *)

Definition dispatch_advance_slot this_validator s : option SummaryCall :=
  signature ← authority_sign (Validator.key this_validator)
    (Payload.ADVANCE_SLOT_CONTEXT InstanceId (SummaryStorage.CurrentSlot (summary s)));
  Some (Call_advance_slot this_validator signature).
Definition advance_slot_if_required (block_number : Z) this_validator s : Sent :=
  let x := summary s in
  if is_slot_validator this_validator s && bool_decide (SummaryStorage.NextSlotAtBlock x <= block_number)
  then
    let lock := advance_slot_lock (SummaryStorage.CurrentSlot x) in
    if lock_free lock then
      match dispatch_advance_slot this_validator s with
      | Some call => ([call], if submit_summary_call call then [lock] else [])
      | None => nothing
      end
    else nothing
  else nothing.
Definition can_process_summary (current_block_number last_block_in_range : Z) this_validator s : bool :=
  if negb (lock_free (create_summary_lock last_block_in_range)) then false
  else
    match safe_add_block_numbers last_block_in_range MinBlockAge with
    | None => false
    | Some target_block_with_buffer =>
        let x := summary s in
        let root_range := RootRange.mk (SummaryStorage.NextBlockToProcess x) last_block_in_range in
        let slot_is_active := bool_decide (current_block_number < SummaryStorage.NextSlotAtBlock x) in
        let blocks_are_old_enough := bool_decide (target_block_with_buffer < current_block_number) in
        is_slot_validator this_validator s && slot_is_active && blocks_are_old_enough &&
        summary_is_neither_pending_nor_approved root_range s
    end.
Definition record_summary (last_processed_block_number : Z) (root_hash : H256) this_validator s :
    option SummaryCall :=
  let ingress_counter := SummaryStorage.TotalIngresses (summary s) +₆₄ 1 in
  signature ← authority_sign (Validator.key this_validator)
    (Payload.UPDATE_BLOCK_NUMBER_CONTEXT InstanceId root_hash ingress_counter last_processed_block_number);
  Some (Call_record_summary_calculation last_processed_block_number root_hash ingress_counter
          this_validator signature).
Definition process_summary (last_block_in_range : Z) this_validator s : option SummaryCall :=
  root_hash ← compute_root_hash (SummaryStorage.NextBlockToProcess (summary s)) last_block_in_range;
  record_summary last_block_in_range root_hash this_validator s.
Definition process_summary_if_required (block_number : Z) this_validator s : Sent :=
  match (get_target_block s).1 with
  | Ok last_block_in_range =>
      if can_process_summary block_number last_block_in_range this_validator s then
        match process_summary last_block_in_range this_validator s with
        | Some call =>
            ([call], if submit_summary_call call then [create_summary_lock last_block_in_range] else [])
        | None => nothing
        end
      else nothing
  | _ => nothing
  end.

(** ** Votes ([vote.rs]) *)

(** [PendingApproval::iter]. *)
Definition pending_roots s : list RootId.t :=
  (λ x, RootId.mk x.1 x.2) <$>
  sort_by (λ x y, (range_position x.1 ?= range_position y.1)%N)
    (map_to_list (SummaryStorage.PendingApproval (summary s))).
Definition root_can_be_voted_on root_id (voter : AccountId) s : bool :=
  match root_session_state root_id s with
  | inl _ => false
  | inr data =>
      negb (VotingSessionData.has_voted data voter) && lock_free (vote_lock root_id) &&
      root_session_is_active root_id s
  end.
Definition sign_for_vote (in_favor : bool) root_id this_validator s : option AuthoritySignature :=
  match root_session_state root_id s with
  | inl _ => None
  | inr data =>
      authority_sign (Validator.key this_validator)
        (Payload.CAST_VOTE_CONTEXT (VotingSessionData.voting_session_id data) in_favor)
  end.
Definition send_approve_vote root_id this_validator s : option SummaryCall :=
  Call_approve_root root_id this_validator <$> sign_for_vote true root_id this_validator s.
Definition send_reject_vote root_id this_validator s : option SummaryCall :=
  Call_reject_root root_id this_validator <$> sign_for_vote false root_id this_validator s.
(** The first root for which a vote goes out ends the loop. *)
Fixpoint cast_one_vote this_validator s (root_ids : list RootId.t) : Sent :=
  match root_ids with
  | [] => nothing
  | root_id :: rest =>
      let range := RootId.range root_id in
      if negb (lock_free (vote_lock root_id)) then cast_one_vote this_validator s rest
      else
        match compute_root_hash (RootRange.from_block range) (RootRange.to_block range),
              try_get_root_data root_id s with
        | Some root_hash, Some root_data =>
            let sent :=
              if bool_decide (root_hash = RootData.root_hash root_data)
              then send_approve_vote root_id this_validator s
              else send_reject_vote root_id this_validator s in
            match sent with
            | Some call =>
                if submit_summary_call call then ([call], [vote_lock root_id])
                else let '(calls, kept) := cast_one_vote this_validator s rest in (call :: calls, kept)
            | None => cast_one_vote this_validator s rest
            end
        | _, _ => cast_one_vote this_validator s rest
        end
  end.
Definition cast_votes_if_required this_validator s : Sent :=
  cast_one_vote this_validator s
    (take MAX_VOTING_SESSIONS_RETURNED
       (List.filter (λ root_id, root_can_be_voted_on root_id (Validator.account_id this_validator) s)
          (pending_roots s))).
(** An error ends the loop. *)
Fixpoint end_votings this_validator s (root_ids : list RootId.t) : list SummaryCall :=
  match root_ids with
  | [] => []
  | root_id :: rest =>
      match root_session_state root_id s with
      | inl _ => []
      | inr data =>
          match authority_sign (Validator.key this_validator)
                  (Payload.END_VOTING_PERIOD_CONTEXT (VotingSessionData.voting_session_id data)) with
          | Some signature =>
              Call_end_voting_period root_id this_validator signature :: end_votings this_validator s rest
          | None => []
          end
      end
  end.
Definition end_voting_if_required (block_number : Z) this_validator s : list SummaryCall :=
  end_votings this_validator s
    (take MAX_VOTING_SESSIONS_RETURNED
       (List.filter (λ root_id,
          bool_decide (VotingSessionData.end_of_voting_period (get_vote root_id s) < block_number))
          (pending_roots s))).

(** ** Challenges ([challenge.rs]) *)

Definition can_challenge (challenge : SummaryChallenge.t) this_validator (ocw_block_number : Z) s : bool :=
  if negb (lock_free (challenge_lock challenge)) then false
  else
    let is_chosen_validator :=
      match (is_primary_for_block ocw_block_number (Validator.account_id this_validator) s).1 with
      | Ok is_primary => is_primary
      | _ => false
      end in
    is_chosen_validator && grace_period_elapsed ocw_block_number s.
Definition send_challenge_transaction (challenge : SummaryChallenge.t) this_validator : Sent :=
  match authority_sign (Validator.key this_validator) (Payload.CHALLENGE_CONTEXT challenge) with
  | None => nothing
  | Some signature =>
      let call := Call_add_challenge challenge this_validator signature in
      ([call], if submit_summary_call call then [challenge_lock challenge] else [])
  end.
Definition challenge_slot_if_required (offchain_worker_block_number : Z) this_validator s : Sent :=
  let x := summary s in
  match SummaryStorage.CurrentSlotsValidator x with
  | None => nothing
  | Some current_slot_validator =>
      let challenge :=
        SummaryChallenge.mk (SummaryChallengeReason.SlotNotAdvanced (SummaryStorage.CurrentSlot x))
          (Validator.account_id this_validator) current_slot_validator in
      if can_challenge challenge this_validator offchain_worker_block_number s
      then send_challenge_transaction challenge this_validator
      else nothing
  end.

(** ** A run of the validator's worker *)

Definition summary_offchain_worker (block_number : Z) s l : LocalStorage.t * Sent :=
  let '(l, setup_result) := pre_run_setup block_number s l in
  match setup_result with
  | None => (l, nothing)
  | Some this_validator =>
      let '(c1, k1) := advance_slot_if_required block_number this_validator s in
      let '(c2, k2) := process_summary_if_required block_number this_validator s in
      let '(c3, k3) := cast_votes_if_required this_validator s in
      let c4 := end_voting_if_required block_number this_validator s in
      let '(c5, k5) := challenge_slot_if_required block_number this_validator s in
      (l, (c1 ++ c2 ++ c3 ++ c4 ++ c5, k1 ++ k2 ++ k3 ++ k5))
  end.
End Worker.

(** ** The worker of a watchtower ([pallets/summary-watchtower]) *)

(** Its own keys in the database of the node: the last run, and the votes submitted. *)
Module WatchDb.
Record t : Type := mk { last_run : option Z; submissions : gmap (ProposalId * AccountId) Z }.
End WatchDb.

Section WatchtowerWorker.
Context `{SummaryHost}.
Implicit Types (s : Runtime.t) (l : LocalStorage.t) (d : WatchDb.t) (proposal_id : ProposalId).

Definition ocw_already_run (block_number : Z) d : option WatchDb.t :=
  let run := Some (WatchDb.mk (Some block_number) (WatchDb.submissions d)) in
  match WatchDb.last_run d with
  | Some block =>
      if bool_decide (block_number <= block) || concurrent_modification then None else run
  | None => if concurrent_modification then None else run
  end.
Definition validate_watched_response (response : bytes) : option H256 :=
  if bool_decide (length response = 64%nat) && is_utf8 response then decode_to_slice (trim response)
  else None.
Definition calculate_root_hash (from_block to_block : Z) : option H256 :=
  response ← root_hash_response from_block to_block;
  validate_watched_response response.
Definition validate_root (now : Z) (root_data : WatchedRoot.t) proposal_id : option bool :=
  if lock_free (validate_root_lock proposal_id now root_data) then
    let range := RootId.range (WatchedRoot.root_id root_data) in
    recalculated_hash ← calculate_root_hash (RootRange.from_block range) (RootRange.to_block range);
    Some (bool_decide (recalculated_hash = WatchedRoot.root_hash root_data))
  else None.
Definition vote_in_progress proposal_id (watchtower : AccountId) (block_number : Z) d : bool :=
  match WatchDb.submissions d !! (proposal_id, watchtower) with
  | Some last_submission => bool_decide (block_number <= last_submission ⊕₃₂ BLOCK_INCLUSION_PERIOD)
  | None => false
  end.
Definition record_vote_submission (block_number : Z) proposal_id (watchtower : AccountId) d : WatchDb.t :=
  if concurrent_modification then d
  else WatchDb.mk (WatchDb.last_run d) (<[(proposal_id, watchtower) := block_number]> (WatchDb.submissions d)).
Definition submit_vote proposal_id (in_favor : bool) (signing_key : SignerId) (watchtower : AccountId)
    (block_number : Z) d : WatchDb.t * list WatchtowerCall :=
  match node_sign signing_key (Payload.WATCHTOWER_UNSIGNED_VOTE_CONTEXT proposal_id in_favor watchtower) with
  | None => (d, [])
  | Some signature =>
      let call := Call_unsigned_vote proposal_id in_favor watchtower signature in
      (if submit_watchtower_call call then record_vote_submission block_number proposal_id watchtower d else d,
       [call])
  end.
Definition process_pending_validation proposal_id (root_data : WatchedRoot.t) (watchtower : AccountId)
    (signing_key : SignerId) (now : Z) d : WatchDb.t * list WatchtowerCall :=
  if vote_in_progress proposal_id watchtower now d then (d, [])
  else
    match validate_root now root_data proposal_id with
    | Some in_favor => submit_vote proposal_id in_favor signing_key watchtower now d
    | None => (d, [])
    end.
(** A service that does not answer does not stop the run; [l] is the database of the node
    manager. *)
Definition watchtower_offchain_worker (now : Z) s l d :
    LocalStorage.t * WatchDb.t * list WatchtowerCall :=
  match ocw_already_run now d with
  | None => (l, d, [])
  | Some d =>
      if host_is_validator then (l, d, [])
      else
        match Runtime.root_info s with
        | None => (l, d, [])
        | Some (proposal_id, root_data) =>
            let to_block := RootRange.to_block (RootId.range (WatchedRoot.root_id root_data)) in
            if from_option (λ f, bool_decide (f < to_block)) false finalised_block then (l, d, [])
            else
              let '(l, maybe_node_info) := get_node_from_signing_key s l in
              match maybe_node_info with
              | None => (l, d, [])
              | Some (watchtower, signing_key) =>
                  let '(d, calls) := process_pending_validation proposal_id root_data watchtower signing_key now d in
                  (l, d, calls)
              end
        end
  end.
End WatchtowerWorker.
