(* ===== verification/SummaryInv.v ===== *)
(** * Summaries: the invariant

    What the storage of [pallets/summary] and its events have to do with each other, and
    that the changes the pallet makes keep it: recording a root, a vote, the end of a vote,
    the answer of the watchtowers and of the admin, the report of the bridge. *)

From S2P Require Import Prelude Frames Slices Bytes EventTypes EventParsing EventDiscovery EthTypes.
From S2P Require Import RuntimeErrors NodeTypes SummaryTypes BridgeTypes Avn BridgeExamples.
From S2P Require Import EthBridge BridgeEvents TokenManager NodeStake NodeRewards NodeManager Anchor NodeExamples NodeProps AvnProps Watchtower WatchtowerProps.
From S2P Require Import Summary SummaryWorker.

(** ** What the events tell *)

Section Told.
Context `{BridgeConfig} `{!SummaryConfig}.
Implicit Types (s : Runtime.t) (e : SummaryEvent.t) (id : RootId.t).

Definition summary_events s : list SummaryEvent.t :=
  omap (λ x, match x with
             | SummaryEvent_ instance e => if bool_decide (instance = InstanceId) then Some e else None
             | _ => None
             end) (Runtime.events s).
(** The votes, the roots that were validated, those that were passed on and those the admin
    refused. *)
Definition vote_told e : option (AccountId * RootId.t * bool) :=
  match e with SummaryEvent.VoteAdded voter id agree => Some (voter, id, agree) | _ => None end.
Definition validated_told e : option RootId.t :=
  match e with
  | SummaryEvent.SummaryRootValidated _ counter range => Some (RootId.mk range counter)
  | _ => None
  end.
Definition passed_told e : option RootId.t :=
  match e with SummaryEvent.RootPassedValidation id _ => Some id | _ => None end.
Definition refused_told e : option RootId.t :=
  match e with SummaryEvent.RootChallengeResolved id false => Some id | _ => None end.
Definition validated s : list RootId.t := omap validated_told (summary_events s).
Definition passed s : list RootId.t := omap passed_told (summary_events s).
Definition refused s : list RootId.t := omap refused_told (summary_events s).
Definition votes_told s : list (AccountId * RootId.t * bool) := omap vote_told (summary_events s).
(** Who voted on a root, for or against. *)
Definition voters_on (V : list (AccountId * RootId.t * bool)) id (agree : bool) : list AccountId :=
  omap (λ x, if bool_decide (x.1.2 = id ∧ x.2 = agree) then Some x.1.1 else None) V.

(** What the pallet sees of the state. *)
Definition sm s :
    SummaryStorage.t * list (AccountId * RootId.t * bool) * list RootId.t * list RootId.t * list RootId.t :=
  (summary s, votes_told s, validated s, passed s, refused s).

Lemma summary_modified f s :
  summary (Runtime.upd_summaries (insert InstanceId (f (summary s))) s) = f (summary s).
Proof. unfold summary at 1, summary_of. cbn. by rewrite lookup_insert_eq. Qed.
Lemma quiet_summary_event e :
  vote_told e = None → validated_told e = None → passed_told e = None → refused_told e = None →
  leaves sm (summary_event e).
Proof.
  intros H1 H2 H3 H4. apply leaves_modify. intros s. unfold sm, votes_told, validated, passed, refused, summary_events.
  cbn. rewrite !omap_app. cbn. rewrite bool_decide_true by done. cbn. rewrite H1, H2, H3, H4. by rewrite !app_nil_r.
Qed.
Lemma other_event (e : RuntimeEvent) :
  (∀ i e', e ≠ SummaryEvent_ i e') → leaves sm (deposit_event e).
Proof.
  intros He. apply leaves_modify. intros s. unfold sm, votes_told, validated, passed, refused, summary_events.
  cbn. rewrite !omap_app. destruct e; cbn; rewrite ?app_nil_r; try done. by edestruct He.
Qed.
End Told.

(** ** What leaves the pallet alone *)

Section Quiet.
Context `{BridgeConfig} `{!NodeConfig} `{!SummaryConfig}.

Lemma offence_quiet reporter offenders offence :
  leaves sm (create_and_report_summary_offence reporter offenders offence).
Proof.
  unfold create_and_report_summary_offence. leaves_tac. by apply quiet_summary_event.
Qed.
Lemma publish_quiet `{!BridgeInterfaceNotification} f params caller : leaves sm (publish f params caller).
Proof.
  assert (∀ e, leaves sm (bridge_event e)) by (intros e; by apply other_event).
  pose proof (@bridge_result_leaves). pose proof (@run_leaves).
  unfold publish, add_new_send_request, use_next_tx_id, queue_request, set_up_active_tx, assign_sender,
    advance_primary_validator_for_sending, put_primary, nth_account, put_request_queue, put_active_request.
  leaves_tac.
Qed.
Lemma no_summary_offence_quiet reporter : leaves sm (register_offence_if_no_summary_created_in_slot reporter).
Proof.
  unfold register_offence_if_no_summary_created_in_slot. pose proof offence_quiet.
  leaves_tac. by apply quiet_summary_event.
Qed.
End Quiet.

(** ** The invariant *)

(** The ranges of the types: [u32] and [u64]. *)
Definition is_root_id (id : RootId.t) : Prop :=
  0 <= RootRange.from_block (RootId.range id) <= u32_max ∧
  0 <= RootRange.to_block (RootId.range id) <= u32_max ∧
  0 <= RootId.ingress_counter id <= u64_max.

(** A root and its hash are found again in what the watchtowers are given. *)
Lemma le_bytes_Z k (x max : Z) :
  0 <= x <= max → (Z.to_N max < 256 ^ N.of_nat k)%N → Z.of_N (from_le_bytes (le_bytes k (Z.to_N x))) = x.
Proof. intros Hx Hm. rewrite from_le_bytes_le, N.mod_small; lia. Qed.
Lemma decode_encode_root id root_hash rest :
  is_root_id id → is_ref root_hash → decode_root (encode_root id root_hash ++ rest) = Some (id, root_hash).
Proof.
  intros (Hf&Ht&Hc) Hh. destruct id as [[f t] c]. unfold decode_root, encode_root, RootId.encode, RootRange.encode.
  cbn [RootId.range RootId.ingress_counter RootRange.from_block RootRange.to_block] in *.
  set (a0 := le_bytes 4 (Z.to_N f)). set (a1 := le_bytes 4 (Z.to_N t)). set (a2 := le_bytes 8 (Z.to_N c)).
  set (a3 := be_bytes 32 root_hash).
  assert (length a0 = 4%nat ∧ length a1 = 4%nat ∧ length a2 = 8%nat ∧ length a3 = 32%nat) as (L0&L1&L2&L3).
  { unfold a0, a1, a2, a3. by rewrite be_bytes_length, !le_bytes_length. }
  rewrite (slice_at [] a0 (a1 ++ a2 ++ a3 ++ rest) _ 0 4), (slice_at a0 a1 (a2 ++ a3 ++ rest) _ 4 8),
    (slice_at (a0 ++ a1) a2 (a3 ++ rest) _ 8 16), (slice_at (a0 ++ a1 ++ a2) a3 rest _ 16 48)
    by (cbn [app]; rewrite ?app_nil_l, ?length_app, ?L0, ?L1, ?L2, ?L3, <- ?app_assoc; reflexivity).
  cbn [mbind option_bind]. unfold a0, a1, a2, a3.
  rewrite (le_bytes_Z 4 f u32_max), (le_bytes_Z 4 t u32_max), (le_bytes_Z 8 c u64_max) by done.
  by rewrite from_be_bytes_be.
Qed.
Lemma encode_root_inj id id' h h' :
  is_root_id id → is_root_id id' → is_ref h → is_ref h' → encode_root id h = encode_root id' h' →
  id = id' ∧ h = h'.
Proof.
  intros H1 H2 H3 H4 He. pose proof (decode_encode_root id h [] H1 H3) as E1.
  rewrite He, decode_encode_root in E1 by done. by injection E1 as [= -> ->].
Qed.
Lemma encode_root_length id h : length (encode_root id h) = 48%nat.
Proof.
  unfold encode_root, RootId.encode, RootRange.encode. by rewrite !length_app, be_bytes_length, !le_bytes_length.
Qed.

Section Invariant.
Context `{BridgeConfig} `{!SummaryConfig}.
Implicit Types (X : SummaryStorage.t) (id : RootId.t) (r : RootData.t) (d : VotingSessionData.t).
Implicit Types (V : list (AccountId * RootId.t * bool)) (D P J : list RootId.t).

(** The session of a root has the votes the events tell, each voter's once. *)
Definition session_ok V id r d : Prop :=
  VotingSessionData.ayes d = voters_on V id true ∧ VotingSessionData.nays d = voters_on V id false ∧
  NoDup (VotingSessionData.ayes d ++ VotingSessionData.nays d) ∧
  (RootData.is_validated r = true → VotingSessionData.is_approved d = true) ∧
  VotingSessionData.voting_session_id d = RootId.session_id id.
(** The hashes of the roots passed on, in order. *)
Definition anchor_at X P (n : Z) : option H256 :=
  if decide (0 <= n) then
    id ← P !! Z.to_nat n;
    r ← SummaryStorage.Roots X !! id;
    Some (RootData.root_hash r)
  else None.

Record sm_core X V D P : Prop := {
  sc_root id r : SummaryStorage.Roots X !! id = Some r →
    is_root_id id ∧ 1 <= RootId.ingress_counter id <= SummaryStorage.TotalIngresses X ∧
    is_ref (RootData.root_hash r) ∧ RootData.added_by r ≠ None;
  sc_total : 0 <= SummaryStorage.TotalIngresses X <= u64_max;
  sc_unique id id' :
    SummaryStorage.Roots X !! id ≠ None → SummaryStorage.Roots X !! id' ≠ None →
    RootId.ingress_counter id = RootId.ingress_counter id' → id = id';
  sc_session id r : SummaryStorage.Roots X !! id = Some r →
    ∃ d, SummaryStorage.VotesRepository X !! id = Some d ∧ session_ok V id r d;
  sc_no_session id : SummaryStorage.Roots X !! id = None →
    SummaryStorage.VotesRepository X !! id = None ∧ ∀ agree, voters_on V id agree = [];
  sc_pending range c : SummaryStorage.PendingApproval X !! range = Some c →
    ∃ r, SummaryStorage.Roots X !! RootId.mk range c = Some r ∧ RootData.is_validated r = false;
  sc_validated id : id ∈ D ↔
    ∃ r, SummaryStorage.Roots X !! id = Some r ∧ RootData.is_validated r = true;
  sc_once : NoDup D;
  sc_passed id : id ∈ P → SummaryStorage.Roots X !! id ≠ None;
  sc_passed_once : NoDup P;
  sc_sent id r : SummaryStorage.Roots X !! id = Some r →
    RootData.tx_id r ≠ None ↔ AutoSubmitSummaries = true ∧ id ∈ P;
  sc_tx t id : SummaryStorage.TxIdToRoot X !! t = Some id →
    ∃ r, SummaryStorage.Roots X !! id = Some r ∧ RootData.tx_id r = Some t;
  sc_final id r : SummaryStorage.Roots X !! id = Some r → RootData.is_finalised r = true →
    RootData.tx_id r ≠ None;
  sc_counter : SummaryStorage.AnchorRootsCounter X =
    if AutoSubmitSummaries then 0 else Z.of_nat (length P);
  sc_anchor n : SummaryStorage.AnchorRoots X !! n = if AutoSubmitSummaries then None else anchor_at X P n;
  sc_next : 0 <= SummaryStorage.NextBlockToProcess X <= u32_max;
  sc_period : MIN_SCHEDULE_PERIOD <= SummaryStorage.SchedulePeriod X;
}.

(** *** What becomes of a root *)

Definition seen X : gmap RootId.t (H256 * bool) :=
  (λ r, (RootData.root_hash r, RootData.is_validated r)) <$> SummaryStorage.Roots X.
Definition ref_of id (root_hash : H256) : H256 := hash_of (encode_root id root_hash).
Lemma ref_of_eq id root_hash : hash_of (encode_root id root_hash) = ref_of id root_hash.
Proof. done. Qed.
#[global] Arguments ref_of : simpl never.
#[global] Opaque ref_of.
(** An approved root that is not empty is due to be passed on. *)
Definition due (x : H256 * bool) : bool := x.2 && negb (bool_decide (x.1 = empty_root)).
Definition reviewed X id (root_hash : H256) : bool :=
  bool_decide (SummaryStorage.ExternalValidationRef X !! ref_of id root_hash = Some id).
Record sm_stage (R : gmap RootId.t (H256 * bool)) X P J : Prop := {
  (** It is in one place. *)
  ss_place id x : R !! id = Some x →
    (Nat.b2n (bool_decide (id ∈ P)) + Nat.b2n (bool_decide (id ∈ J)) + Nat.b2n (reviewed X id x.1) =
     Nat.b2n (due x))%nat;
  ss_refused id : id ∈ J → R !! id ≠ None;
  ss_refused_once : NoDup J;
  ss_ref ref id : SummaryStorage.ExternalValidationRef X !! ref = Some id →
    ∃ x, R !! id = Some x ∧ ref = ref_of id x.1;
  ss_status id x : R !! id = Some x →
    SummaryStorage.ExternalValidationStatus X !! id ≠ None ↔ reviewed X id x.1 = true;
  ss_no_status id : R !! id = None → SummaryStorage.ExternalValidationStatus X !! id = None;
  ss_review id data : SummaryStorage.PendingAdminReviews X !! id = Some data →
    ∃ x, R !! id = Some x ∧ ExternalValidationData.external_ref data = ref_of id x.1 ∧
         reviewed X id x.1 = true;
  ss_asked id :
    SummaryStorage.ExternalValidationStatus X !! id = Some ExternalValidationEnum.PendingAdminReview →
    SummaryStorage.PendingAdminReviews X !! id ≠ None;
}.
Definition sm_base X V D P J : Prop := sm_core X V D P ∧ sm_stage (seen X) X P J.

(** *** Recording a root *)

Definition recorded id (root_hash : H256) (who : AccountId) (quorum end_at now : Z) X : SummaryStorage.t :=
  SummaryStorage.upd_VotesRepository
    (insert id (VotingSessionData.new (RootId.session_id id) quorum end_at now))
    (SummaryStorage.upd_PendingApproval (insert (RootId.range id) (RootId.ingress_counter id))
       (SummaryStorage.upd_Roots (insert id (RootData.new root_hash who None))
          (SummaryStorage.upd_TotalIngresses (λ _, RootId.ingress_counter id) X))).
Lemma sc_new X V D P id :
  sm_core X V D P → RootId.ingress_counter id = SummaryStorage.TotalIngresses X + 1 →
  SummaryStorage.Roots X !! id = None.
Proof.
  intros HC Hc. destruct (SummaryStorage.Roots X !! id) as [r|] eqn:Hr; [|done].
  destruct (sc_root _ _ _ _ HC _ _ Hr) as (_&?&_). lia.
Qed.
Lemma anchor_at_ext X X' P n :
  (∀ id, id ∈ P → RootData.root_hash <$> SummaryStorage.Roots X' !! id =
                  RootData.root_hash <$> SummaryStorage.Roots X !! id) →
  anchor_at X' P n = anchor_at X P n.
Proof.
  intros He. unfold anchor_at. case_decide; [|done]. destruct (P !! Z.to_nat n) as [id|] eqn:Hid; [|done].
  cbn. specialize (He id (list_elem_of_lookup_2 _ _ _ Hid)).
  destruct (SummaryStorage.Roots X' !! id), (SummaryStorage.Roots X !! id); cbn in *; congruence.
Qed.
Lemma recorded_core X V D P id root_hash who quorum end_at now :
  sm_core X V D P → SummaryStorage.TotalIngresses X < u64_max →
  RootId.ingress_counter id = SummaryStorage.TotalIngresses X + 1 → is_root_id id → is_ref root_hash →
  sm_core (recorded id root_hash who quorum end_at now X) V D P.
Proof.
  intros HC Ht Hid Hr Hh. pose proof (sc_new _ _ _ _ _ HC Hid) as Hnew.
  pose proof (sc_total _ _ _ _ HC) as Htot.
  constructor; cbn; try apply HC.
  - intros j x. at_key j id; [intros [= <-]; cbn; split_and!; try done; lia|]. intros Hj.
    destruct (sc_root _ _ _ _ HC _ _ Hj) as (?&?&?&?). split_and!; try done; lia.
  - lia.
  - intros j j'. at_key j id; at_key j' id; try done; [| |apply HC].
    + intros _ Hj'. destruct (SummaryStorage.Roots X !! j') eqn:E; [|done].
      destruct (sc_root _ _ _ _ HC _ _ E) as (_&?&_). lia.
    + intros Hj _. destruct (SummaryStorage.Roots X !! j) eqn:E; [|done].
      destruct (sc_root _ _ _ _ HC _ _ E) as (_&?&_). lia.
  - intros j x. at_key j id; [|apply HC]. intros [= <-]. eexists. split; [done|].
    destruct (sc_no_session _ _ _ _ HC _ Hnew) as [_ Hv]. unfold session_ok. cbn. rewrite !Hv.
    split_and!; [done..|constructor|done|done].
  - intros j. at_key j id; [done|apply HC].
  - intros range c. at_key range (RootId.range id).
    + intros [= <-]. destruct id; cbn in *. rewrite lookup_insert_eq. by eexists.
    + intros (x&Hx&?)%(sc_pending _ _ _ _ HC). exists x. rewrite lookup_insert_ne; [done|]. congruence.
  - intros j. rewrite (sc_validated _ _ _ _ HC). at_key j id; [|done]. split; [|naive_solver].
    intros (x&Hx&_). congruence.
  - intros j Hj%(sc_passed _ _ _ _ HC). by at_key j id.
  - intros j x. at_key j id; [|apply HC]. intros [= <-]. cbn. split; [done|].
    intros [_ Hj%(sc_passed _ _ _ _ HC)]. done.
  - intros tx j (x&Hx&?)%(sc_tx _ _ _ _ HC). exists x. rewrite lookup_insert_ne; [done|]. congruence.
  - intros j x. at_key j id; [by intros [= <-]|apply HC].
  - intros n. rewrite (sc_anchor _ _ _ _ HC). destruct AutoSubmitSummaries; [done|]. symmetry.
    apply anchor_at_ext. intros j Hj%(sc_passed _ _ _ _ HC). cbn. rewrite lookup_insert_ne; [done|]. congruence.
Qed.

(** *** A vote *)

Definition push_vote (agree : bool) (who : AccountId) d : VotingSessionData.t :=
  if agree then VotingSessionData.upd_ayes (λ l, l ++ [who]) d
  else VotingSessionData.upd_nays (λ l, l ++ [who]) d.
Lemma voters_on_app V V' id agree : voters_on (V ++ V') id agree = voters_on V id agree ++ voters_on V' id agree.
Proof. apply omap_app. Qed.
Lemma voted_session V id r d who agree :
  session_ok V id r d → RootData.is_validated r = false → VotingSessionData.has_voted d who = false →
  session_ok (V ++ [(who, id, agree)]) id r (push_vote agree who d).
Proof.
  intros (Ha&Hn&Hd&_&Hi) Hr Hv. unfold session_ok. rewrite !voters_on_app, <- Ha, <- Hn.
  apply orb_false_iff in Hv as [Hv1%bool_decide_eq_false Hv2%bool_decide_eq_false].
  apply NoDup_app in Hd as (?&Hdis&?).
  assert (∀ l, who ∉ l → NoDup l → NoDup (l ++ [who])) as Hpush.
  { intros l ??. apply NoDup_app. split_and!; [done| |apply NoDup_singleton].
    intros x Hx ->%list_elem_of_singleton. done. }
  assert (∀ b c : bool, bool_decide (id = id ∧ b = c) = bool_decide (b = c)) as He.
  { intros. apply bool_decide_ext. naive_solver. }
  destruct agree; cbn; rewrite !He; cbn; rewrite app_nil_r; (split_and!; [done..| |by rewrite Hr|done]); apply NoDup_app; split_and!; auto;
    intros x; rewrite elem_of_app, list_elem_of_singleton; naive_solver.
Qed.
Lemma voted_core X V D P id r d who agree :
  sm_core X V D P → SummaryStorage.Roots X !! id = Some r → RootData.is_validated r = false →
  SummaryStorage.VotesRepository X !! id = Some d → VotingSessionData.has_voted d who = false →
  sm_core (SummaryStorage.upd_VotesRepository (insert id (push_vote agree who d)) X)
    (V ++ [(who, id, agree)]) D P.
Proof.
  intros HC Hr Hv Hd Hw.
  assert (∀ j b, j ≠ id → voters_on (V ++ [(who, id, agree)]) j b = voters_on V j b) as Hother.
  { intros j b Hj. rewrite voters_on_app. cbn. rewrite bool_decide_false by naive_solver. by rewrite app_nil_r. }
  constructor; cbn; try apply HC.
  - intros j x Hj. destruct (sc_session _ _ _ _ HC _ _ Hj) as (d'&Hd'&Hok). at_key j id.
    + simplify_eq. eexists. split; [done|]. by apply voted_session.
    + exists d'. split; [done|]. unfold session_ok. by rewrite !Hother.
  - intros j Hj. assert (j ≠ id) by congruence. rewrite lookup_insert_ne by done.
    destruct (sc_no_session _ _ _ _ HC _ Hj) as [? Hvs]. split; [done|]. intros b. by rewrite Hother.
Qed.

(** *** Changes to a root *)

Definition on_root id (f : RootData.t → RootData.t) X : SummaryStorage.t :=
  SummaryStorage.upd_Roots
    (insert id (f (unwrap_or RootData.default (SummaryStorage.Roots X !! id)))) X.
(** A change of a root that keeps its hash and who added it, elsewhere in the record. *)
Lemma on_root_core X X' V D D' P P' id r r' :
  sm_core X V D P → SummaryStorage.Roots X !! id = Some r →
  SummaryStorage.Roots X' = <[id := r']> (SummaryStorage.Roots X) →
  RootData.root_hash r' = RootData.root_hash r → RootData.added_by r' = RootData.added_by r →
  SummaryStorage.TotalIngresses X' = SummaryStorage.TotalIngresses X →
  SummaryStorage.VotesRepository X' = SummaryStorage.VotesRepository X →
  (∀ d, SummaryStorage.VotesRepository X !! id = Some d → session_ok V id r d → session_ok V id r' d) →
  (∀ range c, SummaryStorage.PendingApproval X' !! range = Some c →
     SummaryStorage.PendingApproval X !! range = Some c ∧
     (RootId.mk range c = id → RootData.is_validated r' = false)) →
  (∀ j, j ∈ D' ↔ (j ∈ D ∧ j ≠ id) ∨ (j = id ∧ RootData.is_validated r' = true)) → NoDup D' →
  (∀ j, j ∈ P' ↔ (j ∈ P ∧ j ≠ id) ∨ (j = id ∧ id ∈ P')) → NoDup P' →
  (RootData.tx_id r' ≠ None ↔ AutoSubmitSummaries = true ∧ id ∈ P') →
  (∀ t j, SummaryStorage.TxIdToRoot X' !! t = Some j →
     (j ≠ id ∧ SummaryStorage.TxIdToRoot X !! t = Some j) ∨ (j = id ∧ RootData.tx_id r' = Some t)) →
  (RootData.is_finalised r' = true → RootData.tx_id r' ≠ None) →
  SummaryStorage.AnchorRootsCounter X' = (if AutoSubmitSummaries then 0 else Z.of_nat (length P')) →
  (∀ n, SummaryStorage.AnchorRoots X' !! n = if AutoSubmitSummaries then None else anchor_at X P' n) →
  0 <= SummaryStorage.NextBlockToProcess X' <= u32_max →
  SummaryStorage.SchedulePeriod X' = SummaryStorage.SchedulePeriod X →
  sm_core X' V D' P'.
Proof.
  intros HC Hr HR Hh Ha Ht HV Hs Hp HD HDn HP HPn Hsent Htx Hfin Hcount Hanchor Hnext Hper.
  assert (∀ j, SummaryStorage.Roots X' !! j ≠ None ↔ SummaryStorage.Roots X !! j ≠ None) as Hdom.
  { intros j. rewrite HR. at_key j id; [|done]. by rewrite Hr. }
  constructor; rewrite ?Ht, ?HV, ?Hper; try apply HC; try done.
  - intros j x. rewrite HR. at_key j id; [|apply HC]. intros [= <-]. rewrite Hh, Ha. by apply (sc_root _ _ _ _ HC).
  - intros j j'. rewrite !Hdom. apply HC.
  - intros j x. rewrite HR. at_key j id; [|apply HC]. intros [= <-].
    destruct (sc_session _ _ _ _ HC _ _ Hr) as (d&?&?). eauto.
  - intros j Hj. apply (sc_no_session _ _ _ _ HC). apply dec_stable. rewrite <- Hdom. naive_solver.
  - intros range c [Hc Hval]%Hp. destruct (sc_pending _ _ _ _ HC _ _ Hc) as (x&Hx&?). rewrite HR.
    destruct (decide (RootId.mk range c = id)) as [He|Hne].
    + rewrite He, lookup_insert_eq. eauto.
    + rewrite lookup_insert_ne by done. eauto.
  - intros j. rewrite HD, (sc_validated _ _ _ _ HC), HR. at_key j id; naive_solver.
  - intros j. rewrite HP, Hdom. intros [[Hj _]|[-> _]]; [by apply (sc_passed _ _ _ _ HC)|by rewrite Hr].
  - intros j x. rewrite HR. at_key j id; [by intros [= <-]|]. intros Hj. rewrite HP, (sc_sent _ _ _ _ HC _ _ Hj). naive_solver.
  - intros tx j Hj. rewrite HR. destruct (Htx _ _ Hj) as [[Hne Hj']|[-> ?]].
    + rewrite lookup_insert_ne by done. by apply (sc_tx _ _ _ _ HC).
    + rewrite lookup_insert_eq. eauto.
  - intros j x. rewrite HR. at_key j id; [by intros [= <-]|apply HC].
  - intros n. rewrite Hanchor. destruct AutoSubmitSummaries; [done|]. symmetry. apply anchor_at_ext.
    intros j _. rewrite HR. at_key j id; [|done]. by rewrite Hr; cbn; rewrite Hh.
Qed.

(** A root is sent to Ethereum, or numbered for the anchors. *)
Definition sent (tx_id : EthereumId) id X : SummaryStorage.t :=
  SummaryStorage.upd_TxIdToRoot (insert tx_id id) (on_root id (RootData.upd_tx_id (λ _, Some tx_id)) X).
Definition anchored (root_hash : H256) X : SummaryStorage.t :=
  SummaryStorage.upd_AnchorRoots (insert (SummaryStorage.AnchorRootsCounter X) root_hash)
    (SummaryStorage.upd_AnchorRootsCounter (λ n, n + 1) X).
Inductive passes id (root_hash : H256) X : SummaryStorage.t → Prop :=
  | Passes_sent tx_id : AutoSubmitSummaries = true → passes id root_hash X (sent tx_id id X)
  | Passes_anchored : AutoSubmitSummaries = false → passes id root_hash X (anchored root_hash X).
Lemma pushed_iff (l : list RootId.t) id j :
  id ∉ l → j ∈ l ++ [id] ↔ (j ∈ l ∧ j ≠ id) ∨ (j = id ∧ id ∈ l ++ [id]).
Proof. intros Hid. rewrite !elem_of_app, !list_elem_of_singleton. naive_solver. Qed.
Lemma pushed_nodup (l : list RootId.t) id : id ∉ l → NoDup l → NoDup (l ++ [id]).
Proof.
  intros Hid Hl. apply NoDup_app. split_and!; [done| |apply NoDup_singleton].
  by intros j Hj ->%list_elem_of_singleton.
Qed.
Lemma anchor_at_push X P id r n :
  SummaryStorage.Roots X !! id = Some r →
  anchor_at X (P ++ [id]) n =
    if decide (n = Z.of_nat (length P)) then Some (RootData.root_hash r) else anchor_at X P n.
Proof.
  intros Hr. unfold anchor_at. destruct (decide (n = Z.of_nat (length P))) as [->|Hn].
  - rewrite decide_True, Nat2Z.id by lia. rewrite lookup_app_r, Nat.sub_diag by done. cbn. by rewrite Hr.
  - case_decide; [|done]. destruct (decide (Z.to_nat n < length P)%nat) as [Hl|Hl].
    + by rewrite lookup_app_l.
    + rewrite (lookup_ge_None_2 P) by lia. rewrite (lookup_ge_None_2 (P ++ [id])); [done|]. rewrite length_app. cbn. lia.
Qed.
Lemma passes_core X X' V D P id r :
  sm_core X V D P → SummaryStorage.Roots X !! id = Some r → id ∉ P →
  passes id (RootData.root_hash r) X X' → sm_core X' V D (P ++ [id]).
Proof.
  intros HC Hr Hid Hp. pose proof (sc_sent _ _ _ _ HC _ _ Hr) as Hsent.
  assert (∀ j, j ∈ D ↔ (j ∈ D ∧ j ≠ id) ∨ (j = id ∧ RootData.is_validated r = true)) as HD.
  { intros j. destruct (decide (j = id)) as [->|?]; [|naive_solver]. rewrite (sc_validated _ _ _ _ HC). naive_solver. }
  assert (id ∈ P ++ [id]) as Hin by (apply elem_of_app; right; by apply list_elem_of_singleton).
  assert (∀ tx j, SummaryStorage.TxIdToRoot X !! tx = Some j → j ≠ id) as Hno.
  { intros tx j (x&Hx&Htx)%(sc_tx _ _ _ _ HC) ->. simplify_eq. naive_solver. }
  destruct Hp as [tx Hauto|Hauto].
  - eapply (on_root_core X _ V D D P _ id r (RootData.upd_tx_id (λ _, Some tx) r)); cbn; try done;
      try apply HC; try (by rewrite Hr); try (by rewrite Hauto); auto using pushed_iff.
    + intros range c Hc. split; [done|]. intros He. destruct (sc_pending _ _ _ _ HC _ _ Hc) as (x&?&?). by simplify_eq.
    + apply pushed_nodup; [done|apply HC].
    + intros tx' j. at_key tx' tx; [intros [= <-]; auto|]. eauto.
    + pose proof (sc_counter _ _ _ _ HC). by rewrite Hauto in *.
    + intros n. rewrite (sc_anchor _ _ _ _ HC). by rewrite Hauto.
  - pose proof (sc_counter _ _ _ _ HC) as Hcnt. rewrite Hauto in Hcnt, Hsent.
    eapply (on_root_core X _ V D D P _ id r r); cbn; try done; try apply HC; auto using pushed_iff.
    + by rewrite insert_id.
    + intros range c Hc. split; [done|]. intros He. destruct (sc_pending _ _ _ _ HC _ _ Hc) as (x&?&?). by simplify_eq.
    + apply pushed_nodup; [done|apply HC].
    + rewrite Hauto. naive_solver.
    + eauto.
    + by apply (sc_final _ _ _ _ HC id r).
    + rewrite Hauto, Hcnt, length_app. cbn. lia.
    + intros n. rewrite Hauto, (anchor_at_push _ _ _ r) by done. rewrite Hcnt. case_decide as Hn.
      * by rewrite Hn, lookup_insert_eq.
      * rewrite lookup_insert_ne, (sc_anchor _ _ _ _ HC) by done. by rewrite Hauto.
Qed.

(** A root is approved: it is no longer pending. *)
Definition approved id (next slot : Z) X : SummaryStorage.t :=
  SummaryStorage.upd_PendingApproval (delete (RootId.range id))
    (SummaryStorage.upd_SlotOfLastPublishedSummary (λ _, slot)
       (on_root id (RootData.upd_is_validated (λ _, true))
          (SummaryStorage.upd_NextBlockToProcess (λ _, next) X))).
Lemma approved_core X V D P id r d next slot :
  sm_core X V D P → SummaryStorage.Roots X !! id = Some r → RootData.is_validated r = false →
  SummaryStorage.VotesRepository X !! id = Some d → VotingSessionData.is_approved d = true →
  0 <= next <= u32_max → sm_core (approved id next slot X) V (D ++ [id]) P.
Proof.
  intros HC Hr Hval Hd Happ Hnext.
  assert (id ∉ D) as Hid by (intros (x&?&?)%(sc_validated _ _ _ _ HC); congruence).
  destruct (sc_session _ _ _ _ HC _ _ Hr) as (d'&Hd'&Hsess).
  assert (d' = d) as -> by congruence. clear Hd'.
  pose proof (sc_sent _ _ _ _ HC _ _ Hr) as Hsent.
  eapply (on_root_core X _ V D _ P P id r (RootData.upd_is_validated (λ _, true) r)); cbn; try done; try apply HC; auto.
  - by rewrite Hr.
  - intros x Hx (?&?&?&_&?). assert (x = d) as -> by congruence. by split_and!.
  - intros range c [Hne Hc]%lookup_delete_Some. split; [done|]. intros <-. done.
  - intros j. rewrite pushed_iff by done. rewrite elem_of_app, list_elem_of_singleton. naive_solver.
  - apply pushed_nodup; [done|apply HC].
  - intros j. destruct (decide (j = id)) as [->|?]; naive_solver.
  - intros tx j Hj. destruct (sc_tx _ _ _ _ HC _ _ Hj) as (x&Hx&?). destruct (decide (j = id)) as [->|?]; [|by left].
    right. by simplify_eq.
  - by apply (sc_final _ _ _ _ HC id r).
Qed.

(** Ethereum has the root. *)
Lemma finalised_core X V D P id tx :
  sm_core X V D P → SummaryStorage.TxIdToRoot X !! tx = Some id →
  sm_core (SummaryStorage.upd_TxIdToRoot (delete tx) (on_root id (RootData.upd_is_finalised (λ _, true)) X)) V D P.
Proof.
  intros HC Htx. destruct (sc_tx _ _ _ _ HC _ _ Htx) as (r&Hr&Hrt).
  pose proof (sc_sent _ _ _ _ HC _ _ Hr) as Hsent.
  eapply (on_root_core X _ V D D P P id r (RootData.upd_is_finalised (λ _, true) r)); cbn; try done; try apply HC; auto.
  - by rewrite Hr.
  - intros range c Hc. split; [done|]. intros He. destruct (sc_pending _ _ _ _ HC _ _ Hc) as (x&?&?). by simplify_eq.
  - intros j. destruct (decide (j = id)) as [->|?]; [|naive_solver]. rewrite (sc_validated _ _ _ _ HC). naive_solver.
  - intros j. destruct (decide (j = id)) as [->|?]; naive_solver.
  - intros t j [Hne Hj]%lookup_delete_Some. destruct (sc_tx _ _ _ _ HC _ _ Hj) as (x&Hx&?).
    destruct (decide (j = id)) as [->|?]; [|by left]. by simplify_eq.
  - by rewrite Hrt.
Qed.
Lemma dropped_core X V D P range :
  sm_core X V D P → sm_core (SummaryStorage.upd_PendingApproval (delete range) X) V D P.
Proof.
  intros HC. constructor; cbn; try apply HC. intros range' c [_ Hc]%lookup_delete_Some. by apply (sc_pending _ _ _ _ HC).
Qed.

(** *** Changes of what becomes of one root *)

Lemma stage_change R R' X X' P P' J J' id x :
  sm_stage R X P J → R' = <[id := x]> R →
  (∀ j, j ≠ id → (j ∈ P' ↔ j ∈ P) ∧ (j ∈ J' ↔ j ∈ J)) → NoDup J' →
  (∀ ref j, j ≠ id →
     SummaryStorage.ExternalValidationRef X' !! ref = Some j ↔
     SummaryStorage.ExternalValidationRef X !! ref = Some j) →
  (∀ ref, SummaryStorage.ExternalValidationRef X' !! ref = Some id → ref = ref_of id x.1) →
  (∀ j, j ≠ id →
     SummaryStorage.ExternalValidationStatus X' !! j = SummaryStorage.ExternalValidationStatus X !! j ∧
     SummaryStorage.PendingAdminReviews X' !! j = SummaryStorage.PendingAdminReviews X !! j) →
  (Nat.b2n (bool_decide (id ∈ P')) + Nat.b2n (bool_decide (id ∈ J')) + Nat.b2n (reviewed X' id x.1) =
   Nat.b2n (due x))%nat →
  (SummaryStorage.ExternalValidationStatus X' !! id ≠ None ↔ reviewed X' id x.1 = true) →
  (∀ data, SummaryStorage.PendingAdminReviews X' !! id = Some data →
     ExternalValidationData.external_ref data = ref_of id x.1 ∧ reviewed X' id x.1 = true) →
  (SummaryStorage.ExternalValidationStatus X' !! id = Some ExternalValidationEnum.PendingAdminReview →
     SummaryStorage.PendingAdminReviews X' !! id ≠ None) →
  sm_stage R' X' P' J'.
Proof.
  intros HS -> HPJ HJ Href Hid Hrest Hplace Hst Hrev Hask.
  assert (∀ j h, j ≠ id → reviewed X' j h = reviewed X j h) as Hre.
  { intros j h Hj. unfold reviewed. by apply bool_decide_ext, Href. }
  constructor.
  - intros j y. at_key j id; [by intros [= <-]|]. intros Hj.
    destruct (HPJ j) as [E1 E2]; [done|].
    rewrite (bool_decide_ext _ _ E1), (bool_decide_ext _ _ E2), Hre by done. by apply (ss_place _ _ _ _ HS).
  - intros j Hj. at_key j id; [done|]. apply (ss_refused _ _ _ _ HS). by apply HPJ.
  - done.
  - intros ref j. destruct (decide (j = id)) as [->|Hne].
    + intros Hr%Hid. exists x. by rewrite lookup_insert_eq.
    + rewrite Href, lookup_insert_ne by done. apply HS.
  - intros j y. at_key j id; [by intros [= <-]|]. intros Hj. destruct (Hrest j) as [-> _]; [done|].
    rewrite Hre by done. by apply (ss_status _ _ _ _ HS).
  - intros j. at_key j id; [done|]. destruct (Hrest j) as [-> _]; [done|]. apply HS.
  - intros j data. destruct (decide (j = id)) as [->|Hne].
    + intros [??]%Hrev. exists x. by rewrite lookup_insert_eq.
    + destruct (Hrest j) as [_ ->]; [done|]. rewrite lookup_insert_ne by done. intros (y&?&?&?)%(ss_review _ _ _ _ HS).
      exists y. by rewrite Hre.
  - intros j. destruct (decide (j = id)) as [->|Hne]; [done|]. destruct (Hrest j) as [-> ->]; [done|]. apply HS.
Qed.
Lemma seen_on_root X id f r :
  SummaryStorage.Roots X !! id = Some r →
  seen (on_root id f X) = <[id := (RootData.root_hash (f r), RootData.is_validated (f r))]> (seen X).
Proof. intros Hr. unfold seen, on_root. cbn. by rewrite Hr, fmap_insert. Qed.
Lemma seen_root X id r :
  SummaryStorage.Roots X !! id = Some r →
  seen X !! id = Some (RootData.root_hash r, RootData.is_validated r).
Proof. intros Hr. unfold seen. by rewrite lookup_fmap, Hr. Qed.
Lemma seen_kept X id r :
  SummaryStorage.Roots X !! id = Some r →
  seen X = <[id := (RootData.root_hash r, RootData.is_validated r)]> (seen X).
Proof. intros Hr. by rewrite insert_id by by apply seen_root. Qed.

(** Where a root that is not validated, or is with the watchtowers, is not. *)
Lemma not_due_nowhere R X P J id x :
  sm_stage R X P J → R !! id = Some x → due x = false →
  (id ∉ P) ∧ (id ∉ J) ∧ reviewed X id x.1 = false.
Proof.
  intros HS Hx Hd. pose proof (ss_place _ _ _ _ HS _ _ Hx) as Hp. rewrite Hd in Hp.
  repeat case_bool_decide; destruct (reviewed X id x.1); cbn in Hp; (lia || done).
Qed.
Lemma reviewed_only R X P J id x :
  sm_stage R X P J → R !! id = Some x → reviewed X id x.1 = true →
  (id ∉ P) ∧ (id ∉ J) ∧ due x = true.
Proof.
  intros HS Hx Hd. pose proof (ss_place _ _ _ _ HS _ _ Hx) as Hp. rewrite Hd in Hp.
  repeat case_bool_decide; destruct (due x); cbn in Hp; (lia || done).
Qed.
Lemma recorded_base X V D P J id root_hash who quorum end_at now :
  sm_base X V D P J → SummaryStorage.TotalIngresses X < u64_max →
  RootId.ingress_counter id = SummaryStorage.TotalIngresses X + 1 → is_root_id id → is_ref root_hash →
  sm_base (recorded id root_hash who quorum end_at now X) V D P J.
Proof.
  intros [HC HS] Ht Hid Hr Hh. pose proof (sc_new _ _ _ _ _ HC Hid) as Hnew. split; [by apply recorded_core|].
  assert (seen X !! id = None) as Hseen by (unfold seen; by rewrite lookup_fmap, Hnew).
  assert (∀ ref, SummaryStorage.ExternalValidationRef X !! ref ≠ Some id) as Href.
  { intros ref (x&?&_)%(ss_ref _ _ _ _ HS). congruence. }
  assert (reviewed X id root_hash = false) as Hrev by (apply bool_decide_false, Href).
  assert (∀ data, SummaryStorage.PendingAdminReviews X !! id ≠ Some data) as Hre.
  { intros data (x&?&_)%(ss_review _ _ _ _ HS). congruence. }
  eapply (stage_change _ _ X _ P P J J id (root_hash, false)); cbn; try done; try apply HS.
  - unfold seen. cbn. by rewrite fmap_insert.
  - intros ref Hr'. by apply Href in Hr'.
  - change (reviewed _ _ _) with (reviewed X id root_hash). rewrite Hrev, !bool_decide_false; [done| |].
    + intros Hj%(ss_refused _ _ _ _ HS). done.
    + intros Hj%(sc_passed _ _ _ _ HC). done.
  - change (reviewed _ _ _) with (reviewed X id root_hash). by rewrite Hrev, (ss_no_status _ _ _ _ HS).
  - intros data Hd. by apply Hre in Hd.
Qed.
Lemma stage_ext R X X' P J :
  sm_stage R X P J →
  SummaryStorage.ExternalValidationRef X' = SummaryStorage.ExternalValidationRef X →
  SummaryStorage.ExternalValidationStatus X' = SummaryStorage.ExternalValidationStatus X →
  SummaryStorage.PendingAdminReviews X' = SummaryStorage.PendingAdminReviews X → sm_stage R X' P J.
Proof.
  intros HS E1 E2 E3.
  assert (∀ id h, reviewed X' id h = reviewed X id h) as Hr by (intros; unfold reviewed; by rewrite E1).
  constructor; rewrite ?E1, ?E2, ?E3; intros *; rewrite ?Hr; try apply HS.
  intros (x&?&?&?)%(ss_review _ _ _ _ HS). exists x. by rewrite Hr.
Qed.

(** *** Approval *)

Definition under_review id (root_hash : H256) X : SummaryStorage.t :=
  SummaryStorage.upd_ExternalValidationStatus (insert id ExternalValidationEnum.ValidationInProgress)
    (SummaryStorage.upd_ExternalValidationRef (insert (ref_of id root_hash) id) X).
Inductive forwards id (root_hash : H256) X P : SummaryStorage.t → list RootId.t → Prop :=
  | Forwards_empty : root_hash = empty_root → forwards id root_hash X P X P
  | Forwards_review : root_hash ≠ empty_root →
      forwards id root_hash X P (under_review id root_hash X) P
  | Forwards_pass X' : root_hash ≠ empty_root → passes id root_hash X X' →
      forwards id root_hash X P X' (P ++ [id]).
(** No two of the stored roots have the same reference. *)
Definition distinct_refs X : Prop :=
  ∀ id id' r r', SummaryStorage.Roots X !! id = Some r → SummaryStorage.Roots X !! id' = Some r' →
    ref_of id (RootData.root_hash r) = ref_of id' (RootData.root_hash r') → id = id'.
Lemma passes_same id h X X' :
  passes id h X X' →
  SummaryStorage.ExternalValidationRef X' = SummaryStorage.ExternalValidationRef X ∧
  SummaryStorage.ExternalValidationStatus X' = SummaryStorage.ExternalValidationStatus X ∧
  SummaryStorage.PendingAdminReviews X' = SummaryStorage.PendingAdminReviews X ∧
  SummaryStorage.VotesRepository X' = SummaryStorage.VotesRepository X.
Proof. by intros []. Qed.
Lemma passes_root id h X X' r :
  passes id h X X' → SummaryStorage.Roots X !! id = Some r →
  seen X' = seen X ∧
  ∃ r', SummaryStorage.Roots X' !! id = Some r' ∧ RootData.root_hash r' = RootData.root_hash r ∧
        RootData.is_validated r' = RootData.is_validated r.
Proof.
  intros [tx _|_] Hr; [|by eauto]. split.
  - change (seen (on_root id (RootData.upd_tx_id (λ _, Some tx)) X) = seen X).
    rewrite (seen_on_root _ _ _ r) by done. symmetry. exact (seen_kept _ _ _ Hr).
  - cbn. rewrite lookup_insert_eq, Hr. by eexists.
Qed.
Lemma forwards_core X X1 V D P P1 J id r :
  sm_base X V D P J → SummaryStorage.Roots X !! id = Some r → RootData.is_validated r = false →
  forwards id (RootData.root_hash r) X P X1 P1 →
  sm_core X1 V D P1 ∧ seen X1 = seen X ∧
  SummaryStorage.VotesRepository X1 = SummaryStorage.VotesRepository X ∧
  ∃ r1, SummaryStorage.Roots X1 !! id = Some r1 ∧ RootData.root_hash r1 = RootData.root_hash r ∧
        RootData.is_validated r1 = false.
Proof.
  intros [HC HS] Hr Hval Hf.
  destruct (not_due_nowhere _ _ _ _ _ _ HS (seen_root _ _ _ Hr)) as (Hp&_&_); [by rewrite Hval|].
  destruct Hf as [|Hne|X' Hne Hpass].
  - by eauto 10.
  - split_and!; [by destruct HC; constructor|done|done|by eauto].
  - destruct (passes_root _ _ _ _ _ Hpass Hr) as (?&r'&?&?&?), (passes_same _ _ _ _ Hpass) as (_&_&_&?).
    split_and!; [by eapply passes_core|done|done|]. exists r'. split_and!; congruence.
Qed.
Lemma unvalidated_absent X V D P J id r :
  sm_base X V D P J → SummaryStorage.Roots X !! id = Some r → RootData.is_validated r = false →
  (id ∉ P) ∧ (id ∉ J) ∧ reviewed X id (RootData.root_hash r) = false ∧
  (∀ ref, SummaryStorage.ExternalValidationRef X !! ref ≠ Some id) ∧
  SummaryStorage.ExternalValidationStatus X !! id = None ∧
  (∀ data, SummaryStorage.PendingAdminReviews X !! id ≠ Some data).
Proof.
  intros [HC HS] Hr Hval. pose proof (seen_root _ _ _ Hr) as Hx.
  destruct (not_due_nowhere _ _ _ _ _ _ HS Hx) as (Hp&Hj&Hrev); [by rewrite Hval|]. cbn in Hrev. split_and!; try done.
  - intros ref Href. destruct (ss_ref _ _ _ _ HS _ _ Href) as (y&Hy&->). rewrite Hx in Hy. injection Hy as <-.
    by apply bool_decide_eq_false in Hrev.
  - apply dec_stable. rewrite (ss_status _ _ _ _ HS _ _ Hx). cbn. by rewrite Hrev.
  - intros data (y&Hy&_&Hry)%(ss_review _ _ _ _ HS). rewrite Hx in Hy. injection Hy as <-. cbn in Hry. congruence.
Qed.
Lemma forwards_approved X X1 V D P P1 J id r d next slot :
  sm_base X V D P J → distinct_refs X → SummaryStorage.Roots X !! id = Some r → RootData.is_validated r = false →
  SummaryStorage.VotesRepository X !! id = Some d → VotingSessionData.is_approved d = true →
  0 <= next <= u32_max → forwards id (RootData.root_hash r) X P X1 P1 →
  sm_base (approved id next slot X1) V (D ++ [id]) P1 J.
Proof.
  intros HB Hdist Hr Hval Hd Happ Hnext Hf.
  destruct (forwards_core _ _ _ _ _ _ _ _ _ HB Hr Hval Hf) as (HC1&Hseen&HV&r1&Hr1&Hh&Hval1).
  split; [eapply (approved_core X1); eauto; by rewrite HV|].
  destruct (unvalidated_absent _ _ _ _ _ _ _ HB Hr Hval) as (Hp&Hj&Hrev&Hrefs&Hst&Hre). destruct HB as [HC HS].
  set (h := RootData.root_hash r) in *.
  assert (seen (approved id next slot X1) = <[id := (h, true)]> (seen X)) as Hseen'.
  { transitivity (seen (on_root id (RootData.upd_is_validated (λ _, true)) X1)); [done|].
    rewrite (seen_on_root _ _ _ r1), Hseen by done. cbn. by rewrite Hh. }
  destruct Hf as [He|Hne|X' Hne Hpass].
  - assert (reviewed (approved id next slot X) id h = false) as Hnew by done.
    apply (stage_change (seen X) _ X _ P P J J id (h, true)); cbn; rewrite ?Hnew, ?Hst; try done; try apply HS.
    + intros ref ?%Hrefs. done.
    + rewrite !bool_decide_false by done. cbn. by rewrite bool_decide_true.
    + intros data ?%Hre. done.
  - assert (reviewed (approved id next slot (under_review id h X)) id h = true) as Hnew.
    { apply bool_decide_true. cbn. by rewrite lookup_insert_eq. }
    apply (stage_change (seen X) _ X _ P P J J id (h, true)); try done; try apply HS; cbn; rewrite ?Hnew, ?lookup_insert_eq; try done.
    + intros ref j Hne'. destruct (decide (ref = ref_of id h)) as [->|?]; [|by rewrite lookup_insert_ne].
      rewrite lookup_insert_eq. split; [naive_solver|]. intros (x&Hx&Heq)%(ss_ref _ _ _ _ HS). exfalso. apply Hne'.
      unfold seen in Hx. apply lookup_fmap_Some in Hx as (rj&<-&Hrj). symmetry. by apply (Hdist id j r rj).
    + intros ref. destruct (decide (ref = ref_of id h)) as [->|?]; [done|]. rewrite lookup_insert_ne by done. by intros ?%Hrefs.
    + intros j Hne'. by rewrite lookup_insert_ne.
    + unfold due. cbn. by rewrite !bool_decide_false by done.
    + intros data ?%Hre. done.
  - destruct (passes_same _ _ _ _ Hpass) as (E1&E2&E3&_).
    assert (reviewed (approved id next slot X') id h = false) as Hnew by (unfold reviewed; cbn; by rewrite E1).
    apply (stage_change (seen X) _ X _ P _ J J id (h, true)); cbn; rewrite ?E1, ?E2, ?E3, ?Hnew, ?Hst; try done; try apply HS.
    + intros j Hj'. split; [|done]. rewrite elem_of_app, list_elem_of_singleton. naive_solver.
    + intros ref ?%Hrefs. done.
    + rewrite bool_decide_true by (apply elem_of_app; right; by apply list_elem_of_singleton).
      rewrite bool_decide_false by done. unfold due. cbn. by rewrite bool_decide_false.
    + intros data ?%Hre. done.
Qed.

(** *** The answer of the watchtowers and of the admin *)

Definition set_status id (status : ExternalValidationEnum.t) X : SummaryStorage.t :=
  SummaryStorage.upd_ExternalValidationStatus (insert id status) X.
Definition cleaned_up id (ref : H256) X : SummaryStorage.t :=
  SummaryStorage.upd_PendingAdminReviews (delete id)
    (SummaryStorage.upd_ExternalValidationRef (delete ref)
       (SummaryStorage.upd_ExternalValidationStatus (delete id) X)).
Definition asked id (data : ExternalValidationData.t) X : SummaryStorage.t :=
  SummaryStorage.upd_PendingAdminReviews (insert id data)
    (set_status id ExternalValidationEnum.PendingAdminReview X).
(** A reference leads to a validated root that is still with the watchtowers. *)
Lemma ref_reviewed X V D P J ref id :
  sm_base X V D P J → SummaryStorage.ExternalValidationRef X !! ref = Some id →
  ∃ r, SummaryStorage.Roots X !! id = Some r ∧ ref = ref_of id (RootData.root_hash r) ∧
       reviewed X id (RootData.root_hash r) = true.
Proof.
  intros [HC HS] Href. destruct (ss_ref _ _ _ _ HS _ _ Href) as (x&Hx&->).
  unfold seen in Hx. apply lookup_fmap_Some in Hx as (r&<-&Hr). exists r. split_and!; [done..|].
  by apply bool_decide_true.
Qed.
Lemma status_base X V D P J id r status :
  sm_base X V D P J → SummaryStorage.Roots X !! id = Some r →
  reviewed X id (RootData.root_hash r) = true → status ≠ ExternalValidationEnum.PendingAdminReview →
  sm_base (set_status id status X) V D P J.
Proof.
  intros [HC HS] Hr Hrev Hne. split; [by destruct HC; constructor|].
  pose proof (seen_root _ _ _ Hr) as Hx.
  apply (stage_change (seen X) _ X _ P P J J id (RootData.root_hash r, RootData.is_validated r));
    try done; try apply HS; cbn; rewrite ?lookup_insert_eq; try done.
  - symmetry. by apply insert_id.
  - intros ref (y&Hy&->)%(ss_ref _ _ _ _ HS). rewrite Hx in Hy. by injection Hy as <-.
  - intros j Hj. by rewrite lookup_insert_ne.
  - intros data (y&Hy&?&?)%(ss_review _ _ _ _ HS). rewrite Hx in Hy. injection Hy as <-. done.
  - naive_solver.
Qed.
Lemma asked_base X V D P J id r data :
  sm_base X V D P J → SummaryStorage.Roots X !! id = Some r →
  reviewed X id (RootData.root_hash r) = true →
  ExternalValidationData.external_ref data = ref_of id (RootData.root_hash r) →
  sm_base (asked id data X) V D P J.
Proof.
  intros [HC HS] Hr Hrev He. split; [by destruct HC; constructor|].
  pose proof (seen_root _ _ _ Hr) as Hx.
  apply (stage_change (seen X) _ X _ P P J J id (RootData.root_hash r, RootData.is_validated r));
    try done; try apply HS; cbn; rewrite ?lookup_insert_eq; try done.
  - symmetry. by apply insert_id.
  - intros ref (y&Hy&->)%(ss_ref _ _ _ _ HS). rewrite Hx in Hy. by injection Hy as <-.
  - intros j Hj. by rewrite !lookup_insert_ne.
  - by intros ? [= <-].
Qed.
(** A root is passed on, or refused, and forgotten by the watchtowers' side. *)
Lemma cleaned_stage X X1 V D P P1 J J1 id r :
  sm_base X V D P J → SummaryStorage.Roots X !! id = Some r → reviewed X id (RootData.root_hash r) = true →
  seen X1 = seen X → SummaryStorage.ExternalValidationRef X1 = SummaryStorage.ExternalValidationRef X →
  SummaryStorage.ExternalValidationStatus X1 = SummaryStorage.ExternalValidationStatus X →
  SummaryStorage.PendingAdminReviews X1 = SummaryStorage.PendingAdminReviews X →
  (P1 = P ++ [id] ∧ J1 = J ∨ P1 = P ∧ J1 = J ++ [id]) →
  sm_stage (seen (cleaned_up id (ref_of id (RootData.root_hash r)) X1))
    (cleaned_up id (ref_of id (RootData.root_hash r)) X1) P1 J1.
Proof.
  intros [HC HS] Hr Hrev Hseen E1 E2 E3 HPJ. pose proof (seen_root _ _ _ Hr) as Hx.
  destruct (reviewed_only _ _ _ _ _ _ HS Hx Hrev) as (Hp&Hj&Hdue).
  set (h := RootData.root_hash r) in *. set (X' := cleaned_up id (ref_of id h) X1).
  assert (reviewed X' id h = false) as Hnew by (apply bool_decide_false; cbn; by rewrite lookup_delete_eq).
  assert (id ∈ P ++ [id] ∧ id ∈ J ++ [id]) as [HinP HinJ].
  { split; apply elem_of_app; right; by apply list_elem_of_singleton. }
  apply (stage_change (seen X) _ X _ P P1 J J1 id (h, RootData.is_validated r)); cbn; rewrite ?E1, ?E2, ?E3, ?Hnew.
  - done.
  - transitivity (seen X1); [done|]. rewrite Hseen. symmetry. by apply insert_id.
  - intros j Hj'. destruct HPJ as [[-> ->]|[-> ->]]; rewrite elem_of_app, list_elem_of_singleton; naive_solver.
  - destruct HPJ as [[-> ->]|[-> ->]]; [|apply pushed_nodup; [done|]]; apply HS.
  - intros ref j Hj'. rewrite lookup_delete_Some. split; [naive_solver|]. intros Hr'. split; [|done]. intros <-.
    apply bool_decide_eq_true in Hrev. congruence.
  - intros ref [Hne (y&Hy&->)%(ss_ref _ _ _ _ HS)]%lookup_delete_Some. rewrite Hx in Hy. by injection Hy as <-.
  - intros j Hj'. by rewrite !lookup_delete_ne.
  - rewrite Hdue. destruct HPJ as [[-> ->]|[-> ->]].
    + by rewrite (bool_decide_true (id ∈ P ++ [id])), bool_decide_false.
    + by rewrite (bool_decide_true (id ∈ J ++ [id])), bool_decide_false.
  - by rewrite lookup_delete_eq.
  - by rewrite lookup_delete_eq.
  - by rewrite lookup_delete_eq.
Qed.
Lemma settled_base X X1 V D P J id r :
  sm_base X V D P J → SummaryStorage.Roots X !! id = Some r → reviewed X id (RootData.root_hash r) = true →
  passes id (RootData.root_hash r) X X1 →
  sm_base (cleaned_up id (ref_of id (RootData.root_hash r)) X1) V D (P ++ [id]) J.
Proof.
  intros HB Hr Hrev Hpass. destruct (passes_same _ _ _ _ Hpass) as (?&?&?&_), (passes_root _ _ _ _ _ Hpass Hr) as (?&_).
  split; [|eapply (cleaned_stage X X1); eauto].
  destruct HB as [HC HS], (reviewed_only _ _ _ _ _ _ HS (seen_root _ _ _ Hr) Hrev) as (Hp&_).
  destruct (passes_core _ _ _ _ _ _ _ HC Hr Hp Hpass). by constructor.
Qed.
Lemma refused_base X V D P J id r :
  sm_base X V D P J → SummaryStorage.Roots X !! id = Some r → reviewed X id (RootData.root_hash r) = true →
  sm_base (cleaned_up id (ref_of id (RootData.root_hash r)) X) V D P (J ++ [id]).
Proof.
  intros HB Hr Hrev. split; [destruct HB as [[] _]; by constructor|]. eapply (cleaned_stage X X); eauto.
Qed.
Lemma finalised_base X V D P J id tx :
  sm_base X V D P J → SummaryStorage.TxIdToRoot X !! tx = Some id →
  sm_base (SummaryStorage.upd_TxIdToRoot (delete tx) (on_root id (RootData.upd_is_finalised (λ _, true)) X)) V D P J.
Proof.
  intros [HC HS] Htx. split; [by apply finalised_core|]. destruct (sc_tx _ _ _ _ HC _ _ Htx) as (r&Hr&_).
  match goal with |- sm_stage (seen ?X') _ _ _ => assert (seen X' = seen X) as -> end; [|by eapply (stage_ext _ X)].
  transitivity (seen (on_root id (RootData.upd_is_finalised (λ _, true)) X)); [done|].
  rewrite (seen_on_root _ _ _ r) by done. symmetry. exact (seen_kept _ _ _ Hr).
Qed.
End Invariant.

(** ** The ranges of the validated roots *)

(** They follow one another from block 0 to the next block to process. *)
Inductive tiles : list RootId.t → Z → Prop :=
  | Tiles_nil : tiles [] 0
  | Tiles_snoc D next id :
      tiles D next → RootRange.from_block (RootId.range id) = next →
      next <= RootRange.to_block (RootId.range id) →
      tiles (D ++ [id]) (RootRange.to_block (RootId.range id) + 1).
Definition covers (id : RootId.t) (n : Z) : Prop :=
  RootRange.from_block (RootId.range id) <= n <= RootRange.to_block (RootId.range id).
Lemma tiles_below D next : tiles D next → 0 <= next ∧ ∀ id n, id ∈ D → covers id n → 0 <= n < next.
Proof.
  induction 1 as [|D next id HD [IH1 IH2] Hf Hle]; [split; [done|]; by intros ?? ?%not_elem_of_nil|].
  split; [lia|]. intros j n [Hj| ->%list_elem_of_singleton]%elem_of_app Hc.
  - specialize (IH2 _ _ Hj Hc). lia.
  - unfold covers in Hc. lia.
Qed.
Lemma tiles_cover D next n :
  tiles D next → 0 <= n < next → ∃ i id, D !! i = Some id ∧ covers id n ∧
    ∀ i' id', D !! i' = Some id' → covers id' n → i' = i.
Proof.
  induction 1 as [|D next id HD IH Hf Hle]; [lia|]. intros Hn. pose proof (tiles_below _ _ HD) as [_ Hb].
  destruct (decide (n < next)) as [Hlt|Hge].
  - destruct IH as (i&x&Hi&Hc&Hu); [lia|]. exists i, x. split_and!; [by apply lookup_app_l_Some|done|].
    intros i' x' [Hi'|[? Hi']]%lookup_app_Some Hc'; [by eapply Hu|].
    apply list_lookup_singleton_Some in Hi' as [_ <-]. unfold covers in Hc'. lia.
  - exists (length D), id. split_and!.
    + by rewrite lookup_app_r, Nat.sub_diag.
    + unfold covers. lia.
    + intros i' x' [Hi'|[? Hi']]%lookup_app_Some Hc'.
      * pose proof (Hb _ _ (list_elem_of_lookup_2 _ _ _ Hi') Hc'). lia.
      * apply list_lookup_singleton_Some in Hi' as [? _]. lia.
Qed.

Section Tiled.
Context `{BridgeConfig} `{!SummaryConfig}.
Implicit Types (X : SummaryStorage.t) (id : RootId.t) (D : list RootId.t).

(** The last block of the next range ([get_target_block]). *)
Definition target X : Z :=
  SummaryStorage.NextBlockToProcess X + SummaryStorage.SchedulePeriod X -
  (if decide (SummaryStorage.NextBlockToProcess X = 0) then 0 else 1).
Record sm_tiled X D : Prop := {
  st_tiles : tiles D (SummaryStorage.NextBlockToProcess X);
  st_pending range c : SummaryStorage.PendingApproval X !! range = Some c →
    range = RootRange.mk (SummaryStorage.NextBlockToProcess X) (target X);
}.
Lemma tiled_recorded X D id root_hash who quorum end_at now :
  sm_tiled X D → RootId.range id = RootRange.mk (SummaryStorage.NextBlockToProcess X) (target X) →
  sm_tiled (recorded id root_hash who quorum end_at now X) D.
Proof.
  intros [H1 H2] Hid. constructor; [done|]. cbn. intros range c. at_key range (RootId.range id); [done|]. apply H2.
Qed.
Lemma tiled_dropped X D range : sm_tiled X D → sm_tiled (SummaryStorage.upd_PendingApproval (delete range) X) D.
Proof. intros [H1 H2]. constructor; [done|]. cbn. intros range' c [_ Hc]%lookup_delete_Some. by eapply H2. Qed.
Lemma forwards_same id h X P X1 P1 :
  forwards id h X P X1 P1 →
  SummaryStorage.PendingApproval X1 = SummaryStorage.PendingApproval X ∧
  SummaryStorage.NextBlockToProcess X1 = SummaryStorage.NextBlockToProcess X ∧
  SummaryStorage.SchedulePeriod X1 = SummaryStorage.SchedulePeriod X.
Proof. by intros [| |X' _ []]. Qed.
Lemma tiled_approved X X1 V D P P1 id h c slot :
  sm_core X V D P → sm_tiled X D → SummaryStorage.PendingApproval X !! RootId.range id = Some c →
  forwards id h X P X1 P1 →
  sm_tiled (approved id (RootRange.to_block (RootId.range id) + 1) slot X1) (D ++ [id]).
Proof.
  intros HC [H1 H2] Hp (Hpend&_)%forwards_same. pose proof (H2 _ _ Hp) as Hr. pose proof (sc_period _ _ _ _ HC).
  unfold MIN_SCHEDULE_PERIOD in *. constructor; cbn.
  - eapply Tiles_snoc; [done|by rewrite Hr|]. rewrite Hr. cbn. unfold target. case_decide; lia.
  - rewrite Hpend. intros range c' [Hne Hc]%lookup_delete_Some. apply H2 in Hc. congruence.
Qed.
(** The schedule may change when nothing is pending. *)
Lemma tiled_idle X X' D :
  sm_tiled X D → SummaryStorage.PendingApproval X' = ∅ →
  SummaryStorage.NextBlockToProcess X' = SummaryStorage.NextBlockToProcess X → sm_tiled X' D.
Proof. intros [H1 H2] Hp Hn. constructor; [by rewrite Hn|]. intros range c. by rewrite Hp. Qed.
Lemma tiled_ext X X' D :
  sm_tiled X D → SummaryStorage.PendingApproval X' = SummaryStorage.PendingApproval X →
  SummaryStorage.NextBlockToProcess X' = SummaryStorage.NextBlockToProcess X →
  SummaryStorage.SchedulePeriod X' = SummaryStorage.SchedulePeriod X → sm_tiled X' D.
Proof. intros [H1 H2] Hp Hn Hs. constructor; [by rewrite Hn|]. unfold target. rewrite Hp, Hn, Hs. apply H2. Qed.
End Tiled.
