(* ===== verification/SummaryProps.v ===== *)
(** * Summaries: votes, ranges and what becomes of a root

    Every call of [pallets/summary], what the watchtowers and the bridge tell it, and the
    genesis keep the invariant of [SummaryInv]: a root is validated at most once, by as many
    distinct votes as the quorum asked for when it was recorded, and a validated root is
    passed on, or refused by the admin, or still with the watchtowers, never two of these.
    While the schedule does not change under a pending root, the validated ranges tile the
    chain. *)

From S2P Require Import Prelude Frames Slices Bytes EventTypes EventParsing EventDiscovery EthTypes.
From S2P Require Import RuntimeErrors NodeTypes SummaryTypes BridgeTypes Avn BridgeExamples.
From S2P Require Import EthBridge BridgeEvents TokenManager NodeStake NodeRewards NodeManager Anchor NodeExamples NodeProps AvnProps Watchtower WatchtowerProps.
From S2P Require Import Summary SummaryWorker SummaryInv.

Lemma checked_add_to_Some max a b c : checked_add_to max a b = Some c → c = a + b ∧ c <= max.
Proof. unfold checked_add_to. case_bool_decide; naive_solver. Qed.

(** ** The operations *)

(** With [steady], the schedule does not change while a root is pending. *)
Definition sm_inv `{SummaryConfig} (steady : bool) X V D P J : Prop :=
  sm_base X V D P J ∧ (steady = true → sm_tiled X D).
(** The pallet that root are submitted to leaves this one alone. *)
Class ValidatorLaws `{SummaryConfig} (W : WatchtowerInterface) : Prop := {
  submit_quiet who req : leaves sm (submit_proposal who req);
}.

Section Steps.
Context `{BridgeConfig} `{!SummaryConfig}.
Implicit Types (s : Runtime.t) (X : SummaryStorage.t).
Context s X V D P J (Hs : sm s = (X, V, D, P, J)).

Lemma wpp_sm_modify f (Q : unit → Runtime.t → Prop) R :
  (∀ s', sm s' = (f X, V, D, P, J) → Q () s') → wpp True (summary_modify f) s Q R.
Proof using Hs.
  injection Hs as <- <- <- <- <-. intros HQ. apply wpp_modify, HQ. unfold sm. by rewrite summary_modified.
Qed.
Lemma wpp_sm_get {A} (f : SummaryStorage.t → A) (Q : A → Runtime.t → Prop) R :
  Q (f X) s → wpp True (summary_get f) s Q R.
Proof using Hs. injection Hs as <- <- <- <- <-. intros HQ. by apply wpp_gets. Qed.
Lemma wpp_sm_event e (Q : unit → Runtime.t → Prop) R :
  (∀ s', sm s' = (X, V ++ omap vote_told [e], D ++ omap validated_told [e], P ++ omap passed_told [e],
                  J ++ omap refused_told [e]) → Q () s') →
  wpp True (summary_event e) s Q R.
Proof using Hs.
  injection Hs as <- <- <- <- <-. intros HQ. apply wpp_modify, HQ.
  unfold sm, votes_told, validated, passed, refused, summary_events. cbn [Runtime.events Runtime.upd_events].
  rewrite !omap_app. cbn. by rewrite bool_decide_true.
Qed.
Lemma wpp_sm_quiet {A} (m : Dispatch A) (Q : A → Runtime.t → Prop) R :
  leaves sm m → (∀ a s', sm s' = (X, V, D, P, J) → Q a s') → (∀ e s', sm s' = (X, V, D, P, J) → R e s') →
  wpp True m s Q R.
Proof using Hs. intros Hl. eapply wpp_leaves; [done|exact Hs|by right]. Qed.
Lemma sm_root id : try_get_root_data id s = SummaryStorage.Roots X !! id.
Proof using Hs. by injection Hs as <- <- <- <- <-. Qed.
Lemma sm_vote id : get_vote id s = unwrap_or VotingSessionData.default (SummaryStorage.VotesRepository X !! id).
Proof using Hs. by injection Hs as <- <- <- <- <-. Qed.
Lemma sm_ref ref : get_root_id_by_external_ref ref s = SummaryStorage.ExternalValidationRef X !! ref.
Proof using Hs. by injection Hs as <- <- <- <- <-. Qed.
(** A session that is valid belongs to a pending root. *)
Lemma sm_valid id :
  root_session_is_valid id s = true →
  ∃ r d, SummaryStorage.Roots X !! id = Some r ∧ RootData.is_validated r = false ∧
    SummaryStorage.VotesRepository X !! id = Some d ∧
    SummaryStorage.PendingApproval X !! RootId.range id = Some (RootId.ingress_counter id).
Proof using Hs.
  injection Hs as <- <- <- <- <-. unfold root_session_is_valid, root_session_state, try_get_root_data.
  destruct (SummaryStorage.VotesRepository _ !! id) as [d|], (SummaryStorage.Roots _ !! id) as [r|] eqn:Hr,
    (SummaryStorage.PendingApproval _ !! _) as [c|]; try done.
  intros [?%negb_true_iff Hc%bool_decide_eq_true]%andb_true_iff. subst c. eauto 10.
Qed.
Lemma sm_active id : root_session_is_active id s = true → root_session_is_valid id s = true.
Proof using.
  unfold root_session_is_active. destruct (root_session_state id s); [done|]. by intros [_ ?]%andb_true_iff.
Qed.
Lemma sm_state id d : SummaryStorage.VotesRepository X !! id = Some d → root_session_state id s = inr d.
Proof using Hs. injection Hs as <- <- <- <- <-. unfold root_session_state. by intros ->. Qed.
End Steps.

(** Follow an operation of the pallet; of each state its [sm] is remembered. *)
Ltac sm_step :=
  match goal with
  | Hs : sm ?s = _ |- wpp _ (summary_modify _) ?s _ _ => apply (wpp_sm_modify _ _ _ _ _ _ Hs); clear Hs; intros ? Hs
  | Hs : sm ?s = _ |- wpp _ (mutate_root _ _) ?s _ _ => apply (wpp_sm_modify _ _ _ _ _ _ Hs); clear Hs; intros ? Hs
  | Hs : sm ?s = _ |- wpp _ (set_summary_status _ _) ?s _ _ => apply (wpp_sm_modify _ _ _ _ _ _ Hs); clear Hs; intros ? Hs
  | Hs : sm ?s = _ |- wpp _ (summary_get _) ?s _ _ => apply (wpp_sm_get _ _ _ _ _ _ Hs)
  | Hs : sm ?s = _ |- wpp _ (gets (try_get_root_data _)) ?s _ _ => apply wpp_gets; rewrite (sm_root _ _ _ _ _ _ Hs)
  | Hs : sm ?s = _ |- wpp _ (gets (get_vote _)) ?s _ _ => apply wpp_gets; rewrite (sm_vote _ _ _ _ _ _ Hs)
  | Hs : sm ?s = _ |- wpp _ (gets (get_root_id_by_external_ref _)) ?s _ _ =>
      apply wpp_gets; rewrite (sm_ref _ _ _ _ _ _ Hs)
  | Hs : sm ?s = _ |- wpp _ (summary_event _) ?s _ _ =>
      apply (wpp_sm_event _ _ _ _ _ _ Hs); clear Hs; intros ? Hs; cbn [omap list_omap vote_told validated_told passed_told refused_told] in Hs;
      rewrite ?app_nil_r in Hs
  | |- _ => wpp_step
  end.

Section Operations.
Context `{BridgeConfig} `{!BridgeInterfaceNotification} `{!NodeConfig} `{!SummaryConfig}.
Context (W : WatchtowerInterface) `{!ValidatorLaws W} (steady : bool).
#[local] Existing Instance W.
Implicit Types (s : Runtime.t) (X : SummaryStorage.t) (id : RootId.t) (r : RootData.t).

Lemma process_accepted_root_spec s X V D P J id r h :
  sm s = (X, V, D, P, J) → SummaryStorage.Roots X !! id = Some r → RootData.root_hash r ≠ empty_root →
  wpp True (process_accepted_root id h) s
    (λ _ s', ∃ X', passes id (RootData.root_hash r) X X' ∧ sm s' = (X', V, D, P ++ [id], J))
    (λ _ s', sm s' = (X, V, D, P, J)).
Proof.
  intros Hs Hr Hne. unfold process_accepted_root, get_root_data. repeat sm_step; [|congruence].
  match goal with E : _ !! id = Some ?x |- _ => assert (x = r) as -> by congruence end.
  rewrite bool_decide_false by done. wpp_step. destruct AutoSubmitSummaries eqn:Ha.
  - unfold send_root_to_ethereum. wpp_step. eapply (wpp_sm_quiet _ _ _ _ _ _ Hs); [apply publish_quiet| |done].
    clear Hs. intros tx s1 Hs. repeat sm_step. eexists. split; [|exact Hs]. by apply Passes_sent.
  - unfold get_next_approved_root_id. repeat sm_step; [|done]. eexists. split; [|exact Hs].
    match goal with E : checked_add_to _ _ _ = Some _ |- _ => apply checked_add_to_Some in E as [-> _] end.
    by apply Passes_anchored.
Qed.
Lemma forwards_spec s X V D P J id r :
  sm s = (X, V, D, P, J) → SummaryStorage.Roots X !! id = Some r →
  wpp True
    (if bool_decide (RootData.root_hash r = empty_root) then mret ()
     else if ExternalValidationEnabled then submit_root_for_external_validation id (RootData.root_hash r)
     else process_accepted_root id (RootData.root_hash r)) s
    (λ _ s', ∃ X' P', forwards id (RootData.root_hash r) X P X' P' ∧ sm s' = (X', V, D, P', J))
    (λ _ _, True).
Proof.
  intros Hs Hr. case_bool_decide as He.
  { wpp_step. exists X, P. split; [by apply Forwards_empty|done]. }
  destruct ExternalValidationEnabled.
  - unfold submit_root_for_external_validation. do 2 sm_step. destruct AutoSubmitSummaries; repeat sm_step; try done;
      (eapply (wpp_sm_quiet _ _ _ _ _ _ Hs); [apply submit_quiet| |done]);
      clear Hs; intros ? s1 Hs; repeat sm_step; rewrite ref_of_eq in Hs;
      (eexists _, _; split; [|exact Hs]); by apply Forwards_review.
  - eapply wpp_mono; [by eapply process_accepted_root_spec| |done]. intros [] s' (X'&Hp&Hs'). eexists _, _.
    split; [|exact Hs']. by apply Forwards_pass.
Qed.
Lemma accept_root_spec s X V D P J reporter id vote r :
  sm s = (X, V, D, P, J) → SummaryStorage.Roots X !! id = Some r →
  wpp True (accept_root reporter id vote r) s
    (λ _ s', ∃ X1 P1 slot, forwards id (RootData.root_hash r) X P X1 P1 ∧
       RootRange.to_block (RootId.range id) + 1 <= u32_max ∧
       sm s' = (SummaryStorage.upd_SlotOfLastPublishedSummary (λ _, slot)
                  (on_root id (RootData.upd_is_validated (λ _, true))
                     (SummaryStorage.upd_NextBlockToProcess (λ _, RootRange.to_block (RootId.range id) + 1) X1)),
                V, D ++ [id], P1, J))
    (λ _ _, True).
Proof.
  intros Hs Hr. unfold accept_root. wpp_step. eapply wpp_mono; [by eapply forwards_spec| |done].
  clear Hs. intros [] s1 (X1&P1&Hf&Hs). wpp_step. eapply (wpp_sm_quiet _ _ _ _ _ _ Hs); [apply offence_quiet| |done].
  clear Hs. intros [] s2 Hs. repeat sm_step; [|done].
  match goal with E : safe_add_block_numbers _ _ = Some _ |- _ => apply checked_add_to_Some in E as [-> Hle] end.
  exists X1, P1. eexists. split_and!; [done|done|]. destruct id. exact Hs.
Qed.
Lemma refuse_root_quiet reporter vote r : leaves sm (refuse_root reporter vote r).
Proof. unfold refuse_root. pose proof offence_quiet. leaves_tac. Qed.
(** Ending a vote; [V'] are the votes in the repository, which may be ahead of the events. *)
Lemma end_voting_inv s X V V' D P J reporter id :
  sm s = (X, V, D, P, J) → sm_inv steady X V' D P J → distinct_refs X →
  wpp True (end_voting reporter id) s
    (λ _ s', ∃ X' D' P', sm s' = (X', V, D', P', J) ∧ sm_inv steady X' V' D' P' J) (λ _ _, True).
Proof.
  intros Hs [HB HT] Hdist. unfold end_voting, get_root_data. do 3 sm_step. sm_step; [|done].
  match goal with E : root_session_is_valid _ _ = true |- _ => destruct (sm_valid _ _ _ _ _ _ Hs _ E) as (r&d&Hr&Hv&Hd&Hp) end.
  repeat sm_step; try done. rewrite Hd in *.
  change (unwrap_or VotingSessionData.default (Some d)) with d in *.
  match goal with E : _ !! id = Some ?x |- _ => assert (x = r) as -> by congruence end.
  destruct (VotingSessionData.is_approved d) eqn:Happ.
  - eapply wpp_mono; [by eapply accept_root_spec| |done]. clear Hs. intros [] s1 (X1&P1&slot&Hf&Hle&Hs).
    repeat sm_step. eexists _, _, _. split; [exact Hs|]. pose proof HB as [HC _]. split.
    + eapply forwards_approved; eauto. destruct (sc_root _ _ _ _ HC _ _ Hr) as ((_&?&_)&_). lia.
    + intros Hst. eapply tiled_approved; eauto.
  - eapply (wpp_sm_quiet _ _ _ _ _ _ Hs); [apply refuse_root_quiet| |done]. clear Hs. intros [] s1 Hs.
    repeat sm_step. eexists _, _, _. split; [exact Hs|]. destruct HB as [HC HS]. split.
    + split; [by apply dropped_core|]. by eapply (stage_ext _ X).
    + intros Hst. apply tiled_dropped. auto.
Qed.
Lemma vote_inv s X V D P J id who agree :
  sm s = (X, V, D, P, J) → sm_inv steady X V D P J → distinct_refs X →
  wpp True ((if agree : bool then process_approve_vote else process_reject_vote)
              (get_root_voting_session id) who) s
    (λ _ s', ∃ X' D' P', sm s' = (X', V, D', P', J) ∧ sm_inv steady X' (V ++ [(who, id, agree)]) D' P' J)
    (λ _ _, True).
Proof.
  intros Hs HI Hdist.
  assert ((if agree : bool then process_approve_vote else process_reject_vote)
              (get_root_voting_session id) who =
    (validate_vote (get_root_voting_session id) who;;
     record_vote id (if agree then VotingSessionData.ayes else VotingSessionData.nays)
       (if agree then VotingSessionData.upd_ayes else VotingSessionData.upd_nays) who;;
     end_voting_if_outcome_reached (get_root_voting_session id) who)) as -> by by destruct agree.
  unfold validate_vote, record_vote, end_voting_if_outcome_reached, session_state. cbn [state is_active end_voting_session get_root_voting_session].
  repeat sm_step; try done.
  match goal with E : root_session_is_active _ _ = true |- _ =>
    destruct (sm_valid _ _ _ _ _ _ Hs _ (sm_active _ _ E)) as (r&d&Hr&Hv&Hd&Hp) end.
  rewrite (sm_state _ _ _ _ _ _ Hs _ _ Hd). repeat sm_step; try done. rewrite Hd in Hs.
  change (unwrap_or VotingSessionData.default (Some d)) with d in *. bool_tac.
  match goal with E : VotingSessionData.has_voted d who = false |- _ => rename E into Hnew end.
  set (X1 := SummaryStorage.upd_VotesRepository (insert id (push_vote agree who d)) X).
  assert (sm s' = (X1, V, D, P, J)) as Hs1 by (rewrite Hs; by destruct agree). clear Hs.
  assert (sm_inv steady X1 (V ++ [(who, id, agree)]) D P J) as HI1.
  { destruct HI as [[HC HS] HT]. split; [split|].
    - by apply (voted_core X V D P id r).
    - by eapply (stage_ext _ X).
    - intros Hst. eapply (tiled_ext X); auto. }
  rewrite (sm_state _ _ _ _ _ _ Hs1 id (push_vote agree who d)) by apply lookup_insert_eq. repeat sm_step.
  destruct (_ && _); [|wpp_step; by eauto 10]. by eapply end_voting_inv.
Qed.

Definition sm_ok s : Prop :=
  sm_inv steady (summary s) (votes_told s) (validated s) (passed s) (refused s).
Lemma sm_ok_intro s X V D P J : sm s = (X, V, D, P, J) → sm_inv steady X V D P J → sm_ok s.
Proof. unfold sm_ok. by intros [= <- <- <- <- <-]. Qed.
(** Changes of what the invariant does not speak of. *)
Lemma inv_same X X' V D P J :
  sm_inv steady X V D P J →
  SummaryStorage.Roots X' = SummaryStorage.Roots X →
  SummaryStorage.VotesRepository X' = SummaryStorage.VotesRepository X →
  SummaryStorage.PendingApproval X' = SummaryStorage.PendingApproval X →
  SummaryStorage.TotalIngresses X' = SummaryStorage.TotalIngresses X →
  SummaryStorage.TxIdToRoot X' = SummaryStorage.TxIdToRoot X →
  SummaryStorage.AnchorRootsCounter X' = SummaryStorage.AnchorRootsCounter X →
  SummaryStorage.AnchorRoots X' = SummaryStorage.AnchorRoots X →
  SummaryStorage.NextBlockToProcess X' = SummaryStorage.NextBlockToProcess X →
  SummaryStorage.ExternalValidationRef X' = SummaryStorage.ExternalValidationRef X →
  SummaryStorage.ExternalValidationStatus X' = SummaryStorage.ExternalValidationStatus X →
  SummaryStorage.PendingAdminReviews X' = SummaryStorage.PendingAdminReviews X →
  SummaryStorage.SchedulePeriod X' = SummaryStorage.SchedulePeriod X ∨
  (MIN_SCHEDULE_PERIOD <= SummaryStorage.SchedulePeriod X' ∧
   (steady = true → SummaryStorage.PendingApproval X = ∅)) →
  sm_inv steady X' V D P J.
Proof.
  intros [[HC HS] HT] E1 E2 E3 E4 E5 E6 E7 E8 E9 E10 E11 Hper. split; [split|].
  - destruct HC. constructor; rewrite ?E1, ?E2, ?E3, ?E4, ?E5, ?E6, ?E7, ?E8; try done.
    + unfold anchor_at. rewrite E1. done.
    + destruct Hper as [-> | [? _]]; done.
  - unfold seen. rewrite E1. by eapply (stage_ext _ X).
  - intros Hst. destruct Hper as [Hper|[_ Hp]]; [eapply (tiled_ext X); auto|].
    eapply (tiled_idle X); auto. by rewrite E3, Hp.
Qed.
Lemma update_slot_number_inv s X V D P J validator :
  sm s = (X, V, D, P, J) → sm_inv steady X V D P J →
  wpp True (update_slot_number validator) s (λ _ s', sm_ok s') (λ _ _, True).
Proof.
  intros Hs HI. unfold update_slot_number. wpp_step.
  eapply (wpp_sm_quiet _ _ _ _ _ _ Hs); [unfold validator_can_advance_slot; leaves_tac| |done].
  clear Hs. intros ? s1 Hs. wpp_step. eapply (wpp_sm_quiet _ _ _ _ _ _ Hs); [apply no_summary_offence_quiet| |done].
  clear Hs. intros ? s2 Hs. repeat sm_step; try done.
  eapply (wpp_sm_quiet _ _ _ _ _ _ Hs); [unfold calculate_primary_validator_for_block, nth_account; leaves_tac| |done].
  clear Hs. intros ? s3 Hs. repeat sm_step; try done. eapply sm_ok_intro; [exact Hs|].
  eapply (inv_same X); cbn; auto.
Qed.

(** ** Every call *)

(** A hash is 32 bytes. *)
Definition summary_call_typed (call : SummaryCall) : Prop :=
  match call with Call_record_summary_calculation _ root_hash _ _ _ => is_ref root_hash | _ => True end.
Definition reschedules (call : SummaryCall) : bool :=
  match call with
  | Call_set_periods _ _ | Call_set_summary_admin_config (SummaryAdminConfig.SchedulePeriod _) => true
  | _ => false
  end.
Lemma get_target_block_spec s X V D P J :
  sm s = (X, V, D, P, J) → sm_inv steady X V D P J →
  wpp True get_target_block s
    (λ n s', s' = s ∧ n = target X ∧ SummaryStorage.NextBlockToProcess X <= n <= u32_max) (λ _ _, True).
Proof.
  intros Hs [[HC _] _]. pose proof (sc_next _ _ _ _ HC). pose proof (sc_period _ _ _ _ HC).
  unfold get_target_block, target, MIN_SCHEDULE_PERIOD in *. repeat sm_step; try done.
  match goal with E : safe_add_block_numbers _ _ = Some _ |- _ => apply checked_add_to_Some in E as [-> Hle] end.
  case_bool_decide as Hz.
  - wpp_step. rewrite decide_True by done. split_and!; (done || lia).
  - rewrite decide_False by done. unfold safe_sub_block_numbers. rewrite bool_decide_true by lia. wpp_step; [|done].
    simplify_eq. split_and!; (done || lia).
Qed.
Lemma record_inv s X V D P J origin n root_hash counter validator :
  sm s = (X, V, D, P, J) → sm_inv steady X V D P J →
  SummaryStorage.TotalIngresses X < u64_max → is_ref root_hash →
  wpp True (record_summary_calculation origin n root_hash counter validator) s (λ _ s', sm_ok s') (λ _ _, True).
Proof.
  intros Hs HI Ht Hh. pose proof HI as [[HC HS] HT]. pose proof (sc_total _ _ _ _ HC). pose proof (sc_next _ _ _ _ HC).
  unfold record_summary_calculation, ensure_none. destruct origin; [done..|]. repeat sm_step; try done. bool_tac. subst counter.
  rewrite wrap_small by lia.
  eapply wpp_mono; [by eapply get_target_block_spec| |done]. intros tgt s' (->&->&Htgt). repeat sm_step; try done. bool_tac.
  subst n. eapply sm_ok_intro; [exact Hs|].
  match goal with |- sm_inv _ ?Y _ _ _ _ => change Y with
    (recorded (RootId.mk (RootRange.mk (SummaryStorage.NextBlockToProcess X) (target X))
       (SummaryStorage.TotalIngresses X + 1)) root_hash (Validator.account_id validator) (get_quorum s) a
       (Runtime.block_number s) X) end.
  split.
  - apply recorded_base; try done. split_and!; cbn; lia.
  - intros Hst. apply tiled_recorded; auto.
Qed.
Lemma cleanup_spec s X V D P J id ref :
  sm s = (X, V, D, P, J) →
  wpp True (cleanup_external_validation_data id ref) s
    (λ _ s', sm s' = (cleaned_up id ref X, V, D, P, J)) (λ _ _, False).
Proof. intros Hs. unfold cleanup_external_validation_data. repeat sm_step. exact Hs. Qed.
Lemma admin_resolve_inv s X V D P J origin id accepted :
  sm s = (X, V, D, P, J) → sm_inv steady X V D P J →
  wpp True (admin_resolve_challenge origin id accepted) s (λ _ s', sm_ok s') (λ _ _, True).
Proof.
  intros Hs HI. pose proof HI as [HB HT]. unfold admin_resolve_challenge, ensure_root, get_root_data.
  destruct origin; [|done..]. repeat sm_step; try done. bool_tac.
  match goal with E : _ !! id = Some ?x |- context [ExternalValidationData.external_ref ?x] => rename x into data; rename E into Hdata end.
  match goal with E : SummaryStorage.Roots X !! id = Some ?x |- _ => rename x into r; rename E into Hr end.
  destruct HB as [HC HS]. destruct (ss_review _ _ _ _ HS _ _ Hdata) as (x&Hx&Href&Hrev).
  rewrite (seen_root _ _ _ Hr) in Hx. injection Hx as <-. cbn in Href, Hrev. rewrite Href.
  destruct (reviewed_only _ _ _ _ _ _ HS (seen_root _ _ _ Hr) Hrev) as (Hp&_&Hdue).
  destruct accepted.
  - eapply wpp_mono; [eapply process_accepted_root_spec; [exact Hs|exact Hr|]| |done].
    { intros He. apply andb_true_iff in Hdue as [_ Hd%negb_true_iff]. by apply bool_decide_eq_false in Hd. }
    clear Hs. intros [] s1 (X1&Hpass&Hs). wpp_step. eapply wpp_mono; [by eapply cleanup_spec| |done].
    clear Hs. intros [] s2 Hs. repeat sm_step. eapply sm_ok_intro; [exact Hs|]. split; [by eapply settled_base|].
    intros Hst. eapply (tiled_ext X); auto; by destruct Hpass.
  - wpp_step. wpp_step. eapply wpp_mono; [by eapply cleanup_spec| |done].
    clear Hs. intros [] s2 Hs. repeat sm_step. eapply sm_ok_intro; [exact Hs|]. split; [by eapply refused_base|].
    intros Hst. eapply (tiled_ext X); auto.
Qed.
Lemma set_periods_inv s X V D P J origin schedule voting :
  sm s = (X, V, D, P, J) → sm_inv steady X V D P J → (steady = true → SummaryStorage.PendingApproval X = ∅) →
  wpp True (set_periods origin schedule voting) s (λ _ s', sm_ok s') (λ _ _, True).
Proof.
  intros Hs HI Hp. unfold set_periods, ensure_root, validate_schedule_period, validate_voting_period.
  destruct origin; [|done..]. repeat sm_step; try done. bool_tac. eapply sm_ok_intro; [exact Hs|].
  eapply (inv_same X); cbn; auto.
Qed.
Lemma admin_config_inv s X V D P J origin config :
  sm s = (X, V, D, P, J) → sm_inv steady X V D P J →
  (steady = true → reschedules (Call_set_summary_admin_config config) = true → SummaryStorage.PendingApproval X = ∅) →
  wpp True (set_summary_admin_config origin config) s (λ _ s', sm_ok s') (λ _ _, True).
Proof.
  intros Hs HI Hp. unfold set_summary_admin_config, ensure_root, validate_schedule_period, validate_voting_period.
  destruct origin; [|done..]. destruct config; repeat sm_step; try done; bool_tac; (eapply sm_ok_intro; [exact Hs|]);
    eapply (inv_same X); cbn; auto.
Qed.
Lemma summary_call_inv s origin call :
  sm_ok s → SummaryStorage.TotalIngresses (summary s) < u64_max → distinct_refs (summary s) →
  summary_call_typed call →
  (steady = true → reschedules call = true → SummaryStorage.PendingApproval (summary s) = ∅) →
  wpp True (summary_call origin call) s (λ _ s', sm_ok s') (λ _ _, True).
Proof.
  intros HI Ht Hdist Hty Hsch. set (Hs := eq_refl : sm s = (summary s, votes_told s, validated s, passed s, refused s)).
  clearbody Hs. unfold sm_ok in HI.
  destruct call as [schedule voting|n h c v sig|id v sig|id v sig|id v sig|v sig|ch v sig|config|id ok]; cbn [summary_call].
  - eapply set_periods_inv; eauto.
  - eapply record_inv; eauto.
  - unfold approve_root, get_root_data, ensure_none. destruct origin; [done..|]. repeat sm_step; try done.
    eapply wpp_mono; [by eapply (vote_inv _ _ _ _ _ _ _ _ true)| |done]. clear Hs. intros [] s1 (X&D&P&Hs&HI1). sm_step.
    by eapply sm_ok_intro.
  - unfold reject_root, ensure_none. destruct origin; [done..|]. repeat sm_step; try done.
    eapply wpp_mono; [by eapply (vote_inv _ _ _ _ _ _ _ _ false)| |done]. clear Hs. intros [] s1 (X&D&P&Hs&HI1). sm_step.
    by eapply sm_ok_intro.
  - unfold end_voting_period, ensure_none. destruct origin; [done..|]. wpp_step. wpp_step.
    eapply wpp_mono; [by eapply end_voting_inv| |done]. intros [] s1 (X&D&P&Hs1&HI1). by eapply sm_ok_intro.
  - unfold advance_slot, ensure_none. destruct origin; [done..|]. wpp_step. wpp_step. by eapply update_slot_number_inv.
  - unfold add_challenge, ensure_none. destruct origin; [done..|]. repeat sm_step; try done.
    eapply (wpp_sm_quiet _ _ _ _ _ _ Hs); [apply offence_quiet| |done]. clear Hs. intros [] s1 Hs. wpp_step.
    eapply wpp_mono; [by eapply update_slot_number_inv| |done]. clear Hs. intros [] s2 Hok.
    eapply (wpp_sm_quiet s2 _ _ _ _ _ eq_refl); [by apply quiet_summary_event| |done]. intros [] s3 Hs. by eapply sm_ok_intro.
  - eapply admin_config_inv; eauto.
  - eapply admin_resolve_inv; eauto.
Qed.

(** ** What others tell the pallet *)

Lemma setup_review_spec s X V D P J id proposal_id ref status :
  sm s = (X, V, D, P, J) →
  wpp True (setup_root_for_admin_review id proposal_id ref status) s
    (λ _ s', sm s' = (asked id (ExternalValidationData.mk proposal_id ref status) X, V, D, P, J)) (λ _ _, False).
Proof. intros Hs. unfold setup_root_for_admin_review. repeat sm_step. exact Hs. Qed.
Lemma review_inv s X V D P J ref id proposal_id status :
  sm s = (X, V, D, P, J) → sm_inv steady X V D P J → SummaryStorage.ExternalValidationRef X !! ref = Some id →
  wpp True (setup_root_for_admin_review id proposal_id ref status) s (λ _ s', sm_ok s') (λ _ _, False).
Proof.
  intros Hs [HB HT] Href. destruct (ref_reviewed _ _ _ _ _ _ _ HB Href) as (r&Hr&->&Hrev).
  eapply wpp_mono; [by eapply setup_review_spec| |done]. clear Hs. intros [] s1 Hs. eapply sm_ok_intro; [exact Hs|].
  split; [by eapply asked_base|]. intros Hst. eapply (tiled_ext X); auto.
Qed.
Lemma voting_completed_inv s proposal_id ref result :
  sm_ok s → wpp True (summary_voting_completed proposal_id ref result) s (λ _ s', sm_ok s') (λ _ _, False).
Proof.
  intros HI. set (Hs := eq_refl : sm s = (summary s, votes_told s, validated s, passed s, refused s)).
  clearbody Hs. unfold sm_ok in HI. revert Hs HI.
  generalize (summary s) (votes_told s) (validated s) (passed s) (refused s). intros X V D P J Hs HI.
  unfold summary_voting_completed. do 2 sm_step.
  destruct (SummaryStorage.ExternalValidationRef X !! ref) as [id|] eqn:Href; [|wpp_step; by eapply sm_ok_intro].
  case_match; [|by eapply review_inv].
  pose proof HI as [HB HT]. destruct (ref_reviewed _ _ _ _ _ _ _ HB Href) as (r&Hr&->&Hrev).
  do 2 sm_step. rewrite Hr. do 4 sm_step.
  assert (sm_inv steady (set_status id ExternalValidationEnum.Accepted X) V D P J) as HI1.
  { split; [by eapply status_base|]. intros Hst. eapply (tiled_ext X); auto. }
  eapply wpp_mono; [eapply process_accepted_root_spec; [exact Hs|exact Hr|]| |].
  - destruct HB as [HC HS]. destruct (reviewed_only _ _ _ _ _ _ HS (seen_root _ _ _ Hr) Hrev) as (_&_&Hdue).
    intros He. apply andb_true_iff in Hdue as [_ Hd%negb_true_iff]. by apply bool_decide_eq_false in Hd.
  - clear Hs. intros [] s1 (X1&Hpass&Hs). eapply wpp_mono; [by eapply cleanup_spec| |done].
    clear Hs. intros [] s2 Hs. eapply sm_ok_intro; [exact Hs|]. destruct HI1 as [HB1 HT1].
    split; [by eapply (settled_base (set_status id ExternalValidationEnum.Accepted X))|].
    intros Hst. eapply (tiled_ext X); auto; by destruct Hpass.
  - intros e s1 Hs1. wpp_step. eapply sm_ok_intro; [exact Hs1|exact HI1].
Qed.
Lemma cancelled_inv s proposal_id ref :
  sm_ok s → wpp True (summary_cancelled proposal_id ref) s (λ _ s', sm_ok s') (λ _ _, False).
Proof.
  intros HI. unfold summary_cancelled. do 2 wpp_step.
  destruct (get_root_id_by_external_ref ref s) as [id|] eqn:Href; [|by wpp_step]. by eapply review_inv.
Qed.
Lemma process_result_inv s tx_id caller succeeded :
  sm_ok s → wpp True (summary_process_result tx_id caller succeeded) s (λ _ s', sm_ok s') (λ _ _, False).
Proof.
  intros HI. unfold summary_process_result.
  set (Hs := eq_refl : sm s = (summary s, votes_told s, validated s, passed s, refused s)). clearbody Hs. do 2 sm_step.
  destruct (SummaryStorage.TxIdToRoot (summary s) !! tx_id) as [id|] eqn:Htx; [|by wpp_step].
  destruct (_ && succeeded); [|by wpp_step]. repeat sm_step. eapply sm_ok_intro; [exact Hs|]. destruct HI as [HB HT].
  split; [by apply finalised_base|]. intros Hst. eapply (tiled_ext (summary s)); auto.
Qed.

(** ** What is reachable *)

(** A step of the chain, as the pallet sees it: one of its calls, what the watchtowers or the
    bridge tell it, or anything that leaves it alone. *)
Inductive summary_step s s' : Prop :=
  | Sum_call origin call result :
      summary_call_typed call →
      (steady = true → reschedules call = true → SummaryStorage.PendingApproval (summary s) = ∅) →
      transactional (summary_call origin call) s = (result, s') → summary_step s s'
  | Sum_completed proposal_id ref result :
      summary_voting_completed proposal_id ref result s = (Ok (), s') → summary_step s s'
  | Sum_cancelled proposal_id ref :
      summary_cancelled proposal_id ref s = (Ok (), s') → summary_step s s'
  | Sum_result tx_id caller succeeded :
      summary_process_result tx_id caller succeeded s = (Ok (), s') → summary_step s s'
  | Sum_elsewhere : sm s' = sm s → summary_step s s'.
(** Genesis. *)
Definition summary_start s : Prop :=
  ∃ s0 schedule_period voting_period, summary s0 = SummaryStorage.empty ∧ summary_events s0 = [] ∧
    build_summary schedule_period voting_period s0 = (Ok (), s).
Inductive summary_reachable : Runtime.t → Prop :=
  | Sum_start s : summary_start s → summary_reachable s
  | Sum_step s s' :
      summary_reachable s → SummaryStorage.TotalIngresses (summary s) < u64_max → distinct_refs (summary s) →
      summary_step s s' → summary_reachable s'.
Lemma wpp_run {A} (m : Dispatch A) s (o : outcome DispatchError A) s' (Q : Runtime.t → Prop) :
  wpp True m s (λ _ s', Q s') (λ _ _, False) → m s = (o, s') → (∃ a, o = Ok a) → Q s'.
Proof. unfold wpp. intros Hw Hm [a ->]. by rewrite Hm in Hw. Qed.
Lemma summary_step_inv s s' :
  sm_ok s → SummaryStorage.TotalIngresses (summary s) < u64_max → distinct_refs (summary s) →
  summary_step s s' → sm_ok s'.
Proof.
  intros Hok Ht Hdist [origin call r Hty Hsch Hrun|pid ref res Hrun|pid ref Hrun|tx caller b Hrun|He].
  - pose proof (summary_call_inv s origin call Hok Ht Hdist Hty Hsch) as Hw. revert Hrun Hw. unfold transactional, wpp.
    destruct (summary_call origin call s) as [[]?]; naive_solver.
  - eapply wpp_run; [by apply voting_completed_inv|done|by eexists].
  - eapply wpp_run; [by apply cancelled_inv|done|by eexists].
  - eapply wpp_run; [by apply process_result_inv|done|by eexists].
  - by eapply sm_ok_intro; [exact He|].
Qed.
Lemma summary_start_inv s : summary_start s → sm_ok s.
Proof.
  intros (s0&schedule&voting&HX&HE&Hrun).
  assert (wpp True (build_summary schedule voting) s0 (λ _ s', sm_ok s') (λ _ _, True)) as Hw;
    [|unfold wpp in Hw; by rewrite Hrun in Hw].
  assert (sm s0 = (SummaryStorage.empty, [], [], [], [])) as Hs.
  { unfold sm, votes_told, validated, passed, refused. by rewrite HX, HE. }
  clear Hrun. unfold build_summary, validate_schedule_period, validate_voting_period.
  repeat sm_step; try done. bool_tac. eapply sm_ok_intro; [exact Hs|]. split; [split|]; constructor; cbn; try done;
    try (intros; by rewrite ?lookup_empty in *; try constructor; done).
  - intros id. rewrite elem_of_nil. split; [done|]. by intros (r&?&_).
  - by intros id ?%not_elem_of_nil.
  - by destruct AutoSubmitSummaries.
  - intros n. destruct AutoSubmitSummaries; [done|]. unfold anchor_at. destruct (decide (0 <= n)); by rewrite ?lookup_nil.
  - by intros id ?%not_elem_of_nil.
Qed.
Lemma summary_reachable_ok s : summary_reachable s → sm_ok s.
Proof. induction 1; eauto using summary_start_inv, summary_step_inv. Qed.



End Operations.

Section Tiling.
Context `{BridgeConfig} `{!BridgeInterfaceNotification} `{!NodeConfig} `{!SummaryConfig}.
Context (W : WatchtowerInterface) `{!ValidatorLaws W}.

(** C26: while the schedule changes only with no root pending, every block before the next one
    to process lies in the range of exactly one validated root. *)
Theorem summary_ranges_tile s n :
  summary_reachable W true s → 0 <= n < SummaryStorage.NextBlockToProcess (summary s) →
  ∃ i id, validated s !! i = Some id ∧ covers id n ∧
    ∀ i' id', validated s !! i' = Some id' → covers id' n → i' = i.
Proof.
  intros Hs Hn. destruct (summary_reachable_ok W true s Hs) as [_ HT]. destruct (HT eq_refl) as [Ht _]. by eapply tiles_cover.
Qed.
End Tiling.

(** ** A run *)

Definition distinct_refsb `{SummaryConfig} (X : SummaryStorage.t) : bool :=
  let l := map_to_list (SummaryStorage.Roots X) in
  forallb (λ x, forallb (λ y,
    negb (N.eqb (ref_of x.1 (RootData.root_hash x.2)) (ref_of y.1 (RootData.root_hash y.2))) ||
    bool_decide (x.1 = y.1)) l) l.
Lemma distinct_refsb_spec `{SummaryConfig} X : distinct_refsb X = true → distinct_refs X.
Proof.
  unfold distinct_refsb. intros Hb id id' r r' Hr Hr' He. rewrite forallb_forall in Hb.
  specialize (Hb (id, r)). rewrite forallb_forall in Hb.
  assert (∀ x : RootId.t * RootData.t, x ∈ map_to_list (SummaryStorage.Roots X) →
    In x (map_to_list (SummaryStorage.Roots X))) as Hin by (intros; by apply list_elem_of_In).
  specialize (Hb (Hin _ (proj2 (elem_of_map_to_list _ _ _) Hr)) (id', r') (Hin _ (proj2 (elem_of_map_to_list _ _ _) Hr'))).
  cbn in Hb. rewrite He, N.eqb_refl in Hb. by apply bool_decide_eq_true in Hb.
Qed.
(** Reports are kept in the list of the offences pallet. *)
Definition add_report (reporter : AccountId) (offenders : list AccountId) :
    @OffencesState demo_config → @OffencesState demo_config := cons (reporter, offenders).
Definition demo_summary_config (external : bool) : @SummaryConfig demo_config := {|
  AdvanceSlotGracePeriod := 5;
  MinBlockAge := 5;
  AutoSubmitSummaries := true;
  InstanceId := 1;
  ExternalValidationEnabled := external;
  hash_of l := (from_le_bytes (take 31 l) mod 2 ^ 248 + 1)%N;
  is_known_summary_offence _ _ _ := false;
  report_summary_offence reporter offenders _ _ _ := add_report reporter offenders;
|}.

Section Witness.
#[local] Existing Instance demo_config.
#[local] Existing Instance token_notification.
#[local] Existing Instance demo_summary_config.
#[local] Instance no_external : SummaryConfig := demo_summary_config false.
#[local] Instance noop : WatchtowerInterface := noop_watchtower.
#[local] Instance noop_laws : ValidatorLaws noop.
Proof. constructor. intros who req. apply leaves_ret. Qed.

Definition sum_call (origin : Origin) (call : SummaryCall) (s : Runtime.t) : Runtime.t :=
  (transactional (summary_call origin call) s).2.
(** The slots are of 30 blocks.  Validator 1 records the first root, 2 and 3 approve it. *)
Definition demo_summary_start : Runtime.t := (build_summary 30 25 demo_staked).2.
Definition record_call (n : Z) (hash : H256) (counter : Z) : SummaryCall :=
  Call_record_summary_calculation n hash counter (Validator.mk 1 11) 11%N.
Definition approve_call (id : RootId.t) (who : N) : SummaryCall :=
  Call_approve_root id (Validator.mk who (10 + who)) (10 + who)%N.
Definition root_1 : RootId.t := RootId.mk (RootRange.mk 0 30) 1.
Definition demo_recorded : Runtime.t := sum_call NoOrigin (record_call 30 77%N 1) demo_summary_start.
Definition demo_validated : Runtime.t :=
  sum_call NoOrigin (approve_call root_1 3) (sum_call NoOrigin (approve_call root_1 2) demo_recorded).
Lemma demo_validated_ok :
  validated demo_validated = [root_1] ∧ passed demo_validated = [root_1] ∧
  voters_on (votes_told demo_validated) root_1 true = [2%N; 3%N] ∧
  SummaryStorage.NextBlockToProcess (summary demo_validated) = 31.
Proof. split_and!; vm_compute; reflexivity. Qed.

Lemma demo_sum_reach steady s origin call :
  summary_reachable noop steady s → summary_call_typed call → reschedules call = false →
  bool_decide (SummaryStorage.TotalIngresses (summary s) < u64_max) = true → distinct_refsb (summary s) = true →
  summary_reachable noop steady (sum_call origin call s).
Proof.
  intros Hs Hty Hre Ht%bool_decide_eq_true Hd%distinct_refsb_spec. eapply Sum_step; [exact Hs|exact Ht|exact Hd|].
  eapply Sum_call; [exact Hty| |apply surjective_pairing]. intros _. by rewrite Hre.
Qed.
Lemma demo_summary_start_reach steady : summary_reachable noop steady demo_summary_start.
Proof.
  apply Sum_start. exists demo_staked, 30, 25. split_and!; [vm_compute; reflexivity..|].
  apply ran_ok. vm_compute. reflexivity.
Qed.
Lemma demo_validated_reach steady : summary_reachable noop steady demo_validated.
Proof.
  apply demo_sum_reach; [|exact I|reflexivity|vm_compute; reflexivity..].
  apply demo_sum_reach; [|exact I|reflexivity|vm_compute; reflexivity..].
  apply demo_sum_reach; [|vm_compute; reflexivity|reflexivity|vm_compute; reflexivity..]. apply demo_summary_start_reach.
Qed.
Lemma demo_root_1 :
  ∃ r, try_get_root_data root_1 demo_validated = Some r ∧ RootData.is_validated r = true ∧
    RootData.root_hash r = 77%N ∧ VotingSessionData.threshold (get_vote root_1 demo_validated) = 2.
Proof. eexists. split_and!; vm_compute; reflexivity. Qed.
Lemma demo_next : SummaryStorage.NextBlockToProcess (summary demo_validated) = 31.
Proof. vm_compute. reflexivity. Qed.
Lemma summary_ranges_tile_witness :
  ∃ i id, validated demo_validated !! i = Some id ∧ covers id 17.
Proof.
  destruct (summary_ranges_tile noop demo_validated 17 (demo_validated_reach true)) as (i&id&Hi&Hc&_).
  - rewrite demo_next. lia.
  - exists i, id. split; [exact Hi|exact Hc].
Defined.

(** When the schedule changes while a root is pending, a second root with the same first block
    can be recorded; both can be validated, and the next block to process goes back. *)
Definition root_2 : RootId.t := RootId.mk (RootRange.mk 0 40) 2.
Definition demo_rescheduled : Runtime.t :=
  sum_call NoOrigin (record_call 40 78%N 2) (sum_call Root (Call_set_periods 40 25) demo_recorded).
Definition demo_later_range : Runtime.t :=
  sum_call NoOrigin (approve_call root_2 3) (sum_call NoOrigin (approve_call root_2 2) demo_rescheduled).
Definition demo_overlap : Runtime.t :=
  sum_call NoOrigin (approve_call root_1 3) (sum_call NoOrigin (approve_call root_1 2) demo_later_range).
Lemma rescheduled_ranges_overlap :
  SummaryStorage.NextBlockToProcess (summary demo_later_range) = 41 ∧
  SummaryStorage.NextBlockToProcess (summary demo_overlap) = 31 ∧
  validated demo_overlap = [root_2; root_1] ∧ passed demo_overlap = [root_2; root_1].
Proof. split_and!; vm_compute; reflexivity. Qed.
End Witness.
