(* ===== verification/ValidationProps.v ===== *)
(** * Roots and watchtowers together

    The wiring of [runtime/avn/src/configs/mod.rs]: the summary pallet submits approved
    roots to the watchtowers, which tell it and the summary watchtower what becomes of them.
    The invariants of both pallets hold together, and every root that waits for the
    watchtowers has a proposal that is voted on or waits for its turn. *)

From S2P Require Import Prelude Frames Slices Bytes EventTypes EventParsing EventDiscovery EthTypes.
From S2P Require Import RuntimeErrors NodeTypes SummaryTypes BridgeTypes Avn BridgeExamples.
From S2P Require Import EthBridge BridgeEvents TokenManager NodeStake NodeRewards NodeManager Anchor NodeExamples NodeProps AvnProps Watchtower WatchtowerProps.
From S2P Require Import Summary SummaryWorker SummaryInv SummaryProps.

(** ** The wiring *)

Section Wiring.
Context `{BridgeConfig} `{!BridgeInterfaceNotification} `{!NodeConfig} `{!WatchtowerConfig} `{!SummaryConfig}.

(** [type WatchtowerHooks = (Summary, SummaryWatchtower)]. *)
Definition runtime_hooks : WatchtowerHooks := hooks_tuple [summary_hooks; summary_watchtower_hooks].
(** [type ExternalValidator = Watchtower]. *)
Definition runtime_validator : WatchtowerInterface :=
  @watchtower_interface _ _ runtime_hooks.

(** What both pallets see of the state. *)
Definition jv (s : Runtime.t) : WatchtowerStorage.t * list WatchtowerEvent.t * SummaryStorage.t :=
  (wt s, summary s).

Lemma event_jv (e : RuntimeEvent) :
  (∀ e', e ≠ WatchtowerEvent_ e') → leaves jv (deposit_event e).
Proof.
  intros He. apply leaves_modify. intros s. unfold jv, wt, wt_events. cbn. rewrite omap_app.
  destruct e; cbn; rewrite ?app_nil_r; try done. by edestruct He.
Qed.
Lemma publish_jv f params caller : leaves jv (publish f params caller).
Proof.
  assert (∀ e, leaves jv (bridge_event e)) by (intros e; by apply event_jv).
  pose proof (@bridge_result_leaves). pose proof (@run_leaves).
  unfold publish, add_new_send_request, use_next_tx_id, queue_request, set_up_active_tx, assign_sender,
    advance_primary_validator_for_sending, put_primary, nth_account, put_request_queue, put_active_request.
  leaves_tac.
Qed.
Lemma offence_jv reporter offenders offence :
  leaves jv (create_and_report_summary_offence reporter offenders offence).
Proof. unfold create_and_report_summary_offence. leaves_tac. by apply event_jv. Qed.
(** The summary watchtower keeps its own record. *)
Lemma new_proposal_jv id p : leaves jv (process_new_proposal id p).
Proof.
  assert (∀ e, leaves jv (summary_watchtower_event e)) by (intros e; by apply event_jv).
  unfold process_new_proposal, remove_root_if_needed, put_root_info. leaves_tac.
Qed.
Lemma forget_jv id : leaves jv (forget_proposal id).
Proof. unfold forget_proposal, put_root_info. leaves_tac. Qed.
Lemma submitted_jv id p : leaves jv (on_proposal_submitted (WatchtowerHooks := runtime_hooks) id p).
Proof. pose proof new_proposal_jv. cbn. leaves_tac. Qed.
End Wiring.

Section Steps.
Context `{BridgeConfig} `{!WatchtowerConfig} `{!SummaryConfig}.
Implicit Types (s : Runtime.t) (W : WatchtowerStorage.t) (X : SummaryStorage.t).
Context {P : Prop} s W E X (Hs : jv s = (W, E, X)).

Lemma jv_wt : wt s = (W, E).
Proof using Hs. by injection Hs as <- <- <-. Qed.
Lemma jv_summary : summary s = X.
Proof using Hs. by injection Hs as <- <- <-. Qed.
Lemma wpp_jv_summary f (Q : unit → Runtime.t → Prop) R :
  (∀ s', jv s' = (W, E, f X) → Q () s') → wpp P (summary_modify f) s Q R.
Proof using Hs. injection Hs as <- <- <-. intros HQ. apply wpp_modify, HQ. unfold jv. by rewrite summary_modified. Qed.
Lemma wpp_jv_watchtower f (Q : unit → Runtime.t → Prop) R :
  (∀ s', jv s' = (f W, E, X) → Q () s') → wpp P (wt_modify f) s Q R.
Proof using Hs. injection Hs as <- <- <-. intros HQ. by apply wpp_modify, HQ. Qed.
Lemma wpp_jv_told e (Q : unit → Runtime.t → Prop) R :
  (∀ s', jv s' = (W, E ++ [e], X) → Q () s') → wpp P (wt_event e) s Q R.
Proof using Hs.
  injection Hs as <- <- <-. intros HQ. apply wpp_modify, HQ. unfold jv, wt, wt_events. cbn. by rewrite omap_app.
Qed.
Lemma wpp_jv_event e (Q : unit → Runtime.t → Prop) R :
  (∀ s', jv s' = (W, E, X) → Q () s') → wpp P (summary_event e) s Q R.
Proof using Hs.
  intros HQ. apply wpp_modify, HQ. etransitivity; [|exact Hs].
  by apply (event_jv (SummaryEvent_ InstanceId e)).
Qed.
Lemma wpp_jv_get {A} (f : SummaryStorage.t → A) (Q : A → Runtime.t → Prop) R :
  Q (f X) s → wpp P (summary_get f) s Q R.
Proof using Hs. injection Hs as <- <- <-. intros HQ. by apply wpp_gets. Qed.
Lemma wpp_jv_read {A} (f : WatchtowerStorage.t → A) (Q : A → Runtime.t → Prop) R :
  Q (f W) s → wpp P (wt_get f) s Q R.
Proof using Hs. injection Hs as <- <- <-. intros HQ. by apply wpp_gets. Qed.
Lemma wpp_jv_quiet {A} (m : Dispatch A) (Q : A → Runtime.t → Prop) R :
  leaves jv m → (m s).1 ≠ Panic ∨ P → (∀ a s', jv s' = (W, E, X) → Q a s') → (∀ e s', jv s' = (W, E, X) → R e s') →
  wpp P m s Q R.
Proof using Hs. intros Hl Hp. eapply wpp_leaves; [done|exact Hs|done]. Qed.
End Steps.

(** Follow an operation of either pallet; of each state its [jv] is remembered. *)
Ltac js_step :=
  match goal with
  | Hs : jv ?s = _ |- wpp _ (summary_modify _) ?s _ _ => apply (wpp_jv_summary _ _ _ _ Hs); clear Hs; intros ? Hs
  | Hs : jv ?s = _ |- wpp _ (mutate_root _ _) ?s _ _ => apply (wpp_jv_summary _ _ _ _ Hs); clear Hs; intros ? Hs
  | Hs : jv ?s = _ |- wpp _ (set_summary_status _ _) ?s _ _ => apply (wpp_jv_summary _ _ _ _ Hs); clear Hs; intros ? Hs
  | Hs : jv ?s = _ |- wpp _ (wt_modify _) ?s _ _ => apply (wpp_jv_watchtower _ _ _ _ Hs); clear Hs; intros ? Hs
  | Hs : jv ?s = _ |- wpp _ (put_status _ _) ?s _ _ => apply (wpp_jv_watchtower _ _ _ _ Hs); clear Hs; intros ? Hs
  | Hs : jv ?s = _ |- wpp _ (put_proposal _ _) ?s _ _ => apply (wpp_jv_watchtower _ _ _ _ Hs); clear Hs; intros ? Hs
  | Hs : jv ?s = _ |- wpp _ (put_active _) ?s _ _ => apply (wpp_jv_watchtower _ _ _ _ Hs); clear Hs; intros ? Hs
  | Hs : jv ?s = _ |- wpp _ (wt_event _) ?s _ _ => apply (wpp_jv_told _ _ _ _ Hs); clear Hs; intros ? Hs
  | Hs : jv ?s = _ |- wpp _ (summary_event _) ?s _ _ => apply (wpp_jv_event _ _ _ _ Hs); clear Hs; intros ? Hs
  | Hs : jv ?s = _ |- wpp _ (summary_get _) ?s _ _ => apply (wpp_jv_get _ _ _ _ Hs)
  | Hs : jv ?s = _ |- wpp _ (wt_get _) ?s _ _ => apply (wpp_jv_read _ _ _ _ Hs)
  | Hs : jv ?s = _ |- wpp _ (gets (proposals _)) ?s _ _ =>
      apply wpp_gets; rewrite (wt_proposals _ _ _ (jv_wt _ _ _ _ Hs))
  | |- _ => wpp_step
  end.

(** ** Each pallet leaves the other alone *)

Section Laws.
Context `{BridgeConfig} `{!BridgeInterfaceNotification} `{!NodeConfig} `{!WatchtowerConfig} `{!SummaryConfig}.

Lemma jv_leaves_wt {A} (m : Dispatch A) : leaves jv m → leaves wt m.
Proof. intros Hm s. exact (f_equal fst (Hm s)). Qed.
Lemma completed_wt id ref result : leaves wt (summary_voting_completed id ref result).
Proof.
  assert (∀ e, leaves wt (summary_event e)) by (intros e; by apply jv_leaves_wt, event_jv).
  assert (∀ f params caller, leaves wt (publish f params caller)) by (intros; apply jv_leaves_wt, publish_jv).
  unfold summary_voting_completed, setup_root_for_admin_review, cleanup_external_validation_data, process_accepted_root,
    send_root_to_ethereum, get_next_approved_root_id, get_root_data, mutate_root, set_summary_status, summary_modify.
  leaves_tac.
Qed.
Lemma hooks_completed_ok id ref result s :
  wpp True (summary_voting_completed id ref result) s (λ _ _, True) (λ _ _, False).
Proof.
  unfold summary_voting_completed, setup_root_for_admin_review, cleanup_external_validation_data, set_summary_status,
    summary_modify, summary_event, deposit_event. do 2 wpp_step.
  destruct (get_root_id_by_external_ref ref s) as [root_id|]; [|by wpp_step].
  case_match; [|by repeat wpp_step]. do 2 wpp_step. destruct (try_get_root_data root_id s) as [r|]; [|by wpp_step].
  do 4 wpp_step. unfold wpp. destruct (process_accepted_root _ _ _) as [[]?]; [by repeat wpp_step..|done].
Qed.
Lemma new_proposal_calm id p s : wpp False (process_new_proposal id p) s (λ _ _, True) (λ _ _, True).
Proof.
  unfold process_new_proposal, remove_root_if_needed, put_root_info, summary_watchtower_event, deposit_event.
  destruct (Proposal.payload p) as [data|data]; [|by repeat wpp_step]. repeat wpp_step; [|done].
  destruct a as [root_id root_hash]. repeat wpp_step; [|done]. case_match; [case_match|]; repeat wpp_step; done.
Qed.
#[export] Instance runtime_hook_laws : HookLaws runtime_hooks.
Proof.
  constructor.
  - intros id p. apply jv_leaves_wt, submitted_jv.
  - intros id p s.
    assert (wpp False (on_proposal_submitted (WatchtowerHooks := runtime_hooks) id p) s (λ _ _, True) (λ _ _, False)) as Hw.
    { cbn. repeat wpp_step. destruct (Proposal.source p) as [|[]]; try (by repeat wpp_step);
        (eapply wpp_mono; [apply new_proposal_calm|intros; by repeat wpp_step..]). }
    revert Hw. unfold wpp. by destruct (on_proposal_submitted id p s) as [[[]|e|] s'].
  - intros id r st. cbn. pose proof completed_wt. assert (∀ id, leaves wt (forget_proposal id)).
    { intros j. apply jv_leaves_wt, forget_jv. } leaves_tac.
  - intros id r st s.
    assert (wpp True (on_voting_completed (WatchtowerHooks := runtime_hooks) id r st) s (λ _ _, True) (λ _ _, False)) as Hw.
    { cbn. wpp_step. eapply wpp_mono; [apply hooks_completed_ok| |done]. intros _ s1 _. unfold forget_proposal, put_root_info.
      repeat wpp_step. repeat case_match; by repeat wpp_step. }
    revert Hw. unfold wpp. destruct (on_voting_completed id r st s) as [[[]|e|] s']; auto. done.
Qed.
Lemma submitted_sm id p : leaves sm (on_proposal_submitted (WatchtowerHooks := runtime_hooks) id p).
Proof.
  assert (∀ e, leaves sm (summary_watchtower_event e)) by (intros e; by apply other_event).
  cbn. unfold process_new_proposal, remove_root_if_needed, put_root_info. leaves_tac.
Qed.
#[export] Instance runtime_validator_laws : ValidatorLaws runtime_validator.
Proof.
  constructor. intros who req. cbn.
  assert (∀ e, leaves sm (wt_event e)) by (intros e; by apply other_event). pose proof submitted_sm.
  unfold add_proposal, to_proposal, to_payload, enqueue, put_status, put_proposal, put_active, wt_modify, wt_get.
  leaves_tac.
Qed.
End Laws.

(** ** Roots that wait for the watchtowers *)

Section Followed.
Context `{BridgeConfig} `{!BridgeInterfaceNotification} `{!NodeConfig} `{!WatchtowerConfig} `{!SummaryConfig}.
Implicit Types (s : Runtime.t) (W : WatchtowerStorage.t) (X : SummaryStorage.t).

(** A proposal with this reference is voted on, or waits for its turn. *)
Definition live W (ref : H256) : Prop :=
  ∃ proposal_id p st, WatchtowerStorage.Proposals W !! proposal_id = Some p ∧
    Proposal.external_ref p = ref ∧ WatchtowerStorage.ProposalStatus W !! proposal_id = Some st ∧
    (st = ProposalStatusEnum.Active ∨ st = ProposalStatusEnum.Queued).
(** The references of the roots in validation. *)
Definition awaits X (ref : H256) : Prop :=
  ∃ id r, SummaryStorage.Roots X !! id = Some r ∧ ref = ref_of id (RootData.root_hash r) ∧
    SummaryStorage.ExternalValidationStatus X !! id = Some ExternalValidationEnum.ValidationInProgress.
Definition followed W X : Prop := ∀ ref, awaits X ref → live W ref.

Lemma live_kept W W' ref :
  (∀ (id : ProposalId) p, WatchtowerStorage.Proposals W !! id = Some p → Proposal.external_ref p = ref →
     ∀ st, WatchtowerStorage.ProposalStatus W !! id = Some st →
     st = ProposalStatusEnum.Active ∨ st = ProposalStatusEnum.Queued →
     ∃ p' st', WatchtowerStorage.Proposals W' !! id = Some p' ∧ Proposal.external_ref p' = ref ∧
       WatchtowerStorage.ProposalStatus W' !! id = Some st' ∧
       (st' = ProposalStatusEnum.Active ∨ st' = ProposalStatusEnum.Queued)) →
  live W ref → live W' ref.
Proof. intros Hk (id&p&st&Hp&Hr&Hst&Ha). destruct (Hk id p Hp Hr st Hst Ha) as (p'&st'&?&?&?&?). by exists id, p', st'. Qed.
Lemma live_ext W W' ref :
  WatchtowerStorage.Proposals W' = WatchtowerStorage.Proposals W →
  WatchtowerStorage.ProposalStatus W' = WatchtowerStorage.ProposalStatus W → live W ref → live W' ref.
Proof. unfold live. by intros -> ->. Qed.
Lemma followed_less W W' X X' :
  followed W X → (∀ ref, live W ref → awaits X' ref → live W' ref) → (∀ ref, awaits X' ref → awaits X ref) →
  followed W' X'.
Proof. intros Hf Hl Ha ref Hr. auto. Qed.
(** A change of the summary pallet alone that starts no validation. *)
Lemma awaits_same X X' ref :
  (∀ (id : RootId.t) r', SummaryStorage.Roots X' !! id = Some r' →
     SummaryStorage.ExternalValidationStatus X' !! id = Some ExternalValidationEnum.ValidationInProgress →
     SummaryStorage.ExternalValidationStatus X !! id = Some ExternalValidationEnum.ValidationInProgress ∧
     ∃ r, SummaryStorage.Roots X !! id = Some r ∧ RootData.root_hash r = RootData.root_hash r') →
  awaits X' ref → awaits X ref.
Proof.
  intros Hk (id&r'&Hr'&->&Hst). destruct (Hk id r' Hr' Hst) as (?&r&?&He). exists id, r. by rewrite He.
Qed.
Lemma awaits_on_root X (id : RootId.t) f r ref :
  SummaryStorage.Roots X !! id = Some r → (∀ r, RootData.root_hash (f r) = RootData.root_hash r) →
  awaits (on_root id f X) ref → awaits X ref.
Proof.
  intros Hr Hf. apply awaits_same. intros j r'. cbn. at_key j id; [|by eauto]. rewrite Hr. intros [= <-] Hst.
  split; [done|]. exists r. by rewrite Hf.
Qed.
Lemma awaits_ext X X' ref :
  SummaryStorage.Roots X' = SummaryStorage.Roots X →
  SummaryStorage.ExternalValidationStatus X' = SummaryStorage.ExternalValidationStatus X →
  awaits X' ref → awaits X ref.
Proof. unfold awaits. by intros -> ->. Qed.

(** ** A proposal is added *)

#[local] Instance hooks : WatchtowerHooks := runtime_hooks.
Lemma wpp_true {A} (P : Prop) (m : Dispatch A) s Q R : wpp P m s Q R → wpp True m s Q R.
Proof. unfold wpp. by destruct (m s) as [[] ?]. Qed.
Lemma live_submit W id p st ref :
  WatchtowerStorage.Proposals W !! id = None → live W ref → live (submit id p st W) ref.
Proof.
  intros Hid. apply live_kept. intros j q Hq Href st' Hst Ha. exists q, st'. cbn.
  rewrite !lookup_insert_ne by congruence. done.
Qed.
Lemma added s W E X p st (Q : unit → Runtime.t → Prop) :
  let id := generate_id p in
  jv s = (W, E, X) → WatchtowerStorage.Proposals W !! id = None →
  st = ProposalStatusEnum.Active ∨ st = ProposalStatusEnum.Queued →
  (∀ s' W' E', jv s' = (W', E', X) → live W' (Proposal.external_ref p) → (∀ ref, live W ref → live W' ref) → Q () s') →
  wpp True (put_status id st;; put_proposal id p;;
      wt_modify (WatchtowerStorage.upd_ExternalRef (insert (Proposal.external_ref p) id));;
      (if bool_decide (st = ProposalStatusEnum.Active) then on_proposal_submitted id p else mret ());;
      wt_event (WatchtowerEvent.ProposalSubmitted id (Proposal.external_ref p) st)) s Q (λ _ _, True).
Proof.
  intros id Hs Hid Hst HQ. repeat js_step.
  assert (live (submit id p st W) (Proposal.external_ref p)) as Hnew.
  { exists id, p, st. cbn. by rewrite !lookup_insert_eq. }
  case_bool_decide.
  - eapply (wpp_jv_quiet _ _ _ _ Hs); [apply submitted_jv|by right| |done].
    clear Hs. intros [] s1 Hs. js_step. eapply HQ; [exact Hs|done|]. intros ref. by apply live_submit.
  - repeat js_step. eapply HQ; [exact Hs|done|]. intros ref. by apply live_submit.
Qed.
Lemma enqueue_jv (id : ProposalId) s W E X (Q : unit → Runtime.t → Prop) :
  jv s = (W, E, X) →
  (∀ s' W', jv s' = (W', E, X) → WatchtowerStorage.Proposals W' = WatchtowerStorage.Proposals W →
     WatchtowerStorage.ProposalStatus W' = WatchtowerStorage.ProposalStatus W → Q () s') →
  wpp True (enqueue id) s Q (λ _ _, True).
Proof.
  intros Hs HQ. unfold enqueue. repeat js_step; try done. by eapply HQ.
Qed.
Lemma add_proposal_adds s W E X proposer req :
  jv s = (W, E, X) →
  wpp True (add_proposal proposer req) s
    (λ _ s', ∃ W' E', jv s' = (W', E', X) ∧ live W' (ProposalRequest.external_ref req) ∧
       ∀ ref, live W ref → live W' ref)
    (λ _ _, True).
Proof.
  intros Hs. unfold add_proposal. do 2 js_step. js_step.
  eapply wpp_mono; [eapply wpp_true, (to_proposal_spec runtime_hooks)| |done].
  cbn. intros p s' [-> Hreq]. rewrite <- Hreq. repeat js_step; try done. bool_tac.
  destruct (Proposal.source p) as [|pallet] eqn:Hsrc.
  - js_step. eapply (added _ W E X (Proposal.upd_end_at _ p)); [exact Hs|done|by left|]. eauto 10.
  - do 2 js_step. case_bool_decide as Hact.
    + do 3 js_step. eapply (added _ _ E X (Proposal.upd_end_at _ p)); [exact Hs|done|by left|].
      intros s2 W' E' Hs2 Hl Hk. eexists _, _. split_and!; [exact Hs2|done|]. intros ref Hr. apply Hk. by eapply (live_ext W).
    + js_step. eapply (enqueue_jv _ _ W); [exact Hs|]. clear Hs. intros s2 W2 Hs E1 E2. js_step.
      eapply (added _ W2 E X p); [exact Hs|by rewrite E1|by right|].
      intros s3 W' E' Hs3 Hl Hk. eexists _, _. split_and!; [exact Hs3|done|]. intros ref Hr. apply Hk. by eapply (live_ext W).
Qed.
End Followed.

(** ** The calls of the summary pallet *)

Section SummaryCalls.
Context `{BridgeConfig} `{!BridgeInterfaceNotification} `{!NodeConfig} `{!WatchtowerConfig} `{!WatchtowerLaws} `{!SummaryConfig}.
Implicit Types (s : Runtime.t) (W : WatchtowerStorage.t) (X : SummaryStorage.t) (id : RootId.t).
#[local] Existing Instance hooks.
#[local] Instance validator : WatchtowerInterface := runtime_validator.
#[local] Existing Instance nodes_interface.

(** A hash is 32 bytes. *)
Context (Hhash : ∀ l, is_ref (hash_of l)).
Lemma ref_of_range id h : is_ref (ref_of id h).
Proof using Hhash. rewrite <- ref_of_eq. apply Hhash. Qed.

Definition joint_ok s : Prop := wt_ok s ∧ followed (Runtime.watchtower s) (summary s).
Definition joint W E X : Prop := wt_fine W E ∧ followed W X.
Lemma joint_intro s W E X : jv s = (W, E, X) → joint W E X → joint_ok s.
Proof. unfold joint_ok, wt_ok. by intros [= <- <- <-]. Qed.
Lemma joint_less W E X X' : joint W E X → (∀ ref, awaits X' ref → awaits X ref) → joint W E X'.
Proof. intros [Hw Hf] Ha. split; [done|]. by eapply followed_less; [exact Hf| |]. Qed.
Lemma wpp_and {A} (P : Prop) (m : Dispatch A) s (Q1 Q2 : A → Runtime.t → Prop) (R1 R2 : DispatchError → Runtime.t → Prop) :
  wpp P m s Q1 R1 → wpp P m s Q2 R2 → wpp P m s (λ a s', Q1 a s' ∧ Q2 a s') (λ e s', R1 e s' ∧ R2 e s').
Proof. unfold wpp. by destruct (m s) as [[] ?]. Qed.

Lemma passed_on_joint s W E X id r h :
  jv s = (W, E, X) → SummaryStorage.Roots X !! id = Some r →
  wpp True (process_accepted_root id h) s
    (λ _ s', ∃ X' r', jv s' = (W, E, X') ∧ SummaryStorage.Roots X' !! id = Some r' ∧
       ∀ ref, awaits X' ref → awaits X ref)
    (λ _ s', jv s' = (W, E, X)).
Proof.
  intros Hs Hr. unfold process_accepted_root, get_root_data. do 3 js_step.
  assert (try_get_root_data id s = Some r) as -> by (unfold try_get_root_data; by rewrite (jv_summary _ _ _ _ Hs)).
  js_step; [|done]. simplify_eq. case_bool_decide; [wpp_step; by eauto|]. wpp_step. destruct AutoSubmitSummaries.
  - unfold send_root_to_ethereum. wpp_step. eapply (wpp_jv_quiet _ _ _ _ Hs); [apply publish_jv|by right| |done].
    clear Hs. intros tx s1 Hs. repeat js_step. eexists _, _. split_and!; [exact Hs|by apply lookup_insert_eq|].
    intros ref Ha. eapply (awaits_on_root X id (RootData.upd_tx_id (λ _, Some tx))); [done..|]. by eapply awaits_ext; [| |exact Ha].
  - unfold get_next_approved_root_id. repeat js_step; [|done]. eexists _, _. split_and!; [exact Hs|done|].
    intros ref. by apply awaits_ext.
Qed.
Lemma followed_review W W' X id r :
  followed W X → SummaryStorage.Roots X !! id = Some r → live W' (ref_of id (RootData.root_hash r)) →
  (∀ ref, live W ref → live W' ref) → followed W' (under_review id (RootData.root_hash r) X).
Proof.
  intros Hf Hr Hl Hk ref (j&x&Hx&->&Hst). cbn in Hx, Hst. destruct (decide (j = id)) as [->|Hne].
  - assert (x = r) as -> by congruence. done.
  - rewrite lookup_insert_ne in Hst by done. apply Hk, Hf. by exists j, x.
Qed.
Lemma forwards_joint s W E X id r :
  jv s = (W, E, X) → joint W E X → WatchtowerStorage.Tail W < u64_max →
  SummaryStorage.Roots X !! id = Some r → is_ref (ref_of id (RootData.root_hash r)) →
  wpp True
    (if bool_decide (RootData.root_hash r = empty_root) then mret ()
     else if ExternalValidationEnabled then submit_root_for_external_validation id (RootData.root_hash r)
     else process_accepted_root id (RootData.root_hash r)) s
    (λ _ s', ∃ W' E' X' r', jv s' = (W', E', X') ∧ joint W' E' X' ∧ SummaryStorage.Roots X' !! id = Some r')
    (λ _ _, True).
Proof.
  intros Hs HJ Ht Hr Href. case_bool_decide; [wpp_step; by eauto 10|]. destruct ExternalValidationEnabled.
  - unfold submit_root_for_external_validation. do 2 js_step. set (title := if AutoSubmitSummaries then _ else _).
    destruct title as [title kind]. repeat js_step; [|done].
    eapply wpp_mono; [apply wpp_and; [eapply wpp_true, (add_proposal_fine runtime_hooks)|by eapply add_proposal_adds]| |done].
    + by destruct HJ; eapply wt_ok_intro; [exact (jv_wt _ _ _ _ Hs)|].
    + by rewrite (f_equal fst (jv_wt _ _ _ _ Hs) : Runtime.watchtower s = W).
    + cbn [ProposalRequest.external_ref]. by rewrite ref_of_eq.
    + cbn [ProposalRequest.external_ref]. rewrite ref_of_eq. intros [] s1 (Hok&W'&E'&Hs1&Hl&Hk). clear Hs. rename Hs1 into Hs.
      unfold wt_ok in Hok. rewrite (jv_wt _ _ _ _ Hs) in Hok. repeat js_step.
      eexists _, _, _, _. split_and!; [exact Hs| |exact Hr]. split.
      * exact Hok.
      * by eapply followed_review; [apply HJ|..].
  - eapply wpp_mono; [by eapply passed_on_joint| |done]. intros [] s1 (X'&r'&Hs1&Hr'&Ha). eexists _, _, _, _.
    split_and!; [exact Hs1|by eapply joint_less|done].
Qed.
Lemma accept_joint s W E X reporter id vote r :
  jv s = (W, E, X) → joint W E X → WatchtowerStorage.Tail W < u64_max → SummaryStorage.Roots X !! id = Some r →
  wpp True (accept_root reporter id vote r) s
    (λ _ s', ∃ W' E' X', jv s' = (W', E', X') ∧ joint W' E' X') (λ _ _, True).
Proof using All.
  intros Hs HJ Ht Hr. unfold accept_root. wpp_step.
  eapply wpp_mono; [by eapply forwards_joint; eauto using ref_of_range| |done].
  clear Hs. intros [] s1 (W1&E1&X1&r1&Hs&HJ1&Hr1). wpp_step.
  eapply (wpp_jv_quiet _ _ _ _ Hs); [apply offence_jv|by right| |done]. clear Hs. intros [] s2 Hs.
  repeat js_step; [|done]. eexists _, _, _. split; [exact Hs|]. eapply joint_less; [exact HJ1|]. intros ref Ha.
  eapply (awaits_on_root X1 id (RootData.upd_is_validated (λ _, true))); [done..|]. by eapply awaits_ext; [| |exact Ha].
Qed.
Lemma end_voting_joint s W E X reporter id :
  jv s = (W, E, X) → joint W E X → WatchtowerStorage.Tail W < u64_max →
  wpp True (end_voting reporter id) s
    (λ _ s', ∃ W' E' X', jv s' = (W', E', X') ∧ joint W' E' X') (λ _ _, True).
Proof using All.
  intros Hs HJ Ht. unfold end_voting, get_root_data. repeat js_step; try done.
  rename select (try_get_root_data id s = Some _) into Hr. unfold try_get_root_data in Hr.
  rewrite (jv_summary _ _ _ _ Hs) in Hr. case_match.
  - eapply wpp_mono; [by eapply accept_joint| |done]. clear Hs. intros [] s1 (W1&E1&X1&Hs&HJ1). repeat js_step.
    eexists _, _, _. split; [exact Hs|]. eapply joint_less; [exact HJ1|]. intros ref. by apply awaits_ext.
  - eapply (wpp_jv_quiet _ _ _ _ Hs); [|by right| |done].
    + unfold refuse_root. pose proof offence_jv. leaves_tac.
    + clear Hs. intros [] s1 Hs. repeat js_step. eexists _, _, _. split; [exact Hs|].
      eapply joint_less; [exact HJ|]. intros ref. by apply awaits_ext.
Qed.
Lemma vote_joint s W E X id who agree :
  jv s = (W, E, X) → joint W E X → WatchtowerStorage.Tail W < u64_max →
  wpp True ((if agree : bool then process_approve_vote else process_reject_vote)
              (get_root_voting_session id) who) s
    (λ _ s', ∃ W' E' X', jv s' = (W', E', X') ∧ joint W' E' X') (λ _ _, True).
Proof using All.
  intros Hs HJ Ht.
  assert ((if agree : bool then process_approve_vote else process_reject_vote)
              (get_root_voting_session id) who =
    (validate_vote (get_root_voting_session id) who;;
     record_vote id (if agree then VotingSessionData.ayes else VotingSessionData.nays)
       (if agree then VotingSessionData.upd_ayes else VotingSessionData.upd_nays) who;;
     end_voting_if_outcome_reached (get_root_voting_session id) who)) as -> by by destruct agree.
  unfold end_voting_if_outcome_reached, session_state. wpp_step.
  eapply (wpp_jv_quiet _ _ _ _ Hs); [|by right| |done].
  { unfold validate_vote, session_state. leaves_tac. }
  clear Hs. intros [] s1 Hs. unfold record_vote. repeat js_step; try done.
  cbn [state get_root_voting_session]. destruct (root_session_state id s') as [e|d]; [done|]. repeat js_step.
  assert (joint W E (SummaryStorage.upd_VotesRepository (insert id
    ((if agree then VotingSessionData.upd_ayes else VotingSessionData.upd_nays) (λ l, l ++ [who]) (get_vote id s1))) X)) as HJ1.
  { eapply joint_less; [exact HJ|]. intros ref. by apply awaits_ext. }
  destruct (_ && _); [|wpp_step; eexists _, _, _; split; [exact Hs|exact HJ1]].
  cbn [end_voting_session get_root_voting_session]. eapply end_voting_joint; [exact Hs|exact HJ1|done].
Qed.
Lemma slot_joint s W E X v :
  jv s = (W, E, X) → joint W E X → wpp True (update_slot_number v) s (λ _ s', joint_ok s') (λ _ _, True).
Proof using All.
  intros Hs HJ. unfold update_slot_number. wpp_step.
  eapply (wpp_jv_quiet _ _ _ _ Hs); [unfold validator_can_advance_slot; leaves_tac|by right| |done].
  clear Hs. intros ? s1 Hs. wpp_step. eapply (wpp_jv_quiet _ _ _ _ Hs); [|by right| |done].
  { unfold register_offence_if_no_summary_created_in_slot. pose proof offence_jv. leaves_tac. by apply event_jv. }
  clear Hs. intros ? s2 Hs. repeat js_step; try done.
  eapply (wpp_jv_quiet _ _ _ _ Hs);
    [unfold calculate_primary_validator_for_block, nth_account; leaves_tac|by right| |done].
  clear Hs. intros ? s3 Hs. repeat js_step; try done. eapply joint_intro; [exact Hs|].
  eapply joint_less; [exact HJ|]. intros ref. by apply awaits_ext.
Qed.
Lemma admin_resolve_joint s W E X origin id accepted :
  jv s = (W, E, X) → joint W E X →
  wpp True (admin_resolve_challenge origin id accepted) s (λ _ s', joint_ok s') (λ _ _, True).
Proof using All.
  intros Hs HJ. unfold admin_resolve_challenge, ensure_root, get_root_data. destruct origin; [|done..].
  repeat js_step; try done. rename select (try_get_root_data id s = Some _) into Hr. unfold try_get_root_data in Hr.
  rewrite (jv_summary _ _ _ _ Hs) in Hr.
  assert (wpp True (if accepted then process_accepted_root id (RootData.root_hash a0) else mret ()) s
    (λ _ s', ∃ X', jv s' = (W, E, X') ∧ ∀ ref, awaits X' ref → awaits X ref) (λ _ _, True)) as Hpass.
  { destruct accepted; [|wpp_step; by eauto]. eapply wpp_mono; [by eapply passed_on_joint| |done].
    intros [] s1 (X'&r'&Hs1&_&Ha). eauto. }
  eapply wpp_mono; [exact Hpass| |done]. clear Hs. intros [] s1 (X'&Hs&Ha).
  unfold cleanup_external_validation_data. repeat js_step. eapply joint_intro; [exact Hs|]. eapply joint_less; [exact HJ|].
  intros ref Hw. apply Ha. revert Hw. apply awaits_same. cbn. intros j x Hx [_ Hst]%lookup_delete_Some. eauto.
Qed.
Lemma record_joint s W E X V D P J origin n root_hash counter v :
  jv s = (W, E, X) → joint W E X → sm_base X V D P J → SummaryStorage.TotalIngresses X < u64_max →
  wpp True (record_summary_calculation origin n root_hash counter v) s (λ _ s', joint_ok s') (λ _ _, True).
Proof using All.
  intros Hs HJ [HC HS] Ht. pose proof (sc_total _ _ _ _ HC).
  unfold record_summary_calculation, ensure_none, get_target_block. destruct origin; [done..|].
  repeat js_step; try done. bool_tac. subst counter. rewrite wrap_small by lia.
  eapply (wpp_jv_quiet _ _ _ _ Hs); [case_match; leaves_tac|by right| |done]. clear Hs. intros target s1 Hs.
  repeat js_step; try done. eapply joint_intro; [exact Hs|]. eapply joint_less; [exact HJ|].
  intros ref. apply awaits_same. cbn. intros j x. set (new := RootId.mk _ _). at_key j new; [|by eauto].
  intros _ Hst. assert (SummaryStorage.Roots X !! new = None) as Hnew by by eapply sc_new.
  rewrite (ss_no_status _ _ _ _ HS) in Hst; [done|]. unfold seen. by rewrite lookup_fmap, Hnew.
Qed.
(** The calls on periods touch neither roots nor validations. *)
Lemma config_joint s W E X origin call :
  jv s = (W, E, X) → joint W E X →
  match call with Call_set_periods _ _ | Call_set_summary_admin_config _ => True | _ => False end →
  wpp True (summary_call origin call) s (λ _ s', joint_ok s') (λ _ _, True).
Proof using All.
  intros Hs HJ Hc. destruct call as [schedule voting| | | | | | |config|]; try done; cbn [summary_call];
    unfold set_periods, set_summary_admin_config, ensure_root, validate_schedule_period, validate_voting_period;
    (destruct origin; [|done..]); try destruct config; repeat js_step; try done;
    (eapply joint_intro; [exact Hs|]); (eapply joint_less; [exact HJ|]); intros ref; by apply awaits_ext.
Qed.
Lemma summary_call_joint steady s origin call :
  joint_ok s → sm_ok steady s → WatchtowerStorage.Tail (Runtime.watchtower s) < u64_max →
  SummaryStorage.TotalIngresses (summary s) < u64_max →
  wpp True (summary_call origin call) s (λ _ s', joint_ok s') (λ _ _, True).
Proof using All.
  intros HJ [HB _] Ht Hi. set (Hs := eq_refl : jv s = (Runtime.watchtower s, wt_events s, summary s)). clearbody Hs.
  change (joint (Runtime.watchtower s) (wt_events s) (summary s)) in HJ.
  destruct call as [schedule voting|n h c v sig|id v sig|id v sig|id v sig|v sig|ch v sig|config|id ok]; cbn [summary_call].
  - by eapply (config_joint s _ _ _ origin (Call_set_periods schedule voting)).
  - by eapply record_joint.
  - unfold approve_root, get_root_data, ensure_none. destruct origin; [done..|]. repeat js_step; try done.
    eapply wpp_mono; [by eapply (vote_joint _ _ _ _ _ _ true)| |done]. clear Hs. intros [] s1 (W1&E1&X1&Hs&HJ1).
    js_step. by eapply joint_intro.
  - unfold reject_root, ensure_none. destruct origin; [done..|]. repeat js_step; try done.
    eapply wpp_mono; [by eapply (vote_joint _ _ _ _ _ _ false)| |done]. clear Hs. intros [] s1 (W1&E1&X1&Hs&HJ1).
    js_step. by eapply joint_intro.
  - unfold end_voting_period, ensure_none. destruct origin; [done..|]. wpp_step. wpp_step.
    eapply wpp_mono; [by eapply end_voting_joint| |done]. intros [] s1 (W1&E1&X1&Hs1&HJ1). by eapply joint_intro.
  - unfold advance_slot, ensure_none. destruct origin; [done..|]. wpp_step. wpp_step. by eapply slot_joint.
  - unfold add_challenge, ensure_none. destruct origin; [done..|]. repeat js_step; try done.
    eapply (wpp_jv_quiet _ _ _ _ Hs); [apply offence_jv|by right| |done]. clear Hs. intros [] s1 Hs. wpp_step.
    eapply wpp_mono; [by eapply slot_joint| |done]. clear Hs. intros [] s2 Hok.
    apply (wpp_jv_event s2 _ _ _ eq_refl). intros s3 Hs. by eapply joint_intro.
  - by eapply (config_joint s _ _ _ origin (Call_set_summary_admin_config config)).
  - by eapply admin_resolve_joint.
Qed.
End SummaryCalls.

(** ** The operations of the watchtower *)

Section WatchtowerCalls.
Context `{BridgeConfig} `{!BridgeInterfaceNotification} `{!NodeConfig} `{!WatchtowerConfig} `{!WatchtowerLaws} `{!SummaryConfig}.
Context (steady : bool).
Implicit Types (s : Runtime.t) (W : WatchtowerStorage.t) (X : SummaryStorage.t) (id : ProposalId).
#[local] Existing Instance hooks.
#[local] Existing Instance nodes_interface.

Definition root_ok s : Prop := sm_ok steady s ∧ followed (Runtime.watchtower s) (summary s).
(** The storage of the watchtower, and what the summary pallet sees. *)
Definition xv s := (Runtime.watchtower s, sm s).
Lemma summary_eq s s0 : sm s = sm s0 → summary s = summary s0.
Proof. by intros [= -> _]. Qed.
Lemma sm_ok_eq s s0 : sm s = sm s0 → sm_ok steady s0 → sm_ok steady s.
Proof. unfold sm_ok. by intros [= -> -> -> -> ->]. Qed.
Lemma root_ok_intro s s0 W : xv s = (W, sm s0) → sm_ok steady s0 → followed W (summary s0) → root_ok s.
Proof.
  intros Hx Hok Hf. pose proof (f_equal snd Hx : sm s = sm s0) as Hs. pose proof (f_equal fst Hx : Runtime.watchtower s = W) as <-.
  split; [exact (sm_ok_eq _ _ Hs Hok)|]. by rewrite (summary_eq _ _ Hs).
Qed.
(** The answer to a root ends its wait. *)
Lemma completed_awaits s id ref result :
  sm_ok steady s →
  wpp True (summary_voting_completed id ref result) s
    (λ _ s', ∀ ref', awaits (summary s') ref' → awaits (summary s) ref' ∧ ref' ≠ ref) (λ _ _, False).
Proof.
  intros [[HC HS] _]. set (Hs := eq_refl : jv s = (Runtime.watchtower s, wt_events s, summary s)). clearbody Hs.
  assert (∀ j r, SummaryStorage.Roots (summary s) !! j = Some r → ref = ref_of j (RootData.root_hash r) →
    SummaryStorage.ExternalValidationStatus (summary s) !! j = Some ExternalValidationEnum.ValidationInProgress →
    SummaryStorage.ExternalValidationRef (summary s) !! ref = Some j) as Href.
  { intros j r Hr -> Hst. pose proof (ss_status _ _ _ _ HS _ _ (seen_root _ _ _ Hr)) as Hi. rewrite Hst in Hi.
    assert (reviewed (summary s) j (RootData.root_hash r) = true) as Hre%bool_decide_eq_true by by apply Hi. exact Hre. }
  assert (∀ j st, SummaryStorage.ExternalValidationRef (summary s) !! ref = Some j →
    st ≠ ExternalValidationEnum.ValidationInProgress →
    ∀ ref', awaits (set_status j st (summary s)) ref' → awaits (summary s) ref' ∧ ref' ≠ ref) as Haway.
  { intros j st Hj Hne ref' (i&r&Hr&->&Hst). cbn in Hr, Hst. destruct (decide (i = j)) as [->|Hij].
    - rewrite lookup_insert_eq in Hst. congruence.
    - rewrite lookup_insert_ne in Hst by done. split; [by exists i, r|]. intros He.
      specialize (Href i r Hr (eq_sym He) Hst). congruence. }
  unfold summary_voting_completed, get_root_id_by_external_ref. do 2 js_step.
  destruct (SummaryStorage.ExternalValidationRef (summary s) !! ref) as [root_id|] eqn:Hid.
  2: { wpp_step. intros ref' Ha. split; [done|]. intros ->. destruct Ha as (j&r&Hr&He&Hst).
       specialize (Href j r Hr He Hst). done. }
  destruct (_ || _).
  - do 2 js_step. destruct (try_get_root_data root_id s) as [r|] eqn:Hr.
    2: { destruct (ss_ref _ _ _ _ HS _ _ Hid) as (x&Hx&_). unfold seen in Hx. apply lookup_fmap_Some in Hx as (r&_&Hr').
         unfold try_get_root_data in Hr. congruence. }
    do 4 js_step. eapply wpp_mono; [eapply passed_on_joint; [exact Hs|exact Hr]| |].
    + clear Hs. intros [] s1 (X'&r'&Hs&_&Ha). unfold cleanup_external_validation_data. repeat js_step.
      rewrite (jv_summary _ _ _ _ Hs). intros ref' Hw. apply (Haway root_id ExternalValidationEnum.Accepted); [done..|].
      apply Ha. revert Hw. apply awaits_same. cbn. intros j x Hx [_ Hst]%lookup_delete_Some. eauto.
    + clear Hs. intros e s1 Hs. wpp_step. rewrite (jv_summary _ _ _ _ Hs). by apply Haway.
  - unfold setup_root_for_admin_review. repeat js_step. rewrite (jv_summary _ _ _ _ Hs). intros ref' Hw.
    apply (Haway root_id ExternalValidationEnum.PendingAdminReview); [done..|]. by eapply awaits_ext; [| |exact Hw].
Qed.
Lemma wpp_xv_modify s W T f (Q : unit → Runtime.t → Prop) R :
  xv s = (W, T) → (∀ s', xv s' = (f W, T) → Q () s') → wpp True (wt_modify f) s Q R.
Proof. intros Hs HQ. apply wpp_modify, HQ. unfold xv in *. by injection Hs as <- <-. Qed.
Lemma wpp_xv_quiet {A} s W T (m : Dispatch A) (Q : A → Runtime.t → Prop) R :
  xv s = (W, T) → leaves xv m → (∀ a s', xv s' = (W, T) → Q a s') → (∀ e s', xv s' = (W, T) → R e s') →
  wpp True m s Q R.
Proof. intros Hs Hl. eapply wpp_leaves; [done|exact Hs|by right]. Qed.
Lemma told_xv e : leaves xv (wt_event e).
Proof. intros s. unfold xv. f_equal. by apply (other_event (WatchtowerEvent_ e)). Qed.
Lemma submitted_xv id p : leaves xv (on_proposal_submitted id p).
Proof.
  intros s. unfold xv. f_equal; [|exact (submitted_sm id p s)].
  exact (f_equal (λ x, x.1.1) (submitted_jv id p s)).
Qed.
Lemma hook_kept s s0 W id ref result :
  xv s = (W, sm s0) → sm_ok steady s0 →
  wpp True (on_voting_completed id ref result) s
    (λ _ s', Runtime.watchtower s' = W ∧ sm_ok steady s' ∧
       ∀ ref', awaits (summary s') ref' → awaits (summary s0) ref' ∧ ref' ≠ ref) (λ _ _, True).
Proof.
  intros Hs Hok. pose proof (f_equal snd Hs : sm s = sm s0) as Hsm. pose proof (f_equal fst Hs : Runtime.watchtower s = W) as <-.
  pose proof (sm_ok_eq _ _ Hsm Hok) as Hok'. cbn. wpp_step.
  pose proof (wpp_and _ _ _ _ _ _ _ (voting_completed_inv steady s id ref result Hok')
    (completed_awaits s id ref result Hok')) as Hw.
  pose proof (completed_wt id ref result s) as Hq. apply (f_equal fst) in Hq. cbn in Hq. revert Hw Hq. unfold wpp.
  destruct (summary_voting_completed id ref result s) as [[[]|e|] s1]; [|naive_solver..]. cbn. intros [Hok1 Ha] Hq.
  assert (leaves xv (forget_proposal id;; mret ())) as Hl by (unfold forget_proposal, put_root_info; leaves_tac).
  eapply (wpp_xv_quiet s1 _ _ _ _ _ eq_refl Hl); [|done].
  intros [] s2 Hs2. pose proof (f_equal snd Hs2 : sm s2 = sm s1) as Hsm2.
  split_and!; [by rewrite <- Hq; exact (f_equal fst Hs2)|exact (sm_ok_eq _ _ Hsm2 Hok1)|].
  rewrite (summary_eq _ _ Hsm2), <- (summary_eq _ _ Hsm). exact Ha.
Qed.
Lemma followed_ext W W' X :
  WatchtowerStorage.Proposals W' = WatchtowerStorage.Proposals W →
  WatchtowerStorage.ProposalStatus W' = WatchtowerStorage.ProposalStatus W → followed W X → followed W' X.
Proof. intros E1 E2 Hf ref Ha. eapply live_ext; eauto. Qed.
Lemma dequeue_kept s s0 W (Q : DispatchError + ProposalId → Runtime.t → Prop) :
  xv s = (W, sm s0) → (∀ e s', xv s' = (W, sm s0) → Q (inl e) s') →
  (∀ id s' W', xv s' = (W', sm s0) → WatchtowerStorage.Proposals W' = WatchtowerStorage.Proposals W →
     WatchtowerStorage.ProposalStatus W' = WatchtowerStorage.ProposalStatus W → Q (inr id) s') →
  wpp True (try dequeue) s Q (λ _ _, True).
Proof.
  intros Hs Hl Hr. wpp_step. unfold dequeue, wt_get. repeat wpp_step; try done; try by apply Hl.
  eapply (wpp_xv_modify _ _ _ _ _ _ Hs). clear Hs. intros s1 Hs. wpp_step.
  eapply (wpp_xv_modify _ _ _ _ _ _ Hs). clear Hs. intros s2 Hs. wpp_step. by eapply Hr.
Qed.
(** The next proposal that is voted on was live before. *)
Lemma activate_kept s s0 W :
  xv s = (W, sm s0) → sm_ok steady s0 → followed W (summary s0) →
  wpp True activate_next s (λ _ s', root_ok s') (λ _ _, True).
Proof.
  intros Hs Hok Hf. unfold activate_next. wpp_step. eapply dequeue_kept; [exact Hs|..]; clear Hs.
  { intros e s1 Hs. wpp_step. by eapply root_ok_intro. }
  intros id s1 W1 Hs E1 E2. assert (followed W1 (summary s0)) as Hf1 by by eapply followed_ext. clear Hf E1 E2.
  do 2 (wpp_step; eapply (wpp_xv_modify _ _ _ _ _ _ Hs); clear Hs; intros ? Hs).
  repeat wpp_step; [|done]. match goal with E : proposals id ?s = Some ?x |- _ => rename E into Hp; rename x into p; rename s into s3 end.
  unfold proposals in Hp. rewrite (f_equal fst Hs : Runtime.watchtower s3 = _) in Hp. cbn in Hp.
  eapply (wpp_xv_modify _ _ _ _ _ _ Hs). clear Hs. intros s4 Hs.
  eapply (wpp_xv_quiet _ _ _ _ _ _ Hs); [apply submitted_xv| |done]. clear Hs. intros [] s5 Hs.
  eapply root_ok_intro; [exact Hs|done|]. intros ref Ha. specialize (Hf1 ref Ha). revert Hf1. apply live_kept.
  intros j q Hq Href st Hst Hact. cbn. at_key j id; [|by eauto 10]. eexists _, _. split_and!; [done| |done|by left].
  cbn. congruence.
Qed.
Lemma finalise_kept s s0 W id p st :
  xv s = (W, sm s0) → sm_ok steady s0 → followed W (summary s0) → WatchtowerStorage.Proposals W !! id = Some p →
  wpp True (finalise_voting id p st) s (λ _ s', root_ok s') (λ _ _, True).
Proof.
  intros Hs Hok Hf Hp. unfold finalise_voting. wpp_step. eapply (wpp_xv_modify _ _ _ _ _ _ Hs). clear Hs. intros s1 Hs. wpp_step.
  eapply wpp_mono; [by eapply hook_kept| |done]. clear Hs. intros [] s2 (HW&Hok2&Ha).
  assert (followed (Runtime.watchtower s2) (summary s2)) as Hf2.
  { intros ref [Hr Hne]%Ha. rewrite HW. specialize (Hf ref Hr). revert Hf. apply live_kept. intros j q Hq Href st' Hst' Hact.
    exists q, st'. cbn. rewrite lookup_insert_ne by congruence. done. }
  clear Hf Ha HW Hok. wpp_step. eapply (wpp_xv_quiet s2 _ _ _ _ _ eq_refl); [apply told_xv| |done]. intros [] s3 Hs. wpp_step.
  assert (∀ s4, root_ok s4 → wpp True (wt_modify (WatchtowerStorage.upd_ProposalsToRemove
    (λ to_remove, {[ id ]} ∪ to_remove))) s4 (λ _ s', root_ok s') (λ _ _, True)) as Hend.
  { intros s4 [Hok4 Hf4]. eapply (wpp_xv_modify s4 _ _ _ _ _ eq_refl). intros s5 Hs5. by eapply root_ok_intro. }
  destruct (Proposal.source p); [wpp_step; apply Hend; by eapply root_ok_intro|].
  wpp_step. eapply (wpp_xv_modify _ _ _ _ _ _ Hs). clear Hs. intros s4 Hs.
  eapply wpp_mono; [by eapply activate_kept| |done]. intros [] s5. apply Hend.
Qed.
Lemma finalise_root_ok s id p st :
  root_ok s → proposals id s = Some p → wpp True (finalise_voting id p st) s (λ _ s', root_ok s') (λ _ _, True).
Proof. intros [Hok Hf] Hp. by eapply (finalise_kept s s). Qed.
Lemma process_vote_kept s who id b :
  root_ok s → wpp True (process_vote who id b) s (λ _ s', root_ok s') (λ _ _, True).
Proof.
  intros Hok. unfold process_vote. do 8 (wpp_step; [|done..]). bool_tac.
  match goal with E1 : proposals id s = Some ?x |- _ => rename x into p; rename E1 into Hp end.
  do 2 wpp_step. destruct (proposal_expired _ p).
  - unfold finalise_expired_voting. do 3 wpp_step. eapply wpp_mono; [by apply finalise_root_ok| |done].
    intros [] s1 Hs1. by wpp_step.
  - unfold wt_get. repeat wpp_step; [|done].
    eapply (wpp_xv_quiet s _ _ _ _ _ eq_refl); [|intros w s1 Hs|done].
    { unfold authorise_vote, wt_get. leaves_tac. }
    wpp_step. eapply (wpp_xv_modify _ _ _ _ _ _ Hs). clear Hs. intros s2 Hs. do 3 wpp_step.
    eapply (wpp_xv_modify _ _ _ _ _ _ Hs). clear Hs. intros s3 Hs. wpp_step.
    eapply (wpp_xv_quiet _ _ _ _ _ _ Hs); [apply told_xv| |done]. clear Hs. intros [] s4 Hs. do 2 wpp_step.
    assert (root_ok s4) as Hok4 by (destruct Hok; by eapply root_ok_intro).
    case_match; [|by wpp_step]. wpp_step. eapply wpp_mono; [apply finalise_root_ok; [done|]| |done].
    + unfold proposals. by rewrite (f_equal fst Hs : Runtime.watchtower s4 = _).
    + intros [] s5 ?. by wpp_step.
Qed.
Lemma add_proposal_kept s proposer req :
  root_ok s → wpp True (add_proposal proposer req) s (λ _ s', root_ok s') (λ _ _, True).
Proof.
  intros [Hok Hf]. pose proof (add_proposal_adds s _ _ _ proposer req eq_refl) as Hw.
  pose proof (submit_quiet (W := runtime_validator) proposer req s) as Hl. revert Hw Hl. unfold wpp. cbn.
  destruct (add_proposal proposer req s) as [[[]|e|] s']; [|done..]. cbn. intros (W'&E'&Hs&_&Hk) Hl.
  split; [exact (sm_ok_eq _ _ Hl Hok)|]. rewrite (jv_summary _ _ _ _ Hs).
  rewrite (f_equal fst (jv_wt _ _ _ _ Hs) : Runtime.watchtower s' = W'). intros ref Ha. auto.
Qed.
Definition yv s :=
  (WatchtowerStorage.Proposals (Runtime.watchtower s), WatchtowerStorage.ProposalStatus (Runtime.watchtower s), sm s).
Lemma root_ok_yv s s0 : yv s = yv s0 → root_ok s0 → root_ok s.
Proof.
  intros Hs [Hok Hf]. pose proof (f_equal snd Hs : sm s = sm s0) as Hsm. split; [exact (sm_ok_eq _ _ Hsm Hok)|].
  rewrite (summary_eq _ _ Hsm). eapply followed_ext; [| |exact Hf]; [exact (f_equal (λ x, x.1.1) Hs)|exact (f_equal (λ x, x.1.2) Hs)].
Qed.
Lemma delete_voters_yv id meter l : leaves yv (delete_voters id meter l).
Proof. revert meter. induction l as [|who l IH]; intros meter; cbn; unfold wt_modify; leaves_tac; apply IH. Qed.
(** What is removed is finished. *)
Lemma removed_followed W E l X id :
  wt_base W E l → id ∈ WatchtowerStorage.ProposalsToRemove W → followed W X →
  followed (WatchtowerStorage.upd_Proposals (delete id) W) X.
Proof.
  intros HB Hid Hf ref Ha. specialize (Hf ref Ha). revert Hf. apply live_kept. intros j q Hq Href st Hst Hact.
  exists q, st. cbn. rewrite lookup_delete_ne; [done|]. intros <-.
  destruct (wb_placed _ _ _ HB _ _ Hq) as (st'&Hst'&Hpl). unfold placed in Hpl. rewrite decide_True in Hpl by done.
  assert (st' = st) as -> by congruence. by destruct Hact as [-> | ->].
Qed.
Lemma remove_kept s meter :
  wt_ok s → root_ok s → wpp True (remove_proposal meter) s (λ _ s', root_ok s') (λ _ _, True).
Proof.
  intros Hw Hok. unfold remove_proposal. destruct (try_consume (reads 1) meter) as [meter1|]; [|by wpp_step].
  do 2 wpp_step. destruct (proposals_to_remove s) as [|id L] eqn:Hl; [by wpp_step|].
  assert (id ∈ WatchtowerStorage.ProposalsToRemove (Runtime.watchtower s)) as Hid.
  { apply elem_of_elements. unfold proposals_to_remove in Hl. erewrite <- sort_by_perm, Hl. left. }
  destruct Hw as (l&HB&_). cbn in HB. do 2 wpp_step. destruct (voters_to_delete _ _) as [meter2 to_delete]. wpp_step.
  pose proof (delete_voters_yv id meter2 to_delete s) as Hy.
  pose proof (delete_voters_fine runtime_hooks s _ _ l id meter2 to_delete eq_refl HB Hid) as Hd.
  revert Hd Hy. unfold wpp at 1 2. destruct (delete_voters id meter2 to_delete s) as [[meter3|e|] s1]; [|done..].
  cbn [snd]. intros (W1&Hs1&HB1&Hid1&_) Hy. assert (root_ok s1) as Hok1 by by eapply root_ok_yv.
  destruct (try_consume (reads 1) meter3) as [meter4|]; [|by wpp_step]. do 2 wpp_step.
  case_bool_decide; [|by wpp_step]. destruct (try_consume (writes 4) meter4); [|by wpp_step]. wpp_step.
  pose proof (f_equal fst Hs1 : Runtime.watchtower s1 = W1) as HW. destruct Hok1 as [Hok1 Hf1].
  eapply (wpp_xv_modify s1 W1 (sm s1)); [unfold xv; by rewrite HW|]. intros s2 Hs2.
  assert (root_ok s2) as Hok2.
  { eapply root_ok_intro; [exact Hs2|done|]. eapply removed_followed; [done..|]. by rewrite <- HW. }
  assert (leaves yv (wt_modify (WatchtowerStorage.upd_Votes (delete id));;
    wt_modify (WatchtowerStorage.upd_ProposalsToRemove (λ to_remove, to_remove ∖ {[id]}));;
    wt_event (WatchtowerEvent.ProposalCleaned id))) as Hq.
  { unfold wt_modify. leaves_tac. intros s3. unfold yv. f_equal. by apply (other_event (WatchtowerEvent_ _)). }
  eapply (wpp_leaves True yv _ s2 _ _ _ Hq eq_refl); [by right|by intros; eapply root_ok_yv|done].
Qed.
Lemma cleanup_kept s now meter :
  wt_ok s → root_ok s → wpp True (cleanup_proposals now meter) s (λ _ s', root_ok s') (λ _ _, True).
Proof.
  intros Hw Hok. unfold cleanup_proposals. destruct (try_consume _ meter) as [meter1|]; [|by wpp_step].
  do 2 wpp_step. unfold active_proposal_expiry_status.
  destruct (WatchtowerStorage.ActiveInternalProposal (Runtime.watchtower s)) as [id|] eqn:Ha; cbn; [|by apply remove_kept].
  destruct (proposals id s) as [p|] eqn:Hp; cbn; [|by apply remove_kept].
  destruct (proposal_expired now p); [|by wpp_step]. destruct (try_consume _ meter1) as [meter2|]; [|by wpp_step].
  unfold finalise_expired_voting. do 4 wpp_step.
  assert (wpp True (finalise_voting id p (get_vote_result_on_expiry id p s)) s (λ _ s', wt_ok s') (λ _ _, False)) as Hfin.
  { apply (wpp_true (hooks_panic runtime_hooks)). apply (ends_vote runtime_hooks s _ _ id p _ _ _ eq_refl Hw Hp); [|apply expiry_finished|done].
    destruct Hw as (l&HB&_). destruct (wb_active _ _ _ HB _ Ha) as (Hl&Hr&_).
    destruct (wb_placed _ _ _ HB _ _ Hp) as (st&Hst&Hpl). unfold placed in Hpl.
    rewrite !decide_False in Hpl by done. unfold wt in Hst. cbn in Hst. rewrite Hst. cbn. naive_solver. }
  eapply wpp_mono; [exact (wpp_and _ _ _ _ _ _ _ Hfin (finalise_root_ok s id p _ Hok Hp))| |naive_solver].
  cbn. intros [] s1 [??]. by apply remove_kept.
Qed.
Lemma watchtower_call_kept s origin call :
  root_ok s → wpp True (watchtower_call origin call) s (λ _ s', root_ok s') (λ _ _, True).
Proof.
  intros Hs. destruct call as [req|proof req n|id b|proof id b n|id b who sig|id|config]; cbn.
  - unfold submit_external_proposal. wpp_step. apply (wpp_true (hooks_panic runtime_hooks)), external_proposer_reads.
    intros proposer. repeat wpp_step; [|done]. by apply add_proposal_kept.
  - unfold signed_submit_external_proposal, ensure_tx_alive. wpp_step.
    apply (wpp_true (hooks_panic runtime_hooks)), external_proposer_reads. intros proposer. repeat wpp_step; try done.
    by apply add_proposal_kept.
  - destruct origin; [done| |done]. unfold vote, ensure_signed. repeat wpp_step. by apply process_vote_kept.
  - destruct origin; [done| |done]. unfold signed_vote, ensure_tx_alive, ensure_signed. repeat wpp_step; try done.
    by apply process_vote_kept.
  - destruct origin; [done..|]. unfold unsigned_vote, validate_unsigned_vote, wt_get, ensure_none.
    repeat wpp_step; try done. by apply process_vote_kept.
  - destruct origin; [done| |done]. unfold finalise_proposal, finalise_expired_voting, ensure_signed. repeat wpp_step; try done.
    by apply finalise_root_ok.
  - unfold set_watchtower_admin_config, ensure_root. destruct origin; [|done..]. destruct Hs as [Hok Hf]. do 2 wpp_step.
    destruct config; wpp_step; eapply (wpp_xv_modify s _ _ _ _ _ eq_refl); intros s1 Hs1;
      (eapply (wpp_xv_quiet _ _ _ _ _ _ Hs1); [apply told_xv| |done]); intros [] s2 Hs2; by eapply root_ok_intro.
Qed.
End WatchtowerCalls.

(** ** What is reachable *)

Section Reachable.
Context `{BridgeConfig} `{!BridgeInterfaceNotification} `{!NodeConfig} `{!WatchtowerConfig} `{!WatchtowerLaws} `{!SummaryConfig}.
Implicit Types (s : Runtime.t).
#[local] Existing Instance hooks.
#[local] Existing Instance validator.
#[local] Existing Instance nodes_interface.

(** A step of the chain: a call of one of the two pallets, the clean-up of idle blocks, a
    report of the bridge, or anything that leaves both alone. *)
Inductive runtime_step s s' : Prop :=
  | Run_summary origin call r :
      summary_call_typed call → transactional (summary_call origin call) s = (r, s') → runtime_step s s'
  | Run_watchtower origin call r :
      call_refs call → transactional (watchtower_call origin call) s = (r, s') → runtime_step s s'
  | Run_idle meter : cleanup_proposals (Runtime.block_number s) meter s = (Ok (), s') → runtime_step s s'
  | Run_result tx_id caller succeeded :
      summary_process_result tx_id caller succeeded s = (Ok (), s') → runtime_step s s'
  | Run_elsewhere : wt s' = wt s → sm s' = sm s → runtime_step s s'.
Inductive runtime_reachable : Runtime.t → Prop :=
  | Run_start s : watchtower_start s → summary_start s → runtime_reachable s
  | Run_step s s' :
      runtime_reachable s → WatchtowerStorage.Tail (Runtime.watchtower s) < u64_max →
      SummaryStorage.TotalIngresses (summary s) < u64_max → distinct_refs (summary s) →
      runtime_step s s' → runtime_reachable s'.
Definition runtime_ok s : Prop :=
  wt_ok s ∧ sm_ok false s ∧ followed (Runtime.watchtower s) (summary s).

Lemma rolled_back {A} (m : Dispatch A) (I : Runtime.t → Prop) s r s' :
  wpp True m s (λ _ s', I s') (λ _ _, True) → I s → transactional m s = (r, s') → I s'.
Proof. unfold wpp, transactional. destruct (m s) as [[] ?]; naive_solver. Qed.
Lemma process_result_joint s tx_id caller succeeded :
  joint_ok s → sm_ok false s → wpp True (summary_process_result tx_id caller succeeded) s (λ _ s', joint_ok s') (λ _ _, False).
Proof.
  intros HJ [[HC _] _]. change (joint (Runtime.watchtower s) (wt_events s) (summary s)) in HJ.
  set (Hs := eq_refl : jv s = (Runtime.watchtower s, wt_events s, summary s)). clearbody Hs.
  unfold summary_process_result. do 2 js_step.
  destruct (SummaryStorage.TxIdToRoot (summary s) !! tx_id) as [id|] eqn:Htx; [|by wpp_step].
  destruct (_ && succeeded); [|by wpp_step]. repeat js_step. eapply joint_intro; [exact Hs|].
  eapply joint_less; [exact HJ|]. destruct (sc_tx _ _ _ _ HC _ _ Htx) as (r&Hr&_). intros ref Ha.
  eapply (awaits_on_root _ id (RootData.upd_is_finalised (λ _, true))); [done..|]. by eapply awaits_ext; [| |exact Ha].
Qed.
Lemma runtime_step_ok s s' :
  (∀ l, is_ref (hash_of l)) → runtime_ok s → WatchtowerStorage.Tail (Runtime.watchtower s) < u64_max →
  SummaryStorage.TotalIngresses (summary s) < u64_max → distinct_refs (summary s) →
  runtime_step s s' → runtime_ok s'.
Proof.
  intros Hh (Hw&Hsm&Hf) Ht Hi Hd [origin call r Hty Hrun|origin call r Hrefs Hrun|meter Hrun|tx caller b Hrun|E1 E2].
  - assert (joint_ok s') as [? ?].
    { eapply (rolled_back _ joint_ok); [eapply summary_call_joint; eauto| |exact Hrun]; by split. }
    split_and!; [done| |done]. eapply (rolled_back _ (sm_ok false)); [|exact Hsm|exact Hrun].
    by eapply (summary_call_inv runtime_validator).
  - assert (root_ok false s') as [? ?].
    { eapply (rolled_back _ (root_ok false)); [by eapply watchtower_call_kept| |exact Hrun]; by split. }
    split_and!; [|done..]. eapply (rolled_back _ wt_ok); [|exact Hw|exact Hrun].
    apply (wpp_true (hooks_panic runtime_hooks)). by apply (watchtower_call_fine runtime_hooks).
  - assert (root_ok false s') as [? ?].
    { pose proof (cleanup_kept false s (Runtime.block_number s) meter Hw (conj Hsm Hf)) as Hk. unfold wpp in Hk.
      by rewrite Hrun in Hk. }
    split_and!; [|done..].
    assert (wpp True (cleanup_proposals (Runtime.block_number s) meter) s (λ _ s', wt_ok s') (λ _ _, True)) as Hk.
    { apply (wpp_true (hooks_panic runtime_hooks)).
      eapply wpp_mono; [by apply (cleanup_proposals_fine runtime_hooks)|done..]. }
    unfold wpp in Hk. by rewrite Hrun in Hk.
  - pose proof (process_result_joint s tx caller b (conj Hw Hf) Hsm) as HJ. pose proof (process_result_inv false s tx caller b Hsm) as HI.
    unfold wpp in HJ, HI. rewrite Hrun in HJ, HI. by destruct HJ.
  - split_and!.
    + unfold wt_ok. by rewrite E1.
    + by eapply sm_ok_eq.
    + rewrite (summary_eq _ _ E2). by rewrite (f_equal fst E1 : Runtime.watchtower s' = _).
Qed.
Lemma runtime_start_ok s : watchtower_start s → summary_start s → runtime_ok s.
Proof.
  intros Hw Hs. pose proof (summary_start_inv false s Hs) as Hok. split_and!; [by apply (watchtower_start_fine runtime_hooks)|done|].
  intros ref (id&r&Hr&_). destruct Hs as (s0&schedule&voting&HX&_&Hrun).
  assert (wpp True (build_summary schedule voting) s0 (λ _ s', SummaryStorage.Roots (summary s') = ∅) (λ _ _, True)) as Hw0.
  { set (Hs0 := eq_refl : jv s0 = (Runtime.watchtower s0, wt_events s0, summary s0)). clearbody Hs0. rewrite HX in Hs0.
    unfold build_summary, validate_schedule_period, validate_voting_period. repeat js_step; try done.
    by rewrite (jv_summary _ _ _ _ Hs0). }
  unfold wpp in Hw0. rewrite Hrun in Hw0. by rewrite Hw0 in Hr.
Qed.
Lemma runtime_reachable_ok s : (∀ l, is_ref (hash_of l)) → runtime_reachable s → runtime_ok s.
Proof. intros Hh. induction 1; eauto using runtime_start_ok, runtime_step_ok. Qed.

(** C6: the two pallets, as the runtime wires them, keep each other's promises: the invariants
    of both hold in every reachable state, and each root that was submitted to the
    watchtowers and has not been answered has a proposal under its reference that is voted
    on or waits for its turn, so that its answer comes with the end of that vote. *)
Theorem awaiting_root_has_proposal s :
  (∀ l, is_ref (hash_of l)) → runtime_reachable s →
  wt_ok s ∧ sm_ok false s ∧
  ∀ id r, try_get_root_data id s = Some r →
    SummaryStorage.ExternalValidationStatus (summary s) !! id = Some ExternalValidationEnum.ValidationInProgress →
    ∃ proposal_id p,
      WatchtowerStorage.ExternalRef (Runtime.watchtower s) !! ref_of id (RootData.root_hash r) = Some proposal_id ∧
      proposals proposal_id s = Some p ∧ Proposal.external_ref p = ref_of id (RootData.root_hash r) ∧
      (proposal_status proposal_id s = ProposalStatusEnum.Active ∨
       proposal_status proposal_id s = ProposalStatusEnum.Queued).
Proof.
  intros Hh (Hw&Hsm&Hf)%runtime_reachable_ok; [|done]. split_and!; [done..|]. intros id r Hr Hst.
  destruct (Hf (ref_of id (RootData.root_hash r))) as (pid&p&st&Hp&Href&Hps&Ha); [by exists id, r|].
  destruct Hw as (l&HB&_). cbn in HB. destruct (wb_ref _ _ _ HB _ _ Hp) as [_ Hx]. rewrite Href in Hx.
  exists pid, p. split_and!; [done..|]. unfold proposal_status. by rewrite Hps.
Qed.
End Reachable.

(** ** Runs *)

Section Witness.
#[local] Existing Instance demo_config.
#[local] Existing Instance token_notification.
#[local] Instance external : SummaryConfig := demo_summary_config true.
#[local] Existing Instance hooks.
#[local] Existing Instance validator.
#[local] Existing Instance nodes_interface.

Definition rt_summary (origin : Origin) (call : SummaryCall) (s : Runtime.t) : Runtime.t :=
  (transactional (summary_call origin call) s).2.
Definition rt_watchtower (origin : Origin) (call : WatchtowerCall) (s : Runtime.t) : Runtime.t :=
  (transactional (watchtower_call origin call) s).2.
(** Half of the nodes have to agree.  Validator 1 records the first root, 2 and 3 approve it. *)
Definition demo_genesis_2 : Runtime.t := (build_summary 30 25 demo_staked).2.
Definition demo_waiting : Runtime.t :=
  rt_summary NoOrigin (approve_call root_1 2)
    (rt_summary NoOrigin (record_call 30 77%N 1)
       (rt_summary Root (Call_set_summary_admin_config (SummaryAdminConfig.ExternalValidationThreshold 50)) demo_genesis_2)).
Definition demo_submitted_root : Runtime.t := rt_summary NoOrigin (approve_call root_1 3) demo_waiting.
Lemma demo_hash_range l : is_ref (hash_of l).
Proof.
  unfold is_ref. cbn [hash_of external demo_summary_config].
  pose proof (N.mod_lt (from_le_bytes (take 31 l)) (2 ^ 248) ltac:(done)). 
  eapply (N.le_lt_trans _ (2 ^ 248)); [lia|]. vm_compute. reflexivity.
Qed.
Lemma rt_summary_reach s origin call :
  runtime_reachable s → summary_call_typed call →
  bool_decide (WatchtowerStorage.Tail (Runtime.watchtower s) < u64_max) = true →
  bool_decide (SummaryStorage.TotalIngresses (summary s) < u64_max) = true → distinct_refsb (summary s) = true →
  runtime_reachable (rt_summary origin call s).
Proof.
  intros Hs Hty Ht%bool_decide_eq_true Hi%bool_decide_eq_true Hd%distinct_refsb_spec.
  eapply Run_step; [exact Hs|exact Ht|exact Hi|exact Hd|]. eapply Run_summary; [exact Hty|apply surjective_pairing].
Qed.
Lemma demo_waiting_reach : runtime_reachable demo_submitted_root.
Proof.
  apply rt_summary_reach; [|exact I|vm_compute; reflexivity..].
  apply rt_summary_reach; [|exact I|vm_compute; reflexivity..].
  apply rt_summary_reach; [|vm_compute; reflexivity..].
  apply rt_summary_reach; [|exact I|vm_compute; reflexivity..].
  apply Run_start.
  - split; [vm_compute; reflexivity|]. exists 100, None. vm_compute. reflexivity.
  - exists demo_staked, 30, 25. split_and!; [vm_compute; reflexivity..|]. apply ran_ok. vm_compute. reflexivity.
Qed.
Lemma demo_waits :
  ∃ r, try_get_root_data root_1 demo_submitted_root = Some r ∧ RootData.is_validated r = true ∧
    SummaryStorage.ExternalValidationStatus (summary demo_submitted_root) !! root_1 =
      Some ExternalValidationEnum.ValidationInProgress.
Proof. eexists. split_and!; vm_compute; reflexivity. Qed.
Lemma awaiting_root_has_proposal_witness :
  ∃ r proposal_id p, try_get_root_data root_1 demo_submitted_root = Some r ∧
    proposals proposal_id demo_submitted_root = Some p ∧
    Proposal.external_ref p = ref_of root_1 (RootData.root_hash r).
Proof.
  destruct demo_waits as (r&Hr&_&Hst).
  destruct (awaiting_root_has_proposal demo_submitted_root demo_hash_range demo_waiting_reach) as (_&_&Hw).
  destruct (Hw root_1 r Hr Hst) as (pid&p&_&Hp&He&_). exists r, pid, p. split_and!; [exact Hr|exact Hp|exact He].
Defined.

(** References of proposals are taken once, by whoever comes first.  While nobody is the admin of
    the watchtower, any account can submit a proposal with the reference of a pending root: the vote
    that would approve the root fails, and at the end of the voting period the root is refused,
    and validators 1, who recorded it, and 2, who approved it, are reported. *)
Definition squatter : ProposalRequest.t :=
  ProposalRequest.mk [116%N] (RawPayload.Uri [1%N]) 1000000000 ProposalSource.External
    DecisionRule.SimpleMajority (hash_of (encode_root root_1 77%N)) 5 None.
Definition demo_squatted : Runtime.t :=
  rt_watchtower (Signed 60%N) (Call_submit_external_proposal squatter) demo_waiting.
Definition demo_period_over : Runtime.t :=
  rt_summary NoOrigin (Call_end_voting_period root_1 (Validator.mk 4 14) 14%N)
    (Runtime.upd_block_number (λ _, 40) demo_squatted).
Lemma squatted_reference_refuses_root :
  (summary_call NoOrigin (approve_call root_1 3) demo_squatted).1 =
    Err (Watchtower_ WatchtowerError.DuplicateExternalRef) ∧
  SummaryStorage.PendingApproval (summary demo_period_over) = ∅ ∧ validated demo_period_over = [] ∧
  Runtime.offences demo_period_over = [(4%N, [2%N]); (4%N, [1%N])].
Proof. split_and!; vm_compute; reflexivity. Qed.

(** When the bridge cannot take a root that the watchtowers accepted, the root is left as
    accepted: it is not sent, its vote is over, and there is no review for the admin to resolve. *)
Definition fill_bridge (s : Runtime.t) : Runtime.t :=
  (publish (b "publishRoot") [(b "bytes32", replicate 32 1%N)] (b "other") s).2.
Definition demo_full : Runtime.t := fill_bridge (fill_bridge (fill_bridge (fill_bridge demo_submitted_root))).
Definition demo_poll_2 : ProposalId :=
  unwrap_or 0%N (WatchtowerStorage.ActiveInternalProposal (Runtime.watchtower demo_full)).
Definition demo_stranded : Runtime.t :=
  rt_watchtower (Signed 2%N) (Call_vote demo_poll_2 true) (rt_watchtower (Signed 1%N) (Call_vote demo_poll_2 true) demo_full).
Lemma failed_publish_strands_root :
  proposal_status demo_poll_2 demo_stranded = ProposalStatusEnum.Resolved true ∧
  SummaryStorage.ExternalValidationStatus (summary demo_stranded) !! root_1 = Some ExternalValidationEnum.Accepted ∧
  passed demo_stranded = [] ∧
  (summary_call Root (Call_admin_resolve_challenge root_1 true) demo_stranded).1 =
    Err (Summary_ SummaryError.ExternalValidationRequestNotFound).
Proof. split_and!; vm_compute; reflexivity. Qed.
End Witness.
