(* ===== verification/AnchorProps.v ===== *)
(** * App chains: the invariants

    What the calls of [pallets/avn-anchor], its hooks and [on_idle] maintain, in three
    parts that do not touch each other: the rewards that are owed, the app chains that
    are registered, and their checkpoints. *)

From S2P Require Import Prelude Frames Slices Bytes EventTypes EventParsing.
From S2P Require Import EventDiscovery EthTypes RuntimeErrors NodeTypes BridgeTypes.
From S2P Require Import Avn BridgeExamples NodeStake EthBridge BridgeEvents.
From S2P Require Import TokenManager BridgeInv BridgeCalls NodeRewards Anchor.
From S2P Require Import NodeExamples.

(** The asset registry does not register an asset twice, nor does it forget one. *)
Class RegistryLaws `{AnchorConfig} : Prop := {
  #[global] asset_position_inj :: Inj (=) (=) asset_position;
  register_asset_fresh asset metadata a a' :
    register_asset asset metadata a = Some a' → registry_metadata a asset = None;
  register_asset_known asset metadata a a' :
    register_asset asset metadata a = Some a' →
    registry_metadata a' asset ≠ None ∧ ∀ x, registry_metadata a x ≠ None → registry_metadata a' x ≠ None;
  update_asset_known asset native a a' x :
    update_asset_native asset native a = Some a' → registry_metadata a x ≠ None → registry_metadata a' x ≠ None;
  asset_transfer_known currency from to amount a a' x :
    asset_transfer currency from to amount a = Some a' →
    registry_metadata a x ≠ None → registry_metadata a' x ≠ None;
}.

Section AnchorInv.
Context `{BridgeConfig} `{!NodeConfig} `{!AnchorConfig} `{!RegistryLaws}.
Implicit Types (s : Runtime.t) (a : AnchorStorage.t) (p : RewardPeriodIndex) (k : NodeId) (x : AppChainAssetId).

(** ** Parts *)

Definition rewards_view a :=
  (AnchorStorage.PeriodChainReward a, AnchorStorage.UnpaidByPeriod a, AnchorStorage.UnpaidByNode a).
Definition chains_view a :=
  (AnchorStorage.ChainHandlers a, AnchorStorage.NextChainId a, AnchorStorage.AssetIdToChainId a,
   AnchorStorage.RegisteredAppchains a, AnchorStorage.NextRewardAmountPerPeriod a).
Definition checkpoints_view a :=
  (AnchorStorage.Checkpoints a, AnchorStorage.OriginIdToCheckpoint a, AnchorStorage.NextCheckpointId a).

(** *** Rewards *)
Record rewards_ok a : Prop := {
  (** The two indexes of what is unpaid agree. *)
  rw_mirror p k : is_Some (AnchorStorage.UnpaidByPeriod a !! (p, k)) ↔ (k, p) ∈ AnchorStorage.UnpaidByNode a;
  (** As long as something of a period is unpaid, its rewards are known. *)
  rw_snapshot p k : is_Some (AnchorStorage.UnpaidByPeriod a !! (p, k)) →
    ∃ x, is_Some (AnchorStorage.PeriodChainReward a !! (p, x));
}.
(** *** Chains *)
Record chains_ok a (known : AppChainAssetId → Prop) : Prop := {
  ch_handler h c : AnchorStorage.ChainHandlers a !! h = Some c → c < AnchorStorage.NextChainId a;
  ch_handler_inj h h' c : AnchorStorage.ChainHandlers a !! h = Some c →
    AnchorStorage.ChainHandlers a !! h' = Some c → h = h';
  ch_asset_inj x y c : AnchorStorage.AssetIdToChainId a !! x = Some c →
    AnchorStorage.AssetIdToChainId a !! y = Some c → x = y;
  (** A chain has a handler and a token, or neither. *)
  ch_both c : (∃ h, AnchorStorage.ChainHandlers a !! h = Some c) ↔ ∃ x, AnchorStorage.AssetIdToChainId a !! x = Some c;
  ch_listed x : x ∈ AnchorStorage.RegisteredAppchains a ↔ is_Some (AnchorStorage.AssetIdToChainId a !! x);
  ch_nodup : NoDup (AnchorStorage.RegisteredAppchains a);
  ch_length : (length (AnchorStorage.RegisteredAppchains a) ≤ MaxRegisteredAppChains)%nat;
  ch_known x : is_Some (AnchorStorage.AssetIdToChainId a !! x) → known x;
  (** Only registered chains pay rewards. *)
  ch_active x v : AnchorStorage.NextRewardAmountPerPeriod a !! x = Some v →
    is_Some (AnchorStorage.AssetIdToChainId a !! x) ∧ 0 < v.2;
}.
(** *** Checkpoints *)
Definition next_checkpoint a (c : ChainId) : CheckpointId := unwrap_or 0 (AnchorStorage.NextCheckpointId a !! c).
Record checkpoints_ok a : Prop := {
  cp_id c i d : AnchorStorage.Checkpoints a !! (c, i) = Some d →
    i < next_checkpoint a c ∧ AnchorStorage.OriginIdToCheckpoint a !! (c, CheckpointData.origin_id d) = Some i;
  cp_origin c o i : AnchorStorage.OriginIdToCheckpoint a !! (c, o) = Some i →
    ∃ h, AnchorStorage.Checkpoints a !! (c, i) = Some (CheckpointData.mk h o);
}.
Definition known s x : Prop := registry_metadata (Runtime.assets s) x ≠ None.

Record anchor_ok s : Prop := {
  ao_rewards : rewards_ok (Runtime.anchor s);
  ao_chains : chains_ok (Runtime.anchor s) (known s);
  ao_checkpoints : checkpoints_ok (Runtime.anchor s);
}.

(** ** What leaves a part alone *)

Lemma rewards_ok_same a a' : rewards_view a' = rewards_view a → rewards_ok a → rewards_ok a'.
Proof. unfold rewards_view. intros [= E1 E2 E3] [A B]. constructor; rewrite ?E1, ?E2, ?E3; done. Qed.
Lemma chains_ok_same a a' (P P' : AppChainAssetId → Prop) :
  chains_view a' = chains_view a → (∀ x, P x → P' x) → chains_ok a P → chains_ok a' P'.
Proof.
  unfold chains_view. intros [= E1 E2 E3 E4 E5] HP [A B C D E F G I J].
  constructor; rewrite ?E1, ?E2, ?E3, ?E4, ?E5; auto.
Qed.
Lemma checkpoints_ok_same a a' : checkpoints_view a' = checkpoints_view a → checkpoints_ok a → checkpoints_ok a'.
Proof.
  unfold checkpoints_view. intros [= E1 E2 E3] [A B]. constructor; unfold next_checkpoint; rewrite ?E1, ?E2, ?E3; done.
Qed.
Lemma anchor_ok_same s s' :
  Runtime.anchor s' = Runtime.anchor s → (∀ x, known s x → known s' x) → anchor_ok s → anchor_ok s'.
Proof. intros Ha Hk [A B C]. constructor; rewrite Ha; [done| |done]. by eapply chains_ok_same. Qed.
(** Steps of one part. *)
Lemma rewards_step f s :
  chains_view (f (Runtime.anchor s)) = chains_view (Runtime.anchor s) →
  checkpoints_view (f (Runtime.anchor s)) = checkpoints_view (Runtime.anchor s) →
  rewards_ok (f (Runtime.anchor s)) → anchor_ok s → anchor_ok (Runtime.upd_anchor f s).
Proof. intros Hc Hp Hr [A B C]. constructor; cbn; [done|by eapply chains_ok_same|by eapply checkpoints_ok_same]. Qed.
Lemma chains_step f s :
  rewards_view (f (Runtime.anchor s)) = rewards_view (Runtime.anchor s) →
  checkpoints_view (f (Runtime.anchor s)) = checkpoints_view (Runtime.anchor s) →
  chains_ok (f (Runtime.anchor s)) (known s) → anchor_ok s → anchor_ok (Runtime.upd_anchor f s).
Proof. intros Hc Hp Hr [A B C]. constructor; cbn; [by eapply rewards_ok_same|done|by eapply checkpoints_ok_same]. Qed.
Lemma checkpoints_step f s :
  rewards_view (f (Runtime.anchor s)) = rewards_view (Runtime.anchor s) →
  chains_view (f (Runtime.anchor s)) = chains_view (Runtime.anchor s) →
  checkpoints_ok (f (Runtime.anchor s)) → anchor_ok s → anchor_ok (Runtime.upd_anchor f s).
Proof. intros Hc Hp Hr [A B C]. constructor; cbn; [by eapply rewards_ok_same|by eapply chains_ok_same|done]. Qed.
Lemma anchor_modify_ok f :
  (∀ a, rewards_view (f a) = rewards_view a) → (∀ a, chains_view (f a) = chains_view a) →
  (∀ a, checkpoints_view (f a) = checkpoints_view a) → maintains anchor_ok (anchor_modify f).
Proof.
  intros Hr Hc Hp. apply maintains_modify. intros s Hs. apply rewards_step; [done|done| |done].
  apply (rewards_ok_same (Runtime.anchor s)); [done|]. apply Hs.
Qed.
Lemma anchor_event_ok e : maintains anchor_ok (anchor_event e).
Proof. apply maintains_modify. intros s. by apply anchor_ok_same. Qed.
Lemma token_event_ok e : maintains anchor_ok (token_event e).
Proof. apply maintains_modify. intros s. by apply anchor_ok_same. Qed.
Lemma put_balance_ok t w v : maintains anchor_ok (put_balance t w v).
Proof. apply maintains_modify. intros s. by apply anchor_ok_same. Qed.
Lemma asset_transfer_ok currency from to amount e :
  maintains anchor_ok (update_assets (asset_transfer currency from to amount) e).
Proof.
  intros s Hs. unfold update_assets. repeat wp_step; [|done].
  apply (anchor_ok_same s); [done| |done]. intros x. by eapply asset_transfer_known.
Qed.
#[local] Hint Resolve anchor_event_ok token_event_ok put_balance_ok asset_transfer_ok : maintain.
Lemma settle_transfer_ok t from to amount : maintains anchor_ok (settle_transfer t from to amount).
Proof. unfold settle_transfer. maintains_tac. Qed.
#[local] Hint Resolve settle_transfer_ok : maintain.
Lemma pay_treasury_ok amount w : maintains anchor_ok (pay_treasury amount w).
Proof. unfold pay_treasury, token_get. maintains_tac. Qed.
#[local] Hint Resolve pay_treasury_ok : maintain.

(** ** Rewards *)

Lemma has_unpaid_false p s :
  has_unpaid p s = false → ∀ k, AnchorStorage.UnpaidByPeriod (Runtime.anchor s) !! (p, k) = None.
Proof.
  intros Hu k. destruct (_ !! (p, k)) as [r|] eqn:Hk; [|done]. exfalso.
  assert (has_unpaid p s = true); [|congruence]. unfold has_unpaid. apply existsb_exists. exists (p, k).
  split; [|by apply bool_decide_true]. apply list_elem_of_In. unfold all_unpaid. rewrite sort_by_perm.
  apply list_elem_of_fmap. exists ((p, k), r). split; [done|]. by apply elem_of_map_to_list.
Qed.
Lemma chain_rewards_nil p s :
  chain_rewards p s = [] ↔ ∀ x, AnchorStorage.PeriodChainReward (Runtime.anchor s) !! (p, x) = None.
Proof. apply (prefix_nil asset_position). Qed.
(** The rewards of a period of which nothing is unpaid may go. *)
Lemma reclaim_step p x s :
  anchor_ok s ∧ (∀ k, AnchorStorage.UnpaidByPeriod (Runtime.anchor s) !! (p, k) = None) →
  let s' := Runtime.upd_anchor (AnchorStorage.upd_PeriodChainReward (delete (p, x))) s in
  anchor_ok s' ∧ ∀ k, AnchorStorage.UnpaidByPeriod (Runtime.anchor s') !! (p, k) = None.
Proof.
  intros [Hs Hu] s'. split; [|done]. apply rewards_step; [done|done| |done].
  destruct Hs as [[M S] _ _]. constructor; cbn; [done|]. intros q k Hq. destruct (S q k Hq) as [y Hy].
  exists y. rewrite lookup_delete_ne; [done|]. intros [= <- _]. rewrite Hu in Hq. by apply is_Some_None in Hq.
Qed.
Lemma try_reclaim_period_ok p : maintains anchor_ok (try_reclaim_period p).
Proof.
  intros s Hs. unfold try_reclaim_period, anchor_get. do 4 wp_step. destruct (negb _); [by apply wp_ret|].
  destruct (has_unpaid p s) eqn:Hu; [by apply wp_ret|]. do 3 wp_step.
  eapply wp_mono; [apply (maintains_for_each (λ s, anchor_ok s ∧
    ∀ k, AnchorStorage.UnpaidByPeriod (Runtime.anchor s) !! (p, k) = None))| |by intros ? ? [? _]].
  - intros x. apply maintains_modify. intros s'. apply reclaim_step.
  - split; [done|]. by apply has_unpaid_false.
  - intros [] s' [Hs' _]. do 2 wp_step. case_bool_decide; [|by apply wp_ret].
    apply maintains_bind; [by apply anchor_modify_ok|intros; apply anchor_event_ok|done].
Qed.
#[local] Hint Resolve try_reclaim_period_ok : maintain.
Lemma pay_chain_reward_ok p k r chain : maintains anchor_ok (pay_chain_reward p k r chain).
Proof. destruct chain as [x [t total]]. unfold pay_chain_reward, pay_recipient. maintains_tac. Qed.
#[local] Hint Resolve pay_chain_reward_ok : maintain.
(** What is settled is no longer unpaid, in both indexes. *)
Lemma settle_step p k s :
  anchor_ok s →
  anchor_ok (Runtime.upd_anchor (AnchorStorage.upd_UnpaidByNode (λ u, u ∖ {[(k, p)]}))
    (Runtime.upd_anchor (AnchorStorage.upd_UnpaidByPeriod (delete (p, k))) s)).
Proof.
  intros Hs. change (anchor_ok (Runtime.upd_anchor (λ a, AnchorStorage.upd_UnpaidByNode (λ u, u ∖ {[(k, p)]})
    (AnchorStorage.upd_UnpaidByPeriod (delete (p, k)) a)) s)). apply rewards_step; [done|done| |done].
  destruct Hs as [[M S] B C]. constructor; cbn.
  - intros q j. rewrite lookup_delete_is_Some, M. set_solver.
  - intros q j [_ Hq]%lookup_delete_is_Some. by apply S in Hq.
Qed.
Lemma try_pay_node_period_ok p k : maintains anchor_ok (try_pay_node_period p k).
Proof.
  apply transactional_maintains. intros s Hs. unfold anchor_modify. repeat (wp_step; try done).
  eapply wp_mono; [apply (maintains_for_each anchor_ok); [intros; apply pay_chain_reward_ok|done]| |done].
  intros [] s' Hs'. do 4 wp_step. wp_step. eapply wp_mono; [apply anchor_event_ok, settle_step, Hs'| |done].
  intros [] s2 Hs2. eapply wp_mono; [by apply try_reclaim_period_ok|done|done].
Qed.
#[local] Hint Resolve try_pay_node_period_ok : maintain.
Lemma pay_or_report_ok key : maintains anchor_ok (pay_or_report key).
Proof. unfold pay_or_report. maintains_tac. Qed.
#[local] Hint Resolve pay_or_report_ok : maintain.
Lemma claim_node_ok k m : maintains anchor_ok (claim_node k m).
Proof. unfold claim_node. maintains_tac. Qed.
Lemma sweep_ok meter m : maintains anchor_ok (sweep meter m).
Proof.
  unfold sweep, anchor_get. maintains_tac; by apply anchor_modify_ok.
Qed.
#[local] Hint Resolve claim_node_ok sweep_ok : maintain.
Lemma on_idle_ok meter : maintains anchor_ok (on_idle meter).
Proof. unfold on_idle. maintains_tac. Qed.
Lemma snapshot_ok p : maintains anchor_ok (snapshot_chain_rewards p).
Proof.
  apply maintains_bind; [apply maintains_gets|]. intros l. apply maintains_for_each. intros [x [t v]].
  case_bool_decide; [apply maintains_ret|]. apply maintains_modify. intros s Hs.
  apply rewards_step; [done|done| |done]. destruct Hs as [[M S] _ _]. constructor; cbn; [done|].
  intros q k Hq. apply S in Hq as [y Hy]. exists y. apply lookup_insert_is_Some. destruct (decide ((p, x) = (q, y))); auto.
Qed.
Lemma record_share_ok p o k e share : maintains anchor_ok (record_share p o k e share).
Proof.
  intros s Hs. unfold record_share, anchor_modify. case_bool_decide; [by apply wp_ret|]. do 2 wp_step.
  case_bool_decide as Hc; [by apply wp_ret|]. repeat wp_step.
  change (anchor_ok (Runtime.upd_anchor (λ a, AnchorStorage.upd_UnpaidByNode (union {[(k, p)]})
    (AnchorStorage.upd_UnpaidByPeriod (insert (p, k) (RewardRecord.mk o share e)) a)) s)).
  apply rewards_step; [done|done| |done]. destruct Hs as [[M S] _ _]. constructor; cbn.
  - intros q j. rewrite lookup_insert_is_Some', M. set_solver.
  - intros q j. rewrite lookup_insert_is_Some'. intros [[= <- <-]|Hq]; [|by eapply S].
    destruct (chain_rewards p s) as [|[x v] l] eqn:Hl; [done|].
    exists x, v. apply (prefix_elem asset_position p). fold (chain_rewards_of p (AnchorStorage.PeriodChainReward (Runtime.anchor s))).
    fold (chain_rewards p s). rewrite Hl. left.
Qed.
Lemma complete_chain_rewards_ok p : maintains anchor_ok (complete_chain_rewards p).
Proof. unfold complete_chain_rewards. maintains_tac. by apply anchor_modify_ok. Qed.

(** ** Checkpoints *)

Lemma charge_fee_ok h c : maintains anchor_ok (charge_fee h c).
Proof. unfold charge_fee. maintains_tac. Qed.
Lemma bump_anchor_nonce_ok c : maintains anchor_ok (bump_anchor_nonce c).
Proof. unfold bump_anchor_nonce. maintains_tac. by apply anchor_modify_ok. Qed.
(** A checkpoint gets the next number of its chain. *)
Lemma checkpoint_step c o h i s :
  anchor_ok s → next_checkpoint (Runtime.anchor s) c = i →
  AnchorStorage.OriginIdToCheckpoint (Runtime.anchor s) !! (c, o) = None →
  anchor_ok (Runtime.upd_anchor (λ a, AnchorStorage.upd_OriginIdToCheckpoint (insert (c, o) i)
    (AnchorStorage.upd_Checkpoints (insert (c, i) (CheckpointData.mk h o))
       (AnchorStorage.upd_NextCheckpointId (insert c (i + 1)) a))) s).
Proof.
  intros Hs Hi Ho. apply checkpoints_step; [done|done| |done]. destruct Hs as [R C [A B]].
  assert (∀ c' j, j < next_checkpoint (Runtime.anchor s) c' →
    j < unwrap_or 0 (<[c := i + 1]> (AnchorStorage.NextCheckpointId (Runtime.anchor s)) !! c')) as Hnext.
  { intros c' j Hj. destruct (decide (c' = c)) as [->|Hc].
    - rewrite lookup_insert_eq. cbn. lia.
    - by rewrite lookup_insert_ne. }
  constructor; unfold next_checkpoint; cbn.
  - intros c' j d [[[= <- <-] <-]|[Hne Hd]]%lookup_insert_Some.
    + rewrite lookup_insert_eq. cbn. rewrite lookup_insert_eq. split; [lia|done].
    + apply A in Hd as [Hlt Hor]. split; [by apply Hnext|]. rewrite lookup_insert_ne; [done|]. intros [= <- Hx].
      rewrite <- Hx in Hor. congruence.
  - intros c' o' j [[[= <- <-] <-]|[Hne Hj]]%lookup_insert_Some; [exists h; by rewrite lookup_insert_eq|].
    apply B in Hj as [h' Hd]. exists h'. rewrite lookup_insert_ne; [done|]. intros [= <- <-].
    apply A in Hd as [? _]. lia.
Qed.
Lemma do_submit_checkpoint_ok h d c o : keeps anchor_ok (do_submit_checkpoint h d c o).
Proof.
  intros s Hs. unfold do_submit_checkpoint, get_next_checkpoint_id, anchor_modify. repeat (wp_step; bool_tac; try done).
  rename select (checked_add_to _ _ _ = Some _) into Hi. unfold checked_add_to in Hi. case_bool_decide; [|done].
  injection Hi as <-. eapply wp_mono; [apply anchor_event_ok|..|done].
  - change (anchor_ok (Runtime.upd_anchor (λ a, AnchorStorage.upd_OriginIdToCheckpoint (insert (c, o) (next_checkpoint_id c s))
      (AnchorStorage.upd_Checkpoints (insert (c, next_checkpoint_id c s) (CheckpointData.mk d o))
         (AnchorStorage.upd_NextCheckpointId (insert c (next_checkpoint_id c s + 1)) a))) s)).
    by apply checkpoint_step.
  - intros [] s' Hs'. eapply wp_mono; [apply maintains_bind; [apply bump_anchor_nonce_ok|intros; apply charge_fee_ok|done]|done..].
Qed.

(** ** Chains *)

(** A new handler takes over the chain of an old one. *)
Lemma handler_step old new c s :
  anchor_ok s → AnchorStorage.ChainHandlers (Runtime.anchor s) !! new = None →
  AnchorStorage.ChainHandlers (Runtime.anchor s) !! old = Some c →
  anchor_ok (Runtime.upd_anchor (λ a, AnchorStorage.upd_ChainHandlers (delete old)
    (AnchorStorage.upd_ChainHandlers (insert new c) a)) s).
Proof.
  intros Hs Hnew Hold. apply chains_step; [done|done| |done]. destruct Hs as [_ [A B C D E F G I J] _].
  assert (old ≠ new) as Hne by congruence.
  assert (∀ h c', delete old (<[new := c]> (AnchorStorage.ChainHandlers (Runtime.anchor s))) !! h = Some c' ↔
    h = new ∧ c' = c ∨ h ≠ old ∧ h ≠ new ∧ AnchorStorage.ChainHandlers (Runtime.anchor s) !! h = Some c') as Hl.
  { intros h c'. rewrite lookup_delete_Some, lookup_insert_Some. naive_solver. }
  constructor; cbn; try done.
  - intros h c'. rewrite Hl. naive_solver.
  - intros h h' c'. rewrite !Hl. naive_solver.
  - intros c'. rewrite <- D. split.
    + intros [h [[-> ->]|(_&_&Hh)]%Hl]; eauto.
    + intros [h Hh]. destruct (decide (h = old)) as [->|Ho].
      * exists new. apply Hl. left. split; [done|congruence].
      * exists h. apply Hl. right. split_and!; [done|congruence|done].
Qed.
Lemma do_update_chain_handler_ok old new c s :
  anchor_ok s → chain_handler old s = Some c →
  wp (do_update_chain_handler old new c) s (λ _ s', anchor_ok s') (λ _ _, True).
Proof.
  intros Hs Hc. unfold do_update_chain_handler, anchor_modify. repeat (wp_step; bool_tac; try done).
  eapply wp_mono; [apply anchor_event_ok|done|done].
  change (anchor_ok (Runtime.upd_anchor (λ a, AnchorStorage.upd_ChainHandlers (delete old)
    (AnchorStorage.upd_ChainHandlers (insert new c) a)) s)). by apply handler_step.
Qed.
(** A registration uses a chain number that was not used before. *)
Lemma register_step h x ids s as' metadata :
  anchor_ok s → AnchorStorage.ChainHandlers (Runtime.anchor s) !! h = None →
  register_asset x metadata (Runtime.assets s) = Some as' →
  try_push MaxRegisteredAppChains (AnchorStorage.RegisteredAppchains (Runtime.anchor s)) x = Some ids →
  let c := AnchorStorage.NextChainId (Runtime.anchor s) in
  anchor_ok (Runtime.upd_anchor (λ a, AnchorStorage.upd_RegisteredAppchains (λ _, ids)
    (AnchorStorage.upd_AssetIdToChainId (insert x c) (AnchorStorage.upd_ChainHandlers (insert h c)
       (AnchorStorage.upd_NextChainId (λ _, c + 1) a)))) (Runtime.upd_assets (λ _, as') s)).
Proof.
  intros Hs Hh Hr Hids c. pose proof (register_asset_fresh _ _ _ _ Hr) as Hf.
  destruct (register_asset_known _ _ _ _ Hr) as [Hk Hk'].
  assert (anchor_ok (Runtime.upd_assets (λ _, as') s)) as Hs' by (by apply (anchor_ok_same s)).
  apply chains_step; [done|done| |done]. destruct Hs as [_ [A B C D E F G I J] _].
  assert (AnchorStorage.AssetIdToChainId (Runtime.anchor s) !! x = None) as Hx.
  { apply eq_None_not_Some. intros Hx. by apply I in Hx. }
  assert (∀ y c', AnchorStorage.AssetIdToChainId (Runtime.anchor s) !! y = Some c' → c' < c) as Hlt.
  { intros y c' Hy. destruct (proj2 (D c')) as [h' Hh']; [by exists y|]. by eapply A. }
  apply try_push_Some in Hids as [-> Hlen]. constructor; cbn.
  - intros h' c' [[<- <-]|[_ Hc]]%lookup_insert_Some; [lia|]. apply A in Hc. fold c in Hc. lia.
  - intros h1 h2 c'. rewrite !lookup_insert_Some. intros [[<- <-]|[_ H1c]] [[<- Hc]|[_ H2c]];
      [done|apply A in H2c; fold c in H2c; lia|subst c'; apply A in H1c; fold c in H1c; lia|by eapply B].
  - intros y z c'. rewrite !lookup_insert_Some. intros [[<- <-]|[_ H1c]] [[<- Hc]|[_ H2c]];
      [done|apply Hlt in H2c; lia|subst c'; apply Hlt in H1c; lia|by eapply C].
  - intros c'. destruct (decide (c' = c)) as [->|Hne].
    + split; intros _; [exists x|exists h]; apply lookup_insert_eq.
    + split.
      * intros [h' [[_ ?]|[_ Hh']]%lookup_insert_Some]; [done|]. destruct (proj1 (D c')) as [y Hy]; [by exists h'|].
        exists y. rewrite lookup_insert_ne; [done|]. congruence.
      * intros [y [[_ ?]|[_ Hy]]%lookup_insert_Some]; [done|]. destruct (proj2 (D c')) as [h' Hh']; [by exists y|].
        exists h'. rewrite lookup_insert_ne; [done|]. congruence.
  - intros y. rewrite elem_of_app, list_elem_of_singleton, E, lookup_insert_is_Some'. naive_solver.
  - apply NoDup_app. split_and!; [done| |apply NoDup_singleton]. intros y Hy ->%list_elem_of_singleton.
    apply E in Hy. rewrite Hx in Hy. by apply is_Some_None in Hy.
  - done.
  - intros y. rewrite lookup_insert_is_Some'. intros [<-|Hy]; [done|]. apply Hk', I, Hy.
  - intros y v Hy. apply J in Hy as [Hy Hv]. split; [|done]. apply lookup_insert_is_Some'. by right.
Qed.
Lemma register_appchain_ok origin h name symbol token x decimals :
  keeps anchor_ok (register_appchain origin h name symbol token x decimals).
Proof.
  intros s Hs. unfold register_appchain, get_next_chain_id, anchor_get, anchor_modify, update_assets. wp_step.
  destruct origin; cbn [ensure_root]; try (by repeat wp_step). repeat (wp_step; bool_tac; try done).
  rename select (checked_add_to _ _ _ = Some _) into Hi. unfold checked_add_to in Hi. case_bool_decide; [|done].
  injection Hi as <-. rename select (register_asset _ _ _ = Some _) into Hr.
  rename select (try_push _ _ _ = Some _) into Hids. rename select (chain_handler h s = None) into Hh.
  eapply wp_mono; [apply anchor_event_ok|done|done]. exact (register_step h x _ s _ _ Hs Hh Hr Hids).
Qed.
Lemma ensure_reward_manager_ok origin x : maintains anchor_ok (ensure_reward_manager origin x).
Proof. unfold ensure_reward_manager, anchor_get. maintains_tac. Qed.
Lemma ensure_reward_manager_spec origin x s :
  wp (ensure_reward_manager origin x) s
    (λ _ s', s' = s ∧ is_Some (AnchorStorage.AssetIdToChainId (Runtime.anchor s) !! x)) (λ _ s', s' = s).
Proof.
  unfold ensure_reward_manager, anchor_get. repeat (wp_step; try done).
  destruct origin; repeat (wp_step; try done); unfold compose in *; eauto.
Qed.
(** The rewards of the periods to come. *)
Lemma next_reward_step f s :
  anchor_ok s →
  (∀ x v, f (AnchorStorage.NextRewardAmountPerPeriod (Runtime.anchor s)) !! x = Some v →
    AnchorStorage.NextRewardAmountPerPeriod (Runtime.anchor s) !! x = Some v ∨
    is_Some (AnchorStorage.AssetIdToChainId (Runtime.anchor s) !! x) ∧ 0 < v.2) →
  anchor_ok (Runtime.upd_anchor (AnchorStorage.upd_NextRewardAmountPerPeriod f) s).
Proof.
  intros Hs Hf. apply chains_step; [done|done| |done]. destruct Hs as [_ [A B C D E F G I J] _].
  constructor; cbn; try done. intros x v [Hv|Hv]%Hf; [by apply J|done].
Qed.
Lemma lift_wp {A} (r : outcome DispatchError A) s (Q : A → Runtime.t → Prop) (R : DispatchError → Runtime.t → Prop) :
  (∀ v, r = Ok v → Q v s) → (∀ e, r = Err e → R e s) → r ≠ Panic → wp (lift_outcome r) s Q R.
Proof. unfold wp, lift_outcome. destruct r; auto. Qed.
Lemma set_appchain_period_reward_ok origin x amount : keeps anchor_ok (set_appchain_period_reward origin x amount).
Proof.
  intros s Hs. unfold set_appchain_period_reward. wp_step.
  eapply wp_mono; [apply ensure_reward_manager_spec| |done]. intros [] s' [-> Hx].
  repeat (wp_step; bool_tac; try done). apply lift_wp; [|done|].
  - intros t _. unfold anchor_modify. do 2 wp_step.
    eapply wp_mono; [apply maintains_bind; [apply anchor_event_ok|intros _; maintains_tac|]|done|done].
    apply next_reward_step; [done|]. intros y v [[<- <-]|[_ Hy]]%lookup_insert_Some; [right|by left].
    split; [by apply not_eq_None_Some|done].
  - unfold resolve_payout_token. destruct (registry_metadata _ x) as [m|]; [|done]. cbn.
    destruct (RegistryMetadata.appchain_native m); [|done]. cbn. by destruct (RegistryMetadata.location m).
Qed.
Lemma disable_appchain_ok origin x : keeps anchor_ok (disable_appchain origin x).
Proof.
  intros s Hs. unfold disable_appchain. wp_step.
  eapply wp_mono; [apply ensure_reward_manager_spec| |done]. intros [] s' [-> Hx].
  unfold anchor_modify. repeat (wp_step; bool_tac; try done).
  eapply wp_mono; [apply anchor_event_ok|done|done].
  apply next_reward_step; [done|]. intros y v [_ Hy]%lookup_delete_Some. by left.
Qed.
(** A chain is deregistered with its handler, its token and its reward. *)
Lemma deregister_step h x c s as' :
  anchor_ok s → AnchorStorage.AssetIdToChainId (Runtime.anchor s) !! x = Some c →
  AnchorStorage.ChainHandlers (Runtime.anchor s) !! h = Some c →
  update_asset_native x false (Runtime.assets s) = Some as' →
  anchor_ok (Runtime.upd_anchor (λ a, AnchorStorage.upd_NextRewardAmountPerPeriod (delete x)
    (AnchorStorage.upd_ChainHandlers (delete h) (AnchorStorage.upd_AssetIdToChainId (delete x)
       (AnchorStorage.upd_RegisteredAppchains (filter (λ id, id ≠ x)) a)))) (Runtime.upd_assets (λ _, as') s)).
Proof.
  intros Hs Hx Hh Hr. assert (anchor_ok (Runtime.upd_assets (λ _, as') s)) as Hs'.
  { apply (anchor_ok_same s); [done| |done]. intros y. by eapply update_asset_known. }
  apply chains_step; [done|done| |done]. destruct Hs' as [_ [A B C D E F G I J] _]. cbn in *.
  constructor; cbn.
  - intros h' c' [_ Hc]%lookup_delete_Some. by eapply A.
  - intros h1 h2 c' [_ H1c]%lookup_delete_Some [_ H2c]%lookup_delete_Some. by eapply B.
  - intros y z c' [_ H1c]%lookup_delete_Some [_ H2c]%lookup_delete_Some. by eapply C.
  - intros c'. split.
    + intros [h' [Hne Hc]%lookup_delete_Some]. destruct (proj1 (D c')) as [y Hy]; [by exists h'|]. exists y.
      apply lookup_delete_Some. split; [|done]. intros <-. assert (c' = c) as -> by congruence. by eapply Hne, B.
    + intros [y [Hne Hy]%lookup_delete_Some]. destruct (proj2 (D c')) as [h' Hc]; [by exists y|]. exists h'.
      apply lookup_delete_Some. split; [|done]. intros <-. assert (c' = c) as -> by congruence. by eapply Hne, C.
  - intros y. rewrite list_elem_of_filter, E, lookup_delete_is_Some. naive_solver.
  - by apply NoDup_filter.
  - etrans; [apply length_filter|done].
  - intros y [_ Hy]%lookup_delete_is_Some. by apply I.
  - intros y v [Hne Hy]%lookup_delete_Some. apply J in Hy as [Hy Hv]. split; [|done].
    by apply lookup_delete_is_Some.
Qed.
Lemma deregister_appchain_ok origin h x : keeps anchor_ok (deregister_appchain origin h x).
Proof.
  intros s Hs. unfold deregister_appchain, anchor_get, anchor_modify, update_assets. wp_step.
  destruct origin; cbn [ensure_root]; try (by repeat wp_step). repeat (wp_step; bool_tac; try done).
  rename select (update_asset_native _ _ _ = Some _) into Hr. rename select (chain_handler h s = Some _) into Hh.
  rename select (_ !! x = Some _) into Hx. eapply wp_mono; [apply anchor_event_ok|done|done].
  exact (deregister_step h x _ s _ Hs Hx Hh Hr).
Qed.
(** ** Every call *)
Lemma anchor_call_ok origin call : keeps anchor_ok (anchor_call origin call).
Proof.
  assert (∀ o, maintains anchor_ok (ensure_signed o)) as Hsigned by (intros []; maintains_tac).
  assert (∀ o, maintains anchor_ok (ensure_root o)) as Hroot by (intros []; maintains_tac).
  destruct call; cbn [anchor_call].
  - apply keeps_maintains. maintains_tac.
  - intros s Hs. unfold update_chain_handler. destruct origin; cbn [ensure_signed]; repeat (wp_step; bool_tac; try done).
    by apply do_update_chain_handler_ok.
  - intros s Hs. unfold submit_checkpoint_with_identity. destruct origin; cbn [ensure_signed]; repeat (wp_step; bool_tac; try done).
    by apply do_submit_checkpoint_ok.
  - apply keeps_maintains. maintains_tac.
  - intros s Hs. unfold signed_update_chain_handler. destruct origin; cbn [ensure_signed]; repeat (wp_step; bool_tac; try done).
    eapply wp_mono; [by apply do_update_chain_handler_ok| |done]. intros [] s' Hs'.
    by apply keeps_maintains; [apply bump_anchor_nonce_ok|].
  - intros s Hs. unfold signed_submit_checkpoint_with_identity.
    destruct origin; cbn [ensure_signed]; repeat (wp_step; bool_tac; try done). by apply do_submit_checkpoint_ok.
  - apply keeps_maintains. unfold set_checkpoint_fee. maintains_tac. by apply anchor_modify_ok.
  - apply register_appchain_ok.
  - apply set_appchain_period_reward_ok.
  - apply keeps_maintains. unfold claim. maintains_tac.
  - apply keeps_maintains. unfold process_outstanding_rewards. maintains_tac.
  - apply disable_appchain_ok.
  - apply deregister_appchain_ok.
  - apply keeps_maintains. unfold reclaim_period. maintains_tac.
Qed.
End AnchorInv.

(** * App chains in the runtime

    The invariants of [AnchorInv] in every state that the calls, the hooks and
    [on_idle] reach; what settling the reward of a node pays; and why the call that is
    to guarantee progress can get stuck. *)

Section AnchorProps.
Context `{BridgeConfig} `{!NodeConfig} `{!AnchorConfig} `{!RegistryLaws}.
Implicit Types (s : Runtime.t) (p : RewardPeriodIndex) (k : NodeId).

(** ** Every reachable state *)

(** The calls, [on_idle], what the node manager calls with whatever it passes, and
    steps of the rest of the runtime, which do not touch the pallet and do not make
    the registry forget an asset. *)
Inductive anchor_step : Runtime.t → Runtime.t → Prop :=
  | anchor_step_call origin call s : anchor_step s (transactional (anchor_call origin call) s).2
  | anchor_step_idle meter s : anchor_step s (on_idle meter s).2
  | anchor_step_period p s : anchor_step s (snapshot_chain_rewards p s).2
  | anchor_step_paid p owner k expiry share s : anchor_step s (record_share p owner k expiry share s).2
  | anchor_step_completed p s : anchor_step s (complete_chain_rewards p s).2
  | anchor_step_others s s' :
      Runtime.anchor s' = Runtime.anchor s → (∀ x, known s x → known s' x) → anchor_step s s'.
(** No app chain, no checkpoint, nothing owed. *)
Definition anchor_start s : Prop :=
  let a := Runtime.anchor s in
  rewards_view a = (∅, ∅, ∅) ∧ chains_view a = (∅, 0, ∅, [], ∅) ∧ checkpoints_view a = (∅, ∅, ∅).

Lemma anchor_start_ok s : anchor_start s → anchor_ok s.
Proof.
  unfold anchor_start, rewards_view, chains_view, checkpoints_view.
  intros ([= E1 E2 E3]&[= F1 F2 F3 F4 F5]&[= G1 G2 G3]). constructor.
  - constructor; intros p k; rewrite E2, lookup_empty; [rewrite E3|by intros [??]].
    split; [by intros [??]|set_solver].
  - constructor; rewrite ?F1, ?F2, ?F3, ?F4, ?F5.
    + intros h c. by rewrite lookup_empty.
    + intros h h' c. by rewrite lookup_empty.
    + intros x y c. by rewrite lookup_empty.
    + intros c. split; intros [? Hc]; by rewrite lookup_empty in Hc.
    + intros x. rewrite lookup_empty. split; [set_solver|by intros [??]].
    + constructor.
    + cbn. lia.
    + intros x. rewrite lookup_empty. by intros [??].
    + intros x v. by rewrite lookup_empty.
  - constructor; rewrite ?G1, ?G2; intros ? ? ?; by rewrite lookup_empty.
Qed.
Lemma anchor_run {A} (m : Dispatch A) s : maintains anchor_ok m → anchor_ok s → anchor_ok (m s).2.
Proof. intros Hm Hs. specialize (Hm s Hs). unfold wp in Hm. by destruct (m s) as [[] ?]. Qed.
Lemma anchor_step_ok s s' : anchor_step s s' → anchor_ok s → anchor_ok s'.
Proof.
  destruct 1; intros Hs.
  - apply anchor_run; [|done]. apply transactional_maintains, anchor_call_ok.
  - by apply anchor_run; [apply on_idle_ok|].
  - by apply anchor_run; [apply snapshot_ok|].
  - by apply anchor_run; [apply record_share_ok|].
  - by apply anchor_run; [apply complete_chain_rewards_ok|].
  - by eapply anchor_ok_same.
Qed.


(** ** What a settlement pays *)

Definition anchor_events s : list AnchorEvent.t :=
  omap (λ e, match e with AnchorEvent_ e => Some e | _ => None end) (Runtime.events s).
(** The payments that are due to a node of a period: its share of the reward of each
    chain it is eligible for, rounded down. *)
Definition due p k (r : RewardRecord.t) (chains : list (AppChainAssetId * (H160 * Balance))) : list AnchorEvent.t :=
  omap (λ '(x, (_, total)),
    let amount := share_of (RewardRecord.share r) total in
    if is_eligible x k p (RewardRecord.auto_stake_expiry r) && negb (bool_decide (amount = 0))
    then Some (AnchorEvent.AppChainRewardPaid p k (RewardRecord.owner r) x amount) else None) chains.
Definition owed s := (AnchorStorage.PeriodChainReward (Runtime.anchor s), AnchorStorage.UnpaidByPeriod (Runtime.anchor s)).
Definition told s := (owed s, anchor_events s).

Lemma anchor_event_told e s :
  told (Runtime.upd_events (λ l, l ++ [AnchorEvent_ e]) s) = (owed s, anchor_events s ++ [e]).
Proof. unfold told, anchor_events. cbn. by rewrite omap_app. Qed.
Lemma token_event_told e : leaves told (token_event e).
Proof. apply leaves_modify. intros s. unfold told, anchor_events. cbn. by rewrite omap_app, app_nil_r. Qed.
Lemma update_assets_told f e : leaves told (update_assets f e).
Proof. unfold update_assets. leaves_tac. Qed.
Lemma settle_transfer_told t from to amount : leaves told (settle_transfer t from to amount).
Proof.
  pose proof token_event_told. pose proof update_assets_told. unfold settle_transfer, put_balance, token_modify. leaves_tac.
Qed.
Lemma settle_no_panic t from to amount s : (settle_transfer t from to amount s).1 ≠ Panic.
Proof.
  apply total_of. pose proof modify_total. unfold settle_transfer, put_balance, token_modify, update_assets, token_event, deposit_event.
  maintains_tac.
Qed.
Lemma pay_chain_reward_spec p k r x s :
  wp (pay_chain_reward p k r x) s
    (λ _ s', told s' = (owed s, anchor_events s ++ due p k r [x])) (λ _ _, True).
Proof.
  destruct x as [x [t total]]. unfold pay_chain_reward, due. cbn -[told anchor_event pay_recipient].
  destruct (is_eligible x k p _); cbn [negb andb]; [|by apply wp_ret; rewrite app_nil_r].
  case_bool_decide; cbn [negb]; [by apply wp_ret; rewrite app_nil_r|]. wp_step.
  pose proof (settle_transfer_told t AppChainRewardPot (RewardRecord.owner r) (share_of (RewardRecord.share r) total) s) as Hl.
  pose proof (settle_no_panic t AppChainRewardPot (RewardRecord.owner r) (share_of (RewardRecord.share r) total) s) as Hn.
  unfold pay_recipient, wp at 1. destruct (settle_transfer _ _ _ _ s) as [[[]|e|] s']; cbn in Hl, Hn; [|done..].
  apply wp_modify. rewrite anchor_event_told. unfold told in Hl. injection Hl as Hl1 Hl2 Hl3. unfold owed.
  by rewrite Hl1, Hl2, Hl3.
Qed.
Lemma due_cons p k r x l : due p k r (x :: l) = due p k r [x] ++ due p k r l.
Proof. unfold due. change (x :: l) with ([x] ++ l). by rewrite omap_app. Qed.
Lemma pay_chains_spec p k r l s :
  wp (for_each (pay_chain_reward p k r) l) s
    (λ _ s', told s' = (owed s, anchor_events s ++ due p k r l)) (λ _ _, True).
Proof.
  revert s. induction l as [|x l IH]; intros s; cbn [for_each]; [apply wp_ret; by rewrite app_nil_r|].
  wp_step. eapply wp_mono; [apply pay_chain_reward_spec| |done]. cbn beta. intros [] s1 Hs1.
  eapply wp_mono; [apply IH| |done]. cbn beta. intros [] s2 Hs2. rewrite Hs2, due_cons, app_assoc.
  unfold told in Hs1. apply pair_eq in Hs1 as [-> ->]. done.
Qed.
(** Reclaiming does not touch what is unpaid, and reports at most that it is done. *)
Lemma try_reclaim_spec p s :
  wp (try_reclaim_period p) s
    (λ _ s', AnchorStorage.UnpaidByPeriod (Runtime.anchor s') = AnchorStorage.UnpaidByPeriod (Runtime.anchor s) ∧
       ∃ es, anchor_events s' = anchor_events s ++ es ∧ (es = [] ∨ es = [AnchorEvent.AppChainRewardPayoutCompleted p]))
    (λ _ _, True).
Proof.
  set (v s := (AnchorStorage.UnpaidByPeriod (Runtime.anchor s), anchor_events s)).
  assert (∀ s', v s' = v s → AnchorStorage.UnpaidByPeriod (Runtime.anchor s') = AnchorStorage.UnpaidByPeriod (Runtime.anchor s) ∧
       ∃ es, anchor_events s' = anchor_events s ++ es ∧ (es = [] ∨ es = [AnchorEvent.AppChainRewardPayoutCompleted p])) as Hnone.
  { unfold v. intros s' [= -> ->]. split; [done|]. exists []. rewrite app_nil_r. auto. }
  unfold try_reclaim_period, anchor_get. do 4 wp_step. destruct (negb _); [apply wp_ret; auto|].
  destruct (has_unpaid p s); [apply wp_ret; auto|]. do 3 wp_step.
  eapply wp_mono; [apply (maintains_for_each (λ s', v s' = v s)); [|done]| |done].
  { intros x. by apply maintains_modify. }
  cbn beta. intros [] s1 Hs1. do 2 wp_step. case_bool_decide; [|apply wp_ret; auto].
  wp_step. apply wp_modify, wp_modify. unfold v in Hs1. injection Hs1 as Hu He. cbn. split; [done|].
  exists [AnchorEvent.AppChainRewardPayoutCompleted p]. split; [|by right].
  unfold anchor_events in *. cbn. by rewrite omap_app, He.
Qed.


(** ** Progress of the sweep *)

(** The call that is to guarantee progress does not: when the cursor stands at the
    last unpaid record, or behind it, the call finds nothing to do, fails, and the
    reset of the cursor is rolled back with it.  As long as no record is added behind
    the cursor it fails again, whoever calls it, although rewards are unpaid. *)
Theorem sweep_call_stuck s who :
  unpaid_after (AnchorStorage.SweepCursor (Runtime.anchor s)) s = [] →
  transactional (process_outstanding_rewards (Signed who)) s = (Err (Anchor_ AnchorError.NoUnpaidRewards), s).
Proof.
  intros Hu. unfold transactional, process_outstanding_rewards. cbn [ensure_signed].
  assert (∃ s', sweep full_meter MaxPeriodsPerPayout s = (Ok 0%nat, s')) as [s' Hs].
  { unfold sweep, anchor_get, mbind, M_bind, gets. cbn -[collect_batch unpaid_after]. rewrite Hu.
    destruct MaxPeriodsPerPayout; cbn; [by eexists|]. destruct (can_consume full_meter); cbn; by eexists. }
  unfold mbind, M_bind. cbn -[sweep]. rewrite Hs. done.
Qed.
End AnchorProps.

(** ** An app chain *)

#[global] Instance demo_registry_laws : @RegistryLaws demo_config demo_anchor_config.
Proof.
  assert (∀ x y, registry_key x = registry_key y → x = y) as Hinj.
  { intros x y. unfold registry_key. intros He. apply (inj z_position). lia. }
  constructor; cbn; unfold demo_metadata, demo_register, demo_set_native, Ledger.t in *; try done.
  - apply _.
  - intros x m l l'. by destruct (l !! registry_key x) as [[]|].
  - intros x m l l'. destruct (l !! registry_key x) as [[]|]; [done|].
    destruct (RegistryMetadata.location m); [|done]. intros [= <-]. split; [by rewrite lookup_insert_eq|].
    intros y. destruct (decide (registry_key x = registry_key y)) as [->|Hne]; [by rewrite lookup_insert_eq|].
    by rewrite lookup_insert_ne.
  - intros x native l l' y. destruct (l !! registry_key x) as [[]|]; [|done]. intros [= <-].
    destruct (decide (registry_key x = registry_key y)) as [->|Hne]; [by rewrite lookup_insert_eq|].
    by rewrite lookup_insert_ne.
Qed.

Section Run.
#[local] Existing Instance demo_config.

(** Account 60 runs an app chain that pays 100 a period; nodes 1 and 2 have half of
    period 0 each, but there is nothing to pay them from. *)
Definition demo_chain : Runtime.t :=
  let call origin c s := (transactional (anchor_call origin c) s).2 in
  call (Signed 60%N) (Call_set_appchain_period_reward 1 100)
    (call Root (Call_register_appchain 60%N (b "chain") (b "TOK") 8%N 1 18) demo_state).
Definition demo_owing : Runtime.t :=
  let half := 500000000000000000 in
  (record_share 0 51%N 2%N 0 half (record_share 0 50%N 1%N 0 half (snapshot_chain_rewards 0 demo_chain).2).2).2.
(** Both payments fail, and the cursor is left at the second. *)
Definition demo_swept : Runtime.t :=
  (transactional (anchor_call (Signed 9%N) Call_process_outstanding_rewards) demo_owing).2.

Lemma sweep_call_stuck_witness :
  all_unpaid demo_swept = [(0, 1%N); (0, 2%N)] ∧
  transactional (process_outstanding_rewards (Signed 9%N)) demo_swept =
    (Err (Anchor_ AnchorError.NoUnpaidRewards), demo_swept).
Proof. split; [by vm_compute|]. apply sweep_call_stuck. by vm_compute. Defined.
End Run.
