(* ===== verification/NftManager.v ===== *)
(** * The NFT manager

    [pallets/nft-manager/src]: [nft_data.rs], [batch_nft.rs] and [lib.rs].  NFTs are minted
    one by one, or in batches with a fixed supply; their owners list them for sale, for fiat
    or on Ethereum, and a sale moves the NFT to its new owner: by a call that the owner
    signed, or by an event of Ethereum that another pallet has processed.  The crates for
    hashes and signatures are fields of a class. *)

From S2P Require Import Prelude Slices Bytes EventTypes RuntimeErrors BridgeTypes.

Abbreviation NftId := N (only parsing).
Abbreviation NftInfoId := N (only parsing).
Abbreviation NftBatchId := N (only parsing).
Abbreviation NftUniqueId := N (only parsing).

(** ** Data: [nft_data.rs] *)

Definition ROYALTY_RATE_DENOMINATOR : N := 1000000.
Definition MAX_NUMBER_OF_ROYALTIES : nat := 16.

Module RoyaltyRate.
Record t := mk { parts_per_million : N }.
#[global] Instance t_eq : EqDecision t.
Proof. solve_decision. Defined.
Definition is_valid (self : t) : bool := (parts_per_million self <=? ROYALTY_RATE_DENOMINATOR)%N.
End RoyaltyRate.

Module Royalty.
Record t := mk { recipient_t1_address : H160; rate : RoyaltyRate.t }.
#[global] Instance t_eq : EqDecision t.
Proof. solve_decision. Defined.
End Royalty.

Module Nft.
Record t := mk {
  nft_id : NftId;
  info_id : NftInfoId;
  unique_external_ref : bytes;
  nonce : Z;
  owner : AccountId;
  is_locked : bool;
}.
Definition new (nft_id : NftId) (info_id : NftInfoId) (unique_external_ref : bytes)
    (owner : AccountId) : t :=
  mk nft_id info_id unique_external_ref 0 owner false.
(** [nft.nonce += 1u64]. *)
Definition bump_nonce (x : t) : t :=
  mk x.(nft_id) x.(info_id) x.(unique_external_ref) (x.(nonce) +₆₄ 1) x.(owner) x.(is_locked).
Definition set_owner (owner : AccountId) (x : t) : t :=
  mk x.(nft_id) x.(info_id) x.(unique_external_ref) x.(nonce) owner x.(is_locked).
End Nft.

Module NftInfo.
Record t := mk {
  info_id : NftInfoId;
  batch_id : option NftBatchId;
  royalties : list Royalty.t;
  total_supply : Z;
  t1_authority : H160;
  creator : option AccountId;
}.
Definition new (info_id : NftInfoId) (royalties : list Royalty.t) (t1_authority : H160) : t :=
  mk info_id None royalties 1 t1_authority None.
Definition new_batch (info_id : NftInfoId) (batch_id : NftBatchId) (royalties : list Royalty.t)
    (t1_authority : H160) (total_supply : Z) (creator : AccountId) : t :=
  mk info_id (Some batch_id) royalties total_supply t1_authority (Some creator).
End NftInfo.

Module NftSaleType.
Inductive t : Set := Unknown | Ethereum | Fiat.
#[global] Instance t_eq : EqDecision t.
Proof. solve_decision. Defined.
Definition default : t := Unknown.
End NftSaleType.

(** ** Errors, events and storage: [lib.rs] *)

Module NftError.
Inductive t : Set :=
  | NftAlreadyExists | RoyaltyRateIsNotValid | TotalRoyaltyRateIsNotValid
  | T1AuthorityIsMandatory | ExternalRefIsMandatory | ExternalRefIsAlreadyInUse
  | NftInfoMissing | NftIdDoesNotExist | UnsupportedMarket | SenderIsNotSigner
  | SenderIsNotOwner | NftAlreadyListed | NftIsLocked | NftNotListedForSale
  | NftNotListedForEthereumSale | NftNotListedForFiatSale | NoTier1EventForNftOperation
  | NftNonceMismatch | UnauthorizedTransaction | UnauthorizedProxyTransaction
  | UnauthorizedSignedLiftNftOpenForSaleTransaction
  | UnauthorizedSignedMintSingleNftTransaction
  | UnauthorizedSignedTransferFiatNftTransaction
  | UnauthorizedSignedCancelListFiatNftTransaction | TransactionNotSupported
  | TransferToIsMandatory | UnauthorizedSignedCreateBatchTransaction | BatchAlreadyExists
  | TotalSupplyZero | UnauthorizedSignedMintBatchNftTransaction | BatchIdIsMandatory
  | BatchDoesNotExist | SenderIsNotBatchCreator | TotalSupplyExceeded
  | UnauthorizedSignedListBatchForSaleTransaction | BatchAlreadyListed | NoNftsToSell
  | BatchNotListed | UnauthorizedSignedEndBatchSaleTransaction | BatchNotListedForFiatSale
  | BatchNotListedForEthereumSale | ExternalRefOutOfBounds | RoyaltiesOutOfBounds
  | BatchOutOfBounds.
#[global] Instance t_eq : EqDecision t.
Proof. solve_decision. Defined.
End NftError.

Module NftEvent.
Inductive t : Type :=
  | SingleNftMinted (nft_id : NftId) (owner : AccountId) (authority : H160)
  | BatchNftMinted (nft_id : NftId) (batch_nft_id : NftBatchId) (authority : H160)
      (owner : AccountId)
  | NftOpenForSale (nft_id : NftId) (sale_type : NftSaleType.t)
  | BatchOpenForSale (batch_nft_id : NftBatchId) (sale_type : NftSaleType.t)
  | EthNftTransfer (nft_id : NftId) (new_owner : AccountId) (sale_type : NftSaleType.t)
      (op_id : Z) (eth_event_id : EthEventId.t)
  | FiatNftTransfer (nft_id : NftId) (sender new_owner : AccountId) (sale_type : NftSaleType.t)
      (op_id : Z)
  | CancelSingleEthNftListing (nft_id : NftId) (sale_type : NftSaleType.t) (op_id : Z)
      (eth_event_id : EthEventId.t)
  | CancelSingleFiatNftListing (nft_id : NftId) (sale_type : NftSaleType.t) (op_id : Z)
  | CallDispatched (relayer : AccountId) (hash : H256)
  | BatchCreated (batch_nft_id : NftBatchId) (total_supply : Z) (batch_creator : AccountId)
      (authority : H160)
  | BatchSaleEnded (batch_nft_id : NftBatchId) (sale_type : NftSaleType.t).
End NftEvent.

Module NftStorage.
Record t := mk {
  Nfts : gmap NftId Nft.t;
  NftInfos : gmap NftInfoId NftInfo.t;
  NftBatches : gmap NftBatchId (list NftId);
  BatchInfoId : gmap NftBatchId NftInfoId;
  UsedExternalReferences : gmap bytes bool;
  NextInfoId : NftInfoId;
  NextSingleNftUniqueId : NftUniqueId;
  NftOpenForSale : gmap NftId NftSaleType.t;
  BatchNonces : gmap AccountId Z;
  BatchOpenForSale : gmap NftBatchId NftSaleType.t;
  events : list NftEvent.t;
}.
Definition upd_Nfts (f : (gmap NftId Nft.t) → (gmap NftId Nft.t)) (x : t) : t :=
  mk (f x.(Nfts)) x.(NftInfos) x.(NftBatches) x.(BatchInfoId) x.(UsedExternalReferences)
  x.(NextInfoId) x.(NextSingleNftUniqueId) x.(NftOpenForSale) x.(BatchNonces) x.(BatchOpenForSale)
  x.(events).
Definition upd_NftInfos (f : (gmap NftInfoId NftInfo.t) → (gmap NftInfoId NftInfo.t)) (x : t) : t :=
  mk x.(Nfts) (f x.(NftInfos)) x.(NftBatches) x.(BatchInfoId) x.(UsedExternalReferences)
  x.(NextInfoId) x.(NextSingleNftUniqueId) x.(NftOpenForSale) x.(BatchNonces) x.(BatchOpenForSale)
  x.(events).
Definition upd_NftBatches (f : (gmap NftBatchId (list NftId)) → (gmap NftBatchId (list NftId))) (x : t) : t :=
  mk x.(Nfts) x.(NftInfos) (f x.(NftBatches)) x.(BatchInfoId) x.(UsedExternalReferences)
  x.(NextInfoId) x.(NextSingleNftUniqueId) x.(NftOpenForSale) x.(BatchNonces) x.(BatchOpenForSale)
  x.(events).
Definition upd_BatchInfoId (f : (gmap NftBatchId NftInfoId) → (gmap NftBatchId NftInfoId)) (x : t) : t :=
  mk x.(Nfts) x.(NftInfos) x.(NftBatches) (f x.(BatchInfoId)) x.(UsedExternalReferences)
  x.(NextInfoId) x.(NextSingleNftUniqueId) x.(NftOpenForSale) x.(BatchNonces) x.(BatchOpenForSale)
  x.(events).
Definition upd_UsedExternalReferences (f : (gmap bytes bool) → (gmap bytes bool)) (x : t) : t :=
  mk x.(Nfts) x.(NftInfos) x.(NftBatches) x.(BatchInfoId) (f x.(UsedExternalReferences))
  x.(NextInfoId) x.(NextSingleNftUniqueId) x.(NftOpenForSale) x.(BatchNonces) x.(BatchOpenForSale)
  x.(events).
Definition upd_NextInfoId (f : NftInfoId → NftInfoId) (x : t) : t :=
  mk x.(Nfts) x.(NftInfos) x.(NftBatches) x.(BatchInfoId) x.(UsedExternalReferences)
  (f x.(NextInfoId)) x.(NextSingleNftUniqueId) x.(NftOpenForSale) x.(BatchNonces)
  x.(BatchOpenForSale) x.(events).
Definition upd_NextSingleNftUniqueId (f : NftUniqueId → NftUniqueId) (x : t) : t :=
  mk x.(Nfts) x.(NftInfos) x.(NftBatches) x.(BatchInfoId) x.(UsedExternalReferences)
  x.(NextInfoId) (f x.(NextSingleNftUniqueId)) x.(NftOpenForSale) x.(BatchNonces)
  x.(BatchOpenForSale) x.(events).
Definition upd_NftOpenForSale (f : (gmap NftId NftSaleType.t) → (gmap NftId NftSaleType.t)) (x : t) : t :=
  mk x.(Nfts) x.(NftInfos) x.(NftBatches) x.(BatchInfoId) x.(UsedExternalReferences)
  x.(NextInfoId) x.(NextSingleNftUniqueId) (f x.(NftOpenForSale)) x.(BatchNonces)
  x.(BatchOpenForSale) x.(events).
Definition upd_BatchNonces (f : (gmap AccountId Z) → (gmap AccountId Z)) (x : t) : t :=
  mk x.(Nfts) x.(NftInfos) x.(NftBatches) x.(BatchInfoId) x.(UsedExternalReferences)
  x.(NextInfoId) x.(NextSingleNftUniqueId) x.(NftOpenForSale) (f x.(BatchNonces))
  x.(BatchOpenForSale) x.(events).
Definition upd_BatchOpenForSale (f : (gmap NftBatchId NftSaleType.t) → (gmap NftBatchId NftSaleType.t)) (x : t) : t :=
  mk x.(Nfts) x.(NftInfos) x.(NftBatches) x.(BatchInfoId) x.(UsedExternalReferences)
  x.(NextInfoId) x.(NextSingleNftUniqueId) x.(NftOpenForSale) x.(BatchNonces)
  (f x.(BatchOpenForSale)) x.(events).
Definition upd_events (f : (list NftEvent.t) → (list NftEvent.t)) (x : t) : t :=
  mk x.(Nfts) x.(NftInfos) x.(NftBatches) x.(BatchInfoId) x.(UsedExternalReferences)
  x.(NextInfoId) x.(NextSingleNftUniqueId) x.(NftOpenForSale) x.(BatchNonces) x.(BatchOpenForSale)
  (f x.(events)).
Definition empty : t := mk ∅ ∅ ∅ ∅ ∅ 0 0 ∅ ∅ ∅ [].
End NftStorage.

(** What a signer signs: the encoded tuples of the [encode_*_params] functions, each of
    which starts with its context. *)
Module NftPayload.
Inductive t : Type :=
  | SIGNED_MINT_SINGLE_NFT_CONTEXT (relayer : AccountId) (unique_external_ref : bytes)
      (royalties : list Royalty.t) (t1_authority : H160)
  | SIGNED_LIST_NFT_OPEN_FOR_SALE_CONTEXT (relayer : AccountId) (nft_id : NftId)
      (market : NftSaleType.t) (nonce : Z)
  | SIGNED_TRANSFER_FIAT_NFT_CONTEXT (relayer : AccountId) (nft_id : NftId) (recipient : H256)
      (nonce : Z)
  | SIGNED_CANCEL_LIST_FIAT_NFT_CONTEXT (relayer : AccountId) (nft_id : NftId) (nonce : Z)
  | SIGNED_CREATE_BATCH_CONTEXT (relayer : AccountId) (total_supply : Z)
      (royalties : list Royalty.t) (t1_authority : H160) (nonce : Z)
  | SIGNED_MINT_BATCH_NFT_CONTEXT (relayer : AccountId) (batch_id : NftBatchId) (index : Z)
      (unique_external_ref : bytes) (owner : AccountId)
  | SIGNED_LIST_BATCH_FOR_SALE_CONTEXT (relayer : AccountId) (batch_id : NftBatchId)
      (market : NftSaleType.t) (nonce : Z)
  | SIGNED_END_BATCH_SALE_CONTEXT (relayer : AccountId) (batch_id : NftBatchId) (nonce : Z).
#[global] Instance t_eq : EqDecision t.
Proof. solve_decision. Defined.
End NftPayload.

(** The calls of the pallet.  What [proxy] relays is a call of the runtime: one of this
    pallet, or [None], one of another. *)
Module NftCall.
Inductive t (Signature : Type) : Type :=
  | mint_single_nft (unique_external_ref : bytes) (royalties : list Royalty.t)
      (t1_authority : H160)
  | signed_mint_single_nft (proof : Proof_.t Signature) (unique_external_ref : bytes)
      (royalties : list Royalty.t) (t1_authority : H160)
  | list_nft_open_for_sale (nft_id : NftId) (market : NftSaleType.t)
  | signed_list_nft_open_for_sale (proof : Proof_.t Signature) (nft_id : NftId)
      (market : NftSaleType.t)
  | signed_transfer_fiat_nft (proof : Proof_.t Signature) (nft_id : NftId)
      (t2_transfer_to_public_key : H256)
  | signed_cancel_list_fiat_nft (proof : Proof_.t Signature) (nft_id : NftId)
  | proxy (call : option (t Signature))
  | signed_create_batch (proof : Proof_.t Signature) (total_supply : Z)
      (royalties : list Royalty.t) (t1_authority : H160)
  | signed_mint_batch_nft (proof : Proof_.t Signature) (batch_id : NftBatchId) (index : Z)
      (owner : AccountId) (unique_external_ref : bytes)
  | signed_list_batch_for_sale (proof : Proof_.t Signature) (batch_id : NftBatchId)
      (market : NftSaleType.t)
  | signed_end_batch_sale (proof : Proof_.t Signature) (batch_id : NftBatchId).
Arguments mint_single_nft {_}.
Arguments signed_mint_single_nft {_}.
Arguments list_nft_open_for_sale {_}.
Arguments signed_list_nft_open_for_sale {_}.
Arguments signed_transfer_fiat_nft {_}.
Arguments signed_cancel_list_fiat_nft {_}.
Arguments proxy {_}.
Arguments signed_create_batch {_}.
Arguments signed_mint_batch_nft {_}.
Arguments signed_list_batch_for_sale {_}.
Arguments signed_end_batch_sale {_}.
End NftCall.

Class NftConfig := {
  BatchBound : Z;
  (** [keccak_256], read as a number. *)
  keccak_256 : bytes → N;
  NftSignature : Type;
  verify_signature : Proof_.t NftSignature → NftPayload.t → bool;
  (** [T::Hashing::hash_of] on calls. *)
  hash_of_call : option (NftCall.t NftSignature) → H256;
}.

(** [DispatchError]: that of the origin, or one of the pallet. *)
Module NftFault.
Inductive t : Set := BadOrigin | Nft (e : NftError.t).
#[global] Instance t_eq : EqDecision t.
Proof. solve_decision. Defined.
End NftFault.
Coercion NftFault.Nft : NftError.t >-> NftFault.t.

Abbreviation NftM A := (M NftStorage.t NftFault.t A) (only parsing).
Abbreviation ensure := (@Prelude.ensure NftStorage.t NftFault.t).
Abbreviation fail := (@Prelude.fail NftStorage.t NftFault.t _).
Abbreviation ok_or := (@Prelude.ok_or NftStorage.t NftFault.t _).

Definition u256_max : N := 2 ^ 256 - 1.
(** [+=] on a [U256] panics when it overflows. *)
Definition u256_succ (n : N) : option N := if (n <? u256_max)%N then Some (n + 1)%N else None.

Section NftManager.
Context `{NftConfig}.
Implicit Types (s : NftStorage.t) (proof : Proof_.t NftSignature).
Abbreviation Proof := (Proof_.t NftSignature) (only parsing).

Definition nft_event (e : NftEvent.t) : NftM unit := modify (NftStorage.upd_events (λ l, l ++ [e])).
Definition nft_signed (o : Origin) : NftM AccountId :=
  match o with Signed who => mret who | _ => fail NftFault.BadOrigin end.

(** ** Reading *)

Definition get_nft_open_for_sale_on (nft_id : NftId) s : NftSaleType.t :=
  unwrap_or NftSaleType.default (NftStorage.NftOpenForSale s !! nft_id).
Definition get_batch_sale_market (batch_id : NftBatchId) s : NftSaleType.t :=
  unwrap_or NftSaleType.default (NftStorage.BatchOpenForSale s !! batch_id).
Definition nft_batches (batch_id : NftBatchId) s : list NftId :=
  unwrap_or [] (NftStorage.NftBatches s !! batch_id).
Definition is_external_ref_used (unique_external_ref : bytes) s : bool :=
  unwrap_or false (NftStorage.UsedExternalReferences s !! unique_external_ref).
Definition batch_nonce (who : AccountId) s : Z := unwrap_or 0 (NftStorage.BatchNonces s !! who).
Definition try_get_nft (nft_id : NftId) : NftM Nft.t :=
  nfts ← gets NftStorage.Nfts;
  ok_or (nfts !! nft_id) NftError.NftIdDoesNotExist.
Definition get_nft_info_for_batch (batch_id : NftBatchId) : NftM NftInfo.t :=
  ids ← gets NftStorage.BatchInfoId;
  infos ← gets NftStorage.NftInfos;
  ok_or (infos !! unwrap_or 0%N (ids !! batch_id)) NftError.NftInfoMissing.

(** ** Identifiers *)

Definition SINGLE_NFT_ID_CONTEXT : bytes := [65%N].
Definition BATCH_NFT_ID_CONTEXT : bytes := [66%N].
Definition BATCH_ID_CONTEXT : bytes := [71%N].
Definition generate_nft_id_single_mint (contract : H160) (unique_id : NftUniqueId) : NftId :=
  keccak_256 (SINGLE_NFT_ID_CONTEXT ++ be_bytes 20 contract ++ be_bytes 32 unique_id).
Definition generate_batch_id (unique_id : NftUniqueId) : NftBatchId :=
  keccak_256 (BATCH_ID_CONTEXT ++ be_bytes 32 unique_id).
Definition generate_batch_nft_id (batch_id : NftBatchId) (sales_index : Z) : NftId :=
  keccak_256 (BATCH_NFT_ID_CONTEXT ++ be_bytes 32 batch_id ++ be_bytes 8 (Z.to_N sales_index)).
Definition get_info_id_and_advance : NftM NftInfoId :=
  id ← gets NftStorage.NextInfoId;
  next ← expect (u256_succ id);
  modify (NftStorage.upd_NextInfoId (λ _, next));;
  mret id.
Definition get_unique_id_and_advance : NftM NftUniqueId :=
  id ← gets NftStorage.NextSingleNftUniqueId;
  next ← expect (u256_succ id);
  modify (NftStorage.upd_NextSingleNftUniqueId (λ _, next));;
  mret id.

(** ** Checks *)

(** [BoundedVec::try_from]. *)
Definition bounded_external_ref (unique_external_ref : bytes) : NftM bytes :=
  ensure (bool_decide (length unique_external_ref ≤ NftMintData.NftExternalRefBound)%nat)
    NftError.ExternalRefOutOfBounds;;
  mret unique_external_ref.
Definition bounded_royalties (royalties : list Royalty.t) : NftM (list Royalty.t) :=
  ensure (bool_decide (length royalties ≤ MAX_NUMBER_OF_ROYALTIES)%nat) NftError.RoyaltiesOutOfBounds;;
  mret royalties.
Definition validate_external_ref (unique_external_ref : bytes) : NftM unit :=
  ensure (negb (bool_decide (unique_external_ref = []))) NftError.ExternalRefIsMandatory;;
  used ← gets (is_external_ref_used unique_external_ref);
  ensure (negb used) NftError.ExternalRefIsAlreadyInUse.
Definition royalty_rate (r : Royalty.t) : Z := Z.of_N (RoyaltyRate.parts_per_million (Royalty.rate r)).
(** The sum is one of [u32]s. *)
Definition validate_royalties (royalties : list Royalty.t) : NftM unit :=
  ensure (negb (existsb (λ r, negb (RoyaltyRate.is_valid (Royalty.rate r))) royalties))
    NftError.RoyaltyRateIsNotValid;;
  let rate_total := foldl (λ sum r, sum +₃₂ royalty_rate r) 0 royalties in
  ensure (rate_total <=? 1000000) NftError.TotalRoyaltyRateIsNotValid.
Definition validate_mint_single_nft_request (unique_external_ref : bytes)
    (royalties : list Royalty.t) (t1_authority : H160) : NftM unit :=
  ensure (negb (t1_authority =? 0)%N) NftError.T1AuthorityIsMandatory;;
  validate_external_ref unique_external_ref;;
  validate_royalties royalties.
Definition validate_open_for_sale_request (sender : AccountId) (nft_id : NftId)
    (market : NftSaleType.t) : NftM unit :=
  ensure (negb (bool_decide (market = NftSaleType.Unknown))) NftError.UnsupportedMarket;;
  nfts ← gets NftStorage.Nfts;
  ensure (bool_decide (is_Some (nfts !! nft_id))) NftError.NftIdDoesNotExist;;
  listed ← gets NftStorage.NftOpenForSale;
  ensure (bool_decide (listed !! nft_id = None)) NftError.NftAlreadyListed;;
  nft ← try_get_nft nft_id;
  ensure (bool_decide (Nft.owner nft = sender)) NftError.SenderIsNotOwner;;
  ensure (negb (Nft.is_locked nft)) NftError.NftIsLocked.
Definition validate_nft_open_for_fiat_sale (sender : AccountId) (nft_id : NftId) : NftM unit :=
  listed ← gets NftStorage.NftOpenForSale;
  ensure (bool_decide (is_Some (listed !! nft_id))) NftError.NftNotListedForSale;;
  market ← gets (get_nft_open_for_sale_on nft_id);
  ensure (bool_decide (market = NftSaleType.Fiat)) NftError.NftNotListedForFiatSale;;
  nft ← try_get_nft nft_id;
  ensure (bool_decide (Nft.owner nft = sender)) NftError.SenderIsNotOwner;;
  ensure (negb (Nft.is_locked nft)) NftError.NftIsLocked.
Definition validate_mint_batch_nft_request (batch_id : NftBatchId) (unique_external_ref : bytes) :
    NftM NftInfo.t :=
  ensure (negb (batch_id =? 0)%N) NftError.BatchIdIsMandatory;;
  ids ← gets NftStorage.BatchInfoId;
  ensure (bool_decide (is_Some (ids !! batch_id))) NftError.BatchDoesNotExist;;
  listed ← gets NftStorage.BatchOpenForSale;
  ensure (bool_decide (is_Some (listed !! batch_id))) NftError.BatchNotListed;;
  nft_info ← get_nft_info_for_batch batch_id;
  nfts ← gets (nft_batches batch_id);
  ensure (Z.of_nat (length nfts) <? NftInfo.total_supply nft_info) NftError.TotalSupplyExceeded;;
  validate_external_ref unique_external_ref;;
  mret nft_info.
Definition validate_end_batch_listing_request (batch_id : NftBatchId) : NftM unit :=
  ensure (negb (batch_id =? 0)%N) NftError.BatchIdIsMandatory;;
  ids ← gets NftStorage.BatchInfoId;
  ensure (bool_decide (is_Some (ids !! batch_id))) NftError.BatchDoesNotExist;;
  listed ← gets NftStorage.BatchOpenForSale;
  ensure (bool_decide (is_Some (listed !! batch_id))) NftError.BatchNotListed.

(** ** Changes *)

Definition add_nft (nft : Nft.t) : NftM unit :=
  modify (NftStorage.upd_Nfts (insert (Nft.nft_id nft) nft));;
  modify (NftStorage.upd_UsedExternalReferences (insert (Nft.unique_external_ref nft) true)).
Definition insert_single_nft_into_chain (info_id : NftInfoId) (royalties : list Royalty.t)
    (t1_authority : H160) (nft_id : NftId) (unique_external_ref : bytes) (owner : AccountId) :
    NftM (Nft.t * NftInfo.t) :=
  let info := NftInfo.new info_id royalties t1_authority in
  let nft := Nft.new nft_id info_id unique_external_ref owner in
  modify (NftStorage.upd_NftInfos (insert (NftInfo.info_id info) info));;
  add_nft nft;;
  mret (nft, info).
Definition open_nft_for_sale (nft_id : NftId) (market : NftSaleType.t) : NftM unit :=
  modify (NftStorage.upd_NftOpenForSale (insert nft_id market));;
  modify (NftStorage.upd_Nfts (alter Nft.bump_nonce nft_id)).
Definition remove_listing_from_open_for_sale (nft_id : NftId) : NftM unit :=
  listed ← gets NftStorage.NftOpenForSale;
  ensure (bool_decide (is_Some (listed !! nft_id))) NftError.NftNotListedForSale;;
  modify (NftStorage.upd_NftOpenForSale (delete nft_id)).
Definition update_owner_for_transfer (nft_id : NftId) (new_nft_owner : AccountId) : NftM unit :=
  modify (NftStorage.upd_Nfts
    (alter (λ nft, Nft.bump_nonce (Nft.set_owner new_nft_owner nft)) nft_id)).
Definition transfer_nft (nft_id : NftId) (new_nft_owner : AccountId) : NftM unit :=
  remove_listing_from_open_for_sale nft_id;;
  update_owner_for_transfer nft_id new_nft_owner.
Definition unlist_nft_for_sale (nft_id : NftId) : NftM unit :=
  remove_listing_from_open_for_sale nft_id;;
  modify (NftStorage.upd_Nfts (alter Nft.bump_nonce nft_id)).
Definition create_batch (info_id : NftInfoId) (batch_id : NftBatchId) (royalties : list Royalty.t)
    (total_supply : Z) (t1_authority : H160) (creator : AccountId) : NftM unit :=
  let info := NftInfo.new_batch info_id batch_id royalties t1_authority total_supply creator in
  modify (NftStorage.upd_BatchInfoId (insert batch_id (NftInfo.info_id info)));;
  modify (NftStorage.upd_NftInfos (insert (NftInfo.info_id info) info)).
Definition mint_batch_nft (batch_id : NftBatchId) (owner : AccountId) (sale_index : Z)
    (unique_external_ref : bytes) : NftM unit :=
  nft_info ← validate_mint_batch_nft_request batch_id unique_external_ref;
  let nft_id := generate_batch_nft_id batch_id sale_index in
  nfts ← gets NftStorage.Nfts;
  ensure (bool_decide (nfts !! nft_id = None)) NftError.NftAlreadyExists;;
  let nft := Nft.new nft_id (NftInfo.info_id nft_info) unique_external_ref owner in
  add_nft nft;;
  nfts_for_batch ← gets (nft_batches batch_id);
  ensure (Z.of_nat (length nfts_for_batch) <? BatchBound) NftError.BatchOutOfBounds;;
  modify (NftStorage.upd_NftBatches (insert batch_id (nfts_for_batch ++ [nft_id])));;
  nft_event (NftEvent.BatchNftMinted (Nft.nft_id nft) batch_id (NftInfo.t1_authority nft_info)
    (Nft.owner nft)).
Definition end_batch_listing (batch_id : NftBatchId) (market : NftSaleType.t) : NftM unit :=
  validate_end_batch_listing_request batch_id;;
  modify (NftStorage.upd_BatchOpenForSale (delete batch_id));;
  nft_event (NftEvent.BatchSaleEnded batch_id market).
(** [<BatchNonces<T>>::mutate(&sender, |n| *n += 1)]. *)
Definition bump_batch_nonce (sender : AccountId) : NftM unit :=
  nonce ← gets (batch_nonce sender);
  modify (NftStorage.upd_BatchNonces (insert sender (nonce +₆₄ 1))).

(** ** Payloads *)

Definition encode_mint_single_nft_params proof (unique_external_ref : bytes)
    (royalties : list Royalty.t) (t1_authority : H160) : NftPayload.t :=
  NftPayload.SIGNED_MINT_SINGLE_NFT_CONTEXT (Proof_.relayer proof) unique_external_ref royalties
    t1_authority.
Definition encode_list_nft_for_sale_params proof (nft_id : NftId) (market : NftSaleType.t) :
    NftM NftPayload.t :=
  nft ← try_get_nft nft_id;
  mret (NftPayload.SIGNED_LIST_NFT_OPEN_FOR_SALE_CONTEXT (Proof_.relayer proof) nft_id market
          (Nft.nonce nft)).
Definition encode_transfer_fiat_nft_params proof (nft_id : NftId) (recipient : H256) :
    NftM NftPayload.t :=
  nft ← try_get_nft nft_id;
  mret (NftPayload.SIGNED_TRANSFER_FIAT_NFT_CONTEXT (Proof_.relayer proof) nft_id recipient
          (Nft.nonce nft)).
Definition encode_cancel_list_fiat_nft_params proof (nft_id : NftId) : NftM NftPayload.t :=
  nft ← try_get_nft nft_id;
  mret (NftPayload.SIGNED_CANCEL_LIST_FIAT_NFT_CONTEXT (Proof_.relayer proof) nft_id
          (Nft.nonce nft)).
Definition encode_create_batch_params proof (royalties : list Royalty.t) (t1_authority : H160)
    (total_supply nonce : Z) : NftPayload.t :=
  NftPayload.SIGNED_CREATE_BATCH_CONTEXT (Proof_.relayer proof) total_supply royalties
    t1_authority nonce.
Definition encode_mint_batch_nft_params proof (batch_id : NftBatchId) (index : Z)
    (unique_external_ref : bytes) (owner : AccountId) : NftPayload.t :=
  NftPayload.SIGNED_MINT_BATCH_NFT_CONTEXT (Proof_.relayer proof) batch_id index
    unique_external_ref owner.
Definition encode_list_batch_for_sale_params proof (batch_id : NftBatchId)
    (market : NftSaleType.t) (nonce : Z) : NftPayload.t :=
  NftPayload.SIGNED_LIST_BATCH_FOR_SALE_CONTEXT (Proof_.relayer proof) batch_id market nonce.
Definition encode_end_batch_sale_params proof (batch_id : NftBatchId) (nonce : Z) :
    NftPayload.t :=
  NftPayload.SIGNED_END_BATCH_SALE_CONTEXT (Proof_.relayer proof) batch_id nonce.

(** ** Dispatchables: single NFTs *)

Definition mint_single_nft (origin : Origin) (unique_external_ref : bytes)
    (royalties : list Royalty.t) (t1_authority : H160) : NftM unit :=
  sender ← nft_signed origin;
  bounded_unique_external_ref ← bounded_external_ref unique_external_ref;
  validate_mint_single_nft_request bounded_unique_external_ref royalties t1_authority;;
  unique_id ← get_unique_id_and_advance;
  let nft_id := generate_nft_id_single_mint t1_authority unique_id in
  nfts ← gets NftStorage.Nfts;
  ensure (bool_decide (nfts !! nft_id = None)) NftError.NftAlreadyExists;;
  info_id ← get_info_id_and_advance;
  royalties ← bounded_royalties royalties;
  '(nft, info) ← insert_single_nft_into_chain info_id royalties t1_authority nft_id
                   bounded_unique_external_ref sender;
  nft_event (NftEvent.SingleNftMinted (Nft.nft_id nft) (Nft.owner nft) (NftInfo.t1_authority info)).
Definition signed_mint_single_nft (origin : Origin) proof (unique_external_ref : bytes)
    (royalties : list Royalty.t) (t1_authority : H160) : NftM unit :=
  sender ← nft_signed origin;
  ensure (bool_decide (sender = Proof_.signer proof)) NftError.SenderIsNotSigner;;
  bounded_unique_external_ref ← bounded_external_ref unique_external_ref;
  validate_mint_single_nft_request bounded_unique_external_ref royalties t1_authority;;
  let signed_payload := encode_mint_single_nft_params proof unique_external_ref royalties t1_authority in
  ensure (verify_signature proof signed_payload) NftError.UnauthorizedSignedMintSingleNftTransaction;;
  unique_id ← get_unique_id_and_advance;
  let nft_id := generate_nft_id_single_mint t1_authority unique_id in
  nfts ← gets NftStorage.Nfts;
  ensure (bool_decide (nfts !! nft_id = None)) NftError.NftAlreadyExists;;
  info_id ← get_info_id_and_advance;
  royalties ← bounded_royalties royalties;
  '(nft, info) ← insert_single_nft_into_chain info_id royalties t1_authority nft_id
                   bounded_unique_external_ref (Proof_.signer proof);
  nft_event (NftEvent.SingleNftMinted (Nft.nft_id nft) (Nft.owner nft) (NftInfo.t1_authority info)).
Definition list_nft_open_for_sale (origin : Origin) (nft_id : NftId) (market : NftSaleType.t) :
    NftM unit :=
  sender ← nft_signed origin;
  validate_open_for_sale_request sender nft_id market;;
  open_nft_for_sale nft_id market;;
  nft_event (NftEvent.NftOpenForSale nft_id market).
Definition signed_list_nft_open_for_sale (origin : Origin) proof (nft_id : NftId)
    (market : NftSaleType.t) : NftM unit :=
  sender ← nft_signed origin;
  ensure (bool_decide (sender = Proof_.signer proof)) NftError.SenderIsNotSigner;;
  validate_open_for_sale_request sender nft_id market;;
  signed_payload ← encode_list_nft_for_sale_params proof nft_id market;
  ensure (verify_signature proof signed_payload)
    NftError.UnauthorizedSignedLiftNftOpenForSaleTransaction;;
  open_nft_for_sale nft_id market;;
  nft_event (NftEvent.NftOpenForSale nft_id market).
(** 32 bytes always decode into an account. *)
Definition signed_transfer_fiat_nft (origin : Origin) proof (nft_id : NftId)
    (t2_transfer_to_public_key : H256) : NftM unit :=
  sender ← nft_signed origin;
  ensure (bool_decide (sender = Proof_.signer proof)) NftError.SenderIsNotSigner;;
  ensure (negb (t2_transfer_to_public_key =? 0)%N) NftError.TransferToIsMandatory;;
  validate_nft_open_for_fiat_sale sender nft_id;;
  nft ← try_get_nft nft_id;
  signed_payload ← encode_transfer_fiat_nft_params proof nft_id t2_transfer_to_public_key;
  ensure (verify_signature proof signed_payload)
    NftError.UnauthorizedSignedTransferFiatNftTransaction;;
  let new_nft_owner : AccountId := t2_transfer_to_public_key in
  market ← gets (get_nft_open_for_sale_on nft_id);
  transfer_nft nft_id new_nft_owner;;
  nft_event (NftEvent.FiatNftTransfer nft_id sender new_nft_owner market (Nft.nonce nft)).
Definition signed_cancel_list_fiat_nft (origin : Origin) proof (nft_id : NftId) : NftM unit :=
  sender ← nft_signed origin;
  ensure (bool_decide (sender = Proof_.signer proof)) NftError.SenderIsNotSigner;;
  validate_nft_open_for_fiat_sale sender nft_id;;
  nft ← try_get_nft nft_id;
  signed_payload ← encode_cancel_list_fiat_nft_params proof nft_id;
  ensure (verify_signature proof signed_payload)
    NftError.UnauthorizedSignedCancelListFiatNftTransaction;;
  market ← gets (get_nft_open_for_sale_on nft_id);
  unlist_nft_for_sale nft_id;;
  nft_event (NftEvent.CancelSingleFiatNftListing nft_id market (Nft.nonce nft)).

(** ** Dispatchables: batches *)

Definition signed_create_batch (origin : Origin) proof (total_supply : Z)
    (royalties : list Royalty.t) (t1_authority : H160) : NftM unit :=
  sender ← nft_signed origin;
  ensure (bool_decide (sender = Proof_.signer proof)) NftError.SenderIsNotSigner;;
  ensure (negb (t1_authority =? 0)%N) NftError.T1AuthorityIsMandatory;;
  ensure (0 <? total_supply) NftError.TotalSupplyZero;;
  ensure (total_supply <=? BatchBound) NftError.BatchOutOfBounds;;
  validate_royalties royalties;;
  sender_nonce ← gets (batch_nonce sender);
  let signed_payload :=
    encode_create_batch_params proof royalties t1_authority total_supply sender_nonce in
  ensure (verify_signature proof signed_payload) NftError.UnauthorizedSignedCreateBatchTransaction;;
  unique_id ← get_unique_id_and_advance;
  let batch_id := generate_batch_id unique_id in
  ids ← gets NftStorage.BatchInfoId;
  ensure (bool_decide (ids !! batch_id = None)) NftError.BatchAlreadyExists;;
  info_id ← get_info_id_and_advance;
  royalties ← bounded_royalties royalties;
  create_batch info_id batch_id royalties total_supply t1_authority sender;;
  bump_batch_nonce sender;;
  nft_event (NftEvent.BatchCreated batch_id total_supply sender t1_authority).
Definition signed_mint_batch_nft (origin : Origin) proof (batch_id : NftBatchId) (index : Z)
    (owner : AccountId) (unique_external_ref : bytes) : NftM unit :=
  sender ← nft_signed origin;
  ensure (bool_decide (sender = Proof_.signer proof)) NftError.SenderIsNotSigner;;
  bounded_unique_external_ref ← bounded_external_ref unique_external_ref;
  nft_info ← validate_mint_batch_nft_request batch_id bounded_unique_external_ref;
  market ← gets (get_batch_sale_market batch_id);
  ensure (bool_decide (market = NftSaleType.Fiat)) NftError.BatchNotListedForFiatSale;;
  ensure (bool_decide (NftInfo.creator nft_info = Some sender)) NftError.SenderIsNotBatchCreator;;
  let signed_payload :=
    encode_mint_batch_nft_params proof batch_id index bounded_unique_external_ref owner in
  ensure (verify_signature proof signed_payload) NftError.UnauthorizedSignedMintBatchNftTransaction;;
  mint_batch_nft batch_id owner index bounded_unique_external_ref.
Definition signed_list_batch_for_sale (origin : Origin) proof (batch_id : NftBatchId)
    (market : NftSaleType.t) : NftM unit :=
  sender ← nft_signed origin;
  ensure (bool_decide (sender = Proof_.signer proof)) NftError.SenderIsNotSigner;;
  ensure (negb (batch_id =? 0)%N) NftError.BatchIdIsMandatory;;
  ids ← gets NftStorage.BatchInfoId;
  ensure (bool_decide (is_Some (ids !! batch_id))) NftError.BatchDoesNotExist;;
  ensure (negb (bool_decide (market = NftSaleType.Unknown))) NftError.UnsupportedMarket;;
  sender_nonce ← gets (batch_nonce sender);
  nft_info ← get_nft_info_for_batch batch_id;
  ensure (bool_decide (NftInfo.creator nft_info = Some sender)) NftError.SenderIsNotBatchCreator;;
  nfts ← gets (nft_batches batch_id);
  ensure (Z.of_nat (length nfts) <? NftInfo.total_supply nft_info) NftError.NoNftsToSell;;
  listed ← gets NftStorage.BatchOpenForSale;
  ensure (bool_decide (listed !! batch_id = None)) NftError.BatchAlreadyListed;;
  let signed_payload := encode_list_batch_for_sale_params proof batch_id market sender_nonce in
  ensure (verify_signature proof signed_payload)
    NftError.UnauthorizedSignedListBatchForSaleTransaction;;
  modify (NftStorage.upd_BatchOpenForSale (insert batch_id market));;
  bump_batch_nonce sender;;
  nft_event (NftEvent.BatchOpenForSale batch_id market).
Definition signed_end_batch_sale (origin : Origin) proof (batch_id : NftBatchId) : NftM unit :=
  sender ← nft_signed origin;
  ensure (bool_decide (sender = Proof_.signer proof)) NftError.SenderIsNotSigner;;
  validate_end_batch_listing_request batch_id;;
  market ← gets (get_batch_sale_market batch_id);
  ensure (bool_decide (market = NftSaleType.Fiat)) NftError.BatchNotListedForFiatSale;;
  sender_nonce ← gets (batch_nonce sender);
  nft_info ← get_nft_info_for_batch batch_id;
  ensure (bool_decide (NftInfo.creator nft_info = Some sender)) NftError.SenderIsNotBatchCreator;;
  let signed_payload := encode_end_batch_sale_params proof batch_id sender_nonce in
  ensure (verify_signature proof signed_payload) NftError.UnauthorizedSignedEndBatchSaleTransaction;;
  market ← gets (get_batch_sale_market batch_id);
  end_batch_listing batch_id market;;
  bump_batch_nonce sender.

(** ** The calls of relayers *)

Definition nft_get_proof (call : option (NftCall.t NftSignature)) : NftM Proof :=
  match call with
  | Some (NftCall.signed_mint_single_nft proof _ _ _)
  | Some (NftCall.signed_list_nft_open_for_sale proof _ _)
  | Some (NftCall.signed_transfer_fiat_nft proof _ _)
  | Some (NftCall.signed_cancel_list_fiat_nft proof _)
  | Some (NftCall.signed_create_batch proof _ _ _)
  | Some (NftCall.signed_mint_batch_nft proof _ _ _ _)
  | Some (NftCall.signed_list_batch_for_sale proof _ _)
  | Some (NftCall.signed_end_batch_sale proof _) => mret proof
  | _ => fail NftError.TransactionNotSupported
  end.
(** [encoded_params.is_err()] is [None]. *)
Definition encoded (m : NftM NftPayload.t) s : option NftPayload.t :=
  match (m s).1 with Ok payload => Some payload | _ => None end.
Definition nft_get_encoded_call_param (call : option (NftCall.t NftSignature)) s :
    option (Proof * NftPayload.t) :=
  match call with
  | Some (NftCall.signed_mint_single_nft proof unique_external_ref royalties t1_authority) =>
      Some (proof, encode_mint_single_nft_params proof unique_external_ref royalties t1_authority)
  | Some (NftCall.signed_list_nft_open_for_sale proof nft_id market) =>
      pair proof <$> encoded (encode_list_nft_for_sale_params proof nft_id market) s
  | Some (NftCall.signed_transfer_fiat_nft proof nft_id t2_transfer_to_public_key) =>
      pair proof <$> encoded (encode_transfer_fiat_nft_params proof nft_id t2_transfer_to_public_key) s
  | Some (NftCall.signed_cancel_list_fiat_nft proof nft_id) =>
      pair proof <$> encoded (encode_cancel_list_fiat_nft_params proof nft_id) s
  | Some (NftCall.signed_create_batch proof total_supply royalties t1_authority) =>
      let sender_nonce := batch_nonce (Proof_.signer proof) s in
      Some (proof, encode_create_batch_params proof royalties t1_authority total_supply sender_nonce)
  | Some (NftCall.signed_mint_batch_nft proof batch_id index owner unique_external_ref) =>
      Some (proof, encode_mint_batch_nft_params proof batch_id index unique_external_ref owner)
  | Some (NftCall.signed_list_batch_for_sale proof batch_id market) =>
      let sender_nonce := batch_nonce (Proof_.signer proof) s in
      Some (proof, encode_list_batch_for_sale_params proof batch_id market sender_nonce)
  | Some (NftCall.signed_end_batch_sale proof batch_id) =>
      let sender_nonce := batch_nonce (Proof_.signer proof) s in
      Some (proof, encode_end_batch_sale_params proof batch_id sender_nonce)
  | _ => None
  end.
Definition nft_signature_is_valid (call : option (NftCall.t NftSignature)) s : bool :=
  match nft_get_encoded_call_param call s with
  | Some (proof, signed_payload) => verify_signature proof signed_payload
  | None => false
  end.

(** A relayed call has a storage layer of its own.  Only signed calls have a proof: what
    is relayed is never [proxy] again, and never a call of another pallet.  The result of
    [get_dispatch_result_with_post_info] is the weight of the call. *)
Fixpoint nft_call (origin : Origin) (call : NftCall.t NftSignature) {struct call} : NftM unit :=
  transactional
    match call with
    | NftCall.mint_single_nft unique_external_ref royalties t1_authority =>
        mint_single_nft origin unique_external_ref royalties t1_authority
    | NftCall.signed_mint_single_nft proof unique_external_ref royalties t1_authority =>
        signed_mint_single_nft origin proof unique_external_ref royalties t1_authority
    | NftCall.list_nft_open_for_sale nft_id market => list_nft_open_for_sale origin nft_id market
    | NftCall.signed_list_nft_open_for_sale proof nft_id market =>
        signed_list_nft_open_for_sale origin proof nft_id market
    | NftCall.signed_transfer_fiat_nft proof nft_id t2_transfer_to_public_key =>
        signed_transfer_fiat_nft origin proof nft_id t2_transfer_to_public_key
    | NftCall.signed_cancel_list_fiat_nft proof nft_id =>
        signed_cancel_list_fiat_nft origin proof nft_id
    | NftCall.proxy call =>
        relayer ← nft_signed origin;
        proof ← nft_get_proof call;
        ensure (bool_decide (relayer = Proof_.relayer proof)) NftError.UnauthorizedProxyTransaction;;
        match call with
        | Some inner => nft_call (Signed (Proof_.signer proof)) inner
        | None => mret ()
        end;;
        nft_event (NftEvent.CallDispatched relayer (hash_of_call call))
    | NftCall.signed_create_batch proof total_supply royalties t1_authority =>
        signed_create_batch origin proof total_supply royalties t1_authority
    | NftCall.signed_mint_batch_nft proof batch_id index owner unique_external_ref =>
        signed_mint_batch_nft origin proof batch_id index owner unique_external_ref
    | NftCall.signed_list_batch_for_sale proof batch_id market =>
        signed_list_batch_for_sale origin proof batch_id market
    | NftCall.signed_end_batch_sale proof batch_id => signed_end_batch_sale origin proof batch_id
    end.

(** ** Events of Ethereum

    [T::ProcessedEventsChecker] asks another pallet, here an argument. *)

Section Events.
Variable processed_event_exists : EthEventId.t → bool.

Definition transfer_eth_nft (event_id : EthEventId.t) (data : NftTransferToData.t) : NftM unit :=
  let nft_id := NftTransferToData.nft_id data in
  market ← gets (get_nft_open_for_sale_on nft_id);
  ensure (bool_decide (market = NftSaleType.Ethereum)) NftError.NftNotListedForEthereumSale;;
  nft ← try_get_nft nft_id;
  ensure (NftTransferToData.op_id data =? Nft.nonce nft) NftError.NftNonceMismatch;;
  ensure (processed_event_exists event_id) NftError.NoTier1EventForNftOperation;;
  let new_nft_owner : AccountId := NftTransferToData.t2_transfer_to_public_key data in
  transfer_nft nft_id new_nft_owner;;
  nft_event (NftEvent.EthNftTransfer nft_id new_nft_owner market (NftTransferToData.op_id data) event_id).
Definition cancel_eth_nft_listing (event_id : EthEventId.t) (data : NftCancelListingData.t) :
    NftM unit :=
  let nft_id := NftCancelListingData.nft_id data in
  market ← gets (get_nft_open_for_sale_on nft_id);
  nft ← try_get_nft nft_id;
  ensure (bool_decide (market = NftSaleType.Ethereum)) NftError.NftNotListedForEthereumSale;;
  ensure (NftCancelListingData.op_id data =? Nft.nonce nft) NftError.NftNonceMismatch;;
  ensure (processed_event_exists event_id) NftError.NoTier1EventForNftOperation;;
  unlist_nft_for_sale nft_id;;
  nft_event (NftEvent.CancelSingleEthNftListing nft_id market (NftCancelListingData.op_id data) event_id).
Definition process_mint_batch_nft_event (event_id : EthEventId.t) (data : NftMintData.t) :
    NftM unit :=
  ensure (processed_event_exists event_id) NftError.NoTier1EventForNftOperation;;
  market ← gets (get_batch_sale_market (NftMintData.batch_id data));
  ensure (bool_decide (market = NftSaleType.Ethereum)) NftError.BatchNotListedForEthereumSale;;
  let owner : AccountId := NftMintData.t2_owner_public_key data in
  mint_batch_nft (NftMintData.batch_id data) owner (NftMintData.sale_index data)
    (NftMintData.unique_external_ref data).
Definition process_end_batch_listing_event (event_id : EthEventId.t)
    (data : NftEndBatchListingData.t) : NftM unit :=
  ensure (processed_event_exists event_id) NftError.NoTier1EventForNftOperation;;
  market ← gets (get_batch_sale_market (NftEndBatchListingData.batch_id data));
  ensure (bool_decide (market = NftSaleType.Ethereum)) NftError.BatchNotListedForEthereumSale;;
  end_batch_listing (NftEndBatchListingData.batch_id data) market.
Definition nft_processed_event_handler (event : EthEvent.t) : NftM unit :=
  match EthEvent.event_data event with
  | EventData.LogNftTransferTo data => transfer_eth_nft (EthEvent.event_id event) data
  | EventData.LogNftCancelListing data => cancel_eth_nft_listing (EthEvent.event_id event) data
  | EventData.LogNftMinted data => process_mint_batch_nft_event (EthEvent.event_id event) data
  | EventData.LogNftEndBatchListing data =>
      process_end_batch_listing_event (EthEvent.event_id event) data
  | _ => mret ()
  end.
End Events.
End NftManager.
