(* ===== verification/NftProps.v ===== *)
(** * NFTs: who owns them, and why

    Every call of [pallets/nft-manager] and every event of Ethereum that it hears is one of
    eight changes of the book of NFTs, made for a reason: its owner or creator asked for it,
    by a call or by a signature, or Ethereum reported it.  The invariant of the book, the
    history of an owner and the protection against replays follow from this. *)

From S2P Require Import Prelude Frames Slices Bytes EventTypes RuntimeErrors BridgeTypes NftManager.

Create HintDb nft.

Section NftBook.
Context `{NftConfig}.
Implicit Types (s : NftStorage.t).

(** ** What may change *)

Inductive NftChange : Type :=
  | Mint (ref : bytes) (royalties : list Royalty.t) (authority : H160) (owner : AccountId)
  | CreateBatch (supply : Z) (royalties : list Royalty.t) (authority : H160) (creator : AccountId)
  | MintBatch (batch : NftBatchId) (index : Z) (owner : AccountId) (ref : bytes)
  | ListNft (id : NftId) (market : NftSaleType.t)
  | Unlist (id : NftId)
  | Move (id : NftId) (to : AccountId)
  | ListBatch (batch : NftBatchId) (market : NftSaleType.t) (creator : AccountId)
  | EndBatch (batch : NftBatchId) (creator : option AccountId).

Definition next_nft (authority : H160) s : NftId :=
  generate_nft_id_single_mint authority (NftStorage.NextSingleNftUniqueId s).
Definition next_batch s : NftBatchId := generate_batch_id (NftStorage.NextSingleNftUniqueId s).
Definition batch_info (batch : NftBatchId) s : option NftInfo.t :=
  NftStorage.BatchInfoId s !! batch ≫= λ i, NftStorage.NftInfos s !! i.
Definition sold_out (batch : NftBatchId) (info : NftInfo.t) s : Prop :=
  NftInfo.total_supply info <= Z.of_nat (length (nft_batches batch s)).
Definition royalties_ok (l : list Royalty.t) : Prop :=
  (length l ≤ MAX_NUMBER_OF_ROYALTIES)%nat ∧ Forall (λ r, royalty_rate r <= 1000000) l ∧
  zsum royalty_rate l <= 1000000.
Definition ref_ok (ref : bytes) : Prop := ref ≠ [] ∧ (length ref ≤ NftMintData.NftExternalRefBound)%nat.
Definition fresh_ref (ref : bytes) s : Prop := ref ≠ [] ∧ is_external_ref_used ref s = false.
Definition new_ids s : NftStorage.t :=
  NftStorage.upd_NextInfoId N.succ (NftStorage.upd_NextSingleNftUniqueId N.succ s).
Definition record_nft (nft : Nft.t) s : NftStorage.t :=
  NftStorage.upd_UsedExternalReferences (insert (Nft.unique_external_ref nft) true)
    (NftStorage.upd_Nfts (insert (Nft.nft_id nft) nft) s).
Definition count_batch_call (who : AccountId) s : NftStorage.t :=
  NftStorage.upd_BatchNonces (insert who (batch_nonce who s +₆₄ 1)) s.

(** When a change makes sense. *)
Definition allowed (c : NftChange) s : Prop :=
  match c with
  | Mint ref royalties authority _ =>
      fresh_ref ref s ∧ ref_ok ref ∧ royalties_ok royalties ∧ authority ≠ 0%N ∧
      NftStorage.Nfts s !! next_nft authority s = None
  | CreateBatch supply royalties authority _ =>
      0 < supply <= BatchBound ∧ royalties_ok royalties ∧ authority ≠ 0%N ∧
      NftStorage.BatchInfoId s !! next_batch s = None
  | MintBatch batch index _ ref =>
      fresh_ref ref s ∧ ref_ok ref ∧ NftStorage.Nfts s !! generate_batch_nft_id batch index = None ∧
      is_Some (NftStorage.BatchOpenForSale s !! batch) ∧
      ∃ info, batch_info batch s = Some info ∧ ¬ sold_out batch info s
  | ListNft id market =>
      market ≠ NftSaleType.Unknown ∧ NftStorage.NftOpenForSale s !! id = None ∧
      is_Some (NftStorage.Nfts s !! id)
  | Unlist id | Move id _ => is_Some (NftStorage.NftOpenForSale s !! id) ∧ is_Some (NftStorage.Nfts s !! id)
  | ListBatch batch market _ =>
      market ≠ NftSaleType.Unknown ∧ NftStorage.BatchOpenForSale s !! batch = None ∧
      ∃ info, batch_info batch s = Some info ∧ ¬ sold_out batch info s
  | EndBatch batch _ => is_Some (NftStorage.BatchOpenForSale s !! batch)
  end.

(** What it does to the storage, events aside. *)
Definition applied (c : NftChange) s : NftStorage.t :=
  match c with
  | Mint ref royalties authority owner =>
      let i := NftStorage.NextInfoId s in
      record_nft (Nft.new (next_nft authority s) i ref owner)
        (NftStorage.upd_NftInfos (insert i (NftInfo.new i royalties authority)) (new_ids s))
  | CreateBatch supply royalties authority creator =>
      let i := NftStorage.NextInfoId s in
      count_batch_call creator
        (NftStorage.upd_NftInfos
          (insert i (NftInfo.new_batch i (next_batch s) royalties authority supply creator))
          (NftStorage.upd_BatchInfoId (insert (next_batch s) i) (new_ids s)))
  | MintBatch batch index owner ref =>
      let id := generate_batch_nft_id batch index in
      NftStorage.upd_NftBatches (insert batch (nft_batches batch s ++ [id]))
        (record_nft (Nft.new id (from_option NftInfo.info_id 0%N (batch_info batch s)) ref owner) s)
  | ListNft id market =>
      NftStorage.upd_Nfts (alter Nft.bump_nonce id)
        (NftStorage.upd_NftOpenForSale (insert id market) s)
  | Unlist id =>
      NftStorage.upd_Nfts (alter Nft.bump_nonce id) (NftStorage.upd_NftOpenForSale (delete id) s)
  | Move id to =>
      NftStorage.upd_Nfts (alter (λ nft, Nft.bump_nonce (Nft.set_owner to nft)) id)
        (NftStorage.upd_NftOpenForSale (delete id) s)
  | ListBatch batch market creator =>
      count_batch_call creator (NftStorage.upd_BatchOpenForSale (insert batch market) s)
  | EndBatch batch creator =>
      from_option count_batch_call id creator (NftStorage.upd_BatchOpenForSale (delete batch) s)
  end.

(** ** Who may ask for it *)

Definition owned_by (who : AccountId) (id : NftId) s : Prop :=
  Nft.owner <$> NftStorage.Nfts s !! id = Some who.
Definition created_by (who : AccountId) (batch : NftBatchId) s : Prop :=
  (batch_info batch s ≫= NftInfo.creator) = Some who.
(** What an account may change: its NFTs and its batches, and of what is listed only what
    is sold for fiat. *)
Definition permitted (who : AccountId) (c : NftChange) s : Prop :=
  match c with
  | Mint _ _ _ owner => owner = who
  | CreateBatch _ _ _ creator => creator = who
  | MintBatch batch _ _ _ =>
      created_by who batch s ∧ NftStorage.BatchOpenForSale s !! batch = Some NftSaleType.Fiat
  | ListNft id _ => owned_by who id s
  | Unlist id | Move id _ =>
      owned_by who id s ∧ NftStorage.NftOpenForSale s !! id = Some NftSaleType.Fiat
  | ListBatch batch _ creator => creator = who ∧ created_by who batch s
  | EndBatch batch creator =>
      creator = Some who ∧ created_by who batch s ∧
      NftStorage.BatchOpenForSale s !! batch = Some NftSaleType.Fiat
  end.
(** What Ethereum may change: what is sold there, with the nonce of the NFT. *)
Definition reported (event : EthEvent.t) (c : NftChange) s : Prop :=
  match EthEvent.event_data event, c with
  | EventData.LogNftTransferTo d, Move id to =>
      id = NftTransferToData.nft_id d ∧ to = NftTransferToData.t2_transfer_to_public_key d ∧
      NftStorage.NftOpenForSale s !! id = Some NftSaleType.Ethereum ∧
      Nft.nonce <$> NftStorage.Nfts s !! id = Some (NftTransferToData.op_id d)
  | EventData.LogNftCancelListing d, Unlist id =>
      id = NftCancelListingData.nft_id d ∧
      NftStorage.NftOpenForSale s !! id = Some NftSaleType.Ethereum ∧
      Nft.nonce <$> NftStorage.Nfts s !! id = Some (NftCancelListingData.op_id d)
  | EventData.LogNftMinted d, MintBatch batch index owner ref =>
      batch = NftMintData.batch_id d ∧ index = NftMintData.sale_index d ∧
      owner = NftMintData.t2_owner_public_key d ∧ ref = NftMintData.unique_external_ref d ∧
      NftStorage.BatchOpenForSale s !! batch = Some NftSaleType.Ethereum
  | EventData.LogNftEndBatchListing d, EndBatch batch None =>
      batch = NftEndBatchListingData.batch_id d ∧
      NftStorage.BatchOpenForSale s !! batch = Some NftSaleType.Ethereum
  | _, _ => False
  end.

(** What the calls mean. *)
Definition plain_change (who : AccountId) (call : NftCall.t NftSignature) : option NftChange :=
  match call with
  | NftCall.mint_single_nft ref royalties authority => Some (Mint ref royalties authority who)
  | NftCall.list_nft_open_for_sale id market => Some (ListNft id market)
  | _ => None
  end.
Definition signed_change (call : NftCall.t NftSignature) : option (Proof_.t NftSignature * NftChange) :=
  match call with
  | NftCall.signed_mint_single_nft proof ref royalties authority =>
      Some (proof, Mint ref royalties authority (Proof_.signer proof))
  | NftCall.signed_list_nft_open_for_sale proof id market => Some (proof, ListNft id market)
  | NftCall.signed_transfer_fiat_nft proof id to => Some (proof, Move id to)
  | NftCall.signed_cancel_list_fiat_nft proof id => Some (proof, Unlist id)
  | NftCall.signed_create_batch proof supply royalties authority =>
      Some (proof, CreateBatch supply royalties authority (Proof_.signer proof))
  | NftCall.signed_mint_batch_nft proof batch index owner ref =>
      Some (proof, MintBatch batch index owner ref)
  | NftCall.signed_list_batch_for_sale proof batch market =>
      Some (proof, ListBatch batch market (Proof_.signer proof))
  | NftCall.signed_end_batch_sale proof batch =>
      Some (proof, EndBatch batch (Some (Proof_.signer proof)))
  | _ => None
  end.

(** ** What happens to the pallet *)

Inductive NftAction : Type :=
  | Called (origin : Origin) (call : NftCall.t NftSignature)
  | Heard (processed_event_exists : EthEventId.t → bool) (event : EthEvent.t).
Definition nft_do (a : NftAction) : NftM unit :=
  match a with
  | Called origin call => nft_call origin call
  | Heard processed event => nft_processed_event_handler processed event
  end.
(** The reference of an event is a bounded vector. *)
Definition typed_action (a : NftAction) : Prop :=
  match a with
  | Heard _ (EthEvent.mk _ (EventData.LogNftMinted d)) =>
      (length (NftMintData.unique_external_ref d) ≤ NftMintData.NftExternalRefBound)%nat
  | _ => True
  end.
(** Why a change is made. *)
Inductive justified s : NftAction → NftChange → Prop :=
  | J_plain who call c :
      plain_change who call = Some c → permitted who c s → justified s (Called (Signed who) call) c
  | J_signed proof call c payload :
      signed_change call = Some (proof, c) →
      nft_get_encoded_call_param (Some call) s = Some (proof, payload) →
      verify_signature proof payload = true → permitted (Proof_.signer proof) c s →
      justified s (Called (Signed (Proof_.signer proof)) call) c
  | J_relayed proof call c :
      signed_change call = Some (proof, c) →
      justified s (Called (Signed (Proof_.signer proof)) call) c →
      justified s (Called (Signed (Proof_.relayer proof)) (NftCall.proxy (Some call))) c
  | J_event processed event c :
      processed (EthEvent.event_id event) = true → reported event c s →
      justified s (Heard processed event) c.

(** The identifiers have run out. *)
Definition exhausted s : Prop :=
  (u256_max <= NftStorage.NextInfoId s)%N ∨ (u256_max <= NftStorage.NextSingleNftUniqueId s)%N.
Definition extends (s s' : NftStorage.t) : Prop :=
  ∃ l, s' = NftStorage.upd_events (λ e, e ++ l) s.
Definition does (a : NftAction) s (s' : NftStorage.t) : Prop :=
  ∃ c, justified s a c ∧ allowed c s ∧ extends (applied c s) s'.

(** ** Calls refine changes *)

Lemma u256_succ_Some n m : u256_succ n = Some m → m = N.succ n.
Proof. unfold u256_succ. case_match; [|done]. intros [= <-]. lia. Qed.
Lemma u256_succ_None n : u256_succ n = None → (u256_max <= n)%N.
Proof. unfold u256_succ. case_match eqn:Hn; [done|]. intros _. by apply N.ltb_ge in Hn. Qed.

Lemma rates_sum l : Forall (λ r, royalty_rate r <= 1000000) l →
  ∀ acc, 0 <= acc → acc + 1000000 * Z.of_nat (length l) <= u32_max →
  foldl (λ sum r, sum +₃₂ royalty_rate r) acc l = acc + zsum royalty_rate l.
Proof.
  induction 1 as [|r l Hr _ IH]; intros acc Ha Hb; cbn [foldl length] in *; [unfold zsum; cbn; lia|].
  assert (0 <= royalty_rate r) by (unfold royalty_rate; lia). unfold u32_max in *.
  rewrite wrap_small by (unfold u32_max; lia). rewrite IH by lia. rewrite zsum_cons. lia.
Qed.
Lemma validate_royalties_spec P l s (Q : unit → NftStorage.t → Prop) (R : NftFault.t → NftStorage.t → Prop) :
  (((length l ≤ MAX_NUMBER_OF_ROYALTIES)%nat → royalties_ok l) → Q () s) → (∀ e, R e s) →
  wpp P (validate_royalties l) s Q R.
Proof.
  intros HQ HR. unfold validate_royalties. repeat wpp_step; [|apply HR..]. apply HQ. intros Hl.
  assert (Hf : Forall (λ r, royalty_rate r <= 1000000) l).
  { apply Forall_forall. intros r Hr. bool_tac. unfold royalty_rate.
    destruct (RoyaltyRate.is_valid (Royalty.rate r)) eqn:Hv.
    - unfold RoyaltyRate.is_valid, ROYALTY_RATE_DENOMINATOR in Hv. apply N.leb_le in Hv. lia.
    - assert (existsb (λ r, negb (RoyaltyRate.is_valid (Royalty.rate r))) l = true); [|congruence].
      apply existsb_exists. exists r. rewrite Hv. by apply list_elem_of_In in Hr. }
  split_and!; [done..|]. rewrite rates_sum in * by (done || unfold MAX_NUMBER_OF_ROYALTIES, u32_max in *; lia).
  cbn in *. lia.
Qed.
Lemma fresh_nonempty ref s : fresh_ref ref s → ref ≠ [].
Proof. by intros [? ?]. Qed.
Lemma external_ref_spec P ref s (Q : unit → NftStorage.t → Prop) (R : NftFault.t → NftStorage.t → Prop) :
  (fresh_ref ref s → Q () s) → (∀ e, R e s) → wpp P (validate_external_ref ref) s Q R.
Proof.
  intros HQ HR. unfold validate_external_ref. repeat wpp_step; [|apply HR..]. bool_tac. by apply HQ.
Qed.

Ltac nft_fin :=
  lazymatch goal with
  | |- True => exact Logic.I
  | H : u256_succ _ = None |- exhausted _ =>
      apply u256_succ_None in H; first [by left|by right]
  end.
(** Follow a dispatchable; errors are rolled back. *)
Ltac nft_go :=
  repeat first
    [ wpp_step
    | progress cbn beta iota zeta
    | lazymatch goal with
      | |- wpp _ (validate_royalties _) _ _ _ => apply validate_royalties_spec; [intros ?|done]
      | |- wpp _ (validate_external_ref _) _ _ _ => apply external_ref_spec; [intros ?|done]
      | |- wpp _ (nft_signed ?o) _ _ _ => is_var o; destruct o; cbn [nft_signed]
      | |- wpp _ (?f _) _ _ _ => progress unfold f
      end
    | nft_fin ].

Ltac nft_close change :=
  repeat match goal with Hu : u256_succ _ = Some _ |- _ => apply u256_succ_Some in Hu; subst end;
  bool_tac; subst; exists change; split_and!; [|cbn|by eexists].
Ltac plain_tac := by eapply J_plain.
Ltac signed_tac := eapply J_signed; [reflexivity|reflexivity|done|].
Ltac mint_tac :=
  split_and!; [done|by split; [eapply fresh_nonempty|]|auto|by apply N.eqb_neq|done].

Lemma mint_single_nft_refines origin ref royalties authority s :
  wpp (exhausted s) (mint_single_nft origin ref royalties authority) s
    (λ _ s', does (Called origin (NftCall.mint_single_nft ref royalties authority)) s s') (λ _ _, True).
Proof.
  unfold mint_single_nft, bounded_external_ref, validate_mint_single_nft_request, get_unique_id_and_advance,
    get_info_id_and_advance, bounded_royalties, insert_single_nft_into_chain, add_nft, nft_event. nft_go.
  nft_close (Mint ref royalties authority who); [plain_tac|].
  mint_tac.
Qed.
Lemma signed_mint_single_nft_refines origin proof ref royalties authority s :
  wpp (exhausted s) (signed_mint_single_nft origin proof ref royalties authority) s
    (λ _ s', does (Called origin (NftCall.signed_mint_single_nft proof ref royalties authority)) s s') (λ _ _, True).
Proof.
  unfold signed_mint_single_nft, bounded_external_ref, validate_mint_single_nft_request, get_unique_id_and_advance,
    get_info_id_and_advance, bounded_royalties, insert_single_nft_into_chain, add_nft, nft_event. nft_go.
  nft_close (Mint ref royalties authority (Proof_.signer proof)); [by signed_tac|mint_tac].
Qed.
Lemma signed_create_batch_refines origin proof supply royalties authority s :
  wpp (exhausted s) (signed_create_batch origin proof supply royalties authority) s
    (λ _ s', does (Called origin (NftCall.signed_create_batch proof supply royalties authority)) s s') (λ _ _, True).
Proof.
  unfold signed_create_batch, get_unique_id_and_advance, get_info_id_and_advance, bounded_royalties, create_batch,
    bump_batch_nonce, nft_event. nft_go.
  nft_close (CreateBatch supply royalties authority (Proof_.signer proof)); [by signed_tac|].
  split_and!; [lia..|auto|by apply N.eqb_neq|done].
Qed.

Lemma owned_intro who id s n : NftStorage.Nfts s !! id = Some n → Nft.owner n = who → owned_by who id s.
Proof. unfold owned_by. by intros -> <-. Qed.
Lemma list_nft_open_for_sale_refines origin id market s :
  wpp (exhausted s) (list_nft_open_for_sale origin id market) s
    (λ _ s', does (Called origin (NftCall.list_nft_open_for_sale id market)) s s') (λ _ _, True).
Proof.
  unfold list_nft_open_for_sale, validate_open_for_sale_request, try_get_nft, open_nft_for_sale, nft_event. nft_go.
  nft_close (ListNft id market); [|done]. eapply J_plain; [done|]. by eapply owned_intro.
Qed.
Lemma encoded_nft (proof : Proof_.t NftSignature) id s n (f : Z → NftPayload.t) :
  NftStorage.Nfts s !! id = Some n →
  pair proof <$> encoded (nft ← try_get_nft id; mret (f (Nft.nonce nft))) s = Some (proof, f (Nft.nonce n)).
Proof. intros Hn. unfold encoded, try_get_nft, mbind, M_bind, gets. cbn. by rewrite Hn. Qed.
Lemma nft_market id m s :
  get_nft_open_for_sale_on id s = m → m ≠ NftSaleType.Unknown → NftStorage.NftOpenForSale s !! id = Some m.
Proof. unfold get_nft_open_for_sale_on. destruct (_ !! id); cbn; intros <-; done. Qed.
Lemma batch_market b m s :
  get_batch_sale_market b s = m → m ≠ NftSaleType.Unknown → NftStorage.BatchOpenForSale s !! b = Some m.
Proof. unfold get_batch_sale_market. destruct (_ !! b); cbn; intros <-; done. Qed.
Ltac signed_nft_tac payload :=
  eapply J_signed; [reflexivity|eapply (encoded_nft _ _ _ _ payload); eassumption|done|].
Lemma signed_list_nft_open_for_sale_refines origin proof id market s :
  wpp (exhausted s) (signed_list_nft_open_for_sale origin proof id market) s
    (λ _ s', does (Called origin (NftCall.signed_list_nft_open_for_sale proof id market)) s s') (λ _ _, True).
Proof.
  unfold signed_list_nft_open_for_sale, validate_open_for_sale_request, encode_list_nft_for_sale_params, try_get_nft,
    open_nft_for_sale, nft_event. nft_go.
  nft_close (ListNft id market); [|done].
  signed_nft_tac (NftPayload.SIGNED_LIST_NFT_OPEN_FOR_SALE_CONTEXT (Proof_.relayer proof) id market). cbn. eauto using owned_intro.
Qed.
Lemma signed_transfer_fiat_nft_refines origin proof id to s :
  wpp (exhausted s) (signed_transfer_fiat_nft origin proof id to) s
    (λ _ s', does (Called origin (NftCall.signed_transfer_fiat_nft proof id to)) s s') (λ _ _, True).
Proof.
  unfold signed_transfer_fiat_nft, validate_nft_open_for_fiat_sale, encode_transfer_fiat_nft_params, try_get_nft,
    transfer_nft, remove_listing_from_open_for_sale, update_owner_for_transfer, nft_event. nft_go.
  nft_close (Move id to); [|split; [by apply not_eq_None_Some|by eexists]].
  signed_nft_tac (NftPayload.SIGNED_TRANSFER_FIAT_NFT_CONTEXT (Proof_.relayer proof) id to).
  split; [eauto using owned_intro|by apply nft_market].
Qed.
Lemma signed_cancel_list_fiat_nft_refines origin proof id s :
  wpp (exhausted s) (signed_cancel_list_fiat_nft origin proof id) s
    (λ _ s', does (Called origin (NftCall.signed_cancel_list_fiat_nft proof id)) s s') (λ _ _, True).
Proof.
  unfold signed_cancel_list_fiat_nft, validate_nft_open_for_fiat_sale, encode_cancel_list_fiat_nft_params, try_get_nft,
    unlist_nft_for_sale, remove_listing_from_open_for_sale, nft_event. nft_go.
  nft_close (Unlist id); [|split; [by apply not_eq_None_Some|by eexists]].
  signed_nft_tac (NftPayload.SIGNED_CANCEL_LIST_FIAT_NFT_CONTEXT (Proof_.relayer proof) id).
  split; [eauto using owned_intro|by apply nft_market].
Qed.

Lemma batch_info_intro batch s info :
  NftStorage.BatchInfoId s !! batch ≠ None →
  NftStorage.NftInfos s !! unwrap_or 0%N (NftStorage.BatchInfoId s !! batch) = Some info →
  batch_info batch s = Some info.
Proof. unfold batch_info. by destruct (_ !! batch). Qed.
Lemma created_intro who batch s info :
  batch_info batch s = Some info → NftInfo.creator info = Some who → created_by who batch s.
Proof. unfold created_by. by intros ->. Qed.
#[local] Hint Resolve batch_info_intro created_intro : nft.

Lemma signed_list_batch_for_sale_refines origin proof batch market s :
  wpp (exhausted s) (signed_list_batch_for_sale origin proof batch market) s
    (λ _ s', does (Called origin (NftCall.signed_list_batch_for_sale proof batch market)) s s') (λ _ _, True).
Proof.
  unfold signed_list_batch_for_sale, get_nft_info_for_batch, bump_batch_nonce, nft_event. nft_go.
  nft_close (ListBatch batch market (Proof_.signer proof)).
  - signed_tac. cbn. eauto with nft.
  - split_and!; [done..|]. eexists. split; [by apply batch_info_intro|]. unfold sold_out. lia.
Qed.
Lemma signed_end_batch_sale_refines origin proof batch s :
  wpp (exhausted s) (signed_end_batch_sale origin proof batch) s
    (λ _ s', does (Called origin (NftCall.signed_end_batch_sale proof batch)) s s') (λ _ _, True).
Proof.
  unfold signed_end_batch_sale, validate_end_batch_listing_request, get_nft_info_for_batch, end_batch_listing,
    bump_batch_nonce, nft_event. nft_go.
  nft_close (EndBatch batch (Some (Proof_.signer proof))); [|by apply not_eq_None_Some].
  signed_tac. split_and!; [done|by eauto with nft|by apply batch_market].
Qed.

(** The supply of a batch fits a bounded vector, so a mint fails before it writes. *)
Lemma mint_batch_nft_refines P batch owner index ref s :
  (∀ info, batch_info batch s = Some info → NftInfo.total_supply info <= BatchBound) →
  (length ref ≤ NftMintData.NftExternalRefBound)%nat →
  wpp P (mint_batch_nft batch owner index ref) s
    (λ _ s', allowed (MintBatch batch index owner ref) s ∧ extends (applied (MintBatch batch index owner ref) s) s')
    (λ _ s', s' = s).
Proof.
  intros Hb Hl. unfold mint_batch_nft, validate_mint_batch_nft_request, get_nft_info_for_batch, add_nft, nft_event.
  nft_go; try done; bool_tac;
    pose proof (batch_info_intro batch s _ ltac:(eassumption) ltac:(eassumption)) as Hi.
  - split; [|unfold extends, applied; rewrite Hi; by eexists].
    split_and!; [done|by split; [eapply fresh_nonempty|]|done|by apply not_eq_None_Some|]. eexists. split; [done|]. unfold sold_out. lia.
  - apply Hb in Hi. unfold nft_batches in *. cbn in *. lia.
Qed.
Lemma signed_mint_batch_nft_refines origin proof batch index owner ref s :
  (∀ info, batch_info batch s = Some info → NftInfo.total_supply info <= BatchBound) →
  wpp (exhausted s) (signed_mint_batch_nft origin proof batch index owner ref) s
    (λ _ s', does (Called origin (NftCall.signed_mint_batch_nft proof batch index owner ref)) s s') (λ _ _, True).
Proof.
  intros Hb. unfold signed_mint_batch_nft, bounded_external_ref, validate_mint_batch_nft_request, get_nft_info_for_batch.
  nft_go. bool_tac. subst. eapply wpp_mono; [by apply mint_batch_nft_refines| |done].
  intros _ s' [Ha He]. exists (MintBatch batch index owner ref). split_and!; [|done..].
  signed_tac. split; [by eauto with nft|by apply batch_market].
Qed.

Definition room s : Prop :=
  ∀ batch info, batch_info batch s = Some info → NftInfo.total_supply info <= BatchBound.
(** A call: it does something, or fails and leaves no trace. *)
Definition refines (a : NftAction) s : Prop :=
  wpp (exhausted s) (nft_do a) s (λ _ s', does a s s') (λ _ s', s' = s).

Lemma does_relayed proof call c s s' :
  signed_change call = Some (proof, c) →
  does (Called (Signed (Proof_.signer proof)) call) s s' →
  does (Called (Signed (Proof_.relayer proof)) (NftCall.proxy (Some call))) s s'.
Proof.
  intros Hs (c' & Hj & Ha & He). exists c'. split_and!; [|done..]. eapply J_relayed; [|done].
  inversion Hj; subst; [by destruct call|congruence|done].
Qed.
Lemma does_event a s s' e : does a s s' → does a s (NftStorage.upd_events (λ l, l ++ [e]) s').
Proof.
  intros (c & Hj & Ha & l & ->). exists c. split_and!; [done..|]. exists (l ++ [e]).
  unfold NftStorage.upd_events. cbn. by rewrite app_assoc.
Qed.

#[local] Hint Resolve mint_single_nft_refines signed_mint_single_nft_refines list_nft_open_for_sale_refines
  signed_list_nft_open_for_sale_refines signed_transfer_fiat_nft_refines signed_cancel_list_fiat_nft_refines
  signed_create_batch_refines signed_mint_batch_nft_refines signed_list_batch_for_sale_refines
  signed_end_batch_sale_refines : nft.
Definition direct (call : NftCall.t NftSignature) : Prop :=
  match call with NftCall.proxy _ => False | _ => True end.
Lemma direct_refines origin call s : direct call → room s → refines (Called origin call) s.
Proof.
  intros Hd Hr. destruct call; try done; unfold refines; cbn [nft_do nft_call]; apply wpp_transactional;
    (eapply wpp_mono; [|by intros ? ? Hdoes; exact Hdoes|done]); eauto with nft.
Qed.
Lemma get_proof_spec P call s (Q : Proof_.t NftSignature → NftStorage.t → Prop) (R : NftFault.t → NftStorage.t → Prop) :
  (∀ inner proof c, call = Some inner → signed_change inner = Some (proof, c) → Q proof s) → (∀ e, R e s) →
  wpp P (nft_get_proof call) s Q R.
Proof. intros HQ HR. destruct call as [[]|]; cbn; wpp_step; eauto. Qed.
Lemma call_refines origin call s : room s → refines (Called origin call) s.
Proof.
  intros Hr. destruct call as [| | | | | |call| | | |]; try by apply direct_refines.
  unfold refines. cbn [nft_do nft_call]. apply wpp_transactional. wpp_step.
  destruct origin as [|relayer|]; cbn [nft_signed]; wpp_step; [done| |done]. wpp_step.
  apply get_proof_spec; [|done]. intros inner proof c -> Hs. wpp_step. wpp_step; [|done]. bool_tac. subst. wpp_step.
  eapply wpp_mono; [apply (direct_refines _ inner s); [by destruct inner|done]| |done].
  intros [] s' Hd. unfold nft_event. wpp_step. apply does_event. by eapply does_relayed.
Qed.

(** ** Events refine changes *)

Definition nft_data (d : EventData.t) : Prop :=
  match d with
  | EventData.LogNftTransferTo _ | EventData.LogNftCancelListing _ | EventData.LogNftMinted _
  | EventData.LogNftEndBatchListing _ => True
  | _ => False
  end.
Lemma wpp_event P processed event c (m : NftM unit) s :
  processed (EthEvent.event_id event) = true → reported event c s →
  wpp P m s (λ _ s', allowed c s ∧ extends (applied c s) s') (λ _ s', s' = s) →
  wpp P m s (λ _ s', does (Heard processed event) s s') (λ _ s', s' = s).
Proof.
  intros Hp Hc Hw. eapply wpp_mono; [exact Hw| |done]. intros [] s' [? ?]. exists c. split_and!; [|done..]. by apply J_event.
Qed.
Lemma nonce_intro id s n op :
  NftStorage.Nfts s !! id = Some n → (op =? Nft.nonce n) = true → Nft.nonce <$> NftStorage.Nfts s !! id = Some op.
Proof. intros -> Hn. cbn. f_equal. lia. Qed.
Lemma event_refines processed event s :
  room s → typed_action (Heard processed event) → nft_data (EthEvent.event_data event) →
  refines (Heard processed event) s.
Proof.
  intros Hr Ht Hd. destruct event as [id data]. unfold refines. cbn [nft_do]. unfold nft_processed_event_handler.
  cbn in Ht, Hd |- *. destruct data as [| | |d|d|d|d| | | | | |]; try done.
  - unfold process_mint_batch_nft_event. repeat (wpp_step; try done). bool_tac.
    eapply (wpp_event _ _ _ (MintBatch _ _ _ _)); [done| |apply mint_batch_nft_refines; [apply Hr|done]].
    split_and!; [done..|]. by apply batch_market.
  - unfold transfer_eth_nft, try_get_nft, transfer_nft, remove_listing_from_open_for_sale, update_owner_for_transfer,
      nft_event. repeat (wpp_step; try done). nft_close (Move (NftTransferToData.nft_id d) (NftTransferToData.t2_transfer_to_public_key d)).
    + apply J_event; [done|]. split_and!; [done..|by apply nft_market|by eapply nonce_intro].
    + split; [by apply not_eq_None_Some|by eexists].
  - unfold cancel_eth_nft_listing, try_get_nft, unlist_nft_for_sale, remove_listing_from_open_for_sale, nft_event.
    repeat (wpp_step; try done). nft_close (Unlist (NftCancelListingData.nft_id d)).
    + apply J_event; [done|]. split_and!; [done..|by apply nft_market|by eapply nonce_intro].
    + split; [by apply not_eq_None_Some|by eexists].
  - unfold process_end_batch_listing_event, end_batch_listing, validate_end_batch_listing_request, nft_event.
    repeat (wpp_step; try done). nft_close (EndBatch (NftEndBatchListingData.batch_id d) None).
    + apply J_event; [done|]. split_and!; [done..|by apply batch_market].
    + by apply not_eq_None_Some.
Qed.

(** ** The invariant of the book *)

Definition nft_wf (id : NftId) (n : Nft.t) : Prop :=
  Nft.nft_id n = id ∧ ref_ok (Nft.unique_external_ref n) ∧ 0 <= Nft.nonce n <= u64_max ∧ Nft.is_locked n = false.
(** An NFT on its own, or a batch that is found under its identifier. *)
Definition info_wf (ids : gmap NftBatchId NftInfoId) (i : NftInfoId) (info : NftInfo.t) : Prop :=
  NftInfo.info_id info = i ∧ NftInfo.t1_authority info ≠ 0%N ∧ royalties_ok (NftInfo.royalties info) ∧
  match NftInfo.batch_id info with
  | None => NftInfo.total_supply info = 1 ∧ NftInfo.creator info = None
  | Some b => ids !! b = Some i ∧ 0 < NftInfo.total_supply info <= BatchBound ∧ is_Some (NftInfo.creator info)
  end.
Definition in_batch (nfts : gmap NftId Nft.t) (infos : gmap NftInfoId NftInfo.t) (b : NftBatchId) (id : NftId) : Prop :=
  ∃ n info, nfts !! id = Some n ∧ infos !! Nft.info_id n = Some info ∧ NftInfo.batch_id info = Some b.
Definition listing_ok {A} (known : gmap N A) (listed : gmap N NftSaleType.t) : Prop :=
  ∀ k m, listed !! k = Some m → m ≠ NftSaleType.Unknown ∧ is_Some (known !! k).

Record nft_inv (nfts : gmap NftId Nft.t) (infos : gmap NftInfoId NftInfo.t) (batches : gmap NftBatchId (list NftId))
    (ids : gmap NftBatchId NftInfoId) (refs : gmap bytes bool) (next : NftInfoId)
    (listed open : gmap N NftSaleType.t) : Prop := {
  inv_nft id n : nfts !! id = Some n →
    nft_wf id n ∧ refs !! Nft.unique_external_ref n = Some true ∧ is_Some (infos !! Nft.info_id n);
  inv_refs id1 id2 n1 n2 : nfts !! id1 = Some n1 → nfts !! id2 = Some n2 →
    Nft.unique_external_ref n1 = Nft.unique_external_ref n2 → id1 = id2;
  inv_used r b : refs !! r = Some b → b = true ∧ ∃ id n, nfts !! id = Some n ∧ Nft.unique_external_ref n = r;
  inv_info i info : infos !! i = Some info → info_wf ids i info ∧ (i < next)%N;
  inv_ids b i : ids !! b = Some i → ∃ info, infos !! i = Some info ∧ NftInfo.batch_id info = Some b;
  inv_members b id : id ∈ unwrap_or [] (batches !! b) ↔ in_batch nfts infos b id;
  inv_supply b l : batches !! b = Some l → NoDup l ∧
    ∃ i info, ids !! b = Some i ∧ infos !! i = Some info ∧ Z.of_nat (length l) <= NftInfo.total_supply info;
  inv_single id1 id2 n1 n2 info : nfts !! id1 = Some n1 → nfts !! id2 = Some n2 →
    Nft.info_id n1 = Nft.info_id n2 → infos !! Nft.info_id n1 = Some info → NftInfo.batch_id info = None → id1 = id2;
  inv_listed : listing_ok nfts listed;
  inv_open : listing_ok ids open;
}.
Arguments inv_nft {_ _ _ _ _ _ _ _}.
Arguments inv_refs {_ _ _ _ _ _ _ _}.
Arguments inv_used {_ _ _ _ _ _ _ _}.
Arguments inv_info {_ _ _ _ _ _ _ _}.
Arguments inv_ids {_ _ _ _ _ _ _ _}.
Arguments inv_members {_ _ _ _ _ _ _ _}.
Arguments inv_supply {_ _ _ _ _ _ _ _}.
Arguments inv_single {_ _ _ _ _ _ _ _}.
Arguments inv_listed {_ _ _ _ _ _ _ _}.
Arguments inv_open {_ _ _ _ _ _ _ _}.
Definition nft_ok s : Prop :=
  nft_inv (NftStorage.Nfts s) (NftStorage.NftInfos s) (NftStorage.NftBatches s) (NftStorage.BatchInfoId s)
    (NftStorage.UsedExternalReferences s) (NftStorage.NextInfoId s) (NftStorage.NftOpenForSale s)
    (NftStorage.BatchOpenForSale s).

Lemma listing_insert {A} (known : gmap N A) listed k m :
  listing_ok known listed → m ≠ NftSaleType.Unknown → is_Some (known !! k) → listing_ok known (<[k := m]> listed).
Proof. intros Hl Hm Hk k' m' [[-> ->]|[? ?]]%lookup_insert_Some; [done|by apply Hl]. Qed.
Lemma listing_delete {A} (known : gmap N A) listed k : listing_ok known listed → listing_ok known (delete k listed).
Proof. intros Hl k' m' [? ?]%lookup_delete_Some. by apply Hl. Qed.
Lemma listing_mono {A} (known known' : gmap N A) listed :
  (∀ k, is_Some (known !! k) → is_Some (known' !! k)) → listing_ok known listed → listing_ok known' listed.
Proof. intros Hk Hl k m [? ?]%Hl. auto. Qed.

Lemma nft_empty_ok : nft_ok NftStorage.empty.
Proof.
  unfold nft_ok, listing_ok. cbn. split; unfold listing_ok; setoid_rewrite lookup_empty; try done.
  intros b id. cbn. split; [by intros ?%not_elem_of_nil|]. by intros (n & info & Hn & _).
Qed.

Section Changes.
Context (nfts : gmap NftId Nft.t) (infos : gmap NftInfoId NftInfo.t) (batches : gmap NftBatchId (list NftId)).
Context (ids : gmap NftBatchId NftInfoId) (refs : gmap bytes bool) (next : NftInfoId).
Context (listed open : gmap N NftSaleType.t).
Context (I : nft_inv nfts infos batches ids refs next listed open).

(** Only the nonce and the owner of an NFT change. *)
Definition alike (n n' : Nft.t) : Prop :=
  Nft.nft_id n' = Nft.nft_id n ∧ Nft.info_id n' = Nft.info_id n ∧
  Nft.unique_external_ref n' = Nft.unique_external_ref n ∧ Nft.is_locked n' = Nft.is_locked n ∧
  (0 <= Nft.nonce n <= u64_max → 0 <= Nft.nonce n' <= u64_max).
Lemma alike_refl n : alike n n.
Proof. unfold alike. tauto. Qed.
Lemma altered f id k n' : (∀ n, alike n (f n)) → alter f id nfts !! k = Some n' → ∃ n, nfts !! k = Some n ∧ alike n n'.
Proof.
  intros Hf [(-> & n & Hn & ->)|[_ Hn]]%lookup_alter_Some; by eauto using alike_refl.
Qed.
Lemma unaltered f id k n : (∀ n, alike n (f n)) → nfts !! k = Some n → ∃ n', alter f id nfts !! k = Some n' ∧ alike n n'.
Proof.
  intros Hf Hn. destruct (decide (id = k)) as [->|Hk].
  - exists (f n). by rewrite lookup_alter_eq, Hn.
  - exists n. rewrite lookup_alter_ne by done. auto using alike_refl.
Qed.
Lemma touched_ok f id listed' :
  (∀ n, alike n (f n)) → listing_ok nfts listed' → nft_inv (alter f id nfts) infos batches ids refs next listed' open.
Proof.
  intros Hf Hl. destruct I. split; [..|done].
  - intros k n' (n & Hn & Ha)%altered; [|done]. destruct Ha as (E1 & E2 & E3 & E4 & E5).
    apply inv_nft0 in Hn as [(? & ? & ? & ?) ?]. unfold nft_wf.
    rewrite E1, E2, E3, E4. tauto.
  - intros k1 k2 n1' n2' (n1 & Hn1 & A1)%altered (n2 & Hn2 & A2)%altered; [|done..]. unfold alike in *.
    intros. eapply inv_refs0; [done..|]. destruct_and!. congruence.
  - intros r b Hr. destruct (inv_used0 r b Hr) as (? & k & n & Hn & <-). split; [done|].
    destruct (unaltered f id k n Hf Hn) as (n' & Hn' & A). exists k, n'. by unfold alike in *; destruct_and!.
  - done.
  - done.
  - intros b k. rewrite inv_members0. split.
    + intros (n & info & Hn & Hi & Hb). destruct (unaltered f id k n Hf Hn) as (n' & Hn' & _ & E & _).
      exists n', info. by rewrite E.
    + intros (n' & info & (n & Hn & _ & E & _)%altered & Hi & Hb); [|done]. exists n, info. by rewrite <- E.
  - done.
  - intros k1 k2 n1' n2' info (n1 & Hn1 & _ & E1 & _)%altered (n2 & Hn2 & _ & E2 & _)%altered; [|done..].
    rewrite E1, E2. eauto.
  - eapply listing_mono; [|exact Hl]. intros k [n Hn]. destruct (unaltered f id k n Hf Hn) as (n' & -> & _). done.
Qed.

Lemma opened_ok open' : listing_ok ids open' → nft_inv nfts infos batches ids refs next listed open'.
Proof. intros Ho. by destruct I. Qed.

(** A new NFT, under a reference nothing has used. *)
Section Recorded.
Context (id : NftId) (n : Nft.t) (Hid : nfts !! id = None) (Hn : nft_wf id n).
Context (Hr : refs !! Nft.unique_external_ref n = None).
Lemma ref_unused k m : nfts !! k = Some m → Nft.unique_external_ref m ≠ Nft.unique_external_ref n.
Proof. intros Hm Heq. apply (inv_nft I) in Hm as (_ & Hu & _). congruence. Qed.
Lemma recorded_refs k1 k2 m1 m2 :
  <[id := n]> nfts !! k1 = Some m1 → <[id := n]> nfts !! k2 = Some m2 →
  Nft.unique_external_ref m1 = Nft.unique_external_ref m2 → k1 = k2.
Proof.
  intros [[<- <-]|[? H1]]%lookup_insert_Some [[<- <-]|[? H2]]%lookup_insert_Some Heq; [done| | |].
  - apply ref_unused in H2. congruence.
  - by apply ref_unused in H1.
  - by eapply (inv_refs I).
Qed.
Lemma recorded_used r b :
  <[Nft.unique_external_ref n := true]> refs !! r = Some b →
  b = true ∧ ∃ k m, <[id := n]> nfts !! k = Some m ∧ Nft.unique_external_ref m = r.
Proof.
  intros [[<- <-]|[? Hb]]%lookup_insert_Some.
  - split; [done|]. exists id, n. by rewrite lookup_insert_eq.
  - destruct (inv_used I r b Hb) as (-> & k & m & Hk & <-). split; [done|]. exists k, m.
    rewrite lookup_insert_ne by congruence. done.
Qed.
Lemma recorded_nft (infos' : gmap NftInfoId NftInfo.t) k m :
  (∀ i, is_Some (infos !! i) → is_Some (infos' !! i)) → is_Some (infos' !! Nft.info_id n) →
  <[id := n]> nfts !! k = Some m →
  nft_wf k m ∧ <[Nft.unique_external_ref n := true]> refs !! Nft.unique_external_ref m = Some true ∧
  is_Some (infos' !! Nft.info_id m).
Proof.
  intros Hi Hni [[<- <-]|[? Hm]]%lookup_insert_Some; [by rewrite lookup_insert_eq|].
  pose proof (ref_unused k m Hm) as Hne. apply (inv_nft I) in Hm as (? & ? & ?).
  rewrite lookup_insert_ne by done. auto.
Qed.
Lemma recorded_listed : listing_ok (<[id := n]> nfts) listed.
Proof.
  eapply listing_mono; [|apply (inv_listed I)]. intros k Hk. apply lookup_insert_is_Some. 
  destruct (decide (id = k)); auto.
Qed.
End Recorded.

Lemma next_fresh : infos !! next = None.
Proof. destruct (infos !! next) eqn:Hi; [|done]. apply (inv_info I) in Hi as [_ ?]. lia. Qed.
Lemma old_info id n : nfts !! id = Some n → Nft.info_id n ≠ next.
Proof. intros Hn Heq. apply (inv_nft I) in Hn as (_ & _ & Hi). rewrite Heq, next_fresh in Hi. by destruct Hi. Qed.
Lemma info_wf_mono ids' i info :
  (∀ b j, ids !! b = Some j → ids' !! b = Some j) → info_wf ids i info → info_wf ids' i info.
Proof. unfold info_wf. intros Hm (? & ? & ? & Hb). destruct (NftInfo.batch_id info); naive_solver. Qed.

Lemma minted_ok id ref royalties authority owner :
  nfts !! id = None → refs !! ref = None → ref_ok ref → royalties_ok royalties → authority ≠ 0%N →
  nft_inv (<[id := Nft.new id next ref owner]> nfts) (<[next := NftInfo.new next royalties authority]> infos)
    batches ids (<[ref := true]> refs) (N.succ next) listed open.
Proof.
  intros Hid Hr Hro Hroy Hau. set (n := Nft.new id next ref owner).
  assert (Hn : nft_wf id n) by (split_and!; [done..|by cbn|by cbn|done]). split.
  - intros k m. apply (recorded_nft id n Hn Hr).
    + intros i Hi. apply lookup_insert_is_Some. destruct (decide (next = i)); auto.
    + by rewrite lookup_insert_eq.
  - exact (recorded_refs id n Hr).
  - exact (recorded_used id n Hid).
  - intros i info [[<- <-]|[? Hi]]%lookup_insert_Some; [split; [by split_and!|lia]|].
    apply (inv_info I) in Hi as [? ?]. split; [done|lia].
  - intros b i Hb. destruct (inv_ids I b i Hb) as (info & Hi & ?). exists info. split; [|done].
    rewrite lookup_insert_ne; [done|]. intros <-. rewrite next_fresh in Hi. done.
  - intros b k. rewrite (inv_members I). unfold in_batch. split.
    + intros (m & info & Hm & Hi & Hb). exists m, info. pose proof (old_info k m Hm).
      rewrite !lookup_insert_ne by congruence. done.
    + intros (m & info & [[<- <-]|[? Hm]]%lookup_insert_Some & Hi & Hb).
      * cbn in Hi. rewrite lookup_insert_eq in Hi. by simplify_eq.
      * pose proof (old_info k m Hm). rewrite lookup_insert_ne in Hi by done. eauto.
  - intros b l Hb. destruct (inv_supply I b l Hb) as (? & i & info & ? & Hi & ?). split; [done|]. exists i, info.
    rewrite lookup_insert_ne; [done|]. intros <-. rewrite next_fresh in Hi. done.
  - intros k1 k2 m1 m2 info [[<- <-]|[? H1]]%lookup_insert_Some [[<- <-]|[? H2]]%lookup_insert_Some Heq Hi Hb; [done| | |].
    + by apply old_info in H2.
    + by apply old_info in H1.
    + pose proof (old_info k1 m1 H1). rewrite lookup_insert_ne in Hi by done. by eapply (inv_single I).
  - exact (recorded_listed id n).
  - exact (inv_open I).
Qed.
Lemma members_push b' b id k :
  k ∈ unwrap_or [] (<[b := unwrap_or [] (batches !! b) ++ [id]]> batches !! b') ↔
  k ∈ unwrap_or [] (batches !! b') ∨ b' = b ∧ k = id.
Proof.
  destruct (decide (b' = b)) as [->|Hne].
  - rewrite lookup_insert_eq. cbn. rewrite elem_of_app, list_elem_of_singleton. tauto.
  - rewrite lookup_insert_ne by done. tauto.
Qed.
Lemma batch_minted_ok id b i info ref owner :
  nfts !! id = None → refs !! ref = None → ref_ok ref → ids !! b = Some i → infos !! i = Some info →
  Z.of_nat (length (unwrap_or [] (batches !! b))) < NftInfo.total_supply info →
  nft_inv (<[id := Nft.new id i ref owner]> nfts) infos (<[b := unwrap_or [] (batches !! b) ++ [id]]> batches) ids
    (<[ref := true]> refs) next listed open.
Proof.
  intros Hid Hr Hro Hb Hi Hlen. set (n := Nft.new id i ref owner).
  assert (Hn : nft_wf id n) by (split_and!; [done..|by cbn|by cbn|done]).
  destruct (inv_ids I b i Hb) as (info' & Hi' & Hbi). simplify_eq.
  assert (Hnew : ∀ b', id ∉ unwrap_or [] (batches !! b')).
  { intros b' (m & ? & Hm & _)%(inv_members I). congruence. }
  split.
  - intros k m. by apply (recorded_nft id n Hn Hr).
  - exact (recorded_refs id n Hr).
  - exact (recorded_used id n Hid).
  - exact (inv_info I).
  - exact (inv_ids I).
  - intros b' k. rewrite members_push, (inv_members I). unfold in_batch. split.
    + intros [(m & info' & Hm & Hi' & Hb')|[-> ->]].
      * exists m, info'. rewrite lookup_insert_ne by congruence. done.
      * exists n, info. by rewrite lookup_insert_eq.
    + intros (m & info' & [[<- <-]|[? Hm]]%lookup_insert_Some & Hi' & Hb'); [|left; by eauto].
      cbn in Hi'. right. by simplify_eq.
  - intros b' l [[<- <-]|[? Hl]]%lookup_insert_Some; [|by apply (inv_supply I)]. split.
    + apply NoDup_app. split_and!; [|by intros k Hk ->%list_elem_of_singleton; by apply (Hnew b)|apply NoDup_singleton].
      destruct (batches !! b) as [l|] eqn:Hl; cbn; [by apply (inv_supply I) in Hl as [? ?]|constructor].
    + exists i, info. rewrite length_app. cbn. split_and!; [done..|lia].
  - intros k1 k2 m1 m2 info' [[<- <-]|[? H1]]%lookup_insert_Some [[<- <-]|[? H2]]%lookup_insert_Some Heq Hi' Hb'; [done| | |].
    + cbn in Hi'. simplify_eq.
    + rewrite Heq in Hi'. cbn in Hi'. simplify_eq.
    + by eapply (inv_single I).
  - exact (recorded_listed id n).
  - exact (inv_open I).
Qed.
Lemma created_ok b supply royalties authority creator :
  ids !! b = None → 0 < supply <= BatchBound → royalties_ok royalties → authority ≠ 0%N →
  nft_inv nfts (<[next := NftInfo.new_batch next b royalties authority supply creator]> infos) batches
    (<[b := next]> ids) refs (N.succ next) listed open.
Proof.
  intros Hb Hs Hroy Hau.
  assert (Hids : ∀ b' j, ids !! b' = Some j → <[b := next]> ids !! b' = Some j).
  { intros b' j Hj. rewrite lookup_insert_ne by congruence. done. }
  assert (Hinf : ∀ i info, infos !! i = Some info →
    <[next := NftInfo.new_batch next b royalties authority supply creator]> infos !! i = Some info).
  { intros i info Hi. rewrite lookup_insert_ne; [done|]. intros <-. rewrite next_fresh in Hi. done. }
  split; [|exact (inv_refs I)|exact (inv_used I)|..].
  - intros k m Hm. apply (inv_nft I) in Hm as (? & ? & info & Hi). split_and!; [done..|]. eexists. by apply Hinf.
  - intros i info [[<- <-]|[? Hi]]%lookup_insert_Some.
    + split; [|lia]. split_and!; [done..|]. cbn. rewrite lookup_insert_eq. eauto.
    + apply (inv_info I) in Hi as [? ?]. split; [by eapply info_wf_mono|lia].
  - intros b' i [[<- <-]|[? Hi]]%lookup_insert_Some; [eexists; by rewrite lookup_insert_eq|].
    destruct (inv_ids I b' i Hi) as (info & ? & ?). eauto.
  - intros b' k. rewrite (inv_members I). unfold in_batch. split.
    + intros (m & info & ? & ? & ?). eauto 6.
    + intros (m & info & Hm & Hi & ?). pose proof (old_info k m Hm). rewrite lookup_insert_ne in Hi by done. eauto.
  - intros b' l Hl. destruct (inv_supply I b' l Hl) as (? & i & info & ? & ? & ?). eauto 8.
  - intros k1 k2 m1 m2 info H1 H2 Heq Hi. pose proof (old_info k1 m1 H1). rewrite lookup_insert_ne in Hi by done.
    by eapply (inv_single I).
  - exact (inv_listed I).
  - eapply listing_mono; [|exact (inv_open I)]. intros b' [j Hj]. eauto.
Qed.
End Changes.

Lemma nft_ok_extends s s' : extends s s' → nft_ok s → nft_ok s'.
Proof. by intros [l ->]. Qed.
Lemma nft_ok_room s : nft_ok s → room s.
Proof.
  intros I b info Hi. unfold batch_info in Hi. destruct (_ !! b) as [i|] eqn:Hb; [|done]. cbn in Hi.
  destruct (inv_ids I b i Hb) as (info' & Hi' & Hbi). simplify_eq. apply (inv_info I) in Hi as [(_ & _ & _ & Hw) _].
  rewrite Hbi in Hw. apply Hw.
Qed.
Lemma unused_None ref s : nft_ok s → fresh_ref ref s → NftStorage.UsedExternalReferences s !! ref = None.
Proof.
  intros I [_ Hu]. unfold is_external_ref_used in Hu. destruct (_ !! ref) as [b|] eqn:Hr; [|done].
  apply (inv_used I) in Hr as [-> _]. done.
Qed.
Lemma bump_alike n : alike n (Nft.bump_nonce n).
Proof. split_and!; [done..|]. intros _. cbn. unfold wrap_to. pose proof (Z.mod_pos_bound (Nft.nonce n + 1) (u64_max + 1)). unfold u64_max in *. lia. Qed.

(** Every change that makes sense keeps the book in order. *)
Lemma applied_ok c s : nft_ok s → allowed c s → nft_ok (applied c s).
Proof.
  intros I. destruct c as [ref royalties authority owner|supply royalties authority creator|b index owner ref|id m|id|id to
    |b m who|b who]; cbn [allowed]; intros Ha.
  - destruct Ha as (Hf & ? & ? & ? & ?). apply (minted_ok _ _ _ _ _ _ _ _ I); auto using unused_None.
  - destruct Ha as (? & ? & ? & ?). by apply (created_ok _ _ _ _ _ _ _ _ I).
  - destruct Ha as (Hf & ? & ? & _ & info & Hi & Hs). unfold nft_ok, applied. rewrite Hi. cbn.
    unfold batch_info in Hi. destruct (_ !! b) as [i|] eqn:Hb; [|done]. cbn in Hi.
    assert (NftInfo.info_id info = i) as -> by by apply (inv_info I) in Hi as [(? & _) _].
    eapply (batch_minted_ok _ _ _ _ _ _ _ _ I); eauto using unused_None. unfold sold_out, nft_batches in Hs. lia.
  - destruct Ha as (? & ? & ?). apply (touched_ok _ _ _ _ _ _ _ _ I); [apply bump_alike|].
    apply listing_insert; [apply (inv_listed I)|done..].
  - apply (touched_ok _ _ _ _ _ _ _ _ I); [apply bump_alike|apply listing_delete, (inv_listed I)].
  - apply (touched_ok _ _ _ _ _ _ _ _ I); [|apply listing_delete, (inv_listed I)].
    intros n. apply (bump_alike (Nft.set_owner to n)).
  - destruct Ha as (? & ? & info & Hi & _). apply (opened_ok _ _ _ _ _ _ _ _ I), listing_insert; [apply (inv_open I)|done|].
    unfold batch_info in Hi. destruct (NftStorage.BatchInfoId s !! b) eqn:Hb; [by eexists|done].
  - assert (Ho : nft_ok (NftStorage.upd_BatchOpenForSale (delete b) s))
      by apply (opened_ok _ _ _ _ _ _ _ _ I), listing_delete, (inv_open I).
    by destruct who.
Qed.

(** ** Every state that is reached *)

Inductive nft_run : list NftAction → NftStorage.t → NftStorage.t → Prop :=
  | Run_none s : nft_run [] s s
  | Run_act a l s r s' s'' :
      typed_action a → nft_do a s = (r, s') → r ≠ Panic → nft_run l s' s'' → nft_run (a :: l) s s''.
Definition nft_reachable s : Prop := ∃ l, nft_run l NftStorage.empty s.

(** An event about something else than NFTs. *)
Definition silent (a : NftAction) : Prop :=
  match a with Called _ _ => False | Heard _ event => ¬ nft_data (EthEvent.event_data event) end.
#[local] Instance nft_data_dec d : Decision (nft_data d).
Proof. destruct d; apply _. Defined.
Lemma nft_silent processed event s :
  ¬ nft_data (EthEvent.event_data event) → nft_do (Heard processed event) s = (Ok (), s).
Proof. destruct event as [id []]; cbn; done || tauto. Qed.
(** What an action comes to. *)
Lemma nft_do_cases a s r s' :
  nft_ok s → typed_action a → nft_do a s = (r, s') →
  match r with Ok _ => does a s s' ∨ silent a ∧ s' = s | Err _ => s' = s | Panic => exhausted s end.
Proof.
  intros Hs Ht Hr. destruct a as [origin call|processed event].
  - pose proof (call_refines origin call s (nft_ok_room s Hs)) as Hw. unfold refines, wpp in Hw. rewrite Hr in Hw.
    destruct r; auto.
  - destruct (decide (nft_data (EthEvent.event_data event))) as [Hd|Hd].
    + pose proof (event_refines processed event s (nft_ok_room s Hs) Ht Hd) as Hw. unfold refines, wpp in Hw.
      rewrite Hr in Hw. destruct r; auto.
    + rewrite nft_silent in Hr by done. simplify_eq. by right.
Qed.
Lemma does_ok a s s' : nft_ok s → does a s s' → nft_ok s'.
Proof. intros Hs (c & _ & Ha & He). eapply nft_ok_extends; [done|]. by apply applied_ok. Qed.
Lemma nft_run_ok l s s' : nft_run l s s' → nft_ok s → nft_ok s'.
Proof.
  induction 1 as [|a l s r s' s'' Ht Hr Hp _ IH]; [done|]. intros Hs. apply IH.
  apply (nft_do_cases a s r s' Hs Ht) in Hr. destruct r; [|by subst|done]. destruct Hr as [?|[_ ->]]; [|done]. by eapply does_ok.
Qed.
Lemma reachable_ok s : nft_reachable s → nft_ok s.
Proof. intros [l Hl]. eapply nft_run_ok; [done|apply nft_empty_ok]. Qed.

(** C20: the book of NFTs is in order in every state that calls and events of Ethereum
    reach: every NFT has its own reference, and the references in use are those of the
    NFTs; an NFT belongs to the batch of its info, or has an info of its own with supply one;
    the NFTs of a batch are distinct and not more than its supply, which fits the bounded
    vector they are kept in; royalties are at most sixteen and together at most the whole
    price; what is listed for sale exists and is in a market. *)
Theorem nft_book_consistent s : nft_reachable s → nft_ok s.
Proof. apply reachable_ok. Qed.

(** C19: the pallet refines the eight changes of the book.  A call or event that succeeds
    makes exactly one change, which makes sense in the state and is justified: the sender of
    the call or the signer of its proof may ask for it, and the proof covers the current
    nonce, or Ethereum reported it.  Other events change nothing, what fails changes nothing,
    even where no storage layer would undo it, and a panic means that identifiers ran out. *)
Theorem nft_refines_book s a r s' :
  nft_reachable s → typed_action a → nft_do a s = (r, s') →
  match r with
  | Ok _ => (∃ c, justified s a c ∧ allowed c s ∧ extends (applied c s) s') ∨ silent a ∧ s' = s
  | Err _ => s' = s
  | Panic => exhausted s
  end.
Proof. intros Hs%reachable_ok. by apply nft_do_cases. Qed.

(** ** Owners *)

(** A signed call is sent by its signer, or by the relayer that it names. *)
Definition sends (call : NftCall.t NftSignature) (proof : Proof_.t NftSignature) (a : NftAction) : Prop :=
  a = Called (Signed (Proof_.signer proof)) call ∨ a = Called (Signed (Proof_.relayer proof)) (NftCall.proxy (Some call)).
Lemma justified_signed s a c :
  justified s a c →
  (∃ who call, a = Called (Signed who) call ∧ plain_change who call = Some c ∧ permitted who c s) ∨
  (∃ call proof payload, sends call proof a ∧ signed_change call = Some (proof, c) ∧
    nft_get_encoded_call_param (Some call) s = Some (proof, payload) ∧ verify_signature proof payload = true ∧
    permitted (Proof_.signer proof) c s) ∨
  (∃ processed event, a = Heard processed event ∧ processed (EthEvent.event_id event) = true ∧ reported event c s).
Proof.
  destruct 1 as [who call c Hp Hc|proof call c payload Hs He Hv Hc|proof call c Hs Hj|processed event c Hp Hc].
  - left. eauto.
  - right; left. exists call, proof, payload. split_and!; try done. by left.
  - right; left. inversion Hj; subst; [by destruct call| |done]. simplify_eq.
    exists call, proof, payload. split_and!; try done. by right.
  - right; right. eauto.
Qed.

(** What a change does to an NFT that exists. *)
Definition retouched (c : NftChange) (id : NftId) (n : Nft.t) : Nft.t :=
  match c with
  | ListNft k _ | Unlist k => if decide (k = id) then Nft.bump_nonce n else n
  | Move k to => if decide (k = id) then Nft.bump_nonce (Nft.set_owner to n) else n
  | _ => n
  end.
Lemma altered_lookup (f : Nft.t → Nft.t) (k id : NftId) n (m : gmap NftId Nft.t) :
  m !! id = Some n → alter f k m !! id = Some (if decide (k = id) then f n else n).
Proof. intros Hn. case_decide as Hk; subst; [by rewrite lookup_alter_eq, Hn|by rewrite lookup_alter_ne]. Qed.
Lemma applied_nft c s id n :
  allowed c s → NftStorage.Nfts s !! id = Some n → NftStorage.Nfts (applied c s) !! id = Some (retouched c id n).
Proof.
  intros Ha Hn. destruct c as [| |b index| | |id' to| |b [who|]]; cbn [allowed] in Ha; cbn -[alter];
    try by apply altered_lookup.
  all: rewrite ?lookup_insert_ne; try done.
  - destruct Ha as (_ & _ & _ & _ & Hnone). congruence.
  - destruct Ha as (_ & _ & Hnone & _). congruence.
  - by rewrite (altered_lookup _ id' id n).
Qed.

(** C21: an NFT never disappears, and changes its owner only in two ways: by a transfer that
    the owner signed, with the current nonce of the NFT, while it is listed for fiat, sent by
    the owner or by the relayer the owner named; or by a processed event of Ethereum that
    carries the current nonce, while it is listed there. *)
Theorem owner_changes_authorised s a s' id n :
  nft_reachable s → typed_action a → nft_do a s = (Ok (), s') → NftStorage.Nfts s !! id = Some n →
  ∃ n', NftStorage.Nfts s' !! id = Some n' ∧
    (Nft.owner n' ≠ Nft.owner n →
      (∃ proof to, sends (NftCall.signed_transfer_fiat_nft proof id to) proof a ∧ Nft.owner n' = to ∧
        Nft.owner n = Proof_.signer proof ∧ NftStorage.NftOpenForSale s !! id = Some NftSaleType.Fiat ∧
        verify_signature proof
          (NftPayload.SIGNED_TRANSFER_FIAT_NFT_CONTEXT (Proof_.relayer proof) id to (Nft.nonce n)) = true) ∨
      (∃ processed event_id d, a = Heard processed (EthEvent.mk event_id (EventData.LogNftTransferTo d)) ∧
        Nft.owner n' = NftTransferToData.t2_transfer_to_public_key d ∧ processed event_id = true ∧
        NftTransferToData.nft_id d = id ∧ NftTransferToData.op_id d = Nft.nonce n ∧
        NftStorage.NftOpenForSale s !! id = Some NftSaleType.Ethereum)).
Proof.
  intros Hs%reachable_ok Ht Hd Hn. apply (nft_do_cases a s _ s' Hs Ht) in Hd as [(c & Hj & Ha & l & ->)|[_ ->]]; [|exists n; by split].
  exists (retouched c id n). split; [by apply applied_nft|]. intros Ho.
  assert (∃ to, c = Move id to ∧ Nft.owner (retouched c id n) = to) as (to & -> & Hto).
  { destruct c; cbn in Ho |- *; try done; case_decide; subst; try done. by eauto. }
  apply justified_signed in Hj as [(who & call & _ & Hp & _)|[(call & proof & payload & Hsend & Hc & He & Hv & Hown & Hl)|
    (processed & [eid data] & -> & Hp & Hrep)]].
  - by destruct call.
  - left. exists proof, to. destruct call; simplify_eq/=. unfold owned_by in Hown. rewrite Hn in Hown. simplify_eq/=.
    pose proof (encoded_nft proof id s n (NftPayload.SIGNED_TRANSFER_FIAT_NFT_CONTEXT (Proof_.relayer proof) id to) Hn)
      as Hp. unfold encode_transfer_fiat_nft_params in He. rewrite He in Hp. by simplify_eq.
  - right. destruct data as [| | | |d| | | | | | | |]; try done. destruct Hrep as (-> & -> & Hl & Ho').
    rewrite Hn in Ho'. simplify_eq/=. eauto 12.
Qed.

(** ** Replays *)

(** [y] is [x] counted on by at most [k], with wrap-around. *)
Definition counted (k x y : Z) : Prop := ∃ j, 0 <= j <= k ∧ wrap_to u64_max y = wrap_to u64_max (x + j).
Lemma counted_refl k x : 0 <= k → counted k x x.
Proof. intros. exists 0. split; [lia|]. f_equal. lia. Qed.
Lemma counted_once x : counted 1 x (x +₆₄ 1).
Proof. exists 1. split; [lia|]. unfold wrap_to. by rewrite Zmod_mod. Qed.
Lemma counted_trans k1 k2 x y z : counted k1 x y → counted k2 y z → counted (k1 + k2) x z.
Proof.
  intros (j1 & ? & H1) (j2 & ? & H2). exists (j1 + j2). split; [lia|]. unfold wrap_to in *.
  rewrite H2, <- Zplus_mod_idemp_l, H1, Zplus_mod_idemp_l. f_equal. lia.
Qed.
Lemma counted_back k x y z : y = x +₆₄ 1 → counted k y z → k < u64_max → z ≠ x.
Proof.
  intros -> (j & Hj & Hw) Hk ->. unfold wrap_to in *. rewrite Zplus_mod_idemp_l in Hw.
  assert ((1 + j) mod (u64_max + 1) = 0) as Hm.
  { replace (1 + j) with ((x + 1 + j) - x) by lia. rewrite Zminus_mod, <- Hw, Z.sub_diag. done. }
  rewrite Z.mod_small in Hm by lia. lia.
Qed.

(** The counter that a signed call must match. *)
Definition nonce_of (call : NftCall.t NftSignature) s : option Z :=
  match call with
  | NftCall.signed_list_nft_open_for_sale _ id _ | NftCall.signed_transfer_fiat_nft _ id _
  | NftCall.signed_cancel_list_fiat_nft _ id => Nft.nonce <$> NftStorage.Nfts s !! id
  | NftCall.signed_create_batch proof _ _ _ | NftCall.signed_list_batch_for_sale proof _ _
  | NftCall.signed_end_batch_sale proof _ => Some (batch_nonce (Proof_.signer proof) s)
  | _ => None
  end.
Lemma same_nonce call s1 s2 p :
  nft_get_encoded_call_param (Some call) s1 = Some p → nft_get_encoded_call_param (Some call) s2 = Some p →
  nonce_of call s1 = nonce_of call s2.
Proof.
  destruct call; cbn; try done.
  all: try (unfold encode_create_batch_params, encode_list_batch_for_sale_params, encode_end_batch_sale_params;
    intros; simplify_eq; congruence).
  all: unfold encoded, encode_list_nft_for_sale_params, encode_transfer_fiat_nft_params, encode_cancel_list_fiat_nft_params,
    try_get_nft, mbind, M_bind, gets; cbn; destruct (_ !! nft_id), (_ !! nft_id); cbn; congruence.
Qed.
Lemma applied_nonce c id n : counted 1 (Nft.nonce n) (Nft.nonce (retouched c id n)).
Proof.
  destruct c; cbn; try (by apply counted_refl); case_decide; cbn; apply counted_once || by apply counted_refl.
Qed.
Lemma count_call_nonce who by_ s :
  batch_nonce who (count_batch_call by_ s) = if decide (by_ = who) then batch_nonce who s +₆₄ 1 else batch_nonce who s.
Proof.
  unfold batch_nonce, count_batch_call. cbn. case_decide as Hw; subst; [by rewrite lookup_insert_eq|by rewrite lookup_insert_ne].
Qed.
Lemma applied_batch_nonce c who s : counted 1 (batch_nonce who s) (batch_nonce who (applied c s)).
Proof.
  destruct c as [|supply r au cr| | | | |b m cr|b [cr|]]; try (by apply counted_refl); cbn [applied from_option].
  all: rewrite count_call_nonce; case_decide; apply counted_once || by apply counted_refl.
Qed.
Lemma later_nonce call c s x :
  allowed c s → nonce_of call s = Some x → ∃ y, nonce_of call (applied c s) = Some y ∧ counted 1 x y.
Proof.
  intros Ha. destruct call; cbn [nonce_of]; intros Hx; try done.
  all: try (eexists; split; [done|]; simplify_eq; apply applied_batch_nonce).
  all: destruct (NftStorage.Nfts s !! nft_id) as [n|] eqn:Hn; [|done]; rewrite (applied_nft c s _ n Ha Hn); cbn in *;
    eexists; (split; [done|]); simplify_eq; apply applied_nonce.
Qed.
Lemma own_nonce call proof c s x :
  signed_change call = Some (proof, c) → allowed c s → nonce_of call s = Some x →
  nonce_of call (applied c s) = Some (x +₆₄ 1).
Proof.
  intros Hc Ha. destruct call; simplify_eq/=; intros Hx; try done.
  all: try (rewrite count_call_nonce, decide_True by done; by simplify_eq).
  all: rewrite lookup_alter_eq; destruct (NftStorage.Nfts s !! nft_id); by simplify_eq/=.
Qed.
(** A reference stays used. *)
Definition ref_of_call (call : NftCall.t NftSignature) : option bytes :=
  match call with
  | NftCall.signed_mint_single_nft _ ref _ _ | NftCall.signed_mint_batch_nft _ _ _ _ ref => Some ref
  | _ => None
  end.
Lemma later_used ref c s : is_external_ref_used ref s = true → is_external_ref_used ref (applied c s) = true.
Proof.
  intros Hu. destruct c as [r| |b index o r| | | | |b [cr|]]; try exact Hu.
  all: unfold is_external_ref_used in *; cbn; destruct (decide (r = ref)) as [->|?];
    [by rewrite lookup_insert_eq|by rewrite lookup_insert_ne].
Qed.
Lemma own_used call proof c s ref :
  signed_change call = Some (proof, c) → ref_of_call call = Some ref → is_external_ref_used ref (applied c s) = true.
Proof.
  intros Hc Hr. destruct call; simplify_eq/=; unfold is_external_ref_used; cbn; by rewrite lookup_insert_eq.
Qed.
Lemma used_refused call proof c s ref :
  signed_change call = Some (proof, c) → ref_of_call call = Some ref → allowed c s → is_external_ref_used ref s = false.
Proof. intros Hc Hr Ha. destruct call; simplify_eq/=; apply Ha. Qed.

Lemma extends_nonce call s s' : extends s s' → nonce_of call s' = nonce_of call s.
Proof. by intros [l ->]. Qed.
Lemma extends_used ref s s' : extends s s' → is_external_ref_used ref s' = is_external_ref_used ref s.
Proof. by intros [l ->]. Qed.
Lemma run_later l s s' :
  nft_run l s s' → nft_ok s →
  (∀ ref, is_external_ref_used ref s = true → is_external_ref_used ref s' = true) ∧
  (∀ call x, nonce_of call s = Some x → ∃ y, nonce_of call s' = Some y ∧ counted (Z.of_nat (length l)) x y).
Proof.
  induction 1 as [s|a l s r s' s'' Ht Hr Hp Hrun IH]; intros Hs.
  { split; [done|]. intros call x Hx. exists x. split; [done|by apply counted_refl]. }
  assert (Hs' : nft_ok s') by (eapply nft_run_ok; [|exact Hs]; eapply Run_act; [..|constructor]; done).
  destruct (IH Hs') as [IHu IHn]. clear IH. apply (nft_do_cases a s r s' Hs Ht) in Hr.
  assert ((∃ c, allowed c s ∧ extends (applied c s) s') ∨ s' = s) as [(c & Ha & He)| ->].
  { destruct r; [|by right|done]. destruct Hr as [(c & _ & ? & ?)|[_ ?]]; eauto. }
  - split.
    + intros ref Hu. apply IHu. rewrite (extends_used _ _ _ He). by apply later_used.
    + intros call x Hx. destruct (later_nonce call c s x Ha Hx) as (y & Hy & Hxy).
      rewrite <- (extends_nonce _ _ _ He) in Hy. destruct (IHn call y Hy) as (z & Hz & Hyz). exists z. split; [done|].
      replace (Z.of_nat (length (a :: l))) with (1 + Z.of_nat (length l)) by (cbn; lia). by eapply counted_trans.
  - split; [done|]. intros call x Hx. destruct (IHn call x Hx) as (y & Hy & j & Hj & Hw). exists y. split; [done|].
    exists j. split; [cbn; lia|done].
Qed.
Lemma signed_does call proof c a s s' :
  nft_ok s → signed_change call = Some (proof, c) → sends call proof a → nft_do a s = (Ok (), s') →
  allowed c s ∧ extends (applied c s) s' ∧
  ∃ payload, nft_get_encoded_call_param (Some call) s = Some (proof, payload) ∧ verify_signature proof payload = true.
Proof.
  intros Hs Hc Ha Hd. assert (Ht : typed_action a) by by destruct Ha as [-> | ->].
  apply (nft_do_cases a s _ s' Hs Ht) in Hd as [(c' & Hj & ? & ?)|[Hsi _]]; [|by destruct Ha as [-> | ->]].
  apply justified_signed in Hj as [(who & call' & -> & Hp & _)|[(call' & proof' & payload & Hs' & Hc' & ? & ? & _)|
    (processed & event & -> & _)]].
  - destruct Ha as [[= -> ->]|[= -> ->]]; [by destruct call|done].
  - assert (call' = call) as -> by (destruct Ha as [-> | ->], Hs' as [|]; simplify_eq; done). simplify_eq. eauto.
  - by destruct Ha.
Qed.
Lemma nonce_known call s p :
  nft_get_encoded_call_param (Some call) s = Some p → ref_of_call call = None → is_Some (nonce_of call s).
Proof.
  destruct call; cbn; try done.
  all: unfold encoded, encode_list_nft_for_sale_params, encode_transfer_fiat_nft_params, encode_cancel_list_fiat_nft_params,
    try_get_nft, mbind, M_bind, gets; cbn; by destruct (_ !! nft_id).
Qed.

(** C22: a signature is good for one use.  When a signed call has been accepted, directly or
    through a relayer, then the payload that the same call needs in any state reached later
    (before a 64-bit counter comes round) is another one, so that accepting it again takes
    another signature; a call that mints is not accepted again at all. *)
Theorem signature_used_once call proof c a1 a2 l s s1 s2 s3 :
  nft_reachable s → signed_change call = Some (proof, c) → sends call proof a1 → sends call proof a2 →
  nft_do a1 s = (Ok (), s1) → nft_run l s1 s2 → Z.of_nat (length l) < u64_max → nft_do a2 s2 = (Ok (), s3) →
  ref_of_call call = None ∧ nft_get_encoded_call_param (Some call) s2 ≠ nft_get_encoded_call_param (Some call) s.
Proof.
  intros Hs%reachable_ok Hc H1 H2 Hd1 Hl Hlen Hd2.
  destruct (signed_does call proof c a1 s s1 Hs Hc H1 Hd1) as (Ha & He & payload & Hp & _).
  assert (Hs1 : nft_ok s1) by (eapply nft_ok_extends; [done|by apply applied_ok]).
  pose proof (nft_run_ok _ _ _ Hl Hs1) as Hs2. destruct (run_later l s1 s2 Hl Hs1) as [Hu Hn].
  destruct (signed_does call proof c a2 s2 s3 Hs2 Hc H2 Hd2) as (Ha2 & _).
  assert (Hr : ref_of_call call = None).
  { destruct (ref_of_call call) as [ref|] eqn:Hr; [|done]. pose proof (used_refused _ _ _ _ _ Hc Hr Ha2) as Hf.
    rewrite Hu in Hf; [done|]. rewrite (extends_used _ _ _ He). by eapply own_used. }
  split; [done|]. intros Heq. destruct (nonce_known call s _ Hp Hr) as [x Hx].
  pose proof (own_nonce _ _ _ _ _ Hc Ha Hx) as Hx1. rewrite <- (extends_nonce _ _ _ He) in Hx1.
  destruct (Hn call _ Hx1) as (y & Hy & Hcy). eapply counted_back; [done|done|done|].
  rewrite Hp in Heq. pose proof (same_nonce _ _ _ _ Heq Hp). congruence.
Qed.
End NftBook.

(** ** A run

    A signature is the list of what it signs.  Account 1 mints an NFT, lists it through the
    relayer 2, takes it back, lists it again with the same signature, which covers both
    nonces, and sells it to account 3. *)

Section Play.
Context `{NftConfig}.
Fixpoint play (l : list NftAction) (s : NftStorage.t) : option NftStorage.t :=
  match l with
  | [] => Some s
  | a :: l => match nft_do a s with (Panic, _) => None | (_, s') => play l s' end
  end.
Lemma play_run l s s' : Forall typed_action l → play l s = Some s' → nft_run l s s'.
Proof.
  intros Hl. revert s. induction Hl as [|a l Ha _ IH]; cbn; intros s Hp; [simplify_eq; constructor|].
  destruct (nft_do a s) as [[] s1] eqn:Hd; try done; eapply Run_act; eauto; done.
Qed.
End Play.

#[local] Instance nft_demo : NftConfig := {|
  BatchBound := 16384;
  keccak_256 l := foldl (λ h b, (h * 31 + b) mod 65521)%N 0%N l;
  NftSignature := list NftPayload.t;
  verify_signature proof payload := bool_decide (payload ∈ Proof_.signature proof);
  hash_of_call _ := 0%N;
|}.
Definition demo_nft : NftId := generate_nft_id_single_mint 7 0.
Definition demo_proof (l : list NftPayload.t) : Proof_.t NftSignature := Proof_.mk 1%N 2%N l.
Definition demo_list : NftCall.t NftSignature :=
  NftCall.signed_list_nft_open_for_sale
    (demo_proof (NftPayload.SIGNED_LIST_NFT_OPEN_FOR_SALE_CONTEXT 2%N demo_nft NftSaleType.Fiat <$> [0; 2]))
    demo_nft NftSaleType.Fiat.
Definition demo_transfer : NftCall.t NftSignature :=
  NftCall.signed_transfer_fiat_nft
    (demo_proof [NftPayload.SIGNED_TRANSFER_FIAT_NFT_CONTEXT 2%N demo_nft 3%N 3]) demo_nft 3%N.
Definition relayed (call : NftCall.t NftSignature) : NftAction := Called (Signed 2%N) (NftCall.proxy (Some call)).
Definition demo_mint : NftAction := Called (Signed 1%N) (NftCall.mint_single_nft [5%N] [] 7%N).
Definition demo_cancel : NftAction :=
  Called (Signed 1%N) (NftCall.signed_cancel_list_fiat_nft
    (demo_proof [NftPayload.SIGNED_CANCEL_LIST_FIAT_NFT_CONTEXT 2%N demo_nft 1]) demo_nft).
Definition played (l : list NftAction) : NftStorage.t := default NftStorage.empty (play l NftStorage.empty).
Definition minted : NftStorage.t := played [demo_mint].
Definition listed_once : NftStorage.t := played [demo_mint; relayed demo_list].
Definition cancelled : NftStorage.t := played [demo_mint; relayed demo_list; demo_cancel].
Definition listed_again : NftStorage.t := played [demo_mint; relayed demo_list; demo_cancel; relayed demo_list].
Definition sold : NftStorage.t :=
  played [demo_mint; relayed demo_list; demo_cancel; relayed demo_list; relayed demo_transfer].

Lemma minted_reachable : nft_reachable minted.
Proof. exists [demo_mint]. apply play_run; [by repeat constructor|]. vm_compute. reflexivity. Qed.
Lemma listed_again_reachable : nft_reachable listed_again.
Proof.
  exists [demo_mint; relayed demo_list; demo_cancel; relayed demo_list]. apply play_run; [by repeat constructor|].
  vm_compute. reflexivity.
Qed.
Lemma first_listing : nft_do (relayed demo_list) minted = (Ok (), listed_once).
Proof. vm_compute. reflexivity. Qed.
Lemma between_listings : nft_run [demo_cancel] listed_once cancelled.
Proof. apply play_run; [by repeat constructor|]. vm_compute. reflexivity. Qed.
Lemma second_listing : nft_do (relayed demo_list) cancelled = (Ok (), listed_again).
Proof. vm_compute. reflexivity. Qed.
Lemma the_sale : nft_do (relayed demo_transfer) listed_again = (Ok (), sold).
Proof. vm_compute. reflexivity. Qed.
Lemma for_sale : ∃ n, NftStorage.Nfts listed_again !! demo_nft = Some n ∧ Nft.owner n = 1%N.
Proof. eexists. vm_compute. split; reflexivity. Qed.

Lemma nft_book_consistent_witness : nft_ok listed_again.
Proof. exact (nft_book_consistent listed_again listed_again_reachable). Defined.
Lemma nft_refines_book_witness :
  (∃ c, justified minted (relayed demo_list) c ∧ allowed c minted ∧ extends (applied c minted) listed_once) ∨
  silent (relayed demo_list) ∧ listed_once = minted.
Proof. exact (nft_refines_book minted (relayed demo_list) _ listed_once minted_reachable Logic.I first_listing). Defined.
Lemma owner_changes_authorised_witness : ∃ n', NftStorage.Nfts sold !! demo_nft = Some n'.
Proof.
  destruct for_sale as (n & Hn & _).
  destruct (owner_changes_authorised listed_again (relayed demo_transfer) sold demo_nft n listed_again_reachable
    Logic.I the_sale Hn) as (n' & Hn' & _).
  by exists n'.
Defined.
Lemma signature_used_once_witness :
  nft_get_encoded_call_param (Some demo_list) cancelled ≠ nft_get_encoded_call_param (Some demo_list) minted.
Proof.
  refine (proj2 (signature_used_once demo_list _ _ (relayed demo_list) (relayed demo_list) [demo_cancel] minted
    listed_once cancelled listed_again minted_reachable eq_refl (or_intror eq_refl) (or_intror eq_refl) first_listing
    between_listings _ second_listing)).
  done.
Defined.
